(* ===== verification/_CoqProject ===== *)
-Q . S2P
Prelude.v
Memory.v
KernelAbi.v
CStrings.v
PreloadInterface.v
Machine.v
SyscallNumbers.v
Syscallbuf.v
Chaos.v
Wrappers.v
Hook.v
BufferInv.v
WrapperInv.v
HookInv.v
Replay.v
History.v
ReplayWrappers.v
ReplayOutputs.v
ReplayHook.v
Tracer.v
ReplayBatch.v
ProtocolSpec.v
Boundaries.v
GdbExpression.v
GdbExpressionSpec.v
TracerMonad.v
Scheduler.v
SchedulerInv.v
SchedulerFair.v
FdTables.v
FdTablesInv.v
CxxStrings.v
MuplayPatch.v
MuplayPatchSpec.v
MuplayDwarf.v
MuplayDwarfSpec.v
Breakpoints.v
MuplayMaps.v
MuplayQuilter.v
MuplaySession.v
MuplaySessionInv.v
Watchpoints.v
WatchpointsSpec.v
KernelMappings.v
AddressMaps.v
AddressMapsInv.v
AddressMapsSpec.v
FreeMemory.v
GdbText.v
GdbConnection.v
GdbRequests.v
GdbReplies.v
GdbEncodingSpec.v
GdbConnectionSpec.v
GdbWire.v
GdbCommands.v
SyscallParams.v
SyscallParamsSpec.v
SyscallScratch.v
SyscallDirect.v
SyscallSockets.v
SyscallPrepare.v
SyscallPrepareSpec.v
SyscallWitnesses.v
GdbWitnesses.v
TracerWitnesses.v
MuplayWitnesses.v
Witnesses.v
CompressedWriter.v
CompressedWriterInv.v
CompressedWriterSpec.v
CompressedReader.v
CompressedReaderSpec.v
CompressedFiles.v
Signals.v
SignalsSpec.v
Monkeypatch.v
MonkeypatchSpec.v
Timeline.v
TimelineSpec.v
