(* ===== verification/Prelude.v ===== *)
(** * A verification library for rr_muplay

    rr records a program by tracing it and replays the recording; rr_muplay (ATTUNE) is a fork
    of rr that replays a recording with a patched program.  This library models the core of it
    and proves that the parts do what they are for.  All paths below are relative to
    [src/rr_muplay/src]; the architecture is x86-64 unless said otherwise.

    How the parts interact.  While recording, most system calls do not trap: the recorder
    patches their instructions ([Monkeypatcher.cc]) so that they call [syscall_hook] of a preload
    library ([preload/syscallbuf.c]), which makes the call and stores its result and outputs in a
    buffer shared with rr.  rr flushes the buffer to the trace ([RecordTask.cc]) and, while
    replaying, puts the records back ([ReplaySession.cc]).  The other calls trap: rr prepares
    them, lets the kernel write to scratch memory and records the outputs ([record_syscall.cc]).
    A scheduler chooses the task that runs next ([Scheduler.cc]); signals are stashed and
    injected ([RecordTask.cc]); address spaces follow the kernel's memory maps
    ([AddressSpace.cc]); descriptors that rr monitors are kept out of the buffer ([FdTable.cc]).
    The trace is stored in compressed files ([CompressedWriter.cc], [CompressedReader.cc]).  A
    replay is driven by a debugger ([GdbConnection.cc]) through a timeline that can go back
    ([ReplayTimeline.cc]), with breakpoints, watchpoints and conditions on them
    ([GdbExpression.cc]).  A mutable replay reads a patch, finds the changed functions and sends
    the replayed program to their new code ([Muplay*.cc]).

    ** Files, and what they model

    Shared: [Prelude] (machine integers [wrapu], [wraps], pointers, tactics), [Memory] (bytes by
    address, C scalars), [TracerMonad] (C++ methods as functions from a state to an outcome and a
    state, with failures for [ASSERT], [FATAL] and undefined accesses; [holds] is the judgement of
    partial correctness), [CxxStrings], [CStrings].  The build is one with [DEBUG] defined: what is
    only asserted there ([DEBUG_ASSERT]) is an assertion of the model.

    - The syscall buffer.  [KernelAbi] ([kernel_abi.h]: a C type language, layouts and every
      structure of [BaseArch]), [PreloadInterface] ([preload_interface.h]), [SyscallNumbers],
      [Machine] (the state the preload library sees; the kernel is the class [Env]),
      [Syscallbuf] (the protocol), [Chaos], [Wrappers] (one definition per [sys_...]), [Hook]
      ([init_process], [init_thread], [syscall_hook]), [Tracer] (rr's side).
    - Recorded system calls that trap.  [SyscallParams] ([ParamSize], [TaskSyscallState]),
      [SyscallSockets], [SyscallPrepare] (cases of [rec_prepare_syscall_arch] and, at the end of
      a call, of [rec_process_syscall_arch]).
    - The recorder.  [Scheduler], [Signals] ([WaitStatus.cc] and the signal state of
      [RecordTask.cc]), [FdTables], [Monkeypatch] ([try_patch_syscall], the stubs, and a small
      x86-64 machine that runs the patched bytes).
    - Address spaces.  [KernelMappings], [AddressMaps] ([map], [unmap], [protect], [remap]),
      [FreeMemory], [Breakpoints], [Watchpoints].
    - Trace files.  [CompressedWriter] (a producer and threads as a step function of a schedule,
      which also says how many bytes a [write] takes and which waits wake up by themselves),
      [CompressedReader].
    - Replay under a debugger.  [GdbText], [GdbConnection], [GdbRequests], [GdbReplies],
      [GdbCommands], [GdbExpression]; [Timeline] (marks, checkpoints, seeking).
    - Mutable replay.  [MuplayPatch], [MuplayDwarf], [MuplayMaps], [MuplayQuilter],
      [MuplaySession].

    A definition has the name of the function it models; state is a record with a setter per
    field ([put_...], [set_...]), methods are in [TracerMonad] or in the monad of [Machine].

    ** What the theorems show

    - [BufferInv], [WrapperInv], [HookInv]: every wrapper and [syscall_hook] keep the buffer well
      formed.  [Replay], [History], [ReplayWrappers], [ReplayOutputs], [ReplayHook],
      [ReplayBatch]: what was recorded through the buffer is what a replay of it does, for whole
      programs between two flushes.  [ProtocolSpec], [Boundaries]: the protocol branch by branch,
      [mprotect], [rt_sigprocmask], bounds, and inputs on which the code does not do what its
      comments say.
    - [SyscallParamsSpec], [SyscallScratch], [SyscallDirect], [SyscallPrepareSpec]: a call through
      scratch memory or on the tracee's own memory leaves the memory that replaying the recorded
      data gives, and the registers rr changed are restored.
    - [SchedulerInv], [SchedulerFair]: queues stay consistent, and which assertions can fail;
      equal tasks take turns.  [SignalsSpec]: the stashes of signals stay in order, stops and
      continues reach the whole process, what wait statuses are read back as.  [FdTablesInv]: a monitored descriptor is
      never buffered.  [MonkeypatchSpec]: patched calls reach their hook, patching is safe, stubs
      stay apart.
    - [AddressMapsInv], [AddressMapsSpec], [WatchpointsSpec]: the map follows the kernel byte by
      byte; watchpoints cover what was asked for.
    - [CompressedWriterInv], [CompressedWriterSpec], [CompressedReaderSpec], [CompressedFiles]:
      for every schedule, the file is whole blocks in order and a beginning of at most one more,
      blocks are not overwritten, the writer does not deadlock and its calls return; a reader
      refines a position in the data; round trip.
    - [GdbEncodingSpec], [GdbConnectionSpec], [GdbWire]: requests arrive intact, each is handed to
      the server, answered once with a well-formed packet or ends rr, what is sent is a sequence
      of packets as long as the connection lives, reading ends.  [GdbExpressionSpec]: the bytecode interpreter
      against a reference, and its termination.
    - [TimelineSpec]: the order of marks is the order of execution after any operations, seeking
      never passes its target, checkpoints are counted right and stay few.
    - [MuplayPatchSpec], [MuplayDwarfSpec], [MuplaySessionInv]: the patch reader against edit
      scripts, which functions a patch changes, every changed function is redirected once.
    - [Witnesses], [GdbWitnesses], [TracerWitnesses], [MuplayWitnesses], [SyscallWitnesses] and
      the ends of [CompressedFiles], [SignalsSpec], [MonkeypatchSpec] and [TimelineSpec]: concrete
      inputs on which the hypotheses hold.

    ** Interfaces

    Code outside of the sources, and components that are only used, are classes whose laws say
    what is relied on: [Env] (the kernel) with [KernelContract] (untraced calls leave the buffer
    alone) and [QuietKernel] (the kernel writes the output buffers its manual pages name); [Codec]
    (brotli); [Tasks], [SessionContract] and [Steady] (tasks of the scheduler); [SignalEnv];
    [Dwarf] and [Egalito]; [Timeline] of [GdbCommands] (checkpoints as the commands use them);
    [Sessions] and [Recording] (replay sessions as positions in a recording).

    ** Bounds and fuel

    C strings have fuel [strfuel] ([UnterminatedString] when it does not suffice); the loop of
    chaos mode 1000 rounds, each ending it unless a draw is -1 modulo 50; the loop over control
    messages a step per 16 bytes; walks over records a step per record.  [get_request] takes a
    turn per byte of input, a reader the size asked for and the rest of its file, a call of the
    writer at most [steps_left] steps of all threads and two for every spurious wakeup, leaving a system call a turn per stop of the
    task, the place of a mark at most [steps_left] single steps of the session: that each suffices
    is proved.  The intervals of reverse-execution checkpoints have [interval_fuel], 100 turns,
    which reach back 4000 years.  The scheduler's loop for chaos mode and the wait for tasks have
    fuel and may report [NoFuel].  The syscall buffer lies between [2 ^ 33] and [2 ^ 62] and is
    smaller than 4 GiB; rr's default is 1 MiB and its largest 1 GiB.

    ** What is not modelled

    The 32-bit build of the preload library, the assembly trampolines, [overrides.c] and
    [ftrace_helper.c]; the loops of [RecordSession.cc] and [ReplaySession.cc], [Task.cc],
    [AutoRemoteSyscalls.cc] and the rest of [record_syscall.cc] and [replay_syscall.cc], which
    drive ptrace and perf counters; how signals are handled ([record_signal.cc]), but for the
    stashes; of [ReplayTimeline.cc], running forward to a mark and the
    searches of reverse execution; [TraceStream.cc], whose messages are encoded by generated code;
    the parts of Muplay that call Egalito and LLVM; the server behind the debugger connection;
    commands and their options.  The replay theorem does not cover [futex], [madvise],
    [mprotect], [ptrace], [recvfrom], [recvmsg], [rt_sigprocmask] and reads of cloned file data;
    the buffer invariant does not cover [recvmsg]. *)

From Stdlib Require Import ZArith Lia List Bool.
From stdpp Require Import base tactics list numbers.

Local Open Scope Z_scope.

(** ** Machine integers *)

(** [wrapu w x] is the value of [x] after conversion to an unsigned [w]-bit
    integer, [wraps w x] after conversion to a signed one (two's complement). *)
Definition wrapu (w x : Z) : Z := x mod 2 ^ w.

Definition wraps (w x : Z) : Z :=
  let y := x mod 2 ^ w in if y <? 2 ^ (w - 1) then y else y - 2 ^ w.

Abbreviation u8 := (wrapu 8).
Abbreviation u16 := (wrapu 16).
Abbreviation u32 := (wrapu 32).
Abbreviation u64 := (wrapu 64).
Abbreviation s32 := (wraps 32).
Abbreviation s64 := (wraps 64).

(** C truth values. *)
Definition nz (x : Z) : bool := negb (x =? 0).

Definition b2z (b : bool) : Z := if b then 1 else 0.

(** Pointer arithmetic on a 64-bit machine. *)
Definition padd (p n : Z) : Z := u64 (p + n).
Definition psub (p n : Z) : Z := u64 (p - n).

(** ** The development's hint database and tactics *)

Create HintDb preload.
Create Rewrite HintDb preload_rw.

Lemma wrapu_range w x : 0 <= w -> 0 <= wrapu w x < 2 ^ w.
Proof. intros. apply Z.mod_pos_bound. lia. Qed.

Lemma wrapu_small w x : 0 <= x < 2 ^ w -> wrapu w x = x.
Proof. apply Z.mod_small. Qed.

Lemma wrapu_idemp w x : 0 <= w -> wrapu w (wrapu w x) = wrapu w x.
Proof. intros. apply wrapu_small, wrapu_range; lia. Qed.

Lemma wraps_range w x : 0 < w -> - 2 ^ (w - 1) <= wraps w x < 2 ^ (w - 1).
Proof.
  intros Hw. unfold wraps.
  pose proof (Z.mod_pos_bound x (2 ^ w) ltac:(lia)).
  assert (2 ^ w = 2 * 2 ^ (w - 1)).
  { rewrite <- Z.pow_succ_r by lia. f_equal. lia. }
  cbv zeta. destruct (Z.ltb_spec (x mod 2 ^ w) (2 ^ (w - 1))); lia.
Qed.

Lemma wraps_small w x : 0 < w -> - 2 ^ (w - 1) <= x < 2 ^ (w - 1) -> wraps w x = x.
Proof.
  intros Hw Hx. unfold wraps.
  assert (2 ^ w = 2 * 2 ^ (w - 1)) as E.
  { rewrite <- Z.pow_succ_r by lia. f_equal. lia. }
  cbv zeta. destruct (Z.le_gt_cases 0 x).
  - rewrite Z.mod_small by lia. destruct (Z.ltb_spec x (2 ^ (w - 1))); lia.
  - replace (x mod 2 ^ w) with (x + 2 ^ w).
    + destruct (Z.ltb_spec (x + 2 ^ w) (2 ^ (w - 1))); lia.
    + rewrite <- (Z.mod_small (x + 2 ^ w) (2 ^ w)) by lia.
      rewrite <- (Z.mul_1_l (2 ^ w)) at 1. apply Z_mod_plus_full.
Qed.

Lemma wrapu_wraps w x : 0 < w -> wrapu w (wraps w x) = wrapu w x.
Proof.
  intros Hw. unfold wraps, wrapu. cbv zeta. destruct (_ <? _).
  - apply Z.mod_mod. lia.
  - rewrite <- (Z.mul_1_l (2 ^ w)) at 2.
    replace (x mod 2 ^ w - 1 * 2 ^ w) with (x mod 2 ^ w + (-1) * 2 ^ w) by lia.
    rewrite Z_mod_plus_full. apply Z.mod_mod. lia.
Qed.

Lemma wraps_wrapu w x : 0 < w -> wraps w (wrapu w x) = wraps w x.
Proof. intros Hw. unfold wraps, wrapu. by rewrite Z.mod_mod by lia. Qed.

Lemma wrapu_add_wraps w x y : 0 < w -> wrapu w (x + wraps w y) = wrapu w (x + y).
Proof.
  intros Hw. unfold wrapu. rewrite <- Zplus_mod_idemp_r.
  change (wraps w y mod 2 ^ w) with (wrapu w (wraps w y)). rewrite wrapu_wraps by done.
  apply Zplus_mod_idemp_r.
Qed.

(** Narrowing a non-negative number never makes it larger. *)
Lemma wraps_le w x : 0 < w -> 0 <= x -> wraps w x <= x.
Proof.
  intros Hw Hx. unfold wraps. cbv zeta. pose proof (Z.mod_le x (2 ^ w) Hx ltac:(lia)).
  destruct (_ <? _); lia.
Qed.

Lemma nz_true x : nz x = true <-> x <> 0.
Proof. unfold nz. destruct (Z.eqb_spec x 0); cbn; split; congruence. Qed.

Lemma nz_false x : nz x = false <-> x = 0.
Proof. unfold nz. destruct (Z.eqb_spec x 0); cbn; split; congruence. Qed.

Lemma nz_b2z b : nz (b2z b) = b.
Proof. by destruct b. Qed.

#[export] Hint Rewrite wrapu_idemp wrapu_wraps using lia : preload_rw.
#[export] Hint Rewrite nz_b2z : preload_rw.

(** [zbool] turns every boolean comparison on [Z] in a hypothesis or under a
    conditional of the goal into the proposition it decides. *)
Ltac zbool :=
  repeat match goal with
    | H : (_ =? _) = true |- _ => apply Z.eqb_eq in H
    | H : (_ =? _) = false |- _ => apply Z.eqb_neq in H
    | H : (_ <? _) = true |- _ => apply Z.ltb_lt in H
    | H : (_ <? _) = false |- _ => apply Z.ltb_ge in H
    | H : (_ <=? _) = true |- _ => apply Z.leb_le in H
    | H : (_ <=? _) = false |- _ => apply Z.leb_gt in H
    | H : (_ && _) = true |- _ => apply andb_true_iff in H; destruct H
    | H : (_ || _) = false |- _ => apply orb_false_iff in H; destruct H
    | H : negb _ = true |- _ => apply negb_true_iff in H
    | H : negb _ = false |- _ => apply negb_false_iff in H
    | H : nz _ = true |- _ => apply nz_true in H
    | H : nz _ = false |- _ => apply nz_false in H
    end.

(** [unwrap] bounds every wrapped machine integer of the goal and then calls
    [lia]. *)
Ltac pose_wrap_bounds :=
  repeat match goal with
    | |- context [wrapu ?w ?x] =>
        lazymatch goal with
        | _ : 0 <= wrapu w x < _ |- _ => fail
        | _ => pose proof (wrapu_range w x ltac:(lia))
        end
    end.
