(* ===== verification/Memory.v ===== *)
(** * Byte-addressed memory of the tracee

    The tracee's address space as a total function from addresses to bytes,
    little-endian loads and stores of C scalars, and the byte-by-byte copy the
    preload library performs with [rep movsb].  Two memories are compared
    pointwise on a set of addresses ([agree]). *)

From stdpp Require Import base tactics list numbers.
From S2P Require Import Prelude.
Local Open Scope Z_scope.

Definition mem := Z -> Z.

Definition upd (m : mem) (a v : Z) : mem := fun b => if b =? a then v else m b.

(** [store n a v m]: write the [n] low bytes of [v] at [a]. *)
Definition store (n a v : Z) (m : mem) : mem :=
  fun b => if (a <=? b) && (b <? a + n) then (v / 2 ^ (8 * (b - a))) mod 256 else m b.

(** [load n a m]: read [n] bytes at [a] as an unsigned little-endian number. *)
Fixpoint load (n : nat) (a : Z) (m : mem) : Z :=
  match n with
  | O => 0
  | S n => m a mod 256 + 256 * load n (a + 1) m
  end.

(** [rep movsb]: copy [n] bytes upwards, one at a time. *)
Fixpoint rep_movsb (n : nat) (dst src : Z) (m : mem) : mem :=
  match n with
  | O => m
  | S n => rep_movsb n (dst + 1) (src + 1) (upd m dst (m src))
  end.

(** Addresses of the [n] bytes that start at [a]. *)
Definition rng (a n : Z) : Z -> Prop := fun b => a <= b < a + n.

Definition disjoint_rng (a n b k : Z) : Prop := n <= 0 \/ k <= 0 \/ a + n <= b \/ b + k <= a.

(** [agree P m m']: the two memories hold the same bytes on [P]. *)
Definition agree (P : Z -> Prop) (m m' : mem) : Prop := forall a, P a -> m a = m' a.

#[export] Instance agree_equiv P : Equivalence (agree P).
Proof.
  split.
  - intros m a Ha. done.
  - intros m m' H a Ha. symmetry. by apply H.
  - intros m1 m2 m3 H1 H2 a Ha. by rewrite H1, H2.
Qed.

Lemma agree_weaken (P Q : Z -> Prop) m m' :
  (forall a, Q a -> P a) -> agree P m m' -> agree Q m m'.
Proof. unfold agree. auto. Qed.

(** ** Stores *)

Lemma store_in n a v m b : a <= b < a + n -> store n a v m b = (v / 2 ^ (8 * (b - a))) mod 256.
Proof.
  intros. unfold store.
  by rewrite (proj2 (Z.leb_le a b)), (proj2 (Z.ltb_lt b (a + n))) by lia.
Qed.

Lemma store_out n a v m b : ~ (a <= b < a + n) -> store n a v m b = m b.
Proof. intros. unfold store. destruct (Z.leb_spec a b), (Z.ltb_spec b (a + n)); simpl; auto; lia. Qed.

Lemma agree_store_same P n a v m m' : agree P m m' -> agree P (store n a v m) (store n a v m').
Proof. intros H b Hb. unfold store. destruct (_ && _); auto. Qed.

Lemma store_frame n a v m (P : Z -> Prop) :
  (forall b, P b -> ~ (a <= b < a + n)) -> agree P (store n a v m) m.
Proof. intros H b Hb. apply store_out; auto. Qed.

(** ** Loads *)

Lemma load_ext n a m m' : agree (rng a (Z.of_nat n)) m m' -> load n a m = load n a m'.
Proof.
  revert a. induction n as [|n IH]; intros a H; cbn [load]; [done|].
  rewrite (H a) by (unfold rng; lia). f_equal. f_equal. apply IH.
  intros b Hb. apply H. unfold rng in *. lia.
Qed.

Lemma load_range n a m : 0 <= load n a m < 2 ^ (8 * Z.of_nat n).
Proof.
  revert a. induction n as [|n IH]; intros a; cbn [load]; [simpl; lia|].
  specialize (IH (a + 1)).
  replace (2 ^ (8 * Z.of_nat (S n))) with (256 * 2 ^ (8 * Z.of_nat n)).
  - pose proof (Z.mod_pos_bound (m a) 256 ltac:(lia)). lia.
  - change 256 with (2 ^ 8). rewrite <- Z.pow_add_r by lia. f_equal. lia.
Qed.

Lemma load_upto n a v m :
  (forall i, 0 <= i < Z.of_nat n -> m (a + i) = (v / 2 ^ (8 * i)) mod 256) ->
  load n a m = v mod 2 ^ (8 * Z.of_nat n).
Proof.
  revert a v. induction n as [|n IH]; intros a v H; cbn [load].
  - rewrite Z.mod_1_r. done.
  - rewrite (IH (a + 1) (v / 256)).
    + rewrite <- (Z.add_0_r a) at 1. rewrite H by lia.
      rewrite Z.mul_0_r, Z.pow_0_r, Z.div_1_r, Z.mod_mod by lia.
      replace (2 ^ (8 * Z.of_nat (S n))) with (256 * 2 ^ (8 * Z.of_nat n)).
      2: { change 256 with (2 ^ 8). rewrite <- Z.pow_add_r by lia. f_equal. lia. }
      rewrite Z.rem_mul_r by lia. lia.
    + intros i Hi. replace (a + 1 + i) with (a + (i + 1)) by lia.
      rewrite H by lia. change 256 with (2 ^ 8) at 2.
      rewrite Z.div_div, <- Z.pow_add_r by lia. do 3 f_equal. lia.
Qed.

(** A stored scalar reads back, truncated to its width. *)
Lemma load_store_same n a v m :
  load n a (store (Z.of_nat n) a v m) = v mod 2 ^ (8 * Z.of_nat n).
Proof.
  apply load_upto. intros i Hi. rewrite store_in by lia. do 3 f_equal. lia.
Qed.

Lemma load_store_other n a k b v m :
  disjoint_rng a (Z.of_nat n) b k -> load n a (store k b v m) = load n a m.
Proof.
  intros Hd. apply load_ext. apply store_frame. unfold rng, disjoint_rng in *. lia.
Qed.

(** ** Copies *)

Lemma rep_movsb_spec n dst src m a :
  dst <= src \/ src + Z.of_nat n <= dst ->
  rep_movsb n dst src m a =
    if (dst <=? a) && (a <? dst + Z.of_nat n) then m (src + (a - dst)) else m a.
Proof.
  revert dst src m. induction n as [|n IH]; intros dst src m Hov; cbn [rep_movsb].
  - destruct (Z.leb_spec dst a), (Z.ltb_spec a (dst + Z.of_nat 0)); simpl; auto; lia.
  - rewrite IH by lia. unfold upd.
    destruct (Z.eqb_spec a dst) as [->|Hne].
    + rewrite (proj2 (Z.leb_gt (dst + 1) dst)), Z.leb_refl by lia. cbn [andb].
      rewrite (proj2 (Z.ltb_lt dst _)) by lia. f_equal. lia.
    + destruct (Z.leb_spec (dst + 1) a), (Z.ltb_spec a (dst + 1 + Z.of_nat n)),
        (Z.leb_spec dst a), (Z.ltb_spec a (dst + Z.of_nat (S n)));
        try lia; cbn [andb]; try done.
      destruct (Z.eqb_spec (src + 1 + (a - (dst + 1))) dst); [lia|]. f_equal. lia.
Qed.

Lemma rep_movsb_in n dst src m a :
  dst <= src \/ src + Z.of_nat n <= dst ->
  dst <= a < dst + Z.of_nat n -> rep_movsb n dst src m a = m (src + (a - dst)).
Proof.
  intros. rewrite rep_movsb_spec by done.
  by rewrite (proj2 (Z.leb_le dst a)), (proj2 (Z.ltb_lt a _)) by lia.
Qed.

(** Bytes outside the destination are untouched, overlapping or not. *)
Lemma rep_movsb_out n dst src m a :
  ~ (dst <= a < dst + Z.of_nat n) -> rep_movsb n dst src m a = m a.
Proof.
  revert dst src m. induction n as [|n IH]; intros dst src m H; cbn [rep_movsb]; [done|].
  rewrite IH by lia. unfold upd. destruct (Z.eqb_spec a dst); [lia|done].
Qed.

(** A self-copy is the identity. *)
Lemma rep_movsb_self n a m b : rep_movsb n a a m b = m b.
Proof.
  rewrite rep_movsb_spec by lia. destruct (_ && _) eqn:E; [|done]. f_equal. lia.
Qed.

(** Two copies from agreeing sources agree at every address where the
    memories already agreed and throughout the destination. *)
Lemma rep_movsb_agree n dst src m m' (P : Z -> Prop) :
  dst <= src \/ src + Z.of_nat n <= dst ->
  agree P m m' -> agree (rng src (Z.of_nat n)) m m' ->
  agree (fun a => P a \/ rng dst (Z.of_nat n) a) (rep_movsb n dst src m) (rep_movsb n dst src m').
Proof.
  intros Hov HP Hs a Ha. rewrite !rep_movsb_spec by done.
  destruct (_ && _) eqn:E.
  - zbool. apply Hs. unfold rng. lia.
  - destruct Ha as [Ha|Ha]; [by apply HP|]. unfold rng in Ha.
    destruct (Z.leb_spec dst a), (Z.ltb_spec a (dst + Z.of_nat n)); simpl in *; try done; lia.
Qed.
