(* ===== verification/KernelAbi.v ===== *)
(** * The kernel ABI structures ([kernel_abi.h]) and their memory layout

    [kernel_abi.h] restates the structures that cross the system-call boundary,
    once, as templates over the architecture ([BaseArch]); [kernel_abi.cc]
    checks their sizes against the system headers when rr is built.  Here a
    structure is a [ctype] and its layout is computed by the System V rules for
    i386 and x86-64: every field at the next offset that is a multiple of its
    alignment, the whole rounded up to the largest alignment, no rounding at all
    in a packed structure.  The sizes the syscall buffer reserves for
    out-parameters are computed from these definitions. *)

From Stdlib Require Import String.
From stdpp Require Import base tactics list numbers.
From S2P Require Import Prelude.
Local Open Scope string_scope.
Local Open Scope Z_scope.
Local Set Warnings "-register-all".

Inductive SupportedArch := x86 | x86_64.

#[export] Instance SupportedArch_eq_dec : EqDecision SupportedArch.
Proof. solve_decision. Defined.

(** ** C types *)

Inductive ctype :=
| Scalar (size align : Z)
| Arr (t : ctype) (n : Z)
| Struct (packed : bool) (fs : list (string * ctype))
| Union (fs : list (string * ctype)).

(** Induction over a type and the types of its fields. *)
Lemma ctype_nested_ind (P : ctype -> Prop) :
  (forall s al, P (Scalar s al)) ->
  (forall t n, P t -> P (Arr t n)) ->
  (forall p fs, Forall (fun f => P (snd f)) fs -> P (Struct p fs)) ->
  (forall fs, Forall (fun f => P (snd f)) fs -> P (Union fs)) ->
  forall t, P t.
Proof.
  intros HS HA HT HU. fix IH 1. intros [s al|t n|p fs|fs].
  - apply HS.
  - apply HA, IH.
  - apply HT. induction fs as [|[f t] fs IHfs]; constructor; [apply IH|apply IHfs].
  - apply HU. induction fs as [|[f t] fs IHfs]; constructor; [apply IH|apply IHfs].
Qed.

Definition align_up (off al : Z) : Z := (off + al - 1) / al * al.

Fixpoint alignof (t : ctype) : Z :=
  match t with
  | Scalar _ al => al
  | Arr t _ => alignof t
  | Struct true _ => 1
  | Struct false fs | Union fs =>
      (fix go fs := match fs with [] => 1 | (_, t) :: fs => Z.max (alignof t) (go fs) end) fs
  end.

(** The alignment a field gets inside a structure. *)
Definition field_align (packed : bool) (t : ctype) : Z := if packed then 1 else alignof t.

Fixpoint sizeof (t : ctype) : Z :=
  match t with
  | Scalar s _ => s
  | Arr t n => sizeof t * n
  | Struct p fs =>
      align_up
        ((fix go off fs :=
            match fs with
            | [] => off
            | (_, t) :: fs => go (align_up off (field_align p t) + sizeof t) fs
            end) 0 fs)
        (alignof (Struct p fs))
  | Union fs =>
      align_up
        ((fix go fs := match fs with [] => 0 | (_, t) :: fs => Z.max (sizeof t) (go fs) end) fs)
        (alignof (Union fs))
  end.

(** End of the last field of a structure whose first field is placed at or
    after [off]; and the offset of a field, by name. *)
Fixpoint fields_end (p : bool) (off : Z) (fs : list (string * ctype)) : Z :=
  match fs with
  | [] => off
  | (_, t) :: fs => fields_end p (align_up off (field_align p t) + sizeof t) fs
  end.

Fixpoint field_from (p : bool) (off : Z) (name : string) (fs : list (string * ctype)) : option Z :=
  match fs with
  | [] => None
  | (f, t) :: fs =>
      let o := align_up off (field_align p t) in
      if String.eqb f name then Some o else field_from p (o + sizeof t) name fs
  end.

Definition offsetof (name : string) (t : ctype) : option Z :=
  match t with
  | Struct p fs => field_from p 0 name fs
  | _ => None
  end.

(** A structure is free of holes when every byte of it belongs to a scalar:
    the fields follow one another without alignment gaps and the last one ends
    at the structure's size; a union, when one member fills it. *)
Fixpoint hole_free (t : ctype) : bool :=
  match t with
  | Scalar s _ => true
  | Arr t n => hole_free t
  | Struct p fs =>
      (fix go off fs :=
         match fs with
         | [] => off =? sizeof t
         | (_, ft) :: fs =>
             (align_up off (field_align p ft) =? off) && hole_free ft && go (off + sizeof ft) fs
         end) 0 fs
  | Union fs =>
      (fix go fs :=
         match fs with
         | [] => false
         | (_, ft) :: fs => ((sizeof ft =? sizeof t) && hole_free ft) || go fs
         end) fs
  end.

(** [covers t b]: byte [b] of a [t] belongs to one of its scalars. *)
Fixpoint covers (t : ctype) (b : Z) : Prop :=
  match t with
  | Scalar s _ => 0 <= b < s
  | Arr t n => exists i, 0 <= i < n /\ covers t (b - sizeof t * i)
  | Struct p fs =>
      (fix go off fs :=
         match fs with
         | [] => False
         | (_, t) :: fs =>
             let o := align_up off (field_align p t) in
             covers t (b - o) \/ go (o + sizeof t) fs
         end) 0 fs
  | Union fs =>
      (fix go fs := match fs with [] => False | (_, t) :: fs => covers t b \/ go fs end) fs
  end.

(** ** Scalars and constants of the ABI *)

(** Word sizes ([WordSize32Defs], [WordSize64Defs]). *)
Definition wordlen (a : SupportedArch) : Z := match a with x86 => 4 | x86_64 => 8 end.

Definition word (a : SupportedArch) : ctype := Scalar (wordlen a) (wordlen a).
Definition i8 : ctype := Scalar 1 1.
Definition i16 : ctype := Scalar 2 2.
Definition i32 : ctype := Scalar 4 4.

(** A 64-bit integer is only 4-byte aligned inside structures on i386. *)
Definition i64 (a : SupportedArch) : ctype := Scalar 8 (wordlen a).

Definition SIGINFO_MAX_SIZE : Z := 128.
Definition SIGINFO_PAD_SIZE (a : SupportedArch) : Z :=
  SIGINFO_MAX_SIZE / 4 - match a with x86 => 3 | x86_64 => 4 end.
Definition UTSNAME_LENGTH : Z := 65.
Definition MAX_FDS : Z := 1024.

(** Commands of [fcntl] ([FcntlConstants]). *)
Definition F_DUPFD := 0.
Definition F_GETFD := 1.
Definition F_SETFD := 2.
Definition F_GETFL := 3.
Definition F_SETFL := 4.
Definition F_GETLK := 5.
Definition F_SETLK := 6.
Definition F_SETLKW := 7.
Definition F_SETOWN := 8.
Definition F_GETOWN := 9.
Definition F_SETSIG := 10.
Definition F_GETSIG := 11.
Definition F_SETOWN_EX := 15.
Definition F_GETOWN_EX := 16.
Definition F_DUPFD_CLOEXEC := 1024 + 6.

(** ** The structures of [BaseArch] *)

Definition elf32_ElfEhdr : ctype := Struct false
  [("e_ident", Arr (i8) (16));
   ("e_type", i16);
   ("e_machine", i16);
   ("e_version", i32);
   ("e_entry", i32);
   ("e_phoff", i32);
   ("e_shoff", i32);
   ("e_flags", i32);
   ("e_ehsize", i16);
   ("e_phentsize", i16);
   ("e_phnum", i16);
   ("e_shentsize", i16);
   ("e_shnum", i16);
   ("e_shstrndx", i16)].

Definition elf32_ElfShdr : ctype := Struct false
  [("sh_name", i32);
   ("sh_type", i32);
   ("sh_flags", i32);
   ("sh_addr", i32);
   ("sh_offset", i32);
   ("sh_size", i32);
   ("sh_link", i32);
   ("sh_info", i32);
   ("sh_addralign", i32);
   ("sh_entsize", i32)].

Definition elf32_ElfSym : ctype := Struct false
  [("st_name", i32);
   ("st_value", i32);
   ("st_size", i32);
   ("st_info", i8);
   ("st_other", i8);
   ("st_shndx", i16)].

Definition elf32_ElfDyn : ctype := Struct false
  [("d_tag", i32);
   ("d_val", i32)].

Definition elf32_ElfNhdr : ctype := Struct false
  [("n_namesz", i32);
   ("n_descsz", i32);
   ("n_type", i32)].

Definition elf64_ElfEhdr : ctype := Struct false
  [("e_ident", Arr (i8) (16));
   ("e_type", i16);
   ("e_machine", i16);
   ("e_version", i32);
   ("e_entry", i64 x86_64);
   ("e_phoff", i64 x86_64);
   ("e_shoff", i64 x86_64);
   ("e_flags", i32);
   ("e_ehsize", i16);
   ("e_phentsize", i16);
   ("e_phnum", i16);
   ("e_shentsize", i16);
   ("e_shnum", i16);
   ("e_shstrndx", i16)].

Definition elf64_ElfShdr : ctype := Struct false
  [("sh_name", i32);
   ("sh_type", i32);
   ("sh_flags", i64 x86_64);
   ("sh_addr", i64 x86_64);
   ("sh_offset", i64 x86_64);
   ("sh_size", i64 x86_64);
   ("sh_link", i32);
   ("sh_info", i32);
   ("sh_addralign", i64 x86_64);
   ("sh_entsize", i64 x86_64)].

Definition elf64_ElfSym : ctype := Struct false
  [("st_name", i32);
   ("st_info", i8);
   ("st_other", i8);
   ("st_shndx", i16);
   ("st_value", i64 x86_64);
   ("st_size", i64 x86_64)].

Definition elf64_ElfDyn : ctype := Struct false
  [("d_tag", i64 x86_64);
   ("d_val", i64 x86_64)].

Definition elf64_ElfNhdr : ctype := Struct false
  [("n_namesz", i32);
   ("n_descsz", i32);
   ("n_type", i32)].

Definition sigval_t (a : SupportedArch) : ctype := Union
  [("sival_int", i32);
   ("sival_ptr", word a)].

Definition sockaddr (a : SupportedArch) : ctype := Struct false
  [("sa_family", i16);
   ("sa_data", Arr (i8) (14))].

Definition sockaddr_un (a : SupportedArch) : ctype := Struct false
  [("sun_family", i16);
   ("sun_path", Arr (i8) (108))].

Definition timeval (a : SupportedArch) : ctype := Struct false
  [("tv_sec", word a);
   ("tv_usec", word a)].

Definition timespec (a : SupportedArch) : ctype := Struct false
  [("tv_sec", word a);
   ("tv_nsec", word a)].

Definition pollfd (a : SupportedArch) : ctype := Struct false
  [("fd", i32);
   ("events", i16);
   ("revents", i16)].

Definition iovec (a : SupportedArch) : ctype := Struct false
  [("iov_base", word a);
   ("iov_len", word a)].

Definition msghdr (a : SupportedArch) : ctype := Struct false
  [("msg_name", word a);
   ("msg_namelen", i32);
   ("_padding", Arr (i8) (wordlen a - 4));
   ("msg_iov", word a);
   ("msg_iovlen", word a);
   ("msg_control", word a);
   ("msg_controllen", word a);
   ("msg_flags", i32)].

Definition cmsghdr (a : SupportedArch) : ctype := Struct false
  [("cmsg_len", word a);
   ("cmsg_level", i32);
   ("cmsg_type", i32)].

Definition mmsghdr (a : SupportedArch) : ctype := Struct false
  [("msg_hdr", msghdr a);
   ("msg_len", i32)].

Definition epoll_event (a : SupportedArch) : ctype := Struct true
  [("events", i32);
   ("data", (Union [("ptr_", word a); ("fd", i32); ("u32", i32); ("u64", i64 a)]))].

Definition rusage (a : SupportedArch) : ctype := Struct false
  [("ru_utime", timeval a);
   ("ru_stime", timeval a);
   ("ru_maxrss", word a);
   ("ru_ixrss", word a);
   ("ru_idrss", word a);
   ("ru_isrss", word a);
   ("ru_minflt", word a);
   ("ru_majflt", word a);
   ("ru_nswap", word a);
   ("ru_inblock", word a);
   ("ru_oublock", word a);
   ("ru_msgnsd", word a);
   ("ru_msgrcv", word a);
   ("ru_nsignals", word a);
   ("ru_nvcsw", word a);
   ("ru_nivcsw", word a)].

Definition siginfo_t (a : SupportedArch) : ctype := Struct false
  [("si_signo", i32);
   ("si_errno", i32);
   ("si_code", i32);
   ("_sifields", (Union [("padding", Arr (i32) (SIGINFO_PAD_SIZE a)); ("_kill", (Struct false [("si_pid_", i32); ("si_uid_", i32)])); ("_timer", (Struct false [("si_tid_", i32); ("si_overrun_", i32); ("si_sigval_", sigval_t a)])); ("_rt", (Struct false [("si_pid_", i32); ("si_uid_", i32); ("si_sigval_", sigval_t a)])); ("_sigchld", (Struct false [("si_pid_", i32); ("si_uid_", i32); ("si_status_", i32); ("si_utime_", word a); ("si_stime_", word a)])); ("_sigfault", (Struct false [("si_addr_", word a); ("si_addr_lsb_", i16)])); ("_sigpoll", (Struct false [("si_band_", word a); ("si_fd_", i32)])); ("_sigsys", (Struct false [("_call_addr", word a); ("_syscall", i32); ("_arch", i32)]))]))].

Definition termios (a : SupportedArch) : ctype := Struct false
  [("c_iflag", i32);
   ("c_oflag", i32);
   ("c_cflag", i32);
   ("c_lflag", i32);
   ("c_line", i8);
   ("c_cc", Arr (i8) (32));
   ("_padding", Arr (i8) (3));
   ("c_ispeed", i32);
   ("c_ospeed", i32)].

Definition termio (a : SupportedArch) : ctype := Struct false
  [("c_iflag", i16);
   ("c_oflag", i16);
   ("c_cflag", i16);
   ("c_lflag", i16);
   ("c_line", i8);
   ("c_cc", Arr (i8) (8))].

Definition winsize (a : SupportedArch) : ctype := Struct false
  [("ws_row", i16);
   ("ws_col", i16);
   ("ws_xpixel", i16);
   ("ws_ypixel", i16)].

Definition ipc64_perm (a : SupportedArch) : ctype := Struct false
  [("key", i32);
   ("uid", i32);
   ("gid", i32);
   ("cuid", i32);
   ("cgid", i32);
   ("mode", i32);
   ("seq", i16);
   ("__pad2", i16);
   ("__pad3", Arr (i8) (wordlen a - 2 * 2));
   ("unused1", word a);
   ("unused2", word a)].

Definition msqid64_ds (a : SupportedArch) : ctype := Struct false
  [("msg_perm", ipc64_perm a);
   ("msg_stime_only_little_endian", i64 a);
   ("msg_rtime_only_little_endian", i64 a);
   ("msg_ctime_only_little_endian", i64 a);
   ("msg_cbytes", word a);
   ("msg_qnum", word a);
   ("msg_qbytes", word a);
   ("msg_lspid", i32);
   ("msg_lrpid", i32);
   ("unused1", word a);
   ("unused2", word a)].

Definition msginfo (a : SupportedArch) : ctype := Struct false
  [("msgpool", i32);
   ("msgmap", i32);
   ("msgmax", i32);
   ("msgmnb", i32);
   ("msgmni", i32);
   ("msgssz", i32);
   ("msgtql", i32);
   ("msgseg", i16)].

Definition shmid64_ds (a : SupportedArch) : ctype := Struct true
  [("shm_perm", ipc64_perm a);
   ("shm_segsz", word a);
   ("shm_atime_only_little_endian", i64 a);
   ("shm_dtime_only_little_endian", i64 a);
   ("shm_ctime_only_little_endian", i64 a);
   ("shm_cpid", i32);
   ("shm_lpid", i32);
   ("shm_nattch", word a);
   ("unused4", word a);
   ("unused5", word a)].

Definition shminfo64 (a : SupportedArch) : ctype := Struct false
  [("shmmax", word a);
   ("shmmin", word a);
   ("shmmni", word a);
   ("shmseg", word a);
   ("shmall", word a);
   ("unused1", word a);
   ("unused2", word a);
   ("unused3", word a);
   ("unused4", word a)].

Definition shm_info (a : SupportedArch) : ctype := Struct false
  [("used_ids", i32);
   ("__pad", Arr (i8) (wordlen a - 4));
   ("shm_tot", word a);
   ("shm_rss", word a);
   ("shm_swp", word a);
   ("swap_attempts", word a);
   ("swap_successes", word a)].

Definition semid64_ds (a : SupportedArch) : ctype := Struct false
  [("sem_perm", ipc64_perm a);
   ("sem_otime", word a);
   ("__unused1", word a);
   ("sem_ctime", word a);
   ("__unused2", word a);
   ("sem_nsems", word a);
   ("__unused3", word a);
   ("__unused4", word a)].

Definition seminfo (a : SupportedArch) : ctype := Struct false
  [("semmap", i32);
   ("semmni", i32);
   ("semmns", i32);
   ("semmnu", i32);
   ("semmsl", i32);
   ("semopm", i32);
   ("semume", i32);
   ("semusz", i32);
   ("semvmx", i32);
   ("semaem", i32)].

Definition user_desc (a : SupportedArch) : ctype := Struct false
  [("entry_number", i32);
   ("base_addr", i32);
   ("limit", i32);
   ("seg_32bit,contents,read_exec_only,limit_in_pages,seg_not_present,useable,lm", i32)].

Definition __user_cap_header_struct (a : SupportedArch) : ctype := Struct false
  [("version", i32);
   ("pid", i32)].

Definition __user_cap_data_struct (a : SupportedArch) : ctype := Struct false
  [("effective", i32);
   ("permitted", i32);
   ("inheritable", i32)].

Definition dqblk (a : SupportedArch) : ctype := Struct false
  [("dqb_bhardlimit", i64 a);
   ("dqb_bsoftlimit", i64 a);
   ("dqb_curspace", i64 a);
   ("dqb_ihardlimit", i64 a);
   ("dqb_isoftlimit", i64 a);
   ("dqb_curinodes", i64 a);
   ("dqb_btime", i64 a);
   ("dqb_itime", i64 a);
   ("dqb_valid", i32)].

Definition dqinfo (a : SupportedArch) : ctype := Struct false
  [("dqi_bgrace", i64 a);
   ("dqi_igrace", i64 a);
   ("dqi_flags", i32);
   ("dqi_valid", i32)].

Definition ifmap (a : SupportedArch) : ctype := Struct false
  [("mem_start", word a);
   ("mem_end", word a);
   ("base_addr", i16);
   ("irq", i8);
   ("dma", i8);
   ("port", i8)].

Definition if_settings (a : SupportedArch) : ctype := Struct false
  [("type", i32);
   ("size", i32);
   ("ifs_ifsu", (Union [("raw_hdlc", word a); ("cisco", word a); ("fr", word a); ("fr_pvc", word a); ("fr_pvc_info", word a); ("sync", word a); ("tel", word a)]))].

Definition ifreq (a : SupportedArch) : ctype := Struct false
  [("ifr_ifrn", (Union [("ifrn_name", Arr (i8) (16))]));
   ("ifr_ifru", (Union [("ifru_addr", sockaddr a); ("ifru_dstaddr", sockaddr a); ("ifru_broadaddr", sockaddr a); ("ifru_netmask", sockaddr a); ("ifru_hwaddr", sockaddr a); ("ifru_flags", i16); ("ifru_ivalue", i32); ("ifru_mtu", i32); ("ifru_map", ifmap a); ("ifru_slave", Arr (i8) (16)); ("ifru_newname", Arr (i8) (16)); ("ifru_data", word a); ("ifru_settings", if_settings a)]))].

Definition ifconf (a : SupportedArch) : ctype := Struct false
  [("ifc_len", i32);
   ("__pad", Arr (i8) (wordlen a - 4));
   ("ifc_ifcu", (Union [("ifcu_buf", word a); ("ifcu_req", word a)]))].

Definition iw_param (a : SupportedArch) : ctype := Struct false
  [("value", i32);
   ("fixed", i8);
   ("disabled", i8);
   ("flags", i16)].

Definition iw_point (a : SupportedArch) : ctype := Struct false
  [("pointer", word a);
   ("length", i16);
   ("flags", i16)].

Definition iw_freq (a : SupportedArch) : ctype := Struct false
  [("m", i32);
   ("e", i16);
   ("i", i8);
   ("flags", i8)].

Definition iw_quality (a : SupportedArch) : ctype := Struct false
  [("qual", i8);
   ("level", i8);
   ("noise", i8);
   ("updated", i8)].

Definition iwreq_data (a : SupportedArch) : ctype := Union
  [("name", Arr (i8) (16));
   ("essid", iw_point a);
   ("nwid", iw_param a);
   ("freq", iw_freq a);
   ("sens", iw_param a);
   ("bitrate", iw_param a);
   ("txpower", iw_param a);
   ("rts", iw_param a);
   ("frag", iw_param a);
   ("mode", i32);
   ("retry", iw_param a);
   ("encoding", iw_point a);
   ("power", iw_param a);
   ("qual", iw_quality a);
   ("ap_addr", sockaddr a);
   ("addr", sockaddr a);
   ("param", iw_param a);
   ("data", iw_point a)].

Definition iwreq (a : SupportedArch) : ctype := Struct false
  [("ifr_ifrn", (Union [("ifrn_name", Arr (i8) (16))]));
   ("u", iwreq_data a)].

Definition ethtool_cmd (a : SupportedArch) : ctype := Struct false
  [("cmd", i32);
   ("supported", i32);
   ("advertising", i32);
   ("speed", i16);
   ("duplex", i8);
   ("port", i8);
   ("phy_address", i8);
   ("transceiver", i8);
   ("autoneg", i8);
   ("mdio_support", i8);
   ("maxtxpkt", i32);
   ("maxrxpkt", i32);
   ("speed_hi", i16);
   ("eth_tp_mdix", i8);
   ("eth_tp_mdix_ctrl", i8);
   ("lp_advertising", i32);
   ("reserved", Arr (i32) (2))].

Definition _flock (a : SupportedArch) : ctype := Struct false
  [("l_type", i16);
   ("l_whence", i16);
   ("__pad", Arr (i8) (wordlen a - 2 * 2));
   ("l_start", word a);
   ("l_len", word a);
   ("l_pid", i32)].

Definition flock64 (a : SupportedArch) : ctype := Struct false
  [("l_type", i16);
   ("l_whence", i16);
   ("__pad", Arr (i8) (4 - 2 * 2));
   ("l_start", i64 a);
   ("l_len", i64 a);
   ("l_pid", i32)].

Definition f_owner_ex (a : SupportedArch) : ctype := Struct false
  [("type", i32);
   ("pid", i32)].

Definition accept_args (a : SupportedArch) : ctype := Struct false
  [("sockfd", i32);
   ("__pad", Arr (i8) (wordlen a - 4));
   ("addr", word a);
   ("addrlen", word a)].

Definition accept4_args (a : SupportedArch) : ctype := Struct false
  [("sockfd", i32);
   ("__pad", Arr (i8) (wordlen a - 4));
   ("addr", word a);
   ("addrlen", word a);
   ("flags", word a)].

Definition getsockname_args (a : SupportedArch) : ctype := Struct false
  [("sockfd", i32);
   ("__pad", Arr (i8) (wordlen a - 4));
   ("addr", word a);
   ("addrlen", word a)].

Definition getsockopt_args (a : SupportedArch) : ctype := Struct false
  [("sockfd", i32);
   ("level", i32);
   ("optname", i32);
   ("__pad", Arr (i8) (wordlen a - 4));
   ("optval", word a);
   ("optlen", word a)].

Definition setsockopt_args (a : SupportedArch) : ctype := Struct false
  [("sockfd", word a);
   ("level", word a);
   ("optname", word a);
   ("optval", word a);
   ("optlen", word a)].

Definition connect_args (a : SupportedArch) : ctype := Struct false
  [("sockfd", word a);
   ("addr", word a);
   ("addrlen", i32)].

Definition recv_args (a : SupportedArch) : ctype := Struct false
  [("sockfd", i32);
   ("__pad", Arr (i8) (wordlen a - 4));
   ("buf", word a);
   ("len", word a);
   ("flags", i32)].

Definition recvfrom_args (a : SupportedArch) : ctype := Struct false
  [("sockfd", word a);
   ("buf", word a);
   ("len", word a);
   ("flags", word a);
   ("src_addr", word a);
   ("addrlen", word a)].

Definition recvmsg_args (a : SupportedArch) : ctype := Struct false
  [("fd", i32);
   ("__pad", Arr (i8) (wordlen a - 4));
   ("msg", word a);
   ("flags", i32)].

Definition recvmmsg_args (a : SupportedArch) : ctype := Struct false
  [("sockfd", i32);
   ("__pad", Arr (i8) (wordlen a - 4));
   ("msgvec", word a);
   ("vlen", i32);
   ("flags", i32);
   ("timeout", word a)].

Definition sendmsg_args (a : SupportedArch) : ctype := Struct false
  [("fd", i32);
   ("__pad", Arr (i8) (wordlen a - 4));
   ("msg", word a);
   ("flags", i32)].

Definition sendmmsg_args (a : SupportedArch) : ctype := Struct false
  [("sockfd", i32);
   ("__pad", Arr (i8) (wordlen a - 4));
   ("msgvec", word a);
   ("vlen", i32);
   ("flags", i32)].

Definition socketpair_args (a : SupportedArch) : ctype := Struct false
  [("domain", i32);
   ("type", i32);
   ("protocol", i32);
   ("__pad", Arr (i8) (wordlen a - 4));
   ("sv", word a)].

Definition mmap_args (a : SupportedArch) : ctype := Struct false
  [("addr", word a);
   ("len", word a);
   ("prot", i32);
   ("flags", i32);
   ("fd", i32);
   ("__pad", Arr (i8) (wordlen a - 4));
   ("offset", word a)].

Definition fd_set (a : SupportedArch) : ctype := Struct false
  [("fds_bits", Arr (word a) (MAX_FDS / (8 * wordlen a)))].

Definition select_args (a : SupportedArch) : ctype := Struct false
  [("n_fds", i32);
   ("__pad", Arr (i8) (wordlen a - 4));
   ("read_fds", word a);
   ("write_fds", word a);
   ("except_fds", word a);
   ("timeout", word a)].

Definition ipc_kludge_args (a : SupportedArch) : ctype := Struct false
  [("msgbuf", word a);
   ("msgtype", word a)].

Definition __sysctl_args (a : SupportedArch) : ctype := Struct false
  [("name", word a);
   ("nlen", i32);
   ("__pad", Arr (i8) (wordlen a - 4));
   ("oldval", word a);
   ("oldlenp", word a);
   ("newval", word a);
   ("newlen", word a);
   ("__rr_unused", Arr (word a) (4))].

Definition kernel_sigset_t (a : SupportedArch) : ctype := Struct false
  [("__val", Arr (word a) (64 / (8 * wordlen a)))].

Definition __sigset_t (a : SupportedArch) : ctype := Struct false
  [("__val", Arr (word a) (1024 / (8 * wordlen a)))].

Definition pselect6_arg6 (a : SupportedArch) : ctype := Struct false
  [("ss", word a);
   ("ss_len", word a)].

Definition kernel_sigaction (a : SupportedArch) : ctype := Struct false
  [("k_sa_handler", word a);
   ("sa_flags", word a);
   ("sa_restorer", word a);
   ("sa_mask", kernel_sigset_t a)].

Definition tms (a : SupportedArch) : ctype := Struct false
  [("tms_utime", word a);
   ("tms_stime", word a);
   ("tms_cutime", word a);
   ("tms_cstime", word a)].

Definition rlimit (a : SupportedArch) : ctype := Struct false
  [("rlim_cur", word a);
   ("rlim_max", word a)].

Definition rlimit64 (a : SupportedArch) : ctype := Struct false
  [("rlim_cur", i64 a);
   ("rlim_max", i64 a)].

Definition timezone (a : SupportedArch) : ctype := Struct false
  [("tz_minuteswest", i32);
   ("tz_dsttime", i32)].

Definition statfs (a : SupportedArch) : ctype := Struct false
  [("f_type", word a);
   ("f_bsize", word a);
   ("f_blocks", word a);
   ("f_bfree", word a);
   ("f_bavail", word a);
   ("f_files", word a);
   ("f_ffree", word a);
   ("f_fsid", (Struct false [("__val", Arr (i32) (2))]));
   ("f_namelen", word a);
   ("f_frsize", word a);
   ("f_flags", word a);
   ("f_spare", Arr (word a) (4))].

Definition statfs64 (a : SupportedArch) : ctype := Struct false
  [("f_type", word a);
   ("f_bsize", word a);
   ("f_blocks", i64 a);
   ("f_bfree", i64 a);
   ("f_bavail", i64 a);
   ("f_files", i64 a);
   ("f_ffree", i64 a);
   ("f_fsid", (Struct false [("__val", Arr (i32) (2))]));
   ("f_namelen", word a);
   ("f_frsize", word a);
   ("f_flags", word a);
   ("f_spare", Arr (word a) (4))].

Definition itimerval (a : SupportedArch) : ctype := Struct false
  [("it_interval", timeval a);
   ("it_value", timeval a)].

Definition itimerspec (a : SupportedArch) : ctype := Struct false
  [("it_interval", timespec a);
   ("it_value", timespec a)].

Definition sigaltstack (a : SupportedArch) : ctype := Struct false
  [("ss_sp", word a);
   ("ss_flags", i32);
   ("__pad", Arr (i8) (wordlen a - 4));
   ("ss_size", word a)].

Definition sysinfo (a : SupportedArch) : ctype := Struct false
  [("uptime", word a);
   ("loads", Arr (word a) (3));
   ("totalram", word a);
   ("freeram", word a);
   ("sharedram", word a);
   ("bufferram", word a);
   ("totalswap", word a);
   ("freeswap", word a);
   ("procs", i16);
   ("pad", i16);
   ("__pad", Arr (i8) (wordlen a - 2 * 2));
   ("totalhigh", word a);
   ("freehigh", word a);
   ("mem_unit", i32);
   ("_f", Arr (i8) (20 - 2 * wordlen a - 4))].

Definition utsname (a : SupportedArch) : ctype := Struct false
  [("sysname", Arr (i8) (UTSNAME_LENGTH));
   ("nodename", Arr (i8) (UTSNAME_LENGTH));
   ("release", Arr (i8) (UTSNAME_LENGTH));
   ("version", Arr (i8) (UTSNAME_LENGTH));
   ("machine", Arr (i8) (UTSNAME_LENGTH));
   ("domainname", Arr (i8) (UTSNAME_LENGTH))].

Definition sched_param (a : SupportedArch) : ctype := Struct false
  [("__sched_priority", i32)].

Definition v4l2_timecode (a : SupportedArch) : ctype := Struct false
  [("type", i32);
   ("flags", i32);
   ("frames", i8);
   ("seconds", i8);
   ("minutes", i8);
   ("hours", i8);
   ("userbits", Arr (i8) (4))].

Definition v4l2_buffer (a : SupportedArch) : ctype := Struct false
  [("index", i32);
   ("type", i32);
   ("bytesused", i32);
   ("flags", i32);
   ("field", i32);
   ("__pad", Arr (i8) (wordlen a - 4));
   ("timestamp", timeval a);
   ("timecode", v4l2_timecode a);
   ("sequence", i32);
   ("memory", i32);
   ("m", (Union [("offset", i32); ("userptr", word a); ("planes", word a); ("fd", i32)]));
   ("length", i32);
   ("reserved2", i32);
   ("reserved", i32)].

Definition sock_filter (a : SupportedArch) : ctype := Struct false
  [("code", i16);
   ("jt", i8);
   ("jf", i8);
   ("k", i32)].

Definition sock_fprog (a : SupportedArch) : ctype := Struct false
  [("len", i16);
   ("_padding", Arr (i8) (wordlen a - 2));
   ("filter", word a)].

Definition robust_list (a : SupportedArch) : ctype := Struct false
  [("next", word a)].

Definition robust_list_head (a : SupportedArch) : ctype := Struct false
  [("list", robust_list a);
   ("futex_offset", word a);
   ("list_op_pending", word a)].

Definition snd_ctl_card_info (a : SupportedArch) : ctype := Struct false
  [("card", i32);
   ("pad", i32);
   ("id", Arr (i8) (16));
   ("driver", Arr (i8) (16));
   ("name", Arr (i8) (32));
   ("longname", Arr (i8) (80));
   ("reserved_", Arr (i8) (16));
   ("mixername", Arr (i8) (80));
   ("components", Arr (i8) (128))].

Definition usbdevfs_iso_packet_desc (a : SupportedArch) : ctype := Struct false
  [("length", i32);
   ("actual_length", i32);
   ("status", i32)].

Definition usbdevfs_urb (a : SupportedArch) : ctype := Struct false
  [("type", i8);
   ("endpoint", i8);
   ("status", i32);
   ("flags", i32);
   ("buffer", word a);
   ("buffer_length", i32);
   ("actual_length", i32);
   ("start_frame", i32);
   ("anon", (Union [("number_of_packets", i32); ("stream_id", i32)]));
   ("error_count", i32);
   ("signr", i32);
   ("usercontext", word a);
   ("iso_frame_desc", Arr (usbdevfs_iso_packet_desc a) (0))].

Definition usbdevfs_ioctl (a : SupportedArch) : ctype := Struct false
  [("ifno", i32);
   ("ioctl_code", i32);
   ("data", word a)].

Definition usbdevfs_ctrltransfer (a : SupportedArch) : ctype := Struct false
  [("bRequestType", i8);
   ("bRequest", i8);
   ("wValue", i16);
   ("wIndex", i16);
   ("wLength", i16);
   ("timeout", i32);
   ("data", word a)].

Definition dirent (a : SupportedArch) : ctype := Struct false
  [("d_ino", word a);
   ("d_off", word a);
   ("d_reclen", i16);
   ("d_name", Arr (i8) (256))].

Definition dirent64 (a : SupportedArch) : ctype := Struct false
  [("d_ino", i64 a);
   ("d_off", i64 a);
   ("d_reclen", i16);
   ("d_type", i8);
   ("d_name", Arr (i8) (256))].

Definition mq_attr (a : SupportedArch) : ctype := Struct false
  [("mq_flags", word a);
   ("mq_maxmsg", word a);
   ("mq_msgsize", word a);
   ("mq_curmsgs", word a);
   ("__reserved", Arr (word a) (4))].

Definition xt_counters (a : SupportedArch) : ctype := Struct false
  [("pcnt", i64 a);
   ("bcnt", i64 a)].

Definition ipt_replace (a : SupportedArch) : ctype := Struct false
  [("name", Arr (i8) (32));
   ("valid_hook", i32);
   ("num_entries", i32);
   ("size", i32);
   ("hook_entry", Arr (i32) (5));
   ("underflow", Arr (i32) (5));
   ("num_counters", i32);
   ("counters", word a)].

Definition cap_header (a : SupportedArch) : ctype := Struct false
  [("version", i32);
   ("pid", i32)].

Definition cap_data (a : SupportedArch) : ctype := Struct false
  [("effective", i32);
   ("permitted", i32);
   ("inheritable", i32)].

Definition hci_dev_req (a : SupportedArch) : ctype := Struct false
  [("dev_id", i16);
   ("dev_opt", i32)].

Definition hci_dev_list_req (a : SupportedArch) : ctype := Struct false
  [("dev_num", i16);
   ("dev_req", Arr (hci_dev_req a) (0))].

Definition bdaddr_t (a : SupportedArch) : ctype := Struct true
  [("b", Arr (i8) (6))].

Definition hci_dev_stats (a : SupportedArch) : ctype := Struct false
  [("err_rx", i32);
   ("err_tx", i32);
   ("cmd_tx", i32);
   ("evt_rx", i32);
   ("acl_tx", i32);
   ("acl_rx", i32);
   ("sco_tx", i32);
   ("sco_rx", i32);
   ("byte_rx", i32);
   ("byte_tx", i32)].

Definition hci_dev_info (a : SupportedArch) : ctype := Struct false
  [("dev_id", i16);
   ("name", Arr (i8) (8));
   ("bdaddr", bdaddr_t a);
   ("flags", i32);
   ("type", i8);
   ("features", Arr (i8) (8));
   ("pkt_type", i32);
   ("link_policy", i32);
   ("link_mode", i32);
   ("acl_mtu", i16);
   ("acl_pkts", i16);
   ("sco_mtu", i16);
   ("sco_pkts", i16);
   ("stat", hci_dev_stats a)].

Definition ifbond (a : SupportedArch) : ctype := Struct false
  [("bond_mode", i32);
   ("num_slaves", i32);
   ("miimon", i32)].

Definition timex (a : SupportedArch) : ctype := Struct false
  [("modes", i32);
   ("offset", word a);
   ("freq", word a);
   ("maxerror", word a);
   ("esterror", word a);
   ("status", i32);
   ("constant", word a);
   ("precision", word a);
   ("tolerance", word a);
   ("time", timeval a);
   ("tick", word a);
   ("ppsfreq", word a);
   ("jitter", word a);
   ("shift", i32);
   ("stabil", word a);
   ("jitcnt", word a);
   ("calcnt", word a);
   ("errcnt", word a);
   ("stbcnt", word a);
   ("tai", i32);
   ("_reserved0", i32);
   ("_reserved1", i32);
   ("_reserved2", i32);
   ("_reserved3", i32);
   ("_reserved4", i32);
   ("_reserved5", i32);
   ("_reserved6", i32);
   ("_reserved7", i32);
   ("_reserved8", i32);
   ("_reserved9", i32);
   ("_reserved10", i32)].

Definition statx_timestamp (a : SupportedArch) : ctype := Struct false
  [("tv_sec", i64 a);
   ("tv_nsec", i32);
   ("__reserved", i32)].

Definition statx_struct (a : SupportedArch) : ctype := Struct false
  [("stx_mask", i32);
   ("stx_blksize", i32);
   ("stx_attributes", i64 a);
   ("stx_nlink", i32);
   ("stx_uid", i32);
   ("stx_gid", i32);
   ("stx_mode", i16);
   ("__spare0", i16);
   ("stx_ino", i64 a);
   ("stx_size", i64 a);
   ("stx_blocks", i64 a);
   ("stx_attributes_mask", i64 a);
   ("stx_atime", statx_timestamp a);
   ("stx_btime", statx_timestamp a);
   ("stx_ctime", statx_timestamp a);
   ("stx_mtime", statx_timestamp a);
   ("stx_rdev_major", i32);
   ("stx_rdev_minor", i32);
   ("stx_dev_major", i32);
   ("stx_dev_minor", i32);
   ("__spare2", Arr (i64 a) (14))].

(** ** The structures of [X86Arch] *)

Definition x86_user_regs_struct : ctype := Struct false
  [("ebx", i32);
   ("ecx", i32);
   ("edx", i32);
   ("esi", i32);
   ("edi", i32);
   ("ebp", i32);
   ("eax", i32);
   ("xds", i32);
   ("xes", i32);
   ("xfs", i32);
   ("xgs", i32);
   ("orig_eax", i32);
   ("eip", i32);
   ("xcs", i32);
   ("eflags", i32);
   ("esp", i32);
   ("xss", i32)].

Definition x86_user_fpregs_struct : ctype := Struct false
  [("cwd", i32);
   ("swd", i32);
   ("twd", i32);
   ("fip", i32);
   ("fcs", i32);
   ("foo", i32);
   ("fos", i32);
   ("st_space", Arr (i32) (20))].

Definition x86_user_fpxregs_struct : ctype := Struct false
  [("cwd", i16);
   ("swd", i16);
   ("twd", i16);
   ("fop", i16);
   ("fip", i32);
   ("fcs", i32);
   ("foo", i32);
   ("fos", i32);
   ("mxcsr", i32);
   ("reserved", i32);
   ("st_space", Arr (i32) (32));
   ("xmm_space", Arr (i32) (32));
   ("padding", Arr (i32) (56))].

Definition x86_sigcontext : ctype := Struct false
  [("gs", i16);
   ("__gsh", i16);
   ("fs", i16);
   ("__fsh", i16);
   ("es", i16);
   ("__esh", i16);
   ("ds", i16);
   ("__dsh", i16);
   ("di", i32);
   ("si", i32);
   ("bp", i32);
   ("sp", i32);
   ("bx", i32);
   ("dx", i32);
   ("cx", i32);
   ("ax", i32);
   ("trapno", i32);
   ("err", i32);
   ("ip", i32);
   ("cs", i16);
   ("__csh", i16);
   ("flags", i32);
   ("sp_at_signal", i32);
   ("ss", i16);
   ("__ssh", i16);
   ("fpstate", i32);
   ("oldmask", i32);
   ("cr2", i32)].

Definition x86_user : ctype := Struct false
  [("regs", x86_user_regs_struct);
   ("u_fpvalid", i32);
   ("i387", x86_user_fpregs_struct);
   ("u_tsize", i32);
   ("u_dsize", i32);
   ("u_ssize", i32);
   ("start_code", i32);
   ("start_stack", i32);
   ("signal", i32);
   ("reserved", i32);
   ("u_ar0", word x86);
   ("u_fpstate", word x86);
   ("magic", i32);
   ("u_comm", Arr (i8) (32));
   ("u_debugreg", Arr (i32) (8))].

Definition x86_stat : ctype := Struct false
  [("st_dev", i64 x86);
   ("__pad1", i16);
   ("st_ino", word x86);
   ("st_mode", i32);
   ("st_nlink", word x86);
   ("st_uid", i32);
   ("st_gid", i32);
   ("st_rdev", i64 x86);
   ("__pad2", i16);
   ("st_size", word x86);
   ("st_blksize", word x86);
   ("st_blocks", word x86);
   ("st_atim", timespec x86);
   ("st_mtim", timespec x86);
   ("st_ctim", timespec x86);
   ("__unused4", word x86);
   ("__unused5", word x86)].

Definition x86_stat64 : ctype := Struct true
  [("st_dev", i64 x86);
   ("__pad1", i32);
   ("__st_ino", word x86);
   ("st_mode", i32);
   ("st_nlink", word x86);
   ("st_uid", i32);
   ("st_gid", i32);
   ("st_rdev", i64 x86);
   ("__pad2", i32);
   ("st_size", i64 x86);
   ("st_blksize", word x86);
   ("st_blocks", i64 x86);
   ("st_atim", timespec x86);
   ("st_mtim", timespec x86);
   ("st_ctim", timespec x86);
   ("st_ino", i64 x86)].

(** ** The structures of [X64Arch] *)

Definition x64_user_regs_struct : ctype := Struct false
  [("r15", i64 x86_64);
   ("r14", i64 x86_64);
   ("r13", i64 x86_64);
   ("r12", i64 x86_64);
   ("rbp", i64 x86_64);
   ("rbx", i64 x86_64);
   ("r11", i64 x86_64);
   ("r10", i64 x86_64);
   ("r9", i64 x86_64);
   ("r8", i64 x86_64);
   ("rax", i64 x86_64);
   ("rcx", i64 x86_64);
   ("rdx", i64 x86_64);
   ("rsi", i64 x86_64);
   ("rdi", i64 x86_64);
   ("orig_rax", i64 x86_64);
   ("rip", i64 x86_64);
   ("cs", i64 x86_64);
   ("eflags", i64 x86_64);
   ("rsp", i64 x86_64);
   ("ss", i64 x86_64);
   ("fs_base", i64 x86_64);
   ("gs_base", i64 x86_64);
   ("ds", i64 x86_64);
   ("es", i64 x86_64);
   ("fs", i64 x86_64);
   ("gs", i64 x86_64)].

Definition x64_sigcontext : ctype := Struct false
  [("r8", i64 x86_64);
   ("r9", i64 x86_64);
   ("r10", i64 x86_64);
   ("r11", i64 x86_64);
   ("r12", i64 x86_64);
   ("r13", i64 x86_64);
   ("r14", i64 x86_64);
   ("r15", i64 x86_64);
   ("di", i64 x86_64);
   ("si", i64 x86_64);
   ("bp", i64 x86_64);
   ("bx", i64 x86_64);
   ("dx", i64 x86_64);
   ("ax", i64 x86_64);
   ("cx", i64 x86_64);
   ("sp", i64 x86_64);
   ("ip", i64 x86_64);
   ("flags", i64 x86_64);
   ("cs", i16);
   ("gs", i16);
   ("fs", i16);
   ("__pad0", i16);
   ("err", i64 x86_64);
   ("trapno", i64 x86_64);
   ("oldmask", i64 x86_64);
   ("cr2", i64 x86_64);
   ("fpstate", i64 x86_64);
   ("reserved", Arr (i64 x86_64) (8))].

Definition x64_user_fpregs_struct : ctype := Struct false
  [("cwd", i16);
   ("swd", i16);
   ("ftw", i16);
   ("fop", i16);
   ("rip", i64 x86_64);
   ("rdp", i64 x86_64);
   ("mxcsr", i32);
   ("mxcr_mask", i32);
   ("st_space", Arr (i32) (32));
   ("xmm_space", Arr (i32) (64));
   ("padding", Arr (i32) (24))].

Definition x64_user : ctype := Struct false
  [("regs", x64_user_regs_struct);
   ("u_fpvalid", i32);
   ("i387", x64_user_fpregs_struct);
   ("u_tsize", i64 x86_64);
   ("u_dsize", i64 x86_64);
   ("u_ssize", i64 x86_64);
   ("start_code", i64 x86_64);
   ("start_stack", i64 x86_64);
   ("signal", i64 x86_64);
   ("reserved", i32);
   ("anon", (Union [("u_ar0", word x86_64); ("__u_ar0_word", i64 x86_64)]));
   ("anon", (Union [("u_fpstate", word x86_64); ("__u_fpstate_word", i64 x86_64)]));
   ("magic", i64 x86_64);
   ("u_comm", Arr (i8) (32));
   ("u_debugreg", Arr (i64 x86_64) (8))].

Definition x64_stat : ctype := Struct false
  [("st_dev", i64 x86_64);
   ("st_ino", word x86_64);
   ("st_nlink", word x86_64);
   ("st_mode", i32);
   ("st_uid", i32);
   ("st_gid", i32);
   ("__pad0", i32);
   ("st_rdev", i64 x86_64);
   ("st_size", word x86_64);
   ("st_blksize", word x86_64);
   ("st_blocks", word x86_64);
   ("st_atim", timespec x86_64);
   ("st_mtim", timespec x86_64);
   ("st_ctim", timespec x86_64);
   ("__rr_unused", Arr (word x86_64) (3))].

Definition x64_stat64 : ctype := Struct false
  [("st_dev", i64 x86_64);
   ("st_ino", word x86_64);
   ("st_nlink", word x86_64);
   ("st_mode", i32);
   ("st_uid", i32);
   ("st_gid", i32);
   ("__pad0", i32);
   ("st_rdev", i64 x86_64);
   ("st_size", word x86_64);
   ("st_blksize", word x86_64);
   ("st_blocks", word x86_64);
   ("st_atim", timespec x86_64);
   ("st_mtim", timespec x86_64);
   ("st_ctim", timespec x86_64);
   ("__rr_unused", Arr (word x86_64) (3))].

(** All the structures [BaseArch] declares, and those of [X64Arch]. *)
Definition base_arch_structs (a : SupportedArch) : list (string * ctype) :=
  [("sigval_t", sigval_t a);
   ("sockaddr", sockaddr a);
   ("sockaddr_un", sockaddr_un a);
   ("timeval", timeval a);
   ("timespec", timespec a);
   ("pollfd", pollfd a);
   ("iovec", iovec a);
   ("msghdr", msghdr a);
   ("cmsghdr", cmsghdr a);
   ("mmsghdr", mmsghdr a);
   ("epoll_event", epoll_event a);
   ("rusage", rusage a);
   ("siginfo_t", siginfo_t a);
   ("termios", termios a);
   ("termio", termio a);
   ("winsize", winsize a);
   ("ipc64_perm", ipc64_perm a);
   ("msqid64_ds", msqid64_ds a);
   ("msginfo", msginfo a);
   ("shmid64_ds", shmid64_ds a);
   ("shminfo64", shminfo64 a);
   ("shm_info", shm_info a);
   ("semid64_ds", semid64_ds a);
   ("seminfo", seminfo a);
   ("user_desc", user_desc a);
   ("__user_cap_header_struct", __user_cap_header_struct a);
   ("__user_cap_data_struct", __user_cap_data_struct a);
   ("dqblk", dqblk a);
   ("dqinfo", dqinfo a);
   ("ifmap", ifmap a);
   ("if_settings", if_settings a);
   ("ifreq", ifreq a);
   ("ifconf", ifconf a);
   ("iw_param", iw_param a);
   ("iw_point", iw_point a);
   ("iw_freq", iw_freq a);
   ("iw_quality", iw_quality a);
   ("iwreq_data", iwreq_data a);
   ("iwreq", iwreq a);
   ("ethtool_cmd", ethtool_cmd a);
   ("_flock", _flock a);
   ("flock64", flock64 a);
   ("f_owner_ex", f_owner_ex a);
   ("accept_args", accept_args a);
   ("accept4_args", accept4_args a);
   ("getsockname_args", getsockname_args a);
   ("getsockopt_args", getsockopt_args a);
   ("setsockopt_args", setsockopt_args a);
   ("connect_args", connect_args a);
   ("recv_args", recv_args a);
   ("recvfrom_args", recvfrom_args a);
   ("recvmsg_args", recvmsg_args a);
   ("recvmmsg_args", recvmmsg_args a);
   ("sendmsg_args", sendmsg_args a);
   ("sendmmsg_args", sendmmsg_args a);
   ("socketpair_args", socketpair_args a);
   ("mmap_args", mmap_args a);
   ("fd_set", fd_set a);
   ("select_args", select_args a);
   ("ipc_kludge_args", ipc_kludge_args a);
   ("__sysctl_args", __sysctl_args a);
   ("kernel_sigset_t", kernel_sigset_t a);
   ("__sigset_t", __sigset_t a);
   ("pselect6_arg6", pselect6_arg6 a);
   ("kernel_sigaction", kernel_sigaction a);
   ("tms", tms a);
   ("rlimit", rlimit a);
   ("rlimit64", rlimit64 a);
   ("timezone", timezone a);
   ("statfs", statfs a);
   ("statfs64", statfs64 a);
   ("itimerval", itimerval a);
   ("itimerspec", itimerspec a);
   ("sigaltstack", sigaltstack a);
   ("sysinfo", sysinfo a);
   ("utsname", utsname a);
   ("sched_param", sched_param a);
   ("v4l2_timecode", v4l2_timecode a);
   ("v4l2_buffer", v4l2_buffer a);
   ("sock_filter", sock_filter a);
   ("sock_fprog", sock_fprog a);
   ("robust_list", robust_list a);
   ("robust_list_head", robust_list_head a);
   ("snd_ctl_card_info", snd_ctl_card_info a);
   ("usbdevfs_iso_packet_desc", usbdevfs_iso_packet_desc a);
   ("usbdevfs_urb", usbdevfs_urb a);
   ("usbdevfs_ioctl", usbdevfs_ioctl a);
   ("usbdevfs_ctrltransfer", usbdevfs_ctrltransfer a);
   ("dirent", dirent a);
   ("dirent64", dirent64 a);
   ("mq_attr", mq_attr a);
   ("xt_counters", xt_counters a);
   ("ipt_replace", ipt_replace a);
   ("cap_header", cap_header a);
   ("cap_data", cap_data a);
   ("hci_dev_req", hci_dev_req a);
   ("hci_dev_list_req", hci_dev_list_req a);
   ("bdaddr_t", bdaddr_t a);
   ("hci_dev_stats", hci_dev_stats a);
   ("hci_dev_info", hci_dev_info a);
   ("ifbond", ifbond a);
   ("timex", timex a);
   ("statx_timestamp", statx_timestamp a);
   ("statx_struct", statx_struct a)].

Definition x64_arch_structs : list (string * ctype) :=
  [("x64_user_regs_struct", x64_user_regs_struct);
   ("x64_sigcontext", x64_sigcontext);
   ("x64_user_fpregs_struct", x64_user_fpregs_struct);
   ("x64_user", x64_user);
   ("x64_stat", x64_stat);
   ("x64_stat64", x64_stat64)].

(** ** Properties of the layout *)

Fixpoint wf_ctype (t : ctype) : bool :=
  match t with
  | Scalar s al => (0 <=? s) && (1 <=? al)
  | Arr t n => (0 <=? n) && wf_ctype t
  | Struct _ fs | Union fs =>
      (fix go fs := match fs with [] => true | (_, t) :: fs => wf_ctype t && go fs end) fs
  end.

(** The inner loops of the functions above, by name. *)
Fixpoint max_align (fs : list (string * ctype)) : Z :=
  match fs with [] => 1 | (_, t) :: fs => Z.max (alignof t) (max_align fs) end.

Fixpoint contiguous (size : Z) (p : bool) (off : Z) (fs : list (string * ctype)) : bool :=
  match fs with
  | [] => off =? size
  | (_, ft) :: fs =>
      (align_up off (field_align p ft) =? off) && hole_free ft
        && contiguous size p (off + sizeof ft) fs
  end.

Fixpoint covers_fields (p : bool) (off : Z) (fs : list (string * ctype)) (b : Z) : Prop :=
  match fs with
  | [] => False
  | (_, t) :: fs =>
      let o := align_up off (field_align p t) in
      covers t (b - o) \/ covers_fields p (o + sizeof t) fs b
  end.

Fixpoint wf_fields (fs : list (string * ctype)) : bool :=
  match fs with [] => true | (_, t) :: fs => wf_ctype t && wf_fields fs end.

Lemma alignof_struct fs : alignof (Struct false fs) = max_align fs.
Proof. cbn [alignof]. induction fs as [|[f t] fs IH]; cbn; congruence. Qed.

Lemma alignof_union fs : alignof (Union fs) = max_align fs.
Proof. cbn [alignof]. induction fs as [|[f t] fs IH]; cbn; congruence. Qed.

Lemma sizeof_struct p fs :
  sizeof (Struct p fs) = align_up (fields_end p 0 fs) (alignof (Struct p fs)).
Proof.
  cbn [sizeof]. f_equal. generalize 0 as off.
  induction fs as [|[f t] fs IH]; intros off; cbn; auto.
Qed.

Lemma hole_free_struct p fs :
  hole_free (Struct p fs) = contiguous (sizeof (Struct p fs)) p 0 fs.
Proof.
  cbn [hole_free]. generalize (sizeof (Struct p fs)) as sz, 0 as off.
  induction fs as [|[f t] fs IH]; intros sz off; cbn; [done|]. by rewrite IH.
Qed.

Lemma covers_struct p fs b : covers (Struct p fs) b <-> covers_fields p 0 fs b.
Proof.
  cbn [covers]. generalize 0 as off.
  induction fs as [|[f t] fs IH]; intros off; cbn; [done|]. by rewrite IH.
Qed.

Lemma wf_struct p fs : wf_ctype (Struct p fs) = wf_fields fs.
Proof. cbn [wf_ctype]. induction fs as [|[f t] fs IH]; cbn; congruence. Qed.

Lemma align_up_le off al : 1 <= al -> off <= align_up off al < off + al.
Proof.
  intros. unfold align_up.
  pose proof (Z.div_mod (off + al - 1) al ltac:(lia)).
  pose proof (Z.mod_pos_bound (off + al - 1) al ltac:(lia)). nia.
Qed.

Lemma align_up_mod off al : 1 <= al -> align_up off al mod al = 0.
Proof. intros. unfold align_up. apply Z.mod_mul. lia. Qed.

Lemma align_up_1 off : align_up off 1 = off.
Proof. unfold align_up. rewrite Z.div_1_r. lia. Qed.

Lemma wf_fields_Forall fs : wf_fields fs = true <-> Forall (fun f => wf_ctype (snd f) = true) fs.
Proof.
  induction fs as [|[f t] fs IH]; cbn; [split; auto|].
  split.
  - intros [? ?]%andb_true_iff. constructor; [done|]. by apply IH.
  - intros H. inversion H; subst. apply andb_true_iff. split; [done|]. by apply IH.
Qed.

Lemma max_align_pos fs : 1 <= max_align fs.
Proof. induction fs as [|[f t] fs IH]; cbn; lia. Qed.

Lemma alignof_pos t : wf_ctype t = true -> 1 <= alignof t.
Proof.
  induction t as [s al|t n IH|p fs IH|fs IH] using ctype_nested_ind; intros Hwf.
  - cbn in *. lia.
  - cbn in *. apply andb_true_iff in Hwf as [_ Hwf]. auto.
  - destruct p; [cbn; lia|]. rewrite alignof_struct. apply max_align_pos.
  - rewrite alignof_union. apply max_align_pos.
Qed.

Lemma field_align_pos p t : wf_ctype t = true -> 1 <= field_align p t.
Proof. destruct p; cbn; [lia|apply alignof_pos]. Qed.

Lemma fields_end_ge p off fs :
  Forall (fun f => wf_ctype (snd f) = true -> 0 <= sizeof (snd f)) fs ->
  wf_fields fs = true -> off <= fields_end p off fs.
Proof.
  intros HF. revert off. induction HF as [|[f t] fs Ht HF IH]; intros off Hwf; cbn in *; [lia|].
  apply andb_true_iff in Hwf as [Hwt Hwf].
  pose proof (align_up_le off (field_align p t) (field_align_pos p t Hwt)).
  specialize (IH (align_up off (field_align p t) + sizeof t) Hwf). specialize (Ht Hwt). lia.
Qed.

Lemma sizeof_nonneg t : wf_ctype t = true -> 0 <= sizeof t.
Proof.
  induction t as [s al|t n IH|p fs IH|fs IH] using ctype_nested_ind; intros Hwf.
  - cbn in *. lia.
  - cbn in *. apply andb_true_iff in Hwf as [Hn Hwf]. specialize (IH Hwf). lia.
  - rewrite sizeof_struct.
    pose proof (align_up_le (fields_end p 0 fs) (alignof (Struct p fs)) (alignof_pos _ Hwf)).
    rewrite wf_struct in Hwf. pose proof (fields_end_ge p 0 fs IH Hwf). lia.
  - pose proof (alignof_pos _ Hwf) as Hal. cbn [sizeof].
    match goal with |- 0 <= align_up ?x ?y =>
      pose proof (align_up_le x y Hal); assert (0 <= x); [|lia] end.
    clear. induction fs as [|[f t] fs IH]; lia.
Qed.

Lemma fields_end_mono p off fs : wf_fields fs = true -> off <= fields_end p off fs.
Proof.
  intros Hwf. apply fields_end_ge; [|done].
  apply Forall_forall. intros f _. apply sizeof_nonneg.
Qed.

Lemma field_from_spec p off name fs o :
  wf_fields fs = true -> 0 <= off -> field_from p off name fs = Some o ->
  exists t, In (name, t) fs /\ off <= o /\ o mod field_align p t = 0
            /\ o + sizeof t <= fields_end p off fs.
Proof.
  revert off. induction fs as [|[f t] fs IH]; intros off Hwf Hoff H; cbn in *; [done|].
  apply andb_true_iff in Hwf as [Hwt Hwf].
  pose proof (field_align_pos p t Hwt) as Hal.
  pose proof (align_up_le off _ Hal). pose proof (sizeof_nonneg t Hwt).
  destruct (String.eqb_spec f name) as [->|Hne].
  - injection H as <-. exists t. repeat split; [by left|lia|by apply align_up_mod|].
    by apply fields_end_mono.
  - apply IH in H as (t' & Hin & Hle & Hmod & Hend); [|done|lia].
    exists t'. repeat split; [by right|lia|done|done].
Qed.

(** Every field of an ABI structure is placed at an offset that respects its
    alignment, and it ends inside the structure. *)
Theorem offsetof_sound (p : bool) (fs : list (string * ctype)) (name : string) (o : Z)
  (Hwf : wf_ctype (Struct p fs) = true) (Ho : offsetof name (Struct p fs) = Some o) :
  exists t, In (name, t) fs /\ 0 <= o /\ o mod field_align p t = 0
            /\ o + sizeof t <= sizeof (Struct p fs).
Proof.
  cbn [offsetof] in Ho. pose proof (alignof_pos _ Hwf) as Hal.
  rewrite wf_struct in Hwf.
  apply field_from_spec in Ho as (t & Hin & H0 & Hm & He); [|done|lia].
  exists t. repeat split; [done|done|done|]. rewrite sizeof_struct.
  pose proof (align_up_le (fields_end p 0 fs) _ Hal). lia.
Qed.

Lemma offsetof_sound_witness :
  offsetof "msg_flags" (msghdr x86_64) = Some 48 /\
  exists t, In ("msg_flags", t)
      (match msghdr x86_64 with Struct _ fs => fs | _ => [] end)
    /\ 0 <= 48 /\ 48 mod field_align false t = 0 /\ 48 + sizeof t <= sizeof (msghdr x86_64).
Proof.
  split; [reflexivity|].
  apply (offsetof_sound false _ "msg_flags" 48); reflexivity.
Defined.

Lemma contiguous_covers p sz fs off b :
  Forall (fun f => wf_ctype (snd f) = true -> hole_free (snd f) = true ->
                   forall b, 0 <= b < sizeof (snd f) -> covers (snd f) b) fs ->
  wf_fields fs = true -> contiguous sz p off fs = true ->
  off <= b < sz -> covers_fields p off fs b.
Proof.
  intros HF. revert off. induction HF as [|[f t] fs Ht HF IH]; intros off Hwf H Hb; cbn in *.
  - lia.
  - apply andb_true_iff in Hwf as [Hwt Hwf].
    apply andb_true_iff in H as [H Hc]. apply andb_true_iff in H as [Ha Hh].
    apply Z.eqb_eq in Ha. rewrite Ha.
    destruct (Z.lt_ge_cases b (off + sizeof t)).
    + left. apply Ht; auto. lia.
    + right. apply IH; auto. lia.
Qed.

(** The hole check is sound: in a structure it accepts, every byte belongs to a
    scalar field, so copying the structure from rr to a tracee copies no
    indeterminate byte. *)
Theorem hole_free_covers (t : ctype) (b : Z)
  (Hwf : wf_ctype t = true) (Hhole : hole_free t = true) (Hb : 0 <= b < sizeof t) :
  covers t b.
Proof.
  revert b Hb. induction t as [s al|t n IH|p fs IH|fs IH] using ctype_nested_ind; intros b Hb.
  - exact Hb.
  - cbn in Hwf, Hhole, Hb |- *. apply andb_true_iff in Hwf as [Hn Hwf].
    pose proof (sizeof_nonneg t Hwf).
    assert (0 < sizeof t) by nia.
    exists (b / sizeof t). pose proof (Z.div_mod b (sizeof t) ltac:(lia)).
    pose proof (Z.mod_pos_bound b (sizeof t) ltac:(lia)).
    split; [nia|]. apply IH; auto. lia.
  - apply covers_struct. rewrite wf_struct in Hwf. rewrite hole_free_struct in Hhole.
    eapply contiguous_covers; eauto.
  - cbn [covers]. revert Hwf Hhole Hb. cbn [hole_free wf_ctype].
    generalize (sizeof (Union fs)) as sz. intros sz.
    induction IH as [|[f t] fs Ht HF IH']; intros Hwf Hhole Hb; [done|].
    apply andb_true_iff in Hwf as [Hwt Hwf].
    apply orb_true_iff in Hhole as [H|H]; [|right; by apply IH'].
    apply andb_true_iff in H as [Hs H]. left. apply Ht; auto. cbn. lia.
Qed.

Lemma hole_free_covers_witness : covers (rusage x86_64) 143.
Proof. apply (hole_free_covers (rusage x86_64) 143); [reflexivity|reflexivity|split; reflexivity || lia]. Defined.

(** The members of [l] that have holes. *)
Definition structs_with_holes (l : list (string * ctype)) : list string :=
  map fst (List.filter (fun s => negb (hole_free (snd s))) l).

(** All the ABI structures are well formed on both architectures, and on x86-64
    exactly the listed ones have holes, contrary to the rule kernel_abi.h sets
    itself for BaseArch; flock64 is one of them: its explicit padding array has
    length zero, so bytes 4 to 7 belong to no field. *)
Theorem base_arch_holes :
  forallb (fun s => wf_ctype (snd s)) (base_arch_structs x86 ++ base_arch_structs x86_64) = true /\
  structs_with_holes (base_arch_structs x86_64) =
    ["msghdr"; "mmsghdr"; "siginfo_t"; "termio"; "msginfo"; "dqblk"; "ifmap"; "ifreq";
     "iw_point"; "_flock"; "flock64"; "connect_args"; "recv_args"; "recvmsg_args";
     "sendmsg_args"; "sysinfo"; "v4l2_buffer"; "usbdevfs_urb"; "usbdevfs_ctrltransfer";
     "dirent"; "dirent64"; "hci_dev_req"; "hci_dev_list_req"; "hci_dev_info"; "timex"] /\
  offsetof "l_start" (flock64 x86_64) = Some 8 /\
  ~ covers (flock64 x86_64) 4 /\ ~ covers (flock64 x86_64) 7.
Proof.
  split; [vm_compute; reflexivity|]. split; [vm_compute; reflexivity|].
  split; [vm_compute; reflexivity|].
  split; cbn -[align_up sizeof field_align]; intros H;
    repeat match goal with
      | H : context [align_up ?x ?y] |- _ =>
          let v := eval vm_compute in (align_up x y) in change (align_up x y) with v in H
      | H : context [sizeof i8] |- _ => change (sizeof i8) with 1 in H
      | H : _ \/ _ |- _ => destruct H as [H|H]
      | H : exists _, _ |- _ => destruct H as (? & ? & ?)
      end; lia.
Qed.

(** The layouts the comments of kernel_abi.h promise: siginfo_t is 128 bytes on
    both architectures, the packed epoll_event has the same layout on both, and
    the kernel's signal set is 8 bytes. *)
Theorem arch_independent_layouts :
  sizeof (siginfo_t x86) = SIGINFO_MAX_SIZE /\ sizeof (siginfo_t x86_64) = SIGINFO_MAX_SIZE /\
  sizeof (epoll_event x86) = 12 /\ sizeof (epoll_event x86_64) = 12 /\
  offsetof "data" (epoll_event x86) = offsetof "data" (epoll_event x86_64) /\
  sizeof (kernel_sigset_t x86) = 8 /\ sizeof (kernel_sigset_t x86_64) = 8 /\
  sizeof x64_stat = sizeof x64_stat64.
Proof. vm_compute. repeat split. Qed.
