(* ===== verification/CStrings.v ===== *)
(** * C strings and the file-name policy of the preload library

    The string helpers of [preload_interface.h] (written without <string.h> so
    that they can run inside the syscall buffer) and the predicates that decide
    which files may be opened through a buffered [open].  A C string is the list
    of its bytes before the terminating NUL; "one past the end" reads 0. *)

From Stdlib Require Import String Ascii.
From stdpp Require Import base tactics list numbers.
From S2P Require Import Prelude.
Local Open Scope Z_scope.

Abbreviation cstring := (list Z).

(** A string literal of the source. *)
Fixpoint lit (s : string) : cstring :=
  match s with
  | EmptyString => []
  | String c s => Z.of_nat (nat_of_ascii c) :: lit s
  end.
Arguments lit s%_string.

Definition SLASH : Z := 47.

(** [*(s + i)]: the byte at index [i], the NUL at the end included. *)
Definition char_at (s : cstring) (i : Z) : Z :=
  if i <? 0 then 0 else default 0 (s !! Z.to_nat i).

(** [s + i] as a string. *)
Definition str_from (s : cstring) (i : Z) : cstring := drop (Z.to_nat i) s.

(** ** The helpers *)

Fixpoint streq (s1 s2 : cstring) : bool :=
  match s1, s2 with
  | [], [] => true
  | c1 :: s1, c2 :: s2 => if c1 =? c2 then streq s1 s2 else false
  | _, _ => false
  end.

Definition rrstrlen (s : cstring) : Z := Z.of_nat (length s).

Fixpoint strprefix (s1 s2 : cstring) : bool :=
  match s1 with
  | [] => true
  | c1 :: s1 =>
      match s2 with
      | [] => false
      | c2 :: s2 => if c1 =? c2 then strprefix s1 s2 else false
      end
  end.

(** [ret] is the part after the last slash seen so far. *)
Fixpoint extract_file_name_from (ret s : cstring) : cstring :=
  match s with
  | [] => ret
  | c :: s => extract_file_name_from (if c =? SLASH then s else ret) s
  end.

Definition extract_file_name (s : cstring) : cstring := extract_file_name_from s s.

(** ** The policy *)

Definition is_blacklisted_filename (filename : cstring) : bool :=
  if strprefix (lit "/dev/dri/") filename || streq (lit "/dev/nvidiactl") filename
     || streq (lit "/usr/share/alsa/alsa.conf") filename
     || streq (lit "/dev/nvidia-uvm") filename
  then true
  else
    let f := extract_file_name filename in
    strprefix (lit "rr-test-blacklist-file_name") f || strprefix (lit "pulse-shm-") f.

Definition is_blacklisted_memfd (name : cstring) : bool := streq (lit "pulseaudio") name.

Definition is_blacklisted_socket (filename : cstring) : bool :=
  streq (lit "/var/run/nscd/socket") filename.

Definition is_gcrypt_deny_file (filename : cstring) : bool :=
  streq (lit "/etc/gcrypt/hwf.deny") filename.

Definition is_terminal (filename : cstring) : bool :=
  strprefix (lit "/dev/tty") filename || strprefix (lit "/dev/pts") filename.

Definition is_proc_mem_file (filename : cstring) : bool :=
  if negb (strprefix (lit "/proc/") filename) then false
  else streq (str_from filename (rrstrlen filename - 4)) (lit "/mem").

Definition is_proc_fd_dir (filename : cstring) : bool :=
  if negb (strprefix (lit "/proc/") filename) then false
  else
    let len := rrstrlen filename in
    let fd_bit := len in
    let fd_bit := if char_at filename fd_bit =? SLASH then fd_bit - 1 else fd_bit in
    strprefix (lit "/fd") (str_from filename (fd_bit - 3)).

(** [None] is the null pointer. *)
Definition allow_buffered_open (filename : option cstring) : bool :=
  match filename with
  | None => false
  | Some filename =>
      negb (is_blacklisted_filename filename) && negb (is_gcrypt_deny_file filename)
      && negb (is_terminal filename) && negb (is_proc_mem_file filename)
      && negb (is_proc_fd_dir filename)
  end.

(** ** What the helpers compute *)

Lemma streq_spec s1 s2 : streq s1 s2 = true <-> s1 = s2.
Proof.
  revert s2. induction s1 as [|c1 s1 IH]; intros [|c2 s2]; cbn; try done.
  destruct (Z.eqb_spec c1 c2) as [->|Hne]; [rewrite IH|]; split; congruence.
Qed.

Lemma streq_false s1 s2 : streq s1 s2 = false <-> s1 <> s2.
Proof. rewrite <- streq_spec. by destruct (streq s1 s2). Qed.

Lemma strprefix_spec s1 s2 : strprefix s1 s2 = true <-> s1 `prefix_of` s2.
Proof.
  revert s2. induction s1 as [|c1 s1 IH]; intros s2; cbn.
  - split; [intros _; apply prefix_nil|done].
  - destruct s2 as [|c2 s2]; [split; [done|intros H; by apply prefix_nil_inv in H]|].
    destruct (Z.eqb_spec c1 c2) as [->|Hne].
    + rewrite IH. split; [apply prefix_cons|apply prefix_cons_inv_2].
    + split; [done|]. intros H. by apply prefix_cons_inv_1 in H.
Qed.

Lemma strprefix_false s1 s2 : strprefix s1 s2 = false <-> ~ s1 `prefix_of` s2.
Proof. rewrite <- strprefix_spec. by destruct (strprefix s1 s2). Qed.

Lemma extract_file_name_from_spec ret s pre :
  SLASH ∉ take (length ret - length s) ret -> (exists k, ret = k ++ s) ->
  (pre = [] \/ list.last pre = Some SLASH) ->
  exists p, pre ++ ret = p ++ extract_file_name_from ret s
    /\ (SLASH ∉ extract_file_name_from ret s) /\ (p = [] \/ list.last p = Some SLASH).
Proof.
  revert ret pre. induction s as [|c s IH]; intros ret pre Hn [k Hk] Hp; cbn.
  - exists pre. split; [done|]. split; [|done].
    subst ret. rewrite app_nil_r in *. cbn in Hn.
    by rewrite Nat.sub_0_r, take_ge in Hn by lia.
  - destruct (Z.eqb_spec c SLASH) as [->|Hc].
    + destruct (IH s (pre ++ k ++ [SLASH])) as (p & Hp1 & Hp2 & Hp3).
      * rewrite Nat.sub_diag. cbn. apply not_elem_of_nil.
      * by exists [].
      * right. by rewrite app_assoc, last_snoc.
      * exists p. split; [|done]. rewrite <- Hp1, Hk, <- !app_assoc. done.
    + apply IH; [|exists (k ++ [c]); by rewrite Hk, <- app_assoc|done].
      subst ret. rewrite length_app in *. cbn [length] in *.
      replace (length k + S (length s) - S (length s))%nat with (length k) in Hn by lia.
      replace (length k + S (length s) - length s)%nat with (length k + 1)%nat by lia.
      rewrite take_app_length in Hn. rewrite take_app_ge by lia.
      replace (length k + 1 - length k)%nat with 1%nat by lia. cbn.
      rewrite elem_of_app, list_elem_of_singleton. intros [?|<-]; [by apply Hn|done].
Qed.

(** The file name of a path is what follows its last slash. *)
Lemma extract_file_name_spec s :
  exists p, s = p ++ extract_file_name s /\ (SLASH ∉ extract_file_name s)
    /\ (p = [] \/ list.last p = Some SLASH).
Proof.
  apply (extract_file_name_from_spec s s []); [|by exists []|by left].
  rewrite Nat.sub_diag. cbn. apply not_elem_of_nil.
Qed.

Lemma drop_suffix (s t : cstring) :
  (length t <= length s)%nat -> (drop (length s - length t) s = t <-> t `suffix_of` s).
Proof.
  intros Hlen. split.
  - intros <-. exists (take (length s - length t) s). by rewrite take_drop.
  - intros [k ->]. rewrite length_app.
    replace (length k + length t - length t)%nat with (length k) by lia.
    apply drop_app_length.
Qed.

Lemma char_at_end s : char_at s (rrstrlen s) = 0.
Proof.
  unfold char_at, rrstrlen. destruct (Z.ltb_spec (Z.of_nat (length s)) 0); [done|].
  rewrite Nat2Z.id. rewrite (proj2 (lookup_ge_None s (length s))) by lia. done.
Qed.

Lemma prefix_same_length (s t : cstring) : (length t <= length s)%nat -> s `prefix_of` t -> s = t.
Proof.
  intros Hl [k ->]. rewrite length_app in Hl.
  destruct k; cbn in Hl; [by rewrite app_nil_r|lia].
Qed.

(** Both /proc tests look at the last characters of the path. *)
Lemma is_proc_mem_file_spec f :
  is_proc_mem_file f = true <-> lit "/proc/" `prefix_of` f /\ lit "/mem" `suffix_of` f.
Proof.
  unfold is_proc_mem_file. destruct (strprefix _ f) eqn:E; cbn [negb].
  - apply strprefix_spec in E. pose proof (prefix_length _ _ E) as Hl. cbn in Hl.
    rewrite streq_spec. unfold str_from, rrstrlen.
    replace (Z.to_nat (Z.of_nat (length f) - 4)) with (length f - length (lit "/mem"))%nat
      by (cbn; lia).
    rewrite drop_suffix by (cbn; lia). intuition (congruence || eauto).
  - apply strprefix_false in E. intuition (congruence || eauto).
Qed.

Lemma is_proc_fd_dir_spec f :
  is_proc_fd_dir f = true <-> lit "/proc/" `prefix_of` f /\ lit "/fd" `suffix_of` f.
Proof.
  unfold is_proc_fd_dir. rewrite char_at_end.
  destruct (strprefix (lit "/proc/") f) eqn:E; cbn [negb].
  - apply strprefix_spec in E. pose proof (prefix_length _ _ E) as Hl. cbn in Hl.
    change (0 =? SLASH) with false. cbv iota.
    rewrite strprefix_spec. unfold str_from, rrstrlen.
    replace (Z.to_nat (Z.of_nat (length f) - 3)) with (length f - length (lit "/fd"))%nat
      by (cbn; lia).
    rewrite <- drop_suffix by (cbn; lia).
    split.
    + intros H. split; [done|]. symmetry. apply prefix_same_length; [|done].
      rewrite length_drop. cbn. lia.
    + intros [_ ->]. done.
  - apply strprefix_false in E. intuition (congruence || eauto).
Qed.

(** A file whose open must be forwarded to rr. *)
Definition forwarded_open (f : cstring) : Prop :=
  (lit "/dev/dri/" `prefix_of` f \/ lit "/dev/nvidiactl" = f
   \/ lit "/usr/share/alsa/alsa.conf" = f \/ lit "/dev/nvidia-uvm" = f
   \/ lit "rr-test-blacklist-file_name" `prefix_of` extract_file_name f
   \/ lit "pulse-shm-" `prefix_of` extract_file_name f)
  \/ lit "/etc/gcrypt/hwf.deny" = f
  \/ (lit "/dev/tty" `prefix_of` f \/ lit "/dev/pts" `prefix_of` f)
  \/ (lit "/proc/" `prefix_of` f /\ lit "/mem" `suffix_of` f)
  \/ (lit "/proc/" `prefix_of` f /\ lit "/fd" `suffix_of` f).

Lemma is_blacklisted_filename_spec f :
  is_blacklisted_filename f = true <->
  lit "/dev/dri/" `prefix_of` f \/ lit "/dev/nvidiactl" = f
  \/ lit "/usr/share/alsa/alsa.conf" = f \/ lit "/dev/nvidia-uvm" = f
  \/ lit "rr-test-blacklist-file_name" `prefix_of` extract_file_name f
  \/ lit "pulse-shm-" `prefix_of` extract_file_name f.
Proof.
  unfold is_blacklisted_filename. rewrite <- !strprefix_spec, <- !streq_spec.
  rewrite <- !orb_true_iff.
  destruct (_ || streq (lit "/dev/nvidia-uvm") f) eqn:E; rewrite !orb_assoc, E; done.
Qed.

(** allow_buffered_open accepts exactly the non-null names outside the
    blacklist: DRI and nvidia devices, the alsa configuration, names that start
    with one of the two reserved prefixes after their last slash, the gcrypt
    file, terminals, and /proc names that end in /mem or /fd. *)
Theorem allow_buffered_open_spec (filename : option cstring) :
  allow_buffered_open filename = true <->
  exists f, filename = Some f /\ ~ forwarded_open f.
Proof.
  destruct filename as [f|]; cbn [allow_buffered_open];
    [|split; [done|by intros (f & H & _)]].
  transitivity (~ forwarded_open f); [|split; [by exists f|by intros (f' & [= <-] & H)]].
  unfold forwarded_open. rewrite !andb_true_iff, !negb_true_iff.
  rewrite <- is_blacklisted_filename_spec, <- is_proc_mem_file_spec, <- is_proc_fd_dir_spec,
    <- streq_spec, <- !strprefix_spec, <- !orb_true_iff.
  fold (is_terminal f). fold (is_gcrypt_deny_file f).
  rewrite not_true_iff_false, !orb_false_iff. tauto.
Qed.

(** The trailing slash that is_proc_fd_dir means to skip is never skipped: the
    test reads the terminating NUL, so a /proc fd directory spelled with a final
    slash is not recognised and its open is not forwarded to rr. *)
Theorem is_proc_fd_dir_trailing_slash (f : cstring) :
  is_proc_fd_dir (f ++ [SLASH]) = false /\
  is_proc_fd_dir (lit "/proc/self/fd") = true /\
  allow_buffered_open (Some (lit "/proc/self/fd")) = false /\
  allow_buffered_open (Some (lit "/proc/self/fd/")) = true.
Proof.
  split; [|vm_compute; repeat split].
  destruct (is_proc_fd_dir (f ++ [SLASH])) eqn:E; [|done].
  apply is_proc_fd_dir_spec in E as [_ [k Hk]].
  change (lit "/fd") with ([47; 102] ++ [100]) in Hk.
  rewrite app_assoc in Hk. by apply app_inj_tail in Hk as [_ ?].
Qed.
