(* ===== verification/PreloadInterface.v ===== *)
(** * The interface between the preload library and rr ([preload_interface.h])

    Constants, the layout of the shared structures, and their values as records:
    the buffer header [syscallbuf_hdr], the thread locals, the process globals
    and the mprotect records.  The variable-length [syscallbuf_record]s live in
    the tracee's memory, right after the header. *)

From Stdlib Require Import String.
From stdpp Require Import base tactics list numbers.
From S2P Require Import Prelude Memory KernelAbi.
Local Open Scope Z_scope.

(** ** Constants *)

Definition SYSCALLBUF_FDS_DISABLED_SIZE : Z := 1024.
Definition MPROTECT_RECORD_COUNT : Z := 1000.
Definition PRELOAD_THREAD_LOCALS_SIZE : Z := 104.

(** SIGPWR, and SIGSTKFLT which rr uses as its time-slice signal. *)
Definition SYSCALLBUF_DESCHED_SIGNAL : Z := 30.
Definition SIGSTKFLT : Z := 16.

Definition SYS_rrcall_init_preload : Z := 442.
Definition SYS_rrcall_init_buffers : Z := 443.
Definition SYS_rrcall_notify_syscall_hook_exit : Z := 444.
Definition SYS_rrcall_notify_control_msg : Z := 445.
Definition SYS_rrcall_reload_auxv : Z := 446.
Definition SYS_rrcall_mprotect_record : Z := 447.

(** Bits of [syscallbuf_hdr.locked]. *)
Definition SYSCALLBUF_LOCKED_TRACEE : Z := 1.
Definition SYSCALLBUF_LOCKED_TRACER : Z := 2.

(** Entries of the rr page: every stub is 3 bytes long. *)
Definition RR_PAGE_ADDR : Z := 1879048192. (* 0x70000000 *)
Definition RR_PAGE_SYSCALL_STUB_SIZE : Z := 3.
Definition RR_PAGE_SYSCALL_INSTRUCTION_END : Z := 2.
Definition RR_PAGE_SYSCALL_ADDR (index : Z) : Z :=
  RR_PAGE_ADDR + RR_PAGE_SYSCALL_STUB_SIZE * index.

Inductive rr_page_entry :=
| TRACED
| PRIVILEGED_TRACED
| UNTRACED
| UNTRACED_REPLAY_ONLY
| UNTRACED_RECORDING_ONLY
| PRIVILEGED_UNTRACED
| PRIVILEGED_UNTRACED_REPLAY_ONLY
| PRIVILEGED_UNTRACED_RECORDING_ONLY.

#[export] Instance rr_page_entry_eq_dec : EqDecision rr_page_entry.
Proof. solve_decision. Defined.

Definition rr_page_index (e : rr_page_entry) : Z :=
  match e with
  | TRACED => 0
  | PRIVILEGED_TRACED => 1
  | UNTRACED => 2
  | UNTRACED_REPLAY_ONLY => 3
  | UNTRACED_RECORDING_ONLY => 4
  | PRIVILEGED_UNTRACED => 5
  | PRIVILEGED_UNTRACED_REPLAY_ONLY => 6
  | PRIVILEGED_UNTRACED_RECORDING_ONLY => 7
  end.

(** ** Layout of the shared structures *)

Section Layouts.
Local Open Scope string_scope.
Local Open Scope Z_scope.

Definition ct_syscall_patch_hook (a : SupportedArch) : ctype := Struct false
  [("is_multi_instruction", i8); ("next_instruction_length", i8);
   ("next_instruction_bytes", Arr i8 14); ("hook_address", i64 a)].

Definition ct_mprotect_record (a : SupportedArch) : ctype := Struct false
  [("start", i64 a); ("size", i64 a); ("prot", i32); ("padding", i32)].

Definition ct_preload_globals (a : SupportedArch) : ctype := Struct false
  [("in_replay", i8); ("in_diversion", i8); ("in_chaos", i8); ("padding", i8);
   ("pretend_num_cores", i32);
   ("syscallbuf_fds_disabled", Arr i8 SYSCALLBUF_FDS_DISABLED_SIZE);
   ("mprotect_records", Arr (ct_mprotect_record a) MPROTECT_RECORD_COUNT);
   ("random_seed", i64 a)].

Definition ct_syscall_info (a : SupportedArch) : ctype := Struct false
  [("no", word a); ("args", Arr (word a) 6)].

Definition ct_preload_thread_locals (a : SupportedArch) : ctype := Struct false
  [("syscallbuf_stub_alt_stack", word a); ("pending_untraced_syscall_result", word a);
   ("stub_scratch_1", word a); ("alt_stack_nesting_level", i32); ("unused_padding", i32);
   ("original_syscall_parameters", word a); ("thread_inited", i32); ("buffer", word a);
   ("buffer_size", word a); ("desched_counter_fd", i32); ("cloned_file_data_fd", i32);
   ("cloned_file_data_offset", word a); ("scratch_buf", word a);
   ("usable_scratch_size", word a); ("notify_control_msg", word a)].

Definition ct_rrcall_init_preload_params (a : SupportedArch) : ctype := Struct false
  [("syscallbuf_enabled", i32); ("syscall_patch_hook_count", i32);
   ("syscall_patch_hooks", word a); ("syscallhook_vsyscall_entry", word a);
   ("syscallbuf_code_start", word a); ("syscallbuf_code_end", word a);
   ("get_pc_thunks_start", word a); ("get_pc_thunks_end", word a);
   ("syscallbuf_final_exit_instruction", word a); ("globals", word a);
   ("breakpoint_table", word a); ("breakpoint_table_entry_size", i32)].

Definition ct_rrcall_init_buffers_params (a : SupportedArch) : ctype := Struct false
  [("desched_counter_fd", i32); ("cloned_file_data_fd", i32); ("syscallbuf_ptr", word a);
   ("scratch_buf", word a); ("syscallbuf_size", i32); ("usable_scratch_size", i32)].

Definition ct_syscallbuf_record (a : SupportedArch) : ctype := Struct false
  [("ret", i64 a); ("syscallno", i16); ("desched", i8); ("_padding", i8); ("size", i32);
   ("extra_data", Arr i8 0)].

Definition ct_syscallbuf_hdr (a : SupportedArch) : ctype := Struct true
  [("num_rec_bytes", i32); ("mprotect_record_count", i32);
   ("mprotect_record_count_completed", i32); ("abort_commit", i8);
   ("notify_on_syscall_hook_exit", i8); ("locked", i8);
   ("desched_signal_may_be_relevant", i8); ("blocked_sigs", i64 a);
   ("blocked_sigs_generation", i32); ("in_sigprocmask_critical_section", i8);
   ("failed_during_preparation", i8); ("recs", Arr (ct_syscallbuf_record a) 0)].

(** The offsets of all fields of a structure. *)
Definition field_offsets (t : ctype) : list (string * option Z) :=
  match t with
  | Struct _ fs => map (fun f => (fst f, offsetof (fst f) t)) fs
  | _ => []
  end.

End Layouts.

(** Offsets used by the code below (x86-64). *)
Definition SIZEOF_HDR : Z := 30.
Definition SIZEOF_REC : Z := 16.
Definition REC_ret : Z := 0.
Definition REC_syscallno : Z := 8.
Definition REC_desched : Z := 10.
Definition REC_size : Z := 12.

Local Open Scope string_scope.
Local Open Scope Z_scope.

(** The layouts of the structures that rr and the preload library share, checked
    against the offsets and sizes the code uses: a 16-byte record and a 30-byte
    packed header on both architectures, thread locals of x86-64 that fill the
    space reserved for them and of x86 that fit into it, and layouts that do not
    depend on the architecture where they must not. *)
Theorem shared_layouts :
  sizeof (ct_syscallbuf_hdr x86_64) = SIZEOF_HDR /\
  offsetof "recs" (ct_syscallbuf_hdr x86_64) = Some SIZEOF_HDR /\
  sizeof (ct_syscallbuf_record x86_64) = SIZEOF_REC /\
  offsetof "ret" (ct_syscallbuf_record x86_64) = Some REC_ret /\
  offsetof "syscallno" (ct_syscallbuf_record x86_64) = Some REC_syscallno /\
  offsetof "desched" (ct_syscallbuf_record x86_64) = Some REC_desched /\
  offsetof "size" (ct_syscallbuf_record x86_64) = Some REC_size /\
  sizeof (ct_preload_thread_locals x86_64) = PRELOAD_THREAD_LOCALS_SIZE /\
  sizeof (ct_preload_thread_locals x86) <= PRELOAD_THREAD_LOCALS_SIZE /\
  (forall a, sizeof (ct_mprotect_record a) = 24 /\ sizeof (ct_syscall_patch_hook a) = 24 /\
     field_offsets (ct_preload_globals a) = field_offsets (ct_preload_globals x86_64) /\
     sizeof (ct_preload_globals a) = sizeof (ct_preload_globals x86_64) /\
     field_offsets (ct_syscallbuf_hdr a) = field_offsets (ct_syscallbuf_hdr x86_64) /\
     field_offsets (ct_syscallbuf_record a) = field_offsets (ct_syscallbuf_record x86_64)).
Proof.
  repeat (split; [vm_compute; (reflexivity || discriminate)|]).
  intros []; vm_compute; repeat split.
Qed.

(** ** Structure values *)

Record mprotect_record := mkMprotect { mp_start : Z; mp_size : Z; mp_prot : Z }.

Record syscallbuf_hdr := mkHdr {
  num_rec_bytes : Z;
  mprotect_record_count : Z;
  mprotect_record_count_completed : Z;
  abort_commit : Z;
  notify_on_syscall_hook_exit : Z;
  locked : Z;
  desched_signal_may_be_relevant : Z;
  blocked_sigs : Z;
  blocked_sigs_generation : Z;
  in_sigprocmask_critical_section : Z;
  failed_during_preparation : Z }.

(** [syscallbuf_fds_disabled] and [mprotect_records] are arrays. *)
Record preload_globals := mkGlobals {
  in_replay : Z;
  in_diversion : Z;
  in_chaos : Z;
  pretend_num_cores : Z;
  syscallbuf_fds_disabled : Z -> Z;
  mprotect_records : Z -> mprotect_record;
  random_seed : Z }.

Record syscall_info := mkCall { no : Z; args : list Z }.

Record preload_thread_locals := mkTL {
  pending_untraced_syscall_result : Z;
  original_syscall_parameters : Z;
  thread_inited : Z;
  buffer : Z;
  buffer_size : Z;
  desched_counter_fd : Z;
  cloned_file_data_fd : Z;
  cloned_file_data_offset : Z;
  scratch_buf : Z;
  usable_scratch_size : Z;
  notify_control_msg : Z }.

Definition set_num_rec_bytes v h := mkHdr v (mprotect_record_count h) (mprotect_record_count_completed h) (abort_commit h) (notify_on_syscall_hook_exit h) (locked h) (desched_signal_may_be_relevant h) (blocked_sigs h) (blocked_sigs_generation h) (in_sigprocmask_critical_section h) (failed_during_preparation h).
Definition set_mprotect_record_count v h := mkHdr (num_rec_bytes h) v (mprotect_record_count_completed h) (abort_commit h) (notify_on_syscall_hook_exit h) (locked h) (desched_signal_may_be_relevant h) (blocked_sigs h) (blocked_sigs_generation h) (in_sigprocmask_critical_section h) (failed_during_preparation h).
Definition set_mprotect_record_count_completed v h := mkHdr (num_rec_bytes h) (mprotect_record_count h) v (abort_commit h) (notify_on_syscall_hook_exit h) (locked h) (desched_signal_may_be_relevant h) (blocked_sigs h) (blocked_sigs_generation h) (in_sigprocmask_critical_section h) (failed_during_preparation h).
Definition set_abort_commit v h := mkHdr (num_rec_bytes h) (mprotect_record_count h) (mprotect_record_count_completed h) v (notify_on_syscall_hook_exit h) (locked h) (desched_signal_may_be_relevant h) (blocked_sigs h) (blocked_sigs_generation h) (in_sigprocmask_critical_section h) (failed_during_preparation h).
Definition set_locked v h := mkHdr (num_rec_bytes h) (mprotect_record_count h) (mprotect_record_count_completed h) (abort_commit h) (notify_on_syscall_hook_exit h) v (desched_signal_may_be_relevant h) (blocked_sigs h) (blocked_sigs_generation h) (in_sigprocmask_critical_section h) (failed_during_preparation h).
Definition set_desched_signal_may_be_relevant v h := mkHdr (num_rec_bytes h) (mprotect_record_count h) (mprotect_record_count_completed h) (abort_commit h) (notify_on_syscall_hook_exit h) (locked h) v (blocked_sigs h) (blocked_sigs_generation h) (in_sigprocmask_critical_section h) (failed_during_preparation h).
Definition set_blocked_sigs v h := mkHdr (num_rec_bytes h) (mprotect_record_count h) (mprotect_record_count_completed h) (abort_commit h) (notify_on_syscall_hook_exit h) (locked h) (desched_signal_may_be_relevant h) v (blocked_sigs_generation h) (in_sigprocmask_critical_section h) (failed_during_preparation h).
Definition set_blocked_sigs_generation v h := mkHdr (num_rec_bytes h) (mprotect_record_count h) (mprotect_record_count_completed h) (abort_commit h) (notify_on_syscall_hook_exit h) (locked h) (desched_signal_may_be_relevant h) (blocked_sigs h) v (in_sigprocmask_critical_section h) (failed_during_preparation h).
Definition set_in_sigprocmask_critical_section v h := mkHdr (num_rec_bytes h) (mprotect_record_count h) (mprotect_record_count_completed h) (abort_commit h) (notify_on_syscall_hook_exit h) (locked h) (desched_signal_may_be_relevant h) (blocked_sigs h) (blocked_sigs_generation h) v (failed_during_preparation h).
Definition set_failed_during_preparation v h := mkHdr (num_rec_bytes h) (mprotect_record_count h) (mprotect_record_count_completed h) (abort_commit h) (notify_on_syscall_hook_exit h) (locked h) (desched_signal_may_be_relevant h) (blocked_sigs h) (blocked_sigs_generation h) (in_sigprocmask_critical_section h) v.

Definition set_pending_untraced_syscall_result v t := mkTL v (original_syscall_parameters t) (thread_inited t) (buffer t) (buffer_size t) (desched_counter_fd t) (cloned_file_data_fd t) (cloned_file_data_offset t) (scratch_buf t) (usable_scratch_size t) (notify_control_msg t).
Definition set_original_syscall_parameters v t := mkTL (pending_untraced_syscall_result t) v (thread_inited t) (buffer t) (buffer_size t) (desched_counter_fd t) (cloned_file_data_fd t) (cloned_file_data_offset t) (scratch_buf t) (usable_scratch_size t) (notify_control_msg t).
Definition set_cloned_file_data_offset v t := mkTL (pending_untraced_syscall_result t) (original_syscall_parameters t) (thread_inited t) (buffer t) (buffer_size t) (desched_counter_fd t) (cloned_file_data_fd t) v (scratch_buf t) (usable_scratch_size t) (notify_control_msg t).
Definition set_notify_control_msg v t := mkTL (pending_untraced_syscall_result t) (original_syscall_parameters t) (thread_inited t) (buffer t) (buffer_size t) (desched_counter_fd t) (cloned_file_data_fd t) (cloned_file_data_offset t) (scratch_buf t) (usable_scratch_size t) v.
Definition set_thread_inited v t := mkTL (pending_untraced_syscall_result t) (original_syscall_parameters t) v (buffer t) (buffer_size t) (desched_counter_fd t) (cloned_file_data_fd t) (cloned_file_data_offset t) (scratch_buf t) (usable_scratch_size t) (notify_control_msg t).
Definition set_desched_counter_fd v t := mkTL (pending_untraced_syscall_result t) (original_syscall_parameters t) (thread_inited t) (buffer t) (buffer_size t) v (cloned_file_data_fd t) (cloned_file_data_offset t) (scratch_buf t) (usable_scratch_size t) (notify_control_msg t).

Definition set_random_seed v g := mkGlobals (in_replay g) (in_diversion g) (in_chaos g) (pretend_num_cores g) (syscallbuf_fds_disabled g) (mprotect_records g) v.
Definition set_mprotect_records v g := mkGlobals (in_replay g) (in_diversion g) (in_chaos g) (pretend_num_cores g) (syscallbuf_fds_disabled g) v (random_seed g).

(** ** Sizes of stored records *)

(** [(length + 7) & ~7] in [size_t], returned as [long]. *)
Definition stored_record_size (length : Z) : Z :=
  s64 (Z.land (u64 (u64 length + 7)) (u64 (Z.lnot 7))).

Lemma testbit_above x n : 0 <= x < 2 ^ n -> forall k, n <= k -> Z.testbit x k = false.
Proof.
  intros Hx k Hk. destruct (Z.eq_dec x 0) as [->|Hne]; [apply Z.testbit_0_l|].
  apply Z.bits_above_log2; [lia|]. apply Z.log2_lt_pow2; [lia|].
  destruct Hx as [_ Hx]. eapply Z.lt_le_trans; [exact Hx|].
  apply Z.pow_le_mono_r; lia.
Qed.

Lemma land_not7 x : 0 <= x < 2 ^ 64 -> Z.land x (u64 (Z.lnot 7)) = x / 8 * 8.
Proof.
  intros Hx. change (u64 (Z.lnot 7)) with (Z.shiftl (Z.ones 61) 3).
  replace (x / 8 * 8) with (Z.shiftl (Z.shiftr x 3) 3)
    by (rewrite Z.shiftl_mul_pow2, Z.shiftr_div_pow2 by lia; done).
  apply Z.bits_inj'. intros k Hk. rewrite Z.land_spec.
  destruct (Z.lt_ge_cases k 3).
  - rewrite !Z.shiftl_spec_low by lia. apply andb_false_r.
  - rewrite !Z.shiftl_spec, Z.shiftr_spec, Z.sub_add by lia.
    destruct (Z.lt_ge_cases k 64).
    + rewrite Z.ones_spec_low by lia. apply andb_true_r.
    + by rewrite (testbit_above x 64).
Qed.

(** For every length a buffer can hold the function rounds up to the next
    multiple of 8. *)
Lemma stored_record_size_eq length :
  0 <= length < 2 ^ 63 - 8 -> stored_record_size length = (length + 7) / 8 * 8.
Proof.
  intros H. unfold stored_record_size.
  rewrite (wrapu_small 64 length), (wrapu_small 64 (length + 7)), land_not7 by lia.
  pose proof (Z.div_mod (length + 7) 8 ltac:(lia)).
  pose proof (Z.mod_pos_bound (length + 7) 8 ltac:(lia)).
  apply wraps_small; lia.
Qed.

Lemma stored_record_size_bounds length :
  0 <= length < 2 ^ 63 - 8 ->
  length <= stored_record_size length < length + 8 /\ stored_record_size length mod 8 = 0.
Proof.
  intros H. rewrite stored_record_size_eq by done.
  pose proof (Z.div_mod (length + 7) 8 ltac:(lia)).
  pose proof (Z.mod_pos_bound (length + 7) 8 ltac:(lia)).
  split; [lia|]. apply Z.mod_mul. lia.
Qed.

Lemma stored_record_size_idemp length :
  0 <= length < 2 ^ 63 - 16 ->
  stored_record_size (stored_record_size length) = stored_record_size length.
Proof.
  intros H. destruct (stored_record_size_bounds length) as [Hb Hm]; [lia|].
  rewrite (stored_record_size_eq (stored_record_size length)) by lia.
  apply Z.mod_divide in Hm as [k Hk]; [|lia].
  rewrite Hk. replace (k * 8 + 7) with (7 + k * 8) by lia.
  rewrite Z.div_add by lia. change (7 / 8) with 0. lia.
Qed.
