(* ===== verification/Machine.v ===== *)
(** * The tracee as the preload library sees it

    The state the library's code reads and writes (memory, buffer header, thread
    locals, globals and its own static variables), the monad its functions run
    in, and raw system calls through the rr page.

    The kernel, and rr behind a traced system call, are a parameter: the class
    [Env] holds one function from the entry used, the system call and the whole
    state (with the history of system calls made so far) to a result and new
    values of everything they may change.  A failed [assert] or a [fatal] ends
    the computation with [Abort]. *)

From stdpp Require Import base tactics list numbers.
From S2P Require Import Prelude Memory KernelAbi PreloadInterface.
Local Open Scope Z_scope.

(** ** State *)

Inductive event :=
| EvSyscall (entry : rr_page_entry) (sysno : Z) (a : list Z)
| EvBreakpoint (addr : Z).

#[export] Instance event_eq_dec : EqDecision event.
Proof. solve_decision. Defined.

(** The static variables of [syscallbuf.c]. *)
Record statics := mkStatics {
  buffer_enabled : Z;
  process_inited : Z;
  impose_syscall_delay : Z;
  impose_spurious_desched : Z;
  trace_chaos_mode_syscalls : Z;
  buffer_chaos_mode_syscalls : Z }.

(** [frame] is the address of the running wrapper's local variables that are
    passed to the kernel by address. *)
Record st := mkSt {
  memory : mem;
  hdr : syscallbuf_hdr;
  tl : preload_thread_locals;
  gl : preload_globals;
  sv : statics;
  frame : Z;
  events : list event }.

Definition set_memory m s := mkSt m (hdr s) (tl s) (gl s) (sv s) (frame s) (events s).
Definition set_hdr h s := mkSt (memory s) h (tl s) (gl s) (sv s) (frame s) (events s).
Definition set_tl t s := mkSt (memory s) (hdr s) t (gl s) (sv s) (frame s) (events s).
Definition set_gl g s := mkSt (memory s) (hdr s) (tl s) g (sv s) (frame s) (events s).
Definition set_sv v s := mkSt (memory s) (hdr s) (tl s) (gl s) v (frame s) (events s).
Definition add_event e s := mkSt (memory s) (hdr s) (tl s) (gl s) (sv s) (frame s) (events s ++ [e]).

(** ** The monad *)

(** A failed [assert] or a [fatal] raises SIGABRT; [NullDeref] is an access
    through a null [thread_locals->buffer], [UserNullDeref] through a null
    pointer the program passed; [OutOfFuel] and [UnterminatedString] say that a
    loop of the model, respectively the scan of a C string, reached its bound. *)
Inductive abort_reason :=
| AssertFailed
| FatalError
| NullDeref
| UserNullDeref
| UnterminatedString
| OutOfFuel.

Inductive outcome (A : Type) :=
| Ret (a : A)
| Abort (why : abort_reason).
Arguments Ret {A} a.
Arguments Abort {A} why.

Definition M (A : Type) : Type := st -> outcome A * st.

#[export] Instance M_ret : MRet M := fun A a s => (Ret a, s).
#[export] Instance M_bind : MBind M := fun A B f c s =>
  match c s with
  | (Ret a, s') => f a s'
  | (Abort w, s') => (Abort w, s')
  end.

Definition gets {A} (f : st -> A) : M A := fun s => (Ret (f s), s).
Definition modify (f : st -> st) : M unit := fun s => (Ret tt, f s).
Definition abort {A} (w : abort_reason) : M A := fun s => (Abort w, s).
Definition assert_ (b : bool) : M unit := if b then mret tt else abort AssertFailed.
Definition fatal_if (b : bool) : M unit := if b then abort FatalError else mret tt.
Definition modify_hdr (f : syscallbuf_hdr -> syscallbuf_hdr) : M unit :=
  modify (fun s => set_hdr (f (hdr s)) s).
Definition modify_tl (f : preload_thread_locals -> preload_thread_locals) : M unit :=
  modify (fun s => set_tl (f (tl s)) s).
Definition modify_gl (f : preload_globals -> preload_globals) : M unit :=
  modify (fun s => set_gl (f (gl s)) s).
Definition modify_mem (f : mem -> mem) : M unit :=
  modify (fun s => set_memory (f (memory s)) s).

(** Loads and stores of C scalars. *)
Definition load_m (n : nat) (a : Z) : M Z := gets (fun s => load n a (memory s)).
Definition store_m (n a v : Z) : M unit := modify_mem (store n a v).

(** ** The kernel and rr *)

(** What a system call returns and everything it may have changed. *)
Record kresult := mkK {
  k_ret : Z;
  k_mem : mem;
  k_hdr : syscallbuf_hdr;
  k_tl : preload_thread_locals;
  k_gl : preload_globals }.

Class Env := mkEnv {
  (** the [syscall] instruction of an rr page entry *)
  kernel : rr_page_entry -> Z -> list Z -> st -> kresult;
  (** longest C string the scans below will follow *)
  strfuel : nat;
  (** [_breakpoint_table_entry_start] and the size of an entry *)
  breakpoint_table_start : Z;
  breakpoint_table_entry_size : Z;
  (** the size of [struct perf_event_attr] in the kernel headers used *)
  sizeof_perf_event_attr : Z }.

(** Whether the stub at an rr page entry holds a system call instruction
    ([true]) or [xor %eax,%eax] ([false]): rr maps one page while recording and
    another while replaying. *)
Definition rr_page_has_syscall (is_replay : bool) (e : rr_page_entry) : bool :=
  match e with
  | TRACED | PRIVILEGED_TRACED | UNTRACED | PRIVILEGED_UNTRACED => true
  | UNTRACED_REPLAY_ONLY | PRIVILEGED_UNTRACED_REPLAY_ONLY => is_replay
  | UNTRACED_RECORDING_ONLY | PRIVILEGED_UNTRACED_RECORDING_ONLY => negb is_replay
  end.

Definition replaying (s : st) : bool := nz (in_replay (gl s)).

Section Syscalls.
Context {E : Env}.

(** [_raw_syscall]: [a] holds the six arguments and the two stack parameters. *)
Definition raw_syscall (e : rr_page_entry) (sysno : Z) (a : list Z) : M Z := fun s =>
  let s := add_event (EvSyscall e sysno a) s in
  if rr_page_has_syscall (replaying s) e then
    let k := kernel e sysno a s in
    (Ret (s64 (k_ret k)),
     mkSt (k_mem k) (k_hdr k) (k_tl k) (k_gl k) (sv s) (frame s) (events s))
  else (Ret 0, s).

(** Argument lists are padded with zeros, as the numbered macros do. *)
Definition pad8 (a : list Z) : list Z := map u64 (take 8 (a ++ replicate 8 0)).

Definition privileged_traced_syscall (sysno : Z) (a : list Z) : M Z :=
  r ← raw_syscall PRIVILEGED_TRACED sysno (pad8 a); mret (s32 r).

Definition traced_raw_syscall (call : syscall_info) : M Z :=
  raw_syscall TRACED (no call) (pad8 (args call)).

Definition privileged_untraced_syscall (sysno : Z) (a : list Z) : M Z :=
  raw_syscall PRIVILEGED_UNTRACED_RECORDING_ONLY sysno (pad8 a).

Definition replay_only_syscall (sysno : Z) (a : list Z) : M Z :=
  raw_syscall PRIVILEGED_UNTRACED_REPLAY_ONLY sysno (pad8 a).

End Syscalls.

(** The bytes of the NUL-terminated string at [p], if it ends within [fuel]. *)
Fixpoint read_cstring (fuel : nat) (m : mem) (p : Z) : option (list Z) :=
  match fuel with
  | O => None
  | S fuel =>
      if m p mod 256 =? 0 then Some []
      else c ← read_cstring fuel m (p + 1); Some (m p mod 256 :: c)
  end.

(** A [const char*] argument: [None] for the null pointer. *)
Definition cstring_arg {E : Env} (p : Z) : M (option (list Z)) :=
  if p =? 0 then mret None
  else
    o ← gets (fun s => read_cstring strfuel (memory s) p);
    match o with
    | Some c => mret (Some c)
    | None => abort UnterminatedString
    end.

(** ** Equations of the monad *)

Lemma bind_eq {A B} (c : M A) (f : A -> M B) s :
  mbind f c s = match c s with (Ret a, s') => f a s' | (Abort w, s') => (Abort w, s') end.
Proof. done. Qed.

Lemma bind_ret_l {A B} (a : A) (f : A -> M B) s : mbind f (mret a) s = f a s.
Proof. done. Qed.

Lemma bind_assoc {A B C} (c : M A) (f : A -> M B) (g : B -> M C) s :
  mbind g (mbind f c) s = mbind (fun a => mbind g (f a)) c s.
Proof. unfold mbind, M_bind. by destruct (c s) as [[a|w] s']. Qed.

Lemma bind_ret_inv {A B} (c : M A) (f : A -> M B) s b s' :
  mbind f c s = (Ret b, s') -> exists a s1, c s = (Ret a, s1) /\ f a s1 = (Ret b, s').
Proof. unfold mbind, M_bind. destruct (c s) as [[a|w] s1]; [eauto|discriminate]. Qed.
