(* ===== verification/SyscallNumbers.v ===== *)
(** * System call numbers (x86-64)

    The numbers of [syscalls.py], from which the build generates the constants
    the C code uses. *)

From Stdlib Require Import ZArith.
Local Open Scope Z_scope.

Definition SYS_access := 21.
Definition SYS_clock_gettime := 228.
Definition SYS_close := 3.
Definition SYS_creat := 85.
Definition SYS_dup := 32.
Definition SYS_epoll_wait := 232.
Definition SYS_fadvise64 := 221.
Definition SYS_fchmod := 91.
Definition SYS_fcntl := 72.
Definition SYS_fgetxattr := 193.
Definition SYS_flistxattr := 196.
Definition SYS_fsetxattr := 190.
Definition SYS_ftruncate := 77.
Definition SYS_futex := 202.
Definition SYS_getdents := 78.
Definition SYS_getdents64 := 217.
Definition SYS_getegid := 108.
Definition SYS_geteuid := 107.
Definition SYS_getgid := 104.
Definition SYS_getpid := 39.
Definition SYS_getppid := 110.
Definition SYS_getrusage := 98.
Definition SYS_gettid := 186.
Definition SYS_gettimeofday := 96.
Definition SYS_getuid := 102.
Definition SYS_getxattr := 191.
Definition SYS_ioctl := 16.
Definition SYS_lchown := 94.
Definition SYS_lgetxattr := 192.
Definition SYS_listxattr := 194.
Definition SYS_llistxattr := 195.
Definition SYS_lseek := 8.
Definition SYS_madvise := 28.
Definition SYS_mkdir := 83.
Definition SYS_mknod := 133.
Definition SYS_mprotect := 10.
Definition SYS_open := 2.
Definition SYS_openat := 257.
Definition SYS_poll := 7.
Definition SYS_pread64 := 17.
Definition SYS_pwrite64 := 18.
Definition SYS_ptrace := 101.
Definition SYS_quotactl := 179.
Definition SYS_read := 0.
Definition SYS_readlink := 89.
Definition SYS_recvfrom := 45.
Definition SYS_recvmsg := 47.
Definition SYS_rt_sigprocmask := 14.
Definition SYS_sendmsg := 46.
Definition SYS_sendto := 44.
Definition SYS_setsockopt := 54.
Definition SYS_setxattr := 188.
Definition SYS_socketpair := 53.
Definition SYS_symlink := 88.
Definition SYS_time := 201.
Definition SYS_truncate := 76.
Definition SYS_unlink := 87.
Definition SYS_unlinkat := 263.
Definition SYS_utimensat := 280.
Definition SYS_write := 1.
Definition SYS_writev := 20.
Definition SYS_fstat := 5.
Definition SYS_lstat := 6.
Definition SYS_stat := 4.
Definition SYS_statfs := 137.
Definition SYS_fstatfs := 138.
Definition SYS_dup2 := 33.
Definition SYS_process_vm_readv := 310.
Definition SYS_rt_tgsigqueueinfo := 297.
Definition SYS_perf_event_open := 298.
