(* ===== verification/Syscallbuf.v ===== *)
(** * The buffer transaction of [syscallbuf.c]

    Every buffered system call runs the same protocol: [prep_syscall] takes the
    lock and hands out the space after the last record,
    [start_commit_buffered_syscall] checks that the record fits and writes its
    fixed part, the wrapper makes the untraced call, and [commit_raw_syscall]
    publishes the record by moving [num_rec_bytes] past it.  This file holds the
    protocol, the copies between the buffer and user memory, the pseudo-random
    choice of chaos mode and the initialisation of a thread. *)

From stdpp Require Import base tactics list numbers.
From S2P Require Import Prelude Memory KernelAbi PreloadInterface Machine SyscallNumbers.
Local Open Scope Z_scope.

(** Constants of the system headers. *)
Definition PERF_EVENT_IOC_ENABLE := 9216.  (* _IO('$', 0) *)
Definition PERF_EVENT_IOC_DISABLE := 9217. (* _IO('$', 1) *)
Definition POLL_IN := 1.
Definition RR_DESCHED_EVENT_FLOOR_FD := 100.
Definition O_ASYNC := 8192.
Definition F_OWNER_TID := 0.

(** ** Pointers into the buffer *)

Definition buffer_hdr (s : st) : Z := buffer (tl s).

(** [(uintptr_t)hdr->recs + hdr->num_rec_bytes] *)
Definition next_record (hdr_ptr : Z) (h : syscallbuf_hdr) : Z :=
  padd (padd hdr_ptr SIZEOF_HDR) (num_rec_bytes h).

Definition buffer_last (s : st) : Z := next_record (buffer_hdr s) (hdr s).

Definition buffer_end (s : st) : Z := padd (buffer (tl s)) (buffer_size (tl s)).

(** ** Copies *)

(** [n] is an [int] that [rep movsb] takes as its 32-bit counter. *)
Definition local_memcpy (dest source n : Z) : M unit :=
  modify_mem (rep_movsb (Z.to_nat (u32 n)) dest source).

(** While replaying, the source becomes the destination: a self-copy. *)
Definition memcpy_input_parameter (buf src size : Z) : M unit :=
  in_replay ← gets replaying;
  modify_mem (rep_movsb (Z.to_nat (u32 size)) buf (if (in_replay : bool) then buf else src)).

(** While recording, [*real] is saved to [*buf]; while replaying, [*buf] is
    restored to [*real]. *)
Definition copy_futex_int (buf real : Z) : M unit :=
  in_replay ← gets replaying;
  v ← load_m 4 (if (in_replay : bool) then buf else real);
  store_m 4 buf v;;
  store_m 4 real v.

Definition copy_output_buffer (ret_size ptr buf buf2 : Z) : M Z :=
  let ret_size := s32 ret_size in
  if buf2 =? 0 then mret ptr
  else
    failed ← gets (fun s => failed_during_preparation (hdr s));
    if (ret_size <=? 0) || nz failed then mret buf2
    else local_memcpy buf buf2 ret_size;; mret (padd buf2 ret_size).

(** ** Xorshift* *)

(** The new seed and the number drawn. *)
Definition local_random_step (seed : Z) : Z * Z :=
  let x := seed in
  let x := Z.lxor x (Z.shiftr x 12) in
  let x := Z.lxor x (u64 (Z.shiftl x 25)) in
  let x := Z.lxor x (Z.shiftr x 27) in
  (x, s64 (x * 2685821657736338717)). (* 0x2545F4914F6CDD1D *)

Definition local_random : M Z :=
  seed ← gets (fun s => random_seed (gl s));
  let '(seed, r) := local_random_step seed in
  modify_gl (set_random_seed seed);;
  mret r.

(** One round of the loop: the decision, if there is one, and the counters. *)
Definition chaos_decide (trace buffer : Z) : option bool * Z * Z :=
  if nz buffer then (Some false, trace, buffer - 1)
  else if nz trace then (Some true, trace - 1, buffer)
  else (None, trace, buffer).

(** New counters from a draw: [(r % 50) + 1] and [(trace - 5) * 10], both
    [int], the second clamped at 0. *)
Definition chaos_refill (r : Z) : Z * Z :=
  let trace := s32 (Z.rem r 50 + 1) in
  let buffer := s32 ((trace - 5) * 10) in
  (trace, if buffer <? 0 then 0 else buffer).

Definition set_chaos (trace buffer : Z) (v : statics) : statics :=
  mkStatics (buffer_enabled v) (process_inited v) (impose_syscall_delay v)
    (impose_spurious_desched v) trace buffer.

(** The [while (1)] loop; [None] when [fuel] rounds did not decide. *)
Fixpoint chaos_loop (fuel : nat) (trace buffer seed : Z) : option (bool * Z * Z * Z) :=
  match fuel with
  | O => None
  | S fuel =>
      match chaos_decide trace buffer with
      | (Some d, trace, buffer) => Some (d, trace, buffer, seed)
      | (None, _, _) =>
          let '(seed, r) := local_random_step seed in
          let '(trace, buffer) := chaos_refill r in
          chaos_loop fuel trace buffer seed
      end
  end.

(** The fuel is generous: a round fails to decide only when the draw is -1
    modulo 50. *)
Definition CHAOS_FUEL : nat := 1000.

Definition force_traced_syscall_for_chaos_mode : M bool := fun s =>
  if negb (nz (in_chaos (gl s))) then (Ret false, s)
  else
    match chaos_loop CHAOS_FUEL (trace_chaos_mode_syscalls (sv s))
            (buffer_chaos_mode_syscalls (sv s)) (random_seed (gl s)) with
    | Some (d, trace, buffer, seed) =>
        (Ret d, set_gl (set_random_seed seed (gl s)) (set_sv (set_chaos trace buffer (sv s)) s))
    | None => (Abort OutOfFuel, s)
    end.

(** ** The transaction *)

Section Protocol.
Context {E : Env}.

Definition untraced_syscall_base (sysno : Z) (a : list Z) (entry : rr_page_entry) : M Z :=
  rec ← gets buffer_last;
  modify_tl (set_pending_untraced_syscall_result (rec + REC_ret));;
  ret ← raw_syscall entry sysno (pad8 a);
  in_replay ← gets replaying;
  rec_ret ← load_m 8 (rec + REC_ret);
  mret (if (in_replay : bool) then s64 rec_ret else ret).

Definition untraced_syscall (sysno : Z) (a : list Z) : M Z :=
  untraced_syscall_base sysno a UNTRACED_RECORDING_ONLY.

Definition untraced_replayed_syscall (sysno : Z) (a : list Z) : M Z :=
  untraced_syscall_base sysno a UNTRACED.

Definition prep_syscall : M Z :=
  b ← gets buffer_hdr;
  if b =? 0 then abort NullDeref
  else
    modify_hdr (fun h => set_locked (Z.lor (locked h) SYSCALLBUF_LOCKED_TRACEE) h);;
    last ← gets buffer_last;
    mret (padd last SIZEOF_REC).

Definition is_bufferable_fd (fd : Z) (g : preload_globals) : bool :=
  if fd <? 0 then true
  else
    let fd := if fd >=? SYSCALLBUF_FDS_DISABLED_SIZE then SYSCALLBUF_FDS_DISABLED_SIZE - 1 else fd in
    negb (nz (syscallbuf_fds_disabled g fd)).

Definition prep_syscall_for_fd (fd : Z) : M Z :=
  ok ← gets (fun s => is_bufferable_fd fd (gl s));
  if negb (ok : bool) then mret 0 else prep_syscall.

Definition arm_desched_event : M unit :=
  fd ← gets (fun s => desched_counter_fd (tl s));
  r ← privileged_untraced_syscall SYS_ioctl [fd; PERF_EVENT_IOC_ENABLE; 0];
  fatal_if (nz (s32 r)).

Definition disarm_desched_event : M unit :=
  fd ← gets (fun s => desched_counter_fd (tl s));
  r ← privileged_untraced_syscall SYS_ioctl [fd; PERF_EVENT_IOC_DISABLE; 0];
  fatal_if (nz (s32 r)).

Inductive blockness := MAY_BLOCK | WONT_BLOCK.

Definition is_MAY_BLOCK (b : blockness) : bool := match b with MAY_BLOCK => true | WONT_BLOCK => false end.

Definition unlock_tracee (h : syscallbuf_hdr) : syscallbuf_hdr :=
  set_locked (Z.ldiff (locked h) SYSCALLBUF_LOCKED_TRACEE) h.

(** Arming the desched notification of a may-block call, and the spurious
    signal of a test mode: [si] is the local [siginfo_t]. *)
Definition arm_for_may_block : M unit :=
  spurious ← gets (fun s => nz (impose_spurious_desched (sv s)));
  ids ← (if (spurious : bool) then
           pid ← privileged_untraced_syscall SYS_getpid [];
           tid ← privileged_untraced_syscall SYS_gettid [];
           uid ← privileged_untraced_syscall SYS_getuid [];
           mret (s32 pid, s32 tid, u32 uid)
         else mret (0, 0, 0));
  let '(pid, tid, uid) := ids in
  modify_hdr (set_desched_signal_may_be_relevant 1);;
  arm_desched_event;;
  if (spurious : bool) then
    si ← gets frame;
    fd ← gets (fun s => desched_counter_fd (tl s));
    store_m 4 (si + 8) POLL_IN;;
    store_m 4 (si + 24) fd;;
    store_m 4 (si + 16) pid;;
    store_m 4 (si + 20) uid;;
    privileged_untraced_syscall SYS_rt_tgsigqueueinfo [pid; tid; SYSCALLBUF_DESCHED_SIGNAL; si];;
    mret tt
  else mret tt.

Definition start_commit_buffered_syscall (syscallno record_end : Z) (blk : blockness) : M bool :=
  b ← gets (fun s => buffer (tl s));
  if b =? 0 then mret false
  else
    record_start ← gets buffer_last;
    bend ← gets buffer_end;
    let stored_end := padd record_start (stored_record_size (psub record_end record_start)) in
    let rec := record_start in
    if stored_end <? padd record_start SIZEOF_REC then mret false
    else if psub bend SIZEOF_REC <? stored_end then
      modify_hdr unlock_tracee;; mret false
    else
      store_m 2 (rec + REC_syscallno) syscallno;;
      store_m 1 (rec + REC_desched) (b2z (is_MAY_BLOCK blk));;
      store_m 4 (rec + REC_size) (psub record_end record_start);;
      (if is_MAY_BLOCK blk then arm_for_may_block else mret tt);;
      mret true.

(** The entry of the breakpoint table for [n] bytes of records; the product is
    computed in 32 bits. *)
Definition breakpoint_address (n : Z) : Z :=
  padd breakpoint_table_start (u32 (n / 8 * breakpoint_table_entry_size)).

Definition commit_raw_syscall (syscallno record_end ret : Z) : M Z :=
  record_start ← gets buffer_last;
  let rec := record_start in
  assert_ (record_start <=? record_end);;
  store_m 4 (rec + REC_size) (psub record_end record_start);;
  lock ← gets (fun s => locked (hdr s));
  assert_ (nz lock);;
  modify_hdr (set_desched_signal_may_be_relevant 0);;
  rec_no ← load_m 2 (rec + REC_syscallno);
  fatal_if (negb (rec_no =? syscallno));;
  aborted ← gets (fun s => nz (abort_commit (hdr s)));
  bp ← (if (aborted : bool) then
          modify_hdr (fun h => set_failed_during_preparation 0 (set_abort_commit 0 h));;
          store_m 8 (rec + REC_ret) 0;;
          mret None
        else
          store_m 8 (rec + REC_ret) ret;;
          size ← load_m 4 (rec + REC_size);
          modify_hdr (fun h =>
            set_num_rec_bytes (u32 (num_rec_bytes h + stored_record_size size)) h);;
          n ← gets (fun s => num_rec_bytes (hdr s));
          mret (Some (breakpoint_address n)));
  desched ← load_m 1 (rec + REC_desched);
  (if nz desched then disarm_desched_event else mret tt);;
  modify_hdr unlock_tracee;;
  (match bp with Some f => modify (add_event (EvBreakpoint f)) | None => mret tt end);;
  mret ret.

End Protocol.
