(* ===== verification/Chaos.v ===== *)
(** * Chaos mode

    [local_random] and the counters with which
    [force_traced_syscall_for_chaos_mode] decides which calls to trace. *)

From stdpp Require Import base tactics list numbers.
From S2P Require Import Prelude PreloadInterface Machine Syscallbuf.
Local Open Scope Z_scope.

(** ** The generator is a permutation of its states *)

Definition word64 (x : Z) : Prop := 0 <= x < 2 ^ 64.

Lemma word64_bits x : word64 x -> forall i, 64 <= i -> Z.testbit x i = false.
Proof. intros Hx. by apply testbit_above. Qed.

Lemma bits_word64 x : 0 <= x -> (forall i, 64 <= i -> Z.testbit x i = false) -> word64 x.
Proof.
  intros H0 Hb. split; [done|]. destruct (Z.lt_ge_cases x (2 ^ 64)) as [|Hge]; [done|exfalso].
  assert (64 <= Z.log2 x) as Hl by (apply Z.log2_le_pow2; lia).
  pose proof (Z.bit_log2 x ltac:(lia)) as H1. rewrite Hb in H1 by done. done.
Qed.

Definition shr_xor (k x : Z) : Z := Z.lxor x (Z.shiftr x k).
Definition shl_xor (k x : Z) : Z := Z.lxor x (u64 (Z.shiftl x k)).

Lemma shr_xor_bit k x i : 0 <= i -> 0 <= k ->
  Z.testbit (shr_xor k x) i = xorb (Z.testbit x i) (Z.testbit x (i + k)).
Proof. intros Hi Hk. unfold shr_xor. by rewrite Z.lxor_spec, Z.shiftr_spec. Qed.

Lemma shl_xor_bit k x i : 0 <= i -> 0 <= k ->
  Z.testbit (shl_xor k x) i = xorb (Z.testbit x i) ((i <? 64) && Z.testbit x (i - k)).
Proof.
  intros Hi Hk. unfold shl_xor, wrapu. rewrite Z.lxor_spec. f_equal. destruct (Z.ltb_spec i 64).
  - rewrite Z.mod_pow2_bits_low by lia. by rewrite Z.shiftl_spec.
  - by rewrite Z.mod_pow2_bits_high by lia.
Qed.

Lemma shr_xor_word k x : 0 <= k -> word64 x -> word64 (shr_xor k x).
Proof.
  intros Hk Hx. apply bits_word64.
  - apply Z.lxor_nonneg. split; intros _; [apply Z.shiftr_nonneg|]; apply Hx.
  - intros i Hi. rewrite shr_xor_bit by lia. by rewrite !(word64_bits x Hx) by lia.
Qed.

Lemma shl_xor_word k x : 0 <= k -> word64 x -> word64 (shl_xor k x).
Proof.
  intros Hk Hx. apply bits_word64.
  - apply Z.lxor_nonneg. split; intros _; [apply wrapu_range; lia|apply Hx].
  - intros i Hi. rewrite shl_xor_bit by lia. rewrite (word64_bits x Hx) by lia.
    destruct (Z.ltb_spec i 64); [lia|done].
Qed.

(** The highest bits are unchanged, so all bits can be recovered downwards. *)
Lemma shr_xor_inj k x y : 0 < k -> word64 x -> word64 y -> shr_xor k x = shr_xor k y -> x = y.
Proof.
  intros Hk Hx Hy He. apply Z.bits_inj'. intros i Hi.
  assert (forall n : nat, forall i, 0 <= i -> 64 - i <= Z.of_nat n -> Z.testbit x i = Z.testbit y i) as Hind.
  { induction n as [|n IH]; intros j Hj Hn.
    - by rewrite !word64_bits by (done || lia).
    - pose proof (f_equal (fun z => Z.testbit z j) He) as Hb. cbn beta in Hb.
      rewrite !shr_xor_bit in Hb by lia. rewrite (IH (j + k)) in Hb by lia.
      by destruct (Z.testbit x j), (Z.testbit y j), (Z.testbit y (j + k)). }
  apply (Hind 64%nat); lia.
Qed.

(** The lowest bits are unchanged, so all bits can be recovered upwards. *)
Lemma shl_xor_inj k x y : 0 < k -> word64 x -> word64 y -> shl_xor k x = shl_xor k y -> x = y.
Proof.
  intros Hk Hx Hy He. apply Z.bits_inj'. intros i Hi.
  assert (forall n : nat, forall i, i < Z.of_nat n -> Z.testbit x i = Z.testbit y i) as Hind.
  { induction n as [|n IH]; intros j Hn; [by rewrite !Z.testbit_neg_r by lia|].
    destruct (Z.lt_ge_cases j 0); [by rewrite !Z.testbit_neg_r|].
    pose proof (f_equal (fun z => Z.testbit z j) He) as Hb. cbn beta in Hb.
    rewrite !shl_xor_bit in Hb by lia. rewrite (IH (j - k)) in Hb by lia.
    by destruct (Z.testbit x j), (Z.testbit y j), (_ && _). }
  apply (Hind (S (Z.to_nat i))). lia.
Qed.

Lemma local_random_seed seed :
  fst (local_random_step seed) = shr_xor 27 (shl_xor 25 (shr_xor 12 seed)).
Proof. done. Qed.

(** The state of local_random never becomes 0 when it starts nonzero, and its
    step is injective on 64-bit states: the generator cannot get stuck. *)
Theorem local_random_permutes :
  (forall x, 0 < x < 2 ^ 64 -> 0 < fst (local_random_step x) < 2 ^ 64) /\
  (forall x y, word64 x -> word64 y -> fst (local_random_step x) = fst (local_random_step y) -> x = y).
Proof.
  assert (forall x, word64 x -> word64 (fst (local_random_step x))) as Hw.
  { intros x Hx. rewrite local_random_seed. apply shr_xor_word, shl_xor_word, shr_xor_word; (lia || done). }
  assert (forall x y, word64 x -> word64 y -> fst (local_random_step x) = fst (local_random_step y) -> x = y) as Hinj.
  { intros x y Hx Hy He. rewrite !local_random_seed in He.
    apply shr_xor_inj, shl_xor_inj, shr_xor_inj in He; auto using shl_xor_word, shr_xor_word with lia. }
  split; [|done]. intros x Hx. assert (word64 x) as Hx' by (unfold word64; lia).
  destruct (Hw x Hx') as [H1 H2]. split; [|done].
  destruct (Z.eq_dec (fst (local_random_step x)) 0) as [H0|]; [|lia]. exfalso.
  assert (x = 0); [|lia]. apply Hinj; [done|by split|]. by rewrite H0.
Qed.

(** ** The counters *)

(** The decisions of the next [n] calls, without a new draw. *)
Fixpoint chaos_decisions (n : nat) (trace buffer : Z) : list (option bool) :=
  match n with
  | O => []
  | S n => let '(d, trace, buffer) := chaos_decide trace buffer in d :: chaos_decisions n trace buffer
  end.

Lemma chaos_negative n trace :
  trace < 0 -> chaos_decisions n trace 0 = replicate n (Some true).
Proof.
  revert trace. induction n as [|n IH]; intros trace Ht; [done|]. cbn [chaos_decisions chaos_decide].
  unfold chaos_decide. change (nz 0) with false. cbv iota.
  assert (nz trace = true) as -> by (apply nz_true; lia). cbn [replicate]. f_equal. apply IH. lia.
Qed.

(** The counters of chaos mode after a draw: a non-negative draw gives a run of
    1 to 50 traced calls and ten times the excess over 5 of buffered ones; a
    negative draw gives a trace counter that is at most 1, and may be as low as
    -48, and no buffered call. *)
Theorem chaos_refill_bounds r :
  - 2 ^ 63 <= r < 2 ^ 63 ->
  let '(trace, buffer) := chaos_refill r in
  -48 <= trace <= 50 /\ 0 <= buffer <= 450 /\
  (0 <= r -> 1 <= trace /\ buffer = Z.max 0 ((trace - 5) * 10)) /\
  (r < 0 -> trace <= 1 /\ buffer = 0).
Proof.
  intros Hr. unfold chaos_refill.
  assert (-49 <= Z.rem r 50 <= 49 /\ (0 <= r -> 0 <= Z.rem r 50) /\ (r <= 0 -> Z.rem r 50 <= 0)) as (H1&H2&H3).
  { destruct (Z.le_ge_cases 0 r).
    - pose proof (Z.rem_bound_pos r 50 ltac:(lia) ltac:(lia)). split; [lia|split; [lia|]].
      intros. assert (r = 0) as -> by lia. done.
    - pose proof (Z.rem_opp_l' r 50) as Ho. pose proof (Z.rem_bound_pos (- r) 50 ltac:(lia) ltac:(lia)). split; [lia|split; [|lia]].
      intros. assert (r = 0) as -> by lia. done. }
  set (t := Z.rem r 50) in *. clearbody t.
  rewrite (wraps_small 32 (t + 1)) by lia. rewrite (wraps_small 32 ((t + 1 - 5) * 10)) by lia.
  destruct (Z.ltb_spec ((t + 1 - 5) * 10) 0); repeat split; lia.
Qed.

(** From seed 2 the draw is negative and leaves a negative trace counter, which
    the decrement never brings to 0: every later call is traced, not up to 50 of
    them. *)
Theorem chaos_stays_traced :
  exists seed, 0 < seed < 2 ^ 64 /\
    forall n, let '(trace, buffer) := chaos_refill (snd (local_random_step seed)) in
      trace < 0 /\ chaos_decisions n trace buffer = replicate n (Some true).
Proof.
  exists 2. split; [lia|]. intros n.
  assert (chaos_refill (snd (local_random_step 2)) = (-35, 0)) as -> by (vm_compute; reflexivity).
  split; [lia|]. by apply chaos_negative.
Qed.
