(* ===== verification/Wrappers.v ===== *)
(** * The system call wrappers of [syscallbuf.c]

    One definition per [sys_*] function, in the order of the source.  An [int] parameter is the low half of the
    register read as a signed number, a pointer or [size_t] its unsigned value.
    Structure sizes come from the layouts of [KernelAbi]. *)

From stdpp Require Import base tactics list numbers.
From S2P Require Import Prelude Memory KernelAbi CStrings PreloadInterface Machine SyscallNumbers Syscallbuf.
Local Open Scope Z_scope.

(** ** Constants of the system headers *)

Definition SIZEOF_timespec := Eval vm_compute in sizeof (timespec x86_64).
Definition SIZEOF_timeval := Eval vm_compute in sizeof (timeval x86_64).
Definition SIZEOF_timezone := Eval vm_compute in sizeof (timezone x86_64).
Definition SIZEOF_f_owner_ex := Eval vm_compute in sizeof (f_owner_ex x86_64).
Definition SIZEOF_flock64 := Eval vm_compute in sizeof (flock64 x86_64).
Definition SIZEOF_pollfd := Eval vm_compute in sizeof (pollfd x86_64).
Definition SIZEOF_epoll_event := Eval vm_compute in sizeof (epoll_event x86_64).
Definition SIZEOF_uint32 := Eval vm_compute in sizeof i32.

Definition O_WRONLY := 1.
Definition O_RDWR := 2.
Definition O_CREAT := 64.
Definition O_EXCL := 128.
Definition O_TRUNC := 512.
Definition AT_FDCWD := -100.
Definition SEEK_CUR := 1.
Definition EINTR := 4.
Definition ENOMEM := 12.

(** [_IOW(0x94, 13, struct btrfs_ioctl_clone_range_args)] *)
Definition BTRFS_IOC_CLONE_RANGE := 1075876877.
Definition FIONCLEX := 21584.
Definition FIOCLEX := 21585.

Definition FUTEX_WAKE := 1.
Definition FUTEX_CMP_REQUEUE := 4.
Definition FUTEX_WAKE_OP := 5.
Definition FUTEX_WAKE_BITSET := 10.
(** [FUTEX_PRIVATE_FLAG | FUTEX_CLOCK_REALTIME], which [FUTEX_CMD_MASK] clears. *)
Definition FUTEX_FLAG_BITS := 384.

Definition MADV_FREE := 8.
(** MADV_NORMAL, RANDOM, SEQUENTIAL, WILLNEED, DONTNEED, MERGEABLE, UNMERGEABLE,
    HUGEPAGE, NOHUGEPAGE, DONTDUMP, DODUMP *)
Definition MADV_passed_through : list Z := [0; 1; 2; 3; 4; 12; 13; 14; 15; 16; 17].

(** PROT_READ | PROT_WRITE | PROT_EXEC *)
Definition PROT_RWX := 7.

Definition CLONE_SIZE_THRESHOLD := 65536.

(** [call->args[i]] *)
Definition arg (call : syscall_info) (i : nat) : Z := s64 (nth i (args call) 0).

Section Wrappers.
Context {E : Env}.

Definition sys_generic_nonblocking (call : syscall_info) : M Z :=
  ptr ← prep_syscall;
  ok ← start_commit_buffered_syscall (no call) ptr WONT_BLOCK;
  if negb (ok : bool) then traced_raw_syscall call
  else
    ret ← untraced_syscall (no call) [arg call 0; arg call 1; arg call 2; arg call 3; arg call 4; arg call 5];
    commit_raw_syscall (no call) ptr ret.

Definition sys_generic_nonblocking_fd (call : syscall_info) : M Z :=
  let fd := s32 (arg call 0) in
  ptr ← prep_syscall_for_fd fd;
  ok ← start_commit_buffered_syscall (no call) ptr WONT_BLOCK;
  if negb (ok : bool) then traced_raw_syscall call
  else
    ret ← untraced_syscall (no call) [fd; arg call 1; arg call 2; arg call 3; arg call 4; arg call 5];
    commit_raw_syscall (no call) ptr ret.

Definition sys_clock_gettime (call : syscall_info) : M Z :=
  let syscallno := SYS_clock_gettime in
  let clk_id := s32 (arg call 0) in
  let tp := u64 (arg call 1) in
  ptr ← prep_syscall;
  assert_ (syscallno =? no call);;
  let tp2 := if nz tp then ptr else 0 in
  let ptr := if nz tp then padd ptr SIZEOF_timespec else ptr in
  ok ← start_commit_buffered_syscall syscallno ptr WONT_BLOCK;
  if negb (ok : bool) then traced_raw_syscall call
  else
    ret ← untraced_syscall syscallno [clk_id; tp2];
    failed ← gets (fun s => failed_during_preparation (hdr s));
    (if nz tp && (0 <=? ret) && negb (nz failed)
     then local_memcpy tp tp2 SIZEOF_timespec else mret tt);;
    commit_raw_syscall syscallno ptr ret.

Definition sys_fcntl64_no_outparams (call : syscall_info) : M Z :=
  let syscallno := SYS_fcntl in
  let fd := s32 (arg call 0) in
  let cmd := s32 (arg call 1) in
  let a := arg call 2 in
  ptr ← prep_syscall_for_fd fd;
  assert_ (syscallno =? no call);;
  ok ← start_commit_buffered_syscall syscallno ptr WONT_BLOCK;
  r ← (if negb (ok : bool) then traced_raw_syscall call
       else
         ret ← untraced_syscall syscallno [fd; cmd; a];
         commit_raw_syscall syscallno ptr ret);
  mret (s32 r).

Definition sys_fcntl64_own_ex (call : syscall_info) : M Z :=
  let syscallno := SYS_fcntl in
  let fd := s32 (arg call 0) in
  let cmd := s32 (arg call 1) in
  let owner := u64 (arg call 2) in
  ptr ← prep_syscall_for_fd fd;
  assert_ (syscallno =? no call);;
  let owner2 := if nz owner then ptr else 0 in
  let ptr := if nz owner then padd ptr SIZEOF_f_owner_ex else ptr in
  ok ← start_commit_buffered_syscall syscallno ptr WONT_BLOCK;
  r ← (if negb (ok : bool) then traced_raw_syscall call
       else
         (if nz owner2 then memcpy_input_parameter owner2 owner SIZEOF_f_owner_ex else mret tt);;
         ret ← untraced_syscall syscallno [fd; cmd; owner2];
         failed ← gets (fun s => failed_during_preparation (hdr s));
         (if nz owner2 && (0 <=? ret) && negb (nz failed)
          then local_memcpy owner owner2 SIZEOF_f_owner_ex else mret tt);;
         commit_raw_syscall syscallno ptr ret);
  mret (s32 r).

Definition sys_fcntl64_setlk64 (call : syscall_info) : M Z :=
  force ← force_traced_syscall_for_chaos_mode;
  r ← (if (force : bool) then traced_raw_syscall call
       else
         let syscallno := SYS_fcntl in
         let fd := s32 (arg call 0) in
         let cmd := s32 (arg call 1) in
         let lock := u64 (arg call 2) in
         ptr ← prep_syscall_for_fd fd;
         assert_ (syscallno =? no call);;
         let lock2 := if nz lock then ptr else 0 in
         let ptr := if nz lock then padd ptr SIZEOF_flock64 else ptr in
         ok ← start_commit_buffered_syscall syscallno ptr WONT_BLOCK;
         if negb (ok : bool) then traced_raw_syscall call
         else
           (if nz lock2 then memcpy_input_parameter lock2 lock SIZEOF_flock64 else mret tt);;
           ret ← untraced_syscall syscallno [fd; cmd; lock2];
           failed ← gets (fun s => failed_during_preparation (hdr s));
           (if nz lock2 && (0 <=? ret) && negb (nz failed)
            then local_memcpy lock lock2 SIZEOF_flock64 else mret tt);;
           commit_raw_syscall syscallno ptr ret);
  mret (s32 r).

Definition sys_fcntl64_setlkw64 (call : syscall_info) : M Z :=
  force ← force_traced_syscall_for_chaos_mode;
  r ← (if (force : bool) then traced_raw_syscall call
       else
         let syscallno := SYS_fcntl in
         let fd := s32 (arg call 0) in
         let cmd := s32 (arg call 1) in
         let lock := u64 (arg call 2) in
         ptr ← prep_syscall_for_fd fd;
         assert_ (syscallno =? no call);;
         ok ← start_commit_buffered_syscall syscallno ptr MAY_BLOCK;
         if negb (ok : bool) then traced_raw_syscall call
         else
           ret ← untraced_syscall syscallno [fd; cmd; lock];
           commit_raw_syscall syscallno ptr ret);
  mret (s32 r).

Definition sys_fcntl (call : syscall_info) : M Z :=
  let cmd := arg call 1 in
  if existsb (Z.eqb cmd)
       [F_DUPFD; F_GETFD; F_GETFL; F_GETOWN; F_SETFL; F_SETFD; F_SETOWN; F_SETSIG]
  then sys_fcntl64_no_outparams call
  else if existsb (Z.eqb cmd) [F_GETOWN_EX; F_SETOWN_EX] then sys_fcntl64_own_ex call
  else if cmd =? F_SETLK then sys_fcntl64_setlk64 call
  else if cmd =? F_SETLKW then sys_fcntl64_setlkw64 call
  else traced_raw_syscall call.

Definition sys_flistxattr (call : syscall_info) : M Z :=
  let syscallno := SYS_flistxattr in
  let fd := s32 (arg call 0) in
  let buf := u64 (arg call 1) in
  let size := u64 (arg call 2) in
  ptr ← prep_syscall_for_fd fd;
  assert_ (syscallno =? no call);;
  let buf2 := if nz buf && (0 <? size) then ptr else 0 in
  let ptr := if nz buf && (0 <? size) then padd ptr size else ptr in
  ok ← start_commit_buffered_syscall syscallno ptr WONT_BLOCK;
  if negb (ok : bool) then traced_raw_syscall call
  else
    ret ← untraced_syscall syscallno [fd; buf2; size];
    ptr ← copy_output_buffer (if s64 size <? ret then s64 size else ret) ptr buf buf2;
    commit_raw_syscall syscallno ptr ret.

Definition sys_safe_nonblocking_ioctl (call : syscall_info) : M Z :=
  let syscallno := SYS_ioctl in
  let fd := s32 (arg call 0) in
  ptr ← prep_syscall_for_fd fd;
  ok ← start_commit_buffered_syscall syscallno ptr WONT_BLOCK;
  if negb (ok : bool) then traced_raw_syscall call
  else
    ret ← untraced_syscall syscallno [fd; arg call 1; arg call 2];
    commit_raw_syscall syscallno ptr ret.

Definition sys_ioctl (call : syscall_info) : M Z :=
  if existsb (Z.eqb (arg call 1)) [BTRFS_IOC_CLONE_RANGE; FIOCLEX; FIONCLEX]
  then sys_safe_nonblocking_ioctl call
  else traced_raw_syscall call.

(** Whether the operation is buffered, and whether it uses [uaddr2]. *)
Definition futex_flags (op : Z) : option bool :=
  let cmd := Z.ldiff op FUTEX_FLAG_BITS in
  if (cmd =? FUTEX_WAKE_BITSET) || (cmd =? FUTEX_WAKE) then Some false
  else if (cmd =? FUTEX_CMP_REQUEUE) || (cmd =? FUTEX_WAKE_OP) then Some true
  else None.

Definition sys_futex (call : syscall_info) : M Z :=
  in_chaos ← gets (fun s => in_chaos (gl s));
  if nz in_chaos then traced_raw_syscall call
  else
    let op := s32 (arg call 1) in
    match futex_flags op with
    | None => traced_raw_syscall call
    | Some uses_uaddr2 =>
        let syscallno := SYS_futex in
        let uaddr := u64 (arg call 0) in
        let val := u32 (arg call 2) in
        let timeout := u64 (arg call 3) in
        let uaddr2 := u64 (arg call 4) in
        let val3 := u32 (arg call 5) in
        ptr ← prep_syscall;
        assert_ (syscallno =? no call);;
        let saved_uaddr := ptr in
        let ptr := padd ptr SIZEOF_uint32 in
        let saved_uaddr2 := if (uses_uaddr2 : bool) then ptr else 0 in
        let ptr := if (uses_uaddr2 : bool) then padd ptr SIZEOF_uint32 else ptr in
        ok ← start_commit_buffered_syscall syscallno ptr WONT_BLOCK;
        if negb (ok : bool) then traced_raw_syscall call
        else
          ret ← untraced_syscall syscallno [uaddr; op; val; timeout; uaddr2; val3];
          copy_futex_int saved_uaddr uaddr;;
          (if nz saved_uaddr2 then copy_futex_int saved_uaddr2 uaddr2 else mret tt);;
          commit_raw_syscall syscallno ptr ret
    end.

Definition sys_generic_getdents (call : syscall_info) : M Z :=
  let fd := s32 (arg call 0) in
  let buf := u64 (arg call 1) in
  let count := u32 (arg call 2) in
  ptr ← prep_syscall_for_fd fd;
  let buf2 := if nz buf && (0 <? count) then ptr else 0 in
  let ptr := if nz buf && (0 <? count) then padd ptr count else ptr in
  ok ← start_commit_buffered_syscall (no call) ptr WONT_BLOCK;
  if negb (ok : bool) then traced_raw_syscall call
  else
    ret ← untraced_syscall (no call) [fd; buf2; count];
    ptr ← copy_output_buffer ret ptr buf buf2;
    commit_raw_syscall (no call) ptr ret.

Definition sys_getdents (call : syscall_info) : M Z := sys_generic_getdents call.

Definition sys_getdents64 (call : syscall_info) : M Z := sys_generic_getdents call.

Definition sys_gettimeofday (call : syscall_info) : M Z :=
  let syscallno := SYS_gettimeofday in
  let tp := u64 (arg call 0) in
  let tzp := u64 (arg call 1) in
  ptr ← prep_syscall;
  assert_ (syscallno =? no call);;
  let tp2 := if nz tp then ptr else 0 in
  let ptr := if nz tp then padd ptr SIZEOF_timeval else ptr in
  let tzp2 := if nz tzp then ptr else 0 in
  let ptr := if nz tzp then padd ptr SIZEOF_timezone else ptr in
  ok ← start_commit_buffered_syscall syscallno ptr WONT_BLOCK;
  if negb (ok : bool) then traced_raw_syscall call
  else
    ret ← untraced_syscall syscallno [tp2; tzp2];
    failed ← gets (fun s => failed_during_preparation (hdr s));
    (if (0 <=? ret) && negb (nz failed) then
       (if nz tp then local_memcpy tp tp2 SIZEOF_timeval else mret tt);;
       (if nz tzp then local_memcpy tzp tzp2 SIZEOF_timezone else mret tt)
     else mret tt);;
    commit_raw_syscall syscallno ptr ret.

Definition sys_generic_getxattr (call : syscall_info) : M Z :=
  let path := u64 (arg call 0) in
  let name := u64 (arg call 1) in
  let value := u64 (arg call 2) in
  let size := u64 (arg call 3) in
  ptr ← prep_syscall;
  let value2 := if nz value && (0 <? size) then ptr else 0 in
  let ptr := if nz value && (0 <? size) then padd ptr size else ptr in
  ok ← start_commit_buffered_syscall (no call) ptr WONT_BLOCK;
  if negb (ok : bool) then traced_raw_syscall call
  else
    ret ← untraced_syscall (no call) [path; name; value2; size];
    ptr ← copy_output_buffer (if s64 size <? ret then s64 size else ret) ptr value value2;
    commit_raw_syscall (no call) ptr ret.

Definition sys_getxattr (call : syscall_info) : M Z := sys_generic_getxattr call.

Definition sys_lgetxattr (call : syscall_info) : M Z := sys_generic_getxattr call.

Definition sys_fgetxattr (call : syscall_info) : M Z :=
  let fd := s32 (arg call 0) in
  let name := u64 (arg call 1) in
  let value := u64 (arg call 2) in
  let size := u64 (arg call 3) in
  ptr ← prep_syscall_for_fd fd;
  let value2 := if nz value && (0 <? size) then ptr else 0 in
  let ptr := if nz value && (0 <? size) then padd ptr size else ptr in
  ok ← start_commit_buffered_syscall (no call) ptr WONT_BLOCK;
  if negb (ok : bool) then traced_raw_syscall call
  else
    ret ← untraced_syscall (no call) [fd; name; value2; size];
    ptr ← copy_output_buffer (if s64 size <? ret then s64 size else ret) ptr value value2;
    commit_raw_syscall (no call) ptr ret.

Definition sys_generic_listxattr (call : syscall_info) : M Z :=
  let path := u64 (arg call 0) in
  let buf := u64 (arg call 1) in
  let size := u64 (arg call 2) in
  ptr ← prep_syscall;
  let buf2 := if nz buf && (0 <? size) then ptr else 0 in
  let ptr := if nz buf && (0 <? size) then padd ptr size else ptr in
  ok ← start_commit_buffered_syscall (no call) ptr WONT_BLOCK;
  if negb (ok : bool) then traced_raw_syscall call
  else
    ret ← untraced_syscall (no call) [path; buf2; size];
    ptr ← copy_output_buffer (if s64 size <? ret then s64 size else ret) ptr buf buf2;
    commit_raw_syscall (no call) ptr ret.

Definition sys_listxattr (call : syscall_info) : M Z := sys_generic_listxattr call.

Definition sys_llistxattr (call : syscall_info) : M Z := sys_generic_listxattr call.

(** What is passed on as advice; [None] when the call is traced. *)
Definition madvise_advice (advice : Z) : option Z :=
  if existsb (Z.eqb advice) MADV_passed_through then Some advice
  else if advice =? MADV_FREE then Some (-1)
  else None.

Definition sys_madvise (call : syscall_info) : M Z :=
  let syscallno := SYS_madvise in
  let addr := u64 (arg call 0) in
  let length := u64 (arg call 1) in
  match madvise_advice (s32 (arg call 2)) with
  | None => traced_raw_syscall call
  | Some advice =>
      ptr ← prep_syscall;
      assert_ (syscallno =? no call);;
      ok ← start_commit_buffered_syscall syscallno ptr WONT_BLOCK;
      if negb (ok : bool) then traced_raw_syscall call
      else
        ret ← untraced_replayed_syscall syscallno [addr; length; advice];
        commit_raw_syscall syscallno ptr ret
  end.

Definition set_mprotect_record (i : Z) (r : mprotect_record) (g : preload_globals) : preload_globals :=
  set_mprotect_records (fun j => if j =? i then r else mprotect_records g j) g.

Definition sys_mprotect (call : syscall_info) : M Z :=
  let syscallno := SYS_mprotect in
  let addr := u64 (arg call 0) in
  let length := u64 (arg call 1) in
  let prot := s32 (arg call 2) in
  b ← gets buffer_hdr;
  count ← gets (fun s => mprotect_record_count (hdr s));
  if nz (Z.ldiff prot PROT_RWX) || (b =? 0) || (MPROTECT_RECORD_COUNT <=? count)
  then traced_raw_syscall call
  else
    ptr ← prep_syscall;
    assert_ (syscallno =? no call);;
    ok ← start_commit_buffered_syscall syscallno ptr WONT_BLOCK;
    if negb (ok : bool) then traced_raw_syscall call
    else
      mrec ← gets (fun s => mprotect_record_count (hdr s));
      modify_hdr (fun h => set_mprotect_record_count (u32 (mprotect_record_count h + 1)) h);;
      modify_gl (set_mprotect_record mrec (mkMprotect addr length prot));;
      ret ← untraced_replayed_syscall syscallno [addr; length; prot];
      (if (ret <? 0) && negb (ret =? - ENOMEM)
       then modify_gl (set_mprotect_record mrec (mkMprotect addr 0 prot)) else mret tt);;
      modify_hdr (fun h =>
        set_mprotect_record_count_completed (u32 (mprotect_record_count_completed h + 1)) h);;
      commit_raw_syscall syscallno ptr ret.

Definition supported_open_flags (flags : Z) : bool :=
  negb (nz (Z.land flags (Z.lor O_RDWR O_WRONLY)))
  || (Z.land flags (Z.lor O_EXCL O_CREAT) =? Z.lor O_EXCL O_CREAT).

Definition sys_open (call : syscall_info) : M Z :=
  force ← force_traced_syscall_for_chaos_mode;
  if (force : bool) then traced_raw_syscall call
  else
    let syscallno := SYS_open in
    let pathname := u64 (arg call 0) in
    let flags := s32 (arg call 1) in
    let mode := u32 (arg call 2) in
    assert_ (syscallno =? no call);;
    if negb (supported_open_flags flags) then traced_raw_syscall call
    else
      path ← cstring_arg pathname;
      if negb (allow_buffered_open path) then traced_raw_syscall call
      else
        ptr ← prep_syscall;
        ok ← start_commit_buffered_syscall syscallno ptr MAY_BLOCK;
        if negb (ok : bool) then traced_raw_syscall call
        else
          ret ← untraced_syscall syscallno [pathname; flags; mode];
          commit_raw_syscall syscallno ptr ret.

(** [args[3..5]] of the new call are not initialised by the source; the kernel
    ignores them and they are 0 here. *)
Definition sys_creat (call : syscall_info) : M Z :=
  let pathname := arg call 0 in
  let mode := u32 (arg call 1) in
  sys_open (mkCall SYS_open [pathname; Z.lor (Z.lor O_CREAT O_TRUNC) O_WRONLY; mode; 0; 0; 0]).

Definition sys_openat (call : syscall_info) : M Z :=
  force ← force_traced_syscall_for_chaos_mode;
  if (force : bool) then traced_raw_syscall call
  else
    let syscallno := SYS_openat in
    let dirfd := s32 (arg call 0) in
    let pathname := u64 (arg call 1) in
    let flags := s32 (arg call 2) in
    let mode := u32 (arg call 3) in
    assert_ (syscallno =? no call);;
    if negb (supported_open_flags flags) then traced_raw_syscall call
    else
      (** [dirfd == AT_FDCWD || pathname[0] == '/'] *)
      first ← (if dirfd =? AT_FDCWD then mret 0
               else if pathname =? 0 then abort UserNullDeref
               else load_m 1 pathname);
      let treat_as_open := (dirfd =? AT_FDCWD) || (first =? SLASH) in
      if negb treat_as_open then traced_raw_syscall call
      else
        path ← cstring_arg pathname;
        if negb (allow_buffered_open path) then traced_raw_syscall call
        else
          ptr ← prep_syscall;
          ok ← start_commit_buffered_syscall syscallno ptr MAY_BLOCK;
          if negb (ok : bool) then traced_raw_syscall call
          else
            ret ← untraced_syscall syscallno [dirfd; pathname; flags; mode];
            commit_raw_syscall syscallno ptr ret.

Definition sys_poll (call : syscall_info) : M Z :=
  let syscallno := SYS_poll in
  let fds := u64 (arg call 0) in
  let nfds := u32 (arg call 1) in
  let timeout := s32 (arg call 2) in
  ptr ← prep_syscall;
  assert_ (syscallno =? no call);;
  let fds2 := if nz fds && (0 <? nfds) then ptr else 0 in
  let ptr := if nz fds && (0 <? nfds) then padd ptr (nfds * SIZEOF_pollfd) else ptr in
  ok ← start_commit_buffered_syscall syscallno ptr WONT_BLOCK;
  if negb (ok : bool) then traced_raw_syscall call
  else
    (if nz fds2 then memcpy_input_parameter fds2 fds (nfds * SIZEOF_pollfd) else mret tt);;
    ret ← untraced_syscall syscallno [fds2; nfds; 0];
    failed ← gets (fun s => failed_during_preparation (hdr s));
    (if nz fds2 && (0 <=? ret) && negb (nz failed)
     then local_memcpy fds fds2 (nfds * SIZEOF_pollfd) else mret tt);;
    commit_raw_syscall syscallno ptr ret;;
    if nz ret || (timeout =? 0) then mret ret
    else traced_raw_syscall call.

Definition sys_epoll_wait (call : syscall_info) : M Z :=
  let syscallno := SYS_epoll_wait in
  let epfd := s32 (arg call 0) in
  let events := u64 (arg call 1) in
  let max_events := s32 (arg call 2) in
  let timeout := s32 (arg call 3) in
  ptr ← prep_syscall;
  assert_ (syscallno =? no call);;
  let events2 := if nz events && (0 <? max_events) then ptr else 0 in
  let ptr := if nz events && (0 <? max_events)
             then padd ptr (max_events * SIZEOF_epoll_event) else ptr in
  ok ← start_commit_buffered_syscall syscallno ptr WONT_BLOCK;
  if negb (ok : bool) then traced_raw_syscall call
  else
    ret ← untraced_syscall syscallno [epfd; events2; max_events; 0];
    ptr ← copy_output_buffer (ret * SIZEOF_epoll_event) ptr events events2;
    ret ← commit_raw_syscall syscallno ptr ret;
    if (timeout =? 0) || (negb (ret =? EINTR) && nz ret) then mret ret
    else traced_raw_syscall call.

(** The fast path of [sys_read]: clone the data into the trace's file and read
    it without storing it in the buffer.  [None] when the slow path follows. *)
Definition sys_read_cloned (fd buf count : Z) : M (option Z) :=
  let lseek_call := mkCall SYS_lseek [fd; 0; SEEK_CUR; 0; 0; 0] in
  lseek_ret ← sys_generic_nonblocking_fd lseek_call;
  if negb ((0 <=? lseek_ret) && (Z.land lseek_ret 4095 =? 0)) then mret None
  else
    ioctl_ptr ← prep_syscall;
    ioctl_args ← gets frame;
    cloned_fd ← gets (fun s => cloned_file_data_fd (tl s));
    dest_offset ← gets (fun s => cloned_file_data_offset (tl s));
    store_m 8 ioctl_args fd;;
    store_m 8 (ioctl_args + 8) lseek_ret;;
    store_m 8 (ioctl_args + 16) count;;
    store_m 8 (ioctl_args + 24) dest_offset;;
    ok ← start_commit_buffered_syscall SYS_ioctl ioctl_ptr WONT_BLOCK;
    ioctl_ret ← (if negb (ok : bool) then
                   traced_raw_syscall
                     (mkCall SYS_ioctl [cloned_fd; BTRFS_IOC_CLONE_RANGE; ioctl_args; 0; 0; 0])
                 else
                   ret ← untraced_syscall SYS_ioctl [cloned_fd; BTRFS_IOC_CLONE_RANGE; ioctl_args];
                   commit_raw_syscall SYS_ioctl ioctl_ptr (s32 ret));
    if s32 ioctl_ret <? 0 then mret None
    else
      let read_call := mkCall SYS_read [fd; buf; count; 0; 0; 0] in
      modify_tl (fun t => set_cloned_file_data_offset (s64 (cloned_file_data_offset t + count)) t);;
      replay_only_syscall SYS_dup2 [cloned_fd; fd];;
      ptr ← prep_syscall;
      usable ← gets (fun s => usable_scratch_size (tl s));
      scratch ← gets (fun s => scratch_buf (tl s));
      let blk := if usable <? count then WONT_BLOCK else MAY_BLOCK in
      ok ← start_commit_buffered_syscall SYS_read ptr blk;
      if negb (ok : bool) then r ← traced_raw_syscall read_call; mret (Some r)
      else
        ret ← (if usable <? count then untraced_replayed_syscall SYS_read [fd; buf; count]
               else
                 ret ← untraced_replayed_syscall SYS_read [fd; scratch; count];
                 copy_output_buffer ret 0 buf scratch;;
                 mret ret);
        replay_only_syscall SYS_close [fd];;
        ret ← commit_raw_syscall SYS_read ptr ret;
        mret (Some ret).

Definition sys_read (call : syscall_info) : M Z :=
  force ← force_traced_syscall_for_chaos_mode;
  if (force : bool) then traced_raw_syscall call
  else
    let syscallno := SYS_read in
    let fd := s32 (arg call 0) in
    let buf := u64 (arg call 1) in
    let count := u64 (arg call 2) in
    cloned ← gets (fun s => cloned_file_data_fd (tl s));
    fd_ok ← gets (fun s => is_bufferable_fd fd (gl s));
    fast ← (if nz buf && (CLONE_SIZE_THRESHOLD <=? count) && (0 <=? cloned) && (fd_ok : bool)
               && (Z.land count 4095 =? 0)
            then sys_read_cloned fd buf count else mret None);
    match fast with
    | Some r => mret r
    | None =>
        ptr ← prep_syscall_for_fd fd;
        assert_ (syscallno =? no call);;
        let buf2 := if nz buf && (0 <? count) then ptr else 0 in
        let ptr := if nz buf && (0 <? count) then padd ptr count else ptr in
        ok ← start_commit_buffered_syscall syscallno ptr MAY_BLOCK;
        if negb (ok : bool) then traced_raw_syscall call
        else
          ret ← untraced_syscall syscallno [fd; buf2; count];
          ptr ← copy_output_buffer ret ptr buf buf2;
          commit_raw_syscall syscallno ptr ret
    end.

Definition sys_pread64 (call : syscall_info) : M Z :=
  let syscallno := SYS_pread64 in
  let fd := s32 (arg call 0) in
  let buf := u64 (arg call 1) in
  let count := u64 (arg call 2) in
  let offset := arg call 3 in
  ptr ← prep_syscall_for_fd fd;
  assert_ (syscallno =? no call);;
  let buf2 := if nz buf && (0 <? count) then ptr else 0 in
  let ptr := if nz buf && (0 <? count) then padd ptr count else ptr in
  ok ← start_commit_buffered_syscall syscallno ptr MAY_BLOCK;
  if negb (ok : bool) then traced_raw_syscall call
  else
    ret ← untraced_syscall syscallno [fd; buf2; count; offset];
    ptr ← copy_output_buffer ret ptr buf buf2;
    commit_raw_syscall syscallno ptr ret.

Definition sys_readlink (call : syscall_info) : M Z :=
  let syscallno := SYS_readlink in
  let path := u64 (arg call 0) in
  let buf := u64 (arg call 1) in
  let bufsiz := s32 (arg call 2) in
  ptr ← prep_syscall;
  assert_ (syscallno =? no call);;
  let buf2 := if nz buf && (0 <? bufsiz) then ptr else 0 in
  let ptr := if nz buf && (0 <? bufsiz) then padd ptr bufsiz else ptr in
  ok ← start_commit_buffered_syscall syscallno ptr WONT_BLOCK;
  if negb (ok : bool) then traced_raw_syscall call
  else
    ret ← untraced_syscall syscallno [path; buf2; bufsiz];
    ptr ← copy_output_buffer ret ptr buf buf2;
    commit_raw_syscall syscallno ptr ret.

End Wrappers.

(** ** The system call wrappers of [syscallbuf.c], part 2

    The wrappers from [sys_recvfrom] to [sys_rt_sigprocmask]. *)

(** ** Constants of the system headers *)

Definition SIZEOF_msghdr := Eval vm_compute in sizeof (msghdr x86_64).
Definition SIZEOF_iovec := Eval vm_compute in sizeof (iovec x86_64).
Definition SIZEOF_cmsghdr := Eval vm_compute in sizeof (cmsghdr x86_64).
Definition SIZEOF_stat64 := Eval vm_compute in sizeof x64_stat64.
Definition SIZEOF_statfs := Eval vm_compute in sizeof (statfs x86_64).
Definition SIZEOF_dqblk := Eval vm_compute in sizeof (dqblk x86_64).
Definition SIZEOF_rusage := Eval vm_compute in sizeof (rusage x86_64).
Definition SIZEOF_sigset := Eval vm_compute in sizeof (kernel_sigset_t x86_64).
Definition SIZEOF_long := Eval vm_compute in sizeof (word x86_64).

(** Offsets in [msghdr] and [cmsghdr]. *)
Definition MSG_name := 0.
Definition MSG_namelen := 8.
Definition MSG_iov := 16.
Definition MSG_iovlen := 24.
Definition MSG_control := 32.
Definition MSG_controllen := 40.
Definition MSG_flags := 48.
Definition CMSG_len := 0.
Definition CMSG_level := 8.
Definition CMSG_type := 12.

Definition SOL_SOCKET := 1.
Definition SCM_RIGHTS := 1.
Definition SOL_PACKET := 263.
Definition PACKET_RX_RING := 5.
Definition PACKET_TX_RING := 13.
Definition SUBCMDSHIFT := 8.
Definition Q_GETQUOTA := 8388615. (* 0x800007 *)
Definition PTRACE_PEEKDATA := 2.
Definition SIG_BLOCK := 0.
Definition SIG_UNBLOCK := 1.
Definition SIG_SETMASK := 2.
Definition EAGAIN := 11.

Section Wrappers.
Context {E : Env}.

(** The current value of [*addrlen], an unsigned 32-bit number. *)
Definition sys_recvfrom (call : syscall_info) : M Z :=
  force ← force_traced_syscall_for_chaos_mode;
  if (force : bool) then traced_raw_syscall call
  else
    let syscallno := SYS_recvfrom in
    let sockfd := s32 (arg call 0) in
    let buf := u64 (arg call 1) in
    let len := u64 (arg call 2) in
    let flags := s32 (arg call 3) in
    let src_addr := u64 (arg call 4) in
    let addrlen := u64 (arg call 5) in
    ptr ← prep_syscall_for_fd sockfd;
    assert_ (syscallno =? no call);;
    assert_ (nz addrlen || negb (nz src_addr));;
    addrlen_v ← (if nz addrlen then load_m 4 addrlen else mret 0);
    let src_addr2 := if nz src_addr then ptr else 0 in
    let ptr := if nz src_addr then padd ptr addrlen_v else ptr in
    let addrlen2 := if nz addrlen then ptr else 0 in
    let ptr := if nz addrlen then padd ptr SIZEOF_uint32 else ptr in
    let buf2 := if nz buf && (0 <? len) then ptr else 0 in
    let ptr := if nz buf && (0 <? len) then padd ptr len else ptr in
    ok ← start_commit_buffered_syscall syscallno ptr MAY_BLOCK;
    if negb (ok : bool) then traced_raw_syscall call
    else
      (if nz addrlen then memcpy_input_parameter addrlen2 addrlen SIZEOF_uint32 else mret tt);;
      ret ← untraced_syscall syscallno [sockfd; buf2; len; flags; src_addr2; addrlen2];
      failed ← gets (fun s => failed_during_preparation (hdr s));
      (if (0 <=? ret) && negb (nz failed) then
         (if nz src_addr2 then
            actual_size ← load_m 4 addrlen2;
            limit ← load_m 4 addrlen;
            local_memcpy src_addr src_addr2 (if limit <? actual_size then limit else actual_size)
          else mret tt);;
         (if nz addrlen2 then v ← load_m 4 addrlen2; store_m 4 addrlen v else mret tt)
       else mret tt);;
      ptr ← copy_output_buffer ret ptr buf buf2;
      commit_raw_syscall syscallno ptr ret.

(** ** [recvmsg] *)

Definition CMSG_ALIGN (len : Z) : Z := Z.land (u64 (len + 7)) (u64 (Z.lnot 7)).

(** [CMSG_FIRSTHDR] and [CMSG_NXTHDR] of the C library. *)
Definition CMSG_FIRSTHDR (msg : Z) (m : mem) : Z :=
  if SIZEOF_cmsghdr <=? load 8 (msg + MSG_controllen) m then load 8 (msg + MSG_control) m else 0.

Definition CMSG_NXTHDR (msg cmh : Z) (m : mem) : Z :=
  let len := load 8 (cmh + CMSG_len) m in
  let limit := load 8 (msg + MSG_control) m + load 8 (msg + MSG_controllen) m in
  if len <? SIZEOF_cmsghdr then 0
  else
    let next := cmh + CMSG_ALIGN len in
    if limit <? next + SIZEOF_cmsghdr then 0
    else if limit <? next + CMSG_ALIGN (load 8 (next + CMSG_len) m) then 0
    else next.

(** The loop over control messages; every step moves at least 16 bytes, so
    [fuel] steps are enough for [16 * fuel] bytes of control data. *)
Fixpoint msg_received_file_descriptors_from (fuel : nat) (msg cmh : Z) (m : mem) : bool :=
  match fuel with
  | O => false
  | S fuel =>
      if cmh =? 0 then false
      else if (s32 (load 4 (cmh + CMSG_level) m) =? SOL_SOCKET)
              && (s32 (load 4 (cmh + CMSG_type) m) =? SCM_RIGHTS)
      then true
      else msg_received_file_descriptors_from fuel msg (CMSG_NXTHDR msg cmh m) m
  end.

Definition msg_received_file_descriptors (msg : Z) (m : mem) : bool :=
  let fuel := Z.to_nat (load 8 (msg + MSG_controllen) m / SIZEOF_cmsghdr + 1) in
  msg_received_file_descriptors_from fuel msg (CMSG_FIRSTHDR msg m) m.

(** [msg->msg_iov[i].iov_len] for all [i]. *)
Definition iov_lens (iov : Z) (n : nat) (m : mem) : list Z :=
  map (fun i => load 8 (iov + SIZEOF_iovec * Z.of_nat i + 8) m) (seq 0 n).

(** Fill the iovecs at [iov2] with consecutive buffers that start at [ptr] and
    have the lengths of the user's; the end of the last one. *)
Fixpoint fill_iovs (n : nat) (i : Z) (iov iov2 ptr : Z) : M Z :=
  match n with
  | O => mret ptr
  | S n =>
      len ← load_m 8 (iov + SIZEOF_iovec * i + 8);
      store_m 8 (iov2 + SIZEOF_iovec * i) ptr;;
      store_m 8 (iov2 + SIZEOF_iovec * i + 8) len;;
      fill_iovs n (i + 1) iov iov2 (padd ptr len)
  end.

(** Copy [bytes] received bytes back to the user's iovecs. *)
Fixpoint copy_iovs (n : nat) (i : Z) (msg msg2 bytes : Z) : M unit :=
  match n with
  | O => mret tt
  | S n =>
      iov ← load_m 8 (msg + MSG_iov);
      iov2 ← load_m 8 (msg2 + MSG_iov);
      len ← load_m 8 (iov + SIZEOF_iovec * i + 8);
      base ← load_m 8 (iov + SIZEOF_iovec * i);
      base2 ← load_m 8 (iov2 + SIZEOF_iovec * i);
      let copy_bytes := if bytes <? len then bytes else len in
      local_memcpy base base2 copy_bytes;;
      copy_iovs n (i + 1) msg msg2 (bytes - copy_bytes)
  end.

(** The part of [sys_recvmsg] that builds [msg2] in the record at [ptr_base]:
    the ends of the overwritten part and of the fixed part. *)
Definition recvmsg_setup (msg ptr_base : Z) : M (Z * Z) :=
  let msg2 := ptr_base in
  memcpy_input_parameter msg2 msg SIZEOF_msghdr;;
  let ptr := padd ptr_base SIZEOF_msghdr in
  store_m 8 (msg2 + MSG_iov) ptr;;
  let iov2 := ptr in
  iovlen ← load_m 8 (msg + MSG_iovlen);
  let ptr := padd ptr (SIZEOF_iovec * iovlen) in
  let ptr_overwritten_end := ptr in
  name ← load_m 8 (msg + MSG_name);
  namelen ← load_m 4 (msg + MSG_namelen);
  (if nz name then store_m 8 (msg2 + MSG_name) ptr else mret tt);;
  let ptr := if nz name then padd ptr namelen else ptr in
  control ← load_m 8 (msg + MSG_control);
  controllen ← load_m 8 (msg + MSG_controllen);
  (if nz control then store_m 8 (msg2 + MSG_control) ptr else mret tt);;
  let ptr := if nz control then padd ptr controllen else ptr in
  let ptr_bytes_start := ptr in
  iov ← load_m 8 (msg + MSG_iov);
  fill_iovs (Z.to_nat iovlen) 0 iov iov2 ptr;;
  mret (ptr_overwritten_end, ptr_bytes_start).

(** The part that copies the results to the user's structures. *)
Definition recvmsg_results (msg msg2 bytes : Z) : M unit :=
  name ← load_m 8 (msg + MSG_name);
  (if nz name then
     name2 ← load_m 8 (msg2 + MSG_name);
     n ← load_m 4 (msg2 + MSG_namelen);
     local_memcpy name name2 n
   else mret tt);;
  n ← load_m 4 (msg2 + MSG_namelen);
  store_m 4 (msg + MSG_namelen) n;;
  control ← load_m 8 (msg + MSG_control);
  (if nz control then
     control2 ← load_m 8 (msg2 + MSG_control);
     n ← load_m 8 (msg2 + MSG_controllen);
     local_memcpy control control2 n
   else mret tt);;
  n ← load_m 8 (msg2 + MSG_controllen);
  store_m 8 (msg + MSG_controllen) n;;
  iovlen ← load_m 8 (msg + MSG_iovlen);
  copy_iovs (Z.to_nat iovlen) 0 msg msg2 bytes;;
  f ← load_m 4 (msg2 + MSG_flags);
  store_m 4 (msg + MSG_flags) f;;
  got_fds ← gets (fun s => msg_received_file_descriptors msg (memory s));
  if (got_fds : bool) then modify_tl (set_notify_control_msg msg) else mret tt.

Definition sys_recvmsg (call : syscall_info) : M Z :=
  force ← force_traced_syscall_for_chaos_mode;
  if (force : bool) then traced_raw_syscall call
  else
    let syscallno := SYS_recvmsg in
    let sockfd := s32 (arg call 0) in
    let msg := u64 (arg call 1) in
    let flags := s32 (arg call 2) in
    ptr ← prep_syscall_for_fd sockfd;
    let ptr_base := ptr in
    assert_ (syscallno =? no call);;
    iovlen ← load_m 8 (msg + MSG_iovlen);
    name ← load_m 8 (msg + MSG_name);
    namelen ← load_m 4 (msg + MSG_namelen);
    control ← load_m 8 (msg + MSG_control);
    controllen ← load_m 8 (msg + MSG_controllen);
    iov ← load_m 8 (msg + MSG_iov);
    lens ← gets (fun s => iov_lens iov (Z.to_nat iovlen) (memory s));
    let ptr := padd ptr (SIZEOF_msghdr + SIZEOF_iovec * iovlen) in
    let ptr := if nz name then padd ptr namelen else ptr in
    let ptr := if nz control then padd ptr controllen else ptr in
    let ptr := fold_left padd lens ptr in
    ok ← start_commit_buffered_syscall syscallno ptr MAY_BLOCK;
    if negb (ok : bool) then traced_raw_syscall call
    else
      let msg2 := ptr_base in
      ends ← recvmsg_setup msg ptr_base;
      let '(ptr_overwritten_end, ptr_bytes_start) := ends in
      ret ← untraced_syscall syscallno [sockfd; msg2; flags];
      failed ← gets (fun s => failed_during_preparation (hdr s));
      ptr_end ← (if (0 <=? ret) && negb (nz failed) then
                   recvmsg_results msg msg2 ret;;
                   mret (padd ptr_bytes_start ret)
                 else mret ptr_overwritten_end);
      commit_raw_syscall syscallno ptr_end ret.

Definition sys_sendmsg (call : syscall_info) : M Z :=
  force ← force_traced_syscall_for_chaos_mode;
  if (force : bool) then traced_raw_syscall call
  else
    let syscallno := SYS_sendmsg in
    let sockfd := s32 (arg call 0) in
    let msg := u64 (arg call 1) in
    let flags := s32 (arg call 2) in
    ptr ← prep_syscall_for_fd sockfd;
    assert_ (syscallno =? no call);;
    ok ← start_commit_buffered_syscall syscallno ptr MAY_BLOCK;
    if negb (ok : bool) then traced_raw_syscall call
    else
      ret ← untraced_syscall syscallno [sockfd; msg; flags];
      commit_raw_syscall syscallno ptr ret.

Definition sys_sendto (call : syscall_info) : M Z :=
  force ← force_traced_syscall_for_chaos_mode;
  if (force : bool) then traced_raw_syscall call
  else
    let syscallno := SYS_sendto in
    let sockfd := s32 (arg call 0) in
    let buf := u64 (arg call 1) in
    let len := u64 (arg call 2) in
    let flags := s32 (arg call 3) in
    let dest_addr := u64 (arg call 4) in
    let addrlen := u32 (arg call 5) in
    ptr ← prep_syscall_for_fd sockfd;
    assert_ (syscallno =? no call);;
    ok ← start_commit_buffered_syscall syscallno ptr MAY_BLOCK;
    if negb (ok : bool) then traced_raw_syscall call
    else
      ret ← untraced_syscall syscallno [sockfd; buf; len; flags; dest_addr; addrlen];
      commit_raw_syscall syscallno ptr ret.

Definition sys_setsockopt (call : syscall_info) : M Z :=
  let syscallno := SYS_setsockopt in
  let sockfd := s32 (arg call 0) in
  let level := s32 (arg call 1) in
  let optname := s32 (arg call 2) in
  let optval := u64 (arg call 3) in
  let optlen := u64 (arg call 4) in
  if (level =? SOL_PACKET) && ((optname =? PACKET_RX_RING) || (optname =? PACKET_TX_RING))
  then traced_raw_syscall call
  else
    ptr ← prep_syscall_for_fd sockfd;
    assert_ (syscallno =? no call);;
    ok ← start_commit_buffered_syscall syscallno ptr MAY_BLOCK;
    if negb (ok : bool) then traced_raw_syscall call
    else
      ret ← untraced_syscall syscallno [sockfd; level; optname; optval; optlen];
      commit_raw_syscall syscallno ptr ret.

(** [sv2] is declared as a [struct timezone*], [sv] as a pointer to two ints:
    both are 8 bytes. *)
Definition sys_socketpair (call : syscall_info) : M Z :=
  let syscallno := SYS_socketpair in
  let domain := s32 (arg call 0) in
  let type := s32 (arg call 1) in
  let protocol := s32 (arg call 2) in
  let sv := u64 (arg call 3) in
  ptr ← prep_syscall;
  assert_ (syscallno =? no call);;
  let sv2 := ptr in
  let ptr := padd ptr SIZEOF_timezone in
  ok ← start_commit_buffered_syscall syscallno ptr WONT_BLOCK;
  if negb (ok : bool) then traced_raw_syscall call
  else
    ret ← untraced_syscall syscallno [domain; type; protocol; sv2];
    failed ← gets (fun s => failed_during_preparation (hdr s));
    (if (0 <=? ret) && negb (nz failed) then local_memcpy sv sv2 8 else mret tt);;
    commit_raw_syscall syscallno ptr ret.

Definition sys_time (call : syscall_info) : M Z :=
  let syscallno := SYS_time in
  let tp := u64 (arg call 0) in
  ptr ← prep_syscall;
  assert_ (syscallno =? no call);;
  ok ← start_commit_buffered_syscall syscallno ptr WONT_BLOCK;
  if negb (ok : bool) then traced_raw_syscall call
  else
    ret ← untraced_syscall syscallno [0];
    (if nz tp then store_m 8 tp ret else mret tt);;
    commit_raw_syscall syscallno ptr ret.

Definition sys_xstat64 (call : syscall_info) : M Z :=
  let syscallno := s32 (no call) in
  let what := arg call 0 in
  let buf := u64 (arg call 1) in
  ptr ← prep_syscall;
  let buf2 := if nz buf then ptr else 0 in
  let ptr := if nz buf then padd ptr SIZEOF_stat64 else ptr in
  ok ← start_commit_buffered_syscall syscallno ptr WONT_BLOCK;
  if negb (ok : bool) then traced_raw_syscall call
  else
    ret ← untraced_syscall syscallno [what; buf2];
    failed ← gets (fun s => failed_during_preparation (hdr s));
    (if nz buf2 && (0 <=? ret) && negb (nz failed)
     then local_memcpy buf buf2 SIZEOF_stat64 else mret tt);;
    commit_raw_syscall syscallno ptr ret.

(** [cmd] is an [int], so the shift is arithmetic; the buffered path passes the
    caller's [addr], not [buf2], to the kernel. *)
Definition sys_quotactl (call : syscall_info) : M Z :=
  let syscallno := s32 (no call) in
  let cmd := s32 (arg call 0) in
  let special := u64 (arg call 1) in
  let id := s32 (arg call 2) in
  let addr := u64 (arg call 3) in
  if negb (Z.shiftr cmd SUBCMDSHIFT =? Q_GETQUOTA) then traced_raw_syscall call
  else
    ptr ← prep_syscall;
    let buf2 := if nz addr then ptr else 0 in
    let ptr := if nz addr then padd ptr SIZEOF_dqblk else ptr in
    ok ← start_commit_buffered_syscall syscallno ptr WONT_BLOCK;
    if negb (ok : bool) then traced_raw_syscall call
    else
      ret ← untraced_syscall syscallno [cmd; special; id; addr];
      failed ← gets (fun s => failed_during_preparation (hdr s));
      (if nz buf2 && (0 <=? ret) && negb (nz failed)
       then local_memcpy addr buf2 SIZEOF_dqblk else mret tt);;
      commit_raw_syscall syscallno ptr ret.

Definition sys_statfs (call : syscall_info) : M Z :=
  let syscallno := s32 (no call) in
  let what := arg call 0 in
  let buf := u64 (arg call 1) in
  ptr ← prep_syscall;
  let buf2 := if nz buf then ptr else 0 in
  let ptr := if nz buf then padd ptr SIZEOF_statfs else ptr in
  ok ← start_commit_buffered_syscall syscallno ptr WONT_BLOCK;
  if negb (ok : bool) then traced_raw_syscall call
  else
    ret ← untraced_syscall syscallno [what; buf2];
    failed ← gets (fun s => failed_during_preparation (hdr s));
    (if nz buf2 && (0 <=? ret) && negb (nz failed)
     then local_memcpy buf buf2 SIZEOF_statfs else mret tt);;
    commit_raw_syscall syscallno ptr ret.

Definition sys_write (call : syscall_info) : M Z :=
  force ← force_traced_syscall_for_chaos_mode;
  if (force : bool) then traced_raw_syscall call
  else
    let syscallno := SYS_write in
    let fd := s32 (arg call 0) in
    let buf := u64 (arg call 1) in
    let count := u64 (arg call 2) in
    ptr ← prep_syscall_for_fd fd;
    assert_ (syscallno =? no call);;
    ok ← start_commit_buffered_syscall syscallno ptr MAY_BLOCK;
    if negb (ok : bool) then traced_raw_syscall call
    else
      ret ← untraced_syscall syscallno [fd; buf; count];
      commit_raw_syscall syscallno ptr ret.

Definition sys_pwrite64 (call : syscall_info) : M Z :=
  let syscallno := SYS_pwrite64 in
  let fd := s32 (arg call 0) in
  let buf := u64 (arg call 1) in
  let count := u64 (arg call 2) in
  let offset := arg call 3 in
  ptr ← prep_syscall_for_fd fd;
  assert_ (syscallno =? no call);;
  ok ← start_commit_buffered_syscall syscallno ptr MAY_BLOCK;
  if negb (ok : bool) then traced_raw_syscall call
  else
    ret ← untraced_syscall syscallno [fd; buf; count; offset];
    commit_raw_syscall syscallno ptr ret.

Definition sys_writev (call : syscall_info) : M Z :=
  force ← force_traced_syscall_for_chaos_mode;
  if (force : bool) then traced_raw_syscall call
  else
    let syscallno := SYS_writev in
    let fd := s32 (arg call 0) in
    let iov := u64 (arg call 1) in
    let iovcnt := u64 (arg call 2) in
    ptr ← prep_syscall_for_fd fd;
    assert_ (syscallno =? no call);;
    ok ← start_commit_buffered_syscall syscallno ptr MAY_BLOCK;
    if negb (ok : bool) then traced_raw_syscall call
    else
      ret ← untraced_syscall syscallno [fd; iov; iovcnt];
      commit_raw_syscall syscallno ptr ret.

(** [local_iov] and [remote_iov] are locals, 16 bytes each. *)
Definition sys_ptrace (call : syscall_info) : M Z :=
  let request := u32 (arg call 0) in
  let pid := s32 (arg call 1) in
  let addr := u64 (arg call 2) in
  let data := u64 (arg call 3) in
  if negb (request =? PTRACE_PEEKDATA) || negb (nz data) then traced_raw_syscall call
  else
    ptr ← prep_syscall;
    assert_ (SYS_ptrace =? no call);;
    let syscallno := SYS_process_vm_readv in
    let data2 := ptr in
    let ptr := padd ptr SIZEOF_long in
    ok ← start_commit_buffered_syscall syscallno ptr WONT_BLOCK;
    if negb (ok : bool) then traced_raw_syscall call
    else
      local_iov ← gets frame;
      let remote_iov := local_iov + SIZEOF_iovec in
      store_m 8 local_iov data2;;
      store_m 8 (local_iov + 8) SIZEOF_long;;
      store_m 8 remote_iov addr;;
      store_m 8 (remote_iov + 8) SIZEOF_long;;
      ret ← untraced_syscall syscallno [pid; local_iov; 1; remote_iov; 1; 0];
      failed ← gets (fun s => failed_during_preparation (hdr s));
      (if (0 <? ret) && negb (nz failed) then local_memcpy data data2 ret else mret tt);;
      commit_raw_syscall syscallno ptr ret;;
      if negb (ret =? SIZEOF_long) then traced_raw_syscall call
      else mret ret.

Definition sys_getrusage (call : syscall_info) : M Z :=
  let syscallno := SYS_getrusage in
  let who := s32 (arg call 0) in
  let buf := u64 (arg call 1) in
  ptr ← prep_syscall;
  assert_ (syscallno =? no call);;
  let buf2 := if nz buf then ptr else 0 in
  let ptr := if nz buf then padd ptr SIZEOF_rusage else ptr in
  ok ← start_commit_buffered_syscall syscallno ptr WONT_BLOCK;
  if negb (ok : bool) then traced_raw_syscall call
  else
    ret ← untraced_syscall syscallno [who; buf2];
    failed ← gets (fun s => failed_during_preparation (hdr s));
    (if nz buf2 && (0 <=? ret) && negb (nz failed)
     then local_memcpy buf buf2 SIZEOF_rusage else mret tt);;
    commit_raw_syscall syscallno ptr ret.

(** The signals rr reserves, cleared from the sets the tracee blocks. *)
Definition without_rr_signals (set : Z) : Z :=
  Z.ldiff (Z.ldiff set (Z.shiftl 1 (SIGSTKFLT - 1)))
    (Z.shiftl 1 (SYSCALLBUF_DESCHED_SIGNAL - 1)).

(** The mask after [sigprocmask(how, set)] with [previous_set] blocked. *)
Definition new_blocked_set (how previous_set set : Z) : Z :=
  if how =? SIG_UNBLOCK then Z.ldiff previous_set set
  else if how =? SIG_BLOCK then Z.lor previous_set set
  else if how =? SIG_SETMASK then set
  else previous_set.

(** [modified_set] is the local at [frame]. *)
Definition sys_rt_sigprocmask (call : syscall_info) : M Z :=
  let syscallno := SYS_rt_sigprocmask in
  if negb (arg call 3 =? SIZEOF_sigset) then traced_raw_syscall call
  else
    ptr ← prep_syscall;
    let how := s32 (arg call 0) in
    let set := u64 (arg call 1) in
    let oldset := u64 (arg call 2) in
    let oldset2 := ptr in
    let ptr := padd ptr SIZEOF_sigset in
    ok ← start_commit_buffered_syscall syscallno ptr WONT_BLOCK;
    if negb (ok : bool) then traced_raw_syscall call
    else
      modified_set ← gets frame;
      let modifies := nz set && ((how =? SIG_BLOCK) || (how =? SIG_SETMASK)) in
      (if modifies then
         local_memcpy modified_set set SIZEOF_sigset;;
         v ← load_m 8 modified_set;
         store_m 8 modified_set (without_rr_signals v)
       else mret tt);;
      let set := if modifies then modified_set else set in
      modify_hdr (set_in_sigprocmask_critical_section 1);;
      ret ← untraced_syscall syscallno [how; set; oldset2; SIZEOF_sigset];
      failed ← gets (fun s => failed_during_preparation (hdr s));
      (if (0 <=? ret) && negb (nz failed) then
         (if nz oldset then local_memcpy oldset oldset2 SIZEOF_sigset else mret tt);;
         (if nz set then
            previous_set ← load_m 8 oldset2;
            set_v ← load_m 8 set;
            modify_hdr (set_blocked_sigs (new_blocked_set how previous_set set_v));;
            modify_hdr (fun h =>
              set_blocked_sigs_generation (u32 (blocked_sigs_generation h + 1)) h)
          else mret tt)
       else mret tt);;
      modify_hdr (set_in_sigprocmask_critical_section 0);;
      commit_raw_syscall syscallno ptr ret;;
      if ret =? - EAGAIN then traced_raw_syscall call
      else mret ret.

End Wrappers.
