(* ===== verification/Hook.v ===== *)
(** * Entry of the preload library: initialisation and [syscall_hook]

    [init_process] tells rr where the library's code, tables and patch hooks
    are; [init_thread] opens the desched counter of a thread and gets its
    buffer from rr; [syscall_hook] is what a patched system call instruction
    calls: it dispatches to the wrappers or makes a traced call. *)

From stdpp Require Import base tactics list numbers.
From S2P Require Import Prelude Memory KernelAbi PreloadInterface Machine SyscallNumbers Syscallbuf Wrappers.
Local Open Scope Z_scope.

(** ** Setters of whole groups of thread locals *)

(** What [init_thread] copies out of [rrcall_init_buffers_params]. *)
Definition set_buffers (cloned_fd buf size scratch usable : Z) (t : preload_thread_locals) :=
  mkTL (pending_untraced_syscall_result t) (original_syscall_parameters t) (thread_inited t)
    buf size (desched_counter_fd t) cloned_fd (cloned_file_data_offset t) scratch usable
    (notify_control_msg t).

Definition set_process_inited (v : Z) (x : statics) : statics :=
  mkStatics (buffer_enabled x) v (impose_syscall_delay x) (impose_spurious_desched x)
    (trace_chaos_mode_syscalls x) (buffer_chaos_mode_syscalls x).

Definition set_buffer_enabled (v : Z) (x : statics) : statics :=
  mkStatics v (process_inited x) (impose_syscall_delay x) (impose_spurious_desched x)
    (trace_chaos_mode_syscalls x) (buffer_chaos_mode_syscalls x).

Definition set_impose_syscall_delay (v : Z) (x : statics) : statics :=
  mkStatics (buffer_enabled x) (process_inited x) v (impose_spurious_desched x)
    (trace_chaos_mode_syscalls x) (buffer_chaos_mode_syscalls x).

Definition modify_sv (f : statics -> statics) : M unit := modify (fun s => set_sv (f (sv s)) s).

(** ** The table of patchable instruction sequences (x86-64) *)

Inductive trampoline_sym :=
| trampoline_48_3d_01_f0_ff_ff
| trampoline_48_3d_00_f0_ff_ff
| trampoline_48_8b_3c_24
| trampoline_5a_5e_c3
| trampoline_89_c2_f7_da
| trampoline_90_90_90
| trampoline_ba_01_00_00_00
| trampoline_89_c1_31_d2
| trampoline_c3_nop.

Record syscall_patch_hook := mkHook {
  is_multi_instruction : Z;
  next_instruction_length : Z;
  next_instruction_bytes : list Z;
  hook_address : trampoline_sym }.

Definition syscall_patch_hooks : list syscall_patch_hook :=
  [ mkHook 0 6 [72; 61; 1; 240; 255; 255] trampoline_48_3d_01_f0_ff_ff;
    mkHook 0 6 [72; 61; 0; 240; 255; 255] trampoline_48_3d_00_f0_ff_ff;
    mkHook 0 4 [72; 139; 60; 36] trampoline_48_8b_3c_24;
    mkHook 1 3 [90; 94; 195] trampoline_5a_5e_c3;
    mkHook 1 4 [137; 194; 247; 218] trampoline_89_c2_f7_da;
    mkHook 1 3 [144; 144; 144] trampoline_90_90_90;
    mkHook 0 5 [186; 1; 0; 0; 0] trampoline_ba_01_00_00_00;
    mkHook 1 4 [137; 193; 49; 210] trampoline_89_c1_31_d2;
    mkHook 1 9 [195; 15; 31; 132; 0; 0; 0; 0; 0] trampoline_c3_nop;
    mkHook 1 6 [195; 15; 31; 68; 0; 0] trampoline_c3_nop;
    mkHook 1 4 [195; 15; 31; 0] trampoline_c3_nop;
    mkHook 1 3 [195; 102; 144] trampoline_c3_nop ].

(** Addresses the linker chooses, and the environment variable. *)
Record linkage := mkLinkage {
  trampoline_address : trampoline_sym -> Z;
  syscallbuf_code_start : Z;
  syscallbuf_code_end : Z;
  syscallbuf_final_exit_instruction : Z;
  globals_address : Z;
  syscallbuf_enabled_env : bool }.

Definition SIZEOF_patch_hook : Z := 24.
Definition SIZEOF_init_preload_params : Z := 88.

(** The array of hooks, as the initialiser of a local lays it out at [a]: the
    bytes after the last initialised one are zero. *)
Fixpoint store_bytes (a : Z) (bs : list Z) (m : mem) : mem :=
  match bs with
  | [] => m
  | b :: bs => store_bytes (a + 1) bs (store 1 a b m)
  end.

Fixpoint store_hooks (l : linkage) (a : Z) (hs : list syscall_patch_hook) (m : mem) : mem :=
  match hs with
  | [] => m
  | h :: hs =>
      let m := store 1 a (is_multi_instruction h) m in
      let m := store 1 (a + 1) (next_instruction_length h) m in
      let m := store_bytes (a + 2) (take 14 (next_instruction_bytes h ++ replicate 14 0)) m in
      let m := store 8 (a + 16) (trampoline_address l (hook_address h)) m in
      store_hooks l (a + SIZEOF_patch_hook) hs m
  end.

Section Hook.
Context {E : Env}.

(** The library's own system calls. *)
Definition privileged_traced_fcntl (fd cmd a : Z) : M Z :=
  privileged_traced_syscall SYS_fcntl [fd; cmd; a].

Definition privileged_traced_gettid : M Z := privileged_traced_syscall SYS_gettid [].

Definition privileged_traced_perf_event_open (attr pid cpu group_fd flags : Z) : M Z :=
  privileged_traced_syscall SYS_perf_event_open [attr; pid; cpu; group_fd; flags].

Definition privileged_untraced_close (fd : Z) : M Z :=
  r ← privileged_untraced_syscall SYS_close [fd]; mret (s32 r).

Definition privileged_untraced_fcntl (fd cmd a : Z) : M Z :=
  r ← privileged_untraced_syscall SYS_fcntl [fd; cmd; a]; mret (s32 r).

Definition rrcall_init_buffers (params : Z) : M unit :=
  privileged_traced_syscall SYS_rrcall_init_buffers [params];; mret tt.

Definition PERF_TYPE_SOFTWARE := 1.
Definition PERF_COUNT_SW_CONTEXT_SWITCHES := 3.

(** [attr] and [own] are the addresses of the locals of that name. *)
Definition open_desched_event_counter (attr own nr_descheds tid : Z) : M Z :=
  modify_mem (store sizeof_perf_event_attr attr 0);;
  store_m 4 (attr + 4) sizeof_perf_event_attr;;
  store_m 4 attr PERF_TYPE_SOFTWARE;;
  store_m 8 (attr + 8) PERF_COUNT_SW_CONTEXT_SWITCHES;;
  store_m 8 (attr + 40) 1;;
  store_m 8 (attr + 16) nr_descheds;;
  tmp_fd ← privileged_traced_perf_event_open attr 0 (-1) (-1) 0;
  fatal_if (tmp_fd <? 0);;
  fd ← privileged_traced_fcntl tmp_fd F_DUPFD_CLOEXEC RR_DESCHED_EVENT_FLOOR_FD;
  fatal_if (fd <? 0);;
  r ← privileged_untraced_close tmp_fd;
  fatal_if (nz r);;
  r ← privileged_untraced_fcntl fd F_SETFL O_ASYNC;
  fatal_if (nz r);;
  store_m 4 own F_OWNER_TID;;
  store_m 4 (own + 4) tid;;
  r ← privileged_untraced_fcntl fd F_SETOWN_EX own;
  fatal_if (nz r);;
  r ← privileged_untraced_fcntl fd F_SETSIG SYSCALLBUF_DESCHED_SIGNAL;
  fatal_if (nz r);;
  mret fd.

(** Offsets in [rrcall_init_buffers_params]. *)
Definition IB_desched_counter_fd := 0.
Definition IB_cloned_file_data_fd := 4.
Definition IB_syscallbuf_ptr := 8.
Definition IB_scratch_buf := 16.
Definition IB_syscallbuf_size := 24.
Definition IB_usable_scratch_size := 28.
Definition SIZEOF_init_buffers_params := 32.

(** The local [args] lies at [frame]; below it the locals of
    [open_desched_event_counter]. *)
Definition init_thread : M unit :=
  inited ← gets (fun s => process_inited (sv s));
  assert_ (nz inited);;
  t_inited ← gets (fun s => thread_inited (tl s));
  if nz t_inited then mret tt
  else
    modify_tl (set_thread_inited 1);;
    enabled ← gets (fun s => buffer_enabled (sv s));
    diversion ← gets (fun s => in_diversion (gl s));
    if negb (nz enabled) || nz diversion then mret tt
    else
      args ← gets frame;
      let own := args + SIZEOF_init_buffers_params in
      let attr := own + SIZEOF_f_owner_ex in
      tid ← privileged_traced_gettid;
      fd ← open_desched_event_counter attr own 1 tid;
      modify_tl (set_desched_counter_fd fd);;
      store_m 4 (args + IB_desched_counter_fd) fd;;
      rrcall_init_buffers args;;
      cloned ← load_m 4 (args + IB_cloned_file_data_fd);
      buf ← load_m 8 (args + IB_syscallbuf_ptr);
      size ← load_m 4 (args + IB_syscallbuf_size);
      scratch ← load_m 8 (args + IB_scratch_buf);
      usable ← load_m 4 (args + IB_usable_scratch_size);
      modify_tl (set_buffers (s32 cloned) buf size scratch usable).

(** Offsets in [rrcall_init_preload_params]; the fields that x86-64 sets to
    [NULL] are included.  The locals [params] and [syscall_patch_hooks] lie at
    [frame].  The last lines of the source, which look up the C library's mutex
    functions for [overrides.c], have no effect on this state. *)
Definition init_process (l : linkage) : M unit :=
  inited ← gets (fun s => process_inited (sv s));
  if nz inited then mret tt
  else
    modify_sv (set_buffer_enabled (b2z (syscallbuf_enabled_env l)));;
    enabled ← gets (fun s => buffer_enabled (sv s));
    params ← gets frame;
    let hooks := params + SIZEOF_init_preload_params in
    modify_mem (store_hooks l hooks syscall_patch_hooks);;
    store_m 4 params enabled;;
    store_m 8 (params + 16) 0;;
    store_m 8 (params + 40) 0;;
    store_m 8 (params + 48) 0;;
    store_m 8 (params + 24) (syscallbuf_code_start l);;
    store_m 8 (params + 32) (syscallbuf_code_end l);;
    store_m 8 (params + 56) (syscallbuf_final_exit_instruction l);;
    store_m 4 (params + 4) (Z.of_nat (length syscall_patch_hooks));;
    store_m 8 (params + 8) hooks;;
    store_m 8 (params + 64) (globals_address l);;
    store_m 8 (params + 72) breakpoint_table_start;;
    store_m 4 (params + 80) breakpoint_table_entry_size;;
    privileged_traced_syscall SYS_rrcall_init_preload [params];;
    modify_sv (set_process_inited 1).

(** ** Dispatch *)

Definition GENERIC_NONBLOCKING : list Z :=
  [SYS_access; SYS_fchmod; SYS_getegid; SYS_geteuid; SYS_getgid; SYS_getpid; SYS_getppid;
   SYS_gettid; SYS_getuid; SYS_lchown; SYS_mkdir; SYS_mknod; SYS_setxattr; SYS_symlink;
   SYS_truncate; SYS_unlink; SYS_unlinkat].

Definition GENERIC_NONBLOCKING_FD : list Z :=
  [SYS_close; SYS_dup; SYS_fadvise64; SYS_fsetxattr; SYS_ftruncate; SYS_lseek; SYS_utimensat].

Definition XSTAT64 : list Z := [SYS_fstat; SYS_lstat; SYS_stat].

Definition STATFS : list Z := [SYS_statfs; SYS_fstatfs].

(** The [CASE(name)] entries: a number and its wrapper. *)
Definition CASES : list (Z * (syscall_info -> M Z)) :=
  [(SYS_clock_gettime, sys_clock_gettime); (SYS_creat, sys_creat);
   (SYS_epoll_wait, sys_epoll_wait); (SYS_fcntl, sys_fcntl); (SYS_fgetxattr, sys_fgetxattr);
   (SYS_flistxattr, sys_flistxattr); (SYS_futex, sys_futex); (SYS_getdents, sys_getdents);
   (SYS_getdents64, sys_getdents64); (SYS_getrusage, sys_getrusage);
   (SYS_gettimeofday, sys_gettimeofday); (SYS_getxattr, sys_getxattr); (SYS_ioctl, sys_ioctl);
   (SYS_lgetxattr, sys_lgetxattr); (SYS_listxattr, sys_listxattr);
   (SYS_llistxattr, sys_llistxattr); (SYS_madvise, sys_madvise); (SYS_mprotect, sys_mprotect);
   (SYS_open, sys_open); (SYS_openat, sys_openat); (SYS_poll, sys_poll);
   (SYS_pread64, sys_pread64); (SYS_pwrite64, sys_pwrite64); (SYS_ptrace, sys_ptrace);
   (SYS_quotactl, sys_quotactl); (SYS_read, sys_read); (SYS_readlink, sys_readlink);
   (SYS_recvfrom, sys_recvfrom); (SYS_recvmsg, sys_recvmsg);
   (SYS_rt_sigprocmask, sys_rt_sigprocmask); (SYS_sendmsg, sys_sendmsg);
   (SYS_sendto, sys_sendto); (SYS_setsockopt, sys_setsockopt);
   (SYS_socketpair, sys_socketpair); (SYS_time, sys_time); (SYS_write, sys_write);
   (SYS_writev, sys_writev)].

Definition wrapper_table : list (Z * (syscall_info -> M Z)) :=
  map (fun n => (n, sys_generic_nonblocking)) GENERIC_NONBLOCKING ++
  map (fun n => (n, sys_generic_nonblocking_fd)) GENERIC_NONBLOCKING_FD ++
  CASES ++
  map (fun n => (n, sys_xstat64)) XSTAT64 ++
  map (fun n => (n, sys_statfs)) STATFS.

(** The [switch]: its labels are distinct, so their order does not matter. *)
Fixpoint dispatch (table : list (Z * (syscall_info -> M Z))) (call : syscall_info) : M Z :=
  match table with
  | [] => traced_raw_syscall call
  | (n, wrapper) :: table => if no call =? n then wrapper call else dispatch table call
  end.

Definition syscall_hook_internal (call : syscall_info) : M Z := dispatch wrapper_table call.

(** ** [syscall_hook] *)

(** The loop of [do_delay] after [n] rounds: [i] and [result], both [int]. *)
Definition delay_step (x : Z * Z) : Z * Z :=
  let '(i, result) := x in (i + 1, s32 (result + s32 (i * i))).

Definition DELAY_ROUNDS : N := 10000000.

(** Stored in a [char]. *)
Definition do_delay : M unit :=
  modify_sv (fun v => set_impose_syscall_delay
    (wraps 8 (Z.lor (snd (N.iter DELAY_ROUNDS delay_step (0, 0))) 1)) v).

(** The part of [syscall_hook] after its guards.  [call_ptr] is the address of
    [*call]. *)
Definition hook_unlocked (call_ptr : Z) (call : syscall_info) : M Z :=
  modify_tl (set_original_syscall_parameters call_ptr);;
  delay ← gets (fun s => impose_syscall_delay (sv s));
  (if nz delay then do_delay else mret tt);;
  result ← syscall_hook_internal call;
  b ← gets buffer_hdr;
  notify ← gets (fun s => notify_on_syscall_hook_exit (hdr s));
  result ← (if nz b && nz notify then
              raw_syscall PRIVILEGED_TRACED SYS_rrcall_notify_syscall_hook_exit
                (pad8 [arg call 0; arg call 1; arg call 2; arg call 3; arg call 4; arg call 5;
                       result; no call])
            else mret result);
  msg ← gets (fun s => notify_control_msg (tl s));
  (if nz msg then
     privileged_traced_syscall SYS_rrcall_notify_control_msg [msg];;
     modify_tl (set_notify_control_msg 0)
   else mret tt);;
  modify_tl (set_original_syscall_parameters 0);;
  mret result.

Definition syscall_hook (call_ptr : Z) (call : syscall_info) : M Z :=
  init_thread;;
  b ← gets buffer_hdr;
  lock ← gets (fun s => locked (hdr s));
  if (b =? 0) || nz lock then traced_raw_syscall call
  else hook_unlocked call_ptr call.

End Hook.
