(* ===== verification/BufferInv.v ===== *)
(** * The buffer invariant

    What rr's flush relies on ([maybe_flush_syscallbuf] writes out the header
    and [num_rec_bytes] bytes of records): the records end inside the mapped
    buffer, with room for one more record header after them, and occupy a whole
    number of 64-bit words.  The invariant is about the _geometry_ of a state:
    the buffer's address, its size and [num_rec_bytes], whether the process is
    recorded or replayed, and whether the tracee holds the buffer's lock.  Most
    operations keep the geometry ([keeps]); only the lock, [commit_raw_syscall]
    and rr change it.  The invariant is about recording: a
    replay takes every count from the recorded data, and [Replay] shows that it
    then goes through the same states.

    The file gives the rules by which the invariant is proved of each wrapper
    ([inv]); [WrapperInv] applies them. *)

From stdpp Require Import base tactics list numbers.
From S2P Require Import Prelude Memory KernelAbi PreloadInterface Machine SyscallNumbers Syscallbuf Wrappers.
Local Open Scope Z_scope.

Record geometry := mkGeom { g_buffer : Z; g_size : Z; g_bytes : Z; g_replay : bool; g_locked : bool }.

Definition geom_of (t : preload_thread_locals) (h : syscallbuf_hdr) (gs : preload_globals) : geometry :=
  mkGeom (buffer t) (buffer_size t) (num_rec_bytes h) (nz (in_replay gs))
    (Z.testbit (locked h) 0).

Definition geom (s : st) : geometry := geom_of (tl s) (hdr s) (gl s).

(** Start of the next record and end of the buffer, without wrap-around. *)
Definition g_last (g : geometry) : Z := g_buffer g + SIZEOF_HDR + g_bytes g.
Definition g_end (g : geometry) : Z := g_buffer g + g_size g.

(** The invariant: a buffer in the user half of the address space, a whole
    number of words of records, and room for one more record header. *)
Record good (g : geometry) : Prop := mkGood {
  good_rec : g_replay g = false;
  good_addr : 2 ^ 33 <= g_buffer g;
  good_top : g_end g < 2 ^ 62;
  good_size : g_size g < 2 ^ 32;
  good_pos : 0 <= g_bytes g;
  good_words : g_bytes g mod 8 = 0;
  good_room : g_last g + SIZEOF_REC <= g_end g }.

(** The state between transactions. *)
Definition closed (g : geometry) : Prop := good g /\ g_locked g = false.

Definition same_buffer (g g' : geometry) : Prop :=
  g_buffer g' = g_buffer g /\ g_size g' = g_size g.

Definition lock (g : geometry) : geometry :=
  mkGeom (g_buffer g) (g_size g) (g_bytes g) (g_replay g) true.

Definition unlock (g : geometry) : geometry :=
  mkGeom (g_buffer g) (g_size g) (g_bytes g) (g_replay g) false.

(** Space reserved for a record that will end at [record_end] at the latest. *)
Record reserved (g : geometry) (record_end : Z) : Prop := mkReserved {
  res_min : g_last g + 8 < record_end;
  res_max : g_last g + (record_end - g_last g + 7) / 8 * 8 + SIZEOF_REC <= g_end g }.

Lemma good_last_range g : good g -> 0 < g_last g < 2 ^ 62.
Proof. intros []. unfold g_last, SIZEOF_HDR, SIZEOF_REC in *. lia. Qed.

Lemma buffer_last_eq s : good (geom s) -> buffer_last s = g_last (geom s).
Proof.
  intros H. pose proof (good_last_range _ H). destruct H.
  unfold buffer_last, next_record, padd, buffer_hdr, g_last, geom, geom_of, SIZEOF_HDR, SIZEOF_REC in *.
  cbn in *. rewrite (wrapu_small 64 (buffer (tl s) + 30)), wrapu_small; lia.
Qed.

Lemma buffer_end_eq s : good (geom s) -> buffer_end s = g_end (geom s).
Proof.
  intros H. pose proof (good_last_range _ H). destruct H.
  unfold buffer_end, padd, g_last, g_end, geom, geom_of, SIZEOF_HDR, SIZEOF_REC in *. cbn in *.
  apply wrapu_small. lia.
Qed.

Lemma geom_lock s :
  geom (set_hdr (set_locked (Z.lor (locked (hdr s)) SYSCALLBUF_LOCKED_TRACEE) (hdr s)) s)
  = lock (geom s).
Proof.
  unfold geom, geom_of, lock. cbn [tl hdr gl set_hdr locked set_locked num_rec_bytes].
  rewrite Z.lor_spec. by rewrite orb_true_r.
Qed.

Lemma geom_unlock s : geom (set_hdr (unlock_tracee (hdr s)) s) = unlock (geom s).
Proof.
  unfold geom, geom_of, unlock, unlock_tracee.
  cbn [tl hdr gl set_hdr locked set_locked num_rec_bytes].
  rewrite Z.ldiff_spec. by rewrite andb_false_r.
Qed.

(** ** Programs that keep the geometry *)

Definition keeps {A} (c : M A) : Prop := forall s, geom (snd (c s)) = geom s.

Section Keeps.
Context {A B : Type}.

Lemma keeps_ret (a : A) : keeps (mret a : M A).
Proof. done. Qed.

Lemma keeps_abort w : keeps (abort w : M A).
Proof. done. Qed.

Lemma keeps_gets (f : st -> A) : keeps (gets f).
Proof. done. Qed.

Lemma keeps_bind (c : M A) (f : A -> M B) : keeps c -> (forall a, keeps (f a)) -> keeps (mbind f c).
Proof.
  intros Hc Hf s. rewrite bind_eq. specialize (Hc s).
  destruct (c s) as [[a|w] s1]; cbn in *; [|done]. by rewrite Hf.
Qed.

Lemma keeps_if (b : bool) (c d : M A) : keeps c -> keeps d -> keeps (if b then c else d).
Proof. by destruct b. Qed.

Lemma keeps_modify f : (forall s, geom (f s) = geom s) -> keeps (modify f).
Proof. intros H s. apply H. Qed.

End Keeps.

Create HintDb keeps.
#[export] Hint Resolve keeps_ret keeps_abort keeps_gets keeps_bind keeps_if : keeps.

Lemma keeps_modify_mem f : keeps (modify_mem f).
Proof. done. Qed.

Lemma keeps_store n a v : keeps (store_m n a v).
Proof. done. Qed.

Lemma keeps_load n a : keeps (load_m n a).
Proof. done. Qed.

Lemma keeps_modify_gl f : (forall g, in_replay (f g) = in_replay g) -> keeps (modify_gl f).
Proof. intros H s. unfold geom, geom_of. cbn. by rewrite H. Qed.

Lemma keeps_modify_tl f :
  (forall t, buffer (f t) = buffer t /\ buffer_size (f t) = buffer_size t) -> keeps (modify_tl f).
Proof. intros H s. unfold geom, geom_of. cbn. destruct (H (tl s)) as [-> ->]. done. Qed.

Lemma keeps_modify_hdr f :
  (forall h, num_rec_bytes (f h) = num_rec_bytes h /\ locked (f h) = locked h) ->
  keeps (modify_hdr f).
Proof. intros H s. unfold geom, geom_of. cbn. destruct (H (hdr s)) as [-> ->]. done. Qed.

Lemma keeps_assert b : keeps (assert_ b).
Proof. by destruct b. Qed.

Lemma keeps_fatal_if b : keeps (fatal_if b).
Proof. by destruct b. Qed.

#[export] Hint Resolve keeps_modify_mem keeps_store keeps_load keeps_assert
  keeps_fatal_if : keeps.
#[export] Hint Extern 1 (keeps (modify_tl _)) => apply keeps_modify_tl; intros; split; reflexivity : keeps.
#[export] Hint Extern 1 (keeps (modify_gl _)) => apply keeps_modify_gl; reflexivity : keeps.
#[export] Hint Extern 1 (keeps (modify_hdr _)) => apply keeps_modify_hdr; intros; split; reflexivity : keeps.

Lemma keeps_local_memcpy d src n : keeps (local_memcpy d src n).
Proof. done. Qed.

Lemma keeps_memcpy_input_parameter d src n : keeps (memcpy_input_parameter d src n).
Proof. unfold memcpy_input_parameter. auto with keeps. Qed.

Lemma keeps_copy_futex_int d r : keeps (copy_futex_int d r).
Proof. unfold copy_futex_int. auto 10 with keeps. Qed.

Lemma keeps_copy_output_buffer n p d d2 : keeps (copy_output_buffer n p d d2).
Proof.
  unfold copy_output_buffer. cbv zeta.
  auto 10 using keeps_local_memcpy with keeps.
Qed.

Lemma keeps_force_traced : keeps force_traced_syscall_for_chaos_mode.
Proof.
  intros s. unfold force_traced_syscall_for_chaos_mode. destruct (negb _); [done|].
  by destruct (chaos_loop _ _ _ _) as [[[[? ?] ?] ?]|].
Qed.

Lemma keeps_cstring_arg `{E : Env} p : keeps (cstring_arg p).
Proof.
  unfold cstring_arg. destruct (p =? 0); [done|].
  apply keeps_bind; [done|]. by intros [|].
Qed.

#[export] Hint Resolve keeps_local_memcpy keeps_memcpy_input_parameter keeps_copy_futex_int
  keeps_copy_output_buffer keeps_force_traced keeps_cstring_arg : keeps.

(** ** What is assumed of the kernel and of rr *)

Definition is_untraced (e : rr_page_entry) : bool :=
  match e with TRACED | PRIVILEGED_TRACED => false | _ => true end.

(** The register that holds the length of the output buffer of the calls that
    return a number of bytes (or, for [epoll_wait], of events) written to it. *)
Definition count_arg (sysno : Z) : option nat :=
  if existsb (Z.eqb sysno)
       [SYS_read; SYS_pread64; SYS_readlink; SYS_recvfrom; SYS_getdents; SYS_getdents64;
        SYS_epoll_wait]
  then Some 2%nat else None.

(** The calls that return a size, or an error between -4095 and -1. *)
Definition returns_size (sysno : Z) : bool :=
  existsb (Z.eqb sysno)
    [SYS_read; SYS_pread64; SYS_readlink; SYS_recvfrom; SYS_getdents; SYS_getdents64;
     SYS_epoll_wait; SYS_getxattr; SYS_lgetxattr; SYS_fgetxattr; SYS_listxattr; SYS_llistxattr;
     SYS_flistxattr].

(** An untraced call leaves the buffer, its header's [num_rec_bytes] and the
    tracee's lock alone; during a traced call rr may flush and reset the buffer,
    but leaves it where it is and well formed; a call that returns a count never returns more than the length it
    was given, and fails when that length is negative as a [ssize_t]. *)
Definition k_geom (k : kresult) : geometry := geom_of (k_tl k) (k_hdr k) (k_gl k).

Class KernelContract (E : Env) : Prop := {
  untraced_geom : forall e sysno a s, is_untraced e = true ->
    k_geom (kernel e sysno a s) = geom s;
  traced_good : forall e sysno a s, is_untraced e = false -> closed (geom s) ->
    closed (k_geom (kernel e sysno a s)) /\ same_buffer (geom s) (k_geom (kernel e sysno a s));
  count_bound : forall e sysno a s i, is_untraced e = true -> count_arg sysno = Some i ->
    s64 (k_ret (kernel e sysno a s)) <= Z.max 0 (s64 (nth i a 0));
  error_range : forall e sysno a s, is_untraced e = true -> returns_size sysno = true ->
    -4095 <= s64 (k_ret (kernel e sysno a s)) }.

(** What the contract says of the value an untraced call returns. *)
Definition returned (sysno : Z) (a : list Z) (ret : Z) : Prop :=
  (forall i, count_arg sysno = Some i -> ret <= Z.max 0 (s64 (nth i (pad8 a) 0))) /\
  (returns_size sysno = true -> -4095 <= ret).

Section Rules.
Context {E : Env} {K : KernelContract E}.

Lemma geom_raw_syscall e sysno a s :
  is_untraced e = true -> geom (snd (raw_syscall e sysno a s)) = geom s.
Proof.
  intros He. unfold raw_syscall. cbv zeta. destruct (rr_page_has_syscall _ _); [|done].
  cbn [snd]. etransitivity; [|apply (untraced_geom e sysno a (add_event (EvSyscall e sysno a) s) He)].
  done.
Qed.

Lemma keeps_raw_untraced e sysno a : is_untraced e = true -> keeps (raw_syscall e sysno a).
Proof. intros He s. by apply geom_raw_syscall. Qed.

Lemma keeps_privileged_untraced sysno a : keeps (privileged_untraced_syscall sysno a).
Proof. by apply keeps_raw_untraced. Qed.

Lemma keeps_replay_only sysno a : keeps (replay_only_syscall sysno a).
Proof. by apply keeps_raw_untraced. Qed.

Lemma keeps_untraced_base sysno a e : is_untraced e = true -> keeps (untraced_syscall_base sysno a e).
Proof.
  intros He. unfold untraced_syscall_base. auto 10 using keeps_raw_untraced with keeps.
Qed.

Hint Resolve keeps_privileged_untraced keeps_replay_only : keeps.

Lemma keeps_disarm : keeps disarm_desched_event.
Proof. unfold disarm_desched_event. auto 10 with keeps. Qed.

Lemma keeps_arm : keeps arm_desched_event.
Proof. unfold arm_desched_event. auto 10 with keeps. Qed.

Hint Resolve keeps_arm keeps_disarm : keeps.

Lemma keeps_arm_for_may_block : keeps arm_for_may_block.
Proof.
  unfold arm_for_may_block. apply keeps_bind; [done|]. intros spurious.
  apply keeps_bind; [auto 10 with keeps|]. intros [[pid tid] uid].
  auto 20 with keeps.
Qed.

(** ** Rules of the invariant *)

Definition is_ret {A} (o : outcome A) : bool := match o with Ret _ => true | Abort _ => false end.

(** A result that leaves the buffer well formed, and unlocked if it returns. *)
Definition ends {A} (g : geometry) (r : outcome A * st) : Prop :=
  good (geom (snd r)) /\ same_buffer g (geom (snd r)) /\
  (is_ret (fst r) = true -> g_locked (geom (snd r)) = false).

(** [inv c g]: from a state of geometry [g], [c] ends in a well formed buffer,
    and with the lock released if it returns. *)
Definition inv {A} (c : M A) (g : geometry) : Prop := forall s, geom s = g -> ends g (c s).

Lemma inv_ret {A} (a : A) g : closed g -> inv (mret a) g.
Proof. intros [Hg Hl] s <-. done. Qed.

Lemma inv_abort {A} w g : good g -> inv (abort w : M A) g.
Proof. intros Hg s <-. done. Qed.

Lemma inv_keep_bind {A B} (c : M A) (f : A -> M B) g :
  good g -> keeps c -> (forall a, inv (f a) g) -> inv (mbind f c) g.
Proof.
  intros Hg Hc Hf s Hs. rewrite bind_eq. specialize (Hc s).
  destruct (c s) as [[a|w] s1]; cbn [snd] in Hc; rewrite Hs in Hc; [by apply Hf|].
  unfold ends. cbn [snd fst]. by rewrite Hc.
Qed.

Lemma inv_bind {A B} (c : M A) (f : A -> M B) g :
  inv c g -> (forall a g', closed g' -> same_buffer g g' -> inv (f a) g') -> inv (mbind f c) g.
Proof.
  intros Hc Hf s Hs. rewrite bind_eq. specialize (Hc s Hs).
  destruct (c s) as [[a|w] s1]; [|destruct Hc as (?&?&?); by split_and!].
  destruct Hc as (Hg&Hb&Hl).
  destruct (Hf a _ (conj Hg (Hl eq_refl)) Hb s1 eq_refl) as (?&[]&?).
  destruct Hb. split_and!; [done|split; congruence|done].
Qed.

Lemma inv_if {A} (b : bool) (c d : M A) g :
  (b = true -> inv c g) -> (b = false -> inv d g) -> inv (if b then c else d) g.
Proof. destruct b; auto. Qed.

Lemma inv_raw_traced e sysno a g : is_untraced e = false -> closed g -> inv (raw_syscall e sysno a) g.
Proof.
  intros He Hg s Hs. unfold raw_syscall. cbv zeta.
  assert (rr_page_has_syscall (replaying (add_event (EvSyscall e sysno a) s)) e = true) as ->
    by (by destruct e).
  rewrite <- Hs in Hg.
  destruct (traced_good e sysno a (add_event (EvSyscall e sysno a) s) He Hg) as [[H1 H2] H3].
  by rewrite <- Hs.
Qed.

Lemma inv_traced call g : closed g -> inv (traced_raw_syscall call) g.
Proof. by apply inv_raw_traced. Qed.

Lemma inv_prep_bind {A} (f : Z -> M A) g :
  good g -> inv (f (g_last g + SIZEOF_REC)) (lock g) -> inv (mbind f prep_syscall) g.
Proof.
  intros Hg Hf s Hs. unfold prep_syscall. rewrite bind_eq, bind_eq.
  assert (buffer_hdr s =? 0 = false) as Hb.
  { apply Z.eqb_neq. destruct Hg. subst g. unfold buffer_hdr. cbn in *. lia. }
  cbn [gets]. rewrite Hb, bind_eq. cbn [modify_hdr modify]. rewrite bind_eq. cbn [gets].
  set (s1 := set_hdr _ s). assert (geom s1 = lock g) as Hs1.
  { subst g. unfold s1. apply geom_lock. }
  assert (good (geom s1)) by (rewrite Hs1; by destruct Hg).
  cbn [mret M_ret]. rewrite (buffer_last_eq s1), Hs1 by done.
  replace (padd (g_last (lock g)) SIZEOF_REC) with (g_last g + SIZEOF_REC).
  - by apply Hf.
  - pose proof (good_last_range g Hg). unfold padd. rewrite wrapu_small; [done|].
    unfold SIZEOF_REC. change (g_last (lock g)) with (g_last g). lia.
Qed.

Lemma inv_prep_fd_bind {A} fd (f : Z -> M A) g :
  good g -> inv (f (g_last g + SIZEOF_REC)) (lock g) -> inv (f 0) g ->
  inv (mbind f (prep_syscall_for_fd fd)) g.
Proof.
  intros Hg H1 H2 s Hs. unfold prep_syscall_for_fd. rewrite bind_assoc, bind_eq. cbn [gets].
  destruct (is_bufferable_fd _ _); cbn [negb]; [by apply (inv_prep_bind f g Hg H1)|by apply H2].
Qed.

(** The rounded end of a record, wherever [record_end] lies. *)
Lemma stored_end_eq r re :
  0 < r < 2 ^ 62 -> 0 <= re < 2 ^ 63 ->
  padd r (stored_record_size (psub re r)) = r + (re - r + 7) / 8 * 8.
Proof.
  intros Hr He. set (d := re - r + 7).
  pose proof (Z.div_mod d 8 ltac:(lia)). pose proof (Z.mod_pos_bound d 8 ltac:(lia)).
  unfold padd, stored_record_size.
  replace (u64 (u64 (psub re r) + 7)) with (u64 d).
  2: { unfold psub, wrapu, d. by rewrite Z.mod_mod, Zplus_mod_idemp_l by lia. }
  rewrite land_not7 by (apply wrapu_range; lia).
  rewrite wrapu_add_wraps by lia.
  replace (u64 d / 8 * 8) with (d / 8 * 8 + - (d / 2 ^ 64) * 2 ^ 64).
  2: { unfold wrapu. rewrite (Z.mod_eq d) by lia.
       replace (d - 2 ^ 64 * (d / 2 ^ 64)) with (d + (- (d / 2 ^ 64) * 2 ^ 61) * 8) by lia.
       rewrite Z.div_add by lia. lia. }
  rewrite Z.add_assoc. unfold wrapu. rewrite Z_mod_plus_full. apply Z.mod_small. lia.
Qed.

(** The two ways a reservation is refused, and the one it is granted. *)
Lemma start_commit_shape syscallno record_end blk s :
  good (geom s) -> 0 <= record_end < 2 ^ 63 ->
  let r := start_commit_buffered_syscall syscallno record_end blk s in
  (record_end < g_last (geom s) + 9 /\ r = (Ret false, s)) \/
  (~ reserved (geom s) record_end /\ g_last (geom s) + 9 <= record_end /\
     r = (Ret false, set_hdr (unlock_tracee (hdr s)) s)) \/
  (reserved (geom s) record_end /\ geom (snd r) = geom s /\
     (forall b, fst r = Ret b -> b = true)).
Proof.
  intros Hg He. unfold start_commit_buffered_syscall. cbv zeta.
  rewrite bind_eq. cbn [gets].
  assert (buffer (tl s) =? 0 = false) as ->.
  { apply Z.eqb_neq. destruct Hg. cbn in *. lia. }
  rewrite bind_eq. cbn [gets]. rewrite bind_eq. cbn [gets].
  rewrite buffer_last_eq, buffer_end_eq by done.
  pose proof (good_last_range _ Hg) as Hr. rewrite stored_end_eq by done.
  set (r := g_last (geom s)) in *. set (e := (record_end - r + 7) / 8 * 8).
  assert (record_end - r <= e < record_end - r + 8).
  { unfold e. pose proof (Z.div_mod (record_end - r + 7) 8 ltac:(lia)).
    pose proof (Z.mod_pos_bound (record_end - r + 7) 8 ltac:(lia)). lia. }
  assert (e < 16 <-> record_end < r + 9) as Hiff.
  { unfold e. pose proof (Z.div_mod (record_end - r + 7) 8 ltac:(lia)).
    pose proof (Z.mod_pos_bound (record_end - r + 7) 8 ltac:(lia)). lia. }
  replace (padd r SIZEOF_REC) with (r + 16).
  2: { symmetry. apply wrapu_small. unfold SIZEOF_REC. lia. }
  destruct (Z.ltb_spec (r + e) (r + 16)); [left; split; [lia|done]|right].
  assert (psub (g_end (geom s)) SIZEOF_REC = g_end (geom s) - 16) as ->.
  { destruct Hg. unfold SIZEOF_REC in *. apply wrapu_small. lia. }
  destruct (Z.ltb_spec (g_end (geom s) - 16) (r + e)); [left|right].
  - split; [|split; [lia|done]]. intros []. unfold SIZEOF_REC in *. fold r in res_max0. fold e in res_max0. lia.
  - split; [split; fold r; fold e; unfold SIZEOF_REC; lia|].
    split.
    + match goal with |- geom (snd (?c s)) = _ => assert (keeps c) as Hk; [|apply Hk] end.
      do 3 (apply keeps_bind; [apply keeps_store|intros _]).
      destruct blk; auto using keeps_arm_for_may_block with keeps.
    + intros b Hb. match type of Hb with fst ?p = _ => destruct p as [o s1] eqn:Ho end. cbn in Hb. subst o.
      repeat (apply bind_ret_inv in Ho as (?&?&_&Ho)). unfold mret, M_ret in Ho. by simplify_eq.
Qed.

Lemma inv_start_locked {A} no re blk (f : bool -> M A) g :
  good g -> g_last g + SIZEOF_REC <= re < 2 ^ 63 ->
  (reserved g re -> inv (f true) g) -> inv (f false) (unlock g) ->
  inv (mbind f (start_commit_buffered_syscall no re blk)) g.
Proof.
  intros Hg He Ht Hf s <-. pose proof (good_last_range _ Hg). unfold SIZEOF_REC in He.
  destruct (start_commit_shape no re blk s Hg ltac:(lia)) as [[H1 H2]|[(H1&H2&H3)|(H1&H2&H3)]];
    [lia| |]; rewrite bind_eq.
  - rewrite H3. apply Hf. apply geom_unlock.
  - destruct (start_commit_buffered_syscall no re blk s) as [[b|w] s1]; cbn in *.
    + rewrite (H3 b eq_refl). by apply Ht.
    + unfold ends. cbn [snd fst]. by rewrite H2.
Qed.

(** Without the lock the requested end is small and the call is refused. *)
Lemma inv_start_unlocked {A} no re blk (f : bool -> M A) g :
  closed g -> 0 <= re < g_buffer g -> inv (f false) g ->
  inv (mbind f (start_commit_buffered_syscall no re blk)) g.
Proof.
  intros [Hg Hl] He Hf s <-. pose proof (good_last_range _ Hg).
  assert (g_buffer (geom s) <= g_last (geom s)).
  { destruct Hg. unfold g_last, SIZEOF_HDR in *. lia. }
  destruct (start_commit_shape no re blk s Hg ltac:(lia)) as [[H1 H2]|[(H1&H2&H3)|(H1&H2&H3)]];
    [|lia|destruct H1; lia]. rewrite bind_eq, H2. by apply Hf.
Qed.

(** A record of [e - g_last g] bytes can be published. *)
Definition fits (g : geometry) (e : Z) : Prop :=
  g_last g <= e /\ g_last g + (e - g_last g + 7) / 8 * 8 + SIZEOF_REC <= g_end g.

Lemma fits_reserved g re e : reserved g re -> g_last g <= e <= re -> fits g e.
Proof.
  intros [] He. split; [lia|].
  pose proof (Z.div_le_mono (e - g_last g + 7) (re - g_last g + 7) 8 ltac:(lia) ltac:(lia)). lia.
Qed.

(** Publishing the record moves [num_rec_bytes] past it. *)
Definition published (g : geometry) (e : Z) : geometry :=
  mkGeom (g_buffer g) (g_size g) (g_bytes g + (e - g_last g + 7) / 8 * 8) (g_replay g) (g_locked g).

Lemma g_last_published g e : g_last (published g e) = g_last g + (e - g_last g + 7) / 8 * 8.
Proof. unfold g_last at 1, published. cbn [g_buffer g_bytes]. unfold g_last. lia. Qed.

Lemma good_published g e : good g -> fits g e -> good (published g e).
Proof.
  intros [] [He Hf]. unfold published, g_last, g_end in *. cbn in *.
  pose proof (Z.div_mod (e - (g_buffer g + SIZEOF_HDR + g_bytes g) + 7) 8 ltac:(lia)).
  pose proof (Z.mod_pos_bound (e - (g_buffer g + SIZEOF_HDR + g_bytes g) + 7) 8 ltac:(lia)).
  split; cbn; try done; [lia| |unfold g_last, g_end; cbn; lia].
  rewrite Z_mod_plus_full. done.
Qed.

Lemma fits_size g e : good g -> fits g e ->
  0 <= e - g_last g < 2 ^ 32 /\ stored_record_size (e - g_last g) = (e - g_last g + 7) / 8 * 8 /\
  u32 (g_bytes g + (e - g_last g + 7) / 8 * 8) = g_bytes g + (e - g_last g + 7) / 8 * 8.
Proof.
  intros Hg He. pose proof (good_published g e Hg He) as Hp. destruct Hg, He as [He Hf], Hp.
  unfold published, g_last, g_end, SIZEOF_HDR, SIZEOF_REC in *. cbn in *.
  pose proof (Z.div_mod (e - (g_buffer g + 30 + g_bytes g) + 7) 8 ltac:(lia)).
  pose proof (Z.mod_pos_bound (e - (g_buffer g + 30 + g_bytes g) + 7) 8 ltac:(lia)).
  split; [lia|]. split; [apply stored_record_size_eq; lia|]. apply wrapu_small. lia.
Qed.

(** The part of [commit_raw_syscall] between the two checks and the disarming:
    the state it leaves for a record that fits. *)
Lemma commit_publish_geom e ret s :
  good (geom s) -> fits (geom s) e ->
  let rec := buffer_last s in
  forall s1, s1 = set_memory (store 8 (rec + REC_ret) ret (store 4 (rec + REC_size) (psub e rec) (memory s))) s ->
  stored_record_size (load 4 (rec + REC_size) (memory s1)) = (e - g_last (geom s) + 7) / 8 * 8.
Proof.
  intros Hg He rec s1 ->. cbn [memory set_memory].
  rewrite load_store_other by (unfold disjoint_rng, REC_ret, REC_size; lia).
  change 4 with (Z.of_nat 4). rewrite load_store_same.
  unfold rec. rewrite buffer_last_eq by done.
  destruct (fits_size _ _ Hg He) as (H1&H2&H3).
  unfold psub. rewrite (wrapu_small 64) by lia. rewrite Z.mod_small by lia. done.
Qed.

Lemma disarm_unlock_inv {A} (b : bool) (k : unit -> M A) g :
  good g -> (forall s, geom s = unlock g -> geom (snd (k tt s)) = geom s) ->
  inv ((if b then disarm_desched_event else mret tt);; modify_hdr unlock_tracee;; k tt) g.
Proof.
  intros Hg Hk. apply inv_keep_bind; [done|destruct b; auto using keeps_disarm with keeps|].
  intros _ s Hs. rewrite bind_eq. cbn [modify_hdr modify].
  assert (geom (set_hdr (unlock_tracee (hdr s)) s) = unlock g) as Hu
    by (rewrite geom_unlock; by rewrite Hs).
  unfold ends. rewrite (Hk _ Hu), Hu. split; [by destruct Hg|done].
Qed.

(** The same rules at one state. *)
Definition inv_at {A} (c : M A) (g : geometry) (s : st) : Prop := ends g (c s).

Lemma at_gets {A B} (h : st -> A) (f : A -> M B) g s :
  inv_at (f (h s)) g s -> inv_at (mbind f (gets h)) g s.
Proof. done. Qed.

Lemma at_modify {B} m (f : unit -> M B) g s : inv_at (f tt) g (m s) -> inv_at (mbind f (modify m)) g s.
Proof. done. Qed.

Lemma ends_abort {A} w g s : good (geom s) -> same_buffer g (geom s) -> ends g (Abort w : outcome A, s).
Proof. done. Qed.

Lemma ends_same {A} g g' (r : outcome A * st) : same_buffer g g' -> ends g' r -> ends g r.
Proof. intros [] (?&[]&?). split_and!; [done|split; congruence|done]. Qed.

Lemma at_assert {B} b (f : unit -> M B) g s :
  good (geom s) -> same_buffer g (geom s) -> inv_at (f tt) g s -> inv_at (mbind f (assert_ b)) g s.
Proof. intros Hg Hb H. destruct b; [done|by apply ends_abort]. Qed.

Lemma at_fatal_if {B} b (f : unit -> M B) g s :
  good (geom s) -> same_buffer g (geom s) -> inv_at (f tt) g s -> inv_at (mbind f (fatal_if b)) g s.
Proof. intros Hg Hb H. destruct b; [by apply ends_abort|done]. Qed.

Lemma at_assoc {A B C} (c : M A) (f : A -> M B) (h : B -> M C) g s :
  inv_at (mbind (fun a => mbind h (f a)) c) g s -> inv_at (mbind h (mbind f c)) g s.
Proof. unfold inv_at. by rewrite bind_assoc. Qed.

(** What follows the publication. *)
Lemma at_commit_tail (rec : Z) (bp : option Z) (ret : Z) (g : geometry) (s : st) :
  good (geom s) -> same_buffer g (geom s) ->
  inv_at (desched ← load_m 1 (rec + REC_desched);
          (if nz desched then disarm_desched_event else mret tt);;
          modify_hdr unlock_tracee;;
          (match bp with Some f => modify (add_event (EvBreakpoint f)) | None => mret tt end);;
          mret ret) g s.
Proof.
  intros Hg [Hb1 Hb2]. apply at_gets.
  eapply ends_same; [by split|].
  apply (disarm_unlock_inv _ (fun _ => (match bp with Some f => modify (add_event (EvBreakpoint f))
    | None => mret tt end);; mret ret) (geom s)); [done| |done].
  intros s1 _. by destruct bp.
Qed.

(** Publishing a record that fits keeps the buffer well formed, and releases
    the lock. *)
Lemma inv_commit no e ret g : good g -> fits g e -> inv (commit_raw_syscall no e ret) g.
Proof.
  intros Hg He s <-. unfold commit_raw_syscall. cbv zeta. apply at_gets. set (rec := buffer_last s).
  apply at_assert; [done..|]. apply at_modify. apply at_gets. apply at_assert; [done..|].
  apply at_modify. apply at_gets. apply at_fatal_if; [done..|]. apply at_gets.
  cbn [abort_commit set_hdr hdr set_desched_signal_may_be_relevant set_memory].
  destruct (nz (abort_commit (hdr s))).
  - apply at_assoc, at_modify, at_assoc, at_modify, at_commit_tail; done.
  - apply at_assoc, at_modify, at_assoc, at_gets, at_assoc, at_modify, at_assoc, at_gets, at_commit_tail; [|done].
    destruct (fits_size _ _ Hg He) as (H1&H2&H3).
    match goal with |- good ?x => replace x with (published (geom s) e); [by apply good_published|] end.
    apply (f_equal (fun n => mkGeom (buffer (tl s)) (buffer_size (tl s)) n (nz (in_replay (gl s)))
      (Z.testbit (locked (hdr s)) 0))).
    symmetry. etransitivity; [|exact H3]. apply (f_equal (fun x => u32 (num_rec_bytes (hdr s) + x))).
    exact (commit_publish_geom e ret s Hg He _ eq_refl).
Qed.


Lemma inv_untraced_base_bind {A} sysno a e (f : Z -> M A) g :
  good g -> is_untraced e = true -> rr_page_has_syscall false e = true ->
  (forall ret, returned sysno a ret -> inv (f ret) g) ->
  inv (mbind f (untraced_syscall_base sysno a e)) g.
Proof.
  intros Hg He Hp Hf s Hs. pose proof (keeps_untraced_base sysno a e He s) as Hk. rewrite Hs in Hk.
  rewrite bind_eq. destruct (untraced_syscall_base sysno a e s) as [[ret|w] s1] eqn:Hr;
    [|cbn [snd] in Hk; subst g; by apply ends_abort; rewrite Hk].
  apply Hf; [|done]. unfold untraced_syscall_base in Hr.
  rewrite bind_eq in Hr. cbn [gets] in Hr. rewrite bind_eq in Hr. cbn [modify_tl modify] in Hr.
  rewrite bind_eq in Hr. set (s2 := set_tl _ s) in Hr.
  assert (replaying s2 = false) as Hrec by (destruct Hg; by subst g).
  unfold raw_syscall in Hr. cbv zeta in Hr.
  change (replaying (add_event (EvSyscall e sysno (pad8 a)) s2)) with (replaying s2) in Hr.
  rewrite Hrec, Hp in Hr. set (s3 := add_event _ s2) in Hr. rewrite bind_eq in Hr. cbn [gets] in Hr.
  pose proof (fun i => count_bound e sysno (pad8 a) s3 i He) as Hb.
  pose proof (error_range e sysno (pad8 a) s3 He) as Hb'.
  pose proof (f_equal g_replay (untraced_geom e sysno (pad8 a) s3 He)) as Hg3. cbn in Hg3.
  unfold replaying at 1 in Hr. cbn [gl] in Hr. rewrite Hg3 in Hr.
  change (nz (in_replay (gl s))) with (replaying s2) in Hr. rewrite Hrec in Hr.
  rewrite bind_eq in Hr. cbn [gets load_m mret M_ret] in Hr. injection Hr as <- _. by split.
Qed.

Lemma inv_untraced_bind {A} sysno a (f : Z -> M A) g :
  good g ->
  (forall ret, returned sysno a ret -> inv (f ret) g) ->
  inv (mbind f (untraced_syscall sysno a)) g.
Proof. intros. by apply inv_untraced_base_bind. Qed.

(** The three ends [copy_output_buffer] may choose. *)
Lemma inv_copy_output_bind {A} n ptr buf buf2 (f : Z -> M A) g :
  good g ->
  (buf2 = 0 -> inv (f ptr) g) -> (buf2 <> 0 -> inv (f buf2) g) ->
  (buf2 <> 0 -> 0 < s32 n -> inv (f (padd buf2 (s32 n))) g) ->
  inv (mbind f (copy_output_buffer n ptr buf buf2)) g.
Proof.
  intros Hg H1 H2 H3 s Hs. unfold copy_output_buffer. cbv zeta.
  destruct (Z.eqb_spec buf2 0) as [E0|Hb]; [by apply H1|].
  rewrite bind_assoc, bind_eq. cbn [gets].
  destruct (Z.leb_spec (s32 n) 0); cbn [orb]; [by apply H2|].
  destruct (nz _); [by apply H2|]. rewrite bind_assoc. by apply H3.
Qed.

End Rules.

#[export] Hint Resolve keeps_privileged_untraced keeps_replay_only keeps_arm keeps_disarm
  keeps_arm_for_may_block : keeps.
#[export] Hint Extern 1 (keeps (untraced_syscall _ _)) => apply keeps_untraced_base; reflexivity : keeps.
#[export] Hint Extern 1 (keeps (untraced_replayed_syscall _ _)) => apply keeps_untraced_base; reflexivity : keeps.
