(* ===== verification/WrapperInv.v ===== *)
(** * Every wrapper keeps the buffer well formed

    The invariant of [BufferInv] for the system call wrappers: after a wrapper
    returns, the lock is released, the records fill a whole number of words and
    end inside the buffer with room for another record header. *)

From stdpp Require Import base tactics list numbers.
From S2P Require Import Prelude Memory KernelAbi CStrings PreloadInterface Machine SyscallNumbers Syscallbuf Wrappers BufferInv.
Local Open Scope Z_scope.

(** The registers whose value a wrapper adds to a pointer. *)
Definition length_args (sysno : Z) : list nat :=
  if existsb (Z.eqb sysno)
       [SYS_read; SYS_pread64; SYS_flistxattr; SYS_listxattr; SYS_llistxattr; SYS_recvfrom]
  then [2%nat]
  else if existsb (Z.eqb sysno) [SYS_fgetxattr; SYS_getxattr; SYS_lgetxattr] then [3%nat]
  else [].

(** Buffer lengths that are not themselves the size of the address space: below
    the address of the syscall buffer, with 8 gigabytes to spare. *)
Definition lengths_ok (g : geometry) (call : syscall_info) : Prop :=
  forall i, i ∈ length_args (no call) -> u64 (arg call i) + 2 ^ 33 <= g_buffer g.

Lemma good_lock g : good g -> good (lock g).
Proof. by intros []. Qed.

Lemma good_unlock g : good g -> good (unlock g).
Proof. by intros []. Qed.

Lemma closed_good g : closed g -> good g.
Proof. by intros []. Qed.

Lemma closed_unlock g : good g -> closed (unlock g).
Proof. intros. split; [by apply good_unlock|done]. Qed.

#[export] Hint Resolve good_lock good_unlock closed_good closed_unlock : keeps.

Section WrapperInv.
Context {E : Env} {K : KernelContract E}.

(** Facts the arithmetic side conditions use. *)
Lemma closed_facts g : closed g ->
  2 ^ 33 <= g_buffer g < 2 ^ 62 /\ g_buffer g <= g_last g < 2 ^ 62.
Proof.
  intros [[] _]. unfold g_last, g_end, SIZEOF_HDR, SIZEOF_REC in *. lia.
Qed.

Ltac consts := unfold SIZEOF_REC, SIZEOF_timespec, SIZEOF_timeval, SIZEOF_timezone,
  SIZEOF_f_owner_ex, SIZEOF_flock64, SIZEOF_pollfd, SIZEOF_epoll_event, SIZEOF_uint32,
  SIZEOF_stat64, SIZEOF_statfs, SIZEOF_dqblk, SIZEOF_rusage, SIZEOF_sigset, SIZEOF_long in *.

(** Reduce every [padd] of the goal to an addition that does not wrap. *)
Ltac unpadd :=
  repeat match goal with
    | |- context [padd ?x ?y] =>
        replace (padd x y) with (x + y) by (symmetry; apply wrapu_small; lia)
    end.

Ltac arith :=
  change (g_last (lock ?g)) with (g_last g);
  consts; pose_wrap_bounds; repeat case_match; unpadd; lia.

Ltac inv_step :=
  cbv beta; cbn [negb];
  lazymatch goal with
  | |- inv (mbind _ prep_syscall) _ => apply inv_prep_bind; [auto with keeps|]
  | |- inv (mbind _ (prep_syscall_for_fd _)) _ => apply inv_prep_fd_bind; [auto with keeps| |]
  | |- inv (mbind _ (start_commit_buffered_syscall _ _ _)) (lock _) =>
      apply inv_start_locked; [auto with keeps| |intros ?|]
  | |- inv (mbind _ (start_commit_buffered_syscall _ _ _)) _ =>
      apply inv_start_unlocked; [assumption| |]
  | |- inv (mbind _ (untraced_syscall _ _)) _ =>
      apply inv_untraced_bind; [auto with keeps|intros ret Hret]
  | |- inv (mbind _ (copy_output_buffer _ _ _ _)) _ =>
      apply inv_copy_output_bind; [auto with keeps|intros ?|intros ?|intros ? ?]
  | |- inv (commit_raw_syscall _ _ _) _ => apply inv_commit; [auto with keeps|]
  | |- inv (traced_raw_syscall _) _ => apply inv_traced; auto with keeps
  | |- inv (if _ then _ else _) _ => apply inv_if; intros ?; try discriminate
  | |- inv (mret _) _ => apply inv_ret; auto with keeps
  | |- inv (mbind _ _) _ =>
      first
        [ apply inv_keep_bind; [auto with keeps|solve [auto 20 with keeps]|intros ?]
        | apply inv_bind; [|let Hc := fresh in intros ? ? Hc ?; pose proof (closed_facts _ Hc)] ]
  end.

Ltac side :=
  lazymatch goal with
  | |- fits _ _ => eapply fits_reserved; [eassumption|arith]
  | |- _ <= _ => arith
  | |- _ <= _ < _ => arith
  end.

Ltac solve_inv := repeat inv_step; side.

Lemma inv_generic_nonblocking call g : closed g -> inv (sys_generic_nonblocking call) g.
Proof.
  intros Hg. pose proof (closed_facts g Hg). unfold sys_generic_nonblocking. solve_inv.
Qed.

Lemma inv_generic_nonblocking_fd call g : closed g -> inv (sys_generic_nonblocking_fd call) g.
Proof.
  intros Hg. pose proof (closed_facts g Hg). unfold sys_generic_nonblocking_fd. cbv zeta. solve_inv.
Qed.

Lemma inv_clock_gettime call g : closed g -> inv (sys_clock_gettime call) g.
Proof.
  intros Hg. pose proof (closed_facts g Hg). unfold sys_clock_gettime. cbv zeta. solve_inv.
Qed.

Lemma inv_fcntl64_no_outparams call g : closed g -> inv (sys_fcntl64_no_outparams call) g.
Proof.
  intros Hg. pose proof (closed_facts g Hg). unfold sys_fcntl64_no_outparams. cbv zeta. solve_inv.
Qed.

Lemma inv_fcntl64_own_ex call g : closed g -> inv (sys_fcntl64_own_ex call) g.
Proof.
  intros Hg. pose proof (closed_facts g Hg). unfold sys_fcntl64_own_ex. cbv zeta. solve_inv.
Qed.

Lemma inv_fcntl64_setlk64 call g : closed g -> inv (sys_fcntl64_setlk64 call) g.
Proof.
  intros Hg. pose proof (closed_facts g Hg). unfold sys_fcntl64_setlk64. cbv zeta. solve_inv.
Qed.

Lemma inv_fcntl64_setlkw64 call g : closed g -> inv (sys_fcntl64_setlkw64 call) g.
Proof.
  intros Hg. pose proof (closed_facts g Hg). unfold sys_fcntl64_setlkw64. cbv zeta. solve_inv.
Qed.

Lemma inv_safe_nonblocking_ioctl call g : closed g -> inv (sys_safe_nonblocking_ioctl call) g.
Proof.
  intros Hg. pose proof (closed_facts g Hg). unfold sys_safe_nonblocking_ioctl. cbv zeta. solve_inv.
Qed.

Lemma inv_gettimeofday call g : closed g -> inv (sys_gettimeofday call) g.
Proof.
  intros Hg. pose proof (closed_facts g Hg). unfold sys_gettimeofday. cbv zeta. solve_inv.
Qed.

Lemma inv_open call g : closed g -> inv (sys_open call) g.
Proof.
  intros Hg. pose proof (closed_facts g Hg). unfold sys_open. cbv zeta. solve_inv.
Qed.

Lemma inv_poll call g : closed g -> inv (sys_poll call) g.
Proof.
  intros Hg. pose proof (closed_facts g Hg). unfold sys_poll. cbv zeta. solve_inv.
Qed.

Lemma inv_sendmsg call g : closed g -> inv (sys_sendmsg call) g.
Proof.
  intros Hg. pose proof (closed_facts g Hg). unfold sys_sendmsg. cbv zeta. solve_inv.
Qed.

Lemma inv_sendto call g : closed g -> inv (sys_sendto call) g.
Proof.
  intros Hg. pose proof (closed_facts g Hg). unfold sys_sendto. cbv zeta. solve_inv.
Qed.

Lemma inv_setsockopt call g : closed g -> inv (sys_setsockopt call) g.
Proof.
  intros Hg. pose proof (closed_facts g Hg). unfold sys_setsockopt. cbv zeta. solve_inv.
Qed.

Lemma inv_socketpair call g : closed g -> inv (sys_socketpair call) g.
Proof.
  intros Hg. pose proof (closed_facts g Hg). unfold sys_socketpair. cbv zeta. solve_inv.
Qed.

Lemma inv_time call g : closed g -> inv (sys_time call) g.
Proof.
  intros Hg. pose proof (closed_facts g Hg). unfold sys_time. cbv zeta. solve_inv.
Qed.

Lemma inv_xstat64 call g : closed g -> inv (sys_xstat64 call) g.
Proof.
  intros Hg. pose proof (closed_facts g Hg). unfold sys_xstat64. cbv zeta. solve_inv.
Qed.

Lemma inv_quotactl call g : closed g -> inv (sys_quotactl call) g.
Proof.
  intros Hg. pose proof (closed_facts g Hg). unfold sys_quotactl. cbv zeta. solve_inv.
Qed.

Lemma inv_statfs call g : closed g -> inv (sys_statfs call) g.
Proof.
  intros Hg. pose proof (closed_facts g Hg). unfold sys_statfs. cbv zeta. solve_inv.
Qed.

Lemma inv_write call g : closed g -> inv (sys_write call) g.
Proof.
  intros Hg. pose proof (closed_facts g Hg). unfold sys_write. cbv zeta. solve_inv.
Qed.

Lemma inv_pwrite64 call g : closed g -> inv (sys_pwrite64 call) g.
Proof.
  intros Hg. pose proof (closed_facts g Hg). unfold sys_pwrite64. cbv zeta. solve_inv.
Qed.

Lemma inv_writev call g : closed g -> inv (sys_writev call) g.
Proof.
  intros Hg. pose proof (closed_facts g Hg). unfold sys_writev. cbv zeta. solve_inv.
Qed.

Lemma inv_ptrace call g : closed g -> inv (sys_ptrace call) g.
Proof.
  intros Hg. pose proof (closed_facts g Hg). unfold sys_ptrace. cbv zeta. solve_inv.
Qed.

Lemma inv_getrusage call g : closed g -> inv (sys_getrusage call) g.
Proof.
  intros Hg. pose proof (closed_facts g Hg). unfold sys_getrusage. cbv zeta. solve_inv.
Qed.

Lemma inv_rt_sigprocmask call g : closed g -> inv (sys_rt_sigprocmask call) g.
Proof.
  intros Hg. pose proof (closed_facts g Hg). unfold sys_rt_sigprocmask. cbv zeta. solve_inv.
Qed.

Lemma inv_openat call g : closed g -> inv (sys_openat call) g.
Proof.
  intros Hg. pose proof (closed_facts g Hg). unfold sys_openat. cbv zeta. solve_inv.
Qed.

Lemma inv_madvise call g : closed g -> inv (sys_madvise call) g.
Proof.
  intros Hg. pose proof (closed_facts g Hg). unfold sys_madvise. cbv zeta.
  destruct (madvise_advice _); solve_inv.
Qed.

Lemma inv_futex call g : closed g -> inv (sys_futex call) g.
Proof.
  intros Hg. pose proof (closed_facts g Hg). unfold sys_futex. cbv zeta.
  do 2 inv_step; [by inv_step|]. destruct (futex_flags _) as [[]|]; solve_inv.
Qed.

Lemma inv_mprotect call g : closed g -> inv (sys_mprotect call) g.
Proof.
  intros Hg. pose proof (closed_facts g Hg). unfold sys_mprotect. cbv zeta. solve_inv.
Qed.

(** The end of a record whose output has [n] of at most [count] bytes. *)
Lemma fits_counted g base count n :
  0 <= g_last g -> reserved g (padd base count) ->
  g_last g + SIZEOF_REC <= base < 2 ^ 62 + 2 ^ 40 ->
  0 <= count < 2 ^ 62 -> 0 < s32 n -> - 2 ^ 31 <= n <= count -> fits g (padd base (s32 n)).
Proof.
  intros H0 Hres Hb Hc Hn Hle. pose proof (wraps_range 32 n ltac:(lia)).
  assert (s32 n <= n).
  { destruct (Z.lt_ge_cases n 0); [rewrite wraps_small; lia|apply wraps_le; lia]. }
  eapply fits_reserved; [eassumption|]. consts. unpadd. lia.
Qed.

Lemma returned_count sysno a n c ret :
  count_arg sysno = Some n -> returns_size sysno = true -> nth n (pad8 a) 0 = u64 c ->
  0 <= c < 2 ^ 63 -> returned sysno a ret -> -4095 <= ret <= c.
Proof.
  intros Hn Hs Hc Hr [H1 H2]. specialize (H1 n Hn). specialize (H2 Hs).
  rewrite Hc, wraps_wrapu, wraps_small in H1 by lia. lia.
Qed.

(** [counted b] runs the rules for a wrapper whose output buffer is used when
    [b] holds; the end of a short output is left. *)
Ltac counted b :=
  let Hb := fresh "Hb" in
  destruct b eqn:Hb; zbool; repeat inv_step; try side.

Ltac finish_counted :=
  eapply fits_counted; try eassumption; change (g_last (lock ?g)) with (g_last g); consts; unpadd; lia.

Lemma inv_readlink call g : closed g -> inv (sys_readlink call) g.
Proof.
  intros Hg. pose proof (closed_facts g Hg). unfold sys_readlink. cbv zeta.
  pose proof (wraps_range 32 (arg call 2) ltac:(lia)).
  counted (nz (u64 (arg call 1)) && (0 <? s32 (arg call 2))).
  apply (returned_count _ _ 2 (s32 (arg call 2))) in Hret; try done; [|lia].
  finish_counted.
Qed.

Lemma inv_generic_getdents call g :
  no call = SYS_getdents \/ no call = SYS_getdents64 -> closed g -> inv (sys_generic_getdents call) g.
Proof.
  intros Hno Hg. pose proof (closed_facts g Hg). unfold sys_generic_getdents. cbv zeta.
  pose proof (wrapu_range 32 (arg call 2) ltac:(lia)).
  counted (nz (u64 (arg call 1)) && (0 <? u32 (arg call 2))).
  apply (returned_count _ _ 2 (u32 (arg call 2))) in Hret;
    [|by destruct Hno as [->| ->]|by destruct Hno as [->| ->]|done|lia].
  finish_counted.
Qed.

Lemma inv_epoll_wait call g : closed g -> inv (sys_epoll_wait call) g.
Proof.
  intros Hg. pose proof (closed_facts g Hg). unfold sys_epoll_wait. cbv zeta.
  pose proof (wraps_range 32 (arg call 2) ltac:(lia)).
  counted (nz (u64 (arg call 1)) && (0 <? s32 (arg call 2))).
  apply (returned_count _ _ 2 (s32 (arg call 2))) in Hret; try done; [|lia].
  finish_counted.
Qed.

(** The bound [lengths_ok] gives for one of the registers it names. *)
Lemma lengths_ok_at g call i :
  i ∈ length_args (no call) -> lengths_ok g call -> 0 <= u64 (arg call i) <= g_buffer g - 2 ^ 33.
Proof. intros Hi Hl. specialize (Hl i Hi). pose proof (wrapu_range 64 (arg call i) ltac:(lia)). lia. Qed.

Lemma u64_arg call i : u64 (u64 (arg call i)) = u64 (arg call i).
Proof. apply wrapu_idemp. lia. Qed.

Lemma inv_pread64 call g :
  no call = SYS_pread64 -> lengths_ok g call -> closed g -> inv (sys_pread64 call) g.
Proof.
  intros Hno Hl Hg. pose proof (closed_facts g Hg). unfold sys_pread64. cbv zeta.
  apply (lengths_ok_at _ _ 2) in Hl; [|rewrite Hno; by left].
  counted (nz (u64 (arg call 1)) && (0 <? u64 (arg call 2))).
  apply (returned_count _ _ 2 (u64 (arg call 2))) in Hret; try done; [|lia].
  finish_counted.
Qed.

(** The number of bytes of an attribute that are copied. *)
Lemma xattr_count sysno a ret size :
  returns_size sysno = true -> returned sysno a ret -> 0 <= size < 2 ^ 62 ->
  - 2 ^ 31 <= (if s64 size <? ret then s64 size else ret) <= size.
Proof.
  intros Hs [_ H] Hr. specialize (H Hs). rewrite wraps_small by lia.
  destruct (Z.ltb_spec size ret); lia.
Qed.

Lemma inv_flistxattr call g :
  no call = SYS_flistxattr -> lengths_ok g call -> closed g -> inv (sys_flistxattr call) g.
Proof.
  intros Hno Hl Hg. pose proof (closed_facts g Hg). unfold sys_flistxattr. cbv zeta.
  apply (lengths_ok_at _ _ 2) in Hl; [|rewrite Hno; by left].
  counted (nz (u64 (arg call 1)) && (0 <? u64 (arg call 2))).
  pose proof (xattr_count SYS_flistxattr _ _ (u64 (arg call 2)) eq_refl Hret ltac:(lia)). finish_counted.
Qed.

Lemma inv_generic_getxattr call g :
  no call = SYS_getxattr \/ no call = SYS_lgetxattr -> lengths_ok g call -> closed g ->
  inv (sys_generic_getxattr call) g.
Proof.
  intros Hno Hl Hg. pose proof (closed_facts g Hg). unfold sys_generic_getxattr. cbv zeta.
  apply (lengths_ok_at _ _ 3) in Hl; [|destruct Hno as [->| ->]; by left].
  assert (returns_size (no call) = true) as Hrs by (by destruct Hno as [->| ->]).
  counted (nz (u64 (arg call 2)) && (0 <? u64 (arg call 3))).
  pose proof (xattr_count _ _ _ (u64 (arg call 3)) Hrs Hret ltac:(lia)). finish_counted.
Qed.

Lemma inv_fgetxattr call g :
  no call = SYS_fgetxattr -> lengths_ok g call -> closed g -> inv (sys_fgetxattr call) g.
Proof.
  intros Hno Hl Hg. pose proof (closed_facts g Hg). unfold sys_fgetxattr. cbv zeta.
  apply (lengths_ok_at _ _ 3) in Hl; [|rewrite Hno; by left].
  assert (returns_size (no call) = true) as Hrs by (by rewrite Hno).
  counted (nz (u64 (arg call 2)) && (0 <? u64 (arg call 3))).
  pose proof (xattr_count _ _ _ (u64 (arg call 3)) Hrs Hret ltac:(lia)). finish_counted.
Qed.

Lemma inv_generic_listxattr call g :
  no call = SYS_listxattr \/ no call = SYS_llistxattr -> lengths_ok g call -> closed g ->
  inv (sys_generic_listxattr call) g.
Proof.
  intros Hno Hl Hg. pose proof (closed_facts g Hg). unfold sys_generic_listxattr. cbv zeta.
  apply (lengths_ok_at _ _ 2) in Hl; [|destruct Hno as [->| ->]; by left].
  assert (returns_size (no call) = true) as Hrs by (by destruct Hno as [->| ->]).
  counted (nz (u64 (arg call 1)) && (0 <? u64 (arg call 2))).
  pose proof (xattr_count _ _ _ (u64 (arg call 2)) Hrs Hret ltac:(lia)). finish_counted.
Qed.

(** A loaded scalar is bounded by its width. *)
Lemma inv_load_bind {A} n a (f : Z -> M A) g :
  (forall v, 0 <= v < 2 ^ (8 * Z.of_nat n) -> inv (f v) g) -> inv (mbind f (load_m n a)) g.
Proof. intros Hf s Hs. rewrite bind_eq. cbn [load_m gets]. apply Hf; [apply load_range|done]. Qed.

Lemma inv_addrlen_bind {A} (b : bool) a (f : Z -> M A) g :
  (forall v, 0 <= v < 2 ^ 32 -> inv (f v) g) ->
  inv (mbind f (if b then load_m 4 a else mret 0)) g.
Proof. intros Hf. destruct b; [by apply inv_load_bind|]. intros s Hs. apply Hf; [lia|done]. Qed.

Lemma inv_recvfrom call g :
  no call = SYS_recvfrom -> lengths_ok g call -> closed g -> inv (sys_recvfrom call) g.
Proof.
  intros Hno Hl Hg. pose proof (closed_facts g Hg). unfold sys_recvfrom. cbv zeta.
  apply (lengths_ok_at _ _ 2) in Hl; [|rewrite Hno; by left].
  inv_step. inv_step; [inv_step|].
  inv_step; inv_step; inv_step; apply inv_addrlen_bind; intros v Hv.
  - counted (nz (u64 (arg call 1)) && (0 <? u64 (arg call 2))).
    apply (returned_count _ _ 2 (u64 (arg call 2))) in Hret; try done; [|lia].
    destruct (nz (u64 (arg call 4))), (nz (u64 (arg call 5))); finish_counted.
  - counted (nz (u64 (arg call 1)) && (0 <? u64 (arg call 2))).
Qed.

(** The slow path of [sys_read]. *)
Lemma inv_read_slow call g :
  no call = SYS_read -> lengths_ok g call -> closed g ->
  inv (ptr ← prep_syscall_for_fd (s32 (arg call 0));
       assert_ (SYS_read =? no call);;
       ok ← start_commit_buffered_syscall SYS_read
              (if nz (u64 (arg call 1)) && (0 <? u64 (arg call 2))
               then padd ptr (u64 (arg call 2)) else ptr) MAY_BLOCK;
       if negb (ok : bool) then traced_raw_syscall call
       else
         ret ← untraced_syscall SYS_read
                 [s32 (arg call 0);
                  if nz (u64 (arg call 1)) && (0 <? u64 (arg call 2)) then ptr else 0;
                  u64 (arg call 2)];
         ptr ← copy_output_buffer ret
                 (if nz (u64 (arg call 1)) && (0 <? u64 (arg call 2))
                  then padd ptr (u64 (arg call 2)) else ptr)
                 (u64 (arg call 1))
                 (if nz (u64 (arg call 1)) && (0 <? u64 (arg call 2)) then ptr else 0);
         commit_raw_syscall SYS_read ptr ret) g.
Proof.
  intros Hno Hl Hg. pose proof (closed_facts g Hg).
  apply (lengths_ok_at _ _ 2) in Hl; [|rewrite Hno; by left].
  counted (nz (u64 (arg call 1)) && (0 <? u64 (arg call 2))).
  apply (returned_count _ _ 2 (u64 (arg call 2))) in Hret; try done; [|lia].
  finish_counted.
Qed.

Lemma inv_read_cloned fd buf count g : closed g -> inv (sys_read_cloned fd buf count) g.
Proof.
  intros Hg. unfold sys_read_cloned. cbv zeta.
  apply inv_bind; [by apply inv_generic_nonblocking_fd|]. intros lseek_ret g1 Hg1 _.
  pose proof (closed_facts g1 Hg1). solve_inv.
Qed.

Lemma inv_read call g :
  no call = SYS_read -> lengths_ok g call -> closed g -> inv (sys_read call) g.
Proof.
  intros Hno Hl Hg. unfold sys_read. cbv zeta.
  inv_step. inv_step; [inv_step|]. do 2 inv_step.
  apply inv_bind; [apply inv_if; intros _; [by apply inv_read_cloned|by apply inv_ret]|].
  intros [r|] g' Hg' [Hb _]; [by apply inv_ret|]. apply inv_read_slow; [done| |done].
  unfold lengths_ok. by rewrite Hb.
Qed.

Lemma inv_fcntl call g : closed g -> inv (sys_fcntl call) g.
Proof.
  intros Hg. unfold sys_fcntl. cbv zeta.
  repeat (apply inv_if; intros _);
    auto using inv_fcntl64_no_outparams, inv_fcntl64_own_ex, inv_fcntl64_setlk64,
      inv_fcntl64_setlkw64, inv_traced.
Qed.

Lemma inv_ioctl call g : closed g -> inv (sys_ioctl call) g.
Proof.
  intros Hg. unfold sys_ioctl. apply inv_if; intros _;
    auto using inv_safe_nonblocking_ioctl, inv_traced.
Qed.

Lemma inv_creat call g : closed g -> inv (sys_creat call) g.
Proof. intros Hg. by apply inv_open. Qed.

End WrapperInv.
