(* ===== verification/HookInv.v ===== *)
(** * [syscall_hook] keeps the buffer well formed

    The invariant of [BufferInv] for the dispatch and the entry point, and what
    the entry point does when it is entered again inside a transaction. *)

From stdpp Require Import base tactics list numbers.
From S2P Require Import Prelude Memory KernelAbi CStrings PreloadInterface Machine SyscallNumbers Syscallbuf Wrappers Hook BufferInv WrapperInv.
Local Open Scope Z_scope.

Section HookInv.
Context {E : Env} {K : KernelContract E}.

(** What an entry of the dispatch table promises. *)
Definition entry_ok (p : Z * (syscall_info -> M Z)) : Prop :=
  forall call g, no call = fst p -> no call <> SYS_recvmsg -> lengths_ok g call -> closed g ->
    inv (snd p call) g.

Lemma entries_ok l w :
  (forall call g, no call ∈ l -> lengths_ok g call -> closed g -> inv (w call) g) ->
  Forall entry_ok (map (fun n => (n, w)) l).
Proof.
  intros Hw. induction l as [|n l IH]; cbn [map]; [apply List.Forall_nil|].
  apply List.Forall_cons; [|apply IH; intros; apply Hw; [by right|done..]].
  intros call g Hno Hne Hl Hg. cbn [fst snd] in *. apply Hw; [rewrite Hno; by left|done..].
Qed.

Tactic Notation "entry" uconstr(t) := apply List.Forall_cons; [refine t|].

Lemma CASES_ok : Forall entry_ok CASES.
Proof.
  unfold CASES.
  entry (fun call g Hno Hne Hl Hg => inv_clock_gettime call g Hg).
  entry (fun call g Hno Hne Hl Hg => inv_creat call g Hg).
  entry (fun call g Hno Hne Hl Hg => inv_epoll_wait call g Hg).
  entry (fun call g Hno Hne Hl Hg => inv_fcntl call g Hg).
  entry (fun call g Hno Hne Hl Hg => inv_fgetxattr call g Hno Hl Hg).
  entry (fun call g Hno Hne Hl Hg => inv_flistxattr call g Hno Hl Hg).
  entry (fun call g Hno Hne Hl Hg => inv_futex call g Hg).
  entry (fun call g Hno Hne Hl Hg => inv_generic_getdents call g (or_introl Hno) Hg).
  entry (fun call g Hno Hne Hl Hg => inv_generic_getdents call g (or_intror Hno) Hg).
  entry (fun call g Hno Hne Hl Hg => inv_getrusage call g Hg).
  entry (fun call g Hno Hne Hl Hg => inv_gettimeofday call g Hg).
  entry (fun call g Hno Hne Hl Hg => inv_generic_getxattr call g (or_introl Hno) Hl Hg).
  entry (fun call g Hno Hne Hl Hg => inv_ioctl call g Hg).
  entry (fun call g Hno Hne Hl Hg => inv_generic_getxattr call g (or_intror Hno) Hl Hg).
  entry (fun call g Hno Hne Hl Hg => inv_generic_listxattr call g (or_introl Hno) Hl Hg).
  entry (fun call g Hno Hne Hl Hg => inv_generic_listxattr call g (or_intror Hno) Hl Hg).
  entry (fun call g Hno Hne Hl Hg => inv_madvise call g Hg).
  entry (fun call g Hno Hne Hl Hg => inv_mprotect call g Hg).
  entry (fun call g Hno Hne Hl Hg => inv_open call g Hg).
  entry (fun call g Hno Hne Hl Hg => inv_openat call g Hg).
  entry (fun call g Hno Hne Hl Hg => inv_poll call g Hg).
  entry (fun call g Hno Hne Hl Hg => inv_pread64 call g Hno Hl Hg).
  entry (fun call g Hno Hne Hl Hg => inv_pwrite64 call g Hg).
  entry (fun call g Hno Hne Hl Hg => inv_ptrace call g Hg).
  entry (fun call g Hno Hne Hl Hg => inv_quotactl call g Hg).
  entry (fun call g Hno Hne Hl Hg => inv_read call g Hno Hl Hg).
  entry (fun call g Hno Hne Hl Hg => inv_readlink call g Hg).
  entry (fun call g Hno Hne Hl Hg => inv_recvfrom call g Hno Hl Hg).
  entry (fun call g Hno Hne Hl Hg => False_ind _ (Hne Hno)).
  entry (fun call g Hno Hne Hl Hg => inv_rt_sigprocmask call g Hg).
  entry (fun call g Hno Hne Hl Hg => inv_sendmsg call g Hg).
  entry (fun call g Hno Hne Hl Hg => inv_sendto call g Hg).
  entry (fun call g Hno Hne Hl Hg => inv_setsockopt call g Hg).
  entry (fun call g Hno Hne Hl Hg => inv_socketpair call g Hg).
  entry (fun call g Hno Hne Hl Hg => inv_time call g Hg).
  entry (fun call g Hno Hne Hl Hg => inv_write call g Hg).
  entry (fun call g Hno Hne Hl Hg => inv_writev call g Hg).
  apply List.Forall_nil.
Qed.

Lemma wrapper_table_ok : Forall entry_ok wrapper_table.
Proof.
  unfold wrapper_table. apply Forall_app_2; [|apply Forall_app_2; [|apply Forall_app_2;
    [apply CASES_ok|apply Forall_app_2]]]; apply entries_ok; intros call g _ Hl Hg.
  - by apply inv_generic_nonblocking.
  - by apply inv_generic_nonblocking_fd.
  - by apply inv_xstat64.
  - by apply inv_statfs.
Qed.

Lemma inv_dispatch table call g :
  Forall entry_ok table -> no call <> SYS_recvmsg -> lengths_ok g call -> closed g ->
  inv (dispatch table call) g.
Proof.
  intros Ht Hne Hl Hg. induction Ht as [|[n w] table Hw Ht IH]; cbn [dispatch].
  - by apply inv_traced.
  - destruct (Z.eqb_spec (no call) n); [by apply Hw|done].
Qed.

Lemma inv_syscall_hook_internal call g :
  no call <> SYS_recvmsg -> lengths_ok g call -> closed g -> inv (syscall_hook_internal call) g.
Proof. apply inv_dispatch, wrapper_table_ok. Qed.

Lemma keeps_modify_sv f : keeps (modify_sv f).
Proof. by apply keeps_modify. Qed.

Lemma inv_privileged_traced sysno a g : closed g -> inv (privileged_traced_syscall sysno a) g.
Proof.
  intros Hg. unfold privileged_traced_syscall.
  apply inv_bind; [by apply inv_raw_traced|]. intros r g' Hg' _. by apply inv_ret.
Qed.

(** [init_thread] of a thread that has been initialised does nothing. *)
Lemma init_thread_again s :
  nz (process_inited (sv s)) = true -> nz (thread_inited (tl s)) = true ->
  init_thread s = (Ret tt, s).
Proof.
  intros Hp Ht. unfold init_thread. rewrite bind_eq. cbn [gets]. rewrite Hp, bind_eq.
  cbn [assert_ mret M_ret]. rewrite bind_eq. cbn [gets]. by rewrite Ht.
Qed.

Lemma inv_hook_unlocked call_ptr call g :
  no call <> SYS_recvmsg -> lengths_ok g call -> closed g -> inv (hook_unlocked call_ptr call) g.
Proof.
  intros Hne Hl Hg. pose proof (closed_good g Hg) as Hgd. unfold hook_unlocked.
  apply inv_keep_bind; [done|auto with keeps|intros _].
  apply inv_keep_bind; [done|auto with keeps|intros delay].
  apply inv_keep_bind; [done|destruct (nz delay); [apply keeps_modify_sv|done]|intros _].
  apply inv_bind; [by apply inv_syscall_hook_internal|]. intros result g1 Hg1 _.
  do 2 (apply inv_keep_bind; [by apply closed_good|done|intros ?]).
  apply inv_bind; [destruct (_ && _); [by apply inv_raw_traced|by apply inv_ret]|].
  intros result' g2 Hg2 _. apply inv_keep_bind; [by apply closed_good|done|intros msg].
  apply inv_bind.
  - destruct (nz msg); [|by apply inv_ret].
    apply inv_bind; [by apply inv_privileged_traced|]. intros _ g3 [Hg3 Hl3] _ s Hs.
    split; [by rewrite <- Hs in Hg3|]. subst g3. done.
  - intros _ g3 Hg3 _. apply inv_keep_bind; [by apply closed_good|auto with keeps|intros _].
    by apply inv_ret.
Qed.

(** C2.  The buffer invariant is preserved by syscall_hook for every system call
    but recvmsg, on every path, errors and aborts included: the buffer stays
    where it is, the committed records are a whole number of 64-bit words, there
    is room for the header of one more record, and the tracee's lock is released
    whenever the call returns.  The length arguments are assumed to be smaller
    than the address of the buffer. *)
Theorem hook_keeps_buffer call_ptr call s :
  process_inited (sv s) <> 0 -> thread_inited (tl s) <> 0 ->
  no call <> SYS_recvmsg -> lengths_ok (geom s) call -> closed (geom s) ->
  ends (geom s) (syscall_hook call_ptr call s).
Proof.
  intros Hp Ht Hne Hl Hg. unfold syscall_hook. rewrite bind_eq.
  rewrite init_thread_again by (by apply nz_true).
  rewrite bind_eq. cbn [gets]. rewrite bind_eq. cbn [gets].
  destruct (_ || _); [by apply (inv_traced call (geom s))|].
  by apply (inv_hook_unlocked call_ptr call (geom s)).
Qed.

(** syscall_hook entered without a buffer or inside a transaction, as from a
    signal handler, makes a traced call and nothing else. *)
Theorem hook_reentry call_ptr call s :
  process_inited (sv s) <> 0 -> thread_inited (tl s) <> 0 ->
  buffer (tl s) = 0 \/ locked (hdr s) <> 0 ->
  syscall_hook call_ptr call s = traced_raw_syscall call s.
Proof.
  intros Hp Ht Hb. unfold syscall_hook. rewrite bind_eq.
  rewrite init_thread_again by (by apply nz_true).
  rewrite bind_eq. cbn [gets]. rewrite bind_eq. cbn [gets].
  unfold buffer_hdr. destruct Hb as [->|Hb]; [done|]. apply nz_true in Hb. rewrite Hb. by rewrite orb_true_r.
Qed.

End HookInv.
