(* ===== verification/Replay.v ===== *)
(** * A buffered system call replays

    The same code runs in the recorded and in the replayed process.  While
    recording it makes the system call and leaves a record; before replaying rr
    puts the recorded bytes back where they were, and the code takes the result
    and the output from the record instead of from the kernel.

    [related] compares a recorded with a replayed state: everything is equal but
    [in_replay] and the unused part of the buffer.  A wrapper that makes one
    buffered call is an instance of [txn]; the main lemma [txn_replays] says
    that from related states, with the record put back, the replayed run returns
    what the recorded run returned and ends in a related state.
    [ReplayWrappers] instantiates it. *)

From stdpp Require Import base tactics list numbers.
From S2P Require Import Prelude Memory KernelAbi PreloadInterface Machine SyscallNumbers Syscallbuf Wrappers BufferInv.
Local Open Scope Z_scope.

Definition set_in_replay v g := mkGlobals v (in_diversion g) (in_chaos g) (pretend_num_cores g) (syscallbuf_fds_disabled g) (mprotect_records g) (random_seed g).

(** The addresses at which the next record will be written. *)
Definition tail (g : geometry) (a : Z) : Prop := g_last g <= a < g_end g.

Definition breakpoints (l : list event) : list Z :=
  omap (fun e => match e with EvBreakpoint a => Some a | _ => None end) l.

(** The calls that trap to rr. *)
Definition traced_calls (l : list event) : nat :=
  length (omap (fun e => match e with
    | EvSyscall e _ _ => if is_untraced e then None else Some e | _ => None end) l).

(** Everything but memory. *)
Record same_shared (s s' : st) : Prop := mkSame {
  rel_hdr : hdr s' = hdr s;
  rel_tl : tl s' = tl s;
  rel_gl : gl s' = set_in_replay 1 (gl s);
  rel_recording : in_replay (gl s) = 0;
  rel_sv : sv s' = sv s;
  rel_frame : frame s' = frame s;
  rel_breakpoints : breakpoints (events s') = breakpoints (events s) }.

Record related (D : Z -> Prop) (s s' : st) : Prop := mkRelated {
  rel_shared : same_shared s s';
  rel_mem : agree (fun a => ~ D a) (memory s) (memory s') }.

(** ** What the kernel may write *)

(** The output buffers of a call with arguments [a], as its manual page gives
    them: address and length.  A null address means no output. *)
Definition kernel_writes (sysno : Z) (a : list Z) (m : mem) : list (Z * Z) :=
  let x i := nth i a 0 in
  if sysno =? SYS_clock_gettime then [(x 1%nat, 16)]
  else if sysno =? SYS_fcntl then [(x 2%nat, if x 1%nat =? F_GETOWN_EX then 8 else 0)]
  else if existsb (Z.eqb sysno) [SYS_read; SYS_pread64; SYS_readlink; SYS_getdents; SYS_getdents64;
                                 SYS_listxattr; SYS_llistxattr; SYS_flistxattr]
  then [(x 1%nat, x 2%nat)]
  else if existsb (Z.eqb sysno) [SYS_getxattr; SYS_lgetxattr; SYS_fgetxattr] then [(x 2%nat, x 3%nat)]
  else if sysno =? SYS_gettimeofday then [(x 0%nat, 16); (x 1%nat, 8)]
  else if sysno =? SYS_poll then [(x 0%nat, 8 * x 1%nat)]
  else if sysno =? SYS_epoll_wait then [(x 1%nat, 12 * x 2%nat)]
  else if sysno =? SYS_recvfrom then [(x 1%nat, x 2%nat); (x 4%nat, load 4 (x 5%nat) m); (x 5%nat, 4)]
  else if sysno =? SYS_socketpair then [(x 3%nat, 8)]
  else if sysno =? SYS_time then [(x 0%nat, 8)]
  else if existsb (Z.eqb sysno) [SYS_stat; SYS_fstat; SYS_lstat] then [(x 1%nat, 144)]
  else if existsb (Z.eqb sysno) [SYS_statfs; SYS_fstatfs] then [(x 1%nat, 120)]
  else if sysno =? SYS_getrusage then [(x 1%nat, 144)]
  else if sysno =? SYS_rt_sigprocmask then [(x 2%nat, x 3%nat)]
  else if sysno =? SYS_quotactl then [(x 3%nat, 72)]
  else [].

Definition in_writes (l : list (Z * Z)) (b : Z) : Prop :=
  exists p n, (p, n) ∈ l /\ p <> 0 /\ p <= b < p + n.

(** System calls whose output [kernel_writes] describes: not those that find
    their output buffers by following pointers, nor every [ioctl]. *)
Definition described (sysno : Z) (a : list Z) : bool :=
  negb (existsb (Z.eqb sysno) [SYS_recvmsg; SYS_futex; SYS_process_vm_readv; SYS_ioctl])
  || ((sysno =? SYS_ioctl)
      && existsb (Z.eqb (nth 1 a 0)) [BTRFS_IOC_CLONE_RANGE; FIOCLEX; FIONCLEX]).

(** A call that completes without rr's intervention (no desched notification):
    it leaves the shared structures alone and writes its output buffers only;
    the library's own calls write nothing. *)
Class QuietKernel (E : Env) : Prop := {
  quiet_shared : forall e sysno a s,
    e = UNTRACED_RECORDING_ONLY \/ e = PRIVILEGED_UNTRACED_RECORDING_ONLY ->
    k_hdr (kernel e sysno a s) = hdr s /\ k_tl (kernel e sysno a s) = tl s /\
    k_gl (kernel e sysno a s) = gl s;
  quiet_own : forall sysno a s, k_mem (kernel PRIVILEGED_UNTRACED_RECORDING_ONLY sysno a s) = memory s;
  quiet_writes : forall sysno a s, described sysno a = true ->
    agree (fun b => ~ in_writes (kernel_writes sysno a (memory s)) b)
      (memory s) (k_mem (kernel UNTRACED_RECORDING_ONLY sysno a s)) }.

(** ** The library's steps as state transformers *)

Section Steps.
Context {E : Env}.

Definition own_ioctl (s : st) (request : Z) : event :=
  EvSyscall PRIVILEGED_UNTRACED_RECORDING_ONLY SYS_ioctl (pad8 [desched_counter_fd (tl s); request; 0]).

(** The state after [arm_for_may_block] or [disarm_desched_event]. *)
Definition armed (s : st) : st :=
  let s := set_hdr (set_desched_signal_may_be_relevant 1 (hdr s)) s in
  add_event (own_ioctl s PERF_EVENT_IOC_ENABLE) s.

Definition disarmed (s : st) : st := add_event (own_ioctl s PERF_EVENT_IOC_DISABLE) s.

(** The fixed part of a record as [start_commit_buffered_syscall] writes it. *)
Definition start_mem (r no re : Z) (blk : blockness) (m : mem) : mem :=
  store 4 (r + REC_size) (psub re r)
    (store 1 (r + REC_desched) (b2z (is_MAY_BLOCK blk)) (store 2 (r + REC_syscallno) no m)).

Definition started (no re : Z) (blk : blockness) (s : st) : st :=
  let s := set_memory (start_mem (buffer_last s) no re blk (memory s)) s in
  if is_MAY_BLOCK blk then armed s else s.

Definition commit_mem (r e ret : Z) (m : mem) : mem :=
  store 8 (r + REC_ret) ret (store 4 (r + REC_size) (psub e r) m).

Definition commit_hdr (size : Z) (h : syscallbuf_hdr) : syscallbuf_hdr :=
  set_num_rec_bytes (u32 (num_rec_bytes h + stored_record_size size))
    (set_desched_signal_may_be_relevant 0 h).

Definition committed (e ret : Z) (blk : blockness) (s : st) : st :=
  let r := buffer_last s in
  let s := set_hdr (commit_hdr (psub e r) (hdr s)) (set_memory (commit_mem r e ret (memory s)) s) in
  let f := breakpoint_address (num_rec_bytes (hdr s)) in
  let s := if is_MAY_BLOCK blk then disarmed s else s in
  add_event (EvBreakpoint f) (set_hdr (unlock_tracee (hdr s)) s).

(** While replaying, the calls for recording only do nothing. *)
Lemma replay_own_ioctl fd request s :
  replaying s = true ->
  privileged_untraced_syscall SYS_ioctl [fd; request; 0] s =
    (Ret 0, add_event (EvSyscall PRIVILEGED_UNTRACED_RECORDING_ONLY SYS_ioctl (pad8 [fd; request; 0])) s).
Proof.
  intros Hr. unfold privileged_untraced_syscall, raw_syscall. cbv zeta.
  change (replaying (add_event _ s)) with (replaying s). by rewrite Hr.
Qed.

Context {Q : QuietKernel E}.

Lemma record_own_ioctl fd request s :
  replaying s = false ->
  exists r, privileged_untraced_syscall SYS_ioctl [fd; request; 0] s =
    (Ret r, add_event (EvSyscall PRIVILEGED_UNTRACED_RECORDING_ONLY SYS_ioctl (pad8 [fd; request; 0])) s).
Proof.
  intros Hr. unfold privileged_untraced_syscall, raw_syscall. cbv zeta.
  set (e := add_event _ s). change (replaying e) with (replaying s). rewrite Hr. cbn [rr_page_has_syscall negb].
  destruct (quiet_shared PRIVILEGED_UNTRACED_RECORDING_ONLY SYS_ioctl (pad8 [fd; request; 0]) e) as (->&->&->);
    [by right|]. rewrite quiet_own. by eexists.
Qed.

(** [yields c s a s1]: [c] returns [a] in state [s1]; while recording it may
    instead abort. *)
Definition yields {A} (c : M A) (s : st) (a : A) (s1 : st) : Prop :=
  replaying s1 = replaying s /\
  (c s = (Ret a, s1) \/ (replaying s = false /\ exists w s2, c s = (Abort w, s2))).

Lemma yields_ret {A} (a : A) s : yields (mret a) s a s.
Proof. split; [done|by left]. Qed.

Lemma yields_bind {A B} (c : M A) (f : A -> M B) s a s1 b s2 :
  yields c s a s1 -> yields (f a) s1 b s2 -> yields (mbind f c) s b s2.
Proof.
  intros [Hr1 H1] [Hr2 H2]. split; [congruence|]. rewrite bind_eq.
  destruct H1 as [->|(Hr&w&s3&->)]; [|eauto].
  destruct H2 as [->|(Hr&w&s3&->)]; [by left|right]. split; [congruence|eauto].
Qed.

Lemma yields_gets {A B} (h : st -> A) (f : A -> M B) s b s2 :
  yields (f (h s)) s b s2 -> yields (mbind f (gets h)) s b s2.
Proof. done. Qed.

Lemma yields_modify {B} (m : st -> st) (f : unit -> M B) s b s2 :
  replaying (m s) = replaying s -> yields (f tt) (m s) b s2 -> yields (mbind f (modify m)) s b s2.
Proof. intros Hm H. eapply yields_bind; [|exact H]. split; [done|by left]. Qed.

Lemma yields_assert {B} (x : bool) (f : unit -> M B) s b s2 :
  x = true -> yields (f tt) s b s2 -> yields (mbind f (assert_ x)) s b s2.
Proof. by intros ->. Qed.

Lemma yields_fatal_if {B} (x : bool) (f : unit -> M B) s b s2 :
  x = false -> yields (f tt) s b s2 -> yields (mbind f (fatal_if x)) s b s2.
Proof. by intros ->. Qed.

Lemma yields_assoc {A B C} (c : M A) (f : A -> M B) (h : B -> M C) s b s2 :
  yields (mbind (fun a => mbind h (f a)) c) s b s2 -> yields (mbind h (mbind f c)) s b s2.
Proof. unfold yields. by rewrite bind_assoc. Qed.

(** A recorded run that returns has the result foretold. *)
Lemma yields_record {A} (c : M A) s a s1 b s2 :
  yields c s a s1 -> c s = (Ret b, s2) -> b = a /\ s2 = s1.
Proof. intros [_ [H|(_&w&s3&H)]] H2; rewrite H2 in H; by simplify_eq. Qed.

Lemma yields_replay {A} (c : M A) s a s1 : yields c s a s1 -> replaying s = true -> c s = (Ret a, s1).
Proof. intros [_ [H|(Hr&_)]] H2; congruence. Qed.

Lemma yields_own_ioctl fd request s (f : Z -> M unit) :
  (forall r, f r = fatal_if (nz (s32 r))) ->
  yields (mbind f (privileged_untraced_syscall SYS_ioctl [fd; request; 0])) s tt
    (add_event (EvSyscall PRIVILEGED_UNTRACED_RECORDING_ONLY SYS_ioctl (pad8 [fd; request; 0])) s).
Proof.
  intros Hf. split; [done|]. rewrite bind_eq. destruct (replaying s) eqn:Hr.
  - rewrite replay_own_ioctl, Hf by done. by left.
  - destruct (record_own_ioctl fd request s Hr) as [r ->]. rewrite Hf.
    destruct (nz _); [right; eauto|by left].
Qed.

Lemma yields_disarm s : yields disarm_desched_event s tt (disarmed s).
Proof. unfold disarm_desched_event. apply yields_gets. by apply yields_own_ioctl. Qed.

Lemma yields_arm s :
  impose_spurious_desched (sv s) = 0 -> yields arm_for_may_block s tt (armed s).
Proof.
  intros Hs. unfold arm_for_may_block. apply yields_gets. rewrite Hs. cbn [nz Z.eqb negb].
  eapply yields_bind; [apply yields_ret|]. apply yields_modify; [done|].
  eapply yields_bind; [|apply yields_ret].
  unfold arm_desched_event. apply yields_gets. by apply yields_own_ioctl.
Qed.

(** What both processes need to know of the buffer at the start of a
    transaction whose record will end at [re] at the latest. *)
Record open_at (s : st) (r re bend : Z) : Prop := mkOpen {
  open_buffer : buffer (tl s) <> 0;
  open_last : buffer_last s = r;
  open_end : buffer_end s = bend;
  open_range : 0 < r /\ r + SIZEOF_REC <= bend /\ bend < 2 ^ 62;
  open_re : r + 8 < re;
  open_room : r + (re - r + 7) / 8 * 8 + SIZEOF_REC <= bend;
  open_size : bend < r + 2 ^ 32;
  open_spurious : impose_spurious_desched (sv s) = 0 }.

Lemma yields_start no re blk s r bend :
  open_at s r re bend ->
  yields (start_commit_buffered_syscall no re blk) s true (started no re blk s).
Proof.
  intros [Hb Hl He Hr Hre Hroom Hsz Hsp]. unfold SIZEOF_REC in *.
  unfold start_commit_buffered_syscall. cbv zeta. apply yields_gets.
  destruct (Z.eqb_spec (buffer (tl s)) 0); [done|]. do 2 apply yields_gets. rewrite Hl, He.
  pose proof (Z.div_mod (re - r + 7) 8 ltac:(lia)). pose proof (Z.mod_pos_bound (re - r + 7) 8 ltac:(lia)).
  rewrite stored_end_eq by lia.
  replace (padd r SIZEOF_REC) with (r + 16) by (symmetry; apply wrapu_small; unfold SIZEOF_REC; lia).
  replace (psub bend SIZEOF_REC) with (bend - 16) by (symmetry; apply wrapu_small; unfold SIZEOF_REC; lia).
  destruct (Z.ltb_spec (r + (re - r + 7) / 8 * 8) (r + 16)); [lia|].
  destruct (Z.ltb_spec (bend - 16) (r + (re - r + 7) / 8 * 8)); [lia|].
  do 3 (apply yields_modify; [done|]). unfold started. rewrite Hl.
  set (s1 := set_memory (start_mem r no re blk (memory s)) s). cbv zeta. change (set_memory _ _) with s1.
  eapply yields_bind; [|apply yields_ret].
  destruct blk; cbn [is_MAY_BLOCK]; [by apply yields_arm|apply yields_ret].
Qed.

Lemma yields_commit no e ret blk s r :
  buffer_last s = r -> r <= e < r + 2 ^ 32 -> locked (hdr s) <> 0 -> abort_commit (hdr s) = 0 ->
  load 2 (r + REC_syscallno) (memory s) = no ->
  load 1 (r + REC_desched) (memory s) = b2z (is_MAY_BLOCK blk) ->
  yields (commit_raw_syscall no e ret) s ret (committed e ret blk s).
Proof.
  intros Hl He Hlock Hab Hno Hd. unfold commit_raw_syscall. cbv zeta. apply yields_gets. rewrite Hl.
  apply yields_assert; [apply Z.leb_le; lia|]. apply yields_modify; [done|]. apply yields_gets.
  apply yields_assert; [by apply nz_true|]. apply yields_modify; [done|]. apply yields_gets.
  apply yields_fatal_if.
  { cbn [memory set_hdr set_memory].
    rewrite load_store_other, Hno, Z.eqb_refl by (unfold disjoint_rng, REC_syscallno, REC_size; lia). done. }
  apply yields_gets. cbn [abort_commit hdr set_hdr set_memory set_desched_signal_may_be_relevant].
  rewrite Hab. cbn [nz Z.eqb negb]. apply yields_assoc, yields_modify; [done|].
  apply yields_assoc, yields_gets.
  assert (load 4 (r + REC_size) (commit_mem r e ret (memory s)) = psub e r) as Hsize.
  { unfold commit_mem. rewrite load_store_other by (unfold disjoint_rng, REC_ret, REC_size; lia).
    change 4 with (Z.of_nat 4). rewrite load_store_same. unfold psub.
    rewrite (wrapu_small 64) by lia. apply Z.mod_small. lia. }
  assert (load 1 (r + REC_desched) (commit_mem r e ret (memory s)) = b2z (is_MAY_BLOCK blk)) as Hd'.
  { unfold commit_mem. rewrite !load_store_other by (unfold disjoint_rng, REC_ret, REC_size, REC_desched; lia). done. }
  cbn [memory set_hdr set_memory]. unfold commit_mem in Hsize. rewrite Hsize. fold (commit_mem r e ret (memory s)).
  set (s2 := set_hdr (commit_hdr (psub e r) (hdr s)) (set_memory (commit_mem r e ret (memory s)) s)).
  apply yields_assoc, yields_modify; [done|].
  match goal with |- yields _ ?x _ _ => change x with s2 end.
  apply yields_assoc, yields_gets, yields_gets, yields_gets. change (memory s2) with (commit_mem r e ret (memory s)).
  rewrite Hd', nz_b2z. unfold committed. rewrite Hl. cbv zeta. fold s2.
  eapply (yields_bind _ _ _ tt (if is_MAY_BLOCK blk then disarmed s2 else s2)).
  { destruct blk; cbn [is_MAY_BLOCK]; [apply yields_disarm|apply yields_ret]. }
  apply yields_modify; [done|]. apply yields_modify; [done|]. apply yields_ret.
Qed.

(** The state in which the kernel is entered. *)
Definition calling (nr : Z) (a : list Z) (s : st) : st :=
  add_event (EvSyscall UNTRACED_RECORDING_ONLY nr (pad8 a))
    (set_tl (set_pending_untraced_syscall_result (buffer_last s + REC_ret) (tl s)) s).

Definition kernel_call (nr : Z) (a : list Z) (s : st) : kresult :=
  kernel UNTRACED_RECORDING_ONLY nr (pad8 a) (calling nr a s).

Lemma raw_record nr b s :
  replaying s = false ->
  let s1 := add_event (EvSyscall UNTRACED_RECORDING_ONLY nr b) s in
  let k := kernel UNTRACED_RECORDING_ONLY nr b s1 in
  raw_syscall UNTRACED_RECORDING_ONLY nr b s = (Ret (s64 (k_ret k)), set_memory (k_mem k) s1).
Proof.
  intros Hr s1 k. unfold raw_syscall. cbv zeta. fold s1.
  change (replaying s1) with (replaying s). rewrite Hr. cbn [rr_page_has_syscall negb]. fold k.
  destruct (quiet_shared UNTRACED_RECORDING_ONLY nr b s1) as (H1&H2&H3); [by left|].
  fold k in H1, H2, H3. by rewrite H1, H2, H3.
Qed.

Lemma raw_replay nr b s :
  replaying s = true ->
  raw_syscall UNTRACED_RECORDING_ONLY nr b s =
    (Ret 0, add_event (EvSyscall UNTRACED_RECORDING_ONLY nr b) s).
Proof.
  intros Hr. unfold raw_syscall. cbv zeta.
  change (replaying (add_event _ s)) with (replaying s). by rewrite Hr.
Qed.

Lemma untraced_record nr a s :
  replaying s = false ->
  untraced_syscall nr a s =
    (Ret (s64 (k_ret (kernel_call nr a s))), set_memory (k_mem (kernel_call nr a s)) (calling nr a s)).
Proof.
  intros Hr. unfold untraced_syscall, untraced_syscall_base. rewrite bind_eq. cbn [gets]. rewrite bind_eq.
  cbn [modify_tl modify]. rewrite bind_eq, raw_record by done. rewrite bind_eq. cbn [gets].
  change (replaying (set_memory _ _)) with (replaying s). rewrite Hr. done.
Qed.

Lemma untraced_replay nr a s :
  replaying s = true ->
  untraced_syscall nr a s =
    (Ret (s64 (load 8 (buffer_last s + REC_ret) (memory s))), calling nr a s).
Proof.
  intros Hr. unfold untraced_syscall, untraced_syscall_base. rewrite bind_eq. cbn [gets]. rewrite bind_eq.
  cbn [modify_tl modify]. rewrite bind_eq, raw_replay by done. rewrite bind_eq. cbn [gets].
  change (replaying (add_event _ _)) with (replaying s). rewrite Hr. done.
Qed.

End Steps.

(** ** Transactions *)

(** A wrapper's single buffered call: the record's number and reserved end, the
    call, what is done to memory before it (depending on whether the process is
    replayed) and after it (given [failed_during_preparation] and the result),
    and the end of the published record. *)
Record transaction := mkTransaction {
  t_no : Z;
  t_re : Z;
  t_blk : blockness;
  t_nr : Z;
  t_args : list Z;
  t_pre : bool -> mem -> mem;
  t_post : Z -> Z -> mem -> mem;
  t_end : Z -> Z -> Z }.

Definition failed_flag (s : st) : Z := failed_during_preparation (hdr s).

Definition txn_body {E : Env} (t : transaction) : M Z :=
  in_replay ← gets replaying;
  modify_mem (t_pre t in_replay);;
  ret ← untraced_syscall (t_nr t) (t_args t);
  failed ← gets failed_flag;
  modify_mem (t_post t failed ret);;
  commit_raw_syscall (t_no t) (t_end t failed ret) ret.

Definition run_txn {E : Env} (call : syscall_info) (t : transaction) : M Z :=
  ok ← start_commit_buffered_syscall (t_no t) (t_re t) (t_blk t);
  if negb (ok : bool) then traced_raw_syscall call else txn_body t.

(** What a wrapper owes: before the call it touches no committed record and no
    record header, in the replayed process nothing of the buffer, and it does
    the same to the rest of memory in both; the kernel's output goes to the
    record; after the call it does not touch the buffer, and what it does
    depends on the published part of the record only; the record ends in the
    reserved space. *)
Record txn_ok (g : geometry) (m0 : mem) (t : transaction) : Prop := mkTxnOk {
  ok_no : 0 <= t_no t < 2 ^ 16;
  ok_described : described (t_nr t) (pad8 (t_args t)) = true;
  ok_pre_keeps : forall m a, g_buffer g <= a < g_last g + SIZEOF_REC -> t_pre t false m a = m a;
  ok_pre_outside : forall m m', agree (fun a => ~ tail g a) m m' ->
    agree (fun a => ~ tail g a) (t_pre t false m) (t_pre t true m');
  ok_pre_replay : forall m a, tail g a -> t_pre t true m a = m a;
  ok_writes : forall m b, agree (fun a => ~ tail g a) m m0 ->
    in_writes (kernel_writes (t_nr t) (pad8 (t_args t)) (t_pre t false m)) b ->
    g_last g + SIZEOF_REC <= b < g_end g;
  ok_post_keeps : forall ret, returned (t_nr t) (t_args t) ret ->
    forall m a, g_buffer g <= a < g_end g -> t_post t 0 ret m a = m a;
  ok_post_outside : forall ret, returned (t_nr t) (t_args t) ret ->
    forall m m', agree (fun a => ~ tail g a) m m' ->
    agree (fun a => g_last g + SIZEOF_REC <= a < t_end t 0 ret) m m' ->
    agree (fun a => ~ tail g a) (t_post t 0 ret m) (t_post t 0 ret m');
  ok_end : forall ret, returned (t_nr t) (t_args t) ret ->
    g_last g + SIZEOF_REC <= t_end t 0 ret /\ fits g (t_end t 0 ret) }.

Lemma start_mem_out r no re blk m a :
  ~ (r + 8 <= a < r + 11) -> ~ (r + 12 <= a < r + 16) -> start_mem r no re blk m a = m a.
Proof.
  intros H1 H2. unfold start_mem, REC_size, REC_desched, REC_syscallno.
  rewrite !store_out by lia. done.
Qed.

Lemma start_mem_no r no re blk m :
  0 <= no < 2 ^ 16 -> load 2 (r + REC_syscallno) (start_mem r no re blk m) = no.
Proof.
  intros Hn. unfold start_mem.
  rewrite !load_store_other by (unfold disjoint_rng, REC_size, REC_desched, REC_syscallno; lia).
  change 2 with (Z.of_nat 2). rewrite load_store_same. by apply Z.mod_small.
Qed.

Lemma start_mem_desched r no re blk m :
  load 1 (r + REC_desched) (start_mem r no re blk m) = b2z (is_MAY_BLOCK blk).
Proof.
  unfold start_mem.
  rewrite load_store_other by (unfold disjoint_rng, REC_size, REC_desched; lia).
  change 1 with (Z.of_nat 1). rewrite load_store_same. by destruct blk.
Qed.

Lemma commit_mem_out r e ret m a :
  ~ (r <= a < r + 8) -> ~ (r + 12 <= a < r + 16) -> commit_mem r e ret m a = m a.
Proof.
  intros H1 H2. unfold commit_mem, REC_ret, REC_size. rewrite !store_out by lia. done.
Qed.

Lemma commit_mem_agree r e ret m m' a :
  (~ (r <= a < r + 8) -> ~ (r + 12 <= a < r + 16) -> m a = m' a) ->
  commit_mem r e ret m a = commit_mem r e ret m' a.
Proof.
  intros H. unfold commit_mem, REC_ret, REC_size. rewrite Z.add_0_r.
  destruct (decide (r <= a < r + 8)); [by rewrite !store_in|]. rewrite !(store_out 8) by done.
  destruct (decide (r + 12 <= a < r + 16)); [by rewrite !store_in by lia|].
  rewrite !store_out by lia. by apply H.
Qed.

Lemma start_mem_agree r no re blk m m' a :
  r + 8 <= a < r + 11 -> start_mem r no re blk m a = start_mem r no re blk m' a.
Proof.
  intros H. unfold start_mem, REC_size, REC_desched, REC_syscallno.
  rewrite !(store_out 4) by lia. destruct (decide (a = r + 10)) as [->|].
  - by rewrite !(store_in 1) by lia.
  - rewrite !(store_out 1), !(store_in 2) by lia. done.
Qed.

(** The result in a committed record. *)
Lemma commit_mem_ret r e ret m :
  - 2 ^ 63 <= ret < 2 ^ 63 -> s64 (load 8 (r + REC_ret) (commit_mem r e ret m)) = ret.
Proof.
  intros Hr. unfold commit_mem. change 8 with (Z.of_nat 8). rewrite load_store_same.
  change (ret mod _) with (u64 ret). rewrite wraps_wrapu by lia. by apply wraps_small.
Qed.

Section Txn.
Context {E : Env} {Q : QuietKernel E} {K : KernelContract E}.

Lemma yields_txn_body t s r ret s3 :
  let s2 := set_memory (t_pre t (replaying s) (memory s)) s in
  let e := t_end t 0 ret in
  let s4 := set_memory (t_post t 0 ret (memory s3)) s3 in
  untraced_syscall (t_nr t) (t_args t) s2 = (Ret ret, s3) -> replaying s3 = replaying s ->
  failed_flag s3 = 0 -> buffer_last s3 = r -> r <= e < r + 2 ^ 32 ->
  locked (hdr s3) <> 0 -> abort_commit (hdr s3) = 0 ->
  load 2 (r + REC_syscallno) (memory s4) = t_no t ->
  load 1 (r + REC_desched) (memory s4) = b2z (is_MAY_BLOCK (t_blk t)) ->
  yields (txn_body t) s ret (committed e ret (t_blk t) s4).
Proof.
  intros s2 e s4 Hu Hr Hf Hl He Hlock Hab Hno Hd. unfold txn_body.
  apply yields_gets. apply yields_modify; [done|]. fold s2.
  eapply yields_bind; [split; [|left; exact Hu]; exact Hr|].
  apply yields_gets. rewrite Hf. apply yields_modify; [done|]. fold s4 e.
  by apply (yields_commit _ _ _ _ _ r).
Qed.

(** Bookkeeping of [started] and [calling]. *)
Lemma started_facts no re blk s :
  let s1 := started no re blk s in
  memory s1 = start_mem (buffer_last s) no re blk (memory s) /\
  buffer_last s1 = buffer_last s /\ locked (hdr s1) = locked (hdr s) /\
  abort_commit (hdr s1) = abort_commit (hdr s) /\ failed_flag s1 = failed_flag s /\
  replaying s1 = replaying s /\ geom s1 = geom s.
Proof. destruct blk; done. Qed.

Lemma committed_facts e ret blk s :
  good (geom s) -> fits (geom s) e ->
  memory (committed e ret blk s) = commit_mem (buffer_last s) e ret (memory s) /\
  geom (committed e ret blk s) = unlock (published (geom s) e).
Proof.
  intros Hg He. destruct (fits_size _ _ Hg He) as (H1&H2&H3).
  assert (u32 (num_rec_bytes (hdr s) + stored_record_size (psub e (buffer_last s)))
          = g_bytes (published (geom s) e)) as Hn.
  { rewrite buffer_last_eq by done. unfold psub. rewrite (wrapu_small 64), H2 by lia. exact H3. }
  split; [by destruct blk|].
  destruct blk; unfold committed; cbv zeta; cbn [is_MAY_BLOCK];
    (etransitivity; [apply geom_unlock|]);
    exact (f_equal (fun n => mkGeom (buffer (tl s)) (buffer_size (tl s)) n (nz (in_replay (gl s))) false) Hn).
Qed.

(** A record stored at [a] and ending, with its padding, at [b]. *)
Definition record_at (m : mem) (a b : Z) : Prop :=
  let size := load 4 (a + REC_size) m in
  SIZEOF_REC <= size /\ b = a + stored_record_size size.

Lemma commit_mem_record g e ret m :
  good g -> fits g e -> SIZEOF_REC <= e - g_last g ->
  record_at (commit_mem (g_last g) e ret m) (g_last g) (g_last (unlock (published g e))).
Proof.
  intros Hg He Hmin. destruct (fits_size _ _ Hg He) as (H1&H2&_). unfold record_at. cbv zeta.
  assert (load 4 (g_last g + REC_size) (commit_mem (g_last g) e ret m) = e - g_last g) as ->.
  { unfold commit_mem. rewrite load_store_other by (unfold disjoint_rng, REC_ret, REC_size; lia).
    change 4 with (Z.of_nat 4). rewrite load_store_same.
    unfold psub. rewrite (wrapu_small 64) by lia. apply Z.mod_small. lia. }
  split; [done|]. rewrite H2. apply (g_last_published g e).
Qed.

Lemma breakpoints_snoc l x :
  breakpoints (l ++ [x]) = breakpoints l ++ breakpoints [x].
Proof. apply omap_app. Qed.

(** The commit is the only step that passes a breakpoint. *)
Lemma committed_stops e ret blk s0 s :
  breakpoints (events s) = breakpoints (events s0) ->
  breakpoints (events (committed e ret blk s)) =
  breakpoints (events s0) ++ [breakpoint_address (num_rec_bytes (hdr (committed e ret blk s)))].
Proof.
  intros <-. destruct blk; unfold committed; cbv zeta;
    cbn [is_MAY_BLOCK events add_event set_hdr set_memory disarmed];
    rewrite !breakpoints_snoc; cbn; by rewrite ?app_nil_r.
Qed.

Lemma started_stops no re blk s :
  breakpoints (events (started no re blk s)) = breakpoints (events s).
Proof.
  destruct blk; [|done]. cbn [started is_MAY_BLOCK armed events add_event set_memory set_hdr].
  by rewrite breakpoints_snoc, app_nil_r.
Qed.

(** The steps keep the shared structures equal. *)
Lemma same_set_memory m m' s s' : same_shared s s' -> same_shared (set_memory m s) (set_memory m' s').
Proof. by intros []. Qed.

Lemma eta_memory s : set_memory (memory s) s = s.
Proof. by destruct s. Qed.

Lemma same_last s s' : same_shared s s' -> buffer_last s' = buffer_last s.
Proof. intros []. unfold buffer_last, buffer_hdr. congruence. Qed.

Lemma same_add_event ev ev' s s' :
  breakpoints [ev] = breakpoints [ev'] -> same_shared s s' ->
  same_shared (add_event ev s) (add_event ev' s').
Proof.
  intros He []. split; try done. cbn [events add_event]. rewrite !breakpoints_snoc. congruence.
Qed.

Lemma same_set_hdr h s s' : same_shared s s' -> same_shared (set_hdr h s) (set_hdr h s').
Proof. by intros []. Qed.

Lemma same_set_tl x s s' : same_shared s s' -> same_shared (set_tl x s) (set_tl x s').
Proof. by intros []. Qed.

Lemma same_started no re blk s s' : same_shared s s' -> same_shared (started no re blk s) (started no re blk s').
Proof.
  intros H. unfold started. cbv zeta. rewrite (same_last _ _ H).
  destruct blk; cbn [is_MAY_BLOCK]; [|by apply same_set_memory].
  unfold armed. cbv zeta. apply same_add_event; [done|].
  cbn [hdr set_memory]. rewrite (rel_hdr _ _ H). by apply same_set_hdr, same_set_memory.
Qed.

Lemma same_calling nr a s s' : same_shared s s' -> same_shared (calling nr a s) (calling nr a s').
Proof.
  intros H. unfold calling. rewrite (same_last _ _ H), (rel_tl _ _ H).
  by apply same_add_event, same_set_tl.
Qed.

Lemma same_committed e ret blk s s' :
  same_shared s s' -> same_shared (committed e ret blk s) (committed e ret blk s').
Proof.
  intros H. unfold committed. cbv zeta. rewrite (same_last _ _ H), (rel_hdr _ _ H).
  set (h := commit_hdr _ _). apply same_add_event; [done|].
  destruct blk; cbn [is_MAY_BLOCK hdr set_hdr disarmed add_event].
  - apply same_set_hdr, same_add_event; [done|]. by apply same_set_hdr, same_set_memory.
  - by apply same_set_hdr, same_set_hdr, same_set_memory.
Qed.

Section Replays.
Variables (g : geometry) (s s' : st) (t : transaction) (call : syscall_info).
Hypothesis Hgood : good g.
Hypothesis Hgeom : geom s = g.
Hypothesis Hlocked : g_locked g = true.
Hypothesis Hres : reserved g (t_re t).
Hypothesis Hrel : related (tail g) s s'.
Hypothesis Habort : abort_commit (hdr s) = 0.
Hypothesis Hfailed : failed_during_preparation (hdr s) = 0.
Hypothesis Hspur : impose_spurious_desched (sv s) = 0.
Hypothesis Hok : txn_ok g (memory s) t.

Let r := g_last g.

(** The states of the recorded run. *)
Let s1 := started (t_no t) (t_re t) (t_blk t) s.
Let s2 := set_memory (t_pre t false (memory s1)) s1.
Let ret := s64 (k_ret (kernel_call (t_nr t) (t_args t) s2)).
Let s3 := set_memory (k_mem (kernel_call (t_nr t) (t_args t) s2)) (calling (t_nr t) (t_args t) s2).
Let e := t_end t 0 ret.
Let s4 := set_memory (t_post t 0 ret (memory s3)) s3.

Lemma txn_open s0 : hdr s0 = hdr s -> tl s0 = tl s -> sv s0 = sv s -> open_at s0 r (t_re t) (g_end g).
Proof.
  intros H1 H2 H3. assert (good (geom s)) as Hg by (by rewrite Hgeom).
  assert (buffer_last s0 = r) as Hl.
  { transitivity (buffer_last s); [unfold buffer_last, buffer_hdr; by rewrite H1, H2|].
    rewrite buffer_last_eq by done. unfold r. by rewrite Hgeom. }
  assert (buffer_end s0 = g_end g) as He.
  { transitivity (buffer_end s); [unfold buffer_end; by rewrite H2|].
    rewrite buffer_end_eq by done. by rewrite Hgeom. }
  pose proof (good_last_range g Hgood) as Hr. fold r in Hr.
  assert (buffer (tl s) = g_buffer g) as Hb by (by rewrite <- Hgeom).
  destruct Hgood as [? ? ? ? ? ? Hroom], Hres as [Hmin Hmax]. fold r in Hmin, Hmax, Hroom.
  assert (g_buffer g <= r) by (unfold r, g_last, SIZEOF_HDR; lia).
  split; rewrite ?H2, ?H3, ?Hb; try done; unfold g_end, SIZEOF_REC in *; lia.
Qed.

Lemma txn_returned : returned (t_nr t) (t_args t) ret.
Proof.
  split.
  - intros i Hi. by apply count_bound.
  - intros Hs. by apply error_range.
Qed.

Lemma txn_last : buffer_last s = r.
Proof. unfold r. rewrite <- Hgeom. apply buffer_last_eq. by rewrite Hgeom. Qed.

Lemma txn_bounds : 0 < r < 2 ^ 62 /\ g_buffer g <= r /\ r + SIZEOF_REC <= g_end g.
Proof.
  pose proof (good_last_range g Hgood). destruct Hgood.
  unfold r, g_last, g_end, SIZEOF_HDR, SIZEOF_REC in *. lia.
Qed.

(** Outside the tail, the recorded memory when the kernel is entered differs from
    the initial one by the wrapper's own writes only. *)
Lemma txn_mem_s1 : agree (fun a => ~ tail g a) (memory s1) (memory s).
Proof.
  intros a Ha. unfold s1. destruct (started_facts (t_no t) (t_re t) (t_blk t) s) as (->&_).
  rewrite txn_last. pose proof txn_bounds. unfold tail, SIZEOF_REC in *. fold r in Ha.
  apply start_mem_out; lia.
Qed.

(** The kernel keeps everything outside the record's payload. *)
Lemma txn_mem_s3 a : ~ (r + SIZEOF_REC <= a < g_end g) -> memory s3 a = memory s2 a.
Proof.
  intros Ha. symmetry. apply (quiet_writes (t_nr t) (pad8 (t_args t)) (calling (t_nr t) (t_args t) s2)).
  - apply Hok.
  - intros Hw. apply Ha. apply (ok_writes _ _ _ Hok (memory s1) a); [apply txn_mem_s1|exact Hw].
Qed.

(** The fixed part of the record is as it was written at the start. *)
Lemma txn_mem_header a : r <= a < r + SIZEOF_REC -> memory s4 a = memory s1 a.
Proof.
  intros Ha. pose proof txn_bounds as (?&?&?). cbn [s4 memory set_memory].
  rewrite (ok_post_keeps _ _ _ Hok ret txn_returned) by lia. rewrite txn_mem_s3 by lia.
  cbn [s2 memory set_memory]. apply (ok_pre_keeps _ _ _ Hok). fold r. lia.
Qed.

Lemma txn_header_loads m m' :
  (forall a, r <= a < r + SIZEOF_REC -> m a = start_mem r (t_no t) (t_re t) (t_blk t) m' a) ->
  load 2 (r + REC_syscallno) m = t_no t /\
  load 1 (r + REC_desched) m = b2z (is_MAY_BLOCK (t_blk t)).
Proof.
  intros Hm. split.
  - rewrite <- (start_mem_no r (t_no t) (t_re t) (t_blk t) m' (ok_no _ _ _ Hok)).
    apply load_ext. intros a Ha. apply Hm. unfold rng, REC_syscallno, SIZEOF_REC in *. lia.
  - rewrite <- (start_mem_desched r (t_no t) (t_re t) (t_blk t) m').
    apply load_ext. intros a Ha. apply Hm. unfold rng, REC_desched, SIZEOF_REC in *. lia.
Qed.

Lemma txn_recording s0 : gl s0 = gl s -> replaying s0 = false.
Proof. intros H. unfold replaying. rewrite H. by rewrite (rel_recording _ _ (rel_shared _ _ _ Hrel)). Qed.

Lemma txn_end_bounds : r + SIZEOF_REC <= e < r + 2 ^ 32 /\ fits g e.
Proof.
  destruct (ok_end _ _ _ Hok ret txn_returned) as [H1 H2]. fold e r in H1, H2.
  destruct (fits_size g e Hgood H2) as [H3 _]. fold r in H3. split; [lia|done].
Qed.

Lemma txn_locked s0 : hdr s0 = hdr s -> locked (hdr s0) <> 0.
Proof.
  intros -> H0. assert (g_locked (geom s) = true) as Hl by (by rewrite Hgeom).
  unfold geom, geom_of in Hl. cbn [g_locked] in Hl. by rewrite H0 in Hl.
Qed.

(** The recorded run. *)
Lemma txn_record : yields (run_txn call t) s ret (committed e ret (t_blk t) s4).
Proof.
  unfold run_txn. eapply yields_bind; [by apply (yields_start _ _ _ _ r (g_end g)), txn_open|].
  cbn [negb]. fold s1.
  destruct (started_facts (t_no t) (t_re t) (t_blk t) s) as (H1&H2&H3&H4&H5&H6&H7). fold s1 in H1, H2, H3, H4, H5, H6, H7.
  assert (replaying s1 = false) as Hr by (rewrite H6; by apply txn_recording).
  pose proof txn_end_bounds as [He _].
  apply (yields_txn_body t s1 r ret s3); rewrite ?Hr; try done.
  - by apply untraced_record.
  - change (failed_flag s3) with (failed_flag s1). by rewrite H5.
  - change (buffer_last s3) with (buffer_last s1). rewrite H2. apply txn_last.
  - fold e. unfold SIZEOF_REC in He. lia.
  - change (hdr s3) with (hdr s1). rewrite H3. by apply txn_locked.
  - change (hdr s3) with (hdr s1). by rewrite H4.
  - eapply txn_header_loads. intros a Ha. fold s4. rewrite txn_mem_header, H1, txn_last by done. done.
  - eapply txn_header_loads. intros a Ha. fold s4. rewrite txn_mem_header, H1, txn_last by done. done.
Qed.

(** Its last state: one more record, and the records committed before are
    untouched. *)
Lemma txn_ends_record :
  let f := committed e ret (t_blk t) s4 in
  geom f = unlock (published g e) /\ memory f = commit_mem r e ret (memory s4) /\
  agree (fun a => g_buffer g <= a < r) (memory s) (memory f).
Proof.
  intros f. pose proof txn_bounds as (?&?&?). pose proof txn_end_bounds as [He Hfit].
  assert (geom s4 = g) as Hg4 by (rewrite <- Hgeom; unfold s4, s3, s2, s1; by destruct (t_blk t)).
  destruct (committed_facts e ret (t_blk t) s4) as [Hm Hgf]; [by rewrite Hg4..|]. rewrite Hg4 in Hgf.
  assert (buffer_last s4 = r) as Hl4 by (rewrite buffer_last_eq by (by rewrite Hg4); by rewrite Hg4).
  rewrite Hl4 in Hm. fold f in Hgf, Hm. split_and!; [done..|].
  rewrite Hm. intros a Ha. unfold SIZEOF_REC in *. rewrite commit_mem_out by lia.
  symmetry. cbn [s4 memory set_memory]. rewrite (ok_post_keeps _ _ _ Hok ret txn_returned) by lia.
  rewrite txn_mem_s3 by (unfold SIZEOF_REC; lia). cbn [s2 memory set_memory].
  rewrite (ok_pre_keeps _ _ _ Hok) by (fold r; unfold SIZEOF_REC; lia).
  apply txn_mem_s1. unfold tail. fold r. lia.
Qed.

(** The replayed run: the states of its steps. *)
Let s1' := started (t_no t) (t_re t) (t_blk t) s'.
Let s2' := set_memory (t_pre t true (memory s1')) s1'.
Let s3' := calling (t_nr t) (t_args t) s2'.
Let s4' := set_memory (t_post t 0 ret (memory s3')) s3'.

(** rr has put the record back. *)
Hypothesis Hfill :
  agree (fun a => r <= a < r + (e - r + 7) / 8 * 8)
    (commit_mem r e ret (memory s4)) (memory s').

Lemma txn_stored : e <= r + (e - r + 7) / 8 * 8 <= g_end g.
Proof.
  pose proof txn_end_bounds as [_ [Hf1 Hf2]]. fold r in Hf1, Hf2. unfold SIZEOF_REC in *.
  pose proof (Z.div_mod (e - r + 7) 8 ltac:(lia)). pose proof (Z.mod_pos_bound (e - r + 7) 8 ltac:(lia)). lia.
Qed.

Lemma txn_last' : buffer_last s' = r.
Proof.
  rewrite <- txn_last. unfold buffer_last, buffer_hdr.
  by rewrite (rel_hdr _ _ (rel_shared _ _ _ Hrel)), (rel_tl _ _ (rel_shared _ _ _ Hrel)).
Qed.

Lemma txn_mem_s1' : memory s1' = start_mem r (t_no t) (t_re t) (t_blk t) (memory s').
Proof.
  unfold s1'. destruct (started_facts (t_no t) (t_re t) (t_blk t) s') as (->&_). by rewrite txn_last'.
Qed.

(** The replayed process does not touch the bytes put back, but for the fixed
    part of the record. *)
Lemma txn_mem_s2' a : tail g a -> memory s2' a = memory s1' a.
Proof. intros Ha. by apply (ok_pre_replay _ _ _ Hok). Qed.

(** After the call the two memories agree where the wrapper may look. *)
Lemma txn_outside_s3 : agree (fun a => ~ tail g a) (memory s3) (memory s3').
Proof.
  pose proof txn_bounds as (?&?&?). intros a Ha.
  rewrite txn_mem_s3 by (unfold tail, SIZEOF_REC in *; fold r in Ha; lia).
  apply (ok_pre_outside _ _ _ Hok); [|done]. clear a Ha. intros a Ha.
  rewrite txn_mem_s1, txn_mem_s1', start_mem_out by (unfold tail, SIZEOF_REC in *; fold r in Ha; lia || done).
  by apply (rel_mem _ _ _ Hrel).
Qed.

Lemma txn_payload_s3 : agree (fun a => r + SIZEOF_REC <= a < e) (memory s3) (memory s3').
Proof.
  intros a Ha. pose proof txn_bounds as (?&?&?). pose proof txn_stored. unfold SIZEOF_REC in *.
  transitivity (commit_mem r e ret (memory s4) a).
  - rewrite commit_mem_out by lia. symmetry. apply (ok_post_keeps _ _ _ Hok ret txn_returned). lia.
  - rewrite Hfill by lia. change (memory s3') with (memory s2').
    rewrite txn_mem_s2' by (unfold tail; fold r; lia). rewrite txn_mem_s1', start_mem_out by lia. done.
Qed.

(** The result is read back from the record. *)
Lemma txn_result : s64 (load 8 (buffer_last s2' + REC_ret) (memory s2')) = ret.
Proof.
  pose proof txn_bounds as (?&?&?). pose proof txn_stored. pose proof txn_end_bounds as [? _].
  unfold SIZEOF_REC in *.
  assert (buffer_last s2' = r) as ->.
  { change (buffer_last s2') with (buffer_last s1'). unfold s1'.
    destruct (started_facts (t_no t) (t_re t) (t_blk t) s') as (_&->&_). apply txn_last'. }
  rewrite <- (commit_mem_ret r e ret (memory s4)) by (apply (wraps_range 64); lia).
  f_equal. apply load_ext. intros a Ha. unfold rng, REC_ret in Ha. symmetry.
  rewrite txn_mem_s2' by (unfold tail; fold r; lia). rewrite txn_mem_s1', start_mem_out by lia.
  apply Hfill. lia.
Qed.

Lemma txn_mem_buffer' a : tail g a -> memory s4' a = memory s1' a.
Proof.
  intros Ha. pose proof txn_bounds as (?&?&?). unfold tail in Ha. fold r in Ha.
  cbn [s4' memory set_memory]. rewrite (ok_post_keeps _ _ _ Hok ret txn_returned) by lia. by apply txn_mem_s2'.
Qed.

Lemma txn_replay : yields (run_txn call t) s' ret (committed e ret (t_blk t) s4').
Proof.
  pose proof txn_bounds as (?&?&?). pose proof txn_end_bounds as [He _].
  assert (replaying s' = true) as Hr by (unfold replaying; by rewrite (rel_gl _ _ (rel_shared _ _ _ Hrel))).
  unfold run_txn. eapply yields_bind; [apply (yields_start _ _ _ _ r (g_end g)), txn_open; apply (rel_shared _ _ _ Hrel)|].
  cbn [negb]. fold s1'.
  destruct (started_facts (t_no t) (t_re t) (t_blk t) s') as (H1'&H2'&H3'&H4'&H5'&H6'&H7').
  fold s1' in H1', H2', H3', H4', H5', H6', H7'. rewrite Hr in H6'.
  apply (yields_txn_body t s1' r ret s3'); rewrite ?H6'; try done.
  - fold s2'. rewrite untraced_replay by done. by rewrite txn_result.
  - change (failed_flag s3') with (failed_flag s1'). rewrite H5'.
    unfold failed_flag. by rewrite (rel_hdr _ _ (rel_shared _ _ _ Hrel)).
  - change (buffer_last s3') with (buffer_last s1'). rewrite H2'. apply txn_last'.
  - fold e. unfold SIZEOF_REC in He. lia.
  - change (hdr s3') with (hdr s1'). rewrite H3'. apply txn_locked, (rel_shared _ _ _ Hrel).
  - change (hdr s3') with (hdr s1'). by rewrite H4', (rel_hdr _ _ (rel_shared _ _ _ Hrel)).
  - eapply txn_header_loads. intros a Ha. fold s4'.
    rewrite txn_mem_buffer', txn_mem_s1' by (unfold tail; fold r; lia). done.
  - eapply txn_header_loads. intros a Ha. fold s4'.
    rewrite txn_mem_buffer', txn_mem_s1' by (unfold tail; fold r; lia). done.
Qed.

(** At the end the memories agree outside the new tail. *)
Lemma txn_mem_end :
  agree (fun a => ~ (r + (e - r + 7) / 8 * 8 <= a < g_end g))
    (commit_mem r e ret (memory s4)) (commit_mem r e ret (memory s4')).
Proof.
  intros a Ha. pose proof txn_bounds as (?&?&?). pose proof txn_stored. pose proof txn_end_bounds as [? _].
  unfold SIZEOF_REC in *. apply commit_mem_agree. intros Ha1 Ha2.
  destruct (decide (r <= a < g_end g)) as [Hin|Hout].
  - rewrite txn_mem_buffer' by done. rewrite txn_mem_s1'.
    destruct (decide (r + 8 <= a < r + 11)).
    + rewrite txn_mem_header by (unfold SIZEOF_REC; lia).
      unfold s1. destruct (started_facts (t_no t) (t_re t) (t_blk t) s) as (->&_). rewrite txn_last.
      apply start_mem_agree. lia.
    + rewrite start_mem_out by lia. rewrite <- Hfill by lia. by rewrite commit_mem_out.
  - apply (ok_post_outside _ _ _ Hok ret txn_returned); [apply txn_outside_s3|apply txn_payload_s3|exact Hout].
Qed.

(** The replayed run ends in a related state. *)
Lemma txn_ends_replay :
  related (tail (geom (committed e ret (t_blk t) s4))) (committed e ret (t_blk t) s4)
    (committed e ret (t_blk t) s4').
Proof.
  destruct txn_ends_record as (Hgf&Hm&_). split.
  - apply same_committed, same_set_memory.
    pose proof (same_started (t_no t) (t_re t) (t_blk t) _ _ (rel_shared _ _ _ Hrel)) as H1s.
    unfold s3, s3'. rewrite <- (eta_memory (calling _ _ s2')).
    by apply same_set_memory, same_calling, same_set_memory.
  - assert (memory (committed e ret (t_blk t) s4') = commit_mem r e ret (memory s4')) as ->.
    { rewrite <- txn_last'. unfold s4', s3', s2', s1'. by destruct (t_blk t). }
    rewrite Hgf, Hm. eapply agree_weaken; [|apply txn_mem_end].
    intros a Ha Hb. apply Ha. change (g_end g) with (g_end (unlock (published g e))) in Hb.
    unfold tail. replace (g_last (unlock (published g e))) with (r + (e - r + 7) / 8 * 8); [done|].
    symmetry. apply (g_last_published g e).
Qed.

(** The bytes after the record are left alone. *)
Lemma txn_rest :
  agree (tail (unlock (published g e))) (memory s') (memory (committed e ret (t_blk t) s4')).
Proof.
  intros a Ha. pose proof txn_bounds as (?&?&?). pose proof txn_stored. pose proof txn_end_bounds as [? _].
  assert (memory (committed e ret (t_blk t) s4') = commit_mem r e ret (memory s4')) as ->.
  { rewrite <- txn_last'. unfold s4', s3', s2', s1'. by destruct (t_blk t). }
  unfold tail in Ha. change (g_last (unlock (published g e))) with (g_last (published g e)) in Ha.
  change (g_end (unlock (published g e))) with (g_end g) in Ha.
  rewrite g_last_published in Ha. fold r in Ha. unfold SIZEOF_REC in *.
  rewrite commit_mem_out by lia. rewrite txn_mem_buffer' by (unfold tail; fold r; lia).
  rewrite txn_mem_s1', start_mem_out by lia. done.
Qed.

End Replays.

(** ** Replaying a wrapper *)

(** An initialised thread with nothing pending from rr, whose file data is not
    cloned into the trace. *)
Record quiet (s : st) : Prop := mkQuiet {
  quiet_abort : abort_commit (hdr s) = 0;
  quiet_failed : failed_during_preparation (hdr s) = 0;
  quiet_notify : notify_on_syscall_hook_exit (hdr s) = 0;
  quiet_msg : notify_control_msg (tl s) = 0;
  quiet_spurious : impose_spurious_desched (sv s) = 0;
  quiet_process : process_inited (sv s) <> 0;
  quiet_thread : thread_inited (tl s) <> 0;
  quiet_cloned : cloned_file_data_fd (tl s) < 0 }.

(** A recorded process between two system calls. *)
Record ready (s : st) : Prop := mkReady {
  ready_closed : closed (geom s);
  ready_unlocked : locked (hdr s) = 0;
  ready_quiet : quiet s }.

(** What a recorded call leaves to the next one: the same buffer, one more record
    after the committed ones, and one more stop, at the breakpoint for the new
    end of the records. *)
Record continues (s f : st) : Prop := mkContinues {
  cont_ready : ready f;
  cont_same : same_buffer (geom s) (geom f);
  cont_grows : g_last (geom s) < g_last (geom f);
  cont_stops : breakpoints (events f) =
    breakpoints (events s) ++ [breakpoint_address (num_rec_bytes (hdr f))];
  cont_records : agree (fun a => g_buffer (geom s) <= a < g_last (geom s)) (memory s) (memory f);
  cont_record : record_at (memory f) (g_last (geom s)) (g_last (geom f)) }.

(** What the replayed call leaves: a state related to the recorded one, and the
    records of later calls where rr put them. *)
Record replayed (s' f f' : st) : Prop := mkReplayed {
  rep_related : related (tail (geom f)) f f';
  rep_rest : agree (tail (geom f)) (memory s') (memory f') }.

(** [replayable c s s']: when the recorded run of [c] from [s] returns without
    trapping to rr, and its records have been put back in the replayed state
    [s'], the replayed run returns the same and ends in a related state. *)
Definition replayable {A} (c : M A) (s s' : st) : Prop :=
  forall v f, c s = (Ret v, f) -> traced_calls (events f) = traced_calls (events s) ->
    continues s f /\
    (agree (fun a => g_last (geom s) <= a < g_last (geom f)) (memory f) (memory s') ->
     exists f', c s' = (Ret v, f') /\ replayed s' f f').

Lemma traced_calls_snoc l x : traced_calls (l ++ [x]) = (traced_calls l + traced_calls [x])%nat.
Proof. unfold traced_calls. by rewrite omap_app, length_app. Qed.

Lemma traced_raw_counts call s v f :
  traced_raw_syscall call s = (Ret v, f) -> traced_calls (events f) <> traced_calls (events s).
Proof.
  unfold traced_raw_syscall, raw_syscall. cbv zeta. intros H. cbn [rr_page_has_syscall] in H.
  injection H as _ <-. cbn [events add_event]. rewrite traced_calls_snoc. cbn. lia.
Qed.

(** A record that does not fit: the wrapper traps to rr. *)
Lemma start_reserved call no re blk (k : M Z) s v f :
  good (geom s) -> 0 <= re < 2 ^ 63 ->
  (ok ← start_commit_buffered_syscall no re blk;
   if negb (ok : bool) then traced_raw_syscall call else k) s = (Ret v, f) ->
  traced_calls (events f) = traced_calls (events s) -> reserved (geom s) re.
Proof.
  intros Hg Hre Hrun Htr.
  destruct (start_commit_shape no re blk s Hg Hre) as [[_ H]|[(_&_&H)|(H&_)]]; [| |done];
    rewrite bind_eq, H in Hrun; cbn [negb] in Hrun;
    by apply traced_raw_counts in Hrun.
Qed.

Lemma txn_replayable call t s s' :
  good (geom s) -> locked (hdr s) = SYSCALLBUF_LOCKED_TRACEE -> quiet s ->
  related (tail (geom s)) s s' -> 0 <= t_re t < 2 ^ 63 ->
  (reserved (geom s) (t_re t) -> txn_ok (geom s) (memory s) t) ->
  replayable (run_txn call t) s s'.
Proof.
  intros Hg Hlk Hqt Hrel Hre Hok v f Hrun Htr. pose proof Hqt as [Ha Hf Hn Hm Hs _ _ _].
  assert (g_locked (geom s) = true) as Hl by (unfold geom, geom_of; cbn [g_locked]; by rewrite Hlk).
  pose proof (start_reserved call _ _ _ _ s v f Hg Hre Hrun Htr) as Hres. specialize (Hok Hres).
  pose proof (txn_record (geom s) s s' t call Hg eq_refl Hl Hres Hrel Ha Hf Hs Hok) as Hy.
  apply (yields_record _ _ _ _ _ _ Hy) in Hrun as [-> ->].
  destruct (txn_ends_record (geom s) s t Hg eq_refl Hok) as (Hgf&Hmf&Hold). cbv zeta in Hgf, Hmf, Hold.
  destruct (txn_end_bounds (geom s) s t Hg Hok) as [He Hfit].
  set (ret := s64 _) in *. set (e := t_end t 0 ret) in *. set (f := committed e ret (t_blk t) _) in *.
  split.
  - split.
    + split.
      * rewrite Hgf. split; [|done]. by destruct (good_published _ _ Hg Hfit).
      * unfold f, committed, started. cbv zeta. destruct (t_blk t); cbn; by rewrite Hlk.
      * destruct Hqt. unfold f. by split; destruct (t_blk t).
    + rewrite Hgf. done.
    + rewrite Hgf. change (g_last (unlock (published (geom s) e))) with (g_last (published (geom s) e)).
      rewrite g_last_published. unfold SIZEOF_REC in He.
      pose proof (Z.div_mod (e - g_last (geom s) + 7) 8 ltac:(lia)).
      pose proof (Z.mod_pos_bound (e - g_last (geom s) + 7) 8 ltac:(lia)). lia.
    + unfold f. apply committed_stops. cbn [events set_memory calling add_event set_tl].
      by rewrite breakpoints_snoc, started_stops, app_nil_r.
    + done.
    + rewrite Hgf, Hmf. apply commit_mem_record; [done|done|lia].
  - intros Hfill. rewrite Hgf in Hfill.
    change (g_last (unlock (published (geom s) e))) with (g_last (published (geom s) e)) in Hfill.
    rewrite g_last_published, Hmf in Hfill. eexists. split.
    + eapply yields_replay; [by eapply (txn_replay (geom s) s s' t call)|].
      unfold replaying. by rewrite (rel_gl _ _ (rel_shared _ _ _ Hrel)).
    + split; [by apply (txn_ends_replay (geom s) s s' t Hg eq_refl Hrel Hok)|].
      fold f. rewrite Hgf. by apply (txn_rest (geom s) s s' t Hg eq_refl Hrel Hok).
Qed.

End Txn.
