(* ===== verification/History.v ===== *)
(** * The history of system calls only grows

    [events] is a ghost history; no operation of the library forgets an entry.
    The count of calls that trapped to rr ([traced_calls]) is therefore monotone,
    which lets a run with equal counts at both ends be cut into runs with equal
    counts. *)

From stdpp Require Import base tactics list numbers.
From S2P Require Import Prelude Memory KernelAbi CStrings PreloadInterface Machine SyscallNumbers Syscallbuf Wrappers Hook BufferInv Replay.
Local Open Scope Z_scope.

Definition remembers {A} (c : M A) : Prop :=
  forall s, (traced_calls (events s) <= traced_calls (events (snd (c s))))%nat.

Lemma remembers_bind {A B} (c : M A) (f : A -> M B) :
  remembers c -> (forall a, remembers (f a)) -> remembers (mbind f c).
Proof.
  intros Hc Hf s. rewrite bind_eq. specialize (Hc s). destruct (c s) as [[a|w] s1]; cbn in *; [|done].
  specialize (Hf a s1). lia.
Qed.

Lemma remembers_same {A} (c : M A) : (forall s, events (snd (c s)) = events s) -> remembers c.
Proof. intros H s. by rewrite H. Qed.

Lemma remembers_if {A} (b : bool) (c d : M A) : remembers c -> remembers d -> remembers (if b then c else d).
Proof. by destruct b. Qed.

Lemma remembers_ret {A} (a : A) : remembers (mret a : M A).
Proof. by apply remembers_same. Qed.

Lemma remembers_abort {A} w : remembers (abort w : M A).
Proof. by apply remembers_same. Qed.

Lemma remembers_gets {A} (h : st -> A) : remembers (gets h).
Proof. by apply remembers_same. Qed.

Lemma remembers_mem f : remembers (modify_mem f).
Proof. by apply remembers_same. Qed.

Lemma remembers_hdr f : remembers (modify_hdr f).
Proof. by apply remembers_same. Qed.

Lemma remembers_tl f : remembers (modify_tl f).
Proof. by apply remembers_same. Qed.

Lemma remembers_gl f : remembers (modify_gl f).
Proof. by apply remembers_same. Qed.

Lemma remembers_sv f : remembers (modify_sv f).
Proof. by apply remembers_same. Qed.

Lemma remembers_event e : remembers (modify (add_event e)).
Proof. intros s. cbn [modify snd events add_event]. rewrite traced_calls_snoc. lia. Qed.

Lemma remembers_load n a : remembers (load_m n a).
Proof. by apply remembers_same. Qed.

Lemma remembers_store n a v : remembers (store_m n a v).
Proof. by apply remembers_same. Qed.

Lemma remembers_assert b : remembers (assert_ b).
Proof. by destruct b; apply remembers_same. Qed.

Lemma remembers_fatal_if b : remembers (fatal_if b).
Proof. by destruct b; apply remembers_same. Qed.

Lemma remembers_force : remembers force_traced_syscall_for_chaos_mode.
Proof.
  apply remembers_same. intros s. unfold force_traced_syscall_for_chaos_mode.
  destruct (negb _); [done|]. by destruct (chaos_loop _ _ _ _) as [[[[? ?] ?] ?]|].
Qed.

Section History.
Context {E : Env}.

Lemma remembers_raw e sysno a : remembers (raw_syscall e sysno a).
Proof.
  intros s. unfold raw_syscall. cbv zeta. destruct (rr_page_has_syscall _ _);
    cbn [snd events add_event]; rewrite traced_calls_snoc; lia.
Qed.

Lemma traced_raw_more call s v f :
  traced_raw_syscall call s = (Ret v, f) -> (traced_calls (events s) < traced_calls (events f))%nat.
Proof.
  unfold traced_raw_syscall, raw_syscall. cbv zeta. cbn [rr_page_has_syscall]. intros H.
  injection H as _ <-. cbn [events add_event]. rewrite traced_calls_snoc. cbn. lia.
Qed.

End History.

Create HintDb remembers.

(** Follows the structure of a program. *)
Ltac unfold_head c := lazymatch c with ?f _ => unfold_head f | _ => unfold c end.

Ltac remember_all :=
  repeat (cbv beta zeta; lazymatch goal with
  | |- remembers (mbind _ _) => apply remembers_bind; [|intros ?]
  | |- remembers (if _ then _ else _) => apply remembers_if
  | |- remembers (mret _) => apply remembers_ret
  | |- remembers (abort _) => apply remembers_abort
  | |- remembers (gets _) => apply remembers_gets
  | |- remembers (modify_mem _) => apply remembers_mem
  | |- remembers (modify_hdr _) => apply remembers_hdr
  | |- remembers (modify_tl _) => apply remembers_tl
  | |- remembers (modify_gl _) => apply remembers_gl
  | |- remembers (modify_sv _) => apply remembers_sv
  | |- remembers (modify (add_event _)) => apply remembers_event
  | |- remembers (load_m _ _) => apply remembers_load
  | |- remembers (store_m _ _ _) => apply remembers_store
  | |- remembers (local_memcpy _ _ _) => apply remembers_mem
  | |- remembers (assert_ _) => apply remembers_assert
  | |- remembers (fatal_if _) => apply remembers_fatal_if
  | |- remembers (raw_syscall _ _ _) => apply remembers_raw
  | |- remembers (traced_raw_syscall _) => apply remembers_raw
  | |- remembers force_traced_syscall_for_chaos_mode => apply remembers_force
  | |- remembers (match _ with _ => _ end) => case_match
  | |- remembers ?c => first [assumption | solve [auto 1 with remembers nocore] | progress unfold_head c]
  end).

Section Operations.
Context {E : Env}.

Lemma remembers_prep : remembers prep_syscall.
Proof. remember_all. Qed.

Lemma remembers_prep_fd fd : remembers (prep_syscall_for_fd fd).
Proof. remember_all. Qed.

Lemma remembers_start no re blk : remembers (start_commit_buffered_syscall no re blk).
Proof. remember_all. Qed.

Lemma remembers_untraced nr a : remembers (untraced_syscall nr a).
Proof. remember_all. Qed.

Lemma remembers_untraced_replayed nr a : remembers (untraced_replayed_syscall nr a).
Proof. remember_all. Qed.

Lemma remembers_commit no e ret : remembers (commit_raw_syscall no e ret).
Proof. remember_all. Qed.

Lemma remembers_copy_output n p b b2 : remembers (copy_output_buffer n p b b2).
Proof. remember_all. Qed.

Lemma remembers_input b src n : remembers (memcpy_input_parameter b src n).
Proof. remember_all. Qed.

Lemma remembers_cstring p : remembers (cstring_arg p).
Proof. remember_all. Qed.

Hint Resolve remembers_prep remembers_prep_fd remembers_start remembers_untraced remembers_untraced_replayed remembers_commit remembers_copy_output remembers_input remembers_cstring : remembers.

Lemma remembers_fill_iovs n i iov iov2 ptr : remembers (fill_iovs n i iov iov2 ptr).
Proof. revert i ptr. induction n as [|n IH]; intros i ptr; cbn [fill_iovs]; remember_all. Qed.

Lemma remembers_copy_iovs n i msg msg2 bytes : remembers (copy_iovs n i msg msg2 bytes).
Proof. revert i bytes. induction n as [|n IH]; intros i bytes; cbn [copy_iovs]; remember_all. Qed.

Hint Resolve remembers_fill_iovs remembers_copy_iovs : remembers.

Lemma remembers_sys_generic_nonblocking call : remembers (sys_generic_nonblocking call).
Proof. remember_all. Qed.

Lemma remembers_sys_generic_nonblocking_fd call : remembers (sys_generic_nonblocking_fd call).
Proof. remember_all. Qed.

Lemma remembers_sys_clock_gettime call : remembers (sys_clock_gettime call).
Proof. remember_all. Qed.

Lemma remembers_sys_fcntl64_no_outparams call : remembers (sys_fcntl64_no_outparams call).
Proof. remember_all. Qed.

Lemma remembers_sys_fcntl64_own_ex call : remembers (sys_fcntl64_own_ex call).
Proof. remember_all. Qed.

Lemma remembers_sys_fcntl64_setlk64 call : remembers (sys_fcntl64_setlk64 call).
Proof. remember_all. Qed.

Lemma remembers_sys_fcntl64_setlkw64 call : remembers (sys_fcntl64_setlkw64 call).
Proof. remember_all. Qed.

Lemma remembers_sys_fcntl call : remembers (sys_fcntl call).
Proof. remember_all. Qed.

Lemma remembers_sys_flistxattr call : remembers (sys_flistxattr call).
Proof. remember_all. Qed.

Lemma remembers_sys_safe_nonblocking_ioctl call : remembers (sys_safe_nonblocking_ioctl call).
Proof. remember_all. Qed.

Lemma remembers_sys_ioctl call : remembers (sys_ioctl call).
Proof. remember_all. Qed.

Lemma remembers_sys_futex call : remembers (sys_futex call).
Proof. remember_all. Qed.

Lemma remembers_sys_generic_getdents call : remembers (sys_generic_getdents call).
Proof. remember_all. Qed.

Lemma remembers_sys_gettimeofday call : remembers (sys_gettimeofday call).
Proof. remember_all. Qed.

Lemma remembers_sys_generic_getxattr call : remembers (sys_generic_getxattr call).
Proof. remember_all. Qed.

Lemma remembers_sys_fgetxattr call : remembers (sys_fgetxattr call).
Proof. remember_all. Qed.

Lemma remembers_sys_generic_listxattr call : remembers (sys_generic_listxattr call).
Proof. remember_all. Qed.

Lemma remembers_sys_madvise call : remembers (sys_madvise call).
Proof. remember_all. Qed.

Lemma remembers_sys_mprotect call : remembers (sys_mprotect call).
Proof. remember_all. Qed.

Lemma remembers_sys_open call : remembers (sys_open call).
Proof. remember_all. Qed.

Lemma remembers_sys_creat call : remembers (sys_creat call).
Proof. remember_all. Qed.

Lemma remembers_sys_openat call : remembers (sys_openat call).
Proof. remember_all. Qed.

Lemma remembers_sys_poll call : remembers (sys_poll call).
Proof. remember_all. Qed.

Lemma remembers_sys_epoll_wait call : remembers (sys_epoll_wait call).
Proof. remember_all. Qed.

Lemma remembers_sys_read_cloned fd buf count : remembers (sys_read_cloned fd buf count).
Proof. remember_all. Qed.

Hint Resolve remembers_sys_read_cloned : remembers.

Lemma remembers_sys_read call : remembers (sys_read call).
Proof. remember_all. Qed.

Lemma remembers_sys_pread64 call : remembers (sys_pread64 call).
Proof. remember_all. Qed.

Lemma remembers_sys_readlink call : remembers (sys_readlink call).
Proof. remember_all. Qed.

Lemma remembers_sys_recvfrom call : remembers (sys_recvfrom call).
Proof. remember_all. Qed.

Lemma remembers_sys_recvmsg call : remembers (sys_recvmsg call).
Proof. remember_all. Qed.

Lemma remembers_sys_sendmsg call : remembers (sys_sendmsg call).
Proof. remember_all. Qed.

Lemma remembers_sys_sendto call : remembers (sys_sendto call).
Proof. remember_all. Qed.

Lemma remembers_sys_setsockopt call : remembers (sys_setsockopt call).
Proof. remember_all. Qed.

Lemma remembers_sys_socketpair call : remembers (sys_socketpair call).
Proof. remember_all. Qed.

Lemma remembers_sys_time call : remembers (sys_time call).
Proof. remember_all. Qed.

Lemma remembers_sys_xstat64 call : remembers (sys_xstat64 call).
Proof. remember_all. Qed.

Lemma remembers_sys_quotactl call : remembers (sys_quotactl call).
Proof. remember_all. Qed.

Lemma remembers_sys_statfs call : remembers (sys_statfs call).
Proof. remember_all. Qed.

Lemma remembers_sys_write call : remembers (sys_write call).
Proof. remember_all. Qed.

Lemma remembers_sys_pwrite64 call : remembers (sys_pwrite64 call).
Proof. remember_all. Qed.

Lemma remembers_sys_writev call : remembers (sys_writev call).
Proof. remember_all. Qed.

Lemma remembers_sys_ptrace call : remembers (sys_ptrace call).
Proof. remember_all. Qed.

Lemma remembers_sys_getrusage call : remembers (sys_getrusage call).
Proof. remember_all. Qed.

Lemma remembers_sys_rt_sigprocmask call : remembers (sys_rt_sigprocmask call).
Proof. remember_all. Qed.

Lemma remembers_table : Forall (fun p => forall call, remembers (snd p call)) wrapper_table.
Proof.
  unfold wrapper_table, CASES, GENERIC_NONBLOCKING, GENERIC_NONBLOCKING_FD, XSTAT64, STATFS.
  cbn [map app].
  repeat (apply List.Forall_cons; [intros call; cbn [snd]|]); try apply List.Forall_nil.
  1-17: apply remembers_sys_generic_nonblocking.
  1-7: apply remembers_sys_generic_nonblocking_fd.
  1: apply remembers_sys_clock_gettime.
  1: apply remembers_sys_creat.
  1: apply remembers_sys_epoll_wait.
  1: apply remembers_sys_fcntl.
  1: apply remembers_sys_fgetxattr.
  1: apply remembers_sys_flistxattr.
  1: apply remembers_sys_futex.
  1: apply remembers_sys_generic_getdents.
  1: apply remembers_sys_generic_getdents.
  1: apply remembers_sys_getrusage.
  1: apply remembers_sys_gettimeofday.
  1: apply remembers_sys_generic_getxattr.
  1: apply remembers_sys_ioctl.
  1: apply remembers_sys_generic_getxattr.
  1: apply remembers_sys_generic_listxattr.
  1: apply remembers_sys_generic_listxattr.
  1: apply remembers_sys_madvise.
  1: apply remembers_sys_mprotect.
  1: apply remembers_sys_open.
  1: apply remembers_sys_openat.
  1: apply remembers_sys_poll.
  1: apply remembers_sys_pread64.
  1: apply remembers_sys_pwrite64.
  1: apply remembers_sys_ptrace.
  1: apply remembers_sys_quotactl.
  1: apply remembers_sys_read.
  1: apply remembers_sys_readlink.
  1: apply remembers_sys_recvfrom.
  1: apply remembers_sys_recvmsg.
  1: apply remembers_sys_rt_sigprocmask.
  1: apply remembers_sys_sendmsg.
  1: apply remembers_sys_sendto.
  1: apply remembers_sys_setsockopt.
  1: apply remembers_sys_socketpair.
  1: apply remembers_sys_time.
  1: apply remembers_sys_write.
  1: apply remembers_sys_writev.
  1-3: apply remembers_sys_xstat64.
  all: apply remembers_sys_statfs.
Qed.

Lemma remembers_dispatch table call :
  Forall (fun p => forall call, remembers (snd p call)) table -> remembers (dispatch table call).
Proof.
  intros H. induction H as [|[n w] table Hw _ IH]; cbn [dispatch]; [apply remembers_raw|].
  apply remembers_if; [apply Hw|done].
Qed.

Lemma remembers_internal call : remembers (syscall_hook_internal call).
Proof. apply remembers_dispatch, remembers_table. Qed.

End Operations.

#[export] Hint Resolve remembers_prep remembers_prep_fd remembers_start remembers_untraced
  remembers_untraced_replayed remembers_commit remembers_copy_output remembers_input remembers_cstring : remembers.
