(* ===== verification/ReplayWrappers.v ===== *)
(** * The wrappers replay

    [Replay.txn_replayable] instantiated: each wrapper that makes one buffered
    call is a transaction whose input parameters are copied into the record
    before the call and whose outputs are copied from the record to the user's
    buffers after it. *)

From stdpp Require Import base tactics list numbers.
From S2P Require Import Prelude Memory KernelAbi CStrings PreloadInterface Machine SyscallNumbers Syscallbuf Wrappers Hook BufferInv WrapperInv HookInv Replay.
Local Open Scope Z_scope.

(** ** Transactions that copy *)

(** Copies (destination, source, length), done in order as [local_memcpy] does
    them. *)
Definition copies := list (Z * Z * Z).

Fixpoint do_copies (l : copies) (m : mem) : mem :=
  match l with
  | [] => m
  | (d, src, n) :: l => do_copies l (rep_movsb (Z.to_nat (u32 n)) d src m)
  end.

Definition to_self (l : copies) : copies := map (fun '(d, _, n) => (d, d, n)) l.

Definition io (no re : Z) (blk : blockness) (nr : Z) (a : list Z) (ins : copies)
    (outs : Z -> Z -> copies) (fin : Z -> Z -> Z) : transaction :=
  mkTransaction no re blk nr a (fun replay => do_copies (if replay then to_self ins else ins))
    (fun failed ret => do_copies (outs failed ret)) fin.

(** A buffer of the user's program: outside the syscall buffer. *)
Definition user_range (g : geometry) (p n : Z) : Prop := disjoint_rng p n (g_buffer g) (g_size g).

Definition to_record (g : geometry) (c : Z * Z * Z) : Prop :=
  let '(d, _, n) := c in g_last g + SIZEOF_REC <= d /\ d + u32 n <= g_end g.

Definition from_record (g : geometry) (fin : Z) (c : Z * Z * Z) : Prop :=
  let '(d, src, n) := c in
  user_range g d (u32 n) /\ g_last g + SIZEOF_REC <= src /\ src + u32 n <= fin.

Lemma u32_nat n : Z.of_nat (Z.to_nat (u32 n)) = u32 n.
Proof. apply Z2Nat.id, wrapu_range. lia. Qed.

Lemma do_copies_out l m a :
  Forall (fun '(d, _, n) => ~ (d <= a < d + u32 n)) l -> do_copies l m a = m a.
Proof.
  intros H. revert m. induction H as [|[[d src] n] l H _ IH]; intros m; cbn [do_copies]; [done|].
  rewrite IH. apply rep_movsb_out. by rewrite u32_nat.
Qed.

Lemma do_copies_self l m a : do_copies (to_self l) m a = m a.
Proof.
  revert m. induction l as [|[[d src] n] l IH]; intros m; cbn [to_self map do_copies]; [done|].
  unfold to_self in IH. rewrite IH. apply rep_movsb_self.
Qed.

Lemma do_copies_agree g fin l m m' :
  fin <= g_end g -> g_buffer g <= g_last g -> Forall (from_record g fin) l ->
  agree (fun a => ~ tail g a) m m' ->
  agree (fun a => g_last g + SIZEOF_REC <= a < fin) m m' ->
  agree (fun a => ~ tail g a) (do_copies l m) (do_copies l m').
Proof.
  intros Hf Hb Hl. revert m m'. induction Hl as [|[[d src] n] l [Hd Hs] _ IH]; intros m m' H1 H2;
    cbn [do_copies]; [done|].
  unfold user_range, disjoint_rng in Hd. fold (g_end g) in Hd. unfold SIZEOF_REC in *.
  assert (0 <= u32 n) by (apply wrapu_range; lia).
  assert (u32 n <= 0 \/ d <= src \/ src + Z.of_nat (Z.to_nat (u32 n)) <= d) as Hov.
  { rewrite u32_nat. unfold g_end in *. destruct Hd as [|[|[|]]]; lia. }
  destruct Hov as [Hz|Hov].
  { replace (Z.to_nat (u32 n)) with O by lia. by apply IH. }
  apply IH.
  - intros a Ha. apply (rep_movsb_agree _ d src m m' (fun a => ~ tail g a)); [done..| |by left].
    intros b Hr. unfold rng in Hr. rewrite u32_nat in Hr. apply H2. lia.
  - intros a Ha. rewrite !rep_movsb_out; [by apply H2| |];
      rewrite u32_nat; unfold g_end in *; destruct Hd as [|[|[|]]]; lia.
Qed.

Lemma io_ok g m0 no re blk nr a ins outs fin :
  good g -> 0 <= no < 2 ^ 16 -> described nr (pad8 a) = true -> Forall (to_record g) ins ->
  (forall m b, agree (fun a => ~ tail g a) m m0 ->
     in_writes (kernel_writes nr (pad8 a) (do_copies ins m)) b -> g_last g + SIZEOF_REC <= b < g_end g) ->
  (forall ret, returned nr a ret -> Forall (from_record g (Z.min (fin 0 ret) (g_end g))) (outs 0 ret)) ->
  (forall ret, returned nr a ret -> g_last g + SIZEOF_REC <= fin 0 ret /\ fits g (fin 0 ret)) ->
  txn_ok g m0 (io no re blk nr a ins outs fin).
Proof.
  intros Hg Hno Hdes Hins Hw Houts Hfin.
  assert (g_buffer g <= g_last g) by (destruct Hg; unfold g_last, SIZEOF_HDR; lia).
  split; cbn [io t_no t_nr t_args t_pre t_post t_end]; try done.
  - intros m b Hb. apply do_copies_out. eapply Forall_impl; [|exact Hins].
    intros [[d src] n] [H1 H2]. lia.
  - intros m m' Hm b Hb. rewrite do_copies_self, do_copies_out; [by apply Hm|].
    eapply Forall_impl; [|exact Hins]. intros [[d src] n] [H1 H2] Hx. apply Hb.
    unfold tail, SIZEOF_REC in *. lia.
  - intros m b _. apply do_copies_self.
  - intros ret Hret m b Hb. apply do_copies_out. eapply Forall_impl; [|by apply Houts].
    intros [[d src] n] [H1 _]. unfold user_range, disjoint_rng, g_end in *. lia.
  - intros ret Hret m m' H1 H2.
    eapply (do_copies_agree g (Z.min (fin 0 ret) (g_end g))); [lia|done|by apply Houts|done|].
    eapply agree_weaken; [|exact H2]. intros b Hb. cbv beta in *. lia.
Qed.

(** ** From transactions to wrappers *)

Section Combinators.
Context {E : Env} {Q : QuietKernel E} {K : KernelContract E}.

Definition locked_state (s : st) : st :=
  set_hdr (set_locked (Z.lor (locked (hdr s)) SYSCALLBUF_LOCKED_TRACEE) (hdr s)) s.

Lemma prep_run s :
  buffer (tl s) <> 0 -> prep_syscall s = (Ret (padd (buffer_last s) SIZEOF_REC), locked_state s).
Proof.
  intros Hb. unfold prep_syscall. rewrite bind_eq. cbn [gets]. unfold buffer_hdr at 1.
  destruct (Z.eqb_spec (buffer (tl s)) 0); [done|]. done.
Qed.

Lemma ready_good s : ready s -> good (geom s).
Proof. intros []. by apply closed_good. Qed.

Lemma same_locked s s' : same_shared s s' -> same_shared (locked_state s) (locked_state s').
Proof. intros H. unfold locked_state. rewrite (rel_hdr _ _ H). by apply same_set_hdr. Qed.

(** Facts both processes share at the start of a wrapper. *)
Lemma prep_both s s' :
  ready s -> same_shared s s' ->
  prep_syscall s = (Ret (g_last (geom s) + SIZEOF_REC), locked_state s) /\
  prep_syscall s' = (Ret (g_last (geom s) + SIZEOF_REC), locked_state s').
Proof.
  intros Hr Hs. pose proof (ready_good s Hr) as Hg. pose proof (good_last_range _ Hg).
  assert (buffer (tl s) <> 0) by (destruct Hg; cbn in *; lia).
  assert (padd (buffer_last s) SIZEOF_REC = g_last (geom s) + SIZEOF_REC) as Hp.
  { rewrite buffer_last_eq by done. apply wrapu_small. unfold SIZEOF_REC. lia. }
  split; rewrite prep_run by (rewrite ?(rel_tl _ _ Hs); done); [|rewrite (same_last _ _ Hs)]; by rewrite Hp.
Qed.

Lemma replayable_ext {A} (c d : M A) s s' : c s = d s -> c s' = d s' -> replayable d s s' -> replayable c s s'.
Proof. intros H1 H2 H v f. rewrite H1, H2. apply H. Qed.

Lemma replayable_locked {A} (c : M A) s s' :
  ready s -> replayable c (locked_state s) (locked_state s') ->
  replayable (fun x => c (locked_state x)) s s'.
Proof.
  intros Hr H v f Hrun Htr. destruct (H v f Hrun Htr) as [[Hrdy Hsame Hgrow Hbp Hrecs Hrec] Hrep].
  unfold locked_state in Hsame, Hgrow, Hrecs, Hrec, Hrep.
  rewrite geom_lock in Hsame, Hgrow, Hrecs, Hrec, Hrep. split; [by split|].
  intros Hfill. destruct (Hrep Hfill) as (f'&Hf'&[]). by exists f'.
Qed.

(** [prep_syscall] and what follows it. *)
Lemma replayable_prep_gen (body : Z -> M Z) (c : M Z) s s' :
  ready s -> same_shared s s' ->
  (forall x, body (g_last (geom s) + SIZEOF_REC) x = c x) ->
  replayable c (locked_state s) (locked_state s') -> replayable (mbind body prep_syscall) s s'.
Proof.
  intros Hr Hs Hb Hc. destruct (prep_both s s' Hr Hs) as [H1 H2].
  apply (replayable_ext _ (fun x => c (locked_state x))).
  - rewrite bind_eq, H1. apply Hb.
  - rewrite bind_eq, H2. apply Hb.
  - by apply replayable_locked.
Qed.

Lemma locked_txn_replayable call t s s' :
  ready s -> related (tail (geom s)) s s' ->
  0 <= t_re t < 2 ^ 63 -> (reserved (lock (geom s)) (t_re t) -> txn_ok (lock (geom s)) (memory s) t) ->
  replayable (run_txn call t) (locked_state s) (locked_state s').
Proof.
  intros Hr [Hs Hm] Hre Hok. pose proof (ready_good s Hr) as Hg.
  assert (geom (locked_state s) = lock (geom s)) as Hl by apply geom_lock.
  destruct Hr as [_ Hlk Hq]. apply txn_replayable; rewrite ?Hl; try done.
  - by apply good_lock.
  - cbn. by rewrite Hlk.
  - by destruct Hq; split.
  - split; [by apply same_locked|done].
Qed.

Lemma replayable_prep call (body : Z -> M Z) t s s' :
  ready s -> related (tail (geom s)) s s' ->
  (forall x, body (g_last (geom s) + SIZEOF_REC) x = run_txn call t x) ->
  0 <= t_re t < 2 ^ 63 -> (reserved (lock (geom s)) (t_re t) -> txn_ok (lock (geom s)) (memory s) t) ->
  replayable (mbind body prep_syscall) s s'.
Proof.
  intros Hr Hrel Hb Hre Hok. apply (replayable_prep_gen body (run_txn call t)); [done|apply Hrel|done|].
  by apply locked_txn_replayable.
Qed.

(** [prep_syscall_for_fd]: a descriptor that is not buffered traps to rr. *)
Lemma replayable_prep_fd call fd (body : Z -> M Z) t no0 re0 blk0 k0 s s' :
  ready s -> related (tail (geom s)) s s' ->
  (forall x, body (g_last (geom s) + SIZEOF_REC) x = run_txn call t x) ->
  (forall x, body 0 x = (ok ← start_commit_buffered_syscall no0 re0 blk0;
     if negb (ok : bool) then traced_raw_syscall call else k0) x) ->
  0 <= t_re t < 2 ^ 63 -> 0 <= re0 < g_buffer (geom s) ->
  (reserved (lock (geom s)) (t_re t) -> txn_ok (lock (geom s)) (memory s) t) ->
  replayable (mbind body (prep_syscall_for_fd fd)) s s'.
Proof.
  intros Hr Hrel Hb Hb0 Hre Hre0 Hok. pose proof (ready_good s Hr) as Hg.
  pose proof (good_last_range _ Hg). assert (g_buffer (geom s) <= g_last (geom s)).
  { destruct Hg. unfold g_last, SIZEOF_HDR. lia. }
  assert (is_bufferable_fd fd (gl s') = is_bufferable_fd fd (gl s)) as Hfd.
  { by rewrite (rel_gl _ _ (rel_shared _ _ _ Hrel)). }
  destruct (is_bufferable_fd fd (gl s)) eqn:Hfds.
  - apply (replayable_ext _ (mbind body prep_syscall));
      [| |by apply (replayable_prep call body t)];
      unfold prep_syscall_for_fd; rewrite bind_assoc, bind_eq; cbn [gets]; by rewrite ?Hfd, ?Hfds.
  - intros v f Hrun Htr. exfalso. unfold prep_syscall_for_fd in Hrun.
    rewrite bind_assoc, bind_eq in Hrun. cbn [gets] in Hrun. rewrite Hfds in Hrun. cbn [negb] in Hrun.
    rewrite bind_ret_l, Hb0 in Hrun.
    destruct (start_reserved call no0 re0 blk0 k0 s v f Hg ltac:(lia) Hrun Htr) as [Hmin _]. lia.
Qed.

End Combinators.

(** ** Shapes of wrapper bodies *)

Section Shapes.
Context {E : Env}.

Lemma bind_ext {A B} (c : M A) (f h : A -> M B) x :
  (forall a y, f a y = h a y) -> mbind f c x = mbind h c x.
Proof. intros H. rewrite !bind_eq. destruct (c x) as [[a|w] y]; [apply H|done]. Qed.

Lemma run_txn_eq call t (k : M Z) x :
  (forall y, k y = txn_body t y) ->
  (ok ← start_commit_buffered_syscall (t_no t) (t_re t) (t_blk t);
   if negb (ok : bool) then traced_raw_syscall call else k) x = run_txn call t x.
Proof. intros H. apply bind_ext. intros [] y; [apply H|done]. Qed.

Lemma modify_mem_id x : modify_mem (fun m => m) x = (Ret tt, x).
Proof. unfold modify_mem, modify. by rewrite eta_memory. Qed.

(** The part of a transaction after the call. *)
Definition io_tail (no : Z) (outs : Z -> Z -> copies) (fin : Z -> Z -> Z) (ret : Z) : M Z :=
  failed ← gets failed_flag;
  modify_mem (do_copies (outs failed ret));;
  commit_raw_syscall no (fin failed ret) ret.

(** No input parameters. *)
Lemma io_body_no_input no re blk nr a outs fin (k : Z -> M Z) y :
  (forall ret z, k ret z = io_tail no outs fin ret z) ->
  (ret ← untraced_syscall nr a; k ret) y = txn_body (io no re blk nr a [] outs fin) y.
Proof.
  intros H. unfold txn_body, io. cbn [t_no t_nr t_args t_pre t_post t_end].
  rewrite (bind_eq (gets replaying)). cbn [gets]. rewrite (bind_eq (modify_mem _)).
  assert (modify_mem (do_copies (if replaying y then to_self [] else [])) y = (Ret tt, y)) as ->.
  { destruct (replaying y); apply modify_mem_id. }
  apply bind_ext. apply H.
Qed.

(** Input parameters copied by [memcpy_input_parameter] when [b] holds. *)
Lemma io_body_input no re blk nr a (b : bool) d src n outs fin (k : Z -> M Z) y :
  (forall ret z, k ret z = io_tail no outs fin ret z) ->
  ((if b then memcpy_input_parameter d src n else mret tt);; ret ← untraced_syscall nr a; k ret) y =
  txn_body (io no re blk nr a (if b then [(d, src, n)] else []) outs fin) y.
Proof.
  intros H. destruct b.
  - unfold txn_body, io. cbn [t_no t_nr t_args t_pre t_post t_end].
    unfold memcpy_input_parameter. rewrite bind_assoc. apply bind_ext. intros rp z.
    rewrite !bind_eq. destruct rp; cbn [to_self map do_copies modify_mem modify]; apply bind_ext, H.
  - rewrite bind_ret_l. by apply io_body_no_input.
Qed.

(** Nothing is copied back. *)
Lemma io_tail_plain no e ret z :
  commit_raw_syscall no e ret z = io_tail no (fun _ _ => []) (fun _ _ => e) ret z.
Proof.
  unfold io_tail. rewrite bind_eq. cbn [gets do_copies]. rewrite bind_eq.
  by rewrite modify_mem_id.
Qed.

(** A copy of fixed size under a condition, possibly on the flag. *)
Lemma copy_if (b : bool) d src n z :
  (if b then local_memcpy d src n else mret tt) z =
  modify_mem (do_copies (if b then [(d, src, n)] else [])) z.
Proof. destruct b; [done|]. symmetry. apply modify_mem_id. Qed.

Lemma io_tail_copy no e (cond : Z -> Z -> bool) d src n ret z :
  (failed ← gets (fun s => failed_during_preparation (hdr s));
   (if cond failed ret then local_memcpy d src n else mret tt);;
   commit_raw_syscall no e ret) z =
  io_tail no (fun failed ret => if cond failed ret then [(d, src, n)] else []) (fun _ _ => e) ret z.
Proof.
  unfold io_tail. apply bind_ext. intros failed y. rewrite !bind_eq, copy_if. done.
Qed.

(** [copy_output_buffer]. *)
Definition co_none (n buf2 failed : Z) : bool := (buf2 =? 0) || (s32 n <=? 0) || nz failed.

Definition co_outs (n buf buf2 failed : Z) : copies :=
  if co_none n buf2 failed then [] else [(buf, buf2, s32 n)].

Definition co_end (n ptr buf2 failed : Z) : Z :=
  if buf2 =? 0 then ptr else if (s32 n <=? 0) || nz failed then buf2 else padd buf2 (s32 n).

Lemma io_tail_output no (count : Z -> Z) ptr buf buf2 ret z :
  (e ← copy_output_buffer (count ret) ptr buf buf2; commit_raw_syscall no e ret) z =
  io_tail no (fun failed ret => co_outs (count ret) buf buf2 failed)
    (fun failed ret => co_end (count ret) ptr buf2 failed) ret z.
Proof.
  unfold io_tail, copy_output_buffer, co_outs, co_end, co_none. cbv zeta. rewrite (bind_eq (gets failed_flag)).
  cbn [gets]. destruct (buf2 =? 0); cbn [orb].
  - rewrite bind_ret_l, bind_eq. cbn [do_copies]. by rewrite modify_mem_id.
  - rewrite bind_assoc, bind_eq. cbn [gets]. fold (failed_flag z).
    destruct ((s32 (count ret) <=? 0) || nz (failed_flag z)).
    + rewrite bind_ret_l, bind_eq. cbn [do_copies]. by rewrite modify_mem_id.
    + by rewrite bind_assoc.
Qed.

End Shapes.

(** ** Wrappers without output *)

Section Wrappers.
Context {E : Env} {Q : QuietKernel E} {K : KernelContract E}.

(** What is known of the two processes when a wrapper starts. *)
Definition start_ok (s s' : st) : Prop := ready s /\ related (tail (geom s)) s s'.

Lemma start_facts s s' : start_ok s s' ->
  good (lock (geom s)) /\ 2 ^ 33 <= g_buffer (geom s) < 2 ^ 62 /\
  g_buffer (geom s) <= g_last (geom s) < 2 ^ 62.
Proof.
  intros [Hr _]. pose proof (ready_closed s Hr) as Hc. destruct (closed_facts _ Hc).
  split; [|done]. by apply good_lock, closed_good.
Qed.

Lemma in_writes_nil b : ~ in_writes [] b.
Proof. intros (p&n&Hin&_). by apply elem_of_nil in Hin. Qed.

(** A record without payload and a call without output. *)
Lemma plain_ok g m0 no blk nr a :
  good g -> 0 <= no < 2 ^ 16 -> described nr (pad8 a) = true ->
  (forall m b, ~ in_writes (kernel_writes nr (pad8 a) m) b) ->
  reserved g (g_last g + SIZEOF_REC) ->
  txn_ok g m0 (io no (g_last g + SIZEOF_REC) blk nr a [] (fun _ _ => []) (fun _ _ => g_last g + SIZEOF_REC)).
Proof.
  intros Hg Hno Hd Hw Hres. apply io_ok; try done.
  - intros m b _ Hb. by apply Hw in Hb.
  - intros ret _. split; [done|]. eapply fits_reserved; [done|]. unfold SIZEOF_REC. lia.
Qed.

Lemma plain_body no p blk nr a call x :
  (ok ← start_commit_buffered_syscall no p blk;
   if negb (ok : bool) then traced_raw_syscall call
   else ret ← untraced_syscall nr a; commit_raw_syscall no p ret) x =
  run_txn call (io no p blk nr a [] (fun _ _ => []) (fun _ _ => p)) x.
Proof.
  apply (run_txn_eq call (io no p blk nr a [] (fun _ _ => []) (fun _ _ => p))).
  intros y. apply io_body_no_input. intros ret z. apply io_tail_plain.
Qed.

Lemma replay_plain call no blk nr a s s' :
  start_ok s s' -> 0 <= no < 2 ^ 16 -> described nr (pad8 a) = true ->
  (forall m b, ~ in_writes (kernel_writes nr (pad8 a) m) b) ->
  replayable (ptr ← prep_syscall;
    ok ← start_commit_buffered_syscall no ptr blk;
    if negb (ok : bool) then traced_raw_syscall call
    else ret ← untraced_syscall nr a; commit_raw_syscall no ptr ret) s s'.
Proof.
  intros Hst Hno Hd Hw. pose proof (start_facts s s' Hst) as (Hg&Hb&Hl). destruct Hst as [Hr Hrel].
  eapply (replayable_prep call); [done..|intros x; apply plain_body| |].
  - unfold SIZEOF_REC. cbn [t_re io]. lia.
  - by apply (plain_ok (lock (geom s))).
Qed.

Lemma replay_plain_fd call fd no blk nr a s s' :
  start_ok s s' -> 0 <= no < 2 ^ 16 -> described nr (pad8 a) = true ->
  (forall m b, ~ in_writes (kernel_writes nr (pad8 a) m) b) ->
  replayable (ptr ← prep_syscall_for_fd fd;
    ok ← start_commit_buffered_syscall no ptr blk;
    if negb (ok : bool) then traced_raw_syscall call
    else ret ← untraced_syscall nr a; commit_raw_syscall no ptr ret) s s'.
Proof.
  intros Hst Hno Hd Hw. pose proof (start_facts s s' Hst) as (Hg&Hb&Hl). destruct Hst as [Hr Hrel].
  eapply (replayable_prep_fd call fd); [done..|intros x; apply plain_body|intros x; reflexivity| | |].
  - unfold SIZEOF_REC. cbn [t_re io]. lia.
  - lia.
  - by apply (plain_ok (lock (geom s))).
Qed.

(** A step that changes neither the geometry nor memory. *)
Lemma replayable_step {A B} (c : M A) (d : M B) s s' t t' (f : B -> A) :
  (forall v x, d t = (Ret v, x) -> c s = (Ret (f v), x)) ->
  (forall v x, c s = (Ret v, x) -> exists u, v = f u /\ d t = (Ret u, x)) ->
  (forall v x, d t' = (Ret v, x) -> c s' = (Ret (f v), x)) ->
  geom t = geom s -> memory t = memory s -> memory t' = memory s' ->
  events t = events s ->
  replayable d t t' -> replayable c s s'.
Proof.
  intros H1 H2 H3 Hg Hm Hm' He Hd v x Hrun Htr. destruct (H2 v x Hrun) as (u&->&Hu).
  destruct (Hd u x Hu ltac:(congruence)) as [[C1 C2 C3 C5 C4 C6] Hrep].
  rewrite Hg in C2, C3, C4, C6, Hrep.
  rewrite Hm in C4. rewrite He in C5. split; [by split|]. intros Hfill. rewrite Hm' in Hrep.
  destruct (Hrep Hfill) as (x'&Hx'&[Hrel Hrest]). rewrite Hm' in Hrest.
  exists x'. split; [by apply H3|by split].
Qed.

Lemma replayable_map {A B} (c : M A) (h : A -> B) s s' :
  replayable c s s' -> replayable (r ← c; mret (h r)) s s'.
Proof.
  intros H. apply (replayable_step _ c s s' s s' h); try done.
  - intros v x Hx. by rewrite bind_eq, Hx.
  - intros v x Hx. apply bind_ret_inv in Hx as (u&y&Hu&Hx). unfold mret, M_ret in Hx.
    injection Hx as <- <-. eauto.
  - intros v x Hx. by rewrite bind_eq, Hx.
Qed.

Lemma skip_assert {A B} (b : bool) (c : M A) (k : A -> M B) x :
  b = true -> (p ← c; assert_ b;; k p) x = (p ← c; k p) x.
Proof. intros ->. by apply bind_ext. Qed.

Lemma replayable_assert {A B} (b : bool) (c : M A) (k : A -> M B) s s' :
  b = true -> replayable (p ← c; k p) s s' -> replayable (p ← c; assert_ b;; k p) s s'.
Proof. intros Hb. by apply replayable_ext; apply skip_assert. Qed.

Lemma traced_not_replayable call s s' : replayable (traced_raw_syscall call) s s'.
Proof. intros v f Hrun Htr. by apply traced_raw_counts in Hrun. Qed.

Lemma replayable_traced_if (b : bool) call (k : M Z) s s' :
  (b = false -> replayable k s s') -> replayable (if b then traced_raw_syscall call else k) s s'.
Proof. intros H. destruct b; [apply traced_not_replayable|by apply H]. Qed.

(** Chaos mode makes the same choice in both processes. *)
Lemma force_both s s' :
  same_shared s s' ->
  (exists d t t', force_traced_syscall_for_chaos_mode s = (Ret d, t) /\
     force_traced_syscall_for_chaos_mode s' = (Ret d, t') /\
     same_shared t t' /\ geom t = geom s /\ memory t = memory s /\ memory t' = memory s' /\
     hdr t = hdr s /\ tl t = tl s /\ impose_spurious_desched (sv t) = impose_spurious_desched (sv s) /\
     process_inited (sv t) = process_inited (sv s) /\ events t = events s) \/
  (exists w, force_traced_syscall_for_chaos_mode s = (Abort w, s)).
Proof.
  intros Hs. unfold force_traced_syscall_for_chaos_mode.
  assert (in_chaos (gl s') = in_chaos (gl s)) as -> by (by rewrite (rel_gl _ _ Hs)).
  assert (random_seed (gl s') = random_seed (gl s)) as -> by (by rewrite (rel_gl _ _ Hs)).
  rewrite (rel_sv _ _ Hs). destruct (negb _); [left; by exists false, s, s'|].
  destruct (chaos_loop _ _ _ _) as [[[[d tr] bu] seed]|]; [left|right; eauto].
  do 3 eexists. do 2 (split; [reflexivity|]). destruct Hs as [R1 R2 R3 R4 R5 R6 R7].
  split; [|done]. split; try done. cbn [gl set_gl]. by rewrite R3.
Qed.

Lemma replayable_force call (k : M Z) s s' :
  start_ok s s' ->
  (forall t t', start_ok t t' -> geom t = geom s -> memory t = memory s -> memory t' = memory s' ->
     tl t = tl s -> replayable k t t') ->
  replayable (force ← force_traced_syscall_for_chaos_mode;
              if (force : bool) then traced_raw_syscall call else k) s s'.
Proof.
  intros [Hr [Hs Hm]] Hk.
  destruct (force_both s s' Hs) as [(d&t&t'&H1&H2&H3&H4&H5&H6&H7&H8&H9&H9'&H10)|[w Hw]].
  - destruct d.
    + intros v f Hrun Htr. rewrite bind_eq, H1 in Hrun. apply traced_raw_counts in Hrun. congruence.
    + apply (replayable_step _ k s s' t t' id); try done; try congruence.
      * intros v x Hx. by rewrite bind_eq, H1, Hx.
      * intros v x Hx. rewrite bind_eq, H1 in Hx. eauto.
      * intros v x Hx. by rewrite bind_eq, H2, Hx.
      * apply Hk; try done. split; [|split; [done|by rewrite H4, H5, H6]].
        destruct Hr as [R1 R2 []]. split; [congruence..|]. split; congruence.
  - intros v f Hrun. by rewrite bind_eq, Hw in Hrun.
Qed.

Hint Resolve in_writes_nil : core.

Lemma replay_generic_nonblocking call s s' :
  no call ∈ GENERIC_NONBLOCKING -> start_ok s s' -> replayable (sys_generic_nonblocking call) s s'.
Proof.
  intros Hno Hst. apply replay_plain; [done|..];
    unfold GENERIC_NONBLOCKING in Hno; repeat (apply elem_of_cons in Hno as [->|Hno]; [done|]);
    by apply elem_of_nil in Hno.
Qed.

Lemma replay_generic_nonblocking_fd call s s' :
  no call ∈ GENERIC_NONBLOCKING_FD -> start_ok s s' -> replayable (sys_generic_nonblocking_fd call) s s'.
Proof.
  intros Hno Hst. apply replay_plain_fd; [done|..];
    unfold GENERIC_NONBLOCKING_FD in Hno; repeat (apply elem_of_cons in Hno as [->|Hno]; [done|]);
    by apply elem_of_nil in Hno.
Qed.

Lemma replay_write call s s' :
  no call = SYS_write -> start_ok s s' -> replayable (sys_write call) s s'.
Proof.
  intros Hno Hst. apply replayable_force; [done|]. intros t t' Ht _ _ _ _. cbv zeta.
  apply replayable_assert; [by rewrite Hno|]. by apply replay_plain_fd.
Qed.

Lemma replay_pwrite64 call s s' :
  no call = SYS_pwrite64 -> start_ok s s' -> replayable (sys_pwrite64 call) s s'.
Proof.
  intros Hno Hst. apply replayable_assert; [by rewrite Hno|]. by apply replay_plain_fd.
Qed.

Lemma replay_writev call s s' :
  no call = SYS_writev -> start_ok s s' -> replayable (sys_writev call) s s'.
Proof.
  intros Hno Hst. apply replayable_force; [done|]. intros t t' Ht _ _ _ _. cbv zeta.
  apply replayable_assert; [by rewrite Hno|]. by apply replay_plain_fd.
Qed.

Lemma replay_sendmsg call s s' :
  no call = SYS_sendmsg -> start_ok s s' -> replayable (sys_sendmsg call) s s'.
Proof.
  intros Hno Hst. apply replayable_force; [done|]. intros t t' Ht _ _ _ _. cbv zeta.
  apply replayable_assert; [by rewrite Hno|]. by apply replay_plain_fd.
Qed.

Lemma replay_sendto call s s' :
  no call = SYS_sendto -> start_ok s s' -> replayable (sys_sendto call) s s'.
Proof.
  intros Hno Hst. apply replayable_force; [done|]. intros t t' Ht _ _ _ _. cbv zeta.
  apply replayable_assert; [by rewrite Hno|]. by apply replay_plain_fd.
Qed.

Lemma replay_setsockopt call s s' :
  no call = SYS_setsockopt -> start_ok s s' -> replayable (sys_setsockopt call) s s'.
Proof.
  intros Hno Hst. unfold sys_setsockopt. cbv zeta. apply replayable_traced_if. intros _.
  apply replayable_assert; [by rewrite Hno|]. by apply replay_plain_fd.
Qed.

Lemma replay_ioctl call s s' :
  no call = SYS_ioctl -> start_ok s s' -> replayable (sys_ioctl call) s s'.
Proof.
  intros Hno Hst. unfold sys_ioctl. destruct (existsb _ _) eqn:He; [|apply traced_not_replayable].
  apply replay_plain_fd; try done. cbn [existsb] in He.
  repeat (apply orb_true_iff in He as [He|He]); try done; apply Z.eqb_eq in He; by rewrite He.
Qed.

(** The commands of [fcntl] that have no output. *)
Lemma fcntl_no_output fd cmd a m b :
  cmd ∈ [F_DUPFD; F_GETFD; F_GETFL; F_GETOWN; F_SETFL; F_SETFD; F_SETOWN; F_SETSIG; F_SETLK; F_SETLKW] ->
  ~ in_writes (kernel_writes SYS_fcntl (pad8 [fd; s32 cmd; a]) m) b.
Proof.
  intros Hc (p&n&Hin&_&Hr).
  assert (n = 0); [|lia].
  repeat (apply elem_of_cons in Hc as [->|Hc]; [apply list_elem_of_singleton in Hin; by injection Hin as _ ->|]).
  by apply elem_of_nil in Hc.
Qed.

(** [r = ...; return r;] at the end of a wrapper that returns an [int]. *)
Lemma replayable_hoist {A B} (c : M A) (d : A -> M B) (k : A -> B -> M Z) (h : Z -> Z) s s' :
  replayable (p ← c; o ← d p; k p o) s s' ->
  replayable (p ← c; o ← d p; r ← k p o; mret (h r)) s s'.
Proof.
  intros H.
  apply (replayable_ext _ (r ← (p ← c; o ← d p; k p o); mret (h r)));
    [rewrite bind_assoc; apply bind_ext; intros p y; by rewrite bind_assoc..|].
  by apply replayable_map.
Qed.

Lemma replayable_hoist1 {A} (c : M A) (k : A -> M Z) (h : Z -> Z) s s' :
  replayable (p ← c; k p) s s' -> replayable (p ← c; r ← k p; mret (h r)) s s'.
Proof.
  intros H. apply (replayable_ext _ (r ← (p ← c; k p); mret (h r))); [by rewrite bind_assoc..|].
  by apply replayable_map.
Qed.

Lemma replay_fcntl_no_outparams call s s' :
  no call = SYS_fcntl ->
  arg call 1 ∈ [F_DUPFD; F_GETFD; F_GETFL; F_GETOWN; F_SETFL; F_SETFD; F_SETOWN; F_SETSIG; F_SETLK; F_SETLKW] ->
  start_ok s s' -> replayable (sys_fcntl64_no_outparams call) s s'.
Proof.
  intros Hno Hc Hst. apply replayable_assert; [by rewrite Hno|].
  apply replayable_hoist, replay_plain_fd; try done. intros m b. by apply fcntl_no_output.
Qed.

Lemma replay_fcntl_setlkw64 call s s' :
  no call = SYS_fcntl -> arg call 1 = F_SETLKW ->
  start_ok s s' -> replayable (sys_fcntl64_setlkw64 call) s s'.
Proof.
  intros Hno Hc Hst. apply replayable_hoist1.
  apply replayable_force; [done|]. intros t t' Ht _ _ _ _. cbv zeta.
  apply replayable_assert; [by rewrite Hno|]. apply replay_plain_fd; try done.
  intros m b. apply fcntl_no_output. rewrite Hc. by do 9 right; left.
Qed.

(** ** Opening files *)

Lemma read_cstring_ext fuel m m' p :
  agree (rng p (Z.of_nat fuel)) m m' -> read_cstring fuel m p = read_cstring fuel m' p.
Proof.
  revert p. induction fuel as [|fuel IH]; intros p H; [done|]. cbn [read_cstring].
  rewrite (H p) by (unfold rng; lia). rewrite (IH (p + 1)); [done|].
  intros a Ha. apply H. unfold rng in *. lia.
Qed.

Lemma user_range_tail g p n a :
  g_buffer g <= g_last g -> user_range g p n -> p <= a < p + n -> ~ tail g a.
Proof. unfold user_range, disjoint_rng, tail, g_end. lia. Qed.

(** The scan of the path name gives the same string in both processes. *)
Lemma cstring_both p s s' :
  start_ok s s' -> user_range (geom s) p (Z.of_nat strfuel) ->
  (exists c, cstring_arg p s = (Ret c, s) /\ cstring_arg p s' = (Ret c, s')) \/
  (exists w x, cstring_arg p s = (Abort w, x)).
Proof.
  intros Hst Hu. pose proof (start_facts s s' Hst) as (_&_&Hl). destruct Hst as [_ [_ Hm]].
  unfold cstring_arg. destruct (p =? 0); [left; by eexists|].
  assert (read_cstring strfuel (memory s') p = read_cstring strfuel (memory s) p) as He.
  { symmetry. apply read_cstring_ext. intros a Ha. apply Hm. eapply user_range_tail; [apply Hl|exact Hu|exact Ha]. }
  rewrite !bind_eq. cbn [gets]. rewrite He.
  destruct (read_cstring strfuel (memory s) p); [left; by eexists|right; by do 2 eexists].
Qed.

(** A step that only reads. *)
Lemma replayable_read {A} (c : M A) (k : A -> M Z) s s' :
  (exists v, c s = (Ret v, s) /\ c s' = (Ret v, s')) \/ (exists w x, c s = (Abort w, x)) ->
  (forall v, c s = (Ret v, s) -> replayable (k v) s s') -> replayable (v ← c; k v) s s'.
Proof.
  intros [(v&H1&H2)|(w&x&Hw)] Hk.
  - apply (replayable_ext _ (k v)); [by rewrite bind_eq, H1|by rewrite bind_eq, H2|by apply Hk].
  - intros v f Hrun. by rewrite bind_eq, Hw in Hrun.
Qed.

Lemma replay_open call s s' :
  no call = SYS_open -> user_range (geom s) (u64 (arg call 0)) (Z.of_nat strfuel) ->
  start_ok s s' -> replayable (sys_open call) s s'.
Proof.
  intros Hno Hu Hst. apply replayable_force; [done|]. intros t t' Ht Hg _ _ _. cbv zeta.
  rewrite Hno. cbn [Z.eqb assert_]. apply (replayable_ext _ _ t t' (bind_ret_l _ _ _) (bind_ret_l _ _ _)).
  apply replayable_traced_if. intros _. apply replayable_read; [by apply cstring_both; [|rewrite Hg]|].
  intros c _. apply replayable_traced_if. intros _. by apply replay_plain.
Qed.

Lemma replay_creat call s s' :
  user_range (geom s) (u64 (arg call 0)) (Z.of_nat strfuel) ->
  start_ok s s' -> replayable (sys_creat call) s s'.
Proof.
  intros Hu Hst. apply replay_open; [done| |done].
  replace (u64 (arg _ 0)) with (u64 (arg call 0)); [done|]. unfold arg at 2. cbn [args nth].
  by rewrite wrapu_wraps by lia.
Qed.

Lemma replay_openat call s s' :
  no call = SYS_openat -> 0 < Z.of_nat strfuel ->
  user_range (geom s) (u64 (arg call 1)) (Z.of_nat strfuel) ->
  start_ok s s' -> replayable (sys_openat call) s s'.
Proof.
  intros Hno Hf Hu Hst. apply replayable_force; [done|]. intros t t' Ht Hg _ _ _. cbv zeta.
  rewrite Hno. cbn [Z.eqb assert_]. apply (replayable_ext _ _ t t' (bind_ret_l _ _ _) (bind_ret_l _ _ _)).
  apply replayable_traced_if. intros _. rewrite <- Hg in Hu.
  pose proof (start_facts t t' Ht) as (_&_&Hl).
  apply replayable_read.
  - destruct (_ =? AT_FDCWD); [left; by eexists|]. destruct (_ =? 0); [right; by do 2 eexists|left].
    eexists. split; [done|]. unfold load_m, gets. f_equal. f_equal. symmetry.
    apply load_ext. intros a Ha. apply (rel_mem _ _ _ (proj2 Ht)).
    eapply user_range_tail; [apply Hl|exact Hu|]. unfold rng in Ha. lia.
  - intros first _. apply replayable_traced_if. intros _.
    apply replayable_read; [by apply cstring_both|]. intros c _.
    apply replayable_traced_if. intros _. by apply replay_plain.
Qed.

(** ** Wrappers with outputs of fixed size *)

Definition p0 (s : st) : Z := g_last (geom s) + SIZEOF_REC.

(** The record holds [n] bytes of payload, all of it published. *)
Lemma fixed_ok g m0 no blk nr a n ins (cond : Z -> Z -> bool) outs :
  good g -> 0 <= no < 2 ^ 16 -> described nr (pad8 a) = true -> 0 <= n < 2 ^ 40 ->
  reserved g (g_last g + SIZEOF_REC + n) ->
  Forall (to_record g) ins ->
  Forall (from_record g (g_last g + SIZEOF_REC + n)) outs ->
  (forall m b, in_writes (kernel_writes nr (pad8 a) m) b ->
     g_last g + SIZEOF_REC <= b < g_last g + SIZEOF_REC + n) ->
  txn_ok g m0 (io no (g_last g + SIZEOF_REC + n) blk nr a ins
    (fun f r => if cond f r then outs else []) (fun _ _ => g_last g + SIZEOF_REC + n)).
Proof.
  intros Hg Hno Hd Hn Hres Hins Houts Hw.
  assert (g_last g + SIZEOF_REC + n <= g_end g) as Hend.
  { destruct Hres as [Hmin Hmax]. unfold SIZEOF_REC in *.
    pose proof (Z.div_mod (g_last g + 16 + n - g_last g + 7) 8 ltac:(lia)).
    pose proof (Z.mod_pos_bound (g_last g + 16 + n - g_last g + 7) 8 ltac:(lia)). lia. }
  apply io_ok; try done.
  - intros m b _ Hb. apply Hw in Hb. lia.
  - intros ret _. rewrite Z.min_l by lia. by destruct (cond 0 ret).
  - intros ret _. split; [lia|]. eapply fits_reserved; [done|]. unfold SIZEOF_REC. lia.
Qed.

Lemma in_writes_one p n b : in_writes [(p, n)] b -> p <> 0 /\ p <= b < p + n.
Proof. intros (p'&n'&Hin&H1&H2). apply list_elem_of_singleton in Hin. by injection Hin as -> ->. Qed.

Lemma p0_small s s' : start_ok s s' -> u64 (p0 s) = p0 s /\ p0 s <> 0 /\ 2 ^ 33 <= p0 s < 2 ^ 62 + 16.
Proof.
  intros Hst. pose proof (start_facts s s' Hst) as (_&?&?). unfold p0, SIZEOF_REC.
  split; [apply wrapu_small; lia|lia].
Qed.

Lemma padd_p0 s s' n : start_ok s s' -> 0 <= n < 2 ^ 62 -> padd (p0 s) n = p0 s + n.
Proof. intros Hst Hn. destruct (p0_small s s' Hst) as (_&_&?). apply wrapu_small. lia. Qed.

Lemma from_record_one g d n fin :
  user_range g d n -> 0 <= n < 2 ^ 32 -> g_last g + SIZEOF_REC + n <= fin ->
  from_record g fin (d, g_last g + SIZEOF_REC, n).
Proof. intros. unfold from_record. rewrite wrapu_small by lia. split_and!; [done|lia|lia]. Qed.

(** Wrapper bodies with one output area of fixed size [n] at the start of the
    payload: [k] is what follows the call. *)
Section Fixed.
Variables (call : syscall_info) (no : Z) (blk : blockness) (nr : Z) (a : list Z) (n : Z).
Variables (cond : Z -> Z -> bool) (outs : copies) (s s' : st).
Hypothesis Hst : start_ok s s'.
Hypothesis Hno : 0 <= no < 2 ^ 16.
Hypothesis Hdes : described nr (pad8 a) = true.
Hypothesis Hn : 0 <= n < 2 ^ 40.
Hypothesis Houts : Forall (from_record (geom s) (p0 s + n)) outs.
Hypothesis Hw : forall m b, in_writes (kernel_writes nr (pad8 a) m) b -> p0 s <= b < p0 s + n.

Let tail_ok (k : Z -> M Z) : Prop :=
  forall ret z, k ret z = io_tail no (fun f r => if cond f r then outs else []) (fun _ _ => p0 s + n) ret z.

Let body (pre : M unit) (k : Z -> M Z) : M Z :=
  ok ← start_commit_buffered_syscall no (p0 s + n) blk;
  if negb (ok : bool) then traced_raw_syscall call
  else pre;; ret ← untraced_syscall nr a; k ret.

Lemma fixed_range : 0 <= p0 s + n < 2 ^ 63.
Proof. destruct (p0_small s s' Hst) as (_&_&?). lia. Qed.

Lemma replay_fixed_input (b : bool) src len (prog : Z -> M Z) (k : Z -> M Z) :
  (b = true -> 0 <= len <= n) -> n < 2 ^ 32 -> tail_ok k ->
  (forall x, prog (p0 s) x = body (if b then memcpy_input_parameter (p0 s) src len else mret tt) k x) ->
  replayable (mbind prog prep_syscall) s s'.
Proof.
  intros Hb Hn32 Hk Hp. pose proof (start_facts s s' Hst) as (Hg&_).
  apply (replayable_prep call prog (io no (p0 s + n) blk nr a (if b then [(p0 s, src, len)] else [])
    (fun f r => if cond f r then outs else []) (fun _ _ => p0 s + n))); [apply Hst..| | |].
  - intros x. fold (p0 s). rewrite Hp.
    apply (run_txn_eq call (io no (p0 s + n) blk nr a _ _ _)). intros y. by apply io_body_input.
  - apply fixed_range.
  - intros Hres. apply (fixed_ok (lock (geom s))); try done.
    destruct b; [|done]. apply Forall_cons_2; [|done]. destruct (Hb eq_refl).
    unfold to_record. rewrite wrapu_small by lia.
    cbn [t_re io] in Hres. destruct Hres as [Hmin Hmax]. unfold p0, SIZEOF_REC in *.
    change (g_last (lock (geom s))) with (g_last (geom s)) in *.
    pose proof (Z.div_mod (g_last (geom s) + 16 + n - g_last (geom s) + 7) 8 ltac:(lia)).
    pose proof (Z.mod_pos_bound (g_last (geom s) + 16 + n - g_last (geom s) + 7) 8 ltac:(lia)). lia.
Qed.

Lemma replay_fixed (prog : Z -> M Z) (k : Z -> M Z) :
  n < 2 ^ 32 -> tail_ok k -> (forall x, prog (p0 s) x = body (mret tt) k x) ->
  replayable (mbind prog prep_syscall) s s'.
Proof. intros Hn32 Hk Hp. by apply (replay_fixed_input false 0 0 prog k). Qed.

End Fixed.

(** The common shape: one optional structure of [n] bytes, returned to the
    user's [dst]. *)
Definition struct_out (call : syscall_info) (no nr : Z) (a : Z -> list Z) (n dst p : Z) : M Z :=
  ok ← start_commit_buffered_syscall no (if nz dst then padd p n else p) WONT_BLOCK;
  if negb (ok : bool) then traced_raw_syscall call
  else
    ret ← untraced_syscall nr (a (if nz dst then p else 0));
    failed ← gets (fun s => failed_during_preparation (hdr s));
    (if nz dst && (0 <=? ret) && negb (nz failed)
     then local_memcpy dst (if nz dst then p else 0) n else mret tt);;
    commit_raw_syscall no (if nz dst then padd p n else p) ret.

Lemma replay_struct_out call no nr (a : Z -> list Z) n dst (prog : Z -> M Z) s s' :
  start_ok s s' -> 0 <= no < 2 ^ 16 -> 0 <= n < 2 ^ 31 -> user_range (geom s) dst n ->
  (forall q, described nr (pad8 (a q)) = true) ->
  (forall q m, kernel_writes nr (pad8 (a q)) m = [(u64 q, n)]) ->
  (forall x, prog (p0 s) x = struct_out call no nr a n dst (p0 s) x) ->
  replayable (mbind prog prep_syscall) s s'.
Proof.
  intros Hst Hno Hn Hu Hd Hw Hp. destruct (p0_small s s' Hst) as (Hp1&Hp2&Hp3).
  unfold struct_out in Hp. destruct (nz dst) eqn:Hdst; cbn [andb] in Hp.
  - rewrite (padd_p0 s s') in Hp by (done || lia).
    apply (replay_fixed call no WONT_BLOCK nr (a (p0 s)) n
      (fun failed ret => (0 <=? ret) && negb (nz failed)) [(dst, p0 s, n)]) with
      (k := fun ret => failed ← gets (fun s => failed_during_preparation (hdr s));
        (if (0 <=? ret) && negb (nz failed) then local_memcpy dst (p0 s) n else mret tt);;
        commit_raw_syscall no (p0 s + n) ret); try done; [lia| | |lia|].
    + apply Forall_cons_2; [|done]. apply from_record_one; [done|lia|unfold p0; lia].
    + intros m b Hb. rewrite Hw in Hb. apply in_writes_one in Hb as [_ Hb]. lia.
    + intros ret z. apply (io_tail_copy _ _ (fun failed ret => (0 <=? ret) && negb (nz failed))).
  - apply (replay_fixed call no WONT_BLOCK nr (a 0) 0 (fun _ _ => false) [] s s') with
      (k := fun ret => commit_raw_syscall no (p0 s + 0) ret); try done.
    + intros m b Hb. rewrite Hw in Hb. by apply in_writes_one in Hb as [Hb _].
    + intros ret z. apply (io_tail_plain no (p0 s + 0)).
    + intros x. rewrite Hp, Z.add_0_r. done.
Qed.

Lemma replay_clock_gettime call s s' :
  no call = SYS_clock_gettime -> user_range (geom s) (u64 (arg call 1)) 16 ->
  start_ok s s' -> replayable (sys_clock_gettime call) s s'.
Proof.
  intros Hno Hu Hst. apply replayable_assert; [by rewrite Hno|].
  by apply (replay_struct_out call SYS_clock_gettime SYS_clock_gettime
    (fun q => [s32 (arg call 0); q]) 16 (u64 (arg call 1))).
Qed.

(** The wrappers that test their own copy of the pointer instead. *)
Lemma struct_out_own call no nr a n dst p x :
  p <> 0 ->
  (ok ← start_commit_buffered_syscall no (if nz dst then padd p n else p) WONT_BLOCK;
   if negb (ok : bool) then traced_raw_syscall call
   else
     ret ← untraced_syscall nr (a (if nz dst then p else 0));
     failed ← gets (fun s => failed_during_preparation (hdr s));
     (if nz (if nz dst then p else 0) && (0 <=? ret) && negb (nz failed)
      then local_memcpy dst (if nz dst then p else 0) n else mret tt);;
     commit_raw_syscall no (if nz dst then padd p n else p) ret) x =
  struct_out call no nr a n dst p x.
Proof. intros Hp. apply nz_true in Hp. unfold struct_out. destruct (nz dst); by rewrite ?Hp. Qed.

Lemma replay_xstat64 call s s' :
  no call ∈ XSTAT64 -> user_range (geom s) (u64 (arg call 1)) 144 ->
  start_ok s s' -> replayable (sys_xstat64 call) s s'.
Proof.
  intros Hno Hu Hst. destruct (p0_small s s' Hst) as (Hp1&Hp2&Hp3).
  unfold sys_xstat64. cbv zeta.
  apply (replay_struct_out call (s32 (no call)) (s32 (no call)) (fun q => [arg call 0; q]) 144
    (u64 (arg call 1))); [exact Hst| |lia|exact Hu| | |intros x;
      by apply (struct_out_own call (s32 (no call)) (s32 (no call)) (fun q => [arg call 0; q]) 144)];
    unfold XSTAT64 in Hno; repeat (apply elem_of_cons in Hno as [->|Hno]; [done|]); by apply elem_of_nil in Hno.
Qed.

Lemma replay_statfs call s s' :
  no call ∈ STATFS -> user_range (geom s) (u64 (arg call 1)) 120 ->
  start_ok s s' -> replayable (sys_statfs call) s s'.
Proof.
  intros Hno Hu Hst. destruct (p0_small s s' Hst) as (Hp1&Hp2&Hp3).
  unfold sys_statfs. cbv zeta.
  apply (replay_struct_out call (s32 (no call)) (s32 (no call)) (fun q => [arg call 0; q]) 120
    (u64 (arg call 1))); [exact Hst| |lia|exact Hu| | |intros x;
      by apply (struct_out_own call (s32 (no call)) (s32 (no call)) (fun q => [arg call 0; q]) 120)];
    unfold STATFS in Hno; repeat (apply elem_of_cons in Hno as [->|Hno]; [done|]); by apply elem_of_nil in Hno.
Qed.

Lemma replay_getrusage call s s' :
  no call = SYS_getrusage -> user_range (geom s) (u64 (arg call 1)) 144 ->
  start_ok s s' -> replayable (sys_getrusage call) s s'.
Proof.
  intros Hno Hu Hst. destruct (p0_small s s' Hst) as (Hp1&Hp2&Hp3).
  apply replayable_assert; [by rewrite Hno|].
  apply (replay_struct_out call SYS_getrusage SYS_getrusage (fun q => [s32 (arg call 0); q]) 144
    (u64 (arg call 1))); [done|done|lia|done|done|done|]. intros x.
  by apply (struct_out_own call SYS_getrusage SYS_getrusage (fun q => [s32 (arg call 0); q]) 144).
Qed.

End Wrappers.
