(* ===== verification/ReplayOutputs.v ===== *)
(** * Wrappers with outputs of variable size replay

    The wrappers that end with [copy_output_buffer], which publishes only as much
    of the reserved space as the call filled, and the remaining wrappers with
    fixed outputs. *)

From stdpp Require Import base tactics list numbers.
From S2P Require Import Prelude Memory KernelAbi CStrings PreloadInterface Machine SyscallNumbers Syscallbuf Wrappers Hook BufferInv WrapperInv HookInv Replay History ReplayWrappers.
Local Open Scope Z_scope.

Section Outputs.
Context {E : Env} {Q : QuietKernel E} {K : KernelContract E}.

(** The common shape: an output buffer of [count] bytes, used when [c] holds, of
    which [cnt ret] bytes are returned to the user's [buf]. *)
Definition output_body (call : syscall_info) (no : Z) (blk : blockness) (nr : Z) (a : Z -> list Z)
    (c : bool) (count buf : Z) (cnt : Z -> Z) (p : Z) : M Z :=
  ok ← start_commit_buffered_syscall no (if c then padd p count else p) blk;
  if negb (ok : bool) then traced_raw_syscall call
  else
    ret ← untraced_syscall nr (a (if c then p else 0));
    e ← copy_output_buffer (cnt ret) (if c then padd p count else p) buf (if c then p else 0);
    commit_raw_syscall no e ret.

Definition output_txn (no : Z) (blk : blockness) (nr : Z) (a : Z -> list Z) (c : bool) (count buf : Z)
    (cnt : Z -> Z) (p : Z) : transaction :=
  io no (if c then padd p count else p) blk nr (a (if c then p else 0)) []
    (fun failed ret => co_outs (cnt ret) buf (if c then p else 0) failed)
    (fun failed ret => co_end (cnt ret) (if c then padd p count else p) (if c then p else 0) failed).

Lemma output_body_eq call no blk nr a c count buf cnt p x :
  output_body call no blk nr a c count buf cnt p x =
  run_txn call (output_txn no blk nr a c count buf cnt p) x.
Proof.
  apply (run_txn_eq call (output_txn no blk nr a c count buf cnt p)). intros y.
  apply io_body_no_input. intros ret z. apply io_tail_output.
Qed.

Lemma co_outs_null n buf failed : co_outs n buf 0 failed = [].
Proof. done. Qed.

(** How much of the reserved space [copy_output_buffer] publishes. *)
Lemma co_end_cases n e p :
  p <> 0 -> (s32 n <= 0 /\ co_end n e p 0 = p /\ forall buf, co_outs n buf p 0 = []) \/
  (0 < s32 n /\ co_end n e p 0 = padd p (s32 n) /\ forall buf, co_outs n buf p 0 = [(buf, p, s32 n)]).
Proof.
  intros Hp. unfold co_end, co_outs, co_none. destruct (Z.eqb_spec p 0); [done|]. cbn [nz Z.eqb negb orb].
  destruct (Z.leb_spec (s32 n) 0); [by left|by right].
Qed.

Lemma s32_bound n count : - 2 ^ 31 <= n <= count -> 0 < s32 n -> s32 n <= count.
Proof.
  intros Hn Hs. destruct (Z.lt_ge_cases n 0); [rewrite wraps_small in Hs by lia; lia|].
  pose proof (wraps_le 32 n ltac:(lia) ltac:(lia)). lia.
Qed.

Lemma user_range_less g p n k : user_range g p n -> k <= n -> user_range g p k.
Proof. unfold user_range, disjoint_rng. lia. Qed.

(** No output buffer. *)
Lemma output_ok_none no blk nr a count buf cnt s s' :
  start_ok s s' -> 0 <= no < 2 ^ 16 -> described nr (pad8 (a 0)) = true ->
  (forall m, exists k, kernel_writes nr (pad8 (a 0)) m = [(0, k)]) ->
  reserved (lock (geom s)) (p0 s) ->
  txn_ok (lock (geom s)) (memory s) (output_txn no blk nr a false count buf cnt (p0 s)).
Proof.
  intros Hst Hno Hd Hw Hres. pose proof (start_facts s s' Hst) as (Hg&_).
  apply io_ok; try done.
  - intros m b _ Hb. destruct (Hw (do_copies [] m)) as [k Hk]. rewrite Hk in Hb.
    by apply in_writes_one in Hb as [Hb _].
  - intros ret _. split; [done|]. assert (fits (lock (geom s)) (p0 s)); [|done].
    eapply fits_reserved; [done|]. unfold p0, SIZEOF_REC.
    change (g_last (lock (geom s))) with (g_last (geom s)). lia.
Qed.

Lemma output_ok no blk nr a count buf cnt s s' :
  start_ok s s' -> 0 <= no < 2 ^ 16 -> 0 < count < 2 ^ 62 -> user_range (geom s) buf count ->
  described nr (pad8 (a (p0 s))) = true ->
  (forall m, exists k, kernel_writes nr (pad8 (a (p0 s))) m = [(p0 s, k)] /\ k <= count) ->
  (forall ret, returned nr (a (p0 s)) ret -> - 2 ^ 31 <= cnt ret <= count) ->
  reserved (lock (geom s)) (padd (p0 s) count) ->
  txn_ok (lock (geom s)) (memory s) (output_txn no blk nr a true count buf cnt (p0 s)).
Proof.
  intros Hst Hno Hc Hu Hd Hw Hcnt Hres. destruct (p0_small s s' Hst) as (Hp1&Hp2&Hp3).
  pose proof (start_facts s s' Hst) as (Hg&_). pose proof Hres as Hres'.
  rewrite (padd_p0 s s') in Hres by (done || lia).
  set (g := lock (geom s)) in *. assert (p0 s = g_last g + 16) as Hp by done.
  assert (p0 s + count <= g_end g) as Hend.
  { destruct Hres as [_ Hmax]. unfold SIZEOF_REC in *.
    pose proof (Z.div_mod (p0 s + count - g_last g + 7) 8 ltac:(lia)).
    pose proof (Z.mod_pos_bound (p0 s + count - g_last g + 7) 8 ltac:(lia)). lia. }
  apply io_ok; try done; unfold SIZEOF_REC.
  - intros m b _ Hb. destruct (Hw (do_copies [] m)) as (k&Hk&Hkc). rewrite Hk in Hb.
    apply in_writes_one in Hb as [_ Hb]. lia.
  - intros ret Hret. specialize (Hcnt ret Hret).
    destruct (co_end_cases (cnt ret) (padd (p0 s) count) (p0 s) Hp2) as [(_&_&->)|(Hn&->&->)]; [done|].
    pose proof (s32_bound _ _ Hcnt Hn). pose proof (wraps_range 32 (cnt ret) ltac:(lia)).
    rewrite (padd_p0 s s') by (done || lia).
    apply Forall_cons_2; [|done]. unfold from_record. rewrite wrapu_small by lia.
    unfold SIZEOF_REC. split; [|lia]. by apply (user_range_less _ _ count).
  - intros ret Hret. specialize (Hcnt ret Hret).
    destruct (co_end_cases (cnt ret) (padd (p0 s) count) (p0 s) Hp2) as [(_&->&_)|(Hn&->&_)].
    + split; [lia|]. apply (fits_reserved g (p0 s + count)); [done|lia].
    + pose proof (s32_bound _ _ Hcnt Hn). rewrite (padd_p0 s s') by (done || lia). split; [lia|].
      apply (fits_reserved g (p0 s + count)); [done|lia].
Qed.

Lemma output_re (c : bool) count s s' :
  start_ok s s' -> (c = true -> 0 < count < 2 ^ 62 - 2 ^ 32) ->
  0 <= (if c then padd (p0 s) count else p0 s) < 2 ^ 63.
Proof.
  intros Hst Hc. destruct (p0_small s s' Hst) as (_&_&?). destruct c; [|lia].
  specialize (Hc eq_refl). rewrite (padd_p0 s s') by (done || lia). lia.
Qed.

Lemma output_txn_ok no blk nr a (c : bool) count buf cnt s s' :
  start_ok s s' -> 0 <= no < 2 ^ 16 -> (c = true -> 0 < count < 2 ^ 62 - 2 ^ 32) ->
  (c = true -> user_range (geom s) buf count) ->
  (forall q, described nr (pad8 (a q)) = true) ->
  (forall q m, exists k, kernel_writes nr (pad8 (a q)) m = [(u64 q, k)] /\ (c = true -> k <= count)) ->
  (forall q ret, c = true -> returned nr (a q) ret -> - 2 ^ 31 <= cnt ret <= count) ->
  reserved (lock (geom s)) (if c then padd (p0 s) count else p0 s) ->
  txn_ok (lock (geom s)) (memory s) (output_txn no blk nr a c count buf cnt (p0 s)).
Proof.
  intros Hst Hno Hc Hu Hd Hw Hcnt Hres. destruct (p0_small s s' Hst) as (Hp1&_). destruct c.
  - specialize (Hc eq_refl). apply (output_ok no blk nr a count buf cnt s s'); auto; [lia| |].
    + intros m. destruct (Hw (p0 s) m) as (k&Hk&Hkc). rewrite Hp1 in Hk. eauto.
    + intros ret Hret. eauto.
  - apply (output_ok_none no blk nr a count buf cnt s s'); auto.
    intros m. destruct (Hw 0 m) as (k&Hk&_). eauto.
Qed.

(** The two cases together, for both ways of starting a record. *)
Section Generic.
Variables (call : syscall_info) (no : Z) (blk : blockness) (nr : Z) (a : Z -> list Z).
Variables (c : bool) (count buf : Z) (cnt : Z -> Z) (s s' : st) (prog : Z -> M Z).
Hypothesis Hst : start_ok s s'.
Hypothesis Hno : 0 <= no < 2 ^ 16.
Hypothesis Hc : c = true -> 0 < count < 2 ^ 62 - 2 ^ 32.
Hypothesis Hu : c = true -> user_range (geom s) buf count.
Hypothesis Hd : forall q, described nr (pad8 (a q)) = true.
Hypothesis Hw : forall q m, exists k, kernel_writes nr (pad8 (a q)) m = [(u64 q, k)] /\ (c = true -> k <= count).
Hypothesis Hcnt : forall q ret, c = true -> returned nr (a q) ret -> - 2 ^ 31 <= cnt ret <= count.
Hypothesis Hprog : forall p x, prog p x = output_body call no blk nr a c count buf cnt p x.

Lemma replay_output : replayable (mbind prog prep_syscall) s s'.
Proof.
  apply (replayable_prep call prog (output_txn no blk nr a c count buf cnt (p0 s))); [apply Hst..| | |].
  - intros x. fold (p0 s). rewrite Hprog. apply output_body_eq.
  - by apply (output_re c count s s').
  - by apply (output_txn_ok no blk nr a c count buf cnt s s').
Qed.

Lemma replay_output_fd fd :
  (c = true -> count < g_buffer (geom s)) ->
  replayable (mbind prog (prep_syscall_for_fd fd)) s s'.
Proof.
  intros Hlen. pose proof (start_facts s s' Hst) as (_&?&_).
  eapply (replayable_prep_fd call fd prog (output_txn no blk nr a c count buf cnt (p0 s)));
    [apply Hst..| |intros x; apply (Hprog 0)| | |].
  - intros x. fold (p0 s). rewrite Hprog. apply output_body_eq.
  - by apply (output_re c count s s').
  - destruct c; [|lia]. pose proof (Hc eq_refl). specialize (Hlen eq_refl).
    unfold padd. rewrite wrapu_small by lia. lia.
  - by apply (output_txn_ok no blk nr a c count buf cnt s s').
Qed.

End Generic.

(** ** Instances *)

(** The user's buffer of a call that passes [buf] and [count]. *)
Abbreviation used buf count := (nz buf && (0 <? count)).

Lemma used_pos buf count : used buf count = true -> 0 < count.
Proof. intros H. by zbool. Qed.

Lemma replay_pread64 call s s' :
  no call = SYS_pread64 -> lengths_ok (geom s) call ->
  user_range (geom s) (u64 (arg call 1)) (u64 (arg call 2)) ->
  start_ok s s' -> replayable (sys_pread64 call) s s'.
Proof.
  intros Hno Hl Hu Hst. pose proof (start_facts s s' Hst) as (_&?&_).
  apply (lengths_ok_at _ _ 2) in Hl; [|rewrite Hno; by left].
  apply replayable_assert; [by rewrite Hno|].
  apply (replay_output_fd call SYS_pread64 MAY_BLOCK SYS_pread64
    (fun q => [s32 (arg call 0); q; u64 (arg call 2); arg call 3])
    (used (u64 (arg call 1)) (u64 (arg call 2))) (u64 (arg call 2)) (u64 (arg call 1)) (fun ret => ret));
    [done|done| |done|done| | |done|lia].
  - intros Hc. apply used_pos in Hc. lia.
  - intros q m. exists (u64 (u64 (arg call 2))). split; [done|]. by rewrite u64_arg.
  - intros q ret Hc Hret. apply used_pos in Hc.
    apply (returned_count _ _ 2 (u64 (arg call 2))) in Hret; try done; lia.
Qed.

(** [sys_read] when no data is cloned into the trace. *)
Lemma replay_read call s s' :
  no call = SYS_read -> cloned_file_data_fd (tl s) < 0 -> lengths_ok (geom s) call ->
  user_range (geom s) (u64 (arg call 1)) (u64 (arg call 2)) ->
  start_ok s s' -> replayable (sys_read call) s s'.
Proof.
  intros Hno Hcl Hl Hu Hst. apply replayable_force; [done|]. intros t t' Ht Hg _ _ Htl. cbv zeta.
  rewrite <- Hg in Hl, Hu. rewrite <- Htl in Hcl.
  pose proof (start_facts t t' Ht) as (_&?&_).
  apply (lengths_ok_at _ _ 2) in Hl; [|rewrite Hno; by left].
  apply replayable_read.
  { left. exists (cloned_file_data_fd (tl t)). split; [done|]. unfold gets.
    by rewrite (rel_tl _ _ (rel_shared _ _ _ (proj2 Ht))). }
  intros cloned Hcloned. injection Hcloned as <-.
  apply replayable_read.
  { left. exists (is_bufferable_fd (s32 (arg call 0)) (gl t)). split; [done|]. unfold gets.
    by rewrite (rel_gl _ _ (rel_shared _ _ _ (proj2 Ht))). }
  intros fd_ok _. destruct (Z.leb_spec 0 (cloned_file_data_fd (tl t))); [lia|].
  rewrite andb_false_r. cbn [andb].
  apply (replayable_ext _ _ t t' (bind_ret_l _ _ _) (bind_ret_l _ _ _)).
  apply replayable_assert; [by rewrite Hno|].
  apply (replay_output_fd call SYS_read MAY_BLOCK SYS_read
    (fun q => [s32 (arg call 0); q; u64 (arg call 2)])
    (used (u64 (arg call 1)) (u64 (arg call 2))) (u64 (arg call 2)) (u64 (arg call 1)) (fun ret => ret));
    [done|done| |done|done| | |done|lia].
  - intros Hc. apply used_pos in Hc. lia.
  - intros q m. exists (u64 (u64 (arg call 2))). split; [done|]. by rewrite u64_arg.
  - intros q ret Hc Hret. apply used_pos in Hc.
    apply (returned_count _ _ 2 (u64 (arg call 2))) in Hret; try done; lia.
Qed.

Lemma replay_readlink call s s' :
  no call = SYS_readlink ->
  user_range (geom s) (u64 (arg call 1)) (s32 (arg call 2)) ->
  start_ok s s' -> replayable (sys_readlink call) s s'.
Proof.
  intros Hno Hu Hst. pose proof (wraps_range 32 (arg call 2) ltac:(lia)).
  apply replayable_assert; [by rewrite Hno|].
  apply (replay_output call SYS_readlink WONT_BLOCK SYS_readlink
    (fun q => [u64 (arg call 0); q; s32 (arg call 2)])
    (used (u64 (arg call 1)) (s32 (arg call 2))) (s32 (arg call 2)) (u64 (arg call 1)) (fun ret => ret));
    [done|done| |done|done| | |done].
  - intros Hc. apply used_pos in Hc. lia.
  - intros q m. exists (u64 (s32 (arg call 2))). split; [done|]. intros Hc. apply used_pos in Hc.
    rewrite wrapu_small by lia. done.
  - intros q ret Hc Hret. apply used_pos in Hc.
    apply (returned_count _ _ 2 (s32 (arg call 2))) in Hret; try done; lia.
Qed.

Lemma replay_generic_getdents call s s' :
  no call = SYS_getdents \/ no call = SYS_getdents64 ->
  user_range (geom s) (u64 (arg call 1)) (u32 (arg call 2)) ->
  start_ok s s' -> replayable (sys_generic_getdents call) s s'.
Proof.
  intros Hno Hu Hst. pose proof (wrapu_range 32 (arg call 2) ltac:(lia)).
  pose proof (start_facts s s' Hst) as (_&?&_).
  apply (replay_output_fd call (no call) WONT_BLOCK (no call)
    (fun q => [s32 (arg call 0); q; u32 (arg call 2)])
    (used (u64 (arg call 1)) (u32 (arg call 2))) (u32 (arg call 2)) (u64 (arg call 1)) (fun ret => ret));
    [done| | |done| | | |done|lia].
  - by destruct Hno as [->| ->].
  - intros Hc. apply used_pos in Hc. lia.
  - intros q. by destruct Hno as [->| ->].
  - intros q m. exists (u64 (u32 (arg call 2))). rewrite (wrapu_small 64 (u32 _)) by lia.
    split; [|done]. destruct Hno as [->| ->]; cbn; by rewrite (wrapu_small 64 (u32 _)) by lia.
  - intros q ret Hc Hret. apply used_pos in Hc.
    apply (returned_count _ _ 2 (u32 (arg call 2))) in Hret;
      [lia|by destruct Hno as [->| ->]|by destruct Hno as [->| ->]|done|lia].
Qed.

(** The extended-attribute calls copy at most the size they were given. *)
Abbreviation xcnt size := (fun ret => if s64 size <? ret then s64 size else ret).

Lemma replay_flistxattr call s s' :
  no call = SYS_flistxattr -> lengths_ok (geom s) call ->
  user_range (geom s) (u64 (arg call 1)) (u64 (arg call 2)) ->
  start_ok s s' -> replayable (sys_flistxattr call) s s'.
Proof.
  intros Hno Hl Hu Hst. pose proof (start_facts s s' Hst) as (_&?&_).
  apply (lengths_ok_at _ _ 2) in Hl; [|rewrite Hno; by left].
  apply replayable_assert; [by rewrite Hno|].
  apply (replay_output_fd call SYS_flistxattr WONT_BLOCK SYS_flistxattr
    (fun q => [s32 (arg call 0); q; u64 (arg call 2)])
    (used (u64 (arg call 1)) (u64 (arg call 2))) (u64 (arg call 2)) (u64 (arg call 1)) (xcnt (u64 (arg call 2))));
    [done|done| |done|done| | |done|lia].
  - intros Hc. apply used_pos in Hc. lia.
  - intros q m. exists (u64 (u64 (arg call 2))). split; [done|]. by rewrite u64_arg.
  - intros q ret _ Hret. apply (xattr_count SYS_flistxattr _ _ _ eq_refl Hret). lia.
Qed.

Lemma replay_fgetxattr call s s' :
  no call = SYS_fgetxattr -> lengths_ok (geom s) call ->
  user_range (geom s) (u64 (arg call 2)) (u64 (arg call 3)) ->
  start_ok s s' -> replayable (sys_fgetxattr call) s s'.
Proof.
  intros Hno Hl Hu Hst. pose proof (start_facts s s' Hst) as (_&?&_).
  apply (lengths_ok_at _ _ 3) in Hl; [|rewrite Hno; by left].
  apply (replay_output_fd call (no call) WONT_BLOCK (no call)
    (fun q => [s32 (arg call 0); u64 (arg call 1); q; u64 (arg call 3)])
    (used (u64 (arg call 2)) (u64 (arg call 3))) (u64 (arg call 3)) (u64 (arg call 2)) (xcnt (u64 (arg call 3))));
    [done|by rewrite Hno| |done|by rewrite Hno| | |done|lia].
  - intros Hc. apply used_pos in Hc. lia.
  - intros q m. exists (u64 (u64 (arg call 3))). rewrite Hno. split; [done|]. by rewrite u64_arg.
  - intros q ret _ Hret. rewrite Hno in Hret. apply (xattr_count SYS_fgetxattr _ _ _ eq_refl Hret). lia.
Qed.

Lemma replay_generic_getxattr call s s' :
  no call = SYS_getxattr \/ no call = SYS_lgetxattr -> lengths_ok (geom s) call ->
  user_range (geom s) (u64 (arg call 2)) (u64 (arg call 3)) ->
  start_ok s s' -> replayable (sys_generic_getxattr call) s s'.
Proof.
  intros Hno Hl Hu Hst. pose proof (start_facts s s' Hst) as (_&?&_).
  apply (lengths_ok_at _ _ 3) in Hl; [|destruct Hno as [->| ->]; by left].
  assert (returns_size (no call) = true) as Hrs by (by destruct Hno as [->| ->]).
  apply (replay_output call (no call) WONT_BLOCK (no call)
    (fun q => [u64 (arg call 0); u64 (arg call 1); q; u64 (arg call 3)])
    (used (u64 (arg call 2)) (u64 (arg call 3))) (u64 (arg call 3)) (u64 (arg call 2)) (xcnt (u64 (arg call 3))));
    [done|by destruct Hno as [->| ->]| |done|by destruct Hno as [->| ->]| | |done].
  - intros Hc. apply used_pos in Hc. lia.
  - intros q m. exists (u64 (u64 (arg call 3))). split; [by destruct Hno as [->| ->]|]. by rewrite u64_arg.
  - intros q ret _ Hret. apply (xattr_count (no call) _ _ _ Hrs Hret). lia.
Qed.

Lemma replay_generic_listxattr call s s' :
  no call = SYS_listxattr \/ no call = SYS_llistxattr -> lengths_ok (geom s) call ->
  user_range (geom s) (u64 (arg call 1)) (u64 (arg call 2)) ->
  start_ok s s' -> replayable (sys_generic_listxattr call) s s'.
Proof.
  intros Hno Hl Hu Hst. pose proof (start_facts s s' Hst) as (_&?&_).
  apply (lengths_ok_at _ _ 2) in Hl; [|destruct Hno as [->| ->]; by left].
  assert (returns_size (no call) = true) as Hrs by (by destruct Hno as [->| ->]).
  apply (replay_output call (no call) WONT_BLOCK (no call)
    (fun q => [u64 (arg call 0); q; u64 (arg call 2)])
    (used (u64 (arg call 1)) (u64 (arg call 2))) (u64 (arg call 2)) (u64 (arg call 1)) (xcnt (u64 (arg call 2))));
    [done|by destruct Hno as [->| ->]| |done|by destruct Hno as [->| ->]| | |done].
  - intros Hc. apply used_pos in Hc. lia.
  - intros q m. exists (u64 (u64 (arg call 2))). split; [by destruct Hno as [->| ->]|]. by rewrite u64_arg.
  - intros q ret _ Hret. apply (xattr_count (no call) _ _ _ Hrs Hret). lia.
Qed.

(** ** Calls that may be retried with a traced call *)

(** The result of the buffered call decides whether to make a traced call. *)
Definition run_txn_retry (call : syscall_info) (t : transaction) (done_ : Z -> bool) : M Z :=
  ok ← start_commit_buffered_syscall (t_no t) (t_re t) (t_blk t);
  if negb (ok : bool) then traced_raw_syscall call
  else r ← txn_body t; if done_ r then mret r else traced_raw_syscall call.

Lemma replayable_retry call t done_ s s' :
  remembers (txn_body t) -> replayable (run_txn call t) s s' ->
  replayable (run_txn_retry call t done_) s s'.
Proof.
  intros Hrem Hc v f Hrun Htr. unfold run_txn_retry in Hrun.
  apply bind_ret_inv in Hrun as (ok&x&Hx&Hrun).
  pose proof (remembers_start (t_no t) (t_re t) (t_blk t) s) as Hm. rewrite Hx in Hm. cbn [snd] in Hm.
  destruct ok; cbn [negb] in Hrun; [|apply traced_raw_more in Hrun; lia].
  apply bind_ret_inv in Hrun as (r&y&Hy&Hrun). specialize (Hrem x). rewrite Hy in Hrem. cbn [snd] in Hrem.
  destruct (done_ r) eqn:Hd; [|apply traced_raw_more in Hrun; lia].
  unfold mret, M_ret in Hrun. injection Hrun as <- <-.
  assert (run_txn call t s = (Ret r, y)) as Hr by (unfold run_txn; rewrite bind_eq, Hx; done).
  destruct (Hc r y Hr Htr) as [Hcont Hrep]. split; [done|]. intros Hfill.
  destruct (Hrep Hfill) as (y'&Hy'&Hrel). exists y'. split; [|done].
  unfold run_txn in Hy'. apply bind_ret_inv in Hy' as (ok'&x'&Hx'&Hy').
  unfold run_txn_retry. rewrite bind_eq, Hx'. destruct ok'; cbn [negb] in *; [|done].
  by rewrite bind_eq, Hy', Hd.
Qed.

Lemma remembers_txn_body t : remembers (txn_body t).
Proof. unfold txn_body. remember_all. Qed.

Lemma retry_eq call t (k : M Z) done_ x :
  (forall y, k y = txn_body t y) ->
  (ok ← start_commit_buffered_syscall (t_no t) (t_re t) (t_blk t);
   if negb (ok : bool) then traced_raw_syscall call
   else r ← k; if (done_ r : bool) then mret r else traced_raw_syscall call) x =
  run_txn_retry call t done_ x.
Proof. intros H. apply bind_ext. intros [] y; [|done]. cbn [negb]. by rewrite !bind_eq, H. Qed.

(** [prep_syscall], a transaction and the decision. *)
Lemma replayable_prep_retry call (body : Z -> M Z) t done_ s s' :
  start_ok s s' -> (forall x, body (p0 s) x = run_txn_retry call t done_ x) ->
  0 <= t_re t < 2 ^ 63 -> (reserved (lock (geom s)) (t_re t) -> txn_ok (lock (geom s)) (memory s) t) ->
  replayable (mbind body prep_syscall) s s'.
Proof.
  intros [Hr Hrel] Hb Hre Hok.
  apply (replayable_prep_gen body (run_txn_retry call t done_)); [done|apply Hrel|exact Hb|].
  apply replayable_retry; [apply remembers_txn_body|]. by apply locked_txn_replayable.
Qed.

Lemma replay_epoll_wait call s s' :
  no call = SYS_epoll_wait ->
  user_range (geom s) (u64 (arg call 1)) (s32 (arg call 2) * 12) ->
  start_ok s s' -> replayable (sys_epoll_wait call) s s'.
Proof.
  intros Hno Hu Hst. pose proof (wraps_range 32 (arg call 2) ltac:(lia)).
  apply replayable_assert; [by rewrite Hno|].
  set (c := used (u64 (arg call 1)) (s32 (arg call 2))).
  set (a := fun q => [s32 (arg call 0); q; s32 (arg call 2); 0]).
  set (t := output_txn SYS_epoll_wait WONT_BLOCK SYS_epoll_wait a c (s32 (arg call 2) * 12) (u64 (arg call 1))
    (fun ret => ret * 12)).
  assert (c = true -> 0 < s32 (arg call 2) * 12 < 2 ^ 62 - 2 ^ 32) as Hc.
  { intros Hc. apply used_pos in Hc. lia. }
  apply (replayable_prep_retry call _ (t (p0 s))
    (fun ret => (s32 (arg call 3) =? 0) || (negb (ret =? EINTR) && nz ret))); [done| | |].
  - intros x.
    rewrite <- (retry_eq call (t (p0 s)) (ret ← untraced_syscall SYS_epoll_wait (a (if c then p0 s else 0));
      e ← copy_output_buffer (ret * 12) (if c then padd (p0 s) (s32 (arg call 2) * 12) else p0 s)
            (u64 (arg call 1)) (if c then p0 s else 0);
      commit_raw_syscall SYS_epoll_wait e ret)).
    + apply bind_ext. intros [] y; [|done]. cbn [negb]. rewrite bind_assoc. apply bind_ext. intros ret z.
      by rewrite bind_assoc.
    + intros y. apply io_body_no_input. intros ret z. apply (io_tail_output SYS_epoll_wait (fun ret => ret * 12)).
  - apply (output_re c _ s s' Hst Hc).
  - apply output_txn_ok with (s' := s'); try done.
    + intros q m. exists (12 * u64 (s32 (arg call 2))). split; [done|]. intros Hc'. apply used_pos in Hc'.
      rewrite wrapu_small by lia. lia.
    + intros q ret Hc' Hret. apply used_pos in Hc'.
      apply (returned_count _ _ 2 (s32 (arg call 2))) in Hret; try done; lia.
Qed.

(** [commit_raw_syscall] returns the result it is given. *)
Lemma commit_returns no e ret s v f : commit_raw_syscall no e ret s = (Ret v, f) -> v = ret.
Proof.
  unfold commit_raw_syscall. cbv zeta. intros H.
  repeat (apply bind_ret_inv in H as (?&?&_&H)). unfold mret, M_ret in H. by injection H.
Qed.

Lemma commit_then no e ret (k : Z -> M Z) z :
  (commit_raw_syscall no e ret;; k ret) z = (r ← commit_raw_syscall no e ret; k r) z.
Proof.
  rewrite !bind_eq. destruct (commit_raw_syscall no e ret z) as [[v|w] f] eqn:H; [|done].
  by rewrite (commit_returns _ _ _ _ _ _ H).
Qed.

End Outputs.

(** ** Wrappers with input and output parameters replay

    A structure is copied into the record before the call and back after it;
    while replaying the first copy is a self-copy, so that the recorded output
    survives until the second. *)

Section Inout.
Context {E : Env} {Q : QuietKernel E} {K : KernelContract E}.

(** One optional structure of [n] bytes at [dst], used when [c] holds, copied in
    and, if [cond] holds, copied back. *)
Definition inout_txn (no : Z) (blk : blockness) (nr : Z) (a : Z -> list Z) (c : bool) (n dst : Z)
    (p : Z) : transaction :=
  io no (if c then p + n else p) blk nr (a (if c then p else 0))
    (if c then [(p, dst, n)] else [])
    (fun f r => if c && ((0 <=? r) && negb (nz f)) then [(dst, p, n)] else []) (fun _ _ => if c then p + n else p).

Lemma inout_txn_ok no blk nr (a : Z -> list Z) (c : bool) n dst s s' :
  start_ok s s' -> 0 <= no < 2 ^ 16 -> 0 <= n < 2 ^ 32 -> user_range (geom s) dst n ->
  (forall q, described nr (pad8 (a q)) = true) ->
  (forall q m, exists k, kernel_writes nr (pad8 (a q)) m = [(u64 q, k)] /\ k <= n) ->
  reserved (lock (geom s)) (if c then p0 s + n else p0 s) ->
  txn_ok (lock (geom s)) (memory s) (inout_txn no blk nr a c n dst (p0 s)).
Proof.
  intros Hst Hno Hn Hu Hd Hw Hres. destruct (p0_small s s' Hst) as (Hp1&Hp2&Hp3).
  pose proof (start_facts s s' Hst) as (Hg&_). unfold inout_txn. destruct c; cbn [andb].
  - apply (fixed_ok (lock (geom s)) (memory s) no blk nr (a (p0 s)) n [(p0 s, dst, n)] (fun f r => (0 <=? r) && negb (nz f)) [(dst, p0 s, n)]);
      try done; try lia.
    + apply Forall_cons_2; [|done]. unfold to_record. rewrite wrapu_small by lia.
      destruct Hres as [_ Hmax]. unfold p0, SIZEOF_REC in *.
      change (g_last (lock (geom s))) with (g_last (geom s)) in *.
      pose proof (Z.div_mod (g_last (geom s) + 16 + n - g_last (geom s) + 7) 8 ltac:(lia)).
      pose proof (Z.mod_pos_bound (g_last (geom s) + 16 + n - g_last (geom s) + 7) 8 ltac:(lia)). lia.
    + apply Forall_cons_2; [|done]. apply from_record_one; [done|lia|lia].
    + intros m b Hb. destruct (Hw (p0 s) m) as (k&Hk&Hkn). rewrite Hk in Hb.
      apply in_writes_one in Hb as [_ Hb]. rewrite Hp1 in Hb. fold (p0 s).
      change (g_last (lock (geom s)) + SIZEOF_REC) with (p0 s). lia.
  - apply (plain_ok (lock (geom s)) (memory s) no blk nr (a 0)); try done.
    intros m b Hb. destruct (Hw 0 m) as (k&Hk&_). rewrite Hk in Hb. by apply in_writes_one in Hb as [Hb _].
Qed.

(** The part of a wrapper after [start_commit_buffered_syscall]. *)
Lemma inout_body_eq no blk nr (a : Z -> list Z) (c : bool) n dst p y :
  p <> 0 ->
  ((if nz (if c then p else 0) then memcpy_input_parameter (if c then p else 0) dst n else mret tt);;
   ret ← untraced_syscall nr (a (if c then p else 0));
   failed ← gets (fun s => failed_during_preparation (hdr s));
   (if nz (if c then p else 0) && (0 <=? ret) && negb (nz failed)
    then local_memcpy dst (if c then p else 0) n else mret tt);;
   commit_raw_syscall no (if c then p + n else p) ret) y =
  txn_body (inout_txn no blk nr a c n dst p) y.
Proof.
  intros Hp. apply nz_true in Hp. unfold inout_txn. destruct c; cbn [andb].
  - rewrite Hp. cbn [andb]. apply (io_body_input no (p + n) blk nr (a p) true p dst n). intros ret z.
    apply (io_tail_copy no (p + n) (fun f r => (0 <=? r) && negb (nz f))).
  - cbn [nz Z.eqb negb andb]. apply (io_body_input no p blk nr (a 0) false 0 0 0). intros ret z.
    apply (io_tail_copy no p (fun _ _ => false) dst 0 n).
Qed.

(** The structure of [fcntl] locks and owners, for a descriptor. *)
Lemma replay_inout_fd call fd no blk nr (a : Z -> list Z) (c : bool) n dst s s' :
  start_ok s s' -> 0 <= no < 2 ^ 16 -> 0 <= n < 2 ^ 32 -> user_range (geom s) dst n ->
  (forall q, described nr (pad8 (a q)) = true) ->
  (forall q m, exists k, kernel_writes nr (pad8 (a q)) m = [(u64 q, k)] /\ k <= n) ->
  replayable (ptr ← prep_syscall_for_fd fd;
    ok ← start_commit_buffered_syscall no (if c then padd ptr n else ptr) blk;
    if negb (ok : bool) then traced_raw_syscall call
    else
      (if nz (if c then ptr else 0) then memcpy_input_parameter (if c then ptr else 0) dst n else mret tt);;
      ret ← untraced_syscall nr (a (if c then ptr else 0));
      failed ← gets (fun s => failed_during_preparation (hdr s));
      (if nz (if c then ptr else 0) && (0 <=? ret) && negb (nz failed)
       then local_memcpy dst (if c then ptr else 0) n else mret tt);;
      commit_raw_syscall no (if c then padd ptr n else ptr) ret) s s'.
Proof.
  intros Hst Hno Hn Hu Hd Hw. destruct (p0_small s s' Hst) as (Hp1&Hp2&Hp3).
  pose proof (start_facts s s' Hst) as (_&?&_).
  eapply (replayable_prep_fd call fd _ (inout_txn no blk nr a c n dst (p0 s)));
    [apply Hst..| |intros x; reflexivity| | |].
  - intros x. fold (p0 s). rewrite (padd_p0 s s') by (done || lia).
    apply (run_txn_eq call (inout_txn no blk nr a c n dst (p0 s))). intros y. by apply inout_body_eq.
  - cbn [inout_txn io t_re]. destruct c; lia.
  - destruct c; [|lia]. unfold padd. rewrite wrapu_small by lia. lia.
  - by apply (inout_txn_ok no blk nr a c n dst s s').
Qed.

Lemma fcntl_output fd cmd q m :
  exists k, kernel_writes SYS_fcntl (pad8 [fd; cmd; q]) m = [(u64 q, k)] /\ k <= 8.
Proof. eexists. split; [done|]. by destruct (_ =? _). Qed.

Lemma replay_fcntl_own_ex call s s' :
  no call = SYS_fcntl -> user_range (geom s) (u64 (arg call 2)) 8 ->
  start_ok s s' -> replayable (sys_fcntl64_own_ex call) s s'.
Proof.
  intros Hno Hu Hst. apply replayable_assert; [by rewrite Hno|]. apply replayable_hoist.
  apply (replay_inout_fd call (s32 (arg call 0)) SYS_fcntl WONT_BLOCK SYS_fcntl
    (fun q => [s32 (arg call 0); s32 (arg call 1); q]) (nz (u64 (arg call 2))) 8 (u64 (arg call 2)));
    [done|done|lia|done|done|]. intros q m. apply fcntl_output.
Qed.

Lemma replay_fcntl_setlk64 call s s' :
  no call = SYS_fcntl -> user_range (geom s) (u64 (arg call 2)) 32 ->
  start_ok s s' -> replayable (sys_fcntl64_setlk64 call) s s'.
Proof.
  intros Hno Hu Hst. apply replayable_hoist1, replayable_force; [done|].
  intros t t' Ht Hg _ _ _. cbv zeta. rewrite <- Hg in Hu.
  apply replayable_assert; [by rewrite Hno|].
  apply (replay_inout_fd call (s32 (arg call 0)) SYS_fcntl WONT_BLOCK SYS_fcntl
    (fun q => [s32 (arg call 0); s32 (arg call 1); q]) (nz (u64 (arg call 2))) 32 (u64 (arg call 2)));
    [done|done|lia|done|done|]. intros q m.
  destruct (fcntl_output (s32 (arg call 0)) (s32 (arg call 1)) q m) as (k&Hk&?). exists k. split; [done|lia].
Qed.

(** [fcntl]: the commands that are buffered. *)
Lemma replay_fcntl call s s' :
  no call = SYS_fcntl -> user_range (geom s) (u64 (arg call 2)) 32 ->
  start_ok s s' -> replayable (sys_fcntl call) s s'.
Proof.
  intros Hno Hu Hst. unfold sys_fcntl. cbv zeta.
  match goal with |- context [if ?b then sys_fcntl64_no_outparams call else _] => destruct b eqn:H1 end.
  { apply replay_fcntl_no_outparams; [done| |done]. apply existsb_exists in H1 as (x&Hx&Hxe).
    apply Z.eqb_eq in Hxe. subst x. apply list_elem_of_In.
    cbn in Hx |- *. tauto. }
  match goal with |- context [if ?b then sys_fcntl64_own_ex call else _] => destruct b end.
  { apply replay_fcntl_own_ex; [done| |done]. by apply (user_range_less _ _ 32). }
  destruct (Z.eqb_spec (arg call 1) F_SETLK); [by apply replay_fcntl_setlk64|].
  destruct (Z.eqb_spec (arg call 1) F_SETLKW); [by apply replay_fcntl_setlkw64|].
  apply traced_not_replayable.
Qed.

Lemma replay_poll call s s' :
  no call = SYS_poll -> u32 (arg call 1) * 8 < 2 ^ 32 ->
  user_range (geom s) (u64 (arg call 0)) (u32 (arg call 1) * 8) ->
  start_ok s s' -> replayable (sys_poll call) s s'.
Proof.
  intros Hno Hlen Hu Hst. pose proof (wrapu_range 32 (arg call 1) ltac:(lia)).
  destruct (p0_small s s' Hst) as (Hp1&Hp2&Hp3).
  apply replayable_assert; [by rewrite Hno|].
  set (c := nz (u64 (arg call 0)) && (0 <? u32 (arg call 1))).
  set (t := inout_txn SYS_poll WONT_BLOCK SYS_poll (fun q => [q; u32 (arg call 1); 0]) c
    (u32 (arg call 1) * 8) (u64 (arg call 0)) (p0 s)).
  apply (replayable_prep_retry call _ t (fun ret => nz ret || (s32 (arg call 2) =? 0))); [done| | |].
  - intros x. rewrite (padd_p0 s s') by (done || unfold SIZEOF_pollfd; lia). fold c.
    rewrite <- (retry_eq call t
      ((if nz (if c then p0 s else 0)
        then memcpy_input_parameter (if c then p0 s else 0) (u64 (arg call 0)) (u32 (arg call 1) * 8)
        else mret tt);;
       ret ← untraced_syscall SYS_poll [if c then p0 s else 0; u32 (arg call 1); 0];
       failed ← gets (fun s => failed_during_preparation (hdr s));
       (if nz (if c then p0 s else 0) && (0 <=? ret) && negb (nz failed)
        then local_memcpy (u64 (arg call 0)) (if c then p0 s else 0) (u32 (arg call 1) * 8) else mret tt);;
       commit_raw_syscall SYS_poll (if c then p0 s + u32 (arg call 1) * 8 else p0 s) ret)).
    + apply bind_ext. intros [] y; [|done]. cbn [negb]. rewrite bind_assoc. apply bind_ext. intros [] z.
      rewrite bind_assoc. apply bind_ext. intros ret z1. rewrite bind_assoc. apply bind_ext. intros failed z2.
      rewrite bind_assoc. apply bind_ext. intros [] z3.
      apply (commit_then SYS_poll _ ret (fun ret => if nz ret || (s32 (arg call 2) =? 0) then mret ret
        else traced_raw_syscall call)).
    + intros y. by apply (inout_body_eq SYS_poll WONT_BLOCK SYS_poll (fun q => [q; u32 (arg call 1); 0]) c).
  - cbn [t inout_txn io t_re]. destruct c; lia.
  - apply (inout_txn_ok SYS_poll WONT_BLOCK SYS_poll (fun q => [q; u32 (arg call 1); 0]) c _ _ s s');
      [done|done|lia|done|done|].
    intros q m. exists (8 * u64 (u32 (arg call 1))). split; [done|].
    rewrite wrapu_small by lia. lia.
Qed.

(** ** The remaining fixed outputs *)

Lemma replay_socketpair call s s' :
  no call = SYS_socketpair -> user_range (geom s) (u64 (arg call 3)) 8 ->
  start_ok s s' -> replayable (sys_socketpair call) s s'.
Proof.
  intros Hno Hu Hst. destruct (p0_small s s' Hst) as (Hp1&Hp2&Hp3).
  apply replayable_assert; [by rewrite Hno|].
  apply (replay_fixed call SYS_socketpair WONT_BLOCK SYS_socketpair
    [s32 (arg call 0); s32 (arg call 1); s32 (arg call 2); p0 s] 8
    (fun failed ret => (0 <=? ret) && negb (nz failed)) [(u64 (arg call 3), p0 s, 8)]) with
    (k := fun ret => failed ← gets (fun s => failed_during_preparation (hdr s));
      (if (0 <=? ret) && negb (nz failed) then local_memcpy (u64 (arg call 3)) (p0 s) 8 else mret tt);;
      commit_raw_syscall SYS_socketpair (p0 s + 8) ret); [done|done|done|lia| | |lia| |].
  - apply Forall_cons_2; [|done]. apply from_record_one; [done|lia|unfold p0; lia].
  - intros m b Hb. apply in_writes_one in Hb as [_ Hb].
    change (u64 (p0 s) <= b < u64 (p0 s) + 8) in Hb. rewrite Hp1 in Hb. lia.
  - intros ret z. apply (io_tail_copy _ _ (fun failed ret => (0 <=? ret) && negb (nz failed))).
  - intros x. rewrite (padd_p0 s s') by (done || unfold SIZEOF_timezone; lia). done.
Qed.

(** [gettimeofday]: two optional structures, one after the other. *)
Lemma replay_gettimeofday call s s' :
  no call = SYS_gettimeofday -> user_range (geom s) (u64 (arg call 0)) 16 ->
  user_range (geom s) (u64 (arg call 1)) 8 ->
  start_ok s s' -> replayable (sys_gettimeofday call) s s'.
Proof.
  intros Hno Hu1 Hu2 Hst. destruct (p0_small s s' Hst) as (Hp1&Hp2&Hp3).
  apply replayable_assert; [by rewrite Hno|].
  set (b1 := nz (u64 (arg call 0))). set (b2 := nz (u64 (arg call 1))).
  set (n := (if b1 then 16 else 0) + (if b2 then 8 else 0)).
  set (q := p0 s + (if b1 then 16 else 0)).
  set (outs := (if b1 then [(u64 (arg call 0), p0 s, 16)] else [])
    ++ (if b2 then [(u64 (arg call 1), q, 8)] else [])).
  set (a := [if b1 then p0 s else 0; if b2 then q else 0]).
  assert (0 <= n <= 24) by (unfold n; destruct b1, b2; lia).
  assert (Hq : u64 q = q /\ q <> 0 /\ padd (p0 s) 16 = p0 s + 16 /\ padd q 8 = q + 8).
  { unfold q, padd. rewrite !wrapu_small by (destruct b1; lia). destruct b1; lia. }
  apply (replay_fixed call SYS_gettimeofday WONT_BLOCK SYS_gettimeofday a n
    (fun failed ret => (0 <=? ret) && negb (nz failed)) outs) with
    (k := fun ret => failed ← gets (fun s => failed_during_preparation (hdr s));
      (if (0 <=? ret) && negb (nz failed) then
         (if b1 then local_memcpy (u64 (arg call 0)) (p0 s) 16 else mret tt);;
         (if b2 then local_memcpy (u64 (arg call 1)) q 8 else mret tt)
       else mret tt);;
      commit_raw_syscall SYS_gettimeofday (p0 s + n) ret); [done|done|done|lia| | |lia| |].
  - unfold outs, n. apply Forall_app_2.
    + destruct b1; [|done]. apply Forall_cons_2; [|done]. apply from_record_one; [done|lia|].
      unfold p0. destruct b2; lia.
    + destruct b2; [|done]. apply Forall_cons_2; [|done]. unfold from_record. rewrite (wrapu_small 32 8) by lia.
      split_and!; [done|unfold q, p0; destruct b1; lia|unfold q; destruct b1; lia].
  - intros m b (p&k&Hin&Hpn&Hb). destruct Hq as (Hq1&_).
    change ((p, k) ∈ [(u64 (if b1 then p0 s else 0), 16); (u64 (if b2 then q else 0), 8)]) in Hin.
    unfold n. apply elem_of_cons in Hin as [Hin|Hin]; [|apply list_elem_of_singleton in Hin];
      injection Hin as -> ->.
    + destruct b1; [|done]. rewrite Hp1 in Hb. destruct b2; lia.
    + destruct b2; [|done]. rewrite Hq1 in Hb. unfold q in Hb. destruct b1; lia.
  - intros ret z. unfold io_tail. apply bind_ext. intros failed y. rewrite !bind_eq.
    destruct (_ && _); [|by rewrite modify_mem_id].
    unfold outs. destruct b1, b2; cbn [app do_copies]; rewrite ?bind_eq, ?modify_mem_id; done.
  - intros x. destruct Hq as (_&_&Hq3&Hq4). fold b1 b2.
    replace (if b1 then padd (p0 s) SIZEOF_timeval else p0 s) with q
      by (unfold q, SIZEOF_timeval; rewrite Hq3; destruct b1; lia).
    replace (if b2 then padd q SIZEOF_timezone else q) with (p0 s + n)
      by (unfold SIZEOF_timezone; rewrite Hq4; unfold n, q; destruct b1, b2; lia).
    unfold a. destruct b1, b2; reflexivity.
Qed.

(** [time]: the result itself is stored through the user's pointer. *)
Lemma replay_time call s s' :
  no call = SYS_time -> user_range (geom s) (u64 (arg call 0)) 8 ->
  start_ok s s' -> replayable (sys_time call) s s'.
Proof.
  intros Hno Hu Hst. destruct (p0_small s s' Hst) as (Hp1&Hp2&Hp3).
  pose proof (start_facts s s' Hst) as (Hg&Hb&Hl).
  apply replayable_assert; [by rewrite Hno|].
  set (tp := u64 (arg call 0)) in *.
  set (t := mkTransaction SYS_time (p0 s) WONT_BLOCK SYS_time [0] (fun _ m => m)
    (fun _ ret m => if nz tp then store 8 tp ret m else m) (fun _ _ => p0 s)).
  apply (replayable_prep call _ t); [apply Hst..| | |].
  - intros x. fold (p0 s). apply (run_txn_eq call t). intros y. unfold txn_body, t.
    cbn [t_no t_nr t_args t_pre t_post t_end]. rewrite (bind_eq (gets replaying)). cbn [gets].
    rewrite (bind_eq (modify_mem _)), modify_mem_id. apply bind_ext. intros ret z.
    rewrite (bind_eq (gets failed_flag)). cbn [gets]. rewrite !bind_eq.
    destruct (nz tp); [done|]. by rewrite modify_mem_id.
  - cbn [t t_re]. lia.
  - unfold user_range, disjoint_rng in Hu. fold (g_end (geom s)) in Hu. intros Hres.
    assert (g_end (lock (geom s)) = g_buffer (geom s) + g_size (geom s)) by done.
    split; cbn [t t_no t_nr t_args t_pre t_post t_end]; try done.
    + intros m b _ Hb'. by apply in_writes_one in Hb' as [Hb' _].
    + intros ret _ m a Ha. destruct (nz tp); [|done]. apply store_out.
      change (g_buffer (lock (geom s))) with (g_buffer (geom s)) in Ha. unfold g_end in *. lia.
    + intros ret _ m m' Hm _. destruct (nz tp); [|done]. by apply agree_store_same.
    + intros ret _. split; [done|]. eapply fits_reserved; [exact Hres|]. unfold t, p0, SIZEOF_REC. cbn [t_re].
      change (g_last (lock (geom s))) with (g_last (geom s)). lia.
Qed.

End Inout.
