(* ===== verification/ReplayHook.v ===== *)
(** * The dispatch and [syscall_hook] replay

    The results of [ReplayWrappers] and [ReplayOutputs] put
    together for [syscall_hook_internal]'s dispatch and for [syscall_hook]:
    which calls are covered, the memory each of them may use, and the lemma
    that a recorded run of the hook is matched by its replay.  [ReplayBatch]
    lifts it to a whole program between two flushes of the buffer. *)

From stdpp Require Import base tactics list numbers.
From S2P Require Import Prelude Memory KernelAbi CStrings PreloadInterface Machine SyscallNumbers Syscallbuf Wrappers Hook BufferInv WrapperInv HookInv Replay History ReplayWrappers ReplayOutputs.
Local Open Scope Z_scope.

(** ** The calls covered *)

(** The wrappers whose replay is not covered here: they change shared state in
    their own way ([futex], [mprotect], [rt_sigprocmask]), make the call again
    while replaying ([madvise], [mprotect]) or follow pointers. *)
Definition not_covered : list Z :=
  [SYS_futex; SYS_madvise; SYS_mprotect; SYS_ptrace; SYS_recvfrom; SYS_recvmsg; SYS_rt_sigprocmask].

(** The memory of the program a wrapper reads or writes: address and length. *)
Definition user_buffers {E : Env} (call : syscall_info) : list (Z * Z) :=
  let x i := u64 (arg call i) in
  let n := no call in
  let path := Z.of_nat strfuel in
  if n =? SYS_clock_gettime then [(x 1%nat, 16)]
  else if existsb (Z.eqb n) [SYS_open; SYS_creat] then [(x 0%nat, path)]
  else if n =? SYS_openat then [(x 1%nat, path)]
  else if n =? SYS_epoll_wait then [(x 1%nat, s32 (arg call 2) * 12)]
  else if n =? SYS_fcntl then [(x 2%nat, 32)]
  else if existsb (Z.eqb n) [SYS_fgetxattr; SYS_getxattr; SYS_lgetxattr] then [(x 2%nat, x 3%nat)]
  else if existsb (Z.eqb n) [SYS_flistxattr; SYS_listxattr; SYS_llistxattr; SYS_read; SYS_pread64]
  then [(x 1%nat, x 2%nat)]
  else if existsb (Z.eqb n) [SYS_getdents; SYS_getdents64] then [(x 1%nat, u32 (arg call 2))]
  else if n =? SYS_readlink then [(x 1%nat, s32 (arg call 2))]
  else if existsb (Z.eqb n) [SYS_getrusage; SYS_fstat; SYS_lstat; SYS_stat] then [(x 1%nat, 144)]
  else if existsb (Z.eqb n) [SYS_statfs; SYS_fstatfs] then [(x 1%nat, 120)]
  else if n =? SYS_gettimeofday then [(x 0%nat, 16); (x 1%nat, 8)]
  else if n =? SYS_poll then [(x 0%nat, u32 (arg call 1) * 8)]
  else if n =? SYS_socketpair then [(x 3%nat, 8)]
  else if n =? SYS_time then [(x 0%nat, 8)]
  else [].

(** A call of the program: covered, and with its buffers outside the syscall
    buffer. *)
Record call_ok {E : Env} (g : geometry) (call : syscall_info) : Prop := mkCallOk {
  call_covered : no call ∉ not_covered;
  call_lengths : lengths_ok g call;
  call_buffers : Forall (fun '(p, n) => user_range g p n) (user_buffers call);
  call_poll : no call = SYS_poll -> u32 (arg call 1) * 8 < 2 ^ 32 }.

Section ReplayHook.
Context {E : Env} {Q : QuietKernel E} {K : KernelContract E}.
Hypothesis strfuel_pos : 0 < Z.of_nat strfuel.

Definition entry_replays (p : Z * (syscall_info -> M Z)) : Prop :=
  forall call s s', no call = fst p -> call_ok (geom s) call ->
    start_ok s s' -> replayable (snd p call) s s'.

(** The user buffers of a call, one or two of them. *)
Lemma buffers_one g call p n :
  user_buffers call = [(p, n)] -> call_ok g call -> user_range g p n.
Proof. intros He [_ _ H _]. rewrite He in H. by inversion H. Qed.

(** [quotactl] is never buffered: no 32-bit command shifted right by 8 bits is
    [Q_GETQUOTA]. *)
Lemma quotactl_traced call s : sys_quotactl call s = traced_raw_syscall call s.
Proof.
  unfold sys_quotactl. cbv zeta. destruct (Z.eqb_spec (Z.shiftr (s32 (arg call 0)) SUBCMDSHIFT) Q_GETQUOTA) as [He|];
    [|done].
  rewrite Z.shiftr_div_pow2 in He by (unfold SUBCMDSHIFT; lia).
  pose proof (wraps_range 32 (arg call 0) ltac:(lia)). unfold SUBCMDSHIFT, Q_GETQUOTA in He.
  pose proof (Z.div_mod (s32 (arg call 0)) (2 ^ 8) ltac:(lia)).
  pose proof (Z.mod_pos_bound (s32 (arg call 0)) (2 ^ 8) ltac:(lia)). lia.
Qed.

Lemma replay_quotactl call s s' : replayable (sys_quotactl call) s s'.
Proof. by apply (replayable_ext _ _ s s' (quotactl_traced call s) (quotactl_traced call s')), traced_not_replayable. Qed.

Lemma buffers_two_1 g call p n q k :
  user_buffers call = [(p, n); (q, k)] -> call_ok g call -> user_range g p n.
Proof. intros He [_ _ H _]. rewrite He in H. by inversion H. Qed.

Lemma buffers_two_2 g call p n q k :
  user_buffers call = [(p, n); (q, k)] -> call_ok g call -> user_range g q k.
Proof. intros He [_ _ H _]. rewrite He in H. inversion H as [|? ? _ H2]; subst. by inversion H2. Qed.

(** The entries whose user buffers are computed below: the number is known, so
    [user_buffers] evaluates. *)
Lemma entry_intro n (w : syscall_info -> M Z) :
  (forall a s s', let call := mkCall n a in
     call_ok (geom s) call -> start_ok s s' -> replayable (w call) s s') ->
  entry_replays (n, w).
Proof. intros H [n' a] s s' Hno Hok Hst. cbn in Hno. subst n'. by apply H. Qed.

Tactic Notation "entry" tactic3(tac) :=
  apply List.Forall_cons; [apply entry_intro; intros a s s' call Hok Hst; tac|].

Ltac uncovered Hok := exfalso; apply (call_covered _ _ Hok); apply list_elem_of_In; cbn; tauto.

Lemma CASES_replay : Forall entry_replays CASES.
Proof.
  unfold CASES.
  entry (apply replay_clock_gettime; [done|by apply (buffers_one _ call)|done]).
  entry (apply replay_creat; [by apply (buffers_one _ call)|done]).
  entry (apply replay_epoll_wait; [done|by apply (buffers_one _ call)|done]).
  entry (apply replay_fcntl; [done|by apply (buffers_one _ call)|done]).
  entry (apply replay_fgetxattr; [done|apply Hok|by apply (buffers_one _ call)|done]).
  entry (apply replay_flistxattr; [done|apply Hok|by apply (buffers_one _ call)|done]).
  entry (uncovered Hok).
  entry (apply replay_generic_getdents; [by left|by apply (buffers_one _ call)|done]).
  entry (apply replay_generic_getdents; [by right|by apply (buffers_one _ call)|done]).
  entry (apply replay_getrusage; [done|by apply (buffers_one _ call)|done]).
  entry (apply replay_gettimeofday; [done|by eapply (buffers_two_1 _ call)|by eapply (buffers_two_2 _ call)|done]).
  entry (apply replay_generic_getxattr; [by left|apply Hok|by apply (buffers_one _ call)|done]).
  entry (by apply replay_ioctl).
  entry (apply replay_generic_getxattr; [by right|apply Hok|by apply (buffers_one _ call)|done]).
  entry (apply replay_generic_listxattr; [by left|apply Hok|by apply (buffers_one _ call)|done]).
  entry (apply replay_generic_listxattr; [by right|apply Hok|by apply (buffers_one _ call)|done]).
  entry (uncovered Hok).
  entry (uncovered Hok).
  entry (apply replay_open; [done|by apply (buffers_one _ call)|done]).
  entry (apply replay_openat; [done|done|by apply (buffers_one _ call)|done]).
  entry (apply replay_poll; [done|by apply Hok|by apply (buffers_one _ call)|done]).
  entry (apply replay_pread64; [done|apply Hok|by apply (buffers_one _ call)|done]).
  entry (by apply replay_pwrite64).
  entry (uncovered Hok).
  entry (apply replay_quotactl).
  entry (apply replay_read; [done|apply Hst|apply Hok|by apply (buffers_one _ call)|done]).
  entry (apply replay_readlink; [done|by apply (buffers_one _ call)|done]).
  entry (uncovered Hok).
  entry (uncovered Hok).
  entry (uncovered Hok).
  entry (by apply replay_sendmsg).
  entry (by apply replay_sendto).
  entry (by apply replay_setsockopt).
  entry (apply replay_socketpair; [done|by apply (buffers_one _ call)|done]).
  entry (apply replay_time; [done|by apply (buffers_one _ call)|done]).
  entry (by apply replay_write).
  entry (by apply replay_writev).
  apply List.Forall_nil.
Qed.

Lemma entries_replay l w :
  (forall call s s', no call ∈ l -> call_ok (geom s) call -> start_ok s s' -> replayable (w call) s s') ->
  Forall entry_replays (map (fun n => (n, w)) l).
Proof.
  intros Hw. induction l as [|n l IH]; cbn [map]; [apply List.Forall_nil|].
  apply List.Forall_cons; [|apply IH; intros; apply Hw; [by right|done..]].
  intros call s s' Hno Hok Hst. cbn [fst snd] in *. apply Hw; [rewrite Hno; by left|done..].
Qed.

Lemma wrapper_table_replays : Forall entry_replays wrapper_table.
Proof.
  unfold wrapper_table. apply Forall_app_2; [|apply Forall_app_2; [|apply Forall_app_2;
    [apply CASES_replay|apply Forall_app_2]]]; apply entries_replay; intros call s s' Hno Hok Hst.
  - by apply replay_generic_nonblocking.
  - by apply replay_generic_nonblocking_fd.
  - apply replay_xstat64; [done| |done]. apply (buffers_one _ call); [|done]. unfold user_buffers.
    unfold XSTAT64 in Hno. repeat (apply elem_of_cons in Hno as [->|Hno]; [done|]). by apply elem_of_nil in Hno.
  - apply replay_statfs; [done| |done]. apply (buffers_one _ call); [|done]. unfold user_buffers.
    unfold STATFS in Hno. repeat (apply elem_of_cons in Hno as [->|Hno]; [done|]). by apply elem_of_nil in Hno.
Qed.

Lemma dispatch_replays table call s s' :
  Forall entry_replays table -> call_ok (geom s) call ->
  start_ok s s' -> replayable (dispatch table call) s s'.
Proof.
  intros Ht Hok Hst. induction Ht as [|[n w] table Hw Ht IH]; cbn [dispatch].
  - apply traced_not_replayable.
  - destruct (Z.eqb_spec (no call) n); [by apply Hw|done].
Qed.

(** ** [syscall_hook] *)

(** The states before and after the dispatch. *)
Definition delayed (s : st) : st :=
  if nz (impose_syscall_delay (sv s)) then snd (do_delay s) else s.

Definition pre_hook (call_ptr : Z) (s : st) : st :=
  delayed (set_tl (set_original_syscall_parameters call_ptr (tl s)) s).

Definition post_hook (s : st) : st := set_tl (set_original_syscall_parameters 0 (tl s)) s.

(** What follows the dispatch when rr has asked for nothing. *)
Lemma hook_run call_ptr call s :
  process_inited (sv s) <> 0 -> thread_inited (tl s) <> 0 -> buffer (tl s) <> 0 -> locked (hdr s) = 0 ->
  (forall r f, syscall_hook_internal call (pre_hook call_ptr s) = (Ret r, f) ->
     notify_on_syscall_hook_exit (hdr f) = 0 -> notify_control_msg (tl f) = 0 ->
     syscall_hook call_ptr call s = (Ret r, post_hook f)) /\
  (forall v f, syscall_hook call_ptr call s = (Ret v, f) ->
     exists r f1, syscall_hook_internal call (pre_hook call_ptr s) = (Ret r, f1) /\
       (traced_calls (events f1) <= traced_calls (events f))%nat).
Proof.
  intros Hp Ht Hb Hl.
  assert (syscall_hook call_ptr call s = hook_unlocked call_ptr call s) as ->.
  { unfold syscall_hook. rewrite bind_eq, init_thread_again by (by apply nz_true).
    rewrite bind_eq. cbn [gets]. rewrite bind_eq. cbn [gets]. rewrite Hl. unfold buffer_hdr.
    destruct (Z.eqb_spec (buffer (tl s)) 0); [done|]. done. }
  unfold hook_unlocked. rewrite bind_eq. cbn [modify_tl modify]. rewrite bind_eq. cbn [gets].
  set (s1 := set_tl _ s). rewrite bind_eq.
  assert ((if nz (impose_syscall_delay (sv s1)) then do_delay else mret tt) s1 = (Ret tt, pre_hook call_ptr s)) as ->.
  { unfold pre_hook, delayed. fold s1. destruct (nz _); [|done]. unfold do_delay, modify_sv, modify. done. }
  split.
  - intros r f Hr Hn Hm. rewrite bind_eq, Hr. rewrite bind_eq. cbn [gets]. rewrite bind_eq. cbn [gets].
    rewrite Hn. cbn [nz Z.eqb negb]. rewrite andb_false_r, bind_ret_l, bind_eq. cbn [gets]. rewrite Hm. done.
  - intros v f Hrun. apply bind_ret_inv in Hrun as (r&f1&Hr&Hrun). exists r, f1. split; [done|].
    match type of Hrun with ?c f1 = _ => assert (remembers c) as Hrem by remember_all end.
    specialize (Hrem f1). by rewrite Hrun in Hrem.
Qed.

Lemma same_pre_hook p s s' : same_shared s s' -> same_shared (pre_hook p s) (pre_hook p s').
Proof.
  intros H. unfold pre_hook, delayed. rewrite (rel_tl _ _ H).
  cbn [sv set_tl]. rewrite (rel_sv _ _ H). destruct (nz _); [|by apply same_set_tl].
  unfold do_delay, modify_sv, modify. cbn [snd sv set_tl]. rewrite (rel_sv _ _ H). by destruct H.
Qed.

Lemma pre_hook_facts p s :
  geom (pre_hook p s) = geom s /\ memory (pre_hook p s) = memory s /\ events (pre_hook p s) = events s /\
  (ready s -> ready (pre_hook p s)).
Proof.
  unfold pre_hook, delayed. destruct (nz _); do 3 (split; [done|]); intros [H1 H2 []]; (split; [done|done|by split]).
Qed.

Lemma hook_replayable call_ptr call s s' :
  call_ok (geom s) call -> start_ok s s' -> replayable (syscall_hook call_ptr call) s s'.
Proof.
  intros Hok [Hr [Hs Hm]] v f Hrun Htr. pose proof (ready_good s Hr) as Hg.
  assert (buffer (tl s) <> 0) as Hb by (destruct Hg; cbn in *; lia).
  pose proof (quiet_process _ (ready_quiet _ Hr)) as Hp. pose proof (quiet_thread _ (ready_quiet _ Hr)) as Ht.
  pose proof (ready_unlocked _ Hr) as Hl.
  destruct (pre_hook_facts call_ptr s) as (P1&P2&P3&P4). destruct (pre_hook_facts call_ptr s') as (_&P2'&_).
  destruct (hook_run call_ptr call s Hp Ht Hb Hl) as [Hfwd Hbwd].
  destruct (Hbwd v f Hrun) as (r&f1&Hf1&Hle).
  assert (replayable (syscall_hook_internal call) (pre_hook call_ptr s) (pre_hook call_ptr s')) as Hrep.
  { apply dispatch_replays; [apply wrapper_table_replays|by rewrite P1|]. split; [by apply P4|].
    split; [by apply same_pre_hook|]. by rewrite P1, P2, P2'. }
  pose proof (remembers_internal call (pre_hook call_ptr s)) as Hrem. rewrite Hf1, P3 in Hrem. cbn [snd] in Hrem.
  destruct (Hrep r f1 Hf1) as [[C1 C2 C3 C4 C5 C6] Hback]; [rewrite P3; lia|].
  rewrite P1 in C2, C3, C5, C6, Hback. rewrite P2 in C5. rewrite P3 in C4. rewrite P2' in Hback.
  pose proof (ready_quiet _ C1) as Hq.
  pose proof (Hfwd r f1 Hf1 (quiet_notify _ Hq) (quiet_msg _ Hq)) as Hrun'.
  rewrite Hrun in Hrun'. injection Hrun' as -> ->. split.
  - split; try done. destruct C1 as [? ? []]. split; [done|done|by split].
  - intros Hfill. destruct (Hback Hfill) as (f1'&Hf1'&[[Hs1 Hm1] Hrest]). rewrite P2' in Hrest. exists (post_hook f1').
    destruct (hook_run call_ptr call s') as [Hfwd' _];
      [by rewrite (rel_sv _ _ Hs)|by rewrite (rel_tl _ _ Hs)|by rewrite (rel_tl _ _ Hs)|by rewrite (rel_hdr _ _ Hs)|].
    split.
    + apply Hfwd'; [done| |]; [rewrite (rel_hdr _ _ Hs1)|rewrite (rel_tl _ _ Hs1)]; apply Hq.
    + split; [|done]. split; [|done]. unfold post_hook. rewrite (rel_tl _ _ Hs1). by apply same_set_tl.
Qed.

End ReplayHook.
