(* ===== verification/Tracer.v ===== *)
(** * rr's side of the syscall buffer

    What the tracer does with the buffer of a stopped task: while recording it
    flushes the records to the trace ([RecordTask::maybe_flush_syscallbuf]) and
    resets the buffer ([Task::reset_syscallbuf]); while replaying it puts the
    recorded bytes back, computes the breakpoint at which the replay of the
    batch ends ([ReplaySession::prepare_syscallbuf_records]), counts the records
    consumed and applies the buffered [mprotect]s.  [rr dump] walks the same
    bytes.

    An [ASSERT] of the tracer is [None]. *)

From stdpp Require Import base tactics list numbers.
From S2P Require Import Prelude Memory KernelAbi PreloadInterface Machine Syscallbuf.
Local Open Scope Z_scope.

(** ** Bytes of the tracee *)

Definition read_bytes (a n : Z) (m : mem) : list Z :=
  map (fun i => m (a + Z.of_nat i)) (seq 0 (Z.to_nat n)).

Definition write_bytes (a : Z) (l : list Z) (m : mem) : mem :=
  fun b => match (if a <=? b then l !! Z.to_nat (b - a) else None) with Some v => v | None => m b end.

(** ** The trace *)

(** One raw data record: the address, and the header and the bytes after it. *)
Record raw_data := mkRaw { raw_addr : Z; raw_hdr : syscallbuf_hdr; raw_bytes : list Z }.

Definition raw_size (d : raw_data) : Z := SIZEOF_HDR + Z.of_nat (length (raw_bytes d)).

Inductive trace_event :=
| SyscallbufFlush (records : list mprotect_record) (data : raw_data)
| SyscallbufReset.

(** ** The recording task *)

Record record_task := mkRecordTask {
  syscallbuf_child : Z;
  syscallbuf_size : Z;
  flushing : bool;               (** the current event is [EV_SYSCALLBUF_FLUSH] *)
  flushed_syscallbuf : bool;
  flushed_num_rec_bytes : Z;
  delay_syscallbuf_reset_for_desched : bool;
  delay_syscallbuf_reset_for_seccomp_trap : bool;
  syscallbuf_blocked_sigs_generation : Z;
  protects : list mprotect_record;     (** calls of [AddressSpace::protect] *)
  trace : list trace_event }.

Definition set_flushed (n : Z) (ps : list mprotect_record) (e : trace_event) (t : record_task) : record_task :=
  mkRecordTask (syscallbuf_child t) (syscallbuf_size t) (flushing t) true n
    (delay_syscallbuf_reset_for_desched t) (delay_syscallbuf_reset_for_seccomp_trap t)
    (syscallbuf_blocked_sigs_generation t) (protects t ++ ps) (trace t ++ [e]).

Definition set_reset (t : record_task) : record_task :=
  mkRecordTask (syscallbuf_child t) (syscallbuf_size t) (flushing t) false (flushed_num_rec_bytes t)
    (delay_syscallbuf_reset_for_desched t) (delay_syscallbuf_reset_for_seccomp_trap t)
    0 (protects t) (trace t ++ [SyscallbufReset]).

Definition syscallbuf_data_size (s : st) : Z := num_rec_bytes (hdr s) + SIZEOF_HDR.

Definition buffered_mprotects (s : st) (from count : Z) : list mprotect_record :=
  map (fun i => mprotect_records (gl s) (from + Z.of_nat i)) (seq 0 (Z.to_nat count)).

(** For a stopped task the snapshot of the header and the bytes read are those
    of its memory, whichever branch records them. *)
Definition maybe_flush_syscallbuf (t : record_task) (s : st) : option record_task :=
  if flushing t then Some t
  else if syscallbuf_child t =? 0 then Some t
  else
    let h := hdr s in
    if negb (negb (flushed_syscallbuf t) || (flushed_num_rec_bytes t =? num_rec_bytes h)) then None
    else if (num_rec_bytes h =? 0) || flushed_syscallbuf t then Some t
    else
      let records := buffered_mprotects s 0 (mprotect_record_count h) in
      let data := mkRaw (syscallbuf_child t) h
        (read_bytes (syscallbuf_child t + SIZEOF_HDR) (num_rec_bytes h) (memory s)) in
      Some (set_flushed (num_rec_bytes h) records (SyscallbufFlush records data) t).

(** [in_untraced] is [is_in_untraced_syscall()], which looks at the registers. *)
Definition reset_syscallbuf (child : Z) (in_untraced : bool) (s : st) : option st :=
  if child =? 0 then Some s
  else if in_untraced && nz (Z.land SYSCALLBUF_LOCKED_TRACEE (locked (hdr s))) then None
  else
    let num_rec := num_rec_bytes (hdr s) in
    let s := set_memory (write_bytes (child + SIZEOF_HDR) (replicate (Z.to_nat num_rec) 0) (memory s)) s in
    Some (set_hdr (set_blocked_sigs_generation 0 (set_mprotect_record_count_completed 0
      (set_mprotect_record_count 0 (set_num_rec_bytes 0 (hdr s))))) s).

Definition maybe_reset_syscallbuf (in_untraced : bool) (t : record_task) (s : st) : option (record_task * st) :=
  if flushed_syscallbuf t && negb (delay_syscallbuf_reset_for_desched t)
     && negb (delay_syscallbuf_reset_for_seccomp_trap t) then
    s ← reset_syscallbuf (syscallbuf_child t) in_untraced s; Some (set_reset t, s)
  else Some (t, s).

Definition set_syscallbuf_locked (child : Z) (lock : bool) (s : st) : st :=
  if child =? 0 then s
  else
    let before := locked (hdr s) in
    let new := if lock then Z.lor before SYSCALLBUF_LOCKED_TRACER
               else Z.ldiff before SYSCALLBUF_LOCKED_TRACER in
    set_hdr (set_locked new (hdr s)) s.

(** ** Replaying *)

Record replay_task := mkReplayTask {
  r_syscallbuf_child : Z;
  r_syscallbuf_size : Z;
  stopping_breakpoint_table : Z;
  stopping_breakpoint_table_entry_size : Z }.

(** The task with the records put back, and [stop_breakpoint_addr]. *)
Definition prepare_syscallbuf_records (t : replay_task) (buf : raw_data) (s : st) : option (st * Z) :=
  if negb (raw_size buf <=? r_syscallbuf_size t) then None
  else if negb (raw_addr buf =? r_syscallbuf_child t) then None
  else
    let s := set_memory (write_bytes (r_syscallbuf_child t + SIZEOF_HDR) (raw_bytes buf) (memory s)) s in
    let n := num_rec_bytes (raw_hdr buf) in
    if negb (n + SIZEOF_HDR <=? r_syscallbuf_size t) then None
    else
      Some (s, u64 (stopping_breakpoint_table t
                    + u32 (n / 8 * stopping_breakpoint_table_entry_size t))).

Definition next_syscallbuf_record (child : Z) (s : st) : Z :=
  child + SIZEOF_HDR + num_rec_bytes (hdr s).

(** The accounting loop of [flush_syscallbuf]: the records passed from
    [next_rec] to [end_rec], each counted once.  [None]: [fuel] steps do not
    reach the end. *)
Fixpoint count_records (fuel : nat) (m : mem) (next_rec end_rec : Z) : option nat :=
  if next_rec =? end_rec then Some O
  else
    match fuel with
    | O => None
    | S fuel =>
        n ← count_records fuel m (next_rec + stored_record_size (load 4 (next_rec + REC_size) m)) end_rec;
        Some (S n)
    end.

(** [apply_mprotect_records]: the calls of [protect].  [kernel_prot] is what
    [read_kernel_mapping] finds; the result also has [mprotect_record_count]. *)
Definition apply_mprotect_records (kernel_prot : Z -> Z) (skip : Z) (s : st) : list mprotect_record * Z :=
  let final := mprotect_record_count (hdr s) in
  let completed := mprotect_record_count_completed (hdr s) in
  let records := if skip <? final then buffered_mprotects s skip (final - skip) else [] in
  (omap (fun '(i, r) =>
     if (completed <=? Z.of_nat i) && negb (kernel_prot (mp_start r) =? mp_prot r) then None else Some r)
     (zip (seq 0 (length records)) records), final).

(** ** [rr dump] *)

Record dumped := mkDumped { d_syscallno : Z; d_ret : Z; d_size : Z }.

(** [dump_syscallbuf_data] on the bytes after the header, placed at [a]. *)
Fixpoint dump_records (fuel : nat) (m : mem) (record_ptr end_ptr : Z) : option (list dumped) :=
  if negb (record_ptr <? end_ptr) then Some []
  else
    match fuel with
    | O => None
    | S fuel =>
        let size := load 4 (record_ptr + REC_size) m in
        if size <? SIZEOF_REC then None
        else
          l ← dump_records fuel m (record_ptr + stored_record_size size) end_ptr;
          Some (mkDumped (load 2 (record_ptr + REC_syscallno) m)
                  (s64 (load 8 (record_ptr + REC_ret) m)) size :: l)
    end.

Definition dump_syscallbuf_data (fuel : nat) (d : raw_data) : option (list dumped) :=
  if Z.of_nat (length (raw_bytes d)) <? num_rec_bytes (raw_hdr d) then None
  else
    let m := write_bytes 0 (raw_bytes d) (fun _ => 0) in
    dump_records fuel m 0 (num_rec_bytes (raw_hdr d)).

(** ** Lemmas *)

Lemma read_bytes_length a n m : length (read_bytes a n m) = Z.to_nat n.
Proof. unfold read_bytes. by rewrite length_map, length_seq. Qed.

Lemma write_read a n m m' b :
  a <= b < a + n -> write_bytes a (read_bytes a n m) m' b = m b.
Proof.
  intros Hb. unfold write_bytes, read_bytes. destruct (Z.leb_spec a b); [|lia].
  rewrite list_lookup_fmap, lookup_seq_lt by lia. cbn. f_equal. lia.
Qed.

Lemma write_bytes_out a l m b :
  ~ (a <= b < a + Z.of_nat (length l)) -> write_bytes a l m b = m b.
Proof.
  intros Hb. unfold write_bytes. destruct (Z.leb_spec a b); [|done].
  rewrite lookup_ge_None_2; [done|lia].
Qed.
