(* ===== verification/ReplayBatch.v ===== *)
(** * Record and replay of a whole batch of system calls

    A program runs between two flushes of its syscall buffer, making buffered
    system calls through [syscall_hook]; rr flushes the buffer
    ([Tracer.maybe_flush_syscallbuf]); while replaying rr puts the records back
    ([Tracer.prepare_syscallbuf_records]) and lets the same program run.  The
    theorem says that it gets the same results, ends in the same state, and
    meets the stopping breakpoint after its last call and not before. *)

From stdpp Require Import base tactics list numbers.
From S2P Require Import Prelude Memory KernelAbi CStrings PreloadInterface Machine SyscallNumbers Syscallbuf Wrappers Hook BufferInv WrapperInv HookInv Replay History ReplayWrappers ReplayOutputs Tracer ReplayHook.
Local Open Scope Z_scope.

(** ** Programs *)

(** The code of the program between its system calls: it is deterministic and
    sees the results of the calls made so far. *)
Record program := mkProgram {
  p_step : list Z -> mem -> mem;
  p_call : list Z -> mem -> Z * syscall_info }.

Definition outside (g : geometry) (a : Z) : Prop := ~ (g_buffer g <= a < g_end g).

(** It does not look at the syscall buffer or write to it, and makes calls that
    [call_ok] covers. *)
Record program_ok {E : Env} (g : geometry) (p : program) : Prop := mkProgramOk {
  prog_step : forall rs m m', agree (outside g) m m' -> agree (outside g) (p_step p rs m) (p_step p rs m');
  prog_call : forall rs m m', agree (outside g) m m' -> p_call p rs m = p_call p rs m';
  prog_buffer : forall rs m a, g_buffer g <= a < g_end g -> p_step p rs m a = m a;
  prog_calls : forall rs m, call_ok g (snd (p_call p rs m)) }.

Section Batch.
Context {E : Env}.

Fixpoint run_batch (p : program) (n : nat) (rs : list Z) : M (list Z) :=
  match n with
  | O => mret rs
  | S n =>
      modify_mem (p_step p rs);;
      c ← gets (fun s => p_call p rs (memory s));
      r ← syscall_hook (fst c) (snd c);
      run_batch p n (rs ++ [r])
  end.

Lemma remembers_init_thread : remembers init_thread.
Proof. remember_all. Qed.

Lemma remembers_hook ptr call : remembers (syscall_hook ptr call).
Proof.
  unfold syscall_hook, hook_unlocked. apply remembers_bind; [apply remembers_init_thread|intros _].
  pose proof (remembers_internal call). remember_all; done.
Qed.

Lemma remembers_batch p n rs : remembers (run_batch p n rs).
Proof.
  revert rs. induction n as [|n IH]; intros rs; cbn [run_batch]; [apply remembers_ret|].
  apply remembers_bind; [apply remembers_mem|intros _].
  apply remembers_bind; [apply remembers_gets|intros c].
  apply remembers_bind; [apply remembers_hook|intros r]. apply IH.
Qed.

Lemma program_ok_same g g' p : same_buffer g g' -> program_ok g p -> program_ok g' p.
Proof.
  intros [Hb Hs]. assert (g_end g' = g_end g) as He by (unfold g_end; by rewrite Hb, Hs).
  intros [H1 H2 H3 H4]. split.
  - intros rs m m'. unfold outside in *. rewrite Hb, He. apply H1.
  - intros rs m m'. unfold outside in *. rewrite Hb, He. apply H2.
  - intros rs m a. rewrite Hb, He. apply H3.
  - intros rs m. destruct (H4 rs m) as [C1 C2 C3 C4].
    unfold lengths_ok, user_range in *. rewrite <- Hb in C2, C3. rewrite <- Hs in C3. by split.
Qed.
End Batch.

(** ** What a recorded batch leaves *)

(** [n] records, one after the other. *)
Inductive records (m : mem) : Z -> nat -> Z -> Prop :=
| records_nil a : records m a 0 a
| records_cons a b n c : record_at m a b -> records m b n c -> records m a (S n) c.

(** The sizes of the buffer at the stops of a batch of [n] calls that takes it
    from [b] to [e] bytes of records. *)
Definition stops (b e : Z) (n : nat) (l : list Z) : Prop :=
  match n with
  | O => l = [] /\ e = b
  | S _ => b < e /\ exists l', l = l' ++ [e] /\ Forall (fun x => b < x < e /\ x mod 8 = 0) l'
  end.

Definition bytes (s : st) : Z := num_rec_bytes (hdr s).

Section Recorded.
Context {E : Env}.

Record ran (n : nat) (s f : st) : Prop := mkRan {
  ran_ready : ready f;
  ran_same : same_buffer (geom s) (geom f);
  ran_stops : exists l, stops (bytes s) (bytes f) n l /\
    breakpoints (events f) = breakpoints (events s) ++ map breakpoint_address l;
  ran_kept : agree (fun a => g_buffer (geom s) <= a < g_last (geom s)) (memory s) (memory f);
  ran_records : records (memory f) (g_last (geom s)) n (g_last (geom f)) }.

Lemma stops_le b e n l : stops b e n l -> b <= e.
Proof. destruct n; cbn; [lia|]. intros [? _]. lia. Qed.

Lemma stops_cons b x e n l :
  b < x -> x mod 8 = 0 -> stops x e n l -> stops b e (S n) (x :: l).
Proof.
  intros Hb Hm. destruct n as [|n]; cbn [stops].
  - intros [-> ->]. split; [done|]. by exists [].
  - intros [He (l'&->&Hl)]. split; [lia|]. exists (x :: l'). split; [done|].
    apply List.Forall_cons; [by split|]. eapply Forall_impl; [|exact Hl]. cbn. intros y [? ?]. split; [lia|done].
Qed.

Lemma records_grow m a n c : records m a n c -> a <= c.
Proof.
  induction 1 as [|a b n c [H1 H2] _ IH]; [done|].
  pose proof (load_range 4 (a + REC_size) m). unfold SIZEOF_REC in *. change (2 ^ (8 * Z.of_nat 4)) with (2 ^ 32) in *.
  destruct (stored_record_size_bounds (load 4 (a + REC_size) m)); lia.
Qed.

(** A record and what it holds depend on its own bytes only. *)
Lemma record_at_ext m m' a b :
  agree (fun x => a <= x < b) m m' -> record_at m a b -> record_at m' a b.
Proof.
  unfold record_at. cbv zeta. intros Hm [H1 H2].
  assert (load 4 (a + REC_size) m' = load 4 (a + REC_size) m) as ->; [|done].
  symmetry. apply load_ext. intros x Hx. apply Hm. unfold rng, REC_size in Hx.
  pose proof (load_range 4 (a + REC_size) m). unfold SIZEOF_REC in *. change (2 ^ (8 * Z.of_nat 4)) with (2 ^ 32) in *.
  destruct (stored_record_size_bounds (load 4 (a + REC_size) m)); lia.
Qed.

Lemma records_ext m m' a n c :
  agree (fun x => a <= x < c) m m' -> records m a n c -> records m' a n c.
Proof.
  intros Hm H. induction H as [|a b n c H1 H2 IH]; [apply records_nil|].
  pose proof (records_grow _ _ _ _ H2) as Hc.
  pose proof (records_grow _ _ _ _ (records_cons m a b 0 b H1 (records_nil m b))) as Hb.
  apply (records_cons _ a b); [eapply record_at_ext; [|done]|apply IH]; intros x Hx; apply Hm; lia.
Qed.

Lemma g_last_bytes s : g_last (geom s) = buffer (tl s) + SIZEOF_HDR + bytes s.
Proof. done. Qed.

Lemma ran_nil s : ready s -> ran 0 s s.
Proof.
  intros Hr. split; [done|done| |done|apply records_nil].
  exists []. split; [done|]. by rewrite app_nil_r.
Qed.

(** One more call in front. *)
Lemma ran_cons n s f1 f :
  0 <= bytes s -> continues s f1 -> ran n f1 f -> ran (S n) s f.
Proof.
  intros H0 [C1 C2 C3 C4 C5 C6] [R1 R2 (l&R3&R3') R4 R5]. pose proof C2 as [Hb Hs]. pose proof R2 as [Hb' Hs'].
  assert (g_bytes (geom f1) mod 8 = 0) as Hm by (apply good_words, closed_good, C1).
  assert (bytes s < bytes f1) as Hlt.
  { unfold g_last in C3. cbn in C3, Hb. unfold bytes. lia. }
  rewrite Hb in R4.
  split; [done|by split; congruence| | |].
  - exists (bytes f1 :: l). split; [by apply stops_cons|].
    rewrite R3', C4, <- app_assoc. done.
  - intros a Ha. rewrite C5 by done. apply R4. lia.
  - eapply records_cons; [|exact R5]. eapply record_at_ext; [|exact C6].
    intros a Ha. apply R4. unfold g_last in Ha |- *. cbn in *. unfold bytes, SIZEOF_HDR in *. lia.
Qed.
End Recorded.

(** ** Replaying it *)

Section Replayed.
Context {E : Env} {Q : QuietKernel E} {K : KernelContract E}.
Hypothesis strfuel_pos : 0 < Z.of_nat strfuel.

Lemma ready_bytes s : ready s -> 0 <= bytes s.
Proof. intros H. apply ready_good in H. by destruct H. Qed.

(** A step of the program keeps the two processes related. *)
Lemma step_related p rs s s' :
  program_ok (geom s) p -> start_ok s s' ->
  start_ok (set_memory (p_step p rs (memory s)) s) (set_memory (p_step p rs (memory s')) s').
Proof.
  intros Hp [Hr [Hs Hm]]. split; [destruct Hr as [? ? []]; split; [done|done|by split]|].
  split; [by apply same_set_memory|].
  cbn [memory set_memory]. change (geom (set_memory _ s)) with (geom s). intros a Ha.
  pose proof (ready_bytes s Hr) as H0. unfold tail in Ha. rewrite g_last_bytes in *.
  destruct (decide (g_buffer (geom s) <= a < g_end (geom s))) as [Hin|Hout].
  - rewrite !(prog_buffer _ _ Hp) by done. by apply Hm.
  - apply (prog_step _ _ Hp); [|done]. intros b Hb. apply Hm. unfold outside, tail in *. rewrite g_last_bytes.
    cbn in *. unfold SIZEOF_HDR. lia.
Qed.

(** A recorded state and its copy in a replayed process. *)
Lemma start_ok_copy s : ready s -> start_ok s (set_gl (set_in_replay 1 (gl s)) s).
Proof.
  intros Hr. split; [done|]. split; [|done]. split; try done.
  pose proof (good_rec _ (ready_good _ Hr)) as H. cbn in H. unfold nz in H.
  by destruct (Z.eqb_spec (in_replay (gl s)) 0).
Qed.

Lemma continues_from s t f :
  geom t = geom s -> events t = events s ->
  agree (fun a => g_buffer (geom s) <= a < g_last (geom s)) (memory s) (memory t) ->
  continues t f -> continues s f.
Proof.
  intros Hg He Hm [C1 C2 C3 C4 C5 C6]. rewrite Hg in C2, C3, C5, C6. rewrite He in C4.
  split; try done. intros a Ha. rewrite Hm by done. by apply C5.
Qed.

Definition batch_replayable (p : program) (n : nat) (rs : list Z) (s s' : st) : Prop :=
  forall l f, run_batch p n rs s = (Ret l, f) -> traced_calls (events f) = traced_calls (events s) ->
    ran n s f /\
    (agree (fun a => g_last (geom s) <= a < g_last (geom f)) (memory f) (memory s') ->
     exists f', run_batch p n rs s' = (Ret l, f') /\ replayed s' f f').

(** The records put back for the batch are those of the first call and those of
    the rest. *)
Lemma fill_split n s s' t' f1 f :
  ready s -> continues s f1 -> ran n f1 f ->
  agree (fun a => g_buffer (geom s) <= a < g_end (geom s)) (memory s') (memory t') ->
  agree (fun a => g_last (geom s) <= a < g_last (geom f)) (memory f) (memory s') ->
  agree (fun a => g_last (geom s) <= a < g_last (geom f1)) (memory f1) (memory t') /\
  (forall f1', agree (tail (geom f1)) (memory t') (memory f1') ->
     agree (fun a => g_last (geom f1) <= a < g_last (geom f)) (memory f) (memory f1') /\
     forall f', agree (tail (geom f)) (memory f1') (memory f') -> agree (tail (geom f)) (memory s') (memory f')).
Proof.
  intros Hr Hcont Hran Ht' Hfill. pose proof (ready_bytes s Hr) as H0.
  pose proof (records_grow _ _ _ _ (ran_records _ _ _ Hran)) as Hgr.
  pose proof (good_room _ (ready_good _ (ran_ready _ _ _ Hran))) as Hroomf. unfold SIZEOF_REC in Hroomf.
  destruct (ran_same _ _ _ Hran) as [Hx Hy], (cont_same _ _ Hcont) as [Hx' Hy'].
  pose proof (cont_grows _ _ Hcont) as Hgr1.
  assert (g_end (geom f) = g_end (geom s) /\ g_end (geom f1) = g_end (geom s)) as [Hend Hend1]
    by (unfold g_end; by rewrite Hx, Hy, Hx', Hy').
  assert (g_buffer (geom s) <= g_last (geom s)) as Hlow by (rewrite g_last_bytes; cbn; unfold SIZEOF_HDR; lia).
  split.
  { intros a Ha. rewrite <- Ht' by lia. rewrite <- Hfill by lia. apply (ran_kept _ _ _ Hran). lia. }
  intros f1' Hrest1. split.
  - intros a Ha. rewrite <- Hrest1 by (unfold tail; lia). rewrite <- Ht' by lia. apply Hfill. lia.
  - intros f' Hrest a Ha. unfold tail in Ha. rewrite <- Hrest, <- Hrest1 by (unfold tail; lia). apply Ht'. lia.
Qed.

Lemma batch_step p n rs s s' :
  program_ok (geom s) p -> start_ok s s' ->
  (forall rs' s1 s1', program_ok (geom s1) p -> start_ok s1 s1' -> batch_replayable p n rs' s1 s1') ->
  batch_replayable p (S n) rs s s'.
Proof.
  intros Hp Hst IH l f Hrun Htr. cbn [run_batch] in Hrun |- *.
  pose proof (step_related p rs s s' Hp Hst) as Hst1.
  set (t := set_memory _ s) in *. set (t' := set_memory _ s') in *.
  rewrite bind_eq in Hrun. cbn [modify_mem modify] in Hrun. fold t in Hrun.
  rewrite bind_eq in Hrun. cbn [gets] in Hrun.
  apply bind_ret_inv in Hrun as (r&f1&Hhook&Hrest).
  pose proof (remembers_hook (fst (p_call p rs (memory t))) (snd (p_call p rs (memory t))) t) as Hm1.
  pose proof (remembers_batch p n (rs ++ [r]) f1) as Hm2.
  rewrite Hhook in Hm1. rewrite Hrest in Hm2. cbn [snd] in Hm1, Hm2. change (events t) with (events s) in Hm1.
  destruct (hook_replayable strfuel_pos _ _ t t' (prog_calls _ _ Hp rs (memory t)) Hst1 r f1 Hhook) as [Hcont Hrep];
    [change (events t) with (events s); lia|].
  assert (program_ok (geom f1) p) as Hp1 by (eapply program_ok_same; [exact (cont_same _ _ Hcont)|done]).
  destruct Hst as [Hr Hrel]. pose proof (good_room _ (ready_good _ Hr)) as Hroom. unfold SIZEOF_REC in Hroom.
  assert (continues s f1) as Hcont'.
  { apply (continues_from s t); [done|done| |done]. intros a Ha. symmetry. apply (prog_buffer _ _ Hp). lia. }
  destruct (IH (rs ++ [r]) f1 _ Hp1 (start_ok_copy f1 (cont_ready _ _ Hcont)) l f Hrest ltac:(lia)) as [Hran _].
  split; [apply (ran_cons n s f1 f); [by apply ready_bytes|done|done]|]. intros Hfill.
  destruct (fill_split n s s' t' f1 f Hr Hcont' Hran) as [Hfill1 Hfill2];
    [intros a Ha; symmetry; by apply (prog_buffer _ _ Hp)|done|].
  destruct (Hrep Hfill1) as (f1'&Hhook'&[Hrel1 Hrest1]). destruct (Hfill2 f1' Hrest1) as [Hfill3 Hback].
  destruct (IH (rs ++ [r]) f1 f1' Hp1 (conj (cont_ready _ _ Hcont) Hrel1) l f Hrest ltac:(lia)) as [_ Hrep2].
  destruct (Hrep2 Hfill3) as (f'&Hrun'&[Hrel' Hrest']).
  exists f'. split; [|split; [done|by apply Hback]].
  rewrite bind_eq. cbn [modify_mem modify]. fold t'. rewrite bind_eq. cbn [gets].
  assert (p_call p rs (memory t') = p_call p rs (memory t)) as ->; [|by rewrite bind_eq, Hhook'].
  apply (prog_call _ _ Hp). intros a Ha. symmetry. apply (rel_mem _ _ _ (proj2 Hst1)).
  change (geom t) with (geom s). pose proof (ready_bytes s Hr). unfold outside, tail in *. rewrite g_last_bytes.
  cbn in *. unfold SIZEOF_HDR. lia.
Qed.

Lemma batch_replays p n rs s s' :
  program_ok (geom s) p -> start_ok s s' -> batch_replayable p n rs s s'.
Proof.
  revert rs s s'. induction n as [|n IH]; intros rs s s' Hp Hst; [|by apply batch_step].
  intros l f Hrun _. cbn [run_batch] in *. unfold mret, M_ret in *. injection Hrun as <- <-.
  destruct Hst as [Hr Hrel]. split; [by apply ran_nil|]. intros _. by exists s'.
Qed.
End Replayed.

(** ** A record or a trap *)

Section RecordOrTrap.
Context {E : Env} {Q : QuietKernel E} {K : KernelContract E}.
Hypothesis strfuel_pos : 0 < Z.of_nat strfuel.

(** C25.  Every covered call either traps to rr or leaves exactly one record,
    placed after the records already there, which are untouched, and passes one
    breakpoint, the one for the new size of the buffer.  This is what the
    correctness argument in syscall_hook for notify_on_syscall_hook_exit relies
    on. *)
Theorem hook_records_or_traps call_ptr call s v f :
  ready s -> call_ok (geom s) call -> syscall_hook call_ptr call s = (Ret v, f) ->
  (traced_calls (events s) < traced_calls (events f))%nat \/
  (ready f /\ same_buffer (geom s) (geom f) /\
   record_at (memory f) (g_last (geom s)) (g_last (geom f)) /\ bytes s < bytes f /\
   agree (fun a => g_buffer (geom s) <= a < g_last (geom s)) (memory s) (memory f) /\
   breakpoints (events f) = breakpoints (events s) ++ [breakpoint_address (bytes f)]).
Proof.
  intros Hr Hok Hrun. pose proof (remembers_hook call_ptr call s) as Hm. rewrite Hrun in Hm. cbn [snd] in Hm.
  destruct (decide (traced_calls (events f) = traced_calls (events s))) as [He|]; [right|left; lia].
  destruct (hook_replayable strfuel_pos call_ptr call s _ Hok (start_ok_copy s Hr) v f Hrun He)
    as [[C1 [C2 C2'] C3 C4 C5 C6] _].
  cbn in C2. rewrite !g_last_bytes in C3. split; [done|]. split; [done|]. split; [done|]. split; [lia|done].
Qed.
End RecordOrTrap.

(** ** Flush, put back, replay *)

Section RecordReplay.
Context {E : Env} {Q : QuietKernel E} {K : KernelContract E}.
Hypothesis strfuel_pos : 0 < Z.of_nat strfuel.

(** The tracer's view of the recorded and of the replayed task. *)
Record tracer_ok (s : st) (t : record_task) (rt : replay_task) : Prop := mkTracerOk {
  tr_child : syscallbuf_child t = buffer (tl s);
  tr_idle : flushing t = false /\ flushed_syscallbuf t = false;
  tr_rchild : r_syscallbuf_child rt = buffer (tl s);
  tr_rsize : r_syscallbuf_size rt = buffer_size (tl s);
  tr_table : stopping_breakpoint_table rt = breakpoint_table_start;
  tr_entry : stopping_breakpoint_table_entry_size rt = breakpoint_table_entry_size }.

(** The products [n / 8 * entry_size] of the breakpoint addresses do not wrap. *)
Definition table_covers (s : st) : Prop :=
  0 <= breakpoint_table_start /\ 0 < breakpoint_table_entry_size /\
  buffer_size (tl s) / 8 * breakpoint_table_entry_size < 2 ^ 32 /\
  breakpoint_table_start + 2 ^ 32 < 2 ^ 64.

Definition flushed_data (s f : st) : raw_data :=
  mkRaw (buffer (tl s)) (hdr f) (read_bytes (buffer (tl s) + SIZEOF_HDR) (bytes f) (memory f)).

Definition put_back (d : raw_data) (s : st) : st :=
  set_memory (write_bytes (raw_addr d + SIZEOF_HDR) (raw_bytes d) (memory s)) s.

Lemma flush_run s f t rt :
  tracer_ok s t rt -> buffer (tl s) <> 0 -> 0 < bytes f ->
  exists t', maybe_flush_syscallbuf t f = Some t' /\
    trace t' = trace t ++ [SyscallbufFlush (buffered_mprotects f 0 (mprotect_record_count (hdr f))) (flushed_data s f)] /\
    flushed_syscallbuf t' = true /\ flushed_num_rec_bytes t' = bytes f.
Proof.
  intros [Hc [Hi1 Hi2] _ _ _ _] Hb Hn. unfold maybe_flush_syscallbuf. rewrite Hi1, Hi2, Hc. cbn [negb orb].
  destruct (Z.eqb_spec (buffer (tl s)) 0); [done|]. fold (bytes f).
  destruct (Z.eqb_spec (bytes f) 0); [lia|]. cbn [orb]. by eexists.
Qed.

Lemma prepare_run s f t rt s' :
  tracer_ok s t rt -> 0 <= bytes f -> bytes f + SIZEOF_HDR <= buffer_size (tl s) ->
  prepare_syscallbuf_records rt (flushed_data s f) s' =
    Some (put_back (flushed_data s f) s', breakpoint_address (bytes f)).
Proof.
  intros [_ _ Hc Hs Ht He] H0 Hf. unfold prepare_syscallbuf_records, raw_size, flushed_data, put_back.
  cbn [raw_addr raw_bytes raw_hdr]. rewrite Hc, Hs, Ht, He, read_bytes_length, Z2Nat.id by done.
  destruct (Z.leb_spec (SIZEOF_HDR + bytes f) (buffer_size (tl s))); [|lia]. rewrite Z.eqb_refl. cbn [negb].
  fold (bytes f). destruct (Z.leb_spec (bytes f + SIZEOF_HDR) (buffer_size (tl s))); [|lia]. done.
Qed.

(** Putting the records back keeps the processes related and fills the tail. *)
Lemma put_back_ok n s s' f :
  start_ok s s' -> ran n s f ->
  start_ok s (put_back (flushed_data s f) s') /\
  agree (fun a => g_last (geom s) <= a < g_last (geom f)) (memory f) (memory (put_back (flushed_data s f) s')).
Proof.
  intros [Hr [Hs Hm]] Hran. pose proof (ready_bytes s Hr) as H0.
  pose proof (records_grow _ _ _ _ (ran_records _ _ _ Hran)) as Hgr.
  destruct (ran_same _ _ _ Hran) as [Hb _]. cbn in Hb.
  pose proof (ready_bytes f (ran_ready _ _ _ Hran)) as H0f.
  assert (forall a, buffer (tl s) + SIZEOF_HDR <= a < g_last (geom f) ->
    memory (put_back (flushed_data s f) s') a = memory f a) as Hw.
  { intros a Ha. cbn [put_back flushed_data memory set_memory raw_addr raw_bytes].
    apply write_read. unfold g_last in Ha. cbn in Ha. unfold bytes. lia. }
  split.
  - split; [done|]. split.
    + unfold put_back. rewrite <- (eta_memory s). by apply same_set_memory.
    + intros a Ha. unfold tail in Ha.
      destruct (decide (buffer (tl s) + SIZEOF_HDR <= a < g_last (geom s))) as [Hin|Hout].
      * rewrite Hw by lia. apply (ran_kept _ _ _ Hran). cbn. unfold SIZEOF_HDR in *. lia.
      * cbn [put_back flushed_data memory set_memory raw_addr raw_bytes]. rewrite write_bytes_out.
        -- apply Hm. unfold tail. lia.
        -- rewrite read_bytes_length, Z2Nat.id by done.
           pose proof (good_room _ (ready_good _ (ran_ready _ _ _ Hran))) as Hrf. unfold g_last, g_end in *.
           cbn in *. unfold SIZEOF_REC, SIZEOF_HDR, bytes in *.
           destruct (ran_same _ _ _ Hran) as [_ Hsz]. cbn in Hsz. lia.
  - intros a Ha. symmetry. apply Hw. rewrite g_last_bytes in Ha. lia.
Qed.

(** The stopping breakpoint is the last one and only the last one. *)
Lemma stop_unique s f n l :
  table_covers s -> bytes f < buffer_size (tl s) -> 0 <= bytes s -> bytes f mod 8 = 0 -> (0 < n)%nat ->
  stops (bytes s) (bytes f) n l ->
  exists before, map breakpoint_address l = before ++ [breakpoint_address (bytes f)] /\
    breakpoint_address (bytes f) ∉ before.
Proof.
  intros (T0&T1&T2&T3) Hsz H0 Hmf Hn Hl. destruct n as [|n]; [lia|]. destruct Hl as [Hlt (l'&->&Hl')].
  exists (map breakpoint_address l'). split; [by rewrite map_app|].
  assert (forall x, 0 <= x <= bytes f ->
    breakpoint_address x = breakpoint_table_start + x / 8 * breakpoint_table_entry_size) as Hba.
  { intros x Hx. pose proof (Z.div_le_mono x (buffer_size (tl s)) 8 ltac:(lia) ltac:(lia)).
    pose proof (Z.div_pos x 8 ltac:(lia) ltac:(lia)).
    assert (x / 8 * breakpoint_table_entry_size <= buffer_size (tl s) / 8 * breakpoint_table_entry_size)
      by (apply Z.mul_le_mono_nonneg_r; lia).
    unfold breakpoint_address, padd. rewrite (wrapu_small 32) by nia. apply wrapu_small. nia. }
  intros Hin. apply list_elem_of_In, in_map_iff in Hin as (x&Hx&Hin).
  rewrite List.Forall_forall in Hl'. destruct (Hl' x Hin) as [Hb Hm].
  rewrite !Hba in Hx by lia.
  pose proof (Z.div_mod x 8 ltac:(lia)). pose proof (Z.div_mod (bytes f) 8 ltac:(lia)). nia.
Qed.

Lemma count_chain n m a c : records m a n c -> count_records n m a c = Some n.
Proof.
  induction 1 as [a|a b n c [H1 H2] Hrec IH].
  - cbn. by rewrite Z.eqb_refl.
  - cbn [count_records]. rewrite <- H2, IH. pose proof (records_grow _ _ _ _ Hrec).
    pose proof (load_range 4 (a + REC_size) m). change (2 ^ (8 * Z.of_nat 4)) with (2 ^ 32) in *.
    unfold SIZEOF_REC in *. destruct (stored_record_size_bounds (load 4 (a + REC_size) m)) as [? _]; [lia|].
    destruct (Z.eqb_spec a c); [lia|]. done.
Qed.

(** C1.  Record and replay of a whole batch.  A program makes n > 0 system calls
    of the covered kinds through syscall_hook between two flushes, and none of
    them traps to rr.  rr flushes the buffer and, in the replayed process, puts
    the records back.  Then the replayed run of the same program returns the
    same results and ends in a state that differs from the recorded one only in
    in_replay and in the unused part of the buffer; the breakpoint computed by
    prepare_syscallbuf_records is the last one the replayed process passes and
    none of the earlier ones; and the accounting loop of flush_syscallbuf counts
    exactly n records. *)
Theorem batch_record_replay p n s s' l f t rt :
  (0 < n)%nat -> program_ok (geom s) p -> start_ok s s' -> tracer_ok s t rt -> table_covers s ->
  run_batch p n [] s = (Ret l, f) -> traced_calls (events f) = traced_calls (events s) ->
  exists t' recs data s1' stop f' before,
    maybe_flush_syscallbuf t f = Some t' /\ trace t' = trace t ++ [SyscallbufFlush recs data] /\
    prepare_syscallbuf_records rt data s' = Some (s1', stop) /\
    run_batch p n [] s1' = (Ret l, f') /\ related (tail (geom f)) f f' /\
    breakpoints (events f') = breakpoints (events s') ++ before ++ [stop] /\ stop ∉ before /\
    count_records n (memory f') (next_syscallbuf_record (r_syscallbuf_child rt) s')
      (next_syscallbuf_record (r_syscallbuf_child rt) f') = Some n.
Proof.
  intros Hn Hp Hst Htr Hcov Hrun Htc. pose proof (ready_bytes s (proj1 Hst)) as H0.
  destruct (batch_replays strfuel_pos p n [] s s' Hp Hst l f Hrun Htc) as [Hran _].
  destruct (put_back_ok n s s' f Hst Hran) as [Hst1 Hfill].
  destruct (batch_replays strfuel_pos p n [] s _ Hp Hst1 l f Hrun Htc) as [_ Hrep].
  destruct (Hrep Hfill) as (f'&Hrun'&[Hrel _]).
  destruct (ran_stops _ _ _ Hran) as (stp&Hstp&Hbps).
  pose proof (ready_good _ (ran_ready _ _ _ Hran)) as Hgf. pose proof (good_room _ Hgf) as Hroom.
  destruct (ran_same _ _ _ Hran) as [Hbuf Hsize]. cbn in Hbuf, Hsize.
  assert (bytes f + SIZEOF_HDR <= buffer_size (tl s)) as Hsz.
  { unfold g_last, g_end, SIZEOF_REC in Hroom. cbn in Hroom. unfold bytes. lia. }
  destruct (stop_unique s f n stp Hcov ltac:(unfold SIZEOF_HDR in Hsz; lia) H0 (good_words _ Hgf) Hn Hstp)
    as (before&Hbefore&Hnot).
  assert (0 < bytes f) as Hpos by (destruct n; [lia|]; destruct Hstp as [? _]; lia).
  destruct (flush_run s f t rt Htr) as (t'&Ht'&Htrace&_);
    [pose proof (good_addr _ (ready_good _ (proj1 Hst))) as Ha; cbn in Ha; lia|done|].
  eexists t', _, _, _, _, f', before. split; [done|]. split; [exact Htrace|].
  split; [eapply (prepare_run s f t rt s'); [done|lia|done]|].
  split; [done|]. split; [done|]. split; [|split; [done|]].
  - rewrite (rel_breakpoints _ _ (rel_shared _ _ _ Hrel)), Hbps, Hbefore.
    by rewrite (rel_breakpoints _ _ (rel_shared _ _ _ (proj2 Hst))).
  - unfold next_syscallbuf_record. rewrite (tr_rchild _ _ _ Htr).
    rewrite (rel_hdr _ _ (rel_shared _ _ _ (proj2 Hst))), (rel_hdr _ _ (rel_shared _ _ _ Hrel)).
    apply count_chain. pose proof (ran_records _ _ _ Hran) as Hrecs.
    assert (g_last (geom f) = buffer (tl s) + SIZEOF_HDR + num_rec_bytes (hdr f)) as Hlf by (rewrite <- Hbuf; done).
    rewrite g_last_bytes, Hlf in Hrecs.
    eapply records_ext; [|exact Hrecs]. intros a Ha. apply (rel_mem _ _ _ Hrel). unfold tail. lia.
Qed.
End RecordReplay.

(** ** The buffer is reset *)

(** After rr has reset the buffer in the recorded and in the replayed process,
    the two are again in corresponding states with an empty buffer, so that the
    next batch starts from the hypotheses of the batch theorem. *)
Theorem reset_both {E : Env} (f f' : st) :
  start_ok f f' ->
  exists g g', reset_syscallbuf (buffer (tl f)) false f = Some g /\
    reset_syscallbuf (buffer (tl f)) false f' = Some g' /\
    start_ok g g' /\ bytes g = 0 /\ same_buffer (geom f) (geom g) /\ g_last (geom g) = buffer (tl f) + SIZEOF_HDR.
Proof.
  intros [Hr [Hs Hm]]. pose proof (ready_good f Hr) as Hg. pose proof (ready_bytes f Hr) as H0. unfold bytes in H0.
  assert (buffer (tl f) =? 0 = false) as Hb by (apply Z.eqb_neq; destruct Hg; cbn in *; lia).
  unfold reset_syscallbuf. rewrite Hb. cbv zeta. cbn [andb hdr set_memory]. rewrite (rel_hdr _ _ Hs). eexists _, _.
  split; [done|]. split; [done|]. split; [|split; [done|split; [done|]]].
  2: { unfold g_last. cbn. lia. }
  set (h := set_blocked_sigs_generation _ _).
  assert (geom (set_hdr h f) = mkGeom (g_buffer (geom f)) (g_size (geom f)) 0 (g_replay (geom f)) (g_locked (geom f))) as Hgeo by done.
  split.
  - split.
    + destruct (ready_closed f Hr) as [[] Hl]. split; [|exact Hl].
      split; try done. unfold g_last, g_end, SIZEOF_HDR in *. cbn in *. lia.
    + exact (ready_unlocked f Hr).
    + destruct (ready_quiet f Hr). by split.
  - split.
    + apply same_set_hdr. by apply same_set_memory.
    + intros a Ha. cbn [memory set_hdr set_memory]. unfold tail in Ha.
      rewrite !write_bytes_out.
      * apply Hm. unfold tail in *. unfold g_last, g_end in *. cbn in *. unfold SIZEOF_HDR in *. lia.
      * rewrite length_replicate. unfold g_last, g_end in *. cbn in *. destruct Hg. unfold g_last, g_end, SIZEOF_HDR, SIZEOF_REC in *. cbn in *. lia.
      * rewrite length_replicate. unfold g_last, g_end in *. cbn in *. destruct Hg. unfold g_last, g_end, SIZEOF_HDR, SIZEOF_REC in *. cbn in *. lia.
Qed.

(** ** [rr dump] reads what was flushed *)

Lemma load_shift n a d m : load n (a + d) m = load n a (fun x => m (x + d)).
Proof.
  revert a. induction n as [|n IH]; intros a; cbn [load]; [done|].
  f_equal. f_equal. rewrite <- IH. f_equal. lia.
Qed.

Lemma dump_chain n m a c :
  records m a n c -> exists ds, dump_records n m a c = Some ds /\ length ds = n.
Proof.
  induction 1 as [a|a b n c [H1 H2] Hrec [ds [IH Hlen]]].
  - exists []. cbn. destruct (Z.ltb_spec a a); [lia|]. done.
  - cbn [dump_records]. rewrite <- H2. pose proof (records_grow _ _ _ _ Hrec).
    pose proof (load_range 4 (a + REC_size) m). change (2 ^ (8 * Z.of_nat 4)) with (2 ^ 32) in *.
    unfold SIZEOF_REC in *. destruct (stored_record_size_bounds (load 4 (a + REC_size) m)) as [? _]; [lia|].
    destruct (Z.ltb_spec a c); [|lia]. cbn [negb].
    destruct (Z.ltb_spec (load 4 (a + REC_size) m) 16); [lia|]. rewrite IH. eexists. split; [done|]. cbn. by rewrite Hlen.
Qed.

Lemma records_shift m d a n c :
  records m (a + d) n (c + d) -> records (fun x => m (x + d)) a n c.
Proof.
  intros H. remember (a + d) as a'. remember (c + d) as c'. revert a c Heqa' Heqc'.
  induction H as [x|x b n y [H1 H2] _ IH]; intros a c Ha Hc.
  - assert (a = c) as -> by lia. apply records_nil.
  - apply (records_cons _ a (b - d)); [|apply IH; lia]. unfold record_at. cbv zeta.
    rewrite <- load_shift. replace (a + REC_size + d) with (x + REC_size) by lia. split; [done|lia].
Qed.

Lemma write_read_at a n m m' b d :
  a <= b < a + n -> write_bytes a (read_bytes d n m) m' b = m (b - a + d).
Proof.
  intros Hb. unfold write_bytes, read_bytes. destruct (Z.leb_spec a b); [|lia].
  rewrite list_lookup_fmap, lookup_seq_lt by lia. cbn. f_equal. lia.
Qed.

Section Dump.
Context {E : Env} {Q : QuietKernel E} {K : KernelContract E}.
Hypothesis strfuel_pos : 0 < Z.of_nat strfuel.

(** rr dump accepts the data of a flush: walking the flushed bytes by record
    size meets no malformed record, stops exactly at the end and lists one
    record per call of the batch. *)
Theorem dump_flushed p n s l f :
  program_ok (geom s) p -> ready s -> bytes s = 0 ->
  run_batch p n [] s = (Ret l, f) -> traced_calls (events f) = traced_calls (events s) ->
  exists ds, dump_syscallbuf_data n (flushed_data s f) = Some ds /\ length ds = n.
Proof.
  intros Hp Hr H0 Hrun Htc.
  destruct (batch_replays strfuel_pos p n [] s _ Hp (start_ok_copy s Hr) l f Hrun Htc) as [Hran _].
  pose proof (ready_bytes f (ran_ready _ _ _ Hran)) as Hbf. destruct (ran_same _ _ _ Hran) as [Hb _]. cbn in Hb.
  unfold dump_syscallbuf_data, flushed_data. cbn [raw_bytes raw_hdr]. fold (bytes f).
  rewrite read_bytes_length, Z2Nat.id, Z.ltb_irrefl by done.
  apply dump_chain. pose proof (ran_records _ _ _ Hran) as Hrec. rewrite !g_last_bytes, H0, Hb in Hrec.
  eapply records_ext; [|apply (records_shift (memory f) (buffer (tl s) + SIZEOF_HDR))].
  - intros x Hx. symmetry. rewrite write_read_at by lia. f_equal. lia.
  - rewrite Z.add_0_l. replace (bytes f + (buffer (tl s) + SIZEOF_HDR)) with (buffer (tl s) + SIZEOF_HDR + bytes f) by lia.
    rewrite Z.add_0_r in Hrec. done.
Qed.
End Dump.
