(* ===== verification/ProtocolSpec.v ===== *)
(** * What the buffer protocol does, branch by branch

    The functional behaviour of the transaction ([prep_syscall_for_fd],
    [start_commit_buffered_syscall], [commit_raw_syscall]), of the dispatch and
    of the stopping breakpoints, and the behaviours that the comments or options
    of rr do not foresee. *)

From stdpp Require Import base tactics list numbers.
From S2P Require Import Prelude Memory KernelAbi CStrings PreloadInterface Machine SyscallNumbers Syscallbuf Wrappers Hook BufferInv WrapperInv HookInv Replay ReplayWrappers.
Local Open Scope Z_scope.

(** ** Starting and committing a transaction *)

Section Transaction.
Context {E : Env} {Q : QuietKernel E}.

(** The desched counter can be switched on and off. *)
Definition ioctl_works : Prop :=
  forall a x, k_ret (kernel PRIVILEGED_UNTRACED_RECORDING_ONLY SYS_ioctl a x) = 0.

Lemma own_ioctl_works fd request s :
  ioctl_works ->
  privileged_untraced_syscall SYS_ioctl [fd; request; 0] s =
    (Ret 0, add_event (EvSyscall PRIVILEGED_UNTRACED_RECORDING_ONLY SYS_ioctl (pad8 [fd; request; 0])) s).
Proof.
  intros Hw. destruct (replaying s) eqn:Hr; [by apply replay_own_ioctl|].
  destruct (record_own_ioctl fd request s Hr) as [r Hrun]. rewrite Hrun. do 2 f_equal.
  unfold privileged_untraced_syscall, raw_syscall in Hrun. cbv zeta in Hrun.
  change (replaying (add_event _ s)) with (replaying s) in Hrun. rewrite Hr in Hrun.
  cbn [rr_page_has_syscall negb] in Hrun. rewrite Hw in Hrun. by injection Hrun as <- _.
Qed.

Lemma disarm_works s : ioctl_works -> disarm_desched_event s = (Ret tt, disarmed s).
Proof. intros Hw. unfold disarm_desched_event. rewrite bind_eq. cbn [gets]. rewrite bind_eq. by rewrite own_ioctl_works. Qed.

(** With a counter that works, [yields] is an equation. *)
Lemma arm_works s :
  ioctl_works -> impose_spurious_desched (sv s) = 0 -> arm_for_may_block s = (Ret tt, armed s).
Proof.
  intros Hw Hs. unfold arm_for_may_block. rewrite bind_eq. cbn [gets]. rewrite Hs. cbn [nz Z.eqb negb].
  rewrite bind_ret_l, bind_eq. cbn [modify_hdr modify]. rewrite bind_eq. unfold arm_desched_event.
  rewrite bind_eq. cbn [gets]. rewrite bind_eq. by rewrite own_ioctl_works.
Qed.

Lemma start_commit_eq syscallno record_end blk s :
  good (geom s) -> impose_spurious_desched (sv s) = 0 -> ioctl_works -> 0 <= record_end < 2 ^ 63 ->
  let last := g_last (geom s) in
  let stored_end := last + (record_end - last + 7) / 8 * 8 in
  start_commit_buffered_syscall syscallno record_end blk s =
    if record_end <? last + 9 then (Ret false, s)
    else if g_end (geom s) <? stored_end + SIZEOF_REC then (Ret false, set_hdr (unlock_tracee (hdr s)) s)
    else (Ret true, started syscallno record_end blk s).
Proof.
  intros Hg Hsp Hw Hre last stored_end. unfold start_commit_buffered_syscall. cbv zeta.
  assert (buffer (tl s) <> 0) as Hb by (destruct Hg; cbn in *; lia).
  pose proof (good_last_range _ Hg) as Hr. fold last in Hr.
  rewrite bind_eq. cbn [gets]. destruct (Z.eqb_spec (buffer (tl s)) 0); [done|].
  do 2 (rewrite bind_eq; cbn [gets]). rewrite buffer_last_eq, buffer_end_eq by done. fold last.
  assert (padd last (stored_record_size (psub record_end last)) = stored_end) as -> by (by apply stored_end_eq).
  assert (padd last SIZEOF_REC = last + 16) as -> by (apply wrapu_small; unfold SIZEOF_REC; lia).
  assert (psub (g_end (geom s)) SIZEOF_REC = g_end (geom s) - 16) as ->
    by (destruct Hg; unfold SIZEOF_REC in *; apply wrapu_small; lia).
  assert (stored_end < last + 16 <-> record_end < last + 9) as Hiff.
  { unfold stored_end. pose proof (Z.div_mod (record_end - last + 7) 8 ltac:(lia)).
    pose proof (Z.mod_pos_bound (record_end - last + 7) 8 ltac:(lia)). lia. }
  destruct (Z.ltb_spec record_end (last + 9)), (Z.ltb_spec stored_end (last + 16)); try lia; [done|].
  unfold SIZEOF_REC.
  destruct (Z.ltb_spec (g_end (geom s) - 16) stored_end), (Z.ltb_spec (g_end (geom s)) (stored_end + 16));
    try lia; [done|].
  unfold started. rewrite buffer_last_eq by done. fold last.
  do 3 (rewrite bind_eq; cbn [store_m modify_mem modify]).
  destruct blk; cbn [is_MAY_BLOCK]; [|done]. rewrite bind_eq. by rewrite arm_works.
Qed.

(** The record is dropped when rr has asked for it. *)
Definition dropped (e : Z) (blk : blockness) (s : st) : st :=
  let r := buffer_last s in
  let s := set_hdr (set_failed_during_preparation 0 (set_abort_commit 0
             (set_desched_signal_may_be_relevant 0 (hdr s)))) s in
  let s := set_memory (store 8 (r + REC_ret) 0 (store 4 (r + REC_size) (psub e r) (memory s))) s in
  let s := if is_MAY_BLOCK blk then disarmed s else s in
  set_hdr (unlock_tracee (hdr s)) s.

Lemma commit_eq no e ret blk s :
  let r := buffer_last s in
  r <= e < r + 2 ^ 32 -> locked (hdr s) <> 0 ->
  load 2 (r + REC_syscallno) (memory s) = no ->
  load 1 (r + REC_desched) (memory s) = b2z (is_MAY_BLOCK blk) -> ioctl_works ->
  commit_raw_syscall no e ret s =
    (Ret ret, if nz (abort_commit (hdr s)) then dropped e blk s else committed e ret blk s).
Proof.
  intros r He Hlock Hno Hd Hw. unfold commit_raw_syscall, dropped, committed. cbv zeta.
  rewrite bind_eq. cbn [gets]. fold r. destruct (Z.leb_spec r e); [|lia].
  assert (forall v m, load 1 (r + REC_desched) (store 8 (r + REC_ret) v (store 4 (r + REC_size) (psub e r) m)) =
    load 1 (r + REC_desched) m) as Hdes.
  { intros v m. by rewrite !load_store_other by (unfold disjoint_rng, REC_ret, REC_size, REC_desched; lia). }
  assert (forall m, load 4 (r + REC_size) (store 8 (r + REC_ret) ret (store 4 (r + REC_size) (psub e r) m)) = psub e r) as Hsize.
  { intros m. rewrite load_store_other by (unfold disjoint_rng, REC_ret, REC_size; lia).
    change 4 with (Z.of_nat 4). rewrite load_store_same. unfold psub. rewrite (wrapu_small 64) by lia.
    apply Z.mod_small. lia. }
  cbn [assert_]. rewrite bind_ret_l, bind_eq. cbn [store_m modify_mem modify].
  rewrite bind_eq. cbn [gets hdr set_memory]. apply nz_true in Hlock. rewrite Hlock. cbn [assert_].
  rewrite bind_ret_l, bind_eq. cbn [modify_hdr modify]. rewrite bind_eq. cbn [load_m gets memory set_hdr set_memory].
  rewrite load_store_other, Hno, Z.eqb_refl by (unfold disjoint_rng, REC_syscallno, REC_size; lia).
  cbn [negb fatal_if]. rewrite bind_ret_l, bind_eq.
  cbn [gets abort_commit hdr set_hdr set_memory set_desched_signal_may_be_relevant].
  destruct (nz (abort_commit (hdr s))).
  - rewrite bind_assoc, bind_eq. cbn [modify_hdr modify]. rewrite bind_assoc, bind_eq.
    cbn [store_m modify_mem modify]. rewrite bind_ret_l, bind_eq. cbn [load_m gets memory set_hdr set_memory].
    rewrite Hdes, Hd, nz_b2z. destruct blk; cbn [is_MAY_BLOCK]; [rewrite bind_eq, disarm_works by done|]; done.
  - rewrite bind_assoc, bind_eq. cbn [store_m modify_mem modify]. rewrite bind_assoc, bind_eq.
    cbn [load_m gets memory set_hdr set_memory]. rewrite Hsize, bind_assoc, bind_eq.
    cbn [modify_hdr modify]. rewrite bind_assoc, bind_eq. cbn [gets]. rewrite bind_ret_l, bind_eq.
    cbn [load_m gets memory set_hdr set_memory].
    rewrite Hdes, Hd, nz_b2z. destruct blk; cbn [is_MAY_BLOCK]; [rewrite bind_eq, disarm_works by done|]; done.
Qed.

(** The three outcomes of start_commit_buffered_syscall on a well formed buffer:
    a record end that leaves no room for a record is refused without touching
    the lock; a record that does not fit together with the header of the next
    one is refused and the lock released; any other record is opened, with its
    number, desched flag and size stored and the desched event armed for a may-
    block call. *)
Theorem start_commit_branches syscallno record_end blk s :
  good (geom s) -> impose_spurious_desched (sv s) = 0 -> ioctl_works -> 0 <= record_end < 2 ^ 63 ->
  let last := g_last (geom s) in
  let stored_end := last + (record_end - last + 7) / 8 * 8 in
  start_commit_buffered_syscall syscallno record_end blk s =
    if record_end <? last + 9 then (Ret false, s)
    else if g_end (geom s) <? stored_end + SIZEOF_REC then (Ret false, set_hdr (unlock_tracee (hdr s)) s)
    else (Ret true, started syscallno record_end blk s).
Proof. apply start_commit_eq. Qed.

(** What commit_raw_syscall does on both branches: without abort_commit it
    stores size and result in the record, adds its padded size to num_rec_bytes,
    disarms the desched event of a may-block call, unlocks, and passes the
    breakpoint; with abort_commit it drops the record, clears the two flags and
    the stored result, disarms and unlocks, and passes no breakpoint.  The
    result is returned unchanged in both. *)
Theorem commit_branches no e ret blk s :
  let r := buffer_last s in
  r <= e < r + 2 ^ 32 -> locked (hdr s) <> 0 ->
  load 2 (r + REC_syscallno) (memory s) = no ->
  load 1 (r + REC_desched) (memory s) = b2z (is_MAY_BLOCK blk) -> ioctl_works ->
  commit_raw_syscall no e ret s =
    (Ret ret, if nz (abort_commit (hdr s)) then dropped e blk s else committed e ret blk s).
Proof. apply commit_eq. Qed.

End Transaction.

(** ** Dispatch *)

Section Dispatch.
Context {E : Env}.

Lemma table_labels_distinct : List.NoDup (map fst wrapper_table).
Proof.
  assert (bool_decide (NoDup (map fst wrapper_table)) = true) as H by (vm_compute; reflexivity).
  by apply bool_decide_eq_true, NoDup_ListNoDup in H.
Qed.

Lemma dispatch_hit table call n w :
  List.NoDup (map fst table) -> In (n, w) table -> no call = n -> dispatch table call = w call.
Proof.
  intros Hnd Hin Hno. induction table as [|[n' w'] table IH]; [done|]. cbn [dispatch].
  cbn [map fst] in Hnd. apply List.NoDup_cons_iff in Hnd as [Hn Hnd]. destruct Hin as [Heq|Hin].
  - injection Heq as <- <-. by rewrite Hno, Z.eqb_refl.
  - destruct (Z.eqb_spec (no call) n') as [He|]; [|by apply IH]. exfalso. apply Hn. rewrite <- He, Hno.
    apply in_map_iff. by exists (n, w).
Qed.

Lemma dispatch_miss table call :
  no call ∉ map fst table -> dispatch table call = traced_raw_syscall call.
Proof.
  induction table as [|[n w] table IH]; [done|]. cbn [dispatch map fst]. intros H.
  apply not_elem_of_cons in H as [Hne H]. destruct (Z.eqb_spec (no call) n); [done|]. by apply IH.
Qed.

Lemma internal_case call n w :
  In (n, w) CASES -> no call = n -> syscall_hook_internal call = w call.
Proof.
  intros Hw Hno. apply (dispatch_hit wrapper_table call n w table_labels_distinct); [|done].
  unfold wrapper_table. do 2 (apply in_or_app; right). by apply in_or_app; left.
Qed.

(** The dispatch of syscall_hook_internal: its labels are distinct, so a call
    whose number is in the table runs the wrapper listed for it, and a call
    whose number is not runs as a traced call. *)
Theorem dispatch_spec call :
  (forall n w, In (n, w) wrapper_table -> no call = n -> syscall_hook_internal call = w call) /\
  (no call ∉ map fst wrapper_table -> syscall_hook_internal call = traced_raw_syscall call).
Proof.
  split; [intros n w; apply dispatch_hit, table_labels_distinct|apply dispatch_miss].
Qed.

End Dispatch.

(** ** Descriptors that are not buffered *)

(** The calls whose first argument is checked. *)
Definition fd_calls : list Z :=
  GENERIC_NONBLOCKING_FD ++
  [SYS_read; SYS_pread64; SYS_write; SYS_pwrite64; SYS_writev; SYS_sendmsg; SYS_sendto;
   SYS_setsockopt; SYS_getdents; SYS_getdents64; SYS_fgetxattr; SYS_flistxattr; SYS_ioctl].

Section Disabled.
Context {E : Env} {K : KernelContract E}.
Variable s : st.
Hypothesis Hclosed : closed (geom s).

Lemma refused call no re blk (k : M Z) :
  0 <= re < g_buffer (geom s) ->
  (ok ← start_commit_buffered_syscall no re blk;
   if negb (ok : bool) then traced_raw_syscall call else k) s = traced_raw_syscall call s.
Proof.
  intros He. destruct Hclosed as [Hg _]. pose proof (good_last_range _ Hg).
  assert (g_buffer (geom s) <= g_last (geom s)) by (destruct Hg; unfold g_last, SIZEOF_HDR in *; lia).
  destruct (start_commit_shape no re blk s Hg ltac:(lia)) as [[H1 H2]|[(H1&H2&H3)|(H1&H2&H3)]];
    [|lia|destruct H1; lia]. by rewrite bind_eq, H2.
Qed.

Lemma prep_refused fd (body : Z -> M Z) :
  is_bufferable_fd fd (gl s) = false -> mbind body (prep_syscall_for_fd fd) s = body 0 s.
Proof. intros Hfd. unfold prep_syscall_for_fd. rewrite bind_assoc, bind_eq. cbn [gets]. by rewrite Hfd. Qed.

Lemma unforced (body : bool -> M Z) :
  in_chaos (gl s) = 0 -> mbind body force_traced_syscall_for_chaos_mode s = body false s.
Proof. intros H. rewrite bind_eq. unfold force_traced_syscall_for_chaos_mode. by rewrite H. Qed.

Lemma assert_no n n' (k : M Z) : n' = n -> (assert_ (n =? n');; k) s = k s.
Proof. intros ->. by rewrite Z.eqb_refl. Qed.

(** The end a refused record would have had. *)
Lemma refused_end (b : bool) n :
  0 <= n < g_buffer (geom s) -> 0 <= (if b then padd 0 n else 0) < g_buffer (geom s).
Proof.
  intros Hn. destruct Hclosed as [[] _]. unfold padd, g_end, g_last, SIZEOF_HDR, SIZEOF_REC in *.
  destruct b; [rewrite wrapu_small by lia|]; lia.
Qed.

Lemma closed_buffer : 2 ^ 33 <= g_buffer (geom s).
Proof. destruct Hclosed as [[] _]. lia. Qed.

Variable call : syscall_info.
Hypothesis Hfd : is_bufferable_fd (s32 (arg call 0)) (gl s) = false.
Hypothesis Hchaos : in_chaos (gl s) = 0.
Hypothesis Hlen : lengths_ok (geom s) call.

Lemma refuse_generic : sys_generic_nonblocking_fd call s = traced_raw_syscall call s.
Proof.
  pose proof closed_buffer. unfold sys_generic_nonblocking_fd. cbv zeta. rewrite prep_refused by done.
  apply refused. lia.
Qed.

Lemma length_small i : i ∈ length_args (no call) -> 0 <= u64 (arg call i) < g_buffer (geom s).
Proof. intros Hi. pose proof (lengths_ok_at _ _ _ Hi Hlen). lia. Qed.

Lemma refuse_pread64 : no call = SYS_pread64 -> sys_pread64 call s = traced_raw_syscall call s.
Proof.
  intros Hno. unfold sys_pread64. cbv zeta. rewrite prep_refused, assert_no by done.
  apply refused, refused_end, length_small. rewrite Hno. by left.
Qed.

Lemma refuse_read : no call = SYS_read -> sys_read call s = traced_raw_syscall call s.
Proof.
  intros Hno. unfold sys_read. cbv zeta. rewrite unforced by done.
  do 2 (rewrite bind_eq; cbn [gets]). rewrite Hfd, andb_false_r. cbn [andb]. rewrite bind_ret_l.
  rewrite prep_refused, assert_no by done.
  apply refused, refused_end, length_small. rewrite Hno. by left.
Qed.

Lemma refuse_write : no call = SYS_write -> sys_write call s = traced_raw_syscall call s.
Proof.
  intros Hno. pose proof closed_buffer. unfold sys_write. cbv zeta. rewrite unforced, prep_refused, assert_no by done.
  apply refused. lia.
Qed.

Lemma refuse_pwrite64 : no call = SYS_pwrite64 -> sys_pwrite64 call s = traced_raw_syscall call s.
Proof.
  intros Hno. pose proof closed_buffer. unfold sys_pwrite64. cbv zeta. rewrite prep_refused, assert_no by done.
  apply refused. lia.
Qed.

Lemma refuse_writev : no call = SYS_writev -> sys_writev call s = traced_raw_syscall call s.
Proof.
  intros Hno. pose proof closed_buffer. unfold sys_writev. cbv zeta. rewrite unforced, prep_refused, assert_no by done.
  apply refused. lia.
Qed.

Lemma refuse_sendmsg : no call = SYS_sendmsg -> sys_sendmsg call s = traced_raw_syscall call s.
Proof.
  intros Hno. pose proof closed_buffer. unfold sys_sendmsg. cbv zeta. rewrite unforced, prep_refused, assert_no by done.
  apply refused. lia.
Qed.

Lemma refuse_sendto : no call = SYS_sendto -> sys_sendto call s = traced_raw_syscall call s.
Proof.
  intros Hno. pose proof closed_buffer. unfold sys_sendto. cbv zeta. rewrite unforced, prep_refused, assert_no by done.
  apply refused. lia.
Qed.

Lemma refuse_setsockopt : no call = SYS_setsockopt -> sys_setsockopt call s = traced_raw_syscall call s.
Proof.
  intros Hno. pose proof closed_buffer. unfold sys_setsockopt. cbv zeta.
  destruct ((_ =? SOL_PACKET) && _); [done|]. rewrite prep_refused, assert_no by done. apply refused. lia.
Qed.

Lemma refuse_getdents : sys_generic_getdents call s = traced_raw_syscall call s.
Proof.
  unfold sys_generic_getdents. cbv zeta. rewrite prep_refused by done.
  apply refused, refused_end. pose proof closed_buffer. pose proof (wrapu_range 32 (arg call 2)). lia.
Qed.

Lemma refuse_fgetxattr : no call = SYS_fgetxattr -> sys_fgetxattr call s = traced_raw_syscall call s.
Proof.
  intros Hno. unfold sys_fgetxattr. cbv zeta. rewrite prep_refused, ?assert_no by done.
  apply refused, refused_end, length_small. rewrite Hno. by left.
Qed.

Lemma refuse_flistxattr : no call = SYS_flistxattr -> sys_flistxattr call s = traced_raw_syscall call s.
Proof.
  intros Hno. unfold sys_flistxattr. cbv zeta. rewrite prep_refused, ?assert_no by done.
  apply refused, refused_end, length_small. rewrite Hno. by left.
Qed.

Lemma refuse_ioctl : no call = SYS_ioctl -> sys_ioctl call s = traced_raw_syscall call s.
Proof.
  intros Hno. unfold sys_ioctl. destruct (existsb _ _); [|done]. pose proof closed_buffer.
  unfold sys_safe_nonblocking_ioctl. cbv zeta. rewrite prep_refused, ?assert_no by done. apply refused. lia.
Qed.

Lemma case_hit n w :
  In (n, w) CASES -> no call = n -> w call s = traced_raw_syscall call s ->
  syscall_hook_internal call s = traced_raw_syscall call s.
Proof. intros Hw Hno <-. by rewrite (internal_case call n w). Qed.

Lemma generic_hit :
  no call ∈ GENERIC_NONBLOCKING_FD -> syscall_hook_internal call s = sys_generic_nonblocking_fd call s.
Proof.
  intros Hin. unfold syscall_hook_internal.
  rewrite (dispatch_hit wrapper_table call (no call) sys_generic_nonblocking_fd table_labels_distinct);
    [done| |done].
  unfold wrapper_table. apply in_or_app. right. apply in_or_app. left.
  apply in_map_iff. exists (no call). split; [done|]. by apply list_elem_of_In.
Qed.

Tactic Notation "next" constr(i) constr(w) constr(h) :=
  match goal with Hin : no call ∈ _ |- _ =>
    apply elem_of_cons in Hin as [Hno|Hin];
    [apply (case_hit _ w) with (2 := Hno); [exact (nth_error_In CASES i eq_refl)|exact h || exact (h Hno)]|] end.

(** A call on a descriptor whose buffering rr has disabled is exactly a traced
    call: nothing is written to the buffer and the lock is not taken.  Stated
    for the 20 calls of the dispatch whose first argument is checked at their
    start. *)
Theorem disabled_fd_is_traced :
  no call ∈ fd_calls -> syscall_hook_internal call s = traced_raw_syscall call s.
Proof.
  intros Hin. unfold fd_calls in Hin. apply elem_of_app in Hin as [Hin|Hin].
  - rewrite generic_hit by done. apply refuse_generic.
  - next 25%nat sys_read refuse_read.
    next 21%nat sys_pread64 refuse_pread64.
    next 35%nat sys_write refuse_write.
    next 22%nat sys_pwrite64 refuse_pwrite64.
    next 36%nat sys_writev refuse_writev.
    next 30%nat sys_sendmsg refuse_sendmsg.
    next 31%nat sys_sendto refuse_sendto.
    next 32%nat sys_setsockopt refuse_setsockopt.
    next 7%nat sys_getdents refuse_getdents.
    next 8%nat sys_getdents64 refuse_getdents.
    next 4%nat sys_fgetxattr refuse_fgetxattr.
    next 5%nat sys_flistxattr refuse_flistxattr.
    next 12%nat sys_ioctl refuse_ioctl.
    by apply elem_of_nil in Hin.
Qed.
End Disabled.
