(* ===== verification/Boundaries.v ===== *)
(** * Bounds and corner cases

    What [sys_rt_sigprocmask] does, the size of the breakpoint table against the size of the buffer, the lock a
    refused transaction may leave behind, the bounds of the [mprotect] records,
    and the calls whose arguments end the process. *)

From stdpp Require Import base tactics list numbers.
From S2P Require Import Prelude Memory KernelAbi CStrings PreloadInterface Machine SyscallNumbers Syscallbuf Wrappers Hook BufferInv WrapperInv HookInv Replay History ReplayWrappers ReplayOutputs ReplayHook Tracer ReplayBatch ProtocolSpec.
Local Open Scope Z_scope.

(** ** [rt_sigprocmask]

    The wrapper keeps rr informed of the signals the tracee blocks: it writes
    the new mask to [blocked_sigs] of the buffer's header and counts
    [blocked_sigs_generation].  The header gets the mask the kernel has set when
    the sets of the program do not overlap; two examples show the signals rr
    reserves and what happens when the sets are the same. *)

(** ** Masks *)

(** The bits of the signals rr keeps for itself. *)
Definition rr_signal_bit (i : Z) : bool :=
  (i =? SIGSTKFLT - 1) || (i =? SYSCALLBUF_DESCHED_SIGNAL - 1).

Lemma without_rr_signals_bit set i :
  0 <= i -> Z.testbit (without_rr_signals set) i = Z.testbit set i && negb (rr_signal_bit i).
Proof.
  intros Hi. unfold without_rr_signals, rr_signal_bit. rewrite !Z.ldiff_spec, !Z.shiftl_1_l.
  rewrite !Z.pow2_bits_eqb by (vm_compute; discriminate).
  rewrite (Z.eqb_sym _ i), (Z.eqb_sym (SYSCALLBUF_DESCHED_SIGNAL - 1) i), <- andb_assoc, negb_orb. done.
Qed.

(** Whether the program's set is replaced by [modified_set]. *)
Definition replaced (how : Z) : bool := (how =? SIG_BLOCK) || (how =? SIG_SETMASK).

(** The mask after [rt_sigprocmask(how, set)]. *)
Definition sigprocmask_result (how previous_set set : Z) : Z :=
  new_blocked_set how previous_set (if replaced how then without_rr_signals set else set).

Lemma sigprocmask_result_bit how previous_set set i :
  0 <= i ->
  Z.testbit (sigprocmask_result how previous_set set) i =
    if how =? SIG_BLOCK then Z.testbit previous_set i || (Z.testbit set i && negb (rr_signal_bit i))
    else if how =? SIG_UNBLOCK then Z.testbit previous_set i && negb (Z.testbit set i)
    else if how =? SIG_SETMASK then Z.testbit set i && negb (rr_signal_bit i)
    else Z.testbit previous_set i.
Proof.
  intros Hi. unfold sigprocmask_result, replaced, new_blocked_set, SIG_UNBLOCK, SIG_BLOCK, SIG_SETMASK.
  destruct (Z.eqb_spec how 0) as [->|]; [|destruct (Z.eqb_spec how 1) as [->|]; [|destruct (Z.eqb_spec how 2) as [->|]]];
    cbn [Z.eqb orb]; by rewrite ?Z.lor_spec, ?Z.ldiff_spec, ?without_rr_signals_bit by done.
Qed.

(** ** Memory *)

Lemma load_copy n d src m :
  d <= src \/ src + Z.of_nat n <= d -> load n d (rep_movsb n d src m) = load n src m.
Proof.
  intros Hov. assert (forall k i, 0 <= i -> i + Z.of_nat k <= Z.of_nat n ->
    load k (d + i) (rep_movsb n d src m) = load k (src + i) m) as H.
  { induction k as [|k IH]; intros i Hi Hk; cbn [load]; [done|].
    rewrite rep_movsb_in by lia. replace (src + (d + i - d)) with (src + i) by lia.
    rewrite <- !Z.add_assoc, IH by lia. done. }
  specialize (H n 0). rewrite !Z.add_0_r in H. apply H; lia.
Qed.

(** A load outside the destination of a copy. *)
Lemma load_copy_other n a k d src m :
  disjoint_rng d (Z.of_nat k) a (Z.of_nat n) -> load n a (rep_movsb k d src m) = load n a m.
Proof.
  intros Hd. apply load_ext. intros b Hb. apply rep_movsb_out. unfold rng, disjoint_rng in *. lia.
Qed.

(** ** The run *)

Section Run.
Context {E : Env} {Q : QuietKernel E}.
Hypothesis Hioctl : ioctl_works.
Variables (call : syscall_info) (s : st).

Let g := geom s.
Let last := g_last g.
Let how := s32 (arg call 0).
Let set := u64 (arg call 1).
Let oldset := u64 (arg call 2).
Let oldset2 := last + SIZEOF_REC.
Let modified := frame s.

(** The calls the theorem is about. *)
Record sigprocmask_ok : Prop := mkSigOk {
  sig_ready : ready s;
  sig_no : no call = SYS_rt_sigprocmask;
  sig_size : arg call 3 = SIZEOF_sigset;
  sig_room : last + 24 + SIZEOF_REC <= g_end g;
  sig_set : set <> 0;
  sig_frame : modified <> 0;
  sig_set_user : user_range g set 8;
  sig_old_user : user_range g oldset 8;
  sig_frame_user : user_range g modified 8;
  sig_frame_set : disjoint_rng modified 8 set 8;
  sig_frame_old : disjoint_rng modified 8 oldset 8;
  sig_no_alias : disjoint_rng set 8 oldset 8;
  sig_returns : forall a x, k_ret (kernel UNTRACED_RECORDING_ONLY SYS_rt_sigprocmask a x) = 0 }.

Hypothesis Hok : sigprocmask_ok.

Definition sig_set2 : Z := if replaced how then modified else set.

(** The memory the kernel is called with. *)
Definition sig_mem (m : mem) : mem :=
  if replaced how then
    store 8 modified (without_rr_signals (load 8 modified (rep_movsb 8 modified set m))) (rep_movsb 8 modified set m)
  else m.

Lemma sig_last_bounds : 0 < last < 2 ^ 62 /\ good g /\ last + 40 <= g_end g /\ g_buffer g <= last.
Proof.
  pose proof (ready_good s (sig_ready Hok)) as Hg. pose proof (good_last_range _ Hg). pose proof (sig_room Hok) as Hr.
  unfold SIZEOF_REC in Hr. fold g in Hg. split; [done|split; [done|split; [lia|]]].
  destruct Hg. unfold last, g_last, SIZEOF_HDR. lia.
Qed.

(** The states of the run. *)
Let s2 := started SYS_rt_sigprocmask (last + 24) WONT_BLOCK (locked_state s).
Let s4 := set_hdr (set_in_sigprocmask_critical_section 1 (hdr s2)) (set_memory (sig_mem (memory s2)) s2).
Let sig_args := [how; sig_set2; oldset2; SIZEOF_sigset].
Let s5 := set_memory (k_mem (kernel_call SYS_rt_sigprocmask sig_args s4)) (calling SYS_rt_sigprocmask sig_args s4).
Let s6 := set_memory (if nz oldset then rep_movsb 8 oldset oldset2 (memory s5) else memory s5) s5.
Let previous := load 8 oldset2 (memory s6).
Let s8 :=
  set_hdr (set_in_sigprocmask_critical_section 0
    (set_blocked_sigs_generation (u32 (blocked_sigs_generation (hdr s) + 1))
      (set_blocked_sigs (new_blocked_set how previous (load 8 sig_set2 (memory s6))) (hdr s6)))) s6.

Lemma sig_start :
  start_commit_buffered_syscall SYS_rt_sigprocmask (last + 24) WONT_BLOCK (locked_state s) = (Ret true, s2).
Proof.
  destruct sig_last_bounds as (H1&H2&H3&H4).
  assert (geom (locked_state s) = lock g) as Hg1 by apply geom_lock.
  rewrite start_commit_eq; [|by rewrite Hg1; apply good_lock|apply (ready_quiet s (sig_ready Hok))|done|lia].
  cbv zeta. rewrite Hg1. change (g_last (lock g)) with last. change (g_end (lock g)) with (g_end g).
  replace (last + 24 - last + 7) with 31 by lia. change (31 / 8 * 8) with 24. unfold SIZEOF_REC.
  destruct (Z.ltb_spec (last + 24) (last + 9)); [lia|].
  destruct (Z.ltb_spec (g_end g) (last + 24 + 16)); [lia|done].
Qed.

(** What follows the check of [ret]. *)
Lemma sig_copy_old :
  (if nz oldset then local_memcpy oldset oldset2 SIZEOF_sigset else mret tt) s5 = (Ret tt, s6).
Proof. unfold s6. destruct (nz oldset); [done|]. by rewrite eta_memory. Qed.

Lemma sig_modify :
  (if replaced how then
     local_memcpy modified set SIZEOF_sigset;;
     v ← load_m 8 modified;
     store_m 8 modified (without_rr_signals v)
   else mret tt) s2 = (Ret tt, set_memory (sig_mem (memory s2)) s2).
Proof. unfold sig_mem. destruct (replaced how); [done|]. by rewrite eta_memory. Qed.

Lemma sig_untraced :
  untraced_syscall SYS_rt_sigprocmask sig_args s4 = (Ret 0, s5).
Proof.
  rewrite untraced_record; [|exact (good_rec _ (ready_good s (sig_ready Hok)))].
  unfold kernel_call at 1. rewrite (sig_returns Hok). done.
Qed.

Lemma sig_run :
  sys_rt_sigprocmask call s = (commit_raw_syscall SYS_rt_sigprocmask (last + 24) 0;; mret 0) s8.
Proof.
  destruct sig_last_bounds as (H1&H2&H3&H4).
  assert (buffer (tl s) <> 0) as Hb by (destruct H2; cbn in *; lia).
  unfold sys_rt_sigprocmask. cbv zeta. rewrite (sig_size Hok), Z.eqb_refl. cbn [negb].
  rewrite bind_eq, prep_run by done. rewrite buffer_last_eq by done. fold g. fold last. unfold padd.
  rewrite (wrapu_small 64 (last + SIZEOF_REC)) by (unfold SIZEOF_REC; lia).
  rewrite wrapu_small by (unfold SIZEOF_REC, SIZEOF_sigset; lia).
  replace (last + SIZEOF_REC + SIZEOF_sigset) with (last + 24) by (unfold SIZEOF_REC, SIZEOF_sigset; lia).
  rewrite bind_eq, sig_start. cbn [negb]. rewrite bind_eq. cbn [gets]. change (frame s2) with modified.
  fold set how oldset. change ((how =? SIG_BLOCK) || (how =? SIG_SETMASK)) with (replaced how).
  pose proof (sig_set Hok) as Hset. apply nz_true in Hset. fold set in Hset. rewrite Hset. cbn [andb].
  rewrite bind_eq, sig_modify, bind_eq. cbn [modify_hdr modify].
  change (last + SIZEOF_REC) with oldset2.
  change [how; if replaced how then modified else set; oldset2; SIZEOF_sigset] with sig_args.
  change (hdr (set_memory (sig_mem (memory s2)) s2)) with (hdr s2). fold s4.
  rewrite bind_eq, sig_untraced, bind_eq. cbn [gets].
  change (failed_during_preparation (hdr s5)) with (failed_during_preparation (hdr s)).
  rewrite (quiet_failed s (ready_quiet s (sig_ready Hok))). cbn [Z.leb Z.compare nz Z.eqb negb andb].
  rewrite bind_assoc, bind_eq, sig_copy_old.
  assert (nz (if replaced how then modified else set) = true) as ->
    by (apply nz_true; destruct (replaced how); [apply (sig_frame Hok)|apply (sig_set Hok)]).
  do 2 (rewrite bind_assoc, bind_eq; cbn [load_m gets]). rewrite bind_assoc, bind_eq. cbn [modify_hdr modify].
  rewrite bind_eq. cbn [modify_hdr modify]. rewrite bind_eq. cbn [modify_hdr modify].
  apply bind_ext. intros v y. done.
Qed.

(** Outside the buffer and the local, memory is what it was. *)
Lemma sig_s5_out n a :
  user_range g a (Z.of_nat n) -> load n a (memory s5) = load n a (memory s4).
Proof.
  intros Hu. destruct sig_last_bounds as (H1&H2&H3&H4). apply load_ext. intros b Hb. symmetry.
  apply (quiet_writes SYS_rt_sigprocmask (pad8 sig_args) (calling SYS_rt_sigprocmask sig_args s4)); [done|].
  change (kernel_writes SYS_rt_sigprocmask (pad8 sig_args) _) with [(u64 oldset2, u64 SIZEOF_sigset)].
  intros (p&k&Hin&_&Hp). apply list_elem_of_singleton in Hin. injection Hin as -> ->. unfold oldset2, SIZEOF_REC in Hp.
  rewrite (wrapu_small 64 (last + 16)) in Hp by lia. change (u64 SIZEOF_sigset) with 8 in Hp.
  unfold user_range, disjoint_rng, rng, g_end in *. fold g in Hu. lia.
Qed.

Lemma sig_s2_set : load 8 set (memory s2) = load 8 set (memory s).
Proof.
  destruct sig_last_bounds as (H1&H2&H3&H4). pose proof (sig_set_user Hok) as Hu.
  apply load_ext. intros b Hb. unfold s2. cbn [started is_MAY_BLOCK memory set_memory].
  assert (buffer_last (locked_state s) = last) as -> by (apply (buffer_last_eq s); exact H2).
  unfold user_range, disjoint_rng, rng, g_end in *. apply start_mem_out; lia.
Qed.

Lemma sig_s6_out n a :
  disjoint_rng oldset 8 a (Z.of_nat n) -> load n a (memory s6) = load n a (memory s5).
Proof. intros Hd. unfold s6. cbn [memory set_memory]. destruct (nz oldset); [|done]. by apply load_copy_other. Qed.

Lemma without_rr_signals_range v : 0 <= v < 2 ^ 64 -> 0 <= without_rr_signals v < 2 ^ 64.
Proof.
  intros Hv. assert (forall x y, 0 <= x -> 0 <= Z.ldiff x y <= x) as Hd.
  { intros x y Hx. apply Z.ldiff_le; [done|]. apply Z.bits_inj'. intros i Hi.
    rewrite !Z.ldiff_spec, Z.bits_0. by destruct (Z.testbit x i), (Z.testbit y i). }
  unfold without_rr_signals. set (y := Z.shiftl 1 (SIGSTKFLT - 1)). set (z := Z.shiftl 1 _).
  pose proof (Hd v y ltac:(lia)). pose proof (Hd (Z.ldiff v y) z ltac:(lia)). lia.
Qed.

(** The mask read back is the one the kernel was given. *)
Lemma sig_set_read :
  load 8 sig_set2 (memory s6) =
    if replaced how then without_rr_signals (load 8 set (memory s)) else load 8 set (memory s).
Proof.
  pose proof (sig_set_user Hok) as U1. pose proof (sig_frame_user Hok) as U2.
  pose proof (sig_frame_set Hok) as D1. pose proof (sig_frame_old Hok) as D2. pose proof (sig_no_alias Hok) as D3.
  unfold sig_set2. destruct (replaced how) eqn:Hr.
  - rewrite sig_s6_out, sig_s5_out by (unfold disjoint_rng in *; lia || done).
    change (memory s4) with (sig_mem (memory s2)). unfold sig_mem. rewrite Hr.
    change 8 with (Z.of_nat 8) at 1. rewrite load_store_same, load_copy by (unfold disjoint_rng in D1; lia).
    rewrite Z.mod_small; [by rewrite sig_s2_set|].
    apply without_rr_signals_range. apply (load_range 8).
  - rewrite sig_s6_out, sig_s5_out by (unfold disjoint_rng in *; lia || done).
    change (memory s4) with (sig_mem (memory s2)). unfold sig_mem. rewrite Hr. apply sig_s2_set.
Qed.
(** The fixed part of the record is what [start_commit_buffered_syscall] left. *)
Lemma sig_header a : last <= a < last + 16 -> memory s6 a = memory s2 a.
Proof.
  intros Ha. destruct sig_last_bounds as (H1&H2&H3&H4).
  pose proof (sig_frame_user Hok) as U2. pose proof (sig_old_user Hok) as U3.
  unfold user_range, disjoint_rng, g_end in *.
  transitivity (memory s5 a).
  { unfold s6. cbn [memory set_memory]. destruct (nz oldset); [|done]. apply rep_movsb_out. lia. }
  transitivity (memory s4 a).
  { symmetry. apply (quiet_writes SYS_rt_sigprocmask (pad8 sig_args) (calling SYS_rt_sigprocmask sig_args s4)); [done|].
    change (kernel_writes SYS_rt_sigprocmask (pad8 sig_args) _) with [(u64 oldset2, u64 SIZEOF_sigset)].
    intros (p&k&Hin&_&Hp). apply list_elem_of_singleton in Hin. injection Hin as -> ->. unfold oldset2, SIZEOF_REC in Hp.
    rewrite (wrapu_small 64 (last + 16)) in Hp by lia. lia. }
  change (memory s4) with (sig_mem (memory s2)). unfold sig_mem. destruct (replaced how); [|done].
  rewrite store_out by lia. apply rep_movsb_out. lia.
Qed.

Lemma sig_commit :
  commit_raw_syscall SYS_rt_sigprocmask (last + 24) 0 s8 = (Ret 0, committed (last + 24) 0 WONT_BLOCK s8).
Proof.
  destruct sig_last_bounds as (H1&H2&H3&H4).
  assert (buffer_last s8 = last) as Hl by (apply (buffer_last_eq s); exact H2).
  assert (agree (fun a => last <= a < last + 16)
    (start_mem last SYS_rt_sigprocmask (last + 24) WONT_BLOCK (memory s)) (memory s8)) as Hm.
  { intros a Ha. change (memory s8) with (memory s6). rewrite sig_header by done. unfold s2.
    cbn [started is_MAY_BLOCK memory set_memory].
    by assert (buffer_last (locked_state s) = last) as -> by (apply (buffer_last_eq s); exact H2). }
  rewrite (commit_eq SYS_rt_sigprocmask (last + 24) 0 WONT_BLOCK s8); rewrite ?Hl; try done.
  - change (abort_commit (hdr s8)) with (abort_commit (hdr s)).
    by rewrite (quiet_abort s (ready_quiet s (sig_ready Hok))).
  - lia.
  - change (locked (hdr s8)) with (Z.lor (locked (hdr s)) SYSCALLBUF_LOCKED_TRACEE).
    by rewrite (ready_unlocked s (sig_ready Hok)).
  - rewrite <- (start_mem_no last SYS_rt_sigprocmask (last + 24) WONT_BLOCK (memory s)) by (by vm_compute).
    symmetry. apply load_ext. intros a Ha. apply Hm. unfold rng, REC_syscallno in Ha. lia.
  - rewrite <- (start_mem_desched last SYS_rt_sigprocmask (last + 24) WONT_BLOCK (memory s)).
    symmetry. apply load_ext. intros a Ha. apply Hm. unfold rng, REC_desched in Ha. lia.
Qed.

(** A buffered rt_sigprocmask with separate sets gives the previous mask to the
    program, writes to blocked_sigs the mask the kernel now has, counts the
    generation, and leaves the critical section; the signals rr reserves are not
    in the new mask unless they were in the previous one. *)
Theorem rt_sigprocmask_header :
  exists f, syscall_hook_internal call s = (Ret 0, f) /\
    traced_calls (events f) = traced_calls (events s) /\
    let previous := load 8 oldset2 (memory f) in
    blocked_sigs (hdr f) = sigprocmask_result how previous (load 8 set (memory s)) /\
    blocked_sigs_generation (hdr f) = u32 (blocked_sigs_generation (hdr s) + 1) /\
    in_sigprocmask_critical_section (hdr f) = 0 /\
    (oldset <> 0 -> load 8 oldset (memory f) = previous) /\
    (forall i, 0 <= i -> rr_signal_bit i = true -> Z.testbit previous i = false ->
       Z.testbit (blocked_sigs (hdr f)) i = false).
Proof.
  destruct sig_last_bounds as (H1&H2&H3&H4).
  exists (committed (last + 24) 0 WONT_BLOCK s8).
  assert (buffer_last s8 = last) as Hl by (apply (buffer_last_eq s); exact H2).
  assert (forall n a, disjoint_rng last 16 a (Z.of_nat n) ->
    load n a (memory (committed (last + 24) 0 WONT_BLOCK s8)) = load n a (memory s6)) as Hm.
  { intros n a Hd. apply load_ext. intros b Hb. cbn [committed is_MAY_BLOCK memory add_event set_hdr set_memory].
    rewrite Hl. change (memory s8) with (memory s6). unfold disjoint_rng, rng in *. apply commit_mem_out; lia. }
  split.
  { rewrite (internal_case call SYS_rt_sigprocmask sys_rt_sigprocmask (nth_error_In CASES 29 eq_refl) (sig_no Hok)).
    by rewrite sig_run, bind_eq, sig_commit. }
  split.
  { assert (exists a b, events (committed (last + 24) 0 WONT_BLOCK s8) =
      (events s ++ [EvSyscall UNTRACED_RECORDING_ONLY SYS_rt_sigprocmask a]) ++ [EvBreakpoint b]) as (a&b&->)
      by (by eexists _, _).
    rewrite !traced_calls_snoc. change (traced_calls [EvSyscall UNTRACED_RECORDING_ONLY _ _]) with 0%nat.
    change (traced_calls [EvBreakpoint b]) with 0%nat. lia. }
  cbv zeta. rewrite (Hm 8%nat oldset2) by (unfold disjoint_rng, oldset2, SIZEOF_REC; lia). fold previous.
  assert (blocked_sigs (hdr (committed (last + 24) 0 WONT_BLOCK s8)) =
    sigprocmask_result how previous (load 8 set (memory s))) as Hb.
  { transitivity (new_blocked_set how previous (load 8 sig_set2 (memory s6))); [done|].
    by rewrite sig_set_read. }
  split; [done|]. split; [done|]. split; [done|]. split.
  - intros Ho. pose proof (sig_old_user Hok) as U3. unfold user_range, disjoint_rng, g_end in *.
    rewrite Hm by (unfold disjoint_rng; lia). unfold previous, s6. cbn [memory set_memory].
    apply nz_true in Ho. rewrite Ho. unfold oldset2, SIZEOF_REC in *.
    rewrite load_copy, load_copy_other by (unfold disjoint_rng; lia). done.
  - intros i Hi Hrr Hp. rewrite Hb, sigprocmask_result_bit, Hrr, Hp by done. cbn [negb].
    rewrite !andb_false_r. by destruct (how =? SIG_BLOCK), (how =? SIG_UNBLOCK), (how =? SIG_SETMASK).
Qed.
End Run.

(** ** The breakpoint table *)

(** [breakpoint_table.S]: one [ret] at [_breakpoint_table_entry_start] and
    131071 more. *)
Definition BREAKPOINT_TABLE_ENTRIES : Z := 1 + 131071.

(** The sizes [rr record --syscall-buffer-size] accepts, in kB, on a machine with
    4096-byte pages, and the size of the buffer it asks for. *)
Definition valid_syscall_buffer_size (kb : Z) : bool :=
  (4 <=? kb) && (kb <=? 1024 * 1024) && (Z.land kb (4096 / 1024 - 1) =? 0).

Definition syscall_buffer_bytes (kb : Z) : Z := kb * 1024.

Section Table.
Context {E : Env} {Q : QuietKernel E} {K : KernelContract E}.
Hypothesis strfuel_pos : 0 < Z.of_nat strfuel.
Hypothesis one_byte_entries : breakpoint_table_entry_size = 1.
Hypothesis table_low : 0 <= breakpoint_table_start < 2 ^ 63.

Lemma breakpoint_address_eq n :
  0 <= n < 2 ^ 32 -> breakpoint_address n = breakpoint_table_start + n / 8.
Proof.
  intros Hn. unfold breakpoint_address, padd. rewrite one_byte_entries, Z.mul_1_r.
  pose proof (Z.div_pos n 8 ltac:(lia) ltac:(lia)). pose proof (Z.div_le_upper_bound n 8 n ltac:(lia) ltac:(lia)).
  rewrite (wrapu_small 32) by lia. apply wrapu_small. lia.
Qed.

(** The breakpoint a buffered call ends with. *)
Lemma hook_breakpoint call_ptr call s v f :
  ready s -> call_ok (geom s) call -> syscall_hook call_ptr call s = (Ret v, f) ->
  traced_calls (events f) = traced_calls (events s) ->
  breakpoints (events f) = breakpoints (events s) ++ [breakpoint_table_start + bytes f / 8] /\
  bytes s < bytes f < buffer_size (tl s) /\ bytes f mod 8 = 0.
Proof.
  intros Hr Hok Hrun Htr.
  destruct (hook_replayable strfuel_pos call_ptr call s _ Hok (start_ok_copy s Hr) v f Hrun Htr) as [[C1 [C2 C2'] C3 C4 _ _] _].
  pose proof (ready_good _ C1) as [? ? ? ? ? ? ?]. cbn in C2, C2', C3. unfold g_last, g_end in *. cbn in *.
  unfold SIZEOF_HDR, SIZEOF_REC, bytes in *.
  split; [|split; [lia|done]]. rewrite C4, breakpoint_address_eq by lia. done.
Qed.

(** With a buffer of at most 1 MiB, the default, the breakpoint a buffered call
    passes lies in the breakpoint table. *)
Theorem breakpoint_in_table call_ptr call s v f :
  buffer_size (tl s) <= 1024 * 1024 ->
  ready s -> call_ok (geom s) call -> syscall_hook call_ptr call s = (Ret v, f) ->
  traced_calls (events f) = traced_calls (events s) ->
  exists a, breakpoints (events f) = breakpoints (events s) ++ [a] /\
    breakpoint_table_start <= a < breakpoint_table_start + BREAKPOINT_TABLE_ENTRIES.
Proof.
  intros Hsz Hr Hok Hrun Htr. destruct (hook_breakpoint call_ptr call s v f Hr Hok Hrun Htr) as (Hb&Hlt&Hm).
  eexists. split; [exact Hb|]. pose proof (ready_bytes s Hr). unfold BREAKPOINT_TABLE_ENTRIES.
  pose proof (Z.div_mod (bytes f) 8 ltac:(lia)). lia.
Qed.

(** With a larger buffer, which --syscall-buffer-size accepts, a call buffered
    after the first MiB of records jumps to an address past the end of the
    breakpoint table. *)
Theorem breakpoint_past_table kb call_ptr call s v f :
  buffer_size (tl s) = syscall_buffer_bytes kb -> 1024 * 1024 <= bytes s ->
  ready s -> call_ok (geom s) call -> syscall_hook call_ptr call s = (Ret v, f) ->
  traced_calls (events f) = traced_calls (events s) ->
  1024 < kb /\
  exists a, breakpoints (events f) = breakpoints (events s) ++ [a] /\
    breakpoint_table_start + BREAKPOINT_TABLE_ENTRIES <= a.
Proof.
  intros Hsz Hby Hr Hok Hrun Htr. destruct (hook_breakpoint call_ptr call s v f Hr Hok Hrun Htr) as (Hb&Hlt&Hm).
  split; [unfold syscall_buffer_bytes in Hsz; lia|].
  eexists. split; [exact Hb|]. unfold BREAKPOINT_TABLE_ENTRIES.
  pose proof (Z.div_mod (bytes f) 8 ltac:(lia)). lia.
Qed.
End Table.

(** ** The lock *)

Section Lock.
Context {E : Env}.

(** A pread64 whose count is negative as a signed number, from -2^33 to -8,
    makes the record end before its start: the transaction is refused on the
    branch that does not unlock, so the traced call is made, and the function
    returns, with the tracee's lock set; by the guard of syscall_hook every
    later call of the thread is traced. *)
Theorem pread64_lock_leak call s :
  no call = SYS_pread64 -> closed (geom s) -> locked (hdr s) = 0 ->
  is_bufferable_fd (s32 (arg call 0)) (gl s) = true ->
  u64 (arg call 1) <> 0 -> 2 ^ 64 - 2 ^ 33 <= u64 (arg call 2) < 2 ^ 64 - 7 ->
  let s1 := set_hdr (set_locked SYSCALLBUF_LOCKED_TRACEE (hdr s)) s in
  sys_pread64 call s = traced_raw_syscall call s1.
Proof.
  intros Hno Hc Hl Hfd Hbuf Hcount s1. destruct Hc as [Hg _]. pose proof (good_last_range _ Hg) as Hr.
  assert (buffer (tl s) <> 0) as Hb by (destruct Hg; cbn in *; lia).
  unfold sys_pread64. cbv zeta. unfold prep_syscall_for_fd. rewrite bind_assoc, bind_eq. cbn [gets].
  rewrite Hfd. cbn [negb]. rewrite bind_eq, prep_run by done. unfold locked_state. rewrite Hl.
  change (Z.lor 0 SYSCALLBUF_LOCKED_TRACEE) with SYSCALLBUF_LOCKED_TRACEE. fold s1.
  rewrite Hno, Z.eqb_refl. cbn [assert_]. rewrite bind_eq. cbn [mret M_ret].
  apply nz_true in Hbuf. rewrite Hbuf. destruct (Z.ltb_spec 0 (u64 (arg call 2))); [|lia]. cbn [andb].
  rewrite bind_eq. rewrite buffer_last_eq by done. set (r := g_last (geom s)) in *.
  set (c := u64 (arg call 2)) in *. clearbody c.
  assert (2 ^ 33 <= r) by (destruct Hg; unfold r, g_last, SIZEOF_HDR; lia).
  assert (padd (padd r SIZEOF_REC) (c) = r + 16 + c - 2 ^ 64) as ->.
  { unfold padd, SIZEOF_REC. rewrite (wrapu_small 64 (r + 16)) by lia. unfold wrapu.
    symmetry. apply (Z.mod_unique _ _ 1); lia. }
  assert (start_commit_buffered_syscall SYS_pread64 (r + 16 + c - 2 ^ 64) MAY_BLOCK s1 = (Ret false, s1)) as ->;
    [|done].
  unfold start_commit_buffered_syscall. cbv zeta. rewrite bind_eq. cbn [gets].
  change (buffer (tl s1)) with (buffer (tl s)). destruct (Z.eqb_spec (buffer (tl s)) 0); [done|].
  do 2 (rewrite bind_eq; cbn [gets]). change (buffer_last s1) with (buffer_last s).
  rewrite buffer_last_eq by done. fold r.
  set (re := r + 16 + c - 2 ^ 64).
  assert (padd r (stored_record_size (psub re r)) = r + (re - r + 7) / 8 * 8) as ->
    by (apply stored_end_eq; [done|lia]).
  destruct (Z.ltb_spec (r + (re - r + 7) / 8 * 8) (padd r SIZEOF_REC)) as [|Hge]; [done|exfalso].
  unfold padd, SIZEOF_REC in Hge. rewrite wrapu_small in Hge by lia.
  pose proof (Z.div_mod (re - r + 7) 8 ltac:(lia)). pose proof (Z.mod_pos_bound (re - r + 7) 8 ltac:(lia)). lia.
Qed.
End Lock.

(** ** The buffered [mprotect]s *)

Section MprotectIndex.

Lemma buffered_mprotects_one s i : buffered_mprotects s i 1 = [mprotect_records (gl s) i].
Proof. unfold buffered_mprotects. change (seq 0 (Z.to_nat 1)) with [0%nat]. cbn [map Z.of_nat]. by rewrite Z.add_0_r. Qed.

(** apply_mprotect_records compares the index within the records it has read,
    which start after the completed ones, with the number of completed records:
    when at least one record is complete and one is pending, the pending one is
    applied without the check of the kernel's mapping. *)
Theorem apply_mprotect_early kernel_prot s :
  let done := mprotect_record_count_completed (hdr s) in
  0 < done -> mprotect_record_count (hdr s) = done + 1 ->
  apply_mprotect_records kernel_prot done s = ([mprotect_records (gl s) done], done + 1).
Proof.
  intros d Hd Hf. unfold apply_mprotect_records. rewrite Hf. fold d.
  destruct (Z.ltb_spec d (d + 1)); [|lia]. replace (d + 1 - d) with 1 by lia.
  rewrite buffered_mprotects_one. cbn [length seq zip zip_with omap list_omap].
  destruct (Z.leb_spec d (Z.of_nat 0)); [lia|]. done.
Qed.
End MprotectIndex.

(** ** Calls whose arguments end the process *)

Section Arguments.
Context {E : Env}.

(** openat with a null path and a directory descriptor dereferences the null
    pointer inside the preload library instead of returning EFAULT. *)
Theorem openat_null_path call s :
  no call = SYS_openat -> in_chaos (gl s) = 0 -> s32 (arg call 0) <> AT_FDCWD ->
  u64 (arg call 1) = 0 -> supported_open_flags (s32 (arg call 2)) = true ->
  syscall_hook_internal call s = (Abort UserNullDeref, s).
Proof.
  intros Hno Hc Hdir Hp Hfl.
  rewrite (internal_case call SYS_openat sys_openat (nth_error_In CASES 19 eq_refl) Hno).
  unfold sys_openat. rewrite bind_eq. unfold force_traced_syscall_for_chaos_mode. rewrite Hc. cbv zeta.
  rewrite Hno, Z.eqb_refl, Hfl. cbn [nz Z.eqb negb assert_]. rewrite bind_ret_l.
  apply Z.eqb_neq in Hdir. rewrite bind_eq, Hdir, Hp. done.
Qed.

(** recvfrom with a source address and a null length pointer fails an assertion
    of the preload library instead of returning EFAULT. *)
Theorem recvfrom_asserts call s :
  no call = SYS_recvfrom -> in_chaos (gl s) = 0 -> buffer (tl s) <> 0 ->
  u64 (arg call 4) <> 0 -> u64 (arg call 5) = 0 ->
  fst (syscall_hook_internal call s) = Abort AssertFailed.
Proof.
  intros Hno Hc Hb Hsrc Hlen.
  rewrite (internal_case call SYS_recvfrom sys_recvfrom (nth_error_In CASES 27 eq_refl) Hno).
  unfold sys_recvfrom. rewrite bind_eq. unfold force_traced_syscall_for_chaos_mode. rewrite Hc. cbv zeta.
  cbn [nz Z.eqb negb]. apply nz_true in Hsrc. rewrite Hno, Hsrc, Hlen. cbn [nz Z.eqb negb orb].
  unfold prep_syscall_for_fd. rewrite bind_assoc, bind_eq. cbn [gets].
  destruct (is_bufferable_fd _ _); cbn [negb]; rewrite bind_eq; [rewrite prep_run by done|]; done.
Qed.

(** quotactl is never buffered: shifting the 32-bit command right arithmetically
    cannot give Q_GETQUOTA, so the buffered branch is dead. *)
Theorem quotactl_never_buffered call s :
  no call = SYS_quotactl -> syscall_hook_internal call s = traced_raw_syscall call s.
Proof.
  intros Hno. rewrite (internal_case call SYS_quotactl sys_quotactl (nth_error_In CASES 24 eq_refl) Hno).
  apply quotactl_traced.
Qed.
End Arguments.

(** ** [mprotect] *)

Section Mprotect.
Context {E : Env} {Q : QuietKernel E}.
Hypothesis Hioctl : ioctl_works.
Hypothesis mprotect_quiet : forall a x,
  let k := kernel UNTRACED SYS_mprotect a x in
  k_hdr k = hdr x /\ k_tl k = tl x /\ k_gl k = gl x /\ k_mem k = memory x.

Lemma untraced_replayed_mprotect a x :
  replaying x = false ->
  exists ret, untraced_replayed_syscall SYS_mprotect a x =
    (Ret ret, add_event (EvSyscall UNTRACED SYS_mprotect (pad8 a))
       (set_tl (set_pending_untraced_syscall_result (buffer_last x + REC_ret) (tl x)) x)).
Proof.
  intros Hr. unfold untraced_replayed_syscall, untraced_syscall_base. rewrite bind_eq. cbn [gets].
  rewrite bind_eq. cbn [modify_tl modify]. rewrite bind_eq. unfold raw_syscall. cbv zeta. cbn [rr_page_has_syscall].
  set (y := add_event _ _). destruct (mprotect_quiet (pad8 a) y) as (->&->&->&->).
  rewrite bind_eq. cbn [gets]. rewrite bind_eq. cbn [load_m gets]. unfold replaying in *. cbn [gl]. 
  change (gl y) with (gl x). rewrite Hr. by eexists.
Qed.

Variables (call : syscall_info) (s : st).
Let addr := u64 (arg call 0).
Let length := u64 (arg call 1).
Let prot := s32 (arg call 2).
Let count := mprotect_record_count (hdr s).
Let last := g_last (geom s).

(** A call that is buffered: it sets no bit but those of [PROT_READ], [PROT_WRITE]
    and [PROT_EXEC], there is an entry left in [mprotect_records] and room for a
    record. *)
Record mprotect_ok : Prop := mkMprotectOk {
  mp_no : no call = SYS_mprotect;
  mp_ready : ready s;
  mp_bits : Z.ldiff prot PROT_RWX = 0;
  mp_count : 0 <= count < MPROTECT_RECORD_COUNT;
  mp_room : last + 2 * SIZEOF_REC <= g_end (geom s) }.

Hypothesis Hok : mprotect_ok.

Let s2 := started SYS_mprotect (last + 16) WONT_BLOCK (locked_state s).

Lemma mp_facts :
  good (geom s) /\ 0 < last < 2 ^ 62 /\ last + 32 <= g_end (geom s) /\ geom (locked_state s) = lock (geom s) /\
  buffer_last s = last /\ buffer (tl s) <> 0.
Proof.
  pose proof (ready_good s (mp_ready Hok)) as Hg. pose proof (mp_room Hok). unfold SIZEOF_REC in *.
  split; [done|]. split; [by apply good_last_range|]. split; [lia|]. split; [apply geom_lock|].
  split; [by apply buffer_last_eq|]. destruct Hg. cbn in *. lia.
Qed.

Lemma mp_opens :
  start_commit_buffered_syscall SYS_mprotect (last + 16) WONT_BLOCK (locked_state s) = (Ret true, s2).
Proof.
  destruct mp_facts as (Hg&Hr&Hroom&Hg1&_).
  rewrite start_commit_eq; [|by rewrite Hg1; apply good_lock|apply (ready_quiet s (mp_ready Hok))|done|lia].
  cbv zeta. rewrite Hg1. change (g_last (lock (geom s))) with last.
  change (g_end (lock (geom s))) with (g_end (geom s)).
  replace (last + 16 - last + 7) with 23 by lia. change (23 / 8 * 8) with 16. unfold SIZEOF_REC.
  destruct (Z.ltb_spec (last + 16) (last + 9)); [lia|].
  by destruct (Z.ltb_spec (g_end (geom s)) (last + 16 + 16)); [lia|].
Qed.

(** The state before the system call, and after it with the record corrected when
    it [fails]. *)
Let s3 :=
  set_gl (set_mprotect_record count (mkMprotect addr length prot) (gl s2))
    (set_hdr (set_mprotect_record_count (u32 (count + 1)) (hdr s2)) s2).
Let s4 := add_event (EvSyscall UNTRACED SYS_mprotect (pad8 [addr; length; prot]))
  (set_tl (set_pending_untraced_syscall_result (buffer_last s3 + REC_ret) (tl s3)) s3).
Let s5 (fails : bool) :=
  if fails then set_gl (set_mprotect_record count (mkMprotect addr 0 prot) (gl s4)) s4 else s4.
Let s6 (fails : bool) :=
  set_hdr (set_mprotect_record_count_completed (u32 (mprotect_record_count_completed (hdr s) + 1)) (hdr (s5 fails))) (s5 fails).

Lemma mp_run :
  exists ret, sys_mprotect call s =
    commit_raw_syscall SYS_mprotect (last + 16) ret (s6 ((ret <? 0) && negb (ret =? - ENOMEM))).
Proof.
  destruct mp_facts as (Hg&Hr&Hroom&Hg1&Hl&Hb).
  unfold sys_mprotect. cbv zeta. do 2 (rewrite bind_eq; cbn [gets]). fold addr length prot count.
  rewrite (mp_bits Hok). unfold buffer_hdr at 1. destruct (Z.eqb_spec (buffer (tl s)) 0); [done|].
  destruct (Z.leb_spec MPROTECT_RECORD_COUNT count); [pose proof (mp_count Hok); lia|]. cbn [nz Z.eqb negb orb].
  rewrite bind_eq, prep_run by done. rewrite (mp_no Hok), Z.eqb_refl, bind_eq. cbn [assert_ mret M_ret].
  rewrite Hl. unfold padd, SIZEOF_REC. rewrite wrapu_small by lia. rewrite bind_eq, mp_opens. cbn [negb].
  rewrite bind_eq. cbn [gets]. change (mprotect_record_count (hdr s2)) with count.
  rewrite bind_eq. cbn [modify_hdr modify]. rewrite bind_eq. cbn [modify_gl modify].
  match goal with |- exists _, _ ?x = _ => change x with s3 end.
  destruct (untraced_replayed_mprotect [addr; length; prot] s3) as [ret Hu]; [exact (good_rec _ Hg)|].
  exists ret. rewrite bind_eq, Hu. fold s4. set (fails := (ret <? 0) && negb (ret =? - ENOMEM)).
  rewrite bind_eq. assert ((if fails then modify_gl (set_mprotect_record count (mkMprotect addr 0 prot)) else mret tt) s4
    = (Ret tt, s5 fails)) as -> by (unfold s5; by destruct fails).
  rewrite bind_eq. cbn [modify_hdr modify]. by destruct fails.
Qed.

Lemma mp_s6 fails :
  memory (s6 fails) = start_mem last SYS_mprotect (last + 16) WONT_BLOCK (memory s) /\
  buffer_last (s6 fails) = last /\ geom (s6 fails) = lock (geom s).
Proof.
  destruct mp_facts as (Hg&Hr&Hroom&Hg1&Hl&Hb).
  assert (buffer_last (locked_state s) = last) as Hl1 by exact Hl.
  assert (memory (s6 fails) = start_mem (buffer_last (locked_state s)) SYS_mprotect (last + 16) WONT_BLOCK (memory s)) as ->
    by (unfold s6, s5; by destruct fails).
  rewrite Hl1. split; [done|]. unfold s6, s5. destruct fails; (split; [exact Hl1|exact Hg1]).
Qed.

Lemma mp_commit ret fails :
  commit_raw_syscall SYS_mprotect (last + 16) ret (s6 fails) =
    (Ret ret, committed (last + 16) ret WONT_BLOCK (s6 fails)).
Proof.
  destruct (mp_s6 fails) as (Hm&Hl&_).
  rewrite (commit_eq SYS_mprotect (last + 16) ret WONT_BLOCK (s6 fails)); rewrite ?Hl, ?Hm; try done.
  - assert (abort_commit (hdr (s6 fails)) = 0) as ->; [|done].
    transitivity (abort_commit (hdr s)); [unfold s6, s5; by destruct fails|apply (ready_quiet s (mp_ready Hok))].
  - lia.
  - assert (locked (hdr (s6 fails)) = Z.lor (locked (hdr s)) SYSCALLBUF_LOCKED_TRACEE) as ->
      by (unfold s6, s5; by destruct fails).
    by rewrite (ready_unlocked s (mp_ready Hok)).
  - apply start_mem_no. by vm_compute.
  - apply start_mem_desched.
Qed.

(** A buffered mprotect makes no trap, appends one entry to mprotect_records, at
    an index below MPROTECT_RECORD_COUNT and with the length set to 0 when the
    call failed with another error than ENOMEM, counts it in
    mprotect_record_count and mprotect_record_count_completed, and changes no
    other entry. *)
Theorem mprotect_recorded :
  exists ret f, syscall_hook_internal call s = (Ret ret, f) /\
    traced_calls (events f) = traced_calls (events s) /\ closed (geom f) /\
    mprotect_record_count (hdr f) = count + 1 /\
    mprotect_record_count_completed (hdr f) = u32 (mprotect_record_count_completed (hdr s) + 1) /\
    mprotect_records (gl f) count =
      mkMprotect addr (if (ret <? 0) && negb (ret =? - ENOMEM) then 0 else length) prot /\
    (forall j, j <> count -> mprotect_records (gl f) j = mprotect_records (gl s) j).
Proof.
  destruct mp_facts as (Hg&Hr&Hroom&_). destruct mp_run as [ret Hrun].
  set (fails := (ret <? 0) && negb (ret =? - ENOMEM)) in *. destruct (mp_s6 fails) as (_&_&Hgm).
  assert (fits (lock (geom s)) (last + 16)) as Hfits.
  { split; change (g_last (lock (geom s))) with last; [lia|]. change (g_end (lock (geom s))) with (g_end (geom s)).
    replace (last + 16 - last + 7) with 23 by lia. change (23 / 8 * 8) with 16. unfold SIZEOF_REC. lia. }
  destruct (committed_facts (last + 16) ret WONT_BLOCK (s6 fails)) as [_ Hgf]; [rewrite Hgm; by apply good_lock|by rewrite Hgm|].
  exists ret, (committed (last + 16) ret WONT_BLOCK (s6 fails)). split; [|split; [|split; [|split; [|split; [|split]]]]].
  - rewrite (internal_case call SYS_mprotect sys_mprotect (nth_error_In CASES 17 eq_refl) (mp_no Hok)), Hrun.
    apply mp_commit.
  - assert (exists b, events (committed (last + 16) ret WONT_BLOCK (s6 fails)) =
      (events s ++ [EvSyscall UNTRACED SYS_mprotect (pad8 [addr; length; prot])]) ++ [EvBreakpoint b]) as [b ->]
      by (eexists; unfold s6, s5; destruct fails; done).
    rewrite !traced_calls_snoc. change (traced_calls [EvSyscall UNTRACED _ _]) with 0%nat.
    change (traced_calls [EvBreakpoint b]) with 0%nat. lia.
  - rewrite Hgf, Hgm. apply closed_unlock, good_published; [by apply good_lock|done].
  - transitivity (u32 (count + 1)); [unfold s6, s5; by destruct fails|].
    pose proof (mp_count Hok) as Hc. apply wrapu_small. unfold MPROTECT_RECORD_COUNT in Hc. lia.
  - unfold s6, s5. by destruct fails.
  - change (gl (committed _ _ _ (s6 fails))) with (gl (s6 fails)). fold fails.
    unfold s6, s5. destruct fails; cbn; by rewrite Z.eqb_refl.
  - intros j Hj. apply Z.eqb_neq in Hj. change (gl (committed _ _ _ (s6 fails))) with (gl (s6 fails)).
    unfold s6, s5. destruct fails; cbn; by rewrite ?Hj.
Qed.
End Mprotect.
