(* ===== verification/GdbExpression.v ===== *)
(** * gdb's agent expressions

    [GdbExpression.cc]: the bytecode interpreter with which rr evaluates the
    conditions of breakpoints, and the constructor, which finds the instructions
    of a program and generates the variants that work around a bug of gdb.

    Values are 64-bit signed integers.  What C++ leaves undefined is modelled as
    x86-64 does it: sums, differences, products and left shifts wrap, shift
    counts are taken modulo 64, and a signed division of the least value by -1
    raises SIGFPE, which kills rr ([None] below).  The recorded task is the
    parameter [task]: its memory and its registers. *)

From stdpp Require Import base tactics list numbers.
From S2P Require Import Prelude.
Local Open Scope Z_scope.

(** ** Opcodes *)

Definition OP_add := 0x02.
Definition OP_sub := 0x03.
Definition OP_mul := 0x04.
Definition OP_div_signed := 0x05.
Definition OP_div_unsigned := 0x06.
Definition OP_rem_signed := 0x07.
Definition OP_rem_unsigned := 0x08.
Definition OP_lsh := 0x09.
Definition OP_rsh_signed := 0x0a.
Definition OP_rsh_unsigned := 0x0b.
Definition OP_log_not := 0x0e.
Definition OP_bit_and := 0x0f.
Definition OP_bit_or := 0x10.
Definition OP_bit_xor := 0x11.
Definition OP_bit_not := 0x12.
Definition OP_equal := 0x13.
Definition OP_less_signed := 0x14.
Definition OP_less_unsigned := 0x15.
Definition OP_ext := 0x16.
Definition OP_ref8 := 0x17.
Definition OP_ref16 := 0x18.
Definition OP_ref32 := 0x19.
Definition OP_ref64 := 0x1a.
Definition OP_if_goto := 0x20.
Definition OP_goto := 0x21.
Definition OP_const8 := 0x22.
Definition OP_const16 := 0x23.
Definition OP_const32 := 0x24.
Definition OP_const64 := 0x25.
Definition OP_reg := 0x26.
Definition OP_end := 0x27.
Definition OP_dup := 0x28.
Definition OP_pop := 0x29.
Definition OP_zero_ext := 0x2a.
Definition OP_swap := 0x2b.
Definition OP_pick := 0x32.
Definition OP_rot := 0x33.

(** ** The task *)

(** The union of [GdbRegisterValue] is given by its 64-bit member; the narrower
    members are its low bytes. *)
Record GdbRegisterValue := mkReg {
  reg_defined : bool;
  reg_size : Z;
  value8 : Z }.

(** [task_read n a] is [Task::read_mem] of an [n]-byte unsigned integer, [None]
    when it sets [ok] to false; [task_reg] is [GdbServer::get_reg]. *)
Record task := mkTask {
  task_read : nat -> Z -> option Z;
  task_reg : Z -> GdbRegisterValue }.

(** ** The state of an evaluation *)

(** The top of the stack, [stack.back()], is the head of the list. *)
Record ExpressionState := mkState {
  stack : list Z;
  pc : nat;
  error : bool;
  ended : bool }.

Definition set_stack s e := mkState s (pc e) (error e) (ended e).
Definition set_pc p e := mkState (stack e) p (error e) (ended e).
Definition set_error e := mkState (stack e) (pc e) true (ended e).
Definition set_end e := mkState (stack e) (pc e) (error e) true.

(** Methods of the state; [None] when rr is killed by SIGFPE. *)
Definition X (A : Type) : Type := ExpressionState -> option (A * ExpressionState).

#[export] Instance X_ret : MRet X := fun A a e => Some (a, e).
#[export] Instance X_bind : MBind X := fun A B f c e =>
  match c e with
  | Some (a, e') => f a e'
  | None => None
  end.

Definition update (f : ExpressionState -> ExpressionState) : X unit := fun e => Some (tt, f e).
Definition sigfpe {A} : X A := fun _ => None.

Definition pop : X Z := fun e =>
  match stack e with
  | [] => Some (-1, set_error e)
  | v :: s => Some (v, set_stack s e)
  end.

Definition pop_a_b : X (Z * Z) := b ← pop; a ← pop; mret (a, b).

Definition nonzero (v : Z) : X Z := fun e =>
  if v =? 0 then Some (1, set_error e) else Some (v, e).

(** The argument is converted to [int64_t]. *)
Definition push (i : Z) : X unit := update (fun e => set_stack (s64 i :: stack e) e).

(** The value of big-endian bytes, accumulated as the loop of [fetch] does. *)
Definition be_value (bytes : list Z) : Z := fold_left (fun v b => v * 256 + b) bytes 0.

(** [fetch<T>] for an unsigned [T] of [n] bytes. *)
Definition fetch (bytecode : list Z) (n : nat) : X Z := fun e =>
  if (length bytecode <? pc e + n)%nat
  then Some (2 ^ (8 * Z.of_nat n) - 1, set_error e)
  else Some (be_value (take n (drop (pc e) bytecode)), set_pc (pc e + n)%nat e).

(** [load<T>] from a popped address: no system call in an error state. *)
Definition load_from (t : task) (n : nat) (addr : Z) : X unit := fun e =>
  if error e then Some (tt, e)
  else match task_read t n (u64 addr) with
       | None => Some (tt, set_error e)
       | Some v => push v e
       end.

Definition load_mem (t : task) (n : nat) : X unit := addr ← pop; load_from t n addr.

Definition pick (offset : Z) : X unit := fun e =>
  match stack e !! Z.to_nat offset with
  | None => Some (tt, set_error e)
  | Some v => push v e
  end.

(** [a / b] and [a % b] on [int64_t], [b] not zero. *)
Definition sdiv (a b : Z) : X Z :=
  if (a =? - 2 ^ 63) && (b =? -1) then sigfpe else mret (Z.quot a b).
Definition srem (a b : Z) : X Z :=
  if (a =? - 2 ^ 63) && (b =? -1) then sigfpe else mret (Z.rem a b).

(** The mask [(int64_t(1) << n) - 1]. *)
Definition n_mask (n : Z) : Z := Z.shiftl 1 n - 1.

(** The value [OP_ext] pushes for [a] and width [n]. *)
Definition ext_value (n a : Z) : Z :=
  let sign_bit := Z.land (Z.shiftr a (n - 1)) 1 in
  Z.lor (sign_bit * Z.lnot (n_mask n)) (Z.land a (n_mask n)).

Definition binary (f : Z -> Z -> Z) : X unit :=
  ab ← pop_a_b; push (f ab.1 ab.2).

(** One instruction. *)
Definition step (bytecode : list Z) (t : task) : X unit :=
  op ← fetch bytecode 1;
  if op =? OP_add then binary Z.add
  else if op =? OP_sub then binary Z.sub
  else if op =? OP_mul then binary Z.mul
  else if op =? OP_div_signed then
    ab ← pop_a_b; b ← nonzero ab.2; q ← sdiv ab.1 b; push q
  else if op =? OP_div_unsigned then
    ab ← pop_a_b; b ← nonzero ab.2; push (u64 ab.1 / u64 b)
  else if op =? OP_rem_signed then
    ab ← pop_a_b; b ← nonzero ab.2; r ← srem ab.1 b; push r
  else if op =? OP_rem_unsigned then
    ab ← pop_a_b; b ← nonzero ab.2; push (u64 ab.1 mod u64 b)
  else if op =? OP_lsh then binary (fun a b => Z.shiftl a (b mod 64))
  else if op =? OP_rsh_signed then binary (fun a b => Z.shiftr a (b mod 64))
  else if op =? OP_rsh_unsigned then binary (fun a b => Z.shiftr (u64 a) (b mod 64))
  else if op =? OP_log_not then a ← pop; push (b2z (a =? 0))
  else if op =? OP_bit_and then binary Z.land
  else if op =? OP_bit_or then binary Z.lor
  else if op =? OP_bit_xor then binary Z.lxor
  else if op =? OP_bit_not then a ← pop; push (Z.lnot a)
  else if op =? OP_equal then binary (fun a b => b2z (a =? b))
  else if op =? OP_less_signed then binary (fun a b => b2z (a <? b))
  else if op =? OP_less_unsigned then binary (fun a b => b2z (u64 a <? u64 b))
  else if op =? OP_ext then
    width ← fetch bytecode 1; n ← nonzero width;
    if 64 <=? n then mret tt
    else a ← pop; push (ext_value n a)
  else if op =? OP_zero_ext then
    n ← fetch bytecode 1;
    if 64 <=? n then mret tt
    else a ← pop; push (Z.land a (n_mask n))
  else if op =? OP_ref8 then load_mem t 1
  else if op =? OP_ref16 then load_mem t 2
  else if op =? OP_ref32 then load_mem t 4
  else if op =? OP_ref64 then load_mem t 8
  else if op =? OP_dup then pick 0
  else if op =? OP_swap then ab ← pop_a_b; push ab.2;; push ab.1
  else if op =? OP_pop then pop;; mret tt
  else if op =? OP_pick then offset ← fetch bytecode 1; pick offset
  else if op =? OP_rot then
    c ← pop; b ← pop; a ← pop; push c;; push b;; push a
  else if op =? OP_if_goto then
    offset ← fetch bytecode 2;
    a ← pop;
    if nz a then update (set_pc (Z.to_nat offset)) else mret tt
  else if op =? OP_goto then
    offset ← fetch bytecode 2; update (set_pc (Z.to_nat offset))
  else if op =? OP_const8 then v ← fetch bytecode 1; push v
  else if op =? OP_const16 then v ← fetch bytecode 2; push v
  else if op =? OP_const32 then v ← fetch bytecode 4; push v
  else if op =? OP_const64 then v ← fetch bytecode 8; push v
  else if op =? OP_reg then
    which ← fetch bytecode 2;
    let v := task_reg t which in
    if negb (reg_defined v) then update set_error
    else if existsb (Z.eqb (reg_size v)) [1; 2; 4; 8]
    then push (wrapu (8 * reg_size v) (value8 v))
    else update set_error
  else if op =? OP_end then update set_end
  else update set_error.

(** ** The constructor *)

Definition count_variants (bits : Z) : Z :=
  1 + b2z (8 <? bits) + b2z (16 <? bits) + b2z (32 <? bits).

(** The file-level [fetch<uint16_t>]. *)
Definition fetch16 (data : list Z) (pos : nat) : nat :=
  if (length data <? pos + 2)%nat then 65535%nat
  else Z.to_nat (be_value (take 2 (drop pos data))).

(** The instructions control may reach after the one at [pos], in the order in
    which they are pushed. *)
Definition successors (data : list Z) (pos : nat) : list nat :=
  let op := nth pos data 0 in
  if existsb (Z.eqb op) [OP_ext; OP_zero_ext; OP_pick; OP_const8] then [(pos + 2)%nat]
  else if op =? OP_if_goto then [fetch16 data (pos + 1); (pos + 3)%nat]
  else if op =? OP_goto then [fetch16 data (pos + 1)]
  else if existsb (Z.eqb op) [OP_const16; OP_reg] then [(pos + 3)%nat]
  else if op =? OP_const32 then [(pos + 5)%nat]
  else if op =? OP_const64 then [(pos + 9)%nat]
  else if op =? OP_end then []
  else [(pos + 1)%nat].

(** Whether the instruction at [pos] has an operand that may be wrong. *)
Definition has_width (data : list Z) (pos : nat) : bool :=
  existsb (Z.eqb (nth pos data 0)) [OP_ext; OP_zero_ext] && (pos + 1 <? length data)%nat.

Definition variants_at (data : list Z) (pos : nat) : Z :=
  if has_width data pos then count_variants (nth (pos + 1) data 0) else 1.

Inductive exploration :=
| TooManyVariants
| Explored (instruction_starts : list bool) (num_variants : Z)
| OutOfSteps.

(** The [while] loop; the back of [unvisited] is the head of the list. *)
Fixpoint explore (fuel : nat) (data : list Z) (unvisited : list nat)
    (starts : list bool) (num_variants : Z) : exploration :=
  match unvisited with
  | [] => Explored starts num_variants
  | pos :: unvisited =>
      match fuel with
      | O => OutOfSteps
      | S fuel =>
          match starts !! pos with
          | Some false =>
              let num := num_variants * variants_at data pos in
              if has_width data pos && (64 <? num) then TooManyVariants
              else explore fuel data (rev (successors data pos) ++ unvisited)
                     (<[pos:=true]> starts) num
          | _ => explore fuel data unvisited starts num_variants
          end
      end
  end.

(** The widths tried in place of an operand of [bits] bits. *)
Definition smaller_widths (bits : Z) : list Z :=
  (if 8 <? bits then [8] else []) ++ (if 16 <? bits then [16] else []) ++
  (if 32 <? bits then [32] else []).

(** The variants of [b] when the operand at [pos + 1] may be wrong. *)
Definition vary (data : list Z) (pos : nat) (b : list Z) : list (list Z) :=
  map (fun w => <[(pos + 1)%nat := w]> b) (smaller_widths (nth (pos + 1) data 0)) ++ [b].

(** The second loop of the constructor, from position [pos] on. *)
Fixpoint generate (data : list Z) (starts : list bool) (pos : nat)
    (bytecode_variants : list (list Z)) : list (list Z) :=
  match starts with
  | [] => bytecode_variants
  | s :: starts =>
      generate data starts (S pos)
        (if s && has_width data pos then flat_map (vary data pos) bytecode_variants
         else bytecode_variants)
  end.

(** The fuel is enough: see [explore_terminates]. *)
Definition GdbExpression (data : list Z) : list (list Z) :=
  match explore (2 * length data + 1) data [0%nat] (replicate (length data) false) 1 with
  | Explored starts _ => generate data starts 0 [data]
  | _ => []
  end.

(** ** Evaluation *)

Definition MAX_STEPS : nat := Z.to_nat 10000.

Definition initial : ExpressionState := mkState [] 0 false false.

(** The loop over [steps], then the [pop] of the result: [None] when rr is killed,
    [Some None] when evaluation fails. *)
Fixpoint run (steps_left : nat) (bytecode : list Z) (t : task) (e : ExpressionState)
    : option (option Z) :=
  if ended e then
    '(v, e') ← pop e; Some (if error e' then None else Some v)
  else match steps_left with
       | O => Some None
       | S n =>
           if error e then Some None
           else '(_, e') ← step bytecode t e; run n bytecode t e'
       end.

Fixpoint evaluate_variants (t : task) (variants : list (list Z)) (result : option Z)
    : option (option Z) :=
  match variants with
  | [] => Some result
  | b :: variants =>
      r ← run MAX_STEPS b t initial;
      match r, result with
      | None, _ => Some None
      | Some v, None => evaluate_variants t variants (Some v)
      | Some v, Some w => if w =? v then evaluate_variants t variants result else Some None
      end
  end.

(** [GdbExpression::evaluate]: [Some (Some v)] when it returns true with [v]. *)
Definition evaluate (bytecode_variants : list (list Z)) (t : task) : option (option Z) :=
  if (length bytecode_variants =? 0)%nat then Some None
  else evaluate_variants t bytecode_variants None.

(** [GdbBreakpointCondition::evaluate]: whether to stop. *)
Fixpoint condition_evaluate (expressions : list (list (list Z))) (t : task) : option bool :=
  match expressions with
  | [] => Some false
  | e :: expressions =>
      r ← evaluate e t;
      match r with
      | Some v => if v =? 0 then condition_evaluate expressions t else Some true
      | None => Some true
      end
  end.

Definition GdbBreakpointCondition (bytecodes : list (list Z)) : list (list (list Z)) :=
  map GdbExpression bytecodes.
