(* ===== verification/GdbExpressionSpec.v ===== *)
(** * What evaluating an agent expression means

    The constructor of [GdbExpression] terminates, finds exactly the instructions
    that control can reach, and generates exactly the programs in which some
    operands of reachable [ext] instructions are narrowed.  An evaluation succeeds
    with a value exactly when every such program ends, without an error and within
    10000 instructions, with that value on top of its stack.  Stack slots stay
    64-bit integers, and [ext] and [zero_ext] are conversions to [n] bits. *)

From stdpp Require Import base tactics list numbers.
From S2P Require Import Prelude GdbExpression.
Local Open Scope Z_scope.

(** ** Reachable instructions *)

Inductive reachable (data : list Z) : nat -> Prop :=
| reach_start : reachable data 0
| reach_next pos pos' :
    reachable data pos -> (pos < length data)%nat ->
    pos' ∈ successors data pos -> reachable data pos'.

(** [starts] marks exactly the reachable positions of [data]. *)
Definition marks_reachable (data : list Z) (starts : list bool) : Prop :=
  length starts = length data /\
  forall pos, (pos < length data)%nat -> (starts !! pos = Some true <-> reachable data pos).

(** The number of programs when the instructions marked by [starts], the first of
    which is at [pos], are varied. *)
Fixpoint variant_count (data : list Z) (pos : nat) (starts : list bool) : Z :=
  match starts with
  | [] => 1
  | s :: starts =>
      (if s then variants_at data pos else 1) * variant_count data (S pos) starts
  end.

Lemma count_variants_length bits :
  count_variants bits = Z.of_nat (length (smaller_widths bits)) + 1.
Proof.
  unfold count_variants, smaller_widths.
  destruct (8 <? bits), (16 <? bits), (32 <? bits); reflexivity.
Qed.

Lemma variants_at_pos data pos : 1 <= variants_at data pos.
Proof. unfold variants_at. rewrite count_variants_length. destruct (has_width _ _); lia. Qed.

Lemma variant_count_pos data starts pos : 1 <= variant_count data pos starts.
Proof.
  revert pos. induction starts as [|s starts IH]; intros pos; cbn [variant_count]; [lia|].
  pose proof (IH (S pos)). pose proof (variants_at_pos data pos). destruct s; nia.
Qed.

Lemma variant_count_insert data starts off pos :
  starts !! pos = Some false ->
  variant_count data off (<[pos:=true]> starts) =
  variant_count data off starts * variants_at data (off + pos).
Proof.
  revert off pos. induction starts as [|s starts IH]; intros off pos Hpos; [done|].
  destruct pos as [|pos]; cbn in *.
  - simplify_eq. rewrite Nat.add_0_r. lia.
  - rewrite IH by done. replace (S off + pos)%nat with (off + S pos)%nat by lia. lia.
Qed.

(** [marked s s']: [s'] marks at least what [s] marks. *)
Definition marked_le (s s' : list bool) : Prop :=
  Forall2 (fun a b => a = true -> b = true) s s'.

Lemma marked_le_refl s : marked_le s s.
Proof. induction s; constructor; auto. Qed.

Lemma marked_le_lookup s s' pos : marked_le s s' -> s !! pos = Some true -> s' !! pos = Some true.
Proof.
  intros H Hs. destruct (Forall2_lookup_l _ _ _ _ _ H Hs) as (b & Hb & Himp).
  by rewrite Hb, Himp.
Qed.

Lemma marked_le_insert s s' pos : marked_le (<[pos:=true]> s) s' -> marked_le s s'.
Proof.
  intros H. apply Forall2_same_length_lookup. apply Forall2_same_length_lookup in H as [Hl H].
  rewrite length_insert in Hl. split; [done|]. intros i x y Hx Hy ->.
  destruct (decide (i = pos)) as [->|].
  - eapply H; [apply list_lookup_insert_eq, lookup_lt_is_Some_1; eauto|done|done].
  - eapply H; [by rewrite list_lookup_insert_ne|done|done].
Qed.

Lemma variant_count_mono data s s' off :
  marked_le s s' -> variant_count data off s <= variant_count data off s'.
Proof.
  intros H. revert off. induction H as [|a b s s' Hab H IH]; intros off; cbn; [lia|].
  pose proof (IH (S off)). pose proof (variant_count_pos data s (S off)).
  pose proof (variants_at_pos data off).
  destruct a; [rewrite Hab by done; nia|]. destruct b; nia.
Qed.

(** ** The exploration loop *)

(** What the loop computes from [unvisited] and [starts]. *)
Record closure (data : list Z) (unvisited : list nat) (starts starts' : list bool) : Prop := {
  cl_le : marked_le starts starts';
  cl_todo : forall pos, pos ∈ unvisited -> (pos < length data)%nat -> starts' !! pos = Some true;
  cl_next : forall pos pos', starts' !! pos = Some true -> starts !! pos <> Some true ->
    pos' ∈ successors data pos -> (pos' < length data)%nat -> starts' !! pos' = Some true;
  cl_sound : (forall pos, pos ∈ unvisited -> reachable data pos) ->
    (forall pos, starts !! pos = Some true -> reachable data pos) ->
    forall pos, starts' !! pos = Some true -> reachable data pos }.

Definition unmarked (starts : list bool) : nat := length (List.filter negb starts).

Lemma unmarked_insert starts pos :
  starts !! pos = Some false -> unmarked starts = S (unmarked (<[pos:=true]> starts)).
Proof.
  unfold unmarked. revert pos. induction starts as [|s starts IH]; intros [|pos] H;
    cbn in *; simplify_eq; [done|].
  destruct s; cbn; rewrite (IH pos H); done.
Qed.

Lemma successors_length data pos : (length (successors data pos) <= 2)%nat.
Proof.
  unfold successors.
  repeat match goal with |- context [if ?b then _ else _] => destruct b end; cbn; lia.
Qed.

Lemma closure_skip data pos unvisited starts starts' :
  length starts = length data -> starts !! pos <> Some false ->
  closure data unvisited starts starts' -> closure data (pos :: unvisited) starts starts'.
Proof.
  intros Hlen Hpos [Hle Htodo Hnext Hsound]. split; auto.
  - intros p [->|Hp]%elem_of_cons Hlt; [|auto].
    apply (marked_le_lookup starts); [done|].
    destruct (lookup_lt_is_Some_2 starts pos) as [[] Hb]; [lia|done|done].
  - intros Hun Hst. apply Hsound; [|done]. intros p Hp. apply Hun. by right.
Qed.

Lemma closure_visit data pos unvisited starts starts' :
  length starts = length data -> starts !! pos = Some false ->
  closure data (rev (successors data pos) ++ unvisited) (<[pos:=true]> starts) starts' ->
  closure data (pos :: unvisited) starts starts'.
Proof.
  intros Hlen Hpos [Hle Htodo Hnext Hsound].
  assert (pos < length data)%nat as Hlt by (rewrite <- Hlen; eauto using lookup_lt_Some).
  assert (starts' !! pos = Some true) as Hmark.
  { apply (marked_le_lookup (<[pos:=true]> starts)); [done|].
    apply list_lookup_insert_eq. lia. }
  split.
  - by eapply marked_le_insert.
  - intros p [->|Hp]%elem_of_cons Hp'; [done|]. apply Htodo; [|done]. apply elem_of_app. auto.
  - intros p p' Hp Hnot Hsucc Hp'. destruct (decide (p = pos)) as [->|Hne].
    + apply Htodo; [|done]. apply elem_of_app. left.
      apply list_elem_of_In, in_rev. rewrite rev_involutive. by apply list_elem_of_In.
    + eapply Hnext; eauto. by rewrite list_lookup_insert_ne.
  - intros Hun Hst. apply Hsound.
    + intros p [Hp|Hp]%elem_of_app; [|apply Hun; by right].
      apply reach_next with pos; [apply Hun; by left|done|].
      apply list_elem_of_In in Hp. apply list_elem_of_In, in_rev. done.
    + intros p Hp. destruct (decide (p = pos)) as [->|Hne]; [apply Hun; by left|].
      apply Hst. by rewrite list_lookup_insert_ne in Hp.
Qed.

(** A bound on the number of rounds the loop still makes. *)
Definition rounds (unvisited : list nat) (starts : list bool) : nat :=
  2 * unmarked starts + length unvisited.

Lemma rounds_visit data pos unvisited starts :
  starts !! pos = Some false ->
  (rounds (rev (successors data pos) ++ unvisited) (<[pos:=true]> starts) <
   rounds (pos :: unvisited) starts)%nat.
Proof.
  intros H. unfold rounds. rewrite (unmarked_insert starts pos) by done.
  rewrite length_app, length_rev. cbn [length]. pose proof (successors_length data pos). lia.
Qed.

Lemma closure_exists data unvisited starts :
  length starts = length data -> exists starts', closure data unvisited starts starts'.
Proof.
  remember (rounds unvisited starts) as n eqn:Hn. revert unvisited starts Hn.
  induction n as [n IH] using lt_wf_ind. intros unvisited starts -> Hlen.
  destruct unvisited as [|pos unvisited].
  - exists starts. split; auto using marked_le_refl; [intros ? []%elem_of_nil|].
    intros pos pos' H1 H2. done.
  - destruct (starts !! pos) as [[]|] eqn:Hpos.
    2:{ destruct (IH _ (rounds_visit data pos unvisited starts Hpos) _ _ eq_refl) as [s' Hs'].
        { by rewrite length_insert. }
        exists s'. by apply closure_visit. }
    all: destruct (IH (rounds unvisited starts) ltac:(unfold rounds; cbn; lia) _ _ eq_refl Hlen)
           as [s' Hs'];
      exists s'; apply closure_skip; [done|congruence|done].
Qed.

(** With enough fuel the loop ends: with the closure of what it started from, or
    because that closure has more than 64 variants. *)
Lemma explore_closure fuel data unvisited starts num :
  (rounds unvisited starts <= fuel)%nat -> length starts = length data ->
  num = variant_count data 0 starts -> num <= 64 ->
  exists starts', closure data unvisited starts starts' /\
    explore fuel data unvisited starts num =
      if 64 <? variant_count data 0 starts' then TooManyVariants
      else Explored starts' (variant_count data 0 starts').
Proof.
  revert unvisited starts num.
  induction fuel as [|fuel IH]; intros [|pos unvisited] starts num Hfuel Hlen -> Hnum;
    cbn [explore].
  1, 3: (exists starts; split;
    [split; auto using marked_le_refl; [intros ? []%elem_of_nil|by intros ????]
    |by rewrite (proj2 (Z.ltb_ge _ _)) by done]).
  { unfold rounds in Hfuel. cbn in Hfuel. lia. }
  destruct (starts !! pos) as [[]|] eqn:Hpos.
  2:{ assert (variant_count data 0 (<[pos:=true]> starts) =
              variant_count data 0 starts * variants_at data pos) as Hc
        by (by rewrite variant_count_insert).
      cbv zeta. rewrite <- Hc.
      destruct (has_width data pos && (64 <? variant_count data 0 (<[pos:=true]> starts))) eqn:Hbig.
      - destruct (closure_exists data (rev (successors data pos) ++ unvisited)
                    (<[pos:=true]> starts)) as [s' Hs']; [by rewrite length_insert|].
        exists s'. split; [by apply closure_visit|]. zbool.
        pose proof (variant_count_mono data _ _ 0 (cl_le _ _ _ _ Hs')).
        by rewrite (proj2 (Z.ltb_lt _ _)) by lia.
      - destruct (IH (rev (successors data pos) ++ unvisited) (<[pos:=true]> starts)
                    (variant_count data 0 (<[pos:=true]> starts))) as (s' & Hs' & Heq);
          [|by rewrite length_insert|done|..|by exists s'; split; [apply closure_visit|]].
        + pose proof (rounds_visit data pos unvisited starts Hpos). lia.
        + apply andb_false_iff in Hbig as [Hw|Hw]; zbool; [|done].
          rewrite Hc. unfold variants_at. rewrite Hw. lia. }
  all: destruct (IH unvisited starts (variant_count data 0 starts)) as (s' & Hs' & Heq);
    [unfold rounds in *; cbn in *; lia|done|done|done|];
    exists s'; split; [apply closure_skip; [done|congruence|done]|done].
Qed.

Lemma closure_marks data starts :
  closure data [0%nat] (replicate (length data) false) starts -> marks_reachable data starts.
Proof.
  intros [Hle Htodo Hnext Hsound]. split.
  - apply Forall2_length in Hle. by rewrite length_replicate in Hle.
  - intros pos Hlt. split.
    + apply Hsound; [intros p ->%list_elem_of_singleton; constructor|].
      intros p Hp. apply lookup_replicate in Hp. by destruct Hp.
    + intros Hr. revert Hlt. induction Hr as [|p p' Hr IH Hp Hsucc]; intros Hlt.
      * apply Htodo; [by apply list_elem_of_singleton|done].
      * eapply Hnext; eauto. intros Hf. apply lookup_replicate in Hf. by destruct Hf.
Qed.

Lemma variant_count_none data n off : variant_count data off (replicate n false) = 1.
Proof. revert off. induction n as [|n IH]; intros off; cbn; [done|]. rewrite IH. lia. Qed.

(** ** The variants *)

(** Programs that differ from [data] only in narrowed operands of the marked
    instructions before [limit]. *)
Definition variant_upto (data : list Z) (starts : list bool) (limit : nat) (b : list Z) : Prop :=
  length b = length data /\
  forall j v, b !! j = Some v ->
    data !! j = Some v \/
    exists i, j = (i + 1)%nat /\ (i < limit)%nat /\ starts !! i = Some true /\
      has_width data i = true /\ v ∈ smaller_widths (nth (i + 1) data 0).

Definition variant_of (data : list Z) (b : list Z) : Prop :=
  length b = length data /\
  forall j v, b !! j = Some v ->
    data !! j = Some v \/
    exists i, j = (i + 1)%nat /\ reachable data i /\
      has_width data i = true /\ v ∈ smaller_widths (nth (i + 1) data 0).

Lemma vary_variant data starts pos b :
  starts !! pos = Some true -> has_width data pos = true ->
  (exists b0, variant_upto data starts pos b0 /\ b ∈ vary data pos b0) <->
  variant_upto data starts (S pos) b.
Proof.
  intros Hs Hw. unfold vary.
  assert (pos + 1 < length data)%nat as Hlt.
  { apply andb_true_iff in Hw as [_ Hw]. by apply Nat.ltb_lt. }
  split.
  - intros (b0 & [Hl Hb0] & Hb). apply elem_of_app in Hb as [Hb|Hb].
    + apply list_elem_of_fmap in Hb as (w & -> & Hin).
      split; [by rewrite length_insert|]. intros j v Hj.
      destruct (decide (j = pos + 1)%nat) as [->|Hne].
      * rewrite list_lookup_insert_eq in Hj by lia. simplify_eq. right. exists pos. auto with lia.
      * rewrite list_lookup_insert_ne in Hj by done. destruct (Hb0 j v Hj) as [|(i&?&?&?)]; [auto|].
        right. exists i. auto with lia.
    + apply list_elem_of_singleton in Hb as ->. split; [done|]. intros j v Hj.
      destruct (Hb0 j v Hj) as [|(i&?&?&?)]; [auto|]. right. exists i. auto with lia.
  - intros [Hl Hb].
    destruct (lookup_lt_is_Some_2 data (pos + 1) Hlt) as [d Hd].
    exists (<[(pos + 1)%nat := d]> b). split.
    + split; [by rewrite length_insert|]. intros j v Hj.
      destruct (decide (j = pos + 1)%nat) as [->|Hne].
      * rewrite list_lookup_insert_eq in Hj by lia. simplify_eq. auto.
      * rewrite list_lookup_insert_ne in Hj by done.
        destruct (Hb j v Hj) as [|(i&->&?&?)]; [auto|]. right. exists i.
        split; [done|]. split; [lia|done].
    + destruct (lookup_lt_is_Some_2 b (pos + 1) ltac:(lia)) as [x Hx].
      apply elem_of_app. destruct (Hb _ _ Hx) as [Hdx|(i&Hi&_&_&_&Hin)].
      * right. simplify_eq. rewrite list_insert_id by done. by apply list_elem_of_singleton.
      * left. assert (i = pos) as -> by lia. apply list_elem_of_fmap. exists x. split; [|done].
        by rewrite list_insert_insert_eq, list_insert_id.
Qed.

Lemma variant_upto_skip data starts pos b s :
  starts !! pos = Some s -> s && has_width data pos = false ->
  variant_upto data starts pos b <-> variant_upto data starts (S pos) b.
Proof.
  intros Hs Hw. unfold variant_upto. apply and_iff_compat_l.
  split; intros H j v Hj; (destruct (H j v Hj) as [|(i&->&Hi&Hst&Hwi&Hin)]; [auto|right]);
    exists i; repeat split; auto.
  destruct (decide (i = pos)) as [->|]; [|lia]. simplify_eq.
  apply andb_false_iff in Hw as [|]; congruence.
Qed.

Lemma generate_spec data starts todo pos bvs :
  drop pos starts = todo ->
  (forall b, b ∈ bvs <-> variant_upto data starts pos b) ->
  (forall b, b ∈ generate data todo pos bvs <-> variant_upto data starts (length starts) b) /\
  Z.of_nat (length (generate data todo pos bvs)) =
    variant_count data pos todo * Z.of_nat (length bvs).
Proof.
  revert pos bvs. induction todo as [|s todo IH]; intros pos bvs Hdrop Hbvs; cbn [generate].
  - split; [|cbn; lia]. intros b. rewrite Hbvs.
    assert (length starts <= pos)%nat as Hle.
    { pose proof (length_drop starts pos). rewrite Hdrop in H. cbn in H. lia. }
    unfold variant_upto. apply and_iff_compat_l.
    split; intros H j v Hj; (destruct (H j v Hj) as [|(i&->&Hi&Hst&Hwi&Hin)]; [auto|right]);
      exists i; repeat split; auto; apply lookup_lt_Some in Hst; lia.
  - assert (starts !! pos = Some s) as Hs.
    { rewrite <- (Nat.add_0_r pos), <- lookup_drop, Hdrop. done. }
    assert (drop (S pos) starts = todo) as Hdrop'.
    { replace (S pos) with (pos + 1)%nat by lia. rewrite <- drop_drop, Hdrop. done. }
    destruct (s && has_width data pos) eqn:Hw.
    + apply andb_true_iff in Hw as [-> Hw].
      destruct (IH (S pos) (flat_map (vary data pos) bvs) Hdrop') as [Hin Hlen].
      { intros b. rewrite <- vary_variant by done. setoid_rewrite <- Hbvs.
        rewrite list_elem_of_In, in_flat_map. setoid_rewrite list_elem_of_In. done. }
      split; [done|]. rewrite Hlen. cbn [variant_count]. unfold variants_at. rewrite Hw.
      rewrite count_variants_length.
      enough (length (flat_map (vary data pos) bvs) =
        (length (smaller_widths (nth (pos + 1) data 0%Z)) + 1) * length bvs)%nat by nia.
      clear. induction bvs as [|b bvs IHb]; cbn; [lia|].
      unfold vary at 1. rewrite !length_app, length_map, IHb. cbn. lia.
    + destruct (IH (S pos) bvs Hdrop') as [Hin Hlen].
      { intros b. rewrite Hbvs. by eapply variant_upto_skip. }
      split; [done|]. rewrite Hlen. cbn [variant_count].
      destruct s; [cbn in Hw; unfold variants_at; rewrite Hw|]; lia.
Qed.

Lemma variant_upto_of data starts b :
  marks_reachable data starts ->
  variant_upto data starts (length starts) b <-> variant_of data b.
Proof.
  intros [Hlen Hmark]. unfold variant_upto, variant_of. apply and_iff_compat_l.
  split; intros H j v Hj; (destruct (H j v Hj) as [|(i&->&Hrest)]; [auto|right]); exists i.
  - destruct Hrest as (Hi & Hst & Hw & Hin). split; [done|]. split; [|done].
    apply Hmark; [lia|done].
  - destruct Hrest as (Hr & Hw & Hin).
    assert (i < length data)%nat by (apply andb_true_iff in Hw as [_ Hw]; apply Nat.ltb_lt in Hw; lia).
    repeat split; auto; [lia|]. by apply Hmark.
Qed.

Lemma constructor_facts data :
  exists starts, marks_reachable data starts /\
    (64 < variant_count data 0 starts -> GdbExpression data = []) /\
    (variant_count data 0 starts <= 64 ->
     Z.of_nat (length (GdbExpression data)) = variant_count data 0 starts /\
     forall b, b ∈ GdbExpression data <-> variant_of data b).
Proof.
  destruct (explore_closure (2 * length data + 1) data [0%nat] (replicate (length data) false) 1)
    as (starts & Hcl & Heq).
  - unfold rounds, unmarked. cbn [length].
    pose proof (filter_length_le negb (replicate (length data) false)) as Hf.
    rewrite length_replicate in Hf. lia.
  - apply length_replicate.
  - by rewrite variant_count_none.
  - lia.
  - apply closure_marks in Hcl as Hm. exists starts. split; [done|].
    unfold GdbExpression. rewrite Heq. split; intros Hc.
    + by rewrite (proj2 (Z.ltb_lt _ _)).
    + rewrite (proj2 (Z.ltb_ge _ _)) by done.
      destruct (generate_spec data starts starts 0 [data]) as [Hin Hlen]; [done|..].
      * intros b. rewrite list_elem_of_singleton. split.
        -- intros ->. split; auto.
        -- intros [Hl Hb]. apply list_eq_same_length with (length data); auto.
           intros i x y Hi Hx Hy. destruct (Hb i x Hx) as [|(k&?&?&?)]; [congruence|lia].
      * split; [cbn in Hlen; lia|]. intros b. rewrite Hin. by apply variant_upto_of.
Qed.

(** C28.  The constructor of GdbExpression ends on every byte string, also one
    with loops: it finds exactly the instruction starts that execution can
    reach, gives up when the sign and zero extensions there allow more than 64
    variants, and otherwise generates each choice of smaller widths, all of them
    and nothing else. *)
Theorem constructor_spec data :
  exists starts, marks_reachable data starts /\
    (64 < variant_count data 0 starts -> GdbExpression data = []) /\
    (variant_count data 0 starts <= 64 ->
     Z.of_nat (length (GdbExpression data)) = variant_count data 0 starts /\
     forall b, b ∈ GdbExpression data <-> variant_of data b).
Proof. apply constructor_facts. Qed.

(** ** Running a program *)

(** [n] instructions of [bytecode], none of them after an error or the end. *)
Inductive exec (bytecode : list Z) (t : task) : nat -> ExpressionState -> ExpressionState -> Prop :=
| exec_done e : exec bytecode t 0 e e
| exec_step n e e' e'' :
    ended e = false -> error e = false -> step bytecode t e = Some (tt, e') ->
    exec bytecode t n e' e'' -> exec bytecode t (S n) e e''.

(** The program ends with [v] on top of its stack. *)
Definition yields (bytecode : list Z) (t : task) (v : Z) : Prop :=
  exists n e s, Z.of_nat n <= 10000 /\ exec bytecode t n initial e /\
    ended e = true /\ error e = false /\ stack e = v :: s.

Lemma run_exec steps bytecode t e v :
  run steps bytecode t e = Some (Some v) <->
  exists n e' s, (n <= steps)%nat /\ exec bytecode t n e e' /\
    ended e' = true /\ error e' = false /\ stack e' = v :: s.
Proof.
  revert e. induction steps as [|steps IH]; intros e; cbn [run]; destruct (ended e) eqn:Hend.
  1, 3: split.
  1, 3: unfold pop; destruct (stack e) as [|w s] eqn:Hs; cbn; [done|];
    destruct (error e) eqn:He; intros Heq; simplify_eq;
    exists 0%nat, e, s; repeat split; auto with lia; constructor.
  1, 2: intros (n & e' & s & Hn & Hex & Hend' & Herr & Hs); inversion Hex; subst; [|congruence];
    unfold pop; rewrite Hs; cbn; by rewrite Herr.
  - split; [done|]. intros (n & e' & s & Hn & Hex & Hend' & Herr & Hs).
    inversion Hex; subst; [congruence|lia].
  - destruct (error e) eqn:Herr.
    + split; [done|]. intros (n & e' & s & Hn & Hex & Hend' & Herr' & Hs).
      inversion Hex; subst; congruence.
    + destruct (step bytecode t e) as [[[] e1]|] eqn:Hstep; cbn.
      * rewrite IH. split.
        -- intros (n & e' & s & Hn & Hex & Hrest). exists (S n), e', s.
           split; [lia|]. split; [by econstructor|done].
        -- intros (n & e' & s & Hn & Hex & Hend' & Hrest).
           inversion Hex; subst; [congruence|]. exists n0, e', s. split; [lia|]. split; [congruence|done].
      * split; [done|]. intros (n & e' & s & Hn & Hex & Hend' & Hrest).
        inversion Hex; subst; congruence.
Qed.

Lemma run_yields bytecode t v : run MAX_STEPS bytecode t initial = Some (Some v) <-> yields bytecode t v.
Proof.
  rewrite run_exec. unfold yields.
  assert (forall n, (n <= MAX_STEPS)%nat <-> Z.of_nat n <= 10000) as H
    by (intros n; unfold MAX_STEPS; lia).
  by setoid_rewrite H.
Qed.

Lemma evaluate_variants_spec t variants result v :
  evaluate_variants t variants result = Some (Some v) <->
  (forall w, result = Some w -> w = v) /\ (variants = [] -> result = Some v) /\
  (forall b, b ∈ variants -> yields b t v).
Proof.
  revert result. induction variants as [|b variants IH]; intros result; cbn [evaluate_variants].
  - split.
    + intros [= ->]. split_and!; [congruence|done|by intros b []%elem_of_nil].
    + intros (_ & H & _). by rewrite H.
  - setoid_rewrite <- run_yields in IH. setoid_rewrite <- run_yields.
    destruct (run MAX_STEPS b t initial) as [[w|]|] eqn:Hrun; cbn.
    2, 3: split; [done|]; intros (_ & _ & H); specialize (H b (list_elem_of_here _ _)); congruence.
    assert (forall r, (forall x, r = Some x -> x = w) -> evaluate_variants t variants (Some w) = Some (Some v) <->
      (forall x, r = Some x -> x = v) /\ (b :: variants = [] -> r = Some v) /\
      (forall b0, b0 ∈ b :: variants -> run MAX_STEPS b0 t initial = Some (Some v))) as Hgo.
    { intros r Hr. rewrite IH. split.
      - intros (H1 & H2 & H3). pose proof (H1 w eq_refl) as ->. split_and!; [done|done|].
        intros b0 [->|?]%elem_of_cons; auto.
      - intros (H1 & H2 & H3). pose proof (H3 b (list_elem_of_here _ _)) as Hb. rewrite Hrun in Hb. simplify_eq.
        split_and!; [congruence|done|]. intros b0 ?. apply H3. by right. }
    destruct result as [r|]; [|by apply Hgo].
    destruct (Z.eqb_spec r w) as [->|Hne]; [apply Hgo; congruence|].
    split; [done|]. intros (H1 & _ & H3). specialize (H3 b (list_elem_of_here _ _)).
    rewrite (H1 r eq_refl) in Hne. congruence.
Qed.

Lemma evaluate_yields data t v :
  evaluate (GdbExpression data) t = Some (Some v) <->
  GdbExpression data <> [] /\ forall b, b ∈ GdbExpression data -> yields b t v.
Proof.
  unfold evaluate. destruct (GdbExpression data) as [|b bs] eqn:Hb; cbn [length Nat.eqb].
  - split; [done|]. by intros [H _].
  - rewrite evaluate_variants_spec. split; [by intros (_&_&H)|].
    intros [_ H]. split_and!; [done|done|apply H].
Qed.

(** C29.  An expression evaluates to v exactly when it has at most 64 variants
    and every one of them runs to its end instruction within 10000 steps,
    without an error, with v on top of the stack. *)
Theorem evaluate_spec data t v :
  evaluate (GdbExpression data) t = Some (Some v) <->
  (exists starts, marks_reachable data starts /\ variant_count data 0 starts <= 64) /\
  forall b, variant_of data b -> yields b t v.
Proof.
  rewrite evaluate_yields. destruct (constructor_facts data) as (starts & Hm & Hbig & Hok).
  destruct (Z.le_gt_cases (variant_count data 0 starts) 64) as [Hle|Hgt].
  - destruct (Hok Hle) as [Hlen Hin]. setoid_rewrite Hin. split; intros [H1 H2]; split; eauto.
    intros Hnil. rewrite Hnil in Hlen. pose proof (variant_count_pos data starts 0). cbn in Hlen. lia.
  - rewrite (Hbig ltac:(lia)). split; [by intros [H _]|].
    intros [(starts' & Hm' & Hle) _]. assert (starts' = starts) as ->; [|lia].
    destruct Hm as [Hl Hm], Hm' as [Hl' Hm'].
    apply list_eq_same_length with (length data); auto. intros i x y Hi Hx Hy.
    specialize (Hm i Hi). specialize (Hm' i Hi). rewrite Hx in Hm'. rewrite Hy in Hm.
    destruct x, y; try done; exfalso.
    + assert (Some false = Some true) as [=] by tauto.
    + assert (Some false = Some true) as [=] by tauto.
Qed.

(** ** Control flow *)

(** [advances n c]: when [c] leaves no error there was none before, and the program
    counter has moved by [n]. *)
Definition advances {A} (n : nat) (c : X A) : Prop :=
  forall e a e', c e = Some (a, e') -> error e' = false ->
    pc e' = (pc e + n)%nat /\ error e = false.

Create HintDb advance.

Lemma advances_bind {A B} n k (c : X A) (f : A -> X B) :
  advances n c -> (forall a, advances k (f a)) -> advances (n + k) (mbind f c).
Proof.
  intros Hc Hf e b e'. unfold mbind, X_bind. destruct (c e) as [[a e1]|] eqn:He; [|done].
  intros Hb Herr. destruct (Hf a _ _ _ Hb Herr) as [Hp He1].
  destruct (Hc _ _ _ He He1) as [Hp1 He0]. split; [lia|done].
Qed.

Lemma advances_ret {A} (a : A) : advances 0 (mret a : X A).
Proof. intros e b e' [= <- <-]. split; [lia|done]. Qed.

Lemma advances_pop : advances 0 pop.
Proof. intros e a e'. unfold pop. destruct (stack e); intros [= <- <-]; cbn; [done|]. split; [lia|done]. Qed.

Lemma advances_push i : advances 0 (push i).
Proof. intros e a e' [= <- <-]. cbn. split; [lia|done]. Qed.

Lemma advances_nonzero v : advances 0 (nonzero v).
Proof. intros e a e'. unfold nonzero. destruct (v =? 0); intros [= <- <-]; cbn; [done|]. split; [lia|done]. Qed.

Lemma advances_fetch data n : advances n (fetch data n).
Proof. intros e a e'. unfold fetch. destruct (_ <? _)%nat; intros [= <- <-]; by cbn. Qed.

Lemma advances_sigfpe {A} n : advances n (sigfpe : X A).
Proof. done. Qed.

Lemma advances_pick o : advances 0 (pick o).
Proof. intros e a e'. unfold pick. destruct (_ !! _); [exact (advances_push _ e a e')|by intros [= <- <-]]. Qed.

Lemma advances_load_from t n addr : advances 0 (load_from t n addr).
Proof.
  intros e a e'. unfold load_from. destruct (error e) eqn:He.
  - intros [= <- <-]. congruence.
  - destruct (task_read _ _ _); intros [= <- <-]; cbn; [|done]. split; [lia|done].
Qed.

Lemma advances_error n : advances n (update set_error).
Proof. intros e a e' [= <- <-]. done. Qed.

#[local] Hint Resolve advances_ret advances_pop advances_push advances_nonzero advances_fetch
  advances_sigfpe advances_pick advances_load_from advances_error : advance.

(** Proves [advances n c] for straight-line [c]. *)
Ltac advance :=
  unfold binary, pop_a_b, load_mem, sdiv, srem;
  repeat first
    [ progress auto with advance
    | match goal with |- advances _ (if ?b then _ else _) => destruct b end
    | match goal with |- advances ?n (mbind _ (fetch _ ?k)) =>
        apply (advances_bind k (n - k)); [|intros ?] end
    | apply (advances_bind 0); [|intros ?] ].

Lemma fetch_op data e op e' :
  fetch data 1 e = Some (op, e') -> (pc e < length data)%nat ->
  op = nth (pc e) data 0 /\ e' = set_pc (pc e + 1)%nat e.
Proof.
  unfold fetch. intros H Hlt. destruct (Nat.ltb_spec (length data) (pc e + 1)); [lia|].
  injection H as <- <-. split; [|done].
  destruct (drop (pc e) data) as [|x l] eqn:Hd.
  - apply (f_equal length) in Hd. rewrite length_drop in Hd. cbn in Hd. lia.
  - cbn. assert (data !! pc e = Some x) as Hx.
    { rewrite <- (Nat.add_0_r (pc e)), <- lookup_drop, Hd. done. }
    symmetry. by apply nth_lookup_Some with (d := 0) in Hx.
Qed.

(** [straight op n]: the operands of [op] have [n] bytes and it does not jump. *)
Lemma step_straight data e op e1 (c : X unit) e' n :
  fetch data 1 e = Some (op, e1) -> (pc e < length data)%nat -> advances n c ->
  c e1 = Some (tt, e') -> error e' = false ->
  successors data (pc e) = [(pc e + 1 + n)%nat] -> pc e' ∈ successors data (pc e).
Proof.
  intros Hf Hlt Hadv Hc Herr ->. destruct (fetch_op _ _ _ _ Hf Hlt) as [_ ->].
  destruct (Hadv _ _ _ Hc Herr) as [-> _]. by apply list_elem_of_singleton.
Qed.

Lemma fetch_target data e v e1 :
  fetch data 2 e = Some (v, e1) -> error e1 = false ->
  fetch16 data (pc e) = Z.to_nat v /\ pc e1 = (pc e + 2)%nat.
Proof. unfold fetch, fetch16. destruct (_ <? _)%nat; by intros [= <- <-]. Qed.

(** Control only goes where the constructor has looked. *)
Lemma step_successor data t e e' :
  step data t e = Some (tt, e') -> (pc e < length data)%nat ->
  error e' = false -> ended e' = false -> pc e' ∈ successors data (pc e).
Proof.
  unfold step. unfold mbind at 1, X_bind at 1.
  destruct (fetch data 1 e) as [[op e1]|] eqn:Hf; [|done].
  intros Hstep Hlt Herr Hend. pose proof (fetch_op _ _ _ _ Hf Hlt) as [Hop He1].
  repeat match type of Hstep with
    | (if ?o =? ?k then _ else _) _ = _ =>
        destruct (Z.eqb_spec o k) as [Hk|Hk];
        [ rewrite Hk in Hop; clear Hk;
          try (eapply step_straight;
            [exact Hf|exact Hlt| |exact Hstep|exact Herr
            |unfold successors; rewrite <- Hop; rewrite <- Nat.add_assoc; reflexivity];
            solve [advance]) | clear Hk ]
    end.
  - (* if_goto *)
    unfold mbind, X_bind in Hstep. destruct (fetch data 2 e1) as [[off e2]|] eqn:Hf2; [|done].
    destruct (pop e2) as [[a e3]|] eqn:Hp; [|done].
    assert (error e3 = false /\ (pc e' = Z.to_nat off \/ pc e' = pc e3)) as [He3 Hpc].
    { destruct (nz a); injection Hstep as <-; cbn in *; auto. }
    destruct (advances_pop _ _ _ Hp He3) as [Hp3 He2].
    destruct (fetch_target _ _ _ _ Hf2 He2) as [Htgt Hp2]. subst e1. cbn in Htgt, Hp2.
    unfold successors. rewrite <- Hop. change (pc e' ∈ [fetch16 data (pc e + 1); (pc e + 3)%nat]).
    rewrite Htgt. destruct Hpc as [-> | ->]; [left|right]. rewrite Hp3, Hp2.
    apply list_elem_of_singleton. lia.
  - (* goto *)
    unfold mbind, X_bind in Hstep. destruct (fetch data 2 e1) as [[off e2]|] eqn:Hf2; [|done].
    injection Hstep as <-. cbn in *.
    destruct (fetch_target _ _ _ _ Hf2 Herr) as [Htgt Hp2]. subst e1. cbn in Htgt.
    unfold successors. rewrite <- Hop. rewrite <- Htgt. apply list_elem_of_singleton. done.
  - injection Hstep as <-. done.
  - injection Hstep as <-. done.
Qed.

(** Every instruction an evaluation executes is one the constructor has found. *)
Theorem executed_is_reachable data t n e :
  exec data t n initial e -> error e = false -> ended e = false -> reachable data (pc e).
Proof.
  enough (forall e0, reachable data (pc e0) -> exec data t n e0 e -> error e = false ->
    ended e = false -> reachable data (pc e)) as H by (apply H; constructor).
  intros e0 Hr Hex Herr Hend. induction Hex as [e0|n e0 e1 e2 H1 H2 Hstep Hex IH]; [done|].
  assert (error e1 = false /\ ended e1 = false) as [He1 Hn1] by (destruct Hex; auto).
  apply IH; [|done..]. destruct (Nat.lt_ge_cases (pc e0) (length data)) as [Hlt|Hge].
  - apply reach_next with (pc e0); [done|done|]. by eapply step_successor.
  - exfalso. revert Hstep. unfold step, mbind, X_bind, fetch.
    rewrite (proj2 (Nat.ltb_lt _ _)) by lia. cbn. intros [= <-]. done.
Qed.

(** ** Sign and zero extension *)

Lemma n_mask_ones n : 0 <= n -> n_mask n = Z.ones n.
Proof. intros. unfold n_mask. by rewrite Z.shiftl_1_l, Z.ones_equiv, Z.sub_1_r. Qed.

Lemma zero_ext_value n a : 0 <= n -> Z.land a (n_mask n) = wrapu n a.
Proof. intros. rewrite n_mask_ones, Z.land_ones by done. done. Qed.

(** [ext] converts to a signed [n]-bit integer. *)
Lemma ext_value_spec n a : 0 < n -> ext_value n a = wraps n a.
Proof.
  intros Hn. unfold ext_value. cbv zeta. rewrite zero_ext_value by lia. rewrite n_mask_ones by lia.
  assert (0 <= a mod 2 ^ n < 2 ^ n) as Hm by (apply Z.mod_pos_bound; lia).
  assert (2 ^ n = 2 * 2 ^ (n - 1)) as E.
  { rewrite <- Z.pow_succ_r by lia. f_equal. lia. }
  assert (Z.land (Z.shiftr a (n - 1)) 1 = b2z (Z.testbit a (n - 1))) as ->.
  { change 1 with (Z.ones 1) at 2. rewrite Z.land_ones by lia.
    rewrite <- Z.bit0_mod, Z.shiftr_spec, Z.add_0_l by lia. by destruct (Z.testbit _ _). }
  assert (Z.testbit a (n - 1) = negb (a mod 2 ^ n <? 2 ^ (n - 1))) as ->.
  { rewrite <- (Z.mod_pow2_bits_low a n (n - 1)) by lia.
    rewrite Z.testbit_eqb by lia. set (r := a mod 2 ^ n) in *.
    destruct (Z.ltb_spec r (2 ^ (n - 1))).
    - rewrite Z.div_small by lia. done.
    - replace (r / 2 ^ (n - 1)) with 1; [done|]. apply Z.div_unique with (r - 2 ^ (n - 1)); lia. }
  unfold wraps, wrapu. cbv zeta. destruct (Z.ltb_spec (a mod 2 ^ n) (2 ^ (n - 1))); cbn [negb b2z].
  - by rewrite Z.mul_0_l, Z.lor_0_l.
  - rewrite Z.mul_1_l. set (r := a mod 2 ^ n) in *.
    assert (Z.lor (Z.lnot (Z.ones n)) r = Z.lnot (Z.ldiff (Z.ones n) r)) as ->.
    { apply Z.bits_inj'. intros i Hi.
      rewrite Z.lor_spec, !Z.lnot_spec, Z.ldiff_spec, negb_andb, negb_involutive by lia. done. }
    assert (Z.ldiff r (Z.ones n) = 0) as Hd.
    { destruct (Z.eq_dec r 0) as [->|]; [apply Z.ldiff_0_l|].
      apply Z.ldiff_ones_r_low; [lia|]. apply Z.log2_lt_pow2; lia. }
    rewrite <- (Z.sub_nocarry_ldiff _ _ Hd), Z.ones_equiv. unfold Z.lnot. lia.
Qed.

(** ** Breakpoint conditions *)

(** rr runs on past a conditional breakpoint only when every condition evaluates to
    zero. *)
Theorem condition_spec bytecodes t :
  condition_evaluate (GdbBreakpointCondition bytecodes) t = Some false <->
  forall data, data ∈ bytecodes -> evaluate (GdbExpression data) t = Some (Some 0).
Proof.
  unfold GdbBreakpointCondition. induction bytecodes as [|d ds IH]; cbn [map condition_evaluate].
  - split; [by intros _ data []%elem_of_nil|done].
  - split.
    + destruct (evaluate (GdbExpression d) t) as [[v|]|] eqn:He; cbn; try done.
      destruct (Z.eqb_spec v 0) as [->|]; [|done]. rewrite IH.
      intros H data [->|?]%elem_of_cons; auto.
    + intros H. rewrite (H d) by left. cbn. apply IH. intros data ?. apply H. by right.
Qed.

(** The program [const64 0x8000000000000000; const8 0; bit_not; div_signed; end]. *)
Definition least_by_minus_one : list Z :=
  [OP_const64; 0x80; 0; 0; 0; 0; 0; 0; 0; OP_const8; 0; OP_bit_not; OP_div_signed; OP_end].

(** A breakpoint condition that divides the least 64-bit integer by -1 ends rr
    with SIGFPE; only division by zero is caught. *)
Theorem division_overflow_kills_rr t :
  condition_evaluate (GdbBreakpointCondition [least_by_minus_one]) t = None.
Proof. vm_compute. reflexivity. Qed.

(** Programs on a task whose memory reads as its address and that has no registers. *)
Definition plain_task : task := mkTask (fun _ a => Some a) (fun _ => mkReg false 0 0).

Example endless_loop :
  (* a loop that never ends: [goto 0] *)
  evaluate (GdbExpression [OP_goto; 0; 0]) plain_task = Some None.
Proof. vm_compute. reflexivity. Qed.

(** [const8 200; ext 64; end]: four variants, of which the one for 8 bits gives -56 and
    the others 200, so the evaluation fails. *)
Example ext_variants :
  length (GdbExpression [OP_const8; 200; OP_ext; 64; OP_end]) = 4%nat /\
  evaluate (GdbExpression [OP_const8; 200; OP_ext; 64; OP_end]) plain_task = Some None /\
  evaluate (GdbExpression [OP_const8; 100; OP_ext; 64; OP_end]) plain_task = Some (Some 100).
Proof. vm_compute. auto. Qed.
