(* ===== verification/TracerMonad.v ===== *)
(** * The monad of rr's own code

    rr is C++ that keeps its state in objects and stops when an [ASSERT] fails or
    on [FATAL].  A method is a function from the state of its object to an outcome
    and a new state; the state type is a parameter.  [holds] is the partial
    correctness judgement the invariants of the components are proved with. *)

From stdpp Require Import base tactics list.

(** [FailedAssert] is an [ASSERT] or [DEBUG_ASSERT], [Fatal] is [FATAL()],
    [BadAccess] is an access the C++ standard leaves undefined (an end iterator is
    dereferenced, an index is out of range), [NoFuel] says that a loop of the model
    reached its bound, [Uncaught] is a C++ exception nothing catches, [Exited] is
    [exit(0)]. *)
Inductive failure := FailedAssert | Fatal | BadAccess | NoFuel | Uncaught | Exited.

#[export] Instance failure_eq_dec : EqDecision failure.
Proof. solve_decision. Defined.

Inductive result (A : Type) :=
| Ok (a : A)
| Err (why : failure).
Arguments Ok {A} a.
Arguments Err {A} why.

(** Functions without state of their own. *)
#[export] Instance result_ret : MRet result := fun A a => Ok a.
#[export] Instance result_bind : MBind result := fun A B f r =>
  match r with Ok a => f a | Err w => Err w end.

Lemma bind_result_ok {A B} (f : A -> result B) a : mbind f (Ok a) = f a.
Proof. done. Qed.

Definition TM (S A : Type) : Type := S -> result A * S.

Section Monad.
Context {S : Type}.

#[global] Instance TM_ret : MRet (TM S) := fun A a s => (Ok a, s).
#[global] Instance TM_bind : MBind (TM S) := fun A B f c s =>
  match c s with
  | (Ok a, s') => f a s'
  | (Err w, s') => (Err w, s')
  end.

Definition fail {A} (w : failure) : TM S A := fun s => (Err w, s).
Definition ask {A} (f : S -> A) : TM S A := fun s => (Ok (f s), s).
Definition change (f : S -> S) : TM S unit := fun s => (Ok tt, f s).
Definition ASSERT (b : bool) : TM S unit := if b then mret tt else fail FailedAssert.

(** [holds P c Q]: from a state of [P], [c] ends in a state of [Q], a postcondition
    on outcome and state. *)
Definition holds {A} (P : S -> Prop) (c : TM S A) (Q : result A -> S -> Prop) : Prop :=
  forall s, P s -> Q (c s).1 (c s).2.

(** Postconditions on results; failures allowed in [F] must keep [P]. *)
Definition post {A} (F : failure -> Prop) (E : S -> Prop) (Q : A -> S -> Prop)
    : result A -> S -> Prop :=
  fun r s => match r with Ok a => Q a s | Err w => F w /\ E s end.

Lemma holds_bind {A B} P (c : TM S A) (f : A -> TM S B) F E Q R :
  holds P c (post F E Q) ->
  (forall a, holds (Q a) (f a) (post F E R)) ->
  holds P (mbind f c) (post F E R).
Proof.
  intros Hc Hf s Hs. specialize (Hc s Hs). unfold mbind, TM_bind.
  destruct (c s) as [[a|w] s1]; cbn in *; [exact (Hf a s1 Hc)|done].
Qed.

Lemma holds_ret {A} (a : A) P F E (Q : A -> S -> Prop) :
  (forall s, P s -> Q a s) -> holds P (mret a) (post F E Q).
Proof. intros H s Hs. exact (H s Hs). Qed.

Lemma holds_ask {A} (f : S -> A) P F E :
  holds P (ask f) (post F E (fun a s => P s /\ a = f s)).
Proof. intros s Hs. by cbn. Qed.

Lemma holds_change (f : S -> S) P F E (Q : unit -> S -> Prop) :
  (forall s, P s -> Q tt (f s)) -> holds P (change f) (post F E Q).
Proof. intros H s Hs. exact (H s Hs). Qed.

Lemma holds_fail {A} w P F E (Q : A -> S -> Prop) :
  F w -> (forall s, P s -> E s) -> holds P (fail w) (post F E Q).
Proof. intros HF H s Hs. split; [done|exact (H s Hs)]. Qed.

Lemma holds_weaken {A} (P P' : S -> Prop) (c : TM S A) F E (Q Q' : A -> S -> Prop) :
  holds P' c (post F E Q') -> (forall s, P s -> P' s) ->
  (forall a s, Q' a s -> Q a s) -> holds P c (post F E Q).
Proof.
  intros H HP HQ s Hs. specialize (H s (HP s Hs)).
  destruct (c s) as [[a|w] s1]; cbn in *; auto.
Qed.

(** Reading something the precondition determines. *)
Lemma holds_ask_bind {A B} (f : S -> A) v (k : A -> TM S B) P F E (R : B -> S -> Prop) :
  (forall s, P s -> f s = v) -> holds P (k v) (post F E R) ->
  holds P (mbind k (ask f)) (post F E R).
Proof. intros Hv Hk s Hs. unfold mbind, TM_bind, ask. rewrite (Hv s Hs). by apply Hk. Qed.

Lemma holds_ask_any {A B} (f : S -> A) (k : A -> TM S B) P F E (R : B -> S -> Prop) :
  (forall v, holds P (k v) (post F E R)) -> holds P (mbind k (ask f)) (post F E R).
Proof. intros Hk s Hs. unfold mbind, TM_bind, ask. by apply Hk. Qed.

(** No failure is possible. *)
Definition never (w : failure) : Prop := False.

Lemma holds_never {A} P (c : TM S A) (F : failure -> Prop) (E E' : S -> Prop) Q :
  holds P c (post never E Q) -> holds P c (post F E' Q).
Proof. intros H s Hs. specialize (H s Hs). destruct (c s) as [[a|w] s1]; cbn in *; [done|by destruct H]. Qed.

Lemma holds_failures {A} P (c : TM S A) (F F' : failure -> Prop) (E E' : S -> Prop) Q :
  holds P c (post F E Q) -> (forall w, F w -> F' w) -> (forall s, E s -> E' s) ->
  holds P c (post F' E' Q).
Proof.
  intros H HF HE s Hs. specialize (H s Hs). destruct (c s) as [[a|w] s1]; cbn in *; [done|].
  destruct H. auto.
Qed.

(** A precondition that does not depend on the state. *)
Lemma holds_pure {A} (H : Prop) P (c : TM S A) Q :
  (H -> holds P c Q) -> holds (fun s => P s /\ H) c Q.
Proof. intros Hc s [Hs HH]. by apply Hc. Qed.

Lemma bind_ok {A B} (c : TM S A) (f : A -> TM S B) s a s' :
  c s = (Ok a, s') -> mbind f c s = f a s'.
Proof. unfold mbind, TM_bind. by intros ->. Qed.

Lemma ASSERT_Ok_inv b (s s' : S) : ASSERT b s = (Ok tt, s') -> b = true /\ s' = s.
Proof. unfold ASSERT. destruct b; [by injection 1|done]. Qed.

Lemma bind_Ok_inv {A B} (c : TM S A) (f : A -> TM S B) s b s' :
  mbind f c s = (Ok b, s') -> exists a s1, c s = (Ok a, s1) /\ f a s1 = (Ok b, s').
Proof. unfold mbind, TM_bind. destruct (c s) as [[a|w] s1]; [eauto|discriminate]. Qed.

End Monad.
