(* ===== verification/Scheduler.v ===== *)
(** * The scheduler of recorded tasks

    [Scheduler.cc]: which task rr runs next while recording.  Tasks are named by
    positive numbers, their addresses.  The scheduler's own data, with the fields
    [priority] and [in_round_robin_queue] of every task, is the record [Scheduler];
    [task_priority_set], a [std::set] of pairs, is a list kept in increasing order.

    Everything else (the other state of the tasks, the kernel, clocks, [random()])
    is the class [Tasks]: a type [world] with the observations and the actions the
    scheduler uses.  Times, which are [double]s in the source, are rationals. *)

From Stdlib Require Import QArith Qround.
From stdpp Require Import base tactics list numbers.
From S2P Require Import Prelude TracerMonad.
Local Open Scope Z_scope.

Inductive Switchable := PREVENT_SWITCH | ALLOW_SWITCH.
Inductive SupportedArch := x86 | x86_64.

(** ** Tasks and kernel *)

(** The result of [waitpid(-1, ...)]. *)
Inductive wait_result :=
| WaitEINTR
| WaitFailed
| WaitChanged (tid : Z) (status : Z).

Class Tasks := mkTasks {
  world : Type;
  (** observations of a task *)
  unstable : world -> Z -> bool;
  stable_exit : world -> Z -> bool;
  is_thread_group_leader : world -> Z -> bool;
  tick_count : world -> Z -> Z;
  is_running : world -> Z -> bool;
  is_dying : world -> Z -> bool;
  (** the number and architecture of a system call in state PROCESSING_SYSCALL *)
  processing_syscall : world -> Z -> option (Z * SupportedArch);
  (** [emulated_stop_type != NOT_STOPPED] *)
  emulated_stop : world -> Z -> bool;
  sigcont_pending : world -> Z -> bool;
  (** actions on a task *)
  emulate_SIGCONT : Z -> world -> world;
  resume_execution : Z -> world -> world;
  wait : Z -> option Q -> world -> world;
  try_wait : Z -> world -> bool * world;
  did_waitpid : Z -> Z -> world -> world;
  clear_unstable : Z -> world -> world;
  (** the session *)
  find_task : world -> Z -> option Z;
  revive_task_for_exec : Z -> world -> Z * world;
  bound_to_cpu : world -> Z;
  (** the operating system *)
  random : world -> Z * world;
  monotonic_now_sec : world -> Q * world;
  sleep_time : Q -> world -> world;
  waitpid_any : bool -> world -> wait_result * world;
  getaffinity : world -> option (list Z);
  nprocessors_conf : world -> Z }.

(** ** State *)

Definition DEFAULT_MAX_TICKS := 500000.
Definition MAX_MAX_TICKS := 1000000000.
Definition INT32_MAX := 2 ^ 31 - 1.

Record Scheduler := mkScheduler {
  task_priority_set : list (Z * Z);
  task_round_robin_queue : list Z;
  priority : Z -> Z;
  in_round_robin_queue : Z -> bool;
  current : option Z;
  current_timeslice_end : Z;
  hpo_refresh_time : Q;
  hpo_start : Q;
  hpo_duration : Q;
  hpo_period : Q;
  priorities_refresh_time : Q;
  max_ticks : Z;
  must_run_task : option Z;
  pretend_affinity_mask : list Z;
  pretend_num_cores : Z;
  always_switch : bool;
  enable_chaos : bool;
  enable_poll : bool;
  last_reschedule_in_hpo : bool }.

Definition set_task_priority_set v (s : Scheduler) : Scheduler :=
  mkScheduler v (task_round_robin_queue s) (priority s) (in_round_robin_queue s)
    (current s) (current_timeslice_end s) (hpo_refresh_time s) (hpo_start s)
    (hpo_duration s) (hpo_period s) (priorities_refresh_time s) (max_ticks s)
    (must_run_task s) (pretend_affinity_mask s) (pretend_num_cores s) (always_switch
    s) (enable_chaos s) (enable_poll s) (last_reschedule_in_hpo s).
Definition set_task_round_robin_queue v (s : Scheduler) : Scheduler :=
  mkScheduler (task_priority_set s) v (priority s) (in_round_robin_queue s) (current
    s) (current_timeslice_end s) (hpo_refresh_time s) (hpo_start s) (hpo_duration s)
    (hpo_period s) (priorities_refresh_time s) (max_ticks s) (must_run_task s)
    (pretend_affinity_mask s) (pretend_num_cores s) (always_switch s) (enable_chaos
    s) (enable_poll s) (last_reschedule_in_hpo s).
Definition set_priority v (s : Scheduler) : Scheduler :=
  mkScheduler (task_priority_set s) (task_round_robin_queue s) v
    (in_round_robin_queue s) (current s) (current_timeslice_end s) (hpo_refresh_time
    s) (hpo_start s) (hpo_duration s) (hpo_period s) (priorities_refresh_time s)
    (max_ticks s) (must_run_task s) (pretend_affinity_mask s) (pretend_num_cores s)
    (always_switch s) (enable_chaos s) (enable_poll s) (last_reschedule_in_hpo s).
Definition set_in_round_robin_queue v (s : Scheduler) : Scheduler :=
  mkScheduler (task_priority_set s) (task_round_robin_queue s) (priority s) v
    (current s) (current_timeslice_end s) (hpo_refresh_time s) (hpo_start s)
    (hpo_duration s) (hpo_period s) (priorities_refresh_time s) (max_ticks s)
    (must_run_task s) (pretend_affinity_mask s) (pretend_num_cores s) (always_switch
    s) (enable_chaos s) (enable_poll s) (last_reschedule_in_hpo s).
Definition set_current v (s : Scheduler) : Scheduler :=
  mkScheduler (task_priority_set s) (task_round_robin_queue s) (priority s)
    (in_round_robin_queue s) v (current_timeslice_end s) (hpo_refresh_time s)
    (hpo_start s) (hpo_duration s) (hpo_period s) (priorities_refresh_time s)
    (max_ticks s) (must_run_task s) (pretend_affinity_mask s) (pretend_num_cores s)
    (always_switch s) (enable_chaos s) (enable_poll s) (last_reschedule_in_hpo s).
Definition set_current_timeslice_end v (s : Scheduler) : Scheduler :=
  mkScheduler (task_priority_set s) (task_round_robin_queue s) (priority s)
    (in_round_robin_queue s) (current s) v (hpo_refresh_time s) (hpo_start s)
    (hpo_duration s) (hpo_period s) (priorities_refresh_time s) (max_ticks s)
    (must_run_task s) (pretend_affinity_mask s) (pretend_num_cores s) (always_switch
    s) (enable_chaos s) (enable_poll s) (last_reschedule_in_hpo s).
Definition set_hpo_refresh_time v (s : Scheduler) : Scheduler :=
  mkScheduler (task_priority_set s) (task_round_robin_queue s) (priority s)
    (in_round_robin_queue s) (current s) (current_timeslice_end s) v (hpo_start s)
    (hpo_duration s) (hpo_period s) (priorities_refresh_time s) (max_ticks s)
    (must_run_task s) (pretend_affinity_mask s) (pretend_num_cores s) (always_switch
    s) (enable_chaos s) (enable_poll s) (last_reschedule_in_hpo s).
Definition set_hpo_start v (s : Scheduler) : Scheduler :=
  mkScheduler (task_priority_set s) (task_round_robin_queue s) (priority s)
    (in_round_robin_queue s) (current s) (current_timeslice_end s) (hpo_refresh_time
    s) v (hpo_duration s) (hpo_period s) (priorities_refresh_time s) (max_ticks s)
    (must_run_task s) (pretend_affinity_mask s) (pretend_num_cores s) (always_switch
    s) (enable_chaos s) (enable_poll s) (last_reschedule_in_hpo s).
Definition set_hpo_duration v (s : Scheduler) : Scheduler :=
  mkScheduler (task_priority_set s) (task_round_robin_queue s) (priority s)
    (in_round_robin_queue s) (current s) (current_timeslice_end s) (hpo_refresh_time
    s) (hpo_start s) v (hpo_period s) (priorities_refresh_time s) (max_ticks s)
    (must_run_task s) (pretend_affinity_mask s) (pretend_num_cores s) (always_switch
    s) (enable_chaos s) (enable_poll s) (last_reschedule_in_hpo s).
Definition set_hpo_period v (s : Scheduler) : Scheduler :=
  mkScheduler (task_priority_set s) (task_round_robin_queue s) (priority s)
    (in_round_robin_queue s) (current s) (current_timeslice_end s) (hpo_refresh_time
    s) (hpo_start s) (hpo_duration s) v (priorities_refresh_time s) (max_ticks s)
    (must_run_task s) (pretend_affinity_mask s) (pretend_num_cores s) (always_switch
    s) (enable_chaos s) (enable_poll s) (last_reschedule_in_hpo s).
Definition set_priorities_refresh_time v (s : Scheduler) : Scheduler :=
  mkScheduler (task_priority_set s) (task_round_robin_queue s) (priority s)
    (in_round_robin_queue s) (current s) (current_timeslice_end s) (hpo_refresh_time
    s) (hpo_start s) (hpo_duration s) (hpo_period s) v (max_ticks s) (must_run_task
    s) (pretend_affinity_mask s) (pretend_num_cores s) (always_switch s)
    (enable_chaos s) (enable_poll s) (last_reschedule_in_hpo s).
Definition set_max_ticks v (s : Scheduler) : Scheduler :=
  mkScheduler (task_priority_set s) (task_round_robin_queue s) (priority s)
    (in_round_robin_queue s) (current s) (current_timeslice_end s) (hpo_refresh_time
    s) (hpo_start s) (hpo_duration s) (hpo_period s) (priorities_refresh_time s) v
    (must_run_task s) (pretend_affinity_mask s) (pretend_num_cores s) (always_switch
    s) (enable_chaos s) (enable_poll s) (last_reschedule_in_hpo s).
Definition set_must_run_task v (s : Scheduler) : Scheduler :=
  mkScheduler (task_priority_set s) (task_round_robin_queue s) (priority s)
    (in_round_robin_queue s) (current s) (current_timeslice_end s) (hpo_refresh_time
    s) (hpo_start s) (hpo_duration s) (hpo_period s) (priorities_refresh_time s)
    (max_ticks s) v (pretend_affinity_mask s) (pretend_num_cores s) (always_switch
    s) (enable_chaos s) (enable_poll s) (last_reschedule_in_hpo s).
Definition set_pretend_affinity_mask v (s : Scheduler) : Scheduler :=
  mkScheduler (task_priority_set s) (task_round_robin_queue s) (priority s)
    (in_round_robin_queue s) (current s) (current_timeslice_end s) (hpo_refresh_time
    s) (hpo_start s) (hpo_duration s) (hpo_period s) (priorities_refresh_time s)
    (max_ticks s) (must_run_task s) v (pretend_num_cores s) (always_switch s)
    (enable_chaos s) (enable_poll s) (last_reschedule_in_hpo s).
Definition set_pretend_num_cores v (s : Scheduler) : Scheduler :=
  mkScheduler (task_priority_set s) (task_round_robin_queue s) (priority s)
    (in_round_robin_queue s) (current s) (current_timeslice_end s) (hpo_refresh_time
    s) (hpo_start s) (hpo_duration s) (hpo_period s) (priorities_refresh_time s)
    (max_ticks s) (must_run_task s) (pretend_affinity_mask s) v (always_switch s)
    (enable_chaos s) (enable_poll s) (last_reschedule_in_hpo s).
Definition set_always_switch v (s : Scheduler) : Scheduler :=
  mkScheduler (task_priority_set s) (task_round_robin_queue s) (priority s)
    (in_round_robin_queue s) (current s) (current_timeslice_end s) (hpo_refresh_time
    s) (hpo_start s) (hpo_duration s) (hpo_period s) (priorities_refresh_time s)
    (max_ticks s) (must_run_task s) (pretend_affinity_mask s) (pretend_num_cores s)
    v (enable_chaos s) (enable_poll s) (last_reschedule_in_hpo s).
Definition set_enable_chaos v (s : Scheduler) : Scheduler :=
  mkScheduler (task_priority_set s) (task_round_robin_queue s) (priority s)
    (in_round_robin_queue s) (current s) (current_timeslice_end s) (hpo_refresh_time
    s) (hpo_start s) (hpo_duration s) (hpo_period s) (priorities_refresh_time s)
    (max_ticks s) (must_run_task s) (pretend_affinity_mask s) (pretend_num_cores s)
    (always_switch s) v (enable_poll s) (last_reschedule_in_hpo s).
Definition set_enable_poll v (s : Scheduler) : Scheduler :=
  mkScheduler (task_priority_set s) (task_round_robin_queue s) (priority s)
    (in_round_robin_queue s) (current s) (current_timeslice_end s) (hpo_refresh_time
    s) (hpo_start s) (hpo_duration s) (hpo_period s) (priorities_refresh_time s)
    (max_ticks s) (must_run_task s) (pretend_affinity_mask s) (pretend_num_cores s)
    (always_switch s) (enable_chaos s) v (last_reschedule_in_hpo s).
Definition set_last_reschedule_in_hpo v (s : Scheduler) : Scheduler :=
  mkScheduler (task_priority_set s) (task_round_robin_queue s) (priority s)
    (in_round_robin_queue s) (current s) (current_timeslice_end s) (hpo_refresh_time
    s) (hpo_start s) (hpo_duration s) (hpo_period s) (priorities_refresh_time s)
    (max_ticks s) (must_run_task s) (pretend_affinity_mask s) (pretend_num_cores s)
    (always_switch s) (enable_chaos s) (enable_poll s) v.

Definition update_at {A} (f : Z -> A) (t : Z) (v : A) : Z -> A := fun u => if u =? t then v else f u.

Section Operations.
Context {T : Tasks}.

(** The scheduler and everything around it. *)
Record sstate := mkS { sch : Scheduler; wd : world }.

Definition with_sch (f : Scheduler -> Scheduler) (s : sstate) : sstate := mkS (f (sch s)) (wd s).

Definition M := TM sstate.
Definition get {A} (f : Scheduler -> A) : M A := ask (fun s => f (sch s)).
Definition put (f : Scheduler -> Scheduler) : M unit := change (with_sch f).
Definition observe {A} (f : world -> A) : M A := ask (fun s => f (wd s)).
Definition act {A} (f : world -> A * world) : M A := fun s =>
  let '(a, w) := f (wd s) in (Ok a, mkS (sch s) w).
Definition act_ (f : world -> world) : M unit := fun s => (Ok tt, mkS (sch s) (f (wd s))).

(** ** [std::set] of (priority, task) *)

Definition pair_lt (x y : Z * Z) : bool := (x.1 <? y.1) || ((x.1 =? y.1) && (x.2 <? y.2)).

Fixpoint pset_insert (x : Z * Z) (l : list (Z * Z)) : list (Z * Z) :=
  match l with
  | [] => [x]
  | y :: l =>
      if pair_lt x y then x :: y :: l
      else if pair_lt y x then y :: pset_insert x l
      else y :: l
  end.

Definition pset_erase (x : Z * Z) (l : list (Z * Z)) : list (Z * Z) :=
  List.filter (fun y => pair_lt x y || pair_lt y x) l.

(** ** Random numbers *)

Definition random_frac : M Q :=
  r ← act random; mret (inject_Z (r mod INT32_MAX) / inject_Z INT32_MAX)%Q.

(** [std::random_shuffle]: exchange element [i] with a random one up to [i]. *)
Definition swap {A} (i j : nat) (l : list A) : list A :=
  match l !! i, l !! j with
  | Some x, Some y => <[i := y]> (<[j := x]> l)
  | _, _ => l
  end.

Fixpoint shuffle_from {A} (i todo : nat) (l : list A) : M (list A) :=
  match todo with
  | O => mret l
  | S todo =>
      r ← act random;
      shuffle_from (S i) todo (swap i (Z.to_nat (r mod (Z.of_nat i + 1))) l)
  end.

Definition random_shuffle {A} (l : list A) : M (list A) := shuffle_from 1 (length l - 1) l.

(** ** Affinity mask *)

Definition CPU_SETSIZE := 1024.

(** A [cpu_set_t] is the list of its members. *)
Definition CPU_SET (cpu : Z) (mask : list Z) : list Z :=
  if (0 <=? cpu) && (cpu <? CPU_SETSIZE) && negb (existsb (Z.eqb cpu) mask)
  then mask ++ [cpu] else mask.

(** [for (i = 0; i < faked; ++i) if (i != cpu)]. *)
Definition other_cpus (cpu faked : Z) : list Z :=
  List.filter (fun i => negb (i =? cpu)) (map Z.of_nat (seq 0 (Z.to_nat faked))).

Definition regenerate_affinity_mask : M unit :=
  mask ← observe getaffinity;
  match mask with
  | None => fail Fatal
  | Some mask =>
      put (set_pretend_affinity_mask mask);;
      cpu ← observe bound_to_cpu;
      if cpu <? 0 then mret tt
      else if negb (existsb (Z.eqb cpu) mask) then mret tt
      else
        conf ← observe nprocessors_conf;
        cores ← get pretend_num_cores;
        others ← random_shuffle (other_cpus cpu (if conf <? cores then cores else conf));
        let n := Z.to_nat (cores - 1) in
        if (length others <? n)%nat then fail BadAccess
        else put (set_pretend_affinity_mask
               (fold_left (fun m c => CPU_SET c m) (take n others) (CPU_SET cpu [])))
  end.

Definition sched_set_enable_chaos (b : bool) : M unit :=
  put (set_enable_chaos b);;
  cores ← (if b then r ← act random; mret (r mod 8 + 1) else mret 1);
  put (set_pretend_num_cores cores);;
  regenerate_affinity_mask.

Definition set_num_cores (cores : Z) : M unit :=
  put (set_pretend_num_cores cores);; regenerate_affinity_mask.

(** [Scheduler::set_max_ticks]. *)
Definition sched_set_max_ticks (ticks : Z) : M unit :=
  ASSERT (ticks <=? MAX_MAX_TICKS);; put (set_max_ticks ticks).

(** ** The two queues *)

Definition get_round_robin_task : M (option Z) := get (fun s => head (task_round_robin_queue s)).

Definition maybe_pop_round_robin_task (t : Z) : M unit :=
  q ← get task_round_robin_queue;
  match q with
  | [] => mret tt
  | h :: q =>
      if negb (t =? h) then mret tt
      else
        put (set_task_round_robin_queue q);;
        put (fun s => set_in_round_robin_queue (update_at (in_round_robin_queue s) t false) s);;
        put (fun s => set_task_priority_set
               (pset_insert (priority s t, t) (task_priority_set s)) s)
  end.

Definition set_priority_of (t v : Z) (s : Scheduler) : Scheduler :=
  set_priority (update_at (priority s) t v) s.

Definition update_task_priority_internal (t value : Z) : M unit :=
  se ← observe (fun w => stable_exit w t);
  chaos ← get enable_chaos;
  let value := if se && negb chaos then -9999 else value in
  p ← get (fun s => priority s t);
  if p =? value then mret tt
  else
    q ← get (fun s => in_round_robin_queue s t);
    if (q : bool) then put (set_priority_of t value)
    else
      put (fun s => set_task_priority_set (pset_erase (priority s t, t) (task_priority_set s)) s);;
      put (set_priority_of t value);;
      put (fun s => set_task_priority_set (pset_insert (priority s t, t) (task_priority_set s)) s).

Definition update_task_priority (t value : Z) : M unit :=
  chaos ← get enable_chaos;
  if (chaos : bool) then mret tt else update_task_priority_internal t value.

Definition in_stable_exit (t : Z) : M unit :=
  p ← get (fun s => priority s t); update_task_priority_internal t p.

Definition low_priority_probability : Q := (1 # 10)%Q.
Definition main_thread_low_priority_probability : Q := (3 # 10)%Q.

Definition choose_random_priority (t : Z) : M Z :=
  leader ← observe (fun w => is_thread_group_leader w t);
  r ← random_frac;
  mret (b2z (negb (Qle_bool
    (if leader : bool then main_thread_low_priority_probability else low_priority_probability) r))).

Definition on_create (t : Z) : M unit :=
  q ← get (fun s => in_round_robin_queue s t);
  ASSERT (negb q);;
  chaos ← get enable_chaos;
  (if chaos : bool then p ← choose_random_priority t; put (set_priority_of t p) else mret tt);;
  put (fun s => set_task_priority_set (pset_insert (priority s t, t) (task_priority_set s)) s).

(** Remove the first occurrence, as [find] followed by [erase] does; erasing the end
    iterator is undefined. *)
Fixpoint erase_first (t : Z) (l : list Z) : option (list Z) :=
  match l with
  | [] => None
  | h :: l => if h =? t then Some l else cons h <$> erase_first t l
  end.

Definition on_destroy (t : Z) : M unit :=
  c ← get current;
  (if bool_decide (c = Some t) then put (set_current None) else mret tt);;
  q ← get (fun s => in_round_robin_queue s t);
  if (q : bool) then
    rr ← get task_round_robin_queue;
    match erase_first t rr with
    | None => fail BadAccess
    | Some rr => put (set_task_round_robin_queue rr)
    end
  else put (fun s => set_task_priority_set (pset_erase (priority s t, t) (task_priority_set s)) s).

Definition expire_timeslice : M unit := put (set_current_timeslice_end 0).

(** The loop of [schedule_one_round_robin] over the priority set. *)
Definition enqueue (t : Z) (x : Z * Z) (s : Scheduler) : Scheduler :=
  if negb (x.2 =? t) && negb (in_round_robin_queue s x.2)
  then set_in_round_robin_queue (update_at (in_round_robin_queue s) x.2 true)
         (set_task_round_robin_queue (task_round_robin_queue s ++ [x.2]) s)
  else s.

Definition schedule_one_round_robin (t : Z) : M unit :=
  c ← get current;
  ASSERT (bool_decide (c = Some t));;
  maybe_pop_round_robin_task t;;
  q ← get (fun s => in_round_robin_queue s t);
  ASSERT (negb q);;
  put (fun s => fold_left (fun s x => enqueue t x s) (task_priority_set s) s);;
  put (set_task_priority_set []);;
  put (fun s => set_task_round_robin_queue (task_round_robin_queue s ++ [t]) s);;
  put (fun s => set_in_round_robin_queue (update_at (in_round_robin_queue s) t true) s);;
  expire_timeslice.

(** ** Is a task runnable? *)

Definition may_be_blocked (w : world) (t : Z) : bool :=
  match processing_syscall w t with Some _ => true | None => false end || emulated_stop w t.

Definition treat_syscall_as_nonblocking (syscallno : Z) (arch : SupportedArch) : bool :=
  match arch with
  | x86 => existsb (Z.eqb syscallno) [158; 1; 252]
  | x86_64 => existsb (Z.eqb syscallno) [24; 60; 231]
  end.

(** The task is in a system call that the scheduler waits for. *)
Definition in_nonblocking_syscall (w : world) (t : Z) : bool :=
  match processing_syscall w t with
  | Some (n, arch) => treat_syscall_as_nonblocking n arch
  | None => false
  end.

(** [bw] is the value of [*by_waitpid] before; the second component of the result is
    its value after. *)
Definition is_task_runnable (t : Z) (bw : bool) : M (bool * bool) :=
  m ← get must_run_task;
  ASSERT (bool_decide (m = None));;
  w ← observe id;
  if unstable w t then mret (true, bw)
  else if negb (may_be_blocked w t) then mret (true, bw)
  else if emulated_stop w t then
    if sigcont_pending w t then
      act_ (emulate_SIGCONT t);;
      act_ (resume_execution t);;
      put (set_must_run_task (Some t));;
      mret (true, true)
    else
      put (set_enable_poll true);;
      act (try_wait t);;
      dying ← observe (fun w => is_dying w t);
      mret (dying, bw)
  else if in_nonblocking_syscall w t then
    act_ (wait t None);;
    put (set_must_run_task (Some t));;
    mret (true, true)
  else
    did ← act (try_wait t);
    if (did : bool) then put (set_must_run_task (Some t));; mret (true, true)
    else mret (false, bw).

(** ** Looking for a task *)

(** The runs of equal priority of the set, in order: [same_priority_start] up to
    [same_priority_end]. *)
Fixpoint groups (l : list (Z * Z)) : list (Z * list Z) :=
  match l with
  | [] => []
  | (p, t) :: l =>
      match groups l with
      | (p', ts) :: gs => if p =? p' then (p, t :: ts) :: gs else (p, [t]) :: (p', ts) :: gs
      | [] => [(p, [t])]
      end
  end.

(** One cycle through [ts] that starts after [t]; [None] when [t] is not there, whose
    iterator would be incremented past the end. *)
Fixpoint cycle_after (t : Z) (before ts : list Z) : option (list Z) :=
  match ts with
  | [] => None
  | u :: ts => if u =? t then Some (ts ++ before ++ [u]) else cycle_after t (before ++ [u]) ts
  end.

(** The first task of the list that is runnable. *)
Fixpoint first_runnable (ts : list Z) (bw : bool) : M (option Z * bool) :=
  match ts with
  | [] => mret (None, bw)
  | t :: ts =>
      '(r, bw) ← is_task_runnable t bw;
      if (r : bool) then mret (Some t, bw) else first_runnable ts bw
  end.

Definition group_order (t : option Z) (g : Z * list Z) : M (list Z) :=
  chaos ← get enable_chaos;
  if (chaos : bool) then random_shuffle g.2
  else match t with
       | None => mret g.2
       | Some t =>
           p ← get (fun s => priority s t);
           if g.1 =? p then
             match cycle_after t [] g.2 with
             | Some order => mret order
             | None => fail BadAccess
             end
           else mret g.2
       end.

Fixpoint find_in_groups (t : option Z) (gs : list (Z * list Z)) (priority_threshold : Z)
    (bw : bool) : M (option Z * bool) :=
  match gs with
  | [] => mret (None, bw)
  | g :: gs =>
      if priority_threshold <? g.1 then mret (None, bw)
      else
        order ← group_order t g;
        '(n, bw) ← first_runnable order bw;
        match n with
        | Some n => mret (Some n, bw)
        | None => find_in_groups t gs priority_threshold bw
        end
  end.

Definition find_next_runnable_task (t : option Z) (priority_threshold : Z)
    : M (option Z * bool) :=
  set ← get task_priority_set;
  find_in_groups t (groups set) priority_threshold false.

(** [get_next_task_with_same_priority]. *)
Definition get_next_task_with_same_priority (t : option Z) : M (option Z) :=
  match t with
  | None => mret None
  | Some t =>
      s ← get id;
      if in_round_robin_queue s t then mret None
      else
        match cycle_after t [] (map snd (List.filter (fun x => x.1 =? priority s t)
                                           (task_priority_set s))) with
        | None => fail FailedAssert
        | Some order => mret (head order)
        end
  end.

(** ** Time *)

Definition very_short_timeslice_probability : Q := (1 # 10)%Q.
Definition very_short_timeslice_max_duration := 100.
Definition short_timeslice_probability : Q := (1 # 10)%Q.
Definition short_timeslice_max_duration := 10000.
Definition priorities_refresh_max_interval : Q := inject_Z 20.
Definition min_high_priority_only_duration : Q := (1 # 1000)%Q.
Definition high_priority_only_duration_steps := 12.
Definition high_priority_only_duration_step_factor := 2.
Definition high_priority_only_fraction : Q := (2 # 10)%Q.

Definition Qltb (x y : Q) : bool := negb (Qle_bool y x).

(** [max_timeslice_duration] for a chaos-mode draw. *)
Definition chaos_timeslice (frac : Q) (max_ticks : Z) : Z :=
  if Qltb frac very_short_timeslice_probability then very_short_timeslice_max_duration
  else if Qltb frac (very_short_timeslice_probability + short_timeslice_probability)%Q
  then short_timeslice_max_duration
  else max_ticks.

(** Remainder by zero raises SIGFPE. *)
Definition setup_new_timeslice : M unit :=
  max ← get max_ticks;
  chaos ← get enable_chaos;
  dur ← (if chaos : bool then f ← random_frac; mret (chaos_timeslice f max) else mret max);
  c ← get current;
  match c with
  | None => fail BadAccess
  | Some c =>
      ticks ← observe (fun w => tick_count w c);
      r ← act random;
      let bound := Z.min max dur in
      if bound =? 0 then fail BadAccess
      else put (set_current_timeslice_end (ticks + r mod bound))
  end.

Fixpoint reset_priorities (ts : list Z) : M unit :=
  match ts with
  | [] => mret tt
  | t :: ts =>
      p ← choose_random_priority t;
      update_task_priority_internal t p;;
      reset_priorities ts
  end.

Definition maybe_reset_priorities (now : Q) : M unit :=
  s ← get id;
  if negb (enable_chaos s) || Qltb now (priorities_refresh_time s) then mret tt
  else
    f ← random_frac;
    put (set_priorities_refresh_time (now + f * priorities_refresh_max_interval)%Q);;
    s ← get id;
    reset_priorities (map snd (task_priority_set s) ++ task_round_robin_queue s).

Definition hpo_duration_at (step : Z) : Q :=
  (min_high_priority_only_duration *
   inject_Z (high_priority_only_duration_step_factor ^ step))%Q.

Definition maybe_reset_high_priority_only_intervals (now : Q) : M unit :=
  s ← get id;
  if negb (enable_chaos s) || Qltb now (hpo_refresh_time s) then mret tt
  else
    r ← act random;
    let duration := hpo_duration_at (r mod high_priority_only_duration_steps) in
    let period := (duration / high_priority_only_fraction)%Q in
    put (set_hpo_duration duration);;
    put (set_hpo_period period);;
    f ← random_frac;
    put (set_hpo_start (now + f * (period - duration))%Q);;
    put (set_hpo_refresh_time
           (now + hpo_duration_at (high_priority_only_duration_steps - 1) /
                  high_priority_only_fraction)%Q).

(** [fmod] of a non-negative number; by zero it is not a number, and comparing it gives
    false. *)
Definition in_high_priority_only_interval (s : Scheduler) (now : Q) : bool :=
  if Qltb now (hpo_start s) then false
  else if Qeq_bool (hpo_period s) 0 then false
  else
    let x := (now - hpo_start s)%Q in
    let rem := (x - hpo_period s * inject_Z (Qfloor (x / hpo_period s)))%Q in
    Qltb rem (hpo_duration s).

Definition treat_as_high_priority (s : Scheduler) (t : Z) : bool :=
  (1 <? length (task_priority_set s))%nat && (priority s t =? 0).

Definition Qmin_ (x y : Q) : Q := if Qltb y x then y else x.

Definition interrupt_after_elapsed_time : M Q :=
  s ← get id;
  delay ← (if enable_chaos s then
    now ← act monotonic_now_sec;
    let delay := inject_Z 3 in
    let delay :=
      if Qeq_bool (hpo_start s) 0 then delay
      else if Qeq_bool (hpo_period s) 0 then delay
      else Qmin_ delay (inject_Z (Qfloor ((now - hpo_start s) / hpo_period s) + 1) * hpo_period s
                        + hpo_start s - now)%Q in
    let delay :=
      if Qeq_bool (hpo_refresh_time s) 0 then delay
      else Qmin_ delay (hpo_refresh_time s - now)%Q in
    mret (if Qeq_bool (priorities_refresh_time s) 0 then delay
          else Qmin_ delay (priorities_refresh_time s - now)%Q)
  else mret (inject_Z 3));
  mret (if Qltb delay (1 # 1000)%Q then (1 # 1000)%Q else delay).

(** ** Rescheduling *)

Record Rescheduled := mkRescheduled {
  interrupted_by_signal : bool;
  by_waitpid : bool;
  started_new_timeslice : bool }.

Definition validate_scheduled_task : M unit :=
  s ← get id;
  ASSERT (match must_run_task s with
          | None => true
          | Some m => bool_decide (current s = Some m)
          end);;
  ASSERT (match task_round_robin_queue s with
          | [] => true
          | h :: _ => bool_decide (current s = Some h)
          end).

(** How the [while (true)] loop ends: the current task carries on, or a [break] with
    [next] and the time of the last round. *)
Inductive choice :=
| CarryOn (bw : bool)
| Next (next : option Z) (bw : bool) (now : Q).

(** The part of a round that considers [current_]. *)
Definition consider_current (c : Z) (bw : bool) (now : Q) : M (choice + bool) :=
  rr ← get_round_robin_task;
  '(higher, bw) ← (match rr with
    | None =>
        p ← get (fun s => priority s c);
        find_next_runnable_task (Some c) (p - 1)
    | Some _ => mret (None, bw)
    end);
  match higher with
  | Some n => mret (inl (Next (Some n) bw now))
  | None =>
      s ← get id;
      w ← observe id;
      '(carry_on, bw) ←
        (if negb (unstable w c) && negb (always_switch s) &&
            (match rr with None => true | Some r => r =? c end) &&
            (treat_as_high_priority s c || negb (last_reschedule_in_hpo s)) &&
            (tick_count w c <? current_timeslice_end s)
         then is_task_runnable c bw else mret (false, bw));
      if (carry_on : bool) then
        validate_scheduled_task;; mret (inl (CarryOn bw))
      else maybe_pop_round_robin_task c;; mret (inr bw)
  end.

Fixpoint choose (fuel : nat) (bw : bool) (now : Q) : M choice :=
  match fuel with
  | O => fail NoFuel
  | S fuel =>
      maybe_reset_high_priority_only_intervals now;;
      put (fun s => set_last_reschedule_in_hpo (in_high_priority_only_interval s now) s);;
      c ← get current;
      r ← (match c with
           | Some c => consider_current c bw now
           | None => mret (inr bw)
           end);
      match r with
      | inl ch => mret ch
      | inr bw =>
          rr ← get_round_robin_task;
          match rr with
          | Some n =>
              '(b, bw) ← is_task_runnable n bw;
              if (b : bool) then mret (Next (Some n) bw now)
              else maybe_pop_round_robin_task n;; choose fuel bw now
          | None =>
              '(n, bw) ← find_next_runnable_task c INT32_MAX;
              s ← get id;
              match n with
              | None => mret (Next None bw now)
              | Some t =>
                  if negb (treat_as_high_priority s t) && last_reschedule_in_hpo s && negb bw
                  then act_ (sleep_time (1 # 1000)%Q);;
                       now ← act monotonic_now_sec;
                       choose fuel bw now
                  else mret (Next (Some t) bw now)
              end
          end
      end
  end.

Definition PTRACE_EVENT_EXEC := 4.
Definition PTRACE_EVENT_EXIT := 6.
Definition ptrace_event_of (status : Z) : Z :=
  let event := Z.land (Z.shiftr status 16) 0xff in
  if event =? 128 then 0 else event.

(** [while (t = get_round_robin_task()) maybe_pop_round_robin_task(t)]. *)
Fixpoint clear_queue (n : nat) : M unit :=
  match n with
  | O => mret tt
  | S n =>
      t ← get_round_robin_task;
      match t with
      | None => mret tt
      | Some t => maybe_pop_round_robin_task t;; clear_queue n
      end
  end.

(** The [do ... while (!next)] loop; [None] when [waitpid] was interrupted. *)
Fixpoint wait_for_task (fuel : nat) : M (option (Z * Z)) :=
  match fuel with
  | O => fail NoFuel
  | S fuel =>
      poll ← get enable_poll;
      r ← act (waitpid_any poll);
      match r with
      | WaitEINTR =>
          m ← get must_run_task; ASSERT (bool_decide (m = None));; mret None
      | WaitFailed => fail Fatal
      | WaitChanged tid status =>
          next ← observe (fun w => find_task w tid);
          next ← (if ptrace_event_of status =? PTRACE_EVENT_EXEC then
            match next with
            | Some t => act_ (clear_unstable t);; mret (Some t)
            | None => t ← act (revive_task_for_exec tid); mret (Some t)
            end
          else mret next);
          match next with
          | Some t => mret (Some (t, status))
          | None => wait_for_task fuel
          end
      end
  end.

(** All tasks are blocked, or the one found is in an unstable exit. *)
Definition wait_for_next (fuel : nat) : M (option Z) :=
  n ← get (fun s => length (task_round_robin_queue s));
  clear_queue n;;
  r ← wait_for_task fuel;
  match r with
  | None => mret None
  | Some (t, status) =>
      w ← observe id;
      ASSERT (unstable w t || may_be_blocked w t || (ptrace_event_of status =? PTRACE_EVENT_EXIT));;
      act_ (did_waitpid t status);;
      put (set_must_run_task (Some t));;
      mret (Some t)
  end.

Definition switch_to (t : Z) (now : Q) : M unit :=
  maybe_reset_high_priority_only_intervals now;;
  put (set_current (Some t));;
  validate_scheduled_task;;
  setup_new_timeslice.

(** The blocked case of [reschedule]; the time is invalid there. *)
Definition wait_and_switch (fuel : nat) (bw : bool) : M Rescheduled :=
  r ← wait_for_next fuel;
  match r with
  | None => mret (mkRescheduled true bw false)
  | Some t => switch_to t (inject_Z (-1));; mret (mkRescheduled false true true)
  end.

(** [reschedule] from the [while (true)] loop on. *)
Definition pick_and_switch (fuel : nat) (now : Q) : M Rescheduled :=
  ch ← choose fuel false now;
  match ch with
  | CarryOn bw => mret (mkRescheduled false bw false)
  | Next next bw now =>
      w ← observe id;
      match t ← next; if unstable w t then None else Some t with
      | Some t => switch_to t now;; mret (mkRescheduled false bw true)
      | None => wait_and_switch fuel bw
      end
  end.

(** The case of a current task that must not be switched away from. *)
Definition keep_unswitchable (c : Z) : M Rescheduled :=
  running ← observe (fun w => is_running w c);
  (if running : bool then
     d ← interrupt_after_elapsed_time; act_ (wait c (Some d))
   else mret tt);;
  validate_scheduled_task;;
  mret (mkRescheduled false running false).

Definition reschedule (fuel : nat) (switchable : Switchable) : M Rescheduled :=
  put (set_must_run_task None);;
  put (set_enable_poll false);;
  now ← act monotonic_now_sec;
  maybe_reset_priorities now;;
  c ← get current;
  match c, switchable with
  | Some c, PREVENT_SWITCH => keep_unswitchable c
  | _, _ => pick_and_switch fuel now
  end.

End Operations.

(** The constructor, before [regenerate_affinity_mask]. *)
Definition initial_scheduler : Scheduler :=
  mkScheduler [] [] (fun _ => 0) (fun _ => false) None 0 0 0 0 0 0 DEFAULT_MAX_TICKS None [] 1
    false false false false.
