(* ===== verification/SchedulerInv.v ===== *)
(** * The scheduler's queues stay consistent

    [Scheduler.h] promises: every task of the session is in [task_priority_set] when
    its [in_round_robin_queue] is false and in [task_round_robin_queue] when it is
    true.  [wf] is that promise, with the order of the set; [tasks_are L] says which
    tasks there are.  Every operation keeps it, and from a state in which it holds
    [reschedule] uses no end iterator and fails none of its assertions. *)

From Stdlib Require Import Permutation FinFun QArith Qround.
From stdpp Require Import base tactics list numbers sorting.
From S2P Require Import Prelude TracerMonad Scheduler.
Local Open Scope Z_scope.

(** ** The affinity mask reported to the program

    [Scheduler::regenerate_affinity_mask]: which processors the program is told it may use. *)

(** ** Shuffling *)

Lemma swap_permutation {A} i j (l : list A) : swap i j l ≡ₚ l.
Proof.
  unfold swap. destruct (l !! i) as [x|] eqn:Hi; [|done]. destruct (l !! j) as [y|] eqn:Hj; [|done].
  destruct (decide (i = j)) as [->|Hne].
  { rewrite list_insert_insert_eq. rewrite list_insert_id by done. done. }
  apply Permutation_inj. split; [by rewrite !length_insert|].
  exists (fun k => if decide (k = i) then j else if decide (k = j) then i else k). split.
  - intros k1 k2 H. repeat case_decide; congruence.
  - intros k. pose proof (lookup_lt_Some _ _ _ Hi). pose proof (lookup_lt_Some _ _ _ Hj).
    repeat case_decide; subst.
    + rewrite list_lookup_insert_eq by (by rewrite length_insert). done.
    + rewrite list_lookup_insert_ne by done. by rewrite list_lookup_insert_eq.
    + by rewrite !list_lookup_insert_ne by done.
Qed.

Section Affinity.
Context {T : Tasks}.

Lemma shuffle_from_spec {A} todo i (l : list A) s :
  exists l' w, shuffle_from i todo l s = (Ok l', mkS (sch s) w) /\ l' ≡ₚ l.
Proof.
  revert i l s. induction todo as [|todo IH]; intros i l s; cbn [shuffle_from].
  - exists l, (wd s). by destruct s.
  - unfold mbind, TM_bind, act. destruct (random (wd s)) as [r w]. cbn.
    edestruct IH as (l' & w' & -> & Hp). exists l', w'. split; [done|]. rewrite Hp. apply swap_permutation.
Qed.

Lemma random_shuffle_spec {A} (l : list A) s :
  exists l' w, random_shuffle l s = (Ok l', mkS (sch s) w) /\ l' ≡ₚ l.
Proof. apply shuffle_from_spec. Qed.

(** ** The processors other than the one rr is bound to *)

Lemma elem_of_other_cpus cpu faked c : c ∈ other_cpus cpu faked <-> 0 <= c < faked /\ c <> cpu.
Proof.
  unfold other_cpus. rewrite list_elem_of_In, filter_In, negb_true_iff, Z.eqb_neq, in_map_iff.
  apply and_iff_compat_r. split.
  - intros (n & <- & Hn%in_seq). lia.
  - intros Hc. exists (Z.to_nat c). split; [lia|]. apply in_seq. lia.
Qed.

Lemma NoDup_other_cpus cpu faked : NoDup (other_cpus cpu faked).
Proof.
  apply NoDup_ListNoDup, List.NoDup_filter, Injective_map_NoDup; [intros ? ?; lia|apply seq_NoDup].
Qed.

Lemma length_other_cpus cpu faked : faked - 1 <= Z.of_nat (length (other_cpus cpu faked)).
Proof.
  destruct (Z.le_gt_cases faked 0); [lia|].
  set (all := map Z.of_nat (seq 0 (Z.to_nat faked))).
  assert (Z.of_nat (length all) = faked) as Hall by (unfold all; rewrite length_map, length_seq; lia).
  assert (incl all (cpu :: other_cpus cpu faked)) as Hincl.
  { intros c Hc. destruct (Z.eq_dec c cpu) as [->|Hne]; [by left|]. right.
    apply list_elem_of_In, elem_of_other_cpus. unfold all in Hc.
    apply in_map_iff in Hc as (n & <- & Hn%in_seq). lia. }
  apply NoDup_incl_length in Hincl; [cbn in Hincl; lia|].
  apply Injective_map_NoDup; [intros ? ?; lia|apply seq_NoDup].
Qed.

Lemma CPU_SET_fresh c mask : 0 <= c < CPU_SETSIZE -> c ∉ mask -> CPU_SET c mask = mask ++ [c].
Proof.
  unfold CPU_SET, CPU_SETSIZE. intros Hc Hn.
  destruct (Z.leb_spec 0 c); [|lia]. destruct (Z.ltb_spec c 1024); [|lia]. cbn.
  destruct (existsb (Z.eqb c) mask) eqn:He; [|done].
  apply existsb_exists in He as (x & Hx & ->%Z.eqb_eq). by apply list_elem_of_In in Hx.
Qed.

Lemma fold_CPU_SET l mask :
  NoDup l -> (forall c, c ∈ l -> 0 <= c < CPU_SETSIZE /\ c ∉ mask) ->
  fold_left (fun m c => CPU_SET c m) l mask = mask ++ l.
Proof.
  intros Hl. revert mask. induction Hl as [|c l Hc Hl IH]; intros mask Hm; cbn [fold_left].
  { by rewrite app_nil_r. }
  rewrite CPU_SET_fresh by (apply Hm; left). rewrite IH, <- app_assoc; [done|].
  intros x Hx. split; [apply Hm; by right|]. intros [Hx'| ->%list_elem_of_singleton]%elem_of_app; [|done].
  destruct (Hm x) as [_ ?]; [by right|done].
Qed.

(** ** The mask *)

(** The number of processors the mask is drawn from. *)
Definition faked_num_cpus (s : sstate) : Z :=
  if nprocessors_conf (wd s) <? pretend_num_cores (sch s) then pretend_num_cores (sch s)
  else nprocessors_conf (wd s).

(** Nothing but the mask changes, and the draw from [other_cpus] stays in range. *)
Lemma regenerate_runs s :
  match getaffinity (wd s) with
  | None => regenerate_affinity_mask s = (Err Fatal, s)
  | Some mask => exists m w,
      regenerate_affinity_mask s = (Ok tt, mkS (set_pretend_affinity_mask m (sch s)) w) /\
      (m = mask \/ exists l, l ≡ₚ other_cpus (bound_to_cpu (wd s)) (faked_num_cpus s) /\
         m = fold_left (fun m c => CPU_SET c m) (take (Z.to_nat (pretend_num_cores (sch s) - 1)) l)
               (CPU_SET (bound_to_cpu (wd s)) [])) /\
      (0 <= bound_to_cpu (wd s) -> bound_to_cpu (wd s) ∈ mask -> exists l,
         l ≡ₚ other_cpus (bound_to_cpu (wd s)) (faked_num_cpus s) /\
         m = fold_left (fun m c => CPU_SET c m) (take (Z.to_nat (pretend_num_cores (sch s) - 1)) l)
               (CPU_SET (bound_to_cpu (wd s)) []))
  end.
Proof.
  unfold regenerate_affinity_mask. destruct (getaffinity (wd s)) as [mask|] eqn:Hg.
  2: { by rewrite (bind_ok (observe getaffinity) _ s None s) by (unfold observe, ask; by rewrite Hg). }
  rewrite (bind_ok (observe getaffinity) _ s (Some mask) s) by (unfold observe, ask; by rewrite Hg).
  set (s1 := mkS (set_pretend_affinity_mask mask (sch s)) (wd s)).
  rewrite (bind_ok (put _) _ s tt s1 eq_refl).
  rewrite (bind_ok (observe bound_to_cpu) _ s1 (bound_to_cpu (wd s)) s1 eq_refl).
  set (cpu := bound_to_cpu (wd s)). destruct (Z.ltb_spec cpu 0).
  { exists mask, (wd s). split_and!; [done|by left|lia]. }
  destruct (existsb (Z.eqb cpu) mask) eqn:He; cbn [negb].
  2: { exists mask, (wd s). split_and!; [done|by left|]. intros _ Hin%list_elem_of_In.
       enough (existsb (Z.eqb cpu) mask = true) by congruence.
       apply existsb_exists. exists cpu. split; [done|apply Z.eqb_refl]. }
  rewrite (bind_ok (observe nprocessors_conf) _ s1 (nprocessors_conf (wd s)) s1 eq_refl).
  rewrite (bind_ok (get pretend_num_cores) _ s1 (pretend_num_cores (sch s)) s1 eq_refl).
  fold (faked_num_cpus s).
  destruct (random_shuffle_spec (other_cpus cpu (faked_num_cpus s)) s1) as (l & w & E & Hl).
  rewrite (bind_ok _ _ _ _ _ E). pose proof (length_other_cpus cpu (faked_num_cpus s)) as Hlen.
  assert (pretend_num_cores (sch s) <= faked_num_cpus s) as Hf.
  { unfold faked_num_cpus. destruct (Z.ltb_spec (nprocessors_conf (wd s)) (pretend_num_cores (sch s))); lia. }
  destruct (Nat.ltb_spec (length l) (Z.to_nat (pretend_num_cores (sch s) - 1))) as [Hlt|_].
  { rewrite Hl in Hlt. lia. }
  eexists _, w. split; [reflexivity|]. split; [right|intros _ _]; by exists l.
Qed.

(** The affinity mask reported to the program holds the processor rr is bound to
    and as many distinct processors as rr pretends to have, real ones while
    there are enough of them. *)
Theorem affinity_mask_spec s mask :
  let cpu := bound_to_cpu (wd s) in
  getaffinity (wd s) = Some mask -> 0 <= cpu < CPU_SETSIZE -> cpu ∈ mask ->
  1 <= pretend_num_cores (sch s) -> faked_num_cpus s <= CPU_SETSIZE ->
  exists m w, regenerate_affinity_mask s = (Ok tt, mkS (set_pretend_affinity_mask m (sch s)) w) /\
    cpu ∈ m /\ NoDup m /\ Z.of_nat (length m) = pretend_num_cores (sch s) /\
    forall c, c ∈ m -> c = cpu \/ 0 <= c < faked_num_cpus s.
Proof.
  intros cpu Hg Hcpu Hin Hcores Hfaked. pose proof (regenerate_runs s) as Hr. rewrite Hg in Hr.
  destruct Hr as (m & w & Hrun & _ & Hm). destruct (Hm ltac:(lia) Hin) as (l & Hl & ->). fold cpu in Hl, Hrun.
  set (n := Z.to_nat (pretend_num_cores (sch s) - 1)).
  pose proof (length_other_cpus cpu (faked_num_cpus s)) as Hlen. rewrite <- (Permutation_length Hl) in Hlen.
  assert (pretend_num_cores (sch s) <= faked_num_cpus s) as Hf.
  { unfold faked_num_cpus. destruct (Z.ltb_spec (nprocessors_conf (wd s)) (pretend_num_cores (sch s))); lia. }
  assert (forall c, c ∈ take n l -> 0 <= c < faked_num_cpus s /\ c <> cpu) as Hc.
  { intros c Hx. apply elem_of_take in Hx as (i & Hi & _). apply list_elem_of_lookup_2 in Hi. rewrite Hl in Hi.
    by apply elem_of_other_cpus. }
  assert (NoDup (take n l)) as Hnd.
  { apply (sublist_NoDup _ l); [|apply sublist_take]. rewrite Hl. apply NoDup_other_cpus. }
  rewrite (CPU_SET_fresh cpu []) in Hrun by (done || apply not_elem_of_nil). cbn [app] in Hrun. fold n in Hrun.
  rewrite fold_CPU_SET in Hrun; [|done|].
  2: { intros c Hx. destruct (Hc c Hx). split; [lia|]. by intros ?%list_elem_of_singleton. }
  eexists _, w. split; [exact Hrun|]. split_and!.
  - by left.
  - cbn. constructor; [|done]. intros Hx. by destruct (Hc cpu Hx).
  - cbn [app length]. rewrite length_take. lia.
  - intros c [->|Hx]%elem_of_cons; [by left|]. right. by apply Hc.
Qed.

End Affinity.

(** ** The ordered set *)

Definition lt_pair (x y : Z * Z) : Prop := pair_lt x y = true.

Lemma pair_lt_spec x y : lt_pair x y <-> x.1 < y.1 \/ (x.1 = y.1 /\ x.2 < y.2).
Proof. unfold lt_pair, pair_lt. rewrite orb_true_iff, andb_true_iff, !Z.ltb_lt, Z.eqb_eq. done. Qed.

Lemma pair_lt_total x y : pair_lt x y = false -> pair_lt y x = false -> x = y.
Proof.
  intros H1 H2. destruct x as [p t], y as [q u].
  assert (~ lt_pair (p, t) (q, u)) as N1 by (unfold lt_pair; congruence).
  assert (~ lt_pair (q, u) (p, t)) as N2 by (unfold lt_pair; congruence).
  rewrite pair_lt_spec in N1, N2. cbn in *. f_equal; lia.
Qed.

Lemma pair_lt_irrefl x : pair_lt x x = false.
Proof. apply not_true_iff_false. change (~ lt_pair x x). rewrite pair_lt_spec. lia. Qed.

Lemma pair_lt_trans x y z : lt_pair x y -> lt_pair y z -> lt_pair x z.
Proof. rewrite !pair_lt_spec. lia. Qed.

Abbreviation sorted := (StronglySorted lt_pair).

Lemma elem_of_pset_insert x y l : y ∈ pset_insert x l <-> y = x \/ y ∈ l.
Proof.
  induction l as [|z l IH]; cbn [pset_insert].
  - rewrite list_elem_of_singleton, elem_of_nil. tauto.
  - destruct (pair_lt x z) eqn:H1; [by rewrite !elem_of_cons|].
    destruct (pair_lt z x) eqn:H2; rewrite !elem_of_cons; [rewrite IH; tauto|].
    pose proof (pair_lt_total _ _ H1 H2). subst. tauto.
Qed.

Lemma sorted_pset_insert x l : sorted l -> sorted (pset_insert x l).
Proof.
  induction 1 as [|z l Hl IH Hz]; cbn [pset_insert]; [by repeat constructor|].
  destruct (pair_lt x z) eqn:H1.
  - constructor; [by constructor|]. constructor; [done|].
    eapply Forall_impl; [exact Hz|]. intros y. by apply pair_lt_trans.
  - destruct (pair_lt z x) eqn:H2; [|by constructor].
    constructor; [done|]. apply Forall_forall. intros y [->|Hy]%elem_of_pset_insert; [done|].
    by eapply Forall_forall in Hz.
Qed.

Lemma elem_of_pset_erase x y l : y ∈ pset_erase x l <-> y ∈ l /\ y <> x.
Proof.
  unfold pset_erase. rewrite !list_elem_of_In, filter_In, orb_true_iff.
  apply and_iff_compat_l. split.
  - intros H ->. rewrite pair_lt_irrefl in H. by destruct H.
  - intros Hne. destruct (pair_lt x y) eqn:H1; [by left|].
    destruct (pair_lt y x) eqn:H2; [by right|]. by destruct Hne; apply pair_lt_total.
Qed.

Lemma sorted_filter f l : sorted l -> sorted (List.filter f l).
Proof.
  induction 1 as [|z l Hl IH Hz]; cbn; [constructor|]. destruct (f z); [|done].
  constructor; [done|]. apply Forall_forall. intros y Hy.
  apply list_elem_of_In, filter_In in Hy as [Hy _]. apply list_elem_of_In in Hy.
  by eapply Forall_forall in Hz.
Qed.

(** ** The invariant *)

Record wf (s : Scheduler) : Prop := mkWf {
  wf_sorted : sorted (task_priority_set s);
  wf_set : forall p t, (p, t) ∈ task_priority_set s ->
    priority s t = p /\ in_round_robin_queue s t = false;
  wf_queue : forall t, t ∈ task_round_robin_queue s -> in_round_robin_queue s t = true;
  wf_nodup : NoDup (task_round_robin_queue s) }.

(** [t] is a task of the session. *)
Definition member (s : Scheduler) (t : Z) : Prop :=
  t ∈ map snd (task_priority_set s) \/ t ∈ task_round_robin_queue s.

Definition tasks_are (L : list Z) (s : Scheduler) : Prop := forall t, member s t <-> t ∈ L.

Definition inv (L : list Z) (s : Scheduler) : Prop :=
  wf s /\ tasks_are L s /\ (forall c, current s = Some c -> c ∈ L).

Lemma elem_of_map_snd (l : list (Z * Z)) t : t ∈ map snd l <-> exists p, (p, t) ∈ l.
Proof.
  rewrite list_elem_of_fmap. split.
  - intros ([p u] & -> & H). eauto.
  - intros [p H]. by exists (p, t).
Qed.

(** A task in the set is there with its own priority. *)
Lemma in_set s t : wf s -> t ∈ map snd (task_priority_set s) <->
  (priority s t, t) ∈ task_priority_set s.
Proof.
  intros Hwf. rewrite elem_of_map_snd. split; [|eauto].
  intros [p Hp]. by destruct (wf_set s Hwf p t Hp) as [-> _].
Qed.

Lemma member_flag s t : wf s -> member s t ->
  if in_round_robin_queue s t then t ∈ task_round_robin_queue s
  else (priority s t, t) ∈ task_priority_set s.
Proof.
  intros Hwf [Hm|Hm].
  - apply in_set in Hm; [|done]. by destruct (wf_set s Hwf _ _ Hm) as [_ ->].
  - by rewrite (wf_queue s Hwf t Hm).
Qed.

(** No task is in both places. *)
Lemma set_queue_disjoint s t : wf s ->
  (priority s t, t) ∈ task_priority_set s -> t ∉ task_round_robin_queue s.
Proof.
  intros Hwf Hs Hq. destruct (wf_set s Hwf _ _ Hs) as [_ Hf].
  rewrite (wf_queue s Hwf t Hq) in Hf. done.
Qed.

Lemma update_at_eq {A} (f : Z -> A) t v : update_at f t v t = v.
Proof. unfold update_at. by rewrite Z.eqb_refl. Qed.

Lemma update_at_ne {A} (f : Z -> A) t v u : u <> t -> update_at f t v u = f u.
Proof. intros. unfold update_at. by rewrite (proj2 (Z.eqb_neq u t)). Qed.

(** ** Pure effects of the queue operations *)

(** Popping the head of the round-robin queue. *)
Definition pop_front (t : Z) (q : list Z) (s : Scheduler) : Scheduler :=
  set_task_priority_set (pset_insert (priority s t, t) (task_priority_set s))
    (set_in_round_robin_queue (update_at (in_round_robin_queue s) t false)
       (set_task_round_robin_queue q s)).

Lemma inv_pop_front L s t q :
  inv L s -> task_round_robin_queue s = t :: q -> inv L (pop_front t q s).
Proof.
  intros (Hwf & HL & Hc) Hq. destruct Hwf as [Hs Hset Hqu Hnd]. rewrite Hq in Hqu, Hnd.
  apply NoDup_cons in Hnd as [Htq Hnd]. split; [|split; [|done]].
  - split; cbn; [by apply sorted_pset_insert| | |done].
    + intros p u [[= -> ->]|Hu]%elem_of_pset_insert; [by rewrite update_at_eq|].
      destruct (Hset _ _ Hu) as [-> Hf]. split; [done|].
      unfold update_at. by destruct (u =? t).
    + intros u Hu. rewrite update_at_ne by (intros ->; done). apply Hqu. by right.
  - intros u. rewrite <- (HL u). unfold member. cbn. rewrite Hq, elem_of_cons, !elem_of_map_snd.
    setoid_rewrite elem_of_pset_insert. split.
    + intros [[p [[= _ ->]|Hp]]|Hu]; eauto.
    + intros [[p Hp]|[->|Hu]]; eauto.
Qed.

(** A new priority for a task outside the round-robin queue. *)
Definition move_priority (t v : Z) (s : Scheduler) : Scheduler :=
  let s1 := set_task_priority_set (pset_erase (priority s t, t) (task_priority_set s)) s in
  let s2 := set_priority_of t v s1 in
  set_task_priority_set (pset_insert (priority s2 t, t) (task_priority_set s2)) s2.

Lemma inv_move_priority L s t v :
  inv L s -> t ∈ L -> in_round_robin_queue s t = false -> inv L (move_priority t v s).
Proof.
  intros (Hwf & HL & Hc) Ht Hf. pose proof Hwf as [Hs Hset Hqu Hnd].
  assert ((priority s t, t) ∈ task_priority_set s) as Hin.
  { apply HL in Ht. apply member_flag in Ht; [|done]. by rewrite Hf in Ht. }
  split; [|split; [|done]].
  - split; cbn; [by apply sorted_pset_insert, sorted_filter| |done|done].
    intros p u. rewrite elem_of_pset_insert, elem_of_pset_erase, update_at_eq.
    intros [[= -> ->]|[Hu Hne]]; [by rewrite update_at_eq|].
    destruct (Hset _ _ Hu) as [<- Hfu]. rewrite update_at_ne; [done|].
    intros ->. done.
  - intros u. rewrite <- (HL u). unfold member. cbn. rewrite update_at_eq, !elem_of_map_snd.
    setoid_rewrite elem_of_pset_insert. setoid_rewrite elem_of_pset_erase. split.
    + intros [[p [[= -> ->]|[Hp _]]]|Hu]; eauto.
    + intros [[p Hp]|Hu]; [|by right]. left. destruct (decide (u = t)) as [->|Hne]; [eauto|].
      exists p. right. split; [done|]. congruence.
Qed.

Lemma inv_queued_priority L s t v :
  inv L s -> in_round_robin_queue s t = true -> inv L (set_priority_of t v s).
Proof.
  intros (Hwf & HL & Hc) Hf. destruct Hwf as [Hs Hset Hqu Hnd].
  split; [|by split]. split; cbn; auto. intros p u Hu. destruct (Hset _ _ Hu) as [<- Hfu].
  rewrite update_at_ne; [done|]. intros ->. congruence.
Qed.

(** A new task. *)
Definition add_task (t : Z) (s : Scheduler) : Scheduler :=
  set_task_priority_set (pset_insert (priority s t, t) (task_priority_set s)) s.

Lemma inv_add_task L s t :
  inv L s -> t ∉ L -> in_round_robin_queue s t = false -> inv (t :: L) (add_task t s).
Proof.
  intros (Hwf & HL & Hc) Ht Hf. destruct Hwf as [Hs Hset Hqu Hnd]. split; [|split].
  - split; cbn; [by apply sorted_pset_insert| |done|done].
    intros p u. rewrite elem_of_pset_insert. intros [[= -> ->]|Hu]; auto.
  - intros u. rewrite elem_of_cons, <- (HL u). unfold member. cbn.
    rewrite !elem_of_map_snd. setoid_rewrite elem_of_pset_insert. split.
    + intros [[p [[= _ ->]|Hp]]|Hu]; eauto.
    + intros [->|[[p Hp]|Hu]]; eauto.
  - intros c. cbn. intros Hcc. apply elem_of_cons. right. by apply Hc.
Qed.

(** Fields of objects that are not tasks of the session do not matter. *)
Lemma inv_foreign_priority L s t v : inv L s -> t ∉ L -> inv L (set_priority_of t v s).
Proof.
  intros (Hwf & HL & Hc) Ht. destruct Hwf as [Hs Hset Hqu Hnd]. split; [|by split].
  split; cbn; auto. intros p u Hu. rewrite update_at_ne; [by apply Hset|].
  intros ->; apply Ht, HL; left; apply elem_of_map_snd; eauto.
Qed.

Lemma inv_foreign_flag L s t b :
  inv L s -> t ∉ L -> inv L (set_in_round_robin_queue (update_at (in_round_robin_queue s) t b) s).
Proof.
  intros (Hwf & HL & Hc) Ht. destruct Hwf as [Hs Hset Hqu Hnd]. split; [|by split].
  split; cbn; auto.
  - intros p u Hu. rewrite update_at_ne; [by apply Hset|].
    intros ->; apply Ht, HL; left; apply elem_of_map_snd; eauto.
  - intros u Hu. rewrite update_at_ne; [by apply Hqu|]. intros ->. apply Ht, HL. by right.
Qed.

(** A task is removed. *)
Definition drop_current (t : Z) (s : Scheduler) : Scheduler :=
  if bool_decide (current s = Some t) then set_current None s else s.

Lemma erase_first_spec t l : NoDup l -> t ∈ l ->
  exists l', erase_first t l = Some l' /\ NoDup l' /\ forall u, u ∈ l' <-> u ∈ l /\ u <> t.
Proof.
  induction l as [|h l IH]; intros Hnd Ht; [by apply elem_of_nil in Ht|].
  apply NoDup_cons in Hnd as [Hh Hnd]. cbn [erase_first].
  destruct (Z.eqb_spec h t) as [->|Hne].
  - exists l. split; [done|]. split; [done|]. intros u. rewrite elem_of_cons.
    split; [|intros [[->|?] ?]; done]. intros Hu. split; [by right|]. intros ->. done.
  - apply elem_of_cons in Ht as [->|Ht]; [done|].
    destruct (IH Hnd Ht) as (l' & -> & Hnd' & Hl'). exists (h :: l'). split; [done|]. split.
    + apply NoDup_cons. split; [|done]. rewrite Hl'. tauto.
    + intros u. rewrite !elem_of_cons, Hl'. split; [|tauto].
      intros [->|[? ?]]; [|tauto]. split; [by left|done].
Qed.

Lemma tasks_are_drop L s s' t :
  tasks_are L s -> (forall u, member s' u <-> member s u /\ u <> t) ->
  tasks_are (List.filter (fun u => negb (u =? t)) L) s'.
Proof.
  intros HL Hm u. rewrite Hm, (HL u), !list_elem_of_In, filter_In, negb_true_iff, Z.eqb_neq. done.
Qed.

Lemma current_after_drop L s t c :
  (forall c, current s = Some c -> c ∈ L) -> current (drop_current t s) = Some c ->
  c ∈ List.filter (fun u => negb (u =? t)) L.
Proof.
  intros Hc. unfold drop_current. case_bool_decide as Hct; cbn; [done|].
  intros Hcc. apply list_elem_of_In, filter_In. split; [by apply list_elem_of_In, Hc|].
  apply negb_true_iff, Z.eqb_neq. congruence.
Qed.

Lemma inv_remove_queued L s t q :
  inv L s -> (forall u, u ∈ q <-> u ∈ task_round_robin_queue s /\ u <> t) -> NoDup q ->
  in_round_robin_queue s t = true ->
  inv (List.filter (fun u => negb (u =? t)) L) (set_task_round_robin_queue q (drop_current t s)).
Proof.
  intros (Hwf & HL & Hc) Hq Hnd Hf. destruct Hwf as [Hs Hset Hqu Hnd'].
  split; [|split].
  - unfold drop_current. case_bool_decide; split; cbn; auto; intros u [Hu _]%Hq; auto.
  - apply (tasks_are_drop L s); [done|]. intros u. unfold member, drop_current.
    assert (u ∈ map snd (task_priority_set s) -> u <> t).
    { intros Hu ->. apply elem_of_map_snd in Hu as [p Hp]. destruct (Hset _ _ Hp). congruence. }
    case_bool_decide; cbn; rewrite Hq; tauto.
  - intros c Hcc. eapply current_after_drop; eauto.
Qed.

Lemma inv_remove_from_set L s t :
  inv L s -> t ∈ L -> in_round_robin_queue s t = false ->
  inv (List.filter (fun u => negb (u =? t)) L)
    (let s := drop_current t s in
     set_task_priority_set (pset_erase (priority s t, t) (task_priority_set s)) s).
Proof.
  intros (Hwf & HL & Hc) Ht Hf. destruct Hwf as [Hs Hset Hqu Hnd']. cbv zeta.
  assert (priority (drop_current t s) = priority s /\
    task_priority_set (drop_current t s) = task_priority_set s /\
    in_round_robin_queue (drop_current t s) = in_round_robin_queue s /\
    task_round_robin_queue (drop_current t s) = task_round_robin_queue s) as (E1 & E2 & E3 & E4).
  { unfold drop_current. by case_bool_decide. }
  split; [|split].
  - split; cbn; rewrite ?E1, ?E2, ?E3, ?E4; auto; [by apply sorted_filter|].
    intros p u [Hu _]%elem_of_pset_erase. auto.
  - apply (tasks_are_drop L s); [done|]. intros u. unfold member. cbn.
    rewrite E1, E2, E4, !elem_of_map_snd. setoid_rewrite elem_of_pset_erase. split.
    + intros [[p [Hp Hne]]|Hu].
      * split; [by left; exists p|]. intros ->. destruct (Hset _ _ Hp) as [<- _]. done.
      * split; [by right|]. intros ->. rewrite (Hqu _ Hu) in Hf. done.
    + intros [[[p Hp]|Hu] Hne]; [left|by right]. exists p. split; [done|]. congruence.
  - intros c. cbn. by apply (current_after_drop L s t).
Qed.

(** ** One round of round-robin scheduling *)

Definition others (t : Z) (l : list (Z * Z)) : list Z :=
  List.filter (fun u => negb (u =? t)) (map snd l).

Lemma elem_of_others t l u : u ∈ others t l <-> u ∈ map snd l /\ u <> t.
Proof. unfold others. by rewrite !list_elem_of_In, filter_In, negb_true_iff, Z.eqb_neq. Qed.

(** The tasks of a well-formed set are distinct. *)
Lemma NoDup_set s : wf s -> NoDup (map snd (task_priority_set s)).
Proof.
  intros [Hs Hset _ _].
  assert (forall x y, x ∈ task_priority_set s -> y ∈ task_priority_set s -> x.2 = y.2 -> x = y) as Hinj.
  { intros [p t] [q u] Hx Hy Heq. cbn in Heq. subst.
    destruct (Hset _ _ Hx) as [<- _], (Hset _ _ Hy) as [<- _]. done. }
  clear Hset. induction Hs as [|x l Hl IH Hx]; cbn; [constructor|].
  constructor; [|apply IH; intros; apply Hinj; try (by right); done].
  rewrite list_elem_of_fmap. intros (y & Heq & Hy).
  assert (x = y) as <- by (apply Hinj; [left|by right|done]).
  pose proof (proj1 (Forall_forall _ _) Hx x Hy) as Hlt. unfold lt_pair in Hlt.
  by rewrite pair_lt_irrefl in Hlt.
Qed.

Lemma enqueue_all t l s :
  NoDup (map snd l) -> (forall u, u ∈ map snd l -> in_round_robin_queue s u = false) ->
  let s' := fold_left (fun s x => enqueue t x s) l s in
  task_round_robin_queue s' = task_round_robin_queue s ++ others t l /\
  (forall u, in_round_robin_queue s' u =
     in_round_robin_queue s u || bool_decide (u ∈ others t l)) /\
  task_priority_set s' = task_priority_set s /\ priority s' = priority s /\
  current s' = current s.
Proof.
  revert s. induction l as [|x l IH]; intros s Hnd Hf; cbn [fold_left].
  - cbn. rewrite app_nil_r. split_and!; auto. intros u. by rewrite orb_false_r.
  - cbn in Hnd. apply NoDup_cons in Hnd as [Hx Hnd].
    assert (in_round_robin_queue s x.2 = false) as Hfx by (apply Hf; cbn; left).
    unfold enqueue at 2 4 6 8 10. rewrite Hfx. cbn [negb]. rewrite andb_true_r.
    unfold others. cbn [map List.filter]. destruct (Z.eqb_spec x.2 t) as [Heq|Hne]; cbn [negb].
    + apply IH; [done|]. intros u Hu. apply Hf. cbn. by right.
    + destruct (IH (set_in_round_robin_queue (update_at (in_round_robin_queue s) x.2 true)
                     (set_task_round_robin_queue (task_round_robin_queue s ++ [x.2]) s)))
        as (E1 & E2 & E3 & E4 & E5); [done| |].
      { intros u Hu. cbn. rewrite update_at_ne by (intros ->; done). apply Hf. cbn. by right. }
      split_and!; [|intros u|by rewrite E3|by rewrite E4|by rewrite E5].
      * rewrite E1. cbn. by rewrite <- app_assoc.
      * rewrite E2. cbn. unfold update_at. destruct (Z.eqb_spec u x.2) as [->|Hu].
        -- rewrite Hfx. cbn. symmetry. apply bool_decide_eq_true. left.
        -- f_equal. apply bool_decide_ext. rewrite elem_of_cons. unfold others. tauto.
Qed.

(** The state [schedule_one_round_robin] leaves, when [t] is in the set. *)
Definition start_round (t : Z) (s : Scheduler) : Scheduler :=
  let s := fold_left (fun s x => enqueue t x s) (task_priority_set s) s in
  let s := set_task_priority_set [] s in
  let s := set_task_round_robin_queue (task_round_robin_queue s ++ [t]) s in
  let s := set_in_round_robin_queue (update_at (in_round_robin_queue s) t true) s in
  set_current_timeslice_end 0 s.

Lemma inv_start_round L s t :
  inv L s -> t ∈ L -> in_round_robin_queue s t = false -> inv L (start_round t s) /\
  task_round_robin_queue (start_round t s) =
    task_round_robin_queue s ++ others t (task_priority_set s) ++ [t].
Proof.
  intros (Hwf & HL & Hc) Ht Hft. pose proof Hwf as [Hs Hset Hqu Hnd].
  assert (forall u, u ∈ map snd (task_priority_set s) -> in_round_robin_queue s u = false) as Hfl.
  { intros u [p Hp]%elem_of_map_snd. by destruct (Hset _ _ Hp). }
  assert ((priority s t, t) ∈ task_priority_set s) as Hin.
  { apply HL in Ht. apply member_flag in Ht; [|done]. by rewrite Hft in Ht. }
  destruct (enqueue_all t (task_priority_set s) s (NoDup_set s Hwf) Hfl) as (E1 & E2 & E3 & E4 & E5).
  unfold start_round. cbn. rewrite E1. split; [|by rewrite app_assoc].
  assert (forall u, u ∈ (task_round_robin_queue s ++ others t (task_priority_set s)) ++ [t] <->
    member s u) as Hmem.
  { intros u. rewrite !elem_of_app, elem_of_others, list_elem_of_singleton. unfold member.
    destruct (decide (u = t)) as [->|]; [|tauto]. split; [|tauto].
    intros _. left. apply elem_of_map_snd. eauto. }
  split; [|split].
  - split; cbn; [constructor|by intros p u []%elem_of_nil| |].
    + intros u Hu. unfold update_at. destruct (Z.eqb_spec u t) as [->|Hne]; [done|].
      rewrite E2. apply elem_of_app in Hu as [Hu|Hu%list_elem_of_singleton]; [|done].
      apply elem_of_app in Hu as [Hu|Hu]; [by rewrite (Hqu u Hu)|].
      rewrite (bool_decide_eq_true_2 (u ∈ _)) by done. apply orb_true_r.
    + rewrite <- app_assoc. apply NoDup_app. split; [done|]. split.
      * intros u Hu [Hu2|Hu2]%elem_of_app.
        -- apply elem_of_others in Hu2 as [Hu2 _]. pose proof (Hfl u Hu2) as Hf2.
           by rewrite (Hqu u Hu) in Hf2.
        -- apply list_elem_of_singleton in Hu2 as ->. rewrite (Hqu t Hu) in Hft. done.
      * apply NoDup_app. split; [|split].
        -- apply NoDup_ListNoDup, List.NoDup_filter, NoDup_ListNoDup, (NoDup_set s Hwf).
        -- intros u [_ Hne]%elem_of_others Hu%list_elem_of_singleton. done.
        -- apply NoDup_singleton.
  - intros u. rewrite <- (HL u), <- Hmem. unfold member. cbn. rewrite elem_of_nil. tauto.
  - cbn. intros c. rewrite E5. apply Hc.
Qed.

(** ** Runs of equal priority *)

Lemma groups_flat l : flat_map (fun g => map (pair g.1) g.2) (groups l) = l.
Proof.
  induction l as [|[p t] l IH]; [done|]. cbn [groups]. destruct (groups l) as [|[p' ts] gs].
  - cbn in *. by rewrite <- IH.
  - destruct (Z.eqb_spec p p') as [->|]; cbn in *; by rewrite IH.
Qed.

Lemma groups_sorted l : sorted l ->
  StronglySorted (fun g h : Z * list Z => g.1 < h.1) (groups l).
Proof.
  induction 1 as [|[p t] l Hl IH Hp]; [constructor|]. cbn [groups].
  pose proof (groups_flat l) as Hflat. destruct (groups l) as [|[p' ts] gs] eqn:Hg.
  - repeat constructor.
  - assert (p <= p') as Hle.
    { destruct ts as [|u ts]; cbn in Hflat.
      - exfalso. clear -Hg. destruct l as [|[q v] l]; [done|]. cbn in Hg.
        destruct (groups l) as [|[q' vs] hs]; [done|]. destruct (q =? q'); simplify_eq.
      - assert ((p', u) ∈ l) as Hin by (rewrite <- Hflat; left).
        pose proof (proj1 (Forall_forall _ _) Hp _ Hin) as Hlt. apply pair_lt_spec in Hlt. cbn in Hlt. lia. }
    inversion IH as [|? ? Hgs Hp']; subst. destruct (Z.eqb_spec p p') as [->|Hne].
    + by constructor.
    + constructor; [done|]. constructor; [cbn; lia|]. eapply Forall_impl; [exact Hp'|].
      intros h Hh. cbn in *. lia.
Qed.

Lemma elem_of_groups l p t :
  (p, t) ∈ l <-> exists g, g ∈ groups l /\ g.1 = p /\ t ∈ g.2.
Proof.
  rewrite <- (groups_flat l) at 1. rewrite list_elem_of_In, in_flat_map. split.
  - intros (g & Hg & Ht). apply in_map_iff in Ht as (u & [= <- <-] & Hu).
    exists g. split; [by apply list_elem_of_In|]. split; [done|by apply list_elem_of_In].
  - intros (g & Hg & <- & Ht). exists g. apply list_elem_of_In in Hg. apply list_elem_of_In in Ht.
    split; [done|]. by apply in_map.
Qed.

Lemma group_unique l g h : sorted l -> g ∈ groups l -> h ∈ groups l -> g.1 = h.1 -> g = h.
Proof.
  intros Hl Hg Hh Heq. pose proof (groups_sorted l Hl) as Hs.
  induction Hs as [|x gs Hgs IH Hx]; [by apply elem_of_nil in Hg|].
  apply elem_of_cons in Hg as [->|Hg], Hh as [->|Hh]; [done| | |auto];
    [pose proof (proj1 (Forall_forall _ _) Hx h Hh)|pose proof (proj1 (Forall_forall _ _) Hx g Hg)];
    cbn in *; lia.
Qed.

(** ** The operations *)

Section Ops.
Context {T : Tasks}.

Definition anything (w : failure) : Prop := True.
Definition inv_ (L : list Z) : sstate -> Prop := fun s => inv L (sch s).

Lemma holds_observe {A} (f : world -> A) (P : sstate -> Prop) F E :
  holds P (observe f) (post F E (fun a s => P s /\ a = f (wd s))).
Proof. intros s Hs. by cbn. Qed.

Lemma maybe_pop_spec t s :
  maybe_pop_round_robin_task t s =
  (Ok tt, match task_round_robin_queue (sch s) with
          | h :: q => if t =? h then with_sch (pop_front t q) s else s
          | [] => s
          end).
Proof.
  unfold maybe_pop_round_robin_task, get, put, ask, change, mbind, TM_bind. cbn.
  destruct (task_round_robin_queue (sch s)) as [|h q]; [done|].
  destruct (Z.eqb_spec t h) as [->|Hne]; cbn; done.
Qed.

Lemma inv_maybe_pop L t : holds (inv_ L) (maybe_pop_round_robin_task t)
  (post (fun _ => False) (inv_ L) (fun _ => inv_ L)).
Proof.
  intros s Hs. rewrite maybe_pop_spec. cbn.
  destruct (task_round_robin_queue (sch s)) as [|h q] eqn:Hq; [done|].
  destruct (Z.eqb_spec t h) as [->|Hne]; [|done]. by apply inv_pop_front.
Qed.

Lemma inv_update_priority_internal L t v : t ∈ L ->
  holds (inv_ L) (update_task_priority_internal t v)
    (post (fun _ => False) (inv_ L) (fun _ => inv_ L)).
Proof.
  intros Ht [s w] Hs. unfold inv_ in *. cbn in Hs.
  unfold update_task_priority_internal, get, put, observe, ask, change, mbind, TM_bind. cbn.
  destruct (_ =? _); [done|]. cbn. destruct (in_round_robin_queue s t) eqn:Hf; cbn.
  - by apply inv_queued_priority.
  - by apply inv_move_priority.
Qed.

Lemma schedule_one_round_robin_spec t s :
  schedule_one_round_robin t s =
  if bool_decide (current (sch s) = Some t) then
    let s1 := (maybe_pop_round_robin_task t s).2 in
    if in_round_robin_queue (sch s1) t then (Err FailedAssert, s1)
    else (Ok tt, with_sch (start_round t) s1)
  else (Err FailedAssert, s).
Proof.
  unfold schedule_one_round_robin, get, put, ask, change, mbind, TM_bind, ASSERT, expire_timeslice, put, change.
  cbn. case_bool_decide; cbn; [|done]. rewrite maybe_pop_spec. cbn.
  destruct (in_round_robin_queue _ t); cbn; done.
Qed.

(** *** Looking for a runnable task *)

(** What rescheduling reads of the scheduler, apart from the bookkeeping of one call. *)
Definition core (s : Scheduler) :=
  (task_priority_set s, task_round_robin_queue s, priority s, in_round_robin_queue s,
   current s, (max_ticks s, enable_chaos s, always_switch s, current_timeslice_end s)).

(** No task has been told yet that it must run. *)
Definition idle (s0 : Scheduler) (s : sstate) : Prop :=
  core (sch s) = core s0 /\ must_run_task (sch s) = None.

(** [t], and no other task, may have been told that it must run. *)
Definition busy (s0 : Scheduler) (t : Z) (s : sstate) : Prop :=
  core (sch s) = core s0 /\
  (must_run_task (sch s) = None \/ (must_run_task (sch s) = Some t /\ unstable (wd s) t = false)).

(** The task a [waitpid] status is about, after the handling of PTRACE_EVENT_EXEC. *)
Definition woken (w : world) (tid status : Z) : option (Z * world) :=
  match find_task w tid with
  | Some t => Some (t, if ptrace_event_of status =? PTRACE_EVENT_EXEC then clear_unstable t w else w)
  | None => if ptrace_event_of status =? PTRACE_EVENT_EXEC
            then Some (revive_task_for_exec tid w) else None
  end.

(** What the scheduler relies on: waiting for a task does not put it in an unstable exit;
    the session finds its own tasks. *)
Class SessionContract (L : list Z) : Prop := {
  sc_try_wait : forall t w, unstable (try_wait t w).2 t = unstable w t;
  sc_wait : forall t d w, unstable (wait t d w) t = unstable w t;
  sc_resume : forall t w, unstable (resume_execution t (emulate_SIGCONT t w)) t = unstable w t;
  sc_woken : forall poll w tid status w1 t w2,
    waitpid_any poll w = (WaitChanged tid status, w1) -> woken w1 tid status = Some (t, w2) -> t ∈ L }.

(** The kernel reports a change of a task that was stopped and is not exiting: what the assertion behind the loop over
    [waitpid] rules out. *)
Definition unexpected_wakeup : Prop := exists poll w tid status w1 t w2,
  waitpid_any poll w = (WaitChanged tid status, w1) /\ woken w1 tid status = Some (t, w2) /\
  unstable w2 t || may_be_blocked w2 t || (ptrace_event_of status =? PTRACE_EVENT_EXIT) = false.

Context {L : list Z} {SC : SessionContract L}.

(** Reads a field that [core] fixes. *)
Ltac read_core := let s := fresh in let H := fresh in
  intros s [H _]; unfold core in H; cbn; congruence.

Lemma runnable_spec s0 t bw :
  holds (idle s0) (is_task_runnable t bw)
    (post never (fun _ => True) (fun r s => if r.1 : bool
       then busy s0 t s /\ (r.2 = false -> idle s0 s) else idle s0 s)).
Proof.
  intros [s w] [Hk Hm]. cbn in Hk, Hm.
  unfold is_task_runnable, get, put, observe, act, act_, ask, change, ASSERT, mbind, TM_bind. cbn.
  rewrite Hm. cbn. unfold busy, idle, id.
  destruct (unstable w t) eqn:Hu; cbn; [by auto|]. destruct (may_be_blocked w t); cbn; [|by auto].
  destruct (emulated_stop w t); cbn.
  - destruct (sigcont_pending w t); cbn.
    { split; [|done]. split; [done|]. right. by rewrite sc_resume. }
    destruct (try_wait t w) as [b w'] eqn:Hw; cbn. destruct (is_dying w' t); by auto.
  - destruct (in_nonblocking_syscall w t); cbn.
    { split; [|done]. split; [done|]. right. by rewrite sc_wait. }
    pose proof (sc_try_wait t w) as Ht. destruct (try_wait t w) as [[] w']; cbn in *; [|by auto].
    split; [|done]. split; [done|]. right. by rewrite Ht.
Qed.

(** What a search returns: a task of [ts] that is to run, or nothing. *)
Definition found (s0 : Scheduler) (P : Z -> Prop) (r : option Z * bool) (s : sstate) : Prop :=
  match r.1 with
  | Some n => P n /\ busy s0 n s /\ (r.2 = false -> idle s0 s)
  | None => idle s0 s
  end.

Lemma first_runnable_spec s0 ts bw :
  holds (idle s0) (first_runnable ts bw) (post never (fun _ => True) (found s0 (fun n => n ∈ ts))).
Proof.
  revert bw. induction ts as [|t ts IH]; intros bw; cbn [first_runnable].
  - by apply holds_ret.
  - eapply holds_bind; [apply runnable_spec|]. intros [[] bw']; cbn.
    + apply holds_ret. intros s Hs. split; [left|done].
    + eapply holds_weaken; [apply IH|done|]. intros [[n|] b] s; unfold found; cbn; [|done].
      intros [Hn Hb]. split; [by right|done].
Qed.

Lemma elem_of_swap {A} i j (l : list A) x : x ∈ swap i j l -> x ∈ l.
Proof.
  unfold swap. destruct (l !! i) as [a|] eqn:Hi; [|done]. destruct (l !! j) as [b|] eqn:Hj; [|done].
  intros Hx. apply list_elem_of_lookup in Hx as [k Hk].
  destruct (decide (k = i)) as [->|]; [|rewrite list_lookup_insert_ne in Hk by done].
  - rewrite list_lookup_insert_eq in Hk by (rewrite length_insert; eauto using lookup_lt_Some).
    simplify_eq. eauto using list_elem_of_lookup_2.
  - destruct (decide (k = j)) as [->|]; [|rewrite list_lookup_insert_ne in Hk by done].
    + rewrite list_lookup_insert_eq in Hk by eauto using lookup_lt_Some.
      simplify_eq. eauto using list_elem_of_lookup_2.
    + eauto using list_elem_of_lookup_2.
Qed.

Lemma shuffle_spec {A} s0 i todo (l : list A) :
  holds (idle s0) (shuffle_from i todo l)
    (post never (fun _ => True) (fun l' s => idle s0 s /\ forall x, x ∈ l' -> x ∈ l)).
Proof.
  revert i l. induction todo as [|todo IH]; intros i l; cbn [shuffle_from].
  - apply holds_ret. by auto.
  - eapply (holds_bind _ _ _ _ _ (fun _ => idle s0)).
    + intros [s w] Hs. unfold act. cbn. by destruct (random w).
    + intros r. eapply holds_weaken; [apply IH|done|]. intros l' s [Hs Hl]. split; [done|].
      intros x Hx. eapply elem_of_swap, Hl, Hx.
Qed.

Lemma cycle_after_spec t before ts :
  t ∈ ts -> exists order, cycle_after t before ts = Some order /\
    forall u, u ∈ order <-> u ∈ before \/ u ∈ ts.
Proof.
  revert before. induction ts as [|h ts IH]; intros before Ht; [by apply elem_of_nil in Ht|].
  cbn [cycle_after]. destruct (Z.eqb_spec h t) as [->|Hne].
  - eexists. split; [done|]. intros u. rewrite !elem_of_app, list_elem_of_singleton, elem_of_cons. tauto.
  - apply elem_of_cons in Ht as [->|Ht]; [done|]. destruct (IH (before ++ [h]) Ht) as (o & -> & Ho).
    exists o. split; [done|]. intros u. rewrite Ho, elem_of_app, list_elem_of_singleton, elem_of_cons. tauto.
Qed.

(** A group is safe to search from [t] when it holds [t] or has another priority. *)
Definition searchable (s0 : Scheduler) (t : option Z) (g : Z * list Z) : Prop :=
  forall c, t = Some c -> priority s0 c = g.1 -> c ∈ g.2.

Lemma group_order_spec s0 t g :
  searchable s0 t g ->
  holds (idle s0) (group_order t g)
    (post never (fun _ => True) (fun order s => idle s0 s /\ forall u, u ∈ order -> u ∈ g.2)).
Proof.
  intros Hg. unfold group_order. apply (holds_ask_bind _ (enable_chaos s0)); [by read_core|].
  destruct (enable_chaos s0); [apply shuffle_spec|].
  destruct t as [c|]; [|apply holds_ret; by auto].
  apply (holds_ask_bind _ (priority s0 c)); [by read_core|].
  destruct (Z.eqb_spec g.1 (priority s0 c)) as [Heq|]; [|apply holds_ret; by auto].
  destruct (cycle_after_spec c [] g.2) as (o & -> & Ho); [by apply Hg|].
  apply holds_ret. intros s Hs. split; [done|].
  intros u Hu. apply Ho in Hu as [Hu%elem_of_nil|Hu]; done.
Qed.

Lemma find_in_groups_spec s0 t gs thr bw :
  (forall g, g ∈ gs -> searchable s0 t g) ->
  holds (idle s0) (find_in_groups t gs thr bw)
    (post never (fun _ => True) (found s0 (fun n => exists g, g ∈ gs /\ n ∈ g.2))).
Proof.
  revert bw. induction gs as [|g gs IH]; intros bw Hgs; cbn [find_in_groups].
  - by apply holds_ret.
  - destruct (thr <? g.1); [by apply holds_ret|].
    eapply holds_bind; [apply group_order_spec, Hgs; left|].
    intros order. apply holds_pure. intros Ho.
    eapply holds_bind; [apply first_runnable_spec|]. intros [[n|] bw']; unfold found; cbn.
    + apply holds_ret. intros s [Hn Hb]. split; [|done]. exists g. split; [left|auto].
    + eapply holds_weaken; [apply IH; intros; apply Hgs; by right|done|].
      intros [[n|] b] s; unfold found; cbn; [|done]. intros [(g' & Hg' & Hn) Hb]. split; [|done].
      exists g'. split; [by right|done].
Qed.

Lemma inv_core s s' : core s = core s' -> inv L s -> inv L s'.
Proof.
  unfold core. intros [= E1 E2 E3 E4 E5 _ _ _ _] ([Hs Hset Hqu Hnd] & HL & Hc).
  split; [|split].
  - split; rewrite <- ?E1, <- ?E2, <- ?E3, <- ?E4; done.
  - intros t. rewrite <- (HL t). unfold member. by rewrite E1, E2.
  - by rewrite <- E5.
Qed.

(** The current task is in the set when the round-robin queue is empty. *)
Lemma current_in_set s c :
  inv L s -> current s = Some c -> task_round_robin_queue s = [] ->
  (priority s c, c) ∈ task_priority_set s.
Proof.
  intros (Hwf & HL & Hc) Hcur Hq. apply in_set; [done|].
  destruct (proj2 (HL c) (Hc c Hcur)) as [H|H]; [done|]. rewrite Hq in H. by apply elem_of_nil in H.
Qed.

Lemma find_next_spec s0 thr :
  inv L s0 -> task_round_robin_queue s0 = [] ->
  holds (idle s0) (find_next_runnable_task (current s0) thr)
    (post never (fun _ => True) (found s0 (fun n => n ∈ L))).
Proof.
  intros Hinv Hq. unfold find_next_runnable_task.
  apply (holds_ask_bind _ (task_priority_set s0)); [by read_core|].
  pose proof Hinv as (Hwf & HL & Hc).
  eapply holds_weaken; [apply find_in_groups_spec|done|].
  - intros g Hg c Hcur Hp. pose proof (current_in_set s0 c Hinv Hcur Hq) as Hin.
    apply elem_of_groups in Hin as (h & Hh & Hhp & Hch).
    rewrite (group_unique (task_priority_set s0) g h); [done|apply Hwf|done|done|congruence].
  - intros [[n|] b] s; unfold found; cbn; [|done]. intros [(g & Hg & Hn) Hb]. split; [|done].
    apply HL. left. apply elem_of_map_snd. exists g.1. apply elem_of_groups. eauto.
Qed.

(** *** The choice of the next task *)

Definition queue_ok (s : Scheduler) (t : Z) : Prop :=
  task_round_robin_queue s = [] \/ head (task_round_robin_queue s) = Some t.

(** The state after [maybe_pop_round_robin_task]. *)
Definition popped (t : Z) (s : Scheduler) : Scheduler :=
  match task_round_robin_queue s with
  | h :: q => if t =? h then pop_front t q s else s
  | [] => s
  end.

Lemma inv_popped t s : inv L s -> inv L (popped t s).
Proof.
  intros Hs. unfold popped. destruct (task_round_robin_queue s) as [|h q] eqn:Hq; [done|].
  destruct (Z.eqb_spec t h) as [->|]; [|done]. by apply inv_pop_front.
Qed.

Lemma popped_core t s s' : core s = core s' -> core (popped t s) = core (popped t s').
Proof.
  unfold core, popped. intros [= E1 E2 E3 E4 E5 E6 E7 E8 E9]. rewrite E2.
  destruct (task_round_robin_queue s') as [|h q] eqn:Hq;
    [rewrite E1, E2, E3, E4, E5, E6, E7, E8, E9, Hq; done|]. destruct (t =? h); cbn;
    rewrite ?E1, ?E2, ?E3, ?E4, ?E5, ?E6, ?E7, ?E8, ?E9, ?Hq; done.
Qed.

Lemma popped_current t s : current (popped t s) = current s.
Proof. unfold popped. destruct (task_round_robin_queue s); [done|]. by destruct (t =? z). Qed.

Lemma maybe_pop_idle s0 t :
  holds (idle s0) (maybe_pop_round_robin_task t)
    (post never (fun _ => True) (fun _ => idle (popped t s0))).
Proof.
  intros s [Hk Hm]. rewrite maybe_pop_spec. cbn. unfold idle.
  rewrite <- (popped_core t _ _ Hk). unfold popped.
  destruct (task_round_robin_queue (sch s)) as [|h q]; [done|]. by destruct (t =? h).
Qed.

Lemma validate_ok s0 t :
  current s0 = Some t -> queue_ok s0 t ->
  holds (busy s0 t) validate_scheduled_task (post never (fun _ => True) (fun _ => busy s0 t)).
Proof.
  intros Hc Hq s [Hk Hm]. unfold validate_scheduled_task, get, ask, ASSERT, mbind, TM_bind. cbn.
  assert (current (sch s) = Some t /\
    task_round_robin_queue (sch s) = task_round_robin_queue s0) as [-> ->]
    by (unfold core in Hk; split; congruence).
  assert (match must_run_task (sch s) with None => true
    | Some m => bool_decide (Some t = Some m) end = true) as ->.
  { destruct Hm as [-> | [-> _]]; [done|]. by apply bool_decide_eq_true. }
  cbn. assert (match task_round_robin_queue s0 with [] => true
    | h :: _ => bool_decide (Some t = Some h) end = true) as ->.
  { destruct Hq as [-> | Hq]; [done|]. destruct (task_round_robin_queue s0); [done|].
    cbn in Hq. by apply bool_decide_eq_true. }
  cbn. done.
Qed.

(** Without a condition on the queue the second assertion may fail. *)
Lemma validate_any s0 t :
  current s0 = Some t ->
  holds (busy s0 t) validate_scheduled_task
    (post (fun w => w = FailedAssert /\ ~ queue_ok s0 t) (fun _ => True) (fun _ s => busy s0 t s /\ queue_ok s0 t)).
Proof.
  intros Hc. assert (queue_ok s0 t \/ ~ queue_ok s0 t) as [Hq|Hq].
  { unfold queue_ok. destruct (task_round_robin_queue s0) as [|h q]; [by left; left|]. cbn.
    destruct (decide (h = t)) as [->|Hne]; [by left; right|]. right. intros [?|[= ->]]; done. }
  - eapply holds_weaken; [eapply holds_never; by apply validate_ok|done|]. intros a s Hs. by split.
  - intros s [Hk Hm]. unfold validate_scheduled_task, get, ask, ASSERT, mbind, TM_bind. cbn.
    assert (current (sch s) = Some t /\
      task_round_robin_queue (sch s) = task_round_robin_queue s0) as [-> ->]
      by (unfold core in Hk; split; congruence).
    destruct (match must_run_task (sch s) with None => true | Some m => bool_decide (Some t = Some m) end); cbn; [|done].
    destruct (match task_round_robin_queue s0 with [] => true | h :: _ => bool_decide (Some t = Some h) end) eqn:Hh; cbn; [|done].
    destruct Hq. unfold queue_ok. destruct (task_round_robin_queue s0) as [|h q]; [by left|]. right.
    by apply bool_decide_eq_true in Hh as [= ->].
Qed.

(** What a round may decide about the task to run, from a state like [s1]. *)
Definition decided (s1 : Scheduler) (ch : choice) (s : sstate) : Prop :=
  match ch with
  | CarryOn _ => exists c, current s1 = Some c /\ queue_ok s1 c /\ busy s1 c s
  | Next (Some n) _ _ => n ∈ L /\ queue_ok s1 n /\ busy s1 n s
  | Next None _ _ => task_round_robin_queue s1 = [] /\ idle s1 s
  end.

Lemma consider_current_spec s0 c bw now :
  inv L s0 -> current s0 = Some c ->
  holds (idle s0) (consider_current c bw now)
    (post never (fun _ => True) (fun r s =>
       match r with
       | inl ch => decided s0 ch s
       | inr _ => idle (popped c s0) s
       end)).
Proof.
  intros Hinv Hcur. unfold consider_current, get_round_robin_task.
  apply (holds_ask_bind _ (head (task_round_robin_queue s0))); [by read_core|].
  set (rr := head (task_round_robin_queue s0)).
  assert (rr = None -> task_round_robin_queue s0 = []) as Hrr.
  { subst rr. by destruct (task_round_robin_queue s0). }
  eapply (holds_bind _ _ _ _ _ (found s0 (fun n => n ∈ L /\ rr = None))).
  - destruct rr as [r|]; [by apply holds_ret|].
    apply (holds_ask_bind _ (priority s0 c)); [by read_core|].
    rewrite <- Hcur. eapply holds_weaken; [by apply find_next_spec; auto|done|].
    intros [[n|] b] s; unfold found; cbn; [|done]. intros (Hn & Hb & Hi). split_and!; auto.
  - intros [[n|] b]; unfold found; cbn.
    + apply holds_ret. intros s ([Hn Hnone] & Hb & _). split; [done|]. split; [|done]. left. auto.
    + apply holds_ask_any. intros sc. apply holds_ask_any. intros w.
      eapply (holds_bind _ _ _ _ _ (fun r s => if r.1 : bool
        then busy s0 c s /\ queue_ok s0 c else idle s0 s)).
      * match goal with |- holds _ (if ?b then _ else _) _ => destruct b eqn:Hcond end;
          [|by apply holds_ret].
        assert (queue_ok s0 c) as Hq.
        { repeat (apply andb_true_iff in Hcond as [Hcond ?]).
          unfold queue_ok. subst rr. destruct (task_round_robin_queue s0) as [|h q]; [by left|].
          right. cbn in *. f_equal. lia. }
        eapply holds_weaken; [apply (runnable_spec s0)|done|]. intros [[] b'] s'; cbn; [|done].
        intros [? _]. by auto.
      * intros [[] b']; cbn.
        -- apply holds_pure. intros Hq. eapply holds_bind; [by apply validate_ok|].
           intros []. apply holds_ret. intros s Hb. exists c. done.
        -- eapply holds_bind; [apply maybe_pop_idle|]. intros []. by apply holds_ret.
Qed.

Lemma reset_hpo_idle s0 now :
  holds (idle s0) (maybe_reset_high_priority_only_intervals now)
    (post never (fun _ => True) (fun _ => idle s0)).
Proof.
  intros [s w] Hs. unfold maybe_reset_high_priority_only_intervals, random_frac, get, put, act, ask,
    change, mbind, TM_bind. cbn. destruct (_ || _); [done|]. cbn.
  destruct (random w) as [r w1]. cbn. destruct (random w1) as [r' w2]. done.
Qed.

(** The part of a round that follows [consider_current]. *)
Lemma holds_act {A} s0 (f : world -> A * world) F E :
  holds (idle s0) (act f) (post F E (fun _ => idle s0)).
Proof. intros [s w] Hs. unfold act. cbn. by destruct (f w). Qed.

Lemma popped_max_ticks t s : max_ticks (popped t s) = max_ticks s.
Proof. unfold popped. destruct (task_round_robin_queue s); [done|]. by destruct (t =? z). Qed.

Lemma choose_spec fuel s0 bw now :
  inv L s0 ->
  holds (idle s0) (choose fuel bw now)
    (post (fun w => w = NoFuel) (fun _ => True) (fun ch s =>
       exists s1, inv L s1 /\ max_ticks s1 = max_ticks s0 /\ decided s1 ch s)).
Proof.
  revert s0 bw now. induction fuel as [|fuel IH]; intros s0 bw now Hinv; cbn [choose].
  { by apply holds_fail. }
  eapply (holds_bind _ _ _ _ _ (fun _ => idle s0)).
  { eapply holds_never, reset_hpo_idle. }
  intros []. eapply (holds_bind _ _ _ _ _ (fun _ => idle s0)); [by apply holds_change|].
  intros []. apply (holds_ask_bind _ (current s0)); [by read_core|].
  eapply (holds_bind _ _ _ _ _ (fun r s => match r with
    | inl ch => decided s0 ch s
    | inr _ => exists s1, inv L s1 /\ max_ticks s1 = max_ticks s0 /\ current s1 = current s0 /\ idle s1 s end)).
  { destruct (current s0) as [c|] eqn:Hcur; [|apply holds_ret; eauto].
    eapply holds_never.
    eapply holds_weaken; [by apply consider_current_spec|done|].
    intros [ch|b] s; [done|]. intros Hs. exists (popped c s0).
    rewrite popped_current, popped_max_ticks. auto using inv_popped. }
  intros [ch|b]; [apply holds_ret; eauto|].
  intros s (s1 & Hinv1 & Hmax & Hcur1 & Hs). revert s Hs.
  match goal with |- forall s, _ -> post ?F ?E ?Q (?c s).1 _ => change (holds (idle s1) c (post F E Q)) end.
  rewrite <- Hcur1, <- Hmax. unfold get_round_robin_task.
  apply (holds_ask_bind _ (head (task_round_robin_queue s1))); [by read_core|].
  destruct (head (task_round_robin_queue s1)) as [n|] eqn:Hhead.
  - assert (n ∈ L) as Hn.
    { destruct Hinv1 as (_ & HL & _). apply HL. right.
      destruct (task_round_robin_queue s1); [done|]. injection Hhead as ->. left. }
    eapply holds_bind; [eapply holds_never; apply (runnable_spec s1)|].
    intros [[] b']; cbn.
    + apply holds_ret. intros s [Hs _]. exists s1. unfold decided, queue_ok. split_and!; auto.
    + eapply holds_bind; [eapply holds_never; apply maybe_pop_idle|].
      intros []. rewrite <- (popped_max_ticks n s1). by apply IH, inv_popped.
  - assert (task_round_robin_queue s1 = []) as Hq by (by destruct (task_round_robin_queue s1)).
    eapply holds_bind; [eapply holds_never; by apply find_next_spec|].
    intros [[t|] b']; unfold found; cbn.
    + apply holds_ask_any. intros sc.
      match goal with |- holds _ (if ?b then _ else _) _ => destruct b eqn:Hcond end.
      * apply andb_true_iff in Hcond as [_ ->%negb_true_iff].
        eapply (holds_bind _ _ _ _ _ (fun _ => idle s1)).
        { intros [s w] (Ht & _ & Hi). by apply Hi. }
        intros []. eapply holds_bind; [apply holds_act|]. intros now'. by apply IH.
      * apply holds_ret. intros s (Ht & Hb & _). exists s1. unfold decided, queue_ok. split_and!; auto.
    + apply holds_ask_any. intros sc. apply holds_ret. intros s Hs. exists s1. by unfold decided.
Qed.

(** *** Waiting *)

Definition may_fail (w : failure) : Prop := w = NoFuel \/ w = Fatal \/ (w = FailedAssert /\ unexpected_wakeup).

Lemma clear_queue_spec n s0 :
  inv L s0 -> (length (task_round_robin_queue s0) <= n)%nat ->
  holds (idle s0) (clear_queue n) (post never (fun _ => True) (fun _ s =>
    exists s1, inv L s1 /\ max_ticks s1 = max_ticks s0 /\ current s1 = current s0 /\
      task_round_robin_queue s1 = [] /\ idle s1 s)).
Proof.
  revert s0. induction n as [|n IH]; intros s0 Hinv Hn; cbn [clear_queue].
  - apply holds_ret. intros s Hs. exists s0. split_and!; auto.
    destruct (task_round_robin_queue s0); [done|cbn in Hn; lia].
  - unfold get_round_robin_task.
    apply (holds_ask_bind _ (head (task_round_robin_queue s0))); [by read_core|].
    destruct (task_round_robin_queue s0) as [|h q] eqn:Hq; cbn.
    + apply holds_ret. intros s Hs. exists s0. split_and!; auto.
    + eapply holds_bind; [apply maybe_pop_idle|]. intros [].
      rewrite <- (popped_max_ticks h s0), <- (popped_current h s0).
      apply IH; [by apply inv_popped|]. unfold popped. rewrite Hq, Z.eqb_refl. cbn in *. lia.
Qed.

Lemma wait_for_task_spec fuel s0 :
  holds (idle s0) (wait_for_task fuel) (post may_fail (fun _ => True) (fun r s =>
    idle s0 s /\ forall t status, r = Some (t, status) -> t ∈ L /\
      (unstable (wd s) t || may_be_blocked (wd s) t ||
       (ptrace_event_of status =? PTRACE_EVENT_EXIT) = false -> unexpected_wakeup))).
Proof.
  induction fuel as [|fuel IH]; cbn [wait_for_task]; [apply holds_fail; [by left|done]|].
  intros [s w] Hs. pose proof Hs as [_ Hm]. cbn in Hm.
  unfold get, observe, act, act_, ask, ASSERT, mbind, TM_bind. cbn.
  destruct (waitpid_any (enable_poll s) w) as [[| |tid status] w1] eqn:Hw; cbn.
  - rewrite Hm. cbn. by split.
  - split; [by right; left|done].
  - assert (forall t w2, woken w1 tid status = Some (t, w2) -> t ∈ L /\
      (unstable w2 t || may_be_blocked w2 t || (ptrace_event_of status =? PTRACE_EVENT_EXIT) = false -> unexpected_wakeup)) as Hc.
    { intros t w2 Hwk. split; [by eapply sc_woken|]. intros Hb. by exists (enable_poll s), w, tid, status, w1, t, w2. }
    unfold woken in Hc.
    destruct (find_task w1 tid) as [t|].
    + destruct (Hc _ _ eq_refl) as [Ht Hb].
      destruct (ptrace_event_of status =? PTRACE_EVENT_EXEC); cbn;
        (split; [done|]); intros ? ? [= <- <-]; done.
    + destruct (ptrace_event_of status =? PTRACE_EVENT_EXEC); cbn.
      * destruct (revive_task_for_exec tid w1) as [t w2]. destruct (Hc _ _ eq_refl) as [Ht Hb].
        cbn. split; [done|]. by intros ? ? [= <- <-].
      * apply (IH (mkS s w1)). done.
Qed.

Lemma wait_for_next_spec fuel s0 :
  inv L s0 ->
  holds (idle s0) (wait_for_next fuel) (post may_fail (fun _ => True) (fun r s =>
    exists s1, inv L s1 /\ max_ticks s1 = max_ticks s0 /\ current s1 = current s0 /\
      task_round_robin_queue s1 = [] /\
      match r with
      | Some t => t ∈ L /\ core (sch s) = core s1 /\ must_run_task (sch s) = Some t
      | None => idle s1 s
      end)).
Proof.
  intros Hinv. unfold wait_for_next.
  apply (holds_ask_bind _ (length (task_round_robin_queue s0))); [by read_core|].
  eapply holds_bind; [eapply holds_never; apply (clear_queue_spec _ s0); [done|lia]|].
  intros [] s (s1 & Hinv1 & Hmax & Hcur & Hq & Hs). revert s Hs.
  match goal with |- forall s, _ -> post ?F ?E ?Q (?c s).1 _ => change (holds (idle s1) c (post F E Q)) end.
  eapply holds_bind; [apply wait_for_task_spec|]. intros [[t status]|].
  - intros [s w] [Hs Ht]. destruct (Ht t status eq_refl) as [HtL Hb].
    unfold observe, ask, ASSERT, act_, put, change, mbind, TM_bind. cbn in *.
    destruct (unstable w t || may_be_blocked w t || (ptrace_event_of status =? PTRACE_EVENT_EXIT)) eqn:He; cbn;
      [|split; [by right; right; split; [|apply Hb]|done]].
    exists s1. destruct Hs as [Hk Hm]. split_and!; auto.
  - apply holds_ret. intros s [Hs _]. exists s1. split_and!; auto.
Qed.

(** *** Switching to a task *)

Lemma chaos_timeslice_pos f max : 0 < max -> 0 < Z.min max (chaos_timeslice f max).
Proof.
  intros H. unfold chaos_timeslice, very_short_timeslice_max_duration, short_timeslice_max_duration.
  destruct (Qltb f _); [lia|]. destruct (Qltb f _); lia.
Qed.

(** What every return of [reschedule] that is not an interruption guarantees. *)
Definition scheduled (s : sstate) : Prop :=
  inv L (sch s) /\ 0 < max_ticks (sch s) /\
  exists t, current (sch s) = Some t /\ t ∈ L /\ queue_ok (sch s) t /\
    (must_run_task (sch s) = None \/ must_run_task (sch s) = Some t).

Lemma core_fields s s' : core s = core s' ->
  task_round_robin_queue s = task_round_robin_queue s' /\ current s = current s' /\
  max_ticks s = max_ticks s'.
Proof. unfold core. intros [=]. done. Qed.

Lemma setup_new_timeslice_spec t s :
  current (sch s) = Some t -> 0 < max_ticks (sch s) ->
  exists s', setup_new_timeslice s = (Ok tt, s') /\
    exists e, sch s' = set_current_timeslice_end e (sch s).
Proof.
  intros Hc Hm. destruct s as [s w]. cbn in *.
  unfold setup_new_timeslice, random_frac, get, put, observe, act, ask, change, mbind, TM_bind. cbn.
  destruct (enable_chaos s); cbn.
  - destruct (random w) as [r w1]. cbn. rewrite Hc. cbn. destruct (random w1) as [r' w2]. cbn.
    match goal with |- context [chaos_timeslice ?f ?m] =>
      pose proof (chaos_timeslice_pos f m Hm) end.
    rewrite (proj2 (Z.eqb_neq _ 0)) by lia. cbn. eauto.
  - rewrite Hc. cbn. destruct (random w) as [r' w2]. cbn.
    rewrite (proj2 (Z.eqb_neq _ 0)) by lia. cbn. eauto.
Qed.

Lemma switch_to_spec s0 t now s :
  inv L s0 -> 0 < max_ticks s0 -> t ∈ L -> queue_ok s0 t ->
  core (sch s) = core s0 -> must_run_task (sch s) = None \/ must_run_task (sch s) = Some t ->
  exists s', switch_to t now s = (Ok tt, s') /\ scheduled s'.
Proof.
  intros Hinv Hmax Ht Hq Hk Hm. unfold switch_to.
  assert (exists s1, maybe_reset_high_priority_only_intervals now s = (Ok tt, s1) /\
    core (sch s1) = core s0 /\ must_run_task (sch s1) = must_run_task (sch s)) as (s1 & E1 & Hk1 & Hm1).
  { destruct s as [s w]. unfold maybe_reset_high_priority_only_intervals, random_frac, get, put, act,
      ask, change, mbind, TM_bind. cbn. destruct (_ || _); cbn; [eauto|].
    destruct (random w) as [r w1]. cbn. destruct (random w1) as [r' w2]. cbn. eauto. }
  rewrite (bind_ok _ _ _ _ _ E1).
  destruct (core_fields _ _ Hk1) as (Eq & Ec & Em).
  set (s2 := with_sch (set_current (Some t)) s1).
  change (put (set_current (Some t)) s1) with (Ok tt : result unit, s2) in *.
  assert ((validate_scheduled_task;; setup_new_timeslice) s2 = setup_new_timeslice s2) as Hv.
  { unfold validate_scheduled_task, get, ask, ASSERT, mbind, TM_bind. cbn. rewrite Hm1, Eq.
    assert (match must_run_task (sch s) with None => true
      | Some m => bool_decide (Some t = Some m) end = true) as ->.
    { destruct Hm as [-> | ->]; [done|]. by apply bool_decide_eq_true. }
    cbn. assert (match task_round_robin_queue s0 with [] => true
      | h :: _ => bool_decide (Some t = Some h) end = true) as ->.
    { destruct Hq as [-> | Hq]; [done|]. destruct (task_round_robin_queue s0); [done|].
      cbn in Hq. by apply bool_decide_eq_true. }
    done. }
  change ((put (set_current (Some t));; validate_scheduled_task;; setup_new_timeslice) s1)
    with ((validate_scheduled_task;; setup_new_timeslice) s2).
  rewrite Hv.
  destruct (setup_new_timeslice_spec t s2) as (s' & -> & e & Hs'); [done|cbn; congruence|].
  exists s'. split; [done|].
  assert (inv L (sch s1)) as (Hwf & HL & _) by (by apply (inv_core s0)).
  unfold scheduled, queue_ok. rewrite Hs'. cbn. rewrite Eq, Em. split_and!; [|done|].
  - split_and!; [|done|by intros c [= <-]]. destruct Hwf as [H1 H2 H3 H4]. by split.
  - exists t. split_and!; auto. rewrite Hm1. done.
Qed.

(** *** Chaos mode's priorities *)

(** Same queue, current task and limits; the tasks and their consistency are kept. *)
Definition reprioritised (s0 : Scheduler) (s : sstate) : Prop :=
  inv L (sch s) /\ must_run_task (sch s) = None /\
  task_round_robin_queue (sch s) = task_round_robin_queue s0 /\
  current (sch s) = current s0 /\ max_ticks (sch s) = max_ticks s0.

Lemma choose_random_priority_spec t s :
  exists p s1, choose_random_priority t s = (Ok p, s1) /\ sch s1 = sch s.
Proof.
  destruct s as [s w]. unfold choose_random_priority, random_frac, observe, act, ask, mbind, TM_bind.
  cbn. destruct (random w). cbn. eauto.
Qed.

Lemma reset_one_spec s0 t : t ∈ L ->
  holds (reprioritised s0) (p ← choose_random_priority t; update_task_priority_internal t p)
    (post never (fun _ => True) (fun _ => reprioritised s0)).
Proof.
  intros Ht s (Hinv & Hm & Hq & Hc & Hx).
  destruct (choose_random_priority_spec t s) as (p & s1 & E & Hs1).
  rewrite (bind_ok _ _ _ _ _ E).
  pose proof (inv_update_priority_internal L t p Ht s1) as Hu.
  unfold inv_ in Hu. rewrite Hs1 in Hu. specialize (Hu Hinv).
  destruct (update_task_priority_internal t p s1) as [[[]|w] s2] eqn:Hup; cbn in *; [|by destruct Hu].
  split; [done|]. rewrite <- Hm, <- Hq, <- Hc, <- Hx, <- Hs1. clear -Hup.
  unfold update_task_priority_internal, get, put, observe, ask, change, mbind, TM_bind in Hup. cbn in Hup.
  destruct (_ =? _) in Hup; [injection Hup as <-; done|]. cbn in Hup.
  destruct (in_round_robin_queue _ _) in Hup; injection Hup as <-; done.
Qed.

Lemma reset_priorities_spec s0 ts : (forall t, t ∈ ts -> t ∈ L) ->
  holds (reprioritised s0) (reset_priorities ts)
    (post never (fun _ => True) (fun _ => reprioritised s0)).
Proof.
  induction ts as [|t ts IH]; intros Hts; cbn [reset_priorities]; [by apply holds_ret|].
  intros s Hs. pose proof (reset_one_spec s0 t (Hts t (list_elem_of_here _ _)) s Hs) as H1.
  unfold mbind, TM_bind in *. destruct (choose_random_priority t s) as [[p|w] s1]; cbn in *; [|by destruct H1].
  destruct (update_task_priority_internal t p s1) as [[[]|w] s2]; cbn in *; [|by destruct H1].
  apply IH; [intros u Hu; apply Hts; by right|done].
Qed.

Lemma maybe_reset_priorities_spec s0 now :
  holds (reprioritised s0) (maybe_reset_priorities now)
    (post never (fun _ => True) (fun _ => reprioritised s0)).
Proof.
  intros s Hs. unfold maybe_reset_priorities, random_frac, get, put, ask, change, mbind, TM_bind. cbn.
  destruct (_ || _); [done|]. cbn. unfold act. destruct s as [s w]. cbn.
  destruct (random w) as [r w1]. cbn. unfold ask. cbn.
  apply (reset_priorities_spec s0 _).
  2: { destruct Hs as (Hi & Hs). split; [by apply (inv_core s)|done]. }
  intros t Ht. destruct Hs as ((_ & HL & _) & _). apply HL. by apply elem_of_app in Ht.
Qed.

(** *** Rescheduling *)

Lemma scheduled_busy s0 c s :
  inv L s0 -> 0 < max_ticks s0 -> current s0 = Some c -> queue_ok s0 c -> busy s0 c s -> scheduled s.
Proof.
  intros Hinv Hmax Hc Hq [Hk Hm]. destruct (core_fields _ _ Hk) as (Eq & Ec & Em).
  split; [by apply (inv_core s0)|]. split; [by rewrite Em|]. exists c.
  unfold queue_ok. rewrite Ec, Eq. split_and!; auto; [by apply Hinv|].
  destruct Hm as [?|[? _]]; auto.
Qed.

Definition returned (r : Rescheduled) (s : sstate) : Prop :=
  if interrupted_by_signal r then inv L (sch s) /\ 0 < max_ticks (sch s) else scheduled s.

Lemma wait_and_switch_spec fuel s0 bw :
  inv L s0 -> 0 < max_ticks s0 ->
  holds (idle s0) (wait_and_switch fuel bw) (post may_fail (fun _ => True) returned).
Proof.
  intros Hinv Hmax. unfold wait_and_switch. eapply holds_bind; [by apply wait_for_next_spec|].
  intros [t|] s (s1 & Hinv1 & Hm1 & _ & Hq & Hs).
  - destruct Hs as (Ht & Hk & Hm).
    destruct (switch_to_spec s1 t (inject_Z (-1)) s) as (s' & E & Hs');
      [done|congruence|done|by left|done|by right|].
    rewrite (bind_ok _ _ _ _ _ E). exact Hs'.
  - destruct Hs as [Hk Hm]. cbn. destruct (core_fields _ _ Hk) as (_ & _ & Em).
    split; [by apply (inv_core s1)|]. congruence.
Qed.

Lemma pick_and_switch_spec fuel s0 now :
  inv L s0 -> 0 < max_ticks s0 ->
  holds (idle s0) (pick_and_switch fuel now) (post may_fail (fun _ => True) returned).
Proof.
  intros Hinv Hmax. unfold pick_and_switch. eapply holds_bind.
  { eapply holds_failures; [by apply choose_spec|by left|done]. }
  intros [bw|next bw now'] s (s1 & Hinv1 & Hm1 & Hd); cbn in Hd.
  - destruct Hd as (c & Hc & Hq & Hb). eapply scheduled_busy; [..|exact Hb]; auto. congruence.
  - rewrite (bind_ok (observe id) _ s (wd s) s eq_refl).
    destruct next as [t|]; cbn.
    + destruct Hd as (Ht & Hq & Hk & Hm). destruct (unstable (wd s) t) eqn:Hu; cbn.
      * apply (wait_and_switch_spec fuel s1 bw); [done|congruence|]. split; [done|].
        destruct Hm as [?|[_ ?]]; congruence.
      * destruct (switch_to_spec s1 t now' s) as (s' & E & Hs'); auto; [congruence|by destruct Hm as [?|[? _]]; auto|].
        rewrite (bind_ok _ _ _ _ _ E). exact Hs'.
    + destruct Hd as [Hq Hs]. apply (wait_and_switch_spec fuel s1 bw); [done|congruence|done].
Qed.

(** The task that is to run goes on although it is not its turn. *)
Definition out_of_turn (s : Scheduler) (sw : Switchable) : Prop :=
  sw = PREVENT_SWITCH /\ exists c, current s = Some c /\ ~ queue_ok s c.

Definition reschedule_fails (s : Scheduler) (sw : Switchable) (w : failure) : Prop :=
  may_fail w \/ (w = FailedAssert /\ out_of_turn s sw).

Lemma keep_unswitchable_spec c s0 :
  inv L s0 -> 0 < max_ticks s0 -> current s0 = Some c ->
  holds (idle s0) (keep_unswitchable c) (post (reschedule_fails s0 PREVENT_SWITCH) (fun _ => True) returned).
Proof.
  intros Hinv Hmax Hc. unfold keep_unswitchable. apply holds_ask_any. intros running.
  eapply (holds_bind _ _ _ _ _ (fun _ => busy s0 c)).
  - eapply holds_weaken with (Q' := fun _ => idle s0) (P' := idle s0); [|done|].
    + destruct running; [|by apply holds_ret]. intros [s w] Hs.
      unfold interrupt_after_elapsed_time, get, act, act_, ask, mbind, TM_bind. cbn.
      destruct (enable_chaos s); cbn; [|done]. by destruct (monotonic_now_sec w).
    + intros [] s [Hk Hm]. split; [done|by left].
  - intros []. eapply holds_bind.
    { eapply holds_failures; [by apply validate_any| |done]. intros w [-> Hq]. right. split; [done|]. split; [done|]. by exists c. }
    intros []. apply holds_ret. intros s [Hb Hq]. by apply (scheduled_busy s0 c).
Qed.

Lemma reschedule_spec fuel sw s :
  inv L (sch s) -> 0 < max_ticks (sch s) ->
  post (reschedule_fails (sch s) sw) (fun _ => True) returned (reschedule fuel sw s).1 (reschedule fuel sw s).2.
Proof.
  intros Hinv Hmax.
  assert (holds (reprioritised (sch s)) (c ← get current;
    match c, sw with
    | Some c, PREVENT_SWITCH => keep_unswitchable c
    | _, _ => pick_and_switch fuel (monotonic_now_sec (wd s)).1
    end) (post (reschedule_fails (sch s) sw) (fun _ => True) returned)) as Hrest.
  { intros s1 (Hi & Hm & Hq & Hc & Hx).
    rewrite (bind_ok (get current) _ s1 (current (sch s1)) s1 eq_refl).
    assert (idle (sch s1) s1) as Hidle by done.
    assert (0 < max_ticks (sch s1)) by congruence.
    destruct (current (sch s1)) as [c|] eqn:Hcur; [destruct sw|];
      [|by eapply holds_failures; [apply (pick_and_switch_spec fuel (sch s1))|by left|..]..].
    eapply (holds_failures _ _ (reschedule_fails (sch s1) PREVENT_SWITCH)); [by apply keep_unswitchable_spec| |done|done].
    intros w [Hw|(-> & _ & c' & Hc' & Hnq)]; [by left|]. right. split; [done|]. split; [done|]. exists c'.
    split; [congruence|]. unfold queue_ok in *. by rewrite <- Hq. }
  set (s1 := mkS (set_enable_poll false (set_must_run_task None (sch s))) (monotonic_now_sec (wd s)).2).
  assert (reschedule fuel sw s = (maybe_reset_priorities (monotonic_now_sec (wd s)).1;; c ← get current;
    match c, sw with
    | Some c, PREVENT_SWITCH => keep_unswitchable c
    | _, _ => pick_and_switch fuel (monotonic_now_sec (wd s)).1
    end) s1) as ->.
  { subst s1. unfold reschedule, put, act, change, with_sch, mbind, TM_bind. cbn.
    by destruct (monotonic_now_sec (wd s)). }
  apply (holds_bind (reprioritised (sch s)) _ _ (reschedule_fails (sch s) sw) (fun _ => True) (fun _ => reprioritised (sch s))).
  - eapply holds_never, maybe_reset_priorities_spec.
  - intros []. exact Hrest.
  - split; [by apply (inv_core (sch s))|done].
Qed.

End Ops.

(** ** Every reachable state *)

Section Reachable.
Context {T : Tasks}.

Inductive sched_op :=
| OpCreate (t prio : Z)
| OpDestroy (t : Z)
| OpPriority (t value : Z)
| OpStableExit (t : Z)
| OpYield (t : Z)
| OpExpire
| OpChaos (enable : bool)
| OpCores (cores : Z)
| OpMaxTicks (ticks : Z)
| OpAlwaysSwitch (always : bool)
| OpSetCurrent (t : Z)
| OpReschedule (fuel : nat) (sw : Switchable).

(** A new [RecordTask] has its priority and is in no queue. *)
Definition new_task (t prio : Z) : M unit :=
  put (fun s => set_in_round_robin_queue (update_at (in_round_robin_queue s) t false)
                  (set_priority_of t prio s)).

Definition perform (o : sched_op) : M unit :=
  match o with
  | OpCreate t prio => new_task t prio;; on_create t
  | OpDestroy t => on_destroy t
  | OpPriority t v => update_task_priority t v
  | OpStableExit t => in_stable_exit t
  | OpYield t => schedule_one_round_robin t
  | OpExpire => expire_timeslice
  | OpChaos b => sched_set_enable_chaos b
  | OpCores cores => set_num_cores cores
  | OpMaxTicks ticks => sched_set_max_ticks ticks
  | OpAlwaysSwitch b => put (set_always_switch b)
  | OpSetCurrent t => put (set_current (Some t))
  | OpReschedule fuel sw => reschedule fuel sw;; mret tt
  end.

Definition tasks_after (o : sched_op) (L : list Z) : list Z :=
  match o with
  | OpCreate t _ => t :: L
  | OpDestroy t => List.filter (fun u => negb (u =? t)) L
  | _ => L
  end.

(** When an operation may be called: on tasks of the session, and a new task is new. *)
Definition legal (L : list Z) (o : sched_op) : Prop :=
  match o with
  | OpCreate t _ => t ∉ L
  | OpDestroy t | OpPriority t _ | OpStableExit t | OpYield t | OpSetCurrent t => t ∈ L
  | OpExpire | OpChaos _ | OpCores _ | OpAlwaysSwitch _ => True
  | OpMaxTicks ticks => 0 < ticks
  | OpReschedule _ _ => SessionContract L
  end.

(** When an assertion fails: a yield of a task that is not the current one, or is not first in the queue it is in; too
    large a limit; a task that changes its state although it is stopped, and an unswitchable task that has to wait for its
    turn. *)
Definition asserts (s : Scheduler) (o : sched_op) : Prop :=
  match o with
  | OpYield t => current s <> Some t \/ (in_round_robin_queue s t = true /\ head (task_round_robin_queue s) <> Some t)
  | OpMaxTicks ticks => MAX_MAX_TICKS < ticks
  | OpReschedule _ sw => unexpected_wakeup \/ out_of_turn s sw
  | _ => False
  end.

Definition op_fails (s : Scheduler) (o : sched_op) (w : failure) : Prop :=
  w = NoFuel \/ w = Fatal \/ (w = FailedAssert /\ asserts s o).

Definition good (L : list Z) (s : sstate) : Prop := inv L (sch s) /\ 0 < max_ticks (sch s).

Lemma on_create_good L t s :
  good L s -> t ∉ L -> in_round_robin_queue (sch s) t = false ->
  exists s', on_create t s = (Ok tt, s') /\ good (t :: L) s'.
Proof.
  intros [Hinv Hmax] Ht Hf. unfold on_create.
  rewrite (bind_ok (get _) _ s false s) by (by unfold get, ask; rewrite Hf). cbn [negb ASSERT].
  rewrite (bind_ok (ASSERT true) _ s tt s eq_refl).
  rewrite (bind_ok (get enable_chaos) _ s (enable_chaos (sch s)) s eq_refl).
  destruct (enable_chaos (sch s)).
  - destruct (choose_random_priority_spec t s) as (p & s1 & E & Hs1).
    unfold mbind at 1, TM_bind at 1. rewrite (bind_ok _ _ _ _ _ E). cbn. eexists. split; [done|].
    unfold good, with_sch. cbn [sch]. rewrite Hs1. split; [|done].
    apply (inv_add_task L (set_priority_of t p (sch s))); [|done|done]. by apply inv_foreign_priority.
  - cbn. eexists. split; [done|]. split; [|done]. by apply inv_add_task.
Qed.

Lemma on_destroy_good L t s :
  good L s -> t ∈ L ->
  exists s', on_destroy t s = (Ok tt, s') /\ good (tasks_after (OpDestroy t) L) s'.
Proof.
  intros [Hinv Hmax] Ht. pose proof Hinv as (Hwf & HL & Hc). unfold on_destroy.
  assert (exists s1, (c ← get current; if bool_decide (c = Some t) then put (set_current None) else mret tt) s
    = (Ok tt, s1) /\ sch s1 = drop_current t (sch s)) as (s1 & E & Hs1).
  { unfold get, put, ask, change, mbind, TM_bind, drop_current. cbn. case_bool_decide; cbn; eauto. }
  unfold mbind at 1, TM_bind at 1 in E. cbn in E.
  unfold mbind at 1, TM_bind at 1. cbn. rewrite (bind_ok _ _ _ _ _ E).
  assert (in_round_robin_queue (sch s1) = in_round_robin_queue (sch s) /\
    task_round_robin_queue (sch s1) = task_round_robin_queue (sch s) /\
    max_ticks (sch s1) = max_ticks (sch s)) as (E1 & E2 & E3).
  { rewrite Hs1. unfold drop_current. by case_bool_decide. }
  unfold get, put, ask, change, mbind, TM_bind. cbn. rewrite E1.
  destruct (in_round_robin_queue (sch s) t) eqn:Hf.
  - assert (t ∈ task_round_robin_queue (sch s)) as Hin.
    { apply HL in Ht. apply member_flag in Ht; [|done]. by rewrite Hf in Ht. }
    cbn. rewrite E2. destruct (erase_first_spec t _ (wf_nodup _ Hwf) Hin) as (q & -> & Hnd & Hq).
    eexists. split; [done|]. split; [|cbn; congruence]. cbn. rewrite Hs1.
    by apply inv_remove_queued.
  - eexists. split; [done|]. split; [|cbn; congruence]. cbn. rewrite Hs1.
    by apply inv_remove_from_set.
Qed.

Lemma update_priority_good L t v s :
  good L s -> t ∈ L ->
  exists s', update_task_priority_internal t v s = (Ok tt, s') /\ good L s'.
Proof.
  intros [Hinv Hmax] Ht. pose proof (inv_update_priority_internal L t v Ht s Hinv) as Hu.
  destruct (update_task_priority_internal t v s) as [[[]|w] s'] eqn:E; cbn in Hu; [|by destruct Hu].
  exists s'. split; [done|]. split; [done|].
  unfold update_task_priority_internal, get, put, observe, ask, change, mbind, TM_bind in E. cbn in E.
  destruct (_ =? _) in E; [injection E as <-; done|]. cbn in E.
  destruct (in_round_robin_queue _ _) in E; injection E as <-; done.
Qed.

Lemma popped_spec t s : sch (maybe_pop_round_robin_task t s).2 = popped t (sch s).
Proof.
  rewrite maybe_pop_spec. unfold popped. cbn. destruct (task_round_robin_queue (sch s)) as [|h q]; [done|]. by destruct (t =? h).
Qed.

(** A task that is not in the queue once it is popped starts a round. *)
Lemma yield_starts_round L t s :
  good L s -> current (sch s) = Some t -> in_round_robin_queue (popped t (sch s)) t = false ->
  exists s', schedule_one_round_robin t s = (Ok tt, s') /\ good L s' /\
    task_round_robin_queue (sch s') =
      task_round_robin_queue (popped t (sch s)) ++ others t (task_priority_set (popped t (sch s))) ++ [t].
Proof.
  intros [Hinv Hmax] Hc Hf. rewrite schedule_one_round_robin_spec, bool_decide_eq_true_2 by done.
  cbv zeta. rewrite (popped_spec t s), Hf. assert (t ∈ L) as Ht by (by apply Hinv).
  eexists. split; [done|]. unfold good, with_sch. cbn [sch]. rewrite (popped_spec t s).
  destruct (inv_start_round L (popped t (sch s)) t) as [Hi Hqq]; [by apply inv_popped|done|done|].
  split; [|done]. split; [done|]. unfold start_round. cbn -[Z.lt].
  assert (forall l s, max_ticks (fold_left (fun s x => enqueue t x s) l s) = max_ticks s) as ->.
  { clear. induction l as [|x l IH]; intros s; cbn; [done|]. rewrite IH. unfold enqueue.
    by destruct (_ && _). }
  by rewrite popped_max_ticks.
Qed.

(** The head of the queue is taken off. *)
Lemma popped_flag t s :
  in_round_robin_queue (popped t s) t = true -> in_round_robin_queue s t = true /\ head (task_round_robin_queue s) <> Some t.
Proof.
  unfold popped. destruct (task_round_robin_queue s) as [|h q]; [done|]. cbn. destruct (Z.eqb_spec t h) as [->|Hne].
  - unfold pop_front. cbn. by rewrite update_at_eq.
  - intros Hf. split; [done|]. by intros [= ->].
Qed.

Lemma yield_good L t s :
  good L s -> current (sch s) = Some t -> queue_ok (sch s) t ->
  exists s', schedule_one_round_robin t s = (Ok tt, s') /\ good L s' /\
    task_round_robin_queue (sch s') =
      task_round_robin_queue (popped t (sch s)) ++ others t (task_priority_set (popped t (sch s))) ++ [t].
Proof.
  intros Hg Hc Hq. apply yield_starts_round; [done|done|]. apply not_true_iff_false. intros [Hf Hh]%popped_flag.
  destruct Hq as [Hq|Hq]; [|done]. destruct Hg as [(Hwf & HL & Hcur) _]. pose proof (Hcur t Hc) as Ht.
  apply HL in Ht as [Ht|Ht]; [|by rewrite Hq in Ht; apply elem_of_nil in Ht].
  apply in_set in Ht; [|done]. apply (wf_set _ Hwf) in Ht as [_ Ht]. congruence.
Qed.

(** A yield goes through or one of its two assertions fails. *)
Lemma yield_any L t s :
  good L s -> match schedule_one_round_robin t s with
  | (Ok _, s') => good L s'
  | (Err w, _) => op_fails (sch s) (OpYield t) w
  end.
Proof.
  intros Hg. destruct (decide (current (sch s) = Some t)) as [Hc|Hc].
  - destruct (in_round_robin_queue (popped t (sch s)) t) eqn:Hf.
    + rewrite schedule_one_round_robin_spec, bool_decide_eq_true_2 by done. cbv zeta. rewrite (popped_spec t s), Hf.
      right; right. split; [done|]. right. by apply popped_flag.
    + by destruct (yield_starts_round L t s Hg Hc Hf) as (s' & -> & Hs' & _).
  - rewrite schedule_one_round_robin_spec, bool_decide_eq_false_2 by done. right; right. split; [done|]. by left.
Qed.

(** The fields the invariant is about. *)
Definition queues (s : Scheduler) :=
  (task_priority_set s, task_round_robin_queue s, priority s, in_round_robin_queue s, current s).

Lemma inv_queues L s s' : queues s' = queues s -> inv L s -> inv L s'.
Proof.
  unfold queues. intros [= E1 E2 E3 E4 E5] ([H1 H2 H3 H4] & H5 & H6).
  split; [split; rewrite ?E1, ?E2, ?E3, ?E4; assumption|]. split; [unfold tasks_are, member in *; by rewrite E1, E2|]. by rewrite E5.
Qed.

Lemma regenerate_good L s :
  good L s ->
  match regenerate_affinity_mask s with
  | (Ok _, s') => good L s'
  | (Err w, _) => w = Fatal
  end.
Proof.
  intros Hg. pose proof (regenerate_runs s) as Hr. destruct (getaffinity (wd s)).
  - destruct Hr as (m & w & -> & _). destruct Hg as [Hinv Hmax]. split; [|done].
    by apply (inv_queues L (sch s)).
  - by rewrite Hr.
Qed.

Lemma good_with L s f :
  good L s -> (forall x, queues (f x) = queues x /\ max_ticks (f x) = max_ticks x) -> good L (with_sch f s).
Proof.
  intros [Hinv Hmax] Hf. destruct (Hf (sch s)) as [Hk Hm]. unfold good, with_sch. cbn [sch].
  rewrite Hm. split; [|done]. by apply (inv_queues L (sch s)).
Qed.

Lemma regenerated L o s s0 :
  good L s -> match regenerate_affinity_mask s with
  | (Ok _, s') => good L s'
  | (Err w, _) => op_fails s0 o w
  end.
Proof.
  intros Hg%regenerate_good. destruct (regenerate_affinity_mask s) as [[]]; [done|]. by right; left.
Qed.

Lemma perform_good L s o :
  good L s -> legal L o ->
  match perform o s with
  | (Ok _, s') => good (tasks_after o L) s'
  | (Err w, _) => op_fails (sch s) o w
  end.
Proof.
  intros Hgood Hlegal. pose proof Hgood as [Hinv Hmax].
  destruct o as [t prio|t|t v|t|t| |b|cores|ticks|b|t|fuel sw]; cbn in Hlegal |- *.
  - destruct (on_create_good L t
      (with_sch (fun s => set_in_round_robin_queue (update_at (in_round_robin_queue s) t false)
                  (set_priority_of t prio s)) s)) as (s' & E & Hs'); [|done|apply update_at_eq|].
    + split; [|done]. apply (inv_foreign_flag L (set_priority_of t prio (sch s))); [|done].
      by apply inv_foreign_priority.
    + unfold new_task, put, change, mbind, TM_bind. by rewrite E.
  - by destruct (on_destroy_good L t s Hgood Hlegal) as (s' & -> & Hs').
  - unfold update_task_priority, get, ask, mbind, TM_bind. cbn.
    destruct (enable_chaos (sch s)); [done|].
    by destruct (update_priority_good L t v s Hgood Hlegal) as (s' & -> & Hs').
  - unfold in_stable_exit, get, ask, mbind, TM_bind. cbn.
    by destruct (update_priority_good L t (priority (sch s) t) s Hgood Hlegal) as (s' & -> & Hs').
  - by apply yield_any.
  - split; [|done]. destruct Hinv as ([H1 H2 H3 H4] & H5 & H6). split; [by split|done].
  - unfold sched_set_enable_chaos, put, act, change, mbind, TM_bind. destruct b; cbn [with_sch sch wd].
    + destruct (random (wd s)) as [r w]. cbn [fst snd]. apply regenerated.
      split; [by apply (inv_queues L (sch s))|done].
    + apply regenerated. split; [by apply (inv_queues L (sch s))|done].
  - apply regenerated. by apply (good_with L).
  - unfold sched_set_max_ticks. destruct (Z.leb_spec ticks MAX_MAX_TICKS); [|by right; right].
    split; [|cbn; lia]. by apply (inv_queues L (sch s)).
  - by apply (good_with L).
  - split; [|done]. destruct Hinv as ([H1 H2 H3 H4] & H5 & H6). split; [by split|]. split; [done|]. by intros c [= <-].
  - pose proof (reschedule_spec (SC := Hlegal) fuel sw s Hinv Hmax) as Hr.
    unfold mbind, TM_bind. destruct (reschedule fuel sw s) as [[r|w] s']; cbn in *.
    2:{ destruct Hr as [[[Hw|[Hw|[Hw Hu]]]|[Hw Ho]] _]; [by left|by right; left|right; right; split; [done|by left]..|right; right; split; [done|by right]]. }
    unfold returned in Hr. destruct (interrupted_by_signal r); [done|].
    by destruct Hr as (? & ? & _).
Qed.

(** The states rr can bring the scheduler into, with the tasks there are. *)
Inductive reachable : list Z -> sstate -> Prop :=
| reach_initial w : reachable [] (mkS initial_scheduler w)
| reach_step L s o s' a :
    reachable L s -> legal L o -> perform o s = (Ok a, s') ->
    reachable (tasks_after o L) s'.

Lemma reachable_good L s : reachable L s -> good L s.
Proof.
  induction 1 as [w|L s o s' a Hr IH Hl Hp].
  - split; [|done]. split.
    { split; cbn; [constructor|by intros ? ? []%elem_of_nil|by intros ? []%elem_of_nil|constructor]. }
    split; [|done]. intros t. unfold member. cbn. rewrite !elem_of_nil. tauto.
  - pose proof (perform_good L s o IH Hl) as Hg. by rewrite Hp in Hg.
Qed.


End Reachable.
