(* ===== verification/SchedulerFair.v ===== *)
(** * Which task runs next

    Outside chaos mode, on tasks whose readiness does not change while rr looks for one
    to run ([Steady]): strict priorities, round-robin among equals, and fairness after
    [sched_yield].  These are the rules the overview in [Scheduler.h] states. *)

From Stdlib Require Import QArith Qround.
From stdpp Require Import base tactics list numbers sorting.
From S2P Require Import Prelude TracerMonad Scheduler SchedulerInv.
Local Open Scope Z_scope.

Section Steady.
Context {T : Tasks}.

(** [ready t]: the task is not in a system call that blocks.  Tasks that are not ready
    stay blocked while they are polled. *)
Class Steady (ready : Z -> bool) : Prop := {
  st_unstable : forall w t, unstable w t = false;
  st_blocked : forall w t, may_be_blocked w t = negb (ready t);
  st_not_stopped : forall w t, emulated_stop w t = false;
  st_blocking : forall w t, in_nonblocking_syscall w t = false;
  st_try_wait : forall w t, try_wait t w = (false, w) }.

Context (ready : Z -> bool) {ST : Steady ready}.

Definition nothing_pending (s : sstate) : Prop := must_run_task (sch s) = None.

Lemma runnable_steady t bw s :
  nothing_pending s -> is_task_runnable t bw s = (Ok (ready t, bw), s).
Proof.
  intros Hm. unfold nothing_pending in Hm. destruct s as [s w].
  unfold is_task_runnable, get, put, observe, act, act_, ask, change, ASSERT, mbind, TM_bind, id. cbn in *.
  rewrite Hm. cbn. rewrite st_unstable, st_blocked, st_not_stopped, st_blocking.
  destruct (ready t); cbn; [done|]. by rewrite st_try_wait.
Qed.

Lemma first_runnable_steady ts bw s :
  nothing_pending s -> first_runnable ts bw s = (Ok (List.find ready ts, bw), s).
Proof.
  intros Hm. induction ts as [|t ts IH]; [done|]. cbn [first_runnable].
  rewrite (bind_ok _ _ _ _ _ (runnable_steady t bw s Hm)). cbn. by destruct (ready t).
Qed.

(** ** The order in which tasks are tried *)

Definition order_of (prio : Z -> Z) (t : option Z) (g : Z * list Z) : list Z :=
  match t with
  | Some c => if g.1 =? prio c then default [] (cycle_after c [] g.2) else g.2
  | None => g.2
  end.

Fixpoint search_order (prio : Z -> Z) (t : option Z) (gs : list (Z * list Z)) (thr : Z) : list Z :=
  match gs with
  | [] => []
  | g :: gs => if thr <? g.1 then [] else order_of prio t g ++ search_order prio t gs thr
  end.

Lemma find_app (f : Z -> bool) l k :
  List.find f (l ++ k) = match List.find f l with Some x => Some x | None => List.find f k end.
Proof. induction l as [|x l IH]; cbn; [done|]. by destruct (f x). Qed.

Lemma find_in_groups_steady s t gs thr bw :
  nothing_pending s -> enable_chaos (sch s) = false ->
  (forall g, g ∈ gs -> searchable (sch s) t g) ->
  find_in_groups t gs thr bw s = (Ok (List.find ready (search_order (priority (sch s)) t gs thr), bw), s).
Proof.
  intros Hm Hch. revert bw. induction gs as [|g gs IH]; intros bw Hgs; cbn [find_in_groups search_order]; [done|].
  destruct (thr <? g.1); [done|].
  assert (group_order t g s = (Ok (order_of (priority (sch s)) t g), s)) as Ho.
  { unfold group_order, order_of, get, ask, mbind, TM_bind. cbn. rewrite Hch.
    destruct t as [c|]; [|done]. cbn. destruct (Z.eqb_spec g.1 (priority (sch s) c)) as [E|]; [|done].
    destruct (cycle_after_spec c [] g.2) as (o & -> & _); [|done].
    apply (Hgs g (list_elem_of_here _ _) c); done. }
  rewrite (bind_ok _ _ _ _ _ Ho), (bind_ok _ _ _ _ _ (first_runnable_steady _ _ _ Hm)), find_app.
  destruct (List.find ready (order_of (priority (sch s)) t g)); [done|].
  apply IH. intros h Hh. apply Hgs. by right.
Qed.

(** ** The search finds the highest priority *)

Context {L : list Z}.

Lemma searchable_groups s c :
  inv L s -> task_round_robin_queue s = [] -> current s = c ->
  forall g, g ∈ groups (task_priority_set s) -> searchable s c g.
Proof.
  intros Hinv Hq Hcur g Hg d -> Hp. pose proof (current_in_set s d Hinv Hcur Hq) as Hin.
  apply elem_of_groups in Hin as (h & Hh & Hhp & Hdh).
  rewrite (group_unique (task_priority_set s) g h); [done|apply Hinv|done|done|congruence].
Qed.

Lemma elem_of_order_of s t g u : searchable s t g -> u ∈ order_of (priority s) t g <-> u ∈ g.2.
Proof.
  intros Hg. unfold order_of. destruct t as [c|]; [|done].
  destruct (Z.eqb_spec g.1 (priority s c)) as [E|]; [|done].
  destruct (cycle_after_spec c [] g.2) as (o & -> & Ho); [by apply (Hg c)|].
  cbn. rewrite Ho, elem_of_nil. tauto.
Qed.

(** The order of the search: by priority, and complete up to the threshold. *)
Lemma search_order_spec s t gs thr :
  (forall g, g ∈ gs -> searchable s t g) ->
  (forall g u, g ∈ gs -> u ∈ g.2 -> priority s u = g.1) ->
  StronglySorted (fun g h : Z * list Z => g.1 < h.1) gs ->
  StronglySorted (fun u v => priority s u <= priority s v) (search_order (priority s) t gs thr) /\
  (forall u, u ∈ search_order (priority s) t gs thr <->
     exists g, g ∈ gs /\ u ∈ g.2 /\ priority s u <= thr).
Proof.
  intros Hgs Hp Hs. induction Hs as [|g gs Hs IH Hg]; cbn [search_order].
  { split; [constructor|]. intros u. rewrite elem_of_nil. split; [done|].
    by intros (g & []%elem_of_nil & _). }
  destruct IH as [IHs IHm]; [intros; apply Hgs; by right|intros; eapply Hp; eauto; by right|].
  assert (forall u, u ∈ g.2 -> priority s u = g.1) as Hpg by (intros; apply Hp; [left|done]).
  assert (forall h u, h ∈ gs -> u ∈ h.2 -> g.1 < priority s u) as Hlater.
  { intros h u Hh Hu. rewrite (Hp h u) by (by right || done).
    exact (proj1 (Forall_forall _ _) Hg h Hh). }
  destruct (Z.ltb_spec thr g.1) as [Hlt|Hge].
  - split; [constructor|]. intros u. rewrite elem_of_nil. split; [done|].
    intros (h & [->|Hh]%elem_of_cons & Hu & Hle); [rewrite Hpg in Hle by done; lia|].
    pose proof (Hlater h u Hh Hu). lia.
  - pose proof (Hgs g (list_elem_of_here _ _)) as Hsg. split.
    + apply StronglySorted_app. split; [|split; [|done]].
      * intros u v Hu Hv. apply elem_of_order_of in Hu; [|done]. apply IHm in Hv as (h & Hh & Hv & _).
        rewrite Hpg by done. pose proof (Hlater h v Hh Hv). lia.
      * assert (forall l, (forall u, u ∈ l -> u ∈ g.2) ->
          StronglySorted (fun u v => priority s u <= priority s v) l) as Hsame.
        { induction l as [|x l IHl]; intros Hl; constructor.
          - apply IHl. intros u Hu. apply Hl. by right.
          - apply Forall_forall. intros u Hu. rewrite !Hpg; [lia|..]; apply Hl; [by right|left]. }
        apply Hsame. intros u. by rewrite elem_of_order_of.
    + intros u. rewrite elem_of_app, elem_of_order_of, IHm by done. split.
      * intros [Hu|(h & Hh & Hu & Hle)]; [exists g|exists h]; split; [left|..|by right|done]; auto.
        split; [done|]. by rewrite Hpg.
      * intros (h & [->|Hh]%elem_of_cons & Hu & Hle); [by left|right; eauto].
Qed.

Lemma find_sorted s l n :
  StronglySorted (fun u v => priority s u <= priority s v) l -> List.find ready l = Some n ->
  n ∈ l /\ ready n = true /\ forall u, u ∈ l -> ready u = true -> priority s n <= priority s u.
Proof.
  induction 1 as [|x l Hl IH Hx]; cbn; [done|]. destruct (ready x) eqn:Hr.
  - intros [= <-]. split; [left|]. split; [done|]. intros u [->|Hu]%elem_of_cons _; [lia|].
    exact (proj1 (Forall_forall _ _) Hx u Hu).
  - intros Hf. destruct (IH Hf) as (Hn & Hrn & Hmin). split; [by right|]. split; [done|].
    intros u [->|Hu]%elem_of_cons Hru; [congruence|auto].
Qed.

(** The task the search from [current] finds, with priorities up to [thr]. *)
Definition search (s : Scheduler) (thr : Z) : option Z :=
  List.find ready (search_order (priority s) (current s) (groups (task_priority_set s)) thr).

Lemma search_members s thr :
  inv L s -> task_round_robin_queue s = [] ->
  StronglySorted (fun u v => priority s u <= priority s v)
    (search_order (priority s) (current s) (groups (task_priority_set s)) thr) /\
  forall u, u ∈ search_order (priority s) (current s) (groups (task_priority_set s)) thr <->
    u ∈ L /\ priority s u <= thr.
Proof.
  intros Hinv Hq. pose proof Hinv as (Hwf & HL & Hc).
  destruct (search_order_spec s (current s) (groups (task_priority_set s)) thr) as [Hs Hm].
  - by apply searchable_groups.
  - intros g u Hg Hu. apply (wf_set s Hwf). apply elem_of_groups. eauto.
  - apply groups_sorted, Hwf.
  - split; [done|]. intros u. rewrite Hm, <- (HL u). unfold member. rewrite Hq, elem_of_nil.
    rewrite in_set by done. rewrite elem_of_groups. split.
    + intros (g & Hg & Hu & Hle). split; [|done]. left. exists g. split; [done|]. split; [|done].
      symmetry. apply (wf_set s Hwf). apply elem_of_groups. eauto.
    + intros [[(g & Hg & Hgp & Hu)|[]] Hle]. eauto.
Qed.

Lemma search_some s thr n :
  inv L s -> task_round_robin_queue s = [] -> search s thr = Some n ->
  n ∈ L /\ ready n = true /\ priority s n <= thr /\
  forall u, u ∈ L -> ready u = true -> priority s n <= priority s u.
Proof.
  intros Hinv Hq Hs. destruct (search_members s thr Hinv Hq) as [Hso Hm].
  destruct (find_sorted s _ n Hso Hs) as (Hn & Hr & Hmin). apply Hm in Hn as [HnL Hnt].
  split_and!; auto. intros u Hu Hru. destruct (Z.le_gt_cases (priority s u) thr); [|lia].
  apply Hmin; [|done]. by apply Hm.
Qed.

Lemma search_none s thr u :
  inv L s -> task_round_robin_queue s = [] -> search s thr = None ->
  u ∈ L -> priority s u <= thr -> ready u = false.
Proof.
  intros Hinv Hq Hs Hu Hle. destruct (search_members s thr Hinv Hq) as [_ Hm].
  apply (find_none ready _ Hs), list_elem_of_In, Hm. auto.
Qed.

(** ** The current task comes last among its equals *)

Lemma cycle_after_last c before ts order :
  cycle_after c before ts = Some order -> exists l, order = l ++ [c].
Proof.
  revert before. induction ts as [|h ts IH]; intros before; cbn; [done|].
  destruct (Z.eqb_spec h c) as [->|]; [|apply IH].
  intros [= <-]. exists (ts ++ before). by rewrite app_assoc.
Qed.

Lemma cycle_after_perm c before ts order :
  cycle_after c before ts = Some order -> order ≡ₚ before ++ ts.
Proof.
  revert before. induction ts as [|h ts IH]; intros before; cbn; [done|].
  destruct (Z.eqb_spec h c) as [->|].
  - intros [= <-]. rewrite (Permutation_app_comm ts). rewrite <- app_assoc. done.
  - intros Ho. rewrite (IH _ Ho), <- app_assoc. done.
Qed.

Lemma group_NoDup l g : NoDup (map snd l) -> g ∈ groups l -> NoDup g.2.
Proof.
  rewrite <- (groups_flat l) at 1. induction (groups l) as [|h gs IH]; [by intros _ []%elem_of_nil|].
  cbn. rewrite map_app, map_map. cbn. rewrite map_id. intros (Hh & _ & Hgs)%NoDup_app.
  intros [->|Hg]%elem_of_cons; [done|by apply IH].
Qed.

Lemma find_last l c u :
  List.find ready (l ++ [c]) = Some c -> u ∈ l ++ [c] -> ready u = true -> c ∉ l -> u = c.
Proof.
  intros Hf Hu Hr Hc. rewrite find_app in Hf. destruct (List.find ready l) as [x|] eqn:Hl.
  - injection Hf as ->. apply find_some in Hl as [Hl _]. by apply list_elem_of_In in Hl.
  - apply elem_of_app in Hu as [Hu|Hu%list_elem_of_singleton]; [|done].
    apply list_elem_of_In in Hu. rewrite (find_none _ _ Hl u Hu) in Hr. done.
Qed.

Lemma search_current_last s thr c u :
  inv L s -> task_round_robin_queue s = [] -> current s = Some c -> search s thr = Some c ->
  u ∈ L -> ready u = true -> priority s u = priority s c -> u = c.
Proof.
  intros Hinv Hq Hcur Hs Hu Hr Hpu.
  destruct (search_some s thr c Hinv Hq Hs) as (HcL & Hrc & Hle & Hmin).
  pose proof Hinv as (Hwf & HL & Hcl). unfold search in Hs. rewrite Hcur in Hs.
  assert (forall v, v ∈ L -> (priority s v, v) ∈ task_priority_set s) as Hin.
  { intros v Hv. apply in_set; [done|]. apply HL in Hv as [Hv|Hv]; [done|].
    rewrite Hq in Hv. by apply elem_of_nil in Hv. }
  destruct (proj1 (elem_of_groups _ _ _) (Hin c HcL)) as (g & Hg & Hgp & Hcg).
  destruct (proj1 (elem_of_groups _ _ _) (Hin u Hu)) as (h & Hh & Hhp & Huh).
  assert (h = g) as -> by (apply (group_unique (task_priority_set s)); [apply Hwf|done|done|congruence]).
  assert (exists pre post, search_order (priority s) (Some c) (groups (task_priority_set s)) thr =
    pre ++ order_of (priority s) (Some c) g ++ post /\ forall v, v ∈ pre -> priority s v < priority s c)
    as (pre & post & Heq & Hpre).
  { assert (forall g u, g ∈ groups (task_priority_set s) -> u ∈ g.2 -> priority s u = g.1) as Hp.
    { intros g' v Hg' Hv. apply (wf_set s Hwf). apply elem_of_groups. eauto. }
    pose proof (searchable_groups s (Some c) Hinv Hq Hcur) as Hsg.
    pose proof (groups_sorted _ (wf_sorted s Hwf)) as Hso. clear -Hg Hgp Hle Hp Hsg Hso.
    induction Hso as [|k gs Hso IH Hk]; [by apply elem_of_nil in Hg|]. cbn [search_order].
    apply elem_of_cons in Hg as [->|Hg].
    - rewrite (proj2 (Z.ltb_ge _ _)) by lia. exists [], (search_order (priority s) (Some c) gs thr).
      split; [done|]. by intros v []%elem_of_nil.
    - pose proof (proj1 (Forall_forall _ _) Hk g Hg) as Hlt. cbn in Hlt.
      rewrite (proj2 (Z.ltb_ge _ _)) by lia.
      destruct IH as (pre & post & -> & Hpre); [done|intros; eapply Hp; eauto; by right|intros; apply Hsg; by right|].
      exists (order_of (priority s) (Some c) k ++ pre), post. split; [by rewrite app_assoc|].
      intros v [Hv|Hv]%elem_of_app; [|auto]. apply elem_of_order_of in Hv; [|apply Hsg; left].
      rewrite (Hp k v) by (left || done). lia. }
  unfold order_of in Heq. rewrite Hgp, Z.eqb_refl in Heq.
  destruct (cycle_after_spec c [] g.2 Hcg) as (o & Ho & Hoe). rewrite Ho in Heq. cbn in Heq.
  destruct (cycle_after_last _ _ _ _ Ho) as (l & ->).
  rewrite Heq, find_app in Hs. destruct (List.find ready pre) as [x|] eqn:Hfp.
  { injection Hs as ->. apply find_some in Hfp as [Hfp _]. apply list_elem_of_In, Hpre in Hfp. lia. }
  rewrite find_app in Hs. destruct (List.find ready (l ++ [c])) as [x|] eqn:Hfl.
  2: { pose proof (find_none _ _ Hfl c) as Hn. rewrite Hn in Hrc; [done|].
       apply in_or_app. right. by left. }
  injection Hs as ->. eapply find_last; [exact Hfl|apply Hoe; by right|done|].
  pose proof (group_NoDup _ g (NoDup_set s Hwf) Hg) as Hnd.
  apply cycle_after_perm in Ho. cbn in Ho. rewrite <- Ho in Hnd.
  apply NoDup_app in Hnd as (_ & Hd & _). intros Hcl'. apply (Hd c Hcl'). by apply list_elem_of_singleton.
Qed.

(** ** One call of [reschedule] *)

(** Outside chaos mode, and never in a high-priority-only interval. *)
Definition calm (s : Scheduler) : Prop :=
  enable_chaos s = false /\ (hpo_period s == 0)%Q /\ 0 < max_ticks s.

(** The timeslice of the current task is over, or rr switches at every chance. *)
Definition expired (s : sstate) : Prop :=
  always_switch (sch s) = true \/
  forall c, current (sch s) = Some c -> current_timeslice_end (sch s) <= tick_count (wd s) c.

(** What a call sets before it looks for a task. *)
Definition at_start (s : Scheduler) : Scheduler :=
  set_enable_poll false (set_must_run_task None s).

Definition in_round (s : Scheduler) : Scheduler := set_last_reschedule_in_hpo false s.

Lemma not_in_hpo s now : calm s -> in_high_priority_only_interval s now = false.
Proof.
  intros (_ & Hp & _). unfold in_high_priority_only_interval. destruct (Qltb _ _); [done|].
  by rewrite (proj2 (Qeq_bool_iff _ _) Hp).
Qed.

Lemma reset_hpo_calm s w now : calm s ->
  maybe_reset_high_priority_only_intervals now (mkS s w) = (Ok tt, mkS s w).
Proof.
  intros (Hc & _ & _). unfold maybe_reset_high_priority_only_intervals, get, ask, mbind, TM_bind.
  cbn. by rewrite Hc.
Qed.

Lemma reschedule_calm fuel sw s :
  calm (sch s) -> sw = ALLOW_SWITCH \/ current (sch s) = None ->
  exists now w, reschedule fuel sw s = pick_and_switch fuel now (mkS (at_start (sch s)) w) /\
    w = (monotonic_now_sec (wd s)).2.
Proof.
  intros (Hc & _ & _) Hsw. destruct s as [s w]. cbn in *.
  unfold reschedule, maybe_reset_priorities, put, get, act, change, ask, mbind, TM_bind. cbn.
  destruct (monotonic_now_sec w) as [now w1] eqn:Hn. cbn. unfold id. cbn. rewrite Hc. cbn.
  exists now, w1. split; [|done]. destruct Hsw as [-> | ->]; [by destruct (current s)|by destruct sw].
Qed.

(** The result of [switch_to] for a task that may run. *)
Lemma switch_to_calm t now s :
  calm (sch s) -> nothing_pending s -> queue_ok (sch s) t ->
  exists s' e, switch_to t now s = (Ok tt, s') /\
    sch s' = set_current_timeslice_end e (set_current (Some t) (sch s)).
Proof.
  intros Hcalm Hm Hq. destruct s as [s w]. cbn in *. unfold switch_to.
  rewrite (bind_ok _ _ _ _ _ (reset_hpo_calm s w now Hcalm)).
  set (s2 := mkS (set_current (Some t) s) w).
  assert ((validate_scheduled_task;; setup_new_timeslice) s2 = setup_new_timeslice s2) as Hv.
  { unfold validate_scheduled_task, get, ask, ASSERT, mbind, TM_bind. cbn.
    unfold nothing_pending in Hm. cbn in Hm. rewrite Hm. cbn.
    assert (match task_round_robin_queue s with [] => true
      | h :: _ => bool_decide (Some t = Some h) end = true) as ->; [|done].
    destruct Hq as [-> | Hq]; [done|]. destruct (task_round_robin_queue s); [done|].
    cbn in Hq. by apply bool_decide_eq_true. }
  change ((put (set_current (Some t));; validate_scheduled_task;; setup_new_timeslice) (mkS s w))
    with ((validate_scheduled_task;; setup_new_timeslice) s2).
  rewrite Hv. destruct (setup_new_timeslice_spec t s2) as (s' & E & e & Hs'); [done|apply Hcalm|].
  exists s', e. done.
Qed.

Lemma find_next_steady s thr :
  nothing_pending s -> enable_chaos (sch s) = false -> inv L (sch s) ->
  task_round_robin_queue (sch s) = [] ->
  find_next_runnable_task (current (sch s)) thr s = (Ok (search (sch s) thr, false), s).
Proof.
  intros Hm Hch Hinv Hq. unfold find_next_runnable_task, get, ask, mbind, TM_bind. cbn.
  apply find_in_groups_steady; [done|done|]. by apply searchable_groups.
Qed.

Lemma validate_idle s c :
  nothing_pending s -> current (sch s) = Some c -> queue_ok (sch s) c ->
  validate_scheduled_task s = (Ok tt, s).
Proof.
  intros Hm Hc Hq. unfold validate_scheduled_task, get, ask, ASSERT, mbind, TM_bind, id. cbn.
  unfold nothing_pending in Hm. rewrite Hm, Hc. cbn.
  assert (match task_round_robin_queue (sch s) with [] => true
    | h :: _ => bool_decide (Some c = Some h) end = true) as ->; [|done].
  destruct Hq as [-> | Hq]; [done|]. destruct (task_round_robin_queue (sch s)); [done|].
  cbn in Hq. by apply bool_decide_eq_true.
Qed.

(** [consider_current] when no task waits for its turn. *)
Lemma consider_current_empty c now s :
  nothing_pending s -> calm (sch s) -> inv L (sch s) -> task_round_robin_queue (sch s) = [] ->
  current (sch s) = Some c ->
  exists r, consider_current c false now s = (Ok r, s) /\
    match r with
    | inl (Next o _ _) => o = search (sch s) (priority (sch s) c - 1) /\ o <> None
    | inl (CarryOn _) => search (sch s) (priority (sch s) c - 1) = None /\ ready c = true /\
        (expired s -> False)
    | inr _ => search (sch s) (priority (sch s) c - 1) = None
    end.
Proof.
  intros Hm Hcalm Hinv Hq Hc. unfold consider_current, get_round_robin_task.
  rewrite (bind_ok (get _) _ s None s) by (unfold get, ask; by rewrite Hq).
  assert ((p ← get (fun s => priority s c); find_next_runnable_task (Some c) (p - 1)) s =
    (Ok (search (sch s) (priority (sch s) c - 1), false), s)) as Hf.
  { rewrite <- Hc. rewrite (bind_ok (get _) _ s (priority (sch s) c) s eq_refl).
    apply find_next_steady; [done|apply Hcalm|done|done]. }
  rewrite (bind_ok _ _ _ _ _ Hf). destruct (search (sch s) _) as [n|] eqn:Hs; cbn.
  { eexists. by split. }
  rewrite (bind_ok (get id) _ s (sch s) s eq_refl), (bind_ok (observe id) _ s (wd s) s eq_refl).
  match goal with |- context [if ?b then is_task_runnable c false else _] => destruct b eqn:Hcond end.
  - rewrite (bind_ok _ _ _ _ _ (runnable_steady c false s Hm)). destruct (ready c); cbn.
    + rewrite (bind_ok _ _ _ _ _ (validate_idle s c Hm Hc (or_introl Hq))). eexists. split; [done|].
      cbn. split_and!; auto. intros [Ha|He].
      * rewrite Ha in Hcond. rewrite andb_false_r in Hcond. done.
      * specialize (He c Hc). apply andb_true_iff in Hcond as [_ Hcond]. lia.
    + rewrite (bind_ok _ _ _ _ _ (maybe_pop_spec c s)), Hq. eexists. by split.
  - rewrite (bind_ok (mret (false, false)) _ s (false, false) s eq_refl). cbn.
    rewrite (bind_ok _ _ _ _ _ (maybe_pop_spec c s)), Hq. eexists. by split.
Qed.

(** The task a round chooses when no task waits for its turn. *)
Lemma choose_empty fuel now s :
  nothing_pending s -> calm (sch s) -> inv L (sch s) -> task_round_robin_queue (sch s) = [] ->
  exists ch, choose (S fuel) false now s = (Ok ch, with_sch in_round s) /\
    match ch with
    | CarryOn _ => exists c, current (sch s) = Some c /\ ready c = true /\ (expired s -> False) /\
        search (sch s) (priority (sch s) c - 1) = None
    | Next o _ _ => o = search (sch s) INT32_MAX \/
        exists c, current (sch s) = Some c /\ o <> None /\ o = search (sch s) (priority (sch s) c - 1)
    end.
Proof.
  intros Hm Hcalm Hinv Hq. destruct s as [s w]. cbn [sch wd] in *. cbn [choose].
  rewrite (bind_ok _ _ _ _ _ (reset_hpo_calm s w now Hcalm)).
  rewrite (bind_ok (put _) _ (mkS s w) tt (mkS (in_round s) w));
    [|unfold put, change, with_sch; cbn; by rewrite not_in_hpo].
  rewrite (bind_ok (get current) _ (mkS (in_round s) w) (current s) (mkS (in_round s) w) eq_refl).
  set (s1 := mkS (in_round s) w).
  assert (inv L (sch s1)) as Hinv1 by (destruct Hinv as ([H1 H2 H3 H4] & H5 & H6); split; [by split|done]).
  assert (forall thr, search (in_round s) thr = search s thr) as Hsearch by done.
  assert (exists r, (match current s with Some c => consider_current c false now
      | None => mret (inr false) end) s1 = (Ok r, s1) /\
    match r with
    | inl (Next o _ _) => exists c, current s = Some c /\ o <> None /\ o = search s (priority s c - 1)
    | inl (CarryOn _) => exists c, current s = Some c /\ ready c = true /\ (expired (mkS s w) -> False) /\
        search s (priority s c - 1) = None
    | inr b => True
    end) as (r & Hr & Hrest).
  { destruct (current s) as [c|] eqn:Hc; [|by exists (inr false)].
    destruct (consider_current_empty c now s1) as (r & E & Hrr); [done|done|done|done|done|].
    exists r. split; [done|]. destruct r as [[bw|o bw n']|]; [| |done].
    - exists c. by destruct Hrr as (? & ? & ?).
    - exists c. by destruct Hrr as [? ?]. }
  rewrite (bind_ok _ _ _ _ _ Hr). destruct r as [ch|bw].
  { exists ch. split; [done|]. destruct ch; [done|by right]. }
  rewrite (bind_ok get_round_robin_task _ s1 None s1) by (unfold get_round_robin_task, get, ask; cbn; by rewrite Hq).
  rewrite (bind_ok (find_next_runnable_task (current s) INT32_MAX) _ s1 (search s INT32_MAX, false) s1)
    by (apply (find_next_steady s1); [done|apply Hcalm|done|done]).
  cbn. unfold get, ask, mbind, TM_bind. cbn.
  destruct (search s INT32_MAX) as [t|] eqn:Ht; cbn; [|eexists; split; [done|by left]].
  rewrite andb_false_r. cbn. eexists. split; [done|]. by left.
Qed.

(** Outside chaos mode reschedule picks a ready task of the highest priority; it
    goes on with the current one only if that is such a task, and not when its
    timeslice is over and another ready task has the same priority. *)
Theorem strict_priority fuel s u :
  inv L (sch s) -> calm (sch s) -> task_round_robin_queue (sch s) = [] ->
  (forall v, v ∈ L -> priority (sch s) v <= INT32_MAX) -> u ∈ L -> ready u = true ->
  exists r s' t, reschedule (S fuel) ALLOW_SWITCH s = (Ok r, s') /\
    current (sch s') = Some t /\ t ∈ L /\ ready t = true /\
    (forall v, v ∈ L -> ready v = true -> priority (sch s) t <= priority (sch s) v) /\
    (started_new_timeslice r = false -> current (sch s) = Some t) /\
    (expired (mkS (sch s) (monotonic_now_sec (wd s)).2) -> current (sch s) = Some t ->
     forall v, v ∈ L -> ready v = true -> priority (sch s) v = priority (sch s) t -> v = t).
Proof.
  intros Hinv Hcalm Hq Hmax Hu Hru.
  destruct (reschedule_calm (S fuel) ALLOW_SWITCH s Hcalm (or_introl eq_refl)) as (now & w & -> & ->).
  set (s1 := mkS (at_start (sch s)) (monotonic_now_sec (wd s)).2).
  assert (inv L (sch s1)) as Hinv1 by (destruct Hinv as ([H1 H2 H3 H4] & H5 & H6); split; [by split|done]).
  destruct (choose_empty fuel now s1) as (ch & Hch & Hspec); [done|done|done|done|].
  unfold pick_and_switch. rewrite (bind_ok _ _ _ _ _ Hch).
  assert (forall t, search (sch s) INT32_MAX = Some t \/
    (exists c, current (sch s) = Some c /\ Some t = search (sch s) (priority (sch s) c - 1)) ->
    t ∈ L /\ ready t = true /\
    (forall v, v ∈ L -> ready v = true -> priority (sch s) t <= priority (sch s) v) /\
    (current (sch s) = Some t -> forall v, v ∈ L -> ready v = true ->
       priority (sch s) v = priority (sch s) t -> v = t)) as Hfound.
  { intros t [Ht|(c & Hc & Ht)].
    - destruct (search_some _ _ _ Hinv Hq Ht) as (? & ? & _ & ?). split_and!; auto.
      intros Hc v Hv Hrv Hpv. by eapply search_current_last.
    - symmetry in Ht. destruct (search_some _ _ _ Hinv Hq Ht) as (? & ? & ? & ?). split_and!; auto.
      intros Hc'. rewrite Hc in Hc'. simplify_eq. lia. }
  destruct ch as [bw|o bw now'].
  - destruct Hspec as (c & Hc & Hrc & Hne & Hs). cbn in Hc. do 3 eexists. split; [done|].
    split; [exact Hc|]. split; [by apply Hinv|]. split; [done|]. split; [|split; [done|]].
    + intros v Hv Hrv. destruct (Z.le_gt_cases (priority (sch s) c) (priority (sch s) v)); [done|].
      rewrite (search_none (sch s) (priority (sch s) c - 1) v) in Hrv; [done|done|done|done|done|lia].
    + intros He. by destruct (Hne He).
  - assert (exists t, o = Some t) as [t ->].
    { destruct o as [t|]; [eauto|]. exfalso. destruct Hspec as [Hs|(c & _ & Hs & _)]; [|done].
      assert (ready u = false) by (apply (search_none (sch s) INT32_MAX u); auto). congruence. }
    destruct (Hfound t) as (HtL & Hrt & Hmin & Hlast).
    { destruct Hspec as [Hs|(c & Hc & _ & Hs)]; [by left|right; eauto]. }
    cbv beta iota.
    rewrite (bind_ok (observe id) _ (with_sch in_round s1) (wd s1) (with_sch in_round s1) eq_refl).
    cbn. rewrite st_unstable.
    destruct (switch_to_calm t now' (with_sch in_round s1)) as (s' & e & E & Hs'); [done|done|by left|].
    rewrite (bind_ok _ _ _ _ _ E). do 3 eexists. split; [done|]. rewrite Hs'. cbn.
    split_and!; auto. done.
Qed.

(** ** A round after [sched_yield] *)

(** The tasks that wait for their turn once the current task has had its own. *)
Definition pending (c : Z) (q : list Z) : list Z :=
  match q with
  | h :: rest => if c =? h then rest else q
  | [] => []
  end.

Lemma popped_queue c s : task_round_robin_queue (popped c s) = pending c (task_round_robin_queue s).
Proof.
  unfold popped, pending. destruct (task_round_robin_queue s) as [|h q] eqn:Hq; [done|].
  by destruct (c =? h).
Qed.

(** [s'] differs from [s] in where tasks queue. *)
Definition same_round (s s' : sstate) : Prop :=
  wd s' = wd s /\ current (sch s') = current (sch s) /\
  always_switch (sch s') = always_switch (sch s) /\
  current_timeslice_end (sch s') = current_timeslice_end (sch s) /\
  calm (sch s') /\ nothing_pending s' /\ inv L (sch s').

Lemma same_round_trans s1 s2 s3 : same_round s1 s2 -> same_round s2 s3 -> same_round s1 s3.
Proof. unfold same_round. intros (-> & -> & -> & -> & _) (-> & -> & -> & -> & ?). done. Qed.

Lemma same_round_popped c s :
  calm (sch s) -> nothing_pending s -> inv L (sch s) -> same_round s (with_sch (popped c) s).
Proof.
  intros Hcalm Hm Hinv. unfold same_round. cbn. rewrite popped_current.
  assert (inv L (popped c (sch s))) by (by apply inv_popped).
  unfold popped in *. unfold nothing_pending in *. cbn.
  destruct (task_round_robin_queue (sch s)) as [|h q]; [done|]. destruct (c =? h); done.
Qed.

Lemma expired_same s s' : same_round s s' -> expired s -> expired s'.
Proof.
  intros (E1 & E2 & E3 & E4 & _) [Ha|He]; [left; congruence|right].
  intros c Hc. rewrite E1, E4. apply He. congruence.
Qed.

Lemma maybe_pop_eq c s : maybe_pop_round_robin_task c s = (Ok tt, with_sch (popped c) s).
Proof.
  rewrite maybe_pop_spec. destruct s as [s w]. unfold popped, with_sch. cbn.
  destruct (task_round_robin_queue s); [done|]. by destruct (c =? z).
Qed.

(** With tasks waiting for their turn, an expired current task gives up its place. *)
Lemma consider_current_queue c h bw now s :
  head (task_round_robin_queue (sch s)) = Some h -> expired s -> current (sch s) = Some c ->
  consider_current c bw now s = (Ok (inr bw), with_sch (popped c) s).
Proof.
  intros Hh He Hc. unfold consider_current, get_round_robin_task.
  rewrite (bind_ok (get _) _ s (Some h) s) by (unfold get, ask; by rewrite Hh).
  rewrite (bind_ok (mret (None, bw)) _ s (None, bw) s eq_refl). cbv beta iota.
  rewrite (bind_ok (get id) _ s (sch s) s eq_refl), (bind_ok (observe id) _ s (wd s) s eq_refl).
  match goal with |- context [if ?b then is_task_runnable c bw else _] => assert (b = false) as -> end.
  { destruct He as [Ha|He]; [unfold id; rewrite Ha; cbn; by rewrite andb_false_r|].
    unfold id. rewrite (proj2 (Z.ltb_ge _ _) (He c Hc)). apply andb_false_r. }
  rewrite (bind_ok (mret (false, bw)) _ s (false, bw) s eq_refl). cbv beta iota.
  by rewrite (bind_ok _ _ _ _ _ (maybe_pop_eq c s)).
Qed.

Lemma choose_queue fuel sk n rest c bw now s :
  nothing_pending s -> calm (sch s) -> inv L (sch s) -> expired s -> current (sch s) = Some c ->
  pending c (task_round_robin_queue (sch s)) = sk ++ n :: rest ->
  (forall u, u ∈ sk -> ready u = false) -> c ∉ sk -> n <> c -> ready n = true ->
  (length sk < fuel)%nat ->
  exists s', choose fuel bw now s = (Ok (Next (Some n) bw now), s') /\ same_round s s' /\
    task_round_robin_queue (sch s') = n :: rest.
Proof.
  revert sk s. induction fuel as [|fuel IH]; intros sk s Hm Hcalm Hinv Hexp Hc Hp Hsk Hcs Hnc Hn Hf; [lia|].
  destruct s as [s w]. cbn [sch] in *. cbn [choose].
  rewrite (bind_ok _ _ _ _ _ (reset_hpo_calm s w now Hcalm)).
  rewrite (bind_ok (put _) _ (mkS s w) tt (mkS (in_round s) w));
    [|unfold put, change, with_sch; cbn; by rewrite not_in_hpo].
  set (s1 := mkS (in_round s) w).
  rewrite (bind_ok (get current) _ s1 (Some c) s1) by (unfold get, ask; cbn; by rewrite Hc).
  assert (inv L (sch s1)) as Hinv1 by (destruct Hinv as ([H1 H2 H3 H4] & H5 & H6); split; [by split|done]).
  assert (same_round (mkS s w) s1) as Hsame by (unfold same_round; cbn; split_and!; auto; done).
  destruct (task_round_robin_queue s) as [|h q] eqn:Hq; [by destruct sk|].
  rewrite (bind_ok _ _ _ _ _ (consider_current_queue c h bw now s1 ltac:(cbn; by rewrite Hq)
    (expired_same _ _ Hsame Hexp) Hc)). cbv beta iota.
  set (s2 := with_sch (popped c) s1).
  assert (same_round s1 s2) as Hsame2 by (by apply same_round_popped).
  assert (task_round_robin_queue (sch s2) = sk ++ n :: rest) as Hq2.
  { cbn. rewrite popped_queue. cbn. by rewrite Hq. }
  destruct sk as [|x sk].
  - rewrite (bind_ok get_round_robin_task _ s2 (Some n) s2)
      by (unfold get_round_robin_task, get, ask; by rewrite Hq2).
    cbv beta iota. destruct Hsame2 as (?&?&?&?&?&Hm2&?).
    rewrite (bind_ok _ _ _ _ _ (runnable_steady n bw s2 Hm2)), Hn. exists s2. split; [done|].
    split; [|done]. by apply (same_round_trans _ s1).
  - rewrite (bind_ok get_round_robin_task _ s2 (Some x) s2)
      by (unfold get_round_robin_task, get, ask; by rewrite Hq2).
    cbv beta iota. pose proof Hsame2 as (E1&E2&E3&E4&Hcalm2&Hm2&Hinv2).
    rewrite (bind_ok _ _ _ _ _ (runnable_steady x bw s2 Hm2)), (Hsk x) by left. cbv beta iota.
    rewrite (bind_ok _ _ _ _ _ (maybe_pop_eq x s2)). cbv beta iota.
    pose proof (same_round_popped x s2 Hcalm2 Hm2 Hinv2) as Hsame3.
    set (s3 := with_sch (popped x) s2) in *.
    assert (same_round (mkS s w) s3) as Hsame' by (apply (same_round_trans _ s1); [done|by apply (same_round_trans _ s2)]).
    assert (task_round_robin_queue (sch s3) = sk ++ n :: rest) as Hq3.
    { cbn. rewrite popped_queue. change (popped c (in_round s)) with (sch s2). rewrite Hq2. cbn.
      by rewrite Z.eqb_refl. }
    pose proof Hsame' as (F1&F2&F3&F4&F5&F6&F7).
    destruct (IH sk s3) as (s' & E & Hs' & Hq'); auto.
    + by apply (expired_same (mkS s w)).
    + by rewrite F2.
    + rewrite Hq3. unfold pending. destruct sk as [|y sk]; cbn.
      * destruct (Z.eqb_spec c n); [congruence|done].
      * destruct (Z.eqb_spec c y) as [->|]; [|done]. destruct Hcs. right. left.
    + intros u Hu. apply Hsk. by right.
    + intros Hcs'. apply Hcs. by right.
    + cbn in Hf. lia.
    + exists s'. split; [done|]. split; [|done]. by apply (same_round_trans _ s3).
Qed.

(** Timeslices: between two calls of [reschedule] the world changes and the timeslice of
    the current task ends.  The list holds the tasks that were given a timeslice. *)
Inductive slices (fuel : nat) : sstate -> list Z -> sstate -> Prop :=
| slices_nil s : slices fuel s [] s
| slices_snoc s l s1 w r s2 t :
    slices fuel s l s1 -> expired (mkS (sch s1) (monotonic_now_sec w).2) ->
    reschedule fuel ALLOW_SWITCH (mkS (sch s1) w) = (Ok r, s2) -> current (sch s2) = Some t ->
    slices fuel s (l ++ [t]) s2.

(** The state of a round: the tasks of [rest] wait, and [y], who started it, is last. *)
Record in_turn (y : Z) (rest : list Z) (s : sstate) : Prop := {
  it_inv : inv L (sch s);
  it_calm : calm (sch s);
  it_nodup : NoDup rest;
  it_queue : List.filter ready rest <> [] ->
    exists c, current (sch s) = Some c /\ c ∉ rest /\
      pending c (task_round_robin_queue (sch s)) = rest ++ [y] }.

Lemma filter_first (f : Z -> bool) l n more :
  List.filter f l = n :: more ->
  exists sk rest, l = sk ++ n :: rest /\ (forall u, u ∈ sk -> f u = false) /\ f n = true /\
    List.filter f rest = more.
Proof.
  induction l as [|x l IH]; cbn; [done|]. destruct (f x) eqn:Hx.
  - intros [= -> <-]. exists [], l. split; [done|]. split; [by intros u []%elem_of_nil|done].
  - intros Hl. destruct (IH Hl) as (sk & rest & -> & Hsk & Hn & Hm). exists (x :: sk), rest.
    split; [done|]. split; [|done]. intros u [->|Hu]%elem_of_cons; auto.
Qed.

Lemma turn_step fuel y rest n more s w :
  in_turn y rest s -> List.filter ready rest = n :: more -> (length rest <= fuel)%nat ->
  expired (mkS (sch s) (monotonic_now_sec w).2) ->
  exists r s' rest', reschedule fuel ALLOW_SWITCH (mkS (sch s) w) = (Ok r, s') /\
    current (sch s') = Some n /\ in_turn y rest' s' /\ List.filter ready rest' = more /\
    (length rest' <= length rest)%nat.
Proof.
  intros [Hinv Hcalm Hnd Hq] Hfil Hfuel Hexp.
  destruct Hq as (c & Hc & Hcr & Hp); [by rewrite Hfil|].
  destruct (filter_first ready rest n more Hfil) as (sk & rest' & -> & Hsk & Hn & Hmore).
  destruct (reschedule_calm fuel ALLOW_SWITCH (mkS (sch s) w) Hcalm (or_introl eq_refl))
    as (now & w' & -> & ->).
  set (s1 := mkS (at_start (sch (mkS (sch s) w))) (monotonic_now_sec (wd (mkS (sch s) w))).2).
  assert (inv L (sch s1)) as Hinv1 by (destruct Hinv as ([H1 H2 H3 H4] & H5 & H6); split; [by split|done]).
  rewrite elem_of_app, elem_of_cons in Hcr.
  destruct (choose_queue fuel sk n (rest' ++ [y]) c false now s1) as (s2 & E & Hsame & Hq2);
    [done|done|done|exact Hexp|done| |done|tauto|intros ->; tauto|done| |].
  { change (pending c (task_round_robin_queue (sch s)) = sk ++ n :: rest' ++ [y]).
    by rewrite Hp, <- app_assoc. }
  { rewrite length_app in Hfuel. cbn in Hfuel. lia. }
  unfold pick_and_switch. rewrite (bind_ok _ _ _ _ _ E). cbv beta iota.
  rewrite (bind_ok (observe id) _ s2 (wd s2) s2 eq_refl). cbn. rewrite st_unstable.
  destruct Hsame as (E1&E2&E3&E4&Hcalm2&Hm2&Hinv2).
  destruct (switch_to_calm n now s2) as (s' & e & Esw & Hs'); [done|done|right; by rewrite Hq2|].
  rewrite (bind_ok _ _ _ _ _ Esw). do 2 eexists. exists rest'. split; [done|].
  rewrite Hs'. cbn. split; [done|]. split; [|split; [done|rewrite length_app; cbn; lia]].
  apply NoDup_app in Hnd as (_ & _ & Hnd). apply NoDup_cons in Hnd as [Hnr Hnd].
  assert (n ∈ L) as HnL.
  { destruct Hinv2 as (_ & HL & _). apply HL. right. rewrite Hq2. left. }
  split.
  - rewrite Hs'. destruct Hinv2 as ([H1 H2 H3 H4] & H5 & H6). split; [by split|].
    split; [done|]. cbn. by intros ? [= <-].
  - rewrite Hs'. exact Hcalm2.
  - done.
  - intros _. exists n. rewrite Hs'. cbn. split; [done|]. split; [done|].
    rewrite Hq2. cbn. by rewrite Z.eqb_refl.
Qed.

Lemma start_round_fields y s :
  enable_chaos (start_round y s) = enable_chaos s /\ hpo_period (start_round y s) = hpo_period s /\
  max_ticks (start_round y s) = max_ticks s /\ current (start_round y s) = current s.
Proof.
  unfold start_round. cbn. generalize (task_priority_set s) as l. intros l. revert s.
  induction l as [|x l IH]; intros s; cbn; [done|].
  destruct (IH (enqueue y x s)) as (-> & -> & -> & ->). unfold enqueue. by destruct (_ && _).
Qed.


End Steady.
