(* ===== verification/FdTables.v ===== *)
(** * Descriptor tables and the buffering flags of the preload library

    [FdTable.cc]: which descriptors rr monitors, and the array
    [syscallbuf_fds_disabled] in the preload library's globals of every address space,
    with which rr makes the library trace the calls on them.

    The state holds every task with its table and its address space, the tables, and
    the array of each address space.  All tasks of an address space have the same
    [preload_globals] ([do_preload_init_arch] sets it for all of them and [Task::clone]
    copies it), so it is a property of the address space here.
    A failed [DEBUG_ASSERT] stops the model, as it stops a debug build. *)

From stdpp Require Import base tactics list numbers gmap.
From S2P Require Import Prelude PreloadInterface TracerMonad.
Local Open Scope Z_scope.

(** ** State *)

(** [fds] maps a descriptor to its monitor.  The counter is 32 bits wide; a process has
    fewer than [2 ^ 31] descriptors, so it does not wrap. *)
Record FdTable := mkTable {
  fds : gmap Z Z;
  fd_count_beyond_limit : Z }.

(** The table and the address space of a task. *)
Record fd_task := mkFdTask { t_fds : Z; t_vm : Z }.

Record fd_state := mkFdState {
  recording : bool;
  tasks : gmap Z fd_task;
  tables : Z -> FdTable;
  preloaded : Z -> bool;
  disabled : Z -> Z -> Z }.

Definition set_tasks v s := mkFdState (recording s) v (tables s) (preloaded s) (disabled s).
Definition set_tables v s := mkFdState (recording s) (tasks s) v (preloaded s) (disabled s).
Definition set_preloaded v s := mkFdState (recording s) (tasks s) (tables s) v (disabled s).
Definition set_disabled v s := mkFdState (recording s) (tasks s) (tables s) (preloaded s) v.

Definition upd_at {A} (f : Z -> A) (k : Z) (v : A) : Z -> A := fun j => if j =? k then v else f j.

Definition F := TM fd_state.

Definition set_table (k : Z) (t : FdTable) (s : fd_state) : fd_state :=
  set_tables (upd_at (tables s) k t) s.

(** The tasks that use a table, and those of an address space. *)
Definition table_tasks (k : Z) (s : fd_state) : list fd_task :=
  List.filter (fun t => t_fds t =? k) (map snd (map_to_list (tasks s))).
Definition vm_tasks (vm : Z) (s : fd_state) : list fd_task :=
  List.filter (fun t => t_vm t =? vm) (map snd (map_to_list (tasks s))).

(** [fds.count(fd) > 0]. *)
Definition is_monitoring (t : FdTable) (fd : Z) : bool := bool_decide (is_Some (fds t !! fd)).
Definition count_beyond_limit (t : FdTable) : Z := fd_count_beyond_limit t.
Definition get_monitor (t : FdTable) (fd : Z) : option Z := fds t !! fd.

Definition beyond (fd : Z) : bool := SYSCALLBUF_FDS_DISABLED_SIZE <=? fd.

(** ** The flags *)

Definition is_fd_monitored_in_any_task (s : fd_state) (vm fd : Z) : bool :=
  existsb (fun t => is_monitoring (tables s (t_fds t)) fd ||
      ((SYSCALLBUF_FDS_DISABLED_SIZE - 1 <=? fd) &&
       (0 <? count_beyond_limit (tables s (t_fds t)))))
    (vm_tasks vm s).

Definition clamp_fd (fd : Z) : Z :=
  if beyond fd then SYSCALLBUF_FDS_DISABLED_SIZE - 1 else fd.

(** The loop of [update_syscallbuf_fds_disabled] over the tasks of the table. *)
Fixpoint update_loop (ts : list fd_task) (vms_updated : list Z) (fd : Z) (s : fd_state) : fd_state :=
  match ts with
  | [] => s
  | t :: ts =>
      if negb (recording s) then s
      else
        let vm := t_vm t in
        if existsb (Z.eqb vm) vms_updated then update_loop ts vms_updated fd s
        else if preloaded s vm then
          let fd := clamp_fd fd in
          let disable := b2z (is_fd_monitored_in_any_task s vm fd) in
          update_loop ts (vm :: vms_updated) fd
            (set_disabled (upd_at (disabled s) vm (upd_at (disabled s vm) fd disable)) s)
        else update_loop ts (vm :: vms_updated) fd s
  end.

Definition update_syscallbuf_fds_disabled (k fd : Z) : F unit :=
  ASSERT (0 <=? fd);;
  ts ← ask (table_tasks k);
  ASSERT (0 <? Z.of_nat (length ts));;
  change (update_loop ts [] fd).

(** [init_syscallbuf_fds_disabled]: the whole array. *)
Definition disabled_fds (s : fd_state) (vm : Z) : Z -> Z := fun i =>
  if (0 <=? i) && (i <? SYSCALLBUF_FDS_DISABLED_SIZE) then
    b2z (existsb (fun t => existsb (fun fd => clamp_fd fd =? i)
                     (map fst (map_to_list (fds (tables s (t_fds t))))))
           (vm_tasks vm s))
  else 0.

Definition init_syscallbuf_fds_disabled (t : Z) : F unit :=
  s ← ask id;
  if negb (recording s) then mret tt
  else
    match tasks s !! t with
    | None => fail FailedAssert
    | Some ti =>
        if negb (preloaded s (t_vm ti)) then mret tt
        else change (fun s => set_disabled (upd_at (disabled s) (t_vm ti) (disabled_fds s (t_vm ti))) s)
    end.

(** ** Operations on a table *)

Definition count_if (b : bool) (n : Z) : Z := if b then n else 0.

Definition add_monitor (k fd monitor : Z) : F unit :=
  t ← ask (fun s => tables s k);
  ASSERT (negb (is_monitoring t fd));;
  change (set_table k (mkTable (<[fd := monitor]> (fds t))
    (fd_count_beyond_limit t + count_if (beyond fd && negb (is_monitoring t fd)) 1)));;
  update_syscallbuf_fds_disabled k fd.

Definition did_dup (k from to : Z) : F unit :=
  t ← ask (fun s => tables s k);
  (match fds t !! from with
   | Some m =>
       change (set_table k (mkTable (<[to := m]> (fds t))
         (fd_count_beyond_limit t + count_if (beyond to && negb (is_monitoring t to)) 1)))
   | None =>
       change (set_table k (mkTable (delete to (fds t))
         (fd_count_beyond_limit t - count_if (beyond to && is_monitoring t to) 1)))
   end);;
  update_syscallbuf_fds_disabled k to.

Definition did_close (k fd : Z) : F unit :=
  change (fun s => let t := tables s k in
    set_table k (mkTable (delete fd (fds t))
      (fd_count_beyond_limit t - count_if (beyond fd && is_monitoring t fd) 1)) s);;
  update_syscallbuf_fds_disabled k fd.

Fixpoint close_all (k : Z) (l : list Z) : F unit :=
  match l with
  | [] => mret tt
  | fd :: l => did_close k fd;; close_all k l
  end.

(** [close_after_exec], which replays [fds_to_close_after_exec]. *)
Definition close_after_exec (t : Z) (fds_to_close : list Z) : F unit :=
  ti ← ask (fun s => tasks s !! t);
  match ti with
  | None => fail FailedAssert
  | Some ti => close_all (t_fds ti) fds_to_close
  end.

(** [is_fd_open] asks the kernel. *)
Definition fds_to_close_after_exec (is_fd_open : Z -> bool) (t : Z) : F (list Z) :=
  ti ← ask (fun s => tasks s !! t);
  match ti with
  | None => fail FailedAssert
  | Some ti =>
      l ← ask (fun s => List.filter (fun fd => negb (is_fd_open fd))
                          (map fst (map_to_list (fds (tables s (t_fds ti))))));
      close_all (t_fds ti) l;; mret l
  end.

(** ** Tasks *)

(** [FdTable::create] for the first task of a session. *)
Definition fd_create (t k vm : Z) : F unit :=
  change (set_table k (mkTable ∅ 0));;
  change (fun s => set_tasks (<[t := mkFdTask k vm]> (tasks s)) s).

(** [FdTable::clone] into the new table [k'] for task [t]. *)
Definition fd_clone (t k' : Z) (ti : fd_task) : F unit :=
  change (fun s => set_table k' (tables s (t_fds ti)) s);;
  change (fun s => set_tasks (<[t := mkFdTask k' (t_vm ti)]> (tasks s)) s).

(** [Task::clone]: the child shares or copies the table, and shares or copies the address
    space (a copy [vm'] has the parent's memory). *)
Definition task_clone (t child : Z) (share_files share_vm : bool) (k' vm' : Z) : F unit :=
  ti ← ask (fun s => tasks s !! t);
  match ti with
  | None => fail FailedAssert
  | Some ti =>
      (if share_vm then mret tt
       else
         change (fun s => set_disabled (upd_at (disabled s) vm' (disabled s (t_vm ti))) s);;
         change (fun s => set_preloaded (upd_at (preloaded s) vm' (preloaded s (t_vm ti))) s));;
      let vm := if share_vm then t_vm ti else vm' in
      if share_files then
        change (fun s => set_tasks (<[child := mkFdTask (t_fds ti) vm]> (tasks s)) s)
      else fd_clone child k' (mkFdTask (t_fds ti) vm)
  end.

(** [unshare(CLONE_FILES)] of [Task::on_syscall_exit]. *)
Definition unshare_files (t k' : Z) : F unit :=
  ti ← ask (fun s => tasks s !! t);
  match ti with None => fail FailedAssert | Some ti => fd_clone t k' ti end.

(** [Task::post_exec]: a new address space without the preload library, and a copy of the
    table. *)
Definition task_exec (t k' vm' : Z) : F unit :=
  ti ← ask (fun s => tasks s !! t);
  match ti with
  | None => fail FailedAssert
  | Some ti =>
      change (fun s => set_preloaded (upd_at (preloaded s) vm' false) s);;
      fd_clone t k' (mkFdTask (t_fds ti) vm')
  end.

(** [Task::~Task]. *)
Definition task_exit (t : Z) : F unit := change (fun s => set_tasks (delete t (tasks s)) s).

(** [Task::at_preload_init]. *)
Definition at_preload_init (t : Z) : F unit :=
  ti ← ask (fun s => tasks s !! t);
  match ti with
  | None => fail FailedAssert
  | Some ti =>
      change (fun s => set_preloaded (upd_at (preloaded s) (t_vm ti) true) s);;
      init_syscallbuf_fds_disabled t
  end.
