(* ===== verification/FdTablesInv.v ===== *)
(** * A monitored descriptor is never buffered

    [update_syscallbuf_fds_disabled] is exact for the descriptor it is called for, and in
    every state rr can reach each descriptor that some task of an address space has
    monitored is disabled in that address space's array; so the preload library traces
    every call on it. *)

From stdpp Require Import base tactics list numbers gmap.
From S2P Require Import Prelude PreloadInterface Machine Syscallbuf Wrappers Hook BufferInv WrapperInv HookInv ProtocolSpec TracerMonad FdTables.
Local Open Scope Z_scope.

(** ** Counting descriptors beyond the array *)

Definition n_beyond (m : gmap Z Z) : Z :=
  Z.of_nat (size (filter (fun x : Z * Z => beyond x.1 = true) m)).

Lemma n_beyond_insert m fd v :
  n_beyond (<[fd := v]> m) =
  n_beyond m + count_if (beyond fd && negb (bool_decide (is_Some (m !! fd)))) 1.
Proof.
  unfold n_beyond. destruct (beyond fd) eqn:Hb.
  - rewrite map_filter_insert_True by done. rewrite map_size_insert, map_lookup_filter.
    destruct (m !! fd) as [w|] eqn:Hm.
    + rewrite (bool_decide_eq_true_2 (is_Some (Some w))) by eauto. cbn.
      rewrite option_guard_True by done. cbn. lia.
    + rewrite (bool_decide_eq_false_2 (is_Some None)) by (by intros []). cbn. lia.
  - rewrite map_filter_insert_False by (cbn; congruence). rewrite map_filter_delete.
    rewrite delete_id; [cbn; lia|]. apply map_lookup_filter_None. right. cbn. congruence.
Qed.

Lemma n_beyond_delete m fd :
  n_beyond (delete fd m) =
  n_beyond m - count_if (beyond fd && bool_decide (is_Some (m !! fd))) 1.
Proof.
  unfold n_beyond. rewrite map_filter_delete, map_size_delete, map_lookup_filter.
  destruct (m !! fd) as [w|] eqn:Hm.
  - rewrite (bool_decide_eq_true_2 (is_Some (Some w))) by eauto. rewrite andb_true_r. cbn. destruct (beyond fd) eqn:Hb; cbn.
    + rewrite option_guard_True by done. cbn.
      assert (size (filter (fun x : Z * Z => beyond x.1 = true) m) <> 0%nat).
      { intros H0%map_size_empty_inv. assert (filter (fun x : Z * Z => beyond x.1 = true) m !! fd = Some w) as Hl.
        { apply map_lookup_filter_Some. auto. }
        rewrite H0 in Hl. done. }
      lia.
    + rewrite option_guard_False by done. cbn. lia.
  - rewrite (bool_decide_eq_false_2 (is_Some None)) by (by intros []). rewrite andb_false_r. cbn. lia.
Qed.

Lemma n_beyond_pos m fd v : m !! fd = Some v -> beyond fd = true -> 0 < n_beyond m.
Proof.
  intros Hm Hb. unfold n_beyond.
  assert (size (filter (fun x : Z * Z => beyond x.1 = true) m) <> 0%nat); [|lia].
  intros H0%map_size_empty_inv.
  assert (filter (fun x : Z * Z => beyond x.1 = true) m !! fd = Some v) as Hl
    by (by apply map_lookup_filter_Some).
  by rewrite H0 in Hl.
Qed.

(** ** The invariant *)

Definition wf_table (t : FdTable) : Prop :=
  fd_count_beyond_limit t = n_beyond (fds t) /\
  forall fd, is_monitoring t fd = true -> 0 <= fd.

Definition monitors (s : fd_state) (ti : fd_task) (fd : Z) : Prop :=
  is_monitoring (tables s (t_fds ti)) fd = true.

(** A descriptor some task has monitored is disabled in the task's address space. *)
Definition sound (s : fd_state) : Prop :=
  recording s = true -> forall t ti fd, tasks s !! t = Some ti -> preloaded s (t_vm ti) = true ->
    monitors s ti fd -> disabled s (t_vm ti) (clamp_fd fd) = 1.

Definition tables_ok (s : fd_state) : Prop :=
  forall t ti, tasks s !! t = Some ti -> wf_table (tables s (t_fds ti)).

Definition fd_inv (s : fd_state) : Prop := tables_ok s /\ sound s.

Lemma elem_of_vm_tasks s vm ti :
  ti ∈ vm_tasks vm s <-> exists t, tasks s !! t = Some ti /\ t_vm ti = vm.
Proof.
  unfold vm_tasks. rewrite list_elem_of_In, filter_In, <- list_elem_of_In, Z.eqb_eq.
  rewrite list_elem_of_fmap. split.
  - intros [([t ti'] & -> & Ht) Hv]. exists t. split; [by apply elem_of_map_to_list|done].
  - intros (t & Ht & Hv). split; [|done]. exists (t, ti). split; [done|]. by apply elem_of_map_to_list.
Qed.

Lemma elem_of_table_tasks s k ti :
  ti ∈ table_tasks k s <-> exists t, tasks s !! t = Some ti /\ t_fds ti = k.
Proof.
  unfold table_tasks. rewrite list_elem_of_In, filter_In, <- list_elem_of_In, Z.eqb_eq.
  rewrite list_elem_of_fmap. split.
  - intros [([t ti'] & -> & Ht) Hv]. exists t. split; [by apply elem_of_map_to_list|done].
  - intros (t & Ht & Hv). split; [|done]. exists (t, ti). split; [done|]. by apply elem_of_map_to_list.
Qed.

(** A monitored descriptor counts for the entry it is clamped to. *)
Lemma monitored_entry s t ti fd :
  tables_ok s -> tasks s !! t = Some ti -> monitors s ti fd ->
  is_fd_monitored_in_any_task s (t_vm ti) (clamp_fd fd) = true.
Proof.
  intros Hok Ht Hm. apply existsb_exists. exists ti. split.
  { apply list_elem_of_In, elem_of_vm_tasks. eauto. }
  unfold clamp_fd. destruct (beyond fd) eqn:Hb.
  - apply orb_true_iff. right. apply andb_true_iff. split; [apply Z.leb_le; lia|].
    apply Z.ltb_lt. unfold count_beyond_limit. rewrite (proj1 (Hok t ti Ht)).
    unfold monitors, is_monitoring in Hm. apply bool_decide_eq_true in Hm as [v Hv].
    by eapply n_beyond_pos.
  - apply orb_true_iff. by left.
Qed.

(** ** The update *)

Lemma clamp_idemp fd : clamp_fd (clamp_fd fd) = clamp_fd fd.
Proof. unfold clamp_fd. destruct (beyond fd) eqn:Hb; [done|]. by rewrite Hb. Qed.

(** What an update for [fd] through the tasks [ts] leaves in the array of [vm]. *)
Definition updated (s : fd_state) (vms : Z -> Prop) (fd : Z) (s' : fd_state) : Prop :=
  recording s' = recording s /\ tasks s' = tasks s /\ tables s' = tables s /\
  preloaded s' = preloaded s /\
  (forall vm i, i <> clamp_fd fd \/ ~ vms vm -> disabled s' vm i = disabled s vm i) /\
  (forall vm, vms vm -> disabled s' vm (clamp_fd fd) =
     b2z (is_fd_monitored_in_any_task s vm (clamp_fd fd))).

Lemma is_monitored_ext s s' vm fd :
  tasks s' = tasks s -> tables s' = tables s ->
  is_fd_monitored_in_any_task s' vm fd = is_fd_monitored_in_any_task s vm fd.
Proof. intros H1 H2. unfold is_fd_monitored_in_any_task, vm_tasks. by rewrite H1, H2. Qed.

Lemma update_loop_spec ts done_ fd s :
  recording s = true ->
  updated s (fun vm => preloaded s vm = true /\ vm ∉ done_ /\ vm ∈ map t_vm ts) fd
    (update_loop ts done_ fd s).
Proof.
  intros Hrec. revert done_ fd s Hrec. induction ts as [|t ts IH]; intros done_ fd s Hrec; cbn [update_loop].
  { unfold updated. split_and!; auto. intros vm (_ & _ & []%elem_of_nil). }
  rewrite Hrec. cbn [negb]. destruct (existsb (Z.eqb (t_vm t)) done_) eqn:Hd.
  - assert (t_vm t ∈ done_) as Hin.
    { apply existsb_exists in Hd as (v & Hv & ->%Z.eqb_eq). by apply list_elem_of_In. }
    destruct (IH done_ fd s Hrec) as (E1 & E2 & E3 & E4 & Ho & Hu). unfold updated. split_and!; auto.
    + intros vm i [Hi|Hv]; apply Ho; [by left|right]. intros (Hp & Hnd & Hm). apply Hv.
      split_and!; auto. cbn. by right.
    + intros vm (Hp & Hnd & Hm). apply Hu. split_and!; auto. cbn in Hm.
      apply elem_of_cons in Hm as [->|Hm]; done.
  - assert (t_vm t ∉ done_) as Hnin.
    { intros Hin%list_elem_of_In. assert (existsb (Z.eqb (t_vm t)) done_ = true) as Ht; [|congruence].
      apply existsb_exists. exists (t_vm t). by rewrite Z.eqb_refl. }
    destruct (preloaded s (t_vm t)) eqn:Hp.
    + set (s1 := set_disabled _ s).
      destruct (IH (t_vm t :: done_) (clamp_fd fd) s1 Hrec) as (E1 & E2 & E3 & E4 & Ho & Hu).
      rewrite clamp_idemp in Ho, Hu. unfold updated. split_and!; auto.
      * intros vm i Hi. rewrite Ho.
        -- cbn. unfold upd_at. destruct (Z.eqb_spec vm (t_vm t)) as [->|]; [|done].
           destruct (Z.eqb_spec i (clamp_fd fd)) as [->|]; [|done].
           destruct Hi as [Hi|Hi]; [done|]. destruct Hi. split_and!; auto. cbn. left.
        -- destruct Hi as [Hi|Hi]; [by left|right]. intros (Hp' & Hnd & Hm). apply Hi.
           rewrite not_elem_of_cons in Hnd. split_and!; auto; [apply Hnd|]. cbn. by right.
      * intros vm (Hp' & Hnd & Hm). destruct (decide (vm = t_vm t)) as [->|Hne].
        -- rewrite Ho; [|right; intros (_ & Hn & _); apply Hn; left].
           cbn. unfold upd_at. by rewrite !Z.eqb_refl.
        -- rewrite Hu; [by rewrite (is_monitored_ext s)|]. split_and!; auto.
           ++ rewrite not_elem_of_cons. auto.
           ++ cbn in Hm. apply elem_of_cons in Hm as [->|Hm]; done.
    + destruct (IH (t_vm t :: done_) fd s Hrec) as (E1 & E2 & E3 & E4 & Ho & Hu).
      unfold updated. split_and!; auto.
      * intros vm i Hi. apply Ho. destruct Hi as [Hi|Hi]; [by left|right]. intros (Hp' & Hnd & Hm).
        apply Hi. rewrite not_elem_of_cons in Hnd. split_and!; auto; [apply Hnd|]. cbn. by right.
      * intros vm (Hp' & Hnd & Hm). apply Hu. assert (vm <> t_vm t) by congruence. split_and!; auto.
        -- rewrite not_elem_of_cons. auto.
        -- cbn in Hm. apply elem_of_cons in Hm as [->|Hm]; done.
Qed.

Lemma update_result k fd s s' :
  update_syscallbuf_fds_disabled k fd s = (Ok tt, s') -> s' = update_loop (table_tasks k s) [] fd s.
Proof.
  intros Hup. unfold update_syscallbuf_fds_disabled, ASSERT, ask, change, mbind, TM_bind in Hup. cbn in Hup.
  destruct (0 <=? fd); cbn in Hup; [|done].
  destruct (0 <? Z.of_nat (length (table_tasks k s))); cbn in Hup; by simplify_eq.
Qed.

(** After an update for [fd] of table [k] the flags are sound again when they were for all
    other descriptors and tables. *)
Lemma update_sound k fd s s' :
  update_syscallbuf_fds_disabled k fd s = (Ok tt, s') -> tables_ok s ->
  (recording s = true -> forall t ti fd', tasks s !! t = Some ti -> preloaded s (t_vm ti) = true ->
     monitors s ti fd' -> clamp_fd fd' <> clamp_fd fd \/ t_fds ti <> k ->
     disabled s (t_vm ti) (clamp_fd fd') = 1) ->
  fd_inv s'.
Proof.
  intros Hup Hok Hother.
  apply update_result in Hup as ->.
  destruct (recording s) eqn:Hrec.
  2: { assert (forall ts, update_loop ts [] fd s = s) as ->.
       { intros []; cbn; [done|]. by rewrite Hrec. }
       split; [done|]. intros H. congruence. }
  destruct (update_loop_spec (table_tasks k s) [] fd s Hrec) as (E1 & E2 & E3 & E4 & Ho & Hu).
  split.
  - intros t ti Ht. rewrite E3. rewrite E2 in Ht. by apply (Hok t).
  - intros _ t ti fd' Ht Hp Hm. rewrite E2 in Ht. rewrite E4 in Hp.
    assert (monitors s ti fd') as Hm' by (unfold monitors in *; by rewrite E3 in Hm).
    destruct (decide (clamp_fd fd' = clamp_fd fd)) as [Heq|Hne].
    + destruct (decide (t_vm ti ∈ map t_vm (table_tasks k s))) as [Hin|Hnin].
      * rewrite Heq, Hu by (split_and!; auto; apply not_elem_of_nil).
        rewrite <- Heq, (monitored_entry s t ti fd'); auto.
      * rewrite Ho by (right; intros (_ & _ & ?); done).
        apply (Hother eq_refl t ti fd'); auto. right. intros Hk. apply Hnin.
        apply list_elem_of_fmap. exists ti. split; [done|]. apply elem_of_table_tasks. eauto.
    + rewrite Ho by (by left). apply (Hother eq_refl t ti fd'); auto.
Qed.

(** ** The operations on a table *)

Lemma update_runs k fd s s' :
  update_syscallbuf_fds_disabled k fd s = (Ok tt, s') ->
  0 <= fd /\ exists t ti, tasks s !! t = Some ti /\ t_fds ti = k.
Proof.
  intros Hup. unfold update_syscallbuf_fds_disabled, ASSERT, ask, change, mbind, TM_bind in Hup.
  destruct (Z.leb_spec 0 fd); cbn in Hup; [|done]. split; [done|].
  destruct (table_tasks k s) as [|ti l] eqn:Hl; cbn in Hup; [done|].
  assert (ti ∈ table_tasks k s) as (t & Ht & Hk)%elem_of_table_tasks by (rewrite Hl; left). eauto.
Qed.

(** Table [k] changes at [fd] only, and the flags are updated for [fd]. *)
Lemma table_change k t' fd s s' :
  fd_inv s -> update_syscallbuf_fds_disabled k fd (set_table k t' s) = (Ok tt, s') ->
  (0 <= fd -> wf_table (tables s k) -> wf_table t') ->
  (forall fd', fd' <> fd -> is_monitoring t' fd' = true -> is_monitoring (tables s k) fd' = true) ->
  fd_inv s'.
Proof.
  intros [Hok Hs] Hup Hwf Hmon. destruct (update_runs _ _ _ _ Hup) as (Hfd & t0 & ti0 & Ht0 & Hk0).
  assert (wf_table t') as Hwf' by (apply Hwf; [done|]; rewrite <- Hk0; by apply (Hok t0)).
  apply (update_sound _ _ _ _ Hup).
  - intros t ti Ht. cbn. unfold upd_at. destruct (Z.eqb_spec (t_fds ti) k); [done|by apply (Hok t)].
  - intros Hrec t ti fd' Ht Hp Hm Hne. apply (Hs Hrec t ti fd' Ht Hp).
    unfold monitors in *. cbn in Hm. unfold upd_at in Hm.
    destruct (Z.eqb_spec (t_fds ti) k) as [He|]; [|done].
    rewrite He. apply Hmon; [|done]. destruct Hne as [Hne|]; [|done]. by intros ->.
Qed.

Lemma is_monitoring_insert m n fd v fd' :
  is_monitoring (mkTable (<[fd := v]> m) n) fd' = (fd' =? fd) || bool_decide (is_Some (m !! fd')).
Proof.
  unfold is_monitoring. cbn [fds]. destruct (Z.eqb_spec fd' fd) as [->|Hne]; cbn [orb].
  - rewrite lookup_insert_eq. by apply bool_decide_eq_true_2.
  - by rewrite lookup_insert_ne.
Qed.

Lemma is_monitoring_delete m n fd fd' :
  is_monitoring (mkTable (delete fd m) n) fd' = negb (fd' =? fd) && bool_decide (is_Some (m !! fd')).
Proof.
  unfold is_monitoring. cbn [fds]. destruct (Z.eqb_spec fd' fd) as [->|Hne]; cbn [negb andb].
  - rewrite lookup_delete_eq. by apply bool_decide_eq_false_2; intros [].
  - by rewrite lookup_delete_ne.
Qed.

Lemma wf_insert t fd v :
  0 <= fd -> wf_table t ->
  wf_table (mkTable (<[fd := v]> (fds t))
    (fd_count_beyond_limit t + count_if (beyond fd && negb (is_monitoring t fd)) 1)).
Proof.
  intros Hfd [Hc Hp]. split.
  - cbn. by rewrite n_beyond_insert, Hc.
  - intros fd'. rewrite is_monitoring_insert. destruct (Z.eqb_spec fd' fd) as [->|]; [done|]. apply Hp.
Qed.

Lemma wf_delete t fd :
  wf_table t ->
  wf_table (mkTable (delete fd (fds t))
    (fd_count_beyond_limit t - count_if (beyond fd && is_monitoring t fd) 1)).
Proof.
  intros [Hc Hp]. split.
  - cbn. by rewrite n_beyond_delete, Hc.
  - intros fd'. rewrite is_monitoring_delete. intros [_ Hm]%andb_true_iff. by apply Hp.
Qed.

Lemma add_monitor_inv k fd m s s' :
  fd_inv s -> add_monitor k fd m s = (Ok tt, s') -> fd_inv s'.
Proof.
  intros Hinv Hrun. unfold add_monitor in Hrun. apply bind_Ok_inv in Hrun as (? & ? & Ha & Hrun).
  injection Ha as <- <-. apply bind_Ok_inv in Hrun as ([] & s1 & Ha & Hrun).
  apply ASSERT_Ok_inv in Ha as [_ ->].
  eapply table_change; [done|exact Hrun|intros; by apply wf_insert|].
  intros fd' Hne. rewrite is_monitoring_insert. by apply Z.eqb_neq in Hne as ->.
Qed.

Lemma did_dup_inv k from to s s' :
  fd_inv s -> did_dup k from to s = (Ok tt, s') -> fd_inv s'.
Proof.
  intros Hinv Hrun. unfold did_dup, ask, mbind, TM_bind in Hrun.
  destruct (fds (tables s k) !! from); cbn [change] in Hrun.
  - eapply table_change; [done|exact Hrun|intros; by apply wf_insert|].
    intros fd' Hne. rewrite is_monitoring_insert. by apply Z.eqb_neq in Hne as ->.
  - eapply table_change; [done|exact Hrun|intros; by apply wf_delete|].
    intros fd' Hne. rewrite is_monitoring_delete. by intros [_ ?]%andb_true_iff.
Qed.

Lemma did_close_inv k fd s s' :
  fd_inv s -> did_close k fd s = (Ok tt, s') -> fd_inv s'.
Proof.
  intros Hinv Hrun. unfold did_close, mbind, TM_bind in Hrun. cbn [change] in Hrun.
  eapply table_change; [done|exact Hrun|intros; by apply wf_delete|].
  intros fd' Hne. rewrite is_monitoring_delete. by intros [_ ?]%andb_true_iff.
Qed.

Lemma close_all_inv k l s s' : fd_inv s -> close_all k l s = (Ok tt, s') -> fd_inv s'.
Proof.
  revert s. induction l as [|fd l IH]; intros s Hinv Hrun; cbn in Hrun; [by injection Hrun as <-|].
  apply bind_Ok_inv in Hrun as ([] & s1 & Hc & Hrun). apply (IH s1); [|done].
  by eapply did_close_inv.
Qed.

(** ** Tasks *)

(** A new table or address space is one no task has. *)
Definition fresh_table (k : Z) (s : fd_state) : Prop := forall t ti, tasks s !! t = Some ti -> t_fds ti <> k.
Definition fresh_vm (vm : Z) (s : fd_state) : Prop := forall t ti, tasks s !! t = Some ti -> t_vm ti <> vm.

(** The task [t] appears, or moves, with a table equal to one of [ti] and an address
    space whose flags cover it. *)
Lemma task_moves t ti t' k vm s :
  fd_inv s -> tasks s !! t = Some ti ->
  k = t_fds ti \/ fresh_table k s ->
  vm = t_vm ti \/ fresh_vm vm s ->
  forall pre dis tab,
  (vm = t_vm ti \/ pre vm = false \/ dis vm = disabled s (t_vm ti) /\ pre vm = preloaded s (t_vm ti)) ->
  (forall v, v <> vm \/ v = t_vm ti -> pre v = preloaded s v /\ dis v = disabled s v) ->
  tab k = tables s (t_fds ti) -> (forall j, j <> k \/ j = t_fds ti -> tab j = tables s j) ->
  fd_inv (mkFdState (recording s) (<[t' := mkFdTask k vm]> (tasks s)) tab pre dis).
Proof.
  intros [Hok Hs] Ht Hk Hvm pre dis tab Hnew Hold Hk' Htab.
  assert (forall u ui, tasks s !! u = Some ui -> tab (t_fds ui) = tables s (t_fds ui)) as Htab'.
  { intros u ui Hu. apply Htab. destruct Hk as [->|Hk].
    - destruct (Z.eq_dec (t_fds ui) (t_fds ti)); auto.
    - left. by apply (Hk u). }
  assert (forall u ui, tasks s !! u = Some ui ->
    pre (t_vm ui) = preloaded s (t_vm ui) /\ dis (t_vm ui) = disabled s (t_vm ui)) as Hold'.
  { intros u ui Hu. apply Hold. destruct Hvm as [->|Hvm].
    - destruct (Z.eq_dec (t_vm ui) (t_vm ti)); auto.
    - left. by apply (Hvm u). }
  split.
  - intros u ui Hu. cbn in Hu |- *. apply lookup_insert_Some in Hu as [[<- <-]|[_ Hu]].
    + cbn. rewrite Hk'. by apply (Hok t).
    + rewrite (Htab' u) by done. by apply (Hok u).
  - intros Hrec u ui fd Hu Hp Hm. cbn in Hrec, Hu, Hp. unfold monitors in Hm. cbn in Hm |- *.
    apply lookup_insert_Some in Hu as [[<- <-]|[_ Hu]].
    + cbn in Hp, Hm |- *. rewrite Hk' in Hm.
      destruct Hnew as [->|[Hnp|[Hd Hpe]]].
      * destruct (Hold (t_vm ti)) as [E1 E2]; [by right|]. rewrite E2. rewrite E1 in Hp. by apply (Hs Hrec t).
      * congruence.
      * rewrite Hd. rewrite Hpe in Hp. by apply (Hs Hrec t).
    + destruct (Hold' u ui Hu) as [E1 E2]. rewrite E2. rewrite E1 in Hp. rewrite (Htab' u) in Hm by done.
      by apply (Hs Hrec u).
Qed.

Lemma upd_at_eq {A} (f : Z -> A) k v : upd_at f k v k = v.
Proof. unfold upd_at. by rewrite Z.eqb_refl. Qed.

Lemma upd_at_other {A} (f : Z -> A) k v j : j <> k -> upd_at f k v j = f j.
Proof. intros Hj. unfold upd_at. by apply Z.eqb_neq in Hj as ->. Qed.

Lemma upd_at_same {A} (f : Z -> A) k j l : j <> k \/ j = l -> upd_at f k (f l) j = f j.
Proof. intros [Hj| ->]; [by apply upd_at_other|]. unfold upd_at. by destruct (l =? k). Qed.
#[local] Hint Resolve upd_at_eq upd_at_other upd_at_same : upd.

Ltac reduce_state :=
  unfold fd_clone, change, mbind, TM_bind, set_tasks, set_table, set_tables, set_preloaded, set_disabled in *;
  cbn [tasks tables recording preloaded disabled] in *.

Lemma task_clone_inv t child sf sv k' vm' s s' :
  fd_inv s -> fresh_table k' s -> fresh_vm vm' s ->
  task_clone t child sf sv k' vm' s = (Ok tt, s') -> fd_inv s'.
Proof.
  intros Hinv Hk Hv Hrun. unfold task_clone, ask, change, mbind, TM_bind in Hrun.
  destruct (tasks s !! t) as [ti|] eqn:Ht; [|done].
  destruct sv, sf; cbn -[upd_at] in Hrun; reduce_state; injection Hrun as <-; apply (task_moves t ti); auto with upd;
    cbn [t_fds]; auto 6 with upd.
Qed.

Lemma unshare_files_inv t k' s s' :
  fd_inv s -> fresh_table k' s -> unshare_files t k' s = (Ok tt, s') -> fd_inv s'.
Proof.
  intros Hinv Hk Hrun. unfold unshare_files, ask, mbind, TM_bind in Hrun.
  destruct (tasks s !! t) as [ti|] eqn:Ht; [|done]. cbn in Hrun. reduce_state. injection Hrun as <-.
  apply (task_moves t ti); auto with upd.
Qed.

Lemma task_exec_inv t k' vm' s s' :
  fd_inv s -> fresh_table k' s -> fresh_vm vm' s ->
  task_exec t k' vm' s = (Ok tt, s') -> fd_inv s'.
Proof.
  intros Hinv Hk Hv Hrun. unfold task_exec, ask, mbind, TM_bind in Hrun.
  destruct (tasks s !! t) as [ti|] eqn:Ht; [|done]. cbn in Hrun. reduce_state. injection Hrun as <-.
  apply (task_moves t ti); auto with upd.
  intros v Hv'. split; [|done]. apply upd_at_other. destruct Hv' as [?| ->]; [done|by apply (Hv t)].
Qed.

Lemma task_exit_inv t s s' : fd_inv s -> task_exit t s = (Ok tt, s') -> fd_inv s'.
Proof.
  intros [Hok Hs] Hrun. injection Hrun as <-. split.
  - intros u ui Hu. cbn in Hu. apply lookup_delete_Some in Hu as [_ Hu]. by apply (Hok u).
  - intros Hrec u ui fd Hu. cbn in Hu. apply lookup_delete_Some in Hu as [_ Hu]. by apply (Hs Hrec u).
Qed.

Lemma fd_create_inv t k vm s s' :
  fd_inv s -> fresh_table k s -> fd_create t k vm s = (Ok tt, s') -> fd_inv s'.
Proof.
  intros [Hok Hs] Hk Hrun. injection Hrun as <-. split.
  - intros u ui Hu. cbn in Hu. apply lookup_insert_Some in Hu as [[<- <-]|[_ Hu]]; cbn.
    + rewrite upd_at_eq. split; [done|]. intros fd. unfold is_monitoring. cbn. by rewrite lookup_empty.
    + rewrite upd_at_other by (by apply (Hk u)). by apply (Hok u).
  - intros Hrec u ui fd Hu Hp Hm. unfold monitors in Hm. cbn in Hm.
    cbn in Hu. apply lookup_insert_Some in Hu as [[<- <-]|[_ Hu]]; cbn in Hm.
    + rewrite upd_at_eq in Hm. unfold is_monitoring in Hm. cbn in Hm. by rewrite lookup_empty in Hm.
    + rewrite upd_at_other in Hm by (by apply (Hk u)). by apply (Hs Hrec u).
Qed.

(** The whole array is initialised with exactly the descriptors that are monitored. *)
Lemma disabled_fds_monitored s t ti fd :
  tables_ok s -> tasks s !! t = Some ti -> monitors s ti fd -> disabled_fds s (t_vm ti) (clamp_fd fd) = 1.
Proof.
  intros Hok Ht Hm. pose proof (proj2 (Hok t ti Ht) fd Hm) as Hfd. unfold disabled_fds.
  assert ((0 <=? clamp_fd fd) && (clamp_fd fd <? SYSCALLBUF_FDS_DISABLED_SIZE) = true) as ->.
  { unfold clamp_fd, beyond. change SYSCALLBUF_FDS_DISABLED_SIZE with 1024.
    destruct (Z.leb_spec 1024 fd); apply andb_true_iff; rewrite Z.leb_le, Z.ltb_lt; lia. }
  unfold monitors, is_monitoring in Hm. apply bool_decide_eq_true in Hm as [v Hv].
  assert (existsb (fun u => existsb (fun x => clamp_fd x =? clamp_fd fd)
    (map fst (map_to_list (fds (tables s (t_fds u)))))) (vm_tasks (t_vm ti) s) = true) as ->; [|done].
  apply existsb_exists. exists ti. split; [apply list_elem_of_In, elem_of_vm_tasks; eauto|].
  apply existsb_exists. exists fd. rewrite Z.eqb_refl. split; [|done].
  apply list_elem_of_In, list_elem_of_fmap. exists (fd, v). split; [done|]. by apply elem_of_map_to_list.
Qed.

Lemma at_preload_init_inv t s s' : fd_inv s -> at_preload_init t s = (Ok tt, s') -> fd_inv s'.
Proof.
  intros [Hok Hs] Hrun. unfold at_preload_init, ask, mbind, TM_bind in Hrun.
  destruct (tasks s !! t) as [ti|] eqn:Ht; [|done]. cbn [change] in Hrun.
  unfold init_syscallbuf_fds_disabled, ask, mbind, TM_bind in Hrun. cbn in Hrun.
  rewrite Ht, upd_at_eq in Hrun. destruct (recording s) eqn:Hrec; cbn in Hrun.
  - injection Hrun as <-. split; [done|].
    intros _ u ui fd Hu Hp Hm. cbn in Hu, Hp, Hm |- *.
    destruct (Z.eq_dec (t_vm ui) (t_vm ti)) as [He|Hne].
    + rewrite He, upd_at_eq, <- He. by apply (disabled_fds_monitored s u).
    + rewrite upd_at_other by done. rewrite upd_at_other in Hp by done. by apply (Hs Hrec u).
  - injection Hrun as <-. split; [done|]. intros Hr. cbn in Hr. congruence.
Qed.

(** ** Reachable states *)

Section Steps.
Variable is_fd_open : Z -> bool.

(** One operation that rr completes.  New tables and address spaces are new objects. *)
Inductive fd_step (s s' : fd_state) : Prop :=
| StepCreate t k vm : fresh_table k s -> fd_create t k vm s = (Ok tt, s') -> fd_step s s'
| StepMonitor k fd m : add_monitor k fd m s = (Ok tt, s') -> fd_step s s'
| StepDup k from to : did_dup k from to s = (Ok tt, s') -> fd_step s s'
| StepClose k fd : did_close k fd s = (Ok tt, s') -> fd_step s s'
| StepExecClose t l : fds_to_close_after_exec is_fd_open t s = (Ok l, s') -> fd_step s s'
| StepReplayClose t l : close_after_exec t l s = (Ok tt, s') -> fd_step s s'
| StepClone t child sf sv k' vm' : fresh_table k' s -> fresh_vm vm' s ->
    task_clone t child sf sv k' vm' s = (Ok tt, s') -> fd_step s s'
| StepUnshare t k' : fresh_table k' s -> unshare_files t k' s = (Ok tt, s') -> fd_step s s'
| StepExec t k' vm' : fresh_table k' s -> fresh_vm vm' s ->
    task_exec t k' vm' s = (Ok tt, s') -> fd_step s s'
| StepExit t : task_exit t s = (Ok tt, s') -> fd_step s s'
| StepPreload t : at_preload_init t s = (Ok tt, s') -> fd_step s s'.

(** Between two operations the preload library of a process changes its own array nowhere. *)
Inductive fd_reachable : fd_state -> Prop :=
| FdStart r tab dis : fd_reachable (mkFdState r ∅ tab (fun _ => false) dis)
| FdNext s s' : fd_reachable s -> fd_step s s' -> fd_reachable s'.

Lemma exec_close_inv t l s s' :
  fd_inv s -> fds_to_close_after_exec is_fd_open t s = (Ok l, s') -> fd_inv s'.
Proof.
  intros Hinv Hrun. unfold fds_to_close_after_exec in Hrun.
  apply bind_Ok_inv in Hrun as (ti & ? & Ha & Hrun).
  injection Ha as <- <-. destruct (tasks s !! t) as [ti|]; [|done].
  apply bind_Ok_inv in Hrun as (? & ? & Ha & Hrun). injection Ha as <- <-.
  apply bind_Ok_inv in Hrun as ([] & s1 & Hc & Hrun). injection Hrun as _ <-. by eapply close_all_inv.
Qed.

Lemma close_after_exec_inv t l s s' :
  fd_inv s -> close_after_exec t l s = (Ok tt, s') -> fd_inv s'.
Proof.
  intros Hinv Hrun. unfold close_after_exec in Hrun. apply bind_Ok_inv in Hrun as (ti & ? & Ha & Hrun).
  injection Ha as <- <-. destruct (tasks s !! t) as [ti|]; [|done]. by eapply close_all_inv.
Qed.

Lemma step_inv s s' : fd_inv s -> fd_step s s' -> fd_inv s'.
Proof.
  intros Hinv [t k vm Hk H|k fd m H|k from to H|k fd H|t l H|t l H|t c sf sv k' vm' Hk Hv H
              |t k' Hk H|t k' vm' Hk Hv H|t H|t H].
  - exact (fd_create_inv _ _ _ _ _ Hinv Hk H).
  - exact (add_monitor_inv _ _ _ _ _ Hinv H).
  - exact (did_dup_inv _ _ _ _ _ Hinv H).
  - exact (did_close_inv _ _ _ _ Hinv H).
  - exact (exec_close_inv _ _ _ _ Hinv H).
  - exact (close_after_exec_inv _ _ _ _ Hinv H).
  - exact (task_clone_inv _ _ _ _ _ _ _ _ Hinv Hk Hv H).
  - exact (unshare_files_inv _ _ _ _ Hinv Hk H).
  - exact (task_exec_inv _ _ _ _ _ Hinv Hk Hv H).
  - exact (task_exit_inv _ _ _ Hinv H).
  - exact (at_preload_init_inv _ _ _ Hinv H).
Qed.

Lemma reachable_inv s : fd_reachable s -> fd_inv s.
Proof.
  induction 1 as [r tab dis|s s' _ IH Hstep]; [|by eapply step_inv].
  split; intros; by rewrite ?lookup_empty in *.
Qed.

(** The array of an address space, as the preload library of one of its threads sees it. *)
Definition sees (s : fd_state) (vm : Z) (g : preload_globals) : Prop :=
  forall i, 0 <= i < SYSCALLBUF_FDS_DISABLED_SIZE -> syscallbuf_fds_disabled g i = disabled s vm i.

Lemma monitored_not_bufferable s t ti fd g :
  fd_reachable s -> recording s = true -> tasks s !! t = Some ti -> preloaded s (t_vm ti) = true ->
  is_monitoring (tables s (t_fds ti)) fd = true -> sees s (t_vm ti) g ->
  is_bufferable_fd fd g = false.
Proof.
  intros [Hok Hs]%reachable_inv Hrec Ht Hp Hm Hg.
  pose proof (proj2 (Hok t ti Ht) fd Hm) as Hfd. specialize (Hs Hrec t ti fd Ht Hp Hm).
  unfold is_bufferable_fd. destruct (Z.ltb_spec fd 0); [lia|].
  assert ((if fd >=? SYSCALLBUF_FDS_DISABLED_SIZE then SYSCALLBUF_FDS_DISABLED_SIZE - 1 else fd) = clamp_fd fd) as ->.
  { unfold clamp_fd, beyond. by rewrite Z.geb_leb. }
  rewrite Hg, Hs; [done|]. unfold clamp_fd, beyond. change SYSCALLBUF_FDS_DISABLED_SIZE with 1024.
  destruct (Z.leb_spec 1024 fd); lia.
Qed.

(** C23.  In every state rr can reach while recording (files monitored,
    duplicated and closed, tasks cloned, exec'd and ended, tables shared and
    unshared), a system call of the 20 descriptor calls on a monitored
    descriptor, made through the preload library of the process, is a traced
    call: rr sees it, nothing is buffered.  This is for calls outside of chaos
    mode whose length argument, where they have one, is not close to or above
    the address of the syscall buffer: a length that makes the end of the record
    wrap into the buffer is not covered. *)
Theorem monitored_fd_is_traced {E : Env} {K : KernelContract E} s t ti fd p call :
  fd_reachable s -> recording s = true -> tasks s !! t = Some ti -> preloaded s (t_vm ti) = true ->
  is_monitoring (tables s (t_fds ti)) fd = true -> sees s (t_vm ti) (gl p) ->
  closed (geom p) -> in_chaos (gl p) = 0 -> lengths_ok (geom p) call ->
  no call ∈ fd_calls -> s32 (arg call 0) = fd ->
  syscall_hook_internal call p = traced_raw_syscall call p.
Proof.
  intros Hr Hrec Ht Hp Hm Hg Hc Hch Hl Hin Hfd. apply disabled_fd_is_traced; auto.
  rewrite Hfd. by eapply monitored_not_bufferable.
Qed.
End Steps.

Lemma n_beyond_inv m : 0 < n_beyond m -> exists fd v, m !! fd = Some v /\ beyond fd = true.
Proof.
  intros Hn. unfold n_beyond in Hn.
  destruct (map_choose (filter (fun x : Z * Z => beyond x.1 = true) m)) as (fd & v & Hv).
  - intros H0. rewrite H0, map_size_empty in Hn. done.
  - apply map_lookup_filter_Some in Hv as [Hv Hb]. eauto.
Qed.

Lemma entry_monitored s vm fd :
  tables_ok s -> is_fd_monitored_in_any_task s vm (clamp_fd fd) = true ->
  exists t ti fd', tasks s !! t = Some ti /\ t_vm ti = vm /\ monitors s ti fd' /\ clamp_fd fd' = clamp_fd fd.
Proof.
  intros Hok Hm. apply existsb_exists in Hm as (ti & Hin & Hm).
  apply list_elem_of_In, elem_of_vm_tasks in Hin as (t & Ht & Hvm). exists t, ti.
  apply orb_true_iff in Hm as [Hm|[Hl Hc]%andb_true_iff].
  - exists (clamp_fd fd). split_and!; auto using clamp_idemp.
  - apply Z.ltb_lt in Hc. unfold count_beyond_limit in Hc. rewrite (proj1 (Hok t ti Ht)) in Hc.
    destruct (n_beyond_inv _ Hc) as (fd' & v & Hv & Hb). exists fd'. split_and!; auto.
    + unfold monitors, is_monitoring. apply bool_decide_eq_true_2. eauto.
    + unfold clamp_fd in *. rewrite Hb. apply Z.leb_le in Hl. unfold beyond in *.
      change SYSCALLBUF_FDS_DISABLED_SIZE with 1024 in *. destruct (Z.leb_spec 1024 fd); lia.
Qed.

(** After an update of the flags of a descriptor, its entry in the array of a
    process is set exactly when some task of the process monitors a descriptor
    with that entry; descriptors past the end share the last one. *)
Theorem update_exact k fd s s' vm :
  update_syscallbuf_fds_disabled k fd s = (Ok tt, s') -> recording s = true -> tables_ok s ->
  vm ∈ map t_vm (table_tasks k s) -> preloaded s vm = true ->
  (disabled s' vm (clamp_fd fd) = 1 <->
   exists t ti fd', tasks s !! t = Some ti /\ t_vm ti = vm /\ monitors s ti fd' /\ clamp_fd fd' = clamp_fd fd).
Proof.
  intros Hup Hrec Hok Hvm Hp. apply update_result in Hup as ->.
  destruct (update_loop_spec (table_tasks k s) [] fd s Hrec) as (_ & _ & _ & _ & _ & Hu).
  rewrite Hu by (split_and!; auto; apply not_elem_of_nil). split.
  - intros Hone. apply entry_monitored; [done|].
    destruct (is_fd_monitored_in_any_task s vm (clamp_fd fd)); done.
  - intros (t & ti & fd' & Ht & <- & Hm & <-). by rewrite (monitored_entry s t).
Qed.
