(* ===== verification/CxxStrings.v ===== *)
(** * C++ strings and ordered containers

    [std::string] as a list of character codes, with [find], [rfind] and [substr];
    [std::set<std::string>] and [std::map<std::string, _>] as lists in the order of
    their iterators, which is the order of the keys; and the file name of a path
    ([get_filename] of util.cc). *)

From Stdlib Require Import String.
From stdpp Require Import base tactics list numbers sorting.
From S2P Require Import Prelude CStrings.
Local Open Scope Z_scope.

(** ** Strings *)

(** [operator<] of [std::string]: lexicographic on the codes. *)
Fixpoint str_ltb (a b : cstring) : bool :=
  match a, b with
  | _, [] => false
  | [], _ :: _ => true
  | x :: a, y :: b => (x <? y) || ((x =? y) && str_ltb a b)
  end.

Definition str_eqb (a b : cstring) : bool := bool_decide (a = b).

Fixpoint is_prefix (p s : cstring) : bool :=
  match p, s with
  | [], _ => true
  | x :: p, y :: s => (x =? y) && is_prefix p s
  | _ :: _, [] => false
  end.

(** [s.find(p) != npos]. *)
Fixpoint contains (p s : cstring) : bool :=
  is_prefix p s || match s with [] => false | _ :: s => contains p s end.

(** [s.find(p)], where [None] is [npos]. *)
Fixpoint str_find (p s : cstring) : option nat :=
  if is_prefix p s then Some 0%nat
  else match s with [] => None | _ :: s => S <$> str_find p s end.

(** The position of the last [c] in [s]. *)
Fixpoint last_index (c : Z) (s : cstring) : option nat :=
  match s with
  | [] => None
  | x :: s =>
      match last_index c s with
      | Some i => Some (S i)
      | None => if x =? c then Some 0%nat else None
      end
  end.

(** [s.rfind(c, pos)]. *)
Definition rfind (c : Z) (pos : nat) (s : cstring) : option nat := last_index c (take (S pos) s).

(** [get_filename]: the part after the last slash, [.] for a path that ends in a slash. *)
Definition get_filename (path : cstring) : cstring :=
  match last_index SLASH path with
  | None => path
  | Some i =>
      match drop (S i) path with
      | [] => if forallb (fun c => c =? SLASH) path then [SLASH] else lit "."
      | f => f
      end
  end.

Lemma str_eqb_eq a b : str_eqb a b = true <-> a = b.
Proof. unfold str_eqb. apply bool_decide_eq_true. Qed.

Lemma str_eqb_refl a : str_eqb a a = true.
Proof. by apply str_eqb_eq. Qed.

Lemma str_eqb_neq a b : a <> b -> str_eqb a b = false.
Proof. unfold str_eqb. apply bool_decide_eq_false_2. Qed.

Lemma str_ltb_irrefl a : str_ltb a a = false.
Proof. induction a as [|x a IH]; [done|]. cbn. by rewrite Z.ltb_irrefl, Z.eqb_refl, IH. Qed.

Lemma str_ltb_trans a b c : str_ltb a b = true -> str_ltb b c = true -> str_ltb a c = true.
Proof.
  revert b c. induction a as [|x a IH]; intros [|y b] [|z c]; cbn; try done.
  rewrite !orb_true_iff, !andb_true_iff, !Z.ltb_lt, !Z.eqb_eq.
  intros [H1|[-> H1]] [H2|[-> H2]]; [left; lia|left; lia|left; lia|right]. eauto.
Qed.

Lemma str_ltb_total a b : str_ltb a b = false -> str_ltb b a = false -> a = b.
Proof.
  revert b. induction a as [|x a IH]; intros [|y b]; cbn; try done.
  rewrite !orb_false_iff, !andb_false_iff, !Z.ltb_ge, !Z.eqb_neq.
  intros [H1 H2] [H3 H4]. assert (x = y) as -> by lia.
  f_equal. apply IH; [by destruct H2|by destruct H4].
Qed.

Definition str_lt (a b : cstring) : Prop := str_ltb a b = true.

#[export] Instance str_lt_trans : Transitive str_lt.
Proof. intros a b c. apply str_ltb_trans. Qed.

Lemma is_prefix_app p s : is_prefix p (p ++ s) = true.
Proof. induction p as [|x p IH]; cbn; [done|]. by rewrite Z.eqb_refl, IH. Qed.

Lemma is_prefix_inv p s : is_prefix p s = true -> exists t, s = p ++ t.
Proof.
  revert s. induction p as [|x p IH]; intros s; [by exists s|]. destruct s as [|y s]; [done|].
  cbn. rewrite andb_true_iff, Z.eqb_eq. intros [-> Hp]. destruct (IH s Hp) as [t ->]. by exists t.
Qed.

Lemma contains_spec p s : contains p s = true <-> exists a b, s = a ++ p ++ b.
Proof.
  split.
  - induction s as [|x s IH]; cbn; rewrite orb_true_iff.
    + intros [H|H]; [|done]. apply is_prefix_inv in H as [t Ht]. by exists [], t.
    + intros [H|H]; [apply is_prefix_inv in H as [t Ht]; by exists [], t|].
      destruct (IH H) as (a & b & ->). by exists (x :: a), b.
  - intros (a & b & ->). induction a as [|x a IH].
    + assert (is_prefix p (p ++ b) = true) as Hp by apply is_prefix_app.
      cbn [app]. destruct (p ++ b); cbn; by rewrite Hp.
    + cbn. rewrite IH. by rewrite orb_true_r.
Qed.

Lemma last_index_None c s : last_index c s = None <-> c ∉ s.
Proof.
  induction s as [|x s IH]; cbn.
  - split; [|done]. intros _. apply not_elem_of_nil.
  - rewrite not_elem_of_cons, <- IH. destruct (last_index c s); [split; [done|by intros [_ ?]]|].
    destruct (Z.eqb_spec x c) as [->|Hne]; split; try done; by intros [].
Qed.

Lemma last_index_app c s t : c ∉ t -> last_index c (s ++ c :: t) = Some (length s).
Proof.
  intros Ht. induction s as [|x s IH]; cbn.
  - apply last_index_None in Ht as ->. by rewrite Z.eqb_refl.
  - by rewrite IH.
Qed.

(** The name of a file in a directory. *)
Lemma get_filename_app dir f : SLASH ∉ f -> f <> [] -> get_filename (dir ++ SLASH :: f) = f.
Proof.
  intros Hf Hne. unfold get_filename. rewrite last_index_app by done.
  replace (drop (S (length dir)) (dir ++ SLASH :: f)) with f; [by destruct f|].
  rewrite (drop_app_ge _ _ (S (length dir))) by lia.
  by replace (S (length dir) - length dir)%nat with 1%nat by lia.
Qed.

(** ** Ordered sets of strings *)

(** [std::set::insert]. *)
Fixpoint sset_insert (k : cstring) (l : list cstring) : list cstring :=
  match l with
  | [] => [k]
  | x :: l' => if str_ltb k x then k :: l else if str_ltb x k then x :: sset_insert k l' else l
  end.

Definition sset_mem (k : cstring) (l : list cstring) : bool := existsb (str_eqb k) l.

(** [erase] of a key. *)
Definition sset_erase (k : cstring) (l : list cstring) : list cstring :=
  List.filter (fun x => negb (str_eqb k x)) l.

Definition sset_of (l : list cstring) : list cstring := fold_left (fun s k => sset_insert k s) l [].

Lemma elem_of_sset_insert k x l : x ∈ sset_insert k l <-> x = k \/ x ∈ l.
Proof.
  induction l as [|y l IH]; cbn; [by rewrite list_elem_of_singleton, elem_of_nil; tauto|].
  destruct (str_ltb k y) eqn:H1; [by rewrite elem_of_cons|].
  destruct (str_ltb y k) eqn:H2; rewrite !elem_of_cons; [rewrite IH; tauto|].
  rewrite (str_ltb_total k y) by done. tauto.
Qed.

Lemma elem_of_sset_fold l s x : x ∈ fold_left (fun s k => sset_insert k s) l s <-> x ∈ l \/ x ∈ s.
Proof.
  revert s. induction l as [|k l IH]; intros s; cbn [fold_left]; [rewrite elem_of_nil; tauto|].
  rewrite IH, elem_of_sset_insert, elem_of_cons. tauto.
Qed.

Lemma elem_of_sset_of l x : x ∈ sset_of l <-> x ∈ l.
Proof. unfold sset_of. rewrite elem_of_sset_fold, elem_of_nil. tauto. Qed.

Lemma sset_mem_spec k l : sset_mem k l = true <-> k ∈ l.
Proof.
  unfold sset_mem. rewrite existsb_exists, list_elem_of_In. split.
  - intros (x & Hx & ->%str_eqb_eq). done.
  - intros H. exists k. by rewrite str_eqb_refl.
Qed.

Lemma sset_insert_sorted k l : StronglySorted str_lt l -> StronglySorted str_lt (sset_insert k l).
Proof.
  induction l as [|x l IH]; intros Hs; cbn; [by repeat constructor|].
  apply StronglySorted_inv in Hs as [Hs Hx].
  destruct (str_ltb k x) eqn:H1.
  - constructor; [by constructor|]. constructor; [done|].
    eapply Forall_impl; [exact Hx|]. intros y Hy. by apply (str_ltb_trans k x).
  - destruct (str_ltb x k) eqn:H2; [|by constructor]. constructor; [by apply IH|].
    apply Forall_forall. intros y Hy%elem_of_sset_insert. destruct Hy as [->|Hy]; [done|].
    rewrite Forall_forall in Hx. by apply Hx.
Qed.

Lemma sset_fold_sorted l s :
  StronglySorted str_lt s -> StronglySorted str_lt (fold_left (fun s k => sset_insert k s) l s).
Proof. revert s. induction l as [|k l IH]; intros s Hs; cbn; [done|]. by apply IH, sset_insert_sorted. Qed.

Lemma sset_sorted_nodup l : StronglySorted str_lt l -> NoDup l.
Proof.
  induction 1 as [|x l Hs IH Hx]; constructor; [|done].
  intros Hin. rewrite Forall_forall in Hx. specialize (Hx x Hin). unfold str_lt in Hx.
  by rewrite str_ltb_irrefl in Hx.
Qed.

(** ** Ordered maps from strings *)

Section Map.
Context {A : Type}.

Fixpoint smap_get (k : cstring) (m : list (cstring * A)) : option A :=
  match m with
  | [] => None
  | (x, v) :: m => if str_eqb k x then Some v else smap_get k m
  end.

(** [m[k] = v]. *)
Fixpoint smap_set (k : cstring) (v : A) (m : list (cstring * A)) : list (cstring * A) :=
  match m with
  | [] => [(k, v)]
  | (x, w) :: m' =>
      if str_ltb k x then (k, v) :: m
      else if str_ltb x k then (x, w) :: smap_set k v m'
      else (k, v) :: m'
  end.

(** [m.insert({k, v})], which keeps the value of a key that is there. *)
Definition smap_insert (k : cstring) (v : A) (m : list (cstring * A)) : list (cstring * A) :=
  match smap_get k m with Some _ => m | None => smap_set k v m end.

Lemma smap_get_set k v m k' :
  StronglySorted str_lt (map fst m) ->
  smap_get k' (smap_set k v m) = if str_eqb k' k then Some v else smap_get k' m.
Proof.
  induction m as [|[x w] m IH]; intros Hs; cbn [smap_set smap_get map fst] in *; [done|].
  apply StronglySorted_inv in Hs as [Hs Hx].
  destruct (str_ltb k x) eqn:H1; [by cbn|].
  destruct (str_ltb x k) eqn:H2; cbn [smap_get].
  - rewrite IH by done. destruct (str_eqb k' x) eqn:E1; [|done].
    apply str_eqb_eq in E1 as ->. rewrite str_eqb_neq; [done|]. intros ->. by rewrite str_ltb_irrefl in H2.
  - rewrite (str_ltb_total k x) by done. by destruct (str_eqb k' x).
Qed.

Lemma smap_set_sorted k v m :
  StronglySorted str_lt (map fst m) -> StronglySorted str_lt (map fst (smap_set k v m)).
Proof.
  assert (forall m, map fst (smap_set k v m) = sset_insert k (map fst m)) as ->.
  { induction m0 as [|[x w] m0 IH]; cbn [smap_set map fst sset_insert]; [done|].
    destruct (str_ltb k x) eqn:H1; [done|]. destruct (str_ltb x k) eqn:H2; cbn [map fst]; [by rewrite IH|].
    by rewrite (str_ltb_total k x). }
  apply sset_insert_sorted.
Qed.
End Map.
