(* ===== verification/MuplayPatch.v ===== *)
(** * The patch a mutable replay applies

    [MuplayPatch.cc] and [MuplayPatchReader.cc]: from the text of a patch to the numbers
    of the inserted and of the deleted lines of each source file.

    A text file is the list of lines [getline] returns, with a flag for a newline at its
    end.  The program [filterdiff], which splits a patch into one text per changed file,
    is a parameter. *)

From Stdlib Require Import String.
From stdpp Require Import base tactics list numbers.
From S2P Require Import Prelude CStrings CxxStrings TracerMonad.
Local Open Scope Z_scope.

Record text_file := mkText { text_lines : list cstring; final_newline : bool }.

(** ** State *)

(** [ins_time] and [del_time] of the source are never used. *)
Record Hunk := mkHunk {
  file_name : cstring;
  del_line : Z * Z;
  ins_line : Z * Z;
  diff_code : list cstring;
  insertion_lines : list Z;
  deletion_lines : list Z }.

Definition empty_hunk : Hunk := mkHunk [] (-1, -1) (-1, -1) [] [] [].

(** The two keys of the inner map of [FileToLineMap], ["ins"] and ["del"]. *)
Record file_lines := mkLines { ins : list Z; del : list Z }.

Record MuplayPatch := mkPatch {
  file_to_lines : list (cstring * file_lines);
  currenthk : Hunk;
  hd_file_name : list cstring;
  hd_file_name_size : Z;
  hd_modilines : list Z;
  hd_modistatus : list cstring;
  hd_modiinfo : cstring;
  HK : list Hunk }.

Definition empty_patch : MuplayPatch := mkPatch [] empty_hunk [] 0 [] [] [] [].

Definition set_file_to_lines v p := mkPatch v (currenthk p) (hd_file_name p) (hd_file_name_size p)
  (hd_modilines p) (hd_modistatus p) (hd_modiinfo p) (HK p).
Definition set_currenthk v p := mkPatch (file_to_lines p) v (hd_file_name p) (hd_file_name_size p)
  (hd_modilines p) (hd_modistatus p) (hd_modiinfo p) (HK p).
Definition set_hd_file_name v p := mkPatch (file_to_lines p) (currenthk p) v (hd_file_name_size p)
  (hd_modilines p) (hd_modistatus p) (hd_modiinfo p) (HK p).
Definition set_hd_file_name_size v p := mkPatch (file_to_lines p) (currenthk p) (hd_file_name p) v
  (hd_modilines p) (hd_modistatus p) (hd_modiinfo p) (HK p).
Definition set_HK v p := mkPatch (file_to_lines p) (currenthk p) (hd_file_name p) (hd_file_name_size p)
  (hd_modilines p) (hd_modistatus p) (hd_modiinfo p) v.

Definition P := TM MuplayPatch.

(** ** Numbers of a hunk header *)

Definition AT : Z := 64.
Definition MINUS : Z := 45.
Definition PLUS : Z := 43.
Definition INT_MAX : Z := 2 ^ 31 - 1.

Definition is_digit (c : Z) : bool := (48 <=? c) && (c <=? 57).

(** [isspace] in the C locale. *)
Definition is_space (c : Z) : bool := (c =? 32) || ((9 <=? c) && (c <=? 13)).

Fixpoint skip_space (s : cstring) : cstring :=
  match s with
  | c :: s' => if is_space c then skip_space s' else s
  | [] => []
  end.

(** [is >> i] for an int: the digits up to the first other character. *)
Fixpoint read_digits (acc : Z) (s : cstring) : Z * cstring :=
  match s with
  | c :: s' => if is_digit c then read_digits (acc * 10 + (c - 48)) s' else (acc, s)
  | [] => (acc, [])
  end.

(** The loop of [get_line_num].  A number that does not fit in an int is read as [INT_MAX]
    and puts the stream in a failed state, which ends the loop. *)
Fixpoint line_num_loop (fuel : nat) (s : cstring) (cnt : Z) (v : list Z) : option (list Z) :=
  match fuel with
  | O => None
  | S fuel =>
      match skip_space s with
      | [] => Some v
      | ch :: s' =>
          if negb (cnt <=? 3) then Some v
          else if ch =? AT then line_num_loop fuel s' (cnt + 1) v
          else if is_digit ch then
            let '(i, rest) := read_digits 0 (ch :: s') in
            if INT_MAX <? i then Some (v ++ [INT_MAX]) else line_num_loop fuel rest cnt (v ++ [i])
          else line_num_loop fuel s' cnt v
      end
  end.

(** Each round of the loop reads a character. *)
Definition get_line_num (str : cstring) : P ((Z * Z) * (Z * Z)) :=
  match line_num_loop (S (length str)) str 0 [] with
  | None => fail NoFuel
  | Some v =>
      match v !! 0%nat, v !! 1%nat, v !! 2%nat, v !! 3%nat with
      | Some d0, Some d1, Some i0, Some i1 => mret ((d0, d1), (i0, i1))
      | _, _, _, _ => fail BadAccess
      end
  end.

(** ** Hunks *)

Definition add_hunk_vec : P unit := change (fun p => set_HK (HK p ++ [currenthk p]) p).
Definition assign_current_hunk (chk : Hunk) : P unit := change (set_currenthk chk).

Definition hk_whether_get_number (hk : Hunk) : bool :=
  negb ((fst (del_line hk) =? -1) && (snd (del_line hk) =? -1) &&
        (fst (ins_line hk) =? -1) && (snd (ins_line hk) =? -1)).

(** The first character of a line; that of an empty string is 0. *)
Definition first_char (s : cstring) : Z := match s with c :: _ => c | [] => 0 end.

(** The loop of [hk_gen_line_num] over the lines from offsets [d] and [i], which returns the
    numbers it appends to [deletion_lines] and [insertion_lines]. *)
Fixpoint line_numbers (del0 ins0 d i : Z) (code : list cstring) : list Z * list Z :=
  match code with
  | [] => ([], [])
  | l :: code =>
      if first_char l =? MINUS then
        let '(ds, ns) := line_numbers del0 ins0 (s32 (d + 1)) i code in (s32 (del0 + d) :: ds, ns)
      else if first_char l =? PLUS then
        let '(ds, ns) := line_numbers del0 ins0 d (s32 (i + 1)) code in (ds, s32 (ins0 + i) :: ns)
      else line_numbers del0 ins0 (s32 (d + 1)) (s32 (i + 1)) code
  end.

(** [del_size] and [ins_size] count the numbers of this call. *)
Definition hk_gen_line_num (hk : Hunk) : Hunk :=
  let '(ds, ns) := line_numbers (fst (del_line hk)) (fst (ins_line hk)) 0 0 (diff_code hk) in
  let no_del := Z.of_nat (length ds) =? 0 in
  let no_ins := Z.of_nat (length ns) =? 0 in
  mkHunk (file_name hk) (del_line hk) (ins_line hk) (diff_code hk)
    (insertion_lines hk ++ ns ++ (if negb no_del && no_ins then [0] else []))
    (deletion_lines hk ++ ds ++ (if no_del then [0] else [])).

Definition whether_hunk_finish : P unit :=
  hk ← ask currenthk;
  if hk_whether_get_number hk then
    change (set_currenthk (hk_gen_line_num hk));;
    change (fun p => set_HK (HK p ++ [currenthk p]) p)
  else mret tt.

Definition hk_get_lines (hk : Hunk) (d i : Z * Z) : Hunk :=
  mkHunk (file_name hk) d i (diff_code hk) (insertion_lines hk) (deletion_lines hk).

Definition get_hunk_content (pfn s : cstring) : P unit :=
  let tmphk := mkHunk pfn (-1, -1) (-1, -1) [] [] [] in
  n ← get_line_num s;
  change (set_currenthk (hk_get_lines tmphk (fst n) (snd n))).

Definition hk_store_diff_code (str : cstring) (hk : Hunk) : Hunk :=
  mkHunk (file_name hk) (del_line hk) (ins_line hk) (diff_code hk ++ [str])
    (insertion_lines hk) (deletion_lines hk).

Definition get_hunk_code (s : cstring) : P unit :=
  hk ← ask currenthk;
  if hk_whether_get_number hk then change (set_currenthk (hk_store_diff_code s hk)) else mret tt.

Definition get_all_hunk (p : MuplayPatch) : list Hunk := HK p.
Definition get_modified_files (p : MuplayPatch) : list cstring := hd_file_name p.

Definition get_hunk_file_name (p : MuplayPatch) (i : Z) : cstring :=
  if (0 <=? i) && (i <? Z.of_nat (length (HK p))) then
    match HK p !! Z.to_nat i with Some h => file_name h | None => [] end
  else [].

(** ** Lines of each file *)

Definition add_hunk_lines (m : list (cstring * file_lines)) (h : Hunk) : list (cstring * file_lines) :=
  match smap_get (file_name h) m with
  | None => smap_set (file_name h) (mkLines (insertion_lines h) (deletion_lines h)) m
  | Some l => smap_set (file_name h)
      (mkLines (ins l ++ insertion_lines h) (del l ++ deletion_lines h)) m
  end.

Definition get_all_mod_lines_for_files : P unit :=
  change (fun p => set_file_to_lines (fold_left add_hunk_lines (HK p) (file_to_lines p)) p).

Definition lines_of (p : MuplayPatch) (f : cstring) : file_lines :=
  match smap_get f (file_to_lines p) with Some l => l | None => mkLines [] [] end.

Definition get_num_inserted_lines (p : MuplayPatch) : Z :=
  fold_left (fun res h => wrapu 32 (res + Z.of_nat (length (ins (lines_of p (file_name h)))))) (HK p) 0.
Definition get_num_deleted_lines (p : MuplayPatch) : Z :=
  fold_left (fun res h => wrapu 32 (res + Z.of_nat (length (del (lines_of p (file_name h)))))) (HK p) 0.

(** ** Header *)

Definition hd_get_file_name (fn : cstring) : P unit :=
  change (fun p => set_hd_file_name (hd_file_name p ++ [fn]) p).
Definition hd_get_modiinfo (mi : cstring) : P unit := change (fun p =>
  mkPatch (file_to_lines p) (currenthk p) (hd_file_name p) (hd_file_name_size p)
    (hd_modilines p) (hd_modistatus p) mi (HK p)).
Definition hd_get_modilines (ml : Z) : P unit := change (fun p =>
  mkPatch (file_to_lines p) (currenthk p) (hd_file_name p) (hd_file_name_size p)
    (hd_modilines p ++ [ml]) (hd_modistatus p) (hd_modiinfo p) (HK p)).
Definition hd_get_modistatus (ms : cstring) : P unit := change (fun p =>
  mkPatch (file_to_lines p) (currenthk p) (hd_file_name p) (hd_file_name_size p)
    (hd_modilines p) (hd_modistatus p ++ [ms]) (hd_modiinfo p) (HK p)).

Definition hd_show_file_name_size : P Z :=
  change (fun p => set_hd_file_name_size (s32 (Z.of_nat (length (hd_file_name p)))) p);;
  ask hd_file_name_size.

(** ** Reader *)

(** The length of the common prefix, which is where [std::mismatch] stops. *)
Fixpoint mismatch (a b : cstring) : nat :=
  match a, b with
  | x :: a, y :: b => if x =? y then S (mismatch a b) else 0%nat
  | _, _ => 0%nat
  end.

Definition get_file_name (a b : cstring) : cstring :=
  let a := rev a in
  let b := rev b in
  let pos := mismatch a b in
  let len := match rfind SLASH pos a with Some found => S found | None => 0%nat end in
  rev (take len a).

Definition is_hunk_start (s : cstring) : bool :=
  contains (lit "@@") s && str_eqb (take 2 s) (lit "@@").

(** The loop of [read_hunk].  The line after a header is read and stored; at the end of the
    file [getline] leaves an empty string, or the header itself when the file does not end in
    a newline. *)
Fixpoint hunk_loop (pfn : cstring) (nl : bool) (lines : list cstring) : P unit :=
  match lines with
  | [] => mret tt
  | s :: rest =>
      if is_hunk_start s then
        whether_hunk_finish;;
        get_hunk_content pfn s;;
        match rest with
        | [] => get_hunk_code (if nl then [] else s)
        | s' :: rest => get_hunk_code s';; hunk_loop pfn nl rest
        end
      else get_hunk_code s;; hunk_loop pfn nl rest
  end.

Definition read_hunk (hunk_file : option text_file) (patch_file_name : cstring) : P unit :=
  match hunk_file with
  | None => fail Fatal
  | Some rf =>
      change (set_currenthk empty_hunk);;
      hunk_loop patch_file_name (final_newline rf) (text_lines rf);;
      change (fun p => set_currenthk (hk_gen_line_num (currenthk p)) p);;
      add_hunk_vec
  end.

(** [ss >> token]: the next word, [None] at the end. *)
Fixpoint word (s : cstring) : cstring * cstring :=
  match s with
  | c :: s' => if is_space c then ([], s) else let '(w, r) := word s' in (c :: w, r)
  | [] => ([], [])
  end.

Definition next_word (old s : cstring) : cstring * cstring :=
  match skip_space s with
  | [] => (old, [])
  | s => word s
  end.

(** The first loop of [read_file]; [old_version] and [new_version] keep their values when a line
    has too few words. *)
Fixpoint file_names (old_version new_version : cstring) (lines : list cstring) : P unit :=
  match lines with
  | [] => mret tt
  | s :: rest =>
      if contains (lit "diff --git") s then
        let s1 := snd (next_word [] s) in
        let s2 := snd (next_word [] s1) in
        let '(o, s3) := next_word old_version s2 in
        let '(n, _) := next_word new_version s3 in
        hd_get_file_name (get_file_name o n);; file_names o n rest
      else file_names old_version new_version rest
  end.

Section Reader.
(** [filterdiff --files=i] on the patch: its exit status is zero and the text it writes can
    be opened, or [None]. *)
Variable filterdiff : nat -> option text_file.

(** The files [i], [i+1], ... of the header. *)
Fixpoint read_files (i : nat) (names : list cstring) : P unit :=
  match names with
  | [] => mret tt
  | fn :: names => read_hunk (filterdiff i) fn;; read_files (S i) names
  end.

Definition read_file (patch : option text_file) : P unit :=
  match patch with
  | None => fail Fatal
  | Some rf =>
      file_names [] [] (text_lines rf);;
      hd_show_file_name_size;;
      names ← ask hd_file_name;
      read_files 1 names;;
      get_all_mod_lines_for_files
  end.
End Reader.

Example header_ex :
  get_line_num (lit "@@ -10,7 +12,8 @@ int main(void) 3") empty_patch = (Ok ((10, 7), (12, 8)), empty_patch).
Proof. vm_compute. reflexivity. Qed.

Example short_header_ex :
  fst (get_line_num (lit "@@ -10 +12 @@ int main(void)") empty_patch) = Err BadAccess.
Proof. vm_compute. reflexivity. Qed.

Example names_ex : get_file_name (lit "a/test/x.c") (lit "b/test/x.c") = lit "/test/x.c".
Proof. vm_compute. reflexivity. Qed.
