(* ===== verification/MuplayPatchSpec.v ===== *)
(** * What the patch reader computes

    The reference is an edit script: the lines a hunk keeps, deletes and inserts, and the
    marker of diff behind a line without a newline.  The reader finds, for the unified diff of such scripts, the places of the deleted lines in
    the old file and of the inserted lines in the new one. *)

From Stdlib Require Import String.
From stdpp Require Import base tactics list numbers sorting.
From S2P Require Import Prelude CStrings CxxStrings TracerMonad MuplayPatch.
Local Open Scope Z_scope.

(** ** Edit scripts *)

(** The last constructor is the line that diff writes behind the last line of a file without a final newline; it is
    no line of either file. *)
Inductive edit := Keep (l : cstring) | Del (l : cstring) | Ins (l : cstring) | NoNewline.

Definition NO_NEWLINE : cstring := lit "\ No newline at end of file".

Definition render (e : edit) : cstring :=
  match e with Keep l => 32 :: l | Del l => MINUS :: l | Ins l => PLUS :: l | NoNewline => NO_NEWLINE end.

Definition old_line (e : edit) : list cstring := match e with Keep l | Del l => [l] | Ins _ | NoNewline => [] end.
Definition new_line (e : edit) : list cstring := match e with Keep l | Ins l => [l] | Del _ | NoNewline => [] end.

Definition is_marker (e : edit) : bool := match e with NoNewline => true | _ => false end.
Definition del_text (e : edit) : list cstring := match e with Del l => [l] | _ => [] end.
Definition ins_text (e : edit) : list cstring := match e with Ins l => [l] | _ => [] end.

Definition old_of (es : list edit) : list cstring := es ≫= old_line.
Definition new_of (es : list edit) : list cstring := es ≫= new_line.
Definition deleted (es : list edit) : list cstring := es ≫= del_text.
Definition inserted (es : list edit) : list cstring := es ≫= ins_text.

(** The lines of [sel] at which the script has an edit with text, counted from [n]. *)
Fixpoint positions (side sel : edit -> list cstring) (n : Z) (es : list edit) : list Z :=
  match es with
  | [] => []
  | e :: es => (if Z.of_nat (length (sel e)) =? 0 then [] else [n]) ++
               positions side sel (n + Z.of_nat (length (side e))) es
  end.

Definition dels (n : Z) (es : list edit) : list Z := positions old_line del_text n es.
Definition inss (n : Z) (es : list edit) : list Z := positions new_line ins_text n es.

Lemma line_numbers_app es del0 ins0 d i rest :
  Forall (fun e => is_marker e = false) es ->
  0 <= del0 -> 0 <= ins0 -> 0 <= d -> 0 <= i ->
  del0 + d + Z.of_nat (length es) < 2 ^ 31 -> ins0 + i + Z.of_nat (length es) < 2 ^ 31 ->
  line_numbers del0 ins0 d i (map render es ++ rest) =
  let r := line_numbers del0 ins0 (d + Z.of_nat (length (old_of es))) (i + Z.of_nat (length (new_of es))) rest in
  (dels (del0 + d) es ++ fst r, inss (ins0 + i) es ++ snd r).
Proof.
  intros Hm Hd0 Hi0. revert d i. induction Hm as [|e es Hm _ IH]; intros d i Hd Hi Hbd Hbi.
  { cbn. rewrite !Z.add_0_r. by destruct (line_numbers _ _ _ _ rest). }
  rewrite length_cons in Hbd, Hbi.
  assert (s32 (d + 1) = d + 1) as Ed by (apply wraps_small; lia).
  assert (s32 (i + 1) = i + 1) as Ei by (apply wraps_small; lia).
  assert (old_of (e :: es) = old_line e ++ old_of es) as -> by done.
  assert (new_of (e :: es) = new_line e ++ new_of es) as -> by done.
  cbn zeta in *. destruct e as [l|l|l|]; [| | |done]; cbn [map app render line_numbers first_char old_line new_line];
    unfold dels, inss in *; cbn [positions old_line new_line del_text ins_text length];
    rewrite ?Ed, ?Ei, ?Nat2Z.inj_succ; change (Z.of_nat 1) with 1; change (Z.of_nat 0) with 0; rewrite ?Z.add_0_r.
  - change (32 =? MINUS) with false. change (32 =? PLUS) with false. change (0 =? 0) with true. cbn match.
    rewrite IH by lia. cbn [app]. rewrite <- !Z.add_assoc, !(Z.add_comm 1). done.
  - change (MINUS =? MINUS) with true. change (1 =? 0) with false. change (0 =? 0) with true. cbn match.
    rewrite IH by lia. rewrite wraps_small by lia. cbn [app]. rewrite <- !Z.add_assoc, !(Z.add_comm 1). done.
  - change (PLUS =? MINUS) with false. change (PLUS =? PLUS) with true. change (1 =? 0) with false.
    change (0 =? 0) with true. cbn match. rewrite IH by lia. rewrite wraps_small by lia. cbn [app].
    rewrite <- !Z.add_assoc, !(Z.add_comm 1). done.
Qed.

(** The marker is only behind the last line that changes. *)
Definition markers_last (es : list edit) : Prop :=
  exists lines markers, es = lines ++ markers /\ Forall (fun e => is_marker e = false) lines /\
    Forall (fun e => is_marker e = true) markers.

Lemma line_numbers_markers es del0 ins0 d i :
  Forall (fun e => is_marker e = true) es -> line_numbers del0 ins0 d i (map render es) = ([], []).
Proof. intros Hm. revert d i. induction Hm as [|e es He _ IH]; intros d i; [done|]. destruct e; try done. apply IH. Qed.

Lemma positions_markers side sel n lines markers :
  (forall e, is_marker e = true -> sel e = []) -> Forall (fun e => is_marker e = true) markers ->
  positions side sel n (lines ++ markers) = positions side sel n lines.
Proof.
  intros Hsel Hm. revert n. induction lines as [|e es IH]; intros n; cbn [app positions]; [|by rewrite IH].
  revert n. induction Hm as [|e es He _ IH]; intros n; [done|]. cbn [positions]. by rewrite (Hsel e He), IH.
Qed.

Lemma line_numbers_spec es del0 ins0 :
  markers_last es -> 0 <= del0 -> 0 <= ins0 ->
  del0 + Z.of_nat (length es) < 2 ^ 31 -> ins0 + Z.of_nat (length es) < 2 ^ 31 ->
  line_numbers del0 ins0 0 0 (map render es) = (dels del0 es, inss ins0 es).
Proof.
  intros (ls & ms & -> & Hls & Hms) Hd Hi Hbd Hbi. rewrite length_app in Hbd, Hbi. rewrite map_app, line_numbers_app by (done || lia).
  cbn zeta. rewrite line_numbers_markers by done. cbn [fst snd]. rewrite !app_nil_r, !Z.add_0_r. unfold dels, inss.
  by rewrite !(positions_markers _ _ _ ls ms) by (done || by intros []).
Qed.

(** The numbers point to the lines. *)
Lemma positions_lookup side sel pre post es :
  (forall e, sel e = [] \/ sel e = side e /\ length (side e) = 1%nat) ->
  Forall2 (fun n l => 1 <= n /\ (pre ++ (es ≫= side) ++ post) !! Z.to_nat (n - 1) = Some l)
    (positions side sel (Z.of_nat (length pre) + 1) es) (es ≫= sel).
Proof.
  intros Hsel. revert pre. induction es as [|e es IH]; intros pre; cbn; [constructor|].
  specialize (IH (pre ++ side e)). rewrite length_app, Nat2Z.inj_add in IH.
  replace (Z.of_nat (length pre) + Z.of_nat (length (side e)) + 1) with
    (Z.of_nat (length pre) + 1 + Z.of_nat (length (side e))) in IH by lia.
  rewrite <- app_assoc in IH. rewrite <- (app_assoc (side e)).
  apply Forall2_app; [|done]. destruct (Hsel e) as [->|[-> Hlen]]; [constructor|].
  destruct (side e) as [|l [|]]; cbn in Hlen; try done. cbn. constructor; [|constructor]. split; [lia|].
  rewrite lookup_app_r by lia. replace (Z.to_nat _ - length pre)%nat with 0%nat by lia. done.
Qed.

Lemma dels_lookup pre post es :
  Forall2 (fun n l => 1 <= n /\ (pre ++ old_of es ++ post) !! Z.to_nat (n - 1) = Some l)
    (dels (Z.of_nat (length pre) + 1) es) (deleted es).
Proof. apply positions_lookup. intros []; cbn; auto. Qed.

Lemma inss_lookup pre post es :
  Forall2 (fun n l => 1 <= n /\ (pre ++ new_of es ++ post) !! Z.to_nat (n - 1) = Some l)
    (inss (Z.of_nat (length pre) + 1) es) (inserted es).
Proof. apply positions_lookup. intros []; cbn; auto. Qed.

(** ** Headers *)

Definition digits (s : cstring) : Prop := s <> [] /\ Forall (fun c => is_digit c = true) s.
Definition number (s : cstring) : Z := fst (read_digits 0 s).

Lemma read_digits_app acc ds rest :
  Forall (fun c => is_digit c = true) ds -> (forall c r, rest = c :: r -> is_digit c = false) ->
  read_digits acc (ds ++ rest) = (fst (read_digits acc ds), rest).
Proof.
  intros Hd Hr. revert acc. induction Hd as [|c ds Hc Hd IH]; intros acc; cbn.
  - destruct rest as [|c r]; [done|]. cbn. by rewrite (Hr c r).
  - by rewrite Hc, IH.
Qed.

Lemma read_digits_nonneg acc ds : 0 <= acc -> 0 <= fst (read_digits acc ds).
Proof.
  revert acc. induction ds as [|c ds IH]; intros acc Ha; cbn; [done|].
  destruct (is_digit c) eqn:Hc; [|done]. apply IH. unfold is_digit in Hc.
  apply andb_true_iff in Hc as [H1%Z.leb_le _]. lia.
Qed.

Lemma digit_not_space c : is_digit c = true -> is_space c = false /\ c <> AT.
Proof.
  unfold is_digit, is_space, AT. rewrite andb_true_iff, !Z.leb_le. intros [H1 H2]. split; [|lia].
  apply orb_false_iff. split; [apply Z.eqb_neq; lia|]. apply andb_false_iff. right. apply Z.leb_gt. lia.
Qed.

(** One round of the loop for each kind of character. *)
Lemma loop_number f ds rest cnt v :
  digits ds -> number ds <= INT_MAX -> cnt <= 3 -> (forall c r, rest = c :: r -> is_digit c = false) ->
  line_num_loop (S f) (ds ++ rest) cnt v = line_num_loop f rest cnt (v ++ [number ds]).
Proof.
  intros [Hne Hd] Hn Hc Hr. destruct ds as [|c ds]; [done|]. cbn [app line_num_loop].
  assert (is_digit c = true) as Hdc by (by inversion Hd). destruct (digit_not_space c Hdc) as [Hs Ha].
  cbn [skip_space]. rewrite Hs. apply Z.leb_le in Hc as ->. cbn [negb].
  apply Z.eqb_neq in Ha as ->. rewrite Hdc. change (c :: ds ++ rest) with ((c :: ds) ++ rest).
  rewrite read_digits_app by done. fold (number (c :: ds)).
  destruct (Z.ltb_spec INT_MAX (number (c :: ds))); [lia|done].
Qed.

Lemma loop_space f s cnt v : line_num_loop (S f) (32 :: s) cnt v = line_num_loop (S f) s cnt v.
Proof. done. Qed.

Lemma loop_at f s cnt v : cnt <= 3 -> line_num_loop (S f) (AT :: s) cnt v = line_num_loop f s (cnt + 1) v.
Proof. intros Hc. cbn. by apply Z.leb_le in Hc as ->. Qed.

Lemma loop_other f c s cnt v :
  cnt <= 3 -> is_space c = false -> c <> AT -> is_digit c = false ->
  line_num_loop (S f) (c :: s) cnt v = line_num_loop f s cnt v.
Proof.
  intros Hc Hs Ha Hd. cbn. rewrite Hs. apply Z.leb_le in Hc as ->. cbn.
  by apply Z.eqb_neq in Ha as ->; rewrite Hd.
Qed.

Lemma loop_done f s v : line_num_loop (S f) s 4 v = Some v.
Proof. cbn. by destruct (skip_space s). Qed.

(** The numbers of a header: one or two on each side. *)
Definition COMMA : Z := 44.
Definition side_text (n : cstring) (count : option cstring) : cstring :=
  n ++ match count with Some c => COMMA :: c | None => [] end.
Definition header (o : cstring) (oc : option cstring) (n : cstring) (nc : option cstring)
    (tail : cstring) : cstring :=
  lit "@@ -" ++ side_text o oc ++ lit " +" ++ side_text n nc ++ lit " @@" ++ tail.

Definition side_ok (n : cstring) (count : option cstring) : Prop :=
  digits n /\ number n <= INT_MAX /\
  forall c, count = Some c -> digits c /\ number c <= INT_MAX.
Definition side_numbers (n : cstring) (count : option cstring) : list Z :=
  number n :: match count with Some c => [number c] | None => [] end.

(** The loop ends, and more fuel does not change what it returns. *)
Lemma loop_mono f k s cnt v r :
  line_num_loop f s cnt v = Some r -> line_num_loop (f + k) s cnt v = Some r.
Proof.
  revert s cnt v. induction f as [|f IH]; intros s cnt v; [done|]. cbn [Nat.add line_num_loop].
  destruct (skip_space s) as [|ch s']; [done|]. destruct (negb _); [done|].
  destruct (ch =? AT); [apply IH|]. destruct (is_digit ch); [|apply IH].
  destruct (read_digits 0 (ch :: s')) as [i rest]. destruct (INT_MAX <? i); [done|apply IH].
Qed.

Lemma skip_space_length s : (length (skip_space s) <= length s)%nat.
Proof. induction s as [|c s IH]; cbn; [lia|]. destruct (is_space c); cbn; lia. Qed.

Lemma read_digits_length acc s : (length (snd (read_digits acc s)) <= length s)%nat.
Proof.
  revert acc. induction s as [|c s IH]; intros acc; cbn; [lia|].
  destruct (is_digit c); cbn; [|lia]. specialize (IH (acc * 10 + (c - 48))). lia.
Qed.

Lemma loop_total f s cnt v : (length s < f)%nat -> exists r, line_num_loop f s cnt v = Some r.
Proof.
  revert s cnt v. induction f as [|f IH]; intros s cnt v Hf; [lia|]. cbn [line_num_loop].
  pose proof (skip_space_length s) as Hs. destruct (skip_space s) as [|ch s']; [eauto|].
  cbn in Hs. destruct (negb _); [eauto|]. destruct (ch =? AT); [apply IH; lia|].
  destruct (is_digit ch) eqn:Hd; [|apply IH; lia]. cbn [read_digits]. rewrite Hd.
  pose proof (read_digits_length (0 * 10 + (ch - 48)) s') as Hl.
  destruct (read_digits _ s') as [i rest]. cbn in Hl. destruct (INT_MAX <? i); [eauto|apply IH; lia].
Qed.

Definition get_numbers (s : cstring) : option (list Z) := line_num_loop (S (length s)) s 0 [].

Lemma get_numbers_fuel f s r : line_num_loop f s 0 [] = Some r -> get_numbers s = Some r.
Proof.
  intros Hf. unfold get_numbers. destruct (loop_total (S (length s)) s 0 []) as [r' Hr]; [lia|].
  apply (loop_mono _ (S (length s))) in Hf. pose proof Hr as Hr'. apply (loop_mono _ f) in Hr'.
  rewrite Nat.add_comm in Hr'. congruence.
Qed.

Lemma loop_side f n count rest cnt v r :
  side_ok n count -> cnt <= 3 ->
  line_num_loop (S f) rest cnt (v ++ side_numbers n count) = Some r ->
  line_num_loop (4 + f) (side_text n count ++ 32 :: rest) cnt v = Some r.
Proof.
  intros (Hn & Hnn & Hc) Hcnt Hr. unfold side_text, side_numbers in *. destruct count as [c|].
  - destruct (Hc c eq_refl) as [Hcd Hcn]. rewrite <- app_assoc. cbn [Nat.add].
    rewrite loop_number; [|done..|by intros ? ? [= <- _]]. cbn [app].
    rewrite (loop_other _ COMMA) by done. rewrite loop_number; [|done..|by intros ? ? [= <- _]].
    by rewrite loop_space, <- app_assoc.
  - rewrite app_nil_r. cbn [Nat.add]. rewrite loop_number; [|done..|by intros ? ? [= <- _]].
    rewrite loop_space. by apply (loop_mono (S f) 2) in Hr; rewrite Nat.add_comm in Hr.
Qed.

Lemma header_numbers o oc n nc tail :
  side_ok o oc -> side_ok n nc ->
  get_numbers (header o oc n nc tail) = Some (side_numbers o oc ++ side_numbers n nc).
Proof.
  intros Ho Hn. apply (get_numbers_fuel 13). unfold header.
  change (lit "@@ -") with [AT; AT; 32; MINUS]. change (lit " +") with [32; PLUS].
  change (lit " @@") with [32; AT; AT]. cbn [app].
  rewrite !loop_at by lia. rewrite loop_space, loop_other by done.
  apply (loop_side 6); [done|lia|]. rewrite loop_other by done.
  apply (loop_side 2); [done|lia|]. rewrite !loop_at by lia. apply loop_done.
Qed.

Lemma get_line_num_eq s p :
  get_line_num s p =
  match get_numbers s with
  | Some v => match v !! 0%nat, v !! 1%nat, v !! 2%nat, v !! 3%nat with
              | Some d0, Some d1, Some i0, Some i1 => (Ok ((d0, d1), (i0, i1)), p)
              | _, _, _, _ => (Err BadAccess, p)
              end
  | None => (Err NoFuel, p)
  end.
Proof.
  unfold get_line_num, get_numbers. destruct (line_num_loop _ _ _ _) as [v|]; [|done].
  destruct (v !! 0%nat), (v !! 1%nat), (v !! 2%nat), (v !! 3%nat); done.
Qed.

Lemma full_header o oc n nc tail p :
  side_ok o (Some oc) -> side_ok n (Some nc) ->
  get_line_num (header o (Some oc) n (Some nc) tail) p =
  (Ok ((number o, number oc), (number n, number nc)), p).
Proof. intros Ho Hn. by rewrite get_line_num_eq, header_numbers. Qed.

(** A hunk header that leaves out a count, as diff writes it for one line, makes
    get_line_num read past the end of its vector. *)
Theorem short_header_undefined o oc n nc tail p :
  side_ok o oc -> side_ok n nc -> oc = None \/ nc = None ->
  get_line_num (header o oc n nc tail) p = (Err BadAccess, p).
Proof.
  intros Ho Hn Hshort. rewrite get_line_num_eq, header_numbers by done.
  destruct Hshort as [-> | ->]; [by destruct nc|by destruct oc].
Qed.

(** ** Reading the hunks of a file *)

Record diff_hunk := mkDiff {
  d_old : cstring; d_old_count : cstring; d_new : cstring; d_new_count : cstring;
  d_tail : cstring; d_edits : list edit }.

Definition diff_ok (h : diff_hunk) : Prop :=
  side_ok (d_old h) (Some (d_old_count h)) /\ side_ok (d_new h) (Some (d_new_count h)) /\
  d_edits h <> [] /\ markers_last (d_edits h) /\
  number (d_old h) + Z.of_nat (length (d_edits h)) < 2 ^ 31 /\
  number (d_new h) + Z.of_nat (length (d_edits h)) < 2 ^ 31.

Definition diff_text (h : diff_hunk) : list cstring :=
  header (d_old h) (Some (d_old_count h)) (d_new h) (Some (d_new_count h)) (d_tail h) ::
  map render (d_edits h).

(** What the reader should find: a file without deleted lines has the number 0 in their place,
    and so has one with deleted lines only for the inserted ones. *)
Definition expected (fn : cstring) (h : diff_hunk) : Hunk :=
  let ds := dels (number (d_old h)) (d_edits h) in
  let ns := inss (number (d_new h)) (d_edits h) in
  mkHunk fn (number (d_old h), number (d_old_count h)) (number (d_new h), number (d_new_count h))
    (map render (d_edits h))
    (ns ++ (if negb (Z.of_nat (length ds) =? 0) && (Z.of_nat (length ns) =? 0) then [0] else []))
    (ds ++ (if Z.of_nat (length ds) =? 0 then [0] else [])).

(** The hunk as read, before its numbers are computed. *)
Definition raw (fn : cstring) (h : diff_hunk) : Hunk :=
  mkHunk fn (number (d_old h), number (d_old_count h)) (number (d_new h), number (d_new_count h))
    (map render (d_edits h)) [] [].

Lemma number_nonneg s : 0 <= number s.
Proof. by apply read_digits_nonneg. Qed.

Lemma gen_raw fn h : diff_ok h -> hk_gen_line_num (raw fn h) = expected fn h.
Proof.
  intros (_ & _ & _ & Hm & Hbo & Hbn). unfold hk_gen_line_num, expected, raw. cbn [del_line ins_line fst diff_code].
  pose proof (number_nonneg (d_old h)). pose proof (number_nonneg (d_new h)).
  by rewrite line_numbers_spec by (done || lia).
Qed.

Definition add_code (ls : list cstring) (hk : Hunk) : Hunk :=
  mkHunk (file_name hk) (del_line hk) (ins_line hk) (diff_code hk ++ ls) (insertion_lines hk) (deletion_lines hk).

Lemma not_start l : (forall s, l <> AT :: s) -> is_hunk_start l = false.
Proof.
  intros Hl. unfold is_hunk_start. destruct (contains (lit "@@") l); [|done]. cbn [andb].
  apply str_eqb_neq. destruct l as [|c l]; [done|]. cbn. intros [= -> _]. by apply (Hl l).
Qed.

Lemma render_not_start e : is_hunk_start (render e) = false.
Proof. apply not_start. intros s. by destruct e. Qed.

Lemma header_start o oc n nc tail : is_hunk_start (header o oc n nc tail) = true.
Proof.
  unfold is_hunk_start, header. apply andb_true_iff. split.
  - apply contains_spec. exists [], (lit " -" ++ side_text o oc ++ lit " +" ++ side_text n nc ++ lit " @@" ++ tail).
    done.
  - done.
Qed.

Lemma get_hunk_code_run s p :
  get_hunk_code s p =
  (Ok tt, if hk_whether_get_number (currenthk p) then set_currenthk (hk_store_diff_code s (currenthk p)) p else p).
Proof. unfold get_hunk_code, mbind, TM_bind, ask. by destruct (hk_whether_get_number _). Qed.

Lemma whether_hunk_finish_run p :
  whether_hunk_finish p =
  (Ok tt, if hk_whether_get_number (currenthk p)
          then set_HK (HK p ++ [hk_gen_line_num (currenthk p)]) (set_currenthk (hk_gen_line_num (currenthk p)) p)
          else p).
Proof. unfold whether_hunk_finish, mbind, TM_bind, ask. by destruct (hk_whether_get_number _). Qed.

(** Lines before the first header are dropped, lines after it are stored. *)
Lemma loop_preamble fn nl pre rest p :
  hk_whether_get_number (currenthk p) = false -> Forall (fun l => is_hunk_start l = false) pre ->
  hunk_loop fn nl (pre ++ rest) p = hunk_loop fn nl rest p.
Proof.
  intros Hp Hpre. induction Hpre as [|l pre Hl Hpre IH]; cbn [app hunk_loop]; [done|].
  rewrite Hl. by rewrite (bind_ok _ _ p tt p) by (by rewrite get_hunk_code_run, Hp).
Qed.

Lemma loop_code fn nl es rest p :
  hk_whether_get_number (currenthk p) = true ->
  hunk_loop fn nl (map render es ++ rest) p =
  hunk_loop fn nl rest (set_currenthk (add_code (map render es) (currenthk p)) p).
Proof.
  revert p. induction es as [|e es IH]; intros p Hp; cbn [map app].
  - f_equal. destruct p as [? [] ? ? ? ? ? ?]. unfold add_code, set_currenthk. cbn. by rewrite app_nil_r.
  - cbn [hunk_loop]. rewrite render_not_start.
    rewrite (bind_ok _ _ p tt (set_currenthk (hk_store_diff_code (render e) (currenthk p)) p))
      by (by rewrite get_hunk_code_run, Hp).
    rewrite IH by done. f_equal. unfold add_code, set_currenthk. cbn. by rewrite <- app_assoc.
Qed.

Lemma raw_number fn h : hk_whether_get_number (raw fn h) = true.
Proof.
  unfold hk_whether_get_number, raw. cbn [del_line ins_line fst snd]. apply negb_true_iff.
  pose proof (number_nonneg (d_old h)). destruct (Z.eqb_spec (number (d_old h)) (-1)); [lia|done].
Qed.

(** One hunk: the one before it is finished, and it becomes the current one. *)
Lemma loop_hunk fn nl h rest p :
  diff_ok h ->
  hunk_loop fn nl (diff_text h ++ rest) p =
  hunk_loop fn nl rest (set_currenthk (raw fn h) (snd (whether_hunk_finish p))).
Proof.
  intros (Ho & Hn & He & _). unfold diff_text. destruct (d_edits h) as [|e es] eqn:Hes; [done|].
  cbn [map app hunk_loop]. rewrite header_start. rewrite whether_hunk_finish_run at 1.
  unfold mbind at 1, TM_bind at 1. rewrite whether_hunk_finish_run. cbn [snd].
  set (q := if hk_whether_get_number _ then _ else _).
  set (hk := mkHunk fn (number (d_old h), number (d_old_count h)) (number (d_new h), number (d_new_count h)) [] [] []).
  rewrite (bind_ok _ _ q tt (set_currenthk hk q)).
  2: { unfold get_hunk_content. rewrite (bind_ok _ _ q _ q) by (by apply full_header). done. }
  assert (hk_whether_get_number hk = true) as Hhk by apply (raw_number fn h).
  rewrite (bind_ok _ _ _ tt (set_currenthk (hk_store_diff_code (render e) hk) q)).
  2: { rewrite get_hunk_code_run. cbn [currenthk set_currenthk]. by rewrite Hhk. }
  rewrite loop_code by done. f_equal. unfold raw. rewrite Hes. done.
Qed.

Definition same_header (p q : MuplayPatch) : Prop :=
  file_to_lines q = file_to_lines p /\ hd_file_name q = hd_file_name p.

Lemma loop_hunks fn nl hs p :
  Forall diff_ok hs -> hk_whether_get_number (currenthk p) = true ->
  exists p', hunk_loop fn nl (concat (map diff_text hs)) p = (Ok tt, p') /\ same_header p p' /\
    HK p' ++ [hk_gen_line_num (currenthk p')] = HK p ++ hk_gen_line_num (currenthk p) :: map (expected fn) hs.
Proof.
  intros Hhs. revert p. induction Hhs as [|h hs Hh Hhs IH]; intros p Hp; cbn [map concat].
  { exists p. done. }
  rewrite loop_hunk by done. rewrite whether_hunk_finish_run, Hp. cbn [snd].
  edestruct (IH (set_currenthk (raw fn h) (set_HK (HK p ++ [hk_gen_line_num (currenthk p)])
    (set_currenthk (hk_gen_line_num (currenthk p)) p)))) as (p' & -> & Hsame & Heq); [apply raw_number|].
  exists p'. split; [done|]. split; [done|]. rewrite Heq. cbn [HK currenthk set_currenthk set_HK].
  by rewrite gen_raw, <- app_assoc.
Qed.

(** The diff of one file: anything that is not a hunk header, then its hunks. *)
Definition file_diff (pre : list cstring) (hs : list diff_hunk) : list cstring :=
  pre ++ concat (map diff_text hs).

Lemma read_hunk_run pre hs nl fn p :
  Forall (fun l => is_hunk_start l = false) pre -> Forall diff_ok hs -> hs <> [] ->
  exists p', read_hunk (Some (mkText (file_diff pre hs) nl)) fn p = (Ok tt, p') /\
    same_header p p' /\ HK p' = HK p ++ map (expected fn) hs.
Proof.
  intros Hpre Hhs Hne. destruct hs as [|h hs]; [done|]. apply Forall_cons_1 in Hhs as [Hh Hhs].
  unfold read_hunk. cbn [text_lines final_newline]. unfold file_diff.
  rewrite (bind_ok _ _ p tt (set_currenthk empty_hunk p)) by done.
  destruct (loop_hunks fn nl hs (set_currenthk (raw fn h) (set_currenthk empty_hunk p))) as (p' & Hrun & Hs & Heq);
    [done|apply raw_number|].
  rewrite (bind_ok _ _ _ tt p').
  2: { rewrite loop_preamble by done. cbn [map concat]. by rewrite loop_hunk. }
  eexists. split; [done|]. split; [done|]. cbn [HK set_HK set_currenthk currenthk add_hunk_vec change snd].
  rewrite Heq. cbn. by rewrite gen_raw.
Qed.

(** Where a hunk applies: the numbers of its header count the lines before it, on a side with
    changed lines. *)
Definition placed (old new : list cstring) (h : diff_hunk) : Prop :=
  exists pre_o post_o pre_n post_n,
    old = pre_o ++ old_of (d_edits h) ++ post_o /\ new = pre_n ++ new_of (d_edits h) ++ post_n /\
    (deleted (d_edits h) <> [] -> number (d_old h) = Z.of_nat (length pre_o) + 1) /\
    (inserted (d_edits h) <> [] -> number (d_new h) = Z.of_nat (length pre_n) + 1).

Definition point_to (text : list cstring) (ns : list Z) (ls : list cstring) : Prop :=
  Forall2 (fun n l => 1 <= n /\ text !! Z.to_nat (n - 1) = Some l) ns ls.

(** The numbers found for a hunk are right. *)
Definition found (fn : cstring) (old new : list cstring) (h : diff_hunk) (hk : Hunk) : Prop :=
  file_name hk = fn /\
  (if decide (deleted (d_edits h) = []) then deletion_lines hk = [0]
   else point_to old (deletion_lines hk) (deleted (d_edits h))) /\
  (if decide (inserted (d_edits h) = [])
   then insertion_lines hk = if decide (deleted (d_edits h) = []) then [] else [0]
   else point_to new (insertion_lines hk) (inserted (d_edits h))).

Lemma positions_length side sel n es :
  (forall e, (length (sel e) <= 1)%nat) -> length (positions side sel n es) = length (es ≫= sel).
Proof.
  intros Hs. revert n. induction es as [|e es IH]; intros n; cbn; [done|].
  rewrite !length_app, IH. f_equal. specialize (Hs e). destruct (sel e) as [|l [|]]; cbn in *; [done..|lia].
Qed.

Lemma expected_found fn old new h : placed old new h -> found fn old new h (expected fn h).
Proof.
  intros (po & qo & pn & qn & -> & -> & Ho & Hn). unfold found, expected. cbn [file_name deletion_lines insertion_lines].
  assert (length (dels (number (d_old h)) (d_edits h)) = length (deleted (d_edits h))) as Ld
    by (apply positions_length; intros []; cbn; lia).
  assert (length (inss (number (d_new h)) (d_edits h)) = length (inserted (d_edits h))) as Ln
    by (apply positions_length; intros []; cbn; lia).
  rewrite Ld, Ln. split_and!; [done| |].
  - destruct (decide (deleted (d_edits h) = [])) as [E|E].
    + rewrite E in Ld |- *. cbn in *. destruct (dels _ _); done.
    + rewrite Ho by done. destruct (deleted (d_edits h)) eqn:Ed; [done|]. cbn. rewrite app_nil_r, <- Ed.
      apply dels_lookup.
  - destruct (decide (inserted (d_edits h) = [])) as [E|E].
    + rewrite E in Ln |- *. cbn in *. destruct (inss _ _); [|done].
      destruct (decide (deleted (d_edits h) = [])) as [Ed|Ed]; destruct (deleted (d_edits h)); done.
    + rewrite Hn by done. destruct (inserted (d_edits h)) eqn:Ed; [done|]. cbn.
      rewrite andb_false_r, app_nil_r, <- Ed. apply inss_lookup.
Qed.

(** C26.  The patch reader finds the changed lines: for the unified diff of a
    file whose headers give both counts it reads one hunk per hunk of the diff,
    and the numbers it computes for the deleted and the inserted lines are the
    positions of exactly these lines in the old and in the new text; a side
    without changed lines gets the placeholder 0, or nothing.  The line that
    says `No newline at end of file` may stand at the end of a hunk; before
    another line of the hunk it is counted as a line of both files, and the
    numbers behind it are wrong (missing_newline_shifts). *)
Theorem read_hunk_finds_lines pre hs nl fn old new p :
  Forall (fun l => is_hunk_start l = false) pre -> Forall diff_ok hs -> hs <> [] ->
  Forall (placed old new) hs ->
  exists p' hks, read_hunk (Some (mkText (file_diff pre hs) nl)) fn p = (Ok tt, p') /\
    HK p' = HK p ++ hks /\ Forall2 (found fn old new) hs hks.
Proof.
  intros Hpre Hhs Hne Hpl. destruct (read_hunk_run pre hs nl fn p) as (p' & Hrun & _ & Heq); auto.
  exists p', (map (expected fn) hs). split_and!; auto.
  clear -Hpl. induction Hpl as [|h hs Hh Hpl IH]; cbn; constructor; auto using expected_found.
Qed.

(** ** The lines of each file *)

Definition of_file (f : cstring) (hs : list Hunk) : list Hunk := List.filter (fun h => str_eqb f (file_name h)) hs.

Definition keys_sorted (m : list (cstring * file_lines)) : Prop := StronglySorted str_lt (map fst m).

Lemma add_hunk_lines_sorted m h : keys_sorted m -> keys_sorted (add_hunk_lines m h).
Proof. intros Hm. unfold add_hunk_lines. destruct (smap_get _ m); by apply smap_set_sorted. Qed.

(** What a file has in the map, when [l] was there before. *)
Definition extend (l : option file_lines) (hs : list Hunk) : option file_lines :=
  match l, hs with
  | None, [] => None
  | None, _ => Some (mkLines (concat (map insertion_lines hs)) (concat (map deletion_lines hs)))
  | Some l, _ => Some (mkLines (ins l ++ concat (map insertion_lines hs)) (del l ++ concat (map deletion_lines hs)))
  end.

Lemma add_all_lines hs m f :
  keys_sorted m -> smap_get f (fold_left add_hunk_lines hs m) = extend (smap_get f m) (of_file f hs).
Proof.
  revert m. induction hs as [|h hs IH]; intros m Hm; cbn [fold_left of_file List.filter].
  - destruct (smap_get f m) as [[]|]; cbn; by rewrite ?app_nil_r.
  - rewrite IH by (by apply add_hunk_lines_sorted). fold (of_file f hs). unfold add_hunk_lines.
    destruct (str_eqb f (file_name h)) eqn:E.
    + apply str_eqb_eq in E as ->. destruct (smap_get (file_name h) m) as [[]|] eqn:Hg;
        rewrite smap_get_set, str_eqb_refl by done; cbn; by rewrite ?app_assoc.
    + destruct (smap_get (file_name h) m) as [[]|] eqn:Hg; rewrite smap_get_set, E by done; done.
Qed.

Lemma read_file_hunks filterdiff names i p (files : list (list cstring * list diff_hunk * bool)) :
  length files = length names ->
  (forall j pre hs nl, files !! j = Some (pre, hs, nl) ->
     filterdiff (i + j)%nat = Some (mkText (file_diff pre hs) nl) /\
     Forall (fun l => is_hunk_start l = false) pre /\ Forall diff_ok hs /\ hs <> []) ->
  exists p', read_files filterdiff i names p = (Ok tt, p') /\ same_header p p' /\
    HK p' = HK p ++ concat (zip_with (fun fn x => map (expected fn) x.1.2) names files).
Proof.
  revert i p files. induction names as [|fn names IH]; intros i p files Hlen Hf.
  { exists p. destruct files; [|done]. cbn. by rewrite app_nil_r. }
  destruct files as [|[[pre hs] nl] files]; [done|]. cbn in Hlen.
  destruct (Hf 0%nat pre hs nl eq_refl) as (Hfd & Hpre & Hhs & Hne). rewrite Nat.add_0_r in Hfd.
  destruct (read_hunk_run pre hs nl fn p) as (p1 & Hrun & [S1 S2] & Heq); auto.
  destruct (IH (S i) p1 files) as (p' & Hrun' & [S3 S4] & Heq').
  { lia. }
  { intros j pre' hs' nl' Hj. replace (S i + j)%nat with (i + S j)%nat by lia. by apply Hf. }
  exists p'. cbn [read_files]. rewrite Hfd, (bind_ok _ _ p tt p1) by done. split_and!; auto.
  - split; congruence.
  - rewrite Heq', Heq. cbn. by rewrite app_assoc.
Qed.

(** The names of the first loop. *)
Lemma file_names_run old new lines p :
  exists ns, file_names old new lines p = (Ok tt, set_hd_file_name (hd_file_name p ++ ns) p).
Proof.
  revert old new p. induction lines as [|s lines IH]; intros old new p; cbn [file_names].
  { exists []. rewrite app_nil_r. by destruct p. }
  destruct (contains _ s); [|apply IH].
  destruct (next_word old _) as [o s3]. destruct (next_word new s3) as [n s4].
  rewrite (bind_ok _ _ p tt (set_hd_file_name (hd_file_name p ++ [get_file_name o n]) p)) by done.
  destruct (IH o n (set_hd_file_name (hd_file_name p ++ [get_file_name o n]) p)) as [ns ->].
  exists (get_file_name o n :: ns). cbn. by rewrite <- app_assoc.
Qed.

Definition names_of (lines : list cstring) : list cstring :=
  hd_file_name (snd (file_names [] [] lines empty_patch)).

Theorem read_file_lines filterdiff lines nl (files : list (list cstring * list diff_hunk * bool)) :
  length files = length (names_of lines) ->
  (forall j pre hs nl', files !! j = Some (pre, hs, nl') ->
     filterdiff (S j) = Some (mkText (file_diff pre hs) nl') /\
     Forall (fun l => is_hunk_start l = false) pre /\ Forall diff_ok hs /\ hs <> []) ->
  exists p, read_file filterdiff (Some (mkText lines nl)) empty_patch = (Ok tt, p) /\
    HK p = concat (zip_with (fun fn x => map (expected fn) x.1.2) (names_of lines) files) /\
    forall f, lines_of p f =
      mkLines (concat (map insertion_lines (of_file f (HK p)))) (concat (map deletion_lines (of_file f (HK p)))).
Proof.
  intros Hlen Hf. unfold names_of in *.
  destruct (file_names_run [] [] lines empty_patch) as [ns Hns]. rewrite Hns in *. cbn [snd hd_file_name set_hd_file_name empty_patch app] in *.
  set (p1 := set_hd_file_name_size (s32 (Z.of_nat (length ns))) (set_hd_file_name ns empty_patch)).
  destruct (read_file_hunks filterdiff ns 1 p1 files) as (p2 & Hrun & [S1 S2] & Heq); [done|done|].
  exists (set_file_to_lines (fold_left add_hunk_lines (HK p2) (file_to_lines p2)) p2).
  cbn [HK set_file_to_lines]. split_and!.
  - unfold read_file. cbn [text_lines]. rewrite (bind_ok _ _ _ _ _ Hns).
    rewrite (bind_ok _ _ _ (s32 (Z.of_nat (length ns))) p1) by done.
    rewrite (bind_ok _ _ _ ns p1) by done. by rewrite (bind_ok _ _ _ _ _ Hrun).
  - by rewrite Heq.
  - intros f. unfold lines_of. cbn [file_to_lines set_file_to_lines]. rewrite add_all_lines.
    + rewrite S1. cbn. by destruct (of_file f (HK p2)).
    + rewrite S1. constructor.
Qed.

(** ** Where the numbers and counts are not those of the patch *)

(** The reader takes the marker for a line of both files: when the last line changes and had no newline, its replacement
    gets a number that is one too large. *)
Theorem missing_newline_shifts es a b del0 ins0 :
  Forall (fun e => is_marker e = false) es -> 0 <= del0 -> 0 <= ins0 ->
  del0 + Z.of_nat (length es) + 3 < 2 ^ 31 -> ins0 + Z.of_nat (length es) + 3 < 2 ^ 31 ->
  snd (line_numbers del0 ins0 0 0 (map render (es ++ [Del a; NoNewline; Ins b]))) =
    inss ins0 es ++ [ins0 + Z.of_nat (length (new_of es)) + 1] /\
  inss ins0 (es ++ [Del a; NoNewline; Ins b]) = inss ins0 es ++ [ins0 + Z.of_nat (length (new_of es))].
Proof.
  intros Hm Hd Hi Hbd Hbi.
  assert (length (old_of es) <= length es /\ length (new_of es) <= length es)%nat as [Lo Ln].
  { clear. induction es as [|e es IH]; [done|].
    assert (old_of (e :: es) = old_line e ++ old_of es) as -> by done.
    assert (new_of (e :: es) = new_line e ++ new_of es) as -> by done.
    rewrite !length_app, length_cons. destruct e; cbn [old_line new_line length]; lia. }
  split.
  - rewrite map_app, line_numbers_app by (done || lia). cbn [map line_numbers render first_char fst snd].
    change (MINUS =? MINUS) with true. change (PLUS =? MINUS) with false. change (PLUS =? PLUS) with true.
    change (first_char NO_NEWLINE =? MINUS) with false. change (first_char NO_NEWLINE =? PLUS) with false.
    cbn match. cbn [snd]. rewrite (wraps_small 32 (0 + Z.of_nat (length (new_of es)) + 1)) by lia.
    rewrite wraps_small by lia. by rewrite Z.add_0_r, Z.add_0_l, !Z.add_assoc.
  - unfold inss. clear. revert ins0. induction es as [|e es IH]; intros ins0; cbn [app positions].
    + cbn. by rewrite !Z.add_0_r.
    + rewrite IH, <- app_assoc. do 3 f_equal. assert (new_of (e :: es) = new_line e ++ new_of es) as -> by done.
      rewrite length_app. lia.
Qed.

Theorem inserted_lines_overcounted p fn :
  HK p <> [] -> Forall (fun h => file_name h = fn) (HK p) ->
  file_to_lines p = fold_left add_hunk_lines (HK p) [] ->
  let total := Z.of_nat (length (concat (map insertion_lines (HK p)))) in
  get_num_inserted_lines p = wrapu 32 (Z.of_nat (length (HK p)) * total).
Proof.
  intros Hne Hfn Hm total.
  assert (of_file fn (HK p) = HK p) as Hall.
  { unfold of_file. clear -Hfn. induction Hfn as [|h hs <- Hfn IH]; cbn; [done|]. by rewrite str_eqb_refl, IH. }
  assert (Z.of_nat (length (ins (lines_of p fn))) = total) as Hl.
  { unfold lines_of. rewrite Hm, add_all_lines by constructor. rewrite Hall. cbn. by destruct (HK p). }
  unfold get_num_inserted_lines.
  assert (forall hs acc, Forall (fun h => file_name h = fn) hs -> 0 <= acc ->
    fold_left (fun res h => wrapu 32 (res + Z.of_nat (length (ins (lines_of p (file_name h)))))) hs (wrapu 32 acc) =
    wrapu 32 (acc + Z.of_nat (length hs) * total)) as Hfold.
  { clear -Hl. induction hs as [|h hs IH]; intros acc Hhs Hacc; cbn [fold_left length].
    - f_equal. lia.
    - apply Forall_cons_1 in Hhs as [-> Hhs]. rewrite Hl.
      replace (wrapu 32 (wrapu 32 acc + total)) with (wrapu 32 (acc + total)).
      + rewrite IH by (done || lia). f_equal. lia.
      + unfold wrapu. by rewrite Zplus_mod_idemp_l. }
  exact (Hfold (HK p) 0 Hfn ltac:(done)).
Qed.

(** The name of a changed file is the common end of the two names, from a slash on. *)
Lemma mismatch_app x a b : mismatch (x ++ a) (x ++ b) = (length x + mismatch a b)%nat.
Proof. induction x as [|c x IH]; cbn; [done|]. by rewrite Z.eqb_refl, IH. Qed.

Theorem get_file_name_spec :
  (forall c d x, c <> d -> c <> SLASH ->
     get_file_name (c :: SLASH :: x) (d :: SLASH :: x) = SLASH :: x) /\
  (forall p q c d x, c <> d -> c <> SLASH -> SLASH ∉ x ->
     get_file_name (p ++ c :: x) (q ++ d :: x) = []).
Proof.
  split.
  - intros c d x Hcd Hc. unfold get_file_name. cbn [rev]. rewrite <- !app_assoc, mismatch_app. cbn [mismatch app].
    rewrite Z.eqb_refl. apply Z.eqb_neq in Hcd as ->. rewrite Nat.add_1_r.
    replace (rfind SLASH (S (length (rev x))) (rev x ++ [SLASH; c])) with (Some (length (rev x))).
    + rewrite <- (Nat.add_1_r (length (rev x))), firstn_app_2. cbn. by rewrite rev_app_distr, rev_involutive.
    + unfold rfind. rewrite take_ge by (rewrite length_app; cbn; lia). rewrite last_index_app; [done|].
      apply not_elem_of_cons. split; [congruence|apply not_elem_of_nil].
  - intros p q c d x Hcd Hc Hx. unfold get_file_name. rewrite !rev_app_distr. cbn [rev].
    rewrite <- !app_assoc, mismatch_app. cbn [mismatch app]. apply Z.eqb_neq in Hcd as ->.
    rewrite Nat.add_0_r. unfold rfind.
    replace (take (S (length (rev x))) (rev x ++ c :: rev p)) with (rev x ++ [c]).
    + assert (last_index SLASH (rev x ++ [c]) = None) as ->; [|done]. apply last_index_None.
      rewrite elem_of_app, list_elem_of_singleton. intros [Hin|He]; [|congruence].
      apply Hx, list_elem_of_In, in_rev, list_elem_of_In. done.
    + rewrite <- (Nat.add_1_r (length (rev x))), firstn_app_2. done.
Qed.

(** ** A diff without hunks *)

Lemma loop_no_hunks fn nl pre p :
  hk_whether_get_number (currenthk p) = false -> Forall (fun l => is_hunk_start l = false) pre ->
  hunk_loop fn nl pre p = (Ok tt, p).
Proof. intros Hp Hpre. rewrite <- (app_nil_r pre). by rewrite loop_preamble. Qed.

Lemma read_no_hunks pre nl fn p :
  Forall (fun l => is_hunk_start l = false) pre ->
  exists p', read_hunk (Some (mkText pre nl)) fn p = (Ok tt, p') /\ same_header p p' /\
    HK p' = HK p ++ [mkHunk [] (-1, -1) (-1, -1) [] [] [0]].
Proof.
  intros Hpre. unfold read_hunk. cbn [text_lines final_newline].
  rewrite (bind_ok _ _ p tt (set_currenthk empty_hunk p)) by done.
  rewrite (bind_ok _ _ _ tt (set_currenthk empty_hunk p)) by (by apply loop_no_hunks).
  eexists. split; [done|]. done.
Qed.
