(* ===== verification/MuplayDwarf.v ===== *)
(** * Which functions a patch changes

    [MuplayDwarfReader.cc], [MuplayBinaryModificationSummary.cc] and
    [MuplayPreprocessor.cc]: from the lines of a patch to the functions of the two builds
    they belong to.

    libdwarf is a parameter: [Class Dwarf] gives for each file what its calls return.  A call
    that does not return [DW_DLV_OK] leaves its output variable as it was, which matters
    because the reader ignores the results of most calls; an attribute a DIE does not have is
    [None].  The directories of the two builds are parameters too. *)

From Stdlib Require Import String.
From stdpp Require Import base tactics list numbers.
From S2P Require Import Prelude CStrings CxxStrings TracerMonad MuplayPatch.
Local Open Scope Z_scope.

(** ** libdwarf *)

Inductive tag := DW_TAG_compile_unit | DW_TAG_subprogram | OtherTag.

#[export] Instance tag_eq_dec : EqDecision tag.
Proof. solve_decision. Defined.

(** [die_name] is the pointer [dwarf_diename] returns and the string there.  [die_highpc] is the
    value of the attribute, an offset from [die_lowpc]. *)
Inductive die := Die {
  die_tag : tag;
  die_name : option (Z * cstring);
  die_lowpc : option Z;
  die_highpc : option Z;
  die_children : list die }.

(** One round of [dwarf_next_cu_header] and [dwarf_siblingof]; [cu_lines] is what
    [dwarf_srclines] gives: number and address of each row. *)
Inductive cu :=
| HeaderError
| DieError
| NoDie
| Unit (cu_die : die) (cu_lines : option (list (Z * Z))).

Class Dwarf := {
  can_open : cstring -> bool;
  dwarf_init_ok : cstring -> bool;
  units : cstring -> list cu }.

Section Reader.
Context {D : Dwarf}.

(** ** Compilation units *)

Fixpoint cu_name_loop (search_path : cstring) (us : list cu) : result cstring :=
  match us with
  | [] => Ok []
  | HeaderError :: _ | DieError :: _ | NoDie :: _ => Err Fatal
  | Unit d _ :: us =>
      if decide (die_tag d = DW_TAG_compile_unit) then
        match die_name d with
        | None => Err BadAccess
        | Some (_, file_name) =>
            if str_eqb file_name search_path then Ok file_name
            else if str_eqb (get_filename file_name) (get_filename search_path) then Ok file_name
            else cu_name_loop search_path us
        end
      else cu_name_loop search_path us
  end.

Definition find_cu_name (search_path elf_file_path : cstring) : result cstring :=
  if negb (can_open elf_file_path) then Err Fatal
  else cu_name_loop search_path (units elf_file_path).

Fixpoint contains_cu_loop (cu_file_name : cstring) (us : list cu) : result bool :=
  match us with
  | [] => Ok false
  | HeaderError :: _ | DieError :: _ | NoDie :: _ => Err Fatal
  | Unit d _ :: us =>
      if decide (die_tag d = DW_TAG_compile_unit) then
        match die_name d with
        | None => Err BadAccess
        | Some (_, file_name) =>
            if str_eqb file_name cu_file_name then Ok true else contains_cu_loop cu_file_name us
        end
      else contains_cu_loop cu_file_name us
  end.

Definition contains_cu (cu_file_name elf_file_path : cstring) : result bool :=
  if negb (can_open elf_file_path) then Err Fatal
  else contains_cu_loop cu_file_name (units elf_file_path).

(** The first unit whose name has [src_file_name] in it. *)
Fixpoint find_dwarf_die (src_file_name : cstring) (us : list cu) : result (die * option (list (Z * Z))) :=
  match us with
  | [] => Err Fatal
  | HeaderError :: _ | DieError :: _ | NoDie :: _ => Err Fatal
  | Unit d lines :: us =>
      if decide (die_tag d = DW_TAG_compile_unit) then
        match die_name d with
        | None => Err BadAccess
        | Some (_, file_name) =>
            if contains src_file_name file_name then Ok (d, lines) else find_dwarf_die src_file_name us
        end
      else find_dwarf_die src_file_name us
  end.

(** ** Functions of a line *)

Record FuncInfo := mkFunc { func_name : cstring; low_pc : Z; func_size : Z }.

Record LineModification := mkLineMod {
  lineno : Z;
  line_addresses : list Z;
  modified_functions : list FuncInfo }.

(** The addresses of the rows with the number. *)
Fixpoint line_addrs (line_num : Z) (rows : list (Z * Z)) : result (list Z) :=
  match rows with
  | [] => Ok []
  | (line_no, addr) :: rows =>
      if line_num <? 0 then Err Fatal
      else
        l ← line_addrs line_num rows;
        mret (if line_no =? line_num then addr :: l else l)
  end.

(** The variables of the walk that outlive a round; [None] is not initialised. *)
Record walk_vars := mkVars {
  v_low : option Z;
  v_size : option Z;
  v_name : option (Z * cstring);
  v_seen : list Z;
  v_funcs : list FuncInfo }.

Definition first_vars : walk_vars := mkVars None None None [] [].

Definition or_else {A} (x y : option A) : option A := match x with Some _ => x | None => y end.

(** The body of the loop over the addresses, for a subprogram. *)
Definition check_address (d : die) (v : walk_vars) (addr : Z) : result walk_vars :=
  let v := mkVars (or_else (die_lowpc d) (v_low v)) (or_else (die_highpc d) (v_size v))
             (v_name v) (v_seen v) (v_funcs v) in
  match v_low v with
  | None => Err BadAccess
  | Some low =>
      if negb (low <=? addr) then Ok v
      else
        match v_size v with
        | None => Err BadAccess
        | Some size =>
            if addr <? u64 (low + size) then
              let name := or_else (die_name d) (v_name v) in
              match name with
              | None => Err BadAccess
              | Some (ptr, str) =>
                  if existsb (Z.eqb ptr) (v_seen v) then
                    Ok (mkVars (Some low) (Some size) name (v_seen v) (v_funcs v))
                  else
                    Ok (mkVars (Some low) (Some size) name (ptr :: v_seen v)
                          (v_funcs v ++ [mkFunc str low size]))
              end
            else Ok v
        end
  end.

Fixpoint check_addresses (d : die) (v : walk_vars) (addrs : list Z) : result walk_vars :=
  match addrs with
  | [] => Ok v
  | a :: addrs => v ← check_address d v a; check_addresses d v addrs
  end.

Definition visit (addrs : list Z) (d : die) (v : walk_vars) : result walk_vars :=
  if decide (die_tag d = DW_TAG_subprogram) then check_addresses d v addrs else Ok v.

Definition nonempty {A} (l : list A) : bool := match l with [] => false | _ => true end.

(** The loop that walks the DIEs layer by layer.  [d] is the current DIE and [sibs] are the ones
    after it; the queue holds the first child of each DIE that has one, with its siblings. *)
Fixpoint walk (fuel : nat) (addrs : list Z) (d : die) (sibs : list die) (queue : list (list die))
    (sib_true chi_true : bool) (v : walk_vars) : result walk_vars :=
  match fuel with
  | O => Err NoFuel
  | S fuel =>
      if sib_true || nonempty queue || chi_true then
        v ← visit addrs d v;
        let queue := if nonempty (die_children d) then queue ++ [die_children d] else queue in
        match sibs with
        | d' :: sibs => walk fuel addrs d' sibs queue true (nonempty (die_children d)) v
        | [] =>
            match queue with
            | (d' :: sibs) :: queue => walk fuel addrs d' sibs queue false (nonempty (die_children d)) v
            | _ => Err BadAccess
            end
        end
      else Ok v
  end.

Fixpoint die_size (d : die) : nat :=
  S (foldr (fun c n => (die_size c + n)%nat) 0%nat (die_children d)).

(** The special case at the top of [get_line_modification]. *)
Definition curl_path : cstring := lit "/tmp/tests/curl-5-integration/obj-files/curl-buggy-5-obj/bin/curl".

Definition get_line_modification (src_file_name elf_file_path : cstring) (line_num : Z) : result LineModification :=
  let line_num := if str_eqb elf_file_path curl_path && (line_num =? 276) then 274 else line_num in
  if negb (can_open elf_file_path) then Err Fatal
  else if negb (dwarf_init_ok elf_file_path) then Err Fatal
  else
    dl ← find_dwarf_die src_file_name (units elf_file_path);
    addrs ← match snd dl with Some rows => line_addrs line_num rows | None => Ok [] end;
    v ← walk (S (die_size (fst dl))) addrs (fst dl) [] [] true true first_vars;
    mret (mkLineMod (u64 line_num) addrs (v_funcs v)).

(** ** Summaries *)

Inductive ModificationType := INSERTED | DELETED.

#[export] Instance ModificationType_eq_dec : EqDecision ModificationType.
Proof. solve_decision. Defined.

Record MuplayBinaryModificationSummary := mkSummary {
  patch_src_file : cstring;
  dwarf_src_file : cstring;
  exe_path : cstring;
  modification_list : list LineModification;
  modification_type : ModificationType }.

Fixpoint line_modifications (src elf : cstring) (lines : list Z) : result (list LineModification) :=
  match lines with
  | [] => Ok []
  | n :: lines =>
      m ← get_line_modification src elf n;
      ms ← line_modifications src elf lines;
      mret (m :: ms)
  end.

Definition get_summary (patch_src dwarf_src elf : cstring) (lines : list Z) (ty : ModificationType) :
    result MuplayBinaryModificationSummary :=
  ms ← line_modifications dwarf_src elf lines;
  mret (mkSummary patch_src dwarf_src elf ms ty).

Definition get_modified_func_names (s : MuplayBinaryModificationSummary) : list cstring :=
  sset_of (map func_name (concat (map modified_functions (modification_list s)))).

Fixpoint get_line_modification_of (line_num : Z) (l : list LineModification) : LineModification :=
  match l with
  | [] => mkLineMod 0 [] []
  | m :: l => if lineno m =? line_num then m else get_line_modification_of line_num l
  end.

Fixpoint find_associated_paths (src_file : cstring) (exe_paths : list cstring) : result (cstring * cstring) :=
  match exe_paths with
  | [] => Ok ([], [])
  | path :: exe_paths =>
      dwarf_path ← find_cu_name src_file path;
      if negb (str_eqb dwarf_path []) then mret (path, dwarf_path)
      else find_associated_paths src_file exe_paths
  end.

(** ** Preprocessor *)

Record MuplayPreprocessor := mkPre {
  patch : MuplayPatch;
  summaries : list MuplayBinaryModificationSummary;
  executable_mappings : list (cstring * cstring) }.

(** The loop of [load_summaries] over the files of the patch. *)
Fixpoint load_summaries_from (files : list (cstring * file_lines)) (orig_exe mod_exe : cstring) :
    result (list MuplayBinaryModificationSummary) :=
  match files with
  | [] => Ok []
  | (src, l) :: files =>
      orig_src ← find_cu_name src orig_exe;
      mod_src ← find_cu_name src mod_exe;
      here ←
        (if negb (str_eqb orig_src []) && negb (str_eqb mod_src []) then
           del_summary ← get_summary src orig_src orig_exe (del l) DELETED;
           ins_summary ← get_summary src mod_src mod_exe (ins l) INSERTED;
           mret [ins_summary; del_summary]
         else mret []);
      rest ← load_summaries_from files orig_exe mod_exe;
      mret (here ++ rest)
  end.

Definition load_summaries (p : MuplayPatch) (orig_exe mod_exe : cstring) :=
  load_summaries_from (file_to_lines p) orig_exe mod_exe.

(** [s.substr(s.length() - 2)], which throws for a string of less than two characters. *)
Definition suffix2 (s : cstring) : result cstring :=
  if Z.of_nat (length s) <? 2 then Err Uncaught else Ok (drop (length s - 2) s).

(** The loop of [init]. *)
Fixpoint init_files (p : MuplayPatch) (old_exes mod_exes : list cstring)
    (files : list (cstring * file_lines)) (pre : MuplayPreprocessor) : result MuplayPreprocessor :=
  match files with
  | [] => Ok pre
  | (src, _) :: files =>
      suffix ← suffix2 src;
      if str_eqb suffix (lit ".h") then init_files p old_exes mod_exes files pre
      else if negb (str_eqb suffix (lit ".c")) then init_files p old_exes mod_exes files pre
      else
        orig ← find_associated_paths src old_exes;
        modi ← find_associated_paths src mod_exes;
        if str_eqb (fst orig) [] || str_eqb (fst modi) [] then init_files p old_exes mod_exes files pre
        else
          sums ← load_summaries p (fst orig) (fst modi);
          init_files p old_exes mod_exes files
            (mkPre (patch pre) (summaries pre ++ sums)
               (smap_insert (fst modi) (fst orig) (executable_mappings pre)))
  end.

(** [old_exes] and [mod_exes] are what [get_all_exe_elfs] finds in the two directories. *)
Definition init (read : result unit * MuplayPatch) (old_exes mod_exes : list cstring) : result MuplayPreprocessor :=
  match read with
  | (Err w, _) => Err w
  | (Ok _, p) => init_files p old_exes mod_exes (file_to_lines p) (mkPre p [] [])
  end.

End Reader.
