(* ===== verification/MuplayDwarfSpec.v ===== *)
(** * Which DIEs the walk visits, and what it finds

    The walk of [get_line_modification] is compared with the list of the DIEs of the unit. *)

From Stdlib Require Import String.
From stdpp Require Import base tactics list numbers sorting.
From S2P Require Import Prelude CStrings CxxStrings TracerMonad MuplayPatch MuplayPatchSpec MuplayDwarf.
Local Open Scope Z_scope.

(** ** The order of the walk *)

(** The DIEs the walk visits, and whether it ends by its condition ([true]) or by taking the
    front of an empty queue. *)
Fixpoint order (fuel : nat) (d : die) (sibs : list die) (queue : list (list die))
    (sib_true chi_true : bool) : option (list die * bool) :=
  match fuel with
  | O => None
  | S fuel =>
      if sib_true || nonempty queue || chi_true then
        let queue := if nonempty (die_children d) then queue ++ [die_children d] else queue in
        match sibs with
        | d' :: sibs =>
            r ← order fuel d' sibs queue true (nonempty (die_children d)); mret (d :: r.1, r.2)
        | [] =>
            match queue with
            | (d' :: sibs) :: queue =>
                r ← order fuel d' sibs queue false (nonempty (die_children d)); mret (d :: r.1, r.2)
            | _ => Some ([d], false)
            end
        end
      else Some ([], true)
  end.

Fixpoint visit_all (addrs : list Z) (ds : list die) (v : walk_vars) : result walk_vars :=
  match ds with
  | [] => Ok v
  | d :: ds => v ← visit addrs d v; visit_all addrs ds v
  end.

Definition finish (ended : bool) (v : walk_vars) : result walk_vars := if ended then Ok v else Err BadAccess.

Lemma walk_order fuel addrs d sibs queue st ct v ds ended :
  order fuel d sibs queue st ct = Some (ds, ended) ->
  walk fuel addrs d sibs queue st ct v = (v' ← visit_all addrs ds v; finish ended v').
Proof.
  revert d sibs queue st ct v ds. induction fuel as [|fuel IH]; intros d sibs queue st ct v ds; [done|].
  cbn [order walk]. destruct (st || nonempty queue || ct); [|by intros [= <- <-]].
  set (q := if nonempty (die_children d) then queue ++ [die_children d] else queue).
  destruct sibs as [|d' sibs]; [destruct q as [|[|d' sibs] q']|]; intros Ho.
  1,2: injection Ho as <- <-; cbn; by destruct (visit addrs d v).
  all: apply bind_Some in Ho as ([ds' e'] & Ho & [= <- <-]); cbn [visit_all fst snd];
    destruct (visit addrs d v) as [v1|w]; cbn; [by apply IH|done].
Qed.

Fixpoint forest (l : list die) : nat :=
  match l with [] => 0%nat | d :: l => (die_size d + forest l)%nat end.

Fixpoint waiting (queue : list (list die)) : nat :=
  match queue with [] => 0%nat | l :: queue => (forest l + waiting queue)%nat end.

Lemma die_size_eq d : die_size d = S (forest (die_children d)).
Proof. destruct d as [t n l h cs]. done. Qed.

Lemma waiting_app q1 q2 : waiting (q1 ++ q2) = (waiting q1 + waiting q2)%nat.
Proof. induction q1 as [|l q1 IH]; cbn; [done|]. rewrite IH. lia. Qed.

Definition no_empty (queue : list (list die)) : Prop := Forall (fun l => l <> []) queue.

Definition push (d : die) (queue : list (list die)) : list (list die) :=
  if nonempty (die_children d) then queue ++ [die_children d] else queue.

Lemma push_waiting d queue : (waiting (push d queue) = waiting queue + forest (die_children d))%nat.
Proof.
  unfold push. destruct (die_children d) as [|c cs] eqn:E; cbn [nonempty]; [cbn; lia|].
  rewrite waiting_app. cbn. lia.
Qed.

Lemma push_no_empty d queue : no_empty queue -> no_empty (push d queue).
Proof.
  intros Hq. unfold push. destruct (die_children d) as [|c cs] eqn:E; cbn [nonempty]; [done|].
  apply Forall_app. split; [done|]. by constructor.
Qed.

(** Every DIE is visited once: an end by the condition leaves some unvisited, and the front of
    an empty queue is taken exactly when all have been. *)
Lemma order_total fuel d sibs queue st ct :
  no_empty queue -> (die_size d + forest sibs + waiting queue < fuel)%nat ->
  exists ds ended, order fuel d sibs queue st ct = Some (ds, ended) /\
    (if ended then length ds < die_size d + forest sibs + waiting queue
     else length ds = die_size d + forest sibs + waiting queue)%nat.
Proof.
  revert d sibs queue st ct. induction fuel as [|fuel IH]; intros d sibs queue st ct Hq Hf; [lia|].
  cbn [order]. rewrite die_size_eq in *. destruct (st || nonempty queue || ct).
  2: { exists [], true. split; [done|]. cbn. lia. }
  fold (push d queue). pose proof (push_waiting d queue) as Hw. pose proof (push_no_empty d queue Hq) as Hn.
  destruct sibs as [|d' sibs].
  - destruct (push d queue) as [|l q] eqn:Hp.
    + exists [d], false. split; [done|]. cbn in *. lia.
    + apply Forall_cons_1 in Hn as [Hl Hn]. destruct l as [|d' sibs]; [done|]. cbn in Hw.
      destruct (IH d' sibs q false (nonempty (die_children d))) as (ds & e & -> & Hlen); [done|cbn in Hf; lia|].
      exists (d :: ds), e. split; [done|]. cbn in *. destruct e; lia.
  - cbn in Hf. destruct (IH d' sibs (push d queue) true (nonempty (die_children d))) as (ds & e & -> & Hlen);
      [done|lia|]. exists (d :: ds), e. split; [done|]. cbn in *. destruct e; lia.
Qed.

(** A group of siblings is visited in full once its first DIE is. *)
Lemma order_group fuel d sibs queue st ct ds ended :
  st || nonempty queue || ct = true -> order fuel d sibs queue st ct = Some (ds, ended) ->
  exists rest, ds = d :: sibs ++ rest.
Proof.
  revert d sibs queue st ct ds. induction fuel as [|fuel IH]; intros d sibs queue st ct ds Hc; [done|].
  cbn [order]. rewrite Hc. destruct sibs as [|d' sibs].
  - destruct (if nonempty (die_children d) then _ else _) as [|[|d' sibs] q]; intros Ho;
      [injection Ho as <- <-; by exists []..|].
    apply bind_Some in Ho as ([ds' e'] & Ho & [= <- <-]). by exists ds'.
  - intros Ho. apply bind_Some in Ho as ([ds' e'] & Ho & [= <- <-]). cbn [fst].
    destruct (IH d' sibs _ true _ ds' eq_refl Ho) as [rest ->]. by exists rest.
Qed.

(** All DIEs of a unit. *)
Fixpoint all_dies (d : die) : list die := d :: concat (map all_dies (die_children d)).

Definition within (root : die) (l : list die) : Prop := forall d, d ∈ l -> forall x, x ∈ all_dies d -> x ∈ all_dies root.

Lemma all_dies_self d : d ∈ all_dies d.
Proof. destruct d. cbn. left. Qed.

Lemma children_within root d : (forall x, x ∈ all_dies d -> x ∈ all_dies root) -> within root (die_children d).
Proof.
  intros Hd c Hc x Hx. apply Hd. destruct d as [t n l h cs]. cbn in *. right.
  apply list_elem_of_In, in_concat. exists (all_dies c). split; [|by apply list_elem_of_In].
  apply in_map. by apply list_elem_of_In.
Qed.

Lemma order_within root fuel d sibs queue st ct ds ended :
  within root (d :: sibs) -> Forall (within root) queue ->
  order fuel d sibs queue st ct = Some (ds, ended) -> forall x, x ∈ ds -> x ∈ all_dies root.
Proof.
  revert d sibs queue st ct ds. induction fuel as [|fuel IH]; intros d sibs queue st ct ds Hd Hq; [done|].
  cbn [order]. destruct (st || nonempty queue || ct); [|by intros [= <- <-] x ?%elem_of_nil].
  assert (d ∈ all_dies root) as Hroot by (apply (Hd d); [left|apply all_dies_self]).
  fold (push d queue). assert (Forall (within root) (push d queue)) as Hq'.
  { unfold push. destruct (nonempty (die_children d)); [|done]. apply Forall_app. split; [done|].
    constructor; [|done]. apply children_within. intros x Hx. apply (Hd d); [left|done]. }
  assert (forall ds', (forall x, x ∈ ds' -> x ∈ all_dies root) -> forall x, x ∈ d :: ds' -> x ∈ all_dies root) as Hcons.
  { intros ds' H x [->|Hx]%elem_of_cons; auto. }
  destruct sibs as [|d' sibs].
  - destruct (push d queue) as [|[|d' sibs] q]; intros Ho.
    1,2: injection Ho as <- <-; apply Hcons; by intros x ?%elem_of_nil.
    apply bind_Some in Ho as ([ds' e'] & Ho & [= <- <-]). apply Forall_cons_1 in Hq' as [H1 H2].
    apply Hcons. by apply (IH _ _ _ _ _ _ H1 H2 Ho).
  - intros Ho. apply bind_Some in Ho as ([ds' e'] & Ho & [= <- <-]). apply Hcons.
    apply (IH _ _ _ _ _ _ ltac:(intros y Hy; apply (Hd y); by right) Hq' Ho).
Qed.

(** The whole walk of a unit. *)
Definition unit_order (root : die) : option (list die * bool) :=
  order (S (die_size root)) root [] [] true true.

(** Whether the walk of a group of siblings ends by its condition when nothing else is in the
    queue: some DIE that is not the last has children, or the last one has children whose walk
    ends so. *)
Fixpoint ends_well (d : die) : bool :=
  (fix group (l : list die) : bool :=
     match l with
     | [] => false
     | [x] => ends_well x
     | x :: l => nonempty (die_children x) || group l
     end) (die_children d).

Fixpoint group_ends (l : list die) : bool :=
  match l with
  | [] => false
  | [x] => ends_well x
  | x :: l => nonempty (die_children x) || group_ends l
  end.

Lemma ends_well_eq d : ends_well d = group_ends (die_children d).
Proof. destruct d as [t n l h cs]. reflexivity. Qed.

Lemma order_waiting fuel d sibs queue st ct :
  no_empty queue -> queue <> [] -> (die_size d + forest sibs + waiting queue < fuel)%nat ->
  exists ds, order fuel d sibs queue st ct = Some (ds, true).
Proof.
  revert d sibs queue st ct. induction fuel as [|fuel IH]; intros d sibs queue st ct Hq Hne Hf; [lia|].
  cbn [order]. rewrite die_size_eq in Hf. fold (push d queue).
  assert (st || nonempty queue || ct = true) as -> by (destruct queue, st; done).
  pose proof (push_waiting d queue) as Hw. pose proof (push_no_empty d queue Hq) as Hn.
  assert (push d queue <> []) as Hp by (unfold push; destruct queue, (nonempty (die_children d)); done).
  destruct sibs as [|d' sibs].
  - destruct (push d queue) as [|l q] eqn:Hpush; [done|]. apply Forall_cons_1 in Hn as [Hl Hn].
    destruct l as [|d' sibs]; [done|]. cbn in Hw, Hf. destruct q as [|l' q].
    + destruct (nonempty (die_children d)) eqn:Hc.
      { unfold push in Hpush. rewrite Hc in Hpush. destruct queue as [|? [|? ?]]; done. }
      destruct fuel; [lia|]. cbn. eauto.
    + destruct (IH d' sibs (l' :: q) false (nonempty (die_children d))) as [ds ->]; [done|done|lia|]. cbn. eauto.
  - cbn in Hf. destruct (IH d' sibs (push d queue) true (nonempty (die_children d))) as [ds ->]; [done|done|lia|].
    cbn. eauto.
Qed.

Lemma order_alone fuel d sibs st ct :
  st || ct = true -> (die_size d + forest sibs < fuel)%nat ->
  exists ds, order fuel d sibs [] st ct = Some (ds, group_ends (d :: sibs)).
Proof.
  revert d sibs st ct. induction fuel as [|fuel IH]; intros d sibs st ct Hc Hf; [lia|].
  cbn [order nonempty]. rewrite orb_false_r, Hc. rewrite die_size_eq in Hf.
  destruct sibs as [|d' sibs]; [change (group_ends [d]) with (ends_well d); rewrite ends_well_eq|];
    destruct (die_children d) as [|c cs] eqn:Hd; cbn [nonempty app] in *.
  - by exists [d].
  - destruct (IH c cs false true) as [ds ->]; [done|cbn in Hf; lia|]. cbn [mbind option_bind]. eexists. done.
  - destruct (IH d' sibs true false) as [ds ->]; [done|cbn in Hf; lia|]. cbn [mbind option_bind].
    eexists. cbn [group_ends]. rewrite Hd. done.
  - destruct (order_waiting fuel d' sibs [c :: cs] true true) as [ds ->];
      [by repeat constructor|done|cbn in *; lia|]. cbn [mbind option_bind]. eexists. cbn [group_ends]. rewrite Hd. done.
Qed.

Lemma unit_order_ends root : exists ds, unit_order root = Some (ds, ends_well root).
Proof. unfold unit_order. apply (order_alone _ root []); [done|]. cbn. lia. Qed.

Theorem walk_misses_a_die root :
  exists ds ended, unit_order root = Some (ds, ended) /\
    (forall addrs v, walk (S (die_size root)) addrs root [] [] true true v =
       (v' ← visit_all addrs ds v; finish ended v')) /\
    (if ended then length ds < die_size root else length ds = die_size root)%nat.
Proof.
  destruct (order_total (S (die_size root)) root [] [] true true) as (ds & e & Ho & Hl); [constructor|cbn; lia|].
  exists ds, e. split; [done|]. split; [intros; by apply walk_order|]. cbn in Hl.
  rewrite !Nat.add_0_r in Hl. done.
Qed.

Lemma order_top root ds ended :
  unit_order root = Some (ds, ended) -> exists rest, ds = root :: die_children root ++ rest.
Proof.
  unfold unit_order. cbn [order orb]. destruct (die_children root) as [|c cs] eqn:Hc; cbn [nonempty app].
  - intros [= <- <-]. by exists [].
  - intros Ho. apply bind_Some in Ho as ([ds' e'] & Ho & [= <- <-]). cbn [fst].
    destruct (order_group _ c cs [] false true ds' e' eq_refl Ho) as [rest ->]. by exists rest.
Qed.

(** ** What a visit finds *)

Section Found.
(** The strings libdwarf points to. *)
Variable strings : Z -> cstring.

(** A subprogram with a name, a start and a size. *)
Definition complete (d : die) : Prop :=
  die_tag d = DW_TAG_subprogram ->
  exists ptr low size, die_name d = Some (ptr, strings ptr) /\ die_lowpc d = Some low /\ die_highpc d = Some size.

Definition covers (d : die) (a : Z) : Prop :=
  exists low size, die_lowpc d = Some low /\ die_highpc d = Some size /\ low <= a < u64 (low + size).

Definition is_function (addrs : list Z) (f : cstring) (d : die) : Prop :=
  die_tag d = DW_TAG_subprogram /\ (exists ptr, die_name d = Some (ptr, f)) /\ exists a, a ∈ addrs /\ covers d a.

Definition names (v : walk_vars) : list cstring := map func_name (v_funcs v).

Definition seen_named (v : walk_vars) : Prop := forall ptr, In ptr (v_seen v) -> strings ptr ∈ names v.

Lemma names_app v l : map func_name (v_funcs v ++ [l]) = names v ++ [func_name l].
Proof. unfold names. by rewrite map_app. Qed.

Lemma check_address_spec d v a :
  die_tag d = DW_TAG_subprogram -> complete d -> seen_named v ->
  exists v', check_address d v a = Ok v' /\ seen_named v' /\
    forall f, f ∈ names v' <-> f ∈ names v \/ is_function [a] f d.
Proof.
  intros Ht Hc Hs. destruct (Hc Ht) as (ptr & low & size & Hn & Hl & Hh).
  unfold check_address. rewrite Hl, Hh, Hn. cbn [or_else v_low v_size v_name v_seen v_funcs].
  assert (forall v', v_funcs v' = v_funcs v -> v_seen v' = v_seen v -> ~ (low <= a < u64 (low + size)) ->
    seen_named v' /\ forall f, f ∈ names v' <-> f ∈ names v \/ is_function [a] f d) as Hout.
  { intros v' E1 E2 Hno. unfold seen_named, names in *. rewrite E1, E2. split; [done|]. intros f. split; [by left|].
    intros [?|(_ & _ & a' & ->%list_elem_of_singleton & low' & size' & Hl' & Hh' & Hr)]; [done|].
    destruct Hno. congruence. }
  destruct (Z.leb_spec low a); cbn [negb]; [|eexists; split; [done|]; apply Hout; auto; lia].
  destruct (Z.ltb_spec a (u64 (low + size))); [|eexists; split; [done|]; apply Hout; auto; lia].
  assert (is_function [a] (strings ptr) d) as Hf.
  { split_and!; eauto. exists a. split; [apply list_elem_of_singleton; done|]. exists low, size. auto. }
  assert (forall f, is_function [a] f d -> f = strings ptr) as Huniq.
  { intros f (_ & (ptr' & Hp) & _). congruence. }
  destruct (existsb (Z.eqb ptr) (v_seen v)) eqn:He.
  - eexists. split; [done|]. split; [exact Hs|]. intros f. unfold names. cbn [v_funcs]. split; [by left|].
    intros [?| ->%Huniq]; [done|]. apply existsb_exists in He as (p & Hp & ->%Z.eqb_eq). by apply Hs.
  - eexists. split; [done|]. split.
    + intros p. cbn [v_seen]. unfold names. cbn [v_funcs]. rewrite names_app, elem_of_app, list_elem_of_singleton.
      intros [<-|Hp]; [by right|left; by apply Hs].
    + intros f. unfold names at 1. cbn [v_funcs]. rewrite names_app, elem_of_app, list_elem_of_singleton.
      cbn [func_name]. split; [intros [?| ->]; auto|intros [?| ->%Huniq]; auto].
Qed.

Lemma is_function_cons a addrs f d : is_function (a :: addrs) f d <-> is_function [a] f d \/ is_function addrs f d.
Proof.
  unfold is_function. split.
  - intros (Ht & Hn & a' & Ha & Hc). apply elem_of_cons in Ha as [->|Ha]; [left|right]; split_and!; eauto.
    exists a. split; [apply list_elem_of_singleton; done|done].
  - intros [(Ht & Hn & a' & Ha & Hc)|(Ht & Hn & a' & Ha & Hc)]; split_and!; eauto; exists a'; split; auto.
    + apply list_elem_of_singleton in Ha as ->. left.
    + by right.
Qed.

Lemma visit_spec addrs d v :
  complete d -> seen_named v ->
  exists v', visit addrs d v = Ok v' /\ seen_named v' /\
    forall f, f ∈ names v' <-> f ∈ names v \/ is_function addrs f d.
Proof.
  intros Hc Hs. unfold visit. destruct (decide (die_tag d = DW_TAG_subprogram)) as [Ht|Ht].
  2: { exists v. split_and!; auto. intros f. split; [by left|]. intros [?|(? & _)]; done. }
  revert v Hs. induction addrs as [|a addrs IH]; intros v Hs; cbn [check_addresses].
  { exists v. split_and!; auto. intros f. split; [by left|]. intros [?|(_ & _ & a & Ha & _)]; [done|].
    by apply elem_of_nil in Ha. }
  destruct (check_address_spec d v a Ht Hc Hs) as (v1 & -> & Hs1 & Hn1). cbn.
  destruct (IH v1 Hs1) as (v2 & Hrun & Hs2 & Hn2). exists v2. split_and!; auto.
  intros f. rewrite Hn2, Hn1, (is_function_cons a addrs). tauto.
Qed.

Lemma visit_all_spec addrs ds v :
  Forall complete ds -> seen_named v ->
  exists v', visit_all addrs ds v = Ok v' /\ seen_named v' /\
    forall f, f ∈ names v' <-> f ∈ names v \/ exists d, d ∈ ds /\ is_function addrs f d.
Proof.
  intros Hds. revert v. induction Hds as [|d ds Hd Hds IH]; intros v Hs; cbn [visit_all].
  { exists v. split_and!; auto. intros f. split; [by left|]. intros [?|(d & Hd & _)]; [done|].
    by apply elem_of_nil in Hd. }
  destruct (visit_spec addrs d v Hd Hs) as (v1 & -> & Hs1 & Hn1). cbn.
  destruct (IH v1 Hs1) as (v2 & Hrun & Hs2 & Hn2). exists v2. split_and!; auto.
  intros f. rewrite Hn2, Hn1. split.
  - intros [[?|?]|(d' & Hd' & Hf)]; [by left|right; exists d; split; [left|done]|].
    right. exists d'. split; [by right|done].
  - intros [?|(d' & Hd' & Hf)]; [by left; left|]. apply elem_of_cons in Hd' as [->|Hd']; [by left; right|].
    right. by exists d'.
Qed.
End Found.

(** ** The functions of a line *)

Section Lines.
Context {D : Dwarf}.

(** Nothing stops the reader before the walk. *)
Definition readable (src elf : cstring) (n : Z) (root : die) (addrs : list Z) : Prop :=
  can_open elf = true /\ dwarf_init_ok elf = true /\ str_eqb elf curl_path = false /\
  exists lines, find_dwarf_die src (units elf) = Ok (root, lines) /\
    match lines with Some rows => line_addrs n rows = Ok addrs | None => addrs = [] end.

Lemma readable_run src elf n root addrs :
  readable src elf n root addrs ->
  exists ds ended, unit_order root = Some (ds, ended) /\
  get_line_modification src elf n =
    (v ← (v' ← visit_all addrs ds first_vars; finish ended v'); mret (mkLineMod (u64 n) addrs (v_funcs v))).
Proof.
  intros (Ho & Hi & Hcurl & lines & Hd & Hl).
  destruct (order_total (S (die_size root)) root [] [] true true) as (ds & e & Hord & _); [constructor|cbn; lia|].
  exists ds, e. split; [done|]. unfold get_line_modification. rewrite Hcurl, Ho, Hi, Hd. cbn [andb negb].
  unfold mbind at 1, result_bind at 1. cbn [fst snd].
  destruct lines as [rows|]; rewrite Hl; unfold mbind at 1, result_bind at 1;
    by rewrite (walk_order _ _ _ _ _ _ _ _ _ _ Hord).
Qed.

(** C31.  The functions found for a line of the source, in a file that can be
    opened and read up to the unit of the source and its line table (and is not
    at the one path for which the code has a special case), in whose unit every
    subprogram has a name, a start and a size: the walk over the debug
    information ends normally exactly when some group of siblings it reaches
    with an empty queue has a member before its last one that has children; it
    then reports every function at the top of the unit whose code covers an
    address of the line, and nothing but functions of the unit that do.
    Otherwise it takes the front of an empty queue. *)
Theorem functions_of_line strings src elf n root addrs :
  readable src elf n root addrs -> Forall (complete strings) (all_dies root) ->
  if ends_well root then
    exists m, get_line_modification src elf n = Ok m /\ line_addresses m = addrs /\
      (forall d f, d ∈ die_children root -> is_function addrs f d -> f ∈ map func_name (modified_functions m)) /\
      (forall f, f ∈ map func_name (modified_functions m) -> exists d, d ∈ all_dies root /\ is_function addrs f d)
  else get_line_modification src elf n = Err BadAccess.
Proof.
  intros Hr Hc. destruct (readable_run _ _ _ _ _ Hr) as (ds & e & Ho & ->).
  assert (e = ends_well root) as ->.
  { destruct (unit_order_ends root) as [ds' Ho']. congruence. }
  assert (forall d, d ∈ ds -> d ∈ all_dies root) as Hin.
  { apply (order_within root _ _ _ _ _ _ _ _) with (3 := Ho); [|constructor].
    intros d Hd x Hx. by apply list_elem_of_singleton in Hd as ->. }
  assert (Forall (complete strings) ds) as Hds.
  { rewrite Forall_forall in *. auto. }
  destruct (visit_all_spec strings addrs ds first_vars Hds) as (v & -> & _ & Hn); [by intros p []|].
  destruct (ends_well root) eqn:He; cbn; [|done]. eexists. split; [done|]. cbn [line_addresses modified_functions].
  destruct (order_top root ds true Ho) as [rest ->]. split_and!; auto.
  - intros d f Hd Hf. apply Hn. right. exists d. split; [|done]. right. apply elem_of_app. by left.
  - intros f Hf. apply Hn in Hf as [Hf|(d & Hd & Hf)]; [by apply elem_of_nil in Hf|]. exists d. auto.
Qed.

Lemma forest_flat l : Forall (fun d => die_children d = []) l -> forest l = length l.
Proof. induction 1 as [|d l Hd Hl IH]; cbn; [done|]. rewrite die_size_eq, Hd. cbn. by rewrite IH. Qed.

Theorem flat_unit_undefined strings src elf n root addrs :
  readable src elf n root addrs -> Forall (complete strings) (all_dies root) ->
  Forall (fun d => die_children d = []) (die_children root) ->
  get_line_modification src elf n = Err BadAccess.
Proof.
  intros Hr Hc Hflat. destruct (readable_run _ _ _ _ _ Hr) as (ds & e & Ho & ->).
  destruct (order_total (S (die_size root)) root [] [] true true) as (ds' & e' & Ho' & Hl); [constructor|cbn; lia|].
  unfold unit_order in Ho. rewrite Ho in Ho'. injection Ho' as <- <-.
  destruct (order_top root ds e Ho) as [rest Hds]. rewrite die_size_eq, forest_flat in Hl by done.
  destruct e.
  - rewrite Hds, length_cons, length_app in Hl. cbn in Hl. lia.
  - assert (Forall (complete strings) ds) as Hall.
    { rewrite Forall_forall in *. intros d Hd. apply Hc.
      apply (order_within root _ _ _ _ _ _ _ _) with (3 := Ho); [|constructor|done].
      intros x Hx y Hy. by apply list_elem_of_singleton in Hx as ->. }
    destruct (visit_all_spec strings addrs ds first_vars Hall) as (v & -> & _); [by intros p []|done].
Qed.
End Lines.

(** A declaration has no addresses: the walk tests it with those of the function before it. *)
Definition as_if (d : die) (low size : Z) : die :=
  Die (die_tag d) (die_name d) (Some low) (Some size) (die_children d).

Lemma check_address_stale d v a low size :
  die_lowpc d = None -> die_highpc d = None -> v_low v = Some low -> v_size v = Some size ->
  check_address d v a = check_address (as_if d low size) v a.
Proof. intros H1 H2 H3 H4. unfold check_address, as_if. cbn. by rewrite H1, H2, H3, H4. Qed.

Lemma check_address_pcs d v a v' low size :
  die_lowpc d = Some low -> die_highpc d = Some size -> check_address d v a = Ok v' ->
  v_low v' = Some low /\ v_size v' = Some size.
Proof.
  intros Hl Hh. unfold check_address. rewrite Hl, Hh. cbn.
  destruct (negb _); [by intros [= <-]|]. destruct (_ <? _); [|by intros [= <-]].
  destruct (or_else _ _) as [[ptr str]|]; [|done]. destruct (existsb _ _); by intros [= <-].
Qed.

Lemma check_addresses_pcs d v addrs v' low size :
  die_lowpc d = Some low -> die_highpc d = Some size -> addrs <> [] ->
  check_addresses d v addrs = Ok v' -> v_low v' = Some low /\ v_size v' = Some size.
Proof.
  intros Hl Hh. revert v. induction addrs as [|a addrs IH]; intros v Hne; [done|]. cbn [check_addresses].
  destruct (check_address d v a) as [v1|] eqn:H1; cbn; [|done].
  destruct addrs as [|a' addrs]; [|by apply IH]. cbn. intros [= <-]. by eapply check_address_pcs.
Qed.

Lemma check_addresses_stale d v addrs low size :
  die_lowpc d = None -> die_highpc d = None -> v_low v = Some low -> v_size v = Some size ->
  check_addresses d v addrs = check_addresses (as_if d low size) v addrs.
Proof.
  intros H1 H2. revert v. induction addrs as [|a addrs IH]; intros v H3 H4; [done|]. cbn [check_addresses].
  rewrite (check_address_stale d v a low size) by done.
  destruct (check_address (as_if d low size) v a) as [v1|] eqn:Hv; cbn; [|done].
  eapply check_address_pcs in Hv as [? ?]; [|done..]. by apply IH.
Qed.

Theorem declaration_reported strings f decl addrs v a ptr :
  die_tag f = DW_TAG_subprogram -> complete strings f -> seen_named strings v ->
  die_tag decl = DW_TAG_subprogram -> die_name decl = Some (ptr, strings ptr) ->
  die_lowpc decl = None -> die_highpc decl = None ->
  a ∈ addrs -> covers f a ->
  exists v', visit_all addrs [f; decl] v = Ok v' /\ strings ptr ∈ names v'.
Proof.
  intros Htf Hcf Hs Htd Hnd Hld Hhd Ha Hcov.
  destruct (visit_spec strings addrs f v Hcf Hs) as (v1 & Hrun1 & Hs1 & _).
  destruct Hcov as (low & size & Hl & Hh & Hrange).
  assert (v_low v1 = Some low /\ v_size v1 = Some size) as [E1 E2].
  { unfold visit in Hrun1. rewrite decide_True in Hrun1 by done.
    apply (check_addresses_pcs f v addrs v1); auto. intros ->. by apply elem_of_nil in Ha. }
  destruct (visit_spec strings addrs (as_if decl low size) v1) as (v2 & Hrun2 & _ & Hn2).
  { intros _. exists ptr, low, size. done. }
  { done. }
  exists v2. cbn [visit_all]. rewrite Hrun1. cbn. unfold visit in *. rewrite decide_True in * by done.
  rewrite (check_addresses_stale decl v1 addrs low size), Hrun2 by done. split; [done|].
  apply Hn2. right. split_and!; cbn; eauto. exists a. split; [done|]. exists low, size. auto.
Qed.

(** ** The preprocessor *)

Section Pre.
Context {D : Dwarf}.

Theorem unnamed_file_aborts p old_exes mod_exes :
  StronglySorted str_lt (map fst (file_to_lines p)) -> [] ∈ map fst (file_to_lines p) ->
  init (Ok tt, p) old_exes mod_exes = Err Uncaught.
Proof.
  intros Hs Hin. unfold init. destruct (file_to_lines p) as [|[k l] m]; [by apply elem_of_nil in Hin|].
  cbn in Hs, Hin. apply StronglySorted_inv in Hs as [_ Hall].
  assert (k = []) as ->; [|done]. apply elem_of_cons in Hin as [<-|Hin]; [done|].
  rewrite Forall_forall in Hall. specialize (Hall [] Hin). unfold str_lt in Hall. by destruct k.
Qed.

Theorem summaries_repeated p old_exes mod_exes o m sums :
  Forall (fun x => drop (length x.1 - 2) x.1 = lit ".c" /\ (2 <= length x.1)%nat /\
                   (exists s, find_associated_paths x.1 old_exes = Ok (o, s)) /\
                   (exists s, find_associated_paths x.1 mod_exes = Ok (m, s))) (file_to_lines p) ->
  o <> [] -> m <> [] -> load_summaries p o m = Ok sums ->
  exists pre, init (Ok tt, p) old_exes mod_exes = Ok pre /\
    summaries pre = concat (replicate (length (file_to_lines p)) sums).
Proof.
  intros Hf Ho Hm Hsums. unfold init.
  assert (forall files pre, Forall (fun x => drop (length x.1 - 2) x.1 = lit ".c" /\ (2 <= length x.1)%nat /\
                   (exists s, find_associated_paths x.1 old_exes = Ok (o, s)) /\
                   (exists s, find_associated_paths x.1 mod_exes = Ok (m, s))) files ->
    exists pre', init_files p old_exes mod_exes files pre = Ok pre' /\
      summaries pre' = summaries pre ++ concat (replicate (length files) sums)) as Hgen.
  { clear Hf. intros files. induction files as [|[src l] files IH]; intros pre Hfs.
    { exists pre. cbn. by rewrite app_nil_r. }
    apply Forall_cons_1 in Hfs as [(Hsuf & Hlen & [s1 H1] & [s2 H2]) Hfs]. cbn [fst] in *.
    cbn [init_files]. unfold suffix2. destruct (Z.ltb_spec (Z.of_nat (length src)) 2); [lia|].
    rewrite Hsuf, bind_result_ok. assert (str_eqb (lit ".c") (lit ".h") = false) as -> by done. rewrite str_eqb_refl. cbn [negb].
    rewrite H1, bind_result_ok, H2, bind_result_ok. cbn [fst].
    rewrite (str_eqb_neq o []), (str_eqb_neq m []) by done. cbn [orb]. rewrite Hsums, bind_result_ok.
    edestruct IH as (pre' & Hrun & Heq); [done|]. exists pre'. split; [exact Hrun|]. rewrite Heq. cbn.
    by rewrite app_assoc. }
  destruct (Hgen (file_to_lines p) (mkPre p [] []) Hf) as (pre & Hrun & Heq). exists pre. split; [done|]. by rewrite Heq.
Qed.
End Pre.
