(* ===== verification/Breakpoints.v ===== *)
(** * Software breakpoints of an address space

    [AddressSpace.cc] and [AddressSpace::Breakpoint]: the reference counts of the breakpoints
    rr itself and its debugger set, the bytes they replace, and what happens when recorded data
    is written over them.

    [mem] is the memory of the tracee, [None] where it cannot be read or written.  Writes
    also update the values of watchpoints ([notify_written]), which are not part of this state. *)

From stdpp Require Import base tactics list numbers gmap.
From S2P Require Import Prelude TracerMonad.
Local Open Scope Z_scope.

(** ** State *)

Inductive BreakpointType := BKPT_NONE | BKPT_INTERNAL | BKPT_USER.

#[export] Instance BreakpointType_eq_dec : EqDecision BreakpointType.
Proof. solve_decision. Defined.

Definition breakpoint_insn : Z := 0xCC.

Record Breakpoint := mkBp { internal_count : Z; user_count : Z; overwritten_data : Z }.

Record space := mkSpace {
  mem : Z -> option Z;
  breakpoints : gmap Z Breakpoint;
  has_task : bool }.

Definition set_mem v s := mkSpace v (breakpoints s) (has_task s).
Definition set_breakpoints v s := mkSpace (mem s) v (has_task s).

Definition V := TM space.

Definition poke (m : Z -> option Z) (a b : Z) : Z -> option Z := fun x => if x =? a then Some b else m x.

(** [Task::write_mem] of one byte without an [ok] flag: it has to succeed. *)
Definition write_mem (a b : Z) : V unit :=
  m ← ask mem;
  ASSERT (bool_decide (is_Some (m a)));;
  change (set_mem (poke m a b)).

(** ** Reference counts *)

Definition counts_ok (b : Breakpoint) : bool := (0 <=? internal_count b) && (0 <=? user_count b).

Definition add_count (which : BreakpointType) (n : Z) (b : Breakpoint) : Breakpoint :=
  match which with
  | BKPT_USER => mkBp (internal_count b) (user_count b + n) (overwritten_data b)
  | _ => mkBp (internal_count b + n) (user_count b) (overwritten_data b)
  end.

Definition counter_ok (which : BreakpointType) : bool := bool_decide (which <> BKPT_NONE).

Definition ref (which : BreakpointType) (b : Breakpoint) : V Breakpoint :=
  ASSERT (counts_ok b);; ASSERT (counter_ok which);; mret (add_count which 1 b).

(** The count that is returned is that of both kinds. *)
Definition unref (which : BreakpointType) (b : Breakpoint) : V Breakpoint :=
  ASSERT ((0 <? internal_count b) || (0 <? user_count b));;
  ASSERT (counter_ok which);;
  let b := add_count which (-1) b in
  ASSERT (counts_ok b);;
  mret b.

Definition total (b : Breakpoint) : Z := internal_count b + user_count b.

Definition bp_type (b : Breakpoint) : BreakpointType := if 0 <? user_count b then BKPT_USER else BKPT_INTERNAL.

Definition get_breakpoint_type_at_addr (s : space) (a : Z) : BreakpointType :=
  match breakpoints s !! a with None => BKPT_NONE | Some b => bp_type b end.

Definition get_breakpoint_type_for_retired_insn (s : space) (ip : Z) : BreakpointType :=
  get_breakpoint_type_at_addr s (ip - 1).

(** ** Operations *)

Definition destroy_breakpoint (a : Z) (b : Breakpoint) : V unit :=
  t ← ask has_task;
  if negb t then mret tt
  else
    write_mem a (overwritten_data b);;
    change (fun s => set_breakpoints (delete a (breakpoints s)) s).

Definition remove_breakpoint (a : Z) (type : BreakpointType) : V unit :=
  it ← ask (fun s => breakpoints s !! a);
  match it with
  | None => mret tt
  | Some b =>
      b' ← unref type b;
      change (fun s => set_breakpoints (<[a := b']> (breakpoints s)) s);;
      if 0 <? total b' then mret tt else destroy_breakpoint a b'
  end.

Definition add_breakpoint (a : Z) (type : BreakpointType) : V bool :=
  it ← ask (fun s => breakpoints s !! a);
  match it with
  | Some b =>
      b' ← ref type b;
      change (fun s => set_breakpoints (<[a := b']> (breakpoints s)) s);; mret true
  | None =>
      t ← ask has_task;
      m ← ask mem;
      if negb t then fail BadAccess
      else
        match m a with
        | None => mret false
        | Some data =>
            write_mem a breakpoint_insn;;
            b' ← ref type (mkBp 0 0 data);
            change (fun s => set_breakpoints (<[a := b']> (breakpoints s)) s);; mret true
        end
  end.

Fixpoint destroy_all (l : list (Z * Breakpoint)) : V unit :=
  match l with
  | [] => mret tt
  | (a, b) :: l => destroy_breakpoint a b;; destroy_all l
  end.

(** The loop of [remove_all_breakpoints] does not end for a space without tasks, whose
    breakpoints [destroy_breakpoint] keeps. *)
Definition remove_all_breakpoints : V unit :=
  s ← ask id;
  if bool_decide (breakpoints s = ∅) then mret tt
  else if negb (has_task s) then fail NoFuel
  else destroy_all (map_to_list (breakpoints s)).

Definition suspend_breakpoint_at (a : Z) : V unit :=
  it ← ask (fun s => breakpoints s !! a);
  match it with Some b => write_mem a (overwritten_data b) | None => mret tt end.

Definition restore_breakpoint_at (a : Z) : V unit :=
  it ← ask (fun s => breakpoints s !! a);
  match it with Some _ => write_mem a breakpoint_insn | None => mret tt end.

(** The bytes of [dest], read at [addr], with those under breakpoints replaced. *)
Definition replace_breakpoints_with_original_values (s : space) (dest : list Z) (addr : Z) : list Z :=
  imap (fun i x => match breakpoints s !! (addr + Z.of_nat i) with
                   | Some b => overwritten_data b
                   | None => x
                   end) dest.

Fixpoint update_each (l : list (Z * Breakpoint)) (addr len : Z) : V unit :=
  match l with
  | [] => mret tt
  | (a, b) :: l =>
      (if (addr <=? a) && (a <? addr + len - 1) then
         m ← ask mem;
         match m a with
         | None => fail FailedAssert
         | Some data =>
             change (fun s => set_breakpoints
               (<[a := mkBp (internal_count b) (user_count b) data]> (breakpoints s)) s);;
             write_mem a breakpoint_insn
         end
       else mret tt);;
      update_each l addr len
  end.

Definition maybe_update_breakpoints (addr len : Z) : V unit :=
  l ← ask (fun s => map_to_list (breakpoints s));
  update_each l addr len.

(** [write_bytes_helper]: all bytes or none. *)
Definition write_bytes (addr : Z) (data : list Z) : V unit :=
  m ← ask mem;
  ASSERT (forallb (fun i => bool_decide (is_Some (m (addr + Z.of_nat i)))) (seq 0 (length data)));;
  change (set_mem (fun x =>
    if (addr <=? x) && (x <? addr + Z.of_nat (length data))
    then data !! Z.to_nat (x - addr) else m x)).

(** The body of [set_data_from_trace] and of the loop of
    [apply_all_data_records_from_trace]. *)
Definition apply_data_record (addr : Z) (data : list Z) : V unit :=
  if negb (addr =? 0) && (0 <? Z.of_nat (length data)) then
    write_bytes addr data;;
    maybe_update_breakpoints addr (Z.of_nat (length data))
  else mret tt.

(** ** The program's memory *)

(** What the program would read without breakpoints. *)
Definition program_byte (s : space) (a : Z) : option Z :=
  match breakpoints s !! a with Some b => Some (overwritten_data b) | None => mem s a end.

Definition bp_ok (s : space) (a : Z) (b : Breakpoint) : Prop :=
  0 <= internal_count b /\ 0 <= user_count b /\ 0 < total b /\ mem s a = Some breakpoint_insn.

Definition inv (s : space) : Prop := has_task s = true /\ forall a b, breakpoints s !! a = Some b -> bp_ok s a b.

(** References a debugger and rr hold. *)
Definition refs (s : space) (a : Z) (type : BreakpointType) : Z :=
  match breakpoints s !! a, type with
  | Some b, BKPT_USER => user_count b
  | Some b, BKPT_INTERNAL => internal_count b
  | _, _ => 0
  end.

Lemma poke_eq m a b : poke m a b a = Some b.
Proof. unfold poke. by rewrite Z.eqb_refl. Qed.

Lemma poke_ne m a b x : x <> a -> poke m a b x = m x.
Proof. intros H. unfold poke. by apply Z.eqb_neq in H as ->. Qed.

Lemma write_mem_run a b s :
  is_Some (mem s a) -> write_mem a b s = (Ok tt, set_mem (poke (mem s) a b) s).
Proof. intros H. unfold write_mem, mbind, TM_bind, ask. by rewrite bool_decide_eq_true_2. Qed.

(** A breakpoint is set or changed at [a]. *)
Lemma put_bp s a b m :
  inv s -> 0 <= internal_count b -> 0 <= user_count b -> 0 < total b ->
  m a = Some breakpoint_insn -> (forall x, x <> a -> m x = mem s x) ->
  program_byte s a = Some (overwritten_data b) ->
  let s' := mkSpace m (<[a := b]> (breakpoints s)) (has_task s) in
  inv s' /\ forall x, program_byte s' x = program_byte s x.
Proof.
  intros [Ht Hbp] Hi Hu Htot Hma Hm Hp s'. split.
  - split; [done|]. intros x b'. cbn. rewrite lookup_insert_Some. unfold bp_ok. cbn.
    intros [[<- <-]|[Hne Hx]]; [done|]. rewrite Hm by congruence. by apply Hbp.
  - intros x. unfold program_byte at 1. cbn. destruct (decide (x = a)) as [->|Hne].
    + by rewrite lookup_insert_eq.
    + rewrite lookup_insert_ne, Hm by congruence. done.
Qed.

Lemma and_3 (A B C : Prop) : (A /\ B) /\ C -> A /\ B /\ C.
Proof. tauto. Qed.

Definition one_if (b : bool) : Z := if b then 1 else 0.

Lemma refs_put s a type n b m x ty :
  type <> BKPT_NONE -> user_count b = refs s a BKPT_USER -> internal_count b = refs s a BKPT_INTERNAL ->
  refs (mkSpace m (<[a := add_count type n b]> (breakpoints s)) (has_task s)) x ty =
  refs s x ty + n * one_if (bool_decide (x = a /\ ty = type)).
Proof.
  intros Hty Hu Hi. unfold refs at 1. cbn [breakpoints]. destruct (decide (x = a)) as [->|Hne].
  - rewrite lookup_insert_eq. destruct (decide (ty = type)) as [->|Hne].
    + rewrite bool_decide_eq_true_2 by done. cbn [one_if]. rewrite Z.mul_1_r.
      destruct type; cbn; congruence.
    + rewrite bool_decide_eq_false_2 by (by intros []). cbn [one_if]. rewrite Z.mul_0_r, Z.add_0_r.
      destruct ty; [by unfold refs; destruct (breakpoints s !! a)| |];
        destruct type; cbn [add_count user_count internal_count]; congruence.
  - rewrite lookup_insert_ne by congruence. rewrite bool_decide_eq_false_2 by (by intros []).
    cbn. unfold refs. lia.
Qed.

Lemma counts_add type b :
  type <> BKPT_NONE -> 0 <= internal_count b -> 0 <= user_count b ->
  0 <= internal_count (add_count type 1 b) /\ 0 <= user_count (add_count type 1 b) /\ 0 < total (add_count type 1 b).
Proof. intros Hty Hi Hu. unfold total. destruct type; cbn; split_and!; lia || done. Qed.

Lemma ref_run type b s :
  type <> BKPT_NONE -> 0 <= internal_count b -> 0 <= user_count b -> ref type b s = (Ok (add_count type 1 b), s).
Proof.
  intros Hty Hi Hu. unfold ref, counts_ok, counter_ok.
  rewrite (proj2 (Z.leb_le _ _) Hi), (proj2 (Z.leb_le _ _) Hu). by rewrite bool_decide_eq_true_2.
Qed.

Lemma add_count_data type n b : overwritten_data (add_count type n b) = overwritten_data b.
Proof. by destruct type. Qed.

Lemma present_refs s a b : breakpoints s !! a = Some b ->
  user_count b = refs s a BKPT_USER /\ internal_count b = refs s a BKPT_INTERNAL.
Proof. intros H. unfold refs. by rewrite H. Qed.

Theorem add_breakpoint_spec a type s :
  inv s -> type <> BKPT_NONE ->
  let ok := bool_decide (is_Some (mem s a)) in
  exists s', add_breakpoint a type s = (Ok ok, s') /\ inv s' /\
    (forall x, program_byte s' x = program_byte s x) /\
    (forall x ty, refs s' x ty = refs s x ty + one_if ok * one_if (bool_decide (x = a /\ ty = type))).
Proof.
  intros Hinv Hty. pose proof Hinv as [Ht Hbp]. unfold add_breakpoint.
  rewrite (bind_ok _ _ s (breakpoints s !! a) s) by done.
  destruct (breakpoints s !! a) as [b|] eqn:Hb.
  - destruct (Hbp a b Hb) as (Hi & Hu & Htot & Hm). rewrite Hm. rewrite bool_decide_eq_true_2 by eauto.
    rewrite (bind_ok _ _ s _ _ (ref_run type b s Hty Hi Hu)).
    destruct (counts_add type b Hty Hi Hu) as (Hi' & Hu' & Ht'). destruct (present_refs s a b Hb).
    eexists. split; [done|]. apply and_3. split.
    + apply (put_bp s a (add_count type 1 b) (mem s)); auto. rewrite add_count_data. unfold program_byte. by rewrite Hb.
    + intros x ty. unfold set_breakpoints. rewrite (refs_put s) by done. cbn [one_if]. lia.
  - rewrite (bind_ok _ _ s true s) by (unfold ask; by rewrite Ht).
    rewrite (bind_ok _ _ s (mem s) s) by done. cbn [negb]. destruct (mem s a) as [data|] eqn:Hm.
    + rewrite bool_decide_eq_true_2 by eauto.
      rewrite (bind_ok _ _ s _ _ (write_mem_run a breakpoint_insn s ltac:(rewrite Hm; eauto))).
      rewrite (bind_ok _ _ _ _ _ (ref_run type (mkBp 0 0 data) _ Hty ltac:(done) ltac:(done))).
      destruct (counts_add type (mkBp 0 0 data) Hty) as (Hi' & Hu' & Ht'); [done..|].
      eexists. split; [done|]. apply and_3. split.
      * apply (put_bp s a _ (poke (mem s) a breakpoint_insn)); auto using poke_eq, poke_ne.
        rewrite add_count_data. unfold program_byte. by rewrite Hb, Hm.
      * intros x ty. rewrite Z.mul_1_l. unfold set_breakpoints. cbn [breakpoints set_mem mem has_task].
        rewrite (refs_put s); [by rewrite Z.mul_1_l|done|..]; unfold refs; by rewrite Hb.
    + rewrite bool_decide_eq_false_2 by (by intros []). exists s. split_and!; auto. intros x ty. cbn. lia.
Qed.

(** Removing one drops a reference, and the byte comes back with the last. *)
Lemma unref_run type b s :
  type <> BKPT_NONE -> 0 <= internal_count b -> 0 <= user_count b ->
  (0 < match type with BKPT_USER => user_count b | _ => internal_count b end) ->
  unref type b s = (Ok (add_count type (-1) b), s).
Proof.
  intros Hty Hi Hu Hpos. unfold unref, counter_ok.
  assert ((0 <? internal_count b) || (0 <? user_count b) = true) as ->.
  { apply orb_true_iff. rewrite !Z.ltb_lt. destruct type; auto. }
  rewrite bool_decide_eq_true_2 by done.
  assert (counts_ok (add_count type (-1) b) = true) as Hc.
  { unfold counts_ok. apply andb_true_iff. rewrite !Z.leb_le. destruct type; cbn; lia. }
  cbn [mbind TM_bind]. unfold mbind, TM_bind, ASSERT. by rewrite Hc.
Qed.

Theorem remove_breakpoint_spec a type s :
  inv s -> type <> BKPT_NONE -> 0 < refs s a type ->
  exists s', remove_breakpoint a type s = (Ok tt, s') /\ inv s' /\
    (forall x, program_byte s' x = program_byte s x) /\
    (forall x ty, refs s' x ty = refs s x ty - one_if (bool_decide (x = a /\ ty = type))).
Proof.
  intros Hinv Hty Hpos. pose proof Hinv as [Ht Hbp]. unfold remove_breakpoint.
  rewrite (bind_ok _ _ s (breakpoints s !! a) s) by done.
  destruct (breakpoints s !! a) as [b|] eqn:Hb; [|unfold refs in Hpos; by rewrite Hb in Hpos].
  destruct (Hbp a b Hb) as (Hi & Hu & Htot & Hm). destruct (present_refs s a b Hb) as [Eu Ei].
  rewrite (bind_ok _ _ s (add_count type (-1) b) s).
  2: { apply unref_run; auto. destruct type; cbn; lia || done. }
  set (b' := add_count type (-1) b). set (s1 := mkSpace (mem s) (<[a := b']> (breakpoints s)) (has_task s)).
  assert (0 <= internal_count b' /\ 0 <= user_count b') as [Hi' Hu'].
  { unfold b'. destruct type; cbn; split; lia || done. }
  assert (forall x ty, refs s1 x ty = refs s x ty - one_if (bool_decide (x = a /\ ty = type))) as Hrefs.
  { intros x ty. unfold s1, b'. rewrite (refs_put s) by done. lia. }
  rewrite (bind_ok _ _ s tt s1) by done. destruct (Z.ltb_spec 0 (total b')) as [Hp|Hz].
  - exists s1. split; [done|]. apply and_3. split; [|done].
    apply (put_bp s a b' (mem s)); auto. unfold b', program_byte. by rewrite add_count_data, Hb.
  - assert (internal_count b' = 0 /\ user_count b' = 0) as [Ei' Eu'] by (unfold total in Hz; lia).
    exists (mkSpace (poke (mem s) a (overwritten_data b)) (delete a (breakpoints s)) (has_task s)). split_and!.
    + unfold destroy_breakpoint. rewrite (bind_ok _ _ s1 true s1) by (unfold ask; cbn; by rewrite Ht). cbn [negb].
      unfold b'. rewrite add_count_data.
      rewrite (bind_ok _ _ s1 _ _ (write_mem_run a (overwritten_data b) s1 ltac:(cbn; rewrite Hm; eauto))).
      unfold change. cbn. by rewrite delete_insert_eq.
    + split; [done|]. intros x b''. cbn. rewrite lookup_delete_Some. intros [Hne Hx].
      unfold bp_ok. cbn. rewrite poke_ne by congruence. by apply Hbp.
    + intros x. unfold program_byte. cbn. destruct (decide (x = a)) as [->|Hne].
      * by rewrite lookup_delete_eq, poke_eq, Hb.
      * by rewrite lookup_delete_ne, poke_ne by congruence.
    + intros x ty. rewrite <- Hrefs. unfold refs. cbn. destruct (decide (x = a)) as [->|Hne].
      * rewrite lookup_delete_eq, lookup_insert_eq. by destruct ty.
      * by rewrite lookup_delete_ne, lookup_insert_ne by congruence.
Qed.

(** What a debugger reads: the memory with the breakpoints' bytes put back. *)
Theorem original_values_spec s dest addr :
  (forall i x, dest !! i = Some x -> mem s (addr + Z.of_nat i) = Some x) ->
  forall i x, replace_breakpoints_with_original_values s dest addr !! i = Some x ->
    program_byte s (addr + Z.of_nat i) = Some x.
Proof.
  intros Hd i x. unfold replace_breakpoints_with_original_values. rewrite list_lookup_imap.
  destruct (dest !! i) as [y|] eqn:Hi; [|done]. cbn. intros [= <-]. unfold program_byte.
  destruct (breakpoints s !! (addr + Z.of_nat i)) as [b|]; [done|]. by apply Hd.
Qed.

(** ** Recorded data written over breakpoints *)

Definition covered (addr len a : Z) : bool := (addr <=? a) && (a <? addr + len - 1).

Definition updated (s : space) (keys : list Z) (addr len : Z) (s' : space) : Prop :=
  has_task s' = has_task s /\
  (forall x, mem s' x = if bool_decide (x ∈ keys) && covered addr len x then Some breakpoint_insn else mem s x) /\
  (forall x, breakpoints s' !! x =
     if bool_decide (x ∈ keys) && covered addr len x
     then b ← breakpoints s !! x; d ← mem s x; Some (mkBp (internal_count b) (user_count b) d)
     else breakpoints s !! x).

Lemma update_each_run l addr len s :
  NoDup (map fst l) -> (forall a b, (a, b) ∈ l -> breakpoints s !! a = Some b /\ is_Some (mem s a)) ->
  exists s', update_each l addr len s = (Ok tt, s') /\ updated s (map fst l) addr len s'.
Proof.
  revert s. induction l as [|[a b] l IH]; intros s Hnd Hl; cbn [update_each map fst] in *.
  { exists s. split; [done|]. split_and!; auto. }
  apply NoDup_cons in Hnd as [Ha Hnd]. destruct (Hl a b) as [Hb [d Hd]]; [left|].
  set (s1 := if covered addr len a then mkSpace (poke (mem s) a breakpoint_insn)
      (<[a := mkBp (internal_count b) (user_count b) d]> (breakpoints s)) (has_task s) else s).
  assert (forall x, x <> a -> mem s1 x = mem s x /\ breakpoints s1 !! x = breakpoints s !! x) as Hother.
  { intros x Hx. unfold s1. destruct (covered addr len a); [|done]. cbn.
    by rewrite poke_ne, lookup_insert_ne by congruence. }
  assert (has_task s1 = has_task s) as Ht by (unfold s1; by destruct (covered addr len a)).
  destruct (IH s1 Hnd) as (s' & Hrun & Ht' & Hm' & Hb').
  { intros x bx Hx. assert (x <> a) as Hne.
    { intros ->. apply Ha. apply list_elem_of_fmap. by exists (a, bx). }
    destruct (Hother x Hne) as [-> ->]. apply Hl. by right. }
  exists s'. split.
  - unfold s1, covered in Hrun. destruct ((addr <=? a) && (a <? addr + len - 1)) eqn:Hc.
    + rewrite (bind_ok _ _ s tt (mkSpace (poke (mem s) a breakpoint_insn)
        (<[a := mkBp (internal_count b) (user_count b) d]> (breakpoints s)) (has_task s))); [done|].
      rewrite (bind_ok _ _ s (mem s) s) by done. rewrite Hd.
      rewrite (bind_ok _ _ s tt (set_breakpoints (<[a := mkBp (internal_count b) (user_count b) d]> (breakpoints s)) s)) by done.
      rewrite write_mem_run by (cbn; rewrite Hd; eauto). done.
    + by rewrite (bind_ok _ _ s tt s).
  - split_and!; [congruence| |].
    + intros x. rewrite Hm'. destruct (decide (x = a)) as [->|Hne].
      * rewrite (bool_decide_eq_false_2 (a ∈ map fst l)) by done. rewrite bool_decide_eq_true_2 by left. cbn [andb].
        unfold s1. destruct (covered addr len a); [cbn; by rewrite poke_eq|done].
      * rewrite (bool_decide_ext (x ∈ a :: map fst l) (x ∈ map fst l)) by (rewrite elem_of_cons; tauto).
        by rewrite (proj1 (Hother x Hne)).
    + intros x. rewrite Hb'. destruct (decide (x = a)) as [->|Hne].
      * rewrite (bool_decide_eq_false_2 (a ∈ map fst l)) by done. rewrite bool_decide_eq_true_2 by left. cbn [andb].
        unfold s1. destruct (covered addr len a); [|done]. cbn. by rewrite lookup_insert_eq, Hb, Hd.
      * rewrite (bool_decide_ext (x ∈ a :: map fst l) (x ∈ map fst l)) by (rewrite elem_of_cons; tauto).
        by destruct (Hother x Hne) as [-> ->].
Qed.

Lemma write_bytes_run addr data s :
  (forall i, (i < length data)%nat -> is_Some (mem s (addr + Z.of_nat i))) ->
  write_bytes addr data s = (Ok tt, set_mem (fun x =>
    if (addr <=? x) && (x <? addr + Z.of_nat (length data)) then data !! Z.to_nat (x - addr) else mem s x) s).
Proof.
  intros H. unfold write_bytes. rewrite (bind_ok _ _ s (mem s) s) by done.
  assert (forallb (fun i => bool_decide (is_Some (mem s (addr + Z.of_nat i)))) (seq 0 (length data)) = true) as ->.
  { apply forallb_forall. intros i Hi. apply in_seq in Hi. apply bool_decide_eq_true_2, H. lia. }
  done.
Qed.

(** The memory the record describes. *)
Definition new_byte (addr : Z) (data : list Z) (old : option Z) (x : Z) : option Z :=
  if (addr <=? x) && (x <? addr + Z.of_nat (length data)) then data !! Z.to_nat (x - addr) else old.

Lemma apply_data_run addr data s :
  inv s -> 0 < addr -> data <> [] ->
  (forall i, (i < length data)%nat -> is_Some (mem s (addr + Z.of_nat i))) ->
  let len := Z.of_nat (length data) in
  exists s', apply_data_record addr data s = (Ok tt, s') /\ has_task s' = true /\
    (forall x, mem s' x = if bool_decide (is_Some (breakpoints s !! x)) && covered addr len x
                          then Some breakpoint_insn else new_byte addr data (mem s x) x) /\
    (forall x, breakpoints s' !! x =
       if bool_decide (is_Some (breakpoints s !! x)) && covered addr len x
       then b ← breakpoints s !! x; d ← new_byte addr data (mem s x) x; Some (mkBp (internal_count b) (user_count b) d)
       else breakpoints s !! x).
Proof.
  intros [Ht Hbp] Ha Hd Hm len. unfold apply_data_record.
  assert (negb (addr =? 0) && (0 <? Z.of_nat (length data)) = true) as ->.
  { apply andb_true_iff. split; [apply negb_true_iff, Z.eqb_neq; lia|apply Z.ltb_lt]. destruct data; [done|cbn; lia]. }
  rewrite (bind_ok _ _ s _ _ (write_bytes_run addr data s Hm)). set (s1 := set_mem _ s).
  assert (forall x, mem s1 x = new_byte addr data (mem s x) x) as Hm1 by done.
  destruct (update_each_run (map_to_list (breakpoints s1)) addr len s1) as (s' & Hrun & Ht' & Hm' & Hb').
  { apply NoDup_fst_map_to_list. }
  { intros a b Hab%elem_of_map_to_list. split; [done|]. cbn in Hab.
    destruct (Hbp a b Hab) as (_ & _ & _ & Hcc). rewrite Hm1. unfold new_byte.
    destruct ((addr <=? a) && (a <? addr + Z.of_nat (length data))) eqn:Hr; [|by rewrite Hcc].
    apply andb_true_iff in Hr as [H1%Z.leb_le H2%Z.ltb_lt]. apply lookup_lt_is_Some_2. lia. }
  assert (forall x, bool_decide (x ∈ map fst (map_to_list (breakpoints s1))) =
    bool_decide (is_Some (breakpoints s !! x))) as Hkeys.
  { intros x. apply bool_decide_ext. rewrite list_elem_of_fmap. split.
    - intros ([a b] & -> & Hab%elem_of_map_to_list). eauto.
    - intros [b Hb]. exists (x, b). split; [done|]. by apply elem_of_map_to_list. }
  exists s'. split_and!.
  - unfold maybe_update_breakpoints. by rewrite (bind_ok _ _ s1 (map_to_list (breakpoints s1)) s1).
  - by rewrite Ht'.
  - intros x. by rewrite Hm', Hkeys.
  - intros x. by rewrite Hb', Hkeys.
Qed.

Lemma new_byte_in addr data old x :
  addr <= x < addr + Z.of_nat (length data) -> exists d, new_byte addr data old x = Some d /\ data !! Z.to_nat (x - addr) = Some d.
Proof.
  intros H. unfold new_byte. rewrite (proj2 (Z.leb_le _ _)), (proj2 (Z.ltb_lt _ _)) by lia. cbn [andb].
  destruct (lookup_lt_is_Some_2 data (Z.to_nat (x - addr))) as [d Hd]; [lia|]. eauto.
Qed.

Lemma new_byte_out addr data old x : ~ (addr <= x < addr + Z.of_nat (length data)) -> new_byte addr data old x = old.
Proof.
  intros H. unfold new_byte. destruct (Z.leb_spec addr x), (Z.ltb_spec x (addr + Z.of_nat (length data)));
    cbn; try done; lia.
Qed.

Lemma covered_iff addr len x : covered addr len x = true <-> addr <= x < addr + len - 1.
Proof. unfold covered. rewrite andb_true_iff, Z.leb_le, Z.ltb_lt. done. Qed.


(** When a data record of the trace ends on a breakpoint, the breakpoint is lost
    and its saved byte is stale: removing it writes the old byte over the
    recorded one. *)
Theorem record_ends_on_breakpoint addr data s d b :
  let final := addr + Z.of_nat (length data) - 1 in
  inv s -> 0 < addr -> last data = Some d ->
  (forall i, (i < length data)%nat -> is_Some (mem s (addr + Z.of_nat i))) ->
  breakpoints s !! final = Some b -> internal_count b = 0 -> user_count b = 1 ->
  exists s1 s2, apply_data_record addr data s = (Ok tt, s1) /\
    mem s1 final = Some d /\ program_byte s1 final = Some (overwritten_data b) /\
    remove_breakpoint final BKPT_USER s1 = (Ok tt, s2) /\ mem s2 final = Some (overwritten_data b).
Proof.
  intros final Hinv Ha Hd Hm Hb Hi Hu.
  assert (data <> []) as Hne by (by destruct data).
  assert (0 < Z.of_nat (length data)) by (destruct data; [done|cbn; lia]).
  destruct (apply_data_run addr data s Hinv Ha Hne Hm) as (s1 & Hrun & Ht & Hmem & Hbps).
  assert (covered addr (Z.of_nat (length data)) final = false) as Hc.
  { apply not_true_is_false. rewrite covered_iff. unfold final. lia. }
  specialize (Hmem final). specialize (Hbps final). rewrite Hc, andb_false_r in Hmem, Hbps.
  assert (mem s1 final = Some d) as Hm1.
  { rewrite Hmem. destruct (new_byte_in addr data (mem s final) final) as (d' & -> & Hd'); [unfold final; lia|].
    rewrite last_lookup in Hd. unfold final in Hd'.
    replace (Z.to_nat (addr + Z.of_nat (length data) - 1 - addr)) with (Init.Nat.pred (length data)) in Hd' by lia.
    congruence. }
  rewrite Hb in Hbps. exists s1. eexists. split_and!; try done.
  - unfold program_byte. by rewrite Hbps.
  - unfold remove_breakpoint. rewrite (bind_ok _ _ s1 (Some b) s1) by (unfold ask; by rewrite Hbps).
    rewrite (bind_ok _ _ s1 _ _ (unref_run BKPT_USER b s1 ltac:(done) ltac:(lia) ltac:(lia) ltac:(lia))).
    set (b' := add_count BKPT_USER (-1) b). set (s1' := set_breakpoints (<[final := b']> (breakpoints s1)) s1).
    rewrite (bind_ok _ _ s1 tt s1') by done.
    assert (0 <? total b' = false) as -> by (unfold total, b'; cbn; by rewrite Hi, Hu).
    unfold destroy_breakpoint.
    rewrite (bind_ok _ _ s1' true s1') by (unfold ask; change (has_task s1') with (has_task s1); by rewrite Ht).
    cbn [negb]. rewrite (bind_ok _ _ s1' _ _ (write_mem_run final _ s1' ltac:(cbn; rewrite Hm1; eauto))).
    unfold change. reflexivity.
  - cbn. by rewrite poke_eq.
Qed.
