(* ===== verification/MuplayMaps.v ===== *)
(** * Room for the patched code

    The searches a mutable replay makes in the memory map of the process
    ([MuplayTaskHelper.cc], [MuplayLoader.cc] and [find_module_offset] of
    [MuplayLinkFunctionVisitor.cc]): a gap for new code, and the address a module is loaded
    at.  The map is the list of mappings [KernelMapIterator] returns, in the order of
    [/proc/pid/maps]. *)

From Stdlib Require Import String.
From stdpp Require Import base tactics list numbers sorting.
From S2P Require Import Prelude CStrings CxxStrings TracerMonad.
Local Open Scope Z_scope.

Record KernelMapping := mkKm { km_start : Z; km_end : Z; km_prot : Z; km_fsname : cstring }.

Definition PROT_READ : Z := 1.
Definition PROT_WRITE : Z := 2.
Definition PROT_EXEC : Z := 4.

(** ** Gaps *)

(** The difference of two 64-bit addresses, stored in an int. *)
Definition gap (prev km : KernelMapping) : Z := s32 (km_start km - km_end prev).

Fixpoint lowest_base_from (size : Z) (prev : KernelMapping) (maps : list KernelMapping) : Z :=
  match maps with
  | [] => km_end prev
  | km :: maps =>
      let space := gap prev km in
      if space <? 0 then lowest_base_from size km maps
      else if u32 space >? size then km_end prev
      else lowest_base_from size km maps
  end.

Definition find_lowest_base_address (maps : list KernelMapping) (size : Z) : Z :=
  match maps with [] => 0 | km :: maps => lowest_base_from size km maps end.

(** [MemoryRange(addr, num_bytes)], whose constructor asserts that it does not wrap. *)
Definition MemoryRange (addr num_bytes : Z) : result (Z * Z) :=
  let e := u64 (addr + num_bytes) in if addr <=? e then Ok (addr, e) else Err FailedAssert.

Fixpoint empty_pages_from (prev : KernelMapping) (maps : list KernelMapping) : result (list (Z * Z)) :=
  match maps with
  | [] => Ok []
  | km :: maps =>
      let space := gap prev km in
      here ← (if 0 <? space then r ← MemoryRange (km_end prev) space; mret [r] else mret []);
      rest ← empty_pages_from km maps;
      mret (here ++ rest)
  end.

Definition find_empty_pages (maps : list KernelMapping) : result (list (Z * Z)) :=
  match maps with [] => Ok [] | km :: maps => empty_pages_from km maps end.

(** The int [space] is converted to [size_t] for the range, and to unsigned for the test. *)
Fixpoint closest_from (p_vaddr p_memsz : Z) (prev : KernelMapping) (maps : list KernelMapping) : result (Z * Z) :=
  match maps with
  | [] => MemoryRange (km_end prev) p_memsz
  | km :: maps =>
      let space := gap prev km in
      if (u32 space >? p_memsz) && (km_end prev >? p_vaddr) then MemoryRange (km_end prev) (u64 space)
      else closest_from p_vaddr p_memsz km maps
  end.

Definition find_closest_page_range (maps : list KernelMapping) (p_vaddr p_memsz : Z) : result (Z * Z) :=
  match maps with [] => MemoryRange 0 p_memsz | km :: maps => closest_from p_vaddr p_memsz km maps end.

Definition get_mmap_permissions (p_flags : Z) : Z :=
  match p_flags with
  | 0 => 0
  | 1 => PROT_EXEC
  | 2 => PROT_WRITE
  | 3 => Z.lor PROT_EXEC PROT_WRITE
  | 4 => PROT_READ
  | 5 => Z.lor PROT_READ PROT_EXEC
  | 6 => Z.lor PROT_READ PROT_WRITE
  | 7 => Z.lor (Z.lor PROT_READ PROT_WRITE) PROT_EXEC
  | _ => -1
  end.

(** ** Modules *)

Definition module_matches (module_path : cstring) (flags : Z) (km : KernelMapping) : bool :=
  (str_eqb (km_fsname km) module_path && (km_prot km =? flags)) ||
  (contains (get_filename module_path) (get_filename (km_fsname km)) && (km_prot km =? flags)).

Fixpoint find_module_offset (maps : list KernelMapping) (module_path : cstring) (flags : Z) : Z :=
  match maps with
  | [] => 0
  | km :: maps => if module_matches module_path flags km then km_start km
                  else find_module_offset maps module_path flags
  end.

Fixpoint find_module_base (maps : list KernelMapping) (module_path : cstring) : Z :=
  match maps with
  | [] => 0
  | km :: maps =>
      if str_eqb (km_fsname km) module_path && (km_prot km =? Z.lor PROT_EXEC PROT_READ) then km_start km
      else if contains (get_filename module_path) (get_filename (km_fsname km)) &&
              (km_prot km =? Z.lor PROT_EXEC PROT_READ) then km_start km
      else find_module_base maps module_path
  end.

(** ** What the searches find *)

Definition mapping_ok (km : KernelMapping) : Prop := 0 <= km_start km /\ km_start km <= km_end km < 2 ^ 64.

(** In the order of their addresses and without overlaps. *)
Definition before (a b : KernelMapping) : Prop := km_end a <= km_start b.
Definition in_order (maps : list KernelMapping) : Prop := StronglySorted before maps /\ Forall mapping_ok maps.

(** [size] bytes at [a] that no mapping has. *)
Definition free (maps : list KernelMapping) (a size : Z) : Prop :=
  Forall (fun km => km_end km <= a \/ a + size <= km_start km) maps.

Lemma gap_le prev km n : 0 <= km_start km - km_end prev -> n < u32 (gap prev km) -> n < km_start km - km_end prev.
Proof.
  intros H0 Hn. unfold gap in Hn. rewrite wrapu_wraps in Hn by lia.
  unfold wrapu in Hn. pose proof (Z.mod_le (km_start km - km_end prev) (2 ^ 32)). lia.
Qed.

Lemma gap_nonneg prev km : 0 <= gap prev km -> u32 (gap prev km) = gap prev km.
Proof.
  intros H. apply wrapu_small. unfold gap in *. pose proof (wraps_range 32 (km_start km - km_end prev)). lia.
Qed.

Lemma in_order_cons km maps : in_order (km :: maps) -> in_order maps /\ mapping_ok km /\ Forall (before km) maps.
Proof.
  intros [Hs Hok]. apply StronglySorted_inv in Hs as [Hs Hall]. apply Forall_cons_1 in Hok as [Hk Hok].
  by split_and!.
Qed.

(** A search that stops at the end of a mapping: what comes before it is below. *)
Lemma free_app prev_maps prev maps size :
  in_order (prev_maps ++ prev :: maps) ->
  (forall km, head maps = Some km -> km_end prev + size <= km_start km) ->
  free (prev_maps ++ prev :: maps) (km_end prev) size.
Proof.
  intros Ho Hnext. apply Forall_app. split.
  - apply Forall_forall. intros km Hkm. left.
    revert Ho Hkm. clear. induction prev_maps as [|m ms IH]; intros Ho Hkm; [by apply elem_of_nil in Hkm|].
    cbn in Ho. apply in_order_cons in Ho as (Ho & _ & Hall).
    apply elem_of_cons in Hkm as [->|Hkm]; [|by apply IH].
    apply Forall_app in Hall as [_ Hall]. apply Forall_cons_1 in Hall as [Hb _].
    assert (mapping_ok prev) as [_ [? ?]].
    { destruct Ho as [_ Hok]. apply Forall_app in Hok as [_ Hok]. by apply Forall_cons_1 in Hok as [? _]. }
    unfold before in Hb. lia.
  - assert (in_order (prev :: maps)) as Ho'.
    { clear Hnext. induction prev_maps as [|m ms IH]; [done|]. cbn in Ho. by apply in_order_cons in Ho as (? & _ & _); auto. }
    apply in_order_cons in Ho' as (Ho' & _ & Hall). constructor; [left; lia|].
    destruct maps as [|km maps]; [constructor|]. specialize (Hnext km eq_refl).
    apply in_order_cons in Ho' as (_ & Hk & Hks). constructor; [by right|].
    eapply Forall_impl; [exact Hks|]. intros m Hm. unfold before in Hm. destruct Hk. right. lia.
Qed.

Lemma lowest_base_free size pre prev maps :
  0 <= size -> in_order (pre ++ prev :: maps) ->
  free (pre ++ prev :: maps) (lowest_base_from size prev maps) size.
Proof.
  intros Hsize. revert pre prev. induction maps as [|km maps IH]; intros pre prev Ho; cbn [lowest_base_from].
  { apply free_app; [done|]. done. }
  assert (free (pre ++ prev :: km :: maps) (lowest_base_from size km maps) size) as Hrest.
  { specialize (IH (pre ++ [prev]) km). rewrite <- app_assoc in IH. by apply IH. }
  assert (0 <= km_start km - km_end prev) as Hd.
  { assert (in_order (prev :: km :: maps)) as Ho'.
    { clear IH Hrest. induction pre as [|m ms IH]; [done|]. cbn in Ho. by apply in_order_cons in Ho as (? & _ & _); auto. }
    apply in_order_cons in Ho' as (_ & _ & Hall). apply Forall_cons_1 in Hall as [Hb _]. unfold before in Hb. lia. }
  destruct (gap prev km <? 0); [done|]. rewrite Z.gtb_ltb.
  destruct (Z.ltb_spec size (u32 (gap prev km))) as [Hlt|]; [|done].
  apply free_app; [done|]. cbn. intros ? [= <-]. pose proof (gap_le prev km size Hd Hlt). lia.
Qed.

(** The address find_lowest_base_address returns for the patched code is not
    used: no mapping of the process overlaps the size asked for. *)
Theorem lowest_base_address_free maps size :
  0 <= size -> in_order maps -> free maps (find_lowest_base_address maps size) size.
Proof.
  intros Hsize Ho. destruct maps as [|km maps]; [constructor|]. exact (lowest_base_free size [] km maps Hsize Ho).
Qed.

(** A gap whose size has bit 31 set, or whose size modulo 2^32 is too small, is passed over,
    however large it is. *)
Theorem wide_gap_passed_over a b size n :
  0 <= n -> 2 ^ 31 <= n mod 2 ^ 32 \/ n mod 2 ^ 32 <= size -> 0 <= size ->
  km_start b = km_end a + n ->
  find_lowest_base_address [a; b] size = km_end b.
Proof.
  intros Hn0 Hn Hs Hb. cbn. assert (gap a b = s32 n) as -> by (unfold gap; f_equal; lia).
  pose proof (Z.mod_pos_bound n (2 ^ 32) ltac:(lia)).
  destruct (Z.ltb_spec (s32 n) 0); [done|]. rewrite wrapu_wraps by lia. unfold wrapu. rewrite Z.gtb_ltb.
  destruct (Z.ltb_spec size (n mod 2 ^ 32)) as [Hlt|]; [|done]. destruct Hn as [Hn|]; [|lia]. exfalso.
  unfold wraps, wrapu in *. change (2 ^ (32 - 1)) with (2 ^ 31) in *.
  destruct (Z.ltb_spec (n mod 2 ^ 32) (2 ^ 31)); lia.
Qed.

Theorem find_module_base_spec maps module_path :
  find_module_base maps module_path = find_module_offset maps module_path (Z.lor PROT_READ PROT_EXEC) /\
  (find_module_base maps module_path <> 0 ->
   exists km, km ∈ maps /\ km_start km = find_module_base maps module_path /\
     km_prot km = Z.lor PROT_READ PROT_EXEC /\
     (km_fsname km = module_path \/ contains (get_filename module_path) (get_filename (km_fsname km)) = true)).
Proof.
  assert (find_module_base maps module_path = find_module_offset maps module_path (Z.lor PROT_READ PROT_EXEC)) as E.
  { induction maps as [|km maps IH]; [done|]. cbn [find_module_base find_module_offset].
    unfold module_matches. rewrite Z.lor_comm, <- IH.
    destruct (str_eqb _ _ && _); [done|]. cbn [orb]. by destruct (contains _ _ && _). }
  split; [done|]. rewrite E. clear E. induction maps as [|km maps IH]; [done|]. cbn [find_module_offset].
  destruct (module_matches module_path (Z.lor PROT_READ PROT_EXEC) km) eqn:Hm.
  - intros _. exists km. split; [left|]. split; [done|]. unfold module_matches in Hm.
    apply orb_true_iff in Hm as [[H1 H2]%andb_true_iff|[H1 H2]%andb_true_iff]; apply Z.eqb_eq in H2;
      split; auto. left. by apply str_eqb_eq.
  - intros Hne. destruct (IH Hne) as (km' & Hin & H). exists km'. split; [by right|done].
Qed.

(** The sign of the gap is not tested before it is used as a size. *)
Theorem closest_range_asserts a b maps n p_vaddr p_memsz :
  mapping_ok a -> km_start b = km_end a + n -> 2 ^ 31 <= n mod 2 ^ 32 -> p_memsz < n mod 2 ^ 32 ->
  2 ^ 31 <= km_end a -> p_vaddr < km_end a ->
  find_closest_page_range (a :: b :: maps) p_vaddr p_memsz = Err FailedAssert.
Proof.
  intros [_ [_ Ha]] Hb Hneg Hsz Hlow Hv. cbn. assert (gap a b = s32 n) as -> by (unfold gap; f_equal; lia).
  rewrite wrapu_wraps by lia. rewrite !Z.gtb_ltb.
  rewrite (proj2 (Z.ltb_lt p_memsz (u32 n))), (proj2 (Z.ltb_lt p_vaddr (km_end a))) by (done || lia). cbn [andb].
  unfold MemoryRange. pose proof (Z.mod_pos_bound n (2 ^ 32) ltac:(lia)).
  assert (s32 n = n mod 2 ^ 32 - 2 ^ 32) as Hs.
  { unfold wraps, wrapu. change (2 ^ (32 - 1)) with (2 ^ 31). destruct (Z.ltb_spec (n mod 2 ^ 32) (2 ^ 31)); lia. }
  assert (u64 (km_end a + u64 (s32 n)) = km_end a + s32 n) as ->.
  { unfold wrapu. rewrite Zplus_mod_idemp_r. apply Z.mod_small. lia. }
  destruct (Z.leb_spec (km_end a) (km_end a + s32 n)); [lia|done].
Qed.

Definition range_free (maps : list KernelMapping) (r : Z * Z) : Prop := fst r < snd r /\ free maps (fst r) (snd r - fst r).

Lemma empty_pages_free pre prev maps rs :
  in_order (pre ++ prev :: maps) -> empty_pages_from prev maps = Ok rs -> Forall (range_free (pre ++ prev :: maps)) rs.
Proof.
  revert pre prev rs. induction maps as [|km maps IH]; intros pre prev rs Ho; cbn [empty_pages_from].
  { by intros [= <-]. }
  assert (in_order (prev :: km :: maps)) as Ho'.
  { clear IH. induction pre as [|m ms IH]; [done|]. cbn in Ho. by apply in_order_cons in Ho as (? & _ & _); auto. }
  apply in_order_cons in Ho' as (Ho' & [Hk0 [Hk1 Hk]] & Hall). apply Forall_cons_1 in Hall as [Hb _]. unfold before in Hb.
  apply in_order_cons in Ho' as (_ & Hkm & _).
  destruct (empty_pages_from km maps) as [rest|] eqn:Hrest.
  2: { destruct (0 <? gap prev km); [|done]. by destruct (MemoryRange _ _). }
  assert (Forall (range_free (pre ++ prev :: km :: maps)) rest) as Hr.
  { specialize (IH (pre ++ [prev]) km rest). rewrite <- app_assoc in IH. by apply IH. }
  destruct (Z.ltb_spec 0 (gap prev km)) as [Hpos|]; [|by intros [= <-]].
  assert (gap prev km <= km_start km - km_end prev) as Hle by (apply wraps_le; lia).
  unfold MemoryRange. destruct Hkm as [? [? ?]]. rewrite wrapu_small by lia.
  rewrite (proj2 (Z.leb_le _ _)) by lia. intros [= <-]. constructor; [|done].
  split; cbn; [lia|]. apply free_app; [done|]. cbn. intros ? [= <-]. lia.
Qed.

Theorem find_empty_pages_free maps rs :
  in_order maps -> find_empty_pages maps = Ok rs -> Forall (range_free maps) rs.
Proof.
  intros Ho. destruct maps as [|km maps]; [by intros [= <-]|]. cbn. exact (empty_pages_free [] km maps rs Ho).
Qed.
