(* ===== verification/MuplayQuilter.v ===== *)
(** * Linking the patched functions to the recorded program

    The two visitors over the code of a changed function: [MuplayModFunctionVisitor.cc]
    collects what it refers to, [MuplayLinkFunctionVisitor.cc] redirects the references to the
    program that was recorded; [MuplayEgalitoHelper.cc] searches strings and writes the
    instructions, and [filter_symbols_to_resolve] of [MuplayQuilter.cc] decides what is taken
    from the new executable.

    Egalito, which reads executables and edits instructions, is a parameter: a program is given
    as functions, blocks and instructions with the link Egalito found for each.  The edits
    are recorded as a list. *)

From Stdlib Require Import String.
From stdpp Require Import base tactics list numbers gmap sorting.
From S2P Require Import Prelude CStrings TracerMonad CxxStrings MuplayMaps.
Local Open Scope Z_scope.

(** ** Programs as Egalito presents them *)

(** A section of the data, with its global variables (address and symbol) and the region it
    lies in. *)
Record DataSection := mkSection {
  sec_name : cstring;
  sec_globals : list (Z * Z);
  region_address : Z;
  region_bytes : list Z;
  region_prot : Z }.

(** [PLTLink] has the resolved function, its module and its address; [InstructionLink] the
    function of the target and the offset of the target in the source's function. *)
Inductive link :=
| DataOffsetLink (sec : DataSection) (target : Z)
| AbsoluteDataLink
| FunctionLink (name : cstring) (rip_relative : bool)
| InstructionLink (target_function : option cstring) (offset : Z)
| PLTLink (name module_path : cstring) (resolved : option Z)
| OtherLink.

Record Instruction := mkInstr {
  i_id : Z;
  i_link : option link;
  i_function : option cstring;
  i_module_base : option Z;
  i_bytes : list Z;
  i_opstr : cstring;
  i_in_block : bool }.

Record Block := mkBlock { b_name : cstring; b_instrs : list Instruction }.
Record Function := mkFunction { f_name : cstring; f_size : Z; f_blocks : list Block }.

(** ** Strings *)

(** The C string at an offset of the bytes, [None] when it is not terminated. *)
Fixpoint cstr (bytes : list Z) : option cstring :=
  match bytes with
  | [] => None
  | 0 :: _ => Some []
  | c :: bytes => cons c <$> cstr bytes
  end.

Definition cstr_at (bytes : list Z) (off : Z) : option cstring :=
  if off <? 0 then None else cstr (drop (Z.to_nat off) bytes).

Definition get_ro_data_string (sec : DataSection) (region_offset : Z) : result cstring :=
  match cstr_at (region_bytes sec) region_offset with Some s => Ok s | None => Err BadAccess end.

(** [.rodata] of an executable: the bytes from its start to the end of the file, and its size. *)
Record rodata := mkRodata { ro_bytes : list Z; ro_size : Z }.

Fixpoint string_offset_loop (fuel : nat) (ro : rodata) (key : cstring) (off : Z) : result Z :=
  match fuel with
  | O => Err NoFuel
  | S fuel =>
      if off <=? ro_size ro then
        match cstr_at (ro_bytes ro) off with
        | None => Err BadAccess
        | Some s => if str_eqb s key then Ok off
                    else string_offset_loop fuel ro key (off + Z.of_nat (length s) + 1)
        end
      else Ok (2 ^ 64 - 1)
  end.

(** Each round passes a terminator; there are at most [ro_size + 1] rounds. *)
Definition find_string_offset (ro : option rodata) (key section : cstring) : result Z :=
  if negb (str_eqb section (lit ".rodata")) then Err Fatal
  else match ro with
       | None => Err BadAccess
       | Some ro => string_offset_loop (S (S (Z.to_nat (ro_size ro)))) ro key 0
       end.

(** ** Instructions *)

Definition GET_BYTE (x shift : Z) : Z := Z.land (Z.shiftr x (shift * 8)) 0xff.
Definition GET_BYTES (x : Z) : list Z := map (GET_BYTE x) [0; 1; 2; 3; 4; 5; 6; 7].

(** [movabs r11, target; jmp r11]. *)
Definition plt_code (target : Z) : list Z := [0x49; 0xbb] ++ GET_BYTES target ++ [0x41; 0xff; 0xe3].

(** [movabsRegsMap], in the order of its keys. *)
Definition movabsRegsMap : list (cstring * Z) :=
  [(lit "r10", 0x49ba); (lit "r11", 0x49bb); (lit "r12", 0x49bc); (lit "r13", 0x49bd);
   (lit "r14", 0x49be); (lit "r15", 0x49bf); (lit "r8", 0x49b8); (lit "r9", 0x49b9);
   (lit "rax", 0x48b8); (lit "rbp", 0x48bd); (lit "rbx", 0x48bb); (lit "rcx", 0x48b9);
   (lit "rdi", 0x48bf); (lit "rdx", 0x48ba); (lit "rsi", 0x48be); (lit "rsp", 0x48bc)].

Fixpoint movabs_opcode (regs : list (cstring * Z)) (opstr : cstring) : Z :=
  match regs with
  | [] => 0
  | (r, code) :: regs => if contains r opstr then code else movabs_opcode regs opstr
  end.

Definition movabs_code (opstr : cstring) (target : Z) : list Z :=
  let op := movabs_opcode movabsRegsMap opstr in
  [GET_BYTE op 1; GET_BYTE op 0] ++ GET_BYTES target.

(** ** What a function refers to *)

Inductive DataRefLocation := OLD_EXE | NEW_EXE.

#[export] Instance DataRefLocation_eq_dec : EqDecision DataRefLocation.
Proof. solve_decision. Defined.

Record refs := mkRefs {
  symbols_to_resolve : list cstring;
  globals_to_resolve : gmap Z (Z * DataRefLocation);
  strings_to_resolve : gmap Z (cstring * DataRefLocation) }.

Definition no_refs : refs := mkRefs [] ∅ ∅.

Definition add_symbol (name : cstring) (r : refs) : refs :=
  mkRefs (sset_insert name (symbols_to_resolve r)) (globals_to_resolve r) (strings_to_resolve r).

(** [std::map::insert] does not replace. *)
Definition insert_new {A} (k : Z) (v : A) (m : gmap Z A) : gmap Z A :=
  match m !! k with Some _ => m | None => <[k := v]> m end.

(** The loop over the globals of the section. *)
Fixpoint find_global (base : option Z) (target : Z) (globals : list (Z * Z)) : result (option Z) :=
  match globals with
  | [] => Ok None
  | (addr, sym) :: globals =>
      match base with
      | None => Err Fatal
      | Some b => if addr =? u64 (target - b) then Ok (Some sym) else find_global base target globals
      end
  end.

Definition handle_offset_data_link (i : Instruction) (sec : DataSection) (target : Z) (r : refs) : result refs :=
  g ← find_global (i_module_base i) target (sec_globals sec);
  match g with
  | Some sym => Ok (mkRefs (symbols_to_resolve r)
                      (insert_new (i_id i) (sym, OLD_EXE) (globals_to_resolve r)) (strings_to_resolve r))
  | None =>
      if str_eqb (sec_name sec) (lit ".rodata") then
        s ← get_ro_data_string sec (u64 (target - region_address sec));
        mret (mkRefs (symbols_to_resolve r) (globals_to_resolve r)
                (insert_new (i_id i) (s, OLD_EXE) (strings_to_resolve r)))
      else Ok r
  end.

Definition mod_visit_instruction (r : refs) (i : Instruction) : result refs :=
  match i_link i with
  | None => Ok r
  | Some (DataOffsetLink sec target) => handle_offset_data_link i sec target r
  | Some AbsoluteDataLink => Ok r
  | Some (FunctionLink name _) => Ok (add_symbol name r)
  | Some (InstructionLink None _) => Err Fatal
  | Some (InstructionLink (Some f) _) => Ok (add_symbol f r)
  | Some (PLTLink name _ _) => Ok (add_symbol name r)
  | Some OtherLink => Ok r
  end.

Fixpoint mod_visit (r : refs) (l : list Instruction) : result refs :=
  match l with
  | [] => Ok r
  | i :: l => r ← mod_visit_instruction r i; mod_visit r l
  end.

Definition instructions (f : Function) : list Instruction := concat (map b_instrs (f_blocks f)).

(** [MuplayModFunctionVisitor] on one function, starting from nothing. *)
Definition mod_visit_function (f : Function) : result refs := mod_visit no_refs (instructions f).

(** [insert] of the ranges into the quilter's own sets. *)
Definition merge_refs (r found : refs) : refs :=
  mkRefs (fold_left (fun s k => sset_insert k s) (symbols_to_resolve found) (symbols_to_resolve r))
    (globals_to_resolve r ∪ globals_to_resolve found) (strings_to_resolve r ∪ strings_to_resolve found).

(** ** What is taken from the new executable *)

(** The loop that erases the names of changed functions from the set it iterates over: the
    element that is erased is the one the iterator is at. *)
Fixpoint erase_modified (names : list cstring) (symbols : list cstring) : result (list cstring) :=
  match symbols with
  | [] => Ok []
  | s :: symbols =>
      if sset_mem s names then Err BadAccess
      else rest ← erase_modified names symbols; mret (s :: rest)
  end.

Fixpoint locate_strings (ro : option rodata) (l : list (Z * (cstring * DataRefLocation)))
    (m : gmap Z (cstring * DataRefLocation)) (load_data : bool) :
    result (gmap Z (cstring * DataRefLocation) * bool) :=
  match l with
  | [] => Ok (m, load_data)
  | (id, (s, _)) :: l =>
      off ← find_string_offset ro s (lit ".rodata");
      if off =? 2 ^ 64 - 1 then locate_strings ro l (<[id := (s, NEW_EXE)]> m) true
      else locate_strings ro l m load_data
  end.

(** The references of all changed functions that are found, and the count for the statistics. *)
Fixpoint collect (find : cstring -> option Function) (names : list cstring) (r : refs) (total : Z) :
    result (refs * Z) :=
  match names with
  | [] => Ok (r, total)
  | n :: names =>
      match find n with
      | None => collect find names r total
      | Some f =>
          found ← mod_visit_function f;
          let r := merge_refs r found in
          collect find names r
            (total + Z.of_nat (length (symbols_to_resolve r)) +
             Z.of_nat (size (globals_to_resolve r)) + Z.of_nat (size (strings_to_resolve r)))
      end
  end.

Definition filter_symbols_to_resolve (find : cstring -> option Function) (ro : option rodata)
    (names : list cstring) (r : refs) (load_data : bool) : result (refs * bool * Z) :=
  c ← collect find names r 0;
  let '(r, total) := c in
  syms ← erase_modified names (symbols_to_resolve r);
  l ← locate_strings ro (map_to_list (strings_to_resolve r)) (strings_to_resolve r) load_data;
  mret (mkRefs syms (globals_to_resolve r) (fst l), snd l, total).

(** ** Linking *)

Inductive edit :=
| LinkText (inst target offset : Z)
| LinkData (inst target offset : Z)
| RewritePLT (name : cstring) (code : list Z)
| InsertAfter (inst : Z) (code : list Z).

Record counts := mkCounts { data_refs : Z; code_refs : Z; plt_refs : Z }.

Section Link.
(** The symbols of the recorded executable, its path and [.rodata], and the memory map. *)
Variable old_symbol : cstring -> option Z.
Variable old_path : cstring.
Variable old_rodata : option rodata.
Variable maps : list KernelMapping.
Variable r : refs.

Definition link_plt_target (name module_path : cstring) (resolved : option Z) : result (list edit) :=
  match resolved with
  | None => Err Fatal
  | Some func_offset =>
      let module_offset := find_module_offset maps module_path (Z.lor PROT_EXEC PROT_READ) in
      if module_offset =? 0 then Ok []
      else Ok [RewritePLT name (plt_code (u64 (module_offset + func_offset)))]
  end.

Definition link_instruction_target (i : Instruction) (offset : Z) : result (list edit) :=
  match i_function i with
  | None => Err Fatal
  | Some parent =>
      match old_symbol parent with
      | None => Ok []
      | Some a => Ok [LinkText (i_id i) (u64 (a + offset)) offset]
      end
  end.

Definition link_function_target (i : Instruction) (name : cstring) (rip : bool) : result (list edit) :=
  match old_symbol name with
  | None => Ok []
  | Some a => Ok [if rip then LinkText (i_id i) a 0 else LinkData (i_id i) a 0]
  end.

Definition link_string_reference (i : Instruction) (sec : DataSection) : result (list edit) :=
  match strings_to_resolve r !! i_id i with
  | None => Ok []
  | Some (key, _) =>
      string_offset ← find_string_offset old_rodata key (sec_name sec);
      if s32 string_offset <? 0 then Err Fatal
      else
        let module_offset := find_module_offset maps old_path (region_prot sec) in
        let string_address := u64 (module_offset + string_offset) in
        if bool_decide (take 2 (i_bytes i) = [0x48; 0x8d]) then
          if i_in_block i then Ok [InsertAfter (i_id i) (movabs_code (i_opstr i) string_address)]
          else Err Fatal
        else Ok []
  end.

(** The end iterator of [strings_to_resolve] is dereferenced for a global variable. *)
Definition link_data_offset_link (i : Instruction) (sec : DataSection) : result (list edit) :=
  match strings_to_resolve r !! i_id i, globals_to_resolve r !! i_id i with
  | Some (_, OLD_EXE), _ => link_string_reference i sec
  | None, Some _ => Err BadAccess
  | Some (_, NEW_EXE), _ => Ok []
  | None, None => Ok []
  end.

Definition link_visit_instruction (i : Instruction) (c : counts) : result (list edit * counts) :=
  match i_link i with
  | None | Some OtherLink => Ok ([], c)
  | Some (DataOffsetLink sec _) =>
      es ← link_data_offset_link i sec;
      mret (es, mkCounts (data_refs c + 1) (code_refs c) (plt_refs c))
  | Some AbsoluteDataLink => Err Fatal
  | Some (FunctionLink name rip) =>
      es ← link_function_target i name rip;
      mret (es, mkCounts (data_refs c) (code_refs c + 1) (plt_refs c))
  | Some (InstructionLink _ offset) =>
      es ← link_instruction_target i offset;
      mret (es, mkCounts (data_refs c) (code_refs c + 1) (plt_refs c))
  | Some (PLTLink name module_path resolved) =>
      es ← link_plt_target name module_path resolved;
      mret (es, mkCounts (data_refs c) (code_refs c + 1) (plt_refs c + 1))
  end.

Fixpoint link_visit_instructions (l : list Instruction) (c : counts) : result (list edit * counts) :=
  match l with
  | [] => Ok ([], c)
  | i :: l =>
      e ← link_visit_instruction i c;
      es ← link_visit_instructions l (snd e);
      mret (fst e ++ fst es, snd es)
  end.

(** [recurse] stops at two blocks by name. *)
Definition skipped_block (name : cstring) : bool :=
  str_eqb name (lit "Curl_follow/bb+813") || str_eqb name (lit "read_file/bb+66").

Fixpoint link_visit_blocks (bs : list Block) (c : counts) : result (list edit * counts) :=
  match bs with
  | [] => Ok ([], c)
  | b :: bs =>
      if skipped_block (b_name b) then Ok ([], c)
      else
        e ← link_visit_instructions (b_instrs b) c;
        es ← link_visit_blocks bs (snd e);
        mret (fst e ++ fst es, snd es)
  end.

Definition link_visit_function (f : Function) (c : counts) := link_visit_blocks (f_blocks f) c.
End Link.

(** ** What the quilter links, and where it cannot *)

(** ** Strings of the recorded executable *)

Lemma string_loop_spec fuel ro key off :
  0 <= off -> (S (Z.to_nat (ro_size ro - off)) < fuel)%nat \/ ro_size ro < off /\ (0 < fuel)%nat ->
  match string_offset_loop fuel ro key off with
  | Ok r => r = 2 ^ 64 - 1 \/ off <= r <= ro_size ro /\ cstr_at (ro_bytes ro) r = Some key
  | Err w => w = BadAccess
  end.
Proof.
  revert off. induction fuel as [|fuel IH]; intros off H0 Hf; [lia|]. cbn [string_offset_loop].
  destruct (Z.leb_spec off (ro_size ro)) as [Hle|]; [|by left].
  destruct (cstr_at (ro_bytes ro) off) as [s|] eqn:Hs; [|done].
  destruct (str_eqb s key) eqn:He; [apply str_eqb_eq in He as ->; right; split; [lia|done]|].
  specialize (IH (off + Z.of_nat (length s) + 1) ltac:(lia)).
  destruct (string_offset_loop fuel ro key _) as [r|w]; [|apply IH; lia].
  destruct IH as [->|[Hr Hc]]; [lia|by left|right; split; [lia|done]].
Qed.

(** The bytes of terminated strings. *)
Definition terminated (ss : list cstring) : list Z := concat (map (fun s => s ++ [0]) ss).
Definition no_nul (s : cstring) : Prop := Forall (fun c => c <> 0) s.

Lemma cstr_app s rest : no_nul s -> cstr (s ++ 0 :: rest) = Some s.
Proof.
  induction 1 as [|c s Hc Hs IH]; [done|]. cbn [app].
  assert (cstr (c :: s ++ 0 :: rest) = cons c <$> cstr (s ++ 0 :: rest)) as -> by (by destruct c). by rewrite IH.
Qed.

Lemma terminated_app a b : terminated (a ++ b) = terminated a ++ terminated b.
Proof. unfold terminated. by rewrite map_app, concat_app. Qed.

Lemma cstr_at_app pre rest : cstr_at (pre ++ rest) (Z.of_nat (length pre)) = cstr rest.
Proof.
  unfold cstr_at. rewrite (proj2 (Z.ltb_ge _ _)) by lia. rewrite Nat2Z.id. by rewrite drop_app_length.
Qed.

Lemma string_loop_strings fuel ro key pre ss rest :
  (length ss < fuel)%nat -> Forall no_nul ss -> key ∉ ss ->
  ro_bytes ro = pre ++ terminated ss ++ rest ->
  Z.of_nat (length pre + length (terminated ss)) <= ro_size ro ->
  string_offset_loop fuel ro key (Z.of_nat (length pre)) =
  string_offset_loop (fuel - length ss) ro key (Z.of_nat (length (pre ++ terminated ss))).
Proof.
  revert fuel pre. induction ss as [|s ss IH]; intros fuel pre Hf Hnn Hk Hb Hsz.
  { unfold terminated. cbn [map concat]. by rewrite app_nil_r, Nat.sub_0_r. }
  destruct fuel as [|fuel]; [lia|]. apply Forall_cons_1 in Hnn as [Hs Hnn]. apply not_elem_of_cons in Hk as [Hks Hk].
  assert (terminated (s :: ss) = (s ++ [0]) ++ terminated ss) as Ht by done. rewrite Ht in *.
  cbn [string_offset_loop length Nat.sub]. rewrite (proj2 (Z.leb_le _ _)) by lia.
  rewrite Hb, cstr_at_app, <- !app_assoc. cbn [app]. rewrite cstr_app by done.
  rewrite str_eqb_neq by congruence.
  replace (Z.of_nat (length pre) + Z.of_nat (length s) + 1) with (Z.of_nat (length (pre ++ s ++ [0])))
    by (rewrite !length_app; cbn; lia).
  rewrite IH; auto.
  - by rewrite <- !app_assoc.
  - cbn in Hf. lia.
  - rewrite Hb, <- !app_assoc. done.
  - rewrite !length_app in *. cbn in *. lia.
Qed.

(** find_string_offset returns the offset of the first string of the section
    that equals the key, and -1 when there is none, but for one more string that
    it reads past the end of the section. *)
Theorem find_string_offset_spec ss rest key :
  Forall no_nul ss ->
  let ro := mkRodata (terminated ss ++ rest) (Z.of_nat (length (terminated ss))) in
  (forall a b, ss = a ++ key :: b -> key ∉ a ->
     find_string_offset (Some ro) key (lit ".rodata") = Ok (Z.of_nat (length (terminated a)))) /\
  (key ∉ ss -> find_string_offset (Some ro) key (lit ".rodata") =
     match cstr rest with
     | None => Err BadAccess
     | Some s => if str_eqb s key then Ok (ro_size ro) else Ok (2 ^ 64 - 1)
     end).
Proof.
  intros Hnn ro.
  assert (forall a b, length (terminated (a ++ b)) = (length (terminated a) + length (terminated b))%nat) as Hlen.
  { intros a b. by rewrite terminated_app, length_app. }
  assert (forall l, (length l <= length (terminated l))%nat) as Hcount.
  { induction l as [|s l IH]; [done|]. unfold terminated in *. cbn. rewrite !length_app. cbn. lia. }
  assert (find_string_offset (Some ro) key (lit ".rodata") =
    string_offset_loop (S (S (length (terminated ss)))) ro key 0) as ->.
  { unfold find_string_offset. rewrite str_eqb_refl. cbn [negb ro_size ro]. by rewrite Nat2Z.id. }
  split.
  - intros a b -> Ha. apply Forall_app in Hnn as [Hna Hnb]. apply Forall_cons_1 in Hnb as [Hnk _].
    pose proof (Hcount (a ++ key :: b)) as Hc. rewrite length_app in Hc. cbn in Hc.
    rewrite (string_loop_strings _ ro key [] a (terminated (key :: b) ++ rest)); auto.
    + cbn [app]. rewrite Nat.sub_succ_l by lia. cbn [string_offset_loop].
      rewrite (proj2 (Z.leb_le _ _)) by (cbn [ro_size ro]; rewrite Hlen; lia).
      cbn [ro_bytes ro]. rewrite terminated_app, <- app_assoc, cstr_at_app.
      assert (terminated (key :: b) ++ rest = key ++ 0 :: terminated b ++ rest) as ->.
      { unfold terminated. cbn. by rewrite <- !app_assoc. }
      by rewrite cstr_app, str_eqb_refl.
    + lia.
    + cbn [ro_bytes ro app]. by rewrite terminated_app, <- app_assoc.
    + cbn [ro_size ro length]. rewrite Hlen. lia.
  - intros Hk. pose proof (Hcount ss) as Hc.
    rewrite (string_loop_strings _ ro key [] ss rest); auto; [|lia|cbn; lia]. cbn [app].
    rewrite !Nat.sub_succ_l by lia. cbn [string_offset_loop]. rewrite (proj2 (Z.leb_le _ _)) by (cbn; lia).
    cbn [ro_bytes ro]. rewrite cstr_at_app. destruct (cstr rest) as [s|]; [|done].
    destruct (str_eqb s key); [done|]. by rewrite (proj2 (Z.leb_gt _ _)) by (cbn; lia).
Qed.

(** ** Encoded addresses *)

Definition le_value (l : list Z) : Z := foldr (fun b n => b + 256 * n) 0 l.

Lemma GET_BYTE_eq x k : 0 <= k -> GET_BYTE x k = (x / 256 ^ k) mod 256.
Proof.
  intros Hk. unfold GET_BYTE. change 0xff with (Z.ones 8). rewrite Z.land_ones, Z.shiftr_div_pow2 by lia.
  f_equal. f_equal. change 256 with (2 ^ 8). rewrite <- Z.pow_mul_r by lia. f_equal. lia.
Qed.

Lemma le_value_bytes n x k :
  0 <= k -> 0 <= x < 256 ^ (k + Z.of_nat n) ->
  le_value (map (fun i => GET_BYTE x (k + Z.of_nat i)) (seq 0 n)) = x / 256 ^ k.
Proof.
  revert k. induction n as [|n IH]; intros k Hk Hx.
  - cbn. rewrite Z.add_0_r in Hx. by rewrite Z.div_small.
  - cbn [seq map le_value foldr]. rewrite <- seq_shift, map_map. rewrite Z.add_0_r.
    replace (map (fun i => GET_BYTE x (k + Z.of_nat (S i))) (seq 0 n)) with
      (map (fun i => GET_BYTE x (k + 1 + Z.of_nat i)) (seq 0 n)) by (apply map_ext; intros i; f_equal; lia).
    fold (le_value (map (fun i => GET_BYTE x (k + 1 + Z.of_nat i)) (seq 0 n))).
    rewrite IH; [|lia|replace (k + 1 + Z.of_nat n) with (k + Z.of_nat (S n)) by lia; done].
    rewrite GET_BYTE_eq by lia. rewrite Z.pow_add_r by lia. change (256 ^ 1) with 256.
    rewrite <- Z.div_div by lia. rewrite Z.add_comm. symmetry. apply Z.div_mod. lia.
Qed.

(** The 8 bytes of the movabs instructions written for a PLT entry and for a
    string reference decode to the address they were made for. *)
Theorem encoded_target target opstr :
  0 <= target < 2 ^ 64 ->
  (exists mid, plt_code target = [0x49; 0xbb] ++ mid ++ [0x41; 0xff; 0xe3] /\ length mid = 8%nat /\ le_value mid = target) /\
  (exists mid, movabs_code opstr target =
     [GET_BYTE (movabs_opcode movabsRegsMap opstr) 1; GET_BYTE (movabs_opcode movabsRegsMap opstr) 0] ++ mid /\
     length mid = 8%nat /\ le_value mid = target).
Proof.
  intros Ht. assert (le_value (GET_BYTES target) = target) as Hv.
  { transitivity (target / 256 ^ 0); [|by rewrite Z.div_1_r].
    rewrite <- (le_value_bytes 8 target 0) by (done || lia). done. }
  split; exists (GET_BYTES target); auto.
Qed.

(** ** References between changed functions *)

Lemma data_link_symbols i sec target r r' :
  handle_offset_data_link i sec target r = Ok r' -> symbols_to_resolve r' = symbols_to_resolve r.
Proof.
  unfold handle_offset_data_link. destruct (find_global _ _ _) as [[sym|]|]; cbn; [by intros [= <-]| |done].
  destruct (str_eqb _ _); [|by intros [= <-]]. destruct (get_ro_data_string _ _); cbn; [by intros [= <-]|done].
Qed.

Lemma mod_visit_mono r l r' x : mod_visit r l = Ok r' -> x ∈ symbols_to_resolve r -> x ∈ symbols_to_resolve r'.
Proof.
  revert r. induction l as [|i l IH]; intros r; cbn [mod_visit]; [by intros [= <-]|].
  destruct (mod_visit_instruction r i) as [r1|] eqn:Hi; cbn; [|done]. intros Hl Hx. apply (IH r1 Hl).
  unfold mod_visit_instruction in Hi.
  destruct (i_link i) as [[sec target| |name rip|[f|] off|name mp res|]|];
    try (injection Hi as <-; done || (apply elem_of_sset_insert; by right)); [|done].
  by rewrite (data_link_symbols _ _ _ _ _ Hi).
Qed.

(** The names an instruction refers to. *)
Definition refers_to (i : Instruction) (n : cstring) : Prop :=
  (exists rip, i_link i = Some (FunctionLink n rip)) \/ (exists off, i_link i = Some (InstructionLink (Some n) off)) \/
  (exists mp res, i_link i = Some (PLTLink n mp res)).

Lemma mod_visit_finds r l r' i n :
  mod_visit r l = Ok r' -> i ∈ l -> refers_to i n -> n ∈ symbols_to_resolve r'.
Proof.
  revert r. induction l as [|j l IH]; intros r; cbn [mod_visit]; [by intros _ ?%elem_of_nil|].
  destruct (mod_visit_instruction r j) as [r1|] eqn:Hj; cbn; [|done]. intros Hl Hi Hr.
  apply elem_of_cons in Hi as [->|Hi]; [|by apply (IH r1)]. apply (mod_visit_mono r1 l); [done|].
  unfold mod_visit_instruction in Hj. destruct Hr as [[rip Hr]|[[off Hr]|(mp & res & Hr)]]; rewrite Hr in Hj;
    injection Hj as <-; apply elem_of_sset_insert; by left.
Qed.

Lemma merge_elem r found x :
  x ∈ symbols_to_resolve (merge_refs r found) <-> x ∈ symbols_to_resolve found \/ x ∈ symbols_to_resolve r.
Proof. apply elem_of_sset_fold. Qed.

Lemma collect_mono find names r t r' t' x :
  collect find names r t = Ok (r', t') -> x ∈ symbols_to_resolve r -> x ∈ symbols_to_resolve r'.
Proof.
  revert r t. induction names as [|n names IH]; intros r t; cbn [collect]; [by intros [= <- <-]|].
  destruct (find n) as [f|]; [|apply IH]. destruct (mod_visit_function f) as [found|]; cbn; [|done].
  intros Hc Hx. eapply IH; [exact Hc|]. apply merge_elem. by right.
Qed.

Lemma collect_finds find names r t r' t' m f i n :
  collect find names r t = Ok (r', t') -> m ∈ names -> find m = Some f -> i ∈ instructions f -> refers_to i n ->
  n ∈ symbols_to_resolve r'.
Proof.
  revert r t. induction names as [|k names IH]; intros r t; cbn [collect]; [by intros _ ?%elem_of_nil|].
  intros Hc Hm Hf Hi Hr. apply elem_of_cons in Hm as [->|Hm].
  - rewrite Hf in Hc. destruct (mod_visit_function f) as [found|] eqn:Hv; cbn in Hc; [|done].
    eapply collect_mono; [exact Hc|]. apply merge_elem. left. by eapply mod_visit_finds.
  - destruct (find k) as [g|]; [|by eapply IH]. destruct (mod_visit_function g) as [found|]; cbn in Hc; [|done].
    by eapply IH.
Qed.

Lemma erase_modified_bad names symbols n :
  n ∈ names -> n ∈ symbols -> erase_modified names symbols = Err BadAccess.
Proof.
  intros Hn. induction symbols as [|s symbols IH]; intros Hs; [by apply elem_of_nil in Hs|]. cbn.
  destruct (sset_mem s names) eqn:Hm; [done|]. apply elem_of_cons in Hs as [->|Hs].
  - apply sset_mem_spec in Hn. congruence.
  - by rewrite IH.
Qed.

(** When a changed function refers to a changed function,
    filter_symbols_to_resolve erases an element of the set it iterates over. *)
Theorem changed_function_reference_undefined find ro names r ld r' t m f i n :
  collect find names r 0 = Ok (r', t) -> m ∈ names -> find m = Some f -> i ∈ instructions f ->
  refers_to i n -> n ∈ names ->
  filter_symbols_to_resolve find ro names r ld = Err BadAccess.
Proof.
  intros Hc Hm Hf Hi Hr Hn. unfold filter_symbols_to_resolve. rewrite Hc. cbn.
  rewrite (erase_modified_bad names _ n); [done|done|]. exact (collect_finds _ _ _ _ _ _ _ _ _ _ Hc Hm Hf Hi Hr).
Qed.

(** Otherwise every name but those of the changed functions is kept. *)
Theorem filter_keeps_symbols find ro names r ld rf ld' t :
  filter_symbols_to_resolve find ro names r ld = Ok (rf, ld', t) ->
  (forall n, n ∈ symbols_to_resolve rf -> n ∉ names) /\
  (forall m f i n, m ∈ names -> find m = Some f -> i ∈ instructions f -> refers_to i n -> n ∈ symbols_to_resolve rf).
Proof.
  unfold filter_symbols_to_resolve. destruct (collect find names r 0) as [[r' t']|] eqn:Hc; cbn; [|done].
  assert (forall l l', erase_modified names l = Ok l' -> l' = l /\ forall n, n ∈ l -> n ∉ names) as He.
  { induction l as [|s l IH]; intros l'; cbn; [intros [= <-]; split; [done|by intros n ?%elem_of_nil]|].
    destruct (sset_mem s names) eqn:Hm; [done|]. destruct (erase_modified names l) as [l1|]; cbn; [|done].
    intros [= <-]. destruct (IH l1 eq_refl) as [-> Hl]. split; [done|]. intros n [->|Hn]%elem_of_cons; [|by apply Hl].
    intros Hin. apply sset_mem_spec in Hin. congruence. }
  destruct (erase_modified names (symbols_to_resolve r')) as [syms|] eqn:Hs; cbn; [|done].
  destruct (He _ _ Hs) as [-> Hnot].
  destruct (locate_strings _ _ _ _) as [l|]; cbn; [|done]. intros [= <- _ _]. cbn. split; [done|].
  intros m f i n Hm Hf Hi Hr. exact (collect_finds _ _ _ _ _ _ _ _ _ _ Hc Hm Hf Hi Hr).
Qed.

(** A reference to a global variable of the program: the visitors together. *)
Theorem global_reference_undefined old_symbol old_path ro maps i sec target sym c :
  i_link i = Some (DataOffsetLink sec target) ->
  find_global (i_module_base i) target (sec_globals sec) = Ok (Some sym) ->
  exists r, mod_visit_instruction no_refs i = Ok r /\
    link_visit_instruction old_symbol old_path ro maps r i c = Err BadAccess.
Proof.
  intros Hl Hg. unfold mod_visit_instruction, handle_offset_data_link. rewrite Hl, Hg. cbn.
  eexists. split; [done|]. unfold link_visit_instruction, link_data_offset_link. rewrite Hl.
  cbn. unfold insert_new. rewrite !lookup_empty, lookup_insert_eq. done.
Qed.

(** A jump inside a changed function is linked to the recorded code of the
    function, not to the patched one, when the old executable has the function. *)
Theorem inner_jumps_leave_the_patch old_symbol old_path ro maps r f c es c' i n off a :
  link_visit_function old_symbol old_path ro maps r f c = Ok (es, c') ->
  Forall (fun b => skipped_block (b_name b) = false) (f_blocks f) ->
  i ∈ instructions f -> i_function i = Some n -> i_link i = Some (InstructionLink (Some n) off) ->
  old_symbol n = Some a ->
  LinkText (i_id i) (u64 (a + off)) off ∈ es.
Proof.
  intros Hrun Hskip Hi Hf Hl Ho. unfold link_visit_function, instructions in *.
  assert (forall l c es c', link_visit_instructions old_symbol old_path ro maps r l c = Ok (es, c') -> i ∈ l ->
    LinkText (i_id i) (u64 (a + off)) off ∈ es) as Hins.
  { clear -Hf Hl Ho. induction l as [|j l IH]; intros c es c'; cbn [link_visit_instructions]; [by intros _ ?%elem_of_nil|].
    destruct (link_visit_instruction _ _ _ _ _ j c) as [[e cj]|] eqn:Hj; cbn; [|done].
    destruct (link_visit_instructions _ _ _ _ _ l cj) as [[e2 c2]|] eqn:Hrest; cbn; [|done].
    intros [= <- <-] Hi. apply elem_of_app. apply elem_of_cons in Hi as [->|Hi]; [left|right; by eapply IH].
    unfold link_visit_instruction in Hj. rewrite Hl in Hj. unfold link_instruction_target in Hj.
    rewrite Hf, Ho in Hj. injection Hj as <- _. left. }
  revert c es c' Hrun Hi. induction Hskip as [|b bs Hb Hbs IH]; intros c es c'; cbn [link_visit_blocks map concat].
  { by intros _ ?%elem_of_nil. }
  rewrite Hb. destruct (link_visit_instructions _ _ _ _ _ (b_instrs b) c) as [[e cj]|] eqn:Hj; cbn; [|done].
  destruct (link_visit_blocks _ _ _ _ _ bs cj) as [[e2 c2]|] eqn:Hrest; cbn; [|done].
  intros [= <- <-] Hi. apply elem_of_app. apply elem_of_app in Hi as [Hi|Hi]; [left; by eapply Hins|right; by eapply IH].
Qed.
