(* ===== verification/MuplaySession.v ===== *)
(** * Mutable replay

    [MuplayManager.cc], [MuplaySession.cc] and the rest of [MuplayQuilter.cc]: the states a
    mutable replay goes through, the table of changed functions, the loading of the patched
    code and the jumps into it.

    [ip], [maps], [done_initial_exec] and the memory in [vm] belong to the replayed process.
    The replay and the diversion that run between two steps are described by the contract of
    [MuplaySessionInv].  The statistics that only depend on the clock are left out. *)

From Stdlib Require Import String.
From stdpp Require Import base tactics list numbers gmap sorting.
From S2P Require Import Prelude CStrings CxxStrings TracerMonad MuplayPatch MuplayDwarf Breakpoints MuplayMaps MuplayQuilter.
Local Open Scope Z_scope.

(** ** Parameters *)

(** Egalito: the functions and the PLT entries it finds after parsing some files, the symbols,
    the [.rodata] section and the entry point of an executable, and the allocator of the sandbox:
    the address of the next slot of a size, given what has been handed out. *)
Class Egalito := {
  find_function : list cstring -> cstring -> option Function;
  find_plt : list cstring -> cstring -> option Z;
  find_symbol : cstring -> cstring -> option Z;
  find_rodata : cstring -> option rodata;
  entry_point : cstring -> Z;
  allocate : Z -> list Z -> Z -> Z }.

(** ** State *)

Record FunctionMapping := mkFm { fm_name : cstring; fm_orig : Z; fm_mod : Z; fm_bp : bool }.

Record MuplaySession := mkSession {
  has_set_entry_bp : bool;
  done_modified_load : bool;
  func_mappings : list FunctionMapping;
  initial_entry_point : Z;
  has_diverged : bool;
  muplay_mode : bool;
  qrefs : refs;
  load_mod_data_region : bool;
  edits : list edit;
  link_counts : counts;
  inserted_addresses : gset Z;
  deleted_addresses : gset Z;
  functions_loaded : Z;
  symbols_total : Z;
  patch_size : Z;
  footprint : Z;
  events_replayed : Z;
  vm : space;
  ip : Z;
  maps : list KernelMapping;
  done_initial_exec : bool }.

Definition set_has_set_entry_bp v (s : MuplaySession) : MuplaySession :=
  mkSession v (done_modified_load s) (func_mappings s) (initial_entry_point s)
    (has_diverged s) (muplay_mode s) (qrefs s) (load_mod_data_region s) (edits s)
    (link_counts s) (inserted_addresses s) (deleted_addresses s) (functions_loaded
    s) (symbols_total s) (patch_size s) (footprint s) (events_replayed s) (vm s) (ip
    s) (maps s) (done_initial_exec s).
Definition set_done_modified_load v (s : MuplaySession) : MuplaySession :=
  mkSession (has_set_entry_bp s) v (func_mappings s) (initial_entry_point s)
    (has_diverged s) (muplay_mode s) (qrefs s) (load_mod_data_region s) (edits s)
    (link_counts s) (inserted_addresses s) (deleted_addresses s) (functions_loaded
    s) (symbols_total s) (patch_size s) (footprint s) (events_replayed s) (vm s) (ip
    s) (maps s) (done_initial_exec s).
Definition set_func_mappings v (s : MuplaySession) : MuplaySession :=
  mkSession (has_set_entry_bp s) (done_modified_load s) v (initial_entry_point s)
    (has_diverged s) (muplay_mode s) (qrefs s) (load_mod_data_region s) (edits s)
    (link_counts s) (inserted_addresses s) (deleted_addresses s) (functions_loaded
    s) (symbols_total s) (patch_size s) (footprint s) (events_replayed s) (vm s) (ip
    s) (maps s) (done_initial_exec s).
Definition set_initial_entry_point v (s : MuplaySession) : MuplaySession :=
  mkSession (has_set_entry_bp s) (done_modified_load s) (func_mappings s) v
    (has_diverged s) (muplay_mode s) (qrefs s) (load_mod_data_region s) (edits s)
    (link_counts s) (inserted_addresses s) (deleted_addresses s) (functions_loaded
    s) (symbols_total s) (patch_size s) (footprint s) (events_replayed s) (vm s) (ip
    s) (maps s) (done_initial_exec s).
Definition set_has_diverged v (s : MuplaySession) : MuplaySession :=
  mkSession (has_set_entry_bp s) (done_modified_load s) (func_mappings s)
    (initial_entry_point s) v (muplay_mode s) (qrefs s) (load_mod_data_region s)
    (edits s) (link_counts s) (inserted_addresses s) (deleted_addresses s)
    (functions_loaded s) (symbols_total s) (patch_size s) (footprint s)
    (events_replayed s) (vm s) (ip s) (maps s) (done_initial_exec s).
Definition set_muplay_mode v (s : MuplaySession) : MuplaySession :=
  mkSession (has_set_entry_bp s) (done_modified_load s) (func_mappings s)
    (initial_entry_point s) (has_diverged s) v (qrefs s) (load_mod_data_region s)
    (edits s) (link_counts s) (inserted_addresses s) (deleted_addresses s)
    (functions_loaded s) (symbols_total s) (patch_size s) (footprint s)
    (events_replayed s) (vm s) (ip s) (maps s) (done_initial_exec s).
Definition set_qrefs v (s : MuplaySession) : MuplaySession :=
  mkSession (has_set_entry_bp s) (done_modified_load s) (func_mappings s)
    (initial_entry_point s) (has_diverged s) (muplay_mode s) v (load_mod_data_region
    s) (edits s) (link_counts s) (inserted_addresses s) (deleted_addresses s)
    (functions_loaded s) (symbols_total s) (patch_size s) (footprint s)
    (events_replayed s) (vm s) (ip s) (maps s) (done_initial_exec s).
Definition set_load_mod_data_region v (s : MuplaySession) : MuplaySession :=
  mkSession (has_set_entry_bp s) (done_modified_load s) (func_mappings s)
    (initial_entry_point s) (has_diverged s) (muplay_mode s) (qrefs s) v (edits s)
    (link_counts s) (inserted_addresses s) (deleted_addresses s) (functions_loaded
    s) (symbols_total s) (patch_size s) (footprint s) (events_replayed s) (vm s) (ip
    s) (maps s) (done_initial_exec s).
Definition set_edits v (s : MuplaySession) : MuplaySession :=
  mkSession (has_set_entry_bp s) (done_modified_load s) (func_mappings s)
    (initial_entry_point s) (has_diverged s) (muplay_mode s) (qrefs s)
    (load_mod_data_region s) v (link_counts s) (inserted_addresses s)
    (deleted_addresses s) (functions_loaded s) (symbols_total s) (patch_size s)
    (footprint s) (events_replayed s) (vm s) (ip s) (maps s) (done_initial_exec s).
Definition set_link_counts v (s : MuplaySession) : MuplaySession :=
  mkSession (has_set_entry_bp s) (done_modified_load s) (func_mappings s)
    (initial_entry_point s) (has_diverged s) (muplay_mode s) (qrefs s)
    (load_mod_data_region s) (edits s) v (inserted_addresses s) (deleted_addresses
    s) (functions_loaded s) (symbols_total s) (patch_size s) (footprint s)
    (events_replayed s) (vm s) (ip s) (maps s) (done_initial_exec s).
Definition set_inserted_addresses v (s : MuplaySession) : MuplaySession :=
  mkSession (has_set_entry_bp s) (done_modified_load s) (func_mappings s)
    (initial_entry_point s) (has_diverged s) (muplay_mode s) (qrefs s)
    (load_mod_data_region s) (edits s) (link_counts s) v (deleted_addresses s)
    (functions_loaded s) (symbols_total s) (patch_size s) (footprint s)
    (events_replayed s) (vm s) (ip s) (maps s) (done_initial_exec s).
Definition set_deleted_addresses v (s : MuplaySession) : MuplaySession :=
  mkSession (has_set_entry_bp s) (done_modified_load s) (func_mappings s)
    (initial_entry_point s) (has_diverged s) (muplay_mode s) (qrefs s)
    (load_mod_data_region s) (edits s) (link_counts s) (inserted_addresses s) v
    (functions_loaded s) (symbols_total s) (patch_size s) (footprint s)
    (events_replayed s) (vm s) (ip s) (maps s) (done_initial_exec s).
Definition set_functions_loaded v (s : MuplaySession) : MuplaySession :=
  mkSession (has_set_entry_bp s) (done_modified_load s) (func_mappings s)
    (initial_entry_point s) (has_diverged s) (muplay_mode s) (qrefs s)
    (load_mod_data_region s) (edits s) (link_counts s) (inserted_addresses s)
    (deleted_addresses s) v (symbols_total s) (patch_size s) (footprint s)
    (events_replayed s) (vm s) (ip s) (maps s) (done_initial_exec s).
Definition set_symbols_total v (s : MuplaySession) : MuplaySession :=
  mkSession (has_set_entry_bp s) (done_modified_load s) (func_mappings s)
    (initial_entry_point s) (has_diverged s) (muplay_mode s) (qrefs s)
    (load_mod_data_region s) (edits s) (link_counts s) (inserted_addresses s)
    (deleted_addresses s) (functions_loaded s) v (patch_size s) (footprint s)
    (events_replayed s) (vm s) (ip s) (maps s) (done_initial_exec s).
Definition set_patch_size v (s : MuplaySession) : MuplaySession :=
  mkSession (has_set_entry_bp s) (done_modified_load s) (func_mappings s)
    (initial_entry_point s) (has_diverged s) (muplay_mode s) (qrefs s)
    (load_mod_data_region s) (edits s) (link_counts s) (inserted_addresses s)
    (deleted_addresses s) (functions_loaded s) (symbols_total s) v (footprint s)
    (events_replayed s) (vm s) (ip s) (maps s) (done_initial_exec s).
Definition set_footprint v (s : MuplaySession) : MuplaySession :=
  mkSession (has_set_entry_bp s) (done_modified_load s) (func_mappings s)
    (initial_entry_point s) (has_diverged s) (muplay_mode s) (qrefs s)
    (load_mod_data_region s) (edits s) (link_counts s) (inserted_addresses s)
    (deleted_addresses s) (functions_loaded s) (symbols_total s) (patch_size s) v
    (events_replayed s) (vm s) (ip s) (maps s) (done_initial_exec s).
Definition set_events_replayed v (s : MuplaySession) : MuplaySession :=
  mkSession (has_set_entry_bp s) (done_modified_load s) (func_mappings s)
    (initial_entry_point s) (has_diverged s) (muplay_mode s) (qrefs s)
    (load_mod_data_region s) (edits s) (link_counts s) (inserted_addresses s)
    (deleted_addresses s) (functions_loaded s) (symbols_total s) (patch_size s)
    (footprint s) v (vm s) (ip s) (maps s) (done_initial_exec s).
Definition set_vm v (s : MuplaySession) : MuplaySession :=
  mkSession (has_set_entry_bp s) (done_modified_load s) (func_mappings s)
    (initial_entry_point s) (has_diverged s) (muplay_mode s) (qrefs s)
    (load_mod_data_region s) (edits s) (link_counts s) (inserted_addresses s)
    (deleted_addresses s) (functions_loaded s) (symbols_total s) (patch_size s)
    (footprint s) (events_replayed s) v (ip s) (maps s) (done_initial_exec s).
Definition set_ip v (s : MuplaySession) : MuplaySession :=
  mkSession (has_set_entry_bp s) (done_modified_load s) (func_mappings s)
    (initial_entry_point s) (has_diverged s) (muplay_mode s) (qrefs s)
    (load_mod_data_region s) (edits s) (link_counts s) (inserted_addresses s)
    (deleted_addresses s) (functions_loaded s) (symbols_total s) (patch_size s)
    (footprint s) (events_replayed s) (vm s) v (maps s) (done_initial_exec s).
Definition M := TM MuplaySession.

(** An operation on the address space. *)
Definition on_vm {A} (c : V A) : M A := fun s =>
  let '(r, v) := c (vm s) in (r, set_vm v s).

Definition lift {A} (r : result A) : M A := match r with Ok a => mret a | Err w => fail w end.

(** ** The table of functions *)

(** The order of the set is that of the names, and a name is inserted once. *)
Fixpoint fm_insert (fm : FunctionMapping) (l : list FunctionMapping) : list FunctionMapping :=
  match l with
  | [] => [fm]
  | x :: l' =>
      if str_ltb (fm_name fm) (fm_name x) then fm :: l
      else if str_ltb (fm_name x) (fm_name fm) then x :: fm_insert fm l'
      else l
  end.

Definition is_entry_point (fm : FunctionMapping) : bool := str_eqb (fm_name fm) (lit "_start").

Definition set_mod (a : Z) (fm : FunctionMapping) := mkFm (fm_name fm) (fm_orig fm) a (fm_bp fm).
Definition set_bp (b : bool) (fm : FunctionMapping) := mkFm (fm_name fm) (fm_orig fm) (fm_mod fm) b.

(** The first mapping that satisfies [p] is changed by [f]; [None] if there is none. *)
Fixpoint change_first (p : FunctionMapping -> bool) (f : FunctionMapping -> FunctionMapping)
    (l : list FunctionMapping) : option (list FunctionMapping) :=
  match l with
  | [] => None
  | x :: l => if p x then Some (f x :: l) else cons x <$> change_first p f l
  end.

Definition by_name (name : cstring) (fm : FunctionMapping) : bool := str_eqb (fm_name fm) name.
Definition by_address (a : Z) (fm : FunctionMapping) : bool := (fm_orig fm =? a) || (fm_mod fm =? a).

Definition find_func_mapping_by_name (l : list FunctionMapping) (name : cstring) := List.find (by_name name) l.
Definition find_func_mapping_by_address (l : list FunctionMapping) (a : Z) := List.find (by_address a) l.

(** A function that is not in the table is only reported in the log. *)
Definition update_mod_func_position (name : cstring) (a : Z) : M unit :=
  change (fun s => match change_first (by_name name) (set_mod a) (func_mappings s) with
                   | Some l => set_func_mappings l s
                   | None => s
                   end).

Definition insert_func_mapping (fm : FunctionMapping) : M unit :=
  change (fun s => set_func_mappings (fm_insert fm (func_mappings s)) s).

(** ** Manager *)

Definition should_set_entry_bp (s : MuplaySession) : bool := done_initial_exec s && negb (has_set_entry_bp s).

Definition at_entry_point (s : MuplaySession) : bool := ip s =? initial_entry_point s + 1.

Definition should_load_modified_code (s : MuplaySession) : bool :=
  done_initial_exec s && has_set_entry_bp s && negb (done_modified_load s) && at_entry_point s.

Fixpoint entry_bp_exists (l : list FunctionMapping) : bool :=
  match l with
  | [] => false
  | fm :: l => if is_entry_point fm then fm_bp fm else entry_bp_exists l
  end.

Definition at_modified_func_bp (s : MuplaySession) : bool :=
  existsb (fun fm => (ip s - 1 =? fm_orig fm) && fm_bp fm && negb (is_entry_point fm)) (func_mappings s).

Definition mod_function_bps_exist (s : MuplaySession) : bool :=
  existsb (fun fm => fm_bp fm && negb (is_entry_point fm)) (func_mappings s).

Definition should_jump_to_modified_code (s : MuplaySession) : bool :=
  done_modified_load s && mod_function_bps_exist s && at_modified_func_bp s.

(** The null address when no function is there. *)
Definition get_modified_func_addr (s : MuplaySession) (orig : Z) : Z :=
  match List.find (fun fm => fm_orig fm =? orig) (func_mappings s) with
  | Some fm => fm_mod fm
  | None => 0
  end.

(** A null pointer is dereferenced when no mapping has the address. *)
Definition remove_bp (a : Z) : M unit :=
  on_vm (remove_breakpoint a BKPT_USER);;
  l ← ask func_mappings;
  match change_first (by_address a) (set_bp false) l with
  | Some l => change (set_func_mappings l)
  | None => fail BadAccess
  end.

Definition jump_to_address (a : Z) : M unit := change (set_ip a).

Definition jump_to_modified_code : M unit :=
  s ← ask id;
  let a := ip s - 1 in
  let mod_addr := get_modified_func_addr s a in
  if negb (mod_addr =? 0) then
    remove_bp a;;
    jump_to_address mod_addr;;
    change (set_has_diverged true)
  else fail Fatal.

(** The loop of [set_function_breakpoints]; whether the breakpoint could be added is not
    looked at. *)
Fixpoint set_bps (l : list FunctionMapping) : M (list FunctionMapping) :=
  match l with
  | [] => mret []
  | fm :: l =>
      if fm_bp fm then l ← set_bps l; mret (fm :: l)
      else if is_entry_point fm then l ← set_bps l; mret (fm :: l)
      else
        on_vm (add_breakpoint (fm_orig fm) BKPT_USER);;
        l ← set_bps l;
        mret (set_bp true fm :: l)
  end.

Definition set_function_breakpoints : M unit :=
  l ← ask func_mappings;
  l ← set_bps l;
  change (set_func_mappings l).

Section Session.
Context {E : Egalito}.
(** The preprocessor's results and the executable of the recorded process. *)
Variable pre : MuplayPreprocessor.
Variable exe_image : cstring.

Definition put_entry_bp : M unit :=
  maps ← ask maps;
  let ep := u64 (entry_point exe_image + find_module_base maps exe_image) in
  change (set_initial_entry_point ep);;
  change (set_muplay_mode true);;
  on_vm (add_breakpoint ep BKPT_USER);;
  insert_func_mapping (mkFm (lit "_start") ep ep true);;
  change (set_has_set_entry_bp true).

(** ** Quilter *)

Definition update_metadata (s : MuplayBinaryModificationSummary) : M unit :=
  let addrs := list_to_set (concat (map line_addresses (modification_list s))) : gset Z in
  match modification_type s with
  | INSERTED => change (fun x => set_inserted_addresses (inserted_addresses x ∪ addrs) x)
  | DELETED => change (fun x => set_deleted_addresses (deleted_addresses x ∪ addrs) x)
  end.

(** [executable_mappings.at(path)]. *)
Definition original_of (path : cstring) : M cstring :=
  match smap_get path (executable_mappings pre) with Some p => mret p | None => fail Uncaught end.

(** The first loop of [link_mod_functions]. *)
Fixpoint link_functions (old : cstring) (parsed names : list cstring) : M unit :=
  match names with
  | [] => mret tt
  | n :: names =>
      match find_function parsed n with
      | None => link_functions old parsed names
      | Some f =>
          s ← ask id;
          r ← lift (link_visit_function (find_symbol old) old (find_rodata old) (maps s) (qrefs s) f (link_counts s));
          change (set_edits (edits s ++ fst r));;
          change (set_link_counts (snd r));;
          link_functions old parsed names
      end
  end.

(** The second loop: the address of each changed function in the recorded process. *)
Fixpoint map_functions (old : cstring) (names : list cstring) : M unit :=
  match names with
  | [] => mret tt
  | n :: names =>
      match find_symbol old n with
      | None => map_functions old names
      | Some module_offset =>
          maps ← ask maps;
          insert_func_mapping (mkFm n (u64 (module_offset + find_module_base maps old)) 0 false);;
          map_functions old names
      end
  end.

Definition link_mod_functions (s : MuplayBinaryModificationSummary) (parsed : list cstring) : M unit :=
  old ← original_of (exe_path s);
  let names := get_modified_func_names s in
  link_functions old parsed names;;
  map_functions old names.

Definition safe_parse (path : cstring) (parsed : list cstring) : list cstring :=
  if sset_mem path parsed then parsed else parsed ++ [path].

Definition visit_mod_binary (s : MuplayBinaryModificationSummary) (parsed : list cstring) : M (list cstring) :=
  old ← original_of (exe_path s);
  if str_eqb old [] then fail Fatal
  else
    let parsed := safe_parse (exe_path s) parsed in
    x ← ask id;
    r ← lift (filter_symbols_to_resolve (find_function parsed) (find_rodata old)
                (get_modified_func_names s) (qrefs x) (load_mod_data_region x));
    let '(rf, ld, total) := r in
    change (set_qrefs rf);; change (set_load_mod_data_region ld);; change (set_symbols_total total);;
    link_mod_functions s parsed;;
    mret parsed.

Fixpoint visit_summaries (l : list MuplayBinaryModificationSummary) (parsed : list cstring) : M unit :=
  match l with
  | [] => mret tt
  | s :: l =>
      update_metadata s;;
      match modification_type s with
      | DELETED => visit_summaries l parsed
      | INSERTED => parsed ← visit_mod_binary s parsed; visit_summaries l parsed
      end
  end.

Definition visit_all_binaries : M unit :=
  d ← ask done_modified_load;
  if (d : bool) then fail Fatal else visit_summaries (summaries pre) [].

(** ** Loading *)

(** The functions of a summary that the new executable has, with their sizes, and the PLT entries
    of the symbols. *)
Definition present (parsed names : list cstring) : list (cstring * Z) :=
  omap (fun n => (fun f => (n, f_size f)) <$> find_function parsed n) names.
Definition present_plt (parsed symbols : list cstring) : list (cstring * Z) :=
  omap (fun n => (fun z => (n, z)) <$> find_plt parsed n) symbols.

(** The loop of [load_quilted_code]; [None] when it returns because a summary has no function. *)
Fixpoint sizes (symbols : list cstring) (l : list MuplayBinaryModificationSummary) (parsed : list cstring)
    (funcs plts : list (cstring * Z)) : option (list cstring * list (cstring * Z) * list (cstring * Z)) :=
  match l with
  | [] => Some (parsed, funcs, plts)
  | s :: l =>
      match modification_type s with
      | DELETED => sizes symbols l parsed funcs plts
      | INSERTED =>
          let parsed := safe_parse (exe_path s) parsed in
          let names := get_modified_func_names s in
          match names with
          | [] => None
          | _ => sizes symbols l parsed (funcs ++ present parsed names) (plts ++ present_plt parsed symbols)
          end
      end
  end.

Definition total_size (l : list (cstring * Z)) : Z := foldr (fun x n => snd x + n) 0 l.

(** The slots of the sandbox, one after the other. *)
Fixpoint place (base : Z) (used : list Z) (l : list (cstring * Z)) : list (cstring * Z) * list Z :=
  match l with
  | [] => ([], used)
  | (n, size) :: l =>
      let a := allocate base used size in
      let '(r, used) := place base (used ++ [size]) l in ((n, a) :: r, used)
  end.

Fixpoint set_positions (l : list (cstring * Z)) : M unit :=
  match l with
  | [] => mret tt
  | (n, a) :: l =>
      update_mod_func_position n a;;
      change (fun s => set_functions_loaded (functions_loaded s + 1) s);;
      set_positions l
  end.

(** The functions and entries are looked up again in all that has been parsed.  The code Egalito
    generates is not represented.  [mmap] of the code at the base is taken to succeed ([infallible_mmap_syscall]); a base of 0 is
    fatal. *)
Definition load_quilted_code : M unit :=
  s ← ask id;
  match sizes (symbols_to_resolve (qrefs s)) (summaries pre) [] [] [] with
  | None => mret tt
  | Some (parsed, funcs, plts) =>
      let size := total_size funcs + total_size plts in
      let base := find_lowest_base_address (maps s) size in
      change (set_patch_size size);;
      let used := snd (place base [] (present_plt parsed (map fst plts))) in
      let positions := fst (place base used (present parsed (map fst funcs))) in
      set_positions positions;;
      change (fun s => set_footprint (footprint s + size) s);;
      if 0 <? base then mret tt else fail Fatal
  end.

Definition load_modified_code : M unit := visit_all_binaries;; load_quilted_code.

(** ** Steps *)

Inductive action := StepReplay | StepDiversion | Exited.

#[global] Instance action_eq_dec : EqDecision action.
Proof. solve_decision. Defined.

(** [muplay_step] up to the call of [replay_step] or [diversion_step], which is the action it
    returns. *)
Definition muplay_step (metadata_mode : bool) : M action :=
  change (fun s => set_events_replayed (events_replayed s + 1) s);;
  s ← ask id;
  done_ ←
    (if should_set_entry_bp s then put_entry_bp;; mret false
     else if should_load_modified_code s then
       load_modified_code;;
       ep ← ask initial_entry_point;
       remove_bp ep;;
       jump_to_address ep;;
       change (set_done_modified_load true);;
       set_function_breakpoints;;
       s ← ask id;
       ASSERT (mod_function_bps_exist s);;
       mret metadata_mode
     else if should_jump_to_modified_code s then jump_to_modified_code;; mret false
     else mret false);
  if (done_ : bool) then mret Exited
  else d ← ask has_diverged; mret (if (d : bool) then StepDiversion else StepReplay).

End Session.
