(* ===== verification/MuplaySessionInv.v ===== *)
(** * What a mutable replay does with the changed functions *)

From Stdlib Require Import String.
From stdpp Require Import base tactics list numbers gmap sorting.
From S2P Require Import Prelude CStrings CxxStrings TracerMonad MuplayPatch MuplayDwarf MuplayDwarfSpec Breakpoints MuplayMaps MuplayQuilter MuplaySession.
Local Open Scope Z_scope.

(** ** The table *)

Definition table_sorted (l : list FunctionMapping) : Prop := StronglySorted str_lt (map fm_name l).

(** No two functions at one address, and no patched code at the address of a recorded function
    but the entry point's own. *)
Definition addresses_distinct (l : list FunctionMapping) : Prop :=
  NoDup (map fm_orig l) /\
  forall x y, x ∈ l -> y ∈ l -> fm_mod x = fm_orig y -> fm_orig x = fm_orig y.

Lemma change_first_spec p f l l' :
  change_first p f l = Some l' ->
  exists a x b, l = a ++ x :: b /\ l' = a ++ f x :: b /\ p x = true /\ Forall (fun y => p y = false) a.
Proof.
  revert l'. induction l as [|x l IH]; intros l'; cbn; [done|]. destruct (p x) eqn:Hp.
  - intros [= <-]. exists [], x, l. done.
  - intros (l1 & Hl1 & ->)%fmap_Some. destruct (IH l1 Hl1) as (a & y & b & -> & -> & Hy & Ha).
    exists (x :: a), y, b. split_and!; auto.
Qed.

Lemma change_first_unique p f a x b :
  p x = true -> Forall (fun y => p y = false) a -> change_first p f (a ++ x :: b) = Some (a ++ f x :: b).
Proof.
  intros Hx Ha. induction Ha as [|y a Hy Ha IH]; cbn; [by rewrite Hx|]. by rewrite Hy, IH.
Qed.

Lemma in_split_list {A} (x : A) l : x ∈ l -> exists a b, l = a ++ x :: b.
Proof. intros Hx. apply list_elem_of_In in Hx. by apply in_split. Qed.

(** The first mapping by original address is the only one. *)
Lemma find_orig l x a b :
  NoDup (map fm_orig l) -> l = a ++ x :: b ->
  List.find (fun fm => fm_orig fm =? fm_orig x) l = Some x /\
  Forall (fun y => fm_orig y <> fm_orig x) (a ++ b).
Proof.
  intros Hnd ->. rewrite map_app in Hnd. cbn in Hnd. split.
  - induction a as [|y a IH]; cbn; [by rewrite Z.eqb_refl|].
    cbn in Hnd. apply NoDup_cons in Hnd as [Hy Hnd]. destruct (Z.eqb_spec (fm_orig y) (fm_orig x)) as [He|]; [|by apply IH].
    destruct Hy. rewrite He. apply elem_of_app. right. left.
  - apply NoDup_app in Hnd as (_ & Hd & Hnd). apply NoDup_cons in Hnd as [Hx _].
    apply Forall_app. split; apply Forall_forall; intros y Hy He.
    + apply (Hd (fm_orig y)); [by apply list_elem_of_fmap_2|]. rewrite He. left.
    + apply Hx. rewrite <- He. by apply list_elem_of_fmap_2.
Qed.

Lemma by_address_only l x a b :
  addresses_distinct l -> l = a ++ x :: b -> Forall (fun y => by_address (fm_orig x) y = false) (a ++ b).
Proof.
  intros [Hnd Hmod] Hl. destruct (find_orig l x a b Hnd Hl) as [_ Hall]. rewrite Forall_forall in *.
  intros y Hy. unfold by_address. apply orb_false_iff. split; apply Z.eqb_neq; [by apply Hall|].
  intros He. apply (Hall y Hy). apply Hmod; [|subst l; apply elem_of_app; right; left|done]. subst l.
  apply elem_of_app in Hy as [Hy|Hy]; apply elem_of_app; [by left|right; by right].
Qed.

(** ** Jumps *)

Definition pending_fm (fm : FunctionMapping) : bool := fm_bp fm && negb (is_entry_point fm).

(** Functions that are still to be redirected. *)
Definition pending (s : MuplaySession) : nat := length (List.filter pending_fm (func_mappings s)).

(** After the load: the table, and the breakpoints of the functions still to be redirected. *)
Definition ready (s : MuplaySession) : Prop :=
  done_initial_exec s = true /\ has_set_entry_bp s = true /\ done_modified_load s = true /\
  addresses_distinct (func_mappings s) /\ Breakpoints.inv (vm s) /\
  forall fm, fm ∈ func_mappings s -> pending_fm fm = true -> 0 < Breakpoints.refs (vm s) (fm_orig fm) BKPT_USER.

Definition redirect (x : FunctionMapping) (a b : list FunctionMapping) (v : space) (s : MuplaySession) : MuplaySession :=
  set_has_diverged true (set_ip (fm_mod x) (set_func_mappings (a ++ set_bp false x :: b) (set_vm v s))).

Lemma on_vm_run {A} (c : V A) r v s : c (vm s) = (r, v) -> on_vm c s = (r, set_vm v s).
Proof. unfold on_vm. by intros ->. Qed.

Lemma at_bp_inv s :
  at_modified_func_bp s = true -> exists x a b, func_mappings s = a ++ x :: b /\ fm_orig x = ip s - 1 /\ pending_fm x = true.
Proof.
  intros H. apply existsb_exists in H as (x & Hx & H). apply andb_true_iff in H as [H1 H3].
  apply andb_true_iff in H1 as [H1%Z.eqb_eq H2].
  apply list_elem_of_In, in_split_list in Hx as (a & b & Hl). exists x, a, b.
  split_and!; [done|done|]. unfold pending_fm. by rewrite H2.
Qed.

Lemma jump_run s x a b :
  ready s -> func_mappings s = a ++ x :: b -> fm_orig x = ip s - 1 -> pending_fm x = true ->
  if fm_mod x =? 0 then jump_to_modified_code s = (Err Fatal, s)
  else exists v, jump_to_modified_code s = (Ok tt, redirect x a b v s) /\ Breakpoints.inv v /\
    (forall p, program_byte v p = program_byte (vm s) p) /\
    (forall p ty, Breakpoints.refs v p ty = Breakpoints.refs (vm s) p ty -
       one_if (bool_decide (p = fm_orig x /\ ty = BKPT_USER))).
Proof.
  intros (_ & _ & _ & Hd & Hv & Hrefs) Hl Hip Hp. unfold jump_to_modified_code.
  rewrite (bind_ok _ _ s s s) by done. unfold get_modified_func_addr. rewrite <- Hip.
  destruct (find_orig (func_mappings s) x a b (proj1 Hd) Hl) as [Hfind _]. rewrite Hfind.
  destruct (Z.eqb_spec (fm_mod x) 0) as [->|Hmod]; [done|]. cbn [negb].
  destruct (remove_breakpoint_spec (fm_orig x) BKPT_USER (vm s)) as (v & Hrun & Hinv & Hprog & Hr); [done|done| |].
  { apply Hrefs; [|done]. rewrite Hl. apply elem_of_app. right. left. }
  exists v. split_and!; auto.
  rewrite (bind_ok _ _ s tt (set_func_mappings (a ++ set_bp false x :: b) (set_vm v s))); [done|].
  unfold remove_bp. rewrite (bind_ok _ _ s _ _ (on_vm_run _ _ _ _ Hrun)).
  rewrite (bind_ok _ _ _ (func_mappings s) (set_vm v s)) by done.
  pose proof (by_address_only _ x a b Hd Hl) as Hall. apply Forall_app in Hall as [Ha _].
  rewrite Hl, change_first_unique; [done| |done]. unfold by_address. by rewrite Z.eqb_refl.
Qed.

Lemma pending_app a x b :
  length (List.filter pending_fm (a ++ x :: b)) =
  (length (List.filter pending_fm (a ++ b)) + if pending_fm x then 1 else 0)%nat.
Proof. rewrite !List.filter_app. cbn. rewrite !length_app. destruct (pending_fm x); cbn; lia. Qed.

Lemma redirect_ready s x a b v :
  ready s -> func_mappings s = a ++ x :: b -> pending_fm x = true -> Breakpoints.inv v ->
  (forall p ty, Breakpoints.refs v p ty = Breakpoints.refs (vm s) p ty -
       one_if (bool_decide (p = fm_orig x /\ ty = BKPT_USER))) ->
  ready (redirect x a b v s) /\ (S (pending (redirect x a b v s)) = pending s)%nat.
Proof.
  intros (He & Hs & Hd & [Hnd Hmod] & Hv & Hrefs) Hl Hp Hinv Hr.
  assert (forall y, y ∈ a ++ set_bp false x :: b -> exists y', y' ∈ func_mappings s /\ fm_orig y' = fm_orig y /\
    fm_mod y' = fm_mod y /\ (y = y' \/ y' = x)) as Hback.
  { intros y Hy. rewrite Hl. apply elem_of_app in Hy as [Hy|Hy].
    - exists y. split_and!; auto. apply elem_of_app. by left.
    - apply elem_of_cons in Hy as [->|Hy]; [exists x|exists y]; split_and!; auto; apply elem_of_app; right; [left|by right]. }
  split.
  - split_and!; try done.
    + split.
      * cbn. rewrite Hl in Hnd. rewrite map_app in *. done.
      * intros y z Hy Hz Heq. destruct (Hback y Hy) as (y' & Hy' & <- & Em & _).
        destruct (Hback z Hz) as (z' & Hz' & Eo & _). rewrite <- Eo in Heq |- *. rewrite <- Em in Heq. by apply Hmod.
    + intros y Hy Hpy. cbn in Hy. cbn [vm redirect]. rewrite Hr.
      destruct (Hback y Hy) as (y' & Hy' & Eo & _ & [->| ->]).
      2: { cbn in Hy. exfalso.
           destruct (find_orig (func_mappings s) x a b Hnd Hl) as [_ Hall]. rewrite Forall_forall in Hall.
           apply elem_of_app in Hy as [Hy|Hy]; [apply (Hall y); [apply elem_of_app; by left|done]|].
           apply elem_of_cons in Hy as [->|Hy]; [done|]. apply (Hall y); [apply elem_of_app; by right|done]. }
      assert (fm_orig y' <> fm_orig x) as Hne.
      { intros He'. destruct (find_orig (func_mappings s) x a b Hnd Hl) as [_ Hall]. rewrite Forall_forall in Hall.
        apply elem_of_app in Hy as [Hy|Hy]; [apply (Hall y'); [apply elem_of_app; by left|done]|].
        apply elem_of_cons in Hy as [->|Hy]; [done|]. apply (Hall y'); [apply elem_of_app; by right|done]. }
      rewrite bool_decide_eq_false_2 by (by intros []). cbn. specialize (Hrefs y' Hy' Hpy). lia.
  - unfold pending. cbn. rewrite Hl, !pending_app, Hp. cbn. lia.
Qed.

Lemma count_events_ready s n : ready s -> ready (set_events_replayed n s).
Proof. done. Qed.

Section Run.
Context {E : Egalito}.
Variable pre : MuplayPreprocessor.
Variable exe_image : cstring.
Variable metadata_mode : bool.

Notation step := (muplay_step pre exe_image metadata_mode).

(** A step of a ready session jumps or does nothing of its own. *)
Lemma ready_step s act s1 :
  ready s -> step s = (Ok act, s1) ->
  ready s1 /\ (pending s1 + (if should_jump_to_modified_code s then 1 else 0) = pending s)%nat /\
  act = (if has_diverged s1 then StepDiversion else StepReplay) /\
  (forall y, y ∈ func_mappings s1 -> exists y', y' ∈ func_mappings s /\ fm_orig y' = fm_orig y /\
     (fm_bp y = true -> fm_bp y' = true)).
Proof.
  intros Hr. unfold muplay_step. set (s0 := set_events_replayed (events_replayed s + 1) s).
  rewrite (bind_ok _ _ s tt s0) by done. rewrite (bind_ok _ _ s0 s0 s0) by done.
  pose proof Hr as (Hi & He & Hd & Hdis & Hv & _).
  assert (should_set_entry_bp s0 = false) as -> by (unfold should_set_entry_bp; cbn; by rewrite He, andb_false_r).
  assert (should_load_modified_code s0 = false) as ->.
  { unfold should_load_modified_code. cbn. by rewrite Hd, andb_false_r. }
  change (should_jump_to_modified_code s0) with (should_jump_to_modified_code s).
  destruct (should_jump_to_modified_code s) eqn:Hj.
  - unfold should_jump_to_modified_code in Hj. apply andb_true_iff in Hj as [_ Hbp].
    destruct (at_bp_inv s Hbp) as (x & a & b & Hl & Ho & Hp).
    pose proof (jump_run s0 x a b Hr Hl Ho Hp) as Hrun. destruct (fm_mod x =? 0).
    { intros Hstep. apply bind_Ok_inv in Hstep as (d & s2 & Hj & _).
      apply bind_Ok_inv in Hj as (? & s3 & Hj & _). congruence. }
    destruct Hrun as (v & Hrun & Hinv & _ & Hrefs).
    destruct (redirect_ready s0 x a b v Hr Hl Hp Hinv Hrefs) as [Hr1 Hcount].
    rewrite (bind_ok _ _ s0 false (redirect x a b v s0)) by (by rewrite (bind_ok _ _ _ _ _ Hrun)).
    intros [= <- <-]. split_and!; [done| |done|].
    + unfold pending in *. cbn in *. lia.
    + intros y Hy. cbn in Hy. rewrite Hl. apply elem_of_app in Hy as [Hy|Hy].
      * exists y. split_and!; auto. apply elem_of_app. by left.
      * apply elem_of_cons in Hy as [->|Hy]; [exists x|exists y]; split_and!; try done; apply elem_of_app; right;
          [left|by right].
  - rewrite (bind_ok _ _ s0 false s0) by done. intros [= <- <-]. split_and!; [done| |done|].
    + unfold pending. cbn. lia.
    + intros y Hy. exists y. auto.
Qed.

(** Replay and diversion run the process and leave the session, the entry and the user's breakpoints
    as they are. *)
Record env_step (s s' : MuplaySession) : Prop := {
  env_table : func_mappings s' = func_mappings s;
  env_flags : has_set_entry_bp s' = has_set_entry_bp s /\ done_modified_load s' = done_modified_load s /\
              has_diverged s' = has_diverged s;
  env_exec : done_initial_exec s = true -> done_initial_exec s' = true;
  env_inv : Breakpoints.inv (vm s');
  env_refs : forall a, Breakpoints.refs (vm s') a BKPT_USER = Breakpoints.refs (vm s) a BKPT_USER }.

(** Runs, with the number of jumps to patched code. *)
Inductive exec : MuplaySession -> nat -> MuplaySession -> Prop :=
| ExecEnd s : exec s 0 s
| ExecStep s act s1 s2 n s3 :
    step s = (Ok act, s1) -> act <> Exited -> env_step s1 s2 -> exec s2 n s3 ->
    exec s (n + if should_jump_to_modified_code s then 1 else 0) s3.

Lemma env_ready s s' : ready s -> env_step s s' -> ready s'.
Proof.
  intros (Hi & He & Hd & Hdis & Hv & Hrefs) [Ht (F1 & F2 & F3) Hx Hinv Hr]. unfold ready.
  rewrite Ht, F1, F2. split_and!; auto. intros fm Hfm Hp. rewrite Hr. by apply Hrefs.
Qed.

(** C8.  Once the patched code is loaded, every run of muplay_step, with replay
    and diversion in between, redirects each changed function at most once and
    makes progress: the number of jumps made plus the number of functions still
    to be redirected is constant, no breakpoint is set again, and the session
    stays in a state where the breakpoint of every pending function is in place. *)
Theorem redirected_once s n s' :
  ready s -> exec s n s' ->
  ready s' /\ (n + pending s' = pending s)%nat /\
  forall y, y ∈ func_mappings s' -> exists y', y' ∈ func_mappings s /\ fm_orig y' = fm_orig y /\
    (fm_bp y = true -> fm_bp y' = true).
Proof.
  intros Hr Hex. induction Hex as [s|s act s1 s2 n s3 Hstep _ Henv Hex IH].
  { split_and!; auto. intros y Hy. exists y. auto. }
  destruct (ready_step s act s1 Hr Hstep) as (Hr1 & Hp & _ & Hmon).
  destruct (IH (env_ready s1 s2 Hr1 Henv)) as (Hr3 & Hp3 & Hmon3). split_and!; [done| |].
  - assert (pending s2 = pending s1) as Heq by (unfold pending; by rewrite (env_table s1 s2 Henv)). lia.
  - intros y Hy. destruct (Hmon3 y Hy) as (y2 & Hy2 & E2 & B2). rewrite (env_table s1 s2 Henv) in Hy2.
    destruct (Hmon y2 Hy2) as (y1 & Hy1 & E1 & B1). exists y1. split_and!; auto. congruence.
Qed.

(** At the breakpoint of a changed function the session removes the breakpoint,
    goes on in the diversion at the address of the patched code of that very
    function and changes no byte of the program; it stops with a fatal error
    when the function has no patched code. *)
Theorem jump_goes_to_patched_code s :
  ready s -> should_jump_to_modified_code s = true ->
  exists x a b, func_mappings s = a ++ x :: b /\ fm_orig x = ip s - 1 /\
    if fm_mod x =? 0 then fst (step s) = Err Fatal
    else exists v, step s = (Ok StepDiversion, redirect x a b v (set_events_replayed (events_replayed s + 1) s)) /\
      (forall p, program_byte v p = program_byte (vm s) p).
Proof.
  intros Hr Hj. pose proof Hj as Hj'. unfold should_jump_to_modified_code in Hj'. apply andb_true_iff in Hj' as [_ Hbp].
  destruct (at_bp_inv s Hbp) as (x & a & b & Hl & Ho & Hp). exists x, a, b. split_and!; auto.
  set (s0 := set_events_replayed (events_replayed s + 1) s).
  pose proof (jump_run s0 x a b Hr Hl Ho Hp) as Hrun. pose proof Hr as (Hi & He & Hd & _).
  unfold muplay_step. rewrite (bind_ok _ _ s tt s0) by done. rewrite (bind_ok _ _ s0 s0 s0) by done.
  assert (should_set_entry_bp s0 = false) as -> by (unfold should_set_entry_bp; cbn; by rewrite He, andb_false_r).
  assert (should_load_modified_code s0 = false) as ->.
  { unfold should_load_modified_code. cbn. by rewrite Hd, andb_false_r. }
  change (should_jump_to_modified_code s0) with (should_jump_to_modified_code s). rewrite Hj.
  destruct (fm_mod x =? 0).
  - unfold mbind at 1, TM_bind at 1. unfold mbind at 1, TM_bind at 1. by rewrite Hrun.
  - destruct Hrun as (v & Hrun & _ & Hprog & _). exists v. split; [|done].
    by rewrite (bind_ok _ _ s0 false (redirect x a b v s0)) by (by rewrite (bind_ok _ _ _ _ _ Hrun)).
Qed.
End Run.

(** ** The load *)

(** [c] keeps [P] when it returns. *)
Definition keeps {A} (P : MuplaySession -> Prop) (c : M A) : Prop :=
  forall s a s', P s -> c s = (Ok a, s') -> P s'.

Lemma keeping_bind {A B} P (c : M A) (f : A -> M B) : keeps P c -> (forall a, keeps P (f a)) -> keeps P (mbind f c).
Proof. intros Hc Hf s b s' Hs Hrun. apply bind_Ok_inv in Hrun as (a & s1 & H1 & H2). eapply Hf; [|exact H2]. by eapply Hc. Qed.

Lemma keeping_ret {A} P (a : A) : keeps P (mret a).
Proof. intros s b s' Hs [= <- <-]. done. Qed.

Lemma keeps_fail {A} P w : keeps P (fail w : M A).
Proof. by intros s b s' Hs [= ]. Qed.

Lemma keeps_ask {A} P (f : MuplaySession -> A) : keeps P (ask f).
Proof. intros s b s' Hs [= <- <-]. done. Qed.

Lemma keeps_lift {A} P (r : result A) : keeps P (lift r).
Proof. destruct r; [apply keeping_ret|apply keeps_fail]. Qed.

Lemma keeps_change (P : MuplaySession -> Prop) f : (forall s, P s -> P (f s)) -> keeps P (change f).
Proof. intros H s b s' Hs [= <- <-]. by apply H. Qed.
#[local] Hint Resolve keeping_bind keeping_ret keeps_fail keeps_ask keeps_lift keeps_change : keeps.

Definition only_entry (l : list FunctionMapping) : Prop := Forall (fun fm => pending_fm fm = false) l.

(** What the load does not touch. *)
Definition loading (v : space) (ep : Z) (s : MuplaySession) : Prop :=
  vm s = v /\ initial_entry_point s = ep /\ done_initial_exec s = true /\ has_set_entry_bp s = true /\
  only_entry (func_mappings s).

Lemma fm_insert_elem fm l x : x ∈ fm_insert fm l -> x = fm \/ x ∈ l.
Proof.
  induction l as [|y l IH]; cbn; [by rewrite list_elem_of_singleton; auto|].
  destruct (str_ltb _ _); [by rewrite elem_of_cons|]. destruct (str_ltb _ _); [|by right].
  rewrite !elem_of_cons. intros [->|Hx]; [auto|]. destruct (IH Hx); auto.
Qed.

Lemma only_entry_insert fm l : pending_fm fm = false -> only_entry l -> only_entry (fm_insert fm l).
Proof.
  unfold only_entry. rewrite !Forall_forall. intros Hfm Hl x Hx. destruct (fm_insert_elem _ _ _ Hx) as [->|]; auto.
Qed.

Lemma only_entry_position n a l l' :
  only_entry l -> change_first (by_name n) (set_mod a) l = Some l' -> only_entry l'.
Proof.
  intros Hl Hc. apply change_first_spec in Hc as (p & x & q & -> & -> & _ & _). unfold only_entry in *.
  apply Forall_app in Hl as [H1 H2]. apply Forall_cons_1 in H2 as [H2 H3]. apply Forall_app. split; [done|].
  by constructor.
Qed.

Lemma keeps_insert v ep fm : pending_fm fm = false -> keeps (loading v ep) (insert_func_mapping fm).
Proof. intros Hfm. apply keeps_change. intros s (? & ? & ? & ? & H). split_and!; auto. by apply only_entry_insert. Qed.

Lemma keeps_position v ep n a : keeps (loading v ep) (update_mod_func_position n a).
Proof.
  apply keeps_change. intros s (? & ? & ? & ? & H). destruct (change_first _ _ _) eqn:Hc; [|by split_and!].
  split_and!; auto. by eapply only_entry_position.
Qed.

Section Load.
Context {E : Egalito}.
Variable pre : MuplayPreprocessor.
Variables (v : space) (ep : Z).
Notation L := (loading v ep).

Lemma keeps_field f :
  (forall s, vm (f s) = vm s) -> (forall s, initial_entry_point (f s) = initial_entry_point s) ->
  (forall s, done_initial_exec (f s) = done_initial_exec s) -> (forall s, has_set_entry_bp (f s) = has_set_entry_bp s) ->
  (forall s, func_mappings (f s) = func_mappings s) -> keeps L (change f).
Proof. intros H1 H2 H3 H4 H5. apply keeps_change. intros s Hs. unfold loading in *. by rewrite H1, H2, H3, H4, H5. Qed.

Lemma keeps_map_functions old names : keeps L (map_functions old names).
Proof.
  induction names as [|n names IH]; cbn; [apply keeping_ret|]. destruct (find_symbol old n); [|done].
  apply keeping_bind; [apply keeps_ask|]. intros m. apply keeping_bind; [by apply keeps_insert|done].
Qed.

Lemma keeps_link_functions old parsed names : keeps L (link_functions old parsed names).
Proof.
  induction names as [|n names IH]; cbn; [apply keeping_ret|]. destruct (find_function parsed n) as [f|]; [|done].
  apply keeping_bind; [apply keeps_ask|]. intros s. apply keeping_bind; [apply keeps_lift|]. intros r.
  apply keeping_bind; [by apply keeps_field|]. intros []. apply keeping_bind; [by apply keeps_field|done].
Qed.

Lemma keeps_visit l parsed : keeps L (visit_summaries pre l parsed).
Proof.
  revert parsed. induction l as [|s l IH]; intros parsed; cbn; [apply keeping_ret|].
  apply keeping_bind. { unfold update_metadata. destruct (modification_type s); by apply keeps_field. }
  intros []. destruct (modification_type s); [|apply IH]. apply keeping_bind; [|intros p; apply IH].
  unfold visit_mod_binary, original_of.
  apply keeping_bind; [destruct (smap_get _ _); [apply keeping_ret|apply keeps_fail]|]. intros old.
  destruct (str_eqb old []); [apply keeps_fail|]. apply keeping_bind; [apply keeps_ask|]. intros x.
  apply keeping_bind; [apply keeps_lift|]. intros [[rf ld] total].
  do 3 (apply keeping_bind; [by apply keeps_field|]; intros []).
  apply keeping_bind; [|intros []; apply keeping_ret]. unfold link_mod_functions, original_of.
  apply keeping_bind; [destruct (smap_get _ _); [apply keeping_ret|apply keeps_fail]|]. intros old'.
  apply keeping_bind; [apply keeps_link_functions|]. intros []. apply keeps_map_functions.
Qed.

Lemma keeps_set_positions l : keeps L (set_positions l).
Proof.
  induction l as [|[n a] l IH]; cbn; [apply keeping_ret|]. apply keeping_bind; [apply keeps_position|]. intros [].
  apply keeping_bind; [by apply keeps_field|done].
Qed.

Lemma keeping_load : keeps L (load_modified_code pre).
Proof.
  unfold load_modified_code. apply keeping_bind.
  - unfold visit_all_binaries. apply keeping_bind; [apply keeps_ask|]. intros []; [apply keeps_fail|apply keeps_visit].
  - intros []. unfold load_quilted_code. apply keeping_bind; [apply keeps_ask|]. intros s.
    destruct (sizes _ _ _ _ _) as [[[parsed funcs] plts]|]; [|apply keeping_ret].
    apply keeping_bind; [by apply keeps_field|]. intros [].
    apply keeping_bind; [apply keeps_set_positions|]. intros [].
    apply keeping_bind; [by apply keeps_field|]. intros []. destruct (0 <? _); [apply keeping_ret|apply keeps_fail].
Qed.
End Load.

(** A breakpoint that is removed without an error keeps the space in order. *)
Lemma remove_ok_inv a type s s' :
  Breakpoints.inv s -> type <> BKPT_NONE -> remove_breakpoint a type s = (Ok tt, s') ->
  Breakpoints.inv s' /\ (forall x, program_byte s' x = program_byte s x).
Proof.
  intros Hinv Hty Hrun. destruct (breakpoints s !! a) as [b|] eqn:Hb.
  - destruct (decide (0 < Breakpoints.refs s a type)) as [Hpos|Hz].
    { destruct (remove_breakpoint_spec a type s Hinv Hty Hpos) as (s1 & Hrun1 & H1 & H2 & _).
      rewrite Hrun in Hrun1. injection Hrun1 as <-. auto. }
    exfalso. unfold remove_breakpoint in Hrun.
    rewrite (bind_ok _ _ s (Some b) s) in Hrun by (unfold ask; by rewrite Hb).
    apply bind_Ok_inv in Hrun as (b' & s1 & Hu & _). unfold unref in Hu.
    apply bind_Ok_inv in Hu as ([] & s2 & Ha & Hu). apply ASSERT_Ok_inv in Ha as [_ ->].
    apply bind_Ok_inv in Hu as ([] & s2 & Ha & Hu). apply ASSERT_Ok_inv in Ha as [_ ->].
    apply bind_Ok_inv in Hu as ([] & s2 & Ha & _). apply ASSERT_Ok_inv in Ha as [Hc _].
    unfold counts_ok in Hc. apply andb_true_iff in Hc as [H1%Z.leb_le H2%Z.leb_le].
    unfold Breakpoints.refs in Hz. rewrite Hb in Hz. destruct type; cbn in *; done || lia.
  - unfold remove_breakpoint in Hrun. rewrite (bind_ok _ _ s None s) in Hrun by (unfold ask; by rewrite Hb).
    injection Hrun as <-. auto.
Qed.

(** After the loop every function has its breakpoint. *)
Lemma set_bps_run l s :
  Breakpoints.inv (vm s) -> Forall (fun fm => is_Some (program_byte (vm s) (fm_orig fm))) l ->
  exists v, set_bps l s = (Ok (map (fun fm => if fm_bp fm || is_entry_point fm then fm else set_bp true fm) l), set_vm v s) /\
    Breakpoints.inv v /\ (forall x, program_byte v x = program_byte (vm s) x) /\
    (forall a, Breakpoints.refs (vm s) a BKPT_USER <= Breakpoints.refs v a BKPT_USER) /\
    Forall (fun fm => fm_bp fm || is_entry_point fm = false -> 0 < Breakpoints.refs v (fm_orig fm) BKPT_USER) l.
Proof.
  revert s. induction l as [|fm l IH]; intros s Hinv Hmem; cbn [set_bps map].
  { exists (vm s). split; [by destruct s|]. split_and!; auto; lia. }
  apply Forall_cons_1 in Hmem as [Hfm Hmem].
  destruct (fm_bp fm) eqn:Hb; [|destruct (is_entry_point fm) eqn:He]; cbn [orb].
  1,2: destruct (IH s Hinv Hmem) as (v & Hrun & H1 & H2 & H3 & H4); exists v; split_and!; auto;
    [by rewrite (bind_ok _ _ _ _ _ Hrun)|constructor; [rewrite ?Hb, ?He; cbn; done|done]].
  destruct (add_breakpoint_spec (fm_orig fm) BKPT_USER (vm s) Hinv) as (v1 & Hadd & Hinv1 & Hp1 & Hr1); [done|].
  assert (is_Some (mem (vm s) (fm_orig fm))) as Hm.
  { unfold program_byte in Hfm. destruct (breakpoints (vm s) !! fm_orig fm) as [b|] eqn:Hbp; [|done].
    destruct (proj2 Hinv _ _ Hbp) as (_ & _ & _ & ->). eauto. }
  rewrite bool_decide_eq_true_2 in Hadd by done.
  destruct (IH (set_vm v1 s)) as (v & Hrun & H1 & H2 & H3 & H4); [done| |].
  { eapply Forall_impl; [exact Hmem|]. intros x Hx. cbn. by rewrite Hp1. }
  exists v. split_and!; auto.
  - rewrite (bind_ok _ _ s _ _ (on_vm_run _ _ _ _ Hadd)). by rewrite (bind_ok _ _ _ _ _ Hrun).
  - intros x. rewrite H2. apply Hp1.
  - intros a. specialize (H3 a). cbn in H3. rewrite Hr1 in H3.
    assert (0 <= one_if (bool_decide (is_Some (mem (vm s) (fm_orig fm)))) *
      one_if (bool_decide (a = fm_orig fm /\ BKPT_USER = BKPT_USER))); [|lia].
    unfold one_if. by repeat case_match.
  - constructor; [|done]. intros _. specialize (H3 (fm_orig fm)). cbn in H3. rewrite Hr1 in H3.
    rewrite (bool_decide_eq_true_2 (is_Some _)), (bool_decide_eq_true_2 (_ /\ _)) in H3 by done. cbn [one_if] in H3.
    assert (0 <= Breakpoints.refs (vm s) (fm_orig fm) BKPT_USER); [|lia].
    unfold Breakpoints.refs. destruct (breakpoints (vm s) !! fm_orig fm) as [b|] eqn:Hbp; [|done].
    by destruct (proj2 Hinv _ _ Hbp) as (_ & ? & _).
Qed.

Lemma remove_bp_inv a s s' :
  remove_bp a s = (Ok tt, s') ->
  exists v p x q, remove_breakpoint a BKPT_USER (vm s) = (Ok tt, v) /\ func_mappings s = p ++ x :: q /\
    by_address a x = true /\ s' = set_func_mappings (p ++ set_bp false x :: q) (set_vm v s).
Proof.
  intros Hrun. unfold remove_bp in Hrun. apply bind_Ok_inv in Hrun as ([] & s1 & H1 & Hrun).
  unfold on_vm in H1. destruct (remove_breakpoint a BKPT_USER (vm s)) as [r v] eqn:Hr. injection H1 as -> <-.
  apply bind_Ok_inv in Hrun as (l & s2 & H2 & Hrun). injection H2 as <- <-. cbn [func_mappings set_vm] in Hrun.
  destruct (change_first _ _ _) as [l|] eqn:Hc; [|done]. injection Hrun as <-.
  apply change_first_spec in Hc as (p & x & q & Hl & -> & Hx & _). exists v, p, x, q. auto.
Qed.

Lemma only_entry_off p x q : only_entry (p ++ x :: q) -> only_entry (p ++ set_bp false x :: q).
Proof.
  unfold only_entry. intros H. apply Forall_app in H as [H1 H2]. apply Forall_cons_1 in H2 as [_ H3].
  apply Forall_app. split; [done|]. by constructor.
Qed.

(** The breakpoint of every function of the table but the entry point. *)
Definition armed (l : list FunctionMapping) : list FunctionMapping :=
  map (fun fm => if fm_bp fm || is_entry_point fm then fm else set_bp true fm) l.

Lemma armed_orig l : map fm_orig (armed l) = map fm_orig l.
Proof. unfold armed. rewrite map_map. apply map_ext. intros fm. by destruct (fm_bp fm || is_entry_point fm). Qed.

Lemma armed_pending l fm : only_entry l -> fm ∈ armed l -> pending_fm fm = true ->
  exists x, x ∈ l /\ fm_orig x = fm_orig fm /\ fm_bp x || is_entry_point x = false.
Proof.
  intros Hl Hfm Hp. unfold armed in Hfm. apply list_elem_of_fmap in Hfm as (x & -> & Hx). exists x.
  unfold only_entry in Hl. rewrite Forall_forall in Hl. specialize (Hl x Hx).
  destruct (fm_bp x || is_entry_point x) eqn:Ho; [congruence|]. done.
Qed.

Lemma set_bps_armed l s l' s' : set_bps l s = (Ok l', s') -> l' = armed l.
Proof.
  revert s l' s'. induction l as [|fm l IH]; intros s l' s'; cbn [set_bps armed map]; [by intros [= <- <-]|].
  destruct (fm_bp fm) eqn:Hb; [|destruct (is_entry_point fm) eqn:Hen]; cbn [orb]; intros Hrun.
  3: apply bind_Ok_inv in Hrun as (? & s5 & _ & Hrun).
  all: apply bind_Ok_inv in Hrun as (l1 & s6 & Hrec & Hrun); injection Hrun as <- _; f_equal; exact (IH _ _ _ Hrec).
Qed.

Section Loaded.
Context {E : Egalito}.
Variable pre : MuplayPreprocessor.
Variable exe_image : cstring.
Variable metadata_mode : bool.
Notation step := (muplay_step pre exe_image metadata_mode).

(** The load step, taken apart. *)
Lemma load_step_inv s act s1 :
  should_set_entry_bp s = false -> should_load_modified_code s = true -> step s = (Ok act, s1) ->
  exists s2 s3 l s4, load_modified_code pre (set_events_replayed (events_replayed s + 1) s) = (Ok tt, s2) /\
    remove_bp (initial_entry_point s2) s2 = (Ok tt, s3) /\
    set_bps (func_mappings s3) (set_done_modified_load true (set_ip (initial_entry_point s2) s3)) = (Ok l, s4) /\
    s1 = set_func_mappings l s4 /\ mod_function_bps_exist s1 = true /\
    act = if metadata_mode then Exited else if has_diverged s4 then StepDiversion else StepReplay.
Proof.
  intros H1 H2 Hrun. unfold muplay_step in Hrun. set (s0 := set_events_replayed (events_replayed s + 1) s) in *.
  rewrite (bind_ok _ _ s tt s0) in Hrun by done. rewrite (bind_ok _ _ s0 s0 s0) in Hrun by done.
  change (should_set_entry_bp s0) with (should_set_entry_bp s) in Hrun.
  change (should_load_modified_code s0) with (should_load_modified_code s) in Hrun. rewrite H1, H2 in Hrun.
  apply bind_Ok_inv in Hrun as (d & s5 & Hload & Hact).
  apply bind_Ok_inv in Hload as ([] & s2 & Hl & Hload). apply bind_Ok_inv in Hload as (ep & ? & Ha & Hload).
  injection Ha as <- <-. apply bind_Ok_inv in Hload as ([] & s3 & Hr & Hload).
  apply bind_Ok_inv in Hload as ([] & ? & Ha & Hload). injection Ha as <-.
  apply bind_Ok_inv in Hload as ([] & ? & Ha & Hload). injection Ha as <-.
  apply bind_Ok_inv in Hload as ([] & s6 & Hset & Hload). apply bind_Ok_inv in Hload as (x & ? & Ha & Hload).
  injection Ha as <- <-. apply bind_Ok_inv in Hload as ([] & ? & Ha & Hload).
  apply ASSERT_Ok_inv in Ha as [Hex ->]. injection Hload as <- <-.
  unfold set_function_breakpoints in Hset. apply bind_Ok_inv in Hset as (l0 & ? & Ha & Hset). injection Ha as <- <-.
  apply bind_Ok_inv in Hset as (l & s4 & Hbps & Ha). injection Ha as <-.
  exists s2, s3, l, s4. split_and!; auto.
  - destruct metadata_mode; by injection Hact as _ <-.
  - by destruct metadata_mode; injection Hact as _ <-.
  - destruct metadata_mode; by injection Hact as <- _.
Qed.

(** Loading the patched code puts a breakpoint on every changed function,
    removes the one at the entry point, moves the instruction pointer back
    there, changes no byte of the recorded program, and leaves at least one
    function to be redirected. *)
Theorem load_makes_ready s act s1 :
  should_set_entry_bp s = false -> should_load_modified_code s = true -> step s = (Ok act, s1) ->
  Breakpoints.inv (vm s) -> only_entry (func_mappings s) ->
  addresses_distinct (func_mappings s1) ->
  Forall (fun fm => is_Some (program_byte (vm s) (fm_orig fm))) (func_mappings s1) ->
  ready s1 /\ (0 < pending s1)%nat /\ ip s1 = initial_entry_point s /\
  Forall (fun fm => fm_bp fm || is_entry_point fm = true) (func_mappings s1) /\
  (forall x, program_byte (vm s1) x = program_byte (vm s) x).
Proof.
  intros H1 H2 Hrun Hinv Honly Hdis Hmem.
  destruct (load_step_inv s act s1 H1 H2 Hrun) as (s2 & s3 & l & s4 & Hload & Hrem & Hset & -> & Hex & _).
  unfold should_load_modified_code in H2. apply andb_true_iff in H2 as [H2 _]. apply andb_true_iff in H2 as [H2 _].
  apply andb_true_iff in H2 as [Hi He].
  assert (loading (vm s) (initial_entry_point s) s2) as (V2 & E2 & I2 & B2 & O2).
  { eapply (keeping_load pre (vm s) (initial_entry_point s)); [|exact Hload]. by split_and!. }
  destruct (remove_bp_inv _ _ _ Hrem) as (v & p & x & q & Hr & Hl & _ & ->). rewrite V2 in Hr.
  destruct (remove_ok_inv _ BKPT_USER _ _ Hinv ltac:(done) Hr) as [Hinv3 Hp3].
  set (s3 := set_done_modified_load _ _) in Hset. cbn [func_mappings set_func_mappings] in Hset.
  set (l3 := p ++ set_bp false x :: q) in *.
  assert (only_entry l3) as O3 by (apply only_entry_off; by rewrite <- Hl).
  destruct (set_bps_run l3 s3) as (v4 & Hset' & Hinv4 & Hp4 & _ & Hrefs); [done| |].
  { cbn in Hmem. rewrite (set_bps_armed _ _ _ _ Hset) in Hmem. rewrite Forall_forall in Hmem |- *. intros fm Hfm. cbn. rewrite Hp3.
    assert (fm_orig fm ∈ map fm_orig (armed l3)) as Hin by (rewrite armed_orig; by apply list_elem_of_fmap_2).
    apply list_elem_of_fmap in Hin as (y & -> & Hy). by apply Hmem. }
  fold (armed l3) in Hset'. rewrite Hset in Hset'. injection Hset' as -> ->.
  split_and!.
  - split_and!; try done. intros fm Hfm Hpend. cbn [func_mappings set_func_mappings] in Hfm. cbn [vm set_func_mappings set_vm].
    destruct (armed_pending l3 fm O3 Hfm Hpend) as (y & Hy & <- & Hoff). rewrite Forall_forall in Hrefs. by apply Hrefs.
  - unfold pending. apply existsb_exists in Hex as (fm & Hfm & Hp). fold (pending_fm fm) in Hp.
    assert (fm ∈ List.filter pending_fm (armed l3)) as Hin by (apply list_elem_of_In, filter_In; auto).
    cbn. destruct (List.filter pending_fm (armed l3)); [by apply elem_of_nil in Hin|cbn; lia].
  - cbn. done.
  - cbn. unfold armed. apply Forall_forall. intros fm Hfm. apply list_elem_of_fmap in Hfm as (y & -> & Hy).
    destruct (fm_bp y || is_entry_point y) eqn:Ho; [done|]. done.
  - intros a. cbn. rewrite Hp4. cbn. apply Hp3.
Qed.
End Loaded.

(** ** Patches that only delete lines *)

(** The number 0 stands for no line. *)
Lemma visit_all_none ds v : visit_all [] ds v = Ok v.
Proof.
  induction ds as [|d ds IH]; [done|]. cbn [visit_all]. unfold visit.
  destruct (decide (die_tag d = DW_TAG_subprogram)); exact IH.
Qed.

Lemma line_addrs_zero rows l : Forall (fun r => fst r <> 0) rows -> line_addrs 0 rows = Ok l -> l = [].
Proof.
  intros H. revert l. induction H as [|[n a] rows Hn H IH]; intros l; cbn; [by intros [= <-]|].
  destruct (line_addrs 0 rows) as [l'|]; cbn; [|done]. cbn in Hn. rewrite (proj2 (Z.eqb_neq n 0)) by done.
  intros [= <-]. by apply IH.
Qed.

Section Deletions.
Context {D : Dwarf}.

Definition rows_numbered (us : list cu) : Prop :=
  Forall (fun u => match u with Unit _ (Some rows) => Forall (fun r => fst r <> 0) rows | _ => True end) us.

Lemma find_die_rows src us d lines :
  rows_numbered us -> find_dwarf_die src us = Ok (d, lines) ->
  match lines with Some rows => Forall (fun r => fst r <> 0) rows | None => True end.
Proof.
  induction 1 as [|u us Hu Hus IH]; [done|]. cbn. destruct u as [| | |du lu]; try done.
  destruct (decide _); [|done]. destruct (die_name du) as [[p n]|]; [|done].
  destruct (contains src n); [|done]. by intros [= <- <-].
Qed.

Lemma line_zero_no_functions src elf m :
  rows_numbered (units elf) -> get_line_modification src elf 0 = Ok m -> modified_functions m = [].
Proof.
  intros Hrows. unfold get_line_modification.
  replace (if str_eqb elf curl_path && (0 =? 276) then 274 else 0) with 0 by (by rewrite andb_false_r).
  destruct (negb (can_open elf)); [done|]. destruct (negb (dwarf_init_ok elf)); [done|].
  destruct (find_dwarf_die src (units elf)) as [[d lines]|] eqn:Hd; cbn [mbind result_bind]; [|done].
  pose proof (find_die_rows src (units elf) d lines Hrows Hd) as Hl. unfold mbind at 1, result_bind at 1. cbn [fst snd].
  assert (forall addrs, addrs = [] ->
    (v ← walk (S (die_size d)) addrs d [] [] true true first_vars; mret (mkLineMod (u64 0) addrs (v_funcs v))) = Ok m ->
    modified_functions m = []) as Hw.
  { intros addrs ->. destruct (walk_misses_a_die d) as (ds & e & _ & Hwalk & _). rewrite Hwalk, visit_all_none.
    destruct e; cbn; [by intros [= <-]|done]. }
  destruct lines as [rows|]; [|by apply (Hw [])].
  destruct (line_addrs 0 rows) as [l|] eqn:Hla; cbn [mbind result_bind]; [|done].
  apply (Hw l). by eapply line_addrs_zero.
Qed.

Theorem deletions_change_no_function patch_src src elf lines ty s :
  rows_numbered (units elf) -> Forall (fun n => n = 0) lines ->
  get_summary patch_src src elf lines ty = Ok s -> get_modified_func_names s = [].
Proof.
  intros Hrows Hl. unfold get_summary. destruct (line_modifications src elf lines) as [ms|] eqn:Hm; cbn; [|done].
  intros [= <-]. unfold get_modified_func_names. cbn.
  assert (concat (map modified_functions ms) = []) as ->; [|done].
  revert ms Hm. induction Hl as [|n lines -> Hl IH]; intros ms; cbn; [by intros [= <-]|].
  destruct (get_line_modification src elf 0) as [m|] eqn:Hg; cbn; [|done].
  destruct (line_modifications src elf lines) as [ms'|]; cbn; [|done]. intros [= <-]. cbn.
  rewrite (line_zero_no_functions src elf m) by done. by apply IH.
Qed.
End Deletions.

Section Nothing.
Context {E : Egalito}.
Variable pre : MuplayPreprocessor.
Variable exe_image : cstring.
Variable metadata_mode : bool.

Lemma sizes_empty symbols l parsed funcs plts s :
  s ∈ l -> modification_type s = INSERTED -> get_modified_func_names s = [] ->
  sizes symbols l parsed funcs plts = None.
Proof.
  intros Hin Ht Hn. revert parsed funcs plts. induction l as [|x l IH]; intros parsed funcs plts; [by apply elem_of_nil in Hin|].
  cbn [sizes]. apply elem_of_cons in Hin as [<-|Hin]; [by rewrite Ht, Hn|].
  destruct (modification_type x); [|by apply IH]. destruct (get_modified_func_names x); [done|by apply IH].
Qed.

Theorem empty_summary_loads_nothing x s :
  s ∈ summaries pre -> modification_type s = INSERTED -> get_modified_func_names s = [] ->
  load_quilted_code pre x = (Ok tt, x).
Proof.
  intros Hin Ht Hn. unfold load_quilted_code. rewrite (bind_ok _ _ x x x) by done.
  by rewrite (sizes_empty _ _ _ _ _ s).
Qed.

Definition entries (s : MuplaySession) : Prop := Forall (fun fm => is_entry_point fm = true) (func_mappings s).

Lemma keeps_entries_field f : (forall s, func_mappings (f s) = func_mappings s) -> keeps entries (change f).
Proof. intros H. apply keeps_change. intros s Hs. unfold entries. by rewrite H. Qed.

Lemma keeps_entries_position n a : keeps entries (update_mod_func_position n a).
Proof.
  apply keeps_change. intros s Hs. destruct (change_first _ _ _) as [l|] eqn:Hc; [|done].
  apply change_first_spec in Hc as (p & x & q & Hl & -> & _ & _). unfold entries in *. rewrite Hl in Hs. cbn.
  apply Forall_app in Hs as [H1 H2]. apply Forall_cons_1 in H2 as [H2 H3]. apply Forall_app. split; [done|]. by constructor.
Qed.

(** Without inserted lines in any function. *)
Hypothesis no_functions : forall s, s ∈ summaries pre -> modification_type s = INSERTED -> get_modified_func_names s = [].

Lemma keeps_entries_visit l parsed : (forall s, s ∈ l -> s ∈ summaries pre) -> keeps entries (visit_summaries pre l parsed).
Proof.
  revert parsed. induction l as [|s l IH]; intros parsed Hl; cbn; [apply keeping_ret|].
  assert (forall x, x ∈ l -> x ∈ summaries pre) as Hl' by (intros x Hx; apply Hl; by right).
  apply keeping_bind. { unfold update_metadata. destruct (modification_type s); by apply keeps_entries_field. }
  intros []. destruct (modification_type s) eqn:Ht; [|by apply IH]. apply keeping_bind; [|intros p; by apply IH].
  unfold visit_mod_binary, original_of.
  apply keeping_bind; [destruct (smap_get _ _); [apply keeping_ret|apply keeps_fail]|]. intros old.
  destruct (str_eqb old []); [apply keeps_fail|]. apply keeping_bind; [apply keeps_ask|]. intros x.
  apply keeping_bind; [apply keeps_lift|]. intros [[rf ld] total].
  do 3 (apply keeping_bind; [by apply keeps_entries_field|]; intros []).
  apply keeping_bind; [|intros []; apply keeping_ret]. unfold link_mod_functions, original_of.
  apply keeping_bind; [destruct (smap_get _ _); [apply keeping_ret|apply keeps_fail]|]. intros old'.
  rewrite (no_functions s) by (try done; apply Hl; left). cbn.
  apply keeping_bind; [apply keeping_ret|]. intros []. apply keeping_ret.
Qed.

Lemma keeps_entries_load : keeps entries (load_modified_code pre).
Proof.
  unfold load_modified_code. apply keeping_bind.
  - unfold visit_all_binaries. apply keeping_bind; [apply keeps_ask|]. intros []; [apply keeps_fail|by apply keeps_entries_visit].
  - intros []. unfold load_quilted_code. apply keeping_bind; [apply keeps_ask|]. intros s.
    destruct (sizes _ _ _ _ _) as [[[parsed funcs] plts]|]; [|apply keeping_ret].
    apply keeping_bind; [by apply keeps_entries_field|]. intros []. apply keeping_bind.
    + generalize (fst (place (find_lowest_base_address (maps s) (total_size funcs + total_size plts))
        (snd (place (find_lowest_base_address (maps s) (total_size funcs + total_size plts)) []
          (present_plt parsed (map fst plts)))) (present parsed (map fst funcs)))).
      intros l. induction l as [|[n a] l IH]; cbn; [apply keeping_ret|].
      apply keeping_bind; [apply keeps_entries_position|]. intros []. apply keeping_bind; [by apply keeps_entries_field|done].
    + intros []. apply keeping_bind; [by apply keeps_entries_field|]. intros []. destruct (0 <? _); [apply keeping_ret|apply keeps_fail].
Qed.

(** A patch that inserts no line into a function of the executable stops the
    session at the entry point, by a failed assertion if not earlier. *)
Theorem deletions_only_abort s :
  should_set_entry_bp s = false -> should_load_modified_code s = true -> entries s ->
  exists w, fst (muplay_step pre exe_image metadata_mode s) = Err w.
Proof.
  intros H1 H2 Hen. destruct (muplay_step pre exe_image metadata_mode s) as [[act|w] s1] eqn:Hrun; [|by exists w].
  exfalso. destruct (load_step_inv pre exe_image metadata_mode s act s1 H1 H2 Hrun)
    as (s2 & s3 & l & s4 & Hload & Hrem & Hset & -> & Hex & _).
  assert (entries s2) as He2 by (eapply keeps_entries_load; [|exact Hload]; exact Hen).
  destruct (remove_bp_inv _ _ _ Hrem) as (v & p & x & q & _ & Hl & _ & ->).
  apply set_bps_armed in Hset as ->. apply existsb_exists in Hex as (fm & Hfm & Hp). cbn in Hfm.
  unfold entries in He2. rewrite Hl in He2. apply list_elem_of_In in Hfm. unfold armed in Hfm.
  apply list_elem_of_fmap in Hfm as (y & -> & Hy).
  assert (is_entry_point y = true) as Hye.
  { apply Forall_app in He2 as [Hp1 Hq]. apply Forall_cons_1 in Hq as [Hx Hq]. rewrite Forall_forall in Hp1, Hq.
    apply elem_of_app in Hy as [Hy|Hy]; [by apply Hp1|]. apply elem_of_cons in Hy as [->|Hy]; [done|by apply Hq]. }
  rewrite Hye, orb_true_r in Hp. by rewrite Hye, andb_false_r in Hp.
Qed.
End Nothing.
