(* ===== verification/Watchpoints.v ===== *)
(** * Watchpoints

    The watchpoints of [AddressSpace.cc]: which ranges of memory are watched and how, the
    value last seen of each, and the debug registers that are programmed for them. *)

From stdpp Require Import base tactics list numbers.
From S2P Require Import Prelude TracerMonad.
Local Open Scope Z_scope.

(** ** Ranges *)

(** A [MemoryRange]; the constructors assert that the start is not after the end. *)
Definition MemoryRange : Type := Z * Z.

Definition new_range (start len : Z) : result MemoryRange :=
  let e := u64 (start + len) in if start <=? e then Ok (start, e) else Err FailedAssert.

Definition rsize (r : MemoryRange) : Z := u64 (snd r - fst r).

(** [operator<]. *)
Definition range_lt (a b : MemoryRange) : bool :=
  if fst a =? fst b then snd a <? snd b else fst a <? fst b.

Definition range_eqb (a b : MemoryRange) : bool := (fst a =? fst b) && (snd a =? snd b).

Definition intersects (a b : MemoryRange) : bool := Z.max (fst a) (fst b) <? Z.min (snd a) (snd b).

(** ** Watchpoints *)

Inductive WatchType := WATCH_EXEC | WATCH_WRITE | WATCH_READWRITE.

#[export] Instance WatchType_eq_dec : EqDecision WatchType.
Proof. solve_decision. Defined.

Definition EXEC_BIT : Z := 1.
Definition READ_BIT : Z := 2.
Definition WRITE_BIT : Z := 4.

Record WatchConfig := mkConfig { wc_addr : Z; wc_num_bytes : Z; wc_type : WatchType }.

Record Watchpoint := mkWatch {
  exec_count : Z;
  read_count : Z;
  write_count : Z;
  debug_regs_for_exec_read : list Z;
  value_bytes : list Z;
  valid : bool;
  changed : bool }.

Definition set_regs v w := mkWatch (exec_count w) (read_count w) (write_count w) v (value_bytes w) (valid w) (changed w).
Definition set_value b v w := mkWatch (exec_count w) (read_count w) (write_count w) (debug_regs_for_exec_read w) b v (changed w).
Definition set_changed v w := mkWatch (exec_count w) (read_count w) (write_count w) (debug_regs_for_exec_read w) (value_bytes w) (valid w) v.
Definition set_counts e r x w := mkWatch e r x (debug_regs_for_exec_read w) (value_bytes w) (valid w) (changed w).

Definition new_watchpoint (num_bytes : Z) : Watchpoint :=
  mkWatch 0 0 0 [] (replicate (Z.to_nat num_bytes) 0) false false.

Definition access_bits_of (type : WatchType) : Z :=
  match type with
  | WATCH_EXEC => EXEC_BIT
  | WATCH_WRITE => WRITE_BIT
  | WATCH_READWRITE => Z.lor READ_BIT WRITE_BIT
  end.

Definition has_bit (b which : Z) : bool := nz (Z.land b which).

Definition assert_valid (w : Watchpoint) : bool :=
  (0 <=? exec_count w) && (0 <=? read_count w) && (0 <=? write_count w).

Definition watch (which : Z) (w : Watchpoint) : result Watchpoint :=
  if assert_valid w then
    Ok (set_counts (exec_count w + b2z (has_bit EXEC_BIT which)) (read_count w + b2z (has_bit READ_BIT which))
          (write_count w + b2z (has_bit WRITE_BIT which)) w)
  else Err FailedAssert.

Definition drop_count (bit which n : Z) : result Z :=
  if has_bit bit which then (if 0 <? n then Ok (n - 1) else Err FailedAssert) else Ok n.

Definition unwatch (which : Z) (w : Watchpoint) : result Watchpoint :=
  if assert_valid w then
    e ← drop_count EXEC_BIT which (exec_count w);
    r ← drop_count READ_BIT which (read_count w);
    x ← drop_count WRITE_BIT which (write_count w);
    mret (set_counts e r x w)
  else Err FailedAssert.

Definition watch_total (w : Watchpoint) : Z := exec_count w + read_count w + write_count w.

Definition watched_bits (w : Watchpoint) : Z :=
  Z.lor (Z.lor (if 0 <? exec_count w then EXEC_BIT else 0) (if 0 <? read_count w then READ_BIT else 0))
    (if 0 <? write_count w then WRITE_BIT else 0).

(** [std::map<MemoryRange, Watchpoint>]: sorted by key. *)
Definition wmap : Type := list (MemoryRange * Watchpoint).

Fixpoint wfind (r : MemoryRange) (m : wmap) : option Watchpoint :=
  match m with
  | [] => None
  | (k, w) :: m => if range_eqb r k then Some w else wfind r m
  end.

Fixpoint wset (r : MemoryRange) (w : Watchpoint) (m : wmap) : wmap :=
  match m with
  | [] => [(r, w)]
  | (k, v) :: m =>
      if range_eqb r k then (r, w) :: m
      else if range_lt r k then (r, w) :: (k, v) :: m
      else (k, v) :: wset r w m
  end.

Definition werase (r : MemoryRange) (m : wmap) : wmap := List.filter (fun x => negb (range_eqb r (fst x))) m.

(** ** The value of a watchpoint *)

Section Memory.
(** The tracee's memory; [None] where it cannot be read. *)
Variable read_mem : Z -> option Z.

(** [Task::read_bytes_fallible]: the bytes up to the first one that cannot be read. *)
Fixpoint read_bytes_fallible (addr : Z) (n : nat) : list Z :=
  match n with
  | O => []
  | S n => match read_mem addr with Some b => b :: read_bytes_fallible (addr + 1) n | None => [] end
  end.

Definition PAGE : Z := 4096.
Definition floor_page_size (a : Z) : Z := Z.land a (u64 (Z.lnot (PAGE - 1))).
Definition ceil_page_size (a : Z) : Z := Z.land (u64 (a + PAGE - 1)) (u64 (Z.lnot (PAGE - 1))).

(** The loop of [update_watchpoint_value]; the bytes that are not read are 0xFF. *)
Fixpoint read_value (fuel : nat) (addr : Z) (n : nat) : option (list Z * bool) :=
  match n with
  | O => Some ([], true)
  | _ =>
      match fuel with
      | O => None
      | S fuel =>
          match read_bytes_fallible addr n with
          | [] =>
              let k := Nat.min n (Z.to_nat (floor_page_size addr + PAGE - addr)) in
              r ← read_value fuel (addr + Z.of_nat k) (n - k);
              mret (replicate k 0xFF ++ fst r, false)
          | bs =>
              r ← read_value fuel (addr + Z.of_nat (length bs)) (n - length bs);
              mret (bs ++ fst r, snd r)
          end
      end
  end.

(** [update_watchpoint_value]: the new watchpoint and whether it changed.  The vector has the
    size it was created with; the range may be shorter. *)
Definition update_watchpoint_value (r : MemoryRange) (w : Watchpoint) : option (bool * Watchpoint) :=
  let n := Z.to_nat (rsize r) in
  v ← read_value n (fst r) n;
  let bytes := fst v ++ drop n (replicate (length (value_bytes w)) 0xFF) in
  mret (negb (Bool.eqb (snd v) (valid w)) || negb (bool_decide (bytes = value_bytes w)), set_value bytes (snd v) w).

Fixpoint update_watchpoint_values (start end_ : Z) (m : wmap) : option wmap :=
  match m with
  | [] => Some []
  | (r, w) :: m =>
      w' ← (if intersects r (start, end_) then
              u ← update_watchpoint_value r w;
              mret (if fst u : bool then set_changed true (snd u) else snd u)
            else Some w);
      m' ← update_watchpoint_values start end_ m;
      mret ((r, w') :: m')
  end.

Definition DR_WATCHPOINT (n : Z) : Z := Z.shiftl 1 n.

Definition watchpoint_triggered (debug_status : Z) (regs : list Z) : bool :=
  existsb (fun r => nz (Z.land debug_status (DR_WATCHPOINT r))) regs.

(** [notify_watchpoint_fired] for one watchpoint: a null address is 0. *)
Definition notify_one (debug_status singlestep_start : Z) (r : MemoryRange) (w : Watchpoint) : option (bool * Watchpoint) :=
  let bits := watched_bits w in
  u ← (if has_bit WRITE_BIT bits then update_watchpoint_value r w else Some (false, w));
  let w := snd u in
  let read_triggered := has_bit READ_BIT bits && watchpoint_triggered debug_status (debug_regs_for_exec_read w) in
  let exec_triggered := has_bit EXEC_BIT bits && ((singlestep_start =? 0) || (fst r =? singlestep_start)) &&
                        watchpoint_triggered debug_status (debug_regs_for_exec_read w) in
  let triggered := (fst u : bool) || read_triggered || exec_triggered in
  mret (triggered, if triggered then set_changed true w else w).

Fixpoint notify_watchpoint_fired (debug_status singlestep_start : Z) (m : wmap) : option (bool * wmap) :=
  match m with
  | [] => Some (false, [])
  | (r, w) :: m =>
      x ← notify_one debug_status singlestep_start r w;
      y ← notify_watchpoint_fired debug_status singlestep_start m;
      mret ((fst x : bool) || fst y, (r, snd x) :: snd y)
  end.
End Memory.

(** ** Debug registers *)

Definition try_split (r : MemoryRange) (bytes : Z) : option (MemoryRange * MemoryRange) :=
  if nz (Z.land (fst r) (bytes - 1)) || (rsize r <? bytes) then None
  else Some ((fst r, fst r + bytes), (fst r + bytes, snd r)).

(** The first of the sizes 8, 4, 2 and 1 that fits. *)
Definition split_first (r : MemoryRange) : option (MemoryRange * MemoryRange) :=
  match try_split r 8 with
  | Some x => Some x
  | None =>
      match try_split r 4 with
      | Some x => Some x
      | None => match try_split r 2 with Some x => Some x | None => try_split r 1 end
      end
  end.

Fixpoint split_range (fuel : nat) (r : MemoryRange) : option (list MemoryRange) :=
  if 0 <? rsize r then
    match fuel with
    | O => None
    | S fuel =>
        x ← split_first r;
        l ← split_range fuel (snd x);
        mret (fst x :: l)
    end
  else Some [].

Definition splits (r : MemoryRange) : option (list MemoryRange) := split_range (Z.to_nat (rsize r)) r.

(** The alignment to which a write watchpoint may be widened. *)
Definition align_of (size : Z) : Z := if size <=? 2 then 2 else if size <=? 4 then 4 else 8.

Definition aligned_range (r : MemoryRange) : MemoryRange :=
  let align := align_of (rsize r) in
  (Z.land (fst r) (u64 (Z.lnot (align - 1))), Z.land (u64 (snd r + (align - 1))) (u64 (Z.lnot (align - 1)))).

Definition with_fuel {A} (o : option A) : result A := match o with Some a => Ok a | None => Err NoFuel end.

Definition watch_ranges (r : MemoryRange) (type : WatchType) : result (list MemoryRange) :=
  l ← with_fuel (splits r);
  if decide (type = WATCH_WRITE) then
    if 1 <? rsize r then
      let w := aligned_range r in
      if fst w <=? snd w then
        a ← with_fuel (splits w);
        mret (if (length a <? length l)%nat then a else l)
      else Err FailedAssert
    else mret l
  else mret l.

(** [configure_watch_registers]: the registers added after those of [regs], and their numbers
    as [int8_t]. *)
Definition configure_watch_registers (regs : list WatchConfig) (r : MemoryRange) (type : WatchType) :
    result (list WatchConfig * list Z) :=
  l ← watch_ranges r type;
  mret (regs ++ map (fun x => mkConfig (fst x) (rsize x) type) l,
        map (fun i => wraps 8 (Z.of_nat (length regs + i))) (seq 0 (length l))).

(** [get_watch_configs(SETTING_TASK_STATE)]: the configurations, and the watchpoints with the
    registers assigned to them. *)
Fixpoint get_watch_configs (regs : list WatchConfig) (m : wmap) : result (list WatchConfig * wmap) :=
  match m with
  | [] => Ok (regs, [])
  | (r, w) :: m =>
      let bits := watched_bits w in
      e ← (if has_bit EXEC_BIT bits then configure_watch_registers regs r WATCH_EXEC else Ok (regs, []));
      x ← (if has_bit READ_BIT bits then configure_watch_registers (fst e) r WATCH_READWRITE
           else if has_bit WRITE_BIT bits then
             c ← configure_watch_registers (fst e) r WATCH_WRITE; mret (fst c, [])
           else Ok (fst e, []));
      y ← get_watch_configs (fst x) m;
      mret (fst y, (r, set_regs (snd e ++ snd x) w) :: snd y)
  end.

Record wstate := mkWs {
  watchpoints : wmap;
  saved_watchpoints : list wmap;
  programmed : list WatchConfig * Z }.

Definition W := TM wstate.

Definition lift_fuel {A} (o : option A) : W A := match o with Some a => mret a | None => fail NoFuel end.
Definition lift_result {A} (r : result A) : W A := match r with Ok a => mret a | Err w => fail w end.

Definition set_watchpoints v s := mkWs v (saved_watchpoints s) (programmed s).
Definition set_saved v s := mkWs (watchpoints s) v (programmed s).
Definition set_programmed v s := mkWs (watchpoints s) (saved_watchpoints s) v.

Definition NUM_X86_WATCHPOINTS : Z := 4.

(** The length field of a debug register; other sizes are fatal. *)
Definition num_bytes_to_dr_len (n : Z) : result Z :=
  if n =? 1 then Ok 0 else if n =? 2 then Ok 1 else if n =? 4 then Ok 3 else if n =? 8 then Ok 2 else Err Fatal.

Definition dr_type (type : WatchType) : Z :=
  match type with WATCH_EXEC => 0 | WATCH_WRITE => 1 | WATCH_READWRITE => 3 end.

(** A bit field of [DebugControl]. *)
Definition put_field (pos width v x : Z) : Z :=
  Z.lor (Z.ldiff x (Z.shiftl (Z.ones width) pos)) (Z.shiftl v pos).

(** [DebugControl::enable]. *)
Definition enable (index size : Z) (type : WatchType) (dr7 : Z) : result Z :=
  if (0 <=? index) && (index <? 4) then
    Ok (put_field (18 + 4 * index) 2 size (put_field (16 + 4 * index) 2 (dr_type type)
         (put_field (2 * index + 1) 1 0 (put_field (2 * index) 1 1 dr7))))
  else Err Fatal.

(** [Task::set_debug_regs]: the control register for the addresses of [regs], [None] when there are
    too many; the kernel may also refuse an address, which is a parameter below. *)
Fixpoint enable_ones (index : Z) (n : nat) (dr7 : Z) : result Z :=
  match n with
  | O => Ok dr7
  | S n => d ← enable index 0 WATCH_EXEC dr7; enable_ones (index + 1) n d
  end.

Fixpoint enable_all (index : Z) (regs : list WatchConfig) (dr7 : Z) : result Z :=
  match regs with
  | [] => Ok dr7
  | c :: regs =>
      len ← num_bytes_to_dr_len (wc_num_bytes c);
      d ← enable index len (wc_type c) dr7;
      enable_all (index + 1) regs d
  end.

Definition set_debug_regs (regs : list WatchConfig) : result (option Z) :=
  if NUM_X86_WATCHPOINTS <? Z.of_nat (length regs) then Ok None
  else d ← enable_ones 0 (length regs) 0; d ← enable_all 0 regs d; mret (Some d).

(** [allocate_watchpoints]; whether the kernel takes the addresses is a parameter.  The last loop
    clears copies. *)
Definition allocate_watchpoints (kernel_accepts : list WatchConfig -> bool) : W bool :=
  m ← ask watchpoints;
  c ← lift_result (get_watch_configs [] m);
  change (set_watchpoints (snd c));;
  dr7 ← (if Z.of_nat (length (fst c)) <=? 0x7f then lift_result (set_debug_regs (fst c)) else mret None);
  match dr7 with
  | Some d =>
      if kernel_accepts (fst c) then change (set_programmed (fst c, d));; mret true
      else change (set_programmed ([], 0));; mret false
  | None => change (set_programmed ([], 0));; mret false
  end.

Section Operations.
Variable kernel_accepts : list WatchConfig -> bool.
Variable read_mem : Z -> option Z.

Definition UINTPTR_MAX : Z := 2 ^ 64 - 1.

Definition range_for_watchpoint (addr num_bytes : Z) : result MemoryRange :=
  new_range addr (Z.min num_bytes (UINTPTR_MAX - addr)).

Definition add_watchpoint (addr num_bytes : Z) (type : WatchType) : W bool :=
  key ← lift_result (range_for_watchpoint addr num_bytes);
  m ← ask watchpoints;
  w ← (match wfind key m with
       | Some w => mret w
       | None => u ← lift_fuel (update_watchpoint_value read_mem key (new_watchpoint num_bytes)); mret (snd u)
       end);
  w ← lift_result (watch (access_bits_of type) w);
  change (fun s => set_watchpoints (wset key w (watchpoints s)) s);;
  allocate_watchpoints kernel_accepts.

Definition remove_watchpoint (addr num_bytes : Z) (type : WatchType) : W unit :=
  key ← lift_result (range_for_watchpoint addr num_bytes);
  m ← ask watchpoints;
  (match wfind key m with
   | None => mret tt
   | Some w =>
       w ← lift_result (unwatch (access_bits_of type) w);
       change (fun s => set_watchpoints
         (if watch_total w =? 0 then werase key (watchpoints s) else wset key w (watchpoints s)) s)
   end);;
  allocate_watchpoints kernel_accepts;;
  mret tt.

Definition save_watchpoints : W unit := change (fun s => set_saved (saved_watchpoints s ++ [watchpoints s]) s).

Definition restore_watchpoints : W bool :=
  l ← ask saved_watchpoints;
  match rev l with
  | [] => fail FailedAssert
  | m :: _ =>
      change (set_watchpoints m);;
      change (fun s => set_saved (removelast (saved_watchpoints s)) s);;
      allocate_watchpoints kernel_accepts
  end.

Definition remove_all_watchpoints : W unit :=
  change (set_watchpoints []);; allocate_watchpoints kernel_accepts;; mret tt.
End Operations.

(** ** Reports *)

Definition configs_of (r : MemoryRange) (w : Watchpoint) : list WatchConfig :=
  let bits := watched_bits w in
  (if has_bit EXEC_BIT bits then [mkConfig (fst r) (rsize r) WATCH_EXEC] else []) ++
  (if has_bit READ_BIT bits then [mkConfig (fst r) (rsize r) WATCH_READWRITE]
   else if has_bit WRITE_BIT bits then [mkConfig (fst r) (rsize r) WATCH_WRITE] else []).

Definition all_watchpoints (m : wmap) : list WatchConfig := concat (map (fun x => configs_of (fst x) (snd x)) m).

Definition consume_watchpoint_changes : W (list WatchConfig) :=
  m ← ask watchpoints;
  change (set_watchpoints (map (fun x => (fst x, set_changed false (snd x))) m));;
  mret (all_watchpoints (List.filter (fun x => changed (snd x)) m)).

Definition has_any_watchpoint_changes (m : wmap) : bool := existsb (fun x => changed (snd x)) m.

Definition has_exec_watchpoint_fired (addr : Z) (m : wmap) : bool :=
  existsb (fun x => changed (snd x) && (0 <? exec_count (snd x)) && (fst (fst x) =? addr)) m.

Example split_ex : splits (4097, 4110) = Some [(4097, 4098); (4098, 4100); (4100, 4104); (4104, 4108); (4108, 4110)].
Proof. reflexivity. Qed.
Example watch_ranges_ex : watch_ranges (4097, 4100) WATCH_WRITE = Ok [(4096, 4100)].
Proof. reflexivity. Qed.
