(* ===== verification/WatchpointsSpec.v ===== *)
(** * What watchpoints report

    The pieces a range is split into, the debug control register, the reference counts, and which
    addresses the programmed registers watch. *)

From Stdlib Require Import Sorting.Sorted.
From stdpp Require Import base tactics list numbers.
From S2P Require Import Prelude TracerMonad Watchpoints.
Local Open Scope Z_scope.

(** ** Splitting *)

Definition wf_range (r : MemoryRange) : Prop := 0 <= fst r <= snd r /\ snd r < 2 ^ 64.

(** A piece a debug register can watch. *)
Definition register_ok (r : MemoryRange) : Prop :=
  exists n, (n = 1 \/ n = 2 \/ n = 4 \/ n = 8) /\ snd r = fst r + n /\ fst r mod n = 0 /\ 0 <= fst r /\ snd r < 2 ^ 64.

(** The pieces follow each other from [a] to [b]. *)
Fixpoint tiles (a : Z) (l : list MemoryRange) (b : Z) : Prop :=
  match l with [] => a = b | r :: l => fst r = a /\ register_ok r /\ tiles (snd r) l b end.

Lemma rsize_wf r : wf_range r -> rsize r = snd r - fst r.
Proof. intros [H1 H2]. unfold rsize. apply wrapu_small. lia. Qed.

Lemma try_split_ok r n :
  (n = 1 \/ n = 2 \/ n = 4 \/ n = 8) -> wf_range r ->
  match try_split r n with
  | None => n <> 1 \/ rsize r < 1
  | Some (x, rest) => fst x = fst r /\ register_ok x /\ snd x = fst rest /\ snd rest = snd r /\
      wf_range rest /\ rsize rest = rsize r - n
  end.
Proof.
  intros Hn Hr. pose proof Hr as [Hr1 Hr2]. unfold try_split. rewrite !(rsize_wf r) by done.
  assert (Z.land (fst r) (n - 1) = fst r mod n) as ->.
  { destruct Hn as [->|[->|[->| ->]]].
    - by rewrite Z.land_0_r, Z.mod_1_r.
    - apply (Z.land_ones _ 1). lia.
    - apply (Z.land_ones _ 2). lia.
    - apply (Z.land_ones _ 3). lia. }
  destruct (nz (fst r mod n)) eqn:Ha; cbn [orb].
  { left. intros ->. by rewrite Z.mod_1_r in Ha. }
  apply nz_false in Ha. destruct (Z.ltb_spec (snd r - fst r) n).
  { destruct (Z.eq_dec n 1); [right; lia|by left]. }
  assert (wf_range (fst r + n, snd r)) as Hrest by (split; cbn; lia).
  cbn. split_and!; try done.
  - exists n. split_and!; cbn; auto; lia.
  - rewrite (rsize_wf (fst r + n, snd r)) by done. cbn. lia.
Qed.

Lemma split_first_ok r :
  wf_range r -> 0 < rsize r ->
  exists x rest, split_first r = Some (x, rest) /\ fst x = fst r /\ register_ok x /\ snd x = fst rest /\
    snd rest = snd r /\ wf_range rest /\ rsize rest < rsize r.
Proof.
  intros Hr Hs. unfold split_first.
  pose proof (try_split_ok r 8 ltac:(auto) Hr) as H8. pose proof (try_split_ok r 4 ltac:(auto) Hr) as H4.
  pose proof (try_split_ok r 2 ltac:(auto) Hr) as H2. pose proof (try_split_ok r 1 ltac:(auto) Hr) as H1.
  destruct (try_split r 8) as [[x rest]|]; [|destruct (try_split r 4) as [[x rest]|];
    [|destruct (try_split r 2) as [[x rest]|]; [|destruct (try_split r 1) as [[x rest]|]; [|lia]]]];
    exists x, rest; intuition lia.
Qed.

Lemma split_range_tiles fuel r :
  wf_range r -> rsize r <= Z.of_nat fuel -> exists l, split_range fuel r = Some l /\ tiles (fst r) l (snd r).
Proof.
  revert r. induction fuel as [|fuel IH]; intros r Hr Hf.
  - exists []. cbn [split_range tiles]. destruct (Z.ltb_spec 0 (rsize r)); [lia|]. split; [done|].
    rewrite rsize_wf in * by done. destruct Hr. lia.
  - cbn [split_range]. destruct (Z.ltb_spec 0 (rsize r)).
    + destruct (split_first_ok r Hr) as (x & rest & -> & Hx & Hok & Hxr & Hend & Hwf & Hlt); [done|].
      cbn [mbind option_bind fst snd]. destruct (IH rest Hwf) as (l & -> & Ht); [lia|].
      exists (x :: l). split; [done|]. cbn [tiles]. split_and!; [done|done|]. by rewrite Hxr, <- Hend.
    + exists []. split; [done|]. cbn. rewrite rsize_wf in * by done. destruct Hr. lia.
Qed.

(** A range is cut into pieces that debug registers can watch, without gap or overlap. *)
Lemma splits_tiles r : wf_range r -> exists l, splits r = Some l /\ tiles (fst r) l (snd r).
Proof.
  intros Hr. apply split_range_tiles; [done|].
  pose proof (wrapu_range 64 (snd r - fst r) ltac:(lia)) as Hu. fold (rsize r) in Hu. lia.
Qed.

Definition inside (a : Z) (r : MemoryRange) : Prop := fst r <= a < snd r.

Lemma tiles_inside a l b x : tiles a l b -> (a <= x < b <-> exists r, r ∈ l /\ inside x r).
Proof.
  revert a. induction l as [|r l IH]; intros a; cbn [tiles].
  - intros ->. split; [lia|]. intros (r & Hr & _). by apply elem_of_nil in Hr.
  - intros (<- & (n & Hn & Hend & _ & _ & _) & Ht). specialize (IH _ Ht).
    assert (snd r <= b) as Hle.
    { clear -Ht. revert Ht. generalize (snd r). induction l as [|s l IH]; intros c; cbn; [lia|].
      intros (<- & (n & Hn & Hend & _) & Ht). specialize (IH _ Ht). lia. }
    split.
    + intros Hx. destruct (Z.lt_ge_cases x (snd r)).
      * exists r. split; [left|unfold inside; lia].
      * assert (snd r <= x < b) as Hx' by lia. apply IH in Hx' as (s & Hs & Hin). exists s. split; [by right|done].
    + intros (s & [->|Hs]%elem_of_cons & Hin); [unfold inside in Hin; lia|].
      assert (snd r <= x < b); [|lia]. apply IH. eauto.
Qed.

Lemma tiles_ok a l b : tiles a l b -> Forall register_ok l.
Proof. revert a. induction l as [|r l IH]; intros a; cbn; [constructor|]. intros (_ & Hr & Ht). eauto. Qed.

Lemma land_mask x k :
  0 <= x < 2 ^ 64 -> 0 <= k <= 64 -> Z.land x (u64 (Z.lnot (2 ^ k - 1))) = x - x mod 2 ^ k.
Proof.
  intros Hx Hk. apply Z.bits_inj'. intros i Hi. rewrite Z.land_spec.
  replace (x - x mod 2 ^ k) with (Z.shiftl (Z.shiftr x k) k).
  2: { rewrite Z.shiftl_mul_pow2, Z.shiftr_div_pow2 by lia. pose proof (Z.div_mod x (2 ^ k) ltac:(lia)). lia. }
  rewrite Z.shiftl_spec by lia. unfold wrapu. rewrite <- Z.land_ones by lia.
  rewrite Z.land_spec, Z.lnot_spec by lia. replace (2 ^ k - 1) with (Z.ones k) by (rewrite Z.ones_equiv; lia).
  destruct (Z.lt_ge_cases i k).
  - rewrite (Z.ones_spec_low k i) by lia. cbn. rewrite andb_false_r. symmetry. apply Z.testbit_neg_r. lia.
  - rewrite (Z.ones_spec_high k i) by lia. rewrite Z.shiftr_spec by lia. replace (i - k + k) with i by lia. cbn.
    destruct (Z.lt_ge_cases i 64).
    + rewrite (Z.ones_spec_low 64 i) by lia. by rewrite andb_true_r.
    + rewrite (Z.ones_spec_high 64 i) by lia. rewrite andb_false_r. symmetry.
      destruct (Z.eq_dec x 0) as [->|Hx0]; [apply Z.bits_0|]. apply Z.bits_above_log2; [lia|].
      apply Z.log2_lt_pow2; [lia|]. eapply Z.lt_le_trans; [apply Hx|]. apply Z.pow_le_mono_r; lia.
Qed.

(** A write watchpoint may be widened, but covers its range. *)
Lemma aligned_range_ok r :
  wf_range r -> snd r + 8 <= 2 ^ 64 ->
  wf_range (aligned_range r) /\ fst (aligned_range r) <= fst r /\ snd r <= snd (aligned_range r).
Proof.
  intros [H1 H2] H3. unfold aligned_range.
  assert (exists k, 1 <= k <= 3 /\ align_of (rsize r) = 2 ^ k) as (k & Hk & ->).
  { unfold align_of. destruct (rsize r <=? 2); [exists 1; split; [lia|done]|].
    destruct (rsize r <=? 4); [exists 2; split; [lia|done]|exists 3; split; [lia|done]]. }
  assert (1 <= 2 ^ k <= 8) as Hp.
  { split; [apply (Z.pow_le_mono_r 2 0); lia|change 8 with (2 ^ 3); apply Z.pow_le_mono_r; lia]. }
  rewrite !land_mask by (rewrite ?wrapu_small by lia; lia). rewrite wrapu_small by lia. unfold wf_range. cbn [fst snd].
  pose proof (Z.mod_pos_bound (fst r) (2 ^ k) ltac:(lia)). pose proof (Z.mod_le (fst r) (2 ^ k) ltac:(lia) ltac:(lia)).
  pose proof (Z.mod_pos_bound (snd r + (2 ^ k - 1)) (2 ^ k) ltac:(lia)). lia.
Qed.

Lemma watch_ranges_ok r type :
  wf_range r -> snd r + 8 <= 2 ^ 64 ->
  exists l, watch_ranges r type = Ok l /\ Forall register_ok l /\
    (forall a, inside a r -> exists x, x ∈ l /\ inside a x) /\
    (type <> WATCH_WRITE -> forall x a, x ∈ l -> inside a x -> inside a r).
Proof.
  intros Hr Hb. unfold watch_ranges. destruct (splits_tiles r Hr) as (l & -> & Ht). cbn [with_fuel]. rewrite bind_result_ok.
  assert (Forall register_ok l /\ (forall a, inside a r -> exists x, x ∈ l /\ inside a x) /\
    (forall x a, x ∈ l -> inside a x -> inside a r)) as (H1 & H2 & H3).
  { split_and!; [by eapply tiles_ok|intros a Ha; by apply (tiles_inside _ _ _ a Ht)|].
    intros x a Hx Ha. apply (tiles_inside _ _ _ a Ht). eauto. }
  destruct (decide (type = WATCH_WRITE)) as [->|Hne]; [|exists l; auto].
  destruct (1 <? rsize r); [|exists l; auto].
  destruct (aligned_range_ok r Hr Hb) as (Hw & Hlo & Hhi).
  destruct (Z.leb_spec (fst (aligned_range r)) (snd (aligned_range r))); [|destruct Hw; lia].
  destruct (splits_tiles _ Hw) as (l' & -> & Ht'). cbn [with_fuel]. rewrite bind_result_ok.
  destruct (length l' <? length l)%nat; [|exists l; auto]. exists l'. split_and!; [done|by eapply tiles_ok| |done].
  intros a Ha. apply (tiles_inside _ _ _ a Ht'). unfold inside in Ha. lia.
Qed.

(** ** The control register *)

Definition get_field (pos width x : Z) : Z := Z.land (Z.shiftr x pos) (Z.ones width).

Lemma put_field_bit pos width v x i :
  0 <= pos -> 0 <= width -> 0 <= v < 2 ^ width -> 0 <= i ->
  Z.testbit (put_field pos width v x) i =
    if (pos <=? i) && (i <? pos + width) then Z.testbit v (i - pos) else Z.testbit x i.
Proof.
  intros Hp Hw Hv Hi. unfold put_field. rewrite Z.lor_spec, Z.ldiff_spec, !Z.shiftl_spec by lia.
  destruct (Z.leb_spec pos i); cbn.
  - destruct (Z.ltb_spec i (pos + width)); cbn.
    + rewrite Z.ones_spec_low by lia. by rewrite andb_false_r.
    + rewrite Z.ones_spec_high by lia. rewrite andb_true_r.
      rewrite <- (Z.mod_small v (2 ^ width)) by lia. rewrite Z.mod_pow2_bits_high by lia. by rewrite orb_false_r.
  - rewrite !(Z.testbit_neg_r _ (i - pos)) by lia. by rewrite andb_true_r, orb_false_r.
Qed.

Lemma get_put_same pos width v x :
  0 <= pos -> 0 <= width -> 0 <= v < 2 ^ width -> get_field pos width (put_field pos width v x) = v.
Proof.
  intros Hp Hw Hv. apply Z.bits_inj'. intros i Hi. unfold get_field.
  rewrite Z.land_spec, Z.shiftr_spec, put_field_bit by lia.
  rewrite <- (Z.mod_small v (2 ^ width)) at 2 by lia. destruct (Z.ltb_spec i width).
  - rewrite Z.ones_spec_low, Z.mod_pow2_bits_low by lia.
    destruct (Z.leb_spec pos (i + pos)); [|lia]. destruct (Z.ltb_spec (i + pos) (pos + width)); [|lia].
    cbn. rewrite andb_true_r. f_equal. lia.
  - by rewrite Z.ones_spec_high, Z.mod_pow2_bits_high, andb_false_r by lia.
Qed.

Lemma get_put_other p w q u v x :
  0 <= p -> 0 <= q -> 0 <= w -> 0 <= u -> 0 <= v < 2 ^ u -> p + w <= q \/ q + u <= p ->
  get_field p w (put_field q u v x) = get_field p w x.
Proof.
  intros Hp Hq Hw Hu Hv Hd. apply Z.bits_inj'. intros i Hi. unfold get_field.
  rewrite !Z.land_spec, !Z.shiftr_spec, put_field_bit by lia. destruct (Z.ltb_spec i w).
  - destruct (Z.leb_spec q (i + p)), (Z.ltb_spec (i + p) (q + u)); cbn; try done. lia.
  - by rewrite Z.ones_spec_high, !andb_false_r by lia.
Qed.

(** What the control register says of register [i]: enabled for the thread, enabled for every
    thread, the kind of access and the length. *)
Definition dr_fields (i dr7 : Z) : Z * Z * Z * Z :=
  (get_field (2 * i) 1 dr7, get_field (2 * i + 1) 1 dr7, get_field (16 + 4 * i) 2 dr7, get_field (18 + 4 * i) 2 dr7).

Lemma enable_ok i size type d :
  0 <= i < 4 -> 0 <= size < 4 ->
  exists d', enable i size type d = Ok d' /\ dr_fields i d' = (1, 0, dr_type type, size) /\
    forall j, 0 <= j < 4 -> j <> i -> dr_fields j d' = dr_fields j d.
Proof.
  intros Hi Hs. unfold enable. destruct (Z.leb_spec 0 i); [|lia]. destruct (Z.ltb_spec i 4); [|lia].
  assert (0 <= dr_type type < 2 ^ 2) as Ht by (destruct type; cbn; lia). change 4 with (2 ^ 2) in Hs.
  eexists. split; [done|]. split.
  - unfold dr_fields. rewrite get_put_same by lia.
    rewrite !(get_put_other _ _ (18 + 4 * i)) by lia. rewrite get_put_same by lia.
    rewrite !(get_put_other _ _ (16 + 4 * i)) by lia. rewrite get_put_same by lia.
    rewrite (get_put_other _ _ (2 * i + 1)) by lia. by rewrite get_put_same by lia.
  - intros j Hj Hne. unfold dr_fields. rewrite !get_put_other by lia. done.
Qed.

Definition config_ok (c : WatchConfig) : Prop := register_ok (wc_addr c, wc_addr c + wc_num_bytes c).

Lemma dr_len_ok c : config_ok c -> exists n, num_bytes_to_dr_len (wc_num_bytes c) = Ok n /\ 0 <= n < 4.
Proof.
  intros (n & Hn & Hend & _). cbn in Hend. assert (wc_num_bytes c = n) as -> by lia.
  destruct Hn as [->|[->|[->| ->]]]; eexists; (split; [reflexivity|lia]).
Qed.

Definition programs (i dr7 : Z) (c : WatchConfig) : Prop :=
  exists n, num_bytes_to_dr_len (wc_num_bytes c) = Ok n /\ dr_fields i dr7 = (1, 0, dr_type (wc_type c), n).

Lemma enable_all_ok regs i d :
  0 <= i -> i + Z.of_nat (length regs) <= 4 -> Forall config_ok regs ->
  exists d', enable_all i regs d = Ok d' /\
    (forall k c, regs !! k = Some c -> programs (i + Z.of_nat k) d' c) /\
    (forall j, 0 <= j < 4 -> j < i \/ i + Z.of_nat (length regs) <= j -> dr_fields j d' = dr_fields j d).
Proof.
  revert i d. induction regs as [|c regs IH]; intros i d Hi Hl Hok; cbn [enable_all length] in *.
  - exists d. split_and!; [done| |done]. intros k c Hk. by rewrite lookup_nil in Hk.
  - apply Forall_cons_1 in Hok as [Hc Hok].
    destruct (dr_len_ok c Hc) as (n & Hn & Hb). rewrite Hn, bind_result_ok.
    destruct (enable_ok i n (wc_type c) d ltac:(lia) Hb) as (d1 & -> & Hf & Ho). rewrite bind_result_ok.
    destruct (IH (i + 1) d1 ltac:(lia) ltac:(lia) Hok) as (d2 & -> & H1 & H2). exists d2. split_and!; [done| |].
    + intros [|k] c' Hk; cbn in Hk.
      * injection Hk as <-. exists n. split; [done|]. rewrite Z.add_0_r, <- Hf. apply H2; lia.
      * replace (i + Z.of_nat (S k)) with (i + 1 + Z.of_nat k) by lia. by apply H1.
    + intros j Hj Hout. rewrite H2 by lia. apply Ho; lia.
Qed.

Lemma enable_ones_ok n i d :
  0 <= i -> i + Z.of_nat n <= 4 ->
  exists d', enable_ones i n d = Ok d' /\
    forall j, 0 <= j < 4 -> j < i \/ i + Z.of_nat n <= j -> dr_fields j d' = dr_fields j d.
Proof.
  revert i d. induction n as [|n IH]; intros i d Hi Hl; cbn [enable_ones]; [eauto|].
  destruct (enable_ok i 0 WATCH_EXEC d ltac:(lia) ltac:(lia)) as (d1 & -> & _ & Ho). rewrite bind_result_ok.
  destruct (IH (i + 1) d1 ltac:(lia) ltac:(lia)) as (d2 & -> & H2). exists d2. split; [done|].
  intros j Hj Hout. rewrite H2 by lia. apply Ho; lia.
Qed.

(** Up to four pieces are programmed, each in its register; the other registers stay off. *)
Lemma set_debug_regs_ok regs :
  Forall config_ok regs ->
  if decide (length regs <= 4)%nat then
    exists d, set_debug_regs regs = Ok (Some d) /\
      (forall k c, regs !! k = Some c -> programs (Z.of_nat k) d c) /\
      (forall j, Z.of_nat (length regs) <= j < 4 -> dr_fields j d = (0, 0, 0, 0))
  else set_debug_regs regs = Ok None.
Proof.
  intros Hok. unfold set_debug_regs, NUM_X86_WATCHPOINTS. destruct (decide _).
  - destruct (Z.ltb_spec 4 (Z.of_nat (length regs))); [lia|].
    destruct (enable_ones_ok (length regs) 0 0 ltac:(lia) ltac:(lia)) as (d & -> & H1). rewrite bind_result_ok.
    destruct (enable_all_ok regs 0 d ltac:(lia) ltac:(lia) Hok) as (d' & -> & H2 & H3). rewrite bind_result_ok.
    exists d'. split_and!; [done|exact H2|]. intros j Hj. rewrite H3, H1 by lia.
    assert (forall p w, 0 <= p -> 0 <= w -> get_field p w 0 = 0) as H0.
    { intros p w _ _. unfold get_field. by rewrite Z.shiftr_0_l, Z.land_0_l. }
    unfold dr_fields. by rewrite !H0 by lia.
  - destruct (Z.ltb_spec 4 (Z.of_nat (length regs))); [done|lia].
Qed.

(** ** Which accesses are watched *)

Definition wf_watch (x : MemoryRange * Watchpoint) : Prop := wf_range (fst x) /\ snd (fst x) + 8 <= 2 ^ 64.

(** A configuration that watches the byte at [a] for the accesses of [type]. *)
Definition covers (c : WatchConfig) (type : WatchType) (a : Z) : Prop :=
  wc_type c = type /\ wc_addr c <= a < wc_addr c + wc_num_bytes c.

(** The register type a watchpoint asks for: exec by itself, then read before write. *)
Definition asks_for (w : Watchpoint) (type : WatchType) : bool :=
  match type with
  | WATCH_EXEC => 0 <? exec_count w
  | WATCH_READWRITE => 0 <? read_count w
  | WATCH_WRITE => negb (0 <? read_count w) && (0 <? write_count w)
  end.

Lemma asks_for_bits w type :
  asks_for w type =
    match type with
    | WATCH_EXEC => has_bit EXEC_BIT (watched_bits w)
    | WATCH_READWRITE => has_bit READ_BIT (watched_bits w)
    | WATCH_WRITE => negb (has_bit READ_BIT (watched_bits w)) && has_bit WRITE_BIT (watched_bits w)
    end.
Proof.
  unfold asks_for, watched_bits. by destruct type, (0 <? exec_count w), (0 <? read_count w), (0 <? write_count w).
Qed.

Lemma configure_ok regs r type :
  wf_watch (r, new_watchpoint 0) -> 
  exists new ids, configure_watch_registers regs r type = Ok (regs ++ new, ids) /\ Forall config_ok new /\
    length ids = length new /\ (forall k, (k < length new)%nat -> ids !! k = Some (wraps 8 (Z.of_nat (length regs + k)))) /\
    (forall c, c ∈ new -> wc_type c = type) /\
    (forall a, inside a r -> exists c, c ∈ new /\ covers c type a) /\
    (type <> WATCH_WRITE -> forall c a, c ∈ new -> covers c type a -> inside a r).
Proof.
  intros [Hr Hb]. cbn in Hr, Hb. unfold configure_watch_registers.
  destruct (watch_ranges_ok r type Hr Hb) as (l & -> & Hok & Hcov & Hin). rewrite bind_result_ok.
  do 2 eexists. split; [done|].
  assert (forall x, x ∈ l -> rsize x = snd x - fst x) as Hsz.
  { intros x Hx. rewrite Forall_forall in Hok. apply list_elem_of_In in Hx. destruct (Hok _ Hx) as (n & Hn & He & _ & H1 & H2).
    apply rsize_wf. split; lia. }
  split_and!.
  - apply Forall_fmap. rewrite Forall_forall in Hok |- *. intros x Hx. unfold config_ok. cbn.
    rewrite Hsz by by apply list_elem_of_In. replace (fst x + (snd x - fst x)) with (snd x) by lia. destruct x. by apply Hok.
  - by rewrite !length_map, length_seq.
  - intros k Hk. rewrite length_map in Hk.
    change (map ?f ?l) with (f <$> l). rewrite list_lookup_fmap, lookup_seq_lt by done. done.
  - intros c (x & -> & _)%list_elem_of_fmap. done.
  - intros a Ha. destruct (Hcov a Ha) as (x & Hx & Hi).
    exists (mkConfig (fst x) (rsize x) type). split; [apply list_elem_of_fmap; eauto|].
    split; [done|]. cbn. rewrite Hsz by done. unfold inside in Hi. lia.
  - intros Ht c a (x & -> & Hx)%list_elem_of_fmap [_ Ha]. cbn in Ha. rewrite Hsz in Ha by done.
    apply (Hin Ht x a Hx). unfold inside. lia.
Qed.

(** The registers of a watchpoint: every watched byte has one of the right kind, which the
    watchpoint knows unless it only watches writes, and those it knows watch its bytes only. *)
Definition assigned (regs : list WatchConfig) (x : MemoryRange * Watchpoint) : Prop :=
  (forall type a, asks_for (snd x) type = true -> inside a (fst x) ->
     exists k c, regs !! k = Some c /\ covers c type a /\
       (type <> WATCH_WRITE -> wraps 8 (Z.of_nat k) ∈ debug_regs_for_exec_read (snd x))) /\
  (forall i, i ∈ debug_regs_for_exec_read (snd x) ->
     exists k c, i = wraps 8 (Z.of_nat k) /\ regs !! k = Some c /\ wc_type c <> WATCH_WRITE /\
       asks_for (snd x) (wc_type c) = true /\ forall a, covers c (wc_type c) a -> inside a (fst x)).

Lemma assigned_app regs new x : assigned regs x -> assigned (regs ++ new) x.
Proof.
  intros [H1 H2]. split.
  - intros type a Ht Ha. destruct (H1 type a Ht Ha) as (k & c & Hk & H). exists k, c.
    split; [by apply lookup_app_l_Some|done].
  - intros i Hi. destruct (H2 i Hi) as (k & c & -> & Hk & H). exists k, c.
    split_and!; [done|by apply lookup_app_l_Some|apply H..].
Qed.

(** One kind of access: the registers it adds and the numbers the watchpoint keeps. *)
Definition kind_ok (regs new : list WatchConfig) (ids : list Z) (r : MemoryRange) (type : WatchType) : Prop :=
  Forall config_ok new /\
  (forall a, inside a r -> exists k c, (regs ++ new) !! k = Some c /\ covers c type a /\
     (type <> WATCH_WRITE -> wraps 8 (Z.of_nat k) ∈ ids)) /\
  (type <> WATCH_WRITE -> forall i, i ∈ ids -> exists k c, i = wraps 8 (Z.of_nat k) /\ (regs ++ new) !! k = Some c /\
     wc_type c = type /\ forall a, covers c type a -> inside a r).

Lemma configure_kind regs r type :
  wf_watch (r, new_watchpoint 0) ->
  exists new ids, configure_watch_registers regs r type = Ok (regs ++ new, ids) /\ kind_ok regs new ids r type.
Proof.
  intros Hr. destruct (configure_ok regs r type Hr) as (new & ids & He & Hok & Hlen & Hids & Hty & Hcov & Hin).
  exists new, ids. split; [done|]. split_and!; [done| |].
  - intros a Ha. destruct (Hcov a Ha) as (c & (k & Hk)%list_elem_of_lookup & Hc).
    exists (length regs + k)%nat, c. split_and!; [|done|].
    + rewrite lookup_app_r by lia. by replace (length regs + k - length regs)%nat with k by lia.
    + intros _. apply list_elem_of_lookup. exists k. apply Hids. by apply lookup_lt_Some in Hk.
  - intros Ht i (k & Hk)%list_elem_of_lookup.
    assert (k < length new)%nat as Hlt by (apply lookup_lt_Some in Hk; lia).
    rewrite (Hids k Hlt) in Hk. injection Hk as <-.
    destruct (lookup_lt_is_Some_2 new k Hlt) as (c & Hc).
    assert (c ∈ new) as Hin' by by eapply list_elem_of_lookup_2.
    exists (length regs + k)%nat, c. split_and!; [done| |by apply Hty|intros a Ha; by apply (Hin Ht c)].
    rewrite lookup_app_r by lia. by replace (length regs + k - length regs)%nat with k by lia.
Qed.

(** The registers one watchpoint adds. *)
Definition one_watch (regs : list WatchConfig) (x : MemoryRange * Watchpoint) :
    result (list WatchConfig * (MemoryRange * Watchpoint)) :=
  let '(r, w) := x in
  let bits := watched_bits w in
  e ← (if has_bit EXEC_BIT bits then configure_watch_registers regs r WATCH_EXEC else Ok (regs, []));
  y ← (if has_bit READ_BIT bits then configure_watch_registers (fst e) r WATCH_READWRITE
       else if has_bit WRITE_BIT bits then
         c ← configure_watch_registers (fst e) r WATCH_WRITE; mret (fst c, [])
       else Ok (fst e, []));
  mret (fst y, (r, set_regs (snd e ++ snd y) w)).

Lemma get_watch_configs_cons regs x m :
  get_watch_configs regs (x :: m) =
    (z ← one_watch regs x; y ← get_watch_configs (fst z) m; mret (fst y, snd z :: snd y)).
Proof.
  destruct x as [r w]. cbn [get_watch_configs one_watch].
  destruct (if has_bit EXEC_BIT _ then _ else _) as [[e1 e2]|]; [|done]. rewrite !bind_result_ok.
  destruct (if has_bit READ_BIT _ then _ else _) as [[y1 y2]|]; [|done]. rewrite !bind_result_ok. done.
Qed.

Lemma exec_part regs r w :
  wf_watch (r, w) ->
  exists new ids, (if has_bit EXEC_BIT (watched_bits w) then configure_watch_registers regs r WATCH_EXEC else Ok (regs, []))
    = Ok (regs ++ new, ids) /\ if asks_for w WATCH_EXEC then kind_ok regs new ids r WATCH_EXEC else new = [] /\ ids = [].
Proof.
  intros Hw. rewrite (asks_for_bits w WATCH_EXEC). destruct (has_bit EXEC_BIT _).
  - apply configure_kind. exact Hw.
  - exists [], []. by rewrite app_nil_r.
Qed.

Lemma data_part regs r w :
  wf_watch (r, w) ->
  exists new ids, (if has_bit READ_BIT (watched_bits w) then configure_watch_registers regs r WATCH_READWRITE
       else if has_bit WRITE_BIT (watched_bits w) then
         c ← configure_watch_registers regs r WATCH_WRITE; mret (fst c, [])
       else Ok (regs, [])) = Ok (regs ++ new, ids) /\
    if asks_for w WATCH_READWRITE then kind_ok regs new ids r WATCH_READWRITE
    else ids = [] /\ if asks_for w WATCH_WRITE then kind_ok regs new ids r WATCH_WRITE else new = [].
Proof.
  intros Hw. rewrite (asks_for_bits w WATCH_READWRITE), (asks_for_bits w WATCH_WRITE).
  destruct (has_bit READ_BIT _); [by apply configure_kind|]. cbn [negb andb].
  destruct (has_bit WRITE_BIT _).
  - destruct (configure_kind regs r WATCH_WRITE Hw) as (new & ids & -> & Hok & Hcov & _).
    rewrite bind_result_ok. exists new, []. split; [done|]. split; [done|]. split_and!; [done| |done].
    intros a Ha. destruct (Hcov a Ha) as (k & c & Hk & Hc & _). exists k, c. by split_and!.
  - exists [], []. by rewrite app_nil_r.
Qed.

(** Either kind, shifted over the registers the other kind adds. *)
Lemma kind_ok_app regs new more ids r type :
  kind_ok regs new ids r type ->
  (forall a, inside a r -> exists k c, ((regs ++ new) ++ more) !! k = Some c /\ covers c type a /\
     (type <> WATCH_WRITE -> wraps 8 (Z.of_nat k) ∈ ids)) /\
  (type <> WATCH_WRITE -> forall i, i ∈ ids -> exists k c, i = wraps 8 (Z.of_nat k) /\ ((regs ++ new) ++ more) !! k = Some c /\
     wc_type c = type /\ forall a, covers c type a -> inside a r).
Proof.
  intros (_ & H1 & H2). split.
  - intros a Ha. destruct (H1 a Ha) as (k & c & Hk & H). exists k, c. split; [by apply lookup_app_l_Some|done].
  - intros Ht i Hi. destruct (H2 Ht i Hi) as (k & c & -> & Hk & H). exists k, c.
    split_and!; [done|by apply lookup_app_l_Some|apply H..].
Qed.

Lemma one_watch_ok regs r w :
  wf_watch (r, w) ->
  exists new ids, one_watch regs (r, w) = Ok (regs ++ new, (r, set_regs ids w)) /\ Forall config_ok new /\
    assigned (regs ++ new) (r, set_regs ids w).
Proof.
  intros Hw. unfold one_watch.
  destruct (exec_part regs r w Hw) as (n1 & i1 & -> & H1). rewrite bind_result_ok. cbn [fst snd].
  destruct (data_part (regs ++ n1) r w Hw) as (n2 & i2 & -> & H2). rewrite bind_result_ok. cbn [fst snd].
  exists (n1 ++ n2), (i1 ++ i2). rewrite app_assoc. split; [done|]. split.
  - apply Forall_app. split.
    + destruct (asks_for w WATCH_EXEC); [apply H1|]. destruct H1 as [-> _]. constructor.
    + destruct (asks_for w WATCH_READWRITE); [apply H2|]. destruct H2 as [_ H2].
      destruct (asks_for w WATCH_WRITE); [apply H2|]. subst. constructor.
  - split; cbn [fst snd set_regs debug_regs_for_exec_read]; change (asks_for (set_regs (i1 ++ i2) w)) with (asks_for w).
    + intros type a Ht Ha. destruct type; rewrite ?Ht in *.
      * destruct (proj1 (kind_ok_app _ _ n2 _ _ _ H1) a Ha) as (k & c & Hk & Hc & Hi). exists k, c.
        split_and!; [done|done|]. intros _. apply elem_of_app. left. by apply Hi.
      * destruct (asks_for w WATCH_READWRITE) eqn:Hrw.
        { exfalso. unfold asks_for in Ht, Hrw. by rewrite Hrw in Ht. }
        destruct H2 as [_ (_ & H2 & _)]. destruct (H2 a Ha) as (k & c & Hk & Hc & _). exists k, c. by split_and!.
      * destruct H2 as (_ & H2 & _). destruct (H2 a Ha) as (k & c & Hk & Hc & Hi). exists k, c.
        split_and!; [done|done|]. intros _. apply elem_of_app. right. by apply Hi.
    + intros i [Hi|Hi]%elem_of_app.
      * destruct (asks_for w WATCH_EXEC) eqn:He; [|destruct H1 as [_ ->]; by apply elem_of_nil in Hi].
        destruct (proj2 (kind_ok_app _ _ n2 _ _ _ H1) ltac:(done) i Hi) as (k & c & -> & Hk & Hty & Hc).
        exists k, c. rewrite Hty. by split_and!.
      * destruct (asks_for w WATCH_READWRITE) eqn:He; [|destruct H2 as [-> _]; by apply elem_of_nil in Hi].
        destruct H2 as (_ & _ & H2). destruct (H2 ltac:(done) i Hi) as (k & c & -> & Hk & Hty & Hc).
        exists k, c. rewrite Hty. by split_and!.
Qed.

(** The same watchpoint, with other registers. *)
Definition same_watch (x y : MemoryRange * Watchpoint) : Prop := exists ids, y = (fst x, set_regs ids (snd x)).

Lemma get_watch_configs_ok regs m :
  Forall wf_watch m ->
  exists new m', get_watch_configs regs m = Ok (regs ++ new, m') /\ Forall config_ok new /\
    Forall2 same_watch m m' /\ Forall (assigned (regs ++ new)) m'.
Proof.
  intros Hm. revert regs. induction Hm as [|[r w] m Hx Hm IH]; intros regs.
  - exists [], []. rewrite app_nil_r. by split_and!.
  - rewrite get_watch_configs_cons. destruct (one_watch_ok regs r w Hx) as (n1 & ids & -> & Hok1 & Has1).
    rewrite bind_result_ok. cbn [fst snd]. destruct (IH (regs ++ n1)) as (n2 & m' & -> & Hok2 & Hsame & Has2).
    rewrite bind_result_ok. cbn [fst snd]. exists (n1 ++ n2), ((r, set_regs ids w) :: m').
    rewrite app_assoc. split_and!; [done|by apply Forall_app|constructor; [by exists ids|done]|].
    constructor; [by apply assigned_app|done].
Qed.

(** ** Allocation *)

(** A register that is programmed to watch the byte at [a]. *)
Definition watches (p : list WatchConfig * Z) (type : WatchType) (a : Z) (k : nat) : Prop :=
  exists c, fst p !! k = Some c /\ covers c type a /\ programs (Z.of_nat k) (snd p) c.

Definition not_enough (accepts : list WatchConfig -> bool) (m : wmap) : Prop :=
  exists regs m', get_watch_configs [] m = Ok (regs, m') /\ ((4 < length regs)%nat \/ accepts regs = false).

Lemma allocate_covers accepts s :
  Forall wf_watch (watchpoints s) ->
  exists b s', allocate_watchpoints accepts s = (Ok b, s') /\ Forall2 same_watch (watchpoints s) (watchpoints s') /\
    saved_watchpoints s' = saved_watchpoints s /\
    if b : bool then
      (forall r w type a, (r, w) ∈ watchpoints s' -> asks_for w type = true -> inside a r ->
         exists k, (k < 4)%nat /\ watches (programmed s') type a k /\
           (type <> WATCH_WRITE -> Z.of_nat k ∈ debug_regs_for_exec_read w)) /\
      (forall r w i, (r, w) ∈ watchpoints s' -> i ∈ debug_regs_for_exec_read w ->
         0 <= i < 4 /\ exists c, fst (programmed s') !! Z.to_nat i = Some c /\ asks_for w (wc_type c) = true /\
           forall a, covers c (wc_type c) a -> inside a r)
    else programmed s' = ([], 0) /\ not_enough accepts (watchpoints s).
Proof.
  intros Hm. destruct (get_watch_configs_ok [] (watchpoints s) Hm) as (regs & m' & He & Hok & Hsame & Has).
  cbn [app] in *. unfold allocate_watchpoints.
  unfold mbind, TM_bind, ask. rewrite He. cbn [lift_result]. unfold mret, TM_ret, change.
  cbn [set_watchpoints watchpoints saved_watchpoints programmed fst snd].
  pose proof (set_debug_regs_ok regs Hok) as Hd. destruct (decide (length regs <= 4)%nat) as [Hle|Hgt].
  - destruct (Z.leb_spec (Z.of_nat (length regs)) 0x7f); [|lia]. destruct Hd as (d & -> & Hp & Hoff).
    cbn [lift_result]. unfold mret, TM_ret. destruct (accepts regs) eqn:Hacc.
    + do 2 eexists. split; [done|]. cbn. split_and!; [done|done| |].
      * intros r w type a Hx Ht Ha. rewrite Forall_forall in Has. apply list_elem_of_In in Hx.
        destruct (proj1 (Has _ Hx) type a Ht Ha) as (k & c & Hk & Hc & Hi). exists k.
        assert (k < length regs)%nat by by eapply lookup_lt_Some.
        split_and!; [lia|exists c; split_and!; [done|done|by apply Hp]|].
        intros Hne. specialize (Hi Hne). by rewrite wraps_small in Hi by lia.
      * intros r w i Hx Hi. rewrite Forall_forall in Has. apply list_elem_of_In in Hx.
        destruct (proj2 (Has _ Hx) i Hi) as (k & c & -> & Hk & _ & Hc & Hin).
        assert (k < length regs)%nat by by eapply lookup_lt_Some.
        rewrite wraps_small by lia. split; [lia|]. exists c. rewrite Nat2Z.id. by split_and!.
    + do 2 eexists. split; [done|]. cbn. split_and!; [done|done|done|]. exists regs, m'. auto.
  - destruct (_ <=? _) eqn:H7; rewrite ?Hd; cbn; (do 2 eexists; split; [done|]; cbn; split_and!; [done|done|done|]);
      exists regs, m'; split; [done|left; lia|done|left; lia].
Qed.

(** C27.  `allocate_watchpoints`: when it succeeds, every byte a watchpoint asks
    for is watched by one of the four debug registers, with DR7 enabling it with
    the right type and length, and a watchpoint remembers only registers that
    watch its own bytes; when it fails, no register is programmed and the
    registers do not suffice. *)
Theorem allocate_watchpoints_covers accepts s :
  Forall wf_watch (watchpoints s) ->
  exists b s', allocate_watchpoints accepts s = (Ok b, s') /\ Forall2 same_watch (watchpoints s) (watchpoints s') /\
    saved_watchpoints s' = saved_watchpoints s /\
    if b : bool then
      (forall r w type a, (r, w) ∈ watchpoints s' -> asks_for w type = true -> inside a r ->
         exists k, (k < 4)%nat /\ watches (programmed s') type a k /\
           (type <> WATCH_WRITE -> Z.of_nat k ∈ debug_regs_for_exec_read w)) /\
      (forall r w i, (r, w) ∈ watchpoints s' -> i ∈ debug_regs_for_exec_read w ->
         0 <= i < 4 /\ exists c, fst (programmed s') !! Z.to_nat i = Some c /\ asks_for w (wc_type c) = true /\
           forall a, covers c (wc_type c) a -> inside a r)
    else programmed s' = ([], 0) /\ not_enough accepts (watchpoints s).
Proof. apply allocate_covers. Qed.

(** ** The value of a watchpoint *)

Section Values.
Context (read_mem : Z -> option Z).

(** Pages are readable as a whole. *)
Hypothesis by_page : forall a b, 0 <= a < 2 ^ 64 -> 0 <= b < 2 ^ 64 -> a / PAGE = b / PAGE ->
  read_mem a = None -> read_mem b = None.

(** The bytes as a debugger would show them, and whether all can be read. *)
Definition byte_at (a : Z) : Z := default 0xFF (read_mem a).

Fixpoint bytes_at (a : Z) (n : nat) : list Z :=
  match n with O => [] | S n => byte_at a :: bytes_at (a + 1) n end.

Fixpoint readable (a : Z) (n : nat) : bool :=
  match n with O => true | S n => bool_decide (is_Some (read_mem a)) && readable (a + 1) n end.

Lemma length_bytes_at a n : length (bytes_at a n) = n.
Proof. revert a. induction n as [|n IH]; intros a; cbn; [done|]. by rewrite IH. Qed.

Lemma bytes_at_app a n k : bytes_at a (n + k) = bytes_at a n ++ bytes_at (a + Z.of_nat n) k.
Proof.
  revert a. induction n as [|n IH]; intros a; cbn [bytes_at Nat.add app]; [by rewrite Z.add_0_r|].
  rewrite IH. do 3 f_equal. lia.
Qed.

Lemma readable_app a n k : readable a (n + k) = readable a n && readable (a + Z.of_nat n) k.
Proof.
  revert a. induction n as [|n IH]; intros a; cbn [readable Nat.add]; [by rewrite Z.add_0_r|].
  rewrite IH, andb_assoc. do 2 f_equal. lia.
Qed.

Lemma read_prefix a n :
  let bs := read_bytes_fallible read_mem a n in
  (length bs <= n)%nat /\ bs = bytes_at a (length bs) /\ readable a (length bs) = true.
Proof.
  revert a. induction n as [|n IH]; intros a; cbn [read_bytes_fallible]; [done|].
  destruct (read_mem a) as [b|] eqn:Ha; [|by split_and!; cbn; try lia].
  destruct (IH (a + 1)) as (H1 & H2 & H3). cbn [length bytes_at readable]. unfold byte_at. rewrite Ha, <- H2, H3.
  split_and!; [lia|done|]. by rewrite bool_decide_eq_true_2 by eauto.
Qed.

Lemma read_none a n : (0 < n)%nat -> read_bytes_fallible read_mem a n = [] -> read_mem a = None.
Proof. destruct n; [lia|]. cbn. by destruct (read_mem a). Qed.

Lemma floor_page_size_eq a : 0 <= a < 2 ^ 64 -> floor_page_size a = a - a mod PAGE.
Proof. intros Ha. unfold floor_page_size. change PAGE with (2 ^ 12) at 1. by rewrite land_mask by lia. Qed.

(** What is skipped after a failed read cannot be read. *)
Lemma skipped a k :
  0 <= a -> a + Z.of_nat k <= 2 ^ 64 -> Z.of_nat k <= PAGE - a mod PAGE -> read_mem a = None ->
  bytes_at a k = replicate k 0xFF /\ readable a k = bool_decide (k = 0%nat).
Proof.
  intros H0 Hb Hk Hn.
  assert (forall j, (j <= k)%nat -> forall i, 0 <= i -> i + Z.of_nat j <= Z.of_nat k ->
    bytes_at (a + i) j = replicate j 0xFF /\ readable (a + i) j = bool_decide (j = 0%nat)) as H.
  { induction j as [|j IH]; intros Hj i Hi Hij; [done|].
    assert (read_mem (a + i) = None) as Hx.
    { apply (by_page a); [lia|lia| |done]. unfold PAGE in *.
      pose proof (Z.div_mod a 4096 ltac:(lia)). pose proof (Z.mod_pos_bound a 4096 ltac:(lia)).
      apply (Z.div_unique (a + i) 4096 (a / 4096) (a mod 4096 + i)); lia. }
    destruct (IH ltac:(lia) (i + 1) ltac:(lia) ltac:(lia)) as [H1 _].
    cbn [bytes_at readable replicate]. unfold byte_at. rewrite Hx. cbn. rewrite <- Z.add_assoc, H1. done. }
  specialize (H k (le_n k) 0). rewrite Z.add_0_r in H. apply H; lia.
Qed.

(** The loop ends, and reads every byte that can be read. *)
Lemma read_value_ok fuel a n :
  0 <= a -> a + Z.of_nat n <= 2 ^ 64 -> (n <= fuel)%nat ->
  read_value read_mem fuel a n = Some (bytes_at a n, readable a n).
Proof.
  revert a n. induction fuel as [|fuel IH]; intros a n H0 Hb Hf.
  { assert (n = 0%nat) as -> by lia. done. }
  destruct n as [|n]; [done|]. cbn [read_value].
  pose proof (read_prefix a (S n)) as (Hl & Hbs & Hr).
  destruct (read_bytes_fallible read_mem a (S n)) as [|b bs] eqn:He.
  - apply read_none in He; [|lia]. rewrite floor_page_size_eq by lia.
    pose proof (Z.mod_pos_bound a PAGE ltac:(by cbn)) as Hm.
    set (k := Nat.min (S n) (Z.to_nat (a - a mod PAGE + PAGE - a))).
    assert (0 < k <= S n)%nat as Hk by (unfold k, PAGE in *; lia).
    assert (Z.of_nat k <= PAGE - a mod PAGE) as Hk' by (unfold k, PAGE in *; lia).
    destruct (skipped a k H0 ltac:(lia) Hk' He) as [H1 H2].
    rewrite IH by lia. cbn [mbind option_bind fst snd mret option_ret]. f_equal.
    replace (bytes_at a (S n)) with (bytes_at a (k + (S n - k))) by (f_equal; lia).
    replace (readable a (S n)) with (readable a (k + (S n - k))) by (f_equal; lia).
    rewrite bytes_at_app, readable_app, H1, H2. by rewrite bool_decide_eq_false_2 by lia.
  - set (l := b :: bs) in *. assert (0 < length l)%nat by (cbn; lia).
    rewrite IH by lia. cbn [mbind option_bind fst snd mret option_ret]. f_equal.
    replace (bytes_at a (S n)) with (bytes_at a (length l + (S n - length l))) by (f_equal; lia).
    replace (readable a (S n)) with (readable a (length l + (S n - length l))) by (f_equal; lia).
    by rewrite bytes_at_app, readable_app, <- Hbs, Hr.
Qed.

(** A watchpoint's value is the memory it watches; it changed when a byte did, or when it became
    readable or unreadable. *)
Lemma update_watchpoint_value_ok r w :
  wf_range r -> length (value_bytes w) = Z.to_nat (rsize r) ->
  let n := Z.to_nat (rsize r) in
  update_watchpoint_value read_mem r w =
    Some (negb (bool_decide ((bytes_at (fst r) n, readable (fst r) n) = (value_bytes w, valid w))),
          set_value (bytes_at (fst r) n) (readable (fst r) n) w).
Proof.
  intros Hr Hlen n. unfold update_watchpoint_value. fold n. pose proof Hr as [H1 H2].
  assert (Z.of_nat n = snd r - fst r) as Hn by (unfold n; rewrite rsize_wf by done; lia).
  rewrite read_value_ok by lia. cbn [mbind option_bind fst snd mret option_ret].
  assert (drop n (replicate (length (value_bytes w)) 0xFF) = []) as ->.
  { apply drop_ge. rewrite length_replicate. unfold n. lia. }
  rewrite app_nil_r. f_equal. f_equal.
  destruct (decide (bytes_at (fst r) n = value_bytes w)) as [->|Hne].
  - rewrite (bool_decide_eq_true_2 (value_bytes w = value_bytes w)) by done. rewrite orb_false_r.
    f_equal. case_bool_decide as He; [injection He as ->; by destruct (valid w)|].
    destruct (readable (fst r) n), (valid w); done.
  - rewrite (bool_decide_eq_false_2 _ Hne), orb_true_r. symmetry. apply negb_true_iff.
    apply bool_decide_eq_false_2. by injection 1.
Qed.

Definition wf_value (x : MemoryRange * Watchpoint) : Prop :=
  wf_range (fst x) /\ length (value_bytes (snd x)) = Z.to_nat (rsize (fst x)).

(** The memory a watchpoint watches. *)
Definition current (r : MemoryRange) : list Z * bool :=
  (bytes_at (fst r) (Z.to_nat (rsize r)), readable (fst r) (Z.to_nat (rsize r))).

Definition stale (x : MemoryRange * Watchpoint) : bool :=
  negb (bool_decide (current (fst x) = (value_bytes (snd x), valid (snd x)))).

Definition refreshed (x : MemoryRange * Watchpoint) : Watchpoint :=
  set_value (fst (current (fst x))) (snd (current (fst x))) (snd x).

Lemma update_value_ok x : wf_value x -> update_watchpoint_value read_mem (fst x) (snd x) = Some (stale x, refreshed x).
Proof. intros [Hr Hl]. by rewrite update_watchpoint_value_ok. Qed.

(** After a write by the kernel or the debugger, the watchpoints it meets have the new value, and
    those whose value differs are marked. *)
Lemma update_watchpoint_values_ok start end_ m :
  Forall wf_value m ->
  update_watchpoint_values read_mem start end_ m =
    Some (map (fun x => (fst x,
      if intersects (fst x) (start, end_) then (if stale x then set_changed true (refreshed x) else refreshed x)
      else snd x)) m).
Proof.
  induction 1 as [|[r w] m Hx Hm IH]; [done|]. cbn [update_watchpoint_values map fst snd].
  pose proof (update_value_ok (r, w) Hx) as Hu. cbn [fst snd] in Hu. rewrite Hu, IH. by destruct (intersects r _).
Qed.

Lemma triggered_iff status regs :
  Forall (fun i => 0 <= i) regs ->
  watchpoint_triggered status regs = true <-> exists i, i ∈ regs /\ Z.testbit status i = true.
Proof.
  intros Hp. unfold watchpoint_triggered. rewrite existsb_exists.
  assert (forall i, 0 <= i -> nz (Z.land status (DR_WATCHPOINT i)) = Z.testbit status i) as Hbit.
  { intros i Hi. unfold DR_WATCHPOINT. rewrite Z.shiftl_1_l. destruct (nz _) eqn:Hnz.
    - apply nz_true in Hnz. destruct (Z.testbit status i) eqn:Ht; [done|]. destruct Hnz.
      apply Z.bits_inj'. intros j Hj. rewrite Z.land_spec, Z.bits_0. destruct (Z.eq_dec i j) as [->|Hne].
      + by rewrite Ht.
      + by rewrite Z.pow2_bits_false, andb_false_r.
    - apply nz_false in Hnz. assert (Z.testbit (Z.land status (2 ^ i)) i = false) as H by by rewrite Hnz, Z.bits_0.
      by rewrite Z.land_spec, Z.pow2_bits_true, andb_true_r in H by lia. }
  rewrite Forall_forall in Hp. split; intros (i & Hi & Hb); exists i.
  - rewrite Hbit in Hb by auto. split; [by apply list_elem_of_In|done].
  - apply list_elem_of_In in Hi. by rewrite Hbit by auto.
Qed.

Lemma notify_one_ok status start r w :
  wf_value (r, w) ->
  let x := (r, w) in
  let write := (0 <? write_count w) && stale x in
  let hw := watchpoint_triggered status (debug_regs_for_exec_read w) in
  let fired := write || (0 <? read_count w) && hw || (0 <? exec_count w) && ((start =? 0) || (fst r =? start)) && hw in
  let w' := if 0 <? write_count w then refreshed x else w in
  notify_one read_mem status start r w = Some (fired, if fired then set_changed true w' else w').
Proof.
  intros Hx. pose proof (update_value_ok (r, w) Hx) as Hu. cbn [fst snd] in Hu. unfold notify_one. rewrite Hu.
  assert (has_bit WRITE_BIT (watched_bits w) = (0 <? write_count w)) as ->.
  { unfold watched_bits. by destruct (0 <? exec_count w), (0 <? read_count w), (0 <? write_count w). }
  pose proof (asks_for_bits w WATCH_EXEC) as He. pose proof (asks_for_bits w WATCH_READWRITE) as Hr.
  cbn [asks_for] in He, Hr. rewrite <- He, <- Hr. by destruct (0 <? write_count w).
Qed.

Lemma notify_ok status start m :
  Forall wf_value m ->
  exists l, Forall2 (fun x y => notify_one read_mem status start (fst x) (snd x) = Some y) m l /\
    notify_watchpoint_fired read_mem status start m = Some (existsb fst l, zip (map fst m) (map snd l)).
Proof.
  induction 1 as [|[r w] m Hx Hm (l & Hl & IH)]; [by exists []|].
  pose proof (notify_one_ok status start r w Hx) as Ho. cbv zeta in Ho. eexists (_ :: l). split.
  - constructor; [exact Ho|done].
  - cbn [notify_watchpoint_fired]. rewrite Ho, IH. done.
Qed.

(** The processor reports an access to [a] on every register that watches it. *)
Definition reports (p : list WatchConfig * Z) (type : WatchType) (a status : Z) : Prop :=
  forall k, (k < 4)%nat -> watches p type a k -> Z.testbit status (Z.of_nat k) = true.

(** A fetch or an access the processor reports reaches the debugger. *)
Theorem access_reported accepts s s' r w type a status start :
  Forall wf_watch (watchpoints s) -> Forall wf_value (watchpoints s) ->
  allocate_watchpoints accepts s = (Ok true, s') ->
  (r, w) ∈ watchpoints s' -> asks_for w type = true -> type <> WATCH_WRITE -> inside a r ->
  reports (programmed s') type a status -> (type = WATCH_EXEC -> start = 0 \/ start = fst r) ->
  exists m', notify_watchpoint_fired read_mem status start (watchpoints s') = Some (true, m') /\
    exists w', (r, w') ∈ m' /\ changed w' = true.
Proof.
  intros Hm Hv Ha Hx Ht Hne Hin Hst Hstart.
  destruct (allocate_covers accepts s Hm) as (b & s1 & Ha' & Hsame & _ & Hb).
  rewrite Ha in Ha'. injection Ha' as <- <-. destruct Hb as [Hcov Hown].
  destruct (Hcov r w type a Hx Ht Hin) as (k & Hk & Hw & Hi). specialize (Hi Hne).
  assert (watchpoint_triggered status (debug_regs_for_exec_read w) = true) as Htr.
  { apply triggered_iff; [|exists (Z.of_nat k); split; [done|by apply Hst]].
    apply Forall_forall. intros i Hii. apply list_elem_of_In in Hii. apply (Hown r w i Hx Hii). }
  assert (Forall wf_value (watchpoints s')) as Hv'.
  { clear -Hsame Hv. induction Hsame as [|x y l l' (ids & ->) Hs IH]; [done|].
    apply Forall_cons_1 in Hv as [[H1 H2] Hv]. constructor; [by split|by apply IH]. }
  destruct (notify_ok status start (watchpoints s') Hv') as (l & Hl & Hn).
  apply list_elem_of_lookup in Hx as (j & Hj).
  destruct (Forall2_lookup_l _ _ _ _ _ Hl Hj) as ([f w'] & Hlj & Ho). cbn [fst snd] in Ho.
  assert (wf_value (r, w)) as Hvw by by eapply Forall_lookup_1 in Hv'.
  rewrite notify_one_ok in Ho by done.
  assert (f = true /\ changed w' = true) as [-> Hch].
  { rewrite Htr in Ho. injection Ho as Hf Hw'. assert (f = true) as ->.
    - rewrite <- Hf. destruct type; cbn [asks_for] in Ht; [|done|by rewrite Ht, !orb_true_r].
      rewrite Ht. destruct (Hstart eq_refl) as [->| ->]; by rewrite Z.eqb_refl, ?orb_true_r.
    - split; [done|]. rewrite Hf in Hw'. by rewrite <- Hw'. }
  exists (zip (map fst (watchpoints s')) (map snd l)). split.
  - rewrite Hn. f_equal. f_equal. apply existsb_exists. exists (true, w'). split; [|done].
    apply list_elem_of_In. by eapply list_elem_of_lookup_2.
  - exists w'. split; [|done]. apply list_elem_of_lookup. exists j. rewrite lookup_zip_with.
    change (map ?f ?l) with (f <$> l). by rewrite !list_lookup_fmap, Hj, Hlj.
Qed.

(** A watchpoint whose bytes are as they were and none of whose registers is reported is silent. *)
Theorem quiet_watchpoint status start r w :
  wf_value (r, w) -> current r = (value_bytes w, valid w) ->
  Forall (fun i => 0 <= i /\ Z.testbit status i = false) (debug_regs_for_exec_read w) ->
  notify_one read_mem status start r w = Some (false, w).
Proof.
  intros Hx Hc Hq. rewrite notify_one_ok by done.
  assert (stale (r, w) = false) as Hs.
  { unfold stale. cbn [fst snd]. rewrite Hc. by rewrite bool_decide_eq_true_2. }
  assert (watchpoint_triggered status (debug_regs_for_exec_read w) = false) as ->.
  { rewrite Forall_forall in Hq. apply not_true_is_false. intros H. apply triggered_iff in H as (i & Hi & Ht).
    - apply list_elem_of_In in Hi. apply Hq in Hi as [_ Hi]. by rewrite Hi in Ht.
    - apply Forall_forall. intros i Hi. by apply Hq in Hi as [Hi _]. }
  rewrite Hs, !andb_false_r. cbn. destruct (0 <? write_count w); [|done].
  unfold refreshed. cbn [fst snd]. rewrite Hc. by destruct w.
Qed.
End Values.

(** ** Reference counts *)

Definition counts (m : wmap) (r : MemoryRange) : Z * Z * Z :=
  match wfind r m with Some w => (exec_count w, read_count w, write_count w) | None => (0, 0, 0) end.

(** Every watchpoint is watched, for some access. *)
Definition live (x : MemoryRange * Watchpoint) : Prop :=
  0 <= exec_count (snd x) /\ 0 <= read_count (snd x) /\ 0 <= write_count (snd x) /\ 0 < watch_total (snd x).

Definition keys_sorted (m : wmap) : Prop := StronglySorted (fun a b => range_lt (fst a) (fst b) = true) m.

Lemma range_eqb_true a b : range_eqb a b = true <-> a = b.
Proof.
  unfold range_eqb. destruct a, b. cbn. rewrite andb_true_iff, !Z.eqb_eq. split; [by intros [-> ->]|by injection 1].
Qed.

Lemma range_eqb_refl a : range_eqb a a = true.
Proof. by apply range_eqb_true. Qed.

Lemma range_lt_trans a b c : range_lt a b = true -> range_lt b c = true -> range_lt a c = true.
Proof.
  unfold range_lt. destruct (Z.eqb_spec (fst a) (fst b)), (Z.eqb_spec (fst b) (fst c)), (Z.eqb_spec (fst a) (fst c));
    rewrite ?Z.ltb_lt; lia.
Qed.

Lemma range_lt_total a b : range_eqb a b = false -> range_lt a b = false -> range_lt b a = true.
Proof.
  unfold range_eqb, range_lt. rewrite andb_false_iff.
  destruct (Z.eqb_spec (fst a) (fst b)), (Z.eqb_spec (fst b) (fst a)); rewrite ?Z.eqb_neq, ?Z.ltb_ge, ?Z.ltb_lt; lia.
Qed.

Lemma range_lt_irrefl a : range_lt a a = false.
Proof. unfold range_lt. rewrite Z.eqb_refl. apply Z.ltb_irrefl. Qed.

Lemma wfind_wset r w m r' : wfind r' (wset r w m) = if range_eqb r' r then Some w else wfind r' m.
Proof.
  induction m as [|[k v] m IH]; cbn [wset wfind]; [done|].
  destruct (range_eqb r k) eqn:Hk.
  - apply range_eqb_true in Hk as ->. cbn [wfind]. by destruct (range_eqb r' k).
  - destruct (range_lt r k); cbn [wfind]; [done|]. rewrite IH. destruct (range_eqb r' k) eqn:H1; [|done].
    apply range_eqb_true in H1 as ->. destruct (range_eqb k r) eqn:H2; [|done].
    apply range_eqb_true in H2 as ->. by rewrite range_eqb_refl in Hk.
Qed.

Lemma wfind_werase r m r' : wfind r' (werase r m) = if range_eqb r' r then None else wfind r' m.
Proof.
  induction m as [|[k v] m IH]; cbn [werase List.filter wfind fst]; [by destruct (range_eqb r' r)|].
  fold (werase r m). destruct (range_eqb r k) eqn:Hk; cbn [negb].
  - apply range_eqb_true in Hk as ->. rewrite IH. by destruct (range_eqb r' k).
  - cbn [wfind]. rewrite IH. destruct (range_eqb r' k) eqn:H1; [|done].
    apply range_eqb_true in H1 as ->. destruct (range_eqb k r) eqn:H2; [|done].
    apply range_eqb_true in H2 as ->. by rewrite range_eqb_refl in Hk.
Qed.

Lemma wset_sorted r w m : keys_sorted m -> keys_sorted (wset r w m).
Proof.
  assert (forall k v (l : wmap), Forall (fun b => range_lt k (fst b) = true) l -> range_lt k r = true ->
    Forall (fun b => range_lt k (fst b) = true) (wset r v l)) as Hadd.
  { intros k v l Hl Hk. induction Hl as [|[k' v'] l Hx Hl IH]; cbn [wset]; [by repeat constructor|].
    destruct (range_eqb r k'); [by constructor|]. destruct (range_lt r k'); constructor; [done|by constructor|done|done]. }
  induction 1 as [|[k v] m Hm IH Hk]; cbn [wset]; [by repeat constructor|].
  destruct (range_eqb r k) eqn:He; [apply range_eqb_true in He as ->; by constructor|].
  destruct (range_lt r k) eqn:Hl.
  - constructor; [by constructor|]. constructor; [done|]. apply Forall_forall. intros x Hx.
    rewrite Forall_forall in Hk. eapply range_lt_trans; [exact Hl|by apply Hk].
  - constructor; [done|]. apply Hadd; [done|]. by apply range_lt_total.
Qed.

Lemma werase_sorted r m : keys_sorted m -> keys_sorted (werase r m).
Proof.
  induction 1 as [|x m Hm IH Hk]; [constructor|]. cbn [werase List.filter]. fold (werase r m).
  destruct (negb _); [|done]. constructor; [done|]. apply Forall_forall. intros y [Hy _]%filter_In.
  rewrite Forall_forall in Hk. by apply Hk.
Qed.

Lemma wset_forall P r w m : P (r, w) -> Forall P m -> Forall P (wset r w m).
Proof.
  intros Hp. induction 1 as [|[k v] m Hx Hm IH]; cbn [wset]; [by repeat constructor|].
  destruct (range_eqb r k); [by constructor|]. destruct (range_lt r k); by repeat constructor.
Qed.

Lemma werase_forall P r m : Forall P m -> Forall P (werase r m).
Proof. rewrite !Forall_forall. intros H x [Hx _]%filter_In. by apply H. Qed.

Lemma same_forall P m m' :
  (forall r w ids, P (r, w) -> P (r, set_regs ids w)) -> Forall2 same_watch m m' -> Forall P m -> Forall P m'.
Proof.
  intros HP. induction 1 as [|[r w] y m m' (ids & ->) _ IH]; intros H; [constructor|].
  apply Forall_cons_1 in H as [Hx H]. constructor; [by apply HP|by apply IH].
Qed.

Lemma same_counts m m' r : Forall2 same_watch m m' -> counts m' r = counts m r.
Proof.
  unfold counts. induction 1 as [|[k w] y m m' (ids & ->) _ IH]; [done|]. cbn [wfind fst snd].
  by destruct (range_eqb r k).
Qed.

Lemma same_sorted m m' : Forall2 same_watch m m' -> keys_sorted m -> keys_sorted m'.
Proof.
  induction 1 as [|[k w] y m m' (ids & ->) Hs IH]; intros H; [constructor|].
  apply StronglySorted_inv in H as [Hm Hk]. constructor; [by apply IH|].
  eapply (same_forall (fun b => range_lt k (fst b) = true)); [|exact Hs|exact Hk]. done.
Qed.

Lemma wfind_in r m w : wfind r m = Some w -> (r, w) ∈ m.
Proof.
  induction m as [|[k v] m IH]; cbn [wfind]; [done|]. destruct (range_eqb r k) eqn:He.
  - injection 1 as <-. apply range_eqb_true in He as ->. left.
  - intros H. right. by apply IH.
Qed.

(** The watchpoints of an address space, between operations. *)
Record winv (m : wmap) : Prop := {
  winv_sorted : keys_sorted m;
  winv_watch : Forall wf_watch m;
  winv_value : Forall wf_value m;
  winv_live : Forall live m }.

Lemma winv_same m m' : Forall2 same_watch m m' -> winv m -> winv m'.
Proof.
  intros Hs [H1 H2 H3 H4]. split; [by eapply same_sorted|..]; (eapply same_forall; [|exact Hs|done]); done.
Qed.

Definition bits_of (type : WatchType) : Z * Z * Z :=
  match type with WATCH_EXEC => (1, 0, 0) | WATCH_WRITE => (0, 0, 1) | WATCH_READWRITE => (0, 1, 1) end.

Definition plus3 (a b : Z * Z * Z) : Z * Z * Z := (a.1.1 + b.1.1, a.1.2 + b.1.2, a.2 + b.2).
Definition le3 (a b : Z * Z * Z) : Prop := a.1.1 <= b.1.1 /\ a.1.2 <= b.1.2 /\ a.2 <= b.2.

Lemma watch_bits_of type :
  (b2z (has_bit EXEC_BIT (access_bits_of type)), b2z (has_bit READ_BIT (access_bits_of type)),
   b2z (has_bit WRITE_BIT (access_bits_of type))) = bits_of type.
Proof. by destruct type. Qed.

Definition counts_of (w : Watchpoint) : Z * Z * Z := (exec_count w, read_count w, write_count w).

Lemma watch_ok type r w :
  0 <= exec_count w -> 0 <= read_count w -> 0 <= write_count w ->
  exists w', watch (access_bits_of type) w = Ok w' /\ counts_of w' = plus3 (counts_of w) (bits_of type) /\
    value_bytes w' = value_bytes w /\ live (r, w').
Proof.
  intros H1 H2 H3. unfold watch, assert_valid.
  destruct (Z.leb_spec 0 (exec_count w)); [|lia]. destruct (Z.leb_spec 0 (read_count w)); [|lia].
  destruct (Z.leb_spec 0 (write_count w)); [|lia]. eexists. split; [done|].
  split_and!; [by rewrite <- watch_bits_of|done|]. pose proof (watch_bits_of type) as Hb.
  unfold live, watch_total. cbn [snd set_counts exec_count read_count write_count].
  destruct (bits_of type) as [[e r0] x] eqn:Ht. injection Hb as -> -> ->.
  destruct type; injection Ht as <- <- <-; lia.
Qed.

Lemma drop_count_ok bit which n k :
  b2z (has_bit bit which) = k -> k <= n -> drop_count bit which n = Ok (n - k).
Proof.
  unfold drop_count. intros <- Hk. destruct (has_bit bit which); cbn in *; [|f_equal; lia].
  destruct (Z.ltb_spec 0 n); [done|lia].
Qed.

Lemma unwatch_ok type w :
  0 <= exec_count w -> 0 <= read_count w -> 0 <= write_count w -> le3 (bits_of type) (counts_of w) ->
  exists w', unwatch (access_bits_of type) w = Ok w' /\ plus3 (counts_of w') (bits_of type) = counts_of w /\
    value_bytes w' = value_bytes w /\ 0 <= exec_count w' /\ 0 <= read_count w' /\ 0 <= write_count w'.
Proof.
  intros H1 H2 H3 (Hle1 & Hle2 & Hle3). unfold unwatch, assert_valid. pose proof (watch_bits_of type) as Hb.
  destruct (bits_of type) as [[e r] x]. injection Hb as He Hr Hx. cbn in Hle1, Hle2, Hle3.
  destruct (Z.leb_spec 0 (exec_count w)); [|lia]. destruct (Z.leb_spec 0 (read_count w)); [|lia].
  destruct (Z.leb_spec 0 (write_count w)); [|lia]. cbn [andb].
  rewrite (drop_count_ok _ _ _ _ He) by lia. rewrite bind_result_ok.
  rewrite (drop_count_ok _ _ _ _ Hr) by lia. rewrite bind_result_ok.
  rewrite (drop_count_ok _ _ _ _ Hx) by lia. rewrite bind_result_ok. eexists. split; [done|].
  unfold counts_of, plus3. cbn. split_and!; [|done|lia..]. f_equal; [f_equal|]; lia.
Qed.

(** ** Adding and removing *)

Lemma allocate_keeps accepts s :
  winv (watchpoints s) ->
  exists b s', allocate_watchpoints accepts s = (Ok b, s') /\ winv (watchpoints s') /\
    saved_watchpoints s' = saved_watchpoints s /\ forall r, counts (watchpoints s') r = counts (watchpoints s) r.
Proof.
  intros Hi. destruct (allocate_covers accepts s (winv_watch _ Hi)) as (b & s' & He & Hs & Hsv & _).
  exists b, s'. split_and!; [done|by eapply winv_same|done|]. intros r. by apply same_counts.
Qed.

Lemma winv_wset r w m : winv m -> wf_watch (r, w) -> wf_value (r, w) -> live (r, w) -> winv (wset r w m).
Proof. intros [H1 H2 H3 H4] Hw Hv Hl. split; [by apply wset_sorted|by apply wset_forall..]. Qed.

Lemma winv_werase r m : winv m -> winv (werase r m).
Proof. intros [H1 H2 H3 H4]. split; [by apply werase_sorted|by apply werase_forall..]. Qed.

Lemma winv_find m r w :
  winv m -> wfind r m = Some w -> wf_watch (r, w) /\ wf_value (r, w) /\ live (r, w).
Proof.
  intros [_ H2 H3 H4] Hf%wfind_in%list_elem_of_In. rewrite Forall_forall in H2, H3, H4. auto.
Qed.

Lemma counts_wset r w m r' : counts (wset r w m) r' = if range_eqb r' r then counts_of w else counts m r'.
Proof. unfold counts. rewrite wfind_wset. by destruct (range_eqb r' r). Qed.

Lemma counts_werase r m r' : counts (werase r m) r' = if range_eqb r' r then (0, 0, 0) else counts m r'.
Proof. unfold counts. rewrite wfind_werase. by destruct (range_eqb r' r). Qed.

Section Ops.
Context (accepts : list WatchConfig -> bool) (read_mem : Z -> option Z).
Hypothesis by_page : forall a b, 0 <= a < 2 ^ 64 -> 0 <= b < 2 ^ 64 -> a / PAGE = b / PAGE ->
  read_mem a = None -> read_mem b = None.

Lemma range_for_watchpoint_ok addr n :
  0 <= addr -> 0 <= n -> addr + n + 8 <= 2 ^ 64 -> range_for_watchpoint addr n = Ok (addr, addr + n).
Proof.
  intros Ha Hn Hb. unfold range_for_watchpoint, new_range, UINTPTR_MAX. rewrite Z.min_l by lia.
  rewrite wrapu_small by lia. destruct (Z.leb_spec addr (addr + n)); [done|lia].
Qed.

Lemma add_watchpoint_ok addr n type s :
  winv (watchpoints s) -> 0 <= addr -> 0 <= n -> addr + n + 8 <= 2 ^ 64 ->
  exists b s', add_watchpoint accepts read_mem addr n type s = (Ok b, s') /\ winv (watchpoints s') /\
    forall r, counts (watchpoints s') r =
      plus3 (counts (watchpoints s) r) (if range_eqb r (addr, addr + n) then bits_of type else (0, 0, 0)).
Proof.
  intros Hi Ha Hn Hb. set (key := (addr, addr + n)).
  assert (wf_watch (key, new_watchpoint n)) as Hwf by (unfold wf_watch, wf_range; cbn; lia).
  assert (exists w, (match wfind key (watchpoints s) with
       | Some w => mret w
       | None => u ← lift_fuel (update_watchpoint_value read_mem key (new_watchpoint n)); mret (snd u)
       end : W Watchpoint) s = (Ok w, s) /\ wf_value (key, w) /\ 0 <= exec_count w /\ 0 <= read_count w /\
       0 <= write_count w /\ counts_of w = counts (watchpoints s) key) as (w & Hw & Hv & He & Hr & Hx & Hc).
  { unfold counts. destruct (wfind key (watchpoints s)) as [w|] eqn:Hf.
    - destruct (winv_find _ _ _ Hi Hf) as (_ & Hv & H1 & H2 & H3 & _). exists w. by split_and!.
    - assert (length (value_bytes (new_watchpoint n)) = Z.to_nat (rsize key)) as Hlen.
      { unfold new_watchpoint. cbn [value_bytes]. rewrite length_replicate, rsize_wf by apply Hwf. cbn. f_equal. lia. }
      rewrite (update_watchpoint_value_ok read_mem by_page) by (done || apply Hwf). cbn [lift_fuel].
      eexists. split; [done|]. split_and!; try done. split; [apply Hwf|]. cbn [snd fst set_value value_bytes].
      apply length_bytes_at. }
  destruct (watch_ok type key w He Hr Hx) as (w' & Hw' & Hc' & Hval & Hl).
  unfold add_watchpoint. rewrite range_for_watchpoint_ok by done. cbn [lift_result]. fold key.
  rewrite (bind_ok (mret key) _ s key s eq_refl), (bind_ok (ask watchpoints) _ s (watchpoints s) s eq_refl), (bind_ok _ _ s w s Hw), Hw'.
  cbn [lift_result]. rewrite (bind_ok (mret w') _ s w' s eq_refl).
  destruct (allocate_keeps accepts (set_watchpoints (wset key w' (watchpoints s)) s)) as (b & s' & Hal & Hinv & _ & Hcs).
  { apply winv_wset; [done|exact Hwf|split; [apply Hwf|cbn; rewrite Hval; apply Hv]|done]. }
  exists b, s'. split_and!; [exact Hal|done|]. intros r. rewrite Hcs. cbn [watchpoints set_watchpoints].
  rewrite counts_wset. destruct (range_eqb r key) eqn:Hk.
  - apply range_eqb_true in Hk as ->. by rewrite Hc', Hc.
  - destruct (counts _ r) as [[e1 r1] x1]. unfold plus3. cbn. by rewrite !Z.add_0_r.
Qed.

(** Removing is the inverse of adding; a range that is not watched is left alone. *)
Lemma remove_watchpoint_ok addr n type s :
  winv (watchpoints s) -> 0 <= addr -> 0 <= n -> addr + n + 8 <= 2 ^ 64 ->
  let key := (addr, addr + n) in
  wfind key (watchpoints s) = None \/ le3 (bits_of type) (counts (watchpoints s) key) ->
  exists s', remove_watchpoint accepts addr n type s = (Ok tt, s') /\ winv (watchpoints s') /\
    forall r, plus3 (counts (watchpoints s') r)
      (if range_eqb r key && bool_decide (is_Some (wfind key (watchpoints s))) then bits_of type else (0, 0, 0)) =
      counts (watchpoints s) r.
Proof.
  intros Hi Ha Hn Hb key Hle. unfold remove_watchpoint. rewrite range_for_watchpoint_ok by done. cbn [lift_result].
  fold key. rewrite (bind_ok (mret key) _ s key s eq_refl), (bind_ok (ask watchpoints) _ s (watchpoints s) s eq_refl).
  assert (forall t : Z * Z * Z, plus3 t (0, 0, 0) = t) as H0.
  { intros [[? ?] ?]. unfold plus3. cbn. by rewrite !Z.add_0_r. }
  destruct (wfind key (watchpoints s)) as [w|] eqn:Hf.
  - destruct (winv_find _ _ _ Hi Hf) as (Hwf & Hv & H1 & H2 & H3 & _). destruct Hle as [|Hle]; [done|].
    assert (counts (watchpoints s) key = counts_of w) as Hcw by (unfold counts; by rewrite Hf).
    rewrite Hcw in Hle. destruct (unwatch_ok type w H1 H2 H3 Hle) as (w' & Hu & Hc & Hval & P1 & P2 & P3).
    rewrite Hu. cbn [lift_result].
    set (m' := if watch_total w' =? 0 then werase key (watchpoints s) else wset key w' (watchpoints s)).
    assert (winv m') as Hm'.
    { unfold m'. destruct (Z.eqb_spec (watch_total w') 0) as [Hz|Hz]; [by apply winv_werase|].
      apply winv_wset; [done|done|split; [apply Hwf|cbn; rewrite Hval; apply Hv]|].
      unfold live, watch_total in *. cbn. lia. }
    assert (forall r, counts m' r = if range_eqb r key then counts_of w' else counts (watchpoints s) r) as Hcm.
    { intros r. unfold m'. destruct (Z.eqb_spec (watch_total w') 0) as [Hz|Hz]; [|apply counts_wset].
      rewrite counts_werase. destruct (range_eqb r key); [|done]. unfold counts_of, watch_total in *.
      f_equal; [f_equal|]; lia. }
    destruct (allocate_keeps accepts (set_watchpoints m' s) Hm') as (b & s' & Hal & Hinv & _ & Hcs).
    exists s'. split_and!; [|done|].
    { erewrite (bind_ok _ _ s tt (set_watchpoints m' s)) by done.
      by rewrite (bind_ok _ _ _ _ _ Hal). }
    intros r. rewrite Hcs. cbn [watchpoints set_watchpoints]. rewrite Hcm, bool_decide_eq_true_2 by eauto.
    rewrite andb_true_r. destruct (range_eqb r key) eqn:Hk; [|apply H0]. apply range_eqb_true in Hk as ->. by rewrite Hc.
  - destruct (allocate_keeps accepts s Hi) as (b & s' & Hal & Hinv & _ & Hcs). exists s'. split_and!; [|done|].
    + erewrite (bind_ok _ _ s tt s) by done. by rewrite (bind_ok _ _ _ _ _ Hal).
    + intros r. rewrite Hcs, bool_decide_eq_false_2 by (intros [? ?]; done). rewrite andb_false_r. apply H0.
Qed.
End Ops.

(** Five bytes of five registers: the allocation fails, no register is programmed, and the numbers
    of the registers stay with the watchpoints. *)
Example failed_allocation_keeps_numbers :
  let w := mkWatch 1 0 0 [] [0] true false in
  let m := map (fun a => ((a, a + 1), w)) [16; 32; 48; 64; 80] in
  let '(r, s) := allocate_watchpoints (fun _ => true) (mkWs m [] ([], 0)) in
  r = Ok false /\ programmed s = ([], 0) /\ map (fun x => debug_regs_for_exec_read (snd x)) (watchpoints s) = [[0]; [1]; [2]; [3]; [4]].
Proof. vm_compute. done. Qed.
