(* ===== verification/KernelMappings.v ===== *)
(** * Kernel mappings

    [KernelMapping] of [AddressSpace.h]: what the kernel knows of a mapping, with the assertions
    of its constructor, and the comparison of the cached mappings with those of
    [/proc/<pid>/maps] ([AddressSpace::verify]). *)

From Stdlib Require Import String.
From stdpp Require Import base tactics list numbers.
From S2P Require Import Prelude CStrings CxxStrings TracerMonad Watchpoints.
Local Open Scope Z_scope.

Definition MAP_SHARED : Z := 1.
Definition MAP_PRIVATE : Z := 2.
Definition MAP_ANONYMOUS : Z := 0x20.
Definition MAP_GROWSDOWN : Z := 0x100.
Definition MAP_NORESERVE : Z := 0x4000.
Definition MAP_STACK : Z := 0x20000.

Definition map_flags_mask : Z :=
  fold_right Z.lor 0 [MAP_ANONYMOUS; MAP_NORESERVE; MAP_PRIVATE; MAP_SHARED; MAP_STACK; MAP_GROWSDOWN].
Definition checkable_flags_mask : Z := Z.lor MAP_PRIVATE MAP_SHARED.
Definition NO_DEVICE : Z := 0.
Definition NO_INODE : Z := 0.

Record KernelMapping := mkKernelMapping {
  range : MemoryRange;
  fsname : cstring;
  device : Z;
  inode : Z;
  prot : Z;
  flags : Z;
  offset : Z }.

Definition kstart (k : KernelMapping) : Z := fst (range k).
Definition kend (k : KernelMapping) : Z := snd (range k).
Definition ksize (k : KernelMapping) : Z := rsize (range k).

(** [assert_valid]. *)
Definition valid_km (k : KernelMapping) : bool :=
  (kstart k <=? kend k) && (ksize k mod PAGE =? 0) && negb (nz (Z.land (flags k) (Z.lnot map_flags_mask))) &&
  (offset k mod PAGE =? 0).

(** The constructor. *)
Definition new_km (start end_ : Z) (fsname : cstring) (device inode prot flags offset : Z) : result KernelMapping :=
  let k := mkKernelMapping (start, end_) fsname device inode prot (Z.land flags map_flags_mask) (u64 offset) in
  if valid_km k then Ok k else Err FailedAssert.

Definition is_real_device (k : KernelMapping) : bool := NO_DEVICE <? device k.
Definition is_vdso (k : KernelMapping) : bool := str_eqb (fsname k) (lit "[vdso]").
Definition is_heap (k : KernelMapping) : bool := str_eqb (fsname k) (lit "[heap]").
Definition is_stack (k : KernelMapping) : bool := is_prefix (lit "[stack") (fsname k).

Definition set_range (start end_ : Z) (k : KernelMapping) : result KernelMapping :=
  new_km start end_ (fsname k) (device k) (inode k) (prot k) (flags k) (offset k).

Definition extend (end_ : Z) (k : KernelMapping) : result KernelMapping :=
  if kend k <=? end_ then set_range (kstart k) end_ k else Err FailedAssert.

Definition subrange (start end_ : Z) (k : KernelMapping) : result KernelMapping :=
  if (kstart k <=? start) && (end_ <=? kend k) then
    new_km start end_ (fsname k) (device k) (inode k) (prot k) (flags k)
      (offset k + (if is_real_device k then u64 (start - kstart k) else 0))
  else Err FailedAssert.

Definition set_prot (p : Z) (k : KernelMapping) : result KernelMapping :=
  new_km (kstart k) (kend k) (fsname k) (device k) (inode k) p (flags k) (offset k).

(** ** Names *)

(** [strip_deleted]: the first occurrence has to be the last ten characters.  Without an
    occurrence the name is returned, also when the length of the name is one less than that of
    the suffix and the difference is [npos]. *)
Definition strip_deleted (s : cstring) : cstring :=
  let deleted := lit " (deleted)" in
  match str_find deleted s with
  | Some i => if (i + length deleted =? length s)%nat then take i s else s
  | None => s
  end.

Inductive HandleHeap := TREAT_HEAP_AS_ANONYMOUS | RESPECT_HEAP.

#[export] Instance HandleHeap_eq_dec : EqDecision HandleHeap.
Proof. solve_decision. Defined.

Definition normalized_file_names_equal (km1 km2 : KernelMapping) (handle_heap : HandleHeap) : bool :=
  if is_stack km1 || is_stack km2 then true
  else if bool_decide (handle_heap = TREAT_HEAP_AS_ANONYMOUS) && (is_heap km1 || is_heap km2) then true
  else str_eqb (strip_deleted (fsname km1)) (strip_deleted (fsname km2)).

(** ** Adjacent mappings *)

Definition is_adjacent_mapping (mleft mright : KernelMapping) (handle_heap : HandleHeap) (flags_to_check : Z) : bool :=
  if negb (kend mleft =? kstart mright) then false
  else if nz (Z.land (Z.lxor (flags mleft) (flags mright)) flags_to_check) || negb (prot mleft =? prot mright) then false
  else if negb (normalized_file_names_equal mleft mright handle_heap) then false
  else if negb (device mleft =? device mright) || negb (inode mleft =? inode mright) then false
  else if is_real_device mleft && negb (u64 (offset mleft + ksize mleft) =? offset mright) then false
  else true.

Definition ALL_FLAGS : Z := 0xFFFFFFFF.

Definition try_merge_adjacent (left_m right_m : KernelMapping) : result (option KernelMapping) :=
  if is_adjacent_mapping left_m right_m TREAT_HEAP_AS_ANONYMOUS checkable_flags_mask then
    k ← new_km (kstart left_m) (kend right_m) (fsname left_m) (device left_m) (inode left_m) (prot right_m)
          (flags right_m) (offset left_m);
    mret (Some k)
  else mret None.

(** [c_str()[0] != '/']. *)
Definition is_path (s : cstring) : bool := match s with c :: _ => c =? SLASH | [] => false end.

Definition normalized_device_number (m : KernelMapping) : Z :=
  if negb (is_path (fsname m)) then device m
  else if negb (device m =? NO_DEVICE) then 2 ^ 64 - 1
  else device m.

(** [assert_segments_match]: whether the assertion holds. *)
Definition segments_match (m km : KernelMapping) : bool :=
  if negb (kstart m =? kstart km) then false
  else if negb (kend m =? kend km) then false
  else if negb (prot m =? prot km) then false
  else if nz (Z.land (Z.lxor (flags m) (flags km)) checkable_flags_mask) then false
  else if negb (normalized_file_names_equal m km TREAT_HEAP_AS_ANONYMOUS) && negb (is_heap km && str_eqb (fsname m) []) &&
          negb (is_heap m && str_eqb (fsname km) []) && negb (is_vdso km) then false
  else if negb (normalized_device_number m =? normalized_device_number km) then false
  else if negb (inode m =? inode km) then false
  else true.

(** The inner loops of [verify]: a segment with those merged into it, and what follows. *)
Fixpoint merge_run (k : KernelMapping) (l : list KernelMapping) : result (KernelMapping * list KernelMapping) :=
  match l with
  | [] => Ok (k, [])
  | n :: l' =>
      o ← try_merge_adjacent k n;
      match o with Some k' => merge_run k' l' | None => Ok (k, l) end
  end.

(** [verify] for the segments of the kernel and those of the cache. *)
Fixpoint verify (fuel : nat) (kernel mem : list KernelMapping) : result unit :=
  match kernel, mem with
  | km :: kernel, vm :: mem =>
      match fuel with
      | O => Err NoFuel
      | S fuel =>
          k ← merge_run km kernel;
          v ← merge_run vm mem;
          if segments_match (fst v) (fst k) then verify fuel (snd k) (snd v) else Err FailedAssert
      end
  | [], [] => Ok tt
  | _, _ => Err FailedAssert
  end.

(** ** What [verify] establishes *)

(** The byte at [a] is mapped with protection [p] and sharing [sh]. *)
Definition mapped_as (l : list KernelMapping) (a p sh : Z) : Prop :=
  exists k, k ∈ l /\ kstart k <= a < kend k /\ prot k = p /\ Z.land (flags k) checkable_flags_mask = sh.

Definition proper (k : KernelMapping) : Prop := kstart k <= kend k /\ Z.land (flags k) map_flags_mask = flags k.

Lemma mapped_as_cons k l a p sh :
  mapped_as (k :: l) a p sh <->
  (kstart k <= a < kend k /\ prot k = p /\ Z.land (flags k) checkable_flags_mask = sh) \/ mapped_as l a p sh.
Proof.
  unfold mapped_as. split.
  - intros (x & [->|Hx]%elem_of_cons & H); [by left|right; eauto].
  - intros [H|(x & Hx & H)]; [exists k; split; [left|done]|exists x; split; [by right|done]].
Qed.

Lemma new_km_inv s e fs d i p fl o k :
  new_km s e fs d i p fl o = Ok k ->
  k = mkKernelMapping (s, e) fs d i p (Z.land fl map_flags_mask) (u64 o) /\ valid_km k = true.
Proof. unfold new_km. destruct (valid_km _) eqn:H; [|done]. injection 1 as <-. done. Qed.

Lemma xor_mask a b m : nz (Z.land (Z.lxor a b) m) = false -> Z.land a m = Z.land b m.
Proof.
  intros H%nz_false. apply Z.bits_inj'. intros i Hi. rewrite !Z.land_spec.
  assert (Z.testbit (Z.land (Z.lxor a b) m) i = false) as Hb by by rewrite H, Z.bits_0.
  rewrite Z.land_spec, Z.lxor_spec in Hb. by destruct (Z.testbit a i), (Z.testbit b i), (Z.testbit m i).
Qed.

Lemma checkable_in_mask f : Z.land (Z.land f map_flags_mask) checkable_flags_mask = Z.land f checkable_flags_mask.
Proof. by rewrite <- Z.land_assoc. Qed.

Lemma adjacent_inv l r h fl :
  is_adjacent_mapping l r h fl = true ->
  kend l = kstart r /\ Z.land (flags l) fl = Z.land (flags r) fl /\ prot l = prot r /\
  normalized_file_names_equal l r h = true /\ device l = device r /\ inode l = inode r /\
  (is_real_device l = true -> u64 (offset l + ksize l) = offset r).
Proof.
  unfold is_adjacent_mapping. intros H.
  destruct (Z.eqb_spec (kend l) (kstart r)) as [H1|]; [|done]. cbn [negb] in H.
  destruct (nz _) eqn:H2; [done|]. destruct (Z.eqb_spec (prot l) (prot r)) as [H3|]; [|done]. cbn [negb orb] in H.
  destruct (normalized_file_names_equal l r h); [|done]. cbn [negb] in H.
  destruct (Z.eqb_spec (device l) (device r)) as [H4|]; [|done].
  destruct (Z.eqb_spec (inode l) (inode r)) as [H5|]; [|done]. cbn [negb orb] in H.
  split_and!; try done; [by apply xor_mask|]. intros Hr. rewrite Hr in H. cbn [andb] in H.
  by destruct (Z.eqb_spec (u64 (offset l + ksize l)) (offset r)).
Qed.

(** Merging changes neither the bytes that are mapped nor how. *)
Lemma merge_run_same k l k' l' :
  Forall proper (k :: l) -> merge_run k l = Ok (k', l') ->
  proper k' /\ Forall proper l' /\ (length l' <= length l)%nat /\
  forall a p sh, mapped_as (k' :: l') a p sh <-> mapped_as (k :: l) a p sh.
Proof.
  revert k. induction l as [|n l IH]; intros k Hp; cbn [merge_run].
  - injection 1 as <- <-. apply Forall_cons_1 in Hp as [Hk _]. by split_and!.
  - apply Forall_cons_1 in Hp as [Hk Hl]. pose proof Hl as Hl'. apply Forall_cons_1 in Hl' as [Hn Hl'].
    unfold try_merge_adjacent. destruct (is_adjacent_mapping k n _ _) eqn:Ha.
    2: { injection 1 as <- <-. by split_and!. }
    apply adjacent_inv in Ha as (He & Hf & Hprot & _).
    destruct (new_km _ _ _ _ _ _ _ _) as [m|] eqn:Hm; [|done]. rewrite !bind_result_ok.
    apply new_km_inv in Hm as [-> _]. intros H. apply IH in H.
    + destruct H as (H1 & H2 & H3 & H4). split_and!; [done|done|cbn; lia|].
      intros a p sh. rewrite H4, !mapped_as_cons. unfold kstart, kend in *.
      cbn [range prot flags fst snd]. rewrite checkable_in_mask, Hprot, Hf.
      destruct Hk as [Hk _], Hn as [Hn _]. unfold kstart, kend in *. intuition lia.
    + constructor; [|done]. destruct Hk as [Hk _], Hn as [Hn _]. unfold proper, kstart, kend in *. cbn.
      split; [lia|]. by rewrite <- Z.land_assoc.
Qed.

Lemma segments_match_inv m km :
  segments_match m km = true ->
  range m = range km /\ prot m = prot km /\ Z.land (flags m) checkable_flags_mask = Z.land (flags km) checkable_flags_mask.
Proof.
  unfold segments_match. destruct (Z.eqb_spec (kstart m) (kstart km)) as [H1|]; [|done].
  destruct (Z.eqb_spec (kend m) (kend km)) as [H2|]; [|done].
  destruct (Z.eqb_spec (prot m) (prot km)) as [H3|]; [|done]. cbn [negb].
  destruct (nz _) eqn:H4; [done|]. intros _. split_and!; [|done|by apply xor_mask].
  unfold kstart, kend in *. destruct (range m), (range km). cbn in *. by subst.
Qed.

(** C30.  `AddressSpace::verify`: when rr's walk over its own map and the
    kernel's accepts, every address has the same protection and checked flags in
    both, however the two are cut into segments. *)
Theorem verify_sound fuel kernel mem :
  Forall proper kernel -> Forall proper mem -> verify fuel kernel mem = Ok tt ->
  forall a p sh, mapped_as kernel a p sh <-> mapped_as mem a p sh.
Proof.
  revert kernel mem. induction fuel as [|fuel IH]; intros [|km kernel] [|vm mem] Hk Hm; cbn [verify]; try done.
  destruct (merge_run km kernel) as [[k kr]|] eqn:H1; [|done]. rewrite bind_result_ok.
  destruct (merge_run vm mem) as [[v vr]|] eqn:H2; [|done]. rewrite bind_result_ok. cbn [fst snd].
  destruct (segments_match v k) eqn:H3; [|done]. intros H.
  apply merge_run_same in H1 as (P1 & P2 & _ & P3); [|done]. apply merge_run_same in H2 as (Q1 & Q2 & _ & Q3); [|done].
  apply segments_match_inv in H3 as (E1 & E2 & E3). specialize (IH kr vr P2 Q2 H).
  intros a p sh. rewrite <- P3, <- Q3, !mapped_as_cons, IH. unfold kstart, kend. rewrite E1, E2, E3. done.
Qed.

(** The loop ends: it never takes more rounds than the kernel has segments. *)
Lemma verify_fuel fuel kernel mem :
  Forall proper kernel -> Forall proper mem -> (length kernel <= fuel)%nat ->
  verify fuel kernel mem <> Err NoFuel.
Proof.
  assert (forall k l w, merge_run k l = Err w -> w = FailedAssert) as Hrun.
  { intros k l w. revert k. induction l as [|n l IH]; intros k; cbn [merge_run]; [done|].
    unfold try_merge_adjacent. destruct (is_adjacent_mapping k n _ _); [|done].
    unfold new_km. destruct (valid_km _); [|by injection 1 as <-]. rewrite !bind_result_ok. apply IH. }
  revert kernel mem. induction fuel as [|fuel IH]; intros [|km kernel] [|vm mem] Hk Hm Hf; cbn [verify length] in *;
    try done; [lia|].
  destruct (merge_run km kernel) as [[k kr]|w] eqn:H1; [|intros [= ->]; by apply Hrun in H1]. rewrite bind_result_ok.
  destruct (merge_run vm mem) as [[v vr]|w] eqn:H2; [|intros [= ->]; by apply Hrun in H2].
  rewrite bind_result_ok. cbn [fst snd]. destruct (segments_match v k); [|done].
  apply merge_run_same in H1 as (P1 & P2 & P4 & _); [|done]. apply merge_run_same in H2 as (Q1 & Q2 & _ & _); [|done].
  apply IH; [done|done|lia].
Qed.

(** ** Well-formed mappings *)

Record wf_km (k : KernelMapping) : Prop := {
  wf_bounds : 0 <= kstart k /\ kstart k <= kend k < 2 ^ 64;
  wf_start : kstart k mod PAGE = 0;
  wf_end : kend k mod PAGE = 0;
  wf_flags : Z.land (flags k) map_flags_mask = flags k;
  wf_offset : 0 <= offset k < 2 ^ 64;
  wf_offset_page : offset k mod PAGE = 0 }.

Lemma wf_proper k : wf_km k -> proper k.
Proof. intros H. split; [apply (wf_bounds k H)|apply (wf_flags k H)]. Qed.

Lemma ksize_wf k : wf_km k -> ksize k = kend k - kstart k.
Proof. intros H. pose proof (wf_bounds k H). unfold ksize, rsize, kend, kstart in *. apply wrapu_small. lia. Qed.

Lemma mod_page_sub a b : a mod PAGE = 0 -> b mod PAGE = 0 -> (a - b) mod PAGE = 0.
Proof. intros Ha Hb. rewrite Zminus_mod, Ha, Hb. done. Qed.

Lemma mod_page_add a b : a mod PAGE = 0 -> b mod PAGE = 0 -> (a + b) mod PAGE = 0.
Proof. intros Ha Hb. rewrite Zplus_mod, Ha, Hb. done. Qed.

Lemma u64_page a : a mod PAGE = 0 -> u64 a mod PAGE = 0.
Proof.
  intros Ha. unfold wrapu, PAGE in *. change (2 ^ 64) with (4096 * 2 ^ 52).
  rewrite Z.rem_mul_r by lia. rewrite Ha, Z.add_0_l, Z.mul_comm. apply Z.mod_mul. lia.
Qed.

(** The constructor succeeds on page-aligned arguments. *)
Lemma new_km_ok s e fs d i p fl o :
  0 <= s <= e -> e < 2 ^ 64 -> s mod PAGE = 0 -> e mod PAGE = 0 -> o mod PAGE = 0 ->
  new_km s e fs d i p fl o = Ok (mkKernelMapping (s, e) fs d i p (Z.land fl map_flags_mask) (u64 o)) /\
  wf_km (mkKernelMapping (s, e) fs d i p (Z.land fl map_flags_mask) (u64 o)).
Proof.
  intros H1 H2 H3 H4 H5. unfold new_km, valid_km, ksize, rsize, kstart, kend. cbn [range flags offset fst snd].
  rewrite wrapu_small by lia. destruct (Z.leb_spec s e); [|lia].
  rewrite mod_page_sub, (u64_page o) by done.
  assert (Z.land (Z.land fl map_flags_mask) (Z.lnot map_flags_mask) = 0) as ->.
  { rewrite <- Z.land_assoc, Z.land_lnot_diag. apply Z.land_0_r. }
  split; [done|]. pose proof (wrapu_range 64 o ltac:(lia)).
  split; unfold kstart, kend; cbn [range flags offset fst snd]; try done; try lia.
  - by rewrite <- Z.land_assoc.
  - by apply u64_page.
Qed.

Lemma merge_run_wf k l : Forall wf_km (k :: l) -> exists k' l', merge_run k l = Ok (k', l') /\ Forall wf_km (k' :: l').
Proof.
  revert k. induction l as [|n l IH]; intros k Hw; cbn [merge_run]; [eauto|].
  unfold try_merge_adjacent. destruct (is_adjacent_mapping k n _ _) eqn:Ha; [|eauto].
  apply adjacent_inv in Ha as (He & _). apply Forall_cons_1 in Hw as [Hk Hw]. apply Forall_cons_1 in Hw as [Hn Hl].
  pose proof (wf_bounds k Hk). pose proof (wf_bounds n Hn).
  destruct (new_km_ok (kstart k) (kend n) (fsname k) (device k) (inode k) (prot n) (flags n) (offset k)) as [-> Hm];
    [lia|lia|apply Hk|apply Hn|apply Hk|]. rewrite !bind_result_ok. apply IH. by constructor.
Qed.

Lemma normalized_names_refl k h : normalized_file_names_equal k k h = true.
Proof.
  unfold normalized_file_names_equal. destruct (is_stack k || is_stack k); [done|].
  destruct (bool_decide _ && _); [done|apply str_eqb_refl].
Qed.

Lemma segments_match_refl k : segments_match k k = true.
Proof.
  unfold segments_match. rewrite !Z.eqb_refl, Z.lxor_nilpotent, normalized_names_refl. done.
Qed.

(** A cache equal to the kernel's list is accepted. *)
Theorem verify_accepts l : Forall wf_km l -> verify (length l) l l = Ok tt.
Proof.
  assert (forall fuel l, (length l <= fuel)%nat -> Forall wf_km l -> verify fuel l l = Ok tt) as H; [|by apply H].
  clear l. induction fuel as [|fuel IH]; intros [|k l] Hf Hw; cbn [length] in *; try done; [lia|]. cbn [verify].
  destruct (merge_run_wf k l Hw) as (k' & l' & He & Hw'). rewrite He, !bind_result_ok. cbn [fst snd].
  rewrite segments_match_refl. apply merge_run_same in He as (_ & _ & Hlen & _).
  - apply IH; [lia|]. by apply Forall_cons_1 in Hw' as [_ Hw'].
  - eapply Forall_impl; [|exact Hw]. apply wf_proper.
Qed.
