(* ===== verification/AddressMaps.v ===== *)
(** * The memory map of an address space

    [AddressSpace::mem] and the operations that follow the system calls which change the memory
    map: [map], [unmap], [protect], [remap], [brk], [advise], and the coalescing of adjacent
    mappings.  A [std::map] with [MappingComparator] is the list of its entries in order. *)

From Stdlib Require Import String.
From stdpp Require Import base tactics list numbers.
From S2P Require Import Prelude PreloadInterface CStrings CxxStrings TracerMonad Watchpoints KernelMappings.
Local Open Scope Z_scope.

Definition PROT_READ : Z := 1.
Definition PROT_WRITE : Z := 2.
Definition PROT_EXEC : Z := 4.
Definition PROT_GROWSDOWN : Z := 0x01000000.
Definition MADV_DONTFORK : Z := 10.
Definition MADV_DOFORK : Z := 11.

(** ** Mappings *)

(** [emu_file] and [mapped_file_stat] are pointers to objects this model does not look into;
    [monitored] says that there is a [MonitoredSharedMemory]. *)
Record Mapping := mkMapping {
  kmap : KernelMapping;
  recorded_map : KernelMapping;
  emu_file : option nat;
  mapped_file_stat : option nat;
  local_addr : Z;
  monitored : bool;
  mflags : Z }.

Definition IS_THREAD_LOCALS : Z := 2.
Definition IS_RR_PAGE : Z := 8.

Definition new_mapping (map recorded : KernelMapping) (emu stat : option nat) (local : Z) (mon : bool) : Mapping :=
  mkMapping map recorded emu stat local mon 0.

Definition with_flags (f : Z) (m : Mapping) : Mapping :=
  mkMapping (kmap m) (recorded_map m) (emu_file m) (mapped_file_stat m) (local_addr m) (monitored m) f.

Definition set_local (v : Z) (m : Mapping) : Mapping :=
  mkMapping (kmap m) (recorded_map m) (emu_file m) (mapped_file_stat m) v (monitored m) (mflags m).

Abbreviation entry := (MemoryRange * Mapping)%type.

(** [MappingComparator]: ranges that intersect are equivalent. *)
Definition less (a b : MemoryRange) : bool := negb (intersects a b) && (fst a <? fst b).

Fixpoint span {A} (p : A -> bool) (l : list A) : list A * list A :=
  match l with
  | [] => ([], [])
  | x :: l' => if p x then let '(a, b) := span p l' in (x :: a, b) else ([], l)
  end.

(** The entries before [lower_bound(r)], and from there. *)
Definition lower_bound (r : MemoryRange) (l : list entry) : list entry * list entry := span (fun e => less (fst e) r) l.

(** [find]. *)
Definition mem_find (r : MemoryRange) (l : list entry) : option entry :=
  match snd (lower_bound r l) with
  | e :: _ => if less r (fst e) then None else Some e
  | [] => None
  end.

(** [erase] of a key: the equivalent entries. *)
Definition mem_erase (r : MemoryRange) (l : list entry) : list entry :=
  List.filter (fun e => less (fst e) r || less r (fst e)) l.

(** [mem[r] = m]: an equivalent entry keeps its key. *)
Definition mem_assign (r : MemoryRange) (m : Mapping) (l : list entry) : list entry :=
  let '(a, b) := lower_bound r l in
  match b with
  | e :: b' => if less r (fst e) then a ++ (r, m) :: b else a ++ (fst e, m) :: b'
  | [] => a ++ [(r, m)]
  end.

(** [insert]: the entries before the position returned, the entry there and those after it, and
    whether it was inserted. *)
Definition mem_insert (r : MemoryRange) (m : Mapping) (l : list entry) : list entry * entry * list entry * bool :=
  let '(a, b) := lower_bound r l in
  match b with
  | e :: b' => if less r (fst e) then (a, (r, m), b, true) else (a, e, b', false)
  | [] => (a, (r, m), [], true)
  end.

(** ** Sets of ranges *)

(** [std::set<MemoryRange>::insert], ordered by [operator<]. *)
Fixpoint rset_insert (r : MemoryRange) (l : list MemoryRange) : list MemoryRange :=
  match l with
  | [] => [r]
  | x :: l' => if range_lt r x then r :: l else if range_lt x r then x :: rset_insert r l' else l
  end.

Definition remove_range (r : MemoryRange) (ranges : list MemoryRange) : list MemoryRange :=
  let '(before, rest) := span (fun x => range_lt x r) ranges in
  let '(mid, after) := span (fun x => fst x <? snd r) rest in
  match mid with
  | [] => ranges
  | start_range :: _ =>
      let end_range := List.last mid start_range in
      let l := before ++ after in
      let l := if fst start_range <? fst r then rset_insert (fst start_range, fst r) l else l in
      if snd r <? snd end_range then rset_insert (snd r, snd end_range) l else l
  end.

Definition add_range (r : MemoryRange) (ranges : list MemoryRange) : list MemoryRange :=
  rset_insert r (remove_range r ranges).

Fixpoint zset_insert (x : Z) (l : list Z) : list Z :=
  match l with
  | [] => [x]
  | y :: l' => if x <? y then x :: l else if y <? x then y :: zset_insert x l' else l
  end.

Definition zset_erase (x : Z) (l : list Z) : list Z := List.filter (fun y => negb (y =? x)) l.

(** ** The address space *)

(** [munmapped] are the ranges of rr's own memory passed to [munmap]. *)
Record astate := mkAs {
  mem : list entry;
  monitored_mem : list Z;
  dont_fork : list MemoryRange;
  vdso_start_addr : Z;
  brk_end : Z;
  awatch : wmap;
  munmapped : list (Z * Z) }.

Definition set_mem v s := mkAs v (monitored_mem s) (dont_fork s) (vdso_start_addr s) (brk_end s) (awatch s) (munmapped s).
Definition set_monitored v s := mkAs (mem s) v (dont_fork s) (vdso_start_addr s) (brk_end s) (awatch s) (munmapped s).
Definition set_dont_fork v s := mkAs (mem s) (monitored_mem s) v (vdso_start_addr s) (brk_end s) (awatch s) (munmapped s).
Definition set_vdso v s := mkAs (mem s) (monitored_mem s) (dont_fork s) v (brk_end s) (awatch s) (munmapped s).
Definition set_brk v s := mkAs (mem s) (monitored_mem s) (dont_fork s) (vdso_start_addr s) v (awatch s) (munmapped s).
Definition set_awatch v s := mkAs (mem s) (monitored_mem s) (dont_fork s) (vdso_start_addr s) (brk_end s) v (munmapped s).
Definition set_munmapped v s := mkAs (mem s) (monitored_mem s) (dont_fork s) (vdso_start_addr s) (brk_end s) (awatch s) v.

Definition A := TM astate.

Definition lift {X} (r : result X) : A X := match r with Ok a => mret a | Err w => fail w end.

Definition remove_from_map (r : MemoryRange) : A unit :=
  change (fun s => set_mem (mem_erase r (mem s)) s);;
  change (fun s => set_monitored (zset_erase (fst r) (monitored_mem s)) s).

Definition add_to_map (m : Mapping) : A unit :=
  change (fun s => set_mem (mem_assign (range (kmap m)) m (mem s)) s);;
  if monitored m then change (fun s => set_monitored (zset_insert (kstart (kmap m)) (monitored_mem s)) s) else mret tt.

(** ** Lookups *)

Definition rcontains (a b : MemoryRange) : bool := (fst a <=? fst b) && (snd b <=? snd a).

(** [MemoryRange(floor_page_size(addr), 1)]. *)
Definition page_key (addr : Z) : MemoryRange := (floor_page_size addr, floor_page_size addr + 1).

Definition mapping_of (addr : Z) (l : list entry) : result Mapping :=
  match mem_find (page_key addr) l with
  | Some e => if rcontains (range (kmap (snd e))) (page_key addr) then Ok (snd e) else Err FailedAssert
  | None => Err FailedAssert
  end.

(** [mapping_flags_of(addr) |= f]: the flags of the entry itself. *)
Definition or_mapping_flags (addr f : Z) : A unit :=
  l ← ask mem;
  m ← lift (mapping_of addr l);
  change (fun s => set_mem
    (map (fun e => if intersects (fst e) (page_key addr) then (fst e, with_flags (Z.lor (mflags (snd e)) f) (snd e)) else e)
      (mem s)) s).

Definition local_mapping (addr size : Z) (l : list entry) : result Z :=
  match mem_find (page_key addr) l with
  | None => Ok 0
  | Some e =>
      let m := snd e in
      if negb (rcontains (range (kmap m)) (page_key addr)) then Err FailedAssert
      else if u64 (kend (kmap m) - addr) <? size then Ok 0
      else if negb (local_addr m =? 0) then Ok (u64 (local_addr m + (addr - kstart (kmap m))))
      else Ok 0
  end.

(** [detach_local_mapping]: the pointer is cleared in a copy of the mapping. *)
Definition detach_local_mapping (addr : Z) : A Z := l ← ask mem; m ← lift (mapping_of addr l); mret (local_addr m).

Definition has_mapping (addr : Z) (l : list entry) : bool :=
  if u64 (addr + PAGE) <? addr then false
  else match mem_find (page_key addr) l with Some e => rcontains (fst e) (page_key addr) | None => false end.

Definition has_rr_page (l : list entry) : bool :=
  match mem_find (RR_PAGE_ADDR, RR_PAGE_ADDR + 1) l with
  | Some e => nz (Z.land (mflags (snd e)) IS_RR_PAGE)
  | None => false
  end.

(** ** Coalescing *)

Definition opt_eqb (a b : option nat) : bool := bool_decide (a = b).

Definition coalesceable_ok (lower higher : Mapping) : bool :=
  opt_eqb (emu_file lower) (emu_file higher) && (mflags lower =? mflags higher) &&
  (((local_addr lower =? 0) && (local_addr higher =? 0)) ||
   (u64 (local_addr lower + ksize (kmap lower)) =? local_addr higher)) &&
  negb (monitored lower) && negb (monitored higher).

Definition is_coalescable (mleft mright : Mapping) : bool :=
  is_adjacent_mapping (kmap mleft) (kmap mright) RESPECT_HEAP ALL_FLAGS &&
  is_adjacent_mapping (recorded_map mleft) (recorded_map mright) RESPECT_HEAP ALL_FLAGS &&
  (mflags mleft =? mflags mright).

(** The first loop of [coalesce_around], over the entries before the position, nearest first: the
    entries that stay before and the first entry of the run. *)
Fixpoint go_left (before : list entry) (next : entry) : result (list entry * entry) :=
  match before with
  | [] => Ok ([], next)
  | first :: before' =>
      if is_coalescable (snd first) (snd next) then
        if coalesceable_ok (snd first) (snd next) then go_left before' first else Err FailedAssert
      else Ok (before, next)
  end.

Fixpoint go_right (prev : entry) (after : list entry) : result (entry * list entry) :=
  match after with
  | [] => Ok (prev, [])
  | last :: after' =>
      if is_coalescable (snd prev) (snd last) then
        if coalesceable_ok (snd prev) (snd last) then go_right last after' else Err FailedAssert
      else Ok (prev, after)
  end.

(** [coalesce_around], at the entry [e] between [before] and [after]. *)
Definition coalesce_at (before : list entry) (e : entry) (after : list entry) : result (list entry) :=
  l ← go_left (rev before) e;
  r ← go_right e after;
  let first := snd l in
  let last := fst r in
  if range_eqb (fst first) (fst last) then mret (before ++ e :: after)
  else
    k ← extend (snd (fst last)) (kmap (snd first));
    rk ← extend (snd (fst last)) (recorded_map (snd first));
    let new_m := with_flags (mflags (snd first))
      (new_mapping k rk (emu_file (snd first)) (mapped_file_stat (snd first)) (local_addr (snd first)) false) in
    let '(a, x, b, ok) := mem_insert (range k) new_m (rev (fst l) ++ snd r) in
    if ok : bool then mret (a ++ x :: b) else Err FailedAssert.

Definition coalesce_around (before : list entry) (e : entry) (after : list entry) : A unit :=
  l ← lift (coalesce_at before e after);
  change (set_mem l).

(** [coalesce_around(t, mem.find(r))]; the end of the map cannot be dereferenced. *)
Definition coalesce_found (r : MemoryRange) : A unit :=
  l ← ask mem;
  let '(a, b) := lower_bound r l in
  match b with
  | e :: b' => if less r (fst e) then fail BadAccess else coalesce_around a e b'
  | [] => fail BadAccess
  end.

(** ** Iteration *)

(** [for_each_in_range]; [X] is what the callback's captured variables hold. *)
Section Loop.
Context {X : Type} (contiguous : bool) (region_start region_end : Z) (f : X -> Mapping -> MemoryRange -> A X).

Fixpoint each_from (fuel : nat) (last_unmapped_end : Z) (x : X) : A X :=
  if last_unmapped_end <? region_end then
    match fuel with
    | O => fail NoFuel
    | S fuel =>
        let rem := (last_unmapped_end, region_end) in
        l ← ask mem;
        match snd (lower_bound rem l) with
        | [] => mret x
        | (r, m) :: _ =>
            if region_end <=? fst r then mret x
            else if contiguous && negb ((fst r <? region_start) || (last_unmapped_end =? fst r)) then mret x
            else x ← f x m rem; each_from fuel (snd r) x
        end
    end
  else mret x.
End Loop.

Definition for_each_in_range {X} (addr num_bytes : Z) (f : X -> Mapping -> MemoryRange -> A X) (contiguous : bool) (x : X)
    : A X :=
  let region_start := floor_page_size addr in
  let region_end := ceil_page_size (u64 (addr + num_bytes)) in
  l ← ask mem;
  each_from contiguous region_start region_end f (S (length l)) region_start x.

(** ** Unmapping *)

Section Operations.
(** The tracee's memory after the system call, and whether rr's own [munmap] succeeds. *)
Variable read_mem : Z -> option Z.
Variable local_munmap : Z -> Z -> bool.

Definition update_watch (start end_ : Z) : A unit :=
  if start <=? end_ then
    w ← ask awatch;
    match update_watchpoint_values read_mem start end_ w with
    | Some w => change (set_awatch w)
    | None => fail NoFuel
    end
  else fail FailedAssert.

(** [MonitoredSharedMemory::subrange], which is not implemented. *)
Definition monitored_subrange (m : Mapping) : A bool := if monitored m then fail FailedAssert else mret false.

Definition local_part (m : Mapping) (start : Z) : Z :=
  if negb (local_addr m =? 0) then u64 (local_addr m + (start - kstart (kmap m))) else 0.

(** The part of [m] from [start] to [end_]. *)
Definition part (m : Mapping) (rec_start start end_ local : Z) (mon : bool) : A Mapping :=
  k ← lift (subrange start end_ (kmap m));
  r ← lift (subrange rec_start end_ (recorded_map m));
  mret (with_flags (mflags m) (new_mapping k r (emu_file m) (mapped_file_stat m) local mon)).

Definition underflow (m : Mapping) (rec_start end_ : Z) : A unit :=
  u ← part m rec_start (kstart (kmap m)) end_ (local_addr m) (monitored m);
  add_to_map u.

Definition overflow (m : Mapping) (start : Z) : A unit :=
  mon ← monitored_subrange m;
  o ← part m start start (kend (kmap m)) (local_part m start) mon;
  add_to_map o.

Definition unmapper (_ : unit) (m : Mapping) (rem : MemoryRange) : A unit :=
  remove_from_map (range (kmap m));;
  (if kstart (kmap m) <? fst rem then underflow m (kstart (kmap m)) (fst rem) else mret tt);;
  (if snd rem <? kend (kmap m) then overflow m (snd rem) else mret tt);;
  (if negb (local_addr m =? 0) then
     let p := u64 (local_addr m + (fst rem - kstart (kmap m))) in
     change (fun s => set_munmapped (munmapped s ++ [(p, rsize rem)]) s);;
     if local_munmap p (rsize rem) then mret tt else fail Fatal
   else mret tt).

Definition unmap_internal (addr num_bytes : Z) : A unit :=
  for_each_in_range addr num_bytes unmapper false tt;;
  update_watch addr (u64 (addr + num_bytes)).

Definition unmap (addr num_bytes : Z) : A unit :=
  let num_bytes := ceil_page_size num_bytes in
  if num_bytes =? 0 then mret tt
  else
    r ← lift (new_range addr num_bytes);
    change (fun s => set_dont_fork (remove_range r (dont_fork s)) s);;
    unmap_internal addr num_bytes.

(** ** Mapping *)

Definition map_and_coalesce (m recorded : KernelMapping) (emu stat : option nat) (local : Z) (mon : bool) : A unit :=
  (if mon then change (fun s => set_monitored (zset_insert (kstart m) (monitored_mem s)) s) else mret tt);;
  l ← ask mem;
  (let '(a, e, b, _) := mem_insert (range m) (new_mapping m recorded emu stat local mon) l in coalesce_around a e b);;
  update_watch (kstart m) (kend m).

(** [map]; without a recorded mapping, the mapping itself. *)
Definition map_memory (addr num_bytes prot flags offset_bytes : Z) (fsname : cstring) (device inode : Z)
    (stat : option nat) (recorded : option KernelMapping) (emu : option nat) (local : Z) (mon : bool) : A KernelMapping :=
  let num_bytes := ceil_page_size num_bytes in
  m ← lift (new_km addr (u64 (addr + num_bytes)) fsname device inode prot flags offset_bytes);
  if num_bytes =? 0 then mret m
  else
    r ← lift (new_range addr num_bytes);
    change (fun s => set_dont_fork (remove_range r (dont_fork s)) s);;
    unmap_internal addr num_bytes;;
    let actual := default m recorded in
    map_and_coalesce m actual emu stat local mon;;
    (if is_vdso actual then change (set_vdso addr) else mret tt);;
    mret m.

(** ** Protection *)

(** The range that was protected is the new [last_overlap]. *)
Definition protector (p : Z) (last_overlap : MemoryRange) (m : Mapping) (rem : MemoryRange) : A MemoryRange :=
  remove_from_map (range (kmap m));;
  let grow := (kstart (kmap m) <? fst rem) && nz (Z.land p PROT_GROWSDOWN) in
  let new_start := if grow then kstart (kmap m) else fst rem in
  (if kstart (kmap m) <? new_start then underflow m (kstart (recorded_map m)) (fst rem) else mret tt);;
  let new_end := Z.min (snd rem) (kend (kmap m)) in
  let new_prot := Z.land p (Z.lor PROT_READ (Z.lor PROT_WRITE PROT_EXEC)) in
  k ← lift (subrange new_start new_end (kmap m));
  k ← lift (set_prot new_prot k);
  r ← lift (subrange new_start new_end (recorded_map m));
  r ← lift (set_prot new_prot r);
  mon ← monitored_subrange m;
  add_to_map (with_flags (mflags m)
    (new_mapping k r (emu_file m) (mapped_file_stat m) (local_part m new_start) mon));;
  (if snd rem <? kend (kmap m) then overflow m (snd rem) else mret tt);;
  mret (range k).

Definition protect (addr num_bytes p : Z) : A unit :=
  o ← for_each_in_range addr num_bytes (protector p) true (0, 0);
  if negb (rsize o =? 0) then coalesce_found o else mret tt.

(** ** The other system calls *)

Definition remap (old_addr old_num_bytes new_addr new_num_bytes : Z) : A unit :=
  let old_num_bytes := ceil_page_size old_num_bytes in
  l ← ask mem;
  mr ← lift (mapping_of old_addr l);
  ASSERT (negb (monitored mr));;
  let old_end := u64 (old_addr + old_num_bytes) in
  km ← lift (subrange old_addr (Z.min (kend (kmap mr)) old_end) (kmap mr));
  unmap_internal old_addr old_num_bytes;;
  if new_num_bytes =? 0 then mret tt
  else
    let new_num_bytes := ceil_page_size new_num_bytes in
    old ← lift (new_range old_addr old_num_bytes);
    new ← lift (new_range new_addr new_num_bytes);
    d ← ask dont_fork;
    (match snd (span (fun x => range_lt x old) d) with
     | it :: _ =>
         if fst it <? old_end then
           ASSERT (range_eqb it old);;
           change (fun s => set_dont_fork (add_range new (remove_range old (dont_fork s))) s)
         else change (fun s => set_dont_fork (remove_range new (remove_range old (dont_fork s))) s)
     | [] => change (fun s => set_dont_fork (remove_range new (remove_range old (dont_fork s))) s)
     end);;
    unmap_internal new_addr new_num_bytes;;
    let new_end := u64 (new_addr + new_num_bytes) in
    k ← lift (set_range new_addr new_end km);
    r ← lift (set_range new_addr new_end (recorded_map mr));
    map_and_coalesce k r (emu_file mr) (mapped_file_stat mr) 0 false.

Definition brk (addr p : Z) : A unit :=
  b ← ask brk_end;
  let old_brk := ceil_page_size b in
  let new_brk := ceil_page_size addr in
  (if old_brk <? new_brk then
     map_memory old_brk (new_brk - old_brk) p (Z.lor MAP_ANONYMOUS MAP_PRIVATE) 0 (lit "[heap]") 0 0 None None None 0 false;;
     mret tt
   else unmap new_brk (old_brk - new_brk));;
  change (set_brk addr).

Definition advise (addr num_bytes advice : Z) : A unit :=
  let num_bytes := ceil_page_size num_bytes in
  if advice =? MADV_DONTFORK then
    r ← lift (new_range addr num_bytes); change (fun s => set_dont_fork (add_range r (dont_fork s)) s)
  else if advice =? MADV_DOFORK then
    r ← lift (new_range addr num_bytes); change (fun s => set_dont_fork (remove_range r (dont_fork s)) s)
  else mret tt.

(** [did_fork_into]: what the parent excluded is unmapped in the child, whose state this is. *)
Fixpoint unmap_ranges (ranges : list MemoryRange) : A unit :=
  match ranges with
  | [] => mret tt
  | r :: ranges => unmap (fst r) (rsize r);; unmap_ranges ranges
  end.

Definition did_fork_into (parent : astate) : A unit := unmap_ranges (dont_fork parent).

(** The constructor that copies an address space: the local mappings stay with the original, and
    no range is excluded from the next fork. *)
Definition copy_space (o : astate) : astate :=
  mkAs (map (fun e => (fst e, set_local 0 (snd e))) (mem o)) (monitored_mem o) [] (vdso_start_addr o) (brk_end o)
    (awatch o) [].

(** The arguments of [mprotect] for a grows-down mapping. *)
Definition fixup_mprotect_growsdown_parameters (a1 a2 a3 : Z) (l : list entry) : result (Z * Z * Z) :=
  if nz (Z.land a3 0x02000000) then Err FailedAssert
  else if nz (Z.land a3 PROT_GROWSDOWN) then
    if (a1 =? floor_page_size a1) && has_mapping a1 l then
      m ← mapping_of a1 l;
      if nz (Z.land (flags (kmap m)) MAP_GROWSDOWN) then
        let new_start := kstart (kmap m) in
        mret (new_start, u64 (u64 (a1 + a2) - new_start), Z.land a3 (Z.lnot PROT_GROWSDOWN))
      else mret (a1, a2, a3)
    else mret (a1, a2, a3)
  else mret (a1, a2, a3).

(** ** Replay of a mapping beyond the end of a file *)

(** The callback of [ensure_replay_matches_single_recorded_mapping]; that the bytes are copied
    through rr is not visible in the map. *)
Definition fixer (r : MemoryRange) (_ : unit) (m : Mapping) (rem : MemoryRange) : A unit :=
  if range_eqb (range (kmap m)) r then mret tt
  else
    ASSERT (opt_eqb (mapped_file_stat m) None);;
    ASSERT (local_addr m =? 0);;
    ASSERT (nz (Z.land (flags (kmap m)) MAP_PRIVATE));;
    ASSERT (opt_eqb (emu_file m) None);;
    ASSERT (negb (monitored m));;
    ASSERT (mflags m =? 0);;
    if nz (Z.land (flags (kmap m)) MAP_ANONYMOUS) then mret tt
    else
      change (fun s => set_mem (mem_erase (range (kmap m)) (mem s)) s);;
      k ← lift (new_km (kstart (kmap m)) (kend (kmap m)) [] NO_DEVICE NO_INODE (prot (kmap m))
                 (Z.lor (flags (kmap m)) MAP_ANONYMOUS) 0);
      change (fun s => set_mem (mem_assign (range k) (new_mapping k (recorded_map m) None None 0 false) (mem s)) s).

Definition ensure_replay_matches_single_recorded_mapping (r : MemoryRange) : A unit :=
  ASSERT (fst r =? floor_page_size (fst r));;
  ASSERT (snd r =? ceil_page_size (snd r));;
  for_each_in_range (fst r) (rsize r) (fixer r) false tt;;
  coalesce_found r.

(** ** The mappings after an exec *)

Definition could_be_stack (k : KernelMapping) : bool :=
  (prot k =? Z.lor PROT_READ PROT_WRITE) && str_eqb (fsname k) [] && (device k =? NO_DEVICE) && (inode k =? NO_INODE).

(** [stat_device] is [st_dev] of a file that exists. *)
Definition check_device (stat_device : cstring -> option Z) (k : KernelMapping) : Z :=
  if negb (is_path (fsname k)) then device k else default (device k) (stat_device (fsname k)).

Fixpoint populate_from (stat_device : cstring -> option Z) (guard_page proper_stack : bool) (found_stacks : Z)
    (l : list KernelMapping) : A Z :=
  match l with
  | [] => mret found_stacks
  | k :: l =>
      let stack := if proper_stack then is_stack k else could_be_stack k in
      m ← ask mem;
      let start := if stack && guard_page && negb (has_mapping (u64 (kstart k - PAGE)) m) then u64 (kstart k - PAGE)
                   else kstart k in
      map_memory start (u64 (kend k - start)) (prot k) (if stack then Z.lor (flags k) MAP_GROWSDOWN else flags k)
        (offset k) (fsname k) (check_device stat_device k) (inode k) None None None 0 false;;
      populate_from stat_device guard_page proper_stack (found_stacks + b2z stack) l
  end.

Definition populate_address_space (stat_device : cstring -> option Z) (guard_page : bool) (l : list KernelMapping) : A unit :=
  n ← populate_from stat_device guard_page (existsb is_stack l) 0 l;
  ASSERT (n =? 1).
End Operations.

(** ** Free memory *)

(** [Maps::iterator::to_it]: an empty range meets no mapping. *)
Definition maps_from (ptr : Z) (l : list entry) : list entry := snd (lower_bound (ptr, ptr) l).

(** The loop of [find_free_memory]; the entry after the last cannot be dereferenced. *)
Fixpoint free_from (fuel : nat) (required_space ptr : Z) (l : list entry) : result Z :=
  match fuel with
  | O => Err NoFuel
  | S fuel =>
      match maps_from ptr l with
      | [] => Err BadAccess
      | (_, m) :: _ =>
          let e := kend (kmap m) in
          match maps_from e l with
          | [] => if e <=? u64 (e + required_space) then Ok e else free_from fuel required_space e l
          | (_, next) :: _ =>
              if u64 (e + required_space) <=? kstart (kmap next) then Ok e else free_from fuel required_space e l
          end
      end
  end.

Definition find_free_memory (required_space after : Z) (l : list entry) : result Z :=
  free_from (S (length l)) required_space after l.
