(* ===== verification/AddressMapsInv.v ===== *)
(** * The memory map follows the kernel

    The entries of [AddressSpace::mem] stay ordered and disjoint, and each operation changes the
    attributes of the pages the way the system call does: the map is compared byte by byte, so
    that splitting and coalescing entries cannot be seen. *)

From Stdlib Require Import Sorting.Sorted.
From stdpp Require Import base tactics list numbers.
From S2P Require Import Prelude TracerMonad Watchpoints WatchpointsSpec KernelMappings AddressMaps.
Local Open Scope Z_scope.

(** ** What the map says of a byte *)

(** Protection, flags, device, inode, and for a file the position of the byte. *)
Definition kattr (k : KernelMapping) (a : Z) : Z * Z * Z * Z * option Z :=
  (prot k, flags k, device k, inode k, if is_real_device k then Some (u64 (offset k + (a - kstart k))) else None).

Definition attributes : Type := (Z * Z * Z * Z * option Z) * (Z * Z * Z * Z * option Z) * option nat * Z.

Definition attr (m : Mapping) (a : Z) : attributes := (kattr (kmap m) a, kattr (recorded_map m) a, emu_file m, mflags m).

Definition shows (l : list entry) (a : Z) (p : attributes) : Prop :=
  exists e, e ∈ l /\ inside a (fst e) /\ attr (snd e) a = p.

Definition mapped (l : list entry) (a : Z) : Prop := exists p, shows l a p.

(** ** The invariant *)

Record wf_entry (e : entry) : Prop := {
  we_key : fst e = range (kmap (snd e));
  we_recorded : range (recorded_map (snd e)) = range (kmap (snd e));
  we_km : wf_km (kmap (snd e));
  we_rkm : wf_km (recorded_map (snd e));
  we_size : fst (fst e) < snd (fst e) }.

Definition before (a b : entry) : Prop := snd (fst a) <= fst (fst b).

Record wf_mem (l : list entry) : Prop := {
  wm_sorted : StronglySorted before l;
  wm_entries : Forall wf_entry l }.

Definition unmonitored (l : list entry) : Prop := Forall (fun e => monitored (snd e) = false) l.

(** Mappings of the tracee alone: not shared with rr, not emulated, not monitored. *)
Definition plain (l : list entry) : Prop :=
  Forall (fun e : entry => monitored (snd e) = false /\ local_addr (snd e) = 0 /\ emu_file (snd e) = None) l.

Lemma plain_one e : plain [e] -> monitored (snd e) = false /\ local_addr (snd e) = 0 /\ emu_file (snd e) = None.
Proof. intros H. by apply Forall_cons_1 in H as [H _]. Qed.

Lemma shows_app l l' a p : shows (l ++ l') a p <-> shows l a p \/ shows l' a p.
Proof.
  unfold shows. split.
  - intros (e & [H|H]%elem_of_app & H'); [left|right]; eauto.
  - intros [(e & H & H')|(e & H & H')]; exists e; (split; [apply elem_of_app; auto|done]).
Qed.

Lemma shows_cons e l a p : shows (e :: l) a p <-> (inside a (fst e) /\ attr (snd e) a = p) \/ shows l a p.
Proof.
  unfold shows. split.
  - intros (x & [->|H]%elem_of_cons & H'); [by left|right; eauto].
  - intros [H|(x & H & H')]; [exists e; split; [left|done]|exists x; split; [by right|done]].
Qed.

Lemma shows_nil a p : shows [] a p <-> False.
Proof. split; [|done]. intros (e & H & _). by apply elem_of_nil in H. Qed.

Lemma sorted_app (l l' : list entry) :
  StronglySorted before (l ++ l') <->
  StronglySorted before l /\ StronglySorted before l' /\ forall x y, x ∈ l -> y ∈ l' -> before x y.
Proof.
  induction l as [|e l IH]; cbn [app].
  - split; [|by intros (_ & H & _)]. intros H. split_and!; [constructor|done|]. by intros x y H'%elem_of_nil.
  - split.
    + intros H. apply StronglySorted_inv in H as [H He]. apply IH in H as (H1 & H2 & H3).
      apply Forall_app in He as [He1 He2]. split_and!; [by constructor|done|].
      intros x y [->|Hx]%elem_of_cons Hy; [|by apply H3]. rewrite Forall_forall in He2. by apply He2, list_elem_of_In.
    + intros (H1 & H2 & H3). apply StronglySorted_inv in H1 as [H1 He]. constructor.
      * apply IH. split_and!; [done|done|]. intros x y Hx Hy. apply H3; [by right|done].
      * apply Forall_app. split; [done|]. apply Forall_forall. intros y Hy. apply H3; [left|by apply list_elem_of_In].
Qed.

Lemma wf_mem_app l l' :
  wf_mem (l ++ l') <-> wf_mem l /\ wf_mem l' /\ forall x y, x ∈ l -> y ∈ l' -> before x y.
Proof.
  split.
  - intros [Hs He]. apply sorted_app in Hs as (H1 & H2 & H3). apply Forall_app in He as [He1 He2]. by split_and!.
  - intros ([H1 E1] & [H2 E2] & H3). split; [by apply sorted_app|by apply Forall_app].
Qed.

Lemma wf_mem_one e : wf_entry e -> wf_mem [e].
Proof. intros H. split; [apply SSorted_cons; constructor|by constructor]. Qed.

Lemma wf_mem_nil : wf_mem [].
Proof. split; constructor. Qed.

Lemma wf_mem_mid (a : list entry) (e : entry) (b : list entry) :
  wf_mem (a ++ e :: b) <->
  wf_mem a /\ wf_entry e /\ wf_mem b /\ (forall x, x ∈ a -> before x e) /\ (forall y, y ∈ b -> before e y) /\
  (forall x y, x ∈ a -> y ∈ b -> before x y).
Proof.
  change (e :: b) with ([e] ++ b). rewrite !wf_mem_app. split.
  - intros (Ha & ([_ He] & Hb & H1) & H2). apply Forall_cons_1 in He as [He _].
    split_and!; [done|done|done| | |].
    + intros x Hx. apply H2; [done|]. apply elem_of_app. left. left.
    + intros y Hy. apply H1; [left|done].
    + intros x y Hx Hy. apply H2; [done|]. apply elem_of_app. by right.
  - intros (Ha & He & Hb & H1 & H2 & H3). split_and!; [done|by apply wf_mem_one|done| |].
    + intros x y Hx%list_elem_of_singleton Hy. subst. by apply H2.
    + intros x y Hx [Hy%list_elem_of_singleton|Hy]%elem_of_app; [subst; by apply H1|by apply H3].
Qed.

Lemma wf_in l e : wf_mem l -> e ∈ l -> wf_entry e.
Proof. intros [_ H] He%list_elem_of_In. rewrite Forall_forall in H. by apply H. Qed.

(** Each byte is shown once. *)
Lemma shows_unique l a p q : wf_mem l -> shows l a p -> shows l a q -> p = q.
Proof.
  intros Hw. induction l as [|e l IH]; [by intros H%shows_nil|].
  change (e :: l) with ([] ++ e :: l) in Hw. apply wf_mem_mid in Hw as (_ & He & Hl & _ & Hlt & _).
  assert (forall p, inside a (fst e) -> shows l a p -> False) as Hno.
  { intros r Hin (x & Hx & Hin' & _). specialize (Hlt x Hx). unfold before, inside in *. lia. }
  rewrite !shows_cons. intros [[H1 <-]|H1] [[H2 <-]|H2]; [done|by destruct (Hno _ H1 H2)|by destruct (Hno _ H2 H1)|].
  by apply IH.
Qed.

(** ** The ordered container *)

Lemma span_all {X} (p : X -> bool) a b :
  Forall (fun x => p x = true) a -> match b with [] => True | x :: _ => p x = false end -> span p (a ++ b) = (a, b).
Proof.
  intros Ha Hb. induction Ha as [|x a Hx Ha IH]; cbn [app span].
  - destruct b as [|y b]; [done|]. cbn [span]. by rewrite Hb.
  - by rewrite Hx, IH.
Qed.

Lemma span_app {X} (p : X -> bool) l : exists a b, span p l = (a, b) /\ l = a ++ b /\
  Forall (fun x => p x = true) a /\ match b with [] => True | x :: _ => p x = false end.
Proof.
  induction l as [|x l (a & b & IH & -> & Ha & Hb)]; cbn [span]; [by exists [], []|].
  destruct (p x) eqn:Hx; [|by exists [], (x :: a ++ b)].
  rewrite IH. exists (x :: a), b. split_and!; [done|done|by constructor|done].
Qed.

Lemma less_ends (e : entry) (r : MemoryRange) : wf_entry e -> fst r < snd r -> less (fst e) r = true <-> snd (fst e) <= fst r.
Proof.
  intros He Hr. pose proof (we_size e He). unfold less, intersects.
  rewrite andb_true_iff, negb_true_iff, Z.ltb_ge, Z.ltb_lt. lia.
Qed.

Lemma less_starts (r : MemoryRange) (e : entry) : fst r < snd r -> wf_entry e -> less r (fst e) = true <-> snd r <= fst (fst e).
Proof.
  intros Hr He. pose proof (we_size e He). unfold less, intersects.
  rewrite andb_true_iff, negb_true_iff, Z.ltb_ge, Z.ltb_lt. lia.
Qed.

(** The entries that end at or before the start of the range, and the others. *)
Lemma lower_bound_split (r : MemoryRange) (l : list entry) :
  wf_mem l -> fst r < snd r ->
  exists a b, lower_bound r l = (a, b) /\ l = a ++ b /\ (forall e : entry, e ∈ a -> snd (fst e) <= fst r) /\
    (forall e : entry, e ∈ b -> fst r < snd (fst e)).
Proof.
  intros Hw Hr. unfold lower_bound. destruct (span_app (fun e => less (fst e) r) l) as (a & b & -> & -> & Ha & Hb).
  exists a, b. split_and!; [done|done| |].
  - intros e He. apply less_ends; [|done|rewrite Forall_forall in Ha; by apply Ha, list_elem_of_In].
    apply (wf_in (a ++ b)); [done|]. apply elem_of_app. by left.
  - destruct b as [|x b]; [by intros e H%elem_of_nil|].
    assert (wf_entry x) as Hx. { apply (wf_in (a ++ x :: b)); [done|]. apply elem_of_app. right. left. }
    assert (fst r < snd (fst x)) as Hlt. { apply Z.nle_gt. intros H. apply less_ends in H; [|done..]. by rewrite H in Hb. }
    intros e [->|He]%elem_of_cons; [done|]. apply wf_mem_mid in Hw as (_ & _ & Hwb & _ & Hord & _).
    specialize (Hord e He). pose proof (we_size e (wf_in b e Hwb He)). unfold before in Hord. lia.
Qed.

Lemma lower_bound_mid (r : MemoryRange) (a b : list entry) :
  wf_mem (a ++ b) -> fst r < snd r -> (forall e : entry, e ∈ a -> snd (fst e) <= fst r) -> (forall e : entry, e ∈ b -> fst r < snd (fst e)) ->
  lower_bound r (a ++ b) = (a, b).
Proof.
  intros Hw Hr Ha Hb. apply span_all.
  - apply Forall_forall. intros e He%list_elem_of_In. apply less_ends; [|done|by apply Ha].
    apply (wf_in (a ++ b)); [done|]. apply elem_of_app. by left.
  - destruct b as [|x b]; [done|]. apply not_true_is_false. intros H. apply less_ends in H; [|eapply wf_in; [done|]|done].
    + specialize (Hb x ltac:(left)). lia.
    + apply elem_of_app. right. left.
Qed.

Lemma erase_mid (a : list entry) (e : entry) (b : list entry) : wf_mem (a ++ e :: b) -> mem_erase (fst e) (a ++ e :: b) = a ++ b.
Proof.
  intros Hw. apply wf_mem_mid in Hw as (Ha & He & Hb & H1 & H2 & _). pose proof (we_size e He) as Hsz.
  unfold mem_erase. rewrite List.filter_app. cbn [List.filter].
  assert (less (fst e) (fst e) = false) as ->. { unfold less. by rewrite Z.ltb_irrefl, andb_false_r. }
  cbn [orb]. f_equal.
  - assert (forall x, x ∈ a -> less (fst x) (fst e) = true) as Hless.
    { intros x Hx. apply less_ends; [by apply (wf_in a)|done|by apply H1]. }
    clear -Hless. induction a as [|x a IH]; [done|]. cbn [List.filter]. rewrite Hless by left. cbn [orb]. f_equal.
    apply IH. intros y Hy. apply Hless. by right.
  - assert (forall x, x ∈ b -> less (fst e) (fst x) = true) as Hless.
    { intros x Hx. apply less_starts; [done|by apply (wf_in b)|by apply H2]. }
    clear -Hless. induction b as [|x b IH]; [done|]. cbn [List.filter]. rewrite Hless by left. rewrite orb_true_r. f_equal.
    apply IH. intros y Hy. apply Hless. by right.
Qed.

Lemma assign_mid (a : list entry) (r : MemoryRange) (m : Mapping) (b : list entry) :
  wf_mem (a ++ (r, m) :: b) -> mem_assign r m (a ++ b) = a ++ (r, m) :: b.
Proof.
  intros Hw. pose proof Hw as Hw'. apply wf_mem_mid in Hw as (Ha & He & Hb & H1 & H2 & H3).
  pose proof (we_size _ He) as Hsz. cbn in Hsz. unfold mem_assign.
  rewrite lower_bound_mid; [| |done|apply H1|].
  - destruct b as [|x b]; [done|]. destruct (less r (fst x)) eqn:Hl; [done|].
    assert (less r (fst x) = true) as H; [|by rewrite H in Hl].
    apply less_starts; [done|apply (wf_in (x :: b)); [done|left]|]. apply (H2 x). left.
  - apply wf_mem_app. by split_and!.
  - intros e Hin. specialize (H2 e Hin). pose proof (we_size e (wf_in b e Hb Hin)). unfold before in H2. cbn in H2. lia.
Qed.

(** Pieces of an entry in its place. *)
Lemma wf_mem_replace a e b mid :
  wf_mem (a ++ e :: b) -> wf_mem mid ->
  (forall x : entry, x ∈ mid -> fst (fst e) <= fst (fst x) /\ snd (fst x) <= snd (fst e)) -> wf_mem (a ++ mid ++ b).
Proof.
  intros Hw Hm Hin. apply wf_mem_mid in Hw as (Ha & He & Hb & H1 & H2 & H3). rewrite !wf_mem_app. split_and!; try done.
  - intros x y Hx Hy. specialize (H2 y Hy). specialize (Hin x Hx). unfold before in *. lia.
  - intros x y Hx [Hy|Hy]%elem_of_app; [|by apply H3]. specialize (H1 x Hx). specialize (Hin y Hy). unfold before in *. lia.
Qed.

(** ** Parts of mappings *)

Lemma u64_add_l a b : u64 (u64 a + b) = u64 (a + b).
Proof. unfold wrapu. by rewrite Zplus_mod_idemp_l. Qed.

Lemma u64_add_r a b : u64 (a + u64 b) = u64 (a + b).
Proof. unfold wrapu. by rewrite Zplus_mod_idemp_r. Qed.

Definition reprot_k (p : Z) (x : Z * Z * Z * Z * option Z) : Z * Z * Z * Z * option Z :=
  let '(_, f, d, i, o) := x in (p, f, d, i, o).

Lemma subrange_ok k s e :
  wf_km k -> kstart k <= s <= e -> e <= kend k -> s mod PAGE = 0 -> e mod PAGE = 0 ->
  exists k', subrange s e k = Ok k' /\ wf_km k' /\ range k' = (s, e) /\ forall a, kattr k' a = kattr k a.
Proof.
  intros Hk Hs He Hps Hpe. pose proof (wf_bounds k Hk) as [Hb1 Hb2]. unfold subrange.
  destruct (Z.leb_spec (kstart k) s); [|lia]. destruct (Z.leb_spec e (kend k)); [|lia]. cbn [andb].
  set (o := offset k + (if is_real_device k then u64 (s - kstart k) else 0)).
  destruct (new_km_ok s e (fsname k) (device k) (inode k) (prot k) (flags k) o) as [Hn Hw]; try done; try lia.
  { unfold o. destruct (is_real_device k).
    - apply mod_page_add; [apply Hk|]. apply u64_page, mod_page_sub; [done|apply Hk].
    - rewrite Z.add_0_r. apply Hk. }
  eexists. split; [exact Hn|]. split_and!; [done|done|]. intros a. unfold kattr, is_real_device, kstart. cbn [range flags prot device inode offset fst snd reprot_k].
  rewrite (wf_flags k Hk). f_equal. unfold o. fold (is_real_device k). destruct (is_real_device k); [|done].
  f_equal. rewrite u64_add_l. rewrite <- Z.add_assoc, (Z.add_comm (u64 (s - kstart k))), Z.add_assoc, u64_add_r.
  f_equal. unfold kstart. lia.
Qed.

Lemma set_prot_ok k p :
  wf_km k -> exists k', set_prot p k = Ok k' /\ wf_km k' /\ range k' = range k /\ forall a, kattr k' a = reprot_k p (kattr k a).
Proof.
  intros Hk. pose proof (wf_bounds k Hk) as [Hb1 Hb2]. unfold set_prot.
  destruct (new_km_ok (kstart k) (kend k) (fsname k) (device k) (inode k) p (flags k) (offset k)) as [Hn Hw];
    [lia|lia|apply Hk|apply Hk|apply Hk|]. eexists. split; [exact Hn|]. split_and!; [done|unfold kstart, kend; cbn; by destruct (range k)|].
  intros a. unfold kattr, is_real_device, kstart. cbn [range flags prot device inode offset fst snd reprot_k]. rewrite (wf_flags k Hk).
  f_equal. destruct (NO_DEVICE <? device k); [|done]. f_equal. by rewrite u64_add_l.
Qed.

Lemma set_range_ok k s e :
  wf_km k -> 0 <= s <= e -> e < 2 ^ 64 -> s mod PAGE = 0 -> e mod PAGE = 0 ->
  exists k', set_range s e k = Ok k' /\ wf_km k' /\ range k' = (s, e) /\ forall a, kattr k' a = kattr k (a - s + kstart k).
Proof.
  intros Hk Hs He Hps Hpe. unfold set_range.
  destruct (new_km_ok s e (fsname k) (device k) (inode k) (prot k) (flags k) (offset k)) as [Hn Hw]; try done; [apply Hk|].
  eexists. split; [exact Hn|]. split_and!; [done|done|].
  intros a. unfold kattr, is_real_device, kstart. cbn [range flags prot device inode offset fst snd reprot_k]. rewrite (wf_flags k Hk).
  f_equal. destruct (NO_DEVICE <? device k); [|done]. f_equal. rewrite u64_add_l. f_equal. lia.
Qed.

Lemma part_ok m r s e local mon st :
  wf_entry (r, m) -> fst r <= s < e -> e <= snd r -> s mod PAGE = 0 -> e mod PAGE = 0 ->
  exists m', part m s s e local mon st = (Ok m', st) /\ wf_entry ((s, e), m') /\ range (kmap m') = (s, e) /\
    (forall a, attr m' a = attr m a) /\ monitored m' = mon /\ emu_file m' = emu_file m /\ local_addr m' = local.
Proof.
  intros He Hs Hend Hps Hpe. pose proof (we_key _ He) as Hk. pose proof (we_recorded _ He) as Hr. cbn [fst snd] in *.
  assert (kstart (kmap m) = fst r /\ kend (kmap m) = snd r) as [K1 K2] by (unfold kstart, kend; by rewrite <- Hk).
  assert (kstart (recorded_map m) = fst r /\ kend (recorded_map m) = snd r) as [R1 R2]
    by (unfold kstart, kend; by rewrite Hr, <- Hk).
  destruct (subrange_ok (kmap m) s e (we_km _ He)) as (k & Ek & Wk & Rk & Ak); try done; try lia.
  destruct (subrange_ok (recorded_map m) s e (we_rkm _ He)) as (k' & Ek' & Wk' & Rk' & Ak'); try done; try lia.
  unfold part, mbind, TM_bind. rewrite Ek, Ek'. cbn. eexists. split; [done|].
  split_and!; [|done| |done..].
  - split; cbn; try done; [by rewrite Rk', Rk|lia].
  - intros a. unfold attr. cbn. by rewrite Ak, Ak'.
Qed.

(** The state without the map. *)
Definition same_rest (s s' : astate) : Prop :=
  dont_fork s' = dont_fork s /\ vdso_start_addr s' = vdso_start_addr s /\ brk_end s' = brk_end s /\ awatch s' = awatch s.

Lemma same_rest_refl s : same_rest s s.
Proof. done. Qed.

Lemma same_rest_trans s1 s2 s3 : same_rest s1 s2 -> same_rest s2 s3 -> same_rest s1 s3.
Proof. unfold same_rest. intuition congruence. Qed.

Lemma add_to_map_ok m s a b :
  mem s = a ++ b -> wf_mem (a ++ (range (kmap m), m) :: b) ->
  exists s', add_to_map m s = (Ok tt, s') /\ mem s' = a ++ (range (kmap m), m) :: b /\ same_rest s s' /\ munmapped s' = munmapped s.
Proof.
  intros Hs Hw. pose proof (assign_mid _ _ _ _ Hw) as Has. unfold add_to_map, mbind, TM_bind, change. rewrite Hs, Has.
  destruct (monitored m); (eexists; split; [done|by split_and!]).
Qed.

Lemma remove_from_map_ok s a r m b :
  mem s = a ++ (r, m) :: b -> wf_mem (a ++ (r, m) :: b) ->
  exists s', remove_from_map (range (kmap m)) s = (Ok tt, s') /\ mem s' = a ++ b /\ same_rest s s' /\ munmapped s' = munmapped s.
Proof.
  intros Hs Hw. assert (wf_entry (r, m)) as He by (apply wf_mem_mid in Hw; apply Hw).
  pose proof (we_key _ He) as Hk. cbn in Hk. unfold remove_from_map, mbind, TM_bind, change. eexists. split; [done|].
  cbn. rewrite Hs, <- Hk. split; [apply (erase_mid a (r, m) b Hw)|done].
Qed.

(** ** Pages *)

Lemma ceil_page_aligned x : 0 <= x -> x + PAGE <= 2 ^ 64 -> x mod PAGE = 0 -> ceil_page_size x = x.
Proof.
  intros H0 Hb Hp. unfold ceil_page_size, PAGE in *. rewrite wrapu_small by lia. change 4096 with (2 ^ 12) at 2.
  rewrite land_mask by lia. change (2 ^ 12) with 4096.
  replace (x + 4096 - 1) with (4095 + (x / 4096) * 4096).
  2: { pose proof (Z.div_mod x 4096 ltac:(lia)). lia. }
  rewrite Z_mod_plus_full. change (4095 mod 4096) with 4095. pose proof (Z.div_mod x 4096 ltac:(lia)). lia.
Qed.

Lemma floor_page_aligned x : 0 <= x < 2 ^ 64 -> x mod PAGE = 0 -> floor_page_size x = x.
Proof. intros H Hp. rewrite floor_page_size_eq by done. lia. Qed.

(** ** Unmapping *)

(** What stands in the place of an entry whose bytes from [x] to [y] are gone. *)
Definition cut (r : MemoryRange) (m : Mapping) (x y : Z) (mid : list entry) : Prop :=
  wf_mem mid /\ unmonitored mid /\ (plain [(r, m)] -> plain mid) /\
  (forall e : entry, e ∈ mid -> fst r <= fst (fst e) /\ snd (fst e) <= snd r /\ (snd (fst e) <= x \/ y <= fst (fst e))) /\
  forall a p, shows mid a p <-> inside a r /\ ~ x <= a < y /\ attr m a = p.

Lemma unmonitored_app l l' : unmonitored (l ++ l') <-> unmonitored l /\ unmonitored l'.
Proof. apply Forall_app. Qed.

(** The part of an entry before [x] comes back, if there is one. *)
Lemma underflow_ok m r x s a b :
  wf_entry (r, m) -> monitored m = false -> mem s = a ++ b -> wf_mem (a ++ (r, m) :: b) ->
  x mod PAGE = 0 -> x <= snd r ->
  exists mid s', (if kstart (kmap m) <? x then underflow m (kstart (kmap m)) x else mret tt) s = (Ok tt, s') /\
    mem s' = a ++ mid ++ b /\ same_rest s s' /\ munmapped s' = munmapped s /\ wf_mem mid /\ unmonitored mid /\
    (plain [(r, m)] -> plain mid) /\
    (forall e : entry, e ∈ mid -> fst r <= fst (fst e) /\ snd (fst e) <= x) /\
    (forall c p, shows mid c p <-> inside c r /\ c < x /\ attr m c = p).
Proof.
  intros He Hmon Hs Hw Hpx Hx. pose proof (we_key _ He) as Hk. pose proof (we_km _ He) as Hkm. cbn [fst snd] in *.
  assert (kstart (kmap m) = fst r) as Hst by (unfold kstart; by rewrite <- Hk). rewrite Hst.
  destruct (Z.ltb_spec (fst r) x) as [Hlt|Hge].
  - unfold underflow. destruct (part_ok m r (fst r) x (local_addr m) (monitored m) s He) as (u & Hu & Hwu & Hru & Hau & Hmu & Heu & Hlu);
      [lia|done|rewrite <- Hst; apply Hkm|done|]. rewrite Hst, (bind_ok _ _ _ _ _ Hu).
    destruct (add_to_map_ok u s a b Hs) as (s' & Ha & Hm & Hsr & Hmm).
    { rewrite Hru. apply (wf_mem_replace a (r, m) b [((fst r, x), u)] Hw); [by apply wf_mem_one|].
      intros e ->%list_elem_of_singleton. cbn. lia. }
    exists [((fst r, x), u)], s'. rewrite Hru in Hm. split_and!; [done|done|done|done|by apply wf_mem_one| | | |].
    + constructor; [cbn; congruence|constructor].
    + intros (H1 & H2 & H3)%plain_one. constructor; [cbn in *; split_and!; congruence|constructor].
    + intros e ->%list_elem_of_singleton. cbn. lia.
    + intros c p. rewrite shows_cons, shows_nil. cbn. rewrite Hau. unfold inside. cbn. intuition lia.
  - exists [], s. split_and!; try done; [apply wf_mem_nil|constructor|constructor|by intros e H%elem_of_nil|].
    intros c p. rewrite shows_nil. unfold inside. split; [done|lia].
Qed.

(** And the part from [y] on. *)
Lemma overflow_ok m r y s a b :
  wf_entry (r, m) -> monitored m = false -> mem s = a ++ b ->
  (forall e : entry, e ∈ a -> snd (fst e) <= Z.max y (fst r)) -> (forall e : entry, e ∈ b -> snd r <= fst (fst e)) ->
  wf_mem (a ++ b) -> y mod PAGE = 0 -> fst r <= y ->
  exists mid s', (if y <? kend (kmap m) then overflow m y else mret tt) s = (Ok tt, s') /\
    mem s' = a ++ mid ++ b /\ same_rest s s' /\ munmapped s' = munmapped s /\ wf_mem mid /\ unmonitored mid /\
    (plain [(r, m)] -> plain mid) /\
    (forall e : entry, e ∈ mid -> y <= fst (fst e) /\ snd (fst e) <= snd r) /\
    (forall c p, shows mid c p <-> inside c r /\ y <= c /\ attr m c = p).
Proof.
  intros He Hmon Hs Ha Hb Hw Hpy Hy. pose proof (we_key _ He) as Hk. pose proof (we_km _ He) as Hkm. cbn [fst snd] in *.
  assert (kend (kmap m) = snd r) as Hend by (unfold kend; by rewrite <- Hk). rewrite Hend.
  destruct (Z.ltb_spec y (snd r)) as [Hlt|Hge].
  - unfold overflow, monitored_subrange. rewrite Hmon, Hend.
    destruct (part_ok m r y (snd r) (local_part m y) false s He) as (o & Ho & Hwo & Hro & Hao & Hmo & Heo & Hlo);
      [lia|done|done|rewrite <- Hend; apply Hkm|]. rewrite (bind_ok (mret false) _ s false s eq_refl), (bind_ok _ _ _ _ _ Ho).
    destruct (add_to_map_ok o s a b Hs) as (s' & Hadd & Hm & Hsr & Hmm).
    { rewrite Hro. apply wf_mem_app in Hw as (W1 & W2 & W3). apply wf_mem_mid. split_and!; try done.
      intros e Hin. specialize (Ha e Hin). unfold before. cbn. lia. }
    exists [((y, snd r), o)], s'. rewrite Hro in Hm. split_and!; [done|done|done|done|by apply wf_mem_one| | | |].
    + by constructor; [|constructor].
    + intros (H1 & H2 & H3)%plain_one. constructor; [|constructor]. cbn in *. split_and!; [done| |congruence].
      rewrite Hlo. unfold local_part. by rewrite H2.
    + intros e ->%list_elem_of_singleton. cbn. lia.
    + intros c p. rewrite shows_cons, shows_nil. cbn. rewrite Hao. unfold inside. cbn. intuition lia.
  - exists [], s. split_and!; try done; [apply wf_mem_nil|constructor|constructor|by intros e H%elem_of_nil|].
    intros c p. rewrite shows_nil. unfold inside. split; [done|lia].
Qed.

Section Ops.
Context (local_munmap : Z -> Z -> bool).
Hypothesis munmap_works : forall p n, local_munmap p n = true.

Lemma unmapper_ok m r x y s a b :
  mem s = a ++ (r, m) :: b -> wf_mem (a ++ (r, m) :: b) -> monitored m = false ->
  x < y -> x < snd r -> fst r < y -> x mod PAGE = 0 -> y mod PAGE = 0 ->
  exists mid s', unmapper local_munmap tt m (x, y) s = (Ok tt, s') /\ mem s' = a ++ mid ++ b /\ same_rest s s' /\
    cut r m x y mid.
Proof.
  intros Hs Hw Hmon Hxy Hx Hy Hpx Hpy.
  assert (wf_entry (r, m)) as He by (apply wf_mem_mid in Hw; apply Hw).
  pose proof (proj1 (wf_mem_mid a (r, m) b) Hw) as (Ha & _ & Hb & Hab & Hbb & Hord).
  destruct (remove_from_map_ok s a r m b Hs Hw) as (s1 & Hr & Hm1 & Hsr1 & Hmm1).
  destruct (underflow_ok m r x s1 a b He Hmon Hm1 Hw Hpx ltac:(lia)) as (u & s2 & Hu & Hm2 & Hsr2 & _ & Wu & Mu & Pu & Iu & Su).
  assert (wf_mem (a ++ u ++ b)) as Hw2.
  { apply (wf_mem_replace a (r, m) b u Hw Wu). intros e Hin. specialize (Iu e Hin). cbn. lia. }
  rewrite app_assoc in Hm2, Hw2.
  destruct (overflow_ok m r y s2 (a ++ u) b He Hmon Hm2) as (o & s3 & Ho & Hm3 & Hsr3 & _ & Wo & Mo & Po & Io & So); try done; try lia.
  { intros e [Hin|Hin]%elem_of_app; [specialize (Hab e Hin); unfold before in Hab; cbn in Hab; lia|].
    specialize (Iu e Hin). lia. }
  unfold unmapper. cbn [fst snd].
  rewrite (bind_ok _ _ _ _ _ Hr), (bind_ok _ _ _ _ _ Hu), (bind_ok _ _ _ _ _ Ho).
  rewrite <- app_assoc in Hm3.
  assert (cut r m x y (u ++ o)) as Hcut.
  { split_and!; [|by apply unmonitored_app|intros H; apply Forall_app; split; [by apply Pu|by apply Po]| |].
    - apply wf_mem_app. split_and!; [done|done|]. intros e e' Hin Hin'.
      specialize (Iu e Hin). specialize (Io e' Hin'). unfold before. lia.
    - intros e [Hin|Hin]%elem_of_app; [specialize (Iu e Hin)|specialize (Io e Hin)]; lia.
    - intros c p. rewrite shows_app, Su, So. destruct (Z.lt_ge_cases c x), (Z.lt_ge_cases c y); intuition lia. }
  assert (mem s3 = a ++ (u ++ o) ++ b) as Hm4 by (rewrite Hm3; f_equal; apply app_assoc).
  assert (same_rest s s3) as Hsr by (eapply same_rest_trans; [exact Hsr1|eapply same_rest_trans; [exact Hsr2|exact Hsr3]]).
  destruct (negb (local_addr m =? 0)).
  - rewrite (bind_ok (change _) _ s3 tt _ eq_refl), munmap_works.
    eexists (u ++ o), _. split; [done|]. split_and!; try done; by destruct Hsr as (? & ? & ? & ?).
  - exists (u ++ o), s3. by split_and!.
Qed.

(** The loop of [unmap_internal], from [last] on: [a] has been dealt with. *)
Lemma unmap_loop rstart rend b : forall a last fuel s,
  mem s = a ++ b -> wf_mem (a ++ b) -> unmonitored b -> (length b < fuel)%nat ->
  (forall e : entry, e ∈ a -> snd (fst e) <= last) -> (forall e : entry, e ∈ b -> last < snd (fst e)) ->
  last mod PAGE = 0 -> rend mod PAGE = 0 ->
  exists l' s', each_from false rstart rend (unmapper local_munmap) fuel last tt s = (Ok tt, s') /\
    mem s' = a ++ l' /\ wf_mem (a ++ l') /\ unmonitored l' /\ same_rest s s' /\ (plain b -> plain l') /\
    forall c p, shows l' c p <-> shows b c p /\ ~ last <= c < rend.
Proof.
  induction b as [|[r m] b IH]; intros a last fuel s Hs Hw Hmon Hf Ha Hb Hpl Hpe.
  - exists [], s. assert (each_from false rstart rend (unmapper local_munmap) fuel last tt s = (Ok tt, s)) as ->.
    { destruct fuel as [|fuel]; [cbn in Hf; lia|]. cbn [each_from]. destruct (Z.ltb_spec last rend); [|done].
      rewrite (bind_ok (ask mem) _ s (mem s) s eq_refl), Hs, (lower_bound_mid (last, rend) a []) by done. done. }
    split_and!; try done. intros c p. rewrite shows_nil. tauto.
  - destruct fuel as [|fuel]; [cbn in Hf; lia|]. cbn [each_from]. destruct (Z.ltb_spec last rend) as [Hlt|Hge].
    2: { exists ((r, m) :: b), s. split_and!; try done. intros c p. split; [intros H; split; [done|lia]|by intros [H _]]. }
    rewrite (bind_ok (ask mem) _ s (mem s) s eq_refl), Hs, (lower_bound_mid (last, rend) a ((r, m) :: b)) by done. cbn [snd].
    pose proof (proj1 (wf_mem_mid a (r, m) b) Hw) as (Wa & He & Wb & Hab & Hbb & Hord).
    pose proof (Hb (r, m) ltac:(left)) as Hlr. cbn in Hlr.
    assert (forall c p, shows b c p -> snd r <= c) as Hsb.
    { intros c p (e & Hin & Hc & _). specialize (Hbb e Hin). unfold before, inside in *. cbn in Hbb. lia. }
    destruct (Z.leb_spec rend (fst r)) as [Hout|Hin].
    { exists ((r, m) :: b), s. split_and!; try done. intros c p. split; [|by intros [H _]]. intros H. split; [done|].
      rewrite shows_cons in H. destruct H as [[H _]|H]; [unfold inside in H; cbn in H; lia|].
      apply Hsb in H. pose proof (we_size _ He). cbn in *. lia. }
    cbn [andb]. apply Forall_cons_1 in Hmon as [Hm Hmon]. cbn in Hm.
    destruct (unmapper_ok m r last rend s a b Hs Hw Hm Hlt Hlr Hin Hpl Hpe) as (mid & s1 & Hu & Hm1 & Hsr1 & Wm & Mm & Pm & Im & Sm).
    rewrite (bind_ok _ _ _ _ _ Hu). rewrite app_assoc in Hm1.
    assert (wf_mem ((a ++ mid) ++ b)) as Hw1.
    { rewrite <- app_assoc. apply (wf_mem_replace a (r, m) b mid Hw Wm). intros e Hine. specialize (Im e Hine). cbn. lia. }
    destruct (IH (a ++ mid) (snd r) fuel s1) as (l' & s2 & H2 & Hm2 & Hw2 & M2 & Hsr2 & P2 & S2); try done.
    + cbn in Hf. lia.
    + intros e [Hine|Hine]%elem_of_app; [specialize (Ha e Hine)|specialize (Im e Hine)]; lia.
    + intros e Hine. specialize (Hbb e Hine). pose proof (we_size e (wf_in b e Wb Hine)). unfold before in Hbb. cbn in Hbb. lia.
    + pose proof (we_key _ He) as Hk. cbn in Hk. rewrite Hk. apply (we_km _ He).
    + exists (mid ++ l'), s2. rewrite <- app_assoc in Hm2, Hw2. split_and!; try done.
      * by apply unmonitored_app.
      * by eapply same_rest_trans.
      * intros Hp. apply Forall_cons_1 in Hp as [Hp Hp']. apply Forall_app. split; [apply Pm; by constructor|by apply P2].
      * intros c p. rewrite shows_app, Sm, S2, shows_cons. cbn [fst snd].
        split; [|intros [[[H1 H2']|H1] H2'']; [by left|right; split; [done|lia]]].
        intros [(H1 & H2' & H3)|[H1 H2']]; [tauto|]. split; [by right|]. apply Hsb in H1. lia.
Qed.

(** ** Watchpoints on memory that changed *)

Context (read_mem : Z -> option Z).
Hypothesis by_page : forall a b, 0 <= a < 2 ^ 64 -> 0 <= b < 2 ^ 64 -> a / PAGE = b / PAGE ->
  read_mem a = None -> read_mem b = None.

Definition watch_after (start end_ : Z) (m : wmap) : wmap :=
  map (fun x => (fst x,
    if intersects (fst x) (start, end_) then
      (if stale read_mem x then set_changed true (refreshed read_mem x) else refreshed read_mem x)
    else snd x)) m.

Lemma watch_after_wf start end_ m : Forall wf_value m -> Forall wf_value (watch_after start end_ m).
Proof.
  intros H. apply Forall_fmap. eapply Forall_impl; [|exact H]. intros [r w] [Hr Hl].
  split; [done|]. cbn [fst snd]. destruct (intersects r _); [|done].
  assert (length (value_bytes (refreshed read_mem (r, w))) = Z.to_nat (rsize r)) as Hn by apply length_bytes_at.
  by destruct (stale _ _).
Qed.

Lemma update_watch_ok start end_ s :
  start <= end_ -> Forall wf_value (awatch s) ->
  update_watch read_mem start end_ s = (Ok tt, set_awatch (watch_after start end_ (awatch s)) s).
Proof.
  intros Hse Hw. unfold update_watch. destruct (Z.leb_spec start end_); [|lia].
  rewrite (bind_ok (ask awatch) _ s (awatch s) s eq_refl).
  by rewrite (update_watchpoint_values_ok read_mem by_page).
Qed.

(** ** Operations *)

Record good_space (s : astate) : Prop := {
  gs_mem : wf_mem (mem s);
  gs_unmonitored : unmonitored (mem s);
  gs_watch : Forall wf_value (awatch s) }.

(** A range of whole pages, as [mmap] and [munmap] get it. *)
Definition page_range (addr n : Z) : Prop :=
  0 <= addr /\ 0 < n /\ addr + n < 2 ^ 64 /\ addr mod PAGE = 0 /\ n mod PAGE = 0.

Lemma page_range_end addr n : page_range addr n -> (addr + n) mod PAGE = 0 /\ addr + n + PAGE <= 2 ^ 64.
Proof.
  intros (H1 & H2 & H3 & H4 & H5). pose proof (mod_page_add addr n H4 H5) as He. split; [done|].
  unfold PAGE in *. pose proof (Z.div_mod (addr + n) 4096 ltac:(lia)).
  change (2 ^ 64) with (4096 * 2 ^ 52) in *. lia.
Qed.

Lemma unmap_internal_ok addr n s :
  good_space s -> page_range addr n ->
  exists s', unmap_internal read_mem local_munmap addr n s = (Ok tt, s') /\ good_space s' /\
    dont_fork s' = dont_fork s /\ vdso_start_addr s' = vdso_start_addr s /\ brk_end s' = brk_end s /\
    awatch s' = watch_after addr (addr + n) (awatch s) /\ (plain (mem s) -> plain (mem s')) /\
    forall c p, shows (mem s') c p <-> shows (mem s) c p /\ ~ addr <= c < addr + n.
Proof.
  intros [Hw Hm Hv] Hr. pose proof (page_range_end addr n Hr) as [Hpe Hbe]. destruct Hr as (H1 & H2 & H3 & H4 & H5).
  unfold unmap_internal, for_each_in_range. rewrite (wrapu_small 64 (addr + n)) by lia.
  rewrite floor_page_aligned, ceil_page_aligned by (done || lia).
  destruct (lower_bound_split (addr, addr + n) (mem s) Hw) as (a & b & _ & Hs & Ha & Hb); [cbn; lia|]. cbn in Ha, Hb.
  rewrite Hs in Hw, Hm. apply unmonitored_app in Hm as [Hma Hmb].
  destruct (unmap_loop addr (addr + n) b a addr (S (length (mem s))) s) as (l' & s1 & Hl & Hm1 & Hw1 & Hu1 & Hsr & Hpl & Hsh); try done.
  { rewrite Hs, length_app. lia. }
  destruct Hsr as (R1 & R2 & R3 & R4).
  assert (Forall wf_value (awatch s1)) as Hv1 by by rewrite R4.
  eexists. split.
  { rewrite (bind_ok _ _ s tt s1). { apply update_watch_ok; [lia|done]. }
    by rewrite (bind_ok (ask mem) _ s (mem s) s eq_refl). }
  split; [|cbn; rewrite R4; split_and!; try done].
  - split; cbn; [by rewrite Hm1|rewrite Hm1; by apply unmonitored_app|by apply watch_after_wf].
  - rewrite Hs, Hm1. intros Hp. apply Forall_app in Hp as [Hp1 Hp2]. apply Forall_app. split; [done|by apply Hpl].
  - intros c p. rewrite Hm1, Hs, !shows_app, Hsh. split; [|tauto]. intros [H|H]; [|tauto]. split; [by left|].
    destruct H as (e & Hin & Hc & _). specialize (Ha e Hin). unfold inside in Hc. lia.
Qed.
End Ops.
