(* ===== verification/AddressMapsSpec.v ===== *)
(** * System calls on the memory map

    Coalescing is invisible byte by byte; [map], [unmap], [protect] and [remap] change the
    attributes of the bytes the way the system calls do. *)

From Stdlib Require Import Sorting.Sorted.
From stdpp Require Import base tactics list numbers.
From S2P Require Import Prelude TracerMonad Watchpoints WatchpointsSpec KernelMappings AddressMaps AddressMapsInv.
Local Open Scope Z_scope.

(** ** Coalescing *)

Lemma masked_flags k : wf_km k -> Z.land (flags k) ALL_FLAGS = flags k.
Proof. intros Hk. rewrite <- (wf_flags k Hk) at 1. rewrite <- Z.land_assoc. exact (wf_flags k Hk). Qed.

Lemma adjacent_attr k1 k2 h :
  wf_km k1 -> wf_km k2 -> is_adjacent_mapping k1 k2 h ALL_FLAGS = true ->
  kend k1 = kstart k2 /\ forall a, kattr k1 a = kattr k2 a.
Proof.
  intros H1 H2 Ha. apply adjacent_inv in Ha as (He & Hf & Hp & _ & Hd & Hi & Ho). split; [done|]. intros a.
  rewrite !masked_flags in Hf by done. unfold kattr. rewrite Hp, Hf, Hd, Hi. f_equal.
  assert (is_real_device k1 = is_real_device k2) as Hr by (unfold is_real_device; by rewrite Hd).
  rewrite <- Hr. destruct (is_real_device k1); [|done]. f_equal. rewrite <- Ho by done. rewrite u64_add_l. f_equal.
  rewrite ksize_wf, He by done. lia.
Qed.

Lemma coalescable_attr (e1 e2 : entry) :
  wf_entry e1 -> wf_entry e2 -> is_coalescable (snd e1) (snd e2) = true -> coalesceable_ok (snd e1) (snd e2) = true ->
  snd (fst e1) = fst (fst e2) /\ forall a, attr (snd e1) a = attr (snd e2) a.
Proof.
  intros H1 H2 Hc Hok. unfold is_coalescable in Hc. apply andb_true_iff in Hc as [[Ha Hr]%andb_true_iff Hf%Z.eqb_eq].
  apply adjacent_attr in Ha as [He Ha]; [|apply H1|apply H2]. apply adjacent_attr in Hr as [_ Hr]; [|apply H1|apply H2].
  unfold coalesceable_ok in Hok. rewrite !andb_true_iff in Hok. destruct Hok as [[[[He'%bool_decide_eq_true _] _] _] _].
  split; [rewrite (we_key _ H1), (we_key _ H2); exact He|]. intros a. unfold attr. by rewrite Ha, Hr, He', Hf.
Qed.

Lemma plain_coalesceable l (e1 e2 : entry) :
  plain l -> e1 ∈ l -> e2 ∈ l -> is_coalescable (snd e1) (snd e2) = true -> coalesceable_ok (snd e1) (snd e2) = true.
Proof.
  intros Hp H1%list_elem_of_In H2%list_elem_of_In Hc. unfold plain in Hp. rewrite Forall_forall in Hp.
  destruct (Hp e1 H1) as (M1 & L1 & E1), (Hp e2 H2) as (M2 & L2 & E2).
  unfold is_coalescable in Hc. apply andb_true_iff in Hc as [_ Hf]. unfold coalesceable_ok.
  by rewrite M1, M2, L1, L2, E1, E2, Hf.
Qed.

Lemma go_left_ok rb (next : entry) :
  wf_mem (rev rb ++ [next]) ->
  match go_left rb next with
  | Ok (rest, first) =>
      exists pre, rb = rev pre ++ rest /\ first ∈ pre ++ [next] /\
        (forall c, attr (snd first) c = attr (snd next) c) /\ fst (fst first) <= fst (fst next) /\
        (fst first = fst next -> pre = []) /\
        forall c p, shows (pre ++ [next]) c p <-> fst (fst first) <= c < snd (fst next) /\ attr (snd first) c = p
  | Err w => w = FailedAssert /\ ~ plain (rev rb ++ [next])
  end.
Proof.
  revert next. induction rb as [|f rb IH]; intros next Hw; cbn [go_left].
  - exists []. split_and!; try done; [left|]. intros c p. cbn [app]. rewrite shows_cons, shows_nil.
    unfold inside. intuition.
  - cbn [rev] in Hw. rewrite <- app_assoc in Hw. cbn [app] in Hw.
    apply wf_mem_mid in Hw as Hw'. destruct Hw' as (Wr & Wf & Wn & Hrf & Hfn & _).
    assert (wf_entry next) as Wnext by (apply (wf_in [next]); [done|left]).
    assert (wf_mem (rev rb ++ [f])) as Wrf.
    { change (f :: [next]) with ([f] ++ [next]) in Hw. rewrite app_assoc in Hw. by apply wf_mem_app in Hw as [? _]. }
    destruct (is_coalescable (snd f) (snd next)) eqn:Hc.
    2: { exists []. split_and!; try done; [left|]. intros c p. cbn [app]. rewrite shows_cons, shows_nil.
         unfold inside. intuition. }
    destruct (coalesceable_ok (snd f) (snd next)) eqn:Hok.
    2: { split; [done|]. intros Hp. rewrite (plain_coalesceable _ f next Hp) in Hok; [done|..|done];
           cbn [rev]; rewrite !elem_of_app; [left; right; left|right; left]. }
    destruct (coalescable_attr f next Wf Wnext Hc Hok) as [He Ha]. specialize (IH f Wrf).
    destruct (go_left rb f) as [[rest first]|w].
    + destruct IH as (pre & -> & Hin & Hattr & Hle & _ & Hsh). exists (pre ++ [f]). pose proof (we_size _ Wf).
      split_and!.
      * by rewrite rev_app_distr.
      * apply elem_of_app. by left.
      * intros c. by rewrite Hattr.
      * lia.
      * intros Heq. rewrite Heq in Hle. lia.
      * intros c p. rewrite shows_app, Hsh, shows_cons, shows_nil. unfold inside. rewrite Hattr.
        pose proof (we_size _ Wnext). rewrite <- Ha. destruct (Z.lt_ge_cases c (snd (fst f))); intuition lia.
    + destruct IH as [-> Hnp]. split; [done|]. intros Hp. apply Hnp. cbn [rev] in Hp.
      unfold plain in Hp |- *. by apply Forall_app in Hp as [Hp _].
Qed.

Lemma go_right_ok after (prev : entry) :
  wf_mem (prev :: after) ->
  match go_right prev after with
  | Ok (last, rest) =>
      exists post, after = post ++ rest /\ last ∈ prev :: post /\
        (forall c, attr (snd last) c = attr (snd prev) c) /\ snd (fst prev) <= snd (fst last) /\
        (fst last = fst prev -> post = []) /\
        forall c p, shows (prev :: post) c p <-> fst (fst prev) <= c < snd (fst last) /\ attr (snd prev) c = p
  | Err w => w = FailedAssert /\ ~ plain (prev :: after)
  end.
Proof.
  revert prev. induction after as [|l after IH]; intros prev Hw; cbn [go_right].
  - exists []. split_and!; try done; [left|]. intros c p. rewrite shows_cons, shows_nil. unfold inside. intuition.
  - change (prev :: l :: after) with ([prev] ++ l :: after) in Hw. apply wf_mem_mid in Hw as Hw'.
    destruct Hw' as (Wp & Wl & Wa & _ & _ & _). apply wf_mem_app in Hw as (_ & Wla & _).
    assert (wf_entry prev) as Wprev by (apply (wf_in [prev]); [done|left]).
    destruct (is_coalescable (snd prev) (snd l)) eqn:Hc.
    2: { exists []. split_and!; try done; [left|]. intros c p. rewrite shows_cons, shows_nil. unfold inside. intuition. }
    destruct (coalesceable_ok (snd prev) (snd l)) eqn:Hok.
    2: { split; [done|]. intros Hp. rewrite (plain_coalesceable _ prev l Hp) in Hok; [done|left|right; left|done]. }
    destruct (coalescable_attr prev l Wprev Wl Hc Hok) as [He Ha]. specialize (IH l Wla).
    destruct (go_right l after) as [[last rest]|w].
    + destruct IH as (post & -> & Hin & Hattr & Hle & _ & Hsh). exists (l :: post). pose proof (we_size _ Wl).
      split_and!; [done|by right|intros c; by rewrite Hattr, Ha|lia| |].
      * intros Heq. rewrite Heq in Hle. lia.
      * intros c p. rewrite shows_cons, Hsh. unfold inside. rewrite <- Ha.
        pose proof (we_size _ Wprev). destruct (Z.lt_ge_cases c (snd (fst prev))); intuition lia.
    + destruct IH as [-> Hnp]. split; [done|]. intros Hp. apply Hnp. by apply Forall_cons_1 in Hp as [_ Hp].
Qed.

Lemma insert_mid (a : list entry) (r : MemoryRange) (m : Mapping) (b : list entry) :
  wf_mem (a ++ (r, m) :: b) -> mem_insert r m (a ++ b) = (a, (r, m), b, true).
Proof.
  intros Hw. apply wf_mem_mid in Hw as (Ha & He & Hb & H1 & H2 & H3).
  pose proof (we_size _ He) as Hsz. cbn in Hsz. unfold mem_insert. rewrite lower_bound_mid.
  - destruct b as [|x b]; [done|]. assert (less r (fst x) = true) as ->; [|done].
    apply less_starts; [done|apply (wf_in (x :: b)); [done|left]|]. apply (H2 x). left.
  - apply wf_mem_app. by split_and!.
  - done.
  - apply H1.
  - intros e Hin. specialize (H2 e Hin). pose proof (we_size e (wf_in b e Hb Hin)). unfold before in H2. cbn in H2. lia.
Qed.

(** An entry extended over what follows it. *)
Lemma extend_ok (e : entry) end_ :
  wf_entry e -> snd (fst e) <= end_ -> end_ < 2 ^ 64 -> end_ mod PAGE = 0 ->
  exists k rk, extend end_ (kmap (snd e)) = Ok k /\ extend end_ (recorded_map (snd e)) = Ok rk /\
    range k = (fst (fst e), end_) /\ range rk = range k /\ wf_km k /\ wf_km rk /\
    (forall a, kattr k a = kattr (kmap (snd e)) a) /\ (forall a, kattr rk a = kattr (recorded_map (snd e)) a).
Proof.
  intros He Hle Hb Hp. pose proof (we_size _ He). pose proof (wf_bounds _ (we_km _ He)) as Hbd.
  assert (kstart (kmap (snd e)) = fst (fst e) /\ kend (kmap (snd e)) = snd (fst e)) as [K1 K2].
  { unfold kstart, kend. by rewrite <- (we_key _ He). }
  assert (kstart (recorded_map (snd e)) = fst (fst e) /\ kend (recorded_map (snd e)) = snd (fst e)) as [R1 R2].
  { unfold kstart, kend. by rewrite (we_recorded _ He), <- (we_key _ He). }
  unfold extend. rewrite K1, K2, R1, R2. destruct (Z.leb_spec (snd (fst e)) end_); [|lia].
  assert (fst (fst e) mod PAGE = 0) as Hps by (rewrite <- K1; apply (we_km _ He)).
  destruct (set_range_ok (kmap (snd e)) (fst (fst e)) end_ (we_km _ He)) as (k & -> & Wk & Rk & Ak); [lia|done..|].
  destruct (set_range_ok (recorded_map (snd e)) (fst (fst e)) end_ (we_rkm _ He)) as (rk & -> & Wrk & Rrk & Ark); [lia|done..|].
  exists k, rk. rewrite K1 in Ak. rewrite R1 in Ark. split_and!; try done; [by rewrite Rk, Rrk| |].
  - intros a. rewrite Ak. f_equal. lia.
  - intros a. rewrite Ark. f_equal. lia.
Qed.

Definition same_map (l l' : list entry) : Prop := forall c p, shows l' c p <-> shows l c p.

Lemma wf_end (e : entry) : wf_entry e -> snd (fst e) < 2 ^ 64 /\ snd (fst e) mod PAGE = 0 /\ fst (fst e) mod PAGE = 0.
Proof.
  intros He. pose proof (we_key _ He) as Hk. rewrite Hk. pose proof (wf_bounds _ (we_km _ He)) as Hb. unfold kend in Hb.
  split_and!; [lia|apply (we_km _ He)|apply (we_km _ He)].
Qed.

(** One entry in the place of a run: it starts where the first starts and ends where the last
    ends. *)
Lemma replace_run_wf (a mid b : list entry) (first last : entry) m :
  wf_mem (a ++ mid ++ b) -> first ∈ mid -> last ∈ mid -> wf_entry ((fst (fst first), snd (fst last)), m) ->
  wf_mem (a ++ ((fst (fst first), snd (fst last)), m) :: b).
Proof.
  intros Hw Hf Hl Hn. apply wf_mem_app in Hw as (W1 & W2 & W3). apply wf_mem_app in W2 as (W2 & W4 & W5).
  apply wf_mem_mid. split_and!; try done.
  - intros x Hx. apply (W3 x first Hx). apply elem_of_app. by left.
  - intros y Hy. by apply (W5 last y).
  - intros x y Hx Hy. apply W3; [done|]. apply elem_of_app. by right.
Qed.

Lemma shows_middle (pre : list entry) (e : entry) (post : list entry) c p :
  shows (pre ++ e :: post) c p <-> shows (pre ++ [e]) c p \/ shows (e :: post) c p.
Proof. change (e :: post) with ([e] ++ post). rewrite !shows_app. tauto. Qed.

Lemma plain_in l e : plain l -> e ∈ l -> monitored (snd e) = false /\ local_addr (snd e) = 0 /\ emu_file (snd e) = None.
Proof. unfold plain. rewrite Forall_forall. intros H He%list_elem_of_In. by apply H. Qed.

(** Coalescing is not visible; it fails only on mappings that rr shares or emulates. *)
Lemma coalesce_at_ok before e after :
  wf_mem (before ++ e :: after) -> unmonitored (before ++ e :: after) ->
  match coalesce_at before e after with
  | Ok l => wf_mem l /\ unmonitored l /\ same_map (before ++ e :: after) l /\
      (plain (before ++ e :: after) -> plain l)
  | Err w => w = FailedAssert /\ ~ plain (before ++ e :: after)
  end.
Proof.
  intros Hw Hm. assert (wf_mem (before ++ [e])) as Wl.
  { change (e :: after) with ([e] ++ after) in Hw. rewrite app_assoc in Hw. by apply wf_mem_app in Hw as [? _]. }
  assert (wf_mem (e :: after)) as Wr by (by apply wf_mem_app in Hw as (_ & ? & _)).
  pose proof (go_left_ok (rev before) e) as HL. rewrite rev_involutive in HL. specialize (HL Wl).
  pose proof (go_right_ok after e Wr) as HR. unfold coalesce_at.
  destruct (go_left (rev before) e) as [[restl first]|w]; [|destruct HL as [-> HL]; split; [done|]].
  2: { intros Hp. apply HL. unfold plain in Hp |- *. apply Forall_app in Hp as [H1 H2]. apply Forall_app. split; [done|].
       apply Forall_cons_1 in H2 as [H2 _]. by constructor. }
  rewrite bind_result_ok.
  destruct (go_right e after) as [[last restr]|w]; [|destruct HR as [-> HR]; split; [done|]].
  2: { intros Hp. apply HR. unfold plain in Hp |- *. by apply Forall_app in Hp as [_ Hp]. }
  rewrite bind_result_ok. cbn [fst snd].
  destruct HL as (pre & Hpre & Hinl & Hal & Hlel & _ & Hshl). destruct HR as (post & Hpost & Hinr & Har & Hler & _ & Hshr).
  destruct (range_eqb (fst first) (fst last)); [by split_and!|].
  assert (before = rev restl ++ pre) as Hbef.
  { rewrite <- (rev_involutive before), Hpre, rev_app_distr, rev_involutive. done. }
  assert (wf_entry first) as Wf by (apply (wf_in _ _ Wl); rewrite Hbef, <- app_assoc; apply elem_of_app; by right).
  assert (wf_entry last) as Wla.
  { apply (wf_in _ _ Wr). rewrite Hpost. apply elem_of_cons in Hinr as [->|Hinr]; [left|right].
    apply elem_of_app. by left. }
  assert (wf_entry e) as We by (apply (wf_in _ _ Wr); left). pose proof (we_size _ We).
  destruct (wf_end _ Wla) as (Hle1 & Hle2 & _).
  destruct (extend_ok first (snd (fst last)) Wf) as (k & rk & -> & -> & Rk & Rrk & Wk & Wrk & Ak & Ark); try done.
  { pose proof (we_size _ Wf). apply elem_of_app in Hinl as [Hin| ->%list_elem_of_singleton]; [|lia].
    assert (snd (fst first) <= fst (fst e)); [|lia].
    apply wf_mem_mid in Hw as (_ & _ & _ & H1 & _). apply H1. rewrite Hbef. apply elem_of_app. by right. }
  rewrite !bind_result_ok. rewrite Rk.
  set (new := with_flags _ _). set (r := (fst (fst first), snd (fst last))).
  assert (wf_entry (r, new)) as Wn.
  { split; cbn; try done. pose proof (we_size _ Wf). lia. }
  assert (forall c, attr new c = attr (snd first) c) as Han.
  { intros c. unfold attr. cbn. by rewrite Ak, Ark. }
  assert (before ++ e :: after = rev restl ++ (pre ++ e :: post) ++ restr) as Hall.
  { rewrite Hbef, Hpost, <- !app_assoc. done. }
  assert (forall c p, shows (pre ++ e :: post) c p <-> inside c r /\ attr new c = p) as Hsh.
  { intros c p. rewrite shows_middle.
    rewrite Hshl, Hshr, Han, Hal. unfold inside, r. cbn. destruct (Z.lt_ge_cases c (fst (fst e))); intuition lia. }
  assert (first ∈ pre ++ e :: post /\ last ∈ pre ++ e :: post) as [Hin1 Hin2].
  { split; apply elem_of_app; [|by right]. apply elem_of_app in Hinl as [Hin| ->%list_elem_of_singleton]; [by left|right; left]. }
  assert (wf_mem (rev restl ++ (r, new) :: restr)) as Hwn.
  { rewrite Hall in Hw. by apply (replace_run_wf _ _ _ first last new Hw). }
  rewrite (insert_mid _ _ _ _ Hwn). split_and!; [done| | |].
  - rewrite Hall in Hm. apply unmonitored_app in Hm as [M1 M2]. apply unmonitored_app in M2 as [_ M2].
    apply unmonitored_app. split; [done|by constructor].
  - intros c p. rewrite Hall, !(shows_app (rev restl)), (shows_app (pre ++ e :: post)), Hsh, shows_cons. done.
  - intros Hp. rewrite Hall in Hp. unfold plain in Hp |- *. apply Forall_app in Hp as [P1 P2].
    apply Forall_app in P2 as [P2 P3]. apply Forall_app. split; [done|]. constructor; [|done].
    by destruct (plain_in _ first P2 Hin1) as (_ & H1 & H2).
Qed.

(** ** Mapping *)

(** An unmapped range has a place among the entries. *)
Lemma gap_split l (r : MemoryRange) m :
  wf_mem l -> wf_entry (r, m) -> (forall c, inside c r -> ~ mapped l c) ->
  exists a b, l = a ++ b /\ wf_mem (a ++ (r, m) :: b).
Proof.
  intros Hw He Hgap. pose proof (we_size _ He) as Hsz. cbn in Hsz.
  destruct (lower_bound_split r l Hw Hsz) as (a & b & _ & -> & Ha & Hb). exists a, b. split; [done|].
  apply wf_mem_app in Hw as (Wa & Wb & Hab). apply wf_mem_mid. split_and!; try done.
  intros e Hin. pose proof (we_size _ (wf_in _ _ Wb Hin)). specialize (Hb e Hin). unfold before. cbn.
  destruct (Z.le_gt_cases (snd r) (fst (fst e))); [done|]. exfalso.
  apply (Hgap (Z.max (fst (fst e)) (fst r))); [unfold inside; lia|]. eexists. exists e.
  split_and!; [apply elem_of_app; by right|unfold inside; lia|done].
Qed.

Section Ops.
Context (read_mem : Z -> option Z) (local_munmap : Z -> Z -> bool).
Hypothesis munmap_works : forall p n, local_munmap p n = true.
Hypothesis by_page : forall a b, 0 <= a < 2 ^ 64 -> 0 <= b < 2 ^ 64 -> a / PAGE = b / PAGE ->
  read_mem a = None -> read_mem b = None.

(** The attributes of the map [l] except in [r], where they are those of [m]. *)
Definition shows_with (l : list entry) (r : MemoryRange) (m : Mapping) (c : Z) (p : attributes) : Prop :=
  (inside c r /\ attr m c = p) \/ (shows l c p /\ ~ inside c r).

Lemma map_and_coalesce_ok k rk emu stat local s :
  good_space s -> wf_km k -> wf_km rk -> range rk = range k -> kstart k < kend k ->
  (forall c, inside c (range k) -> ~ mapped (mem s) c) ->
  let m := new_mapping k rk emu stat local false in
  match map_and_coalesce read_mem k rk emu stat local false s with
  | (Ok _, s') => good_space s' /\ dont_fork s' = dont_fork s /\ vdso_start_addr s' = vdso_start_addr s /\
      brk_end s' = brk_end s /\ awatch s' = watch_after read_mem (kstart k) (kend k) (awatch s) /\
      (forall c p, shows (mem s') c p <-> shows_with (mem s) (range k) m c p) /\
      (plain (mem s) -> emu = None -> local = 0 -> plain (mem s'))
  | (Err w, _) => w = FailedAssert /\ ~ (plain (mem s) /\ emu = None /\ local = 0)
  end.
Proof.
  intros [Hw Hm Hv] Hk Hrk Hr Hlt Hgap m. unfold map_and_coalesce.
  assert (wf_entry (range k, m)) as He by (split; done).
  destruct (gap_split _ _ m Hw He Hgap) as (a & b & Hs & Hwn).
  rewrite (bind_ok (mret tt) _ s tt s eq_refl), (bind_ok (ask mem) _ s (mem s) s eq_refl). fold m.
  rewrite Hs, (insert_mid _ _ _ _ Hwn). unfold coalesce_around.
  rewrite Hs in Hm. apply unmonitored_app in Hm as [Ma Mb].
  pose proof (coalesce_at_ok a (range k, m) b Hwn) as Hc.
  assert (plain (a ++ b) -> emu = None -> local = 0 -> plain (a ++ (range k, m) :: b)) as Hpl.
  { intros Hp -> ->. unfold plain in *. apply Forall_app in Hp as [P1 P2]. apply Forall_app. split; [done|].
    by constructor. }
  assert (unmonitored (a ++ (range k, m) :: b)) as Hmn by (apply unmonitored_app; split; [done|by constructor]).
  specialize (Hc Hmn). unfold mbind, TM_bind. destruct (coalesce_at a (range k, m) b) as [l|w]; cbn [lift].
  2: { destruct Hc as [-> Hc]. split; [done|]. intros (H1 & H2 & H3). apply Hc. by apply Hpl. }
  destruct Hc as (Wl & Ml & Sl & Pl). unfold mret, TM_ret, change.
  rewrite (update_watch_ok read_mem by_page) by (done || lia). cbn. split_and!; try done.
  - split; cbn; [done|done|by apply watch_after_wf].
  - intros c p. rewrite (Sl c p), !shows_app, shows_cons. unfold shows_with. rewrite shows_app. cbn [fst snd].
    split; [|tauto]. intros [H|[H|H]]; [|tauto|]; right; (split; [tauto|]); intros Hin; apply (Hgap c Hin);
      exists p; rewrite Hs, shows_app; tauto.
  - intros H1 H2 H3. by apply Pl, Hpl.
Qed.

Lemma new_range_ok addr n : page_range addr n -> new_range addr n = Ok (addr, addr + n).
Proof.
  intros (H1 & H2 & H3 & _). unfold new_range. rewrite wrapu_small by lia.
  destruct (Z.leb_spec addr (addr + n)); [done|lia].
Qed.

Lemma good_set_dont_fork v s : good_space s -> good_space (set_dont_fork v s).
Proof. by intros [H1 H2 H3]. Qed.

Lemma map_memory_ok addr num_bytes prot flags off fsname device inode stat recorded emu local s :
  good_space s -> page_range addr (ceil_page_size num_bytes) -> off mod PAGE = 0 ->
  (forall rk, recorded = Some rk -> wf_km rk /\ range rk = (addr, addr + ceil_page_size num_bytes)) ->
  match map_memory read_mem local_munmap addr num_bytes prot flags off fsname device inode stat recorded emu local false s with
  | (Ok k, s') => good_space s' /\ wf_km k /\ range k = (addr, addr + ceil_page_size num_bytes) /\
      (forall c p, shows (mem s') c p <->
         shows_with (mem s) (range k) (new_mapping k (default k recorded) emu stat local false) c p) /\
      (plain (mem s) -> emu = None -> local = 0 -> plain (mem s'))
  | (Err w, _) => w = FailedAssert /\ ~ (plain (mem s) /\ emu = None /\ local = 0)
  end.
Proof.
  intros Hg Hr Ho Hrec. pose proof (page_range_end _ _ Hr) as [Hpe Hbe].
  pose proof Hr as (H1 & H2 & H3 & H4 & H5). unfold map_memory. set (n := ceil_page_size num_bytes) in *.
  rewrite (wrapu_small 64 (addr + n)) by lia.
  destruct (new_km_ok addr (addr + n) fsname device inode prot flags off) as [-> Hk]; try done; try lia.
  set (k := mkKernelMapping _ _ _ _ _ _ _) in *. cbn [lift]. rewrite (bind_ok (mret k) _ s k s eq_refl).
  destruct (Z.eqb_spec n 0); [lia|]. rewrite new_range_ok by done. cbn [lift].
  rewrite (bind_ok (mret _) _ s _ s eq_refl). erewrite (bind_ok (change _) _ s tt _) by done.
  set (s1 := set_dont_fork _ s).
  destruct (unmap_internal_ok local_munmap munmap_works read_mem by_page addr n s1 (good_set_dont_fork _ _ Hg) Hr)
    as (s2 & Hu & Hg2 & _ & _ & _ & _ & Hp2 & Hs2). rewrite (bind_ok _ _ _ _ _ Hu).
  set (rk := default k recorded).
  assert (wf_km rk /\ range rk = range k) as [Hrk Hrr].
  { unfold rk. destruct recorded as [x|]; [|done]. destruct (Hrec x eq_refl) as [Hx Hx2]; by cbn. }
  pose proof (map_and_coalesce_ok k rk emu stat local s2 Hg2 Hk Hrk Hrr) as Hmc. cbv zeta in Hmc.
  assert (kstart k < kend k) as Hlt by (unfold kstart, kend; cbn; lia). specialize (Hmc Hlt).
  assert (forall c, inside c (range k) -> ~ mapped (mem s2) c) as Hgap.
  { intros c Hc (p & Hp). apply Hs2 in Hp as [_ Hp]. unfold inside in Hc. cbn in Hc. lia. }
  specialize (Hmc Hgap). unfold mbind at 1. unfold TM_bind at 1.
  destruct (map_and_coalesce read_mem k rk emu stat local false s2) as [[u|w] s3].
  2: { destruct Hmc as [-> Hmc]. split; [done|]. intros (Q1 & Q2 & Q3). apply Hmc. split_and!; [by apply Hp2|done|done]. }
  destruct Hmc as (Hg3 & _ & _ & _ & _ & Hs3 & Hp3).
  assert (forall s4, good_space s4 -> mem s4 = mem s3 -> good_space s4 /\ wf_km k /\ range k = (addr, addr + n) /\
    (forall c p, shows (mem s4) c p <-> shows_with (mem s) (range k) (new_mapping k rk emu stat local false) c p) /\
    (plain (mem s) -> emu = None -> local = 0 -> plain (mem s4))) as Hfin.
  { intros s4 Hg4 Hm4. split_and!; try done; rewrite Hm4.
    - intros c p. rewrite Hs3. unfold shows_with. rewrite Hs2. unfold inside. cbn. tauto.
    - intros Q1 Q2 Q3. apply Hp3; [by apply Hp2|done|done]. }
  destruct (is_vdso rk); cbn; apply Hfin; try done. by destruct Hg3.
Qed.

(** C9.  `AddressSpace::map` of a page range replaces whatever was mapped there:
    afterwards each byte of the range shows the attributes of the new mapping,
    every other byte shows what it showed before, the map stays sorted, disjoint
    and page aligned after coalescing, and rr's assertions can only fail when
    emulated files or local mappings are involved. *)
Theorem map_memory_spec addr num_bytes prot flags off fsname device inode stat recorded emu local s :
  good_space s -> page_range addr (ceil_page_size num_bytes) -> off mod PAGE = 0 ->
  (forall rk, recorded = Some rk -> wf_km rk /\ range rk = (addr, addr + ceil_page_size num_bytes)) ->
  match map_memory read_mem local_munmap addr num_bytes prot flags off fsname device inode stat recorded emu local false s with
  | (Ok k, s') => good_space s' /\ wf_km k /\ range k = (addr, addr + ceil_page_size num_bytes) /\
      (forall c p, shows (mem s') c p <->
         shows_with (mem s) (range k) (new_mapping k (default k recorded) emu stat local false) c p) /\
      (plain (mem s) -> emu = None -> local = 0 -> plain (mem s'))
  | (Err w, _) => w = FailedAssert /\ ~ (plain (mem s) /\ emu = None /\ local = 0)
  end.
Proof. apply map_memory_ok. Qed.

(** C11.  `AddressSpace::unmap` removes the bytes of the range and only them:
    mappings that overlap it are split, the parts outside keep their attributes
    and file offsets, and the map stays well formed. *)
Theorem unmap_spec addr num_bytes s :
  good_space s -> page_range addr (ceil_page_size num_bytes) ->
  exists s', unmap read_mem local_munmap addr num_bytes s = (Ok tt, s') /\ good_space s' /\
    (plain (mem s) -> plain (mem s')) /\
    forall c p, shows (mem s') c p <-> shows (mem s) c p /\ ~ addr <= c < addr + ceil_page_size num_bytes.
Proof.
  intros Hg Hr. pose proof Hr as (H1 & H2 & _). unfold unmap.
  destruct (Z.eqb_spec (ceil_page_size num_bytes) 0); [lia|]. rewrite new_range_ok by done. cbn [lift].
  rewrite (bind_ok (mret _) _ s _ s eq_refl). erewrite (bind_ok (change _) _ s tt _) by done.
  destruct (unmap_internal_ok local_munmap munmap_works read_mem by_page addr _ _ (good_set_dont_fork
    (remove_range (addr, addr + ceil_page_size num_bytes) (dont_fork s)) s Hg) Hr) as (s2 & Hu & Hg2 & _ & _ & _ & _ & Hp2 & Hs2).
  exists s2. by split_and!.
Qed.

End Ops.

(** ** Protection *)

Definition PROT_MASK : Z := Z.lor PROT_READ (Z.lor PROT_WRITE PROT_EXEC).

(** The same attributes with another protection. *)
Definition reprot (p : Z) (x : attributes) : attributes :=
  let '(k, r, e, f) := x in (reprot_k p k, reprot_k p r, e, f).

(** The attributes of the map [l], with protection [p] from [lo] to [hi]. *)
Definition shows_reprot (l : list entry) (lo hi p c : Z) (q : attributes) : Prop :=
  (lo <= c < hi /\ exists q0, shows l c q0 /\ q = reprot p q0) \/ (~ lo <= c < hi /\ shows l c q).

(** The overlap of [protector]. *)
Lemma overlap_ok (m : Mapping) (r : MemoryRange) lo hi p :
  wf_entry (r, m) -> fst r <= lo < hi -> hi <= snd r -> lo mod PAGE = 0 -> hi mod PAGE = 0 ->
  exists k1 k r1 rk, subrange lo hi (kmap m) = Ok k1 /\ set_prot p k1 = Ok k /\
    subrange lo hi (recorded_map m) = Ok r1 /\ set_prot p r1 = Ok rk /\ range k = (lo, hi) /\
    let o := with_flags (mflags m) (new_mapping k rk (emu_file m) (mapped_file_stat m) (local_part m lo) false) in
    wf_entry ((lo, hi), o) /\ (forall c, attr o c = reprot p (attr m c)) /\ (plain [(r, m)] -> plain [((lo, hi), o)]).
Proof.
  intros He Hlo Hhi Hpl Hph. pose proof (we_key _ He) as Hk. pose proof (we_recorded _ He) as Hr. cbn [fst snd] in Hk, Hr.
  destruct (subrange_ok (kmap m) lo hi (we_km _ He)) as (k1 & E1 & W1 & R1 & A1);
    [unfold kstart; rewrite <- Hk; lia|unfold kend; rewrite <- Hk; lia|done..|].
  destruct (subrange_ok (recorded_map m) lo hi (we_rkm _ He)) as (r1 & E2 & W2 & R2 & A2);
    [unfold kstart; rewrite Hr, <- Hk; lia|unfold kend; rewrite Hr, <- Hk; lia|done..|].
  destruct (set_prot_ok k1 p W1) as (k & E3 & W3 & R3 & A3). destruct (set_prot_ok r1 p W2) as (rk & E4 & W4 & R4 & A4).
  assert (range k = (lo, hi) /\ range rk = (lo, hi)) as [Rk Rrk] by (split; congruence).
  exists k1, k, r1, rk. split_and!; try done; cbv zeta; split_and!.
  - split; cbn; try done; [by rewrite Rrk, Rk|lia].
  - intros c. unfold attr, reprot. cbn. by rewrite A3, A4, A1, A2.
  - intros (H1 & H2 & H3)%plain_one. constructor; [|constructor]. cbn in *. split_and!; [done| |done].
    unfold local_part. by rewrite H2.
Qed.

(** The change is to extend to the start of the first mapping. *)
Definition grows_down (p : Z) : bool := nz (Z.land p PROT_GROWSDOWN).

Lemma protector_ok p o0 m r x y s a b :
  mem s = a ++ (r, m) :: b -> wf_mem (a ++ (r, m) :: b) -> monitored m = false ->
  fst r <= x < snd r -> x < y -> x mod PAGE = 0 -> y mod PAGE = 0 ->
  let lo := if grows_down p then fst r else x in let hi := Z.min y (snd r) in
  exists mid s', protector p o0 m (x, y) s = (Ok (lo, hi), s') /\ mem s' = a ++ mid ++ b /\ same_rest s s' /\
    wf_mem mid /\ unmonitored mid /\ (plain [(r, m)] -> plain mid) /\ (exists m', ((lo, hi), m') ∈ mid) /\
    (forall e : entry, e ∈ mid -> fst r <= fst (fst e) /\ snd (fst e) <= snd r) /\
    forall c q, shows mid c q <-> shows_reprot [(r, m)] lo y (Z.land p PROT_MASK) c q.
Proof.
  intros Hs Hw Hmon Hx Hxy Hpx Hpy lo hi. assert (wf_entry (r, m)) as He by (apply wf_mem_mid in Hw; apply Hw).
  assert (kstart (recorded_map m) = kstart (kmap m)) as Hrs by (unfold kstart; f_equal; apply (we_recorded _ He)).
  destruct (wf_end _ He) as (_ & Hre & Hrs0). cbn in Hre, Hrs0.
  assert (fst r <= lo <= x /\ lo mod PAGE = 0) as [Hlo Hpl] by (unfold lo; destruct (grows_down p); split; lia || done).
  assert (hi mod PAGE = 0) as Hph by (unfold hi; destruct (Z.min_spec y (snd r)) as [[_ ->]|[_ ->]]; done).
  destruct (remove_from_map_ok s a r m b Hs Hw) as (s1 & Hrm & Hm1 & Hsr1 & _).
  destruct (underflow_ok m r lo s1 a b He Hmon Hm1 Hw Hpl ltac:(lia)) as (u & s2 & Hu & Hm2 & Hsr2 & _ & Wu & Mu & Pu & Iu & Su).
  destruct (overlap_ok m r lo hi (Z.land p PROT_MASK) He) as (k1 & k & r1 & rk & E1 & E2 & E3 & E4 & Rk & Wo & Ao & Po);
    [unfold hi; lia|unfold hi; lia|done..|]. set (o := with_flags _ _) in *.
  assert (wf_mem (u ++ [((lo, hi), o)])) as Wuo.
  { apply wf_mem_app. split_and!; [done|by apply wf_mem_one|]. intros e e' Hin ->%list_elem_of_singleton.
    specialize (Iu e Hin). unfold before. cbn. lia. }
  assert (forall e : entry, e ∈ u ++ [((lo, hi), o)] -> fst r <= fst (fst e) /\ snd (fst e) <= hi) as Iuo.
  { intros e [Hin| ->%list_elem_of_singleton]%elem_of_app; [specialize (Iu e Hin)|cbn]; unfold hi; lia. }
  assert (wf_mem (a ++ (u ++ [((lo, hi), o)]) ++ b)) as Hw3.
  { apply (wf_mem_replace a (r, m) b _ Hw Wuo). intros e Hin. specialize (Iuo e Hin). cbn. unfold hi in *. lia. }
  rewrite app_assoc in Hm2.
  destruct (add_to_map_ok o s2 (a ++ u) b Hm2) as (s3 & Hadd & Hm3 & Hsr3 & _).
  { cbn [kmap o with_flags new_mapping]. rewrite Rk. by rewrite <- !app_assoc in Hw3 |- *. }
  cbn [kmap o with_flags new_mapping] in Hm3. rewrite Rk in Hm3.
  assert (mem s3 = (a ++ u ++ [((lo, hi), o)]) ++ b) as Hm3' by (rewrite Hm3, <- !app_assoc; done).
  rewrite app_assoc in Hw3.
  pose proof (proj1 (wf_mem_mid a (r, m) b) Hw) as (Ha & _ & Hb & Hab & Hbb & Hord).
  destruct (overflow_ok m r y s3 (a ++ u ++ [((lo, hi), o)]) b He Hmon Hm3') as (v & s4 & Hv & Hm4 & Hsr4 & _ & Wv & Mv & Pv & Iv & Sv);
    try done; try lia.
  { intros e [Hin|Hin]%elem_of_app; [specialize (Hab e Hin); unfold before in Hab; cbn in Hab; lia|].
    specialize (Iuo e Hin). unfold hi in *. lia. }
  exists ((u ++ [((lo, hi), o)]) ++ v), s4. split_and!.
  - unfold protector. cbn [fst snd]. rewrite (bind_ok _ _ _ _ _ Hrm).
    assert (kstart (kmap m) = fst r) as Hks by (unfold kstart; f_equal; symmetry; apply (we_key _ He)).
    assert ((if (kstart (kmap m) <? x) && nz (Z.land p PROT_GROWSDOWN) then kstart (kmap m) else x) = lo) as ->.
    { rewrite Hks. unfold lo, grows_down. destruct (Z.ltb_spec (fst r) x), (nz _); cbn; lia. }
    rewrite Hrs. assert ((if kstart (kmap m) <? lo then underflow m (kstart (kmap m)) x else mret tt) s1 = (Ok tt, s2)) as Hu'.
    { rewrite <- Hu. unfold lo. destruct (grows_down p); [|done]. by rewrite Hks, Z.ltb_irrefl. }
    rewrite (bind_ok _ _ _ _ _ Hu'). assert (kend (kmap m) = snd r) as Hke by (unfold kend; f_equal; symmetry; apply (we_key _ He)).
    rewrite Hke. rewrite Hke in Hv. fold hi PROT_MASK. rewrite E1. cbn [lift]. rewrite (bind_ok (mret k1) _ s2 k1 s2 eq_refl), E2. cbn [lift].
    rewrite (bind_ok (mret k) _ s2 k s2 eq_refl), E3. cbn [lift]. rewrite (bind_ok (mret r1) _ s2 r1 s2 eq_refl), E4. cbn [lift].
    rewrite (bind_ok (mret rk) _ s2 rk s2 eq_refl). unfold monitored_subrange. rewrite Hmon.
    rewrite (bind_ok (mret false) _ s2 false s2 eq_refl). fold o. rewrite (bind_ok _ _ _ _ _ Hadd), (bind_ok _ _ _ _ _ Hv).
    by rewrite Rk.
  - rewrite Hm4, <- !app_assoc. done.
  - eapply same_rest_trans; [exact Hsr1|]. eapply same_rest_trans; [exact Hsr2|]. by eapply same_rest_trans.
  - apply wf_mem_app. split_and!; [done|done|]. intros e e' Hin Hin'. specialize (Iuo e Hin). specialize (Iv e' Hin').
    unfold before, hi in *. lia.
  - apply unmonitored_app. split; [apply unmonitored_app; split; [done|by constructor]|done].
  - intros Hp. apply Forall_app. split; [apply Forall_app; split; [by apply Pu|by apply Po]|by apply Pv].
  - exists o. rewrite !elem_of_app. left. right. left.
  - intros e [Hin|Hin]%elem_of_app; [specialize (Iuo e Hin)|specialize (Iv e Hin)]; unfold hi in *; lia.
  - intros c q. rewrite !shows_app, Su, Sv, shows_cons, shows_nil. cbn [fst snd]. rewrite Ao. unfold shows_reprot.
    rewrite shows_cons, shows_nil. setoid_rewrite shows_cons. setoid_rewrite shows_nil. unfold inside, hi. cbn [fst snd].
    split.
    + intros [[H|[H|[]]]|H]; [right|left|right].
      * split; [lia|left; intuition].
      * split; [lia|]. exists (attr m c). split; [left; split; [lia|done]|by destruct H].
      * split; [lia|left; intuition].
    + intros [(H1 & q0 & [[H2 <-]|[]] & ->)|(H1 & [[H2 <-]|[]])].
      * left. right. left. split; [lia|done].
      * destruct (Z.lt_ge_cases c lo); [left; left; split_and!; lia || done|right; split_and!; lia || done].
Qed.

Lemma shows_reprot_empty l lo hi p c q : hi <= lo -> shows_reprot l lo hi p c q <-> shows l c q.
Proof. intros H. unfold shows_reprot. split; [intros [[H1 _]|[_ H1]]; [lia|done]|intros H1; right; split; [lia|done]]. Qed.

(** Protecting [r] up to its end and what follows it from there. *)
Lemma shows_reprot_step (e : entry) b last rend hi p c q :
  fst (fst e) <= last < snd (fst e) -> (forall x : entry, x ∈ b -> snd (fst e) <= fst (fst x)) ->
  (snd (fst e) < rend -> snd (fst e) <= hi <= rend) -> last < rend ->
  shows_reprot [e] last rend p c q \/ shows_reprot b (snd (fst e)) (if snd (fst e) <? rend then hi else snd (fst e)) p c q <->
  shows_reprot (e :: b) last (if snd (fst e) <? rend then hi else rend) p c q.
Proof.
  intros He Hb Hhi Hl.
  assert (forall c q, shows b c q -> snd (fst e) <= c) as Hsb.
  { intros c' q' (x & Hin & Hc & _). specialize (Hb x Hin). unfold inside in Hc. lia. }
  unfold shows_reprot. setoid_rewrite shows_cons. setoid_rewrite shows_nil. unfold inside.
  destruct (Z.ltb_spec (snd (fst e)) rend) as [Hlt|Hge].
  - specialize (Hhi Hlt). split.
    + intros [[(H1 & q0 & [H2|[]] & H3)|(H1 & [H2|[]])]|[(H1 & q0 & H2 & H3)|(H1 & H2)]].
      * left. split; [lia|]. exists q0. auto.
      * right. split; [lia|auto].
      * left. split; [lia|]. exists q0. auto.
      * right. apply Hsb in H2 as H4. split; [lia|auto].
    + intros [(H1 & q0 & [H2|H2] & H3)|(H1 & [H2|H2])].
      * left. left. split; [lia|]. exists q0. auto.
      * right. left. apply Hsb in H2 as H4. split; [lia|]. exists q0. auto.
      * left. right. split; [lia|auto].
      * right. right. apply Hsb in H2 as H4. split; [lia|auto].
  - split.
    + intros [[(H1 & q0 & [H2|[]] & H3)|(H1 & [H2|[]])]|[(H1 & _)|(H1 & H2)]].
      * left. split; [lia|]. exists q0. auto.
      * right. split; [lia|auto].
      * lia.
      * right. apply Hsb in H2 as H4. split; [lia|auto].
    + intros [(H1 & q0 & [H2|H2] & H3)|(H1 & [H2|H2])].
      * left. left. split; [lia|]. exists q0. auto.
      * apply Hsb in H2. lia.
      * left. right. split; [lia|auto].
      * right. right. split; [lia|done].
Qed.

(** What the loop of [protect] has done when it ends, started at [last] with the entries [a] before
    that point and [b] after it: the mapped bytes up to the first gap have the new protection, and with PROT_GROWSDOWN
    those of the first mapping before [last] as well. *)
Definition grown (p : Z) (l : list entry) (last lo hi : Z) : Prop :=
  if grows_down p && (last <? hi) then exists e : entry, e ∈ l /\ inside last (fst e) /\ lo = fst (fst e) else lo = last.

Definition protected (p rend last : Z) (a b : list entry) (o : MemoryRange) (s : astate)
    (out : result MemoryRange * astate) : Prop :=
  exists lo hi l' o' s', grown p b last lo hi /\ out = (Ok o', s') /\ mem s' = a ++ l' /\ wf_mem (a ++ l') /\ unmonitored l' /\ same_rest s s' /\
    (plain b -> plain l') /\ last <= hi <= Z.max last rend /\ lo <= last /\ (forall c, lo <= c < hi -> mapped b c) /\
    (hi < rend -> ~ mapped b hi) /\ (hi = last -> o' = o) /\ (last < hi -> exists m', (o', m') ∈ l') /\
    forall c q, shows l' c q <-> shows_reprot b lo hi (Z.land p PROT_MASK) c q.

Lemma protected_stop p rend last a b o s :
  mem s = a ++ b -> wf_mem (a ++ b) -> unmonitored b -> (last < rend -> ~ mapped b last) ->
  protected p rend last a b o s (Ok o, s).
Proof.
  intros Hs Hw Hm Hn. exists last, last, b, o, s. split_and!; try done; try lia.
  { unfold grown. by rewrite Z.ltb_irrefl, andb_false_r. }
  intros c q. by rewrite shows_reprot_empty.
Qed.

(** One round, and the rest of the loop. *)
Lemma protected_step p rend last a (e : entry) b mid o s s1 out : let lo := if grows_down p then fst (fst e) else last in
  wf_entry e -> fst (fst e) <= last < snd (fst e) -> last < rend -> wf_mem b ->
  (forall x : entry, x ∈ b -> snd (fst e) <= fst (fst x)) -> unmonitored mid -> same_rest s s1 ->
  (plain [e] -> plain mid) -> (exists m', ((lo, Z.min rend (snd (fst e))), m') ∈ mid) ->
  (forall c q, shows mid c q <-> shows_reprot [e] lo rend (Z.land p PROT_MASK) c q) ->
  protected p rend (snd (fst e)) (a ++ mid) b (lo, Z.min rend (snd (fst e))) s1 out ->
  protected p rend last a (e :: b) o s out.
Proof.
  intros lo He Hl Hlt Wb Hbr Mm Hsr1 Pm Om Sm (lo' & hi & l' & o' & s2 & G2 & -> & Hm2 & Hw2 & M2 & Hsr2 & P2 & B2 & L2 & C2 & N2 & O2 & O3 & S2).
  assert (fst (fst e) <= lo <= last) as Hlo by (unfold lo; destruct (grows_down p); lia).
  assert (lo' = snd (fst e)) as ->.
  { unfold grown in G2. destruct (_ && _); [|done]. destruct G2 as (x & Hx & Hi & ->). specialize (Hbr x Hx). lia. }
  exists lo, (if snd (fst e) <? rend then hi else rend), (mid ++ l'), o', s2. rewrite <- app_assoc in Hm2, Hw2.
  assert (hi = (if snd (fst e) <? rend then hi else snd (fst e))) as Hhi by (destruct (Z.ltb_spec (snd (fst e)) rend); lia).
  split_and!; try done; try (destruct (Z.ltb_spec (snd (fst e)) rend); lia).
  - unfold grown. rewrite (proj2 (Z.ltb_lt last _)) by (destruct (Z.ltb_spec (snd (fst e)) rend); lia). rewrite andb_true_r.
    unfold lo. destruct (grows_down p); [|done]. exists e. split_and!; [left|unfold inside; lia|done].
  - by apply unmonitored_app.
  - by eapply same_rest_trans.
  - intros Hp. apply Forall_cons_1 in Hp as [Hp Hp']. apply Forall_app. split; [apply Pm; by constructor|by apply P2].
  - intros c Hcc. destruct (Z.lt_ge_cases c (snd (fst e))) as [Hin2|Hin2].
    { exists (attr (snd e) c). apply shows_cons. left. split; [unfold inside; lia|done]. }
    destruct (Z.ltb_spec (snd (fst e)) rend); [|lia].
    destruct (C2 c ltac:(lia)) as (q & Hq). exists q. apply shows_cons. by right.
  - destruct (Z.ltb_spec (snd (fst e)) rend); [|lia]. intros H3 (q & Hq). apply shows_cons in Hq as [[Hq _]|Hq].
    { unfold inside in Hq. lia. } apply (N2 H3). by exists q.
  - intros _. destruct (Z.eq_dec hi (snd (fst e))) as [Heq|Hne].
    { rewrite (O2 Heq). destruct Om as (m' & Hm'). exists m'. apply elem_of_app. by left. }
    destruct (O3 ltac:(lia)) as (m' & Hm'). exists m'. apply elem_of_app. by right.
  - intros c q. rewrite shows_app, Sm, S2. rewrite Hhi at 1.
    apply (shows_reprot_step e b lo rend hi); [lia|done|lia|lia].
Qed.

(** The loop of [protect], from [last] on. *)
Lemma protect_loop p rstart rend b : rend mod PAGE = 0 ->
  forall a last fuel o s,
  mem s = a ++ b -> wf_mem (a ++ b) -> unmonitored b -> (length b < fuel)%nat -> rstart <= last ->
  (forall e : entry, e ∈ a -> snd (fst e) <= last) -> (forall e : entry, e ∈ b -> last < snd (fst e)) ->
  (forall e : entry, e ∈ b -> fst (fst e) < rstart \/ last <= fst (fst e)) -> last mod PAGE = 0 ->
  protected p rend last a b o s (each_from true rstart rend (protector p) fuel last o s).
Proof.
  intros Hpe. induction b as [|[r m] b IH]; intros a last fuel o s Hs Hw Hmon Hf Hst Ha Hb Hc Hpl;
    (destruct fuel as [|fuel]; [cbn in Hf; lia|]); cbn [each_from];
    (destruct (Z.ltb_spec last rend) as [Hlt|Hge]; [|apply protected_stop; try done; lia]);
    rewrite (bind_ok (ask mem) _ s (mem s) s eq_refl), Hs.
  - rewrite (lower_bound_mid (last, rend) a []) by done. apply protected_stop; try done.
    intros _ (q & Hq). by apply shows_nil in Hq.
  - rewrite (lower_bound_mid (last, rend) a ((r, m) :: b)) by done. cbn [snd].
    pose proof (proj1 (wf_mem_mid a (r, m) b) Hw) as (Wa & He & Wb & Hab & Hbb & Hord).
    pose proof (Hb (r, m) ltac:(left)) as Hlr. pose proof (we_size _ He) as Hsz. pose proof (Hc (r, m) ltac:(left)) as Hcr.
    cbn in Hlr, Hsz, Hcr.
    assert (forall e : entry, e ∈ b -> snd r <= fst (fst e) < snd (fst e)) as Hbr.
    { intros e Hine. specialize (Hbb e Hine). pose proof (we_size _ (wf_in _ _ Wb Hine)). unfold before in Hbb. cbn in Hbb. lia. }
    assert (last < fst r -> ~ mapped ((r, m) :: b) last) as Hgap.
    { intros Hl (q & (e & Hin & Hi & _)). unfold inside in Hi.
      apply elem_of_cons in Hin as [->|Hin]; [cbn in Hi; lia|]. specialize (Hbr e Hin). lia. }
    destruct (Z.leb_spec rend (fst r)) as [Hout|Hin]; [apply protected_stop; try done; intros _; apply Hgap; lia|].
    destruct (true && negb _) eqn:Hdis; cbn [andb] in Hdis.
    { apply protected_stop; try done. intros _. apply Hgap. apply negb_true_iff, orb_false_iff in Hdis as [D1 D2].
      apply Z.ltb_ge in D1. apply Z.eqb_neq in D2. lia. }
    apply negb_false_iff, orb_true_iff in Hdis.
    assert (fst r <= last) as Hle by (destruct Hdis as [D%Z.ltb_lt|D%Z.eqb_eq]; lia). clear Hdis.
    apply Forall_cons_1 in Hmon as [Hm Hmon]. cbn in Hm.
    destruct (protector_ok p o m r last rend s a b Hs Hw Hm ltac:(lia) Hlt Hpl Hpe)
      as (mid & s1 & Hpr & Hm1 & Hsr1 & Wm & Mm & Pm & Om & Im & Sm).
    rewrite (bind_ok _ _ _ _ _ Hpr). rewrite app_assoc in Hm1.
    assert (wf_mem ((a ++ mid) ++ b)) as Hw1.
    { rewrite <- app_assoc. apply (wf_mem_replace a (r, m) b mid Hw Wm). intros e Hine. specialize (Im e Hine). cbn. lia. }
    apply (protected_step p rend last a (r, m) b mid o s s1); try done.
    cbn [fst snd]. apply IH; try done; try lia.
    + cbn in Hf. lia.
    + intros e [Hine|Hine]%elem_of_app; [specialize (Ha e Hine)|specialize (Im e Hine)]; lia.
    + intros e Hine. specialize (Hbr e Hine). lia.
    + intros e Hine. specialize (Hbr e Hine). lia.
    + apply (wf_end _ He).
Qed.

(** [coalesce_around(t, mem.find(r))] for the key of an entry. *)
Lemma coalesce_found_ok (r : MemoryRange) m s :
  wf_mem (mem s) -> unmonitored (mem s) -> (r, m) ∈ mem s ->
  match coalesce_found r s with
  | (Ok _, s') => wf_mem (mem s') /\ unmonitored (mem s') /\ same_map (mem s) (mem s') /\ same_rest s s' /\
      (plain (mem s) -> plain (mem s'))
  | (Err w, _) => w = FailedAssert /\ ~ plain (mem s)
  end.
Proof.
  intros Hw Hm Hin. apply list_elem_of_split in Hin as (a & b & Hs). rewrite Hs in Hw, Hm.
  pose proof (proj1 (wf_mem_mid a (r, m) b) Hw) as (Wa & He & Wb & Hab & Hbb & _).
  pose proof (we_size _ He) as Hsz. cbn in Hsz. unfold coalesce_found.
  rewrite (bind_ok (ask mem) _ s (mem s) s eq_refl), Hs, (lower_bound_mid r a ((r, m) :: b)); try done.
  2: { intros e [->|Hin]%elem_of_cons; [done|]. specialize (Hbb e Hin). pose proof (we_size _ (wf_in _ _ Wb Hin)).
       unfold before in Hbb. cbn in Hbb. lia. }
  cbn [fst]. assert (less r r = false) as ->. { unfold less. by rewrite Z.ltb_irrefl, andb_false_r. }
  unfold coalesce_around, mbind, TM_bind. pose proof (coalesce_at_ok a (r, m) b Hw Hm) as Hc.
  destruct (coalesce_at a (r, m) b) as [l|w]; cbn; [|done]. by destruct Hc as (? & ? & ? & ?).
Qed.

Lemma ceil_page_size_ok x : 0 <= x -> x + PAGE <= 2 ^ 64 -> ceil_page_size x mod PAGE = 0 /\ x <= ceil_page_size x < x + PAGE.
Proof.
  intros H0 Hb. unfold PAGE in *. set (y := x + 4096 - 1).
  assert (ceil_page_size x = y - y mod 4096) as ->.
  { unfold ceil_page_size, PAGE. rewrite wrapu_small by lia. exact (land_mask y 12 ltac:(lia) ltac:(lia)). }
  pose proof (Z.mod_pos_bound y 4096 ltac:(lia)). split; [|lia].
  pose proof (Z.div_mod y 4096 ltac:(lia)). replace (y - y mod 4096) with (y / 4096 * 4096) by lia. apply Z.mod_mul. lia.
Qed.

Lemma mapped_app l l' c : mapped (l ++ l') c <-> mapped l c \/ mapped l' c.
Proof.
  unfold mapped. setoid_rewrite shows_app. split.
  - intros (q & [H|H]); [left|right]; by exists q.
  - intros [(q & H)|(q & H)]; exists q; auto.
Qed.

Lemma shows_reprot_prefix a b lo hi p c q :
  (forall c, mapped a c -> c < lo) ->
  shows a c q \/ shows_reprot b lo hi p c q <-> shows_reprot (a ++ b) lo hi p c q.
Proof.
  intros Hac. unfold shows_reprot. setoid_rewrite shows_app. split.
  - intros [H|[(H1 & q0 & H2 & H3)|(H1 & H2)]].
    + right. assert (c < lo) by (apply Hac; by exists q). split; [lia|auto].
    + left. split; [done|]. exists q0. auto.
    + right. auto.
  - intros [(H1 & q0 & [H2|H2] & H3)|(H1 & [H2|H2])]; [|right; left; eauto|by left|right; right; auto].
    assert (c < lo) by (apply Hac; by exists q0). lia.
Qed.

(** C16.  `AddressSpace::protect` gives the new protection to the bytes from the
    start of the range to its end or to the first hole, as the kernel does, and
    to no other; with PROT_GROWSDOWN, and if the start is mapped, the change
    begins at the start of the mapping that has it (which the code does for any
    mapping, not only a stack).  Splitting and coalescing lose nothing, and an
    assertion can fail only if some mapping is not plain: mapped into rr as
    well, or backed by an emulated file.  The start is page-aligned, as the
    kernel demands of mprotect, the range ends at least a page below 2^64, and
    no mapping is monitored shared memory. *)
Theorem protect_spec addr num_bytes p s :
  good_space s -> 0 <= addr -> 0 <= num_bytes -> addr + num_bytes + PAGE <= 2 ^ 64 -> addr mod PAGE = 0 ->
  let rend := ceil_page_size (addr + num_bytes) in
  match protect addr num_bytes p s with
  | (Ok _, s') => good_space s' /\ (plain (mem s) -> plain (mem s')) /\
      exists lo hi, grown p (mem s) addr lo hi /\ addr <= hi <= rend /\ (forall c, lo <= c < hi -> mapped (mem s) c) /\
        (hi < rend -> ~ mapped (mem s) hi) /\
        forall c q, shows (mem s') c q <-> shows_reprot (mem s) lo hi (Z.land p PROT_MASK) c q
  | (Err w, _) => w = FailedAssert /\ ~ plain (mem s)
  end.
Proof.
  intros [Hw Hm Hv] H0 Hn Hb Hpa rend.
  destruct (ceil_page_size_ok (addr + num_bytes) ltac:(lia) Hb) as [Hpe Hre]. fold rend in Hpe, Hre.
  unfold protect, for_each_in_range. unfold PAGE in Hb. rewrite (wrapu_small 64 (addr + num_bytes)) by lia.
  rewrite (floor_page_aligned addr) by (done || lia). fold rend.
  assert (exists a b, mem s = a ++ b /\ (forall e : entry, e ∈ a -> snd (fst e) <= addr) /\
    (forall e : entry, e ∈ b -> addr < snd (fst e))) as (a & b & Hs & Ha & Hbb).
  { destruct (lower_bound_split (addr, addr + 1) (mem s) Hw ltac:(cbn; lia)) as (a & b & _ & H1 & H2 & H3). by exists a, b. }
  rewrite Hs in Hw, Hm. apply unmonitored_app in Hm as [Ma Mb].
  assert (protected p rend addr a b (0, 0) s
    ((l ← ask mem; each_from true addr rend (protector p) (S (length l)) addr (0, 0)) s)) as Hl.
  { rewrite (bind_ok (ask mem) _ s (mem s) s eq_refl). apply protect_loop; try done; try lia.
    rewrite Hs, length_app. lia. }
  destruct Hl as (lo & hi & l' & o & s1 & Hg & Hl & Hm1 & Hw1 & M1 & Hsr & Hpl & Hhi & Hlo & Hmap & Hgap & Ho1 & Ho2 & Hsh).
  rewrite (bind_ok _ _ _ _ _ Hl).
  assert (forall c, mapped a c -> c < addr) as Hac.
  { intros c (q & e & Hin & Hi & _). specialize (Ha e Hin). unfold inside in Hi. lia. }
  assert (forall c, mapped (a ++ b) c <-> mapped a c \/ mapped b c) as Hmab.
  { intros c. apply mapped_app. }
  assert (forall c, mapped a c -> c < lo) as Hac'.
  { intros c Hc. unfold grown in Hg. destruct (_ && _); [|rewrite Hg; by apply Hac]. destruct Hg as (e & He & Hi & ->).
    destruct Hc as (q & x & Hin & Hx & _). apply wf_mem_app in Hw as (_ & _ & Hord). specialize (Hord x e Hin He).
    unfold before, inside in *. lia. }
  assert (grown p (mem s) addr lo hi) as Hg'.
  { unfold grown in *. destruct (_ && _); [|done]. destruct Hg as (e & He & Hi & ->). exists e. split_and!; try done.
    rewrite Hs. apply elem_of_app. by right. }
  assert (forall c q, shows (mem s1) c q <-> shows_reprot (a ++ b) lo hi (Z.land p PROT_MASK) c q) as Hsh1.
  { intros c q. rewrite Hm1, shows_app, Hsh. by apply shows_reprot_prefix. }
  assert (unmonitored (mem s1)) as Mm1 by (rewrite Hm1; by apply unmonitored_app).
  assert (plain (mem s) -> plain (mem s1)) as Pm1.
  { rewrite Hs, Hm1. intros Hp. apply Forall_app in Hp as [P1 P2]. apply Forall_app. split; [done|by apply Hpl]. }
  assert (addr <= hi <= rend /\ (forall c, lo <= c < hi -> mapped (mem s) c) /\ (hi < rend -> ~ mapped (mem s) hi)) as Hrest.
  { rewrite Hs. split_and!; [lia|lia| |].
    - intros c Hc. apply Hmab. right. by apply Hmap.
    - intros H1 [H2|H2]%Hmab; [apply Hac in H2; lia|by apply Hgap]. }
  destruct Hsr as (R1 & R2 & R3 & R4).
  destruct (Z.eq_dec hi addr) as [Heq|Hne].
  - rewrite (Ho1 Heq). cbn. split_and!; [split; [by rewrite Hm1|done|by rewrite R4]|done|]. exists lo, hi. rewrite Hs in *. tauto.
  - destruct (Ho2 ltac:(lia)) as (m' & Hin).
    assert ((o, m') ∈ mem s1) as Hin1 by (rewrite Hm1; apply elem_of_app; by right).
    assert (wf_mem (mem s1)) as Wm1 by by rewrite Hm1.
    pose proof (wf_in _ _ Wm1 Hin1) as Heo. pose proof (we_size _ Heo) as Hsz. pose proof (wf_end _ Heo) as Hoe.
    pose proof (wf_bounds _ (we_km _ Heo)) as Hbd. unfold kstart in Hbd. cbn [snd] in Hbd.
    pose proof (we_key _ Heo) as Hkey. cbn in Hkey, Hsz, Hoe. rewrite <- Hkey in Hbd.
    assert (rsize o = snd o - fst o) as -> by (apply wrapu_small; lia).
    destruct (Z.eqb_spec (snd o - fst o) 0); [lia|]. cbn [negb].
    pose proof (coalesce_found_ok o m' s1 Wm1 Mm1 Hin1) as Hc.
    destruct (coalesce_found o s1) as [[u|w] s2]; [|destruct Hc as [-> Hc]; split; [done|]; intros Hp; by apply Hc, Pm1].
    destruct Hc as (C1 & C2 & C3 & (Q1 & Q2 & Q3 & Q4) & C5). split_and!.
    + split; [done|done|by rewrite Q4, R4].
    + intros Hp. by apply C5, Pm1.
    + exists lo, hi. split_and!; try apply Hrest; [done|]. intros c q. rewrite (C3 c q), Hsh1, Hs. done.
Qed.

(** ** Moving *)

(** The mapping of a mapped byte. *)
Lemma mapping_of_ok l (r : MemoryRange) m a :
  wf_mem l -> (r, m) ∈ l -> inside a r -> 0 <= a -> mapping_of a l = Ok m.
Proof.
  intros Hw Hin Ha H0. apply list_elem_of_split in Hin as (x & y & ->).
  pose proof (proj1 (wf_mem_mid x (r, m) y) Hw) as (Wx & He & Wy & Hx & Hy & _).
  destruct (wf_end _ He) as (Hlt & Hpe & Hps). cbn in Hlt, Hpe, Hps. unfold inside in Ha.
  pose proof (wf_bounds _ (we_km _ He)) as Hbd. cbn [snd] in Hbd. unfold kstart in Hbd. pose proof (we_key _ He) as Hk. cbn in Hk.
  rewrite <- Hk in Hbd.
  assert (fst r <= floor_page_size a /\ floor_page_size a + 1 <= snd r) as [Hf1 Hf2].
  { rewrite floor_page_size_eq by lia. unfold PAGE in *. pose proof (Z.div_mod a 4096 ltac:(lia)).
    pose proof (Z.mod_pos_bound a 4096 ltac:(lia)). pose proof (Z.div_mod (fst r) 4096 ltac:(lia)).
    split; [|lia]. assert (fst r / 4096 <= a / 4096) by (apply Z.div_le_mono; lia). lia. }
  unfold mapping_of, mem_find, page_key. rewrite (lower_bound_mid _ x ((r, m) :: y)); cbn [fst snd]; try done; try lia.
  - assert (less (floor_page_size a, floor_page_size a + 1) r = false) as ->.
    { unfold less, intersects. cbn [fst snd]. destruct (Z.ltb_spec (floor_page_size a) (fst r)); [lia|by rewrite andb_false_r]. }
    unfold rcontains. cbn [fst snd]. rewrite <- Hk.
    destruct (Z.leb_spec (fst r) (floor_page_size a)); [|lia]. by destruct (Z.leb_spec (floor_page_size a + 1) (snd r)); [|lia].
  - intros e Hin. specialize (Hx e Hin). unfold before in Hx. cbn in Hx. lia.
  - intros e [->|Hin]%elem_of_cons; [cbn; lia|]. specialize (Hy e Hin). pose proof (we_size _ (wf_in _ _ Wy Hin)).
    unfold before in Hy. cbn in Hy. lia.
Qed.

(** What the bytes at [new] show after a move from [old]: the recorded mapping keeps its position from
    its start, which is that of [old] only when the move starts there. *)
Definition moved (m : Mapping) (old new c : Z) : attributes :=
  (kattr (kmap m) (c - new + old), kattr (recorded_map m) (c - new + kstart (recorded_map m)), emu_file m, 0).

Section Remap.
Context (read_mem : Z -> option Z) (local_munmap : Z -> Z -> bool).
Hypothesis munmap_works : forall p n, local_munmap p n = true.
Hypothesis by_page : forall a b, 0 <= a < 2 ^ 64 -> 0 <= b < 2 ^ 64 -> a / PAGE = b / PAGE ->
  read_mem a = None -> read_mem b = None.

(** `AddressSpace::remap` of pages of one mapping: the destination shows the
    moved mapping, the source and whatever the destination covered are gone,
    everything else is kept. *)
Theorem remap_spec old n_old new n_new (r : MemoryRange) m s :
  good_space s -> page_range old n_old -> page_range new n_new -> dont_fork s = [] ->
  (r, m) ∈ mem s -> fst r <= old -> old + n_old <= snd r ->
  match remap read_mem local_munmap old n_old new n_new s with
  | (Ok _, s') => good_space s' /\
      forall c p, shows (mem s') c p <->
        (new <= c < new + n_new /\ p = moved m old new c) \/
        (shows (mem s) c p /\ ~ old <= c < old + n_old /\ ~ new <= c < new + n_new)
  | (Err w, _) => w = FailedAssert /\ ~ plain (mem s)
  end.
Proof.
  intros Hg Ho Hn Hdf Hin Hro Hre. pose proof (page_range_end _ _ Ho) as [Hpo Hbo]. pose proof (page_range_end _ _ Hn) as [Hpn Hbn].
  pose proof Ho as (O1 & O2 & O3 & O4 & O5). pose proof Hn as (N1 & N2 & N3 & N4 & N5).
  assert (monitored m = false) as Hmon.
  { pose proof (gs_unmonitored _ Hg) as Hu. unfold unmonitored in Hu. rewrite Forall_forall in Hu.
    apply list_elem_of_In in Hin. exact (Hu _ Hin). }
  pose proof (wf_in _ _ (gs_mem _ Hg) Hin) as He. pose proof (we_key _ He) as Hk. pose proof (we_recorded _ He) as Hr.
  cbn [fst snd] in Hk, Hr. unfold remap.
  rewrite !(ceil_page_aligned n_old), !(ceil_page_aligned n_new) by (done || unfold PAGE in *; lia).
  rewrite (bind_ok (ask mem) _ s (mem s) s eq_refl).
  rewrite (mapping_of_ok _ r m old (gs_mem _ Hg) Hin) by (unfold inside; lia). cbn [lift].
  rewrite (bind_ok (mret m) _ s m s eq_refl), Hmon. cbn [negb ASSERT]. rewrite (bind_ok (mret tt) _ s tt s eq_refl).
  rewrite (wrapu_small 64 (old + n_old)) by lia.
  assert (kend (kmap m) = snd r /\ kstart (kmap m) = fst r) as [Hke Hks] by (unfold kend, kstart; rewrite <- Hk; done).
  rewrite Hke, Z.min_r by lia.
  destruct (subrange_ok (kmap m) old (old + n_old) (we_km _ He)) as (km & Ekm & Wkm & Rkm & Akm); [lia|lia|done|done|].
  rewrite Ekm. cbn [lift]. rewrite (bind_ok (mret km) _ s km s eq_refl).
  destruct (unmap_internal_ok local_munmap munmap_works read_mem by_page old n_old s Hg Ho)
    as (s1 & Hu1 & Hg1 & Hd1 & _ & _ & _ & Hp1 & Hs1). rewrite (bind_ok _ _ _ _ _ Hu1).
  destruct (Z.eqb_spec n_new 0); [lia|]. rewrite !new_range_ok by done. cbn [lift].
  rewrite (bind_ok (mret (old, old + n_old)) _ s1 _ s1 eq_refl), (bind_ok (mret (new, new + n_new)) _ s1 _ s1 eq_refl).
  rewrite (bind_ok (ask dont_fork) _ s1 (dont_fork s1) s1 eq_refl), Hd1, Hdf. cbn [span snd].
  erewrite (bind_ok (change _) _ s1 tt _) by done. set (s2 := set_dont_fork _ s1).
  destruct (unmap_internal_ok local_munmap munmap_works read_mem by_page new n_new s2 (good_set_dont_fork _ _ Hg1) Hn)
    as (s3 & Hu3 & Hg3 & _ & _ & _ & _ & Hp3 & Hs3). rewrite (bind_ok _ _ _ _ _ Hu3).
  rewrite (wrapu_small 64 (new + n_new)) by lia.
  destruct (set_range_ok km new (new + n_new) Wkm) as (k & Ek & Wk & Rk & Ak); [lia|done..|].
  destruct (set_range_ok (recorded_map m) new (new + n_new) (we_rkm _ He)) as (rk & Erk & Wrk & Rrk & Ark); [lia|done..|].
  rewrite Ek, Erk. cbn [lift]. rewrite (bind_ok (mret k) _ s3 k s3 eq_refl), (bind_ok (mret rk) _ s3 rk s3 eq_refl).
  pose proof (map_and_coalesce_ok read_mem by_page k rk (emu_file m) (mapped_file_stat m) 0 s3 Hg3 Wk Wrk) as Hmc. cbv zeta in Hmc.
  specialize (Hmc ltac:(by rewrite Rk, Rrk) ltac:(unfold kstart, kend; rewrite Rk; cbn; lia)).
  assert (forall c, inside c (range k) -> ~ mapped (mem s3) c) as Hgap.
  { rewrite Rk. intros c Hc (p & Hp). apply Hs3 in Hp as [_ Hp]. unfold inside in Hc. cbn in Hc. lia. }
  specialize (Hmc Hgap). destruct (map_and_coalesce _ _ _ _ _ _ _ _) as [[u|w] s4].
  - destruct Hmc as (Hg4 & _ & _ & _ & _ & Hs4 & _). split; [done|]. intros c p. rewrite Hs4. unfold shows_with.
    rewrite Hs3. change (mem s2) with (mem s1). rewrite Hs1, Rk. unfold inside. cbn [fst snd].
    assert (attr (new_mapping k rk (emu_file m) (mapped_file_stat m) 0 false) c = moved m old new c) as ->.
    { unfold attr, moved. cbn. rewrite Ak, Ark, Akm. unfold kstart at 1. rewrite Rkm. done. }
    split.
    + intros [[H1 <-]|[[[H1 H2] H3] H4]]; [left; done|right; split_and!; done].
    + intros [[H1 ->]|(H1 & H2 & H3)]; [left; done|right; split_and!; try done].
  - destruct Hmc as [-> Hmc]. split; [done|]. intros Hp. apply Hmc. split_and!; [by apply Hp3, Hp1| |done].
    by destruct (plain_in _ _ Hp Hin) as (_ & _ & ?).
Qed.
End Remap.

(** ** Concrete maps *)

Definition anon (start end_ : Z) (local : Z) : entry :=
  let k := mkKernelMapping (start, end_) [] 0 0 3 0x22 0 in ((start, end_), new_mapping k k None None local false).

Definition file_map (start end_ off : Z) : entry :=
  let k := mkKernelMapping (start, end_) [] 8 77 1 2 off in ((start, end_), new_mapping k k None None 0 false).

Definition space_of (l : list entry) : astate := mkAs l [] [] 0 0 [] [].

Definition run {X} (c : A X) (l : list entry) : astate := snd (c (space_of l)).

Example split_and_coalesce :
  let unmap := unmap (fun _ => None) (fun _ _ => true) in
  map fst (mem (run (unmap 0x3000 0x1000) [anon 0x1000 0x8000 0])) = [(0x1000, 0x3000); (0x4000, 0x8000)] /\
  map (fun e => (fst e, prot (kmap (snd e)))) (mem (run (protect 0x3000 0x1000 1) [anon 0x1000 0x8000 0])) =
    [((0x1000, 0x3000), 3); ((0x3000, 0x4000), 1); ((0x4000, 0x8000), 3)] /\
  map fst (mem (run (protect 0x3000 0x1000 1;; protect 0x3000 0x1000 3) [anon 0x1000 0x8000 0])) = [(0x1000, 0x8000)].
Proof. by vm_compute. Qed.

(** [MADV_DOFORK] on pages inside a [MADV_DONTFORK] range changes nothing: the search for the first range to
    cut starts after a range that begins earlier. *)
Example dofork_inside_range_ignored :
  dont_fork (run (advise 0x1000 0x7000 MADV_DONTFORK;; advise 0x3000 0x1000 MADV_DOFORK) []) = [(0x1000, 0x8000)].
Proof. by vm_compute. Qed.

(** The local mapping of one page is unmapped together with the two pages of rr's memory after it. *)
Example local_munmap_too_long :
  munmapped (run (unmap (fun _ => None) (fun _ _ => true) 0x1000 0x3000) [anon 0x1000 0x2000 0x700000]) = [(0x700000, 0x3000)].
Proof. by vm_compute. Qed.

(** And one that starts after the range is unmapped from before its start. *)
Example local_munmap_too_early :
  munmapped (run (unmap (fun _ => None) (fun _ _ => true) 0x1000 0x3000) [anon 0x3000 0x4000 0x700000]) = [(0x6FE000, 0x3000)].
Proof. by vm_compute. Qed.

(** Moving the second page of a file: the mapping and the recorded mapping disagree on the position in the file. *)
Example remap_recorded_offset :
  map (fun e => (fst e, offset (kmap (snd e)), offset (recorded_map (snd e))))
    (mem (run (remap (fun _ => None) (fun _ _ => true) 0x2000 0x1000 0x9000 0x1000) [file_map 0x1000 0x3000 0]))
  = [((0x1000, 0x2000), 0, 0); ((0x9000, 0xA000), 0x1000, 0)].
Proof. by vm_compute. Qed.

(** [detach_local_mapping] gives the pointer away and keeps it. *)
Example detach_keeps_pointer :
  let '(r, s) := detach_local_mapping 0x1000 (space_of [anon 0x1000 0x2000 0x700000]) in
  r = Ok 0x700000 /\ mem s = [anon 0x1000 0x2000 0x700000].
Proof. by vm_compute. Qed.

(** Protecting monitored memory stops rr, whatever the range. *)
Example protect_monitored_asserts :
  let m := snd (anon 0x1000 0x2000 0x700000) in
  let mon := mkMapping (kmap m) (recorded_map m) None None (local_addr m) true 0 in
  fst (protect 0x1000 0x1000 1 (space_of [((0x1000, 0x2000), mon)])) = Err FailedAssert.
Proof. by vm_compute. Qed.
