(* ===== verification/FreeMemory.v ===== *)
(** * Free memory

    [find_free_memory], which rr uses for its own mappings, and the random placement of chaos mode
    ([chaos_mode_find_free_memory]).  [random()] is a stream of numbers. *)

From stdpp Require Import base tactics list numbers.
From S2P Require Import Prelude TracerMonad Watchpoints WatchpointsSpec KernelMappings AddressMaps AddressMapsInv AddressMapsSpec.
Local Open Scope Z_scope.

(** ** Chaos mode *)

Inductive SupportedArch := x86 | x86_64.

Definition random_addr_bits (arch : SupportedArch) : Z := match arch with x86 => 32 | x86_64 => 47 end.

Definition chaos_mode_min_stack_size : Z := 8 * 1024 * 1024.

Definition adjust_range_for_stack_growth (km : KernelMapping) : MemoryRange :=
  (if nz (Z.land (flags km) MAP_GROWSDOWN) then Z.min (kstart km) (u64 (kend km - chaos_mode_min_stack_size))
   else kstart km, kend km).

Section Random.
(** The [n]th number that [random()] returns. *)
Variable random : nat -> Z.

(** Two calls; the first gives the upper half. *)
Definition random64 (n : nat) : Z := Z.lor (Z.shiftl (u32 (random n)) 32) (u32 (random (S n))).

Definition choose_global_exclusion_range (n : nat) : MemoryRange :=
  let range_size := 4 * 1024 * 1024 * 1024 * 1024 in
  let bits := random_addr_bits x86_64 in
  let r_addr := Z.land (random64 n) (Z.shiftl 1 bits - 1) in
  let r_addr := Z.min r_addr (Z.shiftl 1 bits - range_size) in
  let addr := floor_page_size r_addr in
  (addr, addr + range_size).

(** The inner loop: the address moves past the mapping it meets, in one direction. *)
Fixpoint slide (fuel : nat) (forward : bool) (len addr : Z) (l : list entry) : result Z :=
  match fuel with
  | O => Err NoFuel
  | S fuel =>
      match maps_from addr l with
      | [] => Ok addr
      | (_, m) :: _ =>
          let r := adjust_range_for_stack_growth (kmap m) in
          if u64 (addr + len) <=? fst r then Ok addr
          else slide fuel forward len (if forward then snd r else u64 (fst r - len)) l
      end
  end.

Definition ASAN_SHADOW : MemoryRange := (0x00007fff7000, 0x10007fff8000).
Definition ASAN_ALLOCATOR_RESERVED : MemoryRange := (0x600000000000, 0x640000000000).

(** Whether an address is accepted: [exclusion] is [global_exclusion_range]. *)
Definition acceptable (exclusion : MemoryRange) (asan : bool) (limit len addr : Z) : bool :=
  let size := ceil_page_size len in
  let r := (addr, u64 (addr + size)) in
  negb ((limit <=? addr) || (limit <=? u64 (addr + size))) && negb (intersects r exclusion) &&
  negb (asan && (intersects r ASAN_SHADOW || intersects r ASAN_ALLOCATOR_RESERVED)).

(** The first address of an attempt, and the number of the next random number. *)
Definition first_address (limit : Z) (n : nat) (l : list entry) : result (Z * nat) :=
  if random n mod 2 =? 0 then
    match l with
    | [] => Err FailedAssert
    | _ =>
        match l !! Z.to_nat (random (S n) mod Z.of_nat (length l)) with
        | Some e => Ok (kstart (kmap (snd e)), S (S n))
        | None => Ok (0, S (S n))
        end
    end
  else Ok (floor_page_size (Z.land (random64 (S n)) (limit - 1)), S (S (S n))).

(** [chaos_mode_find_free_memory]; [n] counts the calls of [random()]. *)
Fixpoint chaos_mode_find_free_memory (fuel : nat) (arch : SupportedArch) (exclusion : MemoryRange) (asan : bool)
    (len : Z) (n : nat) (l : list entry) : result Z :=
  match fuel with
  | O => Err NoFuel
  | S fuel =>
      let limit := Z.shiftl 1 (random_addr_bits arch) in
      x ← first_address limit n l;
      a ← slide (S (S (length l))) (negb (random (snd x) mod 2 =? 0)) len (fst x) l;
      if acceptable exclusion asan limit len a then Ok a
      else chaos_mode_find_free_memory fuel arch exclusion asan len (S (snd x)) l
  end.
End Random.

(** ** The mappings from an address on *)

Lemma less_empty (e : entry) ptr : less (fst e) (ptr, ptr) = (fst (fst e) <? ptr).
Proof.
  unfold less, intersects. cbn [fst snd].
  destruct (Z.ltb_spec (Z.max (fst (fst e)) ptr) (Z.min (snd (fst e)) ptr)); [lia|done].
Qed.

Lemma maps_from_split ptr l :
  wf_mem l -> exists a, l = a ++ maps_from ptr l /\ (forall e : entry, e ∈ a -> fst (fst e) < ptr) /\
    (forall e : entry, e ∈ maps_from ptr l -> ptr <= fst (fst e)).
Proof.
  intros Hw. unfold maps_from, lower_bound.
  destruct (span_app (fun e : entry => less (fst e) (ptr, ptr)) l) as (a & b & -> & -> & Ha & Hb). cbn [snd].
  exists a. split_and!; [done| |].
  - intros e He%list_elem_of_In. rewrite Forall_forall in Ha. specialize (Ha e He). rewrite less_empty in Ha. by apply Z.ltb_lt.
  - destruct b as [|x b]; [by intros e H%elem_of_nil|]. rewrite less_empty in Hb. apply Z.ltb_ge in Hb.
    intros e [->|He]%elem_of_cons; [done|]. apply wf_mem_mid in Hw as (_ & Wx & _ & _ & Hbb & _).
    specialize (Hbb e He). pose proof (we_size _ Wx). unfold before in Hbb. lia.
Qed.

Lemma maps_from_mono p q l : p <= q -> exists x, maps_from p l = x ++ maps_from q l.
Proof.
  intros Hpq. unfold maps_from, lower_bound. induction l as [|e l (x & IH)]; [by exists []|]. cbn [span].
  rewrite !less_empty. destruct (Z.ltb_spec (fst (fst e)) p) as [H1|H1], (Z.ltb_spec (fst (fst e)) q) as [H2|H2]; try lia.
  - destruct (span _ l), (span _ l). by exists x.
  - destruct (span_app (fun e : entry => less (fst e) (q, q)) l) as (a & b & -> & -> & _). by exists (e :: a).
  - by exists [].
Qed.

Lemma maps_from_unique ptr l a b :
  wf_mem l -> l = a ++ b -> (forall e : entry, e ∈ a -> fst (fst e) < ptr) -> (forall e : entry, e ∈ b -> ptr <= fst (fst e)) ->
  maps_from ptr l = b.
Proof.
  intros Hw -> Ha Hb. destruct (maps_from_split ptr (a ++ b) Hw) as (a' & Heq & Ha' & Hb').
  revert a' Heq Ha' Hb'. generalize (maps_from ptr (a ++ b)). clear Hw. revert Ha.
  induction a as [|x a IH]; intros Ha c a' Heq Ha' Hb'.
  - destruct a' as [|y a']; [done|]. cbn in Heq. subst b.
    specialize (Ha' y ltac:(left)). specialize (Hb y ltac:(left)). lia.
  - destruct a' as [|y a']; cbn in Heq.
    + subst c. specialize (Ha x ltac:(left)). specialize (Hb' x ltac:(left)). lia.
    + injection Heq as -> Heq. apply (IH (fun e He => Ha e ltac:(by right)) c a' Heq); [|done].
      intros e He. apply Ha'. by right.
Qed.

(** ** [find_free_memory] *)

Lemma maps_from_next a (e : entry) b :
  wf_mem (a ++ e :: b) -> maps_from (snd (fst e)) (a ++ e :: b) = b.
Proof.
  intros Hw. pose proof (proj1 (wf_mem_mid a e b) Hw) as (Wa & We & _ & Ha & Hb & _). pose proof (we_size _ We).
  apply (maps_from_unique _ _ (a ++ [e]) b Hw); [by rewrite <- app_assoc| |].
  - intros x [Hx| ->%list_elem_of_singleton]%elem_of_app; [|lia]. specialize (Ha x Hx).
    pose proof (we_size _ (wf_in _ _ Wa Hx)). unfold before in Ha. lia.
  - intros x Hx. apply (Hb x Hx).
Qed.

(** The space after an entry is free up to the next. *)
Lemma free_after a (e : entry) b c :
  wf_mem (a ++ e :: b) -> snd (fst e) <= c -> (forall x : entry, x ∈ b -> c < fst (fst x)) -> ~ mapped (a ++ e :: b) c.
Proof.
  intros Hw Hc Hb (p & x & Hx & Hin & _). unfold inside in Hin. apply wf_mem_mid in Hw as (_ & We & _ & Ha & _).
  pose proof (we_size _ We). apply elem_of_app in Hx as [Hx|[->|Hx]%elem_of_cons]; [|lia|specialize (Hb x Hx); lia].
  specialize (Ha x Hx). unfold before in Ha. lia.
Qed.

Lemma free_from_ok req l b : forall a fuel ptr,
  wf_mem l -> l = a ++ b -> maps_from ptr l = b -> b <> [] -> 0 <= req ->
  (forall e : entry, e ∈ l -> snd (fst e) + req < 2 ^ 64) -> (length b <= fuel)%nat ->
  exists x e, free_from fuel req ptr l = Ok x /\ e ∈ b /\ snd (fst e) = x /\ forall c, x <= c < x + req -> ~ mapped l c.
Proof.
  induction b as [|[r m] b IH]; intros a fuel ptr Hw Hl Hb Hne Hreq Hbig Hf; [done|].
  destruct fuel as [|fuel]; [cbn in Hf; lia|]. cbn [free_from]. rewrite Hb. rewrite Hl in Hw.
  pose proof (proj1 (wf_mem_mid a (r, m) b) Hw) as (_ & He & Wb & _ & Hbb & _).
  assert (kend (kmap m) = snd r) as Hk by (unfold kend; f_equal; symmetry; apply (we_key _ He)).
  pose proof (maps_from_next a (r, m) b Hw) as Hnext. cbn in Hnext. rewrite <- Hl in Hnext. rewrite Hk, Hnext.
  assert (0 <= snd r + req < 2 ^ 64) as Hr.
  { pose proof (wf_bounds _ (we_km _ He)) as Hbd. cbn [snd] in Hbd. rewrite Hk in Hbd.
    specialize (Hbig (r, m)). rewrite Hl in Hbig. specialize (Hbig ltac:(apply elem_of_app; right; left)). cbn in Hbig. lia. }
  rewrite wrapu_small by lia. destruct b as [|[r' m'] b].
  - destruct (Z.leb_spec (snd r) (snd r + req)); [|lia]. exists (snd r), (r, m). split_and!; try done; [left|].
    intros c Hc. rewrite Hl. apply free_after; [done|cbn; lia|by intros x H'%elem_of_nil].
  - assert ((r', m') ∈ (r', m') :: b) as Hin' by left. pose proof (wf_in _ _ Wb Hin') as He'.
    assert (kstart (kmap m') = fst r') as Hk' by (unfold kstart; f_equal; symmetry; apply (we_key _ He')).
    rewrite Hk'. destruct (Z.leb_spec (snd r + req) (fst r')) as [Hfit|Hno].
    + exists (snd r), (r, m). split_and!; try done; [left|]. intros c Hc. rewrite Hl. apply free_after; [done|cbn; lia|].
      intros x [->|Hx]%elem_of_cons; [cbn; lia|]. change ((r', m') :: b) with ([] ++ (r', m') :: b) in Wb.
      apply wf_mem_mid in Wb as (_ & _ & _ & _ & Hbb' & _). specialize (Hbb' x Hx). pose proof (we_size _ He').
      unfold before in Hbb'. cbn in *. lia.
    + destruct (IH (a ++ [(r, m)]) fuel (snd r)) as (x & e & H1 & H2 & H3 & H4); try done.
      * by rewrite Hl.
      * by rewrite <- app_assoc.
      * cbn in Hf |- *. lia.
      * exists x, e. split_and!; try done. by right.
Qed.

Lemma find_free_memory_ok req after l :
  wf_mem l -> 0 <= req -> (forall e : entry, e ∈ l -> snd (fst e) + req < 2 ^ 64) ->
  if existsb (fun e : entry => after <=? fst (fst e)) l then
    exists x, find_free_memory req after l = Ok x /\ (exists e : entry, e ∈ l /\ after <= fst (fst e) /\ snd (fst e) = x) /\
      forall c, x <= c < x + req -> ~ mapped l c
  else find_free_memory req after l = Err BadAccess.
Proof.
  intros Hw Hreq Hbig.
  destruct (maps_from_split after l Hw) as (a & Hl & Ha & Hb). unfold find_free_memory. destruct (existsb _ l) eqn:He.
  - apply existsb_exists in He as (e & Hin%list_elem_of_In & Hle%Z.leb_le).
    destruct (free_from_ok req l (maps_from after l) a (S (length l)) after) as (x & e' & H1 & H2 & H3 & H4); try done.
    + rewrite Hl in Hin. intros Hnil. rewrite Hnil, app_nil_r in Hin. specialize (Ha e Hin). lia.
    + rewrite Hl at 2. rewrite length_app. lia.
    + exists x. split_and!; try done. exists e'. split_and!; [|by apply Hb|done]. rewrite Hl. apply elem_of_app. by right.
  - cbn [free_from]. destruct (maps_from after l) as [|e b]; [done|].
    assert (existsb (fun e : entry => after <=? fst (fst e)) l = true) as H; [|by rewrite H in He].
    apply existsb_exists. exists e. split; [apply list_elem_of_In; rewrite Hl; apply elem_of_app; right; left|].
    apply Z.leb_le, Hb. left.
Qed.

(** `find_free_memory` returns the end of a mapping at or after `after` with the
    required memory free behind it, and without a mapping there it dereferences
    the end of the map. *)
Theorem find_free_memory_spec req after l :
  wf_mem l -> 0 <= req -> (forall e : entry, e ∈ l -> snd (fst e) + req < 2 ^ 64) ->
  if existsb (fun e : entry => after <=? fst (fst e)) l then
    exists x, find_free_memory req after l = Ok x /\ (exists e : entry, e ∈ l /\ after <= fst (fst e) /\ snd (fst e) = x) /\
      forall c, x <= c < x + req -> ~ mapped l c
  else find_free_memory req after l = Err BadAccess.
Proof. apply find_free_memory_ok. Qed.

(** ** Chaos mode *)

(** The inner loop stops where no mapping starts in the range, with room for a stack to grow. *)
Lemma slide_stops fuel forward len addr l x :
  wf_mem l -> slide fuel forward len addr l = Ok x ->
  match maps_from x l with [] => True | e :: _ => u64 (x + len) <= fst (adjust_range_for_stack_growth (kmap (snd e))) end.
Proof.
  intros Hw. revert addr. induction fuel as [|fuel IH]; intros addr; cbn [slide]; [done|].
  destruct (maps_from addr l) as [|[r m] b] eqn:Hf; [injection 1 as <-; by rewrite Hf|].
  destruct (Z.leb_spec (u64 (addr + len)) (fst (adjust_range_for_stack_growth (kmap m)))); [|apply IH].
  injection 1 as <-. by rewrite Hf.
Qed.

Lemma adjust_start k : fst (adjust_range_for_stack_growth k) <= kstart k.
Proof. unfold adjust_range_for_stack_growth. cbn. destruct (nz _); lia. Qed.

Lemma slide_forward l len fuel addr :
  wf_mem l -> (length (maps_from addr l) < fuel)%nat -> exists x, slide fuel true len addr l = Ok x.
Proof.
  intros Hw. revert addr. induction fuel as [|fuel IH]; intros addr Hf; [lia|]. cbn [slide].
  destruct (maps_from_split addr l Hw) as (a & Hl & _). destruct (maps_from addr l) as [|[r m] b]; [eauto|].
  destruct (_ <=? _); [eauto|]. cbn [snd adjust_range_for_stack_growth]. apply IH.
  rewrite Hl in Hw. assert (wf_entry (r, m)) as We by (apply wf_mem_mid in Hw; apply Hw).
  assert (kend (kmap m) = snd r) as -> by (unfold kend; f_equal; symmetry; apply (we_key _ We)).
  pose proof (maps_from_next a (r, m) b Hw) as Hn. cbn [fst snd] in Hn. rewrite Hl, Hn. cbn in Hf. lia.
Qed.

(** Going down, the mappings before the address become fewer, or the next test succeeds. *)
Lemma slide_backward l len fuel addr :
  wf_mem l -> 0 <= len -> 0 <= addr < 2 ^ 64 -> (forall e : entry, e ∈ l -> fst (fst e) + len < 2 ^ 64) ->
  (length l + 2 <= fuel + length (maps_from addr l))%nat -> exists x, slide fuel false len addr l = Ok x.
Proof.
  intros Hw Hlen Ha Hbig. revert addr Ha. induction fuel as [|fuel IH]; intros addr Ha Hf.
  { destruct (maps_from_split addr l Hw) as (a & Hl & _). rewrite Hl in Hf at 1. rewrite length_app in Hf. lia. }
  cbn [slide]. destruct (maps_from_split addr l Hw) as (a & Hl & Hlt & Hge).
  destruct (maps_from addr l) as [|[r m] b] eqn:Hm; [eauto|].
  destruct (Z.leb_spec (u64 (addr + len)) (fst (adjust_range_for_stack_growth (kmap m)))) as [|Hgt]; [eauto|].
  assert ((r, m) ∈ l) as Hin by (rewrite Hl; apply elem_of_app; right; left). pose proof (wf_in _ _ Hw Hin) as We.
  pose proof (adjust_start (kmap m)) as Hadj. set (f := fst (adjust_range_for_stack_growth (kmap m))) in *.
  assert (kstart (kmap m) = fst r) as Hk by (unfold kstart; f_equal; symmetry; apply (we_key _ We)). rewrite Hk in Hadj.
  specialize (Hbig (r, m) Hin) as Hbr. cbn in Hbr.
  assert (0 <= f) as Hf0.
  { unfold f, adjust_range_for_stack_growth. cbn [fst]. pose proof (wf_bounds _ (we_km _ We)) as Hbd. cbn [snd] in Hbd.
    pose proof (wrapu_range 64 (kend (kmap m) - chaos_mode_min_stack_size) ltac:(lia)). destruct (nz _); lia. }
  pose proof (wrapu_range 64 (f - len) ltac:(lia)) as Hrange.
  destruct (Z.lt_ge_cases f len) as [Hneg|Hpos].
  - assert (maps_from (u64 (f - len)) l = []) as Hnone.
    { apply (maps_from_unique _ l l []); [done|by rewrite app_nil_r| |by intros e H%elem_of_nil].
      intros e He. specialize (Hbig e He). assert (u64 (f - len) = f - len + 2 ^ 64) as ->; [|lia].
      unfold wrapu. rewrite <- (Z_mod_plus_full (f - len) 1). rewrite Z.mul_1_l. apply Z.mod_small. lia. }
    destruct fuel as [|fuel]; [|cbn [slide]; rewrite Hnone; eauto].
    rewrite Hl in Hf at 1. rewrite length_app in Hf. cbn in Hf. lia.
  - rewrite (wrapu_small 64 (f - len)) in * by lia.
    assert (f - len < addr) as Hdown.
    { assert (u64 (addr + len) <= addr + len); [|lia]. unfold wrapu. apply Z.mod_le; lia. }
    destruct (maps_from_split (f - len) l Hw) as (a' & Hl' & Hlt' & Hge').
    destruct (Nat.eq_dec (length (maps_from (f - len) l)) (length (maps_from addr l))) as [Heq|Hne].
    + assert (maps_from (f - len) l = (r, m) :: b) as Hsame.
      { rewrite Hm in Heq. rewrite Hl in Hl' at 1. apply app_inj_2 in Hl' as [_ Hl']; [done|by rewrite Heq]. }
      destruct fuel as [|fuel]; [rewrite Hl in Hf at 1; rewrite length_app in Hf; cbn in Hf; lia|].
      cbn [slide]. rewrite Hsame. fold f. replace (f - len + len) with f by lia. rewrite wrapu_small by lia.
      rewrite Z.leb_refl. eauto.
    + apply IH; [lia|]. destruct (maps_from_mono (f - len) addr l ltac:(lia)) as (x & Hx).
      rewrite Hx, Hm, length_app in *. cbn in *. lia.
Qed.

(** Both directions end within the fuel of [chaos_mode_find_free_memory]. *)
Lemma slide_total l len addr forward :
  wf_mem l -> 0 <= len -> 0 <= addr < 2 ^ 64 -> (forall e : entry, e ∈ l -> fst (fst e) + len < 2 ^ 64) ->
  exists x, slide (S (S (length l))) forward len addr l = Ok x.
Proof.
  intros Hw Hl Ha Hbig. destruct forward; [apply slide_forward|apply slide_backward]; try done; [|lia].
  destruct (maps_from_split addr l Hw) as (a & Hs & _). rewrite Hs at 2. rewrite length_app. lia.
Qed.

(** The address that is returned: below the limit, outside the excluded ranges, and no mapping
    starts in the memory it is the start of. *)
Theorem chaos_address_spec random fuel arch exclusion asan len n l x :
  wf_mem l -> 0 <= len -> 0 <= x -> x + len + PAGE <= 2 ^ 64 ->
  chaos_mode_find_free_memory random fuel arch exclusion asan len n l = Ok x ->
  x + ceil_page_size len < 2 ^ random_addr_bits arch /\
  intersects (x, x + ceil_page_size len) exclusion = false /\
  forall e : entry, e ∈ l -> ~ x <= fst (fst e) < x + len.
Proof.
  intros Hw Hlen Hx Hb. revert n. induction fuel as [|fuel IH]; intros n; cbn [chaos_mode_find_free_memory]; [done|].
  destruct (first_address random _ n l) as [[a0 n0]|w]; [|done]. rewrite bind_result_ok. cbn [fst snd].
  destruct (slide _ _ len a0 l) as [a|w] eqn:Hs; [|done]. rewrite bind_result_ok.
  destruct (acceptable exclusion asan _ len a) eqn:Hacc; [|apply IH]. injection 1 as ->.
  destruct (ceil_page_size_ok len Hlen ltac:(lia)) as [_ Hc].
  unfold acceptable in Hacc. rewrite !andb_true_iff in Hacc. destruct Hacc as [[H1 H2] _].
  apply negb_true_iff, orb_false_iff in H1 as [_ H1%Z.leb_gt]. apply negb_true_iff in H2.
  rewrite wrapu_small in H1, H2 by lia. rewrite Z.shiftl_1_l in H1. split_and!; [done|done|].
  intros e He Hin. apply slide_stops in Hs; [|done].
  destruct (maps_from_split x l Hw) as (b & Hl & Hbefore & Hafter). rewrite Hl in He.
  apply elem_of_app in He as [He|He]; [specialize (Hbefore e He); lia|].
  destruct (maps_from x l) as [|e0 rest] eqn:Hf; [by apply elem_of_nil in He|].
  unfold PAGE in Hb. rewrite wrapu_small in Hs by lia. pose proof (adjust_start (kmap (snd e0))) as Hadj.
  rewrite Hl in Hw. pose proof (proj1 (wf_mem_mid b e0 rest) Hw) as (_ & We0 & Wr & _ & Hord & _).
  assert (kstart (kmap (snd e0)) = fst (fst e0)) as Hk by (unfold kstart; f_equal; symmetry; apply (we_key _ We0)).
  apply elem_of_cons in He as [->|He]; [lia|]. specialize (Hord e He). pose proof (we_size _ We0). unfold before in Hord. lia.
Qed.

(** A random address inside a mapping is taken for free memory: only mappings that start in the range are looked at. *)
Example chaos_address_inside_mapping :
  let k := mkKernelMapping (0x10000, 0x90000) [] 0 0 3 0x22 0 in
  let l := [((0x10000, 0x90000), new_mapping k k None None 0 false)] in
  let random n := match n with 0%nat => 1 | 1%nat => 0 | 2%nat => 0x40000 | _ => 1 end in
  chaos_mode_find_free_memory random 1 x86_64 (0x600000000000, 0x640000000000) false 0x1000 0 l = Ok 0x40000 /\
  mapped l 0x40000.
Proof.
  cbv zeta. split; [by vm_compute|]. eexists. eexists. split; [left|]. split; [unfold inside; cbn; lia|done].
Qed.
