(* ===== verification/GdbText.v ===== *)
(** * Text of the remote protocol: C strings in a buffer, [strtol], hexadecimal output

    GdbConnection.cc parses a request where it lies in its input buffer.  A pointer into
    the buffer is the list of the bytes from it to the end of the buffer, so that a read
    past the end is [BadAccess] and a byte behind the end of the request can be seen.  A
    failed [parser_assert] (exit status 2) is [FailedAssert].

    [strtol] and [strtoul] of the C library are written out for the bases the code uses,
    16 and 0; [%x] and [%02x] of [snprintf] with the numbers of digits they give. *)

From Stdlib Require Import String.
From stdpp Require Import base tactics list numbers.
From S2P Require Import Prelude CStrings TracerMonad.
Local Open Scope Z_scope.

Abbreviation cursor := (list Z).

Definition parser_assert (b : bool) : result unit := if b then Ok tt else Err FailedAssert.

(** [*p]. *)
Definition peek (p : cursor) : result Z :=
  match p with [] => Err BadAccess | c :: _ => Ok c end.

(** [*p++]. *)
Definition next (p : cursor) : result (Z * cursor) :=
  match p with [] => Err BadAccess | c :: p => Ok (c, p) end.

(** [parser_assert(c == *p++)]. *)
Definition expect (c : Z) (p : cursor) : result cursor :=
  x ← next p; parser_assert (x.1 =? c);; mret x.2.

(** [parser_assert('\0' == *p)]. *)
Definition expect_end (p : cursor) : result unit := x ← peek p; parser_assert (x =? 0).

(** ** C strings *)

(** The string at [p], as [strlen] and [strcmp] see it. *)
Fixpoint cstr (p : cursor) : result cstring :=
  match p with
  | [] => Err BadAccess
  | c :: p => if c =? 0 then Ok [] else s ← cstr p; mret (c :: s)
  end.

(** [args = strchr(p, c); if (args) *args++ = '\0';]: the string at [p] up to [c], and what
    follows [c]. *)
Fixpoint split_at (c : Z) (p : cursor) : result (cstring * option cursor) :=
  match p with
  | [] => Err BadAccess
  | x :: p =>
      if x =? c then Ok ([], Some p)
      else if x =? 0 then Ok ([], None)
      else r ← split_at c p; mret (x :: r.1, r.2)
  end.

(** ** Numbers *)

Definition isspace (c : Z) : bool := ((9 <=? c) && (c <=? 13)) || (c =? 32).

(** The value of a digit or letter, 99 for other characters. *)
Definition digit (c : Z) : Z :=
  if (48 <=? c) && (c <=? 57) then c - 48
  else if (97 <=? c) && (c <=? 122) then c - 87
  else if (65 <=? c) && (c <=? 90) then c - 55
  else 99.

Fixpoint skip_space (p : cursor) : result cursor :=
  match p with
  | [] => Err BadAccess
  | c :: q => if isspace c then skip_space q else Ok p
  end.

Definition read_sign (p : cursor) : result (bool * cursor) :=
  c ← peek p;
  mret (if c =? 45 then (true, tail p) else if c =? 43 then (false, tail p) else (false, p)).

(** The digits at [p]: their value and what follows. *)
Fixpoint digits (base acc : Z) (p : cursor) : result (Z * cursor) :=
  match p with
  | [] => Err BadAccess
  | c :: q => if digit c <? base then digits base (acc * base + digit c) q else Ok (acc, p)
  end.

(** [0x] followed by a hexadecimal digit. *)
Definition hex_prefix (p : cursor) : result bool :=
  c ← peek p;
  if negb (c =? 48) then mret false
  else
    x ← peek (drop 1 p);
    if negb ((x =? 120) || (x =? 88)) then mret false
    else d ← peek (drop 2 p); mret (digit d <? 16).

(** The base of the number at [p], and where its digits start. *)
Definition number_base (base : Z) (p : cursor) : result (Z * cursor) :=
  h ← (if (base =? 16) || (base =? 0) then hex_prefix p else Ok false);
  if h : bool then mret (16, drop 2 p)
  else
    c ← peek p;
    mret (if base =? 0 then if c =? 48 then 8 else 10 else base, p).

(** The sign, the value and the end of the number; [None] when there is none. *)
Definition number (base : Z) (p : cursor) : result (option (bool * Z) * cursor) :=
  q ← skip_space p;
  s ← read_sign q;
  b ← number_base base s.2;
  c ← peek b.2;
  if digit c <? b.1 then
    d ← digits b.1 0 b.2;
    mret (Some (s.1, d.1), d.2)
  else mret (None, p).

Definition LONG_MAX : Z := 2 ^ 63 - 1.

Definition strtol (base : Z) (p : cursor) : result (Z * cursor) :=
  n ← number base p;
  mret (match n.1 with
        | None => 0
        | Some (true, v) => - Z.min v (LONG_MAX + 1)
        | Some (false, v) => Z.min v LONG_MAX
        end, n.2).

Definition ULONG_MAX : Z := 2 ^ 64 - 1.

Definition strtoul (base : Z) (p : cursor) : result (Z * cursor) :=
  n ← number base p;
  mret (match n.1 with
        | None => 0
        | Some (neg, v) =>
            if ULONG_MAX <? v then ULONG_MAX else if neg : bool then wrapu 64 (- v) else v
        end, n.2).

(** ** Output *)

Definition hex_digit (d : Z) : Z := if d <? 10 then 48 + d else 87 + d.

(** [n] hexadecimal digits at most. *)
Fixpoint hex_digits (n : nat) (x : Z) : cstring :=
  match n with
  | O => []
  | S n => if x <? 16 then [hex_digit x] else hex_digits n (x / 16) ++ [hex_digit (x mod 16)]
  end.

(** [%x], [%lx] and [%llx] of an unsigned value, and the versions that fill up to two digits. *)
Definition fmt_x (x : Z) : cstring := hex_digits 16 x.
Definition fmt_02x (x : Z) : cstring := if x <? 16 then [48; hex_digit x] else fmt_x x.

(** ** What the parser makes of the output *)

Lemma digit_bounds c : 0 <= digit c.
Proof. unfold digit. repeat case_match; lia. Qed.

Definition is_hex (c : Z) : Prop := digit c < 16.

Definition hexval (s : cstring) : Z := fold_left (fun acc c => acc * 16 + digit c) s 0.

(** A character that ends a number. *)
Definition stops (c : Z) : Prop := 16 <= digit c /\ c <> 120 /\ c <> 88.

Lemma is_hex_range c : is_hex c -> 48 <= c <= 57 \/ 97 <= c <= 102 \/ 65 <= c <= 70.
Proof. unfold is_hex, digit. repeat case_match; lia. Qed.

Lemma is_hex_not c d : is_hex c -> ~ is_hex d -> c <> d.
Proof. by intros H1 H2 ->. Qed.

Lemma digit_hex_digit d : 0 <= d < 16 -> digit (hex_digit d) = d.
Proof. intros H. unfold digit, hex_digit. repeat case_match; lia. Qed.

Lemma is_hex_digit d : 0 <= d < 16 -> is_hex (hex_digit d).
Proof. intros H. unfold is_hex. rewrite digit_hex_digit; lia. Qed.

Lemma hexval_snoc s c : hexval (s ++ [c]) = hexval s * 16 + digit c.
Proof. unfold hexval. by rewrite fold_left_app. Qed.

Lemma digits_hex s acc c rest : Forall is_hex s -> 16 <= digit c ->
  digits 16 acc (s ++ c :: rest) = Ok (fold_left (fun acc c => acc * 16 + digit c) s acc, c :: rest).
Proof.
  intros Hs Hc. revert acc. induction Hs as [|x s Hx Hs IH]; intros acc; cbn.
  - destruct (Z.ltb_spec (digit c) 16); [lia|done].
  - unfold is_hex in Hx. destruct (Z.ltb_spec (digit x) 16); [|lia]. apply IH.
Qed.

Lemma number_hex s c rest : s <> [] -> Forall is_hex s -> stops c ->
  number 16 (s ++ c :: rest) = Ok (Some (false, hexval s), c :: rest).
Proof.
  intros Hn Hs (Hc & Hx1 & Hx2). destruct s as [|x s]; [done|]. pose proof (Forall_cons_1 _ _ _ Hs) as [Hx Ht].
  pose proof (is_hex_range x Hx) as Hr. unfold number. cbn [app skip_space].
  assert (isspace x = false) as -> by (unfold isspace; lia). rewrite bind_result_ok.
  unfold read_sign. cbn [peek]. rewrite bind_result_ok.
  destruct (Z.eqb_spec x 45); [lia|]. destruct (Z.eqb_spec x 43); [lia|]. unfold mret, result_ret. rewrite bind_result_ok. cbn [fst snd].
  assert (hex_prefix (x :: s ++ c :: rest) = Ok false) as Hp.
  { unfold hex_prefix. cbn [peek]. rewrite bind_result_ok. destruct (x =? 48); [|done]. cbn.
    destruct s as [|y s]; cbn.
    - destruct (Z.eqb_spec c 120); [done|]. by destruct (Z.eqb_spec c 88).
    - apply Forall_cons_1 in Ht as [Hy _]. pose proof (is_hex_range y Hy).
      destruct (Z.eqb_spec y 120); [lia|]. destruct (Z.eqb_spec y 88); [lia|done]. }
  assert (number_base 16 (x :: s ++ c :: rest) = Ok (16, x :: s ++ c :: rest)) as ->.
  { unfold number_base. change ((16 =? 16) || (16 =? 0)) with true. cbv iota. by rewrite Hp. }
  rewrite bind_result_ok. cbn [fst snd peek]. rewrite bind_result_ok.
  unfold is_hex in Hx. destruct (Z.ltb_spec (digit x) 16); [|lia].
  change (x :: s ++ c :: rest) with ((x :: s) ++ c :: rest). rewrite (digits_hex (x :: s)) by done.
  rewrite bind_result_ok. done.
Qed.

Lemma hex_digits_ok n x : 0 <= x < 16 ^ Z.of_nat n -> (0 < n)%nat ->
  Forall is_hex (hex_digits n x) /\ hex_digits n x <> [] /\ hexval (hex_digits n x) = x.
Proof.
  revert x. induction n as [|n IH]; intros x Hx Hn; [lia|]. cbn [hex_digits]. destruct (Z.ltb_spec x 16) as [H|H].
  - split_and!; [constructor; [apply is_hex_digit; lia|constructor]|done|]. unfold hexval. cbn. by rewrite digit_hex_digit by lia.
  - rewrite Nat2Z.inj_succ, Z.pow_succ_r in Hx by lia. pose proof (Z.mod_pos_bound x 16 ltac:(lia)).
    pose proof (Z.div_mod x 16 ltac:(lia)).
    assert (0 < n)%nat as Hn' by (destruct n; [cbn in Hx; lia|lia]).
    destruct (IH (x / 16)) as (Q1 & Q2 & Q3); [|done|].
    { split; [apply Z.div_pos; lia|]. apply Z.div_lt_upper_bound; lia. }
    split_and!.
    + apply Forall_app. split; [done|]. constructor; [apply is_hex_digit; lia|constructor].
    + by destruct (hex_digits n (x / 16)).
    + rewrite hexval_snoc, Q3, digit_hex_digit by lia. lia.
Qed.

Lemma fmt_x_ok x : 0 <= x < 2 ^ 64 -> Forall is_hex (fmt_x x) /\ fmt_x x <> [] /\ hexval (fmt_x x) = x.
Proof. intros H. apply hex_digits_ok; [|lia]. by change (16 ^ Z.of_nat 16) with (2 ^ 64). Qed.

Lemma fmt_02x_ok x : 0 <= x < 2 ^ 64 -> Forall is_hex (fmt_02x x) /\ fmt_02x x <> [] /\ hexval (fmt_02x x) = x.
Proof.
  intros H. unfold fmt_02x. destruct (Z.ltb_spec x 16); [|by apply fmt_x_ok]. split_and!; [|done|].
  - constructor; [done|]. constructor; [apply is_hex_digit; lia|constructor].
  - unfold hexval. cbn [fold_left]. rewrite digit_hex_digit by lia. by cbn.
Qed.

(** [strtoul] and [strtol] read back what [%x] wrote, up to the character that follows. *)
Lemma strtoul_hex s c rest : s <> [] -> Forall is_hex s -> hexval s < 2 ^ 64 -> stops c ->
  strtoul 16 (s ++ c :: rest) = Ok (hexval s, c :: rest).
Proof.
  intros H1 H2 H3 H4. unfold strtoul. rewrite number_hex by done. rewrite bind_result_ok. cbn [fst snd].
  unfold ULONG_MAX. by destruct (Z.ltb_spec (2 ^ 64 - 1) (hexval s)); [lia|].
Qed.

Lemma strtol_hex s c rest : s <> [] -> Forall is_hex s -> hexval s < 2 ^ 63 -> stops c ->
  strtol 16 (s ++ c :: rest) = Ok (hexval s, c :: rest).
Proof.
  intros H1 H2 H3 H4. unfold strtol. rewrite number_hex by done. rewrite bind_result_ok. cbn [fst snd].
  unfold LONG_MAX. rewrite Z.min_l by lia. done.
Qed.

Lemma strtoul_x x c rest : 0 <= x < 2 ^ 64 -> stops c -> strtoul 16 (fmt_x x ++ c :: rest) = Ok (x, c :: rest).
Proof.
  intros H Hc. destruct (fmt_x_ok x H) as (H1 & H2 & H3). rewrite strtoul_hex, H3 by (done || lia). done.
Qed.

Lemma strtol_02x x c rest : 0 <= x < 2 ^ 63 -> stops c -> strtol 16 (fmt_02x x ++ c :: rest) = Ok (x, c :: rest).
Proof.
  intros H Hc. destruct (fmt_02x_ok x ltac:(lia)) as (H1 & H2 & H3). rewrite strtol_hex, H3 by (done || lia). done.
Qed.

(** A byte is two digits. *)
Lemma fmt_02x_byte b : 0 <= b < 256 -> fmt_02x b = [hex_digit (b / 16); hex_digit (b mod 16)].
Proof.
  intros H. unfold fmt_02x. destruct (Z.ltb_spec b 16).
  - rewrite Z.div_small, Z.mod_small by lia. done.
  - unfold fmt_x. cbn [hex_digits]. destruct (Z.ltb_spec b 16); [lia|].
    assert (b / 16 < 16) as Hd by (apply Z.div_lt_upper_bound; lia). destruct (Z.ltb_spec (b / 16) 16); [done|lia].
Qed.

(** *** C strings *)

Definition nul_free (s : cstring) : Prop := Forall (fun c => c <> 0) s.

Lemma cstr_ok s rest : nul_free s -> cstr (s ++ 0 :: rest) = Ok s.
Proof.
  induction 1 as [|c s Hc Hs IH]; cbn; [done|]. destruct (Z.eqb_spec c 0); [done|]. by rewrite IH.
Qed.

Lemma cstr_inv p s : cstr p = Ok s -> nul_free s /\ exists rest, p = s ++ 0 :: rest.
Proof.
  revert s. induction p as [|c p IH]; intros s; cbn; [done|]. destruct (Z.eqb_spec c 0) as [->|Hc].
  - intros [= <-]. split; [constructor|by exists p].
  - destruct (cstr p) as [s'|]; [|done]. cbn. intros [= <-]. destruct (IH s' eq_refl) as (H1 & rest & ->).
    split; [by constructor|by exists rest].
Qed.

Lemma split_at_found c s rest : c ∉ s -> nul_free s -> split_at c (s ++ c :: rest) = Ok (s, Some rest).
Proof.
  induction s as [|x s IH]; intros Hc Hn; cbn; [by rewrite Z.eqb_refl|]. apply Forall_cons_1 in Hn as [Hx Hn].
  apply not_elem_of_cons in Hc as [Hcx Hc]. destruct (Z.eqb_spec x c); [congruence|]. destruct (Z.eqb_spec x 0); [done|].
  by rewrite IH.
Qed.

Lemma split_at_none c s rest : c ∉ s -> nul_free s -> c <> 0 -> split_at c (s ++ 0 :: rest) = Ok (s, None).
Proof.
  induction s as [|x s IH]; intros Hc Hn H0; cbn [app split_at]; [by destruct (Z.eqb_spec 0 c); [congruence|]|].
  apply Forall_cons_1 in Hn as [Hx Hn]. apply not_elem_of_cons in Hc as [Hcx Hc].
  destruct (Z.eqb_spec x c); [congruence|]. destruct (Z.eqb_spec x 0); [done|]. by rewrite IH.
Qed.

Lemma is_hex_not_in s d : Forall is_hex s -> ~ is_hex d -> d ∉ s.
Proof. intros Hs Hd Hin. rewrite Forall_forall in Hs. apply list_elem_of_In in Hin. by apply Hd, Hs. Qed.

Lemma is_hex_nul_free s : Forall is_hex s -> nul_free s.
Proof. apply Forall_impl. intros c Hc%is_hex_range. lia. Qed.

Lemma expect_ok c rest : expect c (c :: rest) = Ok rest.
Proof. unfold expect. cbn. by rewrite Z.eqb_refl. Qed.
