(* ===== verification/GdbConnection.v ===== *)
(** * The connection to the debugger: data, output and input

    GdbConnection.h and GdbConnection.cc up to the parser: the request rr passes to its
    debugger server, the connection object, the framing of packets in both directions and
    the two encodings of binary data.  GdbRequests.v parses requests, GdbReplies.v answers
    them.

    The socket is part of the state: [incoming] holds what each [read] will return (nothing
    left, or an empty chunk, is a read that fails), [polls] the answers of [poll] with no
    timeout, [accepts] how many bytes each [write] takes ([None] fails; after the last entry
    the kernel takes everything), and [sent] is what has reached the debugger.

    Fields of a request that its constructor leaves uninitialised are 0 or empty here.
    [LOG] output is left out. *)

From Stdlib Require Import String.
From stdpp Require Import base tactics list numbers.
From S2P Require Import Prelude CStrings CxxStrings TracerMonad GdbText.
Local Open Scope Z_scope.

(** ** Requests *)

Record GdbThreadId := mkTid { pid : Z; tid : Z }.

#[export] Instance GdbThreadId_eq_dec : EqDecision GdbThreadId.
Proof. solve_decision. Defined.

Definition no_thread : GdbThreadId := mkTid (-1) (-1).
Definition ANY : GdbThreadId := mkTid 0 0.
Definition ALL : GdbThreadId := mkTid (-1) (-1).

Definition MAX_SIZE : Z := 16.

Record GdbRegisterValue := mkRegValue {
  reg_name : Z;
  reg_value : list Z;
  reg_size : Z;
  reg_defined : bool }.

Inductive GdbRequestType :=
| DREQ_NONE
| DREQ_GET_CURRENT_THREAD | DREQ_GET_OFFSETS | DREQ_GET_REGS | DREQ_GET_STOP_REASON
| DREQ_GET_THREAD_LIST | DREQ_INTERRUPT | DREQ_DETACH
| DREQ_GET_AUXV | DREQ_GET_EXEC_FILE | DREQ_GET_IS_THREAD_ALIVE | DREQ_GET_THREAD_EXTRA_INFO
| DREQ_SET_CONTINUE_THREAD | DREQ_SET_QUERY_THREAD
| DREQ_TLS
| DREQ_WRITE_SIGINFO
| DREQ_GET_MEM | DREQ_SET_MEM | DREQ_READ_SIGINFO | DREQ_SEARCH_MEM
| DREQ_REMOVE_SW_BREAK | DREQ_REMOVE_HW_BREAK | DREQ_REMOVE_WR_WATCH | DREQ_REMOVE_RD_WATCH
| DREQ_REMOVE_RDWR_WATCH
| DREQ_SET_SW_BREAK | DREQ_SET_HW_BREAK | DREQ_SET_WR_WATCH | DREQ_SET_RD_WATCH
| DREQ_SET_RDWR_WATCH
| DREQ_GET_REG | DREQ_SET_REG
| DREQ_CONT
| DREQ_RESTART
| DREQ_RR_CMD
| DREQ_QSYMBOL
| DREQ_FILE_SETFS | DREQ_FILE_OPEN | DREQ_FILE_PREAD | DREQ_FILE_CLOSE.

#[export] Instance GdbRequestType_eq_dec : EqDecision GdbRequestType.
Proof. solve_decision. Defined.

Inductive GdbRestartType := RESTART_FROM_PREVIOUS | RESTART_FROM_EVENT | RESTART_FROM_CHECKPOINT.

Inductive GdbActionType := ACTION_CONTINUE | ACTION_STEP.

Record GdbContAction := mkAction {
  action_type : GdbActionType;
  action_target : GdbThreadId;
  signal_to_deliver : Z }.

Inductive RunDirection := RUN_FORWARD | RUN_BACKWARD.

#[export] Instance RunDirection_eq_dec : EqDecision RunDirection.
Proof. solve_decision. Defined.

Record Mem := mkMem { mem_addr : Z; mem_len : Z; mem_data : list Z }.
Record Watch := mkWatchReq { watch_addr : Z; watch_kind : Z; watch_conditions : list (list Z) }.
Record Restart := mkRestart { restart_param : Z; restart_param_str : cstring; restart_type : GdbRestartType }.
Record Cont := mkCont { run_direction : RunDirection; actions : list GdbContAction }.
Record Tls := mkTls { tls_offset : Z; tls_load_module : Z }.
Record Symbol := mkSymbol { has_address : bool; sym_address : Z; sym_name : cstring }.
Record FileOpen := mkFileOpen { file_name : cstring; open_flags : Z; open_mode : Z }.
Record FilePread := mkFilePread { pread_fd : Z; pread_size : Z; pread_offset : Z }.

Record GdbRequest := mkReq {
  type : GdbRequestType;
  target : GdbThreadId;
  suppress_debugger_stop : bool;
  mem_ : Mem;
  watch_ : Watch;
  reg_ : GdbRegisterValue;
  restart_ : Restart;
  cont_ : Cont;
  text_ : cstring;
  tls_ : Tls;
  sym_ : Symbol;
  file_setfs_ : Z;
  file_open_ : FileOpen;
  file_pread_ : FilePread;
  file_close_ : Z }.

Definition new_request (t : GdbRequestType) : GdbRequest :=
  mkReq t no_thread false (mkMem 0 0 []) (mkWatchReq 0 0 []) (mkRegValue 0 [] 0 false)
    (mkRestart 0 [] RESTART_FROM_PREVIOUS) (mkCont RUN_FORWARD []) [] (mkTls 0 0) (mkSymbol false 0 [])
    0 (mkFileOpen [] 0 0) (mkFilePread 0 0 0) 0.

Definition with_target v (s : GdbRequest) : GdbRequest :=
  mkReq (type s) v (suppress_debugger_stop s) (mem_ s) (watch_ s) (reg_ s) (restart_
    s) (cont_ s) (text_ s) (tls_ s) (sym_ s) (file_setfs_ s) (file_open_ s)
    (file_pread_ s) (file_close_ s).
Definition with_mem v (s : GdbRequest) : GdbRequest :=
  mkReq (type s) (target s) (suppress_debugger_stop s) v (watch_ s) (reg_ s)
    (restart_ s) (cont_ s) (text_ s) (tls_ s) (sym_ s) (file_setfs_ s) (file_open_
    s) (file_pread_ s) (file_close_ s).
Definition with_watch v (s : GdbRequest) : GdbRequest :=
  mkReq (type s) (target s) (suppress_debugger_stop s) (mem_ s) v (reg_ s) (restart_
    s) (cont_ s) (text_ s) (tls_ s) (sym_ s) (file_setfs_ s) (file_open_ s)
    (file_pread_ s) (file_close_ s).
Definition with_reg v (s : GdbRequest) : GdbRequest :=
  mkReq (type s) (target s) (suppress_debugger_stop s) (mem_ s) (watch_ s) v
    (restart_ s) (cont_ s) (text_ s) (tls_ s) (sym_ s) (file_setfs_ s) (file_open_
    s) (file_pread_ s) (file_close_ s).
Definition with_restart v (s : GdbRequest) : GdbRequest :=
  mkReq (type s) (target s) (suppress_debugger_stop s) (mem_ s) (watch_ s) (reg_ s)
    v (cont_ s) (text_ s) (tls_ s) (sym_ s) (file_setfs_ s) (file_open_ s)
    (file_pread_ s) (file_close_ s).
Definition with_cont v (s : GdbRequest) : GdbRequest :=
  mkReq (type s) (target s) (suppress_debugger_stop s) (mem_ s) (watch_ s) (reg_ s)
    (restart_ s) v (text_ s) (tls_ s) (sym_ s) (file_setfs_ s) (file_open_ s)
    (file_pread_ s) (file_close_ s).
Definition with_text v (s : GdbRequest) : GdbRequest :=
  mkReq (type s) (target s) (suppress_debugger_stop s) (mem_ s) (watch_ s) (reg_ s)
    (restart_ s) (cont_ s) v (tls_ s) (sym_ s) (file_setfs_ s) (file_open_ s)
    (file_pread_ s) (file_close_ s).
Definition with_tls v (s : GdbRequest) : GdbRequest :=
  mkReq (type s) (target s) (suppress_debugger_stop s) (mem_ s) (watch_ s) (reg_ s)
    (restart_ s) (cont_ s) (text_ s) v (sym_ s) (file_setfs_ s) (file_open_ s)
    (file_pread_ s) (file_close_ s).
Definition with_sym v (s : GdbRequest) : GdbRequest :=
  mkReq (type s) (target s) (suppress_debugger_stop s) (mem_ s) (watch_ s) (reg_ s)
    (restart_ s) (cont_ s) (text_ s) (tls_ s) v (file_setfs_ s) (file_open_ s)
    (file_pread_ s) (file_close_ s).
Definition with_file_setfs v (s : GdbRequest) : GdbRequest :=
  mkReq (type s) (target s) (suppress_debugger_stop s) (mem_ s) (watch_ s) (reg_ s)
    (restart_ s) (cont_ s) (text_ s) (tls_ s) (sym_ s) v (file_open_ s) (file_pread_
    s) (file_close_ s).
Definition with_file_open v (s : GdbRequest) : GdbRequest :=
  mkReq (type s) (target s) (suppress_debugger_stop s) (mem_ s) (watch_ s) (reg_ s)
    (restart_ s) (cont_ s) (text_ s) (tls_ s) (sym_ s) (file_setfs_ s) v
    (file_pread_ s) (file_close_ s).
Definition with_file_pread v (s : GdbRequest) : GdbRequest :=
  mkReq (type s) (target s) (suppress_debugger_stop s) (mem_ s) (watch_ s) (reg_ s)
    (restart_ s) (cont_ s) (text_ s) (tls_ s) (sym_ s) (file_setfs_ s) (file_open_
    s) v (file_close_ s).
Definition with_file_close v (s : GdbRequest) : GdbRequest :=
  mkReq (type s) (target s) (suppress_debugger_stop s) (mem_ s) (watch_ s) (reg_ s)
    (restart_ s) (cont_ s) (text_ s) (tls_ s) (sym_ s) (file_setfs_ s) (file_open_
    s) (file_pread_ s) v.

Definition is_resume_request (r : GdbRequest) : bool := bool_decide (type r = DREQ_CONT).

(** ** The connection *)

Record GdbConnection := mkConn {
  tgid : Z;
  cpu_features_ : Z;
  no_ack : bool;
  reverse_execution : bool;
  connection_alive_ : bool;
  inbuf : list Z;
  packetend : nat;
  outbuf : list Z;
  req : GdbRequest;
  resume_thread : GdbThreadId;
  query_thread : GdbThreadId;
  incoming : list (list Z);
  polls : list bool;
  accepts : list (option nat);
  sent : list Z }.

Definition set_no_ack v (s : GdbConnection) : GdbConnection :=
  mkConn (tgid s) (cpu_features_ s) v (reverse_execution s) (connection_alive_ s)
    (inbuf s) (packetend s) (outbuf s) (req s) (resume_thread s) (query_thread s)
    (incoming s) (polls s) (accepts s) (sent s).
Definition set_connection_alive v (s : GdbConnection) : GdbConnection :=
  mkConn (tgid s) (cpu_features_ s) (no_ack s) (reverse_execution s) v (inbuf s)
    (packetend s) (outbuf s) (req s) (resume_thread s) (query_thread s) (incoming s)
    (polls s) (accepts s) (sent s).
Definition set_inbuf v (s : GdbConnection) : GdbConnection :=
  mkConn (tgid s) (cpu_features_ s) (no_ack s) (reverse_execution s)
    (connection_alive_ s) v (packetend s) (outbuf s) (req s) (resume_thread s)
    (query_thread s) (incoming s) (polls s) (accepts s) (sent s).
Definition set_packetend v (s : GdbConnection) : GdbConnection :=
  mkConn (tgid s) (cpu_features_ s) (no_ack s) (reverse_execution s)
    (connection_alive_ s) (inbuf s) v (outbuf s) (req s) (resume_thread s)
    (query_thread s) (incoming s) (polls s) (accepts s) (sent s).
Definition set_outbuf v (s : GdbConnection) : GdbConnection :=
  mkConn (tgid s) (cpu_features_ s) (no_ack s) (reverse_execution s)
    (connection_alive_ s) (inbuf s) (packetend s) v (req s) (resume_thread s)
    (query_thread s) (incoming s) (polls s) (accepts s) (sent s).
Definition set_req v (s : GdbConnection) : GdbConnection :=
  mkConn (tgid s) (cpu_features_ s) (no_ack s) (reverse_execution s)
    (connection_alive_ s) (inbuf s) (packetend s) (outbuf s) v (resume_thread s)
    (query_thread s) (incoming s) (polls s) (accepts s) (sent s).
Definition set_resume_thread v (s : GdbConnection) : GdbConnection :=
  mkConn (tgid s) (cpu_features_ s) (no_ack s) (reverse_execution s)
    (connection_alive_ s) (inbuf s) (packetend s) (outbuf s) (req s) v (query_thread
    s) (incoming s) (polls s) (accepts s) (sent s).
Definition set_query_thread v (s : GdbConnection) : GdbConnection :=
  mkConn (tgid s) (cpu_features_ s) (no_ack s) (reverse_execution s)
    (connection_alive_ s) (inbuf s) (packetend s) (outbuf s) (req s) (resume_thread
    s) v (incoming s) (polls s) (accepts s) (sent s).
Definition set_incoming v (s : GdbConnection) : GdbConnection :=
  mkConn (tgid s) (cpu_features_ s) (no_ack s) (reverse_execution s)
    (connection_alive_ s) (inbuf s) (packetend s) (outbuf s) (req s) (resume_thread
    s) (query_thread s) v (polls s) (accepts s) (sent s).
Definition set_polls v (s : GdbConnection) : GdbConnection :=
  mkConn (tgid s) (cpu_features_ s) (no_ack s) (reverse_execution s)
    (connection_alive_ s) (inbuf s) (packetend s) (outbuf s) (req s) (resume_thread
    s) (query_thread s) (incoming s) v (accepts s) (sent s).
Definition set_accepts v (s : GdbConnection) : GdbConnection :=
  mkConn (tgid s) (cpu_features_ s) (no_ack s) (reverse_execution s)
    (connection_alive_ s) (inbuf s) (packetend s) (outbuf s) (req s) (resume_thread
    s) (query_thread s) (incoming s) (polls s) v (sent s).
Definition set_sent v (s : GdbConnection) : GdbConnection :=
  mkConn (tgid s) (cpu_features_ s) (no_ack s) (reverse_execution s)
    (connection_alive_ s) (inbuf s) (packetend s) (outbuf s) (req s) (resume_thread
    s) (query_thread s) (incoming s) (polls s) (accepts s) v.

Abbreviation G := (TM GdbConnection).

Definition lift {A} (r : result A) : G A := fun s => (r, s).

(** The constructor; [REVERSE_EXECUTION] is defined for the platforms rr supports. *)
Definition new_connection (tgid : Z) (reverse : bool) (incoming : list (list Z)) (polls : list bool)
    (accepts : list (option nat)) : GdbConnection :=
  mkConn tgid 0 false reverse true [] 0 [] (new_request DREQ_NONE) no_thread no_thread incoming polls accepts [].

(** ** Input and output *)

Definition read_data_once : G unit :=
  l ← ask incoming;
  match l with
  | [] => change (set_connection_alive false)
  | [] :: l => change (set_incoming l);; change (set_connection_alive false)
  | c :: l => change (set_incoming l);; change (fun s => set_inbuf (inbuf s ++ c) s)
  end.

(** The calls of [write] for the bytes that are left. *)
Fixpoint write_loop (calls : list (option nat)) (out : list Z) (s : GdbConnection) : GdbConnection :=
  match out, calls with
  | [], _ => set_accepts calls s
  | _, [] => set_accepts [] (set_sent (sent s ++ out) s)
  | _, None :: calls => set_accepts calls (set_connection_alive false s)
  | _, Some n :: calls => write_loop calls (drop n out) (set_sent (sent s ++ take n out) s)
  end.

Definition write_flush : G unit :=
  change (fun s => set_outbuf [] (write_loop (accepts s) (outbuf s) s)).

Definition write_data_raw (data : list Z) : G unit :=
  change (fun s => set_outbuf (outbuf s ++ data) s).

Definition write_hex (hex : Z) : G unit := write_data_raw (fmt_02x hex).

Definition checksum (data : list Z) : Z := fold_left (fun sum b => u8 (sum + b)) data 0.

Definition write_packet_bytes (data : list Z) : G unit :=
  write_data_raw (lit "$");;
  write_data_raw data;;
  write_data_raw (lit "#");;
  write_hex (checksum data).

Definition write_packet (data : cstring) : G unit := write_packet_bytes data.

(** The bytes of [data], encoded into a buffer of [size] bytes of which [used] are taken. *)
Fixpoint escape_into (size used : Z) (data : list Z) : list Z :=
  match data with
  | [] => []
  | b :: data =>
      if size <? used + 2 then []
      else if (b =? 35) || (b =? 36) || (b =? 125) || (b =? 42)
      then 125 :: Z.lxor b 0x20 :: escape_into size (used + 2) data
      else b :: escape_into size (used + 1) data
  end.

Definition write_binary_packet (pfx : cstring) (data : list Z) : G unit :=
  let pfx_num_chars := Z.of_nat (length pfx) in
  let size := 2 * Z.of_nat (length data) + pfx_num_chars in
  write_packet_bytes (pfx ++ escape_into size pfx_num_chars data).

Definition hex_bytes (bytes : list Z) : cstring := concat (map fmt_02x bytes).

Definition write_hex_bytes_packet (prefix : cstring) (bytes : list Z) : G unit :=
  match prefix, bytes with
  | [], [] => write_packet []
  | _, _ => write_packet (prefix ++ hex_bytes bytes)
  end.

(** ** Packets *)

Definition INTERRUPT_CHAR : Z := 3.

Fixpoint find_byte (f : Z -> bool) (l : list Z) : option nat :=
  match l with
  | [] => None
  | b :: l => if f b then Some 0%nat else S <$> find_byte f l
  end.

Definition is_start (b : Z) : bool := (b =? 36) || (b =? INTERRUPT_CHAR).

Definition skip_to_packet_start : G bool :=
  l ← ask inbuf;
  match find_byte is_start l with
  | None => change (set_inbuf []);; mret false
  | Some i => change (set_inbuf (drop i l));; mret true
  end.

Definition poll_incoming : G bool :=
  l ← ask polls;
  match l with
  | [] => mret false
  | b :: l => change (set_polls l);; mret b
  end.

Definition sniff_packet : G bool :=
  found ← skip_to_packet_start;
  if found : bool then mret true
  else
    l ← ask inbuf;
    lift (parser_assert (bool_decide (l = [])));;
    poll_incoming.

(** Every turn of the two loops reads once. *)
Fixpoint await_start (fuel : nat) : G unit :=
  found ← skip_to_packet_start;
  alive ← ask connection_alive_;
  if negb found && alive then
    match fuel with
    | O => fail NoFuel
    | S fuel => read_data_once;; await_start fuel
    end
  else mret tt.

Fixpoint await_end (fuel : nat) (checkedlen : nat) : G unit :=
  l ← ask inbuf;
  match find_byte (fun b => b =? 35) (drop checkedlen l) with
  | Some i => change (set_packetend (checkedlen + i)%nat)
  | None =>
      match fuel with
      | O => fail NoFuel
      | S fuel =>
          read_data_once;;
          alive ← ask connection_alive_;
          if alive : bool then await_end fuel (length l) else mret tt
      end
  end.

Definition read_packet : G unit :=
  n ← ask (fun s => length (incoming s));
  await_start (S n);;
  alive ← ask connection_alive_;
  if negb alive then mret tt
  else
    l ← ask inbuf;
    c ← lift (peek l);
    if c =? INTERRUPT_CHAR then change (set_packetend 1)
    else
      await_end (S n) 0;;
      alive ← ask connection_alive_;
      if negb alive then mret tt
      else
        l ← ask inbuf;
        e ← ask packetend;
        lift (parser_assert ((default 0 (head l) =? 36) && (e <? length l)%nat));;
        ack ← ask no_ack;
        if negb ack then write_data_raw (lit "+");; write_flush else mret tt.

(** ** Encodings *)

Fixpoint read_binary_data (payload : list Z) : result (list Z) :=
  match payload with
  | [] => Ok []
  | b :: payload =>
      if b =? 125 then
        match payload with
        | [] => Err FailedAssert
        | c :: payload => data ← read_binary_data payload; mret (Z.lxor 0x20 c :: data)
        end
      else data ← read_binary_data payload; mret (b :: data)
  end.

(** Two digits at a time. *)
Fixpoint decode_pairs (encoded : cstring) : result cstring :=
  match encoded with
  | a :: b :: encoded =>
      n ← strtol 16 [a; b; 0];
      parser_assert (s32 n.1 <? 128);;
      str ← decode_pairs encoded;
      mret (u8 (s32 n.1) :: str)
  | _ => Ok []
  end.

Definition decode_ascii_encoded_hex_str (encoded : cstring) : result cstring :=
  parser_assert (Nat.even (length encoded));; decode_pairs encoded.

Definition parse_threadid (str : cursor) : result (GdbThreadId * cursor) :=
  c ← peek str;
  let str := if c =? 112 then tail str else str in
  n ← strtol 16 str;
  e ← peek n.2;
  if e =? 0 then mret (mkTid (s32 n.1) (-1), n.2)
  else
    parser_assert (e =? 46);;
    m ← strtol 16 (tail n.2);
    mret (mkTid (s32 n.1) (s32 m.1), m.2).

Definition write_xfer_response (data : list Z) (offset len : Z) : G unit :=
  let size := Z.of_nat (length data) in
  let rest := drop (Z.to_nat offset) data in
  if size <? offset then write_packet (lit "E01")
  else if offset =? size then write_packet (lit "l")
  else if u64 (offset + len) <? size then
    (* [len] bytes from [offset]: more than there are when the sum wraps *)
    if Z.of_nat (length rest) <? len then fail BadAccess
    else write_binary_packet (lit "m") (take (Z.to_nat len) rest)
  else write_binary_packet (lit "l") rest.

(** ** Registers *)

Definition print_reg_value (r : GdbRegisterValue) : result cstring :=
  parser_assert (reg_size r <=? MAX_SIZE);;
  mret (if reg_defined r
        then hex_bytes (map (fun i => nth i (reg_value r) 0) (seq 0 (Z.to_nat (reg_size r))))
        else concat (repeat (lit "xx") (Z.to_nat (reg_size r)))).

(** The bytes from the [i]th; [value] has [MAX_SIZE]. *)
Fixpoint reg_bytes (i : Z) (n : nat) (str : cursor) : result (list Z * cursor) :=
  match n, str with
  | O, _ => Ok ([], str)
  | S n, a :: b :: str =>
      v ← strtoul 16 [a; b; 0];
      (if i <? MAX_SIZE then Ok tt else Err BadAccess);;
      expect_end v.2;;
      r ← reg_bytes (i + 1) n str;
      mret (u8 v.1 :: r.1, r.2)
  | S _, _ => Err BadAccess
  end.

Definition read_reg_value (str : cursor) (r : GdbRegisterValue) : result (GdbRegisterValue * cursor) :=
  c ← peek str;
  if c =? 120 then mret (mkRegValue (reg_name r) (reg_value r) 0 false, str)
  else
    s ← cstr str;
    let size := (length s / 2)%nat in
    b ← reg_bytes 0 size str;
    mret (mkRegValue (reg_name r) b.1 (Z.of_nat size) true, b.2).
