(* ===== verification/GdbRequests.v ===== *)
(** * The parser of debugger requests

    [query], [set_var], [xfer], [process_bpacket], [process_vpacket], [process_packet] and
    [get_request] of GdbConnection.cc.  A method that returns [true] has left a request for
    the server in [req]; one that returns [false] has answered the debugger itself.

    The code cuts the strings it finds by writing NUL into the buffer.  It never looks
    before such a cut again, so each cut gives the string before it and the bytes after. *)

From Stdlib Require Import String.
From stdpp Require Import base tactics list numbers.
From S2P Require Import Prelude CStrings CxxStrings TracerMonad GdbText GdbConnection.
Local Open Scope Z_scope.

(** ** Helpers *)

(** [UNHANDLED_REQ]: an empty answer. *)
Definition unhandled : G bool := write_packet [];; mret false.

Definition set_request (r : GdbRequest) : G bool := change (set_req r);; mret true.

(** A request for the thread [query_thread]. *)
Definition request_for_query_thread (t : GdbRequestType) : G GdbRequest :=
  q ← ask query_thread; mret (with_target q (new_request t)).

(** A pointer the code dereferences without a test. *)
Definition not_null {A} (o : option A) : result A :=
  match o with Some a => Ok a | None => Err BadAccess end.

(** A pointer the code tests with [parser_assert]. *)
Definition found {A} (o : option A) : result A :=
  match o with Some a => Ok a | None => Err FailedAssert end.

Definition consume_request : G unit :=
  change (set_req (new_request DREQ_NONE));; write_flush.

(** ** [qXfer] *)

Definition CPU_64BIT : Z := 1.
Definition CPU_AVX : Z := 2.

Definition target_description_name (cpu_features : Z) : result cstring :=
  if cpu_features =? 0 then Ok (lit "i386-linux.xml")
  else if cpu_features =? CPU_64BIT then Ok (lit "amd64-linux.xml")
  else if cpu_features =? CPU_AVX then Ok (lit "i386-avx-linux.xml")
  else if cpu_features =? Z.lor CPU_64BIT CPU_AVX then Ok (lit "amd64-avx-linux.xml")
  else Err Fatal.

Section Requests.
(** The files of rr's resource directory, by path. *)
Variable resource : cstring -> option cstring.

Definition read_target_desc (file_name : cstring) : result cstring :=
  match resource (lit "share/rr/" ++ file_name) with Some s => Ok s | None => Err FailedAssert end.

Definition xfer (name : cstring) (args : cursor) : G bool :=
  m ← lift (split_at 58 args);
  let mode := m.1 in
  args ← lift (found m.2);
  if negb (str_eqb mode (lit "read")) && negb (str_eqb mode (lit "write")) then
    write_packet [];; mret false
  else
    let read := str_eqb mode (lit "read") in
    a ← lift (split_at 58 args);
    let annex := a.1 in
    args ← lift (found a.2);
    o ← lift (strtoul 16 args);
    let offset := o.1 in
    len ← (if read then
             args ← lift (expect 44 o.2);
             l ← lift (strtoul 16 args);
             lift (expect_end l.2);;
             mret l.1
           else lift (expect 58 o.2);; mret 0);
    if str_eqb name (lit "auxv") then
      if negb (str_eqb annex []) then write_packet (lit "E00");; mret false
      else if negb read then write_packet [];; mret false
      else r ← request_for_query_thread DREQ_GET_AUXV; set_request r
    else if str_eqb name (lit "exec-file") then
      if negb read then write_packet [];; mret false
      else
        t ← lift (strtoul 16 (annex ++ [0]));
        set_request (with_target (mkTid (s32 t.1) (s32 t.1)) (new_request DREQ_GET_EXEC_FILE))
    else if str_eqb name (lit "siginfo") then
      if negb (str_eqb annex []) then write_packet (lit "E00");; mret false
      else if read then
        r ← request_for_query_thread DREQ_READ_SIGINFO;
        set_request (with_mem (mkMem offset len []) r)
      else r ← request_for_query_thread DREQ_WRITE_SIGINFO; set_request r
    else if str_eqb name (lit "features") then
      if negb read then write_packet [];; mret false
      else
        f ← ask cpu_features_;
        file ← lift (if negb (str_eqb annex []) && negb (str_eqb annex (lit "target.xml")) then Ok annex
                     else target_description_name f);
        target_desc ← lift (read_target_desc file);
        write_xfer_response target_desc offset len;; mret false
    else write_packet [];; mret false.

(** ** Queries *)

Definition supported (reverse : bool) : cstring :=
  lit "PacketSize=1048576" ++ lit ";QStartNoAckMode+" ++ lit ";qXfer:features:read+" ++
  lit ";qXfer:auxv:read+" ++ lit ";qXfer:exec-file:read+" ++ lit ";qXfer:siginfo:read+" ++
  lit ";qXfer:siginfo:write+" ++ lit ";multiprocess+" ++ lit ";ConditionalBreakpoints+" ++
  if reverse then lit ";ReverseContinue+" ++ lit ";ReverseStep+" else [].

(** [inbuf.data() + packetend] is [behind] bytes before the end of the buffer. *)
Definition up_to_packetend (behind : nat) (p : cursor) : list Z := take (length p - behind) p.

Definition query (behind : nat) (payload : cursor) : G bool :=
  n ← lift (split_at 58 payload);
  let name := n.1 in
  let args := n.2 in
  if is_prefix (lit "RRCmd") name then
    args ← lift (not_null args);
    text ← lift (cstr args);
    set_request (with_text text (new_request DREQ_RR_CMD))
  else if str_eqb name (lit "C") then set_request (new_request DREQ_GET_CURRENT_THREAD)
  else if str_eqb name (lit "Attached") then write_packet (lit "1");; mret false
  else if str_eqb name (lit "fThreadInfo") then set_request (new_request DREQ_GET_THREAD_LIST)
  else if str_eqb name (lit "sThreadInfo") then write_packet (lit "l");; mret false
  else if str_eqb name (lit "GetTLSAddr") then
    args ← lift (not_null args);
    t ← lift (parse_threadid args);
    args ← lift (expect 44 t.2);
    o ← lift (strtoul 16 args);
    args ← lift (expect 44 o.2);
    l ← lift (strtoul 16 args);
    lift (expect_end l.2);;
    set_request (with_tls (mkTls o.1 l.1) (with_target t.1 (new_request DREQ_TLS)))
  else if str_eqb name (lit "Offsets") then
    r ← request_for_query_thread DREQ_GET_OFFSETS; set_request r
  else if is_prefix (lit "P") name then write_packet [];; mret false
  else if str_eqb name (lit "Supported") then
    rev ← ask reverse_execution;
    write_packet (supported rev);; mret false
  else if str_eqb name (lit "Symbol") then
    args ← lift (not_null args);
    s ← lift (cstr args);
    lift (parser_assert (bool_decide (58 ∈ s)));;
    c ← lift (peek args);
    a ← (if c =? 58 then mret (false, 0, args)
         else n ← lift (strtoul 16 args); mret (true, n.1, n.2));
    args ← lift (expect 58 a.2);
    s ← lift (cstr args);
    name ← lift (decode_ascii_encoded_hex_str s);
    set_request (with_sym (mkSymbol a.1.1 a.1.2 name) (new_request DREQ_QSYMBOL))
  else if is_prefix (lit "ThreadExtraInfo") name then
    lift (parser_assert (bool_decide (args = None)));;
    c ← lift (split_at 44 payload);
    args ← lift (not_null c.2);
    t ← lift (parse_threadid args);
    lift (expect_end t.2);;
    set_request (with_target t.1 (new_request DREQ_GET_THREAD_EXTRA_INFO))
  else if str_eqb name (lit "TStatus") then write_packet [];; mret false
  else if str_eqb name (lit "Xfer") then
    args ← lift (not_null args);
    x ← lift (split_at 58 args);
    args ← lift (found x.2);
    xfer x.1 args
  else if str_eqb name (lit "Search") then
    args ← lift (not_null args);
    x ← lift (split_at 58 args);
    match x.2 with
    | Some args =>
        if str_eqb x.1 (lit "memory") then
          r ← request_for_query_thread DREQ_SEARCH_MEM;
          a ← lift (strtoul 16 args);
          args ← lift (expect 59 a.2);
          l ← lift (strtoul 16 args);
          args ← lift (expect 59 l.2);
          data ← lift (read_binary_data (up_to_packetend behind args));
          set_request (with_mem (mkMem a.1 l.1 data) r)
        else write_packet [];; mret false
    | None => write_packet [];; mret false
    end
  else unhandled.

Definition set_var (payload : cursor) : G bool :=
  n ← lift (split_at 58 payload);
  if str_eqb n.1 (lit "StartNoAckMode") then
    write_packet (lit "OK");; change (set_no_ack true);; mret false
  else unhandled.

(** ** Execution *)

Definition process_bpacket (payload : cursor) : G bool :=
  s ← lift (cstr payload);
  t ← ask resume_thread;
  if str_eqb s (lit "c") then
    set_request (with_cont (mkCont RUN_BACKWARD [mkAction ACTION_CONTINUE t 0]) (new_request DREQ_CONT))
  else if str_eqb s (lit "s") then
    set_request (with_cont (mkCont RUN_BACKWARD [mkAction ACTION_STEP t 0]) (new_request DREQ_CONT))
  else unhandled.

(** The command of an action: up to a colon, a semicolon or the end; with the separator and
    what follows. *)
Fixpoint scan_action (p : cursor) : result (cstring * option (Z * cursor)) :=
  match p with
  | [] => Err BadAccess
  | c :: q =>
      if (c =? 58) || (c =? 59) then Ok ([], Some (c, q))
      else if c =? 0 then Ok ([], None)
      else r ← scan_action q; mret (c :: r.1, r.2)
  end.

(** The thread of an action, and the text of the next. *)
Definition action_target_of (sep : option (Z * cursor)) : result (option GdbThreadId * option cursor) :=
  match sep with
  | None => Ok (None, None)
  | Some (c, rest) =>
      if c =? 58 then
        t ← parse_threadid rest;
        r ← split_at 59 t.2;
        mret (Some t.1, r.2)
      else Ok (None, Some rest)
  end.

(** The type and signal of a command; [None] when it is not understood.  The end of the
    number is only looked at for [C]. *)
Definition action_of (cmd : cstring) : result (option (GdbActionType * Z)) :=
  match cmd with
  | [] => Ok None
  | c :: rest =>
      if c =? 67 then
        n ← strtol 16 (rest ++ [0]);
        e ← peek n.2;
        mret (if e =? 0 then Some (ACTION_CONTINUE, s32 n.1) else None)
      else if c =? 99 then mret (Some (ACTION_CONTINUE, 0))
      else if c =? 83 then
        n ← strtol 16 (rest ++ [0]);
        mret (Some (ACTION_STEP, s32 n.1))
      else if c =? 115 then mret (Some (ACTION_STEP, 0))
      else mret None
  end.

(** The loop over the actions, with the default action found so far; [None] when one is not
    understood. *)
Fixpoint vcont_actions (fuel : nat) (args : option cursor) (acts : list GdbContAction)
    (dflt : option GdbContAction) : result (option (list GdbContAction)) :=
  match args with
  | None => Ok (Some (acts ++ match dflt with Some d => [d] | None => [] end))
  | Some p =>
      match fuel with
      | O => Err NoFuel
      | S fuel =>
          c ← scan_action p;
          t ← action_target_of c.2;
          a ← action_of c.1;
          match a with
          | None => Ok None
          | Some (ty, sig) =>
              match t.1 with
              | Some target => vcont_actions fuel t.2 (acts ++ [mkAction ty target sig]) dflt
              | None =>
                  match dflt with
                  | Some _ => Ok None
                  | None => vcont_actions fuel t.2 acts (Some (mkAction ty ALL sig))
                  end
              end
          end
      end
  end.

Definition O_WRONLY : Z := 1.
Definition O_RDWR : Z := 2.
Definition O_CREAT : Z := 0x40.
Definition O_EXCL : Z := 0x80.
Definition O_TRUNC : Z := 0x200.
Definition O_APPEND : Z := 0x400.

Definition gdb_open_flags_to_system_flags (flags : Z) : result Z :=
  let has bit flag ret := if negb (Z.land flags bit =? 0) then Z.lor ret flag else ret in
  ret ← (if Z.land flags 3 =? 0 then Ok 0
         else if Z.land flags 3 =? 1 then Ok O_WRONLY
         else if Z.land flags 3 =? 2 then Ok O_RDWR
         else Err FailedAssert);
  parser_assert (Z.land flags (Z.lnot 0xe0b) =? 0);;
  mret (has 0x800 O_EXCL (has 0x400 O_TRUNC (has 0x200 O_CREAT (has 0x8 O_APPEND ret)))).

(** [vFile], with the operation as a NUL-terminated string. *)
Definition file_request (operation : cstring) : result (option GdbRequest) :=
  if is_prefix (lit "open:") operation then
    f ← split_at 44 (drop 5 operation ++ [0]);
    rest ← found f.2;
    name ← decode_ascii_encoded_hex_str f.1;
    fl ← strtol 16 rest;
    rest ← expect 44 fl.2;
    flags ← gdb_open_flags_to_system_flags fl.1;
    m ← strtol 16 rest;
    expect_end m.2;;
    parser_assert (Z.land m.1 (Z.lnot 511) =? 0);;
    mret (Some (with_file_open (mkFileOpen name flags m.1) (new_request DREQ_FILE_OPEN)))
  else if is_prefix (lit "close:") operation then
    n ← strtol 16 (drop 6 operation ++ [0]);
    expect_end n.2;;
    parser_assert (s32 n.1 =? n.1);;
    mret (Some (with_file_close n.1 (new_request DREQ_FILE_CLOSE)))
  else if is_prefix (lit "pread:") operation then
    n ← strtol 16 (drop 6 operation ++ [0]);
    rest ← expect 44 n.2;
    parser_assert (s32 n.1 =? n.1);;
    s ← strtol 16 rest;
    rest ← expect 44 s.2;
    parser_assert (0 <=? s.1);;
    o ← strtol 16 rest;
    expect_end o.2;;
    parser_assert (0 <=? o.1);;
    mret (Some (with_file_pread (mkFilePread n.1 s.1 o.1) (new_request DREQ_FILE_PREAD)))
  else if is_prefix (lit "setfs:") operation then
    n ← strtol 16 (drop 6 operation ++ [0]);
    expect_end n.2;;
    parser_assert (s32 n.1 =? n.1);;
    mret (Some (with_file_setfs n.1 (new_request DREQ_FILE_SETFS)))
  else mret None.

(** The restart point of [vRun], decoded. *)
Definition restart_point (event_str : cstring) : result Restart :=
  let checkpoint := is_prefix (lit "c") event_str in
  n ← strtol 0 ((if checkpoint then drop 1 event_str else event_str) ++ [0]);
  e ← peek n.2;
  let str := if checkpoint then drop 1 event_str else [] in
  mret (if negb (e =? 0) then mkRestart (-1) str RESTART_FROM_PREVIOUS
        else mkRestart (s32 n.1) str (if checkpoint then RESTART_FROM_CHECKPOINT else RESTART_FROM_EVENT)).

Definition run_request (args : cursor) : result GdbRequest :=
  f ← split_at 59 args;
  match f.1 with
  | _ :: _ => Err Fatal
  | [] =>
      match f.2 with
      | None => mret (with_restart (mkRestart 0 [] RESTART_FROM_PREVIOUS) (new_request DREQ_RESTART))
      | Some args =>
          a ← split_at 59 args;
          event_str ← decode_ascii_encoded_hex_str a.1;
          r ← restart_point event_str;
          mret (with_restart r (new_request DREQ_RESTART))
      end
  end.

Definition process_vpacket (payload : cursor) : G bool :=
  n ← lift (split_at 59 payload);
  let name := n.1 in
  if str_eqb name (lit "Cont") then
    a ← lift (vcont_actions (S (length payload)) n.2 [] None);
    match a with
    | Some acts => set_request (with_cont (mkCont RUN_FORWARD acts) (new_request DREQ_CONT))
    | None => unhandled
    end
  else if str_eqb name (lit "Cont?") then write_packet (lit "vCont;c;C;s;S;");; mret false
  else if str_eqb name (lit "Kill") then write_packet (lit "OK");; mret false
  else if str_eqb name (lit "Run") then
    args ← lift (not_null n.2);
    r ← lift (run_request args);
    set_request r
  else if is_prefix (lit "File:") name then
    r ← lift (file_request (drop 5 name));
    match r with
    | Some r => set_request r
    | None => write_packet [];; mret false
    end
  else unhandled.

(** ** Breakpoints and watchpoints *)

(** [GdbRequestType(type + DREQ_SET_SW_BREAK)] for the types from 0 to 4. *)
Definition watch_request_type (set : bool) (type : Z) : GdbRequestType :=
  nth (Z.to_nat type)
    (if set then [DREQ_SET_SW_BREAK; DREQ_SET_HW_BREAK; DREQ_SET_WR_WATCH; DREQ_SET_RD_WATCH; DREQ_SET_RDWR_WATCH]
     else [DREQ_REMOVE_SW_BREAK; DREQ_REMOVE_HW_BREAK; DREQ_REMOVE_WR_WATCH; DREQ_REMOVE_RD_WATCH; DREQ_REMOVE_RDWR_WATCH])
    DREQ_NONE.

(** [len] bytes of a condition. *)
Fixpoint condition_bytes (p : cursor) (len : Z) : result (list Z * cursor) :=
  if len <=? 0 then Ok ([], p)
  else
    match p with
    | [] => Err BadAccess
    | a :: p1 =>
        if a =? 0 then Err FailedAssert
        else
          match p1 with
          | [] => Err BadAccess
          | b :: p2 =>
              if b =? 0 then Err FailedAssert
              else
                match p2 with
                | [] => Err BadAccess
                | _ =>
                    v ← strtol 16 [a; b; 0];
                    expect_end v.2;;
                    r ← condition_bytes p2 (len - 1);
                    mret (u8 v.1 :: r.1, r.2)
                end
          end
    end.

Fixpoint conditions (fuel : nat) (p : cursor) : result (list (list Z) * cursor) :=
  c ← peek p;
  if negb (c =? 88) then mret ([], p)
  else
    match fuel with
    | O => Err NoFuel
    | S fuel =>
        n ← strtol 16 (tail p);
        p ← expect 44 n.2;
        b ← condition_bytes p (s32 n.1);
        r ← conditions fuel b.2;
        mret (b.1 :: r.1, r.2)
    end.

Definition watch_request (set : bool) (type : Z) (p : cursor) : result GdbRequest :=
  a ← strtoul 16 p;
  p ← expect 44 a.2;
  k ← strtoul 16 p;
  c ← peek k.2;
  conds ← (if c =? 59 then conditions (length p) (tail k.2) else mret ([], k.2));
  expect_end conds.2;;
  mret (with_watch (mkWatchReq a.1 (s32 k.1) conds.1) (new_request (watch_request_type set type))).

(** ** Requests *)

Definition interrupt_request : G bool :=
  change (set_req (new_request DREQ_INTERRUPT));;
  change (fun s => set_inbuf (tail (inbuf s)) s);;
  mret true.

Definition read_mem_request (payload : cursor) : result (Z * Z) :=
  a ← strtoul 16 payload;
  payload ← expect 44 a.2;
  l ← strtoul 16 payload;
  expect_end l.2;;
  mret (a.1, l.1).

Definition write_mem_request (behind : nat) (payload : cursor) : result Mem :=
  a ← strtoul 16 payload;
  payload ← expect 44 a.2;
  l ← strtoul 16 payload;
  payload ← expect 58 l.2;
  data ← read_binary_data (up_to_packetend behind payload);
  parser_assert (l.1 =? Z.of_nat (length data));;
  mret (mkMem a.1 l.1 data).

Definition write_reg_request (payload : cursor) : result GdbRegisterValue :=
  n ← strtoul 16 payload;
  payload ← expect 61 n.2;
  v ← read_reg_value payload (mkRegValue (u32 n.1) [] 0 false);
  expect_end v.2;;
  mret v.1.

Definition handle_request (request : Z) (behind : nat) (payload : cursor) : G bool :=
  if request =? 98 (* b *) then process_bpacket payload
  else if request =? 68 (* D *) then set_request (new_request DREQ_DETACH)
  else if request =? 103 (* g *) then r ← request_for_query_thread DREQ_GET_REGS; set_request r
  else if request =? 71 (* G *) then write_packet [];; mret false
  else if request =? 72 (* H *) then
    c ← lift (next payload);
    t ← lift (parse_threadid c.2);
    lift (expect_end t.2);;
    set_request (with_target t.1
      (new_request (if c.1 =? 99 then DREQ_SET_CONTINUE_THREAD else DREQ_SET_QUERY_THREAD)))
  else if request =? 107 (* k *) then write_packet (lit "OK");; fail Exited
  else if request =? 109 (* m *) then
    r ← request_for_query_thread DREQ_GET_MEM;
    m ← lift (read_mem_request payload);
    set_request (with_mem (mkMem m.1 m.2 []) r)
  else if request =? 77 (* M *) then write_packet [];; mret false
  else if request =? 112 (* p *) then
    r ← request_for_query_thread DREQ_GET_REG;
    n ← lift (strtoul 16 payload);
    lift (expect_end n.2);;
    set_request (with_reg (mkRegValue (u32 n.1) [] 0 false) r)
  else if request =? 80 (* P *) then
    r ← request_for_query_thread DREQ_SET_REG;
    v ← lift (write_reg_request payload);
    set_request (with_reg v r)
  else if request =? 113 (* q *) then query behind payload
  else if request =? 81 (* Q *) then set_var payload
  else if request =? 84 (* T *) then
    t ← lift (parse_threadid payload);
    lift (expect_end t.2);;
    set_request (with_target t.1 (new_request DREQ_GET_IS_THREAD_ALIVE))
  else if request =? 118 (* v *) then process_vpacket payload
  else if request =? 88 (* X *) then
    r ← request_for_query_thread DREQ_SET_MEM;
    m ← lift (write_mem_request behind payload);
    set_request (with_mem m r)
  else if (request =? 122) || (request =? 90) (* z, Z *) then
    t ← lift (strtol 16 payload);
    payload ← lift (expect 44 t.2);
    let type := s32 t.1 in
    if negb ((0 <=? type) && (type <=? 4)) then write_packet [];; mret false
    else r ← lift (watch_request (request =? 90) type payload); set_request r
  else if request =? 33 (* ! *) then write_packet (lit "OK");; mret false
  else if request =? 63 (* ? *) then r ← request_for_query_thread DREQ_GET_STOP_REASON; set_request r
  else unhandled.

Definition process_packet : G bool :=
  l ← ask inbuf;
  e ← ask packetend;
  c ← lift (peek l);
  lift (parser_assert ((c =? INTERRUPT_CHAR) ||
    ((c =? 36) && bool_decide (find_byte (fun b => b =? 35) l = Some e))));;
  if c =? INTERRUPT_CHAR then interrupt_request
  else
    request ← lift (peek (drop 1 l));
    let cut := <[e := 0]> l in
    ret ← handle_request request (length l - e) (drop 2 cut);
    change (set_inbuf (drop (S e) cut));;
    (if negb ret then consume_request else mret tt);;
    mret ret.

(** ** Waiting for a request *)

Definition notify_restart : G unit :=
  r ← ask req;
  ASSERT (bool_decide (type r = DREQ_RESTART));;
  change (set_resume_thread ANY);;
  change (set_query_thread ANY);;
  change (set_req (new_request DREQ_NONE)).

(** Requests the server must answer before it asks for the next. *)
Definition request_needs_immediate_response (r : GdbRequest) : bool :=
  match type r with DREQ_NONE | DREQ_CONT => false | _ => true end.

Fixpoint get_packets (fuel : nat) : G GdbRequest :=
  match fuel with
  | O => fail NoFuel
  | S fuel =>
      read_packet;;
      alive ← ask connection_alive_;
      if negb alive then change (set_req (new_request DREQ_DETACH));; ask req
      else
        done ← process_packet;
        if done : bool then ask req else get_packets fuel
  end.

(** The assertion on the request before is one of the build with [DEBUG], as every [DEBUG_ASSERT] of the model; without it the
    request is overwritten. *)
Definition get_request (fuel : nat) : G GdbRequest :=
  r ← ask req;
  if bool_decide (type r = DREQ_RESTART) then
    notify_restart;;
    q ← ask query_thread;
    change (set_req (with_target q (new_request DREQ_GET_STOP_REASON)));;
    ask req
  else
    ASSERT (negb (request_needs_immediate_response r));;
    data ← sniff_packet;
    if negb data && is_resume_request r then mret r else get_packets fuel.

End Requests.
