(* ===== verification/GdbReplies.v ===== *)
(** * The answers to the debugger

    The [notify_] and [reply_] methods of GdbConnection.cc: each checks that it answers the
    pending request, writes one packet and consumes the request.  [DEBUG_ASSERT]s are those
    of a debug build; the one of [notify_no_such_thread] compares object representations
    and is left out. *)

From Stdlib Require Import String.
From stdpp Require Import base tactics list numbers.
From S2P Require Import Prelude CStrings CxxStrings TracerMonad GdbText GdbConnection GdbRequests.
Local Open Scope Z_scope.

(** ** Signals and errors *)

(** Linux signal numbers in gdb's numbering (signals.def). *)
Definition to_gdb_signum (sig : Z) : Z :=
  match sig with
  | 0 => 0 | 1 => 1 | 2 => 2 | 3 => 3 | 4 => 4 | 5 => 5 | 6 => 6
  | 7 => 10 | 8 => 8 | 9 => 9 | 10 => 30 | 11 => 11 | 12 => 31 | 13 => 13 | 14 => 14 | 15 => 15
  | 16 => 38 | 17 => 20 | 18 => 19 | 19 => 17 | 20 => 18 | 21 => 21 | 22 => 22 | 23 => 16 | 24 => 24
  | 25 => 25 | 26 => 26 | 27 => 27 | 28 => 28 | 29 => 23 | 30 => 32 | 31 => 12
  | 32 => 77
  | _ =>
      if (33 <=? sig) && (sig <=? 63) then sig + 12
      else if (64 <=? sig) && (sig <=? 127) then sig + 14
      else 143
  end.

(** Linux error numbers in the numbering of gdb's file protocol. *)
Definition gdb_errno (err : Z) : Z :=
  match err with
  | 1 (* EPERM *) => 1 | 2 (* ENOENT *) => 2 | 4 (* EINTR *) => 4 | 9 (* EBADF *) => 9
  | 13 (* EACCES *) => 13 | 14 (* EFAULT *) => 14 | 16 (* EBUSY *) => 16 | 17 (* EEXIST *) => 17
  | 19 (* ENODEV *) => 19 | 20 (* ENOTDIR *) => 20 | 21 (* EISDIR *) => 21 | 22 (* EINVAL *) => 22
  | 23 (* ENFILE *) => 23 | 24 (* EMFILE *) => 24 | 27 (* EFBIG *) => 27 | 28 (* ENOSPC *) => 28
  | 29 (* ESPIPE *) => 29 | 30 (* EROFS *) => 30 | 36 (* ENAMETOOLONG *) => 91
  | _ => 9999
  end.

(** ** Text *)

(** What [write_packet] sees of a [std::string]. *)
Fixpoint c_str (s : cstring) : cstring :=
  match s with
  | [] => []
  | c :: s => if c =? 0 then [] else c :: c_str s
  end.

Definition thread_text (t : GdbThreadId) : cstring :=
  lit "p" ++ fmt_02x (u32 (pid t)) ++ lit "." ++ fmt_02x (u32 (tid t)).

Definition stop_text (thread : GdbThreadId) (sig watch_addr : Z) : cstring :=
  lit "T" ++ fmt_02x (u32 (to_gdb_signum sig)) ++ lit "thread:" ++ thread_text thread ++ lit ";" ++
  if watch_addr =? 0 then [] else lit "watch:" ++ fmt_x watch_addr ++ lit ";".

Definition thread_list_text (tgid : Z) (threads : list GdbThreadId) : cstring :=
  lit "m" ++ concat (map (fun t => thread_text t ++ lit ",") (filter (fun t => tgid = pid t) threads)).

(** ** The pending request *)

(** [DEBUG_ASSERT(... == req.type)]. *)
Definition answers (ts : list GdbRequestType) : G unit :=
  r ← ask req; ASSERT (bool_decide (type r ∈ ts)).

Definition ok_or (ok : bool) (err : cstring) : cstring := if ok then lit "OK" else err.

(** One packet, and the request is done. *)
Definition reply (text : cstring) : G unit := write_packet text;; consume_request.

(** ** Notifications *)

Definition notify_no_such_thread : G unit := reply (lit "E10").

Definition notify_exit_code (code : Z) : G unit :=
  answers [DREQ_CONT; DREQ_INTERRUPT];;
  reply (lit "W" ++ fmt_02x (u32 code)).

Definition notify_exit_signal (sig : Z) : G unit :=
  answers [DREQ_CONT; DREQ_INTERRUPT];;
  reply (lit "X" ++ fmt_02x (u32 sig)).

Definition send_stop_reply_packet (thread : GdbThreadId) (sig watch_addr : Z) : G unit :=
  if sig <? 0 then write_packet (lit "E01")
  else write_packet (stop_text thread sig watch_addr).

Definition notify_stop (thread : GdbThreadId) (sig watch_addr : Z) : G unit :=
  answers [DREQ_CONT; DREQ_INTERRUPT];;
  g ← ask tgid;
  if negb (g =? pid thread) then mret tt
  else
    send_stop_reply_packet thread sig watch_addr;;
    r ← ask req;
    let t := if is_resume_request r && bool_decide (run_direction (cont_ r) = RUN_BACKWARD) then ANY
             else thread in
    change (set_resume_thread t);;
    change (set_query_thread t);;
    consume_request.

Definition notify_restart_failed : G unit := answers [DREQ_RESTART];; reply (lit "E01").

(** ** Replies *)

Definition reply_get_current_thread (thread : GdbThreadId) : G unit :=
  answers [DREQ_GET_CURRENT_THREAD];;
  reply (lit "QC" ++ thread_text thread).

Definition reply_get_auxv (auxv : list Z) : G unit :=
  answers [DREQ_GET_AUXV];;
  match auxv with
  | [] => write_packet (lit "E01")
  | _ => write_binary_packet (lit "l") auxv
  end;;
  consume_request.

Definition reply_get_exec_file (exec_file : cstring) : G unit :=
  answers [DREQ_GET_EXEC_FILE];;
  match exec_file with
  | [] => write_packet (lit "E01")
  | _ => write_binary_packet (lit "l") exec_file
  end;;
  consume_request.

Definition reply_get_is_thread_alive (alive : bool) : G unit :=
  answers [DREQ_GET_IS_THREAD_ALIVE];; reply (ok_or alive (lit "E01")).

(** The name and its terminating NUL. *)
Definition reply_get_thread_extra_info (info : cstring) : G unit :=
  answers [DREQ_GET_THREAD_EXTRA_INFO];;
  write_hex_bytes_packet [] (info ++ [0]);;
  consume_request.

Definition reply_select_thread (ok : bool) : G unit :=
  answers [DREQ_SET_CONTINUE_THREAD; DREQ_SET_QUERY_THREAD];;
  r ← ask req;
  (if ok && bool_decide (type r = DREQ_SET_CONTINUE_THREAD) then change (set_resume_thread (target r))
   else if ok && bool_decide (type r = DREQ_SET_QUERY_THREAD) then change (set_query_thread (target r))
   else mret tt);;
  reply (ok_or ok (lit "E01")).

Definition reply_get_mem (mem : list Z) : G unit :=
  answers [DREQ_GET_MEM];;
  r ← ask req;
  ASSERT (Z.of_nat (length mem) <=? mem_len (mem_ r));;
  (if (0 <? mem_len (mem_ r)) && (length mem =? 0)%nat then write_packet (lit "E01")
   else write_hex_bytes_packet [] mem);;
  consume_request.

Definition reply_set_mem (ok : bool) : G unit :=
  answers [DREQ_SET_MEM];; reply (ok_or ok (lit "E01")).

Definition reply_search_mem (found : bool) (addr : Z) : G unit :=
  answers [DREQ_SEARCH_MEM];;
  reply (if found then lit "1," ++ fmt_x addr else lit "0").

Definition reply_get_offsets : G unit := answers [DREQ_GET_OFFSETS];; reply [].

(** The buffer of a register has no terminator when nothing was printed into it. *)
Definition terminated (s : cstring) : result cstring :=
  match s with [] => Err BadAccess | _ => Ok s end.

Definition reply_get_reg (reg : GdbRegisterValue) : G unit :=
  answers [DREQ_GET_REG];;
  buf ← lift (print_reg_value reg);
  buf ← lift (terminated buf);
  reply buf.

Fixpoint print_regs (file : list GdbRegisterValue) : result cstring :=
  match file with
  | [] => Ok []
  | r :: file => a ← print_reg_value r; b ← print_regs file; mret (a ++ b)
  end.

Definition reply_get_regs (file : list GdbRegisterValue) : G unit :=
  answers [DREQ_GET_REGS];;
  buf ← lift (print_regs file);
  buf ← lift (terminated buf);
  reply buf.

Definition reply_set_reg (ok : bool) : G unit := answers [DREQ_SET_REG];; reply (ok_or ok []).

Definition reply_get_stop_reason (which : GdbThreadId) (sig : Z) : G unit :=
  answers [DREQ_GET_STOP_REASON];;
  send_stop_reply_packet which sig 0;;
  consume_request.

(** The last character, meant to be a comma, becomes the end of the string. *)
Definition reply_get_thread_list (threads : list GdbThreadId) : G unit :=
  answers [DREQ_GET_THREAD_LIST];;
  g ← ask tgid;
  match threads with
  | [] => write_packet (lit "l")
  | _ => write_packet (removelast (thread_list_text g threads))
  end;;
  consume_request.

Definition reply_watchpoint_request (ok : bool) : G unit :=
  answers [DREQ_REMOVE_SW_BREAK; DREQ_REMOVE_HW_BREAK; DREQ_REMOVE_WR_WATCH; DREQ_REMOVE_RD_WATCH;
           DREQ_REMOVE_RDWR_WATCH; DREQ_SET_SW_BREAK; DREQ_SET_HW_BREAK; DREQ_SET_WR_WATCH;
           DREQ_SET_RD_WATCH; DREQ_SET_RDWR_WATCH];;
  reply (ok_or ok (lit "E01")).

(** The check is [<=]: it accepts every later type of request. *)
Definition reply_detach : G unit :=
  r ← ask req;
  ASSERT (negb (bool_decide (type r ∈ [DREQ_NONE; DREQ_GET_CURRENT_THREAD; DREQ_GET_OFFSETS; DREQ_GET_REGS;
    DREQ_GET_STOP_REASON; DREQ_GET_THREAD_LIST; DREQ_INTERRUPT])));;
  reply (lit "OK").

Definition reply_read_siginfo (si_bytes : list Z) : G unit :=
  answers [DREQ_READ_SIGINFO];;
  match si_bytes with
  | [] => write_packet (lit "E01")
  | _ => write_binary_packet (lit "l") si_bytes
  end;;
  consume_request.

Definition reply_write_siginfo : G unit := answers [DREQ_WRITE_SIGINFO];; reply (lit "E01").

Definition reply_rr_cmd (text : cstring) : G unit := answers [DREQ_RR_CMD];; reply (c_str text).

Definition send_qsymbol (name : cstring) : G unit :=
  answers [DREQ_QSYMBOL];;
  write_hex_bytes_packet (lit "qSymbol:") name;;
  consume_request.

Definition qsymbols_finished : G unit := answers [DREQ_QSYMBOL];; reply (lit "OK").

Definition reply_tls_addr (ok : bool) (address : Z) : G unit :=
  answers [DREQ_TLS];;
  reply (if ok then fmt_x address else lit "E01").

(** ** Files *)

Definition send_file_error_reply (system_errno : Z) : G unit :=
  write_packet (lit "F-01," ++ fmt_x (gdb_errno system_errno)).

Definition reply_setfs (err : Z) : G unit :=
  answers [DREQ_FILE_SETFS];;
  (if negb (err =? 0) then send_file_error_reply err else write_packet (lit "F0"));;
  consume_request.

Definition reply_open (fd err : Z) : G unit :=
  answers [DREQ_FILE_OPEN];;
  (if negb (err =? 0) then send_file_error_reply err else write_packet (lit "F" ++ fmt_x (u32 fd)));;
  consume_request.

Definition reply_pread (bytes : list Z) (err : Z) : G unit :=
  answers [DREQ_FILE_PREAD];;
  (if negb (err =? 0) then send_file_error_reply err
   else write_binary_packet (lit "F" ++ fmt_x (Z.of_nat (length bytes)) ++ lit ";") bytes);;
  consume_request.

Definition reply_close (err : Z) : G unit :=
  answers [DREQ_FILE_CLOSE];;
  (if negb (err =? 0) then send_file_error_reply err else write_packet (lit "F0"));;
  consume_request.
