(* ===== verification/GdbEncodingSpec.v ===== *)
(** * The encodings of the remote protocol: round trips

    What a debugger that follows the protocol reads from a packet of rr, and what rr reads
    from a packet encoded the same way: framing and checksum, the escapes of binary data,
    hexadecimal bytes and registers, thread ids. *)

From Stdlib Require Import String.
From stdpp Require Import base tactics list numbers.
From S2P Require Import Prelude CStrings CxxStrings TracerMonad GdbText GdbConnection GdbRequests GdbReplies.
Local Open Scope Z_scope.

Definition byte_list (l : list Z) : Prop := Forall (fun b => 0 <= b < 256) l.

(** Membership in a list of constants. *)
Ltac in_list := repeat setoid_rewrite elem_of_cons; setoid_rewrite elem_of_nil; lia.

(** ** Binary data *)

Definition special (b : Z) : bool := (b =? 35) || (b =? 36) || (b =? 125) || (b =? 42).

(** The encoding without a buffer. *)
Definition escape (data : list Z) : list Z :=
  concat (map (fun b => if special b then [125; Z.lxor b 0x20] else [b]) data).

(** The buffer of [write_binary_packet] never fills up. *)
Lemma escape_into_ok size used data :
  used + 2 * Z.of_nat (length data) <= size -> escape_into size used data = escape data.
Proof.
  revert used. induction data as [|b data IH]; intros used H; [done|]. cbn [length] in H.
  cbn [escape_into]. destruct (Z.ltb_spec size (used + 2)); [lia|]. unfold escape. cbn [map concat].
  fold (escape data). fold (special b). destruct (special b); cbn [app]; rewrite IH by lia; done.
Qed.

Lemma special_xor b : special b = true -> Z.lxor 0x20 (Z.lxor b 0x20) = b /\ Z.lxor b 0x20 ∈ [3; 4; 93; 10].
Proof.
  unfold special. rewrite !orb_true_iff, !Z.eqb_eq. intros [[[->| ->]| ->]| ->]; (split; [reflexivity|]);
    [change (Z.lxor 35 32) with 3|change (Z.lxor 36 32) with 4|change (Z.lxor 125 32) with 93|change (Z.lxor 42 32) with 10]; in_list.
Qed.

Lemma read_binary_escape data : read_binary_data (escape data) = Ok data.
Proof.
  induction data as [|b data IH]; [done|]. unfold escape. cbn [map concat]. fold (escape data).
  destruct (special b) eqn:Hb; cbn [app read_binary_data].
  - change (125 =? 125) with true. cbv iota. rewrite IH. cbn [mbind result_bind]. by rewrite (proj1 (special_xor b Hb)).
  - assert (b =? 125 = false) as -> by (unfold special in Hb; rewrite !orb_false_iff in Hb; tauto). by rewrite IH.
Qed.

Lemma escape_plain data c : c ∈ [35; 36; 42] -> c ∉ escape data.
Proof.
  intros Hc Hin. unfold escape in Hin. apply list_elem_of_In, in_concat in Hin as (l & Hl & Hin).
  apply in_map_iff in Hl as (b & <- & _). destruct (special b) eqn:Hb.
  - destruct (special_xor b Hb) as [_ Hx]. destruct Hin as [<-|[<-|[]]]; [revert Hc; in_list|].
    revert Hc Hx. rewrite !elem_of_cons, elem_of_nil. lia.
  - destruct Hin as [->|[]]. unfold special in Hb. rewrite !orb_false_iff, !Z.eqb_neq in Hb.
    revert Hc. rewrite !elem_of_cons, elem_of_nil. lia.
Qed.

(** ** Frames *)

Definition frame (data : list Z) : list Z := 36 :: data ++ 35 :: fmt_02x (checksum data).

(** The debugger's side: the next packet, if its checksum is right, and what follows. *)
Definition unframe (l : list Z) : option (list Z * list Z) :=
  match l with
  | 36 :: l =>
      e ← find_byte (fun b => b =? 35) l;
      let data := take e l in
      match drop (S e) l with
      | a :: b :: rest => if digit a * 16 + digit b =? checksum data then Some (data, rest) else None
      | _ => None
      end
  | _ => None
  end.

Lemma checksum_bounds data : 0 <= checksum data < 256.
Proof.
  unfold checksum. destruct data as [|x l _] using rev_ind; [cbn; lia|]. rewrite fold_left_app. cbn.
  pose proof (Z.mod_pos_bound (fold_left (fun sum b : Z => u8 (sum + b)) l 0 + x) 256 ltac:(lia)). unfold wrapu. by change (2 ^ 8) with 256.
Qed.

Lemma find_byte_app f a c b : (forall x, x ∈ a -> f x = false) -> f c = true ->
  find_byte f (a ++ c :: b) = Some (length a).
Proof.
  intros Ha Hc. induction a as [|x a IH]; cbn; [by rewrite Hc|]. rewrite Ha by left. rewrite IH; [done|].
  intros y Hy. apply Ha. by right.
Qed.

Lemma find_byte_none f a : (forall x, x ∈ a -> f x = false) -> find_byte f a = None.
Proof.
  intros Ha. induction a as [|x a IH]; cbn; [done|]. rewrite Ha by left. rewrite IH; [done|].
  intros y Hy. apply Ha. by right.
Qed.

Lemma find_hash a b : 35 ∉ a -> find_byte (fun x => x =? 35) (a ++ 35 :: b) = Some (length a).
Proof. intros H. apply find_byte_app; [|done]. intros x Hx. apply Z.eqb_neq. by intros ->. Qed.

Lemma unframe_frame data rest : 35 ∉ data -> unframe (frame data ++ rest) = Some (data, rest).
Proof.
  intros H. unfold unframe, frame. cbn [app]. rewrite <- app_assoc. cbn [app]. rewrite find_hash by done. cbn [mbind option_bind].
  rewrite take_app_length. replace (S (length data)) with (length data + 1)%nat by lia.
  rewrite drop_app_add. cbn [drop]. pose proof (checksum_bounds data) as Hc. rewrite fmt_02x_byte by done. cbn [app].
  assert (0 <= checksum data / 16 < 16).
  { split; [apply Z.div_pos; lia|apply Z.div_lt_upper_bound; lia]. }
  pose proof (Z.mod_pos_bound (checksum data) 16 ltac:(lia)).
  rewrite drop_0, !digit_hex_digit by done. pose proof (Z.div_mod (checksum data) 16 ltac:(lia)).
  destruct (Z.eqb_spec (checksum data / 16 * 16 + checksum data mod 16) (checksum data)); [done|lia].
Qed.

Lemma write_packet_bytes_ok data s :
  write_packet_bytes data s = (Ok tt, set_outbuf (outbuf s ++ frame data) s).
Proof.
  unfold write_packet_bytes, write_hex, write_data_raw, change, mbind, TM_bind, frame. cbn.
  by rewrite <- !app_assoc.
Qed.

Lemma write_binary_packet_ok pfx data s :
  write_binary_packet pfx data s = (Ok tt, set_outbuf (outbuf s ++ frame (pfx ++ escape data)) s).
Proof. unfold write_binary_packet. rewrite escape_into_ok by lia. apply write_packet_bytes_ok. Qed.

(** Binary packets: the debugger finds the packet, its checksum is right, and behind the prefix it
    decodes the data; nothing is cut off. *)
Theorem binary_packet_roundtrip pfx data rest s :
  35 ∉ pfx ->
  exists f, write_binary_packet pfx data s = (Ok tt, set_outbuf (outbuf s ++ f) s) /\
    exists encoded, unframe (f ++ rest) = Some (pfx ++ encoded, rest) /\ read_binary_data encoded = Ok data /\
      36 ∉ encoded /\ 42 ∉ encoded.
Proof.
  intros Hp. exists (frame (pfx ++ escape data)). split; [apply write_binary_packet_ok|].
  exists (escape data). split_and!; [|apply read_binary_escape|apply escape_plain; in_list..].
  apply unframe_frame. rewrite elem_of_app. intros [H|H]; [done|]. revert H. apply escape_plain. in_list.
Qed.

(** ** Hexadecimal data *)

Lemma pair_of_byte b : 0 <= b < 256 -> strtol 16 (fmt_02x b ++ [0]) = Ok (b, [0]) /\ strtoul 16 (fmt_02x b ++ [0]) = Ok (b, [0]).
Proof.
  intros H. destruct (fmt_02x_ok b ltac:(lia)) as (H1 & H2 & H3).
  rewrite strtol_hex, strtoul_hex, H3 by (done || lia). done.
Qed.

Lemma hex_bytes_hex l : byte_list l -> Forall is_hex (hex_bytes l).
Proof.
  induction 1 as [|b l Hb Hl IH]; [constructor|]. unfold hex_bytes. cbn. apply Forall_app. split; [|done].
  apply fmt_02x_ok. lia.
Qed.

Lemma hex_bytes_length l : byte_list l -> length (hex_bytes l) = (2 * length l)%nat.
Proof.
  induction 1 as [|b l Hb Hl IH]; [done|]. unfold hex_bytes in *. cbn. rewrite length_app, IH, fmt_02x_byte by done. cbn. lia.
Qed.

Lemma decode_hex_bytes l : Forall (fun b => 0 <= b < 128) l -> decode_ascii_encoded_hex_str (hex_bytes l) = Ok l.
Proof.
  intros Hl. assert (byte_list l) as Hb by (revert Hl; apply Forall_impl; cbn; lia).
  unfold decode_ascii_encoded_hex_str. rewrite hex_bytes_length by done.
  assert (Nat.even (2 * length l) = true) as -> by (apply Nat.even_spec; by exists (length l)).
  cbn [parser_assert mbind result_bind]. induction Hl as [|b l Hx Hl IH]; [done|]. apply Forall_cons_1 in Hb as [Hb Hbl].
  unfold hex_bytes. cbn [map concat]. fold (hex_bytes l).
  pose proof (proj1 (pair_of_byte b Hb)) as Hp. rewrite fmt_02x_byte in * by done. cbn [app decode_pairs] in *.
  rewrite Hp. cbn [mbind result_bind fst snd]. unfold parser_assert.
  rewrite (wraps_small 32 b) by (cbn; lia).
  destruct (Z.ltb_spec b 128); [|lia]. rewrite IH by done. cbn [mbind result_bind mret result_ret].
  rewrite wrapu_small by (change (2 ^ 8) with 256; lia). done.
Qed.

(** ** Registers *)

Lemma reg_bytes_hex l i rest :
  byte_list l -> i + Z.of_nat (length l) <= MAX_SIZE ->
  reg_bytes i (length l) (hex_bytes l ++ rest) = Ok (l, rest).
Proof.
  intros Hl. revert i. induction Hl as [|b l Hb Hl IH]; intros i Hi; [by destruct rest|].
  unfold hex_bytes. cbn [map concat length]. fold (hex_bytes l). cbn [length] in Hi.
  pose proof (proj2 (pair_of_byte b Hb)) as Hp. rewrite fmt_02x_byte in * by done. cbn [app reg_bytes] in *.
  rewrite Hp. cbn [mbind result_bind fst snd expect_end peek]. destruct (Z.ltb_spec i MAX_SIZE); [|lia].
  cbn [mbind result_bind expect_end peek parser_assert]. unfold expect_end. cbn [peek mbind result_bind]. change (0 =? 0) with true.
  cbn [parser_assert mbind result_bind]. rewrite IH by lia. cbn [mbind result_bind fst snd mret result_ret].
  rewrite wrapu_small by (change (2 ^ 8) with 256; lia). done.
Qed.

Lemma nth_prefix (l : list Z) n : (n <= length l)%nat -> map (fun i => nth i l 0) (seq 0 n) = take n l.
Proof.
  revert n. induction l as [|x l IH]; intros [|n] H; try done; cbn in H; [lia|]. cbn. f_equal.
  rewrite <- seq_shift, map_map. apply IH. lia.
Qed.

(** A register of up to 16 bytes that `print_reg_value` sends is the register
    `read_reg_value` gets back when the debugger writes it. *)
Theorem register_roundtrip name value rest :
  byte_list value -> 0 < Z.of_nat (length value) <= MAX_SIZE ->
  exists text, print_reg_value (mkRegValue name value (Z.of_nat (length value)) true) = Ok text /\
    terminated text = Ok text /\
    forall v0, read_reg_value (text ++ 0 :: rest) (mkRegValue name v0 0 false) =
      Ok (mkRegValue name value (Z.of_nat (length value)) true, 0 :: rest).
Proof.
  intros Hb Hl. exists (hex_bytes value).
  assert (print_reg_value (mkRegValue name value (Z.of_nat (length value)) true) = Ok (hex_bytes value)) as Hp.
  { unfold print_reg_value. cbn [reg_size reg_defined reg_value]. destruct (Z.leb_spec (Z.of_nat (length value)) MAX_SIZE); [|lia].
    rewrite Nat2Z.id, nth_prefix, take_ge by lia. done. }
  split; [done|]. pose proof (hex_bytes_hex value Hb) as Hh. pose proof (hex_bytes_length value Hb) as Hlen. split.
  { destruct (hex_bytes value); [cbn in Hlen; lia|done]. }
  intros v0. unfold read_reg_value.
  destruct (hex_bytes value) as [|c t] eqn:E; [cbn in Hlen; lia|].
  cbn [app peek]. rewrite bind_result_ok. apply Forall_cons_1 in Hh as Hc. destruct Hc as [Hc _]. apply is_hex_range in Hc.
  destruct (Z.eqb_spec c 120); [lia|]. change (c :: t ++ 0 :: rest) with ((c :: t) ++ 0 :: rest).
  rewrite cstr_ok by (by apply is_hex_nul_free). rewrite bind_result_ok. rewrite Hlen.
  replace (2 * length value / 2)%nat with (length value) by (rewrite Nat.mul_comm, Nat.div_mul; lia).
  rewrite <- E, reg_bytes_hex by (done || lia). done.
Qed.

(** ** Thread ids *)

Lemma s32_u32 x : - 2 ^ 31 <= x < 2 ^ 31 -> s32 (u32 x) = x.
Proof.
  intros H. assert (s32 (u32 x) = s32 x) as ->; [|apply wraps_small; cbn; lia].
  unfold wraps, wrapu. by rewrite Z.mod_mod.
Qed.

Definition wf_tid (t : GdbThreadId) : Prop := - 2 ^ 31 <= pid t < 2 ^ 31 /\ - 2 ^ 31 <= tid t < 2 ^ 31.

(** A thread id as rr prints it is the thread id rr parses, negative ones included. *)
Theorem threadid_roundtrip t c rest : wf_tid t -> stops c -> parse_threadid (thread_text t ++ c :: rest) = Ok (t, c :: rest).
Proof.
  intros [H1 H2] Hc. unfold parse_threadid, thread_text.
  assert (forall x, - 2 ^ 31 <= x < 2 ^ 31 -> 0 <= u32 x < 2 ^ 63) as Hu.
  { intros x Hx. unfold wrapu. change (2 ^ 32) with 4294967296. pose proof (Z.mod_pos_bound x 4294967296 ltac:(lia)). lia. }
  change (lit "p") with [112]. change (lit ".") with [46]. rewrite <- !app_assoc. cbn [app peek]. rewrite bind_result_ok.
  change (112 =? 112) with true. cbv iota zeta. cbn [tail].
  rewrite strtol_02x; [|by apply Hu|unfold stops; cbn; lia]. rewrite bind_result_ok. cbn [fst snd peek]. rewrite bind_result_ok.
  change (46 =? 0) with false. change (46 =? 46) with true. cbv iota. cbn [parser_assert mbind result_bind tail].
  fold (@app Z). rewrite strtol_02x; [|by apply Hu|done]. cbn [mbind result_bind fst snd]. rewrite !s32_u32 by done.
  by destruct t.
Qed.
