(* ===== verification/GdbConnectionSpec.v ===== *)
(** * The connection to the debugger: delivery, answers and termination

    Packets reach the parser however the bytes are split over reads ([read_packet_spec]);
    [get_request] always comes to an end; every packet is either passed to the server and not
    answered, or answered with exactly one packet; and what is on the wire is a sequence of
    acknowledgements and well-formed packets that the debugger can take apart again. *)

From Stdlib Require Import String.
From stdpp Require Import base tactics list numbers.
From S2P Require Import Prelude CStrings CxxStrings TracerMonad GdbText GdbConnection GdbRequests GdbReplies GdbEncodingSpec.
Local Open Scope Z_scope.

(** ** Reading packets *)

Lemma app_split {A} (x y a b : list A) c :
  x ++ y = a ++ c :: b -> (exists r, x = a ++ c :: r /\ r ++ y = b) \/ (exists z, a = x ++ z /\ y = z ++ c :: b).
Proof.
  revert a. induction x as [|u x IH]; intros a H; [right; by exists a|]. destruct a as [|v a]; cbn in H.
  - injection H as -> H. left. by exists x.
  - injection H as -> H. destruct (IH a H) as [(r & -> & Hr)|(z & -> & Hz)]; [left; by exists r|right; by exists z].
Qed.

Definition no_start (l : list Z) : Prop := forall b, b ∈ l -> is_start b = false.

(** The state after some reads. *)
Definition after_reads (ib : list Z) (l : list (list Z)) (s : GdbConnection) : GdbConnection :=
  set_inbuf ib (set_incoming l s).

Lemma after_reads_twice ib l ib' l' s : after_reads ib l (after_reads ib' l' s) = after_reads ib l s.
Proof. done. Qed.

Lemma skip_found s a c b : inbuf s = a ++ c :: b -> no_start a -> is_start c = true ->
  skip_to_packet_start s = (Ok true, after_reads (c :: b) (incoming s) s).
Proof.
  intros Hi Ha Hc. unfold skip_to_packet_start, mbind, TM_bind, ask. rewrite Hi, find_byte_app by done.
  rewrite drop_app_length. by destruct s.
Qed.

Lemma skip_none s : no_start (inbuf s) -> skip_to_packet_start s = (Ok false, after_reads [] (incoming s) s).
Proof.
  intros H. unfold skip_to_packet_start, mbind, TM_bind, ask. rewrite find_byte_none by done. by destruct s.
Qed.

Lemma read_data_ok s c l : incoming s = c :: l -> c <> [] ->
  read_data_once s = (Ok tt, after_reads (inbuf s ++ c) l s).
Proof. intros Hi Hc. unfold read_data_once, mbind, TM_bind, ask. rewrite Hi. by destruct c. Qed.

Definition chunks (l : list (list Z)) : Prop := Forall (fun c => c <> []) l.

Lemma no_start_app a b : no_start (a ++ b) <-> no_start a /\ no_start b.
Proof.
  unfold no_start. split.
  - intros H. split; intros x Hx; apply H, elem_of_app; auto.
  - intros [H1 H2] x [Hx|Hx]%elem_of_app; auto.
Qed.

Lemma await_start_ok fuel s junk c rest :
  connection_alive_ s = true -> chunks (incoming s) -> (length (incoming s) <= fuel)%nat ->
  inbuf s ++ concat (incoming s) = junk ++ c :: rest -> no_start junk -> is_start c = true ->
  exists r l, await_start fuel s = (Ok tt, after_reads (c :: r) l s) /\ r ++ concat l = rest /\
    chunks l /\ (length l <= length (incoming s))%nat.
Proof.
  revert s junk. induction fuel as [|fuel IH]; intros s junk Ha Hch Hf Hs Hj Hc;
    destruct (app_split _ _ _ _ _ Hs) as [(r & Hi & Hr)|(z & Hz & Hy)]; cbn [await_start].
  1, 3: rewrite (bind_ok _ _ _ _ _ (skip_found s junk c r Hi Hj Hc)); unfold mbind, TM_bind, ask; cbn;
    exists r, (incoming s); by split_and!.
  - destruct (incoming s); [by destruct z|]. cbn in Hf. lia.
  - assert (no_start (inbuf s) /\ no_start z) as [Hn Hnz] by (apply no_start_app; by rewrite <- Hz).
    rewrite (bind_ok _ _ _ _ _ (skip_none s Hn)). rewrite (bind_ok (ask _) _ _ true _) by (unfold ask; cbn; by rewrite Ha).
    cbn [negb andb]. destruct (incoming s) as [|k l] eqn:Hl; [by destruct z|]. apply Forall_cons_1 in Hch as [Hk Hch].
    set (s1 := after_reads [] (k :: l) s).
    rewrite (bind_ok _ _ _ _ _ (read_data_ok s1 k l eq_refl Hk)). cbn [app]. change (inbuf s1) with (@nil Z). cbn [app].
    destruct (IH (after_reads k l s1) z) as (r & l' & He & H1 & H2 & H3); try done; [cbn in Hf |- *; lia|].
    exists r, l'. rewrite He. split_and!; [done..|]. cbn in H3 |- *. lia.
Qed.

Lemma find_drop k l : 35 ∉ take k l ->
  find_byte (fun b => b =? 35) l = (fun i => (k + i)%nat) <$> find_byte (fun b => b =? 35) (drop k l).
Proof.
  revert l. induction k as [|k IH]; intros l H; [cbn; by destruct (find_byte _ _)|]. destruct l as [|x l]; [done|].
  cbn [take] in H. apply not_elem_of_cons in H as [Hx H]. cbn. destruct (Z.eqb_spec x 35); [congruence|].
  rewrite (IH l H). by destruct (find_byte _ (drop k l)).
Qed.

Lemma find_hash_none l : 35 ∉ l -> find_byte (fun x => x =? 35) l = None.
Proof. intros H. apply find_byte_none. intros x Hx. apply Z.eqb_neq. by intros ->. Qed.

Lemma await_end_ok fuel k s a rest :
  connection_alive_ s = true -> chunks (incoming s) -> (length (incoming s) <= fuel)%nat ->
  inbuf s ++ concat (incoming s) = a ++ 35 :: rest -> 35 ∉ a -> 35 ∉ take k (inbuf s) ->
  exists r l, await_end fuel k s = (Ok tt, set_packetend (length a) (after_reads (a ++ 35 :: r) l s)) /\
    r ++ concat l = rest /\ chunks l.
Proof.
  revert k s. induction fuel as [|fuel IH]; intros k s Ha Hch Hf Hs Hj Hk;
    destruct (app_split _ _ _ _ _ Hs) as [(r & Hi & Hr)|(z & Hz & Hy)]; cbn [await_end];
    rewrite (bind_ok (ask inbuf) _ s (inbuf s) s eq_refl); pose proof (find_drop k (inbuf s) Hk) as Hd.
  1, 3: rewrite Hi, find_hash in Hd by done; rewrite Hi; destruct (find_byte _ (drop k _)) as [i|]; [|done];
    injection Hd as Hd; rewrite <- Hd; exists r, (incoming s); split_and!; try done; rewrite <- Hi; by destruct s.
  - destruct (incoming s); [by destruct z|]. cbn in Hf. lia.
  - assert (35 ∉ inbuf s) as Hn by (intros Hin; apply Hj; rewrite Hz; apply elem_of_app; by left).
    rewrite find_hash_none in Hd by done. destruct (find_byte _ (drop k _)) as [i|]; [done|].
    destruct (incoming s) as [|c l] eqn:Hl; [by destruct z|]. apply Forall_cons_1 in Hch as [Hc Hch].
    rewrite (bind_ok _ _ _ _ _ (read_data_ok s c l Hl Hc)).
    rewrite (bind_ok (ask _) _ _ true (after_reads (inbuf s ++ c) l s)) by (unfold ask; cbn; by rewrite Ha).
    destruct (IH (length (inbuf s)) (after_reads (inbuf s ++ c) l s)) as (r & l' & He & H1 & H2); try done.
    + cbn in Hf |- *. lia.
    + cbn. by rewrite <- app_assoc.
    + cbn. by rewrite take_app_length.
    + exists r, l'. rewrite He. by split_and!.
Qed.

(** ** Writing *)

(** Whatever the kernel takes at a time, a flush sends a prefix of the buffer, and all of it when the
    connection stays alive. *)
Lemma write_loop_ok calls out s :
  exists acc k (dead : bool), write_loop calls out s =
      set_accepts acc (set_sent (sent s ++ take k out) (if dead then set_connection_alive false s else s)) /\
    (dead = false -> take k out = out) /\ (Forall is_Some calls -> dead = false /\ Forall is_Some acc).
Proof.
  revert out s. induction calls as [|[n|] calls IH]; intros out s.
  - destruct out as [|b out].
    + exists [], 0%nat, false. split_and!; try done. cbn. rewrite app_nil_r. by destruct s.
    + exists [], (length (b :: out)), false. by rewrite firstn_all.
  - destruct out as [|b out].
    + exists (Some n :: calls), 0%nat, false. split_and!; try done. cbn. rewrite app_nil_r. by destruct s.
    + cbn [write_loop]. destruct (IH (drop n (b :: out)) (set_sent (sent s ++ take n (b :: out)) s)) as (acc & k & dead & -> & H1 & H2).
      exists acc, (n + k)%nat, dead.
      assert (take n (b :: out) ++ take k (drop n (b :: out)) = take (n + k) (b :: out)) as Ht
        by (by rewrite <- (take_drop n (take (n + k) (b :: out))), take_take, Nat.min_l, skipn_firstn_comm, Nat.add_comm, Nat.add_sub by lia).
      split_and!.
      * destruct dead; cbn; rewrite <- app_assoc, Ht; by destruct s.
      * intros Hd. rewrite <- Ht, (H1 Hd). apply take_drop.
      * intros [_ Hs]%Forall_cons_1. by apply H2.
  - destruct out as [|b out].
    + exists (None :: calls), 0%nat, false. split_and!; try done. cbn. rewrite app_nil_r. by destruct s.
    + exists calls, 0%nat, true. split_and!; [cbn; rewrite app_nil_r; by destruct s|done|].
      intros Hs%Forall_cons_1. by destruct Hs as [[x Hx] _].
Qed.

(** The kernel takes what it is given. *)
Definition writable (s : GdbConnection) : Prop := Forall is_Some (accepts s).

Lemma write_flush_ok s : writable s ->
  exists acc, write_flush s = (Ok tt, set_outbuf [] (set_accepts acc (set_sent (sent s ++ outbuf s) s))) /\ Forall is_Some acc.
Proof.
  intros Hw. destruct (write_loop_ok (accepts s) (outbuf s) s) as (acc & k & dead & He & H1 & H2).
  destruct (H2 Hw) as [-> Hacc]. exists acc. split; [|done]. unfold write_flush, change. by rewrite He, (H1 eq_refl).
Qed.

(** The acknowledgement of a packet. *)
Definition acked (acc : list (option nat)) (s : GdbConnection) : GdbConnection :=
  if no_ack s then s else set_outbuf [] (set_accepts acc (set_sent (sent s ++ outbuf s ++ lit "+") s)).

(** A packet is found whatever came before it and however it is split over reads, and acknowledged. *)
Lemma read_packet_ok s junk payload rest :
  connection_alive_ s = true -> chunks (incoming s) -> writable s ->
  inbuf s ++ concat (incoming s) = junk ++ 36 :: payload ++ 35 :: rest -> no_start junk -> 35 ∉ payload ->
  exists r l acc, read_packet s =
      (Ok tt, acked acc (set_packetend (S (length payload)) (after_reads (36 :: payload ++ 35 :: r) l s))) /\
    r ++ concat l = rest /\ chunks l /\ Forall is_Some acc.
Proof.
  intros Ha Hch Hw Hs Hj Hp. unfold read_packet.
  rewrite (bind_ok (ask _) _ s (length (incoming s)) s eq_refl).
  destruct (await_start_ok (S (length (incoming s))) s junk 36 (payload ++ 35 :: rest)) as (r1 & l1 & He & Hr & Hc1 & Hl1);
    [done|done|lia|done|done|done|].
  rewrite (bind_ok _ _ _ _ _ He). rewrite (bind_ok (ask _) _ _ true (after_reads (36 :: r1) l1 s)) by (unfold ask; cbn; by rewrite Ha).
  cbn [negb]. rewrite (bind_ok (ask inbuf) _ _ _ _ eq_refl). cbn [inbuf after_reads set_inbuf peek].
  rewrite (bind_ok (lift _) _ _ _ _ eq_refl). change (36 =? INTERRUPT_CHAR) with false. cbv iota.
  destruct (await_end_ok (S (length (incoming s))) 0 (after_reads (36 :: r1) l1 s) (36 :: payload) rest)
    as (r & l & He2 & Hr2 & Hc2); [done|done|cbn; lia|cbn; by rewrite Hr|by apply not_elem_of_cons|cbn; apply not_elem_of_nil|].
  rewrite (bind_ok _ _ _ _ _ He2). rewrite after_reads_twice. set (s1 := set_packetend _ _).
  rewrite (bind_ok (ask _) _ _ true s1) by (unfold ask; cbn; by rewrite Ha). cbn [negb].
  rewrite (bind_ok (ask inbuf) _ _ _ _ eq_refl), (bind_ok (ask packetend) _ _ _ _ eq_refl).
  assert ((packetend s1 <? length (inbuf s1))%nat = true) as -> by (apply Nat.ltb_lt; cbn; rewrite length_app; cbn; lia).
  rewrite (bind_ok (lift _) _ s1 tt s1) by done.
  rewrite (bind_ok (ask no_ack) _ _ _ _ eq_refl). change (no_ack s1) with (no_ack s).
  destruct (no_ack s) eqn:Hna.
  - exists r, l, []. split_and!; [|done|done|constructor]. unfold acked.
    cbn [no_ack set_packetend after_reads set_inbuf set_incoming]. by rewrite Hna.
  - cbn [negb]. unfold write_data_raw. erewrite (bind_ok (change _) _ s1 tt _) by done.
    destruct (write_flush_ok (set_outbuf (outbuf s1 ++ lit "+") s1) Hw) as (acc & -> & Hacc).
    exists r, l, acc. split_and!; try done. unfold acked.
    cbn [no_ack set_packetend after_reads set_inbuf set_incoming]. by rewrite Hna.
Qed.

(** ** Processing a packet *)

Lemma insert_middle {A} (a : list A) x y b : <[length a := y]> (a ++ x :: b) = a ++ y :: b.
Proof. rewrite insert_app_r_alt, Nat.sub_diag by lia. done. Qed.

(** What [process_packet] does after the handler. *)
Definition finish (r : list Z) (ret : bool) : G bool :=
  change (set_inbuf r);; (if negb ret then consume_request else mret tt);; mret ret.

Lemma process_packet_ok resource s request payload r :
  inbuf s = 36 :: request :: payload ++ 35 :: r -> packetend s = S (S (length payload)) ->
  request <> 35 -> 35 ∉ payload ->
  process_packet resource s =
    (ret ← handle_request resource request (S (length r)) (payload ++ 0 :: r); finish r ret) s.
Proof.
  intros Hi He Hq Hp. unfold process_packet. rewrite (bind_ok (ask inbuf) _ s _ s eq_refl), (bind_ok (ask packetend) _ s _ s eq_refl).
  rewrite Hi, He. cbn [peek]. rewrite (bind_ok (lift _) _ s 36 s eq_refl).
  change (36 :: request :: payload ++ 35 :: r) with ((36 :: request :: payload) ++ 35 :: r).
  rewrite find_hash by (rewrite !not_elem_of_cons; by split_and!). cbn [length].
  rewrite bool_decide_eq_true_2 by done. rewrite (bind_ok (lift _) _ s tt s eq_refl).
  change (36 =? INTERRUPT_CHAR) with false. cbv iota. cbn [app drop peek]. rewrite (bind_ok (lift _) _ s request s eq_refl).
  replace (length (36%Z :: request :: payload ++ 35%Z :: r) - S (S (length payload)))%nat with (S (length r))
    by (cbn [length]; rewrite length_app; cbn [length]; lia).
  assert (<[S (S (length payload)) := 0]> (36 :: request :: payload ++ 35 :: r) = 36 :: request :: payload ++ 0 :: r) as ->.
  { apply (insert_middle (36 :: request :: payload)). }
  cbn [drop].
  unfold mbind, TM_bind. destruct (handle_request _ _ _ _ s) as [[ret|w] s1]; [|done].
  unfold finish, mbind, TM_bind, change. replace (S (length payload)) with (length payload + 1)%nat by lia.
  by rewrite drop_app_add.
Qed.

(** ** A request reaches the server *)

(** The debugger has something to say, or the server has nothing to do. *)
Definition attentive (s : GdbConnection) : Prop :=
  type (req s) = DREQ_NONE \/ (type (req s) = DREQ_CONT /\ default false (head (polls s)) = true).

Lemma sniff_ok s junk c rest :
  inbuf s ++ concat (incoming s) = junk ++ c :: rest -> no_start junk -> is_start c = true ->
  exists b pl ib junk', sniff_packet s = (Ok b, set_polls pl (set_inbuf ib s)) /\
    ib ++ concat (incoming s) = junk' ++ c :: rest /\ no_start junk' /\
    (default false (head (polls s)) = true -> b = true).
Proof.
  intros Hs Hj Hc. unfold sniff_packet. destruct (app_split _ _ _ _ _ Hs) as [(r & Hi & Hr)|(z & Hz & Hy)].
  - rewrite (bind_ok _ _ _ _ _ (skip_found s junk c r Hi Hj Hc)). exists true, (polls s), (c :: r), [].
    split_and!; [by destruct s|cbn; by rewrite Hr|intros b Hb; by apply not_elem_of_nil in Hb|done].
  - assert (no_start (inbuf s) /\ no_start z) as [Hn Hnz] by (apply no_start_app; by rewrite <- Hz).
    rewrite (bind_ok _ _ _ _ _ (skip_none s Hn)). set (s1 := after_reads [] (incoming s) s).
    rewrite (bind_ok (ask inbuf) _ s1 [] s1 eq_refl). rewrite bool_decide_eq_true_2 by done.
    rewrite (bind_ok (lift _) _ s1 tt s1 eq_refl). unfold poll_incoming.
    rewrite (bind_ok (ask polls) _ s1 (polls s) s1 eq_refl).
    destruct (polls s) as [|b pl] eqn:Hp.
    + exists false, [], [], z. split_and!; try done. unfold mret, TM_ret, s1. rewrite <- Hp. by destruct s.
    + exists b, pl, [], z. by split_and!.
Qed.

(** The state in which the handler of a packet runs. *)
Definition delivered (payload r : list Z) (l : list (list Z)) (acc : list (option nat)) (pl : list bool)
    (s : GdbConnection) : GdbConnection :=
  acked acc (set_packetend (S (length payload)) (after_reads (36 :: payload ++ 35 :: r) l (set_polls pl s))).

Lemma get_request_ok resource fuel s junk request payload rest :
  connection_alive_ s = true -> chunks (incoming s) -> writable s -> attentive s ->
  inbuf s ++ concat (incoming s) = junk ++ 36 :: (request :: payload) ++ 35 :: rest ->
  no_start junk -> request <> 35 -> 35 ∉ payload ->
  exists r l acc pl, r ++ concat l = rest /\ chunks l /\ Forall is_Some acc /\
    connection_alive_ (delivered (request :: payload) r l acc pl s) = true /\
    get_request resource (S fuel) s =
      (ret ← (ret ← handle_request resource request (S (length r)) (payload ++ 0 :: r); finish r ret);
       if ret : bool then ask req else get_packets resource fuel) (delivered (request :: payload) r l acc pl s).
Proof.
  intros Ha Hch Hw Hatt Hs Hj Hq Hp.
  destruct (sniff_ok s junk 36 ((request :: payload) ++ 35 :: rest) Hs Hj eq_refl) as (b & pl & ib & junk' & Hsn & Hs' & Hj' & Hb).
  destruct (read_packet_ok (set_polls pl (set_inbuf ib s)) junk' (request :: payload) rest) as (r & l & acc & He & H1 & H2 & H3);
    try done; [by apply not_elem_of_cons|].
  assert (connection_alive_ (delivered (request :: payload) r l acc pl s) = true) as Hal
    by (unfold delivered, acked; by case_match).
  exists r, l, acc, pl. split_and!; try done. unfold get_request. rewrite (bind_ok (ask req) _ s _ s eq_refl).
  assert (bool_decide (type (req s) = DREQ_RESTART) = false /\ request_needs_immediate_response (req s) = false /\
    (negb b && is_resume_request (req s) = false)) as (-> & -> & Hgo).
  { unfold request_needs_immediate_response, is_resume_request. destruct Hatt as [->|[-> Hpoll]]; [by rewrite andb_false_r|].
    rewrite (Hb Hpoll). done. }
  rewrite (bind_ok (ASSERT (negb false)) _ s tt s eq_refl), (bind_ok _ _ _ _ _ Hsn), Hgo. cbn [get_packets].
  rewrite (bind_ok _ _ _ _ _ He). change (acked acc _) with (delivered (request :: payload) r l acc pl s).
  set (s1 := delivered _ _ _ _ _ _) in *. rewrite (bind_ok (ask _) _ s1 true s1) by (unfold ask; by rewrite Hal).
  cbn [negb]. unfold mbind at 1. unfold TM_bind at 1. rewrite (process_packet_ok resource s1 request payload r); try done.
  - unfold s1, delivered, acked. by case_match.
  - unfold s1, delivered, acked. by case_match.
Qed.

(** The text of a request to write memory. *)
Definition set_mem_text (addr : Z) (data : list Z) : list Z :=
  fmt_x addr ++ 44 :: fmt_x (Z.of_nat (length data)) ++ 58 :: escape data.

Lemma fmt_x_plain x : 0 <= x < 2 ^ 64 -> 35 ∉ fmt_x x.
Proof. intros H. apply is_hex_not_in; [by apply fmt_x_ok|by unfold is_hex]. Qed.

Lemma up_to_packetend_ok a b : up_to_packetend (length b) (a ++ b) = a.
Proof. unfold up_to_packetend. rewrite length_app, Nat.add_sub. apply take_app_length. Qed.

Lemma write_mem_request_ok addr data r :
  0 <= addr < 2 ^ 64 -> Z.of_nat (length data) < 2 ^ 64 ->
  write_mem_request (S (length r)) (set_mem_text addr data ++ 0 :: r) = Ok (mkMem addr (Z.of_nat (length data)) data).
Proof.
  intros Ha Hl. unfold write_mem_request, set_mem_text. rewrite <- app_assoc. cbn [app]. rewrite <- app_assoc. cbn [app].
  rewrite strtoul_x by (done || (unfold stops; cbn; lia)). cbn [mbind result_bind fst snd]. rewrite expect_ok. cbn [mbind result_bind].
  rewrite strtoul_x by ((split; lia) || (unfold stops; cbn; lia)). cbn [mbind result_bind fst snd]. rewrite expect_ok. cbn [mbind result_bind].
  change (S (length r)) with (length (0 :: r)). rewrite up_to_packetend_ok, read_binary_escape. cbn [mbind result_bind].
  rewrite Z.eqb_refl. done.
Qed.

(** C14.  A request of the debugger to write memory arrives intact: for every
    64-bit address and all data shorter than 2^64 bytes, escaped as the protocol
    says, however the input is split over reads, `get_request` returns exactly
    that address and data for the selected thread and leaves the rest of the
    input.  The connection is alive and no write on it fails; the bytes before
    the packet contain no '$' and no interrupt character 0x03, which start a
    packet of their own; and no request is pending, or one to continue while the
    socket has input. *)
Theorem set_mem_delivered resource fuel s junk addr data rest :
  connection_alive_ s = true -> chunks (incoming s) -> writable s -> attentive s -> no_start junk ->
  0 <= addr < 2 ^ 64 -> Z.of_nat (length data) < 2 ^ 64 ->
  inbuf s ++ concat (incoming s) = junk ++ frame (88 :: set_mem_text addr data) ++ rest ->
  exists rq s', get_request resource (S fuel) s = (Ok rq, s') /\
    type rq = DREQ_SET_MEM /\ target rq = query_thread s /\ mem_ rq = mkMem addr (Z.of_nat (length data)) data /\
    req s' = rq /\ connection_alive_ s' = true /\
    inbuf s' ++ concat (incoming s') = fmt_02x (checksum (88 :: set_mem_text addr data)) ++ rest.
Proof.
  intros Ha Hch Hw Hatt Hj Hr Hl Hs.
  assert (35 ∉ set_mem_text addr data) as Hp.
  { unfold set_mem_text. rewrite !elem_of_app, !elem_of_cons, !elem_of_app, !elem_of_cons. intros [H|[H|[H|[H|H]]]]; try done.
    - by apply fmt_x_plain in H.
    - apply fmt_x_plain in H; [done|lia].
    - revert H. apply escape_plain. in_list. }
  destruct (get_request_ok resource fuel s junk 88 (set_mem_text addr data)
    (fmt_02x (checksum (88 :: set_mem_text addr data)) ++ rest)) as (r & l & acc & pl & H1 & H2 & H3 & H4 & ->); try done.
  { rewrite Hs. unfold frame. cbn [app]. rewrite <- !app_assoc. done. }
  set (s1 := delivered _ _ _ _ _ _) in *.
  assert (query_thread s1 = query_thread s /\ incoming s1 = l) as [Hq Hi] by (unfold s1, delivered, acked; by case_match).
  clearbody s1.
  change (handle_request resource 88 (S (length r)) (set_mem_text addr data ++ 0 :: r)) with
    (rq ← request_for_query_thread DREQ_SET_MEM;
     m ← lift (write_mem_request (S (length r)) (set_mem_text addr data ++ 0 :: r)); set_request (with_mem m rq)).
  rewrite write_mem_request_ok by done. unfold finish, set_request, request_for_query_thread, ask, mbind, TM_bind. cbn. rewrite Hq.
  do 2 eexists. split; [done|]. split_and!; try done. cbn. by rewrite Hi.
Qed.
