(* ===== verification/GdbWire.v ===== *)
(** * The connection to the debugger: one answer for one packet, the wire, termination

    A packet is either passed to the server and not answered, or answered with exactly one
    packet ([handles]); what is on the wire is a sequence of acknowledgements and packets
    that the debugger can take apart again ([wire_framed]); and [get_request] comes to an
    end on every input ([get_request_ends]). *)

From Stdlib Require Import String.
From stdpp Require Import base tactics list numbers.
From S2P Require Import Prelude CStrings TracerMonad CxxStrings GdbText GdbConnection GdbRequests GdbReplies GdbEncodingSpec GdbConnectionSpec.
Local Open Scope Z_scope.

(** ** The parser of debugger requests: its loops come to an end

    The loops over the actions of a [vCont] packet and over the conditions of a breakpoint
    consume at least a character each turn, so the bounds the model gives them suffice. *)

(** ** Parsing does not run out of fuel *)

Definition fuelled {A} (r : result A) : Prop := r <> Err NoFuel.

Lemma fuelled_ok {A} (a : A) : fuelled (Ok a).
Proof. done. Qed.

Lemma fuelled_ret {A} (a : A) : fuelled (mret a : result A).
Proof. done. Qed.

Lemma fuelled_bind {A B} (r : result A) (f : A -> result B) :
  fuelled r -> (forall a, r = Ok a -> fuelled (f a)) -> fuelled (mbind f r).
Proof. intros Hr Hf. destruct r as [a|w]; cbn; [by apply Hf|]. by intros [= ->]. Qed.

Lemma fuelled_assert b : fuelled (parser_assert b).
Proof. by destruct b. Qed.

Lemma fuelled_peek p : fuelled (peek p).
Proof. by destruct p. Qed.

Lemma fuelled_next p : fuelled (next p).
Proof. by destruct p. Qed.

Create HintDb gdb.
#[export] Hint Resolve fuelled_ok fuelled_ret fuelled_assert fuelled_peek fuelled_next : gdb.

(** Goes through a parser: binds, conditionals, and the lemmas on its parts. *)
Ltac fuel_step :=
  match goal with
  | |- fuelled (mbind _ _) => apply fuelled_bind; [|intros ? ?]
  | |- fuelled (match ?x with _ => _ end) => destruct x eqn:?
  | |- fuelled (Err _) => discriminate
  | |- fuelled _ => solve [eauto with gdb nocore]
  end.
Ltac fuel := cbv zeta; repeat (fuel_step; cbv zeta).

Lemma fuelled_expect c p : fuelled (expect c p).
Proof. unfold expect. fuel. Qed.

Lemma fuelled_expect_end p : fuelled (expect_end p).
Proof. unfold expect_end. fuel. Qed.

Lemma fuelled_cstr p : fuelled (cstr p).
Proof. induction p; cbn; fuel; done. Qed.

Lemma fuelled_split_at c p : fuelled (split_at c p).
Proof. induction p; cbn; fuel; done. Qed.

Lemma fuelled_digits b acc p : fuelled (digits b acc p).
Proof. revert acc. induction p; intros acc; cbn; fuel; done || auto. Qed.

Lemma fuelled_skip_space p : fuelled (skip_space p).
Proof. induction p; cbn; fuel; done. Qed.

Lemma fuelled_hex_prefix p : fuelled (hex_prefix p).
Proof. unfold hex_prefix. fuel. Qed.

#[export] Hint Resolve fuelled_expect fuelled_expect_end fuelled_cstr fuelled_split_at fuelled_digits
  fuelled_skip_space fuelled_hex_prefix : gdb.

Lemma fuelled_number b p : fuelled (number b p).
Proof. unfold number, read_sign, number_base. fuel. Qed.
#[export] Hint Resolve fuelled_number : gdb.

Lemma fuelled_strtol b p : fuelled (strtol b p).
Proof. unfold strtol. fuel. Qed.

Lemma fuelled_strtoul b p : fuelled (strtoul b p).
Proof. unfold strtoul. fuel. Qed.

Lemma fuelled_binary p : fuelled (read_binary_data p).
Proof.
  assert (forall n q, (length q <= n)%nat -> fuelled (read_binary_data q)) as H; [|by eapply H].
  induction n as [|n IH]; intros [|b q] Hq; cbn in Hq |- *; try done; [lia|]. destruct (b =? 125).
  - destruct q as [|c q]; [done|]. cbn in Hq. apply fuelled_bind; [apply IH; lia|done].
  - apply fuelled_bind; [apply IH; lia|done].
Qed.

#[export] Hint Resolve fuelled_strtol fuelled_strtoul fuelled_binary : gdb.

Lemma fuelled_pairs p : fuelled (decode_pairs p).
Proof.
  assert (forall n q, (length q <= n)%nat -> fuelled (decode_pairs q)) as H; [|by eapply H].
  induction n as [|n IH]; intros [|b [|c q]] Hq; cbn [length] in Hq; cbn [decode_pairs]; try done; [lia|]. fuel. apply IH. lia.
Qed.
#[export] Hint Resolve fuelled_pairs : gdb.

Lemma fuelled_decode p : fuelled (decode_ascii_encoded_hex_str p).
Proof. unfold decode_ascii_encoded_hex_str. fuel. Qed.

Lemma fuelled_threadid p : fuelled (parse_threadid p).
Proof. unfold parse_threadid. fuel. Qed.

Lemma fuelled_reg_bytes i n p : fuelled (reg_bytes i n p).
Proof. revert i p. induction n as [|n IH]; intros i p; cbn [reg_bytes]; fuel; apply IH. Qed.

#[export] Hint Resolve fuelled_decode fuelled_threadid fuelled_reg_bytes : gdb.

Lemma fuelled_reg_value p r : fuelled (read_reg_value p r).
Proof. unfold read_reg_value. fuel. Qed.
#[export] Hint Resolve fuelled_reg_value : gdb.

Lemma fuelled_open_flags f : fuelled (gdb_open_flags_to_system_flags f).
Proof. unfold gdb_open_flags_to_system_flags. fuel. Qed.

Lemma fuelled_not_null {A} (o : option A) : fuelled (not_null o).
Proof. by destruct o. Qed.

Lemma fuelled_found {A} (o : option A) : fuelled (found o).
Proof. by destruct o. Qed.

Lemma fuelled_description f : fuelled (target_description_name f).
Proof. unfold target_description_name. fuel. Qed.

Lemma fuelled_desc resource f : fuelled (read_target_desc resource f).
Proof. unfold read_target_desc. fuel. Qed.

#[export] Hint Resolve fuelled_open_flags fuelled_not_null fuelled_found fuelled_description fuelled_desc : gdb.

Lemma fuelled_file op : fuelled (file_request op).
Proof. unfold file_request. fuel. Qed.

Lemma fuelled_restart e : fuelled (restart_point e).
Proof. unfold restart_point. fuel. Qed.
#[export] Hint Resolve fuelled_file fuelled_restart : gdb.

Lemma fuelled_run p : fuelled (run_request p).
Proof. unfold run_request. fuel. Qed.
#[export] Hint Resolve fuelled_run : gdb.

Lemma fuelled_action c : fuelled (action_of c).
Proof. unfold action_of. fuel. Qed.

Lemma fuelled_scan p : fuelled (scan_action p).
Proof. induction p; cbn; fuel; done. Qed.

Lemma fuelled_target o : fuelled (action_target_of o).
Proof. unfold action_target_of. fuel. Qed.
#[export] Hint Resolve fuelled_action fuelled_scan fuelled_target : gdb.

(** *** The loops of the parser move forward *)

Lemma digits_suffix b acc p v q : digits b acc p = Ok (v, q) -> (length q <= length p)%nat.
Proof.
  revert acc. induction p as [|c p IH]; intros acc; cbn; [done|]. case_match; [|intros [= _ <-]; done].
  intros Hq%IH. cbn. lia.
Qed.

Lemma skip_space_suffix p q : skip_space p = Ok q -> (length q <= length p)%nat.
Proof.
  induction p as [|c p IH]; cbn; [done|]. case_match; [|intros [= <-]; done]. intros Hq%IH. lia.
Qed.

Lemma number_suffix b p n q : number b p = Ok (n, q) -> (length q <= length p)%nat.
Proof.
  unfold number. intros H. destruct (skip_space p) as [p1|] eqn:E1; [|done]. rewrite bind_result_ok in H.
  destruct (read_sign p1) as [[neg p2]|] eqn:E2; [|done]. rewrite bind_result_ok in H. cbn [fst snd] in H.
  destruct (number_base b p2) as [[b' p3]|] eqn:E3; [|done]. rewrite bind_result_ok in H. cbn [fst snd] in H.
  assert (length p2 <= length p1)%nat as L2.
  { unfold read_sign in E2. destruct p1 as [|c p1]; [done|]. cbn in E2. repeat case_match; injection E2 as _ <-; cbn; lia. }
  assert (length p3 <= length p2)%nat as L3.
  { unfold number_base in E3. destruct (if _ || _ then _ else _) as [[|]|]; cbn in E3; [..|done].
    - injection E3 as _ <-. rewrite length_drop. lia.
    - destruct p2; [done|]. cbn in E3. injection E3 as _ <-. done. }
  pose proof (skip_space_suffix _ _ E1) as L1. destruct (peek p3); [|done]. rewrite bind_result_ok in H. case_match.
  - destruct (digits b' 0 p3) as [[v p4]|] eqn:E4; [|done]. apply digits_suffix in E4. injection H as _ <-. cbn. lia.
  - by injection H as _ <-.
Qed.

Lemma strtol_suffix b p n q : strtol b p = Ok (n, q) -> (length q <= length p)%nat.
Proof.
  unfold strtol. destruct (number b p) as [[x y]|] eqn:E; [|done]. cbn. intros [= _ <-]. by eapply number_suffix.
Qed.

Lemma split_at_suffix c p x q : split_at c p = Ok (x, Some q) -> (length q < length p)%nat.
Proof.
  revert x. induction p as [|y p IH]; intros x; cbn; [done|]. case_match; [intros [= _ <-]; lia|]. case_match; [done|].
  destruct (split_at c p) as [[u o]|]; [|done]. cbn. intros [= _ ->]. specialize (IH u eq_refl). lia.
Qed.

Lemma scan_suffix p x c q : scan_action p = Ok (x, Some (c, q)) -> (length q < length p)%nat.
Proof.
  revert x. induction p as [|y p IH]; intros x; cbn; [done|]. case_match; [intros [= _ _ <-]; lia|]. case_match; [done|].
  destruct (scan_action p) as [[u o]|]; [|done]. cbn. intros [= _ ->]. specialize (IH u eq_refl). lia.
Qed.

Lemma threadid_suffix p t q : parse_threadid p = Ok (t, q) -> (length q <= length p)%nat.
Proof.
  unfold parse_threadid. destruct p as [|c p]; [done|]. cbn [peek]. rewrite bind_result_ok. intros H.
  set (p0 := if c =? 112 then tail (c :: p) else c :: p) in H.
  assert (length p0 <= length (c :: p))%nat as L0 by (unfold p0; case_match; cbn; lia).
  destruct (strtol 16 p0) as [[n p1]|] eqn:E1; [|done]. rewrite bind_result_ok in H. cbn [fst snd] in H. apply strtol_suffix in E1.
  destruct p1 as [|e p1]; [done|]. cbn [peek] in H. rewrite bind_result_ok in H. case_match; [injection H as _ <-; lia|].
  destruct (parser_assert _); [|done]. rewrite bind_result_ok in H. cbn [tail] in H.
  destruct (strtol 16 p1) as [[m p2]|] eqn:E2; [|done]. apply strtol_suffix in E2. injection H as _ <-. cbn in *. lia.
Qed.

Lemma fuelled_vcont fuel o acts d : (forall p, o = Some p -> (length p < fuel)%nat) -> fuelled (vcont_actions fuel o acts d).
Proof.
  revert o acts d. induction fuel as [|fuel IH]; intros [p|] acts d Hp; cbn [vcont_actions]; try done.
  { specialize (Hp p eq_refl). lia. }
  specialize (Hp p eq_refl). apply fuelled_bind; [auto with gdb|]. intros [cmd sep] E1.
  apply fuelled_bind; [auto with gdb|]. intros [t next] E2. cbn [fst snd] in *.
  assert (forall q, next = Some q -> (length q < fuel)%nat) as Hn.
  { intros q ->. destruct sep as [[c rest]|]; [|done]. apply scan_suffix in E1. cbn [action_target_of] in E2. case_match.
    - destruct (parse_threadid rest) as [[u r1]|] eqn:E3; [|done]. apply threadid_suffix in E3. rewrite bind_result_ok in E2.
      cbn [fst snd] in E2. destruct (split_at 59 r1) as [[v w]|] eqn:E4; [|done]. cbn in E2. injection E2 as _ ->.
      apply split_at_suffix in E4. lia.
    - injection E2 as _ <-. lia. }
  fuel; by apply IH.
Qed.

Lemma expect_suffix c p q : expect c p = Ok q -> (length q < length p)%nat.
Proof. unfold expect. destruct p as [|x p]; [done|]. cbn. destruct (x =? c); cbn; [|done]. intros [= <-]. lia. Qed.

Lemma condition_suffix p len b q : condition_bytes p len = Ok (b, q) -> (length q <= length p)%nat.
Proof.
  assert (forall n p len b, (length p <= n)%nat -> condition_bytes p len = Ok (b, q) -> (length q <= length p)%nat) as H; [|by eapply H].
  clear. induction n as [|n IH]; intros p len b Hn H.
  - destruct p; [|cbn in Hn; lia]. cbn [condition_bytes] in H. by destruct (len <=? 0); [injection H as _ <-|].
  - destruct p as [|x [|y p]]; cbn [condition_bytes] in H; (destruct (len <=? 0); [by injection H as _ <-|]); try done;
      (destruct (x =? 0); [done|]); [done|]. destruct (y =? 0); [done|]. destruct p as [|z p]; [done|].
    destruct (strtol 16 [x; y; 0]) as [v|]; [|done]. rewrite bind_result_ok in H. destruct (expect_end v.2); [|done].
    rewrite bind_result_ok in H. destruct (condition_bytes (z :: p) (len - 1)) as [[b' q']|] eqn:E; [|done]. cbn in H.
    injection H as _ ->. apply IH in E; cbn [length] in *; lia.
Qed.

Lemma fuelled_condition p len : fuelled (condition_bytes p len).
Proof.
  assert (forall n p len, (length p <= n)%nat -> fuelled (condition_bytes p len)) as H; [|by eapply H].
  clear. induction n as [|n IH]; intros p len Hn.
  - destruct p; [|cbn in Hn; lia]. cbn [condition_bytes]. by destruct (len <=? 0).
  - destruct p as [|x [|y p]]; cbn [condition_bytes]; try by repeat case_match.
    fuel; try done. apply IH. cbn [length] in *. lia.
Qed.
#[export] Hint Resolve fuelled_condition : gdb.

Lemma fuelled_conditions fuel p : (length p <= fuel)%nat -> fuelled (conditions fuel p).
Proof.
  revert p. induction fuel as [|fuel IH]; intros p Hp; cbn [conditions].
  - destruct p; [done|]. cbn in Hp. lia.
  - apply fuelled_bind; [auto with gdb|]. intros c E0. case_match; [done|]. apply fuelled_bind; [auto with gdb|].
    intros [n p1] E1. cbn [fst snd]. apply fuelled_bind; [auto with gdb|]. intros p2 E2. apply fuelled_bind; [auto with gdb|].
    intros [b p3] E3. cbn [fst snd]. apply fuelled_bind; [|intros; done]. apply IH. apply strtol_suffix in E1.
    apply expect_suffix in E2. apply condition_suffix in E3. destruct p; cbn in *; lia.
Qed.

Lemma fuelled_watch set ty p : fuelled (watch_request set ty p).
Proof.
  unfold watch_request. apply fuelled_bind; [auto with gdb|]. intros a _. apply fuelled_bind; [auto with gdb|].
  intros p1 _. apply fuelled_bind; [auto with gdb|]. intros [k p2] E. cbn [fst snd]. apply fuelled_bind; [auto with gdb|].
  intros c _. apply fuelled_bind; [|intros; fuel]. case_match; [|done]. apply fuelled_conditions.
  unfold strtoul in E. destruct (number 16 p1) as [[x y]|] eqn:E2; [|done]. cbn in E. injection E as _ <-.
  apply number_suffix in E2. destruct y; cbn in *; lia.
Qed.
#[export] Hint Resolve fuelled_watch : gdb.

(** ** One answer for one packet *)

(** A step that only looks at the state. *)
Definition reads {A} (c : G A) : Prop := forall s, (c s).2 = s /\ (c s).1 <> Err NoFuel.

(** The packets in the output buffer. *)
Definition packets (fs : list (list Z)) : list Z := concat (map frame fs).

(** What a handler of a packet may do: it leaves input, socket and sent output alone, and either passes a
    request on without an answer, or answers with one packet, or stops rr. *)
Definition handles (c : G bool) : Prop :=
  forall s, let '(r, s') := c s in
    r <> Err NoFuel /\ inbuf s' = inbuf s /\ incoming s' = incoming s /\ accepts s' = accepts s /\ sent s' = sent s /\
    connection_alive_ s' = connection_alive_ s /\
    match r with
    | Ok true => outbuf s' = outbuf s /\ type (req s') <> DREQ_NONE
    | Ok false => exists d, 35 ∉ d /\ outbuf s' = outbuf s ++ frame d
    | Err _ => True
    end.

Lemma reads_lift {A} (r : result A) : fuelled r -> reads (lift r).
Proof. intros H s. split; [done|exact H]. Qed.

Lemma reads_ask {A} (f : GdbConnection -> A) : reads (ask f).
Proof. done. Qed.

Lemma reads_ret {A} (a : A) : reads (mret a).
Proof. done. Qed.

Lemma reads_bind {A B} (c : G A) (f : A -> G B) : reads c -> (forall a, reads (f a)) -> reads (mbind f c).
Proof.
  intros Hc Hf s. destruct (Hc s) as [H1 H2]. unfold mbind, TM_bind. destruct (c s) as [[a|w] s1]; cbn in H1; subst.
  - apply Hf.
  - split; [done|]. cbn in *. congruence.
Qed.

Lemma handles_bind {A} (c : G A) (f : A -> G bool) : reads c -> (forall a, handles (f a)) -> handles (mbind f c).
Proof.
  intros Hc Hf s. destruct (Hc s) as [H1 H2]. unfold mbind, TM_bind. destruct (c s) as [[a|w] s1]; cbn in H1; subst.
  - apply Hf.
  - cbn in H2. split_and!; try done. congruence.
Qed.

Lemma handles_set r : type r <> DREQ_NONE -> handles (set_request r).
Proof. intros Hr s. cbn. by split_and!. Qed.

Lemma handles_lift {A} (r : result A) (f : A -> G bool) :
  fuelled r -> (forall a, r = Ok a -> handles (f a)) -> handles (mbind f (lift r)).
Proof.
  intros Hr Hf s. unfold mbind, TM_bind, lift. destruct r as [a|w]; [by apply Hf|]. split_and!; try done. by intros [= ->].
Qed.

Lemma handles_query_thread t f : (forall r, type r = t -> handles (f r)) -> handles (mbind f (request_for_query_thread t)).
Proof. intros Hf s. by apply Hf. Qed.

Lemma handles_write d (k : G bool) : 35 ∉ d ->
  (forall s, exists s', k s = (Ok false, s') /\ inbuf s' = inbuf s /\ incoming s' = incoming s /\ accepts s' = accepts s /\
     sent s' = sent s /\ connection_alive_ s' = connection_alive_ s /\ outbuf s' = outbuf s) ->
  handles (write_packet d;; k).
Proof.
  intros Hd Hk s. unfold write_packet. rewrite (bind_ok _ _ _ _ _ (write_packet_bytes_ok d s)).
  destruct (Hk (set_outbuf (outbuf s ++ frame d) s)) as (s' & -> & H1 & H2 & H3 & H4 & H5 & H6).
  split_and!; try done. exists d. by split.
Qed.

Lemma handles_answer d : 35 ∉ d -> handles (write_packet d;; mret false).
Proof. intros Hd. apply handles_write; [done|]. intros s. by exists s. Qed.

#[export] Hint Resolve reads_ask reads_ret : gdb.

(** A constant answer has no [#]. *)
Ltac plain := let H := fresh in vm_compute; intros H; repeat (apply elem_of_cons in H as [H|H]; [discriminate|]); by apply elem_of_nil in H.

Lemma reads_query_request t : reads (request_for_query_thread t).
Proof. by intros s. Qed.
#[export] Hint Resolve reads_query_request : gdb.

Lemma handles_unhandled : handles unhandled.
Proof. apply handles_answer. plain. Qed.
#[export] Hint Resolve handles_unhandled : gdb.

Lemma frame_escape_plain pfx data : 35 ∉ pfx -> 35 ∉ pfx ++ escape data.
Proof. intros H. rewrite elem_of_app. intros [H'|H']; [done|]. revert H'. apply escape_plain. in_list. Qed.

Lemma handles_binary pfx data : 35 ∉ pfx -> handles (write_binary_packet pfx data;; mret false).
Proof.
  intros H s. rewrite (bind_ok _ _ _ _ _ (write_binary_packet_ok pfx data s)). split_and!; try done.
  exists (pfx ++ escape data). split; [by apply frame_escape_plain|done].
Qed.

Lemma handles_xfer_response data offset len : handles (write_xfer_response data offset len;; mret false).
Proof.
  unfold write_xfer_response. cbv zeta.
  repeat (match goal with |- handles (mbind _ (if ?b then _ else _)) => destruct b end);
    try (apply handles_answer; plain); try (apply handles_binary; plain).
  intros s. by split_and!.
Qed.
Lemma supported_plain b : 35 ∉ supported b.
Proof. destruct b; plain. Qed.

(** The requests the parser makes are requests. *)
Create HintDb gdb_types.

Lemma bind_Ok {A B} (r : result A) (f : A -> result B) b : mbind f r = Ok b -> exists a, r = Ok a /\ f a = Ok b.
Proof. destruct r as [a|w]; [by exists a|done]. Qed.

Lemma watch_request_named set ty p r : 0 <= ty <= 4 -> watch_request set ty p = Ok r -> type r <> DREQ_NONE.
Proof.
  intros Ht H. unfold watch_request in H. do 6 (apply bind_Ok in H as (? & _ & H)). injection H as <-. cbn.
  assert (ty = 0 \/ ty = 1 \/ ty = 2 \/ ty = 3 \/ ty = 4) as Hc by lia. by destruct set, Hc as [-> | [-> | [-> | [-> | ->]]]].
Qed.

Lemma run_request_named args r : run_request args = Ok r -> type r <> DREQ_NONE.
Proof.
  intros H. unfold run_request in H. apply bind_Ok in H as (f & _ & H). destruct f.1; [|done]. destruct f.2; [|by injection H as <-].
  do 3 (apply bind_Ok in H as (? & _ & H)). by injection H as <-.
Qed.

Lemma file_request_named operation r : file_request operation = Ok (Some r) -> type r <> DREQ_NONE.
Proof.
  intros H. unfold file_request in H. repeat (case_match; [repeat (apply bind_Ok in H as (? & _ & H)); by injection H as <-|]). done.
Qed.

#[export] Hint Resolve run_request_named file_request_named : gdb_types.

(** Goes through a handler. *)
Ltac handle_step :=
  match goal with
  | |- handles (mbind _ (write_packet _)) => apply handles_answer; (apply supported_plain || plain)
  | |- handles (mbind _ (write_xfer_response _ _ _)) => apply handles_xfer_response
  | |- handles (mbind _ (request_for_query_thread _)) => apply handles_query_thread; intros ? ?
  | |- handles (mbind _ (lift _)) => apply handles_lift; [|intros ? ?]
  | |- handles (mbind _ _) => apply handles_bind; [|intros ?]
  | |- handles (set_request (if _ then _ else _)) => case_match
  | |- handles (set_request _) => apply handles_set; solve [cbn; congruence | cbn; case_match; discriminate | eauto with gdb_types]
  | |- handles (match ?x with _ => _ end) => destruct x eqn:?
  | |- reads (lift _) => apply reads_lift
  | |- reads (mbind _ _) => apply reads_bind; [|intros ?]
  | |- reads (match ?x with _ => _ end) => destruct x eqn:?
  | |- fuelled (match ?x with _ => _ end) => destruct x eqn:?
  | |- _ => solve [auto with gdb nocore]
  end.
Ltac handle := cbv zeta; repeat (handle_step; cbv zeta).

Lemma handles_xfer resource name args : handles (xfer resource name args).
Proof. unfold xfer. handle. Qed.
#[export] Hint Resolve handles_xfer : gdb.

Lemma handles_query resource behind p : handles (query resource behind p).
Proof. unfold query. handle. Qed.

Lemma handles_set_var p : handles (set_var p).
Proof.
  unfold set_var. apply handles_bind; [apply reads_lift; auto with gdb|]. intros n. case_match; [|auto with gdb].
  apply handles_write; [plain|]. intros s. by exists (set_no_ack true s).
Qed.

Lemma handles_bpacket p : handles (process_bpacket p).
Proof. unfold process_bpacket. handle. Qed.

Lemma handles_vpacket p : handles (process_vpacket p).
Proof.
  unfold process_vpacket. apply handles_lift; [auto with gdb|]. intros [name args] E. cbn [fst snd]. cbv zeta.
  destruct (str_eqb name (lit "Cont")); [|handle]. apply handles_lift; [|intros a _; handle].
  apply fuelled_vcont. intros q ->. apply split_at_suffix in E. lia.
Qed.
#[export] Hint Resolve handles_query handles_set_var handles_bpacket handles_vpacket : gdb.

Lemma fuelled_read_mem p : fuelled (read_mem_request p).
Proof. unfold read_mem_request. fuel. Qed.

Lemma fuelled_write_mem n p : fuelled (write_mem_request n p).
Proof. unfold write_mem_request. fuel. Qed.

Lemma fuelled_write_reg p : fuelled (write_reg_request p).
Proof. unfold write_reg_request. fuel. Qed.
#[export] Hint Resolve fuelled_read_mem fuelled_write_mem fuelled_write_reg : gdb.

Lemma handles_exit d : handles (write_packet d;; fail Exited).
Proof.
  intros s. unfold write_packet. rewrite (bind_ok _ _ _ _ _ (write_packet_bytes_ok d s)). by split_and!.
Qed.

Lemma handles_request resource request behind p : handles (handle_request resource request behind p).
Proof.
  unfold handle_request. repeat (match goal with |- handles (if ?b then _ else _) => destruct b end); try apply handles_exit; handle.
  apply handles_set. eapply watch_request_named; [|done].
  match goal with E : negb (_ && _) = false |- _ => apply negb_false_iff, andb_true_iff in E as [?%Z.leb_le ?%Z.leb_le]; lia end.
Qed.

(** ** The wire *)

Inductive item := Ack | Packet (d : list Z).

Definition encode (i : item) : list Z := match i with Ack => [43] | Packet d => frame d end.

Definition wf_item (i : item) : Prop := match i with Ack => True | Packet d => 35 ∉ d end.

Definition wire (l : list item) : list Z := concat (map encode l).

(** Between two calls of the server: what was sent is a sequence of acknowledgements and packets, and
    nothing waits in the output buffer; on a dead connection the last items may be cut off. *)
Definition framed (s : GdbConnection) : Prop :=
  exists l, Forall wf_item l /\
    if connection_alive_ s then sent s = wire l /\ outbuf s = [] else exists cut, sent s ++ cut = wire l.

(** The debugger's side: [fuel] items at most. *)
Fixpoint unwire (fuel : nat) (w : list Z) : option (list item) :=
  match fuel, w with
  | _, [] => Some []
  | O, _ => None
  | S fuel, 43 :: w => cons Ack <$> unwire fuel w
  | S fuel, w => '(d, w) ← unframe w; cons (Packet d) <$> unwire fuel w
  end.

Lemma wire_app a b : wire (a ++ b) = wire a ++ wire b.
Proof. unfold wire. by rewrite map_app, concat_app. Qed.

Lemma unwire_wire l : Forall wf_item l -> unwire (length l) (wire l) = Some l.
Proof.
  induction 1 as [|i l Hi Hl IH]; [done|]. unfold wire. cbn [map concat length]. fold (wire l). destruct i as [|d].
  - cbn [encode app unwire]. by rewrite IH.
  - cbn [encode]. pose proof (unframe_frame d (wire l) Hi) as Hu. unfold frame in *. cbn [app] in *. cbn [unwire].
    rewrite Hu. cbn [mbind option_bind]. by rewrite IH.
Qed.

Lemma flush_framed items s :
  connection_alive_ s = true -> (exists l, Forall wf_item l /\ sent s = wire l) -> Forall wf_item items -> outbuf s = wire items ->
  framed (write_flush s).2.
Proof.
  intros Ha (l & Hl & Hs) Hi Ho. unfold write_flush, change. cbn.
  destruct (write_loop_ok (accepts s) (outbuf s) s) as (acc & k & dead & -> & H1 & _).
  exists (l ++ items). split; [by apply Forall_app|]. rewrite wire_app, <- Hs, <- Ho. destruct dead; cbn; [|rewrite Ha].
  - exists (drop k (outbuf s)). by rewrite <- app_assoc, take_drop.
  - by rewrite H1.
Qed.

(** What was sent stays sent, and a connection that is lost stays lost. *)
Definition keeps_sent (s s' : GdbConnection) : Prop :=
  sent s `prefix_of` sent s' /\ (connection_alive_ s = false -> connection_alive_ s' = false).

Lemma keeps_sent_same s s' : sent s' = sent s -> connection_alive_ s' = connection_alive_ s -> keeps_sent s s'.
Proof. intros Hs Ha. unfold keeps_sent. by rewrite Hs, Ha. Qed.

Lemma keeps_sent_trans s1 s2 s3 : keeps_sent s1 s2 -> keeps_sent s2 s3 -> keeps_sent s1 s3.
Proof. intros [H1 H2] [H3 H4]. split; [by etransitivity|auto]. Qed.

Lemma flush_keeps_sent s : keeps_sent s (write_flush s).2.
Proof.
  unfold write_flush, change. cbn. destruct (write_loop_ok (accepts s) (outbuf s) s) as (acc & k & dead & -> & _).
  destruct dead; (split; [by eexists|done]).
Qed.

Lemma flush_keeps s : inbuf (write_flush s).2 = inbuf s /\ incoming (write_flush s).2 = incoming s /\
  packetend (write_flush s).2 = packetend s.
Proof.
  unfold write_flush, change. cbn. destruct (write_loop_ok (accepts s) (outbuf s) s) as (acc & k & dead & -> & _). by destruct dead.
Qed.

(** ** Every input comes to an end *)

Definition size (s : GdbConnection) : nat := (length (inbuf s) + length (concat (incoming s)))%nat.

Lemma skip_gen s : exists b ib, skip_to_packet_start s = (Ok b, set_inbuf ib s) /\ (length ib <= length (inbuf s))%nat /\
  (b = true -> exists c r, ib = c :: r /\ is_start c = true) /\ (b = false -> ib = []).
Proof.
  unfold skip_to_packet_start, mbind, TM_bind, ask. destruct (find_byte is_start (inbuf s)) as [i|] eqn:E.
  - exists true, (drop i (inbuf s)). split_and!; [done|rewrite length_drop; lia| |done]. intros _. revert i E.
    induction (inbuf s) as [|c l IH]; intros i E; [done|]. cbn in E. destruct (is_start c) eqn:Hc.
    + injection E as <-. by exists c, l.
    + destruct (find_byte is_start l) as [j|]; [|done]. injection E as <-. cbn. by apply IH.
  - exists false, []. split_and!; [done|cbn; lia|done|done].
Qed.

Lemma read_gen s : exists ib l al, read_data_once s = (Ok tt, set_connection_alive al (after_reads ib l s)) /\
  (length ib + length (concat l) <= size s)%nat /\
  ((al = false /\ (length l <= length (incoming s))%nat) \/
   (al = connection_alive_ s /\ (length l < length (incoming s))%nat /\ exists t, ib = inbuf s ++ t)).
Proof.
  unfold read_data_once, mbind, TM_bind, ask, size. destruct (incoming s) as [|[|x c] l] eqn:E.
  - exists (inbuf s), [], false. split_and!; [unfold change; rewrite <- E; by destruct s|cbn; lia|left; cbn; split; [done|lia]].
  - exists (inbuf s), l, false. split_and!; [by destruct s|cbn; lia|left; cbn; split; [done|lia]].
  - exists (inbuf s ++ x :: c), l, (connection_alive_ s). split_and!; [by destruct s| |right; split_and!; [done|cbn; lia|by eexists]].
    cbn [concat]. rewrite !length_app. lia.
Qed.

Lemma await_start_gen fuel s : (length (incoming s) < fuel)%nat \/ connection_alive_ s = false ->
  exists ib l al, await_start fuel s = (Ok tt, set_connection_alive al (after_reads ib l s)) /\
    (length ib + length (concat l) <= size s)%nat /\ (length l <= length (incoming s))%nat /\
    (al = true -> connection_alive_ s = true /\ exists c r, ib = c :: r /\ is_start c = true).
Proof.
  revert s. induction fuel as [|fuel IH]; intros s Hf; cbn [await_start];
    destruct (skip_gen s) as (b & ib & He & Hl & Hb & _); rewrite (bind_ok _ _ _ _ _ He);
    rewrite (bind_ok (ask connection_alive_) _ (set_inbuf ib s) (connection_alive_ s) (set_inbuf ib s) eq_refl);
    (destruct (negb b && connection_alive_ s) eqn:Hgo;
     [|exists ib, (incoming s), (connection_alive_ s); split_and!; [by destruct s|unfold size; lia|lia|];
       intros Ha; rewrite Ha, andb_true_r in Hgo; split; [done|]; apply Hb; by destruct b]).
  - apply andb_true_iff in Hgo as [_ Ha]. destruct Hf as [Hf|Hf]; [lia|congruence].
  - apply andb_true_iff in Hgo as [_ Ha]. destruct Hf as [Hf|Hf]; [|congruence].
    destruct (read_gen (set_inbuf ib s)) as (ib1 & l1 & al1 & Hr & Hs1 & Hcase). rewrite (bind_ok _ _ _ _ _ Hr).
    set (s1 := set_connection_alive al1 _).
    destruct (IH s1) as (ib2 & l2 & al2 & He2 & Hs2 & Hl2 & Hal).
    { destruct Hcase as [[-> _]|(-> & Hlt & _)]; [by right|left]. cbn in Hlt |- *. lia. }
    exists ib2, l2, al2. rewrite He2. unfold size in *. cbn in Hs1, Hs2, Hl2, Hcase, Hal |- *. split_and!; [done|lia| |].
    + destruct Hcase as [[_ ?]|(_ & ? & _)]; lia.
    + intros ->. split; [done|]. by apply Hal.
Qed.

Lemma not_in_hash l : find_byte (fun b => b =? 35) l = None -> 35 ∉ l.
Proof.
  induction l as [|x l IH]; intros H; [apply not_elem_of_nil|]. cbn in H. destruct (Z.eqb_spec x 35); [done|].
  apply not_elem_of_cons. split; [congruence|]. apply IH. by destruct (find_byte _ l).
Qed.

Lemma await_end_gen fuel k s : (length (incoming s) < fuel)%nat -> 35 ∉ take k (inbuf s) ->
  exists ib l al pe, await_end fuel k s = (Ok tt, set_packetend pe (set_connection_alive al (after_reads ib l s))) /\
    (length ib + length (concat l) <= size s)%nat /\
    (al = true -> connection_alive_ s = true -> find_byte (fun b => b =? 35) ib = Some pe /\ exists t, ib = inbuf s ++ t) /\
    (al = true -> connection_alive_ s = true).
Proof.
  revert k s. induction fuel as [|fuel IH]; intros k s Hf Hk; [lia|]. cbn [await_end].
  rewrite (bind_ok (ask inbuf) _ s (inbuf s) s eq_refl). pose proof (find_drop k (inbuf s) Hk) as Hd.
  destruct (find_byte _ (drop k (inbuf s))) as [i|].
  { exists (inbuf s), (incoming s), (connection_alive_ s), (k + i)%nat. split_and!; [by destruct s|unfold size; lia| |done].
    intros _ _. split; [done|]. exists []. by rewrite app_nil_r. }
  destruct (read_gen s) as (ib & l & al & Hr & Hs & Hcase). rewrite (bind_ok _ _ _ _ _ Hr).
  set (s1 := set_connection_alive al _). rewrite (bind_ok (ask connection_alive_) _ s1 al s1 eq_refl). destruct al.
  - destruct Hcase as [[? _]|(Ha & Hlt & t & Hib)]; [done|]. symmetry in Ha.
    destruct (IH (length (inbuf s)) s1) as (ib2 & l2 & al2 & pe & He & Hs2 & H1 & H2).
    + cbn. lia.
    + cbn. rewrite Hib, take_app_length. by apply not_in_hash.
    + exists ib2, l2, al2, pe. rewrite He. unfold size in *. cbn in Hs2, H1 |- *. split_and!; [done|lia| |done].
      intros -> _. destruct (H1 eq_refl eq_refl) as [H3 [t2 H4]]. split; [done|]. exists (t ++ t2). by rewrite H4, Hib, app_assoc.
  - exists ib, l, false, (packetend s). split_and!; [done|done|done|done].
Qed.

(** What [process_packet] asserts of its input. *)
Definition has_packet (s : GdbConnection) : Prop :=
  exists c r, inbuf s = c :: r /\ (c = INTERRUPT_CHAR \/
    (c = 36 /\ find_byte (fun b => b =? 35) (inbuf s) = Some (packetend s))).

Lemma read_packet_gen s :
  exists s', read_packet s = (Ok tt, s') /\ (size s' <= size s)%nat /\ (framed s -> framed s') /\
    (connection_alive_ s' = true -> has_packet s').
Proof.
  unfold read_packet. rewrite (bind_ok (ask _) _ s (length (incoming s)) s eq_refl).
  destruct (await_start_gen (S (length (incoming s))) s) as (ib & l & al & He & Hs & Hl & Hal); [left; lia|].
  rewrite (bind_ok _ _ _ _ _ He). set (s1 := set_connection_alive al _).
  assert (framed s -> framed s1) as Hf1.
  { intros (li & Hli & Hf). exists li. split; [done|]. cbn. destruct al.
    - destruct (Hal eq_refl) as [Ha _]. by rewrite Ha in Hf.
    - destruct (connection_alive_ s); [|done]. exists []. destruct Hf as [-> _]. apply app_nil_r. }
  rewrite (bind_ok (ask connection_alive_) _ s1 al s1 eq_refl). destruct al; cbn [negb].
  2: { exists s1. by split_and!. }
  destruct (Hal eq_refl) as (Ha & c & r & -> & Hc). rewrite (bind_ok (ask inbuf) _ s1 (c :: r) s1 eq_refl).
  cbn [peek]. rewrite (bind_ok (lift _) _ s1 c s1 eq_refl). destruct (Z.eqb_spec c INTERRUPT_CHAR) as [->|Hni].
  { exists (set_packetend 1 s1). split_and!; [done|done|done|]. intros _. exists INTERRUPT_CHAR, r. cbn. auto. }
  assert (c = 36) as ->. { unfold is_start in Hc. rewrite orb_true_iff, !Z.eqb_eq in Hc. by destruct Hc. }
  destruct (await_end_gen (S (length (incoming s))) 0 s1) as (ib2 & l2 & al2 & pe & He2 & Hs2 & H1 & H2);
    [cbn; lia|apply not_elem_of_nil|]. rewrite (bind_ok _ _ _ _ _ He2). set (s2 := set_packetend pe _).
  assert (framed s -> framed s2) as Hf2.
  { intros Hf%Hf1. destruct Hf as (li & Hli & Hf). exists li. split; [done|]. cbn in Hf |- *. destruct al2; [done|].
    exists []. destruct Hf as [-> _]. apply app_nil_r. }
  assert (size s2 <= size s)%nat as Hsz by (unfold size in *; cbn in *; lia).
  rewrite (bind_ok (ask connection_alive_) _ s2 al2 s2 eq_refl). destruct al2; cbn [negb].
  2: { exists s2. by split_and!. }
  destruct (H1 eq_refl eq_refl) as [Hpe [t Ht]]. cbn in Ht.
  assert (has_packet s2) as Hp by (exists 36, (r ++ t); cbn; split; [done|by right]).
  rewrite (bind_ok (ask inbuf) _ s2 ib2 s2 eq_refl), (bind_ok (ask packetend) _ s2 pe s2 eq_refl).
  assert ((default 0 (head ib2) =? 36) && (pe <? length ib2)%nat = true) as ->.
  { rewrite Ht at 1. cbn [head default]. apply andb_true_iff. split; [done|]. apply Nat.ltb_lt. clear -Hpe. revert pe Hpe.
    induction ib2 as [|x ib2 IH]; intros pe H; [done|]. cbn in H |- *. destruct (x =? 35); [injection H as <-; lia|].
    destruct (find_byte _ ib2) as [j|]; [|done]. injection H as <-. specialize (IH j eq_refl). lia. }
  rewrite (bind_ok (lift _) _ s2 tt s2 eq_refl), (bind_ok (ask no_ack) _ s2 (no_ack s) s2 eq_refl).
  destruct (no_ack s); cbn [negb]; [exists s2; by split_and!|].
  unfold write_data_raw. erewrite (bind_ok (change _) _ s2 tt _) by done. set (s3 := set_outbuf (outbuf s2 ++ lit "+") s2).
  exists (write_flush s3).2. split_and!; [done| | |].
  - destruct (flush_keeps s3) as (E1 & E2 & _). unfold size. by rewrite E1, E2.
  - intros Hf%Hf2. destruct Hf as (li & Hli & Hs' & Ho'). apply (flush_framed [Ack]); [done|by exists li|by repeat constructor|].
    cbn in Ho' |- *. by rewrite Ho'.
  - intros _. destruct (flush_keeps s3) as (E1 & _ & E3). destruct Hp as (c & r' & Hp). exists c, r'. by rewrite E1, E3.
Qed.

Lemma process_packet_gen resource s : connection_alive_ s = true -> has_packet s ->
  let '(r, s') := process_packet resource s in
  r <> Err NoFuel /\ forall b, r = Ok b -> (size s' < size s)%nat /\ (framed s -> framed s').
Proof.
  intros Ha (c & r & Hi & Hc). unfold process_packet.
  rewrite (bind_ok (ask inbuf) _ s _ s eq_refl), (bind_ok (ask packetend) _ s _ s eq_refl).
  rewrite Hi in Hc |- *. cbn [peek]. rewrite (bind_ok (lift _) _ s c s eq_refl).
  destruct Hc as [->|[-> Hpe]].
  { rewrite (bind_ok (lift _) _ s tt s eq_refl). change (INTERRUPT_CHAR =? INTERRUPT_CHAR) with true. cbn. split; [done|].
    intros b [= <-]. split; [unfold size; cbn; rewrite Hi; cbn; lia|]. intros (l & Hl & Hf). by exists l. }
  rewrite bool_decide_eq_true_2 by done. rewrite (bind_ok (lift _) _ s tt s eq_refl). change (36 =? INTERRUPT_CHAR) with false.
  cbv iota. destruct (peek (drop 1 (36 :: r))) as [request|w] eqn:E; [|destruct r; [by injection E as <-|done]].
  rewrite (bind_ok (lift _) _ s request s eq_refl). set (p := drop 2 _). set (cut := drop (S _) _).
  assert (length cut <= length r)%nat as Hcut.
  { unfold cut. rewrite length_drop, length_insert. cbn. lia. }
  pose proof (handles_request resource request (length (36%Z :: r) - packetend s) p s) as Hd.
  unfold mbind, TM_bind. destruct (handle_request _ _ _ _ s) as [[b|w] s1].
  2: { split; [|done]. destruct Hd as [Hd _]. congruence. }
  destruct Hd as (_ & H1 & H2 & H3 & H4 & H5 & H6). destruct b.
  - split; [done|]. intros b _. split; [unfold size; cbn; rewrite H2, Hi; cbn; lia|].
    intros (l & Hl & Hf). exists l. cbn. destruct H6 as [H6 _]. rewrite H4, H5, H6. done.
  - destruct H6 as (d & Hd & Ho). set (s2 := set_req (new_request DREQ_NONE) (set_inbuf cut s1)).
    assert ((size (write_flush s2).2 < size s)%nat /\ (framed s -> framed (write_flush s2).2)) as Hfin.
    { destruct (flush_keeps s2) as (F1 & F2 & _). split.
      - unfold size. rewrite F1, F2. cbn. rewrite H2, Hi. cbn. lia.
      - intros (l & Hl & Hf). rewrite Ha in Hf. destruct Hf as [Hs Ho0].
        apply (flush_framed [Packet d]); [cbn; congruence|exists l; split; [done|cbn; congruence]|by repeat constructor|].
        cbn. rewrite Ho, Ho0. unfold wire. cbn. by rewrite app_nil_r. }
    split; [done|]. intros _ _. exact Hfin.
Qed.

Lemma get_packets_gen resource fuel s :
  let '(r, s') := get_packets resource fuel s in
  ((size s < fuel)%nat -> r <> Err NoFuel) /\ (framed s -> forall rq, r = Ok rq -> framed s').
Proof.
  revert s. induction fuel as [|fuel IH]; intros s; [cbn; split; [lia|done]|]. cbn [get_packets].
  destruct (read_packet_gen s) as (s1 & He & Hs1 & Hf1 & Hp). rewrite (bind_ok _ _ _ _ _ He).
  rewrite (bind_ok (ask connection_alive_) _ s1 _ s1 eq_refl). destruct (connection_alive_ s1) eqn:Ha; cbn [negb].
  2: { split; [done|]. intros Hfr rq _. destruct (Hf1 Hfr) as (l & Hl & Hx). exists l. cbn. by rewrite Ha in Hx |- *. }
  pose proof (process_packet_gen resource s1 Ha (Hp eq_refl)) as Hpp. unfold mbind, TM_bind.
  destruct (process_packet resource s1) as [[b|w] s2]; destruct Hpp as [Hnf Hpp].
  2: { split; [congruence|done]. }
  destruct (Hpp b eq_refl) as [Hsz Hfr2]. destruct b.
  - split; [done|]. intros Hfr rq _. by apply Hfr2, Hf1.
  - specialize (IH s2). destruct (get_packets resource fuel s2) as [r s3]. destruct IH as [IH1 IH2].
    split; [intros ?; apply IH1; lia|]. intros Hfr. by apply IH2, Hfr2, Hf1.
Qed.

Lemma sniff_gen s : exists b pl ib, sniff_packet s = (Ok b, set_polls pl (set_inbuf ib s)) /\ (length ib <= length (inbuf s))%nat.
Proof.
  unfold sniff_packet. destruct (skip_gen s) as (b & ib & He & Hl & _ & Hn). rewrite (bind_ok _ _ _ _ _ He). destruct b.
  - by exists true, (polls s), ib.
  - rewrite (Hn eq_refl) in *. set (s1 := set_inbuf [] s). rewrite (bind_ok (ask inbuf) _ s1 [] s1 eq_refl).
    rewrite bool_decide_eq_true_2 by done. rewrite (bind_ok (lift _) _ s1 tt s1 eq_refl). unfold poll_incoming.
    rewrite (bind_ok (ask polls) _ s1 (polls s) s1 eq_refl). destruct (polls s) as [|b pl] eqn:E.
    + exists false, (polls s), []. by split.
    + by exists b, pl, [].
Qed.

Lemma get_request_gen resource fuel s :
  let '(r, s') := get_request resource fuel s in
  ((size s < fuel)%nat -> r <> Err NoFuel) /\ (framed s -> forall rq, r = Ok rq -> framed s').
Proof.
  unfold get_request. rewrite (bind_ok (ask req) _ s _ s eq_refl).
  destruct (bool_decide (type (req s) = DREQ_RESTART)) eqn:E0.
  - unfold notify_restart, ASSERT, mbind, TM_bind, ask. rewrite E0. split; [done|]. intros (l & Hl & Hf) rq _. by exists l.
  - unfold ASSERT. destruct (negb (request_needs_immediate_response (req s))); [|done].
    rewrite (bind_ok (mret tt) _ s tt s eq_refl). destruct (sniff_gen s) as (b & pl & ib & He & Hl). rewrite (bind_ok _ _ _ _ _ He).
    destruct (negb b && is_resume_request (req s)); [split; [done|]; intros (l & Hl' & Hf) rq _; by exists l|].
    pose proof (get_packets_gen resource fuel (set_polls pl (set_inbuf ib s))) as Hg.
    destruct (get_packets _ _ _) as [r s']. destruct Hg as [H1 H2]. split; [|exact H2].
    intros Hs. apply H1. unfold size in *. cbn. lia.
Qed.

(** C32.  `get_request` comes to an end on every input and in every state of the
    connection; one turn for each byte of input suffices, and the loops of the
    parser over actions and conditions never exceed their bounds. *)
Theorem get_request_ends resource fuel s : (size s < fuel)%nat -> (get_request resource fuel s).1 <> Err NoFuel.
Proof. pose proof (get_request_gen resource fuel s) as H. destruct (get_request _ _ _). apply H. Qed.

(** ** The server's calls *)

(** A step that writes one packet. *)
Definition speaks (c : G unit) : Prop :=
  forall s s', c s = (Ok tt, s') ->
    sent s' = sent s /\ connection_alive_ s' = connection_alive_ s /\ exists d, 35 ∉ d /\ outbuf s' = outbuf s ++ frame d.

(** A call that keeps the wire framed while the connection is alive, and what was sent in any case. *)
Definition concludes (c : G unit) : Prop :=
  forall s s', c s = (Ok tt, s') -> (connection_alive_ s = true -> framed s -> framed s') /\ keeps_sent s s'.

Lemma speaks_packet d : 35 ∉ d -> speaks (write_packet d).
Proof.
  intros Hd s s' H. unfold write_packet in H. rewrite write_packet_bytes_ok in H. injection H as <-. split_and!; try done.
  by exists d.
Qed.

Lemma speaks_binary pfx d : 35 ∉ pfx -> speaks (write_binary_packet pfx d).
Proof.
  intros Hd s s' H. rewrite write_binary_packet_ok in H. injection H as <-. split_and!; try done.
  eexists. split; [by apply frame_escape_plain|done].
Qed.

Lemma hex_plain s : Forall is_hex s -> 35 ∉ s.
Proof. intros H. apply is_hex_not_in; [done|by unfold is_hex]. Qed.

Lemma speaks_hex pfx d : 35 ∉ pfx -> byte_list d -> speaks (write_hex_bytes_packet pfx d).
Proof.
  intros Hp Hd. unfold write_hex_bytes_packet.
  assert (35 ∉ pfx ++ hex_bytes d) as H.
  { rewrite elem_of_app. intros [H|H]; [done|]. revert H. by apply hex_plain, hex_bytes_hex. }
  destruct pfx, d; by apply speaks_packet.
Qed.

Lemma consume_framed d s s' : connection_alive_ s = true -> (exists l, Forall wf_item l /\ sent s = wire l) ->
  35 ∉ d -> outbuf s = frame d -> consume_request s = (Ok tt, s') -> framed s'.
Proof.
  intros Ha Hl Hd Ho H. unfold consume_request in H. erewrite (bind_ok (change _) _ s tt _) in H by done.
  assert (s' = (write_flush (set_req (new_request DREQ_NONE) s)).2) as -> by (by rewrite H).
  apply (flush_framed [Packet d]); [done|done|by repeat constructor|]. cbn. rewrite Ho. unfold wire. cbn. by rewrite app_nil_r.
Qed.

Lemma consume_keeps_sent s s' : consume_request s = (Ok tt, s') -> keeps_sent s s'.
Proof.
  unfold consume_request. erewrite (bind_ok (change _) _ s tt _) by done. intros H.
  pose proof (flush_keeps_sent (set_req (new_request DREQ_NONE) s)) as Hk. by rewrite H in Hk.
Qed.

Lemma concludes_consume c : speaks c -> concludes (c;; consume_request).
Proof.
  intros Hc s s' H. apply bind_Ok_inv in H as (u & s1 & H1 & H2). destruct u.
  destruct (Hc s s1 H1) as (E1 & E2 & d & Hd & Ho).
  split; [|by eapply keeps_sent_trans; [apply keeps_sent_same|apply consume_keeps_sent]]. intros Ha Hf. destruct Hf as (l & Hl & Hf). rewrite Ha in Hf. destruct Hf as [Hs Ho0].
  apply (consume_framed d) in H2; [done|congruence|exists l; split; [done|congruence]|done|by rewrite Ho, Ho0].
Qed.

Lemma concludes_reply d : 35 ∉ d -> concludes (reply d).
Proof. intros Hd. apply concludes_consume. by apply speaks_packet. Qed.

Lemma concludes_bind {A} (c : G A) (f : A -> G unit) : reads c -> (forall a, concludes (f a)) -> concludes (mbind f c).
Proof.
  intros Hc Hf s s' H. apply bind_Ok_inv in H as (a & s1 & H1 & H2). destruct (Hc s) as [E _]. rewrite H1 in E. cbn in E.
  subst s1. by apply (Hf a s).
Qed.

Lemma concludes_lift {A} (r : result A) (f : A -> G unit) : (forall a, r = Ok a -> concludes (f a)) -> concludes (mbind f (lift r)).
Proof.
  intros Hf s s' H. unfold mbind, TM_bind, lift in H. destruct r as [a|]; [|done]. by apply (Hf a eq_refl s).
Qed.

(** Selecting threads. *)
Lemma concludes_change (g : GdbConnection -> GdbConnection) c :
  (forall s, sent (g s) = sent s /\ outbuf (g s) = outbuf s /\ connection_alive_ (g s) = connection_alive_ s) ->
  concludes c -> concludes (change g;; c).
Proof.
  intros Hg Hc s s' H. erewrite (bind_ok (change _) _ s tt _) in H by done. destruct (Hg s) as (E1 & E2 & E3).
  destruct (Hc (g s) s' H) as [Hfr Hk]. split; [|by eapply keeps_sent_trans; [apply keeps_sent_same|]].
  intros Ha (l & Hl & Hf). apply Hfr; [congruence|]. exists l. split; [done|]. by rewrite E1, E2, E3.
Qed.

Lemma reads_answers ts : reads (answers ts).
Proof. intros s. unfold answers, ASSERT, mbind, TM_bind, ask. by destruct (bool_decide _). Qed.

Lemma reads_ASSERT b : reads (ASSERT b : G unit).
Proof. intros s. unfold ASSERT. by destruct b. Qed.

#[export] Hint Resolve reads_answers reads_ASSERT : gdb.

(** Formatted numbers have no [#]. *)
Lemma u32_range x : 0 <= u32 x < 2 ^ 64.
Proof. unfold wrapu. change (2 ^ 32) with 4294967296. pose proof (Z.mod_pos_bound x 4294967296 ltac:(lia)). lia. Qed.

Lemma plain_app a b : 35 ∉ a -> 35 ∉ b -> 35 ∉ a ++ b.
Proof. rewrite elem_of_app. tauto. Qed.

Lemma plain_x x : 0 <= x < 2 ^ 64 -> 35 ∉ fmt_x x.
Proof. intros H. apply hex_plain, fmt_x_ok, H. Qed.

Lemma plain_02x x : 0 <= x < 2 ^ 64 -> 35 ∉ fmt_02x x.
Proof. intros H. apply hex_plain, fmt_02x_ok, H. Qed.

Lemma plain_ok_or b : 35 ∉ ok_or b (lit "E01") /\ 35 ∉ ok_or b [].
Proof. destruct b; split; plain. Qed.

Lemma plain_thread t : 35 ∉ thread_text t.
Proof. unfold thread_text. repeat apply plain_app; (apply plain_02x, u32_range) || plain. Qed.

Lemma plain_stop t sig w : 0 <= w < 2 ^ 64 -> 35 ∉ stop_text t sig w.
Proof.
  intros Hw. unfold stop_text. assert (35 ∉ if w =? 0 then [] else lit "watch:" ++ fmt_x w ++ lit ";") as Ht.
  { case_match; [plain|]. repeat apply plain_app; by apply plain_x || plain. }
  repeat apply plain_app; exact Ht || (apply plain_02x, u32_range) || apply plain_thread || plain.
Qed.

Lemma plain_threads g l : 35 ∉ thread_list_text g l.
Proof.
  unfold thread_list_text. apply plain_app; [plain|]. induction (filter _ l) as [|t ts IH]; [apply not_elem_of_nil|].
  cbn [map concat].
  apply plain_app; [|done]. apply plain_app; [apply plain_thread|plain].
Qed.

Lemma removelast_in {A} (l : list A) x : x ∈ removelast l -> x ∈ l.
Proof.
  induction l as [|a l IH]; [done|]. destruct l as [|b l]; [intros H; by apply elem_of_nil in H|].
  cbn [removelast]. rewrite !(elem_of_cons _ _ a). tauto.
Qed.

Lemma gdb_errno_range e : 0 <= gdb_errno e < 2 ^ 64.
Proof. unfold gdb_errno. repeat case_match; lia. Qed.

(** The calls by which the server answers, with the arguments it can have. *)
Inductive server_call : G unit -> Prop :=
| call_no_such_thread : server_call notify_no_such_thread
| call_exit_code c : server_call (notify_exit_code c)
| call_exit_signal sig : server_call (notify_exit_signal sig)
| call_stop t sig w : 0 <= w < 2 ^ 64 -> server_call (notify_stop t sig w)
| call_restart_failed : server_call notify_restart_failed
| call_current_thread t : server_call (reply_get_current_thread t)
| call_auxv l : server_call (reply_get_auxv l)
| call_exec_file f : server_call (reply_get_exec_file f)
| call_is_alive b : server_call (reply_get_is_thread_alive b)
| call_extra_info i : byte_list i -> server_call (reply_get_thread_extra_info i)
| call_select_thread b : server_call (reply_select_thread b)
| call_get_mem m : byte_list m -> server_call (reply_get_mem m)
| call_set_mem b : server_call (reply_set_mem b)
| call_search_mem b a : 0 <= a < 2 ^ 64 -> server_call (reply_search_mem b a)
| call_offsets : server_call reply_get_offsets
| call_get_reg r : byte_list (reg_value r) -> server_call (reply_get_reg r)
| call_get_regs l : Forall (fun r => byte_list (reg_value r)) l -> server_call (reply_get_regs l)
| call_set_reg b : server_call (reply_set_reg b)
| call_stop_reason t sig : server_call (reply_get_stop_reason t sig)
| call_thread_list l : server_call (reply_get_thread_list l)
| call_watchpoint b : server_call (reply_watchpoint_request b)
| call_detach : server_call reply_detach
| call_read_siginfo l : server_call (reply_read_siginfo l)
| call_write_siginfo : server_call reply_write_siginfo
| call_rr_cmd text : 35 ∉ text -> server_call (reply_rr_cmd text)
| call_qsymbol n : byte_list n -> server_call (send_qsymbol n)
| call_qsymbols_finished : server_call qsymbols_finished
| call_tls b a : 0 <= a < 2 ^ 64 -> server_call (reply_tls_addr b a)
| call_setfs e : server_call (reply_setfs e)
| call_open fd e : server_call (reply_open fd e)
| call_pread l e : Z.of_nat (length l) < 2 ^ 64 -> server_call (reply_pread l e)
| call_close e : server_call (reply_close e).

Lemma speaks_stop t sig w : 0 <= w < 2 ^ 64 -> speaks (send_stop_reply_packet t sig w).
Proof.
  intros H. unfold send_stop_reply_packet. case_match; apply speaks_packet; [plain|by apply plain_stop].
Qed.

Lemma speaks_error e : speaks (send_file_error_reply e).
Proof. apply speaks_packet, plain_app; [plain|]. apply plain_x, gdb_errno_range. Qed.

Lemma plain_reg r t : byte_list (reg_value r) -> print_reg_value r = Ok t -> 35 ∉ t.
Proof.
  intros Hb. unfold print_reg_value. destruct (reg_size r <=? MAX_SIZE); cbn [parser_assert mbind result_bind]; [|discriminate].
  intros [= <-]. case_match.
  - apply hex_plain, hex_bytes_hex. apply Forall_forall. intros x Hx. apply in_map_iff in Hx as (i & <- & _).
    unfold byte_list in Hb. rewrite Forall_forall in Hb. destruct (nth_in_or_default i (reg_value r) 0) as [Hi| ->]; [by apply Hb|lia].
  - induction (Z.to_nat (reg_size r)) as [|n IH]; [apply not_elem_of_nil|]. cbn [repeat concat]. apply plain_app; [plain|done].
Qed.

Lemma plain_regs l t : Forall (fun r => byte_list (reg_value r)) l -> print_regs l = Ok t -> 35 ∉ t.
Proof.
  intros Hl. revert t. induction Hl as [|r l Hr Hl IH]; intros t; cbn [print_regs]; [intros [= <-]; apply not_elem_of_nil|].
  destruct (print_reg_value r) as [a|] eqn:E; [|done]. destruct (print_regs l) as [b|]; [|done]. intros [= <-].
  apply plain_app; [by eapply plain_reg|by apply IH].
Qed.

Lemma terminated_same t u : terminated t = Ok u -> u = t.
Proof. destruct t; [done|]. by intros [= <-]. Qed.

Lemma c_str_in s x : x ∈ c_str s -> x ∈ s.
Proof.
  induction s as [|c s IH]; cbn; [done|]. case_match; [intros H'; by apply elem_of_nil in H'|]. rewrite !elem_of_cons. tauto.
Qed.

(** The texts of the answers. *)
Ltac plain_text :=
  match goal with
  | |- _ ∉ _ ++ _ => apply plain_app; plain_text
  | |- _ ∉ (if ?b then _ else _) => destruct b; plain_text
  | |- _ ∉ fmt_02x (u32 _) => apply plain_02x, u32_range
  | |- _ ∉ fmt_x (u32 _) => apply plain_x, u32_range
  | |- _ ∉ fmt_x _ => apply plain_x; try done; lia
  | |- _ ∉ thread_text _ => apply plain_thread
  | |- _ ∉ lit _ => plain
  | |- _ ∉ [] => apply not_elem_of_nil
  | |- _ => idtac
  end.

Ltac conclude_step :=
  match goal with
  | |- concludes (reply _) => apply concludes_reply
  | |- concludes (mbind (fun _ => consume_request) _) => apply concludes_consume
  | |- concludes (mbind _ _) => apply concludes_bind; [solve [auto with gdb]|intros ?]
  | |- speaks (match ?x with _ => _ end) => destruct x eqn:?
  | |- speaks (write_binary_packet _ _) => apply speaks_binary; plain
  | |- speaks (send_file_error_reply _) => apply speaks_error
  | |- speaks (write_packet _) => apply speaks_packet
  | |- _ ∉ ok_or _ _ => apply plain_ok_or
  end.

Lemma concludes_stop t sig w : 0 <= w < 2 ^ 64 -> concludes (notify_stop t sig w).
Proof.
  intros Hw. unfold notify_stop. do 2 conclude_step. destruct (negb _).
  { intros s s' [= <-]. split; [done|by apply keeps_sent_same]. }
  intros s s' H. apply bind_Ok_inv in H as ([] & s1 & H1 & H2).
  destruct (speaks_stop t sig w Hw s s1 H1) as (E1 & E2 & d & Hd & Ho).
  rewrite (bind_ok (ask req) _ s1 (req s1) s1 eq_refl) in H2. cbv zeta in H2.
  do 2 (erewrite (bind_ok (change _) _ _ tt _) in H2 by done).
  split; [|by eapply keeps_sent_trans; [|by apply consume_keeps_sent]; apply keeps_sent_same].
  intros Ha (l & Hl & Hf). rewrite Ha in Hf. destruct Hf as [Hs Ho0].
  apply (consume_framed d) in H2; [done|cbn; congruence|exists l; split; [done|cbn; congruence]|done|cbn; by rewrite Ho, Ho0].
Qed.

Lemma concludes_select b : concludes (reply_select_thread b).
Proof.
  unfold reply_select_thread. do 2 conclude_step.
  assert (concludes (reply (ok_or b (lit "E01")))) as Hr by (apply concludes_reply, plain_ok_or).
  destruct (b && _); [by apply concludes_change|]. destruct (b && _); [by apply concludes_change|].
  apply concludes_bind; [by intros s|done].
Qed.

Lemma concludes_detach : concludes reply_detach.
Proof. unfold reply_detach. repeat conclude_step. plain. Qed.

Lemma concludes_get_regs l : Forall (fun r => byte_list (reg_value r)) l -> concludes (reply_get_regs l).
Proof.
  intros Hl. unfold reply_get_regs. conclude_step. apply concludes_lift. intros t Ht. apply concludes_lift.
  intros u ->%terminated_same. apply concludes_reply. by eapply plain_regs.
Qed.

Lemma concludes_get_reg r : byte_list (reg_value r) -> concludes (reply_get_reg r).
Proof.
  intros Hl. unfold reply_get_reg. conclude_step. apply concludes_lift. intros t Ht. apply concludes_lift.
  intros u ->%terminated_same. apply concludes_reply. by eapply plain_reg.
Qed.

Lemma concludes_call c : server_call c -> concludes c.
Proof.
  destruct 1; try by (apply concludes_stop || apply concludes_select || apply concludes_detach ||
    apply concludes_get_reg || apply concludes_get_regs).
  all: unfold notify_no_such_thread, notify_exit_code, notify_exit_signal, notify_restart_failed, reply_get_current_thread,
    reply_get_auxv, reply_get_exec_file, reply_get_is_thread_alive, reply_get_thread_extra_info, reply_get_mem, reply_set_mem,
    reply_search_mem, reply_get_offsets, reply_set_reg, reply_get_stop_reason, reply_get_thread_list, reply_watchpoint_request,
    reply_read_siginfo, reply_write_siginfo, reply_rr_cmd, send_qsymbol, qsymbols_finished, reply_tls_addr, reply_setfs,
    reply_open, reply_pread, reply_close; repeat conclude_step.
  all: plain_text.
  - apply speaks_hex; [apply not_elem_of_nil|]. apply Forall_app. split; [done|]. constructor; [lia|constructor].
  - apply speaks_hex; [apply not_elem_of_nil|done].
  - by apply speaks_stop.
  - intros Hin%removelast_in. revert Hin. apply plain_threads.
  - by intros Hin%c_str_in.
  - apply speaks_hex; [plain|done].
  - apply speaks_binary. plain_text.
Qed.

(** On a connection that is lost [get_request] sends nothing. *)
Lemma get_request_dead resource fuel s rq s' :
  connection_alive_ s = false -> get_request resource fuel s = (Ok rq, s') -> sent s' = sent s /\ connection_alive_ s' = false.
Proof.
  intros Ha. unfold get_request. rewrite (bind_ok (ask req) _ s _ s eq_refl).
  destruct (bool_decide (type (req s) = DREQ_RESTART)) eqn:E0.
  - unfold notify_restart, ASSERT, mbind, TM_bind, ask. rewrite E0. by intros [= _ <-].
  - unfold ASSERT. destruct (negb (request_needs_immediate_response (req s))); [|done].
    rewrite (bind_ok (mret tt) _ s tt s eq_refl). destruct (sniff_gen s) as (b & pl & ib & He & Hl). rewrite (bind_ok _ _ _ _ _ He).
    destruct (negb b && is_resume_request (req s)); [by intros [= _ <-]|]. set (s1 := set_polls pl (set_inbuf ib s)).
    assert (connection_alive_ s1 = false) as Ha1 by done. destruct fuel as [|fuel]; [done|]. cbn [get_packets]. unfold read_packet.
    destruct (await_start_gen (S (length (incoming s1))) s1) as (ib2 & l & al & He2 & _ & _ & Hal); [left; lia|].
    destruct al; [by destruct (Hal eq_refl) as [Hal1 _]; rewrite Ha1 in Hal1|].
    unfold mbind, TM_bind, ask. cbn -[await_start s1]. unfold mbind, TM_bind. rewrite He2. cbn. by intros [= _ <-].
Qed.

(** The server works with a connection: it asks for requests and makes calls that answer them, the answer to the
    [DREQ_DETACH] of a connection that is lost included.  [before] is what was sent until then. *)
Inductive serve (resource : cstring -> option cstring) (s0 : GdbConnection) : GdbConnection -> list Z -> Prop :=
| serve_start : serve resource s0 s0 (sent s0)
| serve_get s1 before rq fuel s2 : serve resource s0 s1 before -> get_request resource fuel s1 = (Ok rq, s2) ->
    serve resource s0 s2 (if connection_alive_ s1 then sent s2 else before)
| serve_answer s1 before c s2 : serve resource s0 s1 before -> server_call c -> c s1 = (Ok tt, s2) ->
    serve resource s0 s2 (if connection_alive_ s1 then sent s2 else before).

(** [framed], with what was sent until the connection was lost. *)
Definition framed_before (s : GdbConnection) (before : list Z) : Prop :=
  if connection_alive_ s then framed s /\ before = sent s
  else before `prefix_of` sent s /\ exists l cut, Forall wf_item l /\ before ++ cut = wire l.

Lemma framed_before_live s : framed s -> framed_before s (sent s).
Proof.
  intros Hf. unfold framed_before. destruct (connection_alive_ s) eqn:Ha; [done|]. split; [done|].
  destruct Hf as (l & Hl & Hf). rewrite Ha in Hf. destruct Hf as [cut Hcut]. by exists l, cut.
Qed.

Lemma serve_framed resource s0 s before : framed s0 -> serve resource s0 s before -> framed_before s before.
Proof.
  intros H0. induction 1 as [|s1 before rq fuel s2 H1 IH H2|s1 before c s2 H1 IH Hc H2]; [by apply framed_before_live| |].
  - unfold framed_before in IH. destruct (connection_alive_ s1) eqn:Ha.
    + pose proof (get_request_gen resource fuel s1) as Hg. rewrite H2 in Hg. destruct Hg as [_ Hg].
      apply framed_before_live. by eapply Hg; [apply IH|].
    + destruct (get_request_dead resource fuel s1 rq s2 Ha H2) as [Hs Ha2]. unfold framed_before. by rewrite Ha2, Hs.
  - destruct (concludes_call c Hc s1 s2 H2) as [Hf [Hp Hd]]. unfold framed_before in IH. destruct (connection_alive_ s1) eqn:Ha.
    + apply framed_before_live, Hf; [done|apply IH].
    + unfold framed_before. rewrite (Hd eq_refl). split; [|apply IH]. etransitivity; [apply IH|done].
Qed.

(** C10.  Whatever the debugger sends, whatever calls the server makes to answer
    and however the socket splits reads and writes: while the connection is
    alive, what the debugger receives is a sequence of acknowledgements and
    packets with correct checksums, which it can take apart again, and nothing
    is left in the output buffer between two calls; and what was sent until a
    write or read failed is a beginning of such a sequence.  The server goes on
    after that (GdbServer.cc:1027 answers the detach request of a lost
    connection): this is covered too, and only adds to what was sent, without
    the promise that the additions fit, as the witness shows with +$OK$OK#9a. *)
Theorem wire_framed resource tgid rev incoming polls accepts s before :
  serve resource (new_connection tgid rev incoming polls accepts) s before ->
  exists l, Forall wf_item l /\
    if connection_alive_ s then outbuf s = [] /\ sent s = wire l /\ unwire (length l) (sent s) = Some l
    else before `prefix_of` sent s /\ exists cut, before ++ cut = wire l.
Proof.
  intros H. apply serve_framed in H; [|by exists []]. unfold framed_before in H. destruct (connection_alive_ s) eqn:Ha.
  - destruct H as [(l & Hl & Hf) _]. rewrite Ha in Hf. destruct Hf as [Hs Ho]. exists l. split_and!; [done..|].
    rewrite Hs. by apply unwire_wire.
  - destruct H as [Hp (l & cut & Hl & Hc)]. exists l. by split_and!; [..|exists cut].
Qed.

