(* ===== verification/GdbCommands.v ===== *)
(** * The commands rr adds to the debugger

    GdbCommandHandler.cc and GdbCommand.cc: the encoding of commands and their output, the
    table of commands, the history ([back], [forward]) and the checkpoints.  The timeline of
    the replay and the task the command is for are an interface ([Timeline]). *)

From Stdlib Require Import String.
From stdpp Require Import base tactics list numbers.
From S2P Require Import Prelude CStrings CxxStrings TracerMonad GdbText GdbConnection GdbEncodingSpec.
Local Open Scope Z_scope.

(** ** Encoding *)

(** [(int)str.at(i)]: a [char] is signed. *)
Definition char_int (b : Z) : Z := wraps 8 b.

(** A zero, when the code is less than 16, and the code as [%x]. *)
Definition gdb_escape (str : cstring) : cstring :=
  concat (map (fun b => (if char_int b <? 16 then lit "0" else []) ++ fmt_x (u32 (char_int b))) str).

(** [(char)stoul(s, nullptr, 16)]; [stoul] throws when there is no number or it is too big. *)
Definition stoul_char (s : cstring) : result Z :=
  n ← number 16 (s ++ [0]);
  match n.1 with
  | None => Err Uncaught
  | Some (neg, v) => if ULONG_MAX <? v then Err Uncaught else mret (u8 (if neg : bool then - v else v))
  end.

(** Two characters at a time, the last alone when their number is odd. *)
Fixpoint gdb_unescape (str : cstring) : result cstring :=
  match str with
  | [] => Ok []
  | [a] => c ← stoul_char [a]; mret [c]
  | a :: b :: str => c ← stoul_char [a; b]; r ← gdb_unescape str; mret (c :: r)
  end.

(** The parts between colons. *)
Fixpoint split_colons (str : cstring) : list cstring :=
  match str with
  | [] => [[]]
  | c :: str =>
      if c =? 58 then [] :: split_colons str
      else match split_colons str with w :: ws => (c :: w) :: ws | [] => [[c]] end
  end.

Fixpoint unescape_all (l : list cstring) : result (list cstring) :=
  match l with
  | [] => Ok []
  | w :: l => a ← gdb_unescape w; r ← unescape_all l; mret (a :: r)
  end.

Definition parse_cmd (str : cstring) : result (list cstring) := unescape_all (split_colons str).

(** [to_string] of an integer. *)
Fixpoint dec_digits (n : nat) (x : Z) : cstring :=
  match n with
  | O => []
  | S n => if x <? 10 then [48 + x] else dec_digits n (x / 10) ++ [48 + x mod 10]
  end.

Definition to_string (x : Z) : cstring :=
  if x <? 0 then lit "-" ++ dec_digits 20 (- x) else dec_digits 20 x.

(** [stoi]: throws when there is no number or it does not fit. *)
Definition stoi (s : cstring) : result Z :=
  n ← number 10 (s ++ [0]);
  match n.1 with
  | None => Err Uncaught
  | Some (neg, v) =>
      let v := if neg : bool then - v else v in
      if (v <? - 2 ^ 31) || (2 ^ 31 <=? v) then Err Uncaught else mret v
  end.

(** ** The timeline *)

Class Timeline (Mark world : Type) := {
  replaying : world -> bool;
  event_time : world -> Z;
  tick_count : world -> Z;
  task_tid : world -> Z;
  elapsed_text : world -> cstring;
  mark : world -> Mark * world;
  seek_to_mark : Mark -> world -> world;
  can_add_checkpoint : world -> bool;
  add_explicit_checkpoint : world -> Mark * world;
  remove_explicit_checkpoint : Mark -> world -> world;
  mark_time : Mark -> Z }.

Section Commands.
Context {Mark world : Type} {timeline : Timeline Mark world}.

(** A thread id and the serial number of the task. *)
Abbreviation TaskUid := (Z * Z)%type.

Record Checkpoint := mkCheckpoint {
  cp_mark : Mark;
  cp_last_continue : TaskUid;
  is_explicit : bool;
  where_ : cstring }.

(** The statics of GdbCommand.cc, and the fields of the server they use; a mark that is not set is [None]. *)
Record commands := mkCommands {
  back_stack : list (option Mark);
  current_history_cp : option Mark;
  forward_stack : list (option Mark);
  gNextCheckpointId : Z;
  checkpoints : list (Z * Checkpoint);
  last_continue_tuid : TaskUid;
  now : world }.

Definition set_history (b : list (option Mark)) (c : option Mark) (f : list (option Mark)) (s : commands) : commands :=
  mkCommands b c f (gNextCheckpointId s) (checkpoints s) (last_continue_tuid s) (now s).
Definition set_checkpoints (l : list (Z * Checkpoint)) (s : commands) : commands :=
  mkCommands (back_stack s) (current_history_cp s) (forward_stack s) (gNextCheckpointId s) l (last_continue_tuid s) (now s).
Definition set_next_id (n : Z) (s : commands) : commands :=
  mkCommands (back_stack s) (current_history_cp s) (forward_stack s) n (checkpoints s) (last_continue_tuid s) (now s).
Definition set_now (w : world) (s : commands) : commands :=
  mkCommands (back_stack s) (current_history_cp s) (forward_stack s) (gNextCheckpointId s) (checkpoints s)
    (last_continue_tuid s) w.

Abbreviation C := (TM commands).

Definition lift_result {A} (r : result A) : C A := fun s => (r, s).

Definition cmd_end_diversion : cstring := lit "RRCmd_EndDiversion".

(** Commands that are run again outside of a diversion. *)
Definition outside_diversion (c : C cstring) : C cstring :=
  r ← ask (fun s => replaying (now s));
  if negb r then mret cmd_end_diversion else c.

(** ** Where we are *)

Definition elapsed_time : C cstring :=
  outside_diversion (w ← ask now; mret (lit "Elapsed Time (s): " ++ elapsed_text w)).

Definition when : C cstring :=
  outside_diversion (w ← ask now; mret (lit "Current event: " ++ to_string (event_time w))).

Definition when_ticks : C cstring :=
  outside_diversion (w ← ask now; mret (lit "Current tick: " ++ to_string (tick_count w))).

Definition when_tid : C cstring :=
  outside_diversion (w ← ask now; mret (lit "Current tid: " ++ to_string (task_tid w))).

(** ** History *)

Definition take_mark : C Mark :=
  w ← ask now; change (set_now (mark w).2);; mret (mark w).1.

Definition rr_history_push : C cstring :=
  r ← ask (fun s => replaying (now s));
  if negb r then mret []
  else
    c ← ask current_history_cp;
    b ← ask back_stack;
    m ← take_mark;
    change (set_history (match c with Some _ => b ++ [c] | None => b end) (Some m) []);;
    mret [].

(** [v.back(); v.pop_back()]. *)
Definition pop_back {A} (l : list A) : option (A * list A) :=
  match rev l with [] => None | x :: l => Some (x, rev l) end.

Definition seek (m : option Mark) : C unit :=
  match m with
  | Some m => change (fun s => set_now (seek_to_mark m (now s)) s)
  | None => fail BadAccess
  end.

(** The current entry goes to the other stack. *)
Definition back : C cstring :=
  outside_diversion (
    b ← ask back_stack;
    f ← ask forward_stack;
    c ← ask current_history_cp;
    match pop_back b with
    | None => mret (lit "Can't go back. No more history entries.")
    | Some (m, b) =>
        change (set_history b m (f ++ [c]));;
        seek m;;
        mret []
    end).

Definition forward : C cstring :=
  outside_diversion (
    b ← ask back_stack;
    f ← ask forward_stack;
    c ← ask current_history_cp;
    match pop_back f with
    | None => mret (lit "Can't go forward. No more history entries.")
    | Some (m, f) =>
        change (set_history (b ++ [c]) m f);;
        seek m;;
        mret []
    end).

(** ** Checkpoints *)

(** [checkpoints[id] = c]; the map is ordered by id. *)
Fixpoint cp_set (id : Z) (c : Checkpoint) (l : list (Z * Checkpoint)) : list (Z * Checkpoint) :=
  match l with
  | [] => [(id, c)]
  | (i, x) :: l =>
      if id =? i then (id, c) :: l else if id <? i then (id, c) :: (i, x) :: l else (i, x) :: cp_set id c l
  end.

Fixpoint cp_find (id : Z) (l : list (Z * Checkpoint)) : option Checkpoint :=
  match l with
  | [] => None
  | (i, x) :: l => if id =? i then Some x else cp_find id l
  end.

Definition cp_erase (id : Z) (l : list (Z * Checkpoint)) : list (Z * Checkpoint) :=
  List.filter (fun e => negb (fst e =? id)) l.

(** [args[1]]. *)
Definition arg1 (args : list cstring) : C cstring :=
  match args with _ :: a :: _ => mret a | _ => fail BadAccess end.

Definition invoke_checkpoint (args : list cstring) : C cstring :=
  place ← arg1 args;
  change (fun s => set_next_id (s32 (gNextCheckpointId s + 1)) s);;
  id ← ask gNextCheckpointId;
  w ← ask now;
  t ← ask last_continue_tuid;
  let m := if can_add_checkpoint w then add_explicit_checkpoint w else mark w in
  change (set_now m.2);;
  change (fun s => set_checkpoints (cp_set id (mkCheckpoint m.1 t (can_add_checkpoint w) place) (checkpoints s)) s);;
  mret (lit "Checkpoint " ++ to_string id ++ lit " at " ++ place).

Definition invoke_delete_checkpoint (args : list cstring) : C cstring :=
  a ← arg1 args;
  id ← lift_result (stoi a);
  l ← ask checkpoints;
  match cp_find id l with
  | Some c =>
      (if is_explicit c then change (fun s => set_now (remove_explicit_checkpoint (cp_mark c) (now s)) s) else mret tt);;
      change (set_checkpoints (cp_erase id l));;
      mret (lit "Deleted checkpoint " ++ to_string id ++ lit ".")
  | None => mret (lit "No checkpoint number " ++ to_string id ++ lit ".")
  end.

Definition invoke_info_checkpoints : C cstring :=
  l ← ask checkpoints;
  match l with
  | [] => mret (lit "No checkpoints.")
  | _ => mret (lit "ID" ++ [9] ++ lit "When" ++ [9] ++ lit "Where" ++
      concat (map (fun e : Z * Checkpoint =>
        [10] ++ to_string e.1 ++ [9] ++ to_string (mark_time (cp_mark e.2)) ++ [9] ++ where_ e.2) l))
  end.

(** ** Commands *)

(** The commands in the order they are registered. *)
Definition gdb_command_list : list (cstring * (list cstring -> C cstring)) :=
  [(lit "elapsed-time", fun _ => elapsed_time);
   (lit "when", fun _ => when);
   (lit "when-ticks", fun _ => when_ticks);
   (lit "when-tid", fun _ => when_tid);
   (lit "rr-history-push", fun _ => rr_history_push);
   (lit "back", fun _ => back);
   (lit "forward", fun _ => forward);
   (lit "checkpoint", invoke_checkpoint);
   (lit "delete checkpoint", invoke_delete_checkpoint);
   (lit "info checkpoints", fun _ => invoke_info_checkpoints)].

Definition command_for_name (name : cstring) : option (list cstring -> C cstring) :=
  snd <$> List.find (fun c => str_eqb (fst c) name) gdb_command_list.

Definition process_command (payload : cstring) : C cstring :=
  args ← lift_result (parse_cmd payload);
  let name := default [] (head args) in
  match command_for_name name with
  | None => mret (gdb_escape (lit "Command '" ++ name ++ lit "' not found." ++ [10]))
  | Some cmd =>
      resp ← cmd args;
      if str_eqb resp cmd_end_diversion then mret resp else mret (gdb_escape (resp ++ [10]))
  end.

(** *** The history is a walk *)

Lemma pop_back_snoc {A} (l : list A) x : pop_back (l ++ [x]) = Some (x, l).
Proof. unfold pop_back. rewrite rev_unit. by rewrite rev_involutive. Qed.

Lemma pop_back_Some {A} (l l' : list A) x : pop_back l = Some (x, l') -> l = l' ++ [x].
Proof.
  unfold pop_back. destruct (rev l) as [|y r] eqn:E; [done|]. intros [= -> <-].
  rewrite <- (rev_involutive l), E. done.
Qed.

(** The entries of the history, oldest first, and the place of the current one. *)
Definition history (s : commands) : list (option Mark) * nat :=
  (back_stack s ++ match current_history_cp s with Some m => [Some m] | None => [] end ++ rev (forward_stack s),
   length (back_stack s)).

(** Only marks that are set are in the history, and it is empty until there is a current one. *)
Record wf_history (s : commands) : Prop := {
  wh_back : Forall is_Some (back_stack s);
  wh_forward : Forall is_Some (forward_stack s);
  wh_none : current_history_cp s = None -> back_stack s = [] /\ forward_stack s = [] }.

Lemma push_ok s : wf_history s -> replaying (now s) = true ->
  exists s', rr_history_push s = (Ok [], s') /\ wf_history s' /\
    history s' = (take (S (history s).2) (history s).1 ++ [Some (mark (now s)).1],
                  if current_history_cp s then S (history s).2 else (history s).2).
Proof.
  intros [Hb Hf Hn] Hr. unfold rr_history_push, take_mark, mbind, TM_bind, ask. rewrite Hr. cbn. eexists. split; [done|].
  unfold history. cbn. destruct (current_history_cp s) as [x|] eqn:E; split; try (split; cbn; try done).
  - apply Forall_app. split; [done|]. by repeat constructor.
  - cbn. rewrite length_app, Nat.add_1_r. f_equal. change (Some x :: rev (forward_stack s)) with ([Some x] ++ rev (forward_stack s)).
    rewrite app_assoc, take_app_le by (rewrite length_app; cbn; lia).
    rewrite take_ge by (rewrite length_app; cbn; lia). done.
  - destruct (Hn eq_refl) as [-> ->]. done.
Qed.

Lemma back_ok s : wf_history s -> replaying (now s) = true ->
  exists r s', back s = (Ok r, s') /\ wf_history s' /\
    match (history s).2 with
    | O => s' = s
    | S j => r = [] /\ history s' = ((history s).1, j) /\
        exists m, (history s).1 !! j = Some (Some m) /\ now s' = seek_to_mark m (now s)
    end.
Proof.
  intros Hw Hr. pose proof Hw as [Hb Hf Hn]. unfold back, outside_diversion, mbind, TM_bind, ask. rewrite Hr. cbn [negb].
  destruct (pop_back (back_stack s)) as [[m b]|] eqn:E.
  - apply pop_back_Some in E. destruct (current_history_cp s) as [x|] eqn:Ec.
    2: { destruct (Hn eq_refl) as [Hb' _]. rewrite Hb' in E. by destruct b. }
    rewrite E in Hb. apply Forall_app in Hb as [Hb [[y ->] _]%Forall_cons_1].
    do 2 eexists. split; [done|]. split; [split; cbn; [done|apply Forall_app; split; [done|by repeat constructor]|done]|].
    unfold history. rewrite E, Ec, length_app, Nat.add_1_r. cbn. split; [done|]. split.
    + f_equal. rewrite rev_unit. by rewrite <- app_assoc.
    + exists y. split; [|done]. rewrite <- app_assoc. by apply list_lookup_middle.
  - assert (back_stack s = []) as Hb'.
    { unfold pop_back in E. destruct (rev (back_stack s)) eqn:E2; [|done]. by rewrite <- (rev_involutive (back_stack s)), E2. }
    do 2 eexists. split; [done|]. split; [done|]. unfold history. cbn. by rewrite Hb'.
Qed.

Lemma forward_ok s : wf_history s -> replaying (now s) = true ->
  exists r s', forward s = (Ok r, s') /\ wf_history s' /\
    match (history s).1 !! S (history s).2 with
    | None => s' = s
    | Some o => r = [] /\ history s' = ((history s).1, S (history s).2) /\
        exists m, o = Some m /\ now s' = seek_to_mark m (now s)
    end.
Proof.
  intros Hw Hr. pose proof Hw as [Hb Hf Hn]. unfold forward, outside_diversion, mbind, TM_bind, ask. rewrite Hr. cbn [negb].
  destruct (pop_back (forward_stack s)) as [[m f]|] eqn:E.
  - apply pop_back_Some in E. destruct (current_history_cp s) as [x|] eqn:Ec.
    2: { destruct (Hn eq_refl) as [_ Hb']. rewrite Hb' in E. by destruct f. }
    rewrite E in Hf. apply Forall_app in Hf as [Hf [[y ->] _]%Forall_cons_1].
    do 2 eexists. split; [done|]. split; [split; cbn; [apply Forall_app; split; [done|by repeat constructor]|done|done]|].
    unfold history. rewrite E, Ec, rev_unit. cbn.
    replace (S (length (back_stack s))) with (length (back_stack s ++ [Some x])) by (rewrite length_app; cbn; lia).
    change (Some x :: Some y :: rev f) with ([Some x] ++ Some y :: rev f). rewrite app_assoc, list_lookup_middle by done.
    split_and!; [done..|by exists y].
  - assert (forward_stack s = []) as Hb'.
    { unfold pop_back in E. destruct (rev (forward_stack s)) eqn:E2; [|done]. by rewrite <- (rev_involutive (forward_stack s)), E2. }
    do 2 eexists. split; [done|]. split; [done|]. unfold history. rewrite Hb'. cbn. rewrite app_nil_r, lookup_ge_None_2; [done|].
    rewrite length_app. destruct (current_history_cp s); cbn; lia.
Qed.

(** The commands `back` and `forward` move along the history of the debugging
    session without changing it and seek to the entry they reach, do nothing at
    its ends, and `rr-history-push` replaces the entries ahead by the current
    position. *)
Theorem history_walk s :
  wf_history s -> replaying (now s) = true ->
  let '(l, i) := history s in
  (exists s', rr_history_push s = (Ok [], s') /\ wf_history s' /\
     history s' = (take (S i) l ++ [Some (mark (now s)).1], if current_history_cp s then S i else i)) /\
  (exists r s', back s = (Ok r, s') /\ wf_history s' /\
     match i with
     | O => s' = s
     | S j => r = [] /\ history s' = (l, j) /\ exists m, l !! j = Some (Some m) /\ now s' = seek_to_mark m (now s)
     end) /\
  (exists r s', forward s = (Ok r, s') /\ wf_history s' /\
     match l !! S i with
     | None => s' = s
     | Some o => r = [] /\ history s' = (l, S i) /\ exists m, o = Some m /\ now s' = seek_to_mark m (now s)
     end).
Proof.
  intros Hw Hr. pose proof (push_ok s Hw Hr). pose proof (back_ok s Hw Hr). pose proof (forward_ok s Hw Hr).
  destruct (history s) as [l i]. by split_and!.
Qed.

End Commands.

(** ** The encoding *)

Lemma escape_ascii str : Forall (fun b => 0 <= b < 128) str -> gdb_escape str = hex_bytes str.
Proof.
  induction 1 as [|b str Hb Hs IH]; [done|]. unfold gdb_escape, hex_bytes in *. cbn [map concat]. rewrite IH. f_equal.
  unfold char_int. rewrite wraps_small by (cbn; lia). rewrite wrapu_small by (cbn; lia). unfold fmt_02x.
  destruct (Z.ltb_spec b 16); [|done]. unfold fmt_x. cbn [hex_digits]. by destruct (Z.ltb_spec b 16); [|lia].
Qed.

Lemma unescape_pair b : 0 <= b < 256 -> stoul_char (fmt_02x b) = Ok b.
Proof.
  intros H. destruct (fmt_02x_ok b ltac:(lia)) as (H1 & H2 & H3). unfold stoul_char.
  rewrite number_hex by (done || (unfold stops; cbn; lia)). cbn [mbind result_bind fst snd]. rewrite H3. unfold ULONG_MAX.
  destruct (Z.ltb_spec (2 ^ 64 - 1) b); [lia|]. unfold mret, result_ret. by rewrite wrapu_small by (cbn; lia).
Qed.

Lemma unescape_hex str : byte_list str -> gdb_unescape (hex_bytes str) = Ok str.
Proof.
  induction 1 as [|b str Hb Hs IH]; [done|]. unfold hex_bytes in *. cbn [map concat].
  pose proof (unescape_pair b Hb) as Hu. rewrite fmt_02x_byte in * by done. cbn [app gdb_unescape]. rewrite Hu. cbn [mbind result_bind].
  by rewrite IH.
Qed.

Lemma split_colons_cons w ws :
  58 ∉ w -> split_colons (w ++ 58 :: ws) = w :: split_colons ws.
Proof.
  induction w as [|c w IH]; intros H; [done|]. apply not_elem_of_cons in H as [Hc H]. cbn.
  destruct (Z.eqb_spec c 58); [congruence|]. by rewrite IH.
Qed.

Lemma split_colons_one w : 58 ∉ w -> split_colons w = [w].
Proof.
  induction w as [|c w IH]; intros H; [done|]. apply not_elem_of_cons in H as [Hc H]. cbn.
  destruct (Z.eqb_spec c 58); [congruence|]. by rewrite IH.
Qed.

(** The packet of a command: the name and the arguments, encoded, with colons between them. *)
Fixpoint command_text (l : list cstring) : cstring :=
  match l with
  | [] => []
  | [w] => gdb_escape w
  | w :: l => gdb_escape w ++ 58 :: command_text l
  end.

(** rr decodes the command and the arguments the debugger's script encoded, for ASCII text. *)
Theorem command_roundtrip l : l <> [] -> Forall (Forall (fun b => 0 <= b < 128)) l -> parse_cmd (command_text l) = Ok l.
Proof.
  intros Hn Hl. unfold parse_cmd. induction Hl as [|w l Hw Hl IH]; [done|].
  assert (byte_list w) as Hb by (revert Hw; apply Forall_impl; cbn; lia).
  assert (58 ∉ gdb_escape w) as Hc.
  { rewrite escape_ascii by done. apply is_hex_not_in; [by apply hex_bytes_hex|by unfold is_hex]. }
  assert (gdb_unescape (gdb_escape w) = Ok w) as Hu by (rewrite escape_ascii by done; by apply unescape_hex).
  destruct l as [|w2 l].
  - cbn [command_text]. rewrite split_colons_one by done. cbn [unescape_all]. by rewrite Hu.
  - change (command_text (w :: w2 :: l)) with (gdb_escape w ++ 58 :: command_text (w2 :: l)).
    rewrite split_colons_cons by done. cbn [unescape_all]. rewrite Hu. cbn [mbind result_bind]. by rewrite IH.
Qed.

(** A byte from 128 on is negative: its code is printed with nine digits, and the debugger, which reads two
    at a time, sees other characters. *)
Example escape_not_ascii :
  gdb_escape [0xc3] = lit "0ffffffc3" /\ gdb_unescape (gdb_escape [0xc3; 0xa4]) <> Ok [0xc3; 0xa4].
Proof. vm_compute. split; [done|discriminate]. Qed.

(** [delete checkpoint] without a number reads past the arguments; with something else the exception of
    [stoi] ends rr. *)
Example delete_checkpoint_errors (T : Timeline unit unit) :
  let s := mkCommands [] None [] 0 [] (0, 0) tt in
  fst (process_command (gdb_escape (lit "delete checkpoint")) s) = Err BadAccess /\
  fst (process_command (gdb_escape (lit "delete checkpoint") ++ lit ":" ++ gdb_escape (lit "x")) s) = Err Uncaught.
Proof. by vm_compute. Qed.
