(* ===== verification/SyscallParams.v ===== *)
(** * Memory parameters of recorded system calls

    [ParamSize] and [TaskSyscallState] of record_syscall.cc: the parameters of a system call
    are registered one by one, moved to scratch memory when another task may run during the
    call, and written back and recorded when the call is done.

    The tracee's memory is a partial function; an access to memory that is not there stops
    rr, as the [ASSERT]s in [read_bytes_helper] and [write_bytes_helper] do.  [records] are
    the data written to the trace with their addresses, in order.  A mutator is a function
    on the memory that returns the new memory and the data it saves, or nothing when it
    leaves the parameter alone. *)

From stdpp Require Import base tactics list numbers.
From S2P Require Import Prelude TracerMonad.
Local Open Scope Z_scope.

(** ** The tracee's memory *)

Definition tmem : Type := Z -> option Z.

(** [n] bytes from [a] on. *)
Fixpoint get_bytes (m : tmem) (a : Z) (n : nat) : option (list Z) :=
  match n with
  | O => Some []
  | S n => b ← m a; l ← get_bytes m (a + 1) n; mret (b :: l)
  end.

(** The memory with [l] at [a]. *)
Definition overlay (m : tmem) (a : Z) (l : list Z) : tmem :=
  fun x => if (a <=? x) && (x <? a + Z.of_nat (length l)) then l !! Z.to_nat (x - a) else m x.

Definition read_bytes (m : tmem) (a n : Z) : result (list Z) :=
  match get_bytes m a (Z.to_nat n) with Some l => Ok l | None => Err FailedAssert end.

Definition write_bytes (m : tmem) (a : Z) (l : list Z) : result tmem :=
  match get_bytes m a (length l) with Some _ => Ok (overlay m a l) | None => Err FailedAssert end.

(** Little-endian words. *)
Fixpoint le_value (l : list Z) : Z := match l with [] => 0 | b :: l => b + 256 * le_value l end.

Fixpoint le_bytes (n : nat) (v : Z) : list Z :=
  match n with O => [] | S n => v mod 256 :: le_bytes n (v / 256) end.

Lemma le_value_le_bytes n v : (0 <= v < 256 ^ Z.of_nat n) -> le_value (le_bytes n v) = v.
Proof.
  revert v. induction n as [|n IH]; intros v Hv; cbn [le_bytes le_value]; [cbn in Hv; lia|].
  rewrite Nat2Z.inj_succ, Z.pow_succ_r in Hv by lia. rewrite IH.
  - pose proof (Z.div_mod v 256 ltac:(lia)). lia.
  - split; [apply Z.div_pos; lia|]. apply Z.div_lt_upper_bound; lia.
Qed.

Lemma length_le_bytes n v : length (le_bytes n v) = n.
Proof. revert v. induction n as [|n IH]; intros v; [done|]. cbn [le_bytes length]. by rewrite IH. Qed.

Definition read_word (m : tmem) (a : Z) (n : nat) : result Z :=
  l ← read_bytes m a (Z.of_nat n); mret (le_value l).

(** ** Sizes of parameters *)

Inductive ArgMode := IN | OUT | IN_OUT | IN_OUT_NO_SCRATCH.

#[export] Instance ArgMode_eq_dec : EqDecision ArgMode.
Proof. solve_decision. Defined.

Definition SIZE_MAX : Z := 2 ^ 64 - 1.
Definition INTPTR_MAX : Z := 2 ^ 63 - 1.

(** [mem_ptr] is 0 when it is null. *)
Record ParamSize := mkSize {
  incoming_size : Z;
  mem_ptr : Z;
  read_size : Z;
  from_syscall : bool }.

Definition any_size : ParamSize := mkSize SIZE_MAX 0 0 false.

(** A size is converted to [size_t] when it is passed. *)
Definition of_size (n : Z) : ParamSize := mkSize (Z.min INTPTR_MAX (u64 n)) 0 0 false.

(** [from_initialized_mem<T>], [sizeof(T)] being [n]. *)
Definition from_initialized_mem (m : tmem) (p : Z) (n : nat) : result ParamSize :=
  v ← (if p =? 0 then Ok 0 else read_word m p n);
  mret (mkSize (Z.min INTPTR_MAX (u64 v)) p (Z.of_nat n) false).

Definition from_mem (p : Z) (n : nat) : ParamSize := mkSize SIZE_MAX p (Z.of_nat n) false.

Definition from_syscall_result (n : nat) : ParamSize := mkSize SIZE_MAX 0 (Z.of_nat n) true.

Definition from_syscall_result_max (n : nat) (incoming : Z) : ParamSize :=
  mkSize (Z.min INTPTR_MAX (u64 incoming)) 0 (Z.of_nat n) true.

Definition limit_size (s : ParamSize) (max : Z) : ParamSize :=
  mkSize (Z.min (incoming_size s) (u64 max)) (mem_ptr s) (read_size s) (from_syscall s).

Definition is_same_source (s other : ParamSize) : bool :=
  ((negb (mem_ptr s =? 0) && (mem_ptr other =? mem_ptr s)) || (from_syscall s && from_syscall other)) &&
  (read_size s =? read_size other).

Definition rassert (b : bool) : result unit := if b then Ok tt else Err FailedAssert.

(** What is left of a size the kernel reports. *)
Definition remaining (s reported already_consumed : Z) : result Z :=
  rassert (already_consumed <=? reported);; mret (Z.min s (reported - already_consumed)).

Definition eval (m : tmem) (syscall_result : Z) (already_consumed : Z) (s : ParamSize) : result Z :=
  n ← (if negb (mem_ptr s =? 0) then
         rassert ((read_size s =? 4) || (read_size s =? 8));;
         v ← read_word m (mem_ptr s) (Z.to_nat (read_size s));
         remaining (incoming_size s) v already_consumed
       else mret (incoming_size s));
  n ← (if from_syscall s then
         rassert ((read_size s =? 4) || (read_size s =? 8));;
         let v := Z.max 0 syscall_result in
         remaining n (if read_size s =? 4 then u32 v else v) already_consumed
       else mret n);
  rassert (n <? SIZE_MAX);;
  mret n.

(** ** The state of a call *)

Inductive Switchable := PREVENT_SWITCH | ALLOW_SWITCH.
Inductive WriteBack := WRITE_BACK | NO_WRITE_BACK.

#[export] Instance Switchable_eq_dec : EqDecision Switchable.
Proof. solve_decision. Defined.
#[export] Instance WriteBack_eq_dec : EqDecision WriteBack.
Proof. solve_decision. Defined.

Definition ArgMutator : Type := Z -> tmem -> result (option (tmem * list Z)).

Record MemoryParam := mkParam {
  dest : Z;
  param_scratch : Z;
  num_bytes : ParamSize;
  ptr_in_memory : Z;
  ptr_in_reg : nat;
  mode : ArgMode;
  mutator : option ArgMutator }.

Definition with_num_bytes (n : ParamSize) (p : MemoryParam) : MemoryParam :=
  mkParam (dest p) (param_scratch p) n (ptr_in_memory p) (ptr_in_reg p) (mode p) (mutator p).
Definition with_mutator (f : option ArgMutator) (p : MemoryParam) : MemoryParam :=
  mkParam (dest p) (param_scratch p) (num_bytes p) (ptr_in_memory p) (ptr_in_reg p) (mode p) f.

(** The task: the arguments and the result in its registers, its memory, its scratch memory, the size of a
    pointer, and what is in the trace; [TaskSyscallState]; and what [prctl] and the signal calls note of the task. *)
Record rtask := mkRtask {
  args : list Z;
  syscall_result_signed : Z;
  mem : tmem;
  records : list (Z * list Z);
  scratch_ptr : Z;
  usable_scratch_size : Z;
  word_size : nat;
  param_list : list MemoryParam;
  scratch : Z;
  syscall_entry_args : list Z;
  expect_errno : Z;
  should_emulate_result : bool;
  emulated_result : Z;
  switchable : Switchable;
  write_back : WriteBack;
  preparation_done : bool;
  scratch_enabled : bool;
  saved_data : list Z;
  original_syscallno : Z;
  blocked_sigs_dirty : bool;
  dumpable : bool;
  prctl_seccomp_status : Z;
  tsc_mode : Z;
  cpuid_mode : bool }.

Definition set_args v (s : rtask) : rtask :=
  mkRtask v (syscall_result_signed s) (mem s) (records s) (scratch_ptr s)
    (usable_scratch_size s) (word_size s) (param_list s) (scratch s)
    (syscall_entry_args s) (expect_errno s) (should_emulate_result s)
    (emulated_result s) (switchable s) (write_back s) (preparation_done s)
    (scratch_enabled s) (saved_data s) (original_syscallno s) (blocked_sigs_dirty s)
    (dumpable s) (prctl_seccomp_status s) (tsc_mode s) (cpuid_mode s).
Definition set_syscall_result v (s : rtask) : rtask :=
  mkRtask (args s) v (mem s) (records s) (scratch_ptr s) (usable_scratch_size s)
    (word_size s) (param_list s) (scratch s) (syscall_entry_args s) (expect_errno s)
    (should_emulate_result s) (emulated_result s) (switchable s) (write_back s)
    (preparation_done s) (scratch_enabled s) (saved_data s) (original_syscallno s)
    (blocked_sigs_dirty s) (dumpable s) (prctl_seccomp_status s) (tsc_mode s)
    (cpuid_mode s).
Definition set_mem v (s : rtask) : rtask :=
  mkRtask (args s) (syscall_result_signed s) v (records s) (scratch_ptr s)
    (usable_scratch_size s) (word_size s) (param_list s) (scratch s)
    (syscall_entry_args s) (expect_errno s) (should_emulate_result s)
    (emulated_result s) (switchable s) (write_back s) (preparation_done s)
    (scratch_enabled s) (saved_data s) (original_syscallno s) (blocked_sigs_dirty s)
    (dumpable s) (prctl_seccomp_status s) (tsc_mode s) (cpuid_mode s).
Definition set_records v (s : rtask) : rtask :=
  mkRtask (args s) (syscall_result_signed s) (mem s) v (scratch_ptr s)
    (usable_scratch_size s) (word_size s) (param_list s) (scratch s)
    (syscall_entry_args s) (expect_errno s) (should_emulate_result s)
    (emulated_result s) (switchable s) (write_back s) (preparation_done s)
    (scratch_enabled s) (saved_data s) (original_syscallno s) (blocked_sigs_dirty s)
    (dumpable s) (prctl_seccomp_status s) (tsc_mode s) (cpuid_mode s).
Definition set_param_list v (s : rtask) : rtask :=
  mkRtask (args s) (syscall_result_signed s) (mem s) (records s) (scratch_ptr s)
    (usable_scratch_size s) (word_size s) v (scratch s) (syscall_entry_args s)
    (expect_errno s) (should_emulate_result s) (emulated_result s) (switchable s)
    (write_back s) (preparation_done s) (scratch_enabled s) (saved_data s)
    (original_syscallno s) (blocked_sigs_dirty s) (dumpable s) (prctl_seccomp_status
    s) (tsc_mode s) (cpuid_mode s).
Definition set_scratch v (s : rtask) : rtask :=
  mkRtask (args s) (syscall_result_signed s) (mem s) (records s) (scratch_ptr s)
    (usable_scratch_size s) (word_size s) (param_list s) v (syscall_entry_args s)
    (expect_errno s) (should_emulate_result s) (emulated_result s) (switchable s)
    (write_back s) (preparation_done s) (scratch_enabled s) (saved_data s)
    (original_syscallno s) (blocked_sigs_dirty s) (dumpable s) (prctl_seccomp_status
    s) (tsc_mode s) (cpuid_mode s).
Definition set_syscall_entry_args v (s : rtask) : rtask :=
  mkRtask (args s) (syscall_result_signed s) (mem s) (records s) (scratch_ptr s)
    (usable_scratch_size s) (word_size s) (param_list s) (scratch s) v (expect_errno
    s) (should_emulate_result s) (emulated_result s) (switchable s) (write_back s)
    (preparation_done s) (scratch_enabled s) (saved_data s) (original_syscallno s)
    (blocked_sigs_dirty s) (dumpable s) (prctl_seccomp_status s) (tsc_mode s)
    (cpuid_mode s).
Definition set_expect_errno v (s : rtask) : rtask :=
  mkRtask (args s) (syscall_result_signed s) (mem s) (records s) (scratch_ptr s)
    (usable_scratch_size s) (word_size s) (param_list s) (scratch s)
    (syscall_entry_args s) v (should_emulate_result s) (emulated_result s)
    (switchable s) (write_back s) (preparation_done s) (scratch_enabled s)
    (saved_data s) (original_syscallno s) (blocked_sigs_dirty s) (dumpable s)
    (prctl_seccomp_status s) (tsc_mode s) (cpuid_mode s).
Definition set_should_emulate_result v (s : rtask) : rtask :=
  mkRtask (args s) (syscall_result_signed s) (mem s) (records s) (scratch_ptr s)
    (usable_scratch_size s) (word_size s) (param_list s) (scratch s)
    (syscall_entry_args s) (expect_errno s) v (emulated_result s) (switchable s)
    (write_back s) (preparation_done s) (scratch_enabled s) (saved_data s)
    (original_syscallno s) (blocked_sigs_dirty s) (dumpable s) (prctl_seccomp_status
    s) (tsc_mode s) (cpuid_mode s).
Definition set_emulated_result v (s : rtask) : rtask :=
  mkRtask (args s) (syscall_result_signed s) (mem s) (records s) (scratch_ptr s)
    (usable_scratch_size s) (word_size s) (param_list s) (scratch s)
    (syscall_entry_args s) (expect_errno s) (should_emulate_result s) v (switchable
    s) (write_back s) (preparation_done s) (scratch_enabled s) (saved_data s)
    (original_syscallno s) (blocked_sigs_dirty s) (dumpable s) (prctl_seccomp_status
    s) (tsc_mode s) (cpuid_mode s).
Definition set_switchable v (s : rtask) : rtask :=
  mkRtask (args s) (syscall_result_signed s) (mem s) (records s) (scratch_ptr s)
    (usable_scratch_size s) (word_size s) (param_list s) (scratch s)
    (syscall_entry_args s) (expect_errno s) (should_emulate_result s)
    (emulated_result s) v (write_back s) (preparation_done s) (scratch_enabled s)
    (saved_data s) (original_syscallno s) (blocked_sigs_dirty s) (dumpable s)
    (prctl_seccomp_status s) (tsc_mode s) (cpuid_mode s).
Definition set_write_back v (s : rtask) : rtask :=
  mkRtask (args s) (syscall_result_signed s) (mem s) (records s) (scratch_ptr s)
    (usable_scratch_size s) (word_size s) (param_list s) (scratch s)
    (syscall_entry_args s) (expect_errno s) (should_emulate_result s)
    (emulated_result s) (switchable s) v (preparation_done s) (scratch_enabled s)
    (saved_data s) (original_syscallno s) (blocked_sigs_dirty s) (dumpable s)
    (prctl_seccomp_status s) (tsc_mode s) (cpuid_mode s).
Definition set_preparation_done v (s : rtask) : rtask :=
  mkRtask (args s) (syscall_result_signed s) (mem s) (records s) (scratch_ptr s)
    (usable_scratch_size s) (word_size s) (param_list s) (scratch s)
    (syscall_entry_args s) (expect_errno s) (should_emulate_result s)
    (emulated_result s) (switchable s) (write_back s) v (scratch_enabled s)
    (saved_data s) (original_syscallno s) (blocked_sigs_dirty s) (dumpable s)
    (prctl_seccomp_status s) (tsc_mode s) (cpuid_mode s).
Definition set_scratch_enabled v (s : rtask) : rtask :=
  mkRtask (args s) (syscall_result_signed s) (mem s) (records s) (scratch_ptr s)
    (usable_scratch_size s) (word_size s) (param_list s) (scratch s)
    (syscall_entry_args s) (expect_errno s) (should_emulate_result s)
    (emulated_result s) (switchable s) (write_back s) (preparation_done s) v
    (saved_data s) (original_syscallno s) (blocked_sigs_dirty s) (dumpable s)
    (prctl_seccomp_status s) (tsc_mode s) (cpuid_mode s).
Definition set_saved_data v (s : rtask) : rtask :=
  mkRtask (args s) (syscall_result_signed s) (mem s) (records s) (scratch_ptr s)
    (usable_scratch_size s) (word_size s) (param_list s) (scratch s)
    (syscall_entry_args s) (expect_errno s) (should_emulate_result s)
    (emulated_result s) (switchable s) (write_back s) (preparation_done s)
    (scratch_enabled s) v (original_syscallno s) (blocked_sigs_dirty s) (dumpable s)
    (prctl_seccomp_status s) (tsc_mode s) (cpuid_mode s).
Definition set_original_syscallno v (s : rtask) : rtask :=
  mkRtask (args s) (syscall_result_signed s) (mem s) (records s) (scratch_ptr s)
    (usable_scratch_size s) (word_size s) (param_list s) (scratch s)
    (syscall_entry_args s) (expect_errno s) (should_emulate_result s)
    (emulated_result s) (switchable s) (write_back s) (preparation_done s)
    (scratch_enabled s) (saved_data s) v (blocked_sigs_dirty s) (dumpable s)
    (prctl_seccomp_status s) (tsc_mode s) (cpuid_mode s).
Definition set_blocked_sigs_dirty v (s : rtask) : rtask :=
  mkRtask (args s) (syscall_result_signed s) (mem s) (records s) (scratch_ptr s)
    (usable_scratch_size s) (word_size s) (param_list s) (scratch s)
    (syscall_entry_args s) (expect_errno s) (should_emulate_result s)
    (emulated_result s) (switchable s) (write_back s) (preparation_done s)
    (scratch_enabled s) (saved_data s) (original_syscallno s) v (dumpable s)
    (prctl_seccomp_status s) (tsc_mode s) (cpuid_mode s).
Definition set_dumpable v (s : rtask) : rtask :=
  mkRtask (args s) (syscall_result_signed s) (mem s) (records s) (scratch_ptr s)
    (usable_scratch_size s) (word_size s) (param_list s) (scratch s)
    (syscall_entry_args s) (expect_errno s) (should_emulate_result s)
    (emulated_result s) (switchable s) (write_back s) (preparation_done s)
    (scratch_enabled s) (saved_data s) (original_syscallno s) (blocked_sigs_dirty s)
    v (prctl_seccomp_status s) (tsc_mode s) (cpuid_mode s).
Definition set_tsc_mode v (s : rtask) : rtask :=
  mkRtask (args s) (syscall_result_signed s) (mem s) (records s) (scratch_ptr s)
    (usable_scratch_size s) (word_size s) (param_list s) (scratch s)
    (syscall_entry_args s) (expect_errno s) (should_emulate_result s)
    (emulated_result s) (switchable s) (write_back s) (preparation_done s)
    (scratch_enabled s) (saved_data s) (original_syscallno s) (blocked_sigs_dirty s)
    (dumpable s) (prctl_seccomp_status s) v (cpuid_mode s).
Definition set_cpuid_mode v (s : rtask) : rtask :=
  mkRtask (args s) (syscall_result_signed s) (mem s) (records s) (scratch_ptr s)
    (usable_scratch_size s) (word_size s) (param_list s) (scratch s)
    (syscall_entry_args s) (expect_errno s) (should_emulate_result s)
    (emulated_result s) (switchable s) (write_back s) (preparation_done s)
    (scratch_enabled s) (saved_data s) (original_syscallno s) (blocked_sigs_dirty s)
    (dumpable s) (prctl_seccomp_status s) (tsc_mode s) v.

Abbreviation R := (TM rtask).

Definition lift {A} (r : result A) : R A := fun s => (r, s).

Definition is_done : R bool := ask preparation_done.

(** ** Memory of the task *)

Definition read_bytes_helper (a n : Z) : R (list Z) := m ← ask mem; lift (read_bytes m a n).

Definition write_bytes_helper (a : Z) (l : list Z) : R unit :=
  m ← ask mem; m ← lift (write_bytes m a l); change (set_mem m).

Definition record_local (a : Z) (l : list Z) : R unit :=
  if a =? 0 then mret tt else change (fun s => set_records (records s ++ [(a, l)]) s).

Definition record_remote (a n : Z) : R unit :=
  ASSERT (n <? 2 ^ 63);;
  if a =? 0 then mret tt else l ← read_bytes_helper a n; record_local a l.

Definition set_remote_ptr (a value : Z) : R unit :=
  n ← ask word_size; write_bytes_helper a (le_bytes n value).

Definition get_remote_ptr (a : Z) : R Z :=
  n ← ask word_size; m ← ask mem; lift (read_word m a n).

(** ** Registering parameters *)

Definition init : R unit :=
  d ← is_done;
  if d : bool then mret tt else change (fun s => set_scratch (scratch_ptr s) s).

Definition align_scratch (x : Z) : Z := Z.land (u64 (x + 7)) (Z.lnot 7).

Definition arg (l : list Z) (n : nat) : Z := nth (n - 1) l 0.
Definition set_arg (n : nat) (v : Z) (l : list Z) : list Z := <[(n - 1)%nat := v]> l.

(** The end of both kinds of registration. *)
Definition add_param (dst : Z) (size : ParamSize) (md : ArgMode) (mut : option ArgMutator) (in_memory : Z)
    (in_reg : nat) : R Z :=
  ASSERT (match mut with None => true | Some _ => bool_decide (md = IN) end);;
  sc ← ask scratch;
  (if bool_decide (md = IN_OUT_NO_SCRATCH) then
     change (fun s => set_param_list (param_list s ++ [mkParam dst 0 size 0 0 md mut]) s)
   else
     change (set_scratch (align_scratch (u64 (sc + incoming_size size))));;
     change (fun s => set_param_list (param_list s ++ [mkParam dst sc size in_memory in_reg md mut]) s));;
  mret dst.

Definition reg_parameter (n : nat) (size : ParamSize) (md : ArgMode) (mut : option ArgMutator) : R Z :=
  d ← is_done;
  if d : bool then mret 0
  else
    l ← ask syscall_entry_args;
    let dst := arg l n in
    if dst =? 0 then mret 0 else add_param dst size md mut 0 n.

Definition mem_ptr_parameter (addr_of_buf_ptr : Z) (size : ParamSize) (md : ArgMode) (mut : option ArgMutator) : R Z :=
  d ← is_done;
  if d || (addr_of_buf_ptr =? 0) then mret 0
  else
    dst ← get_remote_ptr addr_of_buf_ptr;
    if dst =? 0 then mret 0 else add_param dst size md mut addr_of_buf_ptr 0.

Definition emulate_result (r : Z) : R unit :=
  d ← is_done;
  ASSERT (negb d);;
  e ← ask should_emulate_result;
  ASSERT (negb e);;
  change (set_should_emulate_result true);;
  change (set_emulated_result r).

(** ** Moving them to scratch memory *)

(** The parameters that contain [p]. *)
Definition containing (p : Z) (l : list MemoryParam) : list MemoryParam :=
  List.filter (fun x => (dest x <=? p) && (p <? u64 (dest x + incoming_size (num_bytes x)))) l.

Definition relocate (p : Z) (l : list MemoryParam) : result Z :=
  match containing p l with
  | [x] => Ok (u64 (param_scratch x + (p - dest x)))
  | _ => Err FailedAssert
  end.

Definition relocate_pointer_to_scratch (p : Z) : R Z := l ← ask param_list; lift (relocate p l).

(** Step 1: inputs are copied. *)
Definition copy_in (p : MemoryParam) : R unit :=
  ASSERT (incoming_size (num_bytes p) <? SIZE_MAX);;
  if bool_decide (mode p = IN_OUT) || bool_decide (mode p = IN) then
    buf ← read_bytes_helper (dest p) (incoming_size (num_bytes p));
    write_bytes_helper (param_scratch p) buf
  else mret tt.

Fixpoint for_each {A} (f : A -> R unit) (l : list A) : R unit :=
  match l with
  | [] => mret tt
  | x :: l => f x;; for_each f l
  end.

(** Step 2: pointers in registers and memory point to scratch.  The sizes in memory are looked for there;
    the list is updated in place, so later searches see it. *)
Definition redirect (i : nat) : R unit :=
  l ← ask param_list;
  match l !! i with
  | None => mret tt
  | Some p =>
      (if (ptr_in_reg p =? 0)%nat then mret tt
       else change (fun s => set_args (set_arg (ptr_in_reg p) (param_scratch p) (args s)) s));;
      (if ptr_in_memory p =? 0 then mret tt
       else q ← relocate_pointer_to_scratch (ptr_in_memory p); set_remote_ptr q (param_scratch p));;
      (if mem_ptr (num_bytes p) =? 0 then mret tt
       else
         q ← relocate_pointer_to_scratch (mem_ptr (num_bytes p));
         let n := num_bytes p in
         change (set_param_list
           (<[i := with_num_bytes (mkSize (incoming_size n) q (read_size n) (from_syscall n)) p]> l)))
  end.

Definition done_preparing_internal (sw : Switchable) : R Switchable :=
  d ← is_done;
  ASSERT (negb d);;
  change (set_preparation_done true);;
  change (set_write_back WRITE_BACK);;
  change (set_switchable sw);;
  base ← ask scratch_ptr;
  if base =? 0 then ask switchable
  else
    sc ← ask scratch;
    ASSERT (base <=? sc);;
    usable ← ask usable_scratch_size;
    (if bool_decide (sw = ALLOW_SWITCH) && (base + usable <? sc) then change (set_switchable PREVENT_SWITCH) else mret tt);;
    sw ← ask switchable;
    l ← ask param_list;
    if bool_decide (sw = PREVENT_SWITCH) || (length l =? 0)%nat then mret sw
    else
      change (set_scratch_enabled true);;
      for_each copy_in l;;
      for_each redirect (seq 0 (length l));;
      ask switchable.

(** Step 3: mutators. *)
Definition run_mutator (i : nat) : R unit :=
  l ← ask param_list;
  match l !! i with
  | None => mret tt
  | Some p =>
      match mutator p with
      | None => mret tt
      | Some f =>
          e ← ask scratch_enabled;
          m ← ask mem;
          r ← lift (f (if e : bool then param_scratch p else dest p) m);
          match r with
          | None => change (set_param_list (<[i := with_mutator None p]> l))
          | Some (m, save) =>
              change (set_mem m);;
              if e : bool then mret tt
              else
                (* [saved_data] grows by the size of the parameter; the mutator fills its beginning *)
                let n := Z.to_nat (incoming_size (num_bytes p)) in
                change (fun s => set_saved_data (saved_data s ++ take n (save ++ repeat 0 n)) s)
          end
      end
  end.

Definition done_preparing (sw : Switchable) : R Switchable :=
  d ← is_done;
  if d : bool then ask switchable
  else
    sw ← done_preparing_internal sw;
    s ← ask switchable;
    ASSERT (bool_decide (sw = s));;
    l ← ask param_list;
    for_each run_mutator (seq 0 (length l));;
    ask switchable.

(** ** When the call is done *)

(** The bytes the parameters before took from the same source. *)
Definition consumed (before : list (MemoryParam * Z)) (p : MemoryParam) : Z :=
  fold_left (fun sum x => u64 (sum + snd x))
    (List.filter (fun x : MemoryParam * Z => is_same_source (num_bytes (fst x)) (num_bytes p)) before) 0.

(** The size of [p], when those of [before] are known. *)
Definition eval_param_size (before : list (MemoryParam * Z)) (p : MemoryParam) : R Z :=
  m ← ask mem;
  r ← ask syscall_result_signed;
  lift (eval m r (consumed before p) (num_bytes p)).

(** The output of [p] in the copy of scratch memory; reading past the copy is undefined. *)
Definition output_of (data : list Z) (base : Z) (p : MemoryParam) (size : Z) : result (list Z) :=
  let l := take (Z.to_nat size) (drop (Z.to_nat (param_scratch p - base)) data) in
  if (param_scratch p <? base) || (Z.of_nat (length l) <? size) then Err BadAccess else Ok l.

(** Step 1: sizes, and outputs from scratch back to their origin. *)
Fixpoint copy_out (data : list Z) (base : Z) (before : list (MemoryParam * Z)) (l : list MemoryParam)
    : R (list (MemoryParam * Z)) :=
  match l with
  | [] => mret before
  | p :: l =>
      size ← eval_param_size before p;
      wb ← ask write_back;
      (if bool_decide (wb = WRITE_BACK) && (bool_decide (mode p = IN_OUT) || bool_decide (mode p = OUT)) then
         d ← lift (output_of data base p size); write_bytes_helper (dest p) d
       else mret tt);;
      copy_out data base (before ++ [(p, size)]) l
  end.

(** Step 2: pointers. *)
Definition restore_pointers (p : MemoryParam) : R unit :=
  (if (ptr_in_reg p =? 0)%nat then mret tt
   else change (fun s => set_args (set_arg (ptr_in_reg p) (dest p) (args s)) s));;
  if ptr_in_memory p =? 0 then mret tt else set_remote_ptr (ptr_in_memory p) (dest p).

(** Step 3: outputs go to the trace. *)
Definition record_output (data : list Z) (base : Z) (memory_cleaned_up : bool) (x : MemoryParam * Z) : R unit :=
  let '(p, size) := x in
  match mode p with
  | IN_OUT_NO_SCRATCH => record_remote (dest p) size
  | IN_OUT | OUT =>
      if memory_cleaned_up then record_remote (dest p) size
      else d ← lift (output_of data base p size); record_local (dest p) d
  | IN => mret tt
  end.

(** Memory a mutator changed, from the front of the saved data. *)
Definition unmutate (p : MemoryParam) : R unit :=
  match mutator p with
  | None => mret tt
  | Some _ =>
      let n := Z.to_nat (incoming_size (num_bytes p)) in
      d ← ask saved_data;
      ASSERT (n <=? length d)%nat;;
      write_bytes_helper (dest p) (take n d);;
      change (set_saved_data (drop n d))
  end.

Fixpoint record_all (before : list (MemoryParam * Z)) (l : list MemoryParam) : R unit :=
  match l with
  | [] => mret tt
  | p :: l =>
      size ← eval_param_size before p;
      record_remote (dest p) size;;
      record_all (before ++ [(p, size)]) l
  end.

Definition has_memory_pointer (l : list MemoryParam) : bool :=
  existsb (fun p => negb (ptr_in_memory p =? 0)) l.

Definition finish_scratch : R unit :=
  base ← ask scratch_ptr;
  sc ← ask scratch;
  data ← read_bytes_helper base (u64 (sc - base));
  l ← ask param_list;
  sizes ← copy_out data base [] l;
  for_each restore_pointers l;;
  wb ← ask write_back;
  if bool_decide (wb = WRITE_BACK) then for_each (record_output data base (has_memory_pointer l)) sizes else mret tt.

Definition finish_direct : R unit :=
  l ← ask param_list;
  for_each unmutate l;;
  d ← ask saved_data;
  ASSERT (length d =? 0)%nat;;
  record_all [] l.

(** [process_syscall_results], up to the actions of particular calls. *)
Definition process_syscall_results : R unit :=
  d ← is_done;
  ASSERT d;;
  e ← ask scratch_enabled;
  (if e : bool then finish_scratch else finish_direct);;
  emu ← ask should_emulate_result;
  r ← ask emulated_result;
  if emu : bool then change (set_syscall_result r) else mret tt.

Definition abort_syscall_results : R unit :=
  d ← is_done;
  ASSERT d;;
  e ← ask scratch_enabled;
  l ← ask param_list;
  if e : bool then for_each restore_pointers l else for_each unmutate l.
