(* ===== verification/SyscallParamsSpec.v ===== *)
(** * Memory parameters of recorded system calls: what is recorded is what happened

    The memory after the results of a call were processed is the memory before the call with
    the recorded data applied, which is what replay does: for a call whose parameters are in
    scratch memory ([finish_scratch_ok]) and for one whose parameters are not
    ([finish_direct_ok]).  SyscallScratch puts the whole call together. *)

From stdpp Require Import base tactics list numbers.
From S2P Require Import Prelude TracerMonad SyscallParams.
Local Open Scope Z_scope.

(** ** Memory *)

(** The address [x] is in a block of [n] bytes at [a]. *)
Definition covers (a n x : Z) : Prop := a <= x < a + n.

Lemma covers_dec a n x : {covers a n x} + {~ covers a n x}.
Proof. unfold covers. destruct (Z_le_dec a x), (Z_lt_dec x (a + n)); (left; lia) || (right; lia). Qed.

Lemma overlay_in m a l x : covers a (Z.of_nat (length l)) x -> overlay m a l x = l !! Z.to_nat (x - a).
Proof. unfold covers, overlay. intros H. destruct (Z.leb_spec a x), (Z.ltb_spec x (a + Z.of_nat (length l))); cbn; done || lia. Qed.

Lemma overlay_out m a l x : ~ covers a (Z.of_nat (length l)) x -> overlay m a l x = m x.
Proof. unfold covers, overlay. intros H. destruct (Z.leb_spec a x), (Z.ltb_spec x (a + Z.of_nat (length l))); cbn; done || lia. Qed.

Lemma get_bytes_lookup m a n l x : get_bytes m a n = Some l -> covers a (Z.of_nat n) x -> l !! Z.to_nat (x - a) = m x.
Proof.
  revert a l. induction n as [|n IH]; intros a l H Hx; [unfold covers in Hx; lia|]. cbn in H.
  destruct (m a) as [b|] eqn:E; [|done]. cbn in H. destruct (get_bytes m (a + 1) n) as [l'|] eqn:E'; [|done]. injection H as <-.
  destruct (decide (x = a)) as [->|Hn]; [by rewrite Z.sub_diag|].
  replace (Z.to_nat (x - a)) with (S (Z.to_nat (x - (a + 1)))) by (unfold covers in Hx; lia). cbn.
  apply (IH (a + 1)); [done|]. unfold covers in *. lia.
Qed.

Lemma get_bytes_length m a n l : get_bytes m a n = Some l -> length l = n.
Proof.
  revert a l. induction n as [|n IH]; intros a l H; cbn in H; [by injection H as <-|].
  destruct (m a); [|done]. cbn in H. destruct (get_bytes m (a + 1) n) eqn:E; [|done]. injection H as <-. cbn. f_equal. by eapply IH.
Qed.

Lemma read_bytes_inv m a n l : read_bytes m a n = Ok l ->
  length l = Z.to_nat n /\ forall x, covers a (Z.of_nat (length l)) x -> l !! Z.to_nat (x - a) = m x.
Proof.
  unfold read_bytes. intros H. destruct (get_bytes m a (Z.to_nat n)) as [l'|] eqn:E; [|done]. injection H as <-.
  pose proof (get_bytes_length _ _ _ _ E) as Hl. split; [done|]. intros x Hx. eapply get_bytes_lookup; [exact E|]. by rewrite <- Hl.
Qed.

Lemma write_bytes_inv m a l m' : write_bytes m a l = Ok m' -> m' = overlay m a l.
Proof. unfold write_bytes. destruct (get_bytes m a (length l)); [by intros [= <-]|done]. Qed.

(** ** Replay *)

(** The recorded data put back into memory, in order. *)
Definition apply_records (recs : list (Z * list Z)) (m : tmem) : tmem :=
  fold_left (fun m r => overlay m r.1 r.2) recs m.

Definition covered (recs : list (Z * list Z)) (x : Z) : Prop :=
  exists r, r ∈ recs /\ covers r.1 (Z.of_nat (length r.2)) x.

Lemma apply_cons r recs m : apply_records (r :: recs) m = apply_records recs (overlay m r.1 r.2).
Proof. done. Qed.

Lemma apply_app a b m : apply_records (a ++ b) m = apply_records b (apply_records a m).
Proof. unfold apply_records. by rewrite fold_left_app. Qed.

(** Blocks that agree on the byte at [x]. *)
Lemma apply_agree recs m x v :
  (forall r, r ∈ recs -> covers r.1 (Z.of_nat (length r.2)) x -> r.2 !! Z.to_nat (x - r.1) = v) ->
  (covered recs x /\ apply_records recs m x = v) \/ (~ covered recs x /\ apply_records recs m x = m x).
Proof.
  revert m. induction recs as [|r recs IH]; intros m H.
  - right. split; [|done]. intros (r & Hr & _). by apply elem_of_nil in Hr.
  - rewrite apply_cons. destruct (IH (overlay m r.1 r.2)) as [[H1 H2]|[H1 H2]]; [intros r' Hr'; apply H; by right| |].
    + left. split; [|done]. destruct H1 as (r' & Hr' & Hc). exists r'. split; [by right|done].
    + destruct (covers_dec r.1 (Z.of_nat (length r.2)) x) as [Hc|Hc].
      * left. split; [exists r; split; [left|done]|]. rewrite H2, overlay_in by done. apply H; [left|done].
      * right. split.
        -- intros (r' & [->|Hr']%elem_of_cons & Hc'); [done|]. apply H1. by exists r'.
        -- by rewrite H2, overlay_out.
Qed.

Lemma apply_out recs m x : ~ covered recs x -> apply_records recs m x = m x.
Proof.
  revert m. induction recs as [|r recs IH]; intros m H; [done|]. rewrite apply_cons, IH, overlay_out; [done| |].
  - intros Hc. apply H. exists r. split; [left|done].
  - intros (r' & Hr' & Hc). apply H. exists r'. split; [by right|done].
Qed.

(** ** Reading the results *)

Definition is_out (p : MemoryParam) : bool := bool_decide (mode p = IN_OUT) || bool_decide (mode p = OUT).

(** The blocks step 1 writes back. *)
Definition outputs (data : list Z) (base : Z) (sizes : list (MemoryParam * Z)) : list (Z * list Z) :=
  concat (map (fun x : MemoryParam * Z =>
    if is_out x.1 then match output_of data base x.1 x.2 with Ok d => [(dest x.1, d)] | Err _ => [] end else []) sizes).

Definition has_output (data : list Z) (base : Z) (x : MemoryParam * Z) : Prop :=
  is_out x.1 = true -> exists d, output_of data base x.1 x.2 = Ok d.

(** A size that does not depend on the call. *)
Definition fixed_size (p : MemoryParam) : Prop := mem_ptr (num_bytes p) = 0 /\ from_syscall (num_bytes p) = false.

Lemma eval_fixed m r c p n : fixed_size p -> eval m r c (num_bytes p) = Ok n -> n = incoming_size (num_bytes p).
Proof.
  intros [H1 H2]. unfold eval. rewrite H1, H2. cbn. unfold rassert. case_match; cbn; [|done]. by intros [= <-].
Qed.

Lemma write_bytes_helper_inv a l s s' : write_bytes_helper a l s = (Ok tt, s') -> s' = set_mem (overlay (mem s) a l) s.
Proof.
  unfold write_bytes_helper, mbind, TM_bind, ask, lift. destruct (write_bytes (mem s) a l) as [m|] eqn:E; [|done].
  apply write_bytes_inv in E as ->. by intros [= <-].
Qed.

Lemma lift_inv {A} (r : result A) s a s' : lift r s = (Ok a, s') -> r = Ok a /\ s' = s.
Proof. unfold lift. by intros [= -> ->]. Qed.

Lemma ask_inv {A} (f : rtask -> A) s a s' : ask f s = (Ok a, s') -> a = f s /\ s' = s.
Proof. unfold ask. by intros [= -> ->]. Qed.

Lemma copy_out_inv data base before l s sizes s' :
  write_back s = WRITE_BACK -> copy_out data base before l s = (Ok sizes, s') ->
  exists tl, sizes = before ++ tl /\ map fst tl = l /\ Forall (has_output data base) tl /\
    Forall (fun x : MemoryParam * Z => fixed_size x.1 -> x.2 = incoming_size (num_bytes x.1)) tl /\
    s' = set_mem (apply_records (outputs data base tl) (mem s)) s.
Proof.
  revert before s. induction l as [|p l IH]; intros before s Hw H; cbn [copy_out] in H.
  { injection H as <- <-. exists []. split_and!; try done; [by rewrite app_nil_r|by destruct s]. }
  apply bind_Ok_inv in H as (size & s1 & H1 & H). unfold eval_param_size in H1.
  apply bind_Ok_inv in H1 as (m & s2 & [-> ->]%ask_inv & H1). apply bind_Ok_inv in H1 as (r & s3 & [-> ->]%ask_inv & [He ->]%lift_inv).
  apply bind_Ok_inv in H as (wb & s4 & [-> ->]%ask_inv & H). rewrite Hw in H. cbn [bool_decide] in H.
  rewrite bool_decide_eq_true_2 in H by done. cbn [andb] in H.
  apply bind_Ok_inv in H as ([] & s5 & Hwr & H). fold (is_out p) in Hwr.
  assert (has_output data base (p, size) /\ s5 = set_mem (apply_records (outputs data base [(p, size)]) (mem s)) s) as [Ho ->].
  { unfold has_output, outputs. cbn [map concat fst snd]. destruct (is_out p).
    - apply bind_Ok_inv in Hwr as (d & s6 & [Hd ->]%lift_inv & Hwr). apply write_bytes_helper_inv in Hwr as ->. rewrite Hd. split; [by exists d|done].
    - injection Hwr as <-. split; [done|]. by destruct s. }
  apply IH in H as (tl & -> & Hm & Hall & Hfix & ->); [|exact Hw]. exists ((p, size) :: tl). split_and!.
  - by rewrite <- app_assoc.
  - cbn. by rewrite Hm.
  - by constructor.
  - constructor; [|done]. cbn. intros Hf. by eapply eval_fixed.
  - change ((p, size) :: tl) with ([(p, size)] ++ tl). unfold outputs. rewrite map_app, concat_app, apply_app. done.
Qed.

(** Step 2. *)
Definition pointers (w : nat) (l : list MemoryParam) : list (Z * list Z) :=
  concat (map (fun p => if ptr_in_memory p =? 0 then [] else [(ptr_in_memory p, le_bytes w (dest p))]) l).

Definition restored_args (l : list MemoryParam) (a : list Z) : list Z :=
  fold_left (fun a p => if (ptr_in_reg p =? 0)%nat then a else set_arg (ptr_in_reg p) (dest p) a) l a.

Lemma restore_inv l s s' : for_each restore_pointers l s = (Ok tt, s') ->
  s' = set_args (restored_args l (args s)) (set_mem (apply_records (pointers (word_size s) l) (mem s)) s).
Proof.
  revert s. induction l as [|p l IH]; intros s H; cbn [for_each] in H; [injection H as <-; by destruct s|].
  apply bind_Ok_inv in H as ([] & s1 & H1 & H). apply IH in H as ->. unfold restore_pointers in H1.
  apply bind_Ok_inv in H1 as ([] & s2 & H1 & H2).
  assert (s2 = set_args (restored_args [p] (args s)) s) as ->.
  { cbn. destruct (ptr_in_reg p =? 0)%nat; injection H1 as <-; [by destruct s|done]. }
  assert (s1 = set_args (restored_args [p] (args s)) (set_mem (apply_records (pointers (word_size s) [p]) (mem s)) s)) as ->.
  { unfold pointers. cbn [map concat]. destruct (ptr_in_memory p =? 0); [by injection H2 as <-|].
    unfold set_remote_ptr in H2. apply bind_Ok_inv in H2 as (w & s3 & [-> ->]%ask_inv & H2). by apply write_bytes_helper_inv in H2 as ->. }
  cbn [word_size set_args set_mem mem args]. unfold pointers. cbn [map concat]. rewrite app_nil_r, apply_app. done.
Qed.

(** Step 3. *)
Definition recorded (data : list Z) (base : Z) (cleaned : bool) (m : tmem) (x : MemoryParam * Z) (rs : list (Z * list Z)) : Prop :=
  match mode x.1 with
  | IN => rs = []
  | IN_OUT_NO_SCRATCH => exists l, rs = [(dest x.1, l)] /\ read_bytes m (dest x.1) x.2 = Ok l
  | _ => exists l, rs = [(dest x.1, l)] /\
      if cleaned then read_bytes m (dest x.1) x.2 = Ok l else output_of data base x.1 x.2 = Ok l
  end.

Lemma record_remote_inv a n s s' : a <> 0 -> record_remote a n s = (Ok tt, s') ->
  exists l, read_bytes (mem s) a n = Ok l /\ s' = set_records (records s ++ [(a, l)]) s.
Proof.
  intros Ha H. unfold record_remote in H. apply bind_Ok_inv in H as ([] & s1 & [_ ->]%ASSERT_Ok_inv & H).
  destruct (Z.eqb_spec a 0); [done|]. apply bind_Ok_inv in H as (l & s2 & H1 & H).
  unfold read_bytes_helper in H1. apply bind_Ok_inv in H1 as (m & s3 & [-> ->]%ask_inv & [Hr ->]%lift_inv).
  exists l. split; [done|]. unfold record_local in H. destruct (Z.eqb_spec a 0); [done|]. by injection H as <-.
Qed.

Lemma record_output_inv data base cleaned x s s' : dest x.1 <> 0 -> record_output data base cleaned x s = (Ok tt, s') ->
  exists rs, recorded data base cleaned (mem s) x rs /\ s' = set_records (records s ++ rs) s.
Proof.
  intros Hd H. destruct x as [p size]. cbn [fst] in Hd. unfold record_output, recorded in *. cbn [fst snd] in *.
  assert (forall a l s s', a <> 0 -> record_local a l s = (Ok tt, s') -> s' = set_records (records s ++ [(a, l)]) s) as Hloc.
  { intros a l t t' Ha Ht. unfold record_local in Ht. destruct (Z.eqb_spec a 0); [done|]. by injection Ht as <-. }
  destruct (mode p).
  - injection H as <-. exists []. split; [done|]. rewrite app_nil_r. by destruct s.
  - destruct cleaned.
    + apply record_remote_inv in H as (l & Hl & ->); [|done]. exists [(dest p, l)]. split; [by exists l|done].
    + apply bind_Ok_inv in H as (d & s1 & [Ho ->]%lift_inv & H). apply Hloc in H as ->; [|done]. exists [(dest p, d)]. split; [by exists d|done].
  - destruct cleaned.
    + apply record_remote_inv in H as (l & Hl & ->); [|done]. exists [(dest p, l)]. split; [by exists l|done].
    + apply bind_Ok_inv in H as (d & s1 & [Ho ->]%lift_inv & H). apply Hloc in H as ->; [|done]. exists [(dest p, d)]. split; [by exists d|done].
  - apply record_remote_inv in H as (l & Hl & ->); [|done]. exists [(dest p, l)]. split; [by exists l|done].
Qed.

Lemma record_outputs_inv data base cleaned l s s' :
  Forall (fun x : MemoryParam * Z => dest x.1 <> 0) l -> for_each (record_output data base cleaned) l s = (Ok tt, s') ->
  exists rss, Forall2 (recorded data base cleaned (mem s)) l rss /\ s' = set_records (records s ++ concat rss) s.
Proof.
  revert s. induction l as [|x l IH]; intros s Hd H; cbn [for_each] in H.
  - injection H as <-. exists []. split; [constructor|]. cbn. rewrite app_nil_r. by destruct s.
  - apply Forall_cons_1 in Hd as [Hx Hd]. apply bind_Ok_inv in H as ([] & s1 & H1 & H).
    apply record_output_inv in H1 as (rs & Hrs & ->); [|done]. destruct (IH _ Hd H) as (rss & Hrss & ->).
    exists (rs :: rss). split; [by constructor|]. cbn. by rewrite <- app_assoc.
Qed.

(** ** What is recorded *)

Lemma output_length data base p n d : output_of data base p n = Ok d -> length d = Z.to_nat n.
Proof.
  unfold output_of. destruct (_ || _) eqn:E; [done|]. intros [= <-]. apply orb_false_iff in E as [_ E]. apply Z.ltb_ge in E.
  pose proof (length_take (drop (Z.to_nat (param_scratch p - base)) data) (Z.to_nat n)). lia.
Qed.

Lemma recorded_length data base c m x rs r : recorded data base c m x rs -> r ∈ rs -> r.1 = dest x.1 /\ length r.2 = Z.to_nat x.2.
Proof.
  unfold recorded. intros H Hr.
  assert (forall l, rs = [(dest x.1, l)] -> length l = Z.to_nat x.2 -> r.1 = dest x.1 /\ length r.2 = Z.to_nat x.2) as Hone.
  { intros l -> Hl. apply list_elem_of_singleton in Hr as ->. done. }
  destruct (mode x.1); [subst rs; by apply elem_of_nil in Hr|destruct c|destruct c|];
    destruct H as (l & -> & Hl); (eapply Hone; [done|]); first [by eapply output_length|by apply read_bytes_inv in Hl as [Hl _]].
Qed.

(** Every parameter that can be written is in the trace. *)
Lemma recorded_covers data base c m x rs a : recorded data base c m x rs -> mode x.1 <> IN -> 0 <= x.2 -> covers (dest x.1) x.2 a ->
  covered rs a.
Proof.
  intros H Hm Hn Ha. assert (exists l, rs = [(dest x.1, l)]) as (l & Hl).
  { unfold recorded in H. destruct (mode x.1); try done; destruct H as (l & Hl & _); by exists l. }
  exists (dest x.1, l). subst rs. split; [left|]. cbn. destruct (recorded_length _ _ _ _ _ _ (dest x.1, l) H ltac:(left)) as [_ Hlen].
  cbn in Hlen. rewrite Hlen. unfold covers in *. lia.
Qed.

Lemma Forall2_in_l {A B} (P : A -> B -> Prop) l k x : Forall2 P l k -> x ∈ l -> exists y, y ∈ k /\ P x y.
Proof.
  induction 1 as [|a b l k Hab Hl IH]; intros Hx; [by apply elem_of_nil in Hx|].
  apply elem_of_cons in Hx as [->|Hx]; [exists b; split; [left|done]|]. destruct (IH Hx) as (y & Hy & Hp). exists y. split; [by right|done].
Qed.

Lemma Forall2_in_r {A B} (P : A -> B -> Prop) l k y : Forall2 P l k -> y ∈ k -> exists x, x ∈ l /\ P x y.
Proof. intros H%Forall2_flip Hy. by eapply Forall2_in_l in H. Qed.

Lemma elem_concat {A} (x : A) l : x ∈ concat l <-> exists k, k ∈ l /\ x ∈ k.
Proof. rewrite list_elem_of_In, in_concat. split; intros (k & H1 & H2); exists k; by rewrite ?list_elem_of_In in *. Qed.

(** When pointers in memory were restored, everything is read from memory. *)
Lemma recorded_cleaned data base m sizes rss m0 x :
  Forall2 (recorded data base true m) sizes rss ->
  (~ covered (concat rss) x -> m x = m0 x) ->
  apply_records (concat rss) m0 x = m x.
Proof.
  intros H Hno. destruct (apply_agree (concat rss) m0 x (m x)) as [[_ Hx]|[Hc Hx]]; [|done|by rewrite Hx, Hno].
  intros r Hr Hc. apply elem_concat in Hr as (rs & Hrs & Hr). destruct (Forall2_in_r _ _ _ _ H Hrs) as (y & _ & Hy).
  unfold recorded in Hy.
  assert (exists l, rs = [(dest y.1, l)] /\ read_bytes m (dest y.1) y.2 = Ok l) as (l & -> & Hl).
  { destruct (mode y.1); [subst rs; by apply elem_of_nil in Hr|done..]. }
  apply list_elem_of_singleton in Hr as ->. cbn in *. by apply read_bytes_inv in Hl as [_ Hl]; apply Hl.
Qed.

Lemma outputs_cons data base y sizes : outputs data base (y :: sizes) = outputs data base [y] ++ outputs data base sizes.
Proof. unfold outputs. cbn [map concat]. by rewrite app_nil_r. Qed.

(** The cases in which what is recorded so far agrees with memory in the end. *)
Definition on_track (sizes : list (MemoryParam * Z)) (m1 r0 : tmem) (v : option Z) (x : Z) : Prop :=
  m1 x = r0 x \/ r0 x = v \/ exists y, y ∈ sizes /\ mode y.1 = IN_OUT_NO_SCRATCH /\ covers (dest y.1) y.2 x.

Lemma on_track_step data base m y rs sizes m1 r0 x :
  recorded data base false m y rs -> has_output data base y -> on_track (y :: sizes) m1 r0 (m x) x ->
  on_track sizes (apply_records (outputs data base [y]) m1) (apply_records rs r0) (m x) x.
Proof.
  intros Hy Ho Hc. unfold has_output, recorded, outputs, is_out in *. cbn [map concat]. rewrite app_nil_r.
  assert (mode y.1 <> IN_OUT_NO_SCRATCH -> on_track sizes m1 r0 (m x) x) as Hskip.
  { intros Hm. destruct Hc as [Hc|[Hc|(z & [->|Hz]%elem_of_cons & Hz1 & Hz2)]]; [by left|by right; left|done|].
    right. right. by exists z. }
  assert (forall d, on_track sizes m1 r0 (m x) x -> on_track sizes (overlay m1 (dest y.1) d) (overlay r0 (dest y.1) d) (m x) x) as Hboth.
  { intros d Ht. unfold on_track. destruct (covers_dec (dest y.1) (Z.of_nat (length d)) x) as [H|H].
    - left. by rewrite !overlay_in.
    - by rewrite !overlay_out. }
  destruct (mode y.1) eqn:Em; cbn.
  - subst rs. by apply Hskip.
  - destruct Hy as (l & -> & Hl). rewrite Hl. by apply Hboth, Hskip.
  - destruct Hy as (l & -> & Hl). rewrite Hl. by apply Hboth, Hskip.
  - destruct Hy as (l & -> & Hl). apply read_bytes_inv in Hl as [Hlen Hl]. cbn. unfold on_track.
    destruct (covers_dec (dest y.1) (Z.of_nat (length l)) x) as [H|H].
    + right. left. rewrite overlay_in by done. by apply Hl.
    + rewrite overlay_out by done. destruct Hc as [Hc|[Hc|(z & [->|Hz]%elem_of_cons & Hz1 & Hz2)]]; [by left|by right; left| |].
      * exfalso. apply H. unfold covers in *. lia.
      * right. right. by exists z.
Qed.

(** Without, the data step 1 wrote is recorded; a parameter that is not in scratch is read from memory. *)
Lemma recorded_local data base m sizes rss x m1 r0 :
  Forall2 (recorded data base false m) sizes rss -> Forall (has_output data base) sizes ->
  apply_records (outputs data base sizes) m1 x = m x -> on_track sizes m1 r0 (m x) x ->
  apply_records (concat rss) r0 x = m x.
Proof.
  intros H. revert m1 r0. induction H as [|y rs sizes rss Hy H IH]; intros m1 r0 Ho Hv Hcase.
  { cbn in *. destruct Hcase as [Hc|[Hc|(y & Hy & _)]]; [congruence|done|by apply elem_of_nil in Hy]. }
  apply Forall_cons_1 in Ho as [Hoy Ho]. cbn [concat]. rewrite apply_app. rewrite outputs_cons, apply_app in Hv.
  apply (IH _ _ Ho Hv). by apply on_track_step.
Qed.

(** ** The results *)

Lemma outputs_in data base sizes r : r ∈ outputs data base sizes ->
  exists y, y ∈ sizes /\ mode y.1 <> IN /\ mode y.1 <> IN_OUT_NO_SCRATCH /\ r.1 = dest y.1 /\ length r.2 = Z.to_nat y.2.
Proof.
  unfold outputs. intros H. apply elem_concat in H as (k & Hk & Hr). apply list_elem_of_fmap in Hk as (y & -> & Hy).
  exists y. split; [done|]. unfold is_out in Hr. destruct (mode y.1) eqn:E; cbn in Hr; try by apply elem_of_nil in Hr.
  all: destruct (output_of data base y.1 y.2) as [d|] eqn:Eo; [|by apply elem_of_nil in Hr];
    apply list_elem_of_singleton in Hr as ->; cbn; apply output_length in Eo; by split_and!.
Qed.

(** What the kernel may have changed: scratch memory, and parameters that are not in scratch. *)
Definition kernel_wrote (scr : Z -> Prop) (l : list MemoryParam) (before after : tmem) : Prop :=
  forall x, ~ scr x -> after x = before x \/
    exists p, p ∈ l /\ mode p = IN_OUT_NO_SCRATCH /\ covers (dest p) (incoming_size (num_bytes p)) x.

(** The pointers the tracee stored. *)
Definition pointers_in (w : nat) (l : list MemoryParam) (m : tmem) : Prop :=
  forall p x, p ∈ l -> ptr_in_memory p <> 0 -> covers (ptr_in_memory p) (Z.of_nat (length (le_bytes w (dest p)))) x ->
    le_bytes w (dest p) !! Z.to_nat (x - ptr_in_memory p) = m x.

Record wf_params (l : list MemoryParam) : Prop := {
  wp_dest : Forall (fun p => dest p <> 0) l;
  wp_fixed : forall p, p ∈ l -> mode p = IN_OUT_NO_SCRATCH -> fixed_size p /\ 0 <= incoming_size (num_bytes p) }.

Lemma no_pointers w l : has_memory_pointer l = false -> pointers w l = [].
Proof.
  unfold has_memory_pointer, pointers. induction l as [|p l IH]; cbn; [done|]. rewrite orb_false_iff, negb_false_iff. intros [-> H].
  by rewrite IH.
Qed.

Lemma pointers_agree w l m0 x r : pointers_in w l m0 -> r ∈ pointers w l -> covers r.1 (Z.of_nat (length r.2)) x ->
  r.2 !! Z.to_nat (x - r.1) = m0 x.
Proof.
  intros Hp Hr Hc. unfold pointers in Hr. apply elem_concat in Hr as (k & Hk & Hr). apply list_elem_of_fmap in Hk as (p & -> & Hin).
  destruct (Z.eqb_spec (ptr_in_memory p) 0); [by apply elem_of_nil in Hr|]. apply list_elem_of_singleton in Hr as ->. by apply Hp.
Qed.

(** The parameters with the sizes step 1 found. *)
Record sized (l : list MemoryParam) (tl : list (MemoryParam * Z)) : Prop := {
  sz_params : map fst tl = l;
  sz_fixed : Forall (fun x : MemoryParam * Z => fixed_size x.1 -> x.2 = incoming_size (num_bytes x.1)) tl }.

Lemma sized_no_scratch l tl p x : sized l tl -> wf_params l -> p ∈ l -> mode p = IN_OUT_NO_SCRATCH ->
  covers (dest p) (incoming_size (num_bytes p)) x ->
  exists y, y ∈ tl /\ mode y.1 = IN_OUT_NO_SCRATCH /\ covers (dest y.1) y.2 x.
Proof.
  intros [<- Hf] [_ Hx] Hp Hm Hc. apply list_elem_of_fmap in Hp as Hy. destruct Hy as (y & -> & Hy). exists y. split; [done|].
  split; [done|]. destruct (Hx y.1 Hp Hm) as [Hfx _]. rewrite Forall_forall in Hf. apply list_elem_of_In in Hy.
  by rewrite (Hf y Hy Hfx).
Qed.

(** Memory that is not in the trace was not changed. *)
Lemma untouched scr data base c m2 l tl rss m0 m x :
  sized l tl -> wf_params l -> Forall2 (recorded data base c m2) tl rss -> kernel_wrote scr l m0 m -> ~ scr x ->
  ~ covered (concat rss) x -> apply_records (outputs data base tl) m x = m0 x.
Proof.
  intros Hs Hw Hr Hk Hx Hno.
  assert (forall y, y ∈ tl -> mode y.1 <> IN -> covers (dest y.1) (Z.of_nat (Z.to_nat y.2)) x -> False) as Hc.
  { intros y Hy Hm Hc. destruct (Forall2_in_l _ _ _ _ Hr Hy) as (rs & Hrs & Hrec). apply Hno.
    assert (0 <= y.2) by (unfold covers in Hc; lia). destruct (recorded_covers _ _ _ _ _ _ x Hrec Hm ltac:(done)) as (r & H1 & H2).
    { unfold covers in *. lia. }
    exists r. split; [|done]. apply elem_concat. by exists rs. }
  rewrite apply_out.
  - destruct (Hk x Hx) as [H|(p & Hp & Hm & Hcv)]; [done|].
    destruct (sized_no_scratch l tl p x Hs Hw Hp Hm Hcv) as (y & Hy & Hmy & Hcy). exfalso. apply (Hc y Hy); [congruence|].
    unfold covers in *. lia.
  - intros (r & Hr' & Hcr). apply outputs_in in Hr' as (y & Hy & Hm & _ & E1 & E2). apply (Hc y Hy Hm). by rewrite <- E1, <- E2.
Qed.

Lemma finish_scratch_ok scr s s' m0 :
  write_back s = WRITE_BACK -> wf_params (param_list s) -> pointers_in (word_size s) (param_list s) m0 ->
  kernel_wrote scr (param_list s) m0 (mem s) -> finish_scratch s = (Ok tt, s') ->
  exists recs, records s' = records s ++ recs /\ args s' = restored_args (param_list s) (args s) /\
    forall x, ~ scr x -> mem s' x = apply_records recs m0 x.
Proof.
  intros Hw Hwf Hp Hk H. pose proof (wp_dest _ Hwf) as Hd. unfold finish_scratch in H. apply bind_Ok_inv in H as (base & s1 & [-> ->]%ask_inv & H).
  apply bind_Ok_inv in H as (sc & s2 & [-> ->]%ask_inv & H). apply bind_Ok_inv in H as (data & s3 & H1 & H).
  unfold read_bytes_helper in H1. apply bind_Ok_inv in H1 as (m & s4 & [-> ->]%ask_inv & [_ ->]%lift_inv).
  apply bind_Ok_inv in H as (l & s5 & [-> ->]%ask_inv & H). apply bind_Ok_inv in H as (sizes & s6 & H1 & H).
  apply copy_out_inv in H1 as (tl & -> & Hm & Ho & Hf & ->); [|done]. cbn [app] in H.
  apply bind_Ok_inv in H as ([] & s7 & H1 & H). apply restore_inv in H1 as ->.
  apply bind_Ok_inv in H as (wb & s8 & [-> ->]%ask_inv & H). cbn [write_back set_args set_mem] in H. rewrite Hw in H.
  rewrite bool_decide_eq_true_2 in H by done.
  assert (Forall (fun x : MemoryParam * Z => dest x.1 <> 0) tl) as Hdt.
  { rewrite <- Hm in Hd. clear -Hd. induction tl as [|y tl IH]; [constructor|]. apply Forall_cons_1 in Hd as [? ?]. constructor; auto. }
  apply record_outputs_inv in H as (rss & Hr & ->); [|done]. exists (concat rss). split; [done|]. split; [done|].
  intros x Hx. cbn [mem set_args set_mem set_records word_size] in *. symmetry.
  set (w := word_size s) in *. set (m2 := apply_records (pointers w (param_list s)) _) in *.
  assert (sized (param_list s) tl) as Hsz by by split. destruct (has_memory_pointer (param_list s)) eqn:Hptr.
  - apply (recorded_cleaned data (scratch_ptr s) m2 tl rss m0 x Hr). intros Hno.
    destruct (apply_agree (pointers w (param_list s)) (apply_records (outputs data (scratch_ptr s) tl) (mem s)) x (m0 x))
      as [[_ E]|[_ E]]; [intros r; by apply pointers_agree|exact E|]. unfold m2. rewrite E.
    by eapply untouched; [exact Hsz|done|exact Hr|exact Hk|..].
  - unfold m2 in Hr |- *. rewrite no_pointers in Hr |- * by done. cbn [apply_records fold_left] in Hr |- *.
    apply (recorded_local data (scratch_ptr s) _ tl rss x (mem s)); [done|done|done|].
    destruct (Hk x Hx) as [E|(p & Hp1 & Hp2 & Hp3)]; [by left|]. right. right. by apply (sized_no_scratch _ tl p x Hsz).
Qed.

(** Without writing back, nothing is recorded: the call wrote nothing but scratch memory. *)
Lemma copy_out_none data base before l s sizes s' :
  write_back s = NO_WRITE_BACK -> copy_out data base before l s = (Ok sizes, s') -> s' = s.
Proof.
  intros Hw. revert before. induction l as [|p l IH]; intros before H; cbn [copy_out] in H; [by injection H as _ <-|].
  apply bind_Ok_inv in H as (size & s1 & H1 & H). unfold eval_param_size in H1.
  apply bind_Ok_inv in H1 as (m & s2 & [-> ->]%ask_inv & H1). apply bind_Ok_inv in H1 as (r & s3 & [-> ->]%ask_inv & [_ ->]%lift_inv).
  apply bind_Ok_inv in H as (wb & s4 & [-> ->]%ask_inv & H). rewrite Hw in H. cbn [bool_decide] in H.
  rewrite bool_decide_eq_false_2 in H by done. cbn [andb] in H. apply bind_Ok_inv in H as ([] & s5 & [= <-] & H). by apply IH in H.
Qed.

Lemma finish_scratch_none scr s s' m0 :
  write_back s = NO_WRITE_BACK -> Forall (fun p => mode p <> IN_OUT_NO_SCRATCH) (param_list s) ->
  pointers_in (word_size s) (param_list s) m0 -> kernel_wrote scr (param_list s) m0 (mem s) -> finish_scratch s = (Ok tt, s') ->
  records s' = records s /\ args s' = restored_args (param_list s) (args s) /\ forall x, ~ scr x -> mem s' x = m0 x.
Proof.
  intros Hw Hmode Hp Hk H. unfold finish_scratch in H. apply bind_Ok_inv in H as (base & s1 & [-> ->]%ask_inv & H).
  apply bind_Ok_inv in H as (sc & s2 & [-> ->]%ask_inv & H). apply bind_Ok_inv in H as (data & s3 & H1 & H).
  unfold read_bytes_helper in H1. apply bind_Ok_inv in H1 as (m & s4 & [-> ->]%ask_inv & [_ ->]%lift_inv).
  apply bind_Ok_inv in H as (l & s5 & [-> ->]%ask_inv & H). apply bind_Ok_inv in H as (sizes & s6 & H1 & H).
  apply copy_out_none in H1 as ->; [|done]. apply bind_Ok_inv in H as ([] & s7 & H1 & H). apply restore_inv in H1 as ->.
  apply bind_Ok_inv in H as (wb & s8 & [-> ->]%ask_inv & H). cbn [write_back set_args set_mem] in H. rewrite Hw in H.
  rewrite bool_decide_eq_false_2 in H by done. injection H as <-. split; [done|]. split; [done|]. intros x Hx. cbn [mem set_args set_mem].
  destruct (apply_agree (pointers (word_size s) (param_list s)) (mem s) x (m0 x)) as [[_ E]|[_ E]]; [intros r; by apply pointers_agree|exact E|].
  rewrite E. destruct (Hk x Hx) as [->|(p & Hin & Hm & _)]; [done|]. rewrite Forall_forall in Hmode. apply list_elem_of_In in Hin.
  by apply Hmode in Hin.
Qed.

(** Both cases. *)
Lemma finish_scratch_any scr s s' m0 :
  (write_back s = NO_WRITE_BACK -> Forall (fun p => mode p <> IN_OUT_NO_SCRATCH) (param_list s)) ->
  wf_params (param_list s) -> pointers_in (word_size s) (param_list s) m0 ->
  kernel_wrote scr (param_list s) m0 (mem s) -> finish_scratch s = (Ok tt, s') ->
  exists recs, records s' = records s ++ recs /\ args s' = restored_args (param_list s) (args s) /\
    forall x, ~ scr x -> mem s' x = apply_records recs m0 x.
Proof.
  intros Hn Hwf Hp Hk H. destruct (write_back s) eqn:Hw; [by eapply finish_scratch_ok|].
  destruct (finish_scratch_none scr s s' m0 Hw (Hn eq_refl) Hp Hk H) as (E1 & E2 & E3). exists []. by rewrite app_nil_r.
Qed.
