(* ===== verification/SyscallScratch.v ===== *)
(** * A system call through scratch memory

    [scratch_transparent]: the parameters of a call are registered, [done_preparing] moves
    them to scratch memory, the kernel writes there and to the parameters that are not in
    scratch, and [process_syscall_results] ends the call.  The tracee's memory is then what it
    was with the recorded data applied, and its arguments are what they were. *)

From stdpp Require Import base tactics list numbers.
From S2P Require Import Prelude TracerMonad SyscallParams SyscallParamsSpec.
Local Open Scope Z_scope.

(** ** Where the parameters are *)

(** Scratch memory in use.  A pointer at the end of a parameter may stick out by less than a word. *)
Definition in_scratch (base top x : Z) : Prop := base <= x < top + 8.

(** A mutator changes nothing but its parameter. *)
Definition confined (n : Z) (f : ArgMutator) : Prop :=
  forall a m m' save, f a m = Ok (Some (m', save)) -> forall x, ~ covers a n x -> m' x = m x.

Record placed_param (base top : Z) (p : MemoryParam) : Prop := {
  pp_size : 0 <= incoming_size (num_bytes p);
  pp_dest : 0 < dest p;
  pp_area : mode p <> IN_OUT_NO_SCRATCH ->
    base <= param_scratch p /\ param_scratch p + incoming_size (num_bytes p) <= top;
  pp_plain : mode p = IN_OUT_NO_SCRATCH -> fixed_size p /\ ptr_in_memory p = 0 /\ ptr_in_reg p = 0%nat /\ mutator p = None;
  pp_mutator : forall f, mutator p = Some f -> confined (incoming_size (num_bytes p)) f }.

(** The pointers of the call that are in memory are in parameters that go to scratch. *)
Definition reachable (l : list MemoryParam) : Prop :=
  forall p x, p ∈ l -> ptr_in_memory p <> 0 -> x ∈ containing (ptr_in_memory p) l -> mode x <> IN_OUT_NO_SCRATCH.

(** ** What preparation changes *)

(** The same parameter, when its size may be looked for in scratch and its mutator may be gone. *)
Record moved (p q : MemoryParam) : Prop := {
  mv_dest : dest q = dest p;
  mv_scratch : param_scratch q = param_scratch p;
  mv_size : incoming_size (num_bytes q) = incoming_size (num_bytes p);
  mv_fixed : fixed_size p -> fixed_size q;
  mv_in_memory : ptr_in_memory q = ptr_in_memory p;
  mv_in_reg : ptr_in_reg q = ptr_in_reg p;
  mv_mode : mode q = mode p;
  mv_mutator : mutator q = mutator p \/ mutator q = None }.

Lemma moved_refl p : moved p p.
Proof. split; auto. Qed.

Lemma moved_trans p q r : moved p q -> moved q r -> moved p r.
Proof.
  intros [u1 u2 u3 u4 u5 u6 u7 u8] [v1 v2 v3 v4 v5 v6 v7 v8]. split; try congruence; [auto|].
  destruct v8 as [->| ->]; [done|by right].
Qed.

#[export] Instance moved_preorder : PreOrder moved.
Proof. split; [exact moved_refl|exact moved_trans]. Qed.

Lemma moved_placed base top p q : moved p q -> placed_param base top p -> placed_param base top q.
Proof.
  intros [u1 u2 u3 u4 u5 u6 u7 u8] [v1 v2 v3 v4 v5]. split; rewrite ?u1, ?u2, ?u3, ?u7; try done.
  - intros Hm. destruct (v4 Hm) as (H1 & H2 & H3 & H4). rewrite u5, u6. split_and!; [auto|done..|]. destruct u8 as [->| ->]; done.
  - intros f Hf. apply v5. destruct u8 as [<-|u8]; [done|congruence].
Qed.

Record prepares (s s' : rtask) : Prop := {
  pr_mem : forall x, ~ in_scratch (scratch_ptr s) (scratch s) x -> mem s' x = mem s x;
  pr_records : records s' = records s;
  pr_base : scratch_ptr s' = scratch_ptr s;
  pr_top : scratch s' = scratch s;
  pr_word : word_size s' = word_size s;
  pr_write_back : write_back s' = write_back s;
  pr_enabled : scratch_enabled s' = scratch_enabled s;
  pr_done : preparation_done s' = preparation_done s;
  pr_params : Forall2 moved (param_list s) (param_list s');
  pr_length : length (args s') = length (args s);
  pr_entry : syscall_entry_args s' = syscall_entry_args s;
  pr_args : forall i, (forall p, p ∈ param_list s -> ptr_in_reg p <> 0%nat -> (ptr_in_reg p - 1)%nat <> i) ->
    args s' !! i = args s !! i }.

Lemma prepares_refl s : prepares s s.
Proof. split; done. Qed.

Lemma prepares_trans s1 s2 s3 : prepares s1 s2 -> prepares s2 s3 -> prepares s1 s3.
Proof.
  intros [u1 u2 u3 u4 u5 u6 u7 u8 u9 u10 ue u11] [v1 v2 v3 v4 v5 v6 v7 v8 v9 v10 ve v11]. rewrite u3, u4 in v1. split; try congruence.
  - intros x Hx. by rewrite v1, u1.
  - by etrans.
  - intros i Hi. rewrite v11; [by apply u11|]. intros q Hq Hr. destruct (Forall2_in_r _ _ _ _ u9 Hq) as (p & Hp & Hm).
    rewrite (mv_in_reg _ _ Hm) in Hr |- *. by apply Hi.
Qed.

(** A list prepared in part. *)
Definition ready (s : rtask) : Prop :=
  0 <= scratch_ptr s /\ scratch s < 2 ^ 64 /\ (word_size s <= 8)%nat /\ scratch_enabled s = true /\
  Forall (placed_param (scratch_ptr s) (scratch s)) (param_list s) /\ reachable (param_list s).

Lemma elem_containing x p l : x ∈ containing p l <-> x ∈ l /\ dest x <= p < u64 (dest x + incoming_size (num_bytes x)).
Proof. unfold containing. rewrite !list_elem_of_In, filter_In, andb_true_iff, Z.leb_le, Z.ltb_lt. done. Qed.

Lemma ready_prepares s s' : ready s -> prepares s s' -> ready s'.
Proof.
  intros (h1 & h2 & h3 & h4 & h5 & h6) H. pose proof (pr_params _ _ H) as Hl. destruct H. unfold ready.
  rewrite pr_base0, pr_top0, pr_word0, pr_enabled0. split_and!; try done.
  - clear -Hl h5. induction Hl as [|p q l l' Hpq Hl IH]; [constructor|]. apply Forall_cons_1 in h5 as [? ?].
    constructor; [by eapply moved_placed|auto].
  - intros q y Hq Hn Hy. apply elem_containing in Hy as [Hy Hc].
    destruct (Forall2_in_r _ _ _ _ Hl Hq) as (p & Hp & Hm). destruct (Forall2_in_r _ _ _ _ Hl Hy) as (x & Hx & Hm').
    rewrite (mv_in_memory _ _ Hm) in Hn, Hc. rewrite (mv_dest _ _ Hm'), (mv_size _ _ Hm') in Hc. rewrite (mv_mode _ _ Hm').
    apply (h6 p x Hp Hn). by apply elem_containing.
Qed.

Lemma prepares_mem s m : (forall x, ~ in_scratch (scratch_ptr s) (scratch s) x -> m x = mem s x) -> prepares s (set_mem m s).
Proof. intros H. split; done. Qed.

Lemma prepares_overlay s a l :
  scratch_ptr s <= a -> a + Z.of_nat (length l) <= scratch s + 8 -> prepares s (set_mem (overlay (mem s) a l) s).
Proof. intros H1 H2. apply prepares_mem. intros x Hx. apply overlay_out. intros Hc. apply Hx. unfold in_scratch, covers in *. lia. Qed.

Lemma prepares_arg s p v : p ∈ param_list s -> ptr_in_reg p <> 0%nat ->
  prepares s (set_args (set_arg (ptr_in_reg p) v (args s)) s).
Proof.
  intros Hp Hr. split; try done; cbn.
  - apply length_insert.
  - intros i Hi. apply list_lookup_insert_ne. by apply Hi.
Qed.

Lemma prepares_param s i p q : param_list s !! i = Some p -> moved p q -> prepares s (set_param_list (<[i := q]> (param_list s)) s).
Proof.
  intros Hp Hm. split; try done. cbn [param_list set_param_list]. rewrite <- (list_insert_id (param_list s) i p) at 1 by done.
  by apply Forall2_insert.
Qed.

Lemma ready_param s p : ready s -> p ∈ param_list s -> placed_param (scratch_ptr s) (scratch s) p.
Proof. intros (_ & _ & _ & _ & H & _) Hp. rewrite Forall_forall in H. apply H. by apply list_elem_of_In. Qed.

(** ** Step 1 *)

Lemma copy_in_prepares s p s' : placed_param (scratch_ptr s) (scratch s) p -> copy_in p s = (Ok tt, s') -> prepares s s'.
Proof.
  intros Hpp H. unfold copy_in in H. apply bind_Ok_inv in H as ([] & s1 & [_ ->]%ASSERT_Ok_inv & H).
  destruct (_ || _) eqn:E; [|injection H as <-; apply prepares_refl].
  assert (mode p <> IN_OUT_NO_SCRATCH) as Hm by (intros Hm; rewrite Hm in E; done).
  apply bind_Ok_inv in H as (buf & s2 & H1 & H). unfold read_bytes_helper in H1.
  apply bind_Ok_inv in H1 as (m & s3 & [-> ->]%ask_inv & [Hb ->]%lift_inv). apply write_bytes_helper_inv in H as ->.
  apply read_bytes_inv in Hb as [Hb _]. destruct (pp_area _ _ _ Hpp Hm). pose proof (pp_size _ _ _ Hpp). apply prepares_overlay; lia.
Qed.

(** ** Step 2 *)

Lemma u64_le x : 0 <= x -> u64 x <= x.
Proof. intros H. unfold wrapu. apply Z.mod_le; lia. Qed.

Lemma u64_small x : 0 <= x < 2 ^ 64 -> u64 x = x.
Proof. intros H. unfold wrapu. apply Z.mod_small. lia. Qed.

Lemma relocate_scratch s p q : ready s -> p ∈ param_list s -> ptr_in_memory p <> 0 ->
  relocate (ptr_in_memory p) (param_list s) = Ok q -> scratch_ptr s <= q < scratch s.
Proof.
  intros Hs Hp Hn H. unfold relocate in H. destruct (containing (ptr_in_memory p) (param_list s)) as [|x [|? ?]] eqn:E; try done.
  injection H as <-. assert (x ∈ containing (ptr_in_memory p) (param_list s)) as Hx by (rewrite E; left).
  pose proof Hs as (h1 & h2 & _ & _ & _ & h6). pose proof (h6 p x Hp Hn Hx) as Hm. apply elem_containing in Hx as [Hx Hc].
  pose proof (ready_param _ _ Hs Hx) as [v1 v2 v3 _ _]. destruct (v3 Hm).
  pose proof (u64_le (dest x + incoming_size (num_bytes x)) ltac:(lia)). rewrite u64_small; lia.
Qed.

Lemma le_bytes_length n v : length (le_bytes n v) = n.
Proof. revert v. induction n as [|n IH]; intros v; cbn; [done|by rewrite IH]. Qed.

Lemma relocate_inv p s q s' : relocate_pointer_to_scratch p s = (Ok q, s') -> relocate p (param_list s) = Ok q /\ s' = s.
Proof. unfold relocate_pointer_to_scratch. intros H. by apply bind_Ok_inv in H as (l & s1 & [-> ->]%ask_inv & [H ->]%lift_inv). Qed.

(** A pointer in memory is changed in scratch. *)
Lemma redirect_memory s p v s' : ready s -> p ∈ param_list s ->
  (if ptr_in_memory p =? 0 then mret tt
   else q ← relocate_pointer_to_scratch (ptr_in_memory p); set_remote_ptr q v) s = (Ok tt, s') ->
  prepares s s' /\ param_list s' = param_list s.
Proof.
  intros Hs Hp H. destruct (Z.eqb_spec (ptr_in_memory p) 0) as [|Hn]; [injection H as <-; split; [apply prepares_refl|done]|].
  apply bind_Ok_inv in H as (q & s1 & [Hq ->]%relocate_inv & H). apply relocate_scratch in Hq; [|done..].
  unfold set_remote_ptr in H. apply bind_Ok_inv in H as (w & s2 & [-> ->]%ask_inv & H). apply write_bytes_helper_inv in H as ->.
  split; [|done]. destruct Hs as (_ & _ & Hw & _). apply prepares_overlay; [lia|]. rewrite le_bytes_length. lia.
Qed.

Lemma redirect_reg s p s' : p ∈ param_list s ->
  (if (ptr_in_reg p =? 0)%nat then mret tt
   else change (fun s => set_args (set_arg (ptr_in_reg p) (param_scratch p) (args s)) s)) s = (Ok tt, s') ->
  prepares s s' /\ param_list s' = param_list s.
Proof.
  intros Hp H. destruct (Nat.eqb_spec (ptr_in_reg p) 0) as [|Hn]; [injection H as <-; split; [apply prepares_refl|done]|].
  injection H as <-. split; [by apply prepares_arg|done].
Qed.

Lemma redirect_prepares s i s' : ready s -> redirect i s = (Ok tt, s') -> prepares s s'.
Proof.
  intros Hs H. unfold redirect in H. apply bind_Ok_inv in H as (l & s1 & [-> ->]%ask_inv & H).
  destruct (param_list s !! i) as [p|] eqn:Hi; [|injection H as <-; apply prepares_refl].
  assert (p ∈ param_list s) as Hp by by eapply list_elem_of_lookup_2.
  apply bind_Ok_inv in H as ([] & s1 & H1 & H). apply redirect_reg in H1 as [Hs1 Hl1]; [|done].
  apply bind_Ok_inv in H as ([] & s2 & H1 & H). apply redirect_memory in H1 as [Hs2 Hl2]; [|by eapply ready_prepares|by rewrite Hl1].
  assert (prepares s s2) as Hs02 by by eapply prepares_trans. assert (param_list s2 = param_list s) as Hl by congruence.
  destruct (Z.eqb_spec (mem_ptr (num_bytes p)) 0) as [|Hn]; [by injection H as <-|].
  apply bind_Ok_inv in H as (q & s3 & [_ ->]%relocate_inv & H). injection H as <-. eapply prepares_trans; [exact Hs02|].
  rewrite <- Hl. rewrite <- Hl in Hi. eapply prepares_param; [exact Hi|]. split; cbn; auto. by intros [? ?].
Qed.

(** ** Step 3 *)

Lemma run_mutator_prepares s i s' : ready s -> run_mutator i s = (Ok tt, s') -> prepares s s'.
Proof.
  intros Hs H. pose proof Hs as (_ & _ & _ & He & _). unfold run_mutator in H. apply bind_Ok_inv in H as (l & s1 & [-> ->]%ask_inv & H).
  destruct (param_list s !! i) as [p|] eqn:Hi; [|injection H as <-; apply prepares_refl].
  assert (p ∈ param_list s) as Hp by by eapply list_elem_of_lookup_2. pose proof (ready_param _ _ Hs Hp) as [v1 v2 v3 v4 v5].
  destruct (mutator p) as [f|] eqn:Hf; [|injection H as <-; apply prepares_refl].
  apply bind_Ok_inv in H as (e & s1 & [-> ->]%ask_inv & H). rewrite He in H. apply bind_Ok_inv in H as (m & s1 & [-> ->]%ask_inv & H).
  apply bind_Ok_inv in H as (r & s1 & [Hr ->]%lift_inv & H). destruct r as [[m save]|].
  - assert (s' = set_mem m s) as -> by by injection H as <-. apply prepares_mem. intros x Hx. apply (v5 f eq_refl _ _ _ _ Hr).
    assert (mode p <> IN_OUT_NO_SCRATCH) as Hm by (intros Hm; destruct (v4 Hm) as (_ & _ & _ & ?); congruence).
    destruct (v3 Hm). intros Hc. apply Hx. unfold in_scratch, covers in *. lia.
  - injection H as <-. eapply prepares_param; [exact Hi|]. split; cbn; auto.
Qed.

Lemma for_each_prepares {A} (f : A -> R unit) l s s' :
  (forall a t t', a ∈ l -> ready t -> scratch_ptr t = scratch_ptr s -> scratch t = scratch s -> f a t = (Ok tt, t') -> prepares t t') ->
  ready s -> for_each f l s = (Ok tt, s') -> prepares s s'.
Proof.
  revert s. induction l as [|a l IH]; intros s Hf Hs H; cbn in H; [injection H as <-; apply prepares_refl|].
  apply bind_Ok_inv in H as ([] & s1 & H1 & H). assert (prepares s s1) as H01 by (apply (Hf a); [left|done..]).
  eapply prepares_trans; [exact H01|]. apply IH; [|by eapply ready_prepares|done]. intros b t t' Hb Ht Hb1 Ht1. apply Hf; [by right|done|..].
  - by rewrite Hb1, (pr_base _ _ H01).
  - by rewrite Ht1, (pr_top _ _ H01).
Qed.

(** ** All of it *)

(** What [done_preparing] notes before it moves anything. *)
Definition entered (sw : Switchable) (s : rtask) : rtask :=
  set_scratch_enabled true (set_switchable sw (set_write_back WRITE_BACK (set_preparation_done true s))).

Lemma run_mutator_enabled i s s' : run_mutator i s = (Ok tt, s') -> scratch_enabled s' = scratch_enabled s.
Proof.
  unfold run_mutator. intros H. apply bind_Ok_inv in H as (l & s1 & [-> ->]%ask_inv & H).
  destruct (param_list s !! i) as [p|]; [|by injection H as <-]. destruct (mutator p) as [f|]; [|by injection H as <-].
  apply bind_Ok_inv in H as (e & s1 & [-> ->]%ask_inv & H). apply bind_Ok_inv in H as (m & s1 & [-> ->]%ask_inv & H).
  apply bind_Ok_inv in H as (r & s1 & [_ ->]%lift_inv & H). destruct r as [[m save]|]; [|by injection H as <-].
  apply bind_Ok_inv in H as ([] & s1 & H1 & H). injection H1 as <-. destruct (scratch_enabled s) eqn:E; injection H as <-; done.
Qed.

Lemma run_mutators_enabled l s s' : for_each run_mutator l s = (Ok tt, s') -> scratch_enabled s' = scratch_enabled s.
Proof.
  revert s. induction l as [|a l IH]; intros s H; cbn in H; [by injection H as <-|].
  apply bind_Ok_inv in H as ([] & s1 & H1 & H). rewrite (IH _ H). by eapply run_mutator_enabled.
Qed.

Lemma internal_prepares sw s sw' s' :
  ready (entered sw s) -> scratch_enabled s = false -> done_preparing_internal sw s = (Ok sw', s') -> scratch_enabled s' = true ->
  prepares (entered sw s) s'.
Proof.
  intros Hr Hen H He. unfold done_preparing_internal in H. apply bind_Ok_inv in H as (d & s1 & [-> ->]%ask_inv & H).
  apply bind_Ok_inv in H as ([] & s1 & [Hd ->]%ASSERT_Ok_inv & H).
  do 3 (apply bind_Ok_inv in H as ([] & ? & [= <-] & H)). apply bind_Ok_inv in H as (base & s1 & [-> ->]%ask_inv & H).
  cbn [scratch_ptr set_switchable set_write_back set_preparation_done] in H.
  destruct (scratch_ptr s =? 0); [apply ask_inv in H as [_ ->]; cbn in He; congruence|].
  apply bind_Ok_inv in H as (sc & s1 & [-> ->]%ask_inv & H). apply bind_Ok_inv in H as ([] & s1 & [_ ->]%ASSERT_Ok_inv & H).
  apply bind_Ok_inv in H as (us & s1 & [-> ->]%ask_inv & H).
  apply bind_Ok_inv in H as ([] & s1 & H1 & H). apply bind_Ok_inv in H as (sw1 & s2 & [-> ->]%ask_inv & H).
  apply bind_Ok_inv in H as (l & s2 & [-> ->]%ask_inv & H).
  assert (s1 = set_switchable (switchable s1) (set_write_back WRITE_BACK (set_preparation_done true s))) as Hs1.
  { destruct (_ && _); injection H1 as <-; done. }
  assert (switchable s1 = sw \/ switchable s1 = PREVENT_SWITCH) as Hsw by (destruct (_ && _); injection H1 as <-; auto).
  destruct (bool_decide_reflect (switchable s1 = PREVENT_SWITCH)) as [Hp|Hp]; cbn [orb] in H.
  { injection H as _ <-. rewrite Hs1 in He. cbn in He. congruence. }
  destruct (length (param_list s1) =? 0)%nat.
  { injection H as _ <-. rewrite Hs1 in He. cbn in He. congruence. }
  destruct Hsw as [Hsw|]; [|done]. rewrite Hsw in Hs1. apply bind_Ok_inv in H as ([] & s2 & [= <-] & H).
  rewrite Hs1 in H. change (set_scratch_enabled true (set_switchable sw (set_write_back WRITE_BACK (set_preparation_done true s))))
    with (entered sw s) in H. cbn [param_list set_switchable set_write_back set_preparation_done] in H.
  apply bind_Ok_inv in H as ([] & s2 & H2 & H). assert (prepares (entered sw s) s2) as Hc.
  { apply (for_each_prepares copy_in (param_list s)); [|done|done]. intros p t t' Hp' _ Hb Ht. apply copy_in_prepares. rewrite Hb, Ht.
    by apply (ready_param _ _ Hr). }
  apply bind_Ok_inv in H as ([] & s3 & H3 & H). apply ask_inv in H as [_ ->]. eapply prepares_trans; [exact Hc|].
  eapply for_each_prepares; [|by eapply ready_prepares|exact H3]. intros i t t' _ Ht _ _. by apply redirect_prepares.
Qed.

Lemma done_preparing_prepares sw s sw' s' :
  ready (entered sw s) -> preparation_done s = false -> scratch_enabled s = false ->
  done_preparing sw s = (Ok sw', s') -> scratch_enabled s' = true -> prepares (entered sw s) s'.
Proof.
  intros Hr Hd Hen H He. unfold done_preparing in H. apply bind_Ok_inv in H as (d & s1 & [-> ->]%ask_inv & H). rewrite Hd in H.
  apply bind_Ok_inv in H as (sw1 & s1 & Hi & H). apply bind_Ok_inv in H as (sw2 & s2 & [-> ->]%ask_inv & H).
  apply bind_Ok_inv in H as ([] & s2 & [_ ->]%ASSERT_Ok_inv & H). apply bind_Ok_inv in H as (l & s2 & [-> ->]%ask_inv & H).
  apply bind_Ok_inv in H as ([] & s2 & H1 & [_ ->]%ask_inv).
  assert (prepares (entered sw s) s1) as Hp.
  { eapply internal_prepares; [done..|]. by rewrite <- (run_mutators_enabled _ _ _ H1). }
  eapply prepares_trans; [exact Hp|]. eapply for_each_prepares; [|by eapply ready_prepares|exact H1].
  intros i t t' _ Ht _ _. by apply run_mutator_prepares.
Qed.

(** ** Registering the parameters *)

(** What is expected of the size and mutator of a parameter: its area ends below the end of the address space,
    and a parameter that stays where it is has a fixed size. *)
Record proper (s : rtask) (size : ParamSize) (md : ArgMode) (mut : option ArgMutator) : Prop := {
  pa_size : 0 <= incoming_size size;
  pa_fits : scratch s + incoming_size size + 7 < 2 ^ 64;
  pa_plain : md = IN_OUT_NO_SCRATCH -> mem_ptr size = 0 /\ from_syscall size = false;
  pa_mutator : forall f, mut = Some f -> confined (incoming_size size) f }.

(** A sequence of calls that register parameters. *)
Inductive registers : rtask -> rtask -> Prop :=
| registers_none s : registers s s
| registers_reg s s1 s2 n size md mut v :
    registers s s1 -> (1 <= n <= length (args s1))%nat -> proper s1 size md mut ->
    reg_parameter n size md mut s1 = (Ok v, s2) -> registers s s2
| registers_mem s s1 s2 p size md mut v :
    registers s s1 -> proper s1 size md mut -> mem_ptr_parameter p size md mut s1 = (Ok v, s2) -> registers s s2.

(** The task when its call starts. *)
Record starting (s : rtask) : Prop := {
  st_params : param_list s = [];
  st_done : preparation_done s = false;
  st_enabled : scratch_enabled s = false;
  st_scratch : scratch s = scratch_ptr s;
  st_base : 0 <= scratch_ptr s < 2 ^ 64;
  st_args : syscall_entry_args s = args s;
  st_unsigned : Forall (fun a => 0 <= a) (args s);
  st_word : word_size s = 4%nat \/ word_size s = 8%nat;
  st_bytes : forall x b, mem s x = Some b -> 0 <= b < 256 }.

(** The register [i] holds a pointer to a parameter. *)
Definition reg_used (l : list MemoryParam) (i : nat) : Prop :=
  exists p, p ∈ l /\ ptr_in_reg p <> 0%nat /\ (ptr_in_reg p - 1)%nat = i.

(** The parameters are where the registers [e] pointed. *)
Definition from_regs (l : list MemoryParam) (e : list Z) : Prop :=
  forall p, p ∈ l -> ptr_in_reg p <> 0%nat -> (ptr_in_reg p <= length e)%nat /\ dest p = arg e (ptr_in_reg p).

(** What registration keeps. *)
Record registered (s0 s : rtask) : Prop := {
  rg_same : exists sc l, s = set_scratch sc (set_param_list l s0);
  rg_top : scratch_ptr s0 <= scratch s < 2 ^ 64;
  rg_placed : Forall (placed_param (scratch_ptr s0) (scratch s)) (param_list s);
  rg_regs : from_regs (param_list s) (args s0);
  rg_pointers : pointers_in (word_size s0) (param_list s) (mem s0) }.

Lemma align_bounds x : 0 <= x -> x + 7 < 2 ^ 64 -> x <= align_scratch x <= x + 7.
Proof.
  intros H1 H2. unfold align_scratch. rewrite u64_small by lia.
  assert (Z.land (x + 7) (Z.lnot 7) = (x + 7) / 8 * 8) as ->.
  { rewrite <- Z.ldiff_land. change 7 with (Z.ones 3) at 2. rewrite Z.ldiff_ones_r by lia.
    rewrite Z.shiftl_mul_pow2, Z.shiftr_div_pow2 by lia. done. }
  pose proof (Z.div_mod (x + 7) 8 ltac:(lia)). pose proof (Z.mod_pos_bound (x + 7) 8 ltac:(lia)). lia.
Qed.

Lemma placed_mono base top top' p : top <= top' -> placed_param base top p -> placed_param base top' p.
Proof. intros H [v1 v2 v3 v4 v5]. split; try done. intros Hm. destruct (v3 Hm). lia. Qed.

Lemma add_param_registered s0 s dst size md mut im ir v s' :
  registered s0 s -> 0 <= scratch_ptr s0 -> proper s size md mut -> 0 < dst ->
  (ir <> 0%nat -> (ir <= length (args s0))%nat /\ dst = arg (args s0) ir) ->
  (im <> 0 -> forall x, covers im (Z.of_nat (length (le_bytes (word_size s0) dst))) x ->
     le_bytes (word_size s0) dst !! Z.to_nat (x - im) = mem s0 x) ->
  add_param dst size md mut im ir s = (Ok v, s') -> registered s0 s'.
Proof.
  intros [g1 g2 g3 g4 g5] Hb [q1 q2 q3 q4] Hd Hir Him H. unfold add_param in H.
  apply bind_Ok_inv in H as ([] & s1 & [Hmut ->]%ASSERT_Ok_inv & H). apply bind_Ok_inv in H as (sc & s1 & [-> ->]%ask_inv & H).
  apply bind_Ok_inv in H as ([] & s1 & H1 & H). injection H as _ <-.
  assert (scratch s <= align_scratch (u64 (scratch s + incoming_size size)) < 2 ^ 64 /\
    scratch s + incoming_size size <= align_scratch (u64 (scratch s + incoming_size size))) as [Ha1 Ha2].
  { rewrite u64_small by lia. pose proof (align_bounds (scratch s + incoming_size size)). lia. }
  destruct (bool_decide_reflect (md = IN_OUT_NO_SCRATCH)) as [->|Hm].
  - injection H1 as <-. split; cbn [scratch param_list set_param_list].
    + destruct g1 as (sc & l & ->). by eexists _, _.
    + done.
    + apply Forall_app; split; [done|]. constructor; [|constructor]. split; cbn; try done. intros _. unfold fixed_size. cbn.
      destruct q3 as [? ?]; [done|]. split_and!; try done. destruct mut; done.
    + intros p [Hp| ->%list_elem_of_singleton]%elem_of_app; [by apply g4|done].
    + intros p x [Hp| ->%list_elem_of_singleton]%elem_of_app; [by apply g5|done].
  - apply bind_Ok_inv in H1 as ([] & s2 & [= <-] & H1). injection H1 as <-. split; cbn [scratch param_list set_param_list set_scratch].
    + destruct g1 as (sc & l & ->). by eexists _, _.
    + lia.
    + apply Forall_app; split; [eapply Forall_impl; [|exact g3]; intros p; apply placed_mono; lia|]. constructor; [|constructor].
      split; cbn; try done. intros _. lia.
    + intros p [Hp| ->%list_elem_of_singleton]%elem_of_app; [by apply g4|exact Hir].
    + intros p x [Hp| ->%list_elem_of_singleton]%elem_of_app; [by apply g5|intros Hn; by apply Him].
Qed.

Lemma le_value_nonneg l : Forall (fun b => 0 <= b < 256) l -> 0 <= le_value l.
Proof. induction 1 as [|b l Hb Hl IH]; cbn [le_value]; lia. Qed.

Lemma le_bytes_value l : Forall (fun b => 0 <= b < 256) l -> le_bytes (length l) (le_value l) = l.
Proof.
  induction 1 as [|b l Hb Hl IH]; [done|]. cbn [le_bytes le_value length].
  replace ((b + 256 * le_value l) mod 256) with b by (apply (Zmod_unique _ _ (le_value l)); lia).
  replace ((b + 256 * le_value l) / 256) with (le_value l) by (apply (Zdiv_unique _ _ _ b); lia). by rewrite IH.
Qed.

Lemma get_bytes_range m a n l : (forall x b, m x = Some b -> 0 <= b < 256) -> get_bytes m a n = Some l -> Forall (fun b => 0 <= b < 256) l.
Proof.
  intros Hm. revert a l. induction n as [|n IH]; intros a l H; cbn in H; [injection H as <-; constructor|].
  destruct (m a) as [b|] eqn:E; [|done]. cbn in H. destruct (get_bytes m (a + 1) n) as [k|] eqn:E'; [|done]. injection H as <-.
  constructor; [by eapply Hm|by eapply IH].
Qed.

(** A pointer read from memory is there. *)
Lemma get_remote_ptr_inv a s v s' : (forall x b, mem s x = Some b -> 0 <= b < 256) -> get_remote_ptr a s = (Ok v, s') ->
  s' = s /\ 0 <= v /\ forall x, covers a (Z.of_nat (length (le_bytes (word_size s) v))) x ->
    le_bytes (word_size s) v !! Z.to_nat (x - a) = mem s x.
Proof.
  intros Hm H. unfold get_remote_ptr in H. apply bind_Ok_inv in H as (w & s1 & [-> ->]%ask_inv & H).
  apply bind_Ok_inv in H as (m & s1 & [-> ->]%ask_inv & [H ->]%lift_inv). split; [done|]. unfold read_word, read_bytes in H.
  rewrite Nat2Z.id in H. destruct (get_bytes (mem s) a (word_size s)) as [l|] eqn:E; [|done]. injection H as <-.
  pose proof (get_bytes_range _ _ _ _ Hm E) as Hr. split; [by apply le_value_nonneg|]. intros x Hx.
  rewrite le_bytes_length in Hx. rewrite <- (get_bytes_length _ _ _ _ E), le_bytes_value by done. by eapply get_bytes_lookup.
Qed.

Lemma arg_nonneg l n : Forall (fun a => 0 <= a) l -> 0 <= arg l n.
Proof.
  intros H. unfold arg. destruct (nth_in_or_default (n - 1) l 0) as [Hi|Hi]; [|by rewrite Hi].
  rewrite Forall_forall in H. by apply H.
Qed.

Lemma registers_registered s0 s : registers s0 s -> starting s0 -> registered s0 s.
Proof.
  intros H [t1 t2 t3 t4 t5 t6 t7 t8 t9]. induction H as [s|s s1 s2 n size md mut v _ IH Hn Hp H|s s1 s2 p size md mut v _ IH Hp H].
  - split.
    + exists (scratch s), (param_list s). by destruct s.
    + lia.
    + rewrite t1. constructor.
    + intros p Hp. rewrite t1 in Hp. by apply elem_of_nil in Hp.
    + intros p x Hp. rewrite t1 in Hp. by apply elem_of_nil in Hp.
  - specialize (IH t1 t2 t3 t4 t5 t6 t7 t8 t9). pose proof (rg_same _ _ IH) as (sc & l & Hs). unfold reg_parameter in H.
    apply bind_Ok_inv in H as (d & s3 & [-> ->]%ask_inv & H). rewrite Hs in Hn. cbn in Hn.
    assert (preparation_done s1 = false /\ syscall_entry_args s1 = args s) as [Hd Ha] by by rewrite Hs. rewrite Hd in H.
    apply bind_Ok_inv in H as (e & s3 & [-> ->]%ask_inv & H). rewrite Ha in H.
    destruct (Z.eqb_spec (arg (args s) n) 0) as [|Hz]; [by injection H as _ <-|].
    eapply add_param_registered; [exact IH|lia|exact Hp| | | |exact H]; [|lia|done]. pose proof (arg_nonneg _ n t7). lia.
  - specialize (IH t1 t2 t3 t4 t5 t6 t7 t8 t9). pose proof (rg_same _ _ IH) as (sc & l & Hs). unfold mem_ptr_parameter in H.
    apply bind_Ok_inv in H as (d & s3 & [-> ->]%ask_inv & H).
    assert (preparation_done s1 = false /\ mem s1 = mem s /\ word_size s1 = word_size s) as (Hp0 & Hm & Hw) by by rewrite Hs. rewrite Hp0 in H. cbn [orb] in H.
    destruct (p =? 0); [by injection H as _ <-|]. apply bind_Ok_inv in H as (dst & s3 & Hd & H).
    apply get_remote_ptr_inv in Hd as (-> & Hpos & Hd); [|by rewrite Hm]. rewrite Hm, Hw in Hd.
    destruct (Z.eqb_spec dst 0) as [|Hz]; [by injection H as _ <-|].
    eapply add_param_registered; [exact IH|lia|exact Hp| | | |exact H]; [lia|done|done].
Qed.

(** ** The call *)

(** What the kernel does during the call: memory and the result. *)
Definition kernel (m : tmem) (r : Z) (s : rtask) : rtask := set_syscall_result r (set_mem m s).

(** What is changed until [process_syscall_results], by the kernel and by the work rr does for the particular call: memory, the
    result, the registers, whether outputs are written back, and the number of the call. *)
Definition ended (m : tmem) (r : Z) (l : list Z) (wb : WriteBack) (n : Z) (s : rtask) : rtask :=
  set_original_syscallno n (set_write_back wb (set_args l (kernel m r s))).

Lemma ended_same m r s : ended m r (args s) (write_back s) (original_syscallno s) s = kernel m r s.
Proof. by destruct s. Qed.

Lemma restored_spec l a e i : length a = length e -> from_regs l e ->
  (reg_used l i /\ restored_args l a !! i = e !! i) \/ (~ reg_used l i /\ restored_args l a !! i = a !! i).
Proof.
  revert a. induction l as [|p l IH]; intros a Hl Hp.
  { right. split; [|done]. intros (p & Hx & _). by apply elem_of_nil in Hx. }
  assert (from_regs l e) as Hp' by (intros q Hq; apply Hp; by right).
  assert (reg_used l i -> reg_used (p :: l) i) as Hmore by (intros (q & Hq & H); exists q; split; [by right|done]).
  change (restored_args (p :: l) a) with (restored_args l (if (ptr_in_reg p =? 0)%nat then a else set_arg (ptr_in_reg p) (dest p) a)).
  destruct (Nat.eqb_spec (ptr_in_reg p) 0) as [E|E].
  - destruct (IH a Hl Hp') as [[H1 H2]|[H1 H2]]; [left; auto|right]. split; [|done].
    intros (q & [->|Hq]%elem_of_cons & H3 & H4); [done|]. apply H1. by exists q.
  - destruct (Hp p) as [H1 H2]; [left|done|]. set (b := set_arg _ _ _).
    assert (length b = length e) as Hb by (unfold b, set_arg; by rewrite length_insert).
    destruct (IH b Hb Hp') as [[H3 H4]|[H3 H4]]; [left; auto|]. rewrite H4. unfold b, set_arg.
    destruct (decide ((ptr_in_reg p - 1)%nat = i)) as [<-|Hn].
    + left. split; [exists p; split; [left|done]|]. rewrite list_lookup_insert_eq by lia. rewrite H2. unfold arg. symmetry.
      destruct (lookup_lt_is_Some_2 e (ptr_in_reg p - 1)) as [z Hz]; [lia|]. rewrite Hz. f_equal. symmetry. by apply nth_lookup_Some.
    + right. rewrite list_lookup_insert_ne by done. split; [|done].
      intros (q & [->|Hq]%elem_of_cons & H5 & H6); [done|]. apply H3. by exists q.
Qed.

Lemma reg_used_moved l l' i : Forall2 moved l l' -> reg_used l' i <-> reg_used l i.
Proof.
  intros H. split.
  - intros (q & Hq & H1 & H2). destruct (Forall2_in_r _ _ _ _ H Hq) as (p & Hp & []). exists p. by rewrite <- mv_in_reg0.
  - intros (p & Hp & H1 & H2). destruct (Forall2_in_l _ _ _ _ H Hp) as (q & Hq & []). exists q. by rewrite mv_in_reg0.
Qed.

Lemma from_regs_moved l l' e : Forall2 moved l l' -> from_regs l e -> from_regs l' e.
Proof.
  intros H Hf q Hq Hn. destruct (Forall2_in_r _ _ _ _ H Hq) as (p & Hp & []). rewrite mv_in_reg0, mv_dest0 in *. by apply Hf.
Qed.

Lemma wf_placed base top l : Forall (placed_param base top) l -> wf_params l.
Proof.
  intros H. split.
  - eapply Forall_impl; [|exact H]. intros p []. lia.
  - rewrite Forall_forall in H. intros p Hp%list_elem_of_In Hm. destruct (H p Hp) as [v1 v2 v3 v4 v5]. destruct (v4 Hm). done.
Qed.

Lemma kernel_wrote_moved scr l l' m0 m1 m : Forall2 moved l l' -> (forall x, ~ scr x -> m1 x = m0 x) ->
  kernel_wrote scr l m1 m -> kernel_wrote scr l' m0 m.
Proof.
  intros Hl Hm Hk x Hx. destruct (Hk x Hx) as [E|(p & Hp & H1 & H2)]; [left; by rewrite E, Hm|right].
  destruct (Forall2_in_l _ _ _ _ Hl Hp) as (q & Hq & []). exists q. split; [done|]. split; congruence.
Qed.

Lemma pointers_in_moved w l l' m : Forall2 moved l l' -> pointers_in w l m -> pointers_in w l' m.
Proof.
  intros Hl H q x Hq Hn Hx. destruct (Forall2_in_r _ _ _ _ Hl Hq) as (p & Hp & []).
  rewrite mv_dest0, mv_in_memory0 in *. by apply H.
Qed.

Lemma emulation_frame s s' : (emu ← ask should_emulate_result; r ← ask emulated_result;
    if emu : bool then change (set_syscall_result r) else mret tt) s = (Ok tt, s') ->
  mem s' = mem s /\ args s' = args s /\ records s' = records s.
Proof.
  intros H. apply bind_Ok_inv in H as (emu & s1 & [-> ->]%ask_inv & H). apply bind_Ok_inv in H as (r & s1 & [-> ->]%ask_inv & H).
  destruct (should_emulate_result s); by injection H as <-.
Qed.

(** ** A call whose parameters are registered *)

Record call_params (s : rtask) : Prop := {
  cp_base : 0 <= scratch_ptr s;
  cp_top : scratch s < 2 ^ 64;
  cp_word : (word_size s <= 8)%nat;
  cp_done : preparation_done s = false;
  cp_enabled : scratch_enabled s = false;
  cp_placed : Forall (placed_param (scratch_ptr s) (scratch s)) (param_list s);
  cp_length : length (args s) = length (syscall_entry_args s);
  cp_regs : from_regs (param_list s) (syscall_entry_args s);
  cp_pointers : pointers_in (word_size s) (param_list s) (mem s) }.

Lemma call_ready s sw : call_params s -> reachable (param_list s) -> ready (entered sw s).
Proof. intros [c1 c2 c3 c4 c5 c6 c7 c8 c9] Hre. unfold ready, entered. cbn. split_and!; done. Qed.

(** The arguments the call leaves, [n] of them being those at its entry. *)
Definition with_entry_args (n : nat) (e l : list Z) : list Z := take n e ++ drop n l.

Lemma length_with_entry n e l : length l = length e -> length (with_entry_args n e l) = length e.
Proof. intros H. unfold with_entry_args. rewrite length_app, length_take, length_drop. lia. Qed.

Lemma lookup_with_entry n e l i : length l = length e -> with_entry_args n e l !! i = if (i <? n)%nat then e !! i else l !! i.
Proof.
  intros H. unfold with_entry_args. destruct (Nat.ltb_spec i n) as [Hi|Hi].
  - destruct (decide (i < length e)%nat) as [Hl|Hl].
    + rewrite lookup_app_l by (rewrite length_take; lia). by apply lookup_take_lt.
    + rewrite (lookup_ge_None_2 e i) by lia. apply lookup_ge_None_2. rewrite length_app, length_take, length_drop. lia.
  - destruct (decide (n <= length e)%nat) as [Hn|Hn].
    + rewrite lookup_app_r by (rewrite length_take; lia). rewrite length_take, Nat.min_l by lia. rewrite lookup_drop. f_equal. lia.
    + rewrite (lookup_ge_None_2 l i) by lia. apply lookup_ge_None_2. rewrite length_app, length_take, length_drop. lia.
Qed.

Lemma with_entry_0 e l : with_entry_args 0 e l = l.
Proof. done. Qed.

Lemma args_restored n s sw s1 : call_params s -> prepares (entered sw s) s1 ->
  restored_args (param_list s1) (with_entry_args n (syscall_entry_args s) (args s1)) =
  restored_args (param_list s) (with_entry_args n (syscall_entry_args s) (args s)).
Proof.
  intros Hc Hpr. pose proof (pr_params _ _ Hpr) as Hl. change (param_list (entered sw s)) with (param_list s) in Hl.
  pose proof (cp_regs _ Hc) as Hf. pose proof (cp_length _ Hc) as Hlen.
  assert (length (args s1) = length (syscall_entry_args s)) as Hlen1 by (by rewrite (pr_length _ _ Hpr)).
  apply list_eq. intros i.
  destruct (restored_spec (param_list s) _ _ i (length_with_entry n _ _ Hlen) Hf) as [[H1 ->]|[H1 ->]];
    destruct (restored_spec (param_list s1) _ _ i (length_with_entry n _ _ Hlen1) (from_regs_moved _ _ _ Hl Hf)) as [[H2 ->]|[H2 ->]];
    rewrite (reg_used_moved _ _ _ Hl) in H2; try done.
  rewrite !lookup_with_entry by done. destruct (i <? n)%nat; [done|].
  apply (pr_args _ _ Hpr). intros p Hp Hn Hi. apply H1. by exists p.
Qed.

Lemma moved_modes l l' : Forall2 moved l l' -> Forall (fun p => mode p <> IN_OUT_NO_SCRATCH) l -> Forall (fun p => mode p <> IN_OUT_NO_SCRATCH) l'.
Proof.
  intros H Hg. induction H as [|p q l l' Hpq H IH]; constructor; apply Forall_cons_1 in Hg as [Hp Hg]; [|auto].
  by rewrite (mv_mode _ _ Hpq).
Qed.

Lemma call_transparent s sw sw' s1 m r n wb no s3 :
  call_params s -> reachable (param_list s) ->
  done_preparing sw s = (Ok sw', s1) -> scratch_enabled s1 = true ->
  (wb = NO_WRITE_BACK -> Forall (fun p => mode p <> IN_OUT_NO_SCRATCH) (param_list s)) ->
  kernel_wrote (in_scratch (scratch_ptr s) (scratch s)) (param_list s) (mem s1) m ->
  process_syscall_results (ended m r (with_entry_args n (syscall_entry_args s) (args s1)) wb no s1) = (Ok tt, s3) ->
  exists recs, records s3 = records s ++ recs /\
    args s3 = restored_args (param_list s) (with_entry_args n (syscall_entry_args s) (args s)) /\
    forall x, ~ in_scratch (scratch_ptr s) (scratch s) x -> mem s3 x = apply_records recs (mem s) x.
Proof.
  intros Hc Hre Hd He Hwb Hk H.
  assert (prepares (entered sw s) s1) as Hpr by (eapply done_preparing_prepares; [by apply call_ready|by destruct Hc..|done|done]).
  assert (ready s1) as Hr1 by (eapply ready_prepares; [by apply call_ready|done]).
  pose proof (pr_params _ _ Hpr) as Hl. change (param_list (entered sw s)) with (param_list s) in Hl.
  unfold process_syscall_results in H. apply bind_Ok_inv in H as (d & t1 & [-> ->]%ask_inv & H).
  apply bind_Ok_inv in H as ([] & t1 & [_ ->]%ASSERT_Ok_inv & H). apply bind_Ok_inv in H as (e & t1 & [-> ->]%ask_inv & H).
  cbn [scratch_enabled ended kernel set_syscall_result set_mem set_args set_write_back set_original_syscallno] in H. rewrite He in H.
  apply bind_Ok_inv in H as ([] & t1 & Hf & H). apply emulation_frame in H as (E1 & E2 & E3).
  edestruct (fun h1 h2 h3 h4 => finish_scratch_any (in_scratch (scratch_ptr s) (scratch s))
      (ended m r (with_entry_args n (syscall_entry_args s) (args s1)) wb no s1) t1 (mem s) h1 h2 h3 h4 Hf)
    as (recs & R1 & R2 & R3); cbn [ended kernel set_syscall_result set_mem set_args set_write_back set_original_syscallno write_back param_list word_size mem records args] in *.
  - intros Hw. eapply moved_modes; [exact Hl|by apply Hwb].
  - destruct Hr1 as (_ & _ & _ & _ & Hp & _). by eapply wf_placed.
  - rewrite (pr_word _ _ Hpr). eapply pointers_in_moved; [exact Hl|by destruct Hc].
  - eapply kernel_wrote_moved; [exact Hl|exact (pr_mem _ _ Hpr)|exact Hk].
  - exists recs. rewrite E1, E2, E3, R1, R2, (pr_records _ _ Hpr). split; [done|]. split; [by eapply args_restored|done].
Qed.

Lemma registered_call s0 s : starting s0 -> registered s0 s -> call_params s.
Proof.
  intros Hst Hg. destruct (rg_same _ _ Hg) as (sc & l & Hs). destruct Hst, Hg. rewrite Hs in *. cbn in *. split; cbn; try done; try lia.
  - by rewrite st_args0.
  - by rewrite st_args0.
Qed.

(** A system call through scratch memory is transparent and replayable: its
    parameters are registered, `done_preparing` moves them to scratch memory,
    the kernel writes only there and to the parameters that stay where they are,
    and `process_syscall_results` ends the call.  Outside of scratch memory the
    tracee's memory is then what it was with the recorded data applied in order,
    which is what replay does, and its argument registers are what they were. *)
Theorem scratch_transparent s0 s sw sw' s1 m r s3 :
  starting s0 -> registers s0 s -> reachable (param_list s) ->
  done_preparing sw s = (Ok sw', s1) -> scratch_enabled s1 = true ->
  kernel_wrote (in_scratch (scratch_ptr s0) (scratch s)) (param_list s) (mem s1) m ->
  process_syscall_results (kernel m r s1) = (Ok tt, s3) ->
  exists recs, records s3 = records s0 ++ recs /\ args s3 = args s0 /\
    forall x, ~ in_scratch (scratch_ptr s0) (scratch s) x -> mem s3 x = apply_records recs (mem s0) x.
Proof.
  intros Hst Hreg Hre Hd He Hk H. pose proof (registers_registered _ _ Hreg Hst) as Hg. destruct (rg_same _ _ Hg) as (sc & l & Hs).
  assert (mem s = mem s0 /\ records s = records s0 /\ scratch_ptr s = scratch_ptr s0 /\ args s = args s0) as (Em & Er & Eb & Ea) by by rewrite Hs.
  pose proof (registered_call _ _ Hst Hg) as Hc.
  assert (write_back s1 = WRITE_BACK) as Hw.
  { assert (prepares (entered sw s) s1) as Hpr by (eapply done_preparing_prepares; [by apply call_ready|by destruct Hc..|done|done]).
    by rewrite (pr_write_back _ _ Hpr). }
  rewrite <- Eb in Hk. rewrite <- ended_same in H. change (args s1) with (with_entry_args 0 (syscall_entry_args s) (args s1)) in H.
  assert (write_back s1 = NO_WRITE_BACK -> Forall (fun p => mode p <> IN_OUT_NO_SCRATCH) (param_list s)) as Hno by by rewrite Hw.
  destruct (call_transparent _ _ _ _ _ _ _ _ _ _ Hc Hre Hd He Hno Hk H) as (recs & R1 & R2 & R3).
  rewrite with_entry_0 in R2.
  rewrite Em, Er, Eb in *. exists recs. split; [done|]. split; [|done]. rewrite R2, Ea. apply list_eq. intros i.
  by destruct (restored_spec (param_list s) (args s0) (args s0) i eq_refl (rg_regs _ _ Hg)) as [[_ ->]|[_ ->]].
Qed.
