(* ===== verification/SyscallDirect.v ===== *)
(** * A system call on the tracee's own memory

    [direct_recorded]: when no other task runs during a call, its parameters stay where they
    are.  Mutators change input parameters in place and save what was there;
    [process_syscall_results] puts it back and records every parameter. *)

From stdpp Require Import base tactics list numbers.
From S2P Require Import Prelude TracerMonad SyscallParams SyscallParamsSpec SyscallScratch.
Local Open Scope Z_scope.

(** ** Mutators *)

Definition bytes_of (m : tmem) : Prop := forall x b, m x = Some b -> 0 <= b < 256.

(** A mutator saves all of its parameter. *)
Definition saves (n : Z) (f : ArgMutator) : Prop :=
  forall a m m' save, bytes_of m -> f a m = Ok (Some (m', save)) -> read_bytes m a n = Ok save /\ bytes_of m'.

Definition has_mutator (p : MemoryParam) : bool := match mutator p with Some _ => true | None => false end.

(** The parameters with a mutator. *)
Definition mutated (l : list MemoryParam) : list MemoryParam := List.filter has_mutator l.

Definition area (p : MemoryParam) (x : Z) : Prop := covers (dest p) (incoming_size (num_bytes p)) x.

Definition disjoint_areas (p q : MemoryParam) : Prop := forall x, area p x -> area q x -> False.

Record good_mutator (p : MemoryParam) : Prop := {
  gm_size : 0 <= incoming_size (num_bytes p);
  gm_confined : forall f, mutator p = Some f -> confined (incoming_size (num_bytes p)) f;
  gm_saves : forall f, mutator p = Some f -> saves (incoming_size (num_bytes p)) f }.

(** What [p] held. *)
Definition saved_from (m : tmem) (p : MemoryParam) (save : list Z) : Prop :=
  read_bytes m (dest p) (incoming_size (num_bytes p)) = Ok save.

Lemma read_bytes_agree m m' a n l : (forall x, covers a n x -> m' x = m x) -> read_bytes m a n = Ok l -> read_bytes m' a n = Ok l.
Proof.
  intros H Hr. unfold read_bytes in *. assert (get_bytes m' a (Z.to_nat n) = get_bytes m a (Z.to_nat n)) as ->; [|done].
  assert (forall x, a <= x < a + Z.of_nat (Z.to_nat n) -> m' x = m x) as Hx by (intros x Hx; apply H; unfold covers; lia).
  clear H Hr. revert a Hx. induction (Z.to_nat n) as [|k IH]; intros a Hx; [done|]. cbn.
  rewrite Hx by lia. rewrite IH by (intros; apply Hx; lia). done.
Qed.

(** The mutator of one parameter: the parameter afterwards, and the data saved for it. *)
Record mutates (p q : MemoryParam) (sv : list (list Z)) (s s' : rtask) : Prop := {
  mu_moved : moved p q;
  mu_bytes : bytes_of (mem s');
  mu_saved : (has_mutator q = false /\ sv = [] /\ mem s' = mem s) \/
    (has_mutator q = true /\ has_mutator p = true /\ exists d, sv = [d] /\ saved_from (mem s) q d /\
      forall x, ~ area q x -> mem s' x = mem s x);
  mu_frame : s' = set_saved_data (saved_data s ++ concat sv) (set_mem (mem s') (set_param_list (param_list s') s)) }.

Lemma run_mutator_direct i s p s' :
  scratch_enabled s = false -> bytes_of (mem s) -> param_list s !! i = Some p -> good_mutator p -> run_mutator i s = (Ok tt, s') ->
  exists q sv, mutates p q sv s s' /\ param_list s' = <[i := q]> (param_list s).
Proof.
  intros He Hby Hi Hg H. unfold run_mutator in H. apply bind_Ok_inv in H as (l & s1 & [-> ->]%ask_inv & H). rewrite Hi in H.
  destruct (mutator p) as [f|] eqn:Hf.
  - apply bind_Ok_inv in H as (e & s1 & [-> ->]%ask_inv & H). rewrite He in H. apply bind_Ok_inv in H as (m & s1 & [-> ->]%ask_inv & H).
    apply bind_Ok_inv in H as (r & s1 & [Hr ->]%lift_inv & H). destruct r as [[m save]|].
    + apply bind_Ok_inv in H as ([] & s1 & [= <-] & H). destruct (gm_saves _ Hg f Hf _ _ _ _ Hby Hr) as [Hsv Hby'].
      pose proof (gm_confined _ Hg f Hf _ _ _ _ Hr) as Hc. pose proof (gm_size _ Hg) as Hn. exists p, [save].
      assert (take (Z.to_nat (incoming_size (num_bytes p))) (save ++ repeat 0 (Z.to_nat (incoming_size (num_bytes p)))) = save) as Ht.
      { pose proof Hsv as [Hlen _]%read_bytes_inv. rewrite take_app_le by lia. apply take_ge. lia. }
      injection H as <-. rewrite Ht. split; [|cbn; by rewrite list_insert_id].
      split; [apply moved_refl|done| |cbn; by rewrite app_nil_r].
      right. unfold has_mutator. rewrite Hf. split_and!; try done. exists save. split_and!; try done.
    + injection H as <-. exists (with_mutator None p), []. split; [|done]. split; [split; cbn; auto|done|by left|]. cbn. rewrite app_nil_r. by destruct s.
  - injection H as <-. exists p, []. split; [|by rewrite list_insert_id]. split; [apply moved_refl|done| |].
    + left. unfold has_mutator. by rewrite Hf.
    + cbn. rewrite app_nil_r. by destruct s.
Qed.

Lemma area_moved p q x : moved p q -> area q x <-> area p x.
Proof. intros []. unfold area. by rewrite mv_dest, mv_size. Qed.

Lemma elem_mutated p l : p ∈ mutated l <-> p ∈ l /\ has_mutator p = true.
Proof. unfold mutated. rewrite !list_elem_of_In. apply filter_In. Qed.

Lemma mutated_moved l l' q : Forall2 moved l l' -> q ∈ mutated l' -> exists p, p ∈ mutated l /\ moved p q.
Proof.
  intros Hl [Hq Hm]%elem_mutated. destruct (Forall2_in_r _ _ _ _ Hl Hq) as (p & Hp & Hpq). exists p. split; [|done].
  apply elem_mutated. split; [done|]. unfold has_mutator in *. destruct (mv_mutator _ _ Hpq) as [E|E]; rewrite E in Hm; [done|done].
Qed.

Lemma Forall2_change {A B} (P Q : A -> B -> Prop) l k : Forall2 P l k -> (forall x y, x ∈ l -> P x y -> Q x y) -> Forall2 Q l k.
Proof.
  induction 1 as [|x y l k Hxy Hl IH]; intros H; constructor; [apply H; [left|done]|]. apply IH. intros a b Ha. apply H. by right.
Qed.

(** The mutators of [todo], the parameters before it being done. *)
Record mutates_all (before todo todo' : list MemoryParam) (svs : list (list Z)) (s s' : rtask) : Prop := {
  ma_moved : Forall2 moved todo todo';
  ma_saved : Forall2 (saved_from (mem s)) (mutated todo') svs;
  ma_mem : forall x, (forall p, p ∈ mutated todo' -> ~ area p x) -> mem s' x = mem s x;
  ma_frame : s' = set_saved_data (saved_data s ++ concat svs) (set_mem (mem s') (set_param_list (before ++ todo') s)) }.

Lemma run_mutators_direct before todo s s' :
  scratch_enabled s = false -> bytes_of (mem s) -> param_list s = before ++ todo -> Forall good_mutator todo ->
  ForallOrdPairs disjoint_areas (mutated todo) -> for_each run_mutator (seq (length before) (length todo)) s = (Ok tt, s') ->
  exists todo' svs, mutates_all before todo todo' svs s s'.
Proof.
  revert before s. induction todo as [|p todo IH]; intros before s He Hby Hl Hg Hd H; cbn [length seq for_each] in H.
  { injection H as <-. exists [], []. split; [done|by apply Forall2_nil|done|]. cbn. rewrite <- Hl, app_nil_r. by destruct s. }
  apply Forall_cons_1 in Hg as [Hp Hg]. apply bind_Ok_inv in H as ([] & s1 & H1 & H).
  apply (run_mutator_direct (length before) s p) in H1 as (q & sv & Hm & Hl1); [|done|done|rewrite Hl; by apply list_lookup_middle|done].
  rewrite Hl, insert_app_r_alt in Hl1 by lia. rewrite Nat.sub_diag in Hl1. cbn [insert list_insert] in Hl1.
  destruct Hm as [Hmv Hby' Hsv Hfr].
  assert (ForallOrdPairs disjoint_areas (mutated todo) /\ (has_mutator p = true -> Forall (disjoint_areas p) (mutated todo))) as [Hd1 Hd2].
  { unfold mutated in *. cbn [List.filter] in Hd. destruct (has_mutator p); [inversion Hd; by subst|done]. }
  destruct (IH (before ++ [q]) s1) as (todo' & svs & [a1 a2 a3 a4]); [by rewrite Hfr|done|by rewrite Hl1, <- app_assoc|done..| |].
  { rewrite length_app. cbn. by rewrite Nat.add_1_r. }
  exists (q :: todo'), (sv ++ svs).
  assert (s' = set_saved_data (saved_data s ++ concat (sv ++ svs)) (set_mem (mem s') (set_param_list (before ++ q :: todo') s))) as Hframe.
  { clear -a4 Hfr. set (m := mem s') in *. rewrite a4. clearbody m. set (m1 := mem s1) in *. rewrite Hfr. cbn. rewrite concat_app. by rewrite <- !app_assoc. }
  destruct Hsv as [(Hq & -> & Hmem)|(Hq & Hpm & d & -> & Hs & Hmem)]; split; try exact Hframe; try (by constructor);
    unfold mutated; cbn [List.filter app]; rewrite ?Hq.
  - by rewrite Hmem in a2.
  - intros x Hx. by rewrite a3, Hmem.
  - constructor; [done|]. eapply Forall2_change; [exact a2|]. intros p' d' Hp' Hs'.
    destruct (mutated_moved _ _ _ a1 Hp') as (p0 & Hp0 & Hm0). specialize (Hd2 Hpm). rewrite Forall_forall in Hd2.
    apply list_elem_of_In in Hp0. eapply read_bytes_agree; [|exact Hs']. intros x Hx. symmetry. apply Hmem. intros Hx'.
    apply (Hd2 p0 Hp0 x); [by apply (area_moved p q)|by apply (area_moved p0 p')].
  - intros x Hx. rewrite a3, Hmem; [done| |]; [apply Hx; left|]. intros p' Hp'. apply Hx. by right.
Qed.

(** ** Undoing them *)

Lemma unmutate_all l svs s s' m0 :
  Forall2 (saved_from m0) (mutated l) svs -> Forall (fun p => 0 <= incoming_size (num_bytes p)) l -> saved_data s = concat svs ->
  for_each unmutate l s = (Ok tt, s') ->
  s' = set_saved_data [] (set_mem (apply_records (zip (map dest (mutated l)) svs) (mem s)) s).
Proof.
  revert svs s. induction l as [|p l IH]; intros svs s Hf Hn Hs H; cbn [for_each] in H.
  { inversion Hf; subst. cbn in Hs. injection H as <-. cbn. rewrite <- Hs. by destruct s. }
  apply Forall_cons_1 in Hn as [Hp Hn]. apply bind_Ok_inv in H as ([] & s1 & H1 & H). unfold unmutate in H1.
  unfold mutated in *. cbn [List.filter] in *. unfold has_mutator in Hf |- * at 1. destruct (mutator p) as [f|] eqn:Ef.
  - inversion Hf as [|? d ? svs' Hd Hf']; subst. apply bind_Ok_inv in H1 as (sd & s2 & [-> ->]%ask_inv & H1).
    apply bind_Ok_inv in H1 as ([] & s2 & [Hle ->]%ASSERT_Ok_inv & H1). apply bind_Ok_inv in H1 as ([] & s2 & H2 & H1).
    apply write_bytes_helper_inv in H2 as ->. injection H1 as <-. apply read_bytes_inv in Hd as [Hlen _].
    rewrite Hs in *. cbn [concat] in *. rewrite <- Hlen in *. rewrite take_app_length, drop_app_length in H.
    apply (IH svs') in H as ->; done.
  - injection H1 as <-. by apply (IH svs).
Qed.

(** ** Recording *)

(** The sizes of the parameters after a call. *)
Fixpoint actual_sizes (m : tmem) (r : Z) (before : list (MemoryParam * Z)) (l : list MemoryParam) : result (list (MemoryParam * Z)) :=
  match l with
  | [] => Ok before
  | p :: l => size ← eval m r (consumed before p) (num_bytes p); actual_sizes m r (before ++ [(p, size)]) l
  end.

Definition is_record (m : tmem) (y : MemoryParam * Z) (rc : Z * list Z) : Prop :=
  rc.1 = dest y.1 /\ read_bytes m (dest y.1) y.2 = Ok rc.2.

Lemma record_all_inv before l s s' : Forall (fun p => dest p <> 0) l -> record_all before l s = (Ok tt, s') ->
  exists tl recs, actual_sizes (mem s) (syscall_result_signed s) before l = Ok (before ++ tl) /\
    Forall2 (is_record (mem s)) tl recs /\ s' = set_records (records s ++ recs) s.
Proof.
  revert before s. induction l as [|p l IH]; intros before s Hd H; cbn [record_all actual_sizes] in *.
  { injection H as <-. exists [], []. rewrite !app_nil_r. split_and!; [done|constructor|by destruct s]. }
  apply Forall_cons_1 in Hd as [Hp Hd]. apply bind_Ok_inv in H as (size & s1 & H1 & H). unfold eval_param_size in H1.
  apply bind_Ok_inv in H1 as (m & s2 & [-> ->]%ask_inv & H1). apply bind_Ok_inv in H1 as (r & s2 & [-> ->]%ask_inv & [He ->]%lift_inv).
  apply bind_Ok_inv in H as ([] & s2 & H1 & H). apply record_remote_inv in H1 as (d & Hr & ->); [|done].
  destruct (IH _ _ Hd H) as (tl & recs & E1 & E2 & ->). exists ((p, size) :: tl), ((dest p, d) :: recs). rewrite He, bind_result_ok.
  cbn [mem syscall_result_signed set_records] in *. split_and!; [by rewrite E1, <- app_assoc|by constructor|]. cbn. by rewrite <- app_assoc.
Qed.

(** Data read from memory, put over a memory that differs only there. *)
Lemma records_complete m tl recs m0 x : Forall2 (is_record m) tl recs ->
  (m x = m0 x \/ exists y, y ∈ tl /\ covers (dest y.1) y.2 x) -> apply_records recs m0 x = m x.
Proof.
  intros H Hx. destruct (apply_agree recs m0 x (m x)) as [[_ E]|[Hn E]]; [|done|].
  - intros rc Hrc Hc. destruct (Forall2_in_r _ _ _ _ H Hrc) as (y & _ & E & Hr). apply read_bytes_inv in Hr as [_ Hr]. rewrite E in *. by apply Hr.
  - rewrite E. destruct Hx as [Hx|(y & Hy & Hc)]; [done|]. exfalso. apply Hn. destruct (Forall2_in_l _ _ _ _ H Hy) as (rc & Hrc & E1 & Hr).
    exists rc. split; [done|]. apply read_bytes_inv in Hr as [Hl _]. rewrite E1, Hl. unfold covers in *. lia.
Qed.

(** ** The call *)

Lemma for_each_enabled {A} (f : A -> R unit) l s s' :
  (forall a s s', f a s = (Ok tt, s') -> scratch_enabled s' = scratch_enabled s) -> for_each f l s = (Ok tt, s') ->
  scratch_enabled s' = scratch_enabled s.
Proof.
  intros Hf. revert s. induction l as [|a l IH]; intros s H; cbn in H; [by injection H as <-|].
  apply bind_Ok_inv in H as ([] & s1 & H1 & H). rewrite (IH _ H). by eapply Hf.
Qed.

Lemma copy_in_enabled p s s' : copy_in p s = (Ok tt, s') -> scratch_enabled s' = scratch_enabled s.
Proof.
  intros H. unfold copy_in in H. apply bind_Ok_inv in H as ([] & s1 & [_ ->]%ASSERT_Ok_inv & H). destruct (_ || _); [|by injection H as <-].
  apply bind_Ok_inv in H as (buf & s1 & H1 & H). unfold read_bytes_helper in H1.
  apply bind_Ok_inv in H1 as (m & s2 & [-> ->]%ask_inv & [_ ->]%lift_inv). by apply write_bytes_helper_inv in H as ->.
Qed.

Lemma redirect_enabled i s s' : redirect i s = (Ok tt, s') -> scratch_enabled s' = scratch_enabled s.
Proof.
  intros H. unfold redirect in H. apply bind_Ok_inv in H as (l & s1 & [-> ->]%ask_inv & H).
  destruct (param_list s !! i) as [p|]; [|by injection H as <-]. apply bind_Ok_inv in H as ([] & s1 & H1 & H).
  assert (scratch_enabled s1 = scratch_enabled s) as <- by (destruct (_ =? _)%nat; by injection H1 as <-).
  apply bind_Ok_inv in H as ([] & s2 & H2 & H). assert (scratch_enabled s2 = scratch_enabled s1) as <-.
  { destruct (ptr_in_memory p =? 0); [by injection H2 as <-|]. apply bind_Ok_inv in H2 as (q & s3 & [_ ->]%relocate_inv & H2).
    unfold set_remote_ptr in H2. apply bind_Ok_inv in H2 as (w & s4 & [-> ->]%ask_inv & H2). by apply write_bytes_helper_inv in H2 as ->. }
  destruct (mem_ptr (num_bytes p) =? 0); [by injection H as <-|]. apply bind_Ok_inv in H as (q & s3 & [_ ->]%relocate_inv & H).
  by injection H as <-.
Qed.

Lemma internal_direct sw s sw' s' : done_preparing_internal sw s = (Ok sw', s') -> scratch_enabled s' = false ->
  exists sw1, s' = set_switchable sw1 (set_write_back WRITE_BACK (set_preparation_done true s)).
Proof.
  intros H He. unfold done_preparing_internal in H. apply bind_Ok_inv in H as (d & s1 & [-> ->]%ask_inv & H).
  apply bind_Ok_inv in H as ([] & s1 & [_ ->]%ASSERT_Ok_inv & H). do 3 (apply bind_Ok_inv in H as ([] & ? & [= <-] & H)).
  apply bind_Ok_inv in H as (base & s1 & [-> ->]%ask_inv & H). destruct (_ =? 0); [apply ask_inv in H as [_ ->]; by eexists|].
  apply bind_Ok_inv in H as (sc & s1 & [-> ->]%ask_inv & H). apply bind_Ok_inv in H as ([] & s1 & [_ ->]%ASSERT_Ok_inv & H).
  apply bind_Ok_inv in H as (us & s1 & [-> ->]%ask_inv & H). apply bind_Ok_inv in H as ([] & s1 & H1 & H).
  assert (exists sw1, s1 = set_switchable sw1 (set_write_back WRITE_BACK (set_preparation_done true s))) as Hs1.
  { destruct (_ && _); injection H1 as <-; by eexists. }
  apply bind_Ok_inv in H as (sw1 & s2 & [-> ->]%ask_inv & H). apply bind_Ok_inv in H as (l & s2 & [-> ->]%ask_inv & H).
  destruct (_ || _); [by injection H as _ <-|]. exfalso. apply bind_Ok_inv in H as ([] & s2 & [= <-] & H).
  apply bind_Ok_inv in H as ([] & s2 & H2 & H). apply bind_Ok_inv in H as ([] & s3 & H3 & [_ ->]%ask_inv).
  rewrite (for_each_enabled redirect _ _ _ redirect_enabled H3), (for_each_enabled copy_in _ _ _ copy_in_enabled H2) in He. done.
Qed.

Lemma done_preparing_direct sw s sw' s' :
  preparation_done s = false -> bytes_of (mem s) -> Forall good_mutator (param_list s) -> ForallOrdPairs disjoint_areas (mutated (param_list s)) ->
  done_preparing sw s = (Ok sw', s') -> scratch_enabled s' = false ->
  exists sw1 l svs, mutates_all [] (param_list s) l svs (set_switchable sw1 (set_write_back WRITE_BACK (set_preparation_done true s))) s'.
Proof.
  intros Hd Hby Hg Hdis H He. unfold done_preparing in H. apply bind_Ok_inv in H as (d & s1 & [-> ->]%ask_inv & H). rewrite Hd in H.
  apply bind_Ok_inv in H as (sw1 & s1 & Hi & H). apply bind_Ok_inv in H as (sw2 & s2 & [-> ->]%ask_inv & H).
  apply bind_Ok_inv in H as ([] & s2 & [_ ->]%ASSERT_Ok_inv & H). apply bind_Ok_inv in H as (l & s2 & [-> ->]%ask_inv & H).
  apply bind_Ok_inv in H as ([] & s2 & H1 & [_ ->]%ask_inv).
  pose proof (run_mutators_enabled _ _ _ H1) as Hen. rewrite He in Hen. apply internal_direct in Hi as (sw3 & ->); [|done].
  exists sw3. change (param_list (set_switchable _ _)) with (param_list s) in H1.
  by apply (run_mutators_direct [] (param_list s)) in H1.
Qed.

(** What the kernel may change: parameters that are no mutated inputs, up to their sizes after the call. *)
Definition kernel_wrote_direct (l : list MemoryParam) (sizes : list (MemoryParam * Z)) (before after : tmem) : Prop :=
  forall x, after x = before x \/
    ((forall p, p ∈ mutated l -> ~ area p x) /\ exists y, y ∈ sizes /\ covers (dest y.1) y.2 x).

(** The saved data put back. *)
Lemma saved_back m0 l svs m x : Forall2 (saved_from m0) (mutated l) svs -> Forall (fun p => 0 <= incoming_size (num_bytes p)) l ->
  (apply_records (zip (map dest (mutated l)) svs) m x = m0 x /\ exists p, p ∈ mutated l /\ area p x) \/
  (apply_records (zip (map dest (mutated l)) svs) m x = m x /\ forall p, p ∈ mutated l -> ~ area p x).
Proof.
  intros H Hn. assert (Forall (fun p => 0 <= incoming_size (num_bytes p)) (mutated l)) as Hn'.
  { rewrite Forall_forall in Hn |- *. intros p Hp. apply Hn. by apply filter_In in Hp as [? _]. }
  clear Hn. revert m. induction H as [|p sv l' svs Hp H IH]; intros m; [right; split; [done|]; intros p Hp; by apply elem_of_nil in Hp|].
  apply Forall_cons_1 in Hn' as [Hnp Hn']. specialize (IH Hn'). cbn [map zip]. rewrite apply_cons. cbn [fst snd].
  destruct (IH (overlay m (dest p) sv)) as [[E (q & Hq & Hx)]|[E Hno]].
  { left. split; [done|]. exists q. split; [by right|done]. }
  apply read_bytes_inv in Hp as [Hlen Hp]. destruct (covers_dec (dest p) (Z.of_nat (length sv)) x) as [Hc|Hc].
  - left. rewrite E, overlay_in by done. split; [by apply Hp|]. exists p. split; [left|]. unfold area, covers in *. lia.
  - right. rewrite E, overlay_out by done. split; [done|]. intros q [->|Hq]%elem_of_cons; [|by apply Hno].
    unfold area, covers in *. lia.
Qed.

Lemma moved_sizes l l' : Forall2 moved l l' -> Forall good_mutator l -> Forall (fun p => 0 <= incoming_size (num_bytes p)) l'.
Proof.
  intros H Hg. induction H as [|p q l l' Hpq H IH]; constructor; apply Forall_cons_1 in Hg as [Hp Hg]; [|auto].
  rewrite (mv_size _ _ Hpq). by destruct Hp.
Qed.

Lemma moved_dests l l' : Forall2 moved l l' -> Forall (fun p => dest p <> 0) l -> Forall (fun p => dest p <> 0) l'.
Proof.
  intros H Hg. induction H as [|p q l l' Hpq H IH]; constructor; apply Forall_cons_1 in Hg as [Hp Hg]; [|auto].
  by rewrite (mv_dest _ _ Hpq).
Qed.

Lemma placed_dests base top l : Forall (placed_param base top) l -> Forall (fun p => dest p <> 0) l.
Proof. intros H. eapply Forall_impl; [|exact H]. intros p []. lia. Qed.

Lemma call_direct s sw sw' s1 m r l wb no s3 :
  preparation_done s = false -> Forall (fun p => dest p <> 0) (param_list s) -> bytes_of (mem s) -> saved_data s = [] ->
  Forall good_mutator (param_list s) -> ForallOrdPairs disjoint_areas (mutated (param_list s)) ->
  done_preparing sw s = (Ok sw', s1) -> scratch_enabled s1 = false ->
  process_syscall_results (ended m r l wb no s1) = (Ok tt, s3) ->
  exists sizes recs, actual_sizes (mem s3) r [] (param_list s1) = Ok sizes /\
    records s3 = records s ++ recs /\ args s3 = l /\
    (kernel_wrote_direct (param_list s1) sizes (mem s1) m -> forall x, mem s3 x = apply_records recs (mem s) x).
Proof.
  intros Hpd Hds Hby Hsv Hgm Hdis Hd He H.
  apply done_preparing_direct in Hd as (sw1 & pl & svs & [a1 a2 a3 a4]); [|done..]. cbn [app] in a4.
  set (m1 := mem s1) in *. clearbody m1. cbn [saved_data mem set_switchable set_write_back set_preparation_done] in a2, a3, a4.
  rewrite Hsv in a4. cbn [app] in a4. unfold process_syscall_results in H. apply bind_Ok_inv in H as (d & t1 & [-> ->]%ask_inv & H).
  apply bind_Ok_inv in H as ([] & t1 & [_ ->]%ASSERT_Ok_inv & H). apply bind_Ok_inv in H as (e & t1 & [-> ->]%ask_inv & H).
  cbn [scratch_enabled ended kernel set_syscall_result set_mem set_args set_write_back set_original_syscallno] in H. rewrite He in H. apply bind_Ok_inv in H as ([] & t1 & Hf & H).
  apply emulation_frame in H as (E1 & E2 & E3). unfold finish_direct in Hf. apply bind_Ok_inv in Hf as (lx & t2 & [-> ->]%ask_inv & Hf).
  cbn [param_list ended kernel set_syscall_result set_mem set_args set_write_back set_original_syscallno] in Hf. apply bind_Ok_inv in Hf as ([] & t2 & Hu & Hf).
  pose proof (moved_sizes _ _ a1 Hgm) as Hsz. pose proof (moved_dests _ _ a1 Hds) as Hdl.
  assert (param_list s1 = pl) as Hl by by rewrite a4. rewrite Hl in *.
  apply (unmutate_all pl svs _ _ (mem s)) in Hu; [|done|done|by rewrite a4]. set (mr := apply_records _ _) in Hu.
  apply bind_Ok_inv in Hf as (sd & t3 & [-> ->]%ask_inv & Hf). apply bind_Ok_inv in Hf as ([] & t3 & [_ ->]%ASSERT_Ok_inv & Hf).
  apply record_all_inv in Hf as (tl & recs & R1 & R2 & R3); [|done]. rewrite Hu in R1, R2.
  cbn [mem syscall_result_signed set_saved_data set_mem ended kernel set_syscall_result set_args set_write_back set_original_syscallno app] in R1, R2.
  assert (mem s3 = mr /\ args s3 = l /\ records s3 = records s ++ recs) as (-> & -> & ->).
  { rewrite E1, E2, E3, R3, Hu, a4. done. }
  exists tl, recs. split_and!; try done. intros Hk x. symmetry. eapply records_complete; [exact R2|].
  destruct (saved_back (mem s) pl svs m x a2 Hsz) as [[E _]|[E Hno]];
    change (apply_records _ m) with mr in E; rewrite E; [by left|].
  destruct (Hk x) as [Hx|[_ Hx]]; [left|by right]. rewrite Hx. by apply a3.
Qed.

(** A system call on the tracee's own memory: when mutators save what they
    change and their parameters are disjoint, `process_syscall_results` puts the
    mutated inputs back, evaluates the sizes of all parameters and records them,
    and if the kernel wrote only within those sizes the memory is what it was
    with the recorded data applied. *)
Theorem direct_recorded s0 s sw sw' s1 m r s3 :
  starting s0 -> saved_data s0 = [] -> registers s0 s ->
  Forall good_mutator (param_list s) -> ForallOrdPairs disjoint_areas (mutated (param_list s)) ->
  done_preparing sw s = (Ok sw', s1) -> scratch_enabled s1 = false ->
  process_syscall_results (kernel m r s1) = (Ok tt, s3) ->
  exists sizes recs, actual_sizes (mem s3) r [] (param_list s1) = Ok sizes /\
    records s3 = records s0 ++ recs /\ args s3 = args s0 /\
    (kernel_wrote_direct (param_list s1) sizes (mem s1) m -> forall x, mem s3 x = apply_records recs (mem s0) x).
Proof.
  intros Hst Hsv Hreg Hgm Hdis Hd He H. pose proof (registers_registered _ _ Hreg Hst) as Hg. destruct (rg_same _ _ Hg) as (sc & l0 & Hs).
  assert (mem s = mem s0 /\ records s = records s0 /\ args s = args s0) as (<- & <- & <-) by by rewrite Hs.
  assert (args s1 = args s) as <-.
  { apply done_preparing_direct in Hd as (sw1 & l & svs & [_ _ _ a4]); [by rewrite a4|rewrite Hs; by destruct Hst..|done|done|done]. }
  rewrite <- ended_same in H.
  eapply call_direct; try done; rewrite ?Hs; try by destruct Hst. rewrite <- Hs. eapply placed_dests, rg_placed, Hg.
Qed.
