(* ===== verification/SyscallSockets.v ===== *)
(** * Preparation of socket and System V IPC calls

    [prepare_recvmsg], [prepare_recvmmsg], [prepare_setsockopt], [prepare_socketcall] and the
    [ctl] calls of record_syscall.cc, with the mutators that keep rr's signals unblocked.
    Structures are those of KernelAbi, for both architectures.  [sem_nsems] is the answer of
    the kernel when rr asks for the size of a set of semaphores; [blacklisted] says whether a
    socket address is one rr refuses to connect to. *)

From Stdlib Require Import String.
From stdpp Require Import base tactics list numbers.
From S2P Require Import Prelude TracerMonad KernelAbi SyscallParams.
Local Open Scope Z_scope.

(** ** Structures in the tracee *)

Definition off (name : string) (t : ctype) : Z := default 0 (offsetof name t).

(** [REMOTE_PTR_FIELD]. *)
Definition field_ptr (p : Z) (name : string) (t : ctype) : Z := u64 (p + off name t).

(** A field of [n] bytes of a structure that was read. *)
Definition field_of (data : list Z) (name : string) (n : nat) (t : ctype) : Z :=
  le_value (take n (drop (Z.to_nat (off name t)) data)).

Definition read_struct (p : Z) (t : ctype) : R (list Z) := read_bytes_helper p (sizeof t).

(** Parameters of a type, the default mode being [OUT]. *)
Definition reg_typed (n : nat) (t : ctype) (md : ArgMode) : R Z := reg_parameter n (of_size (sizeof t)) md None.
Definition reg_sized (n : nat) (size : ParamSize) : R Z := reg_parameter n size OUT None.
Definition mem_typed (p : Z) (t : ctype) (md : ArgMode) : R Z := mem_ptr_parameter p (of_size (sizeof t)) md None.
Definition mem_sized (p : Z) (size : ParamSize) : R Z := mem_ptr_parameter p size OUT None.

Definition from_initialized (p : Z) (n : nat) : R ParamSize := m ← ask mem; lift (from_initialized_mem m p n).

(** The arguments the call was made with. *)
Definition entry_arg (n : nat) : R Z := l ← ask syscall_entry_args; mret (arg l n).

Definition expect (errno : Z) : R unit := change (set_expect_errno errno).

Definition with_arg (n : nat) (v : Z) : R unit := change (fun s => set_args (set_arg n (u64 v) (args s)) s).

Definition EINVAL : Z := 22.
Definition ENOSYS : Z := 38.
Definition ENOPROTOOPT : Z := 92.
Definition MSG_DONTWAIT : Z := 0x40.

(** Errors are returned as negative numbers. *)
Definition failing (errno : Z) : Z := u64 (- errno).

(** ** Mutators *)

Definition SIGSTKFLT : Z := 16.
Definition SIGPWR : Z := 30.
Definition signal_bit (sig : Z) : Z := Z.shiftl 1 (sig - 1).
Definition rr_signal_mask : Z := Z.lor (signal_bit SIGSTKFLT) (signal_bit SIGPWR).

Definition protect_rr_sigs : ArgMutator := fun p m =>
  if p =? 0 then Ok None
  else
    sig_set ← read_word m p 8;
    let new_sig_set := Z.land sig_set (Z.lnot rr_signal_mask) in
    if sig_set =? new_sig_set then Ok None
    else
      m ← write_bytes m p (le_bytes 8 new_sig_set);
      Ok (Some (m, le_bytes 8 sig_set)).

(** The mask with its first word changed. *)
Definition unblocked (a : SupportedArch) (sa : list Z) : list Z :=
  let w := Z.to_nat (wordlen a) in
  let o := Z.to_nat (off "sa_mask" (kernel_sigaction a)) in
  let v := le_value (take w (drop o sa)) in
  take o sa ++ le_bytes w (Z.land v (Z.lnot rr_signal_mask)) ++ drop (o + w) sa.

(** [save] gets the structure after the change. *)
Definition protect_rr_sigs_sa_mask (a : SupportedArch) : ArgMutator := fun p m =>
  if p =? 0 then Ok None
  else
    sa ← read_bytes m p (sizeof (kernel_sigaction a));
    let new_sa := unblocked a sa in
    if bool_decide (sa = new_sa) then Ok None
    else
      m ← write_bytes m p new_sa;
      Ok (Some (m, new_sa)).

Section Sockets.
Context (a : SupportedArch) (blacklisted : list Z -> bool) (sem_nsems : Z -> option Z) (gettid : Z).

Let wl : nat := Z.to_nat (wordlen a).

(** ** Messages *)

(** The length of the [i]th of the [iovec]s that were read. *)
Definition iov_len (iovecs : list Z) (i : nat) : Z :=
  field_of (drop (i * Z.to_nat (sizeof (iovec a))) iovecs) "iov_len" wl (iovec a).

(** A buffer per [iovec]; [io_size] is the size they share. *)
Definition iovec_params (iovecsp : Z) (iovecs : list Z) (io_size : ParamSize) (n : Z) : R unit :=
  for_each (fun i =>
    mem_sized (field_ptr (u64 (iovecsp + Z.of_nat i * sizeof (iovec a))) "iov_base" (iovec a))
      (limit_size io_size (iov_len iovecs i));; mret tt) (seq 0 (Z.to_nat n)).

Definition prepare_recvmsg (msgp : Z) (io_size : ParamSize) : R unit :=
  namelen ← from_initialized (field_ptr msgp "msg_namelen" (msghdr a)) 4;
  mem_sized (field_ptr msgp "msg_name" (msghdr a)) namelen;;
  msg ← read_struct msgp (msghdr a);
  let msg_iovlen := field_of msg "msg_iovlen" wl (msghdr a) in
  iovecsp ← mem_ptr_parameter (field_ptr msgp "msg_iov" (msghdr a)) (of_size (sizeof (iovec a) * msg_iovlen)) IN None;
  iovecs ← read_bytes_helper iovecsp (sizeof (iovec a) * msg_iovlen);
  iovec_params iovecsp iovecs io_size msg_iovlen;;
  controllen ← from_initialized (field_ptr msgp "msg_controllen" (msghdr a)) wl;
  mem_sized (field_ptr msgp "msg_control" (msghdr a)) controllen;;
  mret tt.

Definition prepare_recvmmsg (mmsgp vlen : Z) : R unit :=
  for_each (fun i =>
    let msgp := u64 (mmsgp + Z.of_nat i * sizeof (mmsghdr a)) in
    prepare_recvmsg (field_ptr msgp "msg_hdr" (mmsghdr a)) (from_mem (field_ptr msgp "msg_len" (mmsghdr a)) 4))
    (seq 0 (Z.to_nat vlen)).

(** ** Socket options *)

Definition SOL_PACKET : Z := 263.
Definition PACKET_RX_RING : Z := 5.
Definition PACKET_TX_RING : Z := 13.
Definition IPPROTO_IP : Z := 0.
Definition IPPROTO_IPV6 : Z := 41.
Definition SO_SET_REPLACE : Z := 64.

Definition block_sock_opt (level optname : Z) : R bool :=
  if (level =? SOL_PACKET) && ((optname =? PACKET_RX_RING) || (optname =? PACKET_TX_RING)) then
    emulate_result (failing ENOPROTOOPT);; mret true
  else mret false.

(** [level], [optname] and [optlen] are [signed_long]s, the first two passed on as [int]s. *)
Definition prepare_setsockopt (level optname optval optlen : Z) : R Switchable :=
  blocked ← block_sock_opt (s32 level) (s32 optname);
  (if blocked : bool then with_arg 1 (-1)
   else if ((level =? IPPROTO_IP) || (level =? IPPROTO_IPV6)) && (optname =? SO_SET_REPLACE) &&
           negb (optlen <? sizeof (ipt_replace a)) then
     m ← ask mem;
     num_counters ← lift (read_word m (field_ptr optval "num_counters" (ipt_replace a)) 4);
     mem_sized (field_ptr optval "counters" (ipt_replace a)) (of_size (num_counters * sizeof (xt_counters a)));;
     mret tt
   else mret tt);;
  mret PREVENT_SWITCH.

(** The address is read as far as it can be. *)
Fixpoint read_bytes_fallible (m : tmem) (p : Z) (n : nat) : list Z :=
  match n with
  | O => []
  | S n => match m p with Some b => b :: read_bytes_fallible m (p + 1) n | None => [] end
  end.

Definition AF_UNIX : Z := 1.

(** [sizeof(struct sockaddr_un)] is 110; the rest of it is zero, its last byte is cleared. *)
Definition maybe_blacklist_connect (addr_ptr addrlen : Z) : R Switchable :=
  m ← ask mem;
  let l := read_bytes_fallible m addr_ptr (Z.to_nat (Z.min 110 (u32 addrlen))) in
  let addr := <[109%nat := 0]> (take 110 (l ++ repeat 0 110)) in
  (if (le_value (take 2 addr) =? AF_UNIX) && blacklisted (drop 2 addr) then change (set_original_syscallno gettid) else mret tt);;
  mret PREVENT_SWITCH.

(** ** socketcall *)

Definition SYS_SOCKET : Z := 1.
Definition SYS_BIND : Z := 2.
Definition SYS_CONNECT : Z := 3.
Definition SYS_LISTEN : Z := 4.
Definition SYS_ACCEPT : Z := 5.
Definition SYS_GETSOCKNAME : Z := 6.
Definition SYS_GETPEERNAME : Z := 7.
Definition SYS_SOCKETPAIR : Z := 8.
Definition SYS_SEND : Z := 9.
Definition SYS_RECV : Z := 10.
Definition SYS_SENDTO : Z := 11.
Definition SYS_RECVFROM : Z := 12.
Definition SYS_SHUTDOWN : Z := 13.
Definition SYS_SETSOCKOPT : Z := 14.
Definition SYS_GETSOCKOPT : Z := 15.
Definition SYS_SENDMSG : Z := 16.
Definition SYS_RECVMSG : Z := 17.
Definition SYS_ACCEPT4 : Z := 18.
Definition SYS_RECVMMSG : Z := 19.
Definition SYS_SENDMMSG : Z := 20.

(** A call that waits unless it is told not to. *)
Definition may_block (flags : Z) : Switchable :=
  if Z.land flags MSG_DONTWAIT =? 0 then ALLOW_SWITCH else PREVENT_SWITCH.

(** A length and a buffer of that length, both by pointers in the arguments. *)
Definition sized_buffer (argsp : Z) (t : ctype) (len buf : string) : R unit :=
  len_ptr ← mem_ptr_parameter (field_ptr argsp len t) (of_size 4) IN_OUT None;
  size ← from_initialized len_ptr 4;
  mem_sized (field_ptr argsp buf t) size;;
  mret tt.

(** A [signed_long] field. *)
Definition long_field (data : list Z) (name : string) (t : ctype) : Z :=
  wraps (8 * wordlen a) (field_of data name wl t).

Definition prepare_socketcall : R Switchable :=
  call ← entry_arg 1;
  let call := s32 call in
  if existsb (Z.eqb call) [SYS_SOCKET; SYS_BIND; SYS_LISTEN; SYS_SHUTDOWN] then mret PREVENT_SWITCH
  else if call =? SYS_CONNECT then
    argsp ← reg_typed 2 (connect_args a) IN;
    args ← read_struct argsp (connect_args a);
    maybe_blacklist_connect (field_of args "addr" wl (connect_args a)) (field_of args "addrlen" 4 (connect_args a))
  else if (call =? SYS_SEND) || (call =? SYS_SENDTO) then mret ALLOW_SWITCH
  else if call =? SYS_SETSOCKOPT then
    argsp ← reg_typed 2 (setsockopt_args a) IN;
    args ← read_struct argsp (setsockopt_args a);
    prepare_setsockopt (long_field args "level" (setsockopt_args a)) (long_field args "optname" (setsockopt_args a))
      (field_of args "optval" wl (setsockopt_args a)) (long_field args "optlen" (setsockopt_args a))
  else if call =? SYS_GETSOCKOPT then
    argsp ← reg_typed 2 (getsockopt_args a) IN;
    sized_buffer argsp (getsockopt_args a) "optlen" "optval";;
    mret PREVENT_SWITCH
  else if call =? SYS_SOCKETPAIR then
    argsp ← reg_typed 2 (socketpair_args a) IN;
    mem_sized (field_ptr argsp "sv" (socketpair_args a)) (of_size (4 * 2));;
    mret PREVENT_SWITCH
  else if (call =? SYS_GETPEERNAME) || (call =? SYS_GETSOCKNAME) then
    argsp ← reg_typed 2 (getsockname_args a) IN;
    sized_buffer argsp (getsockname_args a) "addrlen" "addr";;
    mret PREVENT_SWITCH
  else if call =? SYS_RECV then
    argsp ← reg_typed 2 (recv_args a) IN;
    args ← read_struct argsp (recv_args a);
    mem_sized (field_ptr argsp "buf" (recv_args a)) (from_syscall_result_max wl (field_of args "len" wl (recv_args a)));;
    mret ALLOW_SWITCH
  else if call =? SYS_ACCEPT then
    argsp ← reg_typed 2 (accept_args a) IN;
    sized_buffer argsp (accept_args a) "addrlen" "addr";;
    mret ALLOW_SWITCH
  else if call =? SYS_ACCEPT4 then
    argsp ← reg_typed 2 (accept4_args a) IN;
    sized_buffer argsp (accept4_args a) "addrlen" "addr";;
    mret ALLOW_SWITCH
  else if call =? SYS_RECVFROM then
    argsp ← reg_typed 2 (recvfrom_args a) IN;
    args ← read_struct argsp (recvfrom_args a);
    mem_sized (field_ptr argsp "buf" (recvfrom_args a)) (from_syscall_result_max wl (field_of args "len" wl (recvfrom_args a)));;
    sized_buffer argsp (recvfrom_args a) "addrlen" "src_addr";;
    mret ALLOW_SWITCH
  else if call =? SYS_RECVMSG then
    argsp ← reg_typed 2 (recvmsg_args a) IN;
    msgp ← mem_typed (field_ptr argsp "msg" (recvmsg_args a)) (msghdr a) IN_OUT;
    prepare_recvmsg msgp (from_syscall_result wl);;
    args ← read_struct argsp (recvmsg_args a);
    mret (may_block (field_of args "flags" 4 (recvmsg_args a)))
  else if call =? SYS_RECVMMSG then
    argsp ← reg_typed 2 (recvmmsg_args a) IN;
    args ← read_struct argsp (recvmmsg_args a);
    let vlen := field_of args "vlen" 4 (recvmmsg_args a) in
    mmsgp ← mem_ptr_parameter (field_ptr argsp "msgvec" (recvmmsg_args a)) (of_size (sizeof (mmsghdr a) * vlen)) IN_OUT None;
    prepare_recvmmsg mmsgp vlen;;
    mret (may_block (field_of args "flags" 4 (recvmmsg_args a)))
  else if call =? SYS_SENDMSG then
    argsp ← ask (fun s => arg (args s) 2);
    args ← read_struct argsp (sendmsg_args a);
    mret (may_block (field_of args "flags" 4 (sendmsg_args a)))
  else if call =? SYS_SENDMMSG then
    argsp ← reg_typed 2 (sendmmsg_args a) IN;
    args ← read_struct argsp (sendmmsg_args a);
    let vlen := field_of args "vlen" 4 (sendmmsg_args a) in
    mem_ptr_parameter (field_ptr argsp "msgvec" (sendmmsg_args a)) (of_size (sizeof (mmsghdr a) * vlen)) IN_OUT None;;
    mret (may_block (field_of args "flags" 4 (sendmmsg_args a)))
  else expect EINVAL;; mret PREVENT_SWITCH.

(** ** System V IPC *)

Definition IPC_RMID : Z := 0.
Definition IPC_SET : Z := 1.
Definition IPC_STAT : Z := 2.
Definition IPC_INFO : Z := 3.
Definition MSG_STAT : Z := 11.
Definition MSG_INFO : Z := 12.
Definition SHM_LOCK : Z := 11.
Definition SHM_UNLOCK : Z := 12.
Definition SHM_STAT : Z := 13.
Definition SHM_INFO : Z := 14.
Definition GETPID : Z := 11.
Definition GETVAL : Z := 12.
Definition GETALL : Z := 13.
Definition GETNCNT : Z := 14.
Definition GETZCNT : Z := 15.
Definition SETVAL : Z := 16.
Definition SETALL : Z := 17.
Definition SEM_STAT : Z := 18.
Definition SEM_INFO : Z := 19.

Definition prepare_msgctl (cmd : Z) (ptr_reg : nat) : R Switchable :=
  (if (cmd =? IPC_STAT) || (cmd =? MSG_STAT) then reg_typed ptr_reg (msqid64_ds a) OUT;; mret tt
   else if (cmd =? IPC_INFO) || (cmd =? MSG_INFO) then reg_typed ptr_reg (msginfo a) OUT;; mret tt
   else if (cmd =? IPC_SET) || (cmd =? IPC_RMID) then mret tt
   else expect EINVAL);;
  mret PREVENT_SWITCH.

Definition prepare_shmctl (cmd : Z) (ptr_reg : nat) : R Switchable :=
  (if existsb (Z.eqb cmd) [IPC_SET; IPC_RMID; SHM_LOCK; SHM_UNLOCK] then mret tt
   else if (cmd =? IPC_STAT) || (cmd =? SHM_STAT) then reg_typed ptr_reg (shmid64_ds a) OUT;; mret tt
   else if cmd =? IPC_INFO then reg_typed ptr_reg (shminfo64 a) OUT;; mret tt
   else if cmd =? SHM_INFO then reg_typed ptr_reg (shm_info a) OUT;; mret tt
   else expect EINVAL);;
  mret PREVENT_SWITCH.

Inductive SemctlDereference := DEREFERENCE | USE_DIRECTLY.

(** A parameter by the register itself or by a pointer to it. *)
Definition sem_param (deref : SemctlDereference) (ptr_reg : nat) (size : ParamSize) : R unit :=
  match deref with
  | DEREFERENCE => p ← reg_typed ptr_reg (word a) OUT; mem_sized p size;; mret tt
  | USE_DIRECTLY => reg_sized ptr_reg size;; mret tt
  end.

Definition prepare_semctl (semid cmd : Z) (ptr_reg : nat) (deref : SemctlDereference) : R Switchable :=
  (if existsb (Z.eqb cmd) [IPC_SET; IPC_RMID; GETNCNT; GETPID; GETVAL; GETZCNT; SETALL; SETVAL] then mret tt
   else if (cmd =? IPC_STAT) || (cmd =? SEM_STAT) then sem_param deref ptr_reg (of_size (sizeof (semid64_ds a)))
   else if (cmd =? IPC_INFO) || (cmd =? SEM_INFO) then sem_param deref ptr_reg (of_size (sizeof (seminfo a)))
   else if cmd =? GETALL then
     match sem_nsems semid with
     | Some n => sem_param deref ptr_reg (of_size (2 * n))
     | None => fail FailedAssert
     end
   else expect EINVAL);;
  mret PREVENT_SWITCH.

End Sockets.
