(* ===== verification/SyscallPrepare.v ===== *)
(** * Preparation of recorded system calls

    The cases of [rec_prepare_syscall_arch] in record_syscall.cc that work on registers, memory
    parameters and the task itself.  A case is a function of the system call; [RecordEnv] is
    what they ask other parts of rr: the table of descriptors with its monitors, and the
    session.  The calls that act on other tasks (clone, exit, execve, the wait family, ptrace,
    setpriority, sched_yield), on the address space (mmap, mprotect) or on path names (open,
    memfd_create), perf_event_open and ioctl are not here. *)

From Stdlib Require Import String.
From stdpp Require Import base tactics list numbers.
From S2P Require Import Prelude TracerMonad KernelAbi SyscallParams SyscallSockets.
Local Open Scope Z_scope.

(** What the cases ask of the descriptor table and the session. *)
Record RecordEnv := {
  is_rr_fd : Z -> bool;
  is_monitoring : Z -> bool;
  emulate_fcntl : Z -> option Z;
  emulate_read : Z -> list (Z * Z) -> option Z;
  will_write : Z -> Switchable;
  has_cpuid_faulting : bool;
  enable_chaos : bool;
  done_initial_exec : bool;
  semaphores : Z -> option Z;
  blacklisted_socket : list Z -> bool;
  gettid_number : Z;
  rec_tid : Z;
  pretend_affinity_mask : list Z }.

(** The calls, by their names in [Arch]. *)
Inductive syscall :=
| sys_splice | sys_sendfile | sys_sendfile64 | sys_capget | sys_fcntl | sys_futex | sys_getrandom | sys_thread_area | sys_ipc | sys_msgctl | sys_msgrcv
| sys_blocking | sys_sysfs | sys_socketcall | sys_select | sys_newselect | sys_pselect6 | sys_recvfrom | sys_recvmsg | sys_recvmmsg | sys_sendto | sys_sendmsg | sys_sendmmsg
| sys_getsockname | sys_setsockopt | sys_getsockopt | sys_read | sys_accept | sys_getcwd | sys_getdents | sys_readlink | sys_readlinkat | sys_io_setup
| sys_getgroups | sys_getgroups32 | sys_write | sys_copy_file_range | sys_readv | sys_pause | sys_ppoll | sys_poll | sys_connect | sys_close | sys_dup2 | sys_prctl
| sys_arch_prctl | sys_sysctl | sys_quotactl | sys_keyctl | sys_epoll_wait | sys_epoll_pwait | sys_nanosleep | sys_clock_nanosleep | sys_rt_sigpending
| sys_rt_sigtimedwait | sys_rt_sigprocmask | sys_rt_sigaction | sys_getxattr | sys_listxattr | sys_sched_setaffinity | sys_sched_getaffinity | sys_mincore
| sys_shmctl | sys_semctl | sys_seccomp | sys_get_mempolicy | sys_madvise | sys_personality | sys_rrcall_init_preload | sys_unmanaged
| sys_sigsuspend | sys_mq_timedreceive | sys_modify_ldt | sys_name_to_handle_at | sys_unknown.

Section Prepare.
Context (a : SupportedArch) (env : RecordEnv).

Let wl : nat := Z.to_nat (wordlen a).

Definition arg_signed (v : Z) : Z := wraps (8 * wordlen a) v.

(** The call does not happen, the tracee sees [result]. *)
Definition not_performed (n : nat) (v result : Z) : R Switchable :=
  with_arg n v;; emulate_result result;; mret PREVENT_SWITCH.

Definition invalidate_sigmask : R unit := change (set_blocked_sigs_dirty true).

Definition one_of (v : Z) (l : list Z) : bool := existsb (Z.eqb v) l.

(** ** Data a monitor produced *)

Fixpoint record_ranges (ranges : list (Z * Z)) (s : Z) : R unit :=
  match ranges with
  | [] => mret tt
  | (data, length) :: ranges =>
      let bytes := Z.min s length in
      (if 0 <? bytes then record_remote data bytes else mret tt);;
      record_ranges ranges (if 0 <? bytes then s - bytes else s)
  end.

(** A read a monitor may answer. *)
Definition emulated_read (fd : Z) (ranges : list (Z * Z)) (k : R Switchable) : R Switchable :=
  match emulate_read env fd ranges with
  | Some result => with_arg 1 (-1);; record_ranges ranges result;; emulate_result result;; mret PREVENT_SWITCH
  | None => k
  end.

(** ** Capabilities *)

Definition capability_structs (version : Z) : Z :=
  if version =? 0x19980330 then 1 else if version =? 0x20071026 then 2 else if version =? 0x20080522 then 2 else 0.

Definition prepare_capget : R Switchable :=
  hdrp ← reg_typed 1 (__user_cap_header_struct a) IN_OUT;
  hdr ← read_struct hdrp (__user_cap_header_struct a);
  let struct_count := capability_structs (field_of hdr "version" 4 (__user_cap_header_struct a)) in
  (if 0 <? struct_count then reg_sized 2 (of_size (sizeof (__user_cap_data_struct a) * struct_count));; mret tt else mret tt);;
  mret PREVENT_SWITCH.

(** ** fcntl *)

(** [DUPFD], [DUPFD_CLOEXEC], [GETFD], [GETFL], [SETFL], [SETLK], [SETLK64], [OFD_SETLK], [SETOWN], [SETOWN_EX], [GETSIG],
    [SETSIG], [SETPIPE_SZ], [GETPIPE_SZ], [ADD_SEALS], [SET_RW_HINT], [SET_FILE_RW_HINT] *)
Definition fcntl_plain : list Z := [0; 1030; 1; 3; 4; 6; 13; 37; 8; 15; 11; 10; 1031; 1032; 1033; 1036; 1038].

Definition prepare_fcntl : R Switchable :=
  fd ← entry_arg 1; cmd ← entry_arg 2;
  let fd := s32 fd in let cmd := s32 cmd in
  match emulate_fcntl env fd with
  | Some result => not_performed 1 (-1) result
  | None =>
      if one_of cmd fcntl_plain then mret PREVENT_SWITCH
      else if cmd =? F_SETFD then
        if is_rr_fd env fd then not_performed 1 (-1) 0 else mret PREVENT_SWITCH
      else if cmd =? F_GETLK then reg_typed 3 (_flock a) IN_OUT;; mret PREVENT_SWITCH
      else if one_of cmd [36; 12] then reg_typed 3 (flock64 a) IN_OUT;; mret PREVENT_SWITCH
      else if cmd =? F_GETOWN_EX then reg_typed 3 (f_owner_ex a) OUT;; mret PREVENT_SWITCH
      else if one_of cmd [F_SETLKW; 14; 38] then mret ALLOW_SWITCH
      else if one_of cmd [1035; 1037] then reg_sized 3 (of_size 8);; mret PREVENT_SWITCH
      else expect EINVAL;; mret PREVENT_SWITCH
  end.

(** ** futex *)

Definition FUTEX_CMD_MASK : Z := Z.lnot (Z.lor 128 256).

Definition prepare_futex : R Switchable :=
  op ← entry_arg 2;
  let cmd := Z.land (s32 op) FUTEX_CMD_MASK in
  if one_of cmd [0; 9] then mret ALLOW_SWITCH
  else if one_of cmd [4; 5] then reg_parameter 5 (of_size 4) IN_OUT_NO_SCRATCH None;; mret PREVENT_SWITCH
  else if one_of cmd [1; 10] then mret PREVENT_SWITCH
  else if one_of cmd [6; 7; 8; 12; 11] then not_performed 2 (-1) (failing ENOSYS)
  else expect EINVAL;; mret PREVENT_SWITCH.

(** ** ipc *)

Definition IPC_64 : Z := 0x100.

Definition ipc_cmd (v : Z) : Z := Z.land (s32 v) (Z.lnot IPC_64).

Definition prepare_ipc : R Switchable :=
  call ← entry_arg 1; arg2 ← entry_arg 2; arg3 ← entry_arg 3; arg4 ← entry_arg 4;
  let call := s32 call in
  if one_of call [13; 22; 23; 2] then mret PREVENT_SWITCH
  else if call =? 14 then prepare_msgctl a (ipc_cmd arg3) 5
  else if one_of call [11; 1; 4] then mret ALLOW_SWITCH
  else if call =? 12 then
    kluge_args ← reg_typed 5 (ipc_kludge_args a) IN;
    mem_sized (field_ptr kluge_args "msgbuf" (ipc_kludge_args a)) (of_size (wordlen a + arg3));;
    mret ALLOW_SWITCH
  else if call =? 21 then reg_typed 4 (word a) OUT;; mret PREVENT_SWITCH
  else if call =? 24 then prepare_shmctl a (ipc_cmd arg3) 5
  else if call =? 3 then prepare_semctl a (semaphores env) (s32 arg2) (ipc_cmd arg4) 5 DEREFERENCE
  else expect EINVAL;; mret PREVENT_SWITCH.

Definition prepare_sysfs : R Switchable :=
  option ← entry_arg 1; buf ← entry_arg 3; m ← ask mem;
  let option := s32 option in
  (if one_of option [1; 3] then mret tt
   else if option =? 2 then
     let bytes := Z.of_nat (length (read_bytes_fallible m buf 1024)) in
     if 0 <? bytes then reg_sized 3 (of_size bytes);; mret tt else mret tt
   else expect EINVAL);;
  mret PREVENT_SWITCH.

(** ** Waiting for descriptors *)

(** On x86 [select] takes one pointer to its arguments. *)
Definition prepare_select (struct_arguments : bool) : R Switchable :=
  (if struct_arguments then
     argsp ← reg_typed 1 (select_args a) IN;
     mem_typed (field_ptr argsp "read_fds" (select_args a)) (fd_set a) IN_OUT;;
     mem_typed (field_ptr argsp "write_fds" (select_args a)) (fd_set a) IN_OUT;;
     mem_typed (field_ptr argsp "except_fds" (select_args a)) (fd_set a) IN_OUT;;
     mem_typed (field_ptr argsp "timeout" (select_args a)) (timeval a) IN_OUT;; mret tt
   else
     reg_typed 2 (fd_set a) IN_OUT;; reg_typed 3 (fd_set a) IN_OUT;; reg_typed 4 (fd_set a) IN_OUT;;
     reg_typed 5 (timeval a) IN_OUT;; mret tt);;
  mret ALLOW_SWITCH.

Definition prepare_pselect6 : R Switchable :=
  reg_typed 2 (fd_set a) IN_OUT;;
  reg_typed 3 (fd_set a) IN_OUT;;
  reg_typed 4 (fd_set a) IN_OUT;;
  reg_typed 5 (timespec a) IN_OUT;;
  arg6p ← reg_typed 6 (pselect6_arg6 a) IN;
  mem_ptr_parameter (field_ptr arg6p "ss" (pselect6_arg6 a)) (of_size (sizeof (kernel_sigset_t a))) IN (Some protect_rr_sigs);;
  invalidate_sigmask;;
  mret ALLOW_SWITCH.

Definition prepare_poll : R Switchable :=
  nfds ← entry_arg 2;
  reg_parameter 1 (of_size (sizeof (pollfd a) * nfds)) IN_OUT None;;
  mret ALLOW_SWITCH.

Definition prepare_ppoll : R Switchable :=
  reg_typed 3 (timespec a) IN_OUT;;
  reg_parameter 4 (of_size (sizeof (kernel_sigset_t a))) IN (Some protect_rr_sigs);;
  invalidate_sigmask;;
  prepare_poll.

(** ** Sockets *)

(** A length and a buffer of that length, both in registers. *)
Definition sized_register (len buf : nat) : R unit :=
  addrlen_ptr ← reg_parameter len (of_size 4) IN_OUT None;
  size ← from_initialized addrlen_ptr 4;
  reg_sized buf size;; mret tt.

Definition prepare_recvfrom : R Switchable :=
  arg3 ← entry_arg 3;
  reg_sized 2 (from_syscall_result_max wl arg3);;
  sized_register 6 5;;
  mret ALLOW_SWITCH.

Definition prepare_recvmsg_call : R Switchable :=
  flags ← entry_arg 3;
  msgp ← reg_typed 2 (msghdr a) IN_OUT;
  prepare_recvmsg a msgp (from_syscall_result wl);;
  mret (may_block (s32 flags)).

Definition prepare_recvmmsg_call : R Switchable :=
  arg3 ← entry_arg 3; flags ← entry_arg 4;
  let vlen := u32 arg3 in
  mmsgp ← reg_parameter 2 (of_size (sizeof (mmsghdr a) * vlen)) IN_OUT None;
  prepare_recvmmsg a mmsgp vlen;;
  mret (may_block (u32 flags)).

Definition prepare_sendmmsg : R Switchable :=
  arg3 ← entry_arg 3; flags ← entry_arg 4;
  reg_parameter 2 (of_size (sizeof (mmsghdr a) * u32 arg3)) IN_OUT None;;
  mret (may_block (u32 flags)).

(** The arguments are stored in [signed_long]s. *)
Definition prepare_setsockopt_call : R Switchable :=
  level ← entry_arg 2; optname ← entry_arg 3; optval ← entry_arg 4; optlen ← entry_arg 5;
  prepare_setsockopt a (arg_signed level) (arg_signed optname) optval (arg_signed optlen).

(** ** Reading *)

Definition prepare_read : R Switchable :=
  fd ← entry_arg 1; buf ← entry_arg 2; count ← entry_arg 3;
  emulated_read (s32 fd) [(buf, count)]
    (reg_sized 2 (from_syscall_result_max wl count);; mret ALLOW_SWITCH).

(** The buffers of the [iovec]s that were read. *)
Definition iov_ranges (iovecs : list Z) (n : Z) : list (Z * Z) :=
  map (fun i => (field_of (drop (i * Z.to_nat (sizeof (iovec a))) iovecs) "iov_base" wl (iovec a), iov_len a iovecs i))
    (seq 0 (Z.to_nat n)).

Definition prepare_readv : R Switchable :=
  fd ← entry_arg 1; cnt ← entry_arg 3;
  let iovcnt := s32 cnt in
  iovecsp ← reg_parameter 2 (of_size (sizeof (iovec a) * iovcnt)) IN None;
  iovecs ← read_bytes_helper iovecsp (sizeof (iovec a) * iovcnt);
  emulated_read (s32 fd) (iov_ranges iovecs iovcnt)
    (iovec_params a iovecsp iovecs (from_syscall_result wl) iovcnt;; mret ALLOW_SWITCH).

(** A buffer in register [n] whose size is in register [k], of which the result says how much was used. *)
Definition result_buffer (n k : nat) (bytes : nat) (sw : Switchable) : R Switchable :=
  len ← entry_arg k;
  reg_sized n (from_syscall_result_max bytes len);;
  mret sw.

(** The same with an [unsigned int] size. *)
Definition result_buffer_uint (n k : nat) (sw : Switchable) : R Switchable :=
  len ← entry_arg k;
  reg_sized n (from_syscall_result_max 4 (u32 len));;
  mret sw.

(** A fixed number of elements. *)
Definition counted_buffer (n : nat) (size count : Z) (sw : Switchable) : R Switchable :=
  reg_sized n (of_size (size * count));; mret sw.

Definition gid_size : Z := match a with x86 => 2 | x86_64 => 4 end.

Definition prepare_copy_file_range : R Switchable :=
  in_fd ← entry_arg 1; out_fd ← entry_arg 3;
  reg_parameter 2 (of_size 8) IN_OUT None;;
  reg_parameter 4 (of_size 8) IN_OUT None;;
  ASSERT (negb (is_monitoring env (s32 in_fd)) && negb (is_monitoring env (s32 out_fd)));;
  mret ALLOW_SWITCH.

(** ** prctl *)

Definition PR_TSC_ENABLE : Z := 1.
Definition PR_TSC_SIGSEGV : Z := 2.

(** [PR_GET_CHILD_SUBREAPER], [PR_GET_ENDIAN], [PR_GET_FPEMU], [PR_GET_FPEXC], [PR_GET_PDEATHSIG], [PR_GET_UNALIGN] *)
Definition prctl_out : list Z := [37; 19; 9; 11; 2; 5].
(** [PR_GET_KEEPCAPS], [PR_GET_NO_NEW_PRIVS], [PR_GET_TIMERSLACK], [PR_MCE_KILL], [PR_MCE_KILL_GET], [PR_SET_CHILD_SUBREAPER],
    [PR_SET_KEEPCAPS], [PR_SET_NAME], [PR_SET_PDEATHSIG], [PR_SET_TIMERSLACK], [PR_CAP_AMBIENT], [PR_CAPBSET_DROP],
    [PR_CAPBSET_READ], [PR_GET_SPECULATION_CTRL], [PR_SET_SPECULATION_CTRL] *)
Definition prctl_plain : list Z := [7; 39; 30; 33; 34; 36; 8; 15; 1; 29; 47; 24; 23; 52; 53].

Definition prctl_set_dumpable (arg2 : Z) : R unit :=
  if arg2 =? 0 then with_arg 1 (-1);; emulate_result 0;; change (set_dumpable false)
  else if arg2 =? 1 then change (set_dumpable true)
  else mret tt.

Definition prctl_get_tsc : R unit :=
  with_arg 1 (-1);;
  emulate_result 0;;
  p ← reg_parameter 2 (of_size 4) IN_OUT_NO_SCRATCH None;
  v ← ask tsc_mode;
  write_bytes_helper p (le_bytes 4 v).

Definition prctl_set_tsc (arg2 : Z) : R unit :=
  with_arg 1 (-1);;
  let val := s32 arg2 in
  if negb (val =? PR_TSC_ENABLE) && negb (val =? PR_TSC_SIGSEGV) then emulate_result (failing EINVAL)
  else emulate_result 0;; change (set_tsc_mode val).

Definition prctl_set_seccomp (arg2 : Z) : R unit :=
  if arg2 =? 1 then mret tt
  else if arg2 =? 2 then if done_initial_exec env then with_arg 1 (-1) else mret tt
  else expect EINVAL.

Definition prepare_prctl : R Switchable :=
  option ← entry_arg 1; arg2 ← entry_arg 2;
  let option := s32 option in
  (if one_of option prctl_out then reg_sized 2 (of_size 4);; mret tt
   else if one_of option prctl_plain then mret tt
   else if option =? 4 then prctl_set_dumpable arg2
   else if option =? 3 then d ← ask dumpable; emulate_result (b2z d)
   else if option =? 21 then v ← ask prctl_seccomp_status; emulate_result v
   else if option =? 25 then prctl_get_tsc
   else if option =? 26 then prctl_set_tsc arg2
   else if option =? 16 then reg_sized 2 (of_size 16);; mret tt
   else if option =? 38 then if arg2 =? 1 then mret tt else expect EINVAL
   else if option =? 22 then prctl_set_seccomp arg2
   else if option =? 0x59616d61 then with_arg 1 (-1);; emulate_result 0
   else expect EINVAL);;
  mret PREVENT_SWITCH.

Definition prepare_arch_prctl : R Switchable :=
  code ← entry_arg 1; arg2 ← entry_arg 2;
  let code := s32 code in
  (if one_of code [0x1002; 0x1001] then mret tt
   else if one_of code [0x1003; 0x1004] then reg_typed 2 (word a) OUT;; mret tt
   else if code =? 0x1012 then
     if has_cpuid_faulting env then
       with_arg 1 (-1);; change (set_cpuid_mode (negb (s32 arg2 =? 0)));; emulate_result 0
     else mret tt
   else if code =? 0x1011 then
     if has_cpuid_faulting env then
       with_arg 1 (-1);; v ← ask cpuid_mode; emulate_result (b2z v)
     else mret tt
   else expect EINVAL);;
  mret PREVENT_SWITCH.

(** ** Other commands *)

Definition prepare_sysctl : R Switchable :=
  argsp ← reg_typed 1 (__sysctl_args a) IN;
  oldlenp ← mem_ptr_parameter (field_ptr argsp "oldlenp" (__sysctl_args a)) (of_size (wordlen a)) IN_OUT None;
  size ← from_initialized oldlenp wl;
  mem_sized (field_ptr argsp "oldval" (__sysctl_args a)) size;;
  mret PREVENT_SWITCH.

Definition SUBCMDSHIFT : Z := 8.

Definition prepare_quotactl : R Switchable :=
  cmd ← entry_arg 1;
  let cmd := Z.shiftr cmd SUBCMDSHIFT in
  (if cmd =? 0x800007 then reg_typed 4 (dqblk a) OUT;; mret tt
   else if cmd =? 0x800005 then reg_typed 4 (dqinfo a) OUT;; mret tt
   else if cmd =? 0x800004 then reg_sized 4 (of_size 4);; mret tt
   else if cmd =? 0x800008 then fail Fatal
   else mret tt);;
  mret PREVENT_SWITCH.

(** [KEYCTL_GET_KEYRING_ID], [JOIN_SESSION_KEYRING], [UPDATE], [REVOKE], [CHOWN], [SETPERM], [CLEAR], [LINK], [UNLINK], [SEARCH],
    [INSTANTIATE], [INSTANTIATE_IOV], [NEGATE], [REJECT], [SET_REQKEY_KEYRING], [SET_TIMEOUT], [ASSUME_AUTHORITY],
    [SESSION_TO_PARENT], [INVALIDATE] *)
Definition keyctl_plain : list Z := [0; 1; 2; 3; 4; 5; 7; 8; 9; 10; 12; 20; 13; 19; 14; 15; 16; 18; 21].

Definition prepare_keyctl : R Switchable :=
  cmd ← entry_arg 1; arg4 ← entry_arg 4;
  let cmd := s32 cmd in
  (if one_of cmd keyctl_plain then mret tt
   else if one_of cmd [6; 11; 17; 23] then reg_sized 3 (from_syscall_result_max wl arg4);; mret tt
   else expect EINVAL);;
  mret PREVENT_SWITCH.

Definition prepare_seccomp : R Switchable :=
  op ← entry_arg 1;
  let op := u32 op in
  (if op =? 0 then mret tt else if op =? 1 then with_arg 1 (-1) else expect EINVAL);;
  mret PREVENT_SWITCH.

(** [unsigned long] is that of rr, 64 bits. *)
Definition prepare_get_mempolicy : R Switchable :=
  maxnode ← ask (fun s => arg (args s) 3);
  reg_sized 1 (of_size 4);;
  let align_mask := 8 * wordlen a - 1 in
  let aligned_maxnode := Z.land (u64 (maxnode + align_mask)) (Z.lnot align_mask) in
  reg_sized 2 (of_size (aligned_maxnode / 8));;
  mret PREVENT_SWITCH.

(** [MADV_NORMAL] to [MADV_WILLNEED], [DONTNEED], [REMOVE], [DONTFORK], [DOFORK], [SOFT_OFFLINE], [HWPOISON], [MERGEABLE],
    [UNMERGEABLE], [HUGEPAGE], [NOHUGEPAGE], [DONTDUMP], [DODUMP]; [MADV_FREE] is 8. *)
Definition madvise_plain : list Z := [0; 1; 2; 3; 4; 9; 10; 11; 101; 100; 12; 13; 14; 15; 16; 17].

Definition prepare_madvise : R Switchable :=
  advice ← entry_arg 3;
  let advice := s32 advice in
  (if one_of advice madvise_plain then mret tt else if advice =? 8 then with_arg 3 (-1) else expect EINVAL);;
  mret PREVENT_SWITCH.

(** [ADDR_COMPAT_LAYOUT], [ADDR_NO_RANDOMIZE], [ADDR_LIMIT_32BIT], [ADDR_LIMIT_3GB] *)
Definition layout_flags : Z := Z.lor (Z.lor 0x0200000 0x0040000) (Z.lor 0x0800000 0x8000000).
(** [FDPIC_FUNCPTRS], [MMAP_PAGE_ZERO], [SHORT_INODE], [STICKY_TIMEOUTS], [UNAME26], [WHOLE_SECONDS], [READ_IMPLIES_EXEC] *)
Definition other_flags : Z :=
  Z.lor (Z.lor (Z.lor 0x0080000 0x0100000) (Z.lor 0x1000000 0x4000000)) (Z.lor (Z.lor 0x0020000 0x2000000) 0x0400000).

Definition prepare_personality : R Switchable :=
  arg1 ← entry_arg 1;
  let p := s32 arg1 in
  if p =? -1 then mret PREVENT_SWITCH
  else
    (if one_of (u8 p) [8; 0] then mret tt else expect EINVAL);;
    (if enable_chaos env then ASSERT (Z.land p layout_flags =? 0) else mret tt);;
    (if Z.land (Z.land p 0xffffff00) (Z.lnot (Z.lor layout_flags other_flags)) =? 0 then mret tt else expect EINVAL);;
    mret PREVENT_SWITCH.

Definition prepare_modify_ldt : R Switchable :=
  func ← entry_arg 1; arg3 ← entry_arg 3;
  let func := s32 func in
  (if (func =? 0) || (func =? 2) then reg_sized 2 (from_syscall_result_max 4 arg3);; mret tt else mret tt);;
  mret ALLOW_SWITCH.

Definition page_size : Z := 4096.

Definition prepare_mincore : R Switchable :=
  len ← entry_arg 2;
  counted_buffer 3 1 (u64 (len + page_size - 1) / page_size) PREVENT_SWITCH.

Definition prepare_sigprocmask : R Switchable :=
  reg_typed 3 (kernel_sigset_t a) OUT;;
  reg_parameter 2 (of_size (sizeof (kernel_sigset_t a))) IN (Some protect_rr_sigs);;
  mret PREVENT_SWITCH.

Definition prepare_sigaction : R Switchable :=
  reg_parameter 2 (of_size (sizeof (kernel_sigaction a))) IN (Some (protect_rr_sigs_sa_mask a));;
  reg_typed 3 (kernel_sigaction a) OUT;;
  mret PREVENT_SWITCH.

(** ** The switch *)

Definition rec_prepare_case (call : syscall) : R Switchable :=
  match call with
  | sys_splice => reg_parameter 2 (of_size 8) IN_OUT None;; reg_parameter 4 (of_size 8) IN_OUT None;; mret ALLOW_SWITCH
  | sys_sendfile => reg_parameter 3 (of_size (wordlen a)) IN_OUT None;; mret ALLOW_SWITCH
  | sys_sendfile64 => reg_parameter 3 (of_size 8) IN_OUT None;; mret ALLOW_SWITCH
  | sys_capget => prepare_capget
  | sys_fcntl => prepare_fcntl
  | sys_futex => prepare_futex
  | sys_getrandom =>
      flags ← entry_arg 3;
      result_buffer 1 2 4 (if Z.land 1 flags =? 0 then ALLOW_SWITCH else PREVENT_SWITCH)
  | sys_thread_area => reg_typed 1 (user_desc a) IN_OUT;; mret PREVENT_SWITCH
  | sys_ipc => prepare_ipc
  | sys_msgctl => cmd ← entry_arg 2; prepare_msgctl a (s32 cmd) 3
  | sys_msgrcv => msgsize ← entry_arg 3; reg_sized 2 (of_size (wordlen a + msgsize));; mret ALLOW_SWITCH
  | sys_blocking | sys_pause => mret ALLOW_SWITCH
  | sys_sysfs => prepare_sysfs
  | sys_socketcall => prepare_socketcall a (blacklisted_socket env) (gettid_number env)
  | sys_select => prepare_select (bool_decide (a = x86))
  | sys_newselect => prepare_select false
  | sys_pselect6 => prepare_pselect6
  | sys_recvfrom => prepare_recvfrom
  | sys_recvmsg => prepare_recvmsg_call
  | sys_recvmmsg => prepare_recvmmsg_call
  | sys_sendto => flags ← entry_arg 4; mret (may_block (u32 flags))
  | sys_sendmsg => flags ← entry_arg 3; mret (may_block (u32 flags))
  | sys_sendmmsg => prepare_sendmmsg
  | sys_getsockname => sized_register 3 2;; mret PREVENT_SWITCH
  | sys_setsockopt => prepare_setsockopt_call
  | sys_getsockopt => sized_register 5 4;; mret PREVENT_SWITCH
  | sys_read => prepare_read
  | sys_accept => sized_register 3 2;; mret ALLOW_SWITCH
  | sys_getcwd => result_buffer 1 2 wl PREVENT_SWITCH
  | sys_getdents => result_buffer_uint 2 3 PREVENT_SWITCH
  | sys_readlink => result_buffer 2 3 wl PREVENT_SWITCH
  | sys_readlinkat => result_buffer 3 4 wl PREVENT_SWITCH
  | sys_io_setup => not_performed 2 0 (failing ENOSYS)
  | sys_getgroups => n ← entry_arg 1; counted_buffer 2 gid_size (s32 n) PREVENT_SWITCH
  | sys_getgroups32 => n ← entry_arg 1; counted_buffer 2 4 (s32 n) PREVENT_SWITCH
  | sys_write => fd ← entry_arg 1; mret (will_write env (s32 fd))
  | sys_copy_file_range => prepare_copy_file_range
  | sys_readv => prepare_readv
  | sys_ppoll => prepare_ppoll
  | sys_poll => prepare_poll
  | sys_connect =>
      addr ← entry_arg 2; len ← entry_arg 3;
      maybe_blacklist_connect (blacklisted_socket env) (gettid_number env) addr len
  | sys_close => fd ← entry_arg 1; (if is_rr_fd env (s32 fd) then with_arg 1 (-1) else mret tt);; mret PREVENT_SWITCH
  | sys_dup2 => fd ← entry_arg 2; (if is_rr_fd env (s32 fd) then with_arg 1 (-1) else mret tt);; mret PREVENT_SWITCH
  | sys_prctl => prepare_prctl
  | sys_arch_prctl => prepare_arch_prctl
  | sys_sysctl => prepare_sysctl
  | sys_quotactl => prepare_quotactl
  | sys_keyctl => prepare_keyctl
  | sys_epoll_wait => n ← entry_arg 3; counted_buffer 2 (sizeof (epoll_event a)) (arg_signed n) ALLOW_SWITCH
  | sys_epoll_pwait =>
      n ← entry_arg 3;
      reg_sized 2 (of_size (sizeof (epoll_event a) * arg_signed n));; invalidate_sigmask;; mret ALLOW_SWITCH
  | sys_nanosleep => reg_typed 2 (timespec a) OUT;; mret ALLOW_SWITCH
  | sys_clock_nanosleep => reg_typed 4 (timespec a) OUT;; mret ALLOW_SWITCH
  | sys_rt_sigpending => size ← entry_arg 2; counted_buffer 1 1 size PREVENT_SWITCH
  | sys_rt_sigtimedwait => reg_typed 2 (siginfo_t a) OUT;; mret ALLOW_SWITCH
  | sys_rt_sigprocmask => prepare_sigprocmask
  | sys_rt_sigaction => prepare_sigaction
  | sys_getxattr => result_buffer 3 4 8 PREVENT_SWITCH
  | sys_listxattr => result_buffer 2 3 8 PREVENT_SWITCH
  | sys_sched_setaffinity => not_performed 1 (-1) 0
  | sys_sched_getaffinity => result_buffer_uint 3 2 PREVENT_SWITCH
  | sys_mincore => prepare_mincore
  | sys_shmctl => cmd ← entry_arg 2; prepare_shmctl a (s32 cmd) 3
  | sys_semctl =>
      semid ← entry_arg 1; cmd ← entry_arg 3;
      prepare_semctl a (semaphores env) (s32 semid) (s32 cmd) 4 USE_DIRECTLY
  | sys_seccomp => prepare_seccomp
  | sys_get_mempolicy => prepare_get_mempolicy
  | sys_madvise => prepare_madvise
  | sys_personality => prepare_personality
  | sys_rrcall_init_preload => emulate_result 0;; mret PREVENT_SWITCH
  | sys_unmanaged => mret PREVENT_SWITCH
  | sys_sigsuspend => invalidate_sigmask;; mret ALLOW_SWITCH
  | sys_mq_timedreceive => result_buffer 2 3 wl ALLOW_SWITCH ;; reg_sized 4 (of_size 4);; mret ALLOW_SWITCH
  | sys_modify_ldt => prepare_modify_ldt
  | sys_name_to_handle_at => reg_sized 3 (of_size (8 + 128));; reg_sized 4 (of_size 4);; mret ALLOW_SWITCH
  | sys_unknown => expect ENOSYS;; mret PREVENT_SWITCH
  end.

Definition SECCOMP_MAGIC_SKIP_ORIGINAL_SYSCALLNO : Z := -2.

(** A call rr vetoed is left alone. *)
Definition rec_prepare_syscall_arch (call : syscall) : R Switchable :=
  n ← ask original_syscallno;
  if n =? SECCOMP_MAGIC_SKIP_ORIGINAL_SYSCALLNO then mret PREVENT_SWITCH
  else
    change (fun s => set_syscall_entry_args (args s) s);;
    rec_prepare_case call.

Definition rec_prepare_syscall (call : syscall) : R Switchable :=
  init;;
  sw ← rec_prepare_syscall_arch call;
  done_preparing sw.

(** ** The end of a call *)

Definition ENOENT : Z := 2.
Definition EACCES : Z := 13.
Definition ENOTBLK : Z := 15.
Definition ENODEV : Z := 19.

Definition syscall_failed (r : Z) : bool := (-4096 <? r) && (r <? 0).

(** The first [n] registers get their values at the entry of the call. *)
Definition restore_args (n : nat) : R unit :=
  change (fun s => set_args (take n (syscall_entry_args s) ++ drop n (args s)) s).

(** *** Descriptors received over sockets *)

Definition cmsg_align (len : Z) : Z := Z.land (u64 (len + (wordlen a - 1))) (Z.lnot (wordlen a - 1)).

(** The control messages in [data] from [index] on; the descriptors they pass, for [handle_opened_file], which acts on the
    table of descriptors. *)
Fixpoint scm_rights (fuel : nat) (data : list Z) (index : Z) : result (list Z) :=
  match fuel with
  | O => Err NoFuel
  | S fuel =>
      let cmsg := drop (Z.to_nat index) data in
      let size := sizeof (cmsghdr a) in
      let len := field_of cmsg "cmsg_len" wl (cmsghdr a) in
      if (len <? size) || (Z.of_nat (length data) <? u64 (index + cmsg_align len)) then Ok []
      else
        let fd_count := s32 ((len - size) / 4) in
        let fd i := s32 (le_value (take 4 (drop (Z.to_nat (cmsg_align size) + 4 * i) cmsg))) in
        let fds :=
          if (s32 (field_of cmsg "cmsg_level" 4 (cmsghdr a)) =? 1) && (s32 (field_of cmsg "cmsg_type" 4 (cmsghdr a)) =? 1)
          then map fd (seq 0 (Z.to_nat fd_count)) else [] in
        let index := u64 (index + cmsg_align len) in
        if Z.of_nat (length data) <? u64 (index + size) then Ok fds
        else l ← scm_rights fuel data index; mret (fds ++ l)
  end.

Definition check_scm_rights_fd (msg : list Z) : R unit :=
  let controllen := field_of msg "msg_controllen" wl (msghdr a) in
  if controllen <? sizeof (cmsghdr a) then mret tt
  else
    data ← read_bytes_helper (field_of msg "msg_control" wl (msghdr a)) controllen;
    lift (scm_rights (S (length data)) data 0);;
    mret tt.

(** The messages of a [recvmmsg] at [msgvec]. *)
Definition check_received (msgvec count : Z) : R unit :=
  msgs ← read_bytes_helper msgvec (count * sizeof (mmsghdr a));
  for_each (fun i => check_scm_rights_fd (drop (i * Z.to_nat (sizeof (mmsghdr a))) msgs)) (seq 0 (Z.to_nat count)).

Definition socketcall_number : Z := 102.

Definition process_socketcall : R unit :=
  n ← ask original_syscallno;
  (if n =? gettid_number env then change (set_syscall_result (- EACCES)) else mret tt);;
  restore_args 1;;
  change (set_original_syscallno socketcall_number);;
  r ← ask syscall_result_signed;
  l ← ask args;
  if syscall_failed r then mret tt
  else if s32 (arg l 1) =? 17 (* [SYS_RECVMSG] *) then
    args ← read_struct (arg l 2) (recvmsg_args a);
    msg ← read_struct (field_of args "msg" wl (recvmsg_args a)) (msghdr a);
    check_scm_rights_fd msg
  else if s32 (arg l 1) =? 19 (* [SYS_RECVMMSG] *) then
    args ← read_struct (arg l 2) (recvmmsg_args a);
    check_received (field_of args "msgvec" wl (recvmmsg_args a)) (s32 r)
  else mret tt.

(** *** The switch *)

Definition connect_number : Z := match a with x86 => 362 | x86_64 => 42 end.

Definition process_connect : R unit :=
  n ← ask original_syscallno;
  if n =? gettid_number env then
    change (set_original_syscallno connect_number);; change (set_syscall_result (- EACCES))
  else mret tt.

Definition process_recvmsg : R unit :=
  r ← ask syscall_result_signed; l ← ask args;
  if syscall_failed r then mret tt
  else msg ← read_struct (arg l 2) (msghdr a); check_scm_rights_fd msg.

Definition process_recvmmsg : R unit :=
  r ← ask syscall_result_signed; l ← ask args;
  if syscall_failed r then mret tt else check_received (arg l 2) (s32 r).

Definition sizeof_cpu_set_t : Z := 128.

(** The tracee sees the mask rr pretends it has. *)
Definition process_sched_getaffinity : R unit :=
  r ← ask syscall_result_signed; l ← ask args;
  let pid := s32 (arg l 1) in
  if negb (syscall_failed r) && ((pid =? 0) || (pid =? rec_tid env)) then
    if sizeof_cpu_set_t <? u64 r then mret tt
    else write_bytes_helper (arg l 3) (take (Z.to_nat r) (pretend_affinity_mask env))
  else mret tt.

(** [Q_SYNC] to [Q_SETQUOTA]. *)
Definition process_quotactl : R unit :=
  r ← ask syscall_result_signed; l ← ask args;
  if one_of (Z.shiftr (arg l 1) SUBCMDSHIFT) [0x800001; 0x800002; 0x800003; 0x800004; 0x800005; 0x800006; 0x800007; 0x800008]
  then mret tt
  else ASSERT (one_of r [- ENOENT; - ENODEV; - ENOTBLK; - EINVAL]).

(** A sleep that is over does not write the time that is left. *)
Definition process_nanosleep : R unit :=
  r ← ask syscall_result_signed;
  if s32 r =? 0 then change (set_write_back NO_WRITE_BACK) else mret tt.

(** The work that is left to other parts of rr: changes of the address space (brk, mremap, shmat and the like) and what the
    calls of the preload library do, the filter for directories of /proc, and seccomp filters. *)
Definition elsewhere (call : syscall) (s : rtask) : bool :=
  let arg1 := arg (syscall_entry_args s) 1 in
  match call with
  | sys_unmanaged | sys_getdents | sys_rrcall_init_preload => true
  | sys_ipc => s32 (arg (args s) 1) =? 21 (* [SHMAT] *)
  | sys_prctl => (s32 arg1 =? 22) (* [PR_SET_SECCOMP] *) && done_initial_exec env
  | sys_seccomp => arg1 =? 1 (* [SECCOMP_SET_MODE_FILTER] *)
  | _ => false
  end.

(** How many registers a case restores. *)
Definition restored_registers (call : syscall) : nat :=
  match call with
  | sys_close | sys_dup2 | sys_fcntl | sys_futex | sys_io_setup | sys_madvise | sys_read | sys_readv | sys_sched_setaffinity => 3
  | sys_setsockopt | sys_socketcall | sys_prctl | sys_arch_prctl | sys_seccomp => 1
  | _ => 0
  end.

Definition rec_process_case (other : syscall -> R unit) (call : syscall) : R unit :=
  e ← ask (elsewhere call);
  match call with
  | sys_nanosleep | sys_clock_nanosleep => process_nanosleep
  | sys_connect => process_connect
  | sys_recvmsg => process_recvmsg
  | sys_recvmmsg => process_recvmmsg
  | sys_sched_getaffinity => process_sched_getaffinity
  | sys_socketcall => process_socketcall
  | sys_quotactl => process_quotactl
  | sys_seccomp => restore_args 1;; ASSERT (negb e || done_initial_exec env);; if e : bool then other call else mret tt
  | call => restore_args (restored_registers call);; if e : bool then other call else mret tt
  end.

(** A call rr vetoed needs nothing; an error that was expected is checked.  (A call of the syscall buffer that was descheduled
    is not made through these cases: it has a record whose data goes to the trace.) *)
Definition rec_process_syscall_arch (other : syscall -> R unit) (call : syscall) : R unit :=
  n ← ask original_syscallno;
  e ← ask expect_errno;
  r ← ask syscall_result_signed;
  if n =? SECCOMP_MAGIC_SKIP_ORIGINAL_SYSCALLNO then mret tt
  else if negb (e =? 0) then ASSERT (r =? - e)
  else rec_process_case other call.

Definition rec_process_syscall (other : syscall -> R unit) (call : syscall) : R unit :=
  rec_process_syscall_arch other call;;
  process_syscall_results.

End Prepare.
