(* ===== verification/SyscallPrepareSpec.v ===== *)
(** * Prepared system calls are recorded faithfully

    [recorded_call]: whatever the preparation of a system call registers, the call is
    transparent in the sense of SyscallScratch.  The cases are shown to keep [prepared], an
    invariant of the state between [init] and [done_preparing]. *)

From stdpp Require Import base tactics list numbers.
From S2P Require Import Prelude KernelAbi TracerMonad SyscallParams SyscallParamsSpec SyscallScratch SyscallDirect SyscallSockets SyscallPrepare.
Local Open Scope Z_scope.

(** ** The invariant *)

(** Scratch memory a parameter needs, with its alignment. *)
Definition need1 (p : MemoryParam) : Z :=
  if bool_decide (mode p = IN_OUT_NO_SCRATCH) then 0 else incoming_size (num_bytes p) + 7.

Definition need (l : list MemoryParam) : Z := foldr (fun p n => need1 p + n) 0 l.

Lemma need_app l l' : need (l ++ l') = need l + need l'.
Proof. induction l as [|p l IH]; cbn [app need foldr]; [done|]. fold (need (l ++ l')) (need l). lia. Qed.

(** The size and the mutator of a parameter; when [strict], the mutator saves what it changes. *)
Record fine (strict : bool) (size : ParamSize) (md : ArgMode) (mut : option ArgMutator) : Prop := {
  fi_size : 0 <= incoming_size size;
  fi_saves : strict = true -> forall f, mut = Some f -> saves (incoming_size size) f;
  fi_plain : md = IN_OUT_NO_SCRATCH -> mem_ptr size = 0 /\ from_syscall size = false;
  fi_mutator : forall f, mut = Some f -> confined (incoming_size size) f }.

(** Kinds of calls.  In a call with parameters that stay where they are there are no pointers in memory to move. *)
Record kind := Kind { moves : bool; strict : bool }.

Definition kind_ok (k : kind) (l : list MemoryParam) : Prop :=
  if moves k then Forall (fun p => mode p <> IN_OUT_NO_SCRATCH) l else Forall (fun p => ptr_in_memory p = 0) l.

Record sane (k : kind) (s : rtask) : Prop := {
  sn_base : 0 <= scratch_ptr s;
  sn_word : (word_size s <= 8)%nat;
  sn_done : preparation_done s = false;
  sn_enabled : scratch_enabled s = false;
  sn_bytes : forall x b, mem s x = Some b -> 0 <= b < 256;
  sn_unsigned : Forall (fun v => 0 <= v) (syscall_entry_args s);
  sn_entry : length (syscall_entry_args s) = 6%nat;
  sn_args : length (args s) = 6%nat;
  sn_kind : kind_ok k (param_list s);
  sn_mutators : strict k = true -> Forall good_mutator (param_list s);
  sn_saved : saved_data s = [];
  sn_dests : Forall (fun p => dest p <> 0) (param_list s);
  sn_sizes : Forall (fun p => 0 <= incoming_size (num_bytes p)) (param_list s) }.

(** What holds as long as scratch memory does not reach the end of the address space. *)
Record fitting (s : rtask) : Prop := {
  ft_top : scratch s <= scratch_ptr s + need (param_list s);
  ft_low : scratch_ptr s <= scratch s;
  ft_placed : Forall (placed_param (scratch_ptr s) (scratch s)) (param_list s);
  ft_regs : from_regs (param_list s) (syscall_entry_args s);
  ft_pointers : pointers_in (word_size s) (param_list s) (mem s) }.

Definition fits (s : rtask) : Prop := scratch_ptr s + need (param_list s) < 2 ^ 64.

Definition prepared (k : kind) (s : rtask) : Prop := sane k s /\ (fits s -> fitting s).

Lemma need_nonneg l : Forall (fun p => 0 <= incoming_size (num_bytes p)) l -> 0 <= need l.
Proof.
  induction 1 as [|p l Hp Hl IH]; [done|]. cbn [need foldr]. fold (need l). unfold need1. case_bool_decide; lia.
Qed.

(** ** Registration keeps it *)

Lemma add_param_prepared k s dst size md mut im ir v s' :
  prepared k s -> fine (strict k) size md mut -> 0 < dst ->
  (ir <> 0%nat -> (ir <= 6)%nat /\ dst = arg (syscall_entry_args s) ir) ->
  (im <> 0 -> forall x, covers im (Z.of_nat (length (le_bytes (word_size s) dst))) x ->
     le_bytes (word_size s) dst !! Z.to_nat (x - im) = mem s x) ->
  (if moves k then md <> IN_OUT_NO_SCRATCH else im = 0) ->
  add_param dst size md mut im ir s = (Ok v, s') -> prepared k s' /\ 0 <= v.
Proof.
  intros [Hs Hf] [q1 q2 q3 q4] Hd Hir Him Hk H. unfold add_param in H.
  apply bind_Ok_inv in H as ([] & s1 & [Hmut ->]%ASSERT_Ok_inv & H). apply bind_Ok_inv in H as (sc & s1 & [-> ->]%ask_inv & H).
  apply bind_Ok_inv in H as ([] & s1 & H1 & H). injection H as <- <-. split; [|lia].
  pose proof (need_nonneg _ (sn_sizes _ _ Hs)) as Hnn. pose proof (sn_entry _ _ Hs) as Hlen. pose proof (sn_base _ _ Hs) as Hb.
  assert (exists p sc, s1 = set_param_list (param_list s ++ [p]) (set_scratch sc s) /\
    ((md = IN_OUT_NO_SCRATCH /\ p = mkParam dst 0 size 0 0 md mut /\ sc = scratch s) \/
     (md <> IN_OUT_NO_SCRATCH /\ p = mkParam dst (scratch s) size im ir md mut /\ sc = align_scratch (u64 (scratch s + incoming_size size)))))
    as (p & sc & -> & Hcase).
  { destruct (decide (md = IN_OUT_NO_SCRATCH)) as [Hm|Hm]; [rewrite bool_decide_eq_true_2 in H1 by done|rewrite bool_decide_eq_false_2 in H1 by done].
    - injection H1 as <-. eexists _, (scratch s). split; [by destruct s|by left].
    - apply bind_Ok_inv in H1 as ([] & s2 & [= <-] & H1). injection H1 as <-. eexists _, _. split; [done|by right]. }
  clear H1. split.
  - assert (kind_ok k [p] /\ 0 <= incoming_size (num_bytes p) /\ (strict k = true -> good_mutator p) /\ dest p <> 0) as (Hp1 & Hp2 & Hp3 & Hp4).
    { unfold kind_ok. destruct Hcase as [(Hm & -> & ->)|(Hm & -> & ->)]; destruct (moves k); cbn; split_and!;
        first [done|lia|by apply Forall_singleton|intros Hst; split; auto]. }
    destruct Hs. split; try done; cbn [param_list set_param_list].
    + unfold kind_ok in *. destruct (moves k); by apply Forall_app_2.
    + intros Hst. apply Forall_app_2; [auto|]. apply Forall_singleton. auto.
    + apply Forall_app_2; [done|]. by apply Forall_singleton.
    + apply Forall_app_2; [done|]. by apply Forall_singleton.
  - unfold fits. cbn [scratch_ptr param_list set_param_list set_scratch]. rewrite need_app. cbn [need foldr]. rewrite Z.add_0_r. intros Hfit.
    assert (need1 p = if bool_decide (md = IN_OUT_NO_SCRATCH) then 0 else incoming_size size + 7) as Hn1.
    { unfold need1. destruct Hcase as [(Hm & -> & ->)|(Hm & -> & ->)]; done. }
    destruct Hf as [g1 g2 g3 g4 g5]; [unfold fits; clear Hmut; case_bool_decide; lia|].
    assert (scratch s <= sc /\ sc <= scratch s + need1 p) as [Ha1 Ha2].
    { rewrite Hn1. clear Hmut. case_bool_decide; destruct Hcase as [(Hm & -> & ->)|(Hm & -> & ->)]; try done; [lia|].
      rewrite u64_small by lia. pose proof (align_bounds (scratch s + incoming_size size)). lia. }
    split; cbn [scratch scratch_ptr param_list set_param_list set_scratch syscall_entry_args word_size mem].
    + rewrite need_app. cbn [need foldr]. lia.
    + lia.
    + apply Forall_app_2; [eapply Forall_impl; [|exact g3]; intros q; by apply placed_mono|]. apply Forall_singleton.
      destruct Hcase as [(Hm & -> & ->)|(Hm & -> & ->)]; split; cbn [dest param_scratch num_bytes ptr_in_memory ptr_in_reg mode mutator]; try done.
      * intros _. destruct (q3 Hm). split_and!; try done. destruct mut; [|done]. subst md. by rewrite bool_decide_eq_false_2 in Hmut.
      * intros _. rewrite bool_decide_eq_false_2 in Hn1 by done. rewrite u64_small in Ha2 |- * by lia.
        pose proof (align_bounds (scratch s + incoming_size size)). lia.
    + intros q [Hq| ->%list_elem_of_singleton]%elem_of_app; [by apply g4|].
      destruct Hcase as [(Hm & -> & ->)|(Hm & -> & ->)]; cbn; [done|]. rewrite Hlen. exact Hir.
    + intros q x [Hq| ->%list_elem_of_singleton]%elem_of_app; [by apply g5|].
      destruct Hcase as [(Hm & -> & ->)|(Hm & -> & ->)]; cbn [ptr_in_memory dest]; [done|]. intros Hn. by apply Him.
Qed.

(** ** Rules *)

(** [c] keeps the invariant; it may stop rr. *)
Definition keeps {A} (k : kind) (c : R A) : Prop :=
  holds (prepared k) c (post (fun _ => True) (fun _ => True) (fun _ => prepared k)).

Lemma prep_inv {A} k (c : R A) s v s' : keeps k c -> prepared k s -> c s = (Ok v, s') -> prepared k s'.
Proof. intros Hc Hs H. specialize (Hc s Hs). by rewrite H in Hc. Qed.

Lemma prep_bind {A B} k (c : R A) (f : A -> R B) : keeps k c -> (forall v, keeps k (f v)) -> keeps k (mbind f c).
Proof. intros Hc Hf. by eapply holds_bind. Qed.

Lemma prep_ret {A} k (v : A) : keeps k (mret v).
Proof. intros s Hs. exact Hs. Qed.

Lemma prep_ask {A} k (f : rtask -> A) : keeps k (ask f).
Proof. intros s Hs. exact Hs. Qed.

Lemma prep_lift {A} k (r : result A) : keeps k (lift r).
Proof. intros s Hs. unfold lift. by destruct r. Qed.

Lemma prep_fail {A} k w : keeps k (@fail rtask A w).
Proof. intros s Hs. done. Qed.

Lemma prep_ASSERT k b : keeps k (ASSERT b).
Proof. intros s Hs. by destruct b. Qed.

Lemma prep_change k f : (forall s, prepared k s -> prepared k (f s)) -> keeps k (change f).
Proof. intros H s Hs. exact (H s Hs). Qed.

Lemma prep_for_each {A} k (f : A -> R unit) l : (forall x, keeps k (f x)) -> keeps k (for_each f l).
Proof. intros Hf. induction l as [|x l IH]; cbn; [apply prep_ret|]. by apply prep_bind. Qed.

(** A change of the task that is no change of its parameters. *)
Record same_params (s s' : rtask) : Prop := {
  sp_base : scratch_ptr s' = scratch_ptr s; sp_top : scratch s' = scratch s; sp_word : word_size s' = word_size s;
  sp_done : preparation_done s' = preparation_done s; sp_enabled : scratch_enabled s' = scratch_enabled s;
  sp_mem : mem s' = mem s; sp_entry : syscall_entry_args s' = syscall_entry_args s; sp_args : length (args s') = length (args s);
  sp_list : param_list s' = param_list s; sp_saved : saved_data s' = saved_data s }.

Lemma same_prepared k s s' : same_params s s' -> prepared k s -> prepared k s'.
Proof.
  intros [p1 p2 p3 p4 p5 p6 p7 p8 p9 p10] [[n1 n2 n3 n4 n5 n6 n7 n8 n9 n10 n11 n12 n13] Hf]. split.
  - split; rewrite ?p1, ?p2, ?p3, ?p4, ?p5, ?p6, ?p7, ?p8, ?p9, ?p10; done.
  - unfold fits. rewrite p1, p9. intros H. destruct (Hf H). split; rewrite ?p1, ?p2, ?p3, ?p4, ?p5, ?p6, ?p7, ?p8, ?p9; done.
Qed.

Lemma prep_same k f : (forall s, same_params s (f s)) -> keeps k (change f).
Proof. intros H. apply prep_change. intros s. by apply same_prepared. Qed.

Lemma prep_reg k n size md mut : (1 <= n <= 6)%nat -> fine (strict k) size md mut -> (moves k = true -> md <> IN_OUT_NO_SCRATCH) ->
  keeps k (reg_parameter n size md mut).
Proof.
  intros Hn Hf Hk s Hs. destruct (reg_parameter n size md mut s) as [[v|w] s'] eqn:H; [|done]. cbn. unfold reg_parameter in H.
  apply bind_Ok_inv in H as (d & s1 & [-> ->]%ask_inv & H). pose proof (proj1 Hs) as Hsn. rewrite (sn_done _ _ Hsn) in H.
  apply bind_Ok_inv in H as (e & s1 & [-> ->]%ask_inv & H). destruct (Z.eqb_spec (arg (syscall_entry_args s) n) 0) as [|Hz]; [by injection H as <- <-|].
  pose proof (arg_nonneg _ n (sn_unsigned _ _ Hsn)). edestruct (fun a b c d e f => add_param_prepared k s _ size md mut 0 n v s' a b c d e f H) as [H1 _]; try done; try lia.
  destruct (moves k); [auto|done].
Qed.

Lemma prep_mem_ptr k p size md mut : moves k = true -> fine (strict k) size md mut -> md <> IN_OUT_NO_SCRATCH ->
  keeps k (mem_ptr_parameter p size md mut).
Proof.
  intros Hmv Hf Hk s Hs. destruct (mem_ptr_parameter p size md mut s) as [[v|w] s'] eqn:H; [|done]. cbn. unfold mem_ptr_parameter in H.
  apply bind_Ok_inv in H as (d & s1 & [-> ->]%ask_inv & H). pose proof (proj1 Hs) as Hsn. rewrite (sn_done _ _ Hsn) in H. cbn [orb] in H.
  destruct (p =? 0); [by injection H as <- <-|]. apply bind_Ok_inv in H as (dst & s1 & Hd & H).
  apply get_remote_ptr_inv in Hd as (-> & Hpos & Hd); [|by destruct Hsn]. destruct (Z.eqb_spec dst 0) as [|Hz]; [by injection H as <- <-|].
  edestruct (fun a b c d e f => add_param_prepared k s _ size md mut p 0 v s' a b c d e f H) as [H1 _]; try done; [lia|]. by rewrite Hmv.
Qed.

(** ** Sizes and mutators *)

Lemma size_t_nonneg x : 0 <= Z.min INTPTR_MAX (u64 x).
Proof. pose proof (wrapu_range 64 x ltac:(lia)). unfold INTPTR_MAX. lia. Qed.

Lemma fine_of_size st x md : fine st (of_size x) md None.
Proof. split; cbn [of_size incoming_size mem_ptr from_syscall]; [apply size_t_nonneg|done|done|done]. Qed.

Lemma fine_result_max st n x md : md <> IN_OUT_NO_SCRATCH -> fine st (from_syscall_result_max n x) md None.
Proof. intros Hm. split; [apply size_t_nonneg|done|done|done]. Qed.

Lemma fine_limit st n x md : md <> IN_OUT_NO_SCRATCH -> fine st (limit_size (from_syscall_result n) x) md None.
Proof.
  intros Hm. split; [|done|done|done]. cbn [limit_size from_syscall_result incoming_size]. pose proof (wrapu_range 64 x ltac:(lia)). unfold SIZE_MAX. lia.
Qed.

Lemma fine_limit_mem st p n x md : md <> IN_OUT_NO_SCRATCH -> fine st (limit_size (from_mem p n) x) md None.
Proof.
  intros Hm. split; [|done|done|done]. cbn [limit_size from_mem incoming_size]. pose proof (wrapu_range 64 x ltac:(lia)). unfold SIZE_MAX. lia.
Qed.

Lemma protect_rr_sigs_confined : confined 8 protect_rr_sigs.
Proof.
  intros p m m' save H x Hx. unfold protect_rr_sigs in H. destruct (p =? 0); [done|]. destruct (read_word m p 8) as [v|]; [|done].
  rewrite bind_result_ok in H. destruct (v =? _); [done|]. destruct (write_bytes m p _) as [m1|] eqn:E; [|done].
  rewrite bind_result_ok in H. injection H as <- _. apply write_bytes_inv in E as ->. apply overlay_out. by rewrite le_bytes_length.
Qed.

Lemma overlay_bytes m p l : bytes_of m -> Forall (fun b => 0 <= b < 256) l -> bytes_of (overlay m p l).
Proof.
  intros Hm Hl x b. destruct (covers_dec p (Z.of_nat (length l)) x) as [Hc|Hc].
  - rewrite overlay_in by done. intros Hb. rewrite Forall_forall in Hl. apply Hl, list_elem_of_In. by eapply list_elem_of_lookup_2.
  - rewrite overlay_out by done. apply Hm.
Qed.

Lemma le_bytes_range n v : Forall (fun b => 0 <= b < 256) (le_bytes n v).
Proof. revert v. induction n as [|n IH]; intros v; constructor; [apply Z.mod_pos_bound; lia|apply IH]. Qed.

Lemma protect_rr_sigs_saves : saves 8 protect_rr_sigs.
Proof.
  intros p m m' save Hm H. unfold protect_rr_sigs in H. destruct (p =? 0); [done|]. unfold read_word, read_bytes in *.
  change (Z.to_nat (Z.of_nat 8)) with 8%nat in H. change (Z.to_nat 8) with 8%nat. destruct (get_bytes m p 8) as [l|] eqn:E; [|done].
  pose proof (le_bytes_value l (get_bytes_range _ _ _ _ Hm E)) as Hv. rewrite (get_bytes_length _ _ _ _ E) in Hv.
  rewrite !bind_result_ok in H. destruct (_ =? _); [done|]. destruct (write_bytes m p _) as [m1|] eqn:Ew; [|done].
  rewrite bind_result_ok, Hv in H. injection H as <- <-. split; [done|]. apply write_bytes_inv in Ew as ->.
  apply overlay_bytes; [done|apply le_bytes_range].
Qed.

Lemma unblocked_length a sa : length sa = Z.to_nat (sizeof (kernel_sigaction a)) -> length (unblocked a sa) = length sa.
Proof.
  intros H. unfold unblocked. rewrite !length_app, le_bytes_length, length_take, length_drop. rewrite H. destruct a; vm_compute; done.
Qed.

Lemma sa_mask_confined a : confined (sizeof (kernel_sigaction a)) (protect_rr_sigs_sa_mask a).
Proof.
  intros p m m' save H x Hx. unfold protect_rr_sigs_sa_mask in H. destruct (p =? 0); [done|].
  destruct (read_bytes m p _) as [sa|] eqn:E; [|done]. rewrite bind_result_ok in H. case_bool_decide; [done|].
  destruct (write_bytes m p _) as [m1|] eqn:E1; [|done]. rewrite bind_result_ok in H. injection H as <- _.
  apply write_bytes_inv in E1 as ->. apply read_bytes_inv in E as [E _]. apply overlay_out. rewrite unblocked_length, E by done.
  rewrite Z2Nat.id; [done|]. destruct a; vm_compute; done.
Qed.

Lemma fine_sigset st a : fine st (of_size (sizeof (kernel_sigset_t a))) IN (Some protect_rr_sigs).
Proof.
  assert (incoming_size (of_size (sizeof (kernel_sigset_t a))) = 8) as Hn by (destruct a; vm_compute; done).
  split; rewrite ?Hn; [done| |done|]; [intros _|]; intros f [= <-]; [exact protect_rr_sigs_saves|exact protect_rr_sigs_confined].
Qed.

Lemma fine_sigaction a : fine false (of_size (sizeof (kernel_sigaction a))) IN (Some (protect_rr_sigs_sa_mask a)).
Proof.
  split; [apply size_t_nonneg|done|done|]. intros f [= <-].
  assert (incoming_size (of_size (sizeof (kernel_sigaction a))) = sizeof (kernel_sigaction a)) as -> by (destruct a; vm_compute; done).
  apply sa_mask_confined.
Qed.

Create HintDb keeps.
#[export] Hint Resolve fine_of_size fine_result_max fine_limit fine_limit_mem fine_sigset fine_sigaction : keeps.
#[export] Hint Extern 1 (_ <> IN_OUT_NO_SCRATCH) => discriminate : keeps.

(** One step of a case. *)
Ltac keep_step :=
  cbv zeta;
  match goal with
  | |- keeps _ (mret _) => apply prep_ret
  | |- keeps _ (ask _) => apply prep_ask
  | |- keeps _ (lift _) => apply prep_lift
  | |- keeps _ (fail _) => apply prep_fail
  | |- keeps _ (ASSERT _) => apply prep_ASSERT
  | |- keeps _ (mbind _ _) => apply prep_bind; [|intros ?]
  | |- keeps _ (change _) => apply prep_same; intros ?; split; first [reflexivity|apply length_insert]
  | |- keeps _ (reg_parameter _ _ _ _) => apply prep_reg; [lia|eauto with keeps|intros; discriminate || congruence]
  | |- keeps _ (mem_ptr_parameter _ _ _ _) => apply prep_mem_ptr; [done|eauto with keeps|discriminate]
  | |- keeps _ (for_each _ _) => apply prep_for_each; intros ?
  | |- keeps _ (if ?b then _ else _) => destruct b
  | |- keeps _ (match ?o with _ => _ end) => destruct o
  end.

Ltac keep := repeat keep_step.

Section Cases.
Context (a : SupportedArch) (env : RecordEnv).

Lemma prep_reg_typed k n t md : (1 <= n <= 6)%nat -> md <> IN_OUT_NO_SCRATCH -> keeps k (reg_typed n t md).
Proof. intros Hn Hm. unfold reg_typed. apply prep_reg; eauto with keeps. Qed.

Lemma prep_reg_sized k n size : (1 <= n <= 6)%nat -> fine (strict k) size OUT None -> keeps k (reg_sized n size).
Proof. intros Hn Hf. unfold reg_sized. by apply prep_reg. Qed.

Lemma prep_emulate k r : keeps k (emulate_result r).
Proof. unfold emulate_result, is_done. keep. Qed.

Lemma prep_expect k e : keeps k (expect e).
Proof. unfold expect. keep. Qed.

Lemma prep_with_arg k n v : keeps k (with_arg n v).
Proof. unfold with_arg. keep. Qed.

Lemma prep_entry_arg k n : keeps k (entry_arg n).
Proof. unfold entry_arg. keep. Qed.

Lemma prep_read k p n : keeps k (read_bytes_helper p n).
Proof. unfold read_bytes_helper. keep. Qed.

Lemma prep_record_remote k p n : keeps k (record_remote p n).
Proof. unfold record_remote, record_local. keep; apply prep_read. Qed.

Lemma prep_initialized {A} k p n (f : ParamSize -> R A) : (forall size, fine (strict k) size OUT None -> keeps k (f size)) ->
  keeps k (size ← from_initialized p n; f size).
Proof.
  intros Hf s Hs. unfold from_initialized. unfold mbind, TM_bind, ask, lift. destruct (from_initialized_mem (mem s) p n) as [size|w] eqn:E; [|done].
  apply Hf; [|done]. unfold from_initialized_mem in E. destruct (if p =? 0 then _ else _) as [v|]; [|done]. injection E as <-.
  split; [apply size_t_nonneg|done|done|done].
Qed.

Lemma prep_write k p l : moves k = false -> Forall (fun b => 0 <= b < 256) l -> keeps k (write_bytes_helper p l).
Proof.
  intros Hmv Hl s Hs. destruct (write_bytes_helper p l s) as [[[]|w] s'] eqn:H; [|done]. apply write_bytes_helper_inv in H as ->. cbn.
  destruct Hs as [Hs Hf]. split.
  - destruct Hs. split; try done. by apply overlay_bytes.
  - intros Hfit. destruct (Hf Hfit). split; try done. intros q x Hq Hn. pose proof (sn_kind _ _ Hs) as Hk. unfold kind_ok in Hk. rewrite Hmv in Hk.
    rewrite Forall_forall in Hk. apply list_elem_of_In in Hq. by apply Hk in Hq.
Qed.

End Cases.

Ltac keep_more :=
  match goal with
  | |- keeps _ (size ← from_initialized _ _; _) => apply prep_initialized; intros ? ?
  | |- keeps _ (reg_typed _ _ _) => apply prep_reg_typed; [lia|discriminate]
  | |- keeps _ (reg_sized _ _) => apply prep_reg_sized; [lia|eauto with keeps]
  | |- keeps _ (mem_typed _ _ _) => unfold mem_typed
  | |- keeps _ (mem_sized _ _) => unfold mem_sized
  | |- keeps _ (emulate_result _) => apply prep_emulate
  | |- keeps _ (expect _) => apply prep_expect
  | |- keeps _ (with_arg _ _) => apply prep_with_arg
  | |- keeps _ (entry_arg _) => apply prep_entry_arg
  | |- keeps _ (read_bytes_helper _ _) => apply prep_read
  | |- keeps _ (read_struct _ _) => apply prep_read
  | |- keeps _ (record_remote _ _) => apply prep_record_remote
  | |- keeps _ (invalidate_sigmask) => unfold invalidate_sigmask
  | |- _ => keep_step
  end.

Ltac keep_all := repeat keep_more; try solve [eauto with keeps].

Section Calls.
Context (a : SupportedArch) (env : RecordEnv).

(** A size for a buffer of a message. *)
Definition io_fine (io_size : ParamSize) : Prop := forall st n, fine st (limit_size io_size n) OUT None.

Lemma prep_iovec_params k p l io_size n : moves k = true -> io_fine io_size -> keeps k (iovec_params a p l io_size n).
Proof. intros Hmv Hf. unfold iovec_params. keep_all. Qed.

Lemma prep_recvmsg k p io_size : moves k = true -> io_fine io_size -> keeps k (prepare_recvmsg a p io_size).
Proof. intros Hmv Hf. unfold prepare_recvmsg. keep_all. by apply prep_iovec_params. Qed.

Lemma prep_recvmmsg k p n : moves k = true -> keeps k (prepare_recvmmsg a p n).
Proof. intros Hmv. unfold prepare_recvmmsg. keep_all. apply prep_recvmsg; [done|]. intros st ?. by apply fine_limit_mem. Qed.

Lemma prep_setsockopt k l o v n : moves k = true -> keeps k (prepare_setsockopt a l o v n).
Proof. intros Hmv. unfold prepare_setsockopt, block_sock_opt. keep_all. Qed.

Lemma prep_connect k b g p n : keeps k (maybe_blacklist_connect b g p n).
Proof. unfold maybe_blacklist_connect. keep_all. Qed.

Lemma prep_sized_buffer k p t len buf : moves k = true -> keeps k (sized_buffer p t len buf).
Proof. intros Hmv. unfold sized_buffer. keep_all. Qed.

Lemma prep_result_io n : io_fine (from_syscall_result n).
Proof. intros st k. by apply fine_limit. Qed.

#[local] Hint Resolve prep_recvmsg prep_recvmmsg prep_setsockopt prep_connect prep_sized_buffer prep_result_io prep_iovec_params : keeps.

Lemma prep_socketcall k b g : moves k = true -> keeps k (prepare_socketcall a b g).
Proof. intros Hmv. unfold prepare_socketcall. keep_all. Qed.

Lemma prep_msgctl k cmd n : (1 <= n <= 6)%nat -> keeps k (prepare_msgctl a cmd n).
Proof. intros Hn. unfold prepare_msgctl. keep_all. Qed.

Lemma prep_shmctl k cmd n : (1 <= n <= 6)%nat -> keeps k (prepare_shmctl a cmd n).
Proof. intros Hn. unfold prepare_shmctl. keep_all. Qed.

Lemma prep_semctl k e id cmd n d : moves k = true -> (1 <= n <= 6)%nat -> keeps k (prepare_semctl a e id cmd n d).
Proof. intros Hmv Hn. unfold prepare_semctl, sem_param. keep_all. Qed.

Lemma prep_record_ranges k l n : keeps k (record_ranges l n).
Proof. revert n. induction l as [|[p len] l IH]; intros n; cbn [record_ranges]; keep_all. Qed.

Lemma prep_emulated_read k fd l c : keeps k c -> keeps k (emulated_read env fd l c).
Proof. intros Hc. unfold emulated_read. keep_all. apply prep_record_ranges. Qed.

Lemma prep_sized_register k n m : (1 <= n <= 6)%nat -> (1 <= m <= 6)%nat -> keeps k (sized_register n m).
Proof. intros Hn Hm. unfold sized_register. keep_all. Qed.

Lemma prep_result_buffer k n m b sw : (1 <= n <= 6)%nat -> keeps k (result_buffer n m b sw).
Proof. intros Hn. unfold result_buffer. keep_all. Qed.

Lemma prep_result_buffer_uint k n m sw : (1 <= n <= 6)%nat -> keeps k (result_buffer_uint n m sw).
Proof. intros Hn. unfold result_buffer_uint. keep_all. Qed.

Lemma prep_counted_buffer k n x y sw : (1 <= n <= 6)%nat -> keeps k (counted_buffer n x y sw).
Proof. intros Hn. unfold counted_buffer. keep_all. Qed.

Lemma prep_not_performed k n v r : keeps k (not_performed n v r).
Proof. unfold not_performed. keep_all. Qed.

Lemma prep_prctl k : moves k = false -> keeps k (prepare_prctl env).
Proof.
  intros Hmv.  unfold prepare_prctl, prctl_set_dumpable, prctl_get_tsc, prctl_set_tsc, prctl_set_seccomp. keep_all.
  apply prep_write; [done|apply le_bytes_range].
Qed.

Lemma prep_futex k : moves k = false -> keeps k prepare_futex.
Proof. intros Hmv. unfold prepare_futex. keep_all; apply prep_not_performed. Qed.

(** The calls with parameters that must not be moved. *)
Definition movable (call : syscall) : bool := match call with sys_futex | sys_prctl => false | _ => true end.

(** The calls whose mutators save what they change. *)
Definition saving (call : syscall) : bool := match call with sys_rt_sigaction => false | _ => true end.

Definition kind_of (call : syscall) : kind := Kind (movable call) (saving call).

#[local] Hint Resolve prep_msgctl prep_shmctl prep_semctl prep_emulated_read prep_sized_register prep_result_buffer
  prep_result_buffer_uint prep_counted_buffer prep_not_performed prep_prctl prep_futex prep_socketcall : keeps.
#[local] Hint Extern 1 (_ <= _ <= _)%nat => lia : keeps.

Lemma prep_case call : keeps (kind_of call) (rec_prepare_case a env call).
Proof.
  destruct call; cbn [rec_prepare_case]; unfold kind_of; cbn [movable saving];
    unfold prepare_capget, prepare_fcntl, prepare_ipc, prepare_sysfs, prepare_select, prepare_pselect6, prepare_ppoll, prepare_poll,
      prepare_recvfrom, prepare_recvmsg_call, prepare_recvmmsg_call, prepare_sendmmsg, prepare_setsockopt_call, prepare_read, prepare_readv,
      prepare_copy_file_range, prepare_arch_prctl, prepare_sysctl, prepare_quotactl, prepare_keyctl, prepare_seccomp, prepare_get_mempolicy,
      prepare_madvise, prepare_personality, prepare_modify_ldt, prepare_mincore, prepare_sigprocmask, prepare_sigaction; keep_all;
    apply prep_emulated_read; keep_all.
Qed.

End Calls.

(** ** The whole call *)

(** The task when its call starts; [init] has not run. *)
Record at_entry (s : rtask) : Prop := {
  en_params : param_list s = [];
  en_done : preparation_done s = false;
  en_enabled : scratch_enabled s = false;
  en_saved : saved_data s = [];
  en_base : 0 <= scratch_ptr s < 2 ^ 64;
  en_args : length (args s) = 6%nat;
  en_unsigned : Forall (fun v => 0 <= v) (args s);
  en_word : word_size s = 4%nat \/ word_size s = 8%nat;
  en_bytes : forall x b, mem s x = Some b -> 0 <= b < 256 }.

Lemma entry_prepared k s : at_entry s -> prepared k (set_syscall_entry_args (args s) (set_scratch (scratch_ptr s) s)).
Proof.
  intros [e1 e2 e3 e9 e4 e5 e6 e7 e8]. split.
  - split; cbn; try done; try lia; rewrite e1; [unfold kind_ok; destruct (moves k); constructor|constructor..].
  - intros _. split; cbn; rewrite ?e1; try (cbn; lia); [constructor|intros p Hp; by apply elem_of_nil in Hp|intros p x Hp; by apply elem_of_nil in Hp].
Qed.

Lemma prepared_call k s : prepared k s -> fits s -> call_params s.
Proof.
  intros [Hs Hf] Hfit. destruct (Hf Hfit) as [f1 f2 f3 f4 f5]. unfold fits in Hfit. destruct Hs. split; try done; [lia|congruence].
Qed.

Lemma kind_reachable k l : kind_ok k l -> reachable l.
Proof.
  intros Hk p x Hp Hn Hx. apply elem_containing in Hx as [Hx _]. unfold kind_ok in Hk; destruct (moves k); rewrite Forall_forall in Hk;
    apply list_elem_of_In in Hp, Hx; auto.
Qed.

(** What [rec_prepare_syscall] registers, before anything is moved. *)
Lemma rec_prepare_split a env call s sw' s1 : at_entry s -> original_syscallno s <> SECCOMP_MAGIC_SKIP_ORIGINAL_SYSCALLNO ->
  rec_prepare_syscall a env call s = (Ok sw', s1) ->
  exists sw s2, rec_prepare_case a env call (set_syscall_entry_args (args s) (set_scratch (scratch_ptr s) s)) = (Ok sw, s2) /\
    prepared (kind_of call) s2 /\ done_preparing sw s2 = (Ok sw', s1).
Proof.
  intros He Hn H. unfold rec_prepare_syscall in H. apply bind_Ok_inv in H as ([] & t1 & H1 & H). unfold init, is_done in H1.
  apply bind_Ok_inv in H1 as (d & t2 & [-> ->]%ask_inv & H1). rewrite (en_done _ He) in H1. injection H1 as <-.
  apply bind_Ok_inv in H as (sw & s2 & H1 & H). unfold rec_prepare_syscall_arch in H1. apply bind_Ok_inv in H1 as (n & t2 & [-> ->]%ask_inv & H1).
  change (original_syscallno (set_scratch (scratch_ptr s) s)) with (original_syscallno s) in H1.
  destruct (Z.eqb_spec (original_syscallno s) SECCOMP_MAGIC_SKIP_ORIGINAL_SYSCALLNO); [done|].
  apply bind_Ok_inv in H1 as ([] & t2 & [= <-] & H1). exists sw, s2. split; [done|]. split; [|done].
  eapply prep_inv; [apply prep_case| |exact H1]. by apply entry_prepared.
Qed.

(** ** The end of a call *)

Section Ends.
Context (a : SupportedArch) (env : RecordEnv).

Lemma read_bytes_helper_same p n s l t : read_bytes_helper p n s = (Ok l, t) -> t = s.
Proof. unfold read_bytes_helper. intros H. by apply bind_Ok_inv in H as (m & t1 & [_ ->]%ask_inv & [_ ->]%lift_inv). Qed.

Lemma for_each_same {A} (f : A -> R unit) l s t : (forall x s t, f x s = (Ok tt, t) -> t = s) -> for_each f l s = (Ok tt, t) -> t = s.
Proof.
  intros Hf. revert s. induction l as [|x l IH]; intros s H; cbn [for_each] in H; [by injection H as <-|].
  apply bind_Ok_inv in H as ([] & t1 & ->%Hf & H). by apply IH in H.
Qed.

Lemma check_scm_same msg s t : check_scm_rights_fd a msg s = (Ok tt, t) -> t = s.
Proof.
  unfold check_scm_rights_fd. destruct (_ <? _); [by intros [= <-]|]. intros H. apply bind_Ok_inv in H as (data & t1 & ->%read_bytes_helper_same & H).
  by apply bind_Ok_inv in H as (l & t1 & [_ ->]%lift_inv & [= <-]).
Qed.

Lemma check_received_same p n s t : check_received a p n s = (Ok tt, t) -> t = s.
Proof.
  unfold check_received. intros H. apply bind_Ok_inv in H as (msgs & t1 & ->%read_bytes_helper_same & H).
  eapply for_each_same; [|exact H]. intros i s' t'. apply check_scm_same.
Qed.

(** What the switch changes: memory only for [sched_getaffinity]. *)
Definition case_ended (call : syscall) (s t : rtask) : Prop :=
  exists m r wb no, t = ended m r (with_entry_args (restored_registers call) (syscall_entry_args s) (args s)) wb no s /\
    (call <> sys_sched_getaffinity -> m = mem s) /\ (wb = write_back s \/ (wb = NO_WRITE_BACK /\ movable call = true)).

Lemma case_ended_same call s : restored_registers call = 0%nat -> case_ended call s s.
Proof.
  intros Hk. exists (mem s), (syscall_result_signed s), (write_back s), (original_syscallno s). rewrite Hk. split; [by destruct s|auto].
Qed.

Lemma process_socketcall_ended s t : process_socketcall a env s = (Ok tt, t) -> case_ended sys_socketcall s t.
Proof.
  unfold process_socketcall. intros H. apply bind_Ok_inv in H as (n & t1 & [-> ->]%ask_inv & H).
  apply bind_Ok_inv in H as ([] & t1 & H1 & H). assert (exists r, t1 = set_syscall_result r s) as (r & ->).
  { destruct (_ =? _); injection H1 as <-; [by eexists|]. exists (syscall_result_signed s). by destruct s. }
  apply bind_Ok_inv in H as ([] & t1 & [= <-] & H). apply bind_Ok_inv in H as ([] & t1 & [= <-] & H).
  apply bind_Ok_inv in H as (v & t1 & [-> ->]%ask_inv & H). apply bind_Ok_inv in H as (l & t1 & [-> ->]%ask_inv & H).
  match type of H with _ ?u = _ => assert (t = u) as -> end.
  { destruct (syscall_failed _); [by injection H as <-|]. destruct (_ =? 17).
    - apply bind_Ok_inv in H as (x & t1 & ->%read_bytes_helper_same & H). apply bind_Ok_inv in H as (y & t1 & ->%read_bytes_helper_same & H).
      by apply check_scm_same in H.
    - destruct (_ =? 19); [|by injection H as <-]. apply bind_Ok_inv in H as (x & t1 & ->%read_bytes_helper_same & H).
      by apply check_received_same in H. }
  exists (mem s), r, (write_back s), socketcall_number. split; [by destruct s|auto].
Qed.

Lemma process_affinity_ended s t : process_sched_getaffinity env s = (Ok tt, t) -> case_ended sys_sched_getaffinity s t.
Proof.
  unfold process_sched_getaffinity. intros H. apply bind_Ok_inv in H as (r & t1 & [-> ->]%ask_inv & H).
  apply bind_Ok_inv in H as (l & t1 & [-> ->]%ask_inv & H).
  assert (exists m, t = set_mem m s) as (m & ->).
  { destruct (_ && _); [|injection H as <-; exists (mem s); by destruct s]. destruct (_ <? _); [injection H as <-; exists (mem s); by destruct s|].
    apply write_bytes_helper_inv in H. by eexists. }
  exists m, (syscall_result_signed s), (write_back s), (original_syscallno s). split; [by destruct s|]. split; [done|by left].
Qed.

Lemma process_connect_ended s t : process_connect a env s = (Ok tt, t) -> case_ended sys_connect s t.
Proof.
  unfold process_connect. intros H. apply bind_Ok_inv in H as (n & t1 & [-> ->]%ask_inv & H).
  destruct (_ =? _); [|injection H as <-; by apply case_ended_same]. apply bind_Ok_inv in H as ([] & t1 & [= <-] & [= <-]).
  exists (mem s), (- EACCES), (write_back s), (connect_number a). split; [by destruct s|auto].
Qed.

Lemma process_received_ended s t :
  (process_recvmsg a s = (Ok tt, t) -> case_ended sys_recvmsg s t) /\ (process_recvmmsg a s = (Ok tt, t) -> case_ended sys_recvmmsg s t).
Proof.
  split; unfold process_recvmsg, process_recvmmsg; intros H; apply bind_Ok_inv in H as (r & t1 & [-> ->]%ask_inv & H);
    apply bind_Ok_inv in H as (l & t1 & [-> ->]%ask_inv & H); (destruct (syscall_failed _); [injection H as <-; by apply case_ended_same|]).
  - apply bind_Ok_inv in H as (x & t1 & ->%read_bytes_helper_same & ->%check_scm_same). by apply case_ended_same.
  - apply check_received_same in H as ->. by apply case_ended_same.
Qed.

Lemma process_nanosleep_ended call s t :
  call = sys_nanosleep \/ call = sys_clock_nanosleep -> process_nanosleep s = (Ok tt, t) -> case_ended call s t.
Proof.
  intros Hc H. assert (restored_registers call = 0%nat /\ movable call = true) as [Hk Hm] by by destruct Hc as [-> | ->].
  unfold process_nanosleep in H. apply bind_Ok_inv in H as (r & t1 & [-> ->]%ask_inv & H).
  destruct (_ =? _); injection H as <-; [|by apply case_ended_same].
  exists (mem s), (syscall_result_signed s), NO_WRITE_BACK, (original_syscallno s). rewrite Hk. split; [by destruct s|auto].
Qed.

Lemma process_quotactl_ended s t : process_quotactl s = (Ok tt, t) -> case_ended sys_quotactl s t.
Proof.
  unfold process_quotactl. intros H. apply bind_Ok_inv in H as (r & t1 & [-> ->]%ask_inv & H).
  apply bind_Ok_inv in H as (l & t1 & [-> ->]%ask_inv & H).
  destruct (one_of _ _); [injection H as <-|apply ASSERT_Ok_inv in H as [_ ->]]; by apply case_ended_same.
Qed.

(** The cases that only restore registers. *)
Lemma restore_ended call s : case_ended call s (set_args (take (restored_registers call) (syscall_entry_args s) ++ drop (restored_registers call) (args s)) s).
Proof. exists (mem s), (syscall_result_signed s), (write_back s), (original_syscallno s). split; [by destruct s|auto]. Qed.

Lemma rec_process_case_ended other call s t :
  elsewhere env call s = false -> rec_process_case a env other call s = (Ok tt, t) -> case_ended call s t.
Proof.
  intros Hel H. unfold rec_process_case in H. apply bind_Ok_inv in H as (e & t1 & [-> ->]%ask_inv & H). rewrite Hel in H.
  destruct call; try (apply bind_Ok_inv in H as ([] & t1 & [= <-] & [= <-]); apply restore_ended).
  - by apply process_socketcall_ended.
  - by apply process_received_ended.
  - by apply process_received_ended.
  - by apply process_connect_ended.
  - by apply process_quotactl_ended.
  - apply (process_nanosleep_ended sys_nanosleep); auto.
  - apply (process_nanosleep_ended sys_clock_nanosleep); auto.
  - by apply process_affinity_ended.
Qed.

(** How many registers have their values at the entry again. *)
Definition args_back (call : syscall) (s : rtask) : nat :=
  if (original_syscallno s =? SECCOMP_MAGIC_SKIP_ORIGINAL_SYSCALLNO) || negb (expect_errno s =? 0) then 0 else restored_registers call.

Lemma rec_process_ended other call s t :
  elsewhere env call s = false -> rec_process_syscall_arch a env other call s = (Ok tt, t) ->
  exists m r wb no, t = ended m r (with_entry_args (args_back call s) (syscall_entry_args s) (args s)) wb no s /\
    (call <> sys_sched_getaffinity -> m = mem s) /\ (wb = write_back s \/ (wb = NO_WRITE_BACK /\ movable call = true)).
Proof.
  intros Hel H. unfold rec_process_syscall_arch in H. apply bind_Ok_inv in H as (n & t1 & [-> ->]%ask_inv & H).
  apply bind_Ok_inv in H as (e & t1 & [-> ->]%ask_inv & H). apply bind_Ok_inv in H as (v & t1 & [-> ->]%ask_inv & H). unfold args_back.
  assert (exists m r wb no, s = ended m r (with_entry_args 0 (syscall_entry_args s) (args s)) wb no s /\
    (call <> sys_sched_getaffinity -> m = mem s) /\ (wb = write_back s \/ (wb = NO_WRITE_BACK /\ movable call = true))) as Hsame.
  { exists (mem s), (syscall_result_signed s), (write_back s), (original_syscallno s). split; [by destruct s|auto]. }
  destruct (_ =? SECCOMP_MAGIC_SKIP_ORIGINAL_SYSCALLNO); [by injection H as <-|].
  destruct (negb (expect_errno s =? 0)); [by apply ASSERT_Ok_inv in H as [_ ->]|]. by apply rec_process_case_ended in H.
Qed.

End Ends.

(** Without leave to switch nothing goes to scratch memory. *)
Lemma prevented_direct s sw' s1 : preparation_done s = false -> scratch_enabled s = false ->
  done_preparing PREVENT_SWITCH s = (Ok sw', s1) -> scratch_enabled s1 = false.
Proof.
  intros Hd Hen H. unfold done_preparing in H. apply bind_Ok_inv in H as (d & t1 & [-> ->]%ask_inv & H). rewrite Hd in H.
  apply bind_Ok_inv in H as (sw1 & t1 & Hi & H). apply bind_Ok_inv in H as (sw2 & t2 & [-> ->]%ask_inv & H).
  apply bind_Ok_inv in H as ([] & t2 & [_ ->]%ASSERT_Ok_inv & H). apply bind_Ok_inv in H as (l & t2 & [-> ->]%ask_inv & H).
  apply bind_Ok_inv in H as ([] & t2 & H1 & [_ ->]%ask_inv). rewrite (run_mutators_enabled _ _ _ H1).
  unfold done_preparing_internal in Hi. apply bind_Ok_inv in Hi as (d & u & [-> ->]%ask_inv & Hi).
  apply bind_Ok_inv in Hi as ([] & u & [_ ->]%ASSERT_Ok_inv & Hi). do 3 (apply bind_Ok_inv in Hi as ([] & u & [= <-] & Hi)).
  apply bind_Ok_inv in Hi as (base & u & [-> ->]%ask_inv & Hi). destruct (_ =? 0); [by apply ask_inv in Hi as [_ ->]|].
  apply bind_Ok_inv in Hi as (sc & u & [-> ->]%ask_inv & Hi). apply bind_Ok_inv in Hi as ([] & u & [_ ->]%ASSERT_Ok_inv & Hi).
  apply bind_Ok_inv in Hi as (us & u & [-> ->]%ask_inv & Hi). rewrite bool_decide_eq_false_2 in Hi by done. cbn [andb] in Hi.
  apply bind_Ok_inv in Hi as ([] & u & [= <-] & Hi). apply bind_Ok_inv in Hi as (sw & u & [-> ->]%ask_inv & Hi).
  apply bind_Ok_inv in Hi as (k & u & [-> ->]%ask_inv & Hi). cbn in Hi. rewrite bool_decide_eq_true_2 in Hi by done. by injection Hi as _ <-.
Qed.

Lemma affinity_prevents a env s sw s2 : rec_prepare_case a env sys_sched_getaffinity s = (Ok sw, s2) -> sw = PREVENT_SWITCH.
Proof.
  cbn [rec_prepare_case]. unfold result_buffer_uint. intros H. apply bind_Ok_inv in H as (len & t1 & _ & H).
  by apply bind_Ok_inv in H as (d & t2 & _ & [= <- _]).
Qed.

(** What the cases left, before anything was moved. *)
Definition registered_by (a : SupportedArch) (env : RecordEnv) (call : syscall) (s : rtask) (sw : Switchable) (s2 : rtask) : Prop :=
  rec_prepare_case a env call (set_syscall_entry_args (args s) (set_scratch (scratch_ptr s) s)) = (Ok sw, s2).

(** The registers at the entry of the call are kept. *)
Lemma done_preparing_entry s sw sw' s1 : call_params s -> reachable (param_list s) ->
  done_preparing sw s = (Ok sw', s1) -> scratch_enabled s1 = true -> syscall_entry_args s1 = syscall_entry_args s /\ write_back s1 = WRITE_BACK.
Proof.
  intros Hc Hre Hd He.
  assert (prepares (entered sw s) s1) as Hpr by (eapply done_preparing_prepares; [by apply call_ready|by destruct Hc..|done|done]).
  split; [by rewrite (pr_entry _ _ Hpr)|by rewrite (pr_write_back _ _ Hpr)].
Qed.

(** C4.  Every system call of the modelled cases that goes through scratch
    memory, that a seccomp filter did not veto and whose preparation and
    processing do not fail an assertion, is recorded faithfully: after rr
    prepared it, the kernel wrote to scratch memory and to the parameters that
    stay where they are, and rr did its work for the particular call
    (rec_process_syscall_arch) and processed the results, the tracee's memory
    outside of scratch is what the preparation left with the recorded data
    applied in order, which is what replay does; every argument register that
    was redirected holds its pointer again, and those that the particular call
    restores hold their values at the entry of the call.  The sizes of the
    parameters have to add up to scratch memory that ends below 2^64: a readv or
    recvmmsg with a length near 2^64 makes the end of scratch memory wrap around
    and is not covered (readv_wraps shows what it does).  Not covered either is
    a call whose work at its end is in other parts of rr: changes of the address
    space, directories of /proc/*/fd, seccomp filters and the calls of the
    preload library. *)
Theorem recorded_call a env other call s sw s2 sw' s1 m r s3 :
  at_entry s -> original_syscallno s <> SECCOMP_MAGIC_SKIP_ORIGINAL_SYSCALLNO ->
  registered_by a env call s sw s2 -> fits s2 ->
  rec_prepare_syscall a env call s = (Ok sw', s1) -> scratch_enabled s1 = true ->
  kernel_wrote (in_scratch (scratch_ptr s2) (scratch s2)) (param_list s2) (mem s1) m -> elsewhere env call (kernel m r s1) = false ->
  rec_process_syscall a env other call (kernel m r s1) = (Ok tt, s3) ->
  exists recs, records s3 = records s2 ++ recs /\
    args s3 = restored_args (param_list s2) (with_entry_args (args_back call s1) (syscall_entry_args s2) (args s2)) /\
    forall x, ~ in_scratch (scratch_ptr s2) (scratch s2) x -> mem s3 x = apply_records recs (mem s2) x.
Proof.
  intros He Hn Hcase Hfit Hp Hen Hk Hel H. apply bind_Ok_inv in H as ([] & t & Ht & H).
  destruct (rec_prepare_split _ _ _ _ _ _ He Hn Hp) as (sw0 & s0 & Hc0 & Hprep & Hd).
  unfold registered_by in Hcase. rewrite Hcase in Hc0. injection Hc0 as <- <-.
  pose proof (prepared_call _ _ Hprep Hfit) as Hcp. destruct Hprep as [Hs _]. pose proof (sn_kind _ _ Hs) as Hkind.
  destruct (done_preparing_entry _ _ _ _ Hcp (kind_reachable _ _ Hkind) Hd Hen) as [Hentry Hwb].
  apply rec_process_ended in Ht as (m' & r' & wb & no & -> & Hm & Hw); [|done].
  assert (m' = m) as ->.
  { apply Hm. intros ->. apply affinity_prevents in Hcase as ->. apply prevented_direct in Hd; [congruence|apply Hs..]. }
  change (args_back call (kernel m r s1)) with (args_back call s1) in H. change (syscall_entry_args (kernel m r s1)) with (syscall_entry_args s1) in H.
  change (args (kernel m r s1)) with (args s1) in H. rewrite Hentry in H.
  eapply (call_transparent s2 sw sw' s1 m r' (args_back call s1) wb no); try done; [by eapply kind_reachable|].
  intros ->. destruct Hw as [Hw|[_ Hmv]]; [cbn in Hw; congruence|]. unfold kind_ok, kind_of in Hkind. cbn [moves] in Hkind. by rewrite Hmv in Hkind.
Qed.

(** C15.  Every modelled system call on the tracee's own memory that a seccomp
    filter did not veto and whose preparation and processing do not fail an
    assertion, but rt_sigaction and the calls whose work at their end is in
    other parts of rr (the address space, directories of /proc/*/fd, seccomp
    filters, the preload library): if the inputs that rr changed in place, like
    signal sets, do not overlap each other, they are put back, the sizes of all
    parameters are evaluated with the result of the call and their contents
    recorded, the registers the particular call restores hold their values at
    its entry, and if the kernel, and rr itself for sched_getaffinity, wrote
    only within those sizes and not to the changed inputs, the memory is what it
    was before the preparation with the recorded data applied. *)
Theorem recorded_call_direct a env other call s sw s2 sw' s1 m r s3 :
  at_entry s -> original_syscallno s <> SECCOMP_MAGIC_SKIP_ORIGINAL_SYSCALLNO -> saving call = true ->
  registered_by a env call s sw s2 -> ForallOrdPairs disjoint_areas (mutated (param_list s2)) ->
  rec_prepare_syscall a env call s = (Ok sw', s1) -> scratch_enabled s1 = false -> elsewhere env call (kernel m r s1) = false ->
  rec_process_syscall a env other call (kernel m r s1) = (Ok tt, s3) ->
  exists t sizes recs, rec_process_syscall_arch a env other call (kernel m r s1) = (Ok tt, t) /\ (call <> sys_sched_getaffinity -> mem t = m) /\
    actual_sizes (mem s3) (syscall_result_signed t) [] (param_list s1) = Ok sizes /\ records s3 = records s2 ++ recs /\
    args s3 = with_entry_args (args_back call s1) (syscall_entry_args s1) (args s1) /\
    (kernel_wrote_direct (param_list s1) sizes (mem s1) (mem t) -> forall x, mem s3 x = apply_records recs (mem s2) x).
Proof.
  intros He Hn Hsv Hcase Hdis Hp Hen Hel H. apply bind_Ok_inv in H as ([] & t & Ht & H). exists t.
  destruct (rec_prepare_split _ _ _ _ _ _ He Hn Hp) as (sw0 & s0 & Hc0 & [Hs _] & Hd).
  unfold registered_by in Hcase. rewrite Hcase in Hc0. injection Hc0 as <- <-. pose proof Ht as Ht'.
  apply rec_process_ended in Ht as (m' & r' & wb & no & -> & Hm & _); [|done].
  change (args_back call (kernel m r s1)) with (args_back call s1) in *. change (syscall_entry_args (kernel m r s1)) with (syscall_entry_args s1) in *.
  change (args (kernel m r s1)) with (args s1) in *.
  destruct (call_direct s2 sw sw' s1 m' r' _ wb no s3 (sn_done _ _ Hs) (sn_dests _ _ Hs) (sn_bytes _ _ Hs) (sn_saved _ _ Hs)
    (sn_mutators _ _ Hs Hsv) Hdis Hd Hen H) as (sizes & recs & R1 & R2 & R3 & R4).
  exists sizes, recs. by split_and!.
Qed.

(** ** Sizes of parameters after a call, and calls that stop rr

    [shared_result]: the buffers of a [readv] or [recvmsg] share the number of bytes the call
    returned, each taking what fits, in order.  The rest shows what the preparation of calls
    does not handle: the mutator of [rt_sigaction] saves the structure it has already changed,
    and calls the kernel answers with an error can stop rr. *)

(** ** Buffers that share a result *)

(** [avail] bytes over buffers of the sizes [lens]. *)
Fixpoint distribute (avail : Z) (lens : list Z) : list Z :=
  match lens with
  | [] => []
  | n :: lens => Z.min n avail :: distribute (avail - Z.min n avail) lens
  end.

Definition sum (l : list Z) : Z := foldr Z.add 0 l.

Lemma distribute_sum avail lens : 0 <= avail -> Forall (fun n => 0 <= n) lens -> sum (distribute avail lens) = Z.min avail (sum lens).
Proof.
  intros Ha H. revert avail Ha. induction H as [|n lens Hn H IH]; intros avail Ha; cbn [distribute sum foldr]; [lia|].
  fold (sum (distribute (avail - Z.min n avail) lens)) (sum lens). rewrite IH by lia.
  assert (0 <= sum lens) by (clear -H; induction H; cbn; [lia|unfold sum in *; lia]). lia.
Qed.

(** A parameter that takes its size from the result of the call. *)
Definition from_result (n : Z) (p : MemoryParam) : Prop := num_bytes p = limit_size (from_syscall_result 8) n.

Definition done_sizes (before : list (MemoryParam * Z)) : Prop :=
  Forall (fun x : MemoryParam * Z => (exists n, from_result n x.1) /\ 0 <= x.2) before.

Lemma consumed_sum before p n : from_result n p -> done_sizes before -> sum (map snd before) < 2 ^ 64 ->
  consumed before p = sum (map snd before).
Proof.
  intros Hp Hb. unfold consumed.
  assert (List.filter (fun x : MemoryParam * Z => is_same_source (num_bytes x.1) (num_bytes p)) before = before) as ->.
  { induction Hb as [|x before [[k Hk] _] Hb IH]; [done|]. cbn [List.filter]. rewrite Hk, Hp. cbn. by rewrite IH. }
  assert (forall acc, 0 <= acc -> acc + sum (map snd before) < 2 ^ 64 ->
    fold_left (fun z (x : MemoryParam * Z) => u64 (z + x.2)) before acc = acc + sum (map snd before)) as Hacc.
  { induction Hb as [|x before [_ Hx] Hb IH]; intros acc Ha Hs; cbn [fold_left map sum foldr] in *; [lia|].
    assert (0 <= sum (map snd before)) by (clear -Hb; induction Hb as [|y l [_ Hy]]; cbn; unfold sum in *; lia).
    unfold sum in *. rewrite u64_small by lia. rewrite IH by lia. lia. }
  intros Hs. rewrite Hacc by lia. lia.
Qed.

Lemma eval_result m r c p n : from_result n p -> 0 <= r < 2 ^ 63 -> 0 <= c <= r -> 0 <= n < 2 ^ 64 ->
  eval m r c (num_bytes p) = Ok (Z.min n (r - c)).
Proof.
  intros -> Hr Hc Hn. unfold eval, limit_size, from_syscall_result, remaining, rassert. cbn [mem_ptr from_syscall incoming_size read_size].
  change (negb (0 =? 0)) with false. cbn iota. change (mret ?x) with (Ok x). rewrite bind_result_ok, u64_small by lia.
  change ((Z.of_nat 8 =? 4) || (Z.of_nat 8 =? 8)) with true. change (Z.of_nat 8 =? 4) with false. cbn iota. rewrite bind_result_ok.
  replace (Z.max 0 r) with r by lia. destruct (Z.leb_spec c r); [|lia]. rewrite !bind_result_ok.
  replace (Z.min (Z.min SIZE_MAX n) (r - c)) with (Z.min n (r - c)) by (unfold SIZE_MAX; lia).
  destruct (Z.ltb_spec (Z.min n (r - c)) SIZE_MAX); [done|unfold SIZE_MAX in *; lia].
Qed.

Lemma sum_app l k : sum (l ++ k) = sum l + sum k.
Proof. unfold sum. induction l as [|x l IH]; cbn; [done|]. lia. Qed.

Lemma distribute_sizes m r before ps lens : 0 <= r < 2 ^ 63 -> done_sizes before -> sum (map snd before) <= r ->
  Forall2 from_result lens ps -> Forall (fun n => 0 <= n < 2 ^ 64) lens ->
  actual_sizes m r before ps = Ok (before ++ zip ps (distribute (r - sum (map snd before)) lens)).
Proof.
  intros Hr Hb Hs H Hl. revert before Hb Hs. induction H as [|n p lens ps Hp H IH]; intros before Hb Hs; cbn [actual_sizes distribute zip].
  { by rewrite app_nil_r. }
  apply Forall_cons_1 in Hl as [Hn Hl].
  assert (0 <= sum (map snd before)) as H0 by (clear -Hb; induction Hb as [|y l [_ Hy]]; cbn; unfold sum in *; lia).
  rewrite (consumed_sum before p n), (eval_result _ _ _ _ n), bind_result_ok by (done || lia).
  set (x := Z.min n (r - sum (map snd before))). rewrite IH; [| done | |].
  - rewrite map_app, sum_app. cbn [map sum foldr snd]. rewrite <- app_assoc. cbn [app].
    replace (r - (sum (map snd before) + (x + 0))) with (r - sum (map snd before) - x) by lia. done.
  - apply Forall_app_2; [done|]. apply Forall_singleton. split; [by exists n|]. cbn. unfold x. lia.
  - rewrite map_app, sum_app. cbn. unfold x. lia.
Qed.

(** The buffers of a readv or recvmsg share the number of bytes the call
    returned: `eval_param_size` gives each what fits of the rest, in order, its
    assertion holds, and the recorded sizes add up to the result or to all of
    the buffers. *)
Theorem shared_result m r ps lens :
  0 <= r < 2 ^ 63 -> Forall2 from_result lens ps -> Forall (fun n => 0 <= n < 2 ^ 64) lens ->
  actual_sizes m r [] ps = Ok (zip ps (distribute r lens)) /\ sum (distribute r lens) = Z.min r (sum lens).
Proof.
  intros Hr H Hl. split.
  - rewrite (distribute_sizes m r [] ps lens) by first [done|by constructor|unfold sum; cbn [map foldr]; lia]. cbn [map sum foldr app]. by rewrite Z.sub_0_r.
  - apply distribute_sum; [lia|]. eapply Forall_impl; [|exact Hl]. cbn. lia.
Qed.

(** ** The mutator of [rt_sigaction]

    What it saves is what it has written: putting it back changes nothing. *)

Lemma get_bytes_overlay m p l : get_bytes (overlay m p l) p (length l) = Some l.
Proof.
  assert (forall k i, length k + i = length l -> k = drop i l -> get_bytes (overlay m p l) (p + Z.of_nat i) (length k) = Some k)%nat as H.
  { induction k as [|b k IH]; intros i Hi Hk; [done|]. cbn [length get_bytes]. rewrite overlay_in by (unfold covers; cbn in Hi; lia).
    replace (Z.to_nat (p + Z.of_nat i - p)) with i by lia.
    assert (l !! i = Some b) as -> by (rewrite <- (Nat.add_0_r i), <- lookup_drop, <- Hk; done). cbn [mbind option_bind].
    replace (p + Z.of_nat i + 1) with (p + Z.of_nat (S i)) by lia. rewrite (IH (S i)); [done|cbn in Hi; lia|].
    assert (drop 1 (b :: k) = drop 1 (drop i l)) as E by by rewrite Hk. rewrite drop_drop in E. cbn in E. by rewrite Nat.add_1_r in E. }
  specialize (H l 0%nat). rewrite Z.add_0_r in H. apply H; [lia|done].
Qed.

Theorem sa_mask_saves_the_change a p m m' save :
  protect_rr_sigs_sa_mask a p m = Ok (Some (m', save)) ->
  read_bytes m' p (sizeof (kernel_sigaction a)) = Ok save /\ read_bytes m p (sizeof (kernel_sigaction a)) <> Ok save.
Proof.
  unfold protect_rr_sigs_sa_mask. destruct (p =? 0); [done|]. destruct (read_bytes m p _) as [sa|] eqn:E; [|done]. rewrite bind_result_ok.
  case_bool_decide as Hne; [done|]. destruct (write_bytes m p _) as [m1|] eqn:Ew; [|done]. rewrite bind_result_ok. intros [= <- <-].
  apply write_bytes_inv in Ew as ->. split; [|congruence]. apply read_bytes_inv in E as [E _].
  unfold read_bytes. rewrite <- E, <- (unblocked_length a sa) by done. by rewrite get_bytes_overlay.
Qed.

(** ** Calls that fail and stop rr *)

Lemma get_bytes_missing m a n x : m x = None -> covers a (Z.of_nat n) x -> get_bytes m a n = None.
Proof.
  revert a. induction n as [|n IH]; intros a Hm Hc; [unfold covers in Hc; lia|]. cbn. destruct (decide (x = a)) as [->|Hn].
  - by rewrite Hm.
  - rewrite IH; [by destruct (m a)|done|]. unfold covers in *. lia.
Qed.

(** Memory that is not there stays away. *)
Lemma write_keeps_missing p l s t x : write_bytes_helper p l s = (Ok tt, t) -> mem s x = None -> mem t x = None.
Proof.
  unfold write_bytes_helper. intros H Hx. apply bind_Ok_inv in H as (m & t1 & [-> ->]%ask_inv & H).
  apply bind_Ok_inv in H as (m' & t1 & [Hw ->]%lift_inv & [= <-]). cbn [mem set_mem]. unfold write_bytes in Hw.
  destruct (get_bytes (mem s) p (length l)) eqn:Hg; [|done]. injection Hw as <-.
  destruct (covers_dec p (Z.of_nat (length l)) x) as [Hc|Hc]; [|by rewrite overlay_out].
  by rewrite (get_bytes_missing _ _ _ x Hx Hc) in Hg.
Qed.

Lemma unmutate_keeps_missing l s t x : for_each unmutate l s = (Ok tt, t) -> mem s x = None -> mem t x = None.
Proof.
  revert s. induction l as [|p l IH]; intros s H Hx; cbn [for_each] in H; [by injection H as <-|].
  apply bind_Ok_inv in H as ([] & t1 & H1 & H). apply IH in H; [done|]. unfold unmutate in H1. destruct (mutator p); [|by injection H1 as <-].
  apply bind_Ok_inv in H1 as (d & t2 & [-> ->]%ask_inv & H1). apply bind_Ok_inv in H1 as ([] & t2 & [_ ->]%ASSERT_Ok_inv & H1).
  apply bind_Ok_inv in H1 as ([] & t2 & H2 & [= <-]). by eapply write_keeps_missing in H2.
Qed.

Lemma record_all_missing before l s t p x :
  p ∈ l -> fixed_size p -> dest p <> 0 -> covers (dest p) (incoming_size (num_bytes p)) x -> mem s x = None ->
  record_all before l s <> (Ok tt, t).
Proof.
  intros Hp Hf Hd Hc. revert before s. induction l as [|q l IH]; intros before s Hx H; [by apply elem_of_nil in Hp|].
  cbn [record_all] in H. apply bind_Ok_inv in H as (size & t1 & H1 & H). unfold eval_param_size in H1.
  apply bind_Ok_inv in H1 as (m & t2 & [-> ->]%ask_inv & H1). apply bind_Ok_inv in H1 as (r & t3 & [-> ->]%ask_inv & [He ->]%lift_inv).
  apply bind_Ok_inv in H as ([] & t1 & H1 & H). apply elem_of_cons in Hp as [<-|Hp].
  - apply eval_fixed in He as ->; [|done]. apply record_remote_inv in H1 as (b & Hr & _); [|done]. unfold read_bytes in Hr.
    rewrite (get_bytes_missing _ _ _ x Hx) in Hr; [done|]. unfold covers in *. lia.
  - apply (IH Hp) in H; [done|]. unfold record_remote in H1. apply bind_Ok_inv in H1 as ([] & t4 & [_ ->]%ASSERT_Ok_inv & H1).
    destruct (_ =? 0); [by injection H1 as <-|]. apply bind_Ok_inv in H1 as (b & t4 & ->%read_bytes_helper_same & H1).
    unfold record_local in H1. by destruct (_ =? 0); injection H1 as <-.
Qed.

(** C39.  For a call on the tracee's own memory, a parameter of fixed size with
    a pointer that is not null, at any place in the list, that reaches into
    memory that is not mapped keeps `process_syscall_results` from succeeding,
    whatever the call returned.  In the witness a getgroups(-1, list), which the
    kernel refuses with EINVAL, ends the recording this way. *)
Theorem unmapped_parameter_stops_rr s p x :
  scratch_enabled s = false -> p ∈ param_list s -> fixed_size p -> dest p <> 0 ->
  covers (dest p) (incoming_size (num_bytes p)) x -> mem s x = None ->
  (process_syscall_results s).1 <> Ok tt.
Proof.
  intros He Hp Hf Hd Hc Hx E. destruct (process_syscall_results s) as [res s'] eqn:H. cbn in E. subst res. unfold process_syscall_results in H. apply bind_Ok_inv in H as (d & t & [-> ->]%ask_inv & H).
  apply bind_Ok_inv in H as ([] & t & [_ ->]%ASSERT_Ok_inv & H). apply bind_Ok_inv in H as (e & t & [-> ->]%ask_inv & H). rewrite He in H.
  apply bind_Ok_inv in H as ([] & t & Hfin & _). unfold finish_direct in Hfin. apply bind_Ok_inv in Hfin as (l & t1 & [-> ->]%ask_inv & Hfin).
  apply bind_Ok_inv in Hfin as ([] & t1 & Hu & Hfin). apply (unmutate_keeps_missing _ _ _ x) in Hu; [|done].
  apply bind_Ok_inv in Hfin as (d & t2 & [-> ->]%ask_inv & Hfin). apply bind_Ok_inv in Hfin as ([] & t2 & [_ ->]%ASSERT_Ok_inv & Hfin).
  by apply (record_all_missing _ _ _ _ p x) in Hfin.
Qed.
