(* ===== verification/SyscallWitnesses.v ===== *)
(** * Recorded system calls: examples

    A [readv] with one buffer through scratch memory, a [rt_sigprocmask] whose set is changed in
    place, and calls that stop rr or are not recorded. *)

From stdpp Require Import base tactics list numbers.
From S2P Require Import Prelude TracerMonad KernelAbi SyscallParams SyscallParamsSpec SyscallScratch SyscallDirect SyscallSockets SyscallPrepare SyscallPrepareSpec.
Local Open Scope Z_scope.

(** ** readv *)

(** One [iovec] at 4096, for the 4 bytes at 4128; scratch memory at 20480. *)
Definition readv_mem : tmem := fun x =>
  if (20480 <=? x) && (x <? 20608) then Some 0
  else if (4096 <=? x) && (x <? 4160) then
    if x =? 4096 then Some 32 else if x =? 4097 then Some 16 else if x =? 4104 then Some 4 else Some 0
  else None.

Definition readv_start : rtask :=
  mkRtask [3; 4096; 1] 0 readv_mem [] 20480 128 8 [] 20480 [3; 4096; 1] 0 false 0 ALLOW_SWITCH WRITE_BACK false false [] 0 false true 0 0 true.

Definition readv_registered : rtask :=
  (mem_ptr_parameter 4096 (limit_size (from_syscall_result 8) 4) OUT None
    (reg_parameter 2 (of_size 16) IN None readv_start).2).2.

Definition readv_prepared : rtask := (done_preparing ALLOW_SWITCH readv_registered).2.

(** The kernel reads the pointer in scratch and finds scratch there. *)
Definition readv_result : tmem := overlay (mem readv_prepared) 20496 [104; 105; 10].

Definition readv_end : rtask := (process_syscall_results (kernel readv_result 3 readv_prepared)).2.

Lemma pair_eta {A B} (x : A * B) a : x.1 = a -> x = (a, x.2).
Proof. intros <-. by destruct x. Qed.

(** Parameters without mutators. *)
Lemma proper_plain s size md :
  (0 <=? incoming_size size) && (scratch s + incoming_size size + 7 <? 2 ^ 64) && negb (bool_decide (md = IN_OUT_NO_SCRATCH)) = true ->
  proper s size md None.
Proof.
  rewrite !andb_true_iff, Z.leb_le, Z.ltb_lt, negb_true_iff, bool_decide_eq_false. intros [[H1 H2] H3]. by split.
Qed.

Lemma readv_mem_bytes x b : readv_mem x = Some b -> 0 <= b < 256.
Proof. unfold readv_mem. repeat case_match; intros [= <-]; lia. Qed.

Lemma readv_registers : registers readv_start readv_registered.
Proof.
  eapply (registers_mem _ (reg_parameter 2 (of_size 16) IN None readv_start).2 _ 4096 (limit_size (from_syscall_result 8) 4) OUT None 4128).
  - eapply (registers_reg _ readv_start _ 2 (of_size 16) IN None 4096); [constructor|cbn; lia| |by apply pair_eta].
    apply proper_plain; vm_compute; reflexivity.
  - apply proper_plain; vm_compute; reflexivity.
  - apply pair_eta. vm_compute. done.
Qed.

Lemma readv_starting : starting readv_start.
Proof. split; try done; [repeat constructor; lia|by right|exact readv_mem_bytes]. Qed.

Lemma readv_reachable : reachable (param_list readv_registered).
Proof.
  intros p x Hp Hn Hx. apply elem_containing in Hx as [Hx _].
  assert (forallb (fun q => bool_decide (mode q <> IN_OUT_NO_SCRATCH)) (param_list readv_registered) = true) as H by (vm_compute; done).
  rewrite forallb_forall in H. apply list_elem_of_In in Hx. by apply H, bool_decide_eq_true in Hx.
Qed.

Lemma scratch_transparent_witness :
  records readv_end = [(4128, [104; 105; 10])] /\
  exists recs, records readv_end = records readv_start ++ recs /\ args readv_end = args readv_start /\
    forall x, ~ in_scratch 20480 20504 x -> mem readv_end x = apply_records recs (mem readv_start) x.
Proof.
  split; [vm_compute; reflexivity|].
  apply (scratch_transparent readv_start readv_registered ALLOW_SWITCH ALLOW_SWITCH readv_prepared readv_result 3 readv_end).
  - exact readv_starting.
  - exact readv_registers.
  - exact readv_reachable.
  - unfold readv_prepared. apply pair_eta. vm_compute. reflexivity.
  - vm_compute. reflexivity.
  - intros x Hx. left. apply overlay_out. intros Hc. apply Hx. unfold in_scratch, covers in *. cbn [length] in Hc.
    change (scratch_ptr readv_start) with 20480. assert (scratch readv_registered = 20504) as -> by (vm_compute; reflexivity). lia.
  - unfold readv_end. apply pair_eta. vm_compute. reflexivity.
Defined.

(** ** rt_sigprocmask *)

Definition sigprocmask_start : rtask :=
  mkRtask [0; 4128; 4136; 8] 0 (overlay readv_mem 4128 [1; 128]) [] 0 0 8 [] 0 [0; 4128; 4136; 8] 0 false 0 ALLOW_SWITCH WRITE_BACK false false [] 0 false true 0 0 true.

Definition sigprocmask_registered : rtask :=
  (reg_parameter 3 (of_size 8) OUT None (reg_parameter 2 (of_size 8) IN (Some protect_rr_sigs) sigprocmask_start).2).2.

Definition sigprocmask_prepared : rtask := (done_preparing PREVENT_SWITCH sigprocmask_registered).2.

Definition sigprocmask_end : rtask :=
  (process_syscall_results (kernel (overlay (mem sigprocmask_prepared) 4136 [1; 2; 3; 4; 5; 6; 7; 8]) 0 sigprocmask_prepared)).2.

Lemma sigprocmask_starting : starting sigprocmask_start.
Proof.
  split; try done; [repeat constructor; lia|by right|]. cbn. intros x b. unfold overlay. case_match; [|apply readv_mem_bytes].
  cbn. destruct (Z.to_nat (x - 4128)) as [|[|[|?]]]; cbn; intros [= <-]; lia.
Qed.

Lemma sigprocmask_registers : registers sigprocmask_start sigprocmask_registered.
Proof.
  eapply (registers_reg _ (reg_parameter 2 (of_size 8) IN (Some protect_rr_sigs) sigprocmask_start).2 _ 3 (of_size 8) OUT None 4136).
  - eapply (registers_reg _ sigprocmask_start _ 2 (of_size 8) IN (Some protect_rr_sigs) 4128); [constructor|cbn; lia| |by apply pair_eta].
    split; [done|done|done|]. intros f [= <-]. exact protect_rr_sigs_confined.
  - split; vm_compute; repeat constructor.
  - apply proper_plain; vm_compute; reflexivity.
  - by apply pair_eta.
Qed.

Lemma direct_recorded_witness :
  mem sigprocmask_prepared 4129 = Some 0 /\ mem sigprocmask_end 4129 = Some 128 /\
  exists sizes recs, actual_sizes (mem sigprocmask_end) 0 [] (param_list sigprocmask_prepared) = Ok sizes /\
    records sigprocmask_end = records sigprocmask_start ++ recs /\ args sigprocmask_end = args sigprocmask_start /\
    (kernel_wrote_direct (param_list sigprocmask_prepared) sizes (mem sigprocmask_prepared)
      (overlay (mem sigprocmask_prepared) 4136 [1; 2; 3; 4; 5; 6; 7; 8]) ->
     forall x, mem sigprocmask_end x = apply_records recs (mem sigprocmask_start) x).
Proof.
  split; [vm_compute; reflexivity|]. split; [vm_compute; reflexivity|].
  apply (direct_recorded sigprocmask_start sigprocmask_registered PREVENT_SWITCH PREVENT_SWITCH sigprocmask_prepared
    (overlay (mem sigprocmask_prepared) 4136 [1; 2; 3; 4; 5; 6; 7; 8]) 0 sigprocmask_end).
  - exact sigprocmask_starting.
  - reflexivity.
  - exact sigprocmask_registers.
  - assert (param_list sigprocmask_registered = [mkParam 4128 0 (of_size 8) 0 2 IN (Some protect_rr_sigs); mkParam 4136 8 (of_size 8) 0 3 OUT None]) as -> by reflexivity.
    apply Forall_cons_2; [|apply Forall_singleton; by split]. split; [done| |]; intros f [= <-]; [exact protect_rr_sigs_confined|exact protect_rr_sigs_saves].
  - repeat constructor.
  - unfold sigprocmask_prepared. apply pair_eta. vm_compute. reflexivity.
  - vm_compute. reflexivity.
  - unfold sigprocmask_end. apply pair_eta. vm_compute. reflexivity.
Defined.

(** ** The same calls from their entry *)

(** Nothing is monitored. *)
Definition plain_env : RecordEnv :=
  Build_RecordEnv (fun _ => false) (fun _ => false) (fun _ => None) (fun _ _ => None) (fun _ => ALLOW_SWITCH) true false true
    (fun _ => None) (fun _ => false) 186 100 (repeat 255 128).

(** The calls that are not handled here do nothing. *)
Definition no_other (call : syscall) : TM rtask unit := mret tt.

(** A task about to make a call. *)
Definition task_with (l : list Z) (m : tmem) : rtask :=
  mkRtask l 0 m [] 20480 128 8 [] 0 [] 0 false 0 ALLOW_SWITCH WRITE_BACK false false [] 0 false true 0 0 true.

Definition readv_entry : rtask := task_with [3; 4096; 1; 0; 0; 0] readv_mem.
Definition readv_case : rtask := (rec_prepare_case x86_64 plain_env sys_readv (set_syscall_entry_args (args readv_entry) (set_scratch 20480 readv_entry))).2.
Definition readv_call : rtask := (rec_prepare_syscall x86_64 plain_env sys_readv readv_entry).2.
Definition readv_written : tmem := overlay (mem readv_call) 20496 [104; 105; 10].
Definition readv_exit : rtask := (rec_process_syscall x86_64 plain_env no_other sys_readv (kernel readv_written 3 readv_call)).2.

Lemma task_at_entry l m : length l = 6%nat -> Forall (fun v => 0 <= v) l -> (forall x b, m x = Some b -> 0 <= b < 256) -> at_entry (task_with l m).
Proof. intros H1 H2 H3. split; try done. by right. Qed.

Lemma recorded_call_witness :
  records readv_exit = [(4128, [104; 105; 10])] /\ args readv_exit = [3; 4096; 1; 0; 0; 0] /\
  exists recs, records readv_exit = records readv_case ++ recs /\ 
    args readv_exit = restored_args (param_list readv_case) (with_entry_args 3 (syscall_entry_args readv_case) (args readv_case)) /\
    forall x, ~ in_scratch (scratch_ptr readv_case) (scratch readv_case) x -> mem readv_exit x = apply_records recs (mem readv_case) x.
Proof.
  split; [vm_compute; reflexivity|]. split; [vm_compute; reflexivity|].
  apply (recorded_call x86_64 plain_env no_other sys_readv readv_entry ALLOW_SWITCH readv_case ALLOW_SWITCH readv_call readv_written 3 readv_exit).
  - apply task_at_entry; [reflexivity|repeat constructor; lia|exact readv_mem_bytes].
  - discriminate.
  - unfold registered_by, readv_case. apply pair_eta. vm_compute. reflexivity.
  - vm_compute. reflexivity.
  - unfold readv_call. apply pair_eta. vm_compute. reflexivity.
  - vm_compute. reflexivity.
  - intros x Hx. left. apply overlay_out. intros Hc. apply Hx. unfold in_scratch, covers in *. cbn [length] in Hc.
    assert (scratch_ptr readv_case = 20480) as -> by (vm_compute; reflexivity). assert (scratch readv_case = 20504) as -> by (vm_compute; reflexivity). lia.
  - reflexivity.
  - unfold readv_exit. apply pair_eta. vm_compute. reflexivity.
Defined.

Definition mask_entry : rtask := task_with [0; 4128; 4136; 8; 0; 0] (overlay readv_mem 4128 [1; 128]).
Definition mask_case : rtask := (rec_prepare_case x86_64 plain_env sys_rt_sigprocmask (set_syscall_entry_args (args mask_entry) (set_scratch 20480 mask_entry))).2.
Definition mask_call : rtask := (rec_prepare_syscall x86_64 plain_env sys_rt_sigprocmask mask_entry).2.
Definition mask_written : tmem := overlay (mem mask_call) 4136 [1; 2; 3; 4; 5; 6; 7; 8].
Definition mask_exit : rtask := (rec_process_syscall x86_64 plain_env no_other sys_rt_sigprocmask (kernel mask_written 0 mask_call)).2.

Lemma recorded_call_direct_witness :
  mem mask_call 4129 = Some 0 /\ mem mask_exit 4129 = Some 128 /\
  exists t sizes recs, rec_process_syscall_arch x86_64 plain_env no_other sys_rt_sigprocmask (kernel mask_written 0 mask_call) = (Ok tt, t) /\
    (sys_rt_sigprocmask <> sys_sched_getaffinity -> mem t = mask_written) /\
    actual_sizes (mem mask_exit) (syscall_result_signed t) [] (param_list mask_call) = Ok sizes /\ records mask_exit = records mask_case ++ recs /\
    args mask_exit = with_entry_args 0 (syscall_entry_args mask_call) (args mask_call) /\
    (kernel_wrote_direct (param_list mask_call) sizes (mem mask_call) (mem t) -> forall x, mem mask_exit x = apply_records recs (mem mask_case) x).
Proof.
  split; [vm_compute; reflexivity|]. split; [vm_compute; reflexivity|].
  apply (recorded_call_direct x86_64 plain_env no_other sys_rt_sigprocmask mask_entry PREVENT_SWITCH mask_case PREVENT_SWITCH mask_call mask_written 0 mask_exit).
  - apply task_at_entry; [reflexivity|repeat constructor; lia|]. intros x b. unfold overlay. case_match; [|apply readv_mem_bytes].
    cbn. destruct (Z.to_nat (x - 4128)) as [|[|[|?]]]; cbn; intros [= <-]; lia.
  - discriminate.
  - reflexivity.
  - unfold registered_by, mask_case. apply pair_eta. vm_compute. reflexivity.
  - repeat constructor.
  - unfold mask_call. apply pair_eta. vm_compute. reflexivity.
  - vm_compute. reflexivity.
  - reflexivity.
  - unfold mask_exit. apply pair_eta. vm_compute. reflexivity.
Defined.

(** Two buffers, of 4 and 10 bytes, and a result of 6. *)
Definition two_buffers : list MemoryParam :=
  [mkParam 4096 0 (limit_size (from_syscall_result 8) 4) 0 0 OUT None; mkParam 4200 0 (limit_size (from_syscall_result 8) 10) 0 0 OUT None].

Lemma shared_result_witness : actual_sizes readv_mem 6 [] two_buffers = Ok (zip two_buffers [4; 2]) /\ sum [4; 2] = Z.min 6 (sum [4; 10]).
Proof.
  apply (shared_result readv_mem 6 two_buffers [4; 10]); [lia| |repeat constructor; lia]. repeat constructor.
Defined.

(** ** Calls that fail in the kernel and stop rr *)

Definition getgroups_call : rtask :=
  (rec_prepare_syscall x86_64 plain_env sys_getgroups (task_with [2 ^ 64 - 1; 4096; 0; 0; 0; 0] readv_mem)).2.

(** [getgroups(-1, list)]: the kernel returns [EINVAL], rr tries to record 2^63 - 1 bytes. *)
Lemma unmapped_parameter_stops_rr_witness :
  rec_prepare_syscall x86_64 plain_env sys_getgroups (task_with [2 ^ 64 - 1; 4096; 0; 0; 0; 0] readv_mem) = (Ok PREVENT_SWITCH, getgroups_call) /\
  (process_syscall_results (kernel readv_mem (-22) getgroups_call)).1 <> Ok tt.
Proof.
  split; [vm_compute; reflexivity|].
  apply (unmapped_parameter_stops_rr (kernel readv_mem (-22) getgroups_call) (mkParam 4096 20480 (mkSize INTPTR_MAX 0 0 false) 0 2 OUT None) 8192);
    [reflexivity|left|by split|done|split; vm_compute; congruence|reflexivity].
Defined.

(** [recvmsg] with a null message. *)
Example recvmsg_null_stops_rr : (rec_prepare_syscall x86_64 plain_env sys_recvmsg (task_with [3; 0; 0; 0; 0; 0] readv_mem)).1 = Err FailedAssert.
Proof. vm_compute. reflexivity. Qed.

(** [readv] with a length the kernel refuses: the end of scratch memory wraps around. *)
Example readv_wraps : (rec_prepare_syscall x86_64 plain_env sys_readv
    (task_with [3; 4096; 1; 0; 0; 0] (overlay readv_mem 4104 (le_bytes 8 (2 ^ 64 - 20490))))).1 = Err FailedAssert.
Proof. vm_compute. reflexivity. Qed.

(** [fcntl(F_GETOWN)] is expected to fail; rr stops when it does not. *)
Example getown_stops_rr :
  let s := (rec_prepare_syscall x86_64 plain_env sys_fcntl (task_with [3; F_GETOWN; 0; 0; 0; 0] readv_mem)).2 in
  expect_errno s = EINVAL /\ (rec_process_syscall x86_64 plain_env no_other sys_fcntl (kernel (mem s) 0 s)).1 = Err FailedAssert.
Proof. vm_compute. split; reflexivity. Qed.

(** [quotactl] with the command sign-extended: the output is not registered; zero-extended it is. *)
Example quotactl_sign_extended :
  param_list (rec_prepare_syscall x86_64 plain_env sys_quotactl (task_with [0xffffffff80000700; 0; 0; 4096; 0; 0] readv_mem)).2 = [] /\
  length (param_list (rec_prepare_syscall x86_64 plain_env sys_quotactl (task_with [0x80000700; 0; 0; 4096; 0; 0] readv_mem)).2) = 1%nat.
Proof. vm_compute. split; reflexivity. Qed.

(** ** rt_sigaction *)

(** A [sigaction] at 4096 whose mask blocks signal 16. *)
Definition sigaction_entry : rtask := task_with [10; 4096; 0; 8; 0; 0] (overlay readv_mem 4096 (repeat 0 24 ++ [0; 128; 0; 0; 0; 0; 0; 0])).
Definition sigaction_call : rtask := (rec_prepare_syscall x86_64 plain_env sys_rt_sigaction sigaction_entry).2.

(** The program's own structure stays changed after the call. *)
Example sigaction_mask_stays :
  mem sigaction_entry 4121 = Some 128 /\
  mem (rec_process_syscall x86_64 plain_env no_other sys_rt_sigaction (kernel (mem sigaction_call) 0 sigaction_call)).2 4121 = Some 0.
Proof. vm_compute. split; reflexivity. Qed.
