(* ===== verification/GdbWitnesses.v ===== *)
(** * The theorems on the debugger connection applied to concrete connections

    For each theorem with hypotheses, an instance in which they hold. *)

From Stdlib Require Import String.
From stdpp Require Import base tactics list numbers.
From S2P Require Import Prelude CStrings TracerMonad CxxStrings GdbText GdbConnection GdbRequests GdbReplies GdbEncodingSpec GdbConnectionSpec GdbWire GdbCommands.
Local Open Scope Z_scope.

(** ** The connection to the debugger: signals, and requests that end rr

    Concrete packets: requests rr understands, and requests that make it read memory it
    should not, exit, or answer something else than the protocol says. *)

(** ** Signals *)

(** Two signals never look the same to the debugger, up to the last real-time signal gdb knows. *)
Theorem to_gdb_signum_inj a b :
  0 <= a <= 127 -> 0 <= b <= 127 -> to_gdb_signum a = to_gdb_signum b -> a = b.
Proof.
  assert (NoDup (map (fun n => to_gdb_signum (Z.of_nat n)) (seq 0 128))) as H
    by (apply (bool_decide_eq_true_1 _); vm_compute; reflexivity).
  intros Ha Hb Hab. assert (forall x, 0 <= x <= 127 ->
    map (fun n => to_gdb_signum (Z.of_nat n)) (seq 0 128) !! Z.to_nat x = Some (to_gdb_signum x)) as Hl.
  { intros x Hx. rewrite list_lookup_fmap, lookup_seq_lt by lia. cbn. by rewrite Z2Nat.id by lia. }
  enough (Z.to_nat a = Z.to_nat b) by lia. eapply NoDup_lookup; [exact H|by apply Hl|]. rewrite Hab. by apply Hl.
Qed.

(** ** Packets *)

(** A new connection of process 7 to which the debugger sends one packet, the request it makes of it, and the
    packets sent back. *)
Definition connected (text : cstring) : GdbConnection := new_connection 7 true [frame text] [] [].

Definition no_files : cstring -> option cstring := fun _ => None.

Definition request_of (text : cstring) : result GdbRequest := fst (get_request no_files 8 (connected text)).

Definition sent_for (text : cstring) : list Z := sent (snd (get_request no_files 8 (connected text))).

Example memory_request :
  (fun r => (type r, mem_ r)) <$> match request_of (lit "m7fff1000,20") with Ok r => Some r | _ => None end =
    Some (DREQ_GET_MEM, mkMem 0x7fff1000 0x20 []).
Proof. by vm_compute. Qed.

Example supported_answer : sent_for (lit "qSupported:xmlRegisters=i386") = lit "+" ++ frame (supported true).
Proof. by vm_compute. Qed.

Example vcont_actions_parsed :
  (fun r => actions (cont_ r)) <$> match request_of (lit "vCont;s:p7.9;c") with Ok r => Some r | _ => None end =
    Some [mkAction ACTION_STEP (mkTid 7 9) 0; mkAction ACTION_CONTINUE ALL 0].
Proof. by vm_compute. Qed.

(** The debugger continues with the signal rr reported: SIGUSR1, 10, goes out as 30 and comes back as 30,
    which is SIGPWR. *)
Example signal_not_translated_back :
  to_gdb_signum 10 = 30 /\
  (fun r => map signal_to_deliver (actions (cont_ r))) <$> match request_of (lit "vCont;C1e:p7.7") with Ok r => Some r | _ => None end
    = Some [30].
Proof. by vm_compute. Qed.

(** What follows the signal is checked for [C], not for [S]. *)
Example step_signal_unchecked :
  sent_for (lit "vCont;C5zz") = lit "+" ++ frame [] /\
  (fun r => actions (cont_ r)) <$> match request_of (lit "vCont;S5zz") with Ok r => Some r | _ => None end =
    Some [mkAction ACTION_STEP ALL 5].
Proof. by vm_compute. Qed.

(** Writing a register whose value is not defined ends rr: [read_reg_value] takes the [x] for the end of the
    value, and the check that follows finds it. *)
Example undefined_register_ends_rr : request_of (lit "P0=xxxxxxxx") = Err FailedAssert.
Proof. by vm_compute. Qed.

(** A value of more than 16 bytes is written past the end of the register. *)
Example long_register_overflows :
  request_of (lit "P0=" ++ hex_bytes (repeat 1 16)) <> Err BadAccess /\
  request_of (lit "P0=" ++ hex_bytes (repeat 1 17)) = Err BadAccess.
Proof. vm_compute. split; [discriminate|done]. Qed.

(** Requests without the argument they must have. *)
Example missing_arguments :
  map request_of [lit "qRRCmd"; lit "qGetTLSAddr"; lit "qSymbol"; lit "qThreadExtraInfo"; lit "qXfer"; lit "qSearch"; lit "vRun"] =
    repeat (Err BadAccess) 7.
Proof. by vm_compute. Qed.

(** [H] with nothing behind it takes the bytes behind the packet, here its checksum, for the thread. *)
Example empty_thread_selection : fst (get_request no_files 8 (new_connection 7 true [lit "$H#"] [] [])) = Err BadAccess.
Proof. by vm_compute. Qed.

(** A length near the end of the address space wraps around the check, and rr sends what lies behind the
    description of the target. *)
Example xfer_length_wraps :
  let files := fun _ => Some (lit "<target/>") in
  fst (get_request files 8 (connected (lit "qXfer:features:read:target.xml:1,ffffffffffffffff"))) = Err BadAccess.
Proof. by vm_compute. Qed.

(** The answer to [k] stays in the buffer. *)
Example kill_not_answered :
  fst (get_request no_files 8 (connected (lit "k"))) = Err Exited /\ sent_for (lit "k") = lit "+".
Proof. by vm_compute. Qed.

(** The list of threads is empty, not ended, when none is of the process the debugger sees. *)
Example foreign_threads :
  let s := snd (get_request no_files 8 (connected (lit "qfThreadInfo"))) in
  sent (snd (reply_get_thread_list [mkTid 7 8; mkTid 7 9] s)) = lit "+" ++ frame (lit "mp07.08,p07.09") /\
  sent (snd (reply_get_thread_list [mkTid 9 9] s)) = lit "+" ++ frame [].
Proof. by vm_compute. Qed.

(** A register of no size, as for a number rr does not know, is sent from memory nobody has written. *)
Example unknown_register :
  let s := snd (get_request no_files 8 (connected (lit "pff"))) in
  fst (reply_get_reg (mkRegValue 0xff (repeat 0 16) 0 false) s) = Err BadAccess.
Proof. by vm_compute. Qed.

(** A packet that writes the bytes [#$}*] of memory, split in the middle, after an acknowledgement. *)
Definition chunk1 : list Z := lit "+$X7fff1000,4".
Definition chunk2 : list Z := drop 12 (frame (88 :: set_mem_text 0x7fff1000 [35; 36; 125; 42])).

Definition conn0 : GdbConnection := new_connection 7 true [chunk1; chunk2] [] [].

Lemma set_mem_delivered_witness :
  exists rq s', get_request no_files 1 conn0 = (Ok rq, s') /\ type rq = DREQ_SET_MEM /\ mem_data (mem_ rq) = [35; 36; 125; 42].
Proof.
  assert (chunks (incoming conn0)) as Hc by (repeat constructor; discriminate).
  assert (no_start (lit "+")) as Hj by (intros b Hb; apply list_elem_of_singleton in Hb as ->; reflexivity).
  assert (writable conn0) as Hw by constructor.
  assert (attentive conn0) as Ha by (left; reflexivity).
  assert (inbuf conn0 ++ concat (incoming conn0) = lit "+" ++ frame (88 :: set_mem_text 0x7fff1000 [35; 36; 125; 42]) ++ []) as Hs
    by (vm_compute; reflexivity).
  destruct (set_mem_delivered no_files 0 conn0 (lit "+") 0x7fff1000 [35; 36; 125; 42] [] eq_refl Hc Hw Ha Hj
    ltac:(lia) ltac:(cbn; lia) Hs) as (rq & s' & H1 & H2 & _ & H3 & _).
  exists rq, s'. split; [exact H1|]. split; [exact H2|]. rewrite H3. reflexivity.
Defined.

Lemma get_request_ends_witness : (get_request no_files 100 conn0).1 <> Err NoFuel.
Proof. apply (get_request_ends no_files 100 conn0). vm_compute. lia. Defined.

(** The server asks for a request and answers it; the second write fails in the middle of the packet, and the server
    still answers that the debugger is gone. *)
Definition torn_conn : GdbConnection := new_connection 7 true [chunk1; chunk2] [] [Some 1%nat; Some 3%nat; None].
Definition torn1 : GdbConnection := (get_request no_files 8 torn_conn).2.
Definition torn2 : GdbConnection := (reply_set_mem true torn1).2.
Definition torn3 : GdbConnection := (get_request no_files 8 torn2).2.
Definition torn4 : GdbConnection := (reply_detach torn3).2.

Lemma wire_framed_witness :
  connection_alive_ torn2 = false /\ sent torn4 = lit "+$OK$OK#9a" /\
  exists l, Forall wf_item l /\ lit "+$OK" `prefix_of` sent torn4 /\ exists cut, lit "+$OK" ++ cut = wire l.
Proof.
  assert (serve no_files torn_conn torn4 (lit "+$OK")) as Hs.
  { apply (serve_answer no_files torn_conn torn3 (lit "+$OK") reply_detach torn4); [|apply call_detach|vm_compute; reflexivity].
    apply (serve_get no_files torn_conn torn2 (lit "+$OK") (new_request DREQ_DETACH) 8 torn3); [|vm_compute; reflexivity].
    apply (serve_answer no_files torn_conn torn1 (lit "+") (reply_set_mem true) torn2); [|apply call_set_mem|vm_compute; reflexivity].
    eapply (serve_get no_files torn_conn torn_conn [] _ 8 torn1); [apply serve_start|vm_compute; reflexivity]. }
  destruct (wire_framed no_files 7 true [chunk1; chunk2] [] [Some 1%nat; Some 3%nat; None] torn4 (lit "+$OK") Hs) as (l & Hl & Hf).
  split; [vm_compute; reflexivity|]. split; [vm_compute; reflexivity|]. exists l. split; [exact Hl|]. exact Hf.
Defined.

(** A packet rr answers itself. *)
Definition conn1 : GdbConnection := (read_packet (connected (lit "qAttached"))).2.


Lemma register_roundtrip_witness :
  read_reg_value (lit "0102feff" ++ [0]) (mkRegValue 3 [] 0 false) = Ok (mkRegValue 3 [1; 2; 254; 255] 4 true, [0]).
Proof.
  assert (byte_list [1; 2; 254; 255]) as Hb by (repeat (apply List.Forall_cons; [lia|]); apply List.Forall_nil).
  destruct (register_roundtrip 3 [1; 2; 254; 255] [] Hb ltac:(unfold MAX_SIZE; cbn; lia)) as (t & H1 & _ & H2).
  vm_compute in H1. injection H1 as <-. exact (H2 []).
Defined.

(** ** Commands *)

(** A replay in which a mark is the number of the event. *)
#[local] Instance timeline0 : Timeline Z Z := {|
  replaying _ := true;
  event_time w := w;
  tick_count w := w;
  task_tid _ := 7;
  elapsed_text _ := lit "0";
  mark w := (w, w);
  seek_to_mark m _ := m;
  can_add_checkpoint _ := true;
  add_explicit_checkpoint w := (w, w);
  remove_explicit_checkpoint _ w := w;
  mark_time m := m |}.

Definition commands0 : @commands Z Z := mkCommands [Some 100; Some 200] (Some 300) [Some 400] 0 [] (0, 0) 350.

Lemma history_walk_witness :
  exists r s', back commands0 = (Ok r, s') /\ history s' = ([Some 100; Some 200; Some 300; Some 400], 1%nat) /\ now s' = 200.
Proof.
  assert (wf_history commands0) as Hw by (split; cbn; [repeat (apply List.Forall_cons; [by eexists|]); apply List.Forall_nil..|discriminate]).
  destruct (history_walk (timeline := timeline0) commands0 Hw eq_refl) as (_ & (r & s' & H1 & _ & _ & H2 & m & H3 & H4) & _).
  exists r, s'. cbn in H3, H4. injection H3 as <-. split; [exact H1|]. split; [exact H2|exact H4].
Defined.
