(* ===== verification/TracerWitnesses.v ===== *)
(** * The theorems on the tracer applied to concrete states

    For each theorem with hypotheses, an instance in which they hold: a session of three
    tasks, a process with one monitored descriptor, and an address space with one
    breakpoint. *)

From Stdlib Require Import QArith Qround.
From stdpp Require Import base tactics list numbers gmap sorting.
From S2P Require Import Prelude TracerMonad Watchpoints WatchpointsSpec KernelMappings AddressMaps AddressMapsInv AddressMapsSpec FreeMemory Scheduler SchedulerInv SchedulerFair.
Local Open Scope Z_scope.

(** ** The scheduler *)

(** Tasks 1 and 2 run; every other task is blocked in a [read].  The kernel's answers are
    constant. *)
Definition running (t : Z) : bool := (t =? 1) || (t =? 2).

#[local] Instance tasks0 : Tasks := {|
  world := unit;
  unstable _ _ := false;
  stable_exit _ _ := false;
  is_thread_group_leader _ t := t =? 1;
  tick_count _ _ := 1000000;
  is_running _ _ := false;
  is_dying _ _ := false;
  processing_syscall _ t := if running t then None else Some (0, Scheduler.x86_64);
  emulated_stop _ _ := false;
  sigcont_pending _ _ := false;
  emulate_SIGCONT _ w := w;
  resume_execution _ w := w;
  wait _ _ w := w;
  try_wait _ w := (false, w);
  did_waitpid _ _ w := w;
  clear_unstable _ w := w;
  find_task _ _ := None;
  revive_task_for_exec tid w := (tid, w);
  bound_to_cpu _ := 2;
  random w := (7, w);
  monotonic_now_sec w := (inject_Z 1, w);
  sleep_time _ w := w;
  waitpid_any _ w := (WaitFailed, w);
  getaffinity _ := Some [0; 1; 2; 3];
  nprocessors_conf _ := 4 |}.

#[local] Instance steady0 : Steady running.
Proof.
  split; intros w t; try reflexivity; unfold may_be_blocked, in_nonblocking_syscall; cbn;
    by destruct (running t).
Defined.

#[local] Instance contract0 L : SessionContract L.
Proof. by split. Defined.

(** Three tasks of the same priority, the first of which runs. *)
Definition sched0 : Scheduler :=
  set_current (Some 1) (set_task_priority_set [(0, 1); (0, 2); (0, 3)] initial_scheduler).

Lemma sched0_inv : inv [1; 2; 3] sched0.
Proof.
  split; [split|split].
  - cbn. repeat constructor.
  - intros p t Ht. cbn in *. repeat (apply elem_of_cons in Ht as [[= -> ->]|Ht]; [done|]).
    by apply elem_of_nil in Ht.
  - intros t []%elem_of_nil.
  - constructor.
  - intros t. unfold member. cbn. rewrite elem_of_nil. tauto.
  - intros c [= <-]. left.
Qed.

Lemma sched0_calm : calm sched0.
Proof. by split_and!. Qed.

(** A state of the scheduler in this session. *)
Definition with0 (s : Scheduler) : sstate := @mkS tasks0 s tt.

(** A first task, and the state after it was given its first timeslice. *)
Definition sched1 : sstate := snd (perform (OpCreate 1 0) (with0 initial_scheduler)).
Definition sched2 : sstate := snd (perform (OpReschedule 2 ALLOW_SWITCH) sched1).

Lemma sched1_reachable : reachable [1] sched1.
Proof.
  apply (reach_step [] (with0 initial_scheduler) (OpCreate 1 0) _ tt); [apply reach_initial| |reflexivity].
  apply not_elem_of_nil.
Qed.


Lemma affinity_mask_spec_witness :
  exists m w, regenerate_affinity_mask (with0 (set_pretend_num_cores 3 sched0)) =
      (Ok tt, mkS (set_pretend_affinity_mask m (set_pretend_num_cores 3 sched0)) w) /\
    2 ∈ m /\ NoDup m /\ Z.of_nat (length m) = 3.
Proof.
  destruct (affinity_mask_spec (with0 (set_pretend_num_cores 3 sched0)) [0; 1; 2; 3]) as (m & w & H1 & H2 & H3 & H4 & _).
  - reflexivity.
  - cbn. unfold CPU_SETSIZE. lia.
  - cbn. apply list_elem_of_In. cbn. tauto.
  - cbn. lia.
  - cbn. unfold CPU_SETSIZE. lia.
  - exists m, w. split_and!; assumption.
Defined.

(** Task 1 yields; tasks 2 and 3 are put in the queue before it. *)
Definition yielded : sstate := snd (schedule_one_round_robin 1 (with0 sched0)).


Lemma strict_priority_witness :
  exists r s' t, reschedule 1 ALLOW_SWITCH (with0 sched0) = (Ok r, s') /\
    current (sch s') = Some t /\ t <> 1 /\ running t = true.
Proof.
  destruct (strict_priority running (L := [1; 2; 3]) 0 (with0 sched0) 2 sched0_inv sched0_calm)
    as (r & s' & t & H1 & H2 & H3 & H4 & _ & _ & H5).
  - reflexivity.
  - intros v _. cbn. unfold INT32_MAX. lia.
  - right. left.
  - reflexivity.
  - exists r, s', t. split_and!; [assumption|assumption| |assumption]. intros ->.
    assert (2 = 1); [|lia]. apply H5.
    + right. intros c [= <-]. cbn. lia.
    + reflexivity.
    + right. left.
    + reflexivity.
    + reflexivity.
Defined.

(** ** The theorems on watchpoints and memory maps applied to concrete states

    For each theorem with hypotheses, an instance in which they hold: an address space of two
    mappings, and one watched word. *)

(** ** A watched word *)

Definition word0 : Watchpoint := mkWatch 0 1 0 [] [1; 2; 3; 4] true false.

Definition watched0 : wstate := mkWs [((16, 20), word0)] [] ([], 0).

Lemma watched0_ok : Forall wf_watch (watchpoints watched0).
Proof. constructor; [|constructor]. unfold wf_watch, wf_range. cbn. lia. Defined.

Lemma allocate_watchpoints_covers_witness :
  exists s', allocate_watchpoints (fun _ => true) watched0 = (Ok true, s') /\
    exists k, (k < 4)%nat /\ watches (programmed s') WATCH_READWRITE 18 k.
Proof.
  destruct (allocate_watchpoints_covers (fun _ => true) watched0 watched0_ok) as (b & s' & Ha & Hs & _ & Hb).
  vm_compute in Ha. injection Ha as <- <-. eexists. split; [vm_compute; reflexivity|].
  destruct (proj1 Hb (16, 20) _ WATCH_READWRITE 18 ltac:(left) eq_refl) as (k & Hk & Hw & _); [unfold inside; cbn; lia|].
  exists k. split; [exact Hk|exact Hw].
Defined.

(** ** An address space *)

Definition maps0 : list entry := [anon 0x1000 0x8000 0; file_map 0x9000 0xB000 0].

Lemma wf_anon0 : wf_entry (anon 0x1000 0x8000 0).
Proof. split; cbn; try done; try lia; split; cbn; lia || done. Defined.

Lemma wf_file0 : wf_entry (file_map 0x9000 0xB000 0).
Proof. split; cbn; try done; try lia; split; cbn; lia || done. Defined.

Lemma wf_maps0 : wf_mem maps0.
Proof.
  split; [repeat constructor; unfold before; cbn; lia|].
  constructor; [apply wf_anon0|]. constructor; [apply wf_file0|constructor].
Defined.

Lemma good0 : good_space (space_of maps0).
Proof. split; cbn; [apply wf_maps0|repeat constructor|constructor]. Defined.

Definition unread : Z -> option Z := fun _ => None.
Definition munmap_ok : Z -> Z -> bool := fun _ _ => true.

Lemma page_ranges : page_range 0x3000 0x1000 /\ page_range 0xD000 0x2000.
Proof. split; unfold page_range, PAGE; split_and!; lia || reflexivity. Defined.

Lemma map_memory_spec_witness :
  match map_memory unread munmap_ok 0x3000 0x1000 1 0x22 0 [] 0 0 None None None 0 false (space_of maps0) with
  | (Ok k, s') => good_space s' /\ range k = (0x3000, 0x4000)
  | (Err _, _) => False
  end.
Proof.
  pose proof (map_memory_spec unread munmap_ok (fun _ _ => eq_refl) (fun _ _ _ _ _ H => H)
    0x3000 0x1000 1 0x22 0 [] 0 0 None None None 0 (space_of maps0) good0 (proj1 page_ranges) eq_refl
    ltac:(discriminate)) as H.
  destruct (map_memory _ _ _ _ _ _ _ _ _ _ _ _ _ _ _ _) as [[k|w] s'].
  - destruct H as (H1 & _ & H2 & _). split; [exact H1|exact H2].
  - apply (proj2 H). split; [repeat constructor|split; reflexivity].
Defined.

Lemma unmap_spec_witness :
  exists s', unmap unread munmap_ok 0x3000 0x1000 (space_of maps0) = (Ok tt, s') /\
    forall c p, shows (mem s') c p <-> shows maps0 c p /\ ~ 0x3000 <= c < 0x4000.
Proof.
  destruct (unmap_spec unread munmap_ok (fun _ _ => eq_refl) (fun _ _ _ _ _ H => H)
    0x3000 0x1000 (space_of maps0) good0 (proj1 page_ranges)) as (s' & H1 & _ & _ & H2).
  exists s'. split; [exact H1|exact H2].
Defined.

Lemma protect_spec_witness :
  match protect 0x3000 0x1000 (Z.lor 1 PROT_GROWSDOWN) (space_of maps0) with
  | (Ok _, s') => exists lo hi, grown (Z.lor 1 PROT_GROWSDOWN) maps0 0x3000 lo hi /\ 0x3000 <= hi <= 0x4000 /\
      (hi < 0x4000 -> ~ mapped maps0 hi) /\ forall c q, shows (mem s') c q <-> shows_reprot maps0 lo hi 1 c q
  | (Err _, _) => ~ plain maps0
  end.
Proof.
  pose proof (protect_spec 0x3000 0x1000 (Z.lor 1 PROT_GROWSDOWN) (space_of maps0) good0 ltac:(lia) ltac:(lia) ltac:(unfold PAGE; lia)
    eq_refl) as H. cbv zeta in H.
  destruct (protect 0x3000 0x1000 (Z.lor 1 PROT_GROWSDOWN) (space_of maps0)) as [[u|w] s']; [|exact (proj2 H)].
  destruct H as (_ & _ & lo & hi & H0 & H1 & _ & H2 & H3). exists lo, hi. split; [exact H0|]. split; [exact H1|]. split; [exact H2|exact H3].
Defined.

Lemma remap_spec_witness :
  match remap unread munmap_ok 0x3000 0x1000 0xD000 0x2000 (space_of maps0) with
  | (Ok _, s') => good_space s' /\ forall c, 0xD000 <= c < 0xF000 ->
      shows (mem s') c (moved (snd (anon 0x1000 0x8000 0)) 0x3000 0xD000 c)
  | (Err _, _) => ~ plain maps0
  end.
Proof.
  pose proof (remap_spec unread munmap_ok (fun _ _ => eq_refl) (fun _ _ _ _ _ H => H)
    0x3000 0x1000 0xD000 0x2000 (0x1000, 0x8000) (snd (anon 0x1000 0x8000 0)) (space_of maps0) good0
    (proj1 page_ranges) (proj2 page_ranges) eq_refl ltac:(left) ltac:(cbn; lia) ltac:(cbn; lia)) as H.
  destruct (remap _ _ _ _ _ _ _) as [[u|w] s']; [|exact (proj2 H)]. destruct H as [H1 H2].
  split; [exact H1|]. intros c Hc. apply H2. left. split; [lia|reflexivity].
Defined.

Lemma find_free_memory_spec_witness :
  exists x, find_free_memory 0x1000 0x1000 maps0 = Ok x /\ forall c, x <= c < x + 0x1000 -> ~ mapped maps0 c.
Proof.
  assert (forall e : entry, e ∈ maps0 -> snd (fst e) + 0x1000 < 2 ^ 64) as Hb.
  { intros e He. apply elem_of_cons in He as [->|He]; [cbn; lia|]. apply list_elem_of_singleton in He as ->. cbn. lia. }
  destruct (find_free_memory_spec 0x1000 0x1000 maps0 wf_maps0 ltac:(lia) Hb) as (x & H1 & _ & H2).
  exists x. split; [exact H1|exact H2].
Defined.

(** ** The kernel's view of it *)

Definition kernel0 : list KernelMapping :=
  [mkKernelMapping (0x1000, 0x3000) [] 0 0 3 0x22 0; mkKernelMapping (0x3000, 0x8000) [] 0 0 3 0x22 0].

Lemma verify_sound_witness :
  mapped_as kernel0 0x2000 3 2 <-> mapped_as [mkKernelMapping (0x1000, 0x8000) [] 0 0 3 0x22 0] 0x2000 3 2.
Proof.
  apply (verify_sound 2 kernel0 [mkKernelMapping (0x1000, 0x8000) [] 0 0 3 0x22 0]).
  - repeat constructor; cbn; lia.
  - repeat constructor; cbn; lia.
  - vm_compute. reflexivity.
Defined.
