(* ===== verification/MuplayWitnesses.v ===== *)
(** * The theorems on patching applied to a small patch

    A recorded program [old] with the function [f], its new version [new], and the patch that
    changes one line of [f]. *)

From Stdlib Require Import String.
From stdpp Require Import base tactics list numbers gmap sorting.
From S2P Require Import Prelude CStrings CxxStrings TracerMonad MuplayPatch MuplayPatchSpec MuplayDwarf MuplayDwarfSpec Breakpoints MuplayMaps MuplayQuilter MuplaySession MuplaySessionInv.
Local Open Scope Z_scope.

(** ** Breakpoints *)

(** Five bytes from 1000 with a breakpoint of the user on the third. *)
Definition code0 (a : Z) : option Z := if (1000 <=? a) && (a <? 1005) then Some (a - 990) else None.
Definition space0 : space := mkSpace (poke code0 1002 breakpoint_insn) {[1002 := mkBp 0 1 12]} true.

Lemma space0_inv : Breakpoints.inv space0.
Proof.
  split; [done|]. intros a b Hb. cbn in Hb. apply lookup_singleton_Some in Hb as [<- <-]. by vm_compute.
Qed.

Lemma space0_mapped a n :
  1000 <= a -> a + Z.of_nat n <= 1005 -> forall i, (i < n)%nat -> is_Some (mem space0 (a + Z.of_nat i)).
Proof.
  intros H1 H2 i Hi. unfold space0, mem, poke, code0. destruct (_ =? _); [by eauto|].
  destruct (Z.leb_spec 1000 (a + Z.of_nat i)); [|lia]. destruct (Z.ltb_spec (a + Z.of_nat i) 1005); [|lia].
  cbn. eauto.
Qed.


(** Bytes 1000 to 1002 are written: the breakpoint is on the last of them. *)
Lemma record_ends_on_breakpoint_witness :
  exists s1 s2, apply_data_record 1000 [1; 2; 3] space0 = (Ok tt, s1) /\ mem s1 1002 = Some 3 /\
    remove_breakpoint 1002 BKPT_USER s1 = (Ok tt, s2) /\ mem s2 1002 = Some 12.
Proof.
  destruct (record_ends_on_breakpoint 1000 [1; 2; 3] space0 3 (mkBp 0 1 12) space0_inv)
    as (s1 & s2 & H1 & H2 & _ & H3 & H4).
  - lia.
  - reflexivity.
  - apply space0_mapped; cbn; lia.
  - reflexivity.
  - reflexivity.
  - reflexivity.
  - exists s1, s2. split_and!; assumption.
Defined.

(** ** Memory maps *)

Definition map0 : list KernelMapping :=
  [mkKm 4096 8192 5 (lit "/old"); mkKm 12288 16384 3 (lit "/lib"); mkKm 65536 69632 3 []].

Lemma map0_in_order : in_order map0.
Proof.
  unfold in_order, map0, before, mapping_ok. split; repeat constructor; cbn; lia.
Qed.

Lemma lowest_base_address_free_witness : find_lowest_base_address map0 5000 = 16384 /\ free map0 16384 5000.
Proof.
  split; [reflexivity|].
  apply (lowest_base_address_free map0 5000); [lia|apply map0_in_order].
Defined.

(** ** The patch *)

Definition hunk0 : diff_hunk :=
  mkDiff (lit "1") (lit "3") (lit "1") (lit "3") []
    [Keep (lit "int f(int x) {"); Del (lit "return x;"); Ins (lit "return x + 1;"); Keep (lit "}"); NoNewline].
Definition old0 : list cstring := [lit "int f(int x) {"; lit "return x;"; lit "}"].
Definition new0 : list cstring := [lit "int f(int x) {"; lit "return x + 1;"; lit "}"].

(** Digits make a side of a header. *)
Definition number_text (n : cstring) : bool :=
  nonempty n && forallb is_digit n && (number n <=? INT_MAX).

Lemma number_text_ok n : number_text n = true -> digits n /\ number n <= INT_MAX.
Proof.
  unfold number_text, digits. rewrite !andb_true_iff, Z.leb_le, forallb_forall. intros [[Hn Hd] Hm].
  split_and!; [by destruct n| |done]. apply Forall_forall. intros c Hc. by apply Hd, list_elem_of_In.
Qed.

Lemma side_ok_digits n count :
  number_text n = true -> (forall c, count = Some c -> number_text c = true) -> side_ok n count.
Proof.
  intros H1 H2. split_and!; [by apply number_text_ok..|]. intros c Hc. by apply number_text_ok, H2.
Qed.

Lemma hunk0_ok : diff_ok hunk0.
Proof.
  split; [|split; [|split; [discriminate|split]]]; [apply side_ok_digits; [done|by intros c [= <-]]..| |].
  - exists [Keep (lit "int f(int x) {"); Del (lit "return x;"); Ins (lit "return x + 1;"); Keep (lit "}")], [NoNewline].
    by repeat constructor.
  - split; by vm_compute.
Qed.

Lemma hunk0_placed : placed old0 new0 hunk0.
Proof. exists [], [], [], []. by vm_compute. Qed.

Lemma read_hunk_finds_lines_witness :
  exists p' hk, read_hunk (Some (mkText (file_diff [lit "--- a/f.c"] [hunk0]) true)) (lit "f.c") empty_patch = (Ok tt, p') /\
    HK p' = [hk] /\ found (lit "f.c") old0 new0 hunk0 hk.
Proof.
  destruct (read_hunk_finds_lines [lit "--- a/f.c"] [hunk0] true (lit "f.c") old0 new0 empty_patch)
    as (p' & hks & H1 & H2 & H3).
  - by repeat constructor.
  - constructor; [apply hunk0_ok|constructor].
  - discriminate.
  - constructor; [apply hunk0_placed|constructor].
  - exists p'. inversion H3 as [|? hk ? l H4 H5]; subst. inversion H5; subst. exists hk. split_and!; assumption.
Defined.

(** The header [@@ -3 +4 @@]. *)
Lemma short_header_undefined_witness :
  get_line_num (header (lit "3") None (lit "4") None []) empty_patch = (Err BadAccess, empty_patch).
Proof.
  apply (short_header_undefined (lit "3") None (lit "4") None [] empty_patch).
  - by apply side_ok_digits.
  - by apply side_ok_digits.
  - left. reflexivity.
Defined.

(** ** Debug information *)

(** A unit with the functions [f], with a parameter, and [g]. *)
Definition die_f : die := Die DW_TAG_subprogram (Some (1, lit "f")) (Some 100) (Some 20) [Die OtherTag None None None []].
Definition die_g : die := Die DW_TAG_subprogram (Some (2, lit "g")) (Some 120) (Some 10) [].
Definition unit0 : die := Die DW_TAG_compile_unit (Some (3, lit "src/f.c")) None None [die_f; die_g].
Definition flat0 : die := Die DW_TAG_compile_unit (Some (3, lit "src/f.c")) None None [die_g].
Definition names0 (ptr : Z) : cstring := if ptr =? 1 then lit "f" else lit "g".

Definition dwarf0 (root : die) : Dwarf :=
  {| can_open _ := true; dwarf_init_ok _ := true; units _ := [Unit root (Some [(1, 100); (2, 104); (7, 124)])] |}.

Lemma functions_of_line_witness :
  exists m, get_line_modification (D := dwarf0 unit0) (lit "f.c") (lit "/new") 2 = Ok m /\
    map func_name (modified_functions m) = [lit "f"].
Proof.
  assert (get_line_modification (D := dwarf0 unit0) (lit "f.c") (lit "/new") 2 =
    Ok (mkLineMod 2 [104] [mkFunc (lit "f") 100 20])) as E by (vm_compute; reflexivity).
  pose proof (functions_of_line (D := dwarf0 unit0) names0 (lit "f.c") (lit "/new") 2 unit0 [104]) as H.
  cbn [ends_well unit0 die_children nonempty orb die_f] in H. destruct H as (m & H1 & H2 & H3 & H4).
  - split_and!; try reflexivity. eexists. by split; vm_compute.
  - change (all_dies unit0) with [unit0; die_f; Die OtherTag None None None []; die_g].
    constructor; [discriminate|]. constructor; [intros _; by exists 1, 100, 20|].
    constructor; [discriminate|]. constructor; [intros _; by exists 2, 120, 10|constructor].
  - exists m. split; [exact H1|]. rewrite E in H1. injection H1 as <-. reflexivity.
Defined.

(** ** Linking *)

Lemma encoded_target_witness :
  exists mid, plt_code 0x7f1234567890 = [0x49; 0xbb] ++ mid ++ [0x41; 0xff; 0xe3] /\ le_value mid = 0x7f1234567890.
Proof.
  destruct (encoded_target 0x7f1234567890 (lit "rdi")) as [(mid & H1 & _ & H2) _]; [lia|].
  exists mid. split; assumption.
Defined.

Lemma find_string_offset_spec_witness :
  find_string_offset (Some (mkRodata (terminated [lit "a"; lit "bc"] ++ [0]) 5)) (lit "bc") (lit ".rodata") = Ok 2.
Proof.
  apply (find_string_offset_spec [lit "a"; lit "bc"] [0] (lit "bc")) with (a := [lit "a"]) (b := []).
  - repeat constructor; discriminate.
  - reflexivity.
  - intros H. apply list_elem_of_singleton in H. discriminate H.
Defined.

(** [f] calls [g], and both are changed. *)
Definition call_g : Instruction := mkInstr 5 (Some (FunctionLink (lit "g") true)) (Some (lit "f")) None [] [] true.
Definition fun_f : Function := mkFunction (lit "f") 16 [mkBlock (lit "f/bb+0") [call_g]].
Definition find0 (n : cstring) : option Function := if str_eqb n (lit "f") then Some fun_f else None.

Lemma changed_function_reference_undefined_witness :
  filter_symbols_to_resolve find0 None [lit "f"; lit "g"] no_refs false = Err BadAccess.
Proof.
  apply (changed_function_reference_undefined find0 None [lit "f"; lit "g"] no_refs false
    (mkRefs [lit "g"] ∅ ∅) 1 (lit "f") fun_f call_g (lit "g")).
  - vm_compute. reflexivity.
  - left.
  - reflexivity.
  - left.
  - vm_compute. eauto.
  - right. left.
Defined.

(** A jump inside [f]. *)
Definition jump_f : Instruction :=
  mkInstr 9 (Some (InstructionLink (Some (lit "f")) 4)) (Some (lit "f")) None [] [] true.
Definition loop_f : Function := mkFunction (lit "f") 16 [mkBlock (lit "f/bb+0") [jump_f]].

Lemma inner_jumps_leave_the_patch_witness :
  exists es c, link_visit_function (fun _ => Some 0x1100) (lit "/old") None map0 no_refs loop_f (mkCounts 0 0 0) = Ok (es, c) /\
    LinkText 9 0x1104 4 ∈ es.
Proof.
  eexists _, _. split; [vm_compute; reflexivity|].
  apply (inner_jumps_leave_the_patch (fun _ => Some 0x1100) (lit "/old") None map0 no_refs loop_f (mkCounts 0 0 0)
    _ (mkCounts 0 1 0) jump_f (lit "f") 4 0x1100).
  - vm_compute. reflexivity.
  - by repeat constructor.
  - left.
  - reflexivity.
  - reflexivity.
  - reflexivity.
Defined.

(** ** The session *)

(** Egalito finds the function [f] in the new executable and its symbol in the old one; slots are
    handed out one after the other. *)
Definition egalito0 : Egalito :=
  {| find_function _ n := if str_eqb n (lit "f") then Some (mkFunction (lit "f") 16 []) else None;
     find_plt _ _ := None;
     find_symbol _ _ := Some 1000;
     find_rodata _ := None;
     entry_point _ := 100;
     allocate base used _ := base + foldr Z.add 0 used |}.

Definition summary0 (funcs : list FuncInfo) : MuplayBinaryModificationSummary :=
  mkSummary (lit "f.c") (lit "src/f.c") (lit "/new") [mkLineMod 2 [104] funcs] INSERTED.
Definition pre0 (funcs : list FuncInfo) : MuplayPreprocessor :=
  mkPre empty_patch [summary0 funcs] [(lit "/new", lit "/old")].

(** The process has stopped at the breakpoint at its entry point, 4196. *)
Definition code1 (a : Z) : option Z := if (4096 <=? a) && (a <? 8192) then Some (a mod 256) else None.
Definition vm1 : space := mkSpace (poke code1 4196 breakpoint_insn) {[4196 := mkBp 0 1 100]} true.
Definition at_entry : MuplaySession :=
  mkSession true false [mkFm (lit "_start") 4196 4196 true] 4196 false true no_refs false []
    (mkCounts 0 0 0) ∅ ∅ 0 0 0 0 0 vm1 4197 map0 true.

Lemma vm1_inv : Breakpoints.inv vm1.
Proof.
  split; [done|]. intros a b Hb. cbn in Hb. apply lookup_singleton_Some in Hb as [<- <-]. by vm_compute.
Qed.

Notation run0 funcs := (muplay_step (E := egalito0) (pre0 funcs) (lit "/old") false).
Definition f_info : FuncInfo := mkFunc (lit "f") 100 20.
Definition loaded : MuplaySession := Eval vm_compute in snd (run0 [f_info] at_entry).

Lemma loaded_table : func_mappings loaded = [mkFm (lit "_start") 4196 4196 false; mkFm (lit "f") 5096 8192 true].
Proof. vm_compute. reflexivity. Qed.

Lemma loaded_distinct : addresses_distinct (func_mappings loaded).
Proof.
  rewrite loaded_table. split.
  - cbn. constructor; [|constructor; [apply not_elem_of_nil|constructor]]. by intros ?%list_elem_of_singleton.
  - intros x y Hx Hy. apply elem_of_cons in Hx as [->|Hx%list_elem_of_singleton]; [|subst x];
      (apply elem_of_cons in Hy as [->|Hy%list_elem_of_singleton]; [|subst y]); cbn; lia.
Qed.

Lemma load_makes_ready_witness :
  ready loaded /\ (0 < pending loaded)%nat /\ ip loaded = 4196.
Proof.
  destruct (load_makes_ready (E := egalito0) (pre0 [f_info]) (lit "/old") false at_entry StepReplay loaded)
    as (H1 & H2 & H3 & _).
  - reflexivity.
  - reflexivity.
  - vm_compute. reflexivity.
  - apply vm1_inv.
  - by repeat constructor.
  - apply loaded_distinct.
  - rewrite loaded_table. repeat constructor; cbn; eauto.
  - split_and!; assumption.
Defined.

(** The process has reached [f]. *)
Definition at_f : MuplaySession := set_ip 5097 loaded.
Definition diverted : MuplaySession := Eval vm_compute in snd (run0 [f_info] at_f).

Lemma loaded_breakpoints : breakpoints (vm at_f) = {[5096 := mkBp 0 1 232]}.
Proof. vm_compute. reflexivity. Qed.

Lemma at_f_ready : ready at_f.
Proof.
  split_and!; [done..|apply loaded_distinct| |].
  - split; [done|]. intros a b. rewrite loaded_breakpoints. intros [<- <-]%lookup_singleton_Some. by vm_compute.
  - intros fm Hfm. change (func_mappings at_f) with (func_mappings loaded) in Hfm. rewrite loaded_table in Hfm.
    apply elem_of_cons in Hfm as [->|Hfm%list_elem_of_singleton]; [done|subst fm]. intros _. by vm_compute.
Qed.

Lemma redirected_once_witness :
  exists s', exec (E := egalito0) (pre0 [f_info]) (lit "/old") false at_f 1 s' /\
    pending at_f = 1%nat /\ pending s' = 0%nat /\ ready s'.
Proof.
  assert (exec (E := egalito0) (pre0 [f_info]) (lit "/old") false at_f 1 diverted) as Hexec.
  { apply (ExecStep _ _ _ at_f StepDiversion diverted diverted 0 diverted).
    - vm_compute. reflexivity.
    - discriminate.
    - split; try done. 
    - apply ExecEnd. }
  exists diverted.
  destruct (redirected_once (E := egalito0) (pre0 [f_info]) (lit "/old") false at_f 1 diverted) as (H1 & _).
  - exact at_f_ready.
  - exact Hexec.
  - split_and!; [exact Hexec|vm_compute; reflexivity|vm_compute; reflexivity|exact H1].
Defined.

Lemma jump_goes_to_patched_code_witness :
  exists s', run0 [f_info] at_f = (Ok StepDiversion, s') /\ ip s' = 8192.
Proof.
  destruct (jump_goes_to_patched_code (E := egalito0) (pre0 [f_info]) (lit "/old") false at_f at_f_ready)
    as (x & a & b & H1 & H2 & H3).
  - vm_compute. reflexivity.
  - assert (x = mkFm (lit "f") 5096 8192 true) as ->.
    { assert (x ∈ func_mappings loaded) as Hx.
      { change (func_mappings loaded) with (func_mappings at_f). rewrite H1. apply elem_of_app. right. left. }
      rewrite loaded_table in Hx. apply elem_of_cons in Hx as [->|Hx%list_elem_of_singleton]; [discriminate H2|done]. }
    destruct H3 as (v & H3 & _). eexists. split; [exact H3|reflexivity].
Defined.

(** The changed line is in no function. *)
Lemma deletions_only_abort_witness :
  exists w, fst (run0 [] at_entry) = Err w.
Proof.
  apply (deletions_only_abort (E := egalito0) (pre0 []) (lit "/old") false).
  - intros s Hs _. apply list_elem_of_singleton in Hs as ->. reflexivity.
  - reflexivity.
  - reflexivity.
  - by repeat constructor.
Defined.
