(* ===== verification/Witnesses.v ===== *)
(** * The theorems applied to concrete processes

    For each theorem with hypotheses, an instance in which they hold. *)

From stdpp Require Import base tactics list numbers gmap.
From S2P Require Import Prelude Memory KernelAbi CStrings PreloadInterface Machine SyscallNumbers Syscallbuf Chaos Wrappers Hook BufferInv WrapperInv HookInv Replay History ReplayWrappers ReplayOutputs ReplayHook Tracer ReplayBatch ProtocolSpec Boundaries TracerMonad FdTables FdTablesInv.
Local Open Scope Z_scope.

(** ** Concrete processes

    A kernel that returns a fixed number and changes nothing, a recorded process
    with an empty 1 MiB buffer and its copy in replay: the hypotheses of the
    theorems hold of them, and the definitions run on them. *)

(** Untraced calls on behalf of the program return [ret]; all others 0. *)
Definition env_returning (ret : Z) : Env :=
  mkEnv (fun e _ _ s => mkK (match e with UNTRACED_RECORDING_ONLY => ret | _ => 0 end)
                           (memory s) (hdr s) (tl s) (gl s))
    64 (2 ^ 30) 1 112.

Definition env0 : Env := env_returning 0.

Lemma env0_quiet : QuietKernel env0.
Proof. split; [done|done|]. intros sysno a s _ b _. done. Qed.

Lemma env0_contract : KernelContract env0.
Proof.
  split; [done| | |].
  - intros e sysno a s _ Hc. by split.
  - intros e sysno a s i _ _. transitivity 0; [by destruct e|apply Z.le_max_l].
  - intros e sysno a s _ _. by destruct e.
Qed.

Lemma env0_strfuel : 0 < Z.of_nat (@strfuel env0).
Proof. by vm_compute. Qed.

Lemma env0_ioctl : @ioctl_works env0.
Proof. intros a x. done. Qed.

Definition hdr_with (n : Z) : syscallbuf_hdr := mkHdr n 0 0 0 0 0 0 0 0 0 0.

(** [buffer], [buffer_size]; no cloned file data. *)
Definition tl0 (size : Z) : preload_thread_locals := mkTL 0 0 1 (2 ^ 40) size 100 (-1) 0 0 0 0.

(** Descriptor 7 is not buffered. *)
Definition gl0 : preload_globals :=
  mkGlobals 0 0 0 0 (fun fd => if fd =? 7 then 1 else 0) (fun _ => mkMprotect 0 0 0) 1.

Definition sv0 : statics := mkStatics 1 1 0 0 0 0.

Definition process (size n : Z) : st :=
  mkSt (fun _ => 0) (hdr_with n) (tl0 size) gl0 sv0 (2 ^ 41) [].

Definition s0 : st := process (2 ^ 20) 0.

Definition in_replay_copy (s : st) : st := set_gl (set_in_replay 1 (gl s)) s.

Lemma process_ready size n :
  0 <= n -> n mod 8 = 0 -> n + 46 <= size -> size < 2 ^ 32 -> ready (process size n).
Proof.
  intros H0 Hm Hs Hz. split; [|done|by split; try (cbn; lia)].
  split; [|done]. split; try done; unfold g_last, g_end, SIZEOF_HDR, SIZEOF_REC; cbn; lia.
Qed.

Lemma s0_ready : ready s0.
Proof. apply process_ready; done. Qed.

Lemma s0_start_ok : start_ok s0 (in_replay_copy s0).
Proof. apply start_ok_copy, s0_ready. Qed.

(** A program that makes [getpid] calls. *)
Definition getpid : syscall_info := mkCall SYS_getpid [0; 0; 0; 0; 0; 0].

Definition getpids : program := mkProgram (fun _ m => m) (fun _ _ => (0, getpid)).

Lemma getpid_ok g : call_ok (E := env0) g getpid.
Proof.
  split; [|intros i Hi; by apply elem_of_nil in Hi|apply List.Forall_nil|done].
  intros H. apply list_elem_of_In in H. cbn in H. repeat (destruct H as [H|H]; [discriminate|]). done.
Qed.

Lemma getpids_ok g : program_ok (E := env0) g getpids.
Proof. split; [done|done|done|]. intros rs m. apply getpid_ok. Qed.

(** [epoll_wait(3, events, 8, 1000)]. *)
Definition epoll_call : syscall_info := mkCall SYS_epoll_wait [3; 2 ^ 35; 8; 1000; 0; 0].

(** The buffered epoll_wait compares the raw result with EINTR, not -EINTR: with
    a timeout, a call that fails with EINTR returns at once, and a call that has
    delivered exactly 4 events makes a second, traced call and returns its
    result. *)
Theorem epoll_wait_eintr :
  (let r := syscall_hook_internal (E := env_returning (- EINTR)) epoll_call s0 in
   fst r = Ret (- EINTR) /\ traced_calls (events (snd r)) = 0%nat) /\
  (let r := syscall_hook_internal (E := env_returning EINTR) epoll_call s0 in
   fst r = Ret 0 /\ traced_calls (events (snd r)) = 1%nat /\
   num_rec_bytes (hdr (snd r)) = SIZEOF_REC + EINTR * SIZEOF_epoll_event).
Proof. vm_compute. repeat split; reflexivity. Qed.

(** A kernel that blocks the signals of [old] when [rt_sigprocmask] is called. *)
Definition env_sigmask (old : Z) : Env :=
  mkEnv (fun e sysno a s =>
      mkK 0 (if sysno =? SYS_rt_sigprocmask then store 8 (nth 2 a 0) old (memory s) else memory s)
        (hdr s) (tl s) (gl s))
    64 (2 ^ 30) 1 112.

(** Signal 1 is in the set at [2 ^ 35]. *)
Definition s_sigset : st := set_memory (store 8 (2 ^ 35) 1 (fun _ => 0)) s0.

(** [sigprocmask(SIG_UNBLOCK, p, q)]. *)
Definition unblock_call (q : Z) : syscall_info := mkCall SYS_rt_sigprocmask [SIG_UNBLOCK; 2 ^ 35; q; 8; 0; 0].

(** sigprocmask(SIG_UNBLOCK, p, p): the old mask is copied over the set before
    the set is read, so blocked_sigs becomes 0, where with separate sets it gets
    the mask the kernel has set. *)
Theorem sigprocmask_alias :
  let separate := syscall_hook_internal (E := env_sigmask 15) (unblock_call (2 ^ 36)) s_sigset in
  let same := syscall_hook_internal (E := env_sigmask 15) (unblock_call (2 ^ 35)) s_sigset in
  fst separate = Ret 0 /\ blocked_sigs (hdr (snd separate)) = sigprocmask_result SIG_UNBLOCK 15 1 /\
  fst same = Ret 0 /\ blocked_sigs (hdr (snd same)) = 0 /\ sigprocmask_result SIG_UNBLOCK 15 1 = 14.
Proof. vm_compute. repeat split; reflexivity. Qed.

Definition task0 : record_task := mkRecordTask (2 ^ 40) (2 ^ 20) false false 0 false false 0 [] [].
Definition rtask0 : replay_task := mkReplayTask (2 ^ 40) (2 ^ 20) (2 ^ 30) 1.

(** A run whose result and number of traced calls have been computed. *)
Lemma run_exists {A} (c : M A) s a n :
  fst (c s) = Ret a -> traced_calls (events (snd (c s))) = n ->
  exists f, c s = (Ret a, f) /\ traced_calls (events f) = n.
Proof. intros H1 H2. exists (snd (c s)). split; [|done]. by rewrite <- H1, <- surjective_pairing. Qed.

Lemma tracer0_ok : tracer_ok (E := env0) s0 task0 rtask0.
Proof. by split. Qed.

Lemma table0 : table_covers (E := env0) s0.
Proof. unfold table_covers. cbn. repeat split; lia. Qed.

(** The recorded run of two [getpid] calls. *)
Lemma batch0 : exists f, run_batch (E := env0) getpids 2 [] s0 = (Ret [0; 0], f) /\ traced_calls (events f) = 0%nat.
Proof. apply run_exists; vm_compute; reflexivity. Qed.

Lemma batch_record_replay_witness :
  exists f t' recs data s1' stop f' before,
    maybe_flush_syscallbuf task0 f = Some t' /\ trace t' = [] ++ [SyscallbufFlush recs data] /\
    prepare_syscallbuf_records rtask0 data (in_replay_copy s0) = Some (s1', stop) /\
    run_batch (E := env0) getpids 2 [] s1' = (Ret [0; 0], f') /\ related (tail (geom f)) f f' /\
    breakpoints (events f') = [] ++ before ++ [stop] /\ stop ∉ before /\
    count_records 2 (memory f') (next_syscallbuf_record (2 ^ 40) (in_replay_copy s0))
      (next_syscallbuf_record (2 ^ 40) f') = Some 2%nat.
Proof.
  destruct batch0 as (f&Hrun&Htr). exists f.
  apply (batch_record_replay (E := env0) (Q := env0_quiet) (K := env0_contract) env0_strfuel
    getpids 2 s0 (in_replay_copy s0) [0; 0] f task0 rtask0).
  - lia.
  - apply getpids_ok.
  - apply s0_start_ok.
  - apply tracer0_ok.
  - apply table0.
  - exact Hrun.
  - exact Htr.
Defined.

Lemma dump_flushed_witness :
  exists f ds, dump_syscallbuf_data 2 (flushed_data s0 f) = Some ds /\ length ds = 2%nat.
Proof.
  destruct batch0 as (f&Hrun&Htr). exists f.
  apply (dump_flushed (E := env0) (Q := env0_quiet) (K := env0_contract) env0_strfuel getpids 2 s0 [0; 0] f).
  - apply getpids_ok.
  - apply s0_ready.
  - reflexivity.
  - exact Hrun.
  - exact Htr.
Defined.

Lemma reset_both_witness :
  exists g g', reset_syscallbuf (2 ^ 40) false s0 = Some g /\
    reset_syscallbuf (2 ^ 40) false (in_replay_copy s0) = Some g' /\
    start_ok g g' /\ bytes g = 0 /\ same_buffer (geom s0) (geom g) /\
    g_last (geom g) = 2 ^ 40 + SIZEOF_HDR.
Proof. apply (reset_both (E := env0) s0 (in_replay_copy s0)). apply s0_start_ok. Defined.

Lemma hook_keeps_buffer_witness : ends (geom s0) (syscall_hook (E := env0) 0 getpid s0).
Proof.
  apply (hook_keeps_buffer (E := env0) (K := env0_contract) 0 getpid s0).
  - discriminate.
  - discriminate.
  - discriminate.
  - intros i Hi. by apply elem_of_nil in Hi.
  - apply s0_ready.
Defined.

Lemma hook_reentry_witness :
  syscall_hook (E := env0) 0 getpid (locked_state s0) = traced_raw_syscall (E := env0) getpid (locked_state s0).
Proof.
  apply (hook_reentry (E := env0) 0 getpid (locked_state s0)).
  - discriminate.
  - discriminate.
  - right. discriminate.
Defined.

Lemma start_commit_branches_witness :
  start_commit_buffered_syscall (E := env0) SYS_getpid (2 ^ 40 + 30 + 16) WONT_BLOCK s0
    = (Ret true, started SYS_getpid (2 ^ 40 + 30 + 16) WONT_BLOCK s0).
Proof.
  apply (start_commit_branches (E := env0) (Q := env0_quiet) SYS_getpid (2 ^ 40 + 30 + 16) WONT_BLOCK s0).
  - apply ready_good, s0_ready.
  - reflexivity.
  - apply env0_ioctl.
  - lia.
Defined.

(** A transaction about to be committed. *)
Definition opened : st := started SYS_write (2 ^ 40 + 46) MAY_BLOCK (locked_state s0).

Lemma commit_branches_witness :
  commit_raw_syscall (E := env0) SYS_write (2 ^ 40 + 46) 5 opened =
    (Ret 5, committed (E := env0) (2 ^ 40 + 46) 5 MAY_BLOCK opened).
Proof.
  apply (commit_branches (E := env0) (Q := env0_quiet) SYS_write (2 ^ 40 + 46) 5 MAY_BLOCK opened).
  - vm_compute. split; [discriminate|reflexivity].
  - discriminate.
  - vm_compute. reflexivity.
  - vm_compute. reflexivity.
  - apply env0_ioctl.
Defined.

(** Writing to descriptor 7. *)
Definition write7 : syscall_info := mkCall SYS_write [7; 2 ^ 35; 3; 0; 0; 0].

(** A process that rr records: descriptor 7 is monitored, then the preload library starts. *)
Definition fd0 : fd_state := mkFdState true ∅ (fun _ => mkTable ∅ 0) (fun _ => false) (fun _ _ => 0).
Definition fd1 : fd_state := snd (fd_create 1 10 100 fd0).
Definition fd2 : fd_state := snd (add_monitor 10 7 1 fd1).
Definition fd3 : fd_state := snd (at_preload_init 1 fd2).

Lemma fd3_reachable : fd_reachable (fun _ => true) fd3.
Proof.
  apply (FdNext _ fd2); [|by apply (StepPreload _ _ _ 1)].
  apply (FdNext _ fd1); [|by apply (StepMonitor _ _ _ 10 7 1)].
  apply (FdNext _ fd0); [apply FdStart|]. apply (StepCreate _ _ _ 1 10 100); [|done].
  intros t ti Ht. cbn in Ht. by rewrite lookup_empty in Ht.
Qed.

(** The array of the library, as rr has written it. *)
Lemma fd3_seen : sees fd3 100 (gl s0).
Proof.
  assert (forallb (fun i => syscallbuf_fds_disabled (gl s0) i =? disabled fd3 100 i)
    (map Z.of_nat (seq 0 1024)) = true) as H by (vm_compute; reflexivity).
  intros i Hi. change SYSCALLBUF_FDS_DISABLED_SIZE with 1024 in Hi. rewrite forallb_forall in H.
  apply Z.eqb_eq, H, in_map_iff. exists (Z.to_nat i). split; [lia|]. apply in_seq. lia.
Qed.

Lemma monitored_fd_is_traced_witness :
  syscall_hook_internal (E := env0) write7 s0 = traced_raw_syscall (E := env0) write7 s0.
Proof.
  apply (monitored_fd_is_traced (fun _ => true) (E := env0) (K := env0_contract) fd3 1 (mkFdTask 10 100) 7 s0).
  - apply fd3_reachable.
  - reflexivity.
  - reflexivity.
  - reflexivity.
  - vm_compute. reflexivity.
  - apply fd3_seen.
  - apply s0_ready.
  - reflexivity.
  - intros i Hi. by apply elem_of_nil in Hi.
  - apply list_elem_of_In. cbn. tauto.
  - reflexivity.
Defined.

Lemma update_exact_witness :
  disabled (snd (update_syscallbuf_fds_disabled 10 7 fd3)) 100 7 = 1 /\
  exists t ti fd', tasks fd3 !! t = Some ti /\ t_vm ti = 100 /\ monitors fd3 ti fd' /\ clamp_fd fd' = clamp_fd 7.
Proof.
  pose proof (update_exact 10 7 fd3 (snd (update_syscallbuf_fds_disabled 10 7 fd3)) 100) as H.
  destruct H as [H _].
  - vm_compute. reflexivity.
  - reflexivity.
  - apply (reachable_inv _ _ fd3_reachable).
  - apply list_elem_of_In. vm_compute. left. reflexivity.
  - reflexivity.
  - split; [vm_compute; reflexivity|]. apply H. vm_compute. reflexivity.
Defined.

(** One [getpid] call in a buffer of a given size and fill. *)
Lemma getpid_small : exists f, syscall_hook (E := env0) 0 getpid s0 = (Ret 0, f) /\ traced_calls (events f) = 0%nat.
Proof. apply run_exists; vm_compute; reflexivity. Qed.

Lemma breakpoint_in_table_witness :
  exists f a, breakpoints (events f) = [] ++ [a] /\ 2 ^ 30 <= a < 2 ^ 30 + BREAKPOINT_TABLE_ENTRIES.
Proof.
  destruct getpid_small as (f&Hrun&Htr). exists f.
  apply (breakpoint_in_table (E := env0) (Q := env0_quiet) (K := env0_contract) env0_strfuel eq_refl
    ltac:(cbn; lia) 0 getpid s0 0 f).
  - reflexivity || (cbn; lia).
  - apply s0_ready.
  - apply getpid_ok.
  - exact Hrun.
  - exact Htr.
Defined.

Lemma hook_records_or_traps_witness :
  exists f, syscall_hook (E := env0) 0 getpid s0 = (Ret 0, f) /\
    ((0 < traced_calls (events f))%nat \/ bytes s0 < bytes f).
Proof.
  destruct getpid_small as (f&Hrun&Htr). exists f. split; [exact Hrun|].
  destruct (hook_records_or_traps (E := env0) (Q := env0_quiet) (K := env0_contract) env0_strfuel 0 getpid s0 0 f)
    as [H|(_&_&_&H&_)].
  - apply s0_ready.
  - apply getpid_ok.
  - exact Hrun.
  - left. exact H.
  - right. exact H.
Defined.

(** A buffer of 2048 kB, half full. *)
Definition s_large : st := process (2 ^ 21) (2 ^ 20).

Lemma getpid_large :
  exists f, syscall_hook (E := env0) 0 getpid s_large = (Ret 0, f) /\ traced_calls (events f) = 0%nat.
Proof. apply run_exists; vm_compute; reflexivity. Qed.

Lemma breakpoint_past_table_witness :
  valid_syscall_buffer_size 2048 = true /\
  exists f a, breakpoints (events f) = [] ++ [a] /\ 2 ^ 30 + BREAKPOINT_TABLE_ENTRIES <= a.
Proof.
  split; [reflexivity|]. destruct getpid_large as (f&Hrun&Htr). exists f.
  apply (breakpoint_past_table (E := env0) (Q := env0_quiet) (K := env0_contract) env0_strfuel eq_refl
    ltac:(cbn; lia) 2048 0 getpid s_large 0 f).
  - reflexivity.
  - vm_compute. discriminate.
  - apply process_ready; vm_compute; (reflexivity || discriminate).
  - apply getpid_ok.
  - exact Hrun.
  - exact Htr.
Defined.

(** [pread64(3, buf, -4096, 0)]. *)
Definition pread_negative : syscall_info := mkCall SYS_pread64 [3; 2 ^ 35; -4096; 0; 0; 0].

Lemma pread64_lock_leak_witness :
  sys_pread64 (E := env0) pread_negative s0 =
    traced_raw_syscall (E := env0) pread_negative (set_hdr (set_locked SYSCALLBUF_LOCKED_TRACEE (hdr s0)) s0).
Proof.
  apply (pread64_lock_leak (E := env0) pread_negative s0).
  - reflexivity.
  - apply s0_ready.
  - reflexivity.
  - reflexivity.
  - vm_compute. discriminate.
  - vm_compute. split; [discriminate|reflexivity].
Defined.

Lemma rt_sigprocmask_header_witness :
  exists f, syscall_hook_internal (E := env0) (unblock_call (2 ^ 36)) s_sigset = (Ret 0, f) /\
    in_sigprocmask_critical_section (hdr f) = 0.
Proof.
  destruct (rt_sigprocmask_header (E := env0) (Q := env0_quiet) env0_ioctl (unblock_call (2 ^ 36)) s_sigset)
    as (f&Hrun&_&_&_&Hcrit&_).
  - split.
    + destruct s0_ready as [? ? []]. split; [done|done|by split].
    + reflexivity.
    + reflexivity.
    + vm_compute. discriminate.
    + vm_compute. discriminate.
    + vm_compute. discriminate.
    + right; right; left. vm_compute. discriminate.
    + right; right; left. vm_compute. discriminate.
    + right; right; right. vm_compute. discriminate.
    + right; right; right. vm_compute. discriminate.
    + right; right; right. vm_compute. discriminate.
    + right; right; left. vm_compute. discriminate.
    + intros a x. reflexivity.
  - exists f. by split.
Defined.

(** Two buffered [mprotect]s, the first of which is complete. *)
Definition s_mprotect : st :=
  set_gl (set_mprotect_records (fun i => mkMprotect (i * 4096) 4096 0) gl0)
    (set_hdr (mkHdr 16 2 1 0 0 1 0 0 0 0 0) s0).

Lemma apply_mprotect_early_witness :
  apply_mprotect_records (fun _ => 3) 1 s_mprotect = ([mkMprotect 4096 4096 0], 2).
Proof. apply (apply_mprotect_early (fun _ => 3) s_mprotect); reflexivity. Defined.

Definition openat_null : syscall_info := mkCall SYS_openat [5; 0; 0; 0; 0; 0].

Lemma openat_null_path_witness :
  syscall_hook_internal (E := env0) openat_null s0 = (Abort UserNullDeref, s0).
Proof.
  apply (openat_null_path (E := env0) openat_null s0); vm_compute; (reflexivity || discriminate).
Defined.

Definition recvfrom_no_addrlen : syscall_info := mkCall SYS_recvfrom [3; 2 ^ 35; 16; 0; 2 ^ 36; 0].

Lemma recvfrom_asserts_witness :
  fst (syscall_hook_internal (E := env0) recvfrom_no_addrlen s0) = Abort AssertFailed.
Proof.
  apply (recvfrom_asserts (E := env0) recvfrom_no_addrlen s0); vm_compute; (reflexivity || discriminate).
Defined.

(** [quotactl(QCMD(Q_GETQUOTA, USRQUOTA), ...)]. *)
Definition getquota : syscall_info := mkCall SYS_quotactl [Q_GETQUOTA * 256; 2 ^ 35; 0; 2 ^ 36; 0; 0].

Lemma quotactl_never_buffered_witness :
  syscall_hook_internal (E := env0) getquota s0 = traced_raw_syscall (E := env0) getquota s0.
Proof. apply (quotactl_never_buffered (E := env0) getquota s0). reflexivity. Defined.

Definition mprotect_call : syscall_info := mkCall SYS_mprotect [2 ^ 35; 4096; 1; 0; 0; 0].

Lemma mprotect_recorded_witness :
  exists ret f, syscall_hook_internal (E := env0) mprotect_call s0 = (Ret ret, f) /\
    mprotect_record_count (hdr f) = 1.
Proof.
  destruct (mprotect_recorded (E := env0) (Q := env0_quiet) env0_ioctl) with (call := mprotect_call) (s := s0)
    as (ret&f&Hrun&_&_&Hcount&_).
  - intros a x. by repeat split.
  - split.
    + reflexivity.
    + apply s0_ready.
    + reflexivity.
    + vm_compute. split; [discriminate|reflexivity].
    + vm_compute. discriminate.
  - exists ret, f. by split.
Defined.

Lemma chaos_refill_bounds_witness : let '(trace, buffer) := chaos_refill (-86) in trace <= 1 /\ buffer = 0.
Proof. apply (chaos_refill_bounds (-86)); lia. Defined.
