(* ===== verification/CompressedWriter.v ===== *)
(** * Compressed trace files: writing

    CompressedWriter.cc.  A producer copies data into a ring buffer; threads take blocks of it
    in order, compress them without the lock and write them to the file in order.  One step of
    the model is what one thread does while it holds [mutex], or one of the things it does
    without it: the producer's [memcpy], [do_compress] and one [write] of [write_all], which may
    write less than it was given.  A thread that waits on [cond] has a flag;
    [pthread_cond_broadcast] sets it, and the thread cannot go on before, but for the spurious
    wakeups that [pthread_cond_wait] allows at any time.

    Positions are natural numbers: they are 64 bits wide and count bytes of the trace; an idle
    thread's position, [UINT64_MAX], is [None].  Brotli is the class [Codec].  [stream] is what
    the producer has copied so far; no code reads it. *)

From stdpp Require Import base tactics list numbers.
From S2P Require Import Prelude SyscallParams.
Local Open Scope nat_scope.

(** ** Blocks *)

(** [BrotliEncoderCompressStream] up to [FINISH], and [BrotliDecoderDecompress] given the size of the result. *)
Class Codec := {
  compress : list Z -> list Z;
  decompress : list Z -> nat -> option (list Z);
  decompress_compress : forall l, decompress (compress l) (length l) = Some l;
  compress_nonempty : forall l, compress l <> [] }.

(** [BlockHeader]: two 32-bit words. *)
Definition header_size : nat := 8.

Definition block_header (compressed_length uncompressed_length : nat) : list Z :=
  le_bytes 4 (Z.of_nat compressed_length) ++ le_bytes 4 (Z.of_nat uncompressed_length).

(** ** The state *)

Inductive thread_pc :=
| TTop
| TWaitWork (woken : bool)
| TCompress (pos len : nat)
| TCompressed (pos len : nat) (out : list Z)
| TWaitTurn (woken : bool) (pos len : nat) (out : list Z)
| TWrite (pos len : nat) (out : list Z) (written : nat)
| TWrote (pos len : nat)
| TExit.

(** The producer: between calls, in the loop of [write], in [update_reservation] waiting for space, and in [close]. *)
Inductive producer_pc :=
| PIdle
| PWrite (data : list Z)
| PWaitSpace (woken : bool) (data : list Z)
| PClosing
| PJoin
| PClosed.

Inductive WaitFlag := WAIT | NOWAIT.

Record writer := mkWriter {
  block_size : nat;
  buffer : list Z;
  threads : list thread_pc;
  next_thread_pos : nat;
  next_thread_end_pos : nat;
  closing : bool;
  write_error : bool;
  producer_reserved_pos : nat;
  producer_reserved_write_pos : nat;
  producer_reserved_upto_pos : nat;
  error : bool;
  producer : producer_pc;
  file : list Z;
  stream : list Z }.

Definition with_buffer v (s : writer) : writer :=
  mkWriter (block_size s) v (threads s) (next_thread_pos s) (next_thread_end_pos s)
    (closing s) (write_error s) (producer_reserved_pos s)
    (producer_reserved_write_pos s) (producer_reserved_upto_pos s) (error s)
    (producer s) (file s) (stream s).
Definition with_threads v (s : writer) : writer :=
  mkWriter (block_size s) (buffer s) v (next_thread_pos s) (next_thread_end_pos s)
    (closing s) (write_error s) (producer_reserved_pos s)
    (producer_reserved_write_pos s) (producer_reserved_upto_pos s) (error s)
    (producer s) (file s) (stream s).
Definition with_next_thread_pos v (s : writer) : writer :=
  mkWriter (block_size s) (buffer s) (threads s) v (next_thread_end_pos s) (closing
    s) (write_error s) (producer_reserved_pos s) (producer_reserved_write_pos s)
    (producer_reserved_upto_pos s) (error s) (producer s) (file s) (stream s).
Definition with_next_thread_end_pos v (s : writer) : writer :=
  mkWriter (block_size s) (buffer s) (threads s) (next_thread_pos s) v (closing s)
    (write_error s) (producer_reserved_pos s) (producer_reserved_write_pos s)
    (producer_reserved_upto_pos s) (error s) (producer s) (file s) (stream s).
Definition with_closing v (s : writer) : writer :=
  mkWriter (block_size s) (buffer s) (threads s) (next_thread_pos s)
    (next_thread_end_pos s) v (write_error s) (producer_reserved_pos s)
    (producer_reserved_write_pos s) (producer_reserved_upto_pos s) (error s)
    (producer s) (file s) (stream s).
Definition with_write_error v (s : writer) : writer :=
  mkWriter (block_size s) (buffer s) (threads s) (next_thread_pos s)
    (next_thread_end_pos s) (closing s) v (producer_reserved_pos s)
    (producer_reserved_write_pos s) (producer_reserved_upto_pos s) (error s)
    (producer s) (file s) (stream s).
Definition with_producer_reserved_pos v (s : writer) : writer :=
  mkWriter (block_size s) (buffer s) (threads s) (next_thread_pos s)
    (next_thread_end_pos s) (closing s) (write_error s) v
    (producer_reserved_write_pos s) (producer_reserved_upto_pos s) (error s)
    (producer s) (file s) (stream s).
Definition with_producer_reserved_write_pos v (s : writer) : writer :=
  mkWriter (block_size s) (buffer s) (threads s) (next_thread_pos s)
    (next_thread_end_pos s) (closing s) (write_error s) (producer_reserved_pos s) v
    (producer_reserved_upto_pos s) (error s) (producer s) (file s) (stream s).
Definition with_producer_reserved_upto_pos v (s : writer) : writer :=
  mkWriter (block_size s) (buffer s) (threads s) (next_thread_pos s)
    (next_thread_end_pos s) (closing s) (write_error s) (producer_reserved_pos s)
    (producer_reserved_write_pos s) v (error s) (producer s) (file s) (stream s).
Definition with_error v (s : writer) : writer :=
  mkWriter (block_size s) (buffer s) (threads s) (next_thread_pos s)
    (next_thread_end_pos s) (closing s) (write_error s) (producer_reserved_pos s)
    (producer_reserved_write_pos s) (producer_reserved_upto_pos s) v (producer s)
    (file s) (stream s).
Definition with_producer v (s : writer) : writer :=
  mkWriter (block_size s) (buffer s) (threads s) (next_thread_pos s)
    (next_thread_end_pos s) (closing s) (write_error s) (producer_reserved_pos s)
    (producer_reserved_write_pos s) (producer_reserved_upto_pos s) (error s) v (file
    s) (stream s).
Definition with_file v (s : writer) : writer :=
  mkWriter (block_size s) (buffer s) (threads s) (next_thread_pos s)
    (next_thread_end_pos s) (closing s) (write_error s) (producer_reserved_pos s)
    (producer_reserved_write_pos s) (producer_reserved_upto_pos s) (error s)
    (producer s) v (stream s).
Definition with_stream v (s : writer) : writer :=
  mkWriter (block_size s) (buffer s) (threads s) (next_thread_pos s)
    (next_thread_end_pos s) (closing s) (write_error s) (producer_reserved_pos s)
    (producer_reserved_write_pos s) (producer_reserved_upto_pos s) (error s)
    (producer s) (file s) v.

(** [thread_pos] of a thread: where the block it works on begins. *)
Definition pos_of (t : thread_pc) : option nat :=
  match t with
  | TCompress pos _ | TCompressed pos _ _ | TWaitTurn _ pos _ _ | TWrite pos _ _ _ | TWrote pos _ => Some pos
  | TTop | TWaitWork _ | TExit => None
  end.

Definition thread_pos (s : writer) : list nat := omap pos_of (threads s).

Definition wake_thread (t : thread_pc) : thread_pc :=
  match t with
  | TWaitWork _ => TWaitWork true
  | TWaitTurn _ pos len out => TWaitTurn true pos len out
  | t => t
  end.

Definition wake_producer (p : producer_pc) : producer_pc :=
  match p with PWaitSpace _ data => PWaitSpace true data | p => p end.

Definition broadcast (s : writer) : writer :=
  with_producer (wake_producer (producer s)) (with_threads (map wake_thread (threads s)) s).

Definition set_thread (i : nat) (t : thread_pc) (s : writer) : writer := with_threads (<[i := t]> (threads s)) s.

(** ** The ring buffer *)

(** [memcpy] to the buffer. *)
Definition put (data : list Z) (s : writer) : writer :=
  let buf_offset := producer_reserved_write_pos s mod length (buffer s) in
  with_stream (stream s ++ data)
    (with_producer_reserved_write_pos (producer_reserved_write_pos s + length data)
      (with_buffer (list_inserts buf_offset data (buffer s)) s)).

(** What [do_compress] hands to the encoder: a block is no longer than the buffer, so that there are at most two pieces. *)
Definition block_data (s : writer) (offset len : nat) : list Z :=
  let buf_offset := offset mod length (buffer s) in
  let amount := Nat.min len (length (buffer s) - buf_offset) in
  take amount (drop buf_offset (buffer s)) ++ take (len - amount) (buffer s).

(** ** Compression threads *)

Section Threads.
Context `{Codec}.

(** The size of [outputbuf] without the header. *)
Definition outputbuf_len (block : nat) : nat := block * 11 / 10.

(** [do_compress]: what the encoder has written to [outputbuf] when the input is used up; output that does not fit is
    lost.  (Should the buffer be full before that, the code would loop.) *)
Definition packed (block : nat) (data : list Z) : list Z := take (outputbuf_len block) (compress data).

Definition do_compress (s : writer) (offset len : nat) : list Z := packed (block_size s) (block_data s offset len).

(** What a thread hands to [write_all]. *)
Definition outputbuf (len : nat) (out : list Z) : list Z := block_header (length out) len ++ out.

#[global] Arguments outputbuf : simpl never.

(** A block can be taken: a whole one, or what is left when the file is closed. *)
Definition can_take (s : writer) : bool :=
  negb (write_error s) && (next_thread_pos s <? next_thread_end_pos s) &&
  (closing s || (next_thread_pos s + block_size s <=? next_thread_end_pos s)).

Definition can_exit (s : writer) : bool :=
  closing s && (write_error s || (next_thread_pos s =? next_thread_end_pos s)).

(** The top of the loop of [compression_thread], with the lock. *)
Definition thread_top (i : nat) (s : writer) : writer :=
  if can_take s then
    let pos := next_thread_pos s in
    let next := Nat.min (next_thread_end_pos s) (pos + block_size s) in
    set_thread i (TCompress pos (next - pos)) (with_next_thread_pos next s)
  else if can_exit s then set_thread i TExit s
  else set_thread i (TWaitWork false) s.

(** The thread is done with its block. *)
Definition thread_finish (i : nat) (s : writer) : writer :=
  thread_top i (broadcast (set_thread i TTop s)).

Definition other_thread_write_first (pos : nat) (s : writer) : bool := existsb (fun p => p <? pos) (thread_pos s).

(** Waiting for the threads with earlier blocks. *)
Definition thread_turn (i pos len : nat) (out : list Z) (s : writer) : writer :=
  if write_error s then thread_finish i s
  else if other_thread_write_first pos s then set_thread i (TWaitTurn false pos len out) s
  else set_thread i (TWrite pos len out 0) s.

(** A step of a thread; [ok] says whether the encoder succeeds, [n] what [write] returns.  [None]: it cannot go on; a
    [write] that fails or writes nothing is [FATAL], after which there are no steps at all. *)
Definition thread_step (i : nat) (ok : bool) (n : nat) (s : writer) : option writer :=
  match threads s !! i with
  | None | Some TExit | Some (TWaitWork false) | Some (TWaitTurn false _ _ _) => None
  | Some TTop | Some (TWaitWork true) => Some (thread_top i s)
  | Some (TCompress pos len) =>
      Some (set_thread i (TCompressed pos len (if ok then do_compress s pos len else [])) s)
  | Some (TCompressed pos len out) =>
      (* [compressed_length] is 0 when the encoder failed *)
      let s := if (length out =? 0) then with_write_error true s else s in
      Some (thread_turn i pos len out s)
  | Some (TWaitTurn true pos len out) => Some (thread_turn i pos len out s)
  | Some (TWrite pos len out written) =>
      if n =? 0 then None
      else
        let piece := take n (drop written (outputbuf len out)) in
        let written := written + length piece in
        Some (set_thread i (if written =? length (outputbuf len out) then TWrote pos len else TWrite pos len out written)
               (with_file (file s ++ piece) s))
  | Some (TWrote pos len) => Some (thread_finish i s)
  end.

(** ** The producer *)

(** The first position that is not written yet. *)
Definition completed_pos (s : writer) : nat := foldr Nat.min (next_thread_pos s) (thread_pos s).

(** The loop of [update_reservation]; the result says whether it goes on to wait. *)
Definition update_loop (wait_flag : WaitFlag) (s : writer) : writer * bool :=
  if error s then (s, false)
  else if write_error s then (with_error true s, false)
  else
    let upto := completed_pos s + length (buffer s) in
    let s := with_producer_reserved_upto_pos upto s in
    (s, match wait_flag with WAIT => negb (producer_reserved_pos s <? upto) | NOWAIT => false end).

Definition update_reservation (wait_flag : WaitFlag) (s : writer) : writer * bool :=
  update_loop wait_flag
    (broadcast (with_producer_reserved_pos (producer_reserved_write_pos s)
                 (with_next_thread_end_pos (producer_reserved_write_pos s) s))).

(** In [write], waiting for space. *)
Definition await_space (data : list Z) (r : writer * bool) : writer :=
  let '(s, waits) := r in with_producer (if waits : bool then PWaitSpace false data else PWrite data) s.

(** One turn of the loop of [write], and what follows it. *)
Definition write_turn (data : list Z) (s : writer) : writer :=
  if negb (error s) && negb (length data =? 0) then
    let reservation_size := producer_reserved_upto_pos s - producer_reserved_write_pos s in
    if reservation_size =? 0 then await_space data (update_reservation WAIT s)
    else
      let buf_offset := producer_reserved_write_pos s mod length (buffer s) in
      let amount := Nat.min (length (buffer s) - buf_offset) (Nat.min reservation_size (length data)) in
      with_producer (PWrite (drop amount data)) (put (take amount data) s)
  else if negb (error s) && (length (buffer s) / 2 <=? producer_reserved_write_pos s - producer_reserved_pos s) then
    with_producer PIdle (update_reservation NOWAIT s).1
  else with_producer PIdle s.

(** The calls of the producer. *)
Inductive call := CallWrite (data : list Z) | CallClose.

Definition exited (t : thread_pc) : bool := match t with TExit => true | _ => false end.

(** A step of the producer; [c] is the call it makes when it is between calls.  [pthread_join] waits for the threads. *)
Definition producer_step (c : call) (s : writer) : option writer :=
  match producer s with
  | PIdle =>
      match c with
      | CallWrite data => Some (with_producer (PWrite data) s)
      | CallClose => Some (with_producer PClosing (update_reservation NOWAIT s).1)
      end
  | PWrite data => Some (write_turn data s)
  | PWaitSpace true data => Some (await_space data (update_loop WAIT s))
  | PWaitSpace false _ => None
  | PClosing => Some (with_producer PJoin (broadcast (with_closing true s)))
  | PJoin =>
      if forallb exited (threads s) then
        Some (with_producer PClosed (if write_error s then with_error true s else s))
      else None
  | PClosed => None
  end.

(** ** Runs *)

(** [pthread_cond_wait] may return without a [pthread_cond_broadcast]; the caller, thread [i] or the producer, then looks
    again at what it waits for. *)
Definition waits (t : thread_pc) : bool := match t with TWaitWork false | TWaitTurn false _ _ _ => true | _ => false end.

Definition spurious_wakeup (w : option nat) (s : writer) : option writer :=
  match w with
  | Some i =>
      match threads s !! i with
      | Some t => if waits t then Some (set_thread i (wake_thread t) s) else None
      | None => None
      end
  | None => match producer s with PWaitSpace false data => Some (with_producer (PWaitSpace true data) s) | _ => None end
  end.

Inductive event := EThread (i : nat) (ok : bool) (n : nat) | EProducer (c : call) | ESpurious (w : option nat).

Definition step (e : event) (s : writer) : option writer :=
  match e with
  | EThread i ok n => thread_step i ok n s
  | EProducer c => producer_step c s
  | ESpurious w => spurious_wakeup w s
  end.

(** The constructor, when the file could be opened. *)
Definition new_writer (block num_threads : nat) : writer :=
  mkWriter block (replicate (block * (num_threads + 2)) 0%Z) (replicate num_threads TTop) 0 0 false false 0 0 0 false PIdle [] [].

Inductive reachable_writer (block num_threads : nat) : writer -> Prop :=
| reachable_new : reachable_writer block num_threads (new_writer block num_threads)
| reachable_step s e s' : reachable_writer block num_threads s -> step e s = Some s' -> reachable_writer block num_threads s'.

(** [good]. *)
Definition good (s : writer) : bool := negb (error s).

End Threads.
