(* ===== verification/CompressedWriterInv.v ===== *)
(** * Compressed trace files: the invariant of the writer

    The positions, the ring buffer, the blocks the threads work on and the file, as every step
    of CompressedWriter.v keeps them.  [w] is how much of the stream is in the file and [ds]
    the blocks it is in. *)

From stdpp Require Import base tactics list numbers.
From S2P Require Import Prelude SyscallParams CompressedWriter.
Local Open Scope nat_scope.

(** ** Arithmetic of the ring *)

(** Two positions less than a buffer apart are at different places of it. *)
Lemma ring_distinct (b k j : nat) : k < j -> j < k + b -> k mod b <> j mod b.
Proof.
  intros Hkj Hjb Heq. assert (b <> 0) as Hb by lia.
  pose proof (Nat.div_mod k b Hb). pose proof (Nat.div_mod j b Hb).
  assert (b * (j / b) - b * (k / b) = j - k) by lia.
  assert (b * (j / b - k / b) = j - k) by (rewrite Nat.mul_sub_distr_l; lia).
  destruct (j / b - k / b) as [|d]; nia.
Qed.

(** Positions that do not pass the end of the buffer are next to each other in it. *)
Lemma ring_offset (b pos i : nat) : pos mod b + i < b -> (pos + i) mod b = pos mod b + i.
Proof.
  intros Hi. assert (b <> 0) as Hb by lia.
  rewrite Nat.Div0.add_mod, (Nat.mod_small i) by lia. apply Nat.mod_small. lia.
Qed.

(** Past the end it starts again. *)
Lemma ring_wrap (b pos i : nat) : b <= pos mod b + i -> pos mod b + i < b + b -> (pos + i) mod b = pos mod b + i - b.
Proof.
  intros Hlow Hhigh. assert (b <> 0) as Hb by lia.
  pose proof (Nat.div_mod pos b Hb) as Hp.
  replace (pos + i) with (pos mod b + i - b + (pos / b + 1) * b) by lia.
  rewrite Nat.Div0.mod_add. apply Nat.mod_small. lia.
Qed.

(** The fields of a state that setters build. *)
Ltac fields := cbn [new_writer set_thread broadcast with_buffer with_threads with_next_thread_pos with_next_thread_end_pos
    with_closing with_write_error with_producer_reserved_pos with_producer_reserved_write_pos
    with_producer_reserved_upto_pos with_error with_producer with_file with_stream block_size buffer threads next_thread_pos next_thread_end_pos closing write_error
    producer_reserved_pos producer_reserved_write_pos producer_reserved_upto_pos error producer file stream] in *.

(** ** The blocks of the threads *)

(** The part of the stream a thread works on. *)
Definition block_of (t : thread_pc) : option (nat * nat) :=
  match t with
  | TCompress pos len | TCompressed pos len _ | TWaitTurn _ pos len _ | TWrite pos len _ _ | TWrote pos len => Some (pos, len)
  | TTop | TWaitWork _ | TExit => None
  end.

Definition is_written (t : thread_pc) : bool := match t with TWrote _ _ => true | _ => false end.

Definition slice (pos len : nat) (l : list Z) : list Z := take len (drop pos l).

Lemma pos_of_block t : pos_of t = fst <$> block_of t.
Proof. by destruct t. Qed.

Lemma block_of_wake t : block_of (wake_thread t) = block_of t.
Proof. by destruct t. Qed.

Lemma is_written_wake t : is_written (wake_thread t) = is_written t.
Proof. by destruct t. Qed.

Lemma slice_app pos len (l k : list Z) : pos + len <= length l -> slice pos len (l ++ k) = slice pos len l.
Proof. intros Hl. unfold slice. rewrite drop_app_le by lia. rewrite take_app_le; [done|]. rewrite length_drop. lia. Qed.

Lemma length_slice pos len (l : list Z) : pos + len <= length l -> length (slice pos len l) = len.
Proof. intros Hl. unfold slice. rewrite length_take, length_drop. lia. Qed.

Lemma take_slice pos len (l : list Z) : take pos l ++ slice pos len l = take (pos + len) l.
Proof. unfold slice. by rewrite <- take_take_drop. Qed.

(** [completed_pos] is the least of the positions still in work and of the next one. *)
Lemma le_completed_pos s c :
  c <= completed_pos s <->
  c <= next_thread_pos s /\ forall i t pos len, threads s !! i = Some t -> block_of t = Some (pos, len) -> c <= pos.
Proof.
  unfold completed_pos, thread_pos. induction (threads s) as [|t ts IH]; cbn [omap list_omap foldr].
  - split; [intros Hc; split; [done|]; by intros []|by intros [? _]].
  - assert (forall m, (forall i t0 pos len, (t :: ts) !! i = Some t0 -> block_of t0 = Some (pos, len) -> m <= pos) <->
      (forall pos len, block_of t = Some (pos, len) -> m <= pos) /\
      (forall i t0 pos len, ts !! i = Some t0 -> block_of t0 = Some (pos, len) -> m <= pos)) as Hcons.
    { intros m. split.
      - intros Hall. split; [intros; by eapply (Hall 0)|]. intros i t0 pos len Hi. by apply (Hall (S i) t0).
      - intros [Hhd Htl] [|i] t0 pos len; cbn; [intros [= <-]; apply Hhd|apply Htl]. }
    rewrite Hcons. clear Hcons. rewrite pos_of_block.
    destruct (block_of t) as [[pos len]|]; cbn [fmap option_fmap option_map fst foldr].
    + rewrite Nat.min_glb_iff, IH. split.
      * intros (Hp & Hn & Hr). split; [done|]. split; [by intros ?? [= <- <-]|done].
      * intros (Hn & Hp & Hr). split; [by eapply Hp|done].
    + rewrite IH. split; intros (? & ?); (split; [done|]); [split; [done|done]|tauto].
Qed.

Lemma completed_le_next s : completed_pos s <= next_thread_pos s.
Proof. by apply (le_completed_pos s (completed_pos s)). Qed.

Lemma completed_le_block s i t pos len :
  threads s !! i = Some t -> block_of t = Some (pos, len) -> completed_pos s <= pos.
Proof. intros Hi Hb. by eapply (proj2 (proj1 (le_completed_pos s (completed_pos s)) (le_n _))). Qed.

(** ** The invariant *)

Section Invariant.
Context `{Codec}.

(** A block of the file. *)
Definition encode_block (d : list Z) : list Z := block_header (length (compress d)) (length d) ++ compress d.

Definition encode_blocks (ds : list (list Z)) : list Z := concat (map encode_block ds).

(** A block as the writer writes it, all of it when it fits the output buffer. *)
Definition written_block (block : nat) (d : list Z) : list Z := outputbuf (length d) (packed block d).

Definition written_blocks (block : nat) (ds : list (list Z)) : list Z := concat (map (written_block block) ds).

Definition compress_fits (block : nat) : Prop := forall d, length d <= block -> length (compress d) <= outputbuf_len block.

Lemma written_blocks_fit block ds : compress_fits block -> Forall (fun d => 0 < length d <= block) ds ->
  written_blocks block ds = encode_blocks ds.
Proof.
  intros Hf Hd. unfold written_blocks, encode_blocks. f_equal. induction Hd as [|d ds [_ Hd] _ IH]; [done|]. cbn [map]. f_equal; [|done].
  unfold written_block, outputbuf, encode_block, packed. rewrite take_ge by by apply Hf. done.
Qed.

(** What a thread has written of a block that is not complete. *)
Definition part_of (t : thread_pc) : list Z := match t with TWrite _ len out k => take k (outputbuf len out) | _ => [] end.

Definition torn (s : writer) : list Z := concat (map part_of (threads s)).

Lemma part_of_wake t : part_of (wake_thread t) = part_of t.
Proof. by destruct t. Qed.

Lemma parts_same ts ts' : length ts' = length ts ->
  (forall i t', ts' !! i = Some t' -> exists t, ts !! i = Some t /\ part_of t' = part_of t) -> map part_of ts' = map part_of ts.
Proof.
  intros Hlen Hp. apply (list_eq_same_length _ _ (length ts)).
  - by rewrite length_map.
  - by rewrite length_map.
  - intros i x y _. change (map part_of) with (fmap (M := list) part_of). rewrite !list_lookup_fmap_Some.
    intros (t' & -> & Ht') (t & -> & Ht). destruct (Hp i t' Ht') as (t0 & Ht0 & ->). congruence.
Qed.

Lemma parts_one ts i t : ts !! i = Some t -> (forall j tj, j <> i -> ts !! j = Some tj -> part_of tj = []) ->
  concat (map part_of ts) = part_of t.
Proof.
  intros Ht Hrest. rewrite <- (take_drop_middle ts i t Ht), map_app, concat_app. cbn [map concat].
  assert (forall l : list thread_pc, (forall j tj, l !! j = Some tj -> part_of tj = []) -> concat (map part_of l) = []) as Hnil.
  { induction l as [|x l IH]; intros Hl; [done|]. cbn. rewrite (Hl 0 x eq_refl). apply IH. intros j tj Hj. by apply (Hl (S j)). }
  rewrite !Hnil, app_nil_r; [done| |].
  - intros j tj. rewrite lookup_drop. apply Hrest. lia.
  - intros j tj [Hj Hlt]%lookup_take_Some. apply (Hrest j); [lia|done].
Qed.

(** What a thread that works on a block has done. *)
Definition phase_ok (s : writer) (w : nat) (t : thread_pc) : Prop :=
  match t with
  | TTop | TWaitWork _ | TExit => True
  | TCompress pos _ => w <= pos
  | TCompressed pos len out => w <= pos /\ (out = [] \/ out = packed (block_size s) (slice pos len (stream s)))
  | TWaitTurn _ pos len out => w <= pos /\ out = packed (block_size s) (slice pos len (stream s))
  | TWrite pos len out k => w = pos /\ out = packed (block_size s) (slice pos len (stream s)) /\ k < length (outputbuf len out)
  | TWrote pos len => pos + len <= w
  end.

Definition block_ok (s : writer) (t : thread_pc) : Prop :=
  forall pos len, block_of t = Some (pos, len) -> 0 < len <= block_size s /\ pos + len <= next_thread_pos s.

Definition disjoint_blocks (s : writer) : Prop :=
  forall i j ti tj pi li pj lj, i <> j -> threads s !! i = Some ti -> threads s !! j = Some tj ->
  block_of ti = Some (pi, li) -> block_of tj = Some (pj, lj) -> pi + li <= pj \/ pj + lj <= pi.

(** Everything that was taken and is not written is in work. *)
Definition covered (s : writer) (w : nat) : Prop :=
  forall k, w <= k < next_thread_pos s -> exists i t pos len,
    threads s !! i = Some t /\ block_of t = Some (pos, len) /\ is_written t = false /\ pos <= k < pos + len.

Record writer_inv (w : nat) (ds : list (list Z)) (s : writer) : Prop := {
  inv_block : 0 < block_size s;
  inv_size : length (buffer s) = block_size s * (length (threads s) + 2);
  inv_write_pos : producer_reserved_write_pos s = length (stream s);
  inv_end : next_thread_end_pos s = producer_reserved_pos s;
  inv_reserved : producer_reserved_pos s <= producer_reserved_write_pos s;
  inv_upto : producer_reserved_write_pos s <= producer_reserved_upto_pos s;
  inv_space : producer_reserved_upto_pos s <= completed_pos s + length (buffer s);
  inv_next : next_thread_pos s <= next_thread_end_pos s;
  inv_buffer : forall k, completed_pos s <= k -> k < producer_reserved_write_pos s ->
    buffer s !! (k mod length (buffer s)) = stream s !! k;
  inv_blocks : forall i t, threads s !! i = Some t -> block_ok s t;
  inv_phases : forall i t, threads s !! i = Some t -> phase_ok s w t;
  inv_disjoint : disjoint_blocks s;
  inv_w : w <= next_thread_pos s;
  inv_cover : write_error s = false -> covered s w;
  inv_file : file s = written_blocks (block_size s) ds ++ torn s;
  inv_pieces : concat ds = take w (stream s);
  inv_lengths : Forall (fun d => 0 < length d <= block_size s) ds }.

Lemma inv_new block n : 0 < block -> writer_inv 0 [] (new_writer block n).
Proof.
  intros Hb.
  assert (forall i t, threads (new_writer block n) !! i = Some t -> t = TTop) as Hall.
  { intros i t Hi. cbn in Hi. by apply lookup_replicate in Hi as [-> _]. }
  constructor; fields; try done; try lia.
  - rewrite !length_replicate. lia.
  - intros i t ->%Hall ??. done.
  - by intros i t ->%Hall.
  - by intros i j ti tj pi li pj lj _ ->%Hall.
  - intros _ k. cbn [new_writer next_thread_pos]. lia.
  - unfold torn. cbn. clear. induction n as [|n IH]; [done|exact IH].
Qed.

Lemma inv_threads_size w ds s : writer_inv w ds s -> block_size s <= length (buffer s).
Proof. intros Hi. rewrite (inv_size _ _ _ Hi). nia. Qed.

(** A block of a thread is in the stream, and the buffer has it. *)
Lemma block_data_slice w ds s i t pos len :
  writer_inv w ds s -> threads s !! i = Some t -> block_of t = Some (pos, len) ->
  block_data s pos len = slice pos len (stream s).
Proof.
  intros Hi Ht Hb. destruct (inv_blocks _ _ _ Hi i t Ht pos len Hb) as [[Hlen Hle] Hnext].
  pose proof (inv_next _ _ _ Hi). pose proof (inv_end _ _ _ Hi). pose proof (inv_reserved _ _ _ Hi).
  pose proof (inv_write_pos _ _ _ Hi). pose proof (inv_threads_size _ _ _ Hi).
  pose proof (completed_le_block s i t pos len Ht Hb).
  set (b := length (buffer s)) in *. assert (b <> 0) as Hnz by lia.
  pose proof (Nat.mod_upper_bound pos b Hnz) as Hmod.
  unfold block_data. fold b. apply (list_eq_same_length _ _ len).
  - apply length_slice. lia.
  - rewrite length_app, !length_take, length_drop. fold b. lia.
  - intros k x y Hk Hx Hy. unfold slice in Hy. rewrite lookup_take_lt, lookup_drop in Hy by done.
    rewrite <- (inv_buffer _ _ _ Hi (pos + k)) in Hy by lia. fold b in Hy.
    destruct (decide (pos mod b + k < b)) as [Hin|Hout].
    + rewrite lookup_app_l, lookup_take_lt, lookup_drop in Hx
        by (try rewrite length_take, length_drop; fold b; lia).
      rewrite (ring_offset b pos k) in Hy by done. congruence.
    + rewrite lookup_app_r in Hx by (rewrite length_take, length_drop; fold b; lia).
      rewrite lookup_take_lt in Hx by (rewrite length_take, length_drop; fold b; lia).
      rewrite (ring_wrap b pos k) in Hy by lia.
      rewrite length_take, length_drop in Hx. fold b in Hx.
      replace (k - Nat.min (Nat.min len (b - pos mod b)) (b - pos mod b)) with (pos mod b + k - b) in Hx by lia.
      congruence.
Qed.

(** ** What keeps the invariant *)

Lemma completed_mono s s' :
  next_thread_pos s <= next_thread_pos s' ->
  (forall i t pos len, threads s' !! i = Some t -> block_of t = Some (pos, len) -> completed_pos s <= pos) ->
  completed_pos s <= completed_pos s'.
Proof. intros Hn Ht. apply le_completed_pos. split; [pose proof (completed_le_next s); lia|done]. Qed.

Lemma phase_wake s w t : phase_ok s w (wake_thread t) <-> phase_ok s w t.
Proof. by destruct t. Qed.

Lemma inv_with_producer w ds p s : writer_inv w ds s -> writer_inv w ds (with_producer p s).
Proof. by intros []; constructor. Qed.

Lemma inv_with_closing w ds b s : writer_inv w ds s -> writer_inv w ds (with_closing b s).
Proof. by intros []; constructor. Qed.

Lemma inv_with_error w ds b s : writer_inv w ds s -> writer_inv w ds (with_error b s).
Proof. by intros []; constructor. Qed.

Lemma inv_with_write_error w ds s : writer_inv w ds s -> writer_inv w ds (with_write_error true s).
Proof. by intros []; constructor. Qed.

(** Threads that keep their blocks. *)
Lemma inv_with_threads w ds s ts :
  writer_inv w ds s -> length ts = length (threads s) ->
  (forall i t', ts !! i = Some t' -> exists t, threads s !! i = Some t /\
    block_of t' = block_of t /\ is_written t' = is_written t /\ part_of t' = part_of t /\ phase_ok s w t') ->
  writer_inv w ds (with_threads ts s).
Proof.
  intros Hi Hlen Hts.
  assert (completed_pos s <= completed_pos (with_threads ts s)) as Hmono.
  { apply completed_mono; [done|]. fields. intros i t' pos len (t & Ht & Hb & _)%Hts Hb'.
    rewrite Hb in Hb'. by eapply completed_le_block. }
  destruct Hi. constructor; fields; try done.
  - by rewrite Hlen.
  - lia.
  - intros k Hk. apply inv_buffer0. lia.
  - intros i t' (t & Ht & Hb & _)%Hts pos len. rewrite Hb. by apply (inv_blocks0 i).
  - by intros i t' (t & _ & _ & _ & _ & ?)%Hts.
  - intros i j ti tj pi li pj lj Hij (ti' & Hti & -> & _)%Hts (tj' & Htj & -> & _)%Hts. by eapply inv_disjoint0.
  - intros Hw k Hk. destruct (inv_cover0 Hw k Hk) as (i & t & pos & len & Ht & Hb & Hu & Hin).
    assert (is_Some (ts !! i)) as [t' Ht'].
    { apply lookup_lt_is_Some. rewrite Hlen. by eapply lookup_lt_Some. }
    destruct (Hts i t' Ht') as (t0 & Ht0 & Hb' & Hu' & _). simplify_eq.
    exists i, t', pos, len. by rewrite Hb', Hu'.
  - rewrite inv_file0. unfold torn. fields. rewrite (parts_same (threads s) ts Hlen); [done|].
    intros i t' (t & Ht & _ & _ & Hpt & _)%Hts. by exists t.
Qed.

Lemma inv_broadcast w ds s : writer_inv w ds s -> writer_inv w ds (broadcast s).
Proof.
  intros Hi. apply inv_with_producer, inv_with_threads; [done|by rewrite length_map|].
  intros i t'. change (map wake_thread (threads s)) with (wake_thread <$> threads s).
  rewrite list_lookup_fmap_Some. intros (t & -> & Ht). exists t.
  rewrite block_of_wake, is_written_wake, part_of_wake, phase_wake. split_and!; try done. by eapply inv_phases.
Qed.

Lemma lookup_set {A} (l : list A) i j (x y : A) :
  <[i := x]> l !! j = Some y -> (i = j /\ y = x) \/ (i <> j /\ l !! j = Some y).
Proof. rewrite list_lookup_insert_Some. intros [(-> & -> & _)|(? & ?)]; auto. Qed.

Lemma inv_set_thread w ds s i t t' :
  writer_inv w ds s -> threads s !! i = Some t -> block_of t' = block_of t -> is_written t' = is_written t -> part_of t' = part_of t ->
  phase_ok s w t' -> writer_inv w ds (set_thread i t' s).
Proof.
  intros Hi Ht Hb Hu Hpt Hp. apply inv_with_threads; [done|by rewrite length_insert|].
  intros j tj [[-> ->]|[Hne Hj]]%lookup_set; [by exists t|]. exists tj. repeat split; try done. by eapply inv_phases.
Qed.

Lemma torn_set_same s i t t' : threads s !! i = Some t -> part_of t' = part_of t -> torn (set_thread i t' s) = torn s.
Proof.
  intros Ht Hp. unfold torn. fields. rewrite (parts_same (threads s)); [done|by rewrite length_insert|].
  intros j tj [[-> ->]|[_ Hj]]%lookup_set; [by exists t|by exists tj].
Qed.

(** A thread gives up its block: it is in the file, or nothing will be written any more. *)
Lemma inv_drop_thread w ds s i t t' :
  writer_inv w ds s -> threads s !! i = Some t -> block_of t' = None -> phase_ok s w t' ->
  part_of t = [] -> write_error s = true \/ is_written t = true -> writer_inv w ds (set_thread i t' s).
Proof.
  intros Hi Ht Hb Hp Hpt Hor.
  assert (completed_pos s <= completed_pos (set_thread i t' s)) as Hmono.
  { apply completed_mono; [done|]. fields.
    intros j tj pos len [[-> ->]|[_ Hj]]%lookup_set; [congruence|]. intros Hbj. by eapply completed_le_block. }
  destruct Hi. constructor; fields; try done.
  - by rewrite length_insert.
  - lia.
  - intros k Hk. apply inv_buffer0. lia.
  - intros j tj [[-> ->]|[_ Hj]]%lookup_set pos len; [congruence|by eapply inv_blocks0].
  - intros j tj [[-> ->]|[_ Hj]]%lookup_set; [done|by eapply inv_phases0].
  - intros j k tj tk pj lj pk lk Hjk [[-> ->]|[_ Hj]]%lookup_set [[-> ->]|[_ Hk]]%lookup_set; try congruence.
    by eapply inv_disjoint0.
  - intros Hw k Hk. destruct (inv_cover0 Hw k Hk) as (j & tj & pos & len & Hj & Hbj & Hu & Hin).
    exists j, tj, pos, len. split; [|done]. fields.
    rewrite list_lookup_insert_ne; [done|]. intros ->. destruct Hor; congruence.
  - rewrite inv_file0. by rewrite (torn_set_same s i t t') by (rewrite ?Hpt; try done; by destruct t').
Qed.

(** A thread takes the next block. *)
Lemma inv_take_block w ds s i t pos next :
  writer_inv w ds s -> threads s !! i = Some t -> block_of t = None ->
  pos = next_thread_pos s -> pos < next <= next_thread_end_pos s -> next <= pos + block_size s ->
  writer_inv w ds (set_thread i (TCompress pos (next - pos)) (with_next_thread_pos next s)).
Proof.
  intros Hi Ht Hb -> Hnext Hsize.
  set (s' := set_thread i _ _).
  assert (completed_pos s <= completed_pos s') as Hmono.
  { apply completed_mono; [cbn; lia|]. intros j tj pj lj [[-> ->]|[_ Hj]]%lookup_set.
    - intros [= <- <-]. apply completed_le_next.
    - intros Hbj. by eapply completed_le_block. }
  subst s'. destruct Hi. constructor; fields; try done; try lia.
  - by rewrite length_insert.
  - intros k Hk. apply inv_buffer0. lia.
  - intros j tj [[-> ->]|[_ Hj]]%lookup_set pj lj.
    + intros [= <- <-]. fields. lia.
    + intros Hbj. destruct (inv_blocks0 j tj Hj pj lj Hbj). fields. lia.
  - intros j tj [[-> ->]|[_ Hj]]%lookup_set; [by cbn|by eapply (inv_phases0 j)].
  - intros j k tj tk pj lj pk lk Hjk [[-> ->]|[_ Hj]]%lookup_set [[-> ->]|[_ Hk]]%lookup_set; try congruence.
    + intros [= <- <-] Hbk. destruct (inv_blocks0 k tk Hk pk lk Hbk). right; lia.
    + intros Hbj [= <- <-]. destruct (inv_blocks0 j tj Hj pj lj Hbj). left; lia.
    + by eapply inv_disjoint0.
  - intros Hw k Hk. fields. destruct (decide (k < next_thread_pos s)) as [Hlt|Hge].
    + destruct (inv_cover0 Hw k) as (j & tj & pj & lj & Hj & Hbj & Hu & Hin); [lia|].
      exists j, tj, pj, lj. split; [|done]. fields.
      rewrite list_lookup_insert_ne; [done|]. intros ->. congruence.
    + exists i, (TCompress (next_thread_pos s) (next - next_thread_pos s)), (next_thread_pos s), (next - next_thread_pos s).
      split; [|split; [done|split; [done|lia]]].
      fields. apply list_lookup_insert_eq. by eapply lookup_lt_Some.
  - rewrite inv_file0. symmetry. f_equal. change (torn s) with (torn (with_next_thread_pos next s)).
    apply (torn_set_same _ i t); [done|]. by destruct t.
Qed.

Lemma inv_thread_top w ds s i t :
  writer_inv w ds s -> threads s !! i = Some t -> block_of t = None -> writer_inv w ds (thread_top i s).
Proof.
  intros Hi Ht Hb. unfold thread_top. destruct (can_take s) eqn:Hc; [|destruct (can_exit s)].
  - unfold can_take in Hc. apply andb_true_iff in Hc as [[_ Hlt%Nat.ltb_lt]%andb_true_iff _].
    pose proof (inv_block _ _ _ Hi).
    apply inv_take_block with (t := t); try done; lia.
  - apply inv_set_thread with (t := t); rewrite ?Hb; try done; by destruct t.
  - apply inv_set_thread with (t := t); rewrite ?Hb; try done; by destruct t.
Qed.

(** One thread at a time writes. *)
Lemma one_writer w ds s i pos len out k : writer_inv w ds s -> threads s !! i = Some (TWrite pos len out k) ->
  forall j tj, j <> i -> threads s !! j = Some tj -> part_of tj = [].
Proof.
  intros Hi Ht j tj Hne Hj. destruct tj as [| | | | |pj lj oj kj| |]; try done. exfalso.
  destruct (inv_phases _ _ _ Hi i _ Ht) as [-> _]. destruct (inv_phases _ _ _ Hi j _ Hj) as [-> _].
  destruct (inv_blocks _ _ _ Hi i _ Ht _ _ eq_refl) as [? _]. destruct (inv_blocks _ _ _ Hi j _ Hj _ _ eq_refl) as [? _].
  destruct (inv_disjoint _ _ _ Hi i j _ _ _ _ _ _ (not_eq_sym Hne) Ht Hj eq_refl eq_refl); lia.
Qed.

Lemma torn_writer w ds s i pos len out k : writer_inv w ds s -> threads s !! i = Some (TWrite pos len out k) ->
  torn s = take k (outputbuf len out).
Proof. intros Hi Ht. unfold torn. by rewrite (parts_one _ i _ Ht (one_writer _ _ _ _ _ _ _ _ Hi Ht)). Qed.

Lemma torn_set_writer w ds s i pos len out k t' : writer_inv w ds s -> threads s !! i = Some (TWrite pos len out k) ->
  torn (set_thread i t' s) = part_of t'.
Proof.
  intros Hi Ht. unfold torn. apply (parts_one _ i); fields.
  - apply list_lookup_insert_eq. by eapply lookup_lt_Some.
  - intros j tj Hne [[-> ->]|[_ Hj]]%lookup_set; [done|]. by eapply one_writer.
Qed.

(** A thread writes a part of its block. *)
Lemma inv_write_part w ds s i pos len out k k' :
  writer_inv w ds s -> threads s !! i = Some (TWrite pos len out k) -> k <= k' < length (outputbuf len out) ->
  writer_inv w ds (set_thread i (TWrite pos len out k') (with_file (file s ++ take (k' - k) (drop k (outputbuf len out))) s)).
Proof.
  intros Hi Ht Hk. destruct (inv_phases _ _ _ Hi i _ Ht) as (Hw & Hout & _).
  pose proof (torn_set_writer w ds s i pos len out k (TWrite pos len out k') Hi Ht) as Htorn.
  pose proof (torn_writer w ds s i pos len out k Hi Ht) as Htorn0.
  set (s' := set_thread i _ _).
  assert (forall j tj, threads s' !! j = Some tj -> exists tj', threads s !! j = Some tj' /\ block_of tj = block_of tj' /\
    is_written tj = is_written tj' /\ phase_ok s w tj) as Hsame.
  { intros j tj [[-> ->]|[_ Hj]]%lookup_set; [eexists; split_and!; [exact Ht|done|done|unfold phase_ok; split_and!; [done|done|apply Hk]]|].
    exists tj. split_and!; try done. by apply (inv_phases _ _ _ Hi j). }
  assert (completed_pos s <= completed_pos s') as Hmono.
  { apply completed_mono; [done|]. intros j tj pj lj (tj' & Hj & -> & _)%Hsame Hbj. by eapply completed_le_block. }
  destruct Hi. constructor; try done; try (subst s'; fields; lia).
  - subst s'; fields. by rewrite length_insert.
  - intros m Hm. apply inv_buffer0. lia.
  - intros j tj (tj' & Hj & Hb & _)%Hsame pj lj. rewrite Hb. by eapply inv_blocks0.
  - by intros j tj (tj' & _ & _ & _ & Hp)%Hsame.
  - intros j m tj tm pj lj pm lm Hjm (tj' & Hj & -> & _)%Hsame (tm' & Hm & -> & _)%Hsame. by eapply inv_disjoint0.
  - intros He m Hm. destruct (inv_cover0 He m Hm) as (j & tj & pj & lj & Hj & Hb & Hu & Hin).
    destruct (decide (j = i)) as [->|Hne].
    + rewrite Ht in Hj. injection Hj as <-. exists i, (TWrite pos len out k'), pj, lj. split_and!; try done; [|lia|lia].
      subst s'; fields. apply list_lookup_insert_eq. by eapply lookup_lt_Some.
    + exists j, tj, pj, lj. split_and!; try done; [|lia|lia]. subst s'; fields. by rewrite list_lookup_insert_ne.
  - change (torn s') with (torn (set_thread i (TWrite pos len out k') s)). rewrite Htorn. cbn [part_of].
    change (file s') with (file s ++ take (k' - k) (drop k (outputbuf len out))). rewrite inv_file0, Htorn0, <- app_assoc. f_equal.
    rewrite take_take_drop. f_equal. lia.
Qed.

(** A thread has written its block. *)
Lemma inv_write_block w ds s i pos len out k :
  writer_inv w ds s -> threads s !! i = Some (TWrite pos len out k) ->
  writer_inv (pos + len) (ds ++ [slice pos len (stream s)])
    (set_thread i (TWrote pos len) (with_file (file s ++ drop k (outputbuf len out)) s)).
Proof.
  intros Hi Ht. destruct (inv_phases _ _ _ Hi i _ Ht) as (-> & Hout & _).
  destruct (inv_blocks _ _ _ Hi i _ Ht pos len eq_refl) as [Hlen Hle].
  pose proof (torn_set_writer _ _ s i pos len out k (TWrote pos len) Hi Ht) as Htorn.
  pose proof (torn_writer _ _ s i pos len out k Hi Ht) as Htorn0.
  pose proof (inv_next _ _ _ Hi). pose proof (inv_end _ _ _ Hi). pose proof (inv_reserved _ _ _ Hi).
  pose proof (inv_write_pos _ _ _ Hi).
  assert (length (slice pos len (stream s)) = len) as Hsl by (apply length_slice; lia).
  set (s' := set_thread i _ _).
  assert (forall j tj, threads s' !! j = Some tj -> exists tj', threads s !! j = Some tj' /\ block_of tj = block_of tj') as Hsame.
  { intros j tj [[-> ->]|[_ Hj]]%lookup_set; [by eexists|by exists tj]. }
  assert (completed_pos s <= completed_pos s') as Hmono.
  { apply completed_mono; [done|]. intros j tj pj lj (tj' & Hj & ->)%Hsame Hbj. by eapply completed_le_block. }
  destruct Hi. constructor; try done; try (subst s'; fields; lia).
  - subst s'; fields. by rewrite length_insert.
  - intros m Hm. apply inv_buffer0. lia.
  - intros j tj (tj' & Hj & Hbj)%Hsame pj lj. rewrite Hbj. by eapply inv_blocks0.
  - intros j tj [[-> ->]|[Hne Hj]]%lookup_set; [by cbn|].
    assert (forall pj lj, block_of tj = Some (pj, lj) -> pos <= pj -> pos + len <= pj) as Hafter.
    { intros pj lj Hbj Hle'. destruct (inv_blocks0 j tj Hj pj lj Hbj).
      destruct (inv_disjoint0 i j _ _ pos len pj lj Hne Ht Hj eq_refl Hbj); lia. }
    pose proof (inv_phases0 j tj Hj) as Hp.
    destruct tj as [|?|pj lj|pj lj oj|b pj lj oj|pj lj oj kj|pj lj|]; cbn in Hp |- *; try done;
      try (destruct Hp as [Hp ?]); try (split; [|done]); try (eapply Hafter; [done|lia]).
    + subst pj. assert (pos + len <= pos) by (eapply Hafter; [done|lia]). lia.
    + lia.
  - intros j m tj tm pj lj pm lm Hjm (tj' & Hj & ->)%Hsame (tm' & Hm & ->)%Hsame. by eapply inv_disjoint0.
  - intros Hw m Hm. subst s'; fields.
    destruct (inv_cover0 Hw m) as (j & tj & pj & lj & Hj & Hbj & Hu & Hin); [lia|].
    exists j, tj, pj, lj. split; [|done]. fields.
    rewrite list_lookup_insert_ne; [done|]. intros ->. simplify_eq. cbn in Hbj. simplify_eq. lia.
  - change (torn s') with (torn (set_thread i (TWrote pos len) s)). rewrite Htorn. cbn [part_of]. rewrite app_nil_r.
    change (file s') with (file s ++ drop k (outputbuf len out)). rewrite inv_file0, Htorn0, <- app_assoc, take_drop.
    change (block_size s') with (block_size s). unfold written_blocks. rewrite map_app, concat_app. f_equal. cbn [map concat]. rewrite app_nil_r.
    unfold written_block. by rewrite Hsl, <- Hout.
  - change (stream s') with (stream s). rewrite concat_app, inv_pieces0. cbn [concat]. rewrite app_nil_r. apply take_slice.
  - change (block_size s') with (block_size s). apply Forall_app. split; [done|]. apply Forall_singleton. by rewrite Hsl.
Qed.

(** ** The steps keep the invariant *)

Lemma lookup_broadcast s i : threads (broadcast s) !! i = wake_thread <$> (threads s !! i).
Proof. apply list_lookup_fmap. Qed.

Lemma lookup_set_self s i t t' : threads s !! i = Some t -> threads (set_thread i t' s) !! i = Some t'.
Proof. intros Ht. apply list_lookup_insert_eq. by eapply lookup_lt_Some. Qed.

Lemma inv_thread_finish w ds s i t :
  writer_inv w ds s -> threads s !! i = Some t -> part_of t = [] -> write_error s = true \/ is_written t = true ->
  writer_inv w ds (thread_finish i s).
Proof.
  intros Hi Ht Hpt Hor. eapply (inv_thread_top _ _ _ _ TTop); [|by rewrite lookup_broadcast, (lookup_set_self s i t)|done].
  apply inv_broadcast. by apply inv_drop_thread with (t := t).
Qed.

(** The thread whose turn it is has the first block that is not in the file. *)
Lemma turn_is_next w ds s i t pos len :
  writer_inv w ds s -> threads s !! i = Some t -> block_of t = Some (pos, len) -> w <= pos ->
  write_error s = false -> other_thread_write_first pos s = false -> w = pos.
Proof.
  intros Hi Ht Hb Hw He Ho.
  destruct (inv_blocks _ _ _ Hi i t Ht pos len Hb) as [Hlen Hnext].
  destruct (inv_cover _ _ _ Hi He w) as (j & tj & pj & lj & Hj & Hbj & _ & Hin); [lia|].
  destruct (decide (pj < pos)) as [Hlt|Hge]; [|lia].
  exfalso. apply not_true_iff_false in Ho. apply Ho. unfold other_thread_write_first.
  apply existsb_exists. exists pj. split; [|by apply Nat.ltb_lt].
  apply list_elem_of_In. unfold thread_pos. apply list_elem_of_omap. exists tj.
  split; [by eapply list_elem_of_lookup_2|]. by rewrite pos_of_block, Hbj.
Qed.

Lemma inv_thread_turn w ds s i t pos len out :
  writer_inv w ds s -> threads s !! i = Some t -> block_of t = Some (pos, len) -> is_written t = false -> part_of t = [] -> w <= pos ->
  write_error s = true \/ out = packed (block_size s) (slice pos len (stream s)) -> writer_inv w ds (thread_turn i pos len out s).
Proof.
  intros Hi Ht Hb Hu Hpt Hw Hor. unfold thread_turn. destruct (write_error s) eqn:He.
  { eapply inv_thread_finish; eauto. }
  destruct Hor as [|Hout]; [done|].
  destruct (other_thread_write_first pos s) eqn:Ho;
    apply inv_set_thread with (t := t); try done; split_and!; try done.
  - by eapply turn_is_next.
  - unfold outputbuf. rewrite length_app. cbn. lia.
Qed.

Lemma packed_nonempty block d : 0 < block -> packed block d <> [].
Proof.
  intros Hb. unfold packed, outputbuf_len. pose proof (compress_nonempty d) as Hne. destruct (compress d) as [|x l]; [done|].
  assert (1 <= block * 11 / 10) by (apply Nat.div_le_lower_bound; lia). by destruct (block * 11 / 10); [lia|].
Qed.

Lemma inv_thread_step w ds s i ok n s' :
  writer_inv w ds s -> thread_step i ok n s = Some s' -> exists w' ds', writer_inv w' ds' s'.
Proof.
  intros Hi Hs. unfold thread_step in Hs. destruct (threads s !! i) as [t|] eqn:Ht; [|done].
  pose proof (inv_phases _ _ _ Hi i t Ht) as Hp.
  destruct t as [|[]|pos len|pos len out|[] pos len out|pos len out k|pos len|]; try discriminate Hs; try (apply (inj Some) in Hs; subst s').
  - exists w, ds. by eapply inv_thread_top.
  - exists w, ds. by eapply inv_thread_top.
  - exists w, ds. apply inv_set_thread with (t := TCompress pos len); try done. split; [done|].
    destruct ok; [right|by left]. unfold do_compress. by rewrite (block_data_slice _ _ _ _ _ _ _ Hi Ht eq_refl).
  - exists w, ds. destruct Hp as [Hw [-> | Hout]].
    + eapply inv_thread_turn; try done; [by apply inv_with_write_error|by left].
    + rewrite (proj2 (Nat.eqb_neq (length out) 0)).
      2:{ rewrite Hout. intros Hz%length_zero_iff_nil. apply packed_nonempty in Hz; [done|apply Hi]. }
      eapply inv_thread_turn; try done. by right.
  - exists w, ds. destruct Hp as [Hw Hout]. eapply inv_thread_turn; try done. by right.
  - destruct (n =? 0) eqn:Hn; [done|]. apply Nat.eqb_neq in Hn. apply (inj Some) in Hs. subst s'. destruct Hp as (_ & _ & Hk).
    set (all := outputbuf len out) in *. rewrite length_take, length_drop.
    destruct (Nat.eqb_spec (k + Nat.min n (length all - k)) (length all)) as [Hall|Hpart].
    + rewrite take_ge by (rewrite length_drop; lia). eexists _, _. by apply (inv_write_block w ds s i pos len out k).
    + exists w, ds. replace (take n (drop k all)) with (take (k + Nat.min n (length all - k) - k) (drop k all)) by (f_equal; lia).
      apply (inv_write_part w ds s i pos len out k); [done|done|]. fold all. lia.
  - exists w, ds. eapply inv_thread_finish; [done..|]. by right.
Qed.

(** The producer copies to places no thread reads. *)
Lemma lookup_put s data k :
  0 < length data -> producer_reserved_write_pos s mod length (buffer s) + length data <= length (buffer s) ->
  k < producer_reserved_write_pos s -> producer_reserved_write_pos s + length data <= k + length (buffer s) ->
  buffer (put data s) !! (k mod length (buffer s)) = buffer s !! (k mod length (buffer s)).
Proof.
  intros Hd Hfit Hk Hspace. cbn. set (b := length (buffer s)) in *. set (wp := producer_reserved_write_pos s) in *.
  assert (k mod b < wp mod b \/ wp mod b + length data <= k mod b) as [Hlt|Hge].
  { destruct (decide (k mod b < wp mod b)) as [?|Hlow]; [by left|right].
    destruct (decide (wp mod b + length data <= k mod b)) as [?|Hhigh]; [done|exfalso].
    eapply (ring_distinct b k (wp + (k mod b - wp mod b))); [lia|lia|].
    rewrite ring_offset by lia. lia. }
  - apply list_lookup_inserts_lt. done.
  - apply list_lookup_inserts_ge. done.
Qed.

Lemma lookup_put_new s data i :
  producer_reserved_write_pos s mod length (buffer s) + length data <= length (buffer s) -> i < length data ->
  buffer (put data s) !! ((producer_reserved_write_pos s + i) mod length (buffer s)) = data !! i.
Proof.
  intros Hfit Hi. rewrite ring_offset by lia. cbn. set (o := _ mod _) in *.
  rewrite list_lookup_inserts by lia. f_equal. lia.
Qed.

Lemma inv_put w ds s data :
  writer_inv w ds s -> 0 < length data ->
  producer_reserved_write_pos s mod length (buffer s) + length data <= length (buffer s) ->
  producer_reserved_write_pos s + length data <= producer_reserved_upto_pos s -> writer_inv w ds (put data s).
Proof.
  intros Hi Hd Hfit Hspace.
  assert (completed_pos (put data s) = completed_pos s) as Hc by done.
  assert (length (buffer (put data s)) = length (buffer s)) as Hlen by apply length_inserts.
  pose proof (fun k => lookup_put s data k Hd Hfit) as Hold. pose proof (fun k => lookup_put_new s data k Hfit) as Hnew.
  assert (forall pos len, pos + len <= next_thread_pos s -> slice pos len (stream (put data s)) = slice pos len (stream s)) as Hsl.
  { intros pos len Hle. cbn. apply slice_app. destruct Hi. lia. }
  destruct Hi. constructor; rewrite ?Hc, ?Hlen; try done.
  - cbn. rewrite length_app. lia.
  - cbn. lia.
  - intros k Hlow Hk. cbn [put with_stream with_producer_reserved_write_pos with_buffer stream producer_reserved_write_pos] in Hk |- *.
    destruct (decide (k < producer_reserved_write_pos s)) as [Hlt|Hge].
    + rewrite lookup_app_l by lia. etransitivity; [apply Hold; lia|]. by apply inv_buffer0.
    + replace k with (producer_reserved_write_pos s + (k - producer_reserved_write_pos s)) at 1 by lia.
      etransitivity; [apply Hnew; lia|]. rewrite lookup_app_r by lia. f_equal. lia.
  - intros i t Ht. pose proof (inv_phases0 i t Ht) as Hp. pose proof (inv_blocks0 i t Ht) as Hb.
    destruct t as [|?|pj lj|pj lj oj|b pj lj oj|pj lj oj kj|pj lj|]; cbn [phase_ok] in *; try done;
      rewrite Hsl; try done; by apply (Hb pj lj).
  - cbn. rewrite inv_pieces0, take_app_le; [done|lia].
Qed.

Lemma inv_update_loop w ds s f : writer_inv w ds s -> writer_inv w ds (update_loop f s).1.
Proof.
  intros Hi. unfold update_loop. destruct (error s); [done|]. destruct (write_error s) eqn:He.
  - by apply inv_with_error.
  - destruct Hi. cbn [fst]. constructor; try done; fields; lia.
Qed.

Lemma inv_update_reservation w ds s f : writer_inv w ds s -> writer_inv w ds (update_reservation f s).1.
Proof.
  intros Hi. apply inv_update_loop, inv_broadcast. destruct Hi. constructor; try done; fields. lia.
Qed.

Lemma inv_await_space w ds data r : writer_inv w ds r.1 -> writer_inv w ds (await_space data r).
Proof. destruct r as [s []]; apply inv_with_producer. Qed.

(** How much [write] copies at once. *)
Definition write_amount (data : list Z) (s : writer) : nat :=
  Nat.min (length (buffer s) - producer_reserved_write_pos s mod length (buffer s))
    (Nat.min (producer_reserved_upto_pos s - producer_reserved_write_pos s) (length data)).

Lemma write_amount_ok w ds s data :
  writer_inv w ds s -> length data <> 0 -> producer_reserved_upto_pos s - producer_reserved_write_pos s <> 0 ->
  length (take (write_amount data s) data) = write_amount data s /\ 0 < write_amount data s /\
  producer_reserved_write_pos s mod length (buffer s) + write_amount data s <= length (buffer s) /\
  producer_reserved_write_pos s + write_amount data s <= producer_reserved_upto_pos s.
Proof.
  intros Hi Hd Hspace. pose proof (inv_block _ _ _ Hi). pose proof (inv_threads_size _ _ _ Hi).
  pose proof (Nat.mod_upper_bound (producer_reserved_write_pos s) (length (buffer s)) ltac:(lia)).
  rewrite length_take. unfold write_amount. lia.
Qed.

Lemma inv_write_turn w ds s data : writer_inv w ds s -> writer_inv w ds (write_turn data s).
Proof.
  intros Hi. unfold write_turn. destruct (negb (error s) && negb (length data =? 0)) eqn:Hmore.
  - apply andb_true_iff in Hmore as [_ Hd%negb_true_iff%Nat.eqb_neq].
    destruct (_ - _ =? 0) eqn:Hr; [by apply inv_await_space, inv_update_reservation|].
    apply Nat.eqb_neq in Hr. destruct (write_amount_ok _ _ _ _ Hi Hd Hr) as (Hl & Hpos & Hfit & Hspace).
    apply inv_with_producer, inv_put; fold (write_amount data s); by rewrite ?Hl.
  - clear Hmore. destruct (negb (error s) && _); apply inv_with_producer; [by apply inv_update_reservation|done].
Qed.

Lemma inv_producer_step w ds c s s' : writer_inv w ds s -> producer_step c s = Some s' -> writer_inv w ds s'.
Proof.
  intros Hi Hs. unfold producer_step in Hs. destruct (producer s) as [|data|[] data| | |].
  - destruct c; simplify_eq; apply inv_with_producer; [done|by apply inv_update_reservation].
  - simplify_eq. by apply inv_write_turn.
  - simplify_eq. by apply inv_await_space, inv_update_loop.
  - done.
  - simplify_eq. by apply inv_with_producer, inv_broadcast, inv_with_closing.
  - destruct (forallb exited (threads s)); simplify_eq. apply inv_with_producer.
    destruct (write_error s); [by apply inv_with_error|done].
  - done.
Qed.

(** A wakeup without a broadcast. *)
Lemma spurious_cases x s s' :
  spurious_wakeup x s = Some s' ->
  (exists i t, threads s !! i = Some t /\ waits t = true /\ s' = set_thread i (wake_thread t) s) \/
  (exists data, producer s = PWaitSpace false data /\ s' = with_producer (PWaitSpace true data) s).
Proof.
  destruct x as [i|]; cbn [spurious_wakeup].
  - destruct (threads s !! i) as [t|] eqn:Ht; [|done]. destruct (waits t) eqn:Hw; [|done]. intros [= <-]. left. by exists i, t.
  - destruct (producer s) as [| |[] data| | |]; try done. intros [= <-]. right. by exists data.
Qed.

Lemma inv_spurious w ds x s s' : writer_inv w ds s -> spurious_wakeup x s = Some s' -> writer_inv w ds s'.
Proof.
  intros Hi [(i & t & Ht & _ & ->)|(data & _ & ->)]%spurious_cases; [|by apply inv_with_producer].
  apply inv_set_thread with (t := t); rewrite ?block_of_wake, ?is_written_wake, ?part_of_wake, ?phase_wake; try done. by eapply inv_phases.
Qed.

Lemma writer_inv_step w ds e s s' : writer_inv w ds s -> step e s = Some s' -> exists w' ds', writer_inv w' ds' s'.
Proof.
  destruct e as [i ok n|c|x]; [apply inv_thread_step| |]; intros Hi Hs; exists w, ds; [by eapply inv_producer_step|by eapply inv_spurious].
Qed.

Lemma writer_reachable_inv block n s : 0 < block -> reachable_writer block n s -> exists w ds, writer_inv w ds s.
Proof.
  intros Hb. induction 1 as [|s e s' _ (w & ds & IH) Hs]; [|by eapply writer_inv_step].
  exists 0, []. by apply inv_new.
Qed.

End Invariant.
