(* ===== verification/CompressedWriterSpec.v ===== *)
(** * Compressed trace files: what the writer promises

    The file always holds whole blocks of a prefix of the data; when [close] returns and the
    writer is good it holds all of it.  No thread reads what the producer overwrites.  The
    writer is never stuck and its calls return. *)

From stdpp Require Import base tactics list numbers.
From S2P Require Import Prelude SyscallParams CompressedWriter CompressedWriterInv.
Local Open Scope nat_scope.

(** ** Compressed trace files: waiting

    Why the threads that wait in CompressedWriter.v wait, and that each change of what they wait
    for wakes them: the writer is never stuck, and every call of the producer returns. *)

Section Flow.
Context `{Codec}.

(** ** What is waited for *)

Definition wait_ok (s : writer) (t : thread_pc) : Prop :=
  match t with
  | TWaitWork false => can_take s = false /\ can_exit s = false
  | TWaitTurn false pos _ _ => write_error s = false /\ other_thread_write_first pos s = true
  | TExit => can_exit s = true
  | _ => True
  end.

Definition threads_ok (s : writer) : Prop := forall i t, threads s !! i = Some t -> wait_ok s t.

Definition flushed (s : writer) : Prop := producer_reserved_pos s = producer_reserved_write_pos s.

(** The producer waits because the buffer is full. *)
Definition full (s : writer) : Prop :=
  error s = false /\ write_error s = false /\ completed_pos s + length (buffer s) <= producer_reserved_pos s.

Definition producer_ok (s : writer) : Prop :=
  match producer s with
  | PIdle | PWrite _ => closing s = false
  | PWaitSpace woken _ => closing s = false /\ flushed s /\ (woken = false -> full s)
  | PClosing => closing s = false /\ flushed s
  | PJoin => closing s = true /\ flushed s
  | PClosed => closing s = true /\ flushed s /\ forallb exited (threads s) = true /\ (write_error s = true -> error s = true)
  end.

Record flow_ok (s : writer) : Prop := { flow_threads : threads_ok s; flow_producer : producer_ok s }.

Lemma flow_new block n : flow_ok (new_writer block n).
Proof. split; [|done]. intros i t Hi. fields. by apply lookup_replicate in Hi as [-> _]. Qed.

(** ** Changes of one thread *)

Lemma omap_insert_same {A B} (f : A -> option B) (l : list A) i x y :
  l !! i = Some x -> f y = f x -> omap f (<[i := y]> l) = omap f l.
Proof.
  revert i. induction l as [|z l IH]; intros [|i] Hi Hf; try done; cbn in Hi |- *.
  - simplify_eq. by rewrite Hf.
  - specialize (IH i Hi Hf). unfold omap in IH. destruct (f z); [|done]. f_equal. exact IH.
Qed.

Lemma thread_pos_set s i t t' :
  threads s !! i = Some t -> pos_of t' = pos_of t -> thread_pos (set_thread i t' s) = thread_pos s.
Proof. apply omap_insert_same. Qed.

Lemma completed_set s i t t' :
  threads s !! i = Some t -> pos_of t' = pos_of t -> completed_pos (set_thread i t' s) = completed_pos s.
Proof. intros Ht Hp. unfold completed_pos. by rewrite (thread_pos_set s i t). Qed.

Lemma other_first_iff pos s :
  other_thread_write_first pos s = true <->
  exists i t p len, threads s !! i = Some t /\ block_of t = Some (p, len) /\ p < pos.
Proof.
  unfold other_thread_write_first, thread_pos. rewrite existsb_exists. split.
  - intros (p & Hin%list_elem_of_In & Hlt%Nat.ltb_lt). apply list_elem_of_omap in Hin as (t & Ht & Hp).
    apply list_elem_of_lookup in Ht as [i Hi]. rewrite pos_of_block in Hp.
    destruct (block_of t) as [[q len]|] eqn:Hb; cbn in Hp; simplify_eq. by exists i, t, p, len.
  - intros (i & t & p & len & Hi & Hb & Hlt). exists p. split; [|by apply Nat.ltb_lt].
    apply list_elem_of_In, list_elem_of_omap. exists t. split; [by eapply list_elem_of_lookup_2|].
    by rewrite pos_of_block, Hb.
Qed.

Lemma wait_ok_same s s' t :
  can_take s' = can_take s -> can_exit s' = can_exit s -> write_error s' = write_error s ->
  thread_pos s' = thread_pos s -> wait_ok s t -> wait_ok s' t.
Proof.
  intros Hc He Hw Hp. unfold wait_ok, other_thread_write_first. rewrite Hc, He, Hw, Hp. done.
Qed.

Lemma not_closed s i t : producer_ok s -> threads s !! i = Some t -> t <> TExit -> producer s <> PClosed.
Proof.
  intros Hp Ht Hne Hc. unfold producer_ok in Hp. rewrite Hc in Hp. destruct Hp as (_ & _ & Hall & _).
  rewrite forallb_forall in Hall. assert (exited t = true) by (apply Hall, list_elem_of_In; by eapply list_elem_of_lookup_2).
  by destruct t.
Qed.

Lemma producer_ok_same s s' :
  producer s <> PClosed -> producer s' = producer s -> closing s' = closing s -> producer_reserved_pos s' = producer_reserved_pos s ->
  producer_reserved_write_pos s' = producer_reserved_write_pos s -> error s' = error s -> write_error s' = write_error s ->
  completed_pos s' <= completed_pos s -> length (buffer s') = length (buffer s) -> producer_ok s -> producer_ok s'.
Proof.
  intros Hne Hp Hc Hr Hw He Hwe Hle Hb. unfold producer_ok, flushed, full. rewrite Hp, Hc, Hr, Hw, He, Hwe, Hb.
  destruct (producer s); try done. intros (? & ? & Hf). split; [done|]. split; [done|]. intros Hwk.
  destruct (Hf Hwk) as (? & ? & ?). split; [done|]. split; [done|lia].
Qed.

Lemma flow_set_thread s i t t' :
  flow_ok s -> threads s !! i = Some t -> t <> TExit -> pos_of t' = pos_of t -> wait_ok s t' -> flow_ok (set_thread i t' s).
Proof.
  intros [Hts Hp] Ht Hne Hpos Hw. split.
  - intros j tj Hj%lookup_set. eapply (wait_ok_same s); try done; [by eapply thread_pos_set|].
    destruct Hj as [[-> ->]|[_ Hj]]; [done|by eapply Hts].
  - apply (producer_ok_same s); try done; [by eapply not_closed|by rewrite (completed_set s i t)].
Qed.

(** ** Waking *)

(** What holds while nothing but [closing] is up to date. *)
Definition exits_ok (s : writer) : Prop := forall i, threads s !! i = Some TExit -> can_exit s = true.

Definition producer_awake_ok (s : writer) : Prop :=
  match producer s with
  | PIdle | PWrite _ => closing s = false
  | PWaitSpace _ _ | PClosing => closing s = false /\ flushed s
  | PJoin => closing s = true /\ flushed s
  | PClosed => False
  end.

Lemma exits_of_flow s : flow_ok s -> exits_ok s.
Proof. intros [Hts _] i Hi. by apply (Hts i TExit). Qed.

Lemma awake_of_flow s : producer_ok s -> producer s <> PClosed -> producer_awake_ok s.
Proof. unfold producer_ok, producer_awake_ok. destruct (producer s); try done. by intros (? & ? & _). Qed.

Lemma wake_exit t : wake_thread t = TExit -> t = TExit.
Proof. by destruct t. Qed.

Lemma wait_ok_wake s t : (t = TExit -> can_exit s = true) -> wait_ok s (wake_thread t).
Proof. intros He. destruct t; try done. by apply He. Qed.

Lemma threads_broadcast s : exits_ok s -> threads_ok (broadcast s).
Proof.
  intros He i t'. rewrite lookup_broadcast, fmap_Some. intros (t & Ht & ->).
  apply (wait_ok_wake (broadcast s) t). intros ->. by apply (He i).
Qed.

Lemma flow_broadcast s : exits_ok s -> producer_awake_ok s -> flow_ok (broadcast s).
Proof.
  intros He Hp. split; [by apply threads_broadcast|]. unfold producer_ok, producer_awake_ok in *. fields.
  destruct (producer s); cbn [wake_producer]; try done. by destruct Hp.
Qed.

(** ** Steps of a thread *)

Lemma flow_thread_top s i t :
  flow_ok s -> threads s !! i = Some t -> block_of t = None -> t <> TExit -> flow_ok (thread_top i s).
Proof.
  intros Hf Ht Hb Hne. assert (pos_of t = None) as Hpos by by rewrite pos_of_block, Hb.
  unfold thread_top. destruct (can_take s) eqn:Hc; [|destruct (can_exit s) eqn:He].
  2,3: by apply flow_set_thread with (t := t); rewrite ?Hpos.
  destruct Hf as [Hts Hp]. split.
  - intros j tj [[-> ->]|[Hij Hj]]%lookup_set; [done|]. pose proof (Hts j tj Hj) as Hw.
    unfold can_take in Hc. apply andb_true_iff in Hc as [[Hnw%negb_true_iff Hlt%Nat.ltb_lt]%andb_true_iff Hcl].
    destruct tj as [|[]| | |[] pos len out| | |]; cbn [wait_ok] in *; try done.
    + destruct Hw as [Hct _]. unfold can_take in Hct. by rewrite Hnw, (proj2 (Nat.ltb_lt _ _) Hlt), Hcl in Hct.
    + destruct Hw as [Hwe (k & tk & p & l & Hk & Hbk & Hlow)%other_first_iff]. split; [done|].
      apply other_first_iff. exists k, tk, p, l. split; [|done]. fields.
      rewrite list_lookup_insert_ne; [done|]. intros ->. congruence.
    + unfold can_exit in Hw. rewrite Hnw in Hw. apply andb_true_iff in Hw as [_ Hx%Nat.eqb_eq]. lia.
  - apply (producer_ok_same s); try done; [by eapply not_closed|].
    set (s' := set_thread i _ _). apply le_completed_pos. split.
    + eapply (completed_le_block s' i); [by eapply (lookup_set_self _ i t)|]. done.
    + intros j tj pos len Hj Hbj. apply (completed_le_block s' j tj pos len); [|done].
      unfold s'. fields. rewrite list_lookup_insert_ne; [done|]. intros ->. congruence.
Qed.

(** A thread that is done wakes the others; it may have set [write_error]. *)
Lemma flow_thread_finish s s1 i t :
  flow_ok s -> threads s !! i = Some t -> t <> TExit ->
  s1 = s \/ s1 = with_write_error true s -> flow_ok (thread_finish i s1).
Proof.
  intros Hf Ht Hne Hs1. eapply (flow_thread_top _ i TTop).
  - apply flow_broadcast.
    + intros j. assert (threads (set_thread i TTop s1) = <[i:=TTop]> (threads s)) as -> by by destruct Hs1 as [-> | ->].
      intros [[_ ?]|[_ Hj]]%lookup_set; [done|]. pose proof (exits_of_flow s Hf j Hj) as He.
      destruct Hs1 as [-> | ->]; [done|]. unfold can_exit in *. fields. apply andb_true_iff in He as [-> _]. done.
    + pose proof (awake_of_flow s (flow_producer s Hf) (not_closed _ _ _ (flow_producer s Hf) Ht Hne)).
      by destruct Hs1 as [-> | ->].
  - rewrite lookup_broadcast. by rewrite (lookup_set_self s1 i t) by (by destruct Hs1 as [-> | ->]).
  - done.
  - done.
Qed.

Lemma flow_thread_turn s i t pos len out :
  flow_ok s -> threads s !! i = Some t -> block_of t = Some (pos, len) -> flow_ok (thread_turn i pos len out s).
Proof.
  intros Hf Ht Hb. assert (t <> TExit) as Hne by by intros ->.
  assert (pos_of t = Some pos) as Hpos by by rewrite pos_of_block, Hb.
  unfold thread_turn. destruct (write_error s) eqn:He; [by eapply flow_thread_finish; eauto|].
  by destruct (other_thread_write_first pos s) eqn:Ho; apply flow_set_thread with (t := t).
Qed.

Lemma flow_thread_step s i ok n s' : flow_ok s -> thread_step i ok n s = Some s' -> flow_ok s'.
Proof.
  intros Hf Hs. unfold thread_step in Hs. destruct (threads s !! i) as [t|] eqn:Ht; [|done].
  destruct t as [|[]|pos len|pos len out|[] pos len out|pos len out k|pos len|]; try discriminate Hs; try (apply (inj Some) in Hs; subst s').
  - by eapply flow_thread_top.
  - by eapply flow_thread_top.
  - by eapply flow_set_thread.
  - destruct (length out =? 0); [|by eapply flow_thread_turn].
    unfold thread_turn. fields. eapply flow_thread_finish; try done. by right.
  - by eapply flow_thread_turn.
  - destruct (n =? 0); [done|]. apply (inj Some) in Hs. subst s'.
    set (s1 := with_file _ _). assert (flow_ok s1) as Hf' by by destruct Hf.
    by destruct (_ =? _); eapply (flow_set_thread _ i (TWrite pos len out k)).
  - eapply flow_thread_finish; try done. by left.
Qed.

(** ** Steps of the producer *)

Lemma no_exit s : exits_ok s -> closing s = false -> forall i, threads s !! i <> Some TExit.
Proof. intros He Hc i Hi. apply He in Hi. unfold can_exit in Hi. by rewrite Hc in Hi. Qed.

(** What [update_loop] leaves alone, and when it waits. *)
Lemma update_loop_waits f s :
  (threads_ok s -> threads_ok (update_loop f s).1) /\ closing (update_loop f s).1 = closing s /\
  (flushed s -> flushed (update_loop f s).1) /\ ((update_loop f s).2 = true -> full (update_loop f s).1).
Proof.
  unfold update_loop. destruct (error s) eqn:He; [done|]. destruct (write_error s) eqn:Hw; [done|]. cbn [fst snd].
  split; [done|]. split; [done|]. split; [done|]. fields. destruct f; [|done].
  intros Hlt%negb_true_iff%Nat.ltb_ge. done.
Qed.

Lemma update_reservation_spec f s :
  threads_ok s -> closing s = false ->
  threads_ok (update_reservation f s).1 /\ closing (update_reservation f s).1 = false /\
  flushed (update_reservation f s).1 /\ ((update_reservation f s).2 = true -> full (update_reservation f s).1).
Proof.
  intros Hts Hc. unfold update_reservation.
  set (s1 := with_producer_reserved_pos _ _).
  destruct (update_loop_waits f (broadcast s1)) as (Ht & Hcl & Hfl & Hfu).
  split; [|by rewrite Hcl; split; [|split; [apply Hfl|]]].
  apply Ht, threads_broadcast. intros i Hi.
  assert (can_exit s = true) as He by apply (Hts i TExit Hi). unfold can_exit in He. by rewrite Hc in He.
Qed.

Lemma flow_await data r :
  threads_ok r.1 -> closing r.1 = false -> flushed r.1 -> (r.2 = true -> full r.1) -> flow_ok (await_space data r).
Proof.
  destruct r as [s []]; cbn [fst snd await_space]; intros Hts Hc Hfl Hfu; (split; [done|]); [|done].
  split; [done|]. split; [done|]. intros _. by apply Hfu.
Qed.

Lemma flow_write_turn s data : flow_ok s -> producer s = PWrite data -> flow_ok (write_turn data s).
Proof.
  intros [Hts Hp] Hpr. unfold producer_ok in Hp. rewrite Hpr in Hp. unfold write_turn.
  destruct (negb (error s) && negb (length data =? 0)).
  - destruct (_ - _ =? 0); [|done].
    destruct (update_reservation_spec WAIT s Hts Hp) as (? & ? & ? & ?). by apply flow_await.
  - destruct (negb (error s) && _); [|done].
    destruct (update_reservation_spec NOWAIT s Hts Hp) as (? & ? & ? & ?). done.
Qed.

Lemma flow_producer_step c s s' : flow_ok s -> producer_step c s = Some s' -> flow_ok s'.
Proof.
  intros Hf Hs. pose proof Hf as [Hts Hp]. unfold producer_step in Hs. unfold producer_ok in Hp.
  destruct (producer s) as [|data|[] data| | |] eqn:Hpr; simplify_eq; try done.
  - destruct c; simplify_eq; [done|].
    destruct (update_reservation_spec NOWAIT s Hts Hp) as (? & ? & ? & ?). done.
  - by apply flow_write_turn.
  - destruct Hp as (Hc & Hfl & _). destruct (update_loop_waits WAIT s) as (Ht & Hcl & Hfl' & Hfu).
    apply flow_await; [by apply Ht|congruence|by apply Hfl'|done].
  - destruct Hp as [Hc Hfl]. split; [|done]. apply (threads_broadcast (with_closing true s)).
    intros i Hi. by destruct (no_exit s (exits_of_flow s Hf) Hc i).
  - destruct Hp as [Hc Hfl]. destruct (forallb exited (threads s)) eqn:Hall; [|done]. simplify_eq.
    destruct (write_error s) eqn:He; (split; [done|]); split_and!; try done. by fields; rewrite He.
Qed.

Lemma flow_spurious x s s' : flow_ok s -> spurious_wakeup x s = Some s' -> flow_ok s'.
Proof.
  intros Hf [(i & t & Ht & Hw & ->)|(data & Hp & ->)]%spurious_cases.
  - assert (t <> TExit) as Hne by by intros ->. apply flow_set_thread with (t := t); try done; [by destruct t|].
    by apply wait_ok_wake; intros ->.
  - destruct Hf as [Hts Hpo]. split; [done|]. unfold producer_ok in *. rewrite Hp in Hpo. cbn. by destruct Hpo as (? & ? & _).
Qed.

Lemma reachable_flow block n s : reachable_writer block n s -> flow_ok s.
Proof.
  induction 1 as [|s [i ok m|c|x] s' _ IH Hs]; [apply flow_new|by eapply flow_thread_step|by eapply flow_producer_step|by eapply flow_spurious].
Qed.

(** ** The writer is never stuck *)

(** A thread that cannot go on. *)
Definition asleep (t : thread_pc) : Prop :=
  match t with TWaitWork false | TWaitTurn false _ _ _ | TExit => True | _ => False end.

Lemma awake_steps s i t : threads s !! i = Some t -> ~ asleep t -> forall n, 0 < n -> exists s', step (EThread i true n) s = Some s'.
Proof.
  intros Ht Ha n Hn. assert (n =? 0 = false) as Hz by by apply Nat.eqb_neq; lia. cbn. unfold thread_step. rewrite Ht.
  destruct t as [|[]| | |[]| | |]; try (by destruct Ha); rewrite ?Hz; by eexists.
Qed.

Lemma asleep_dec t : {asleep t} + {~ asleep t}.
Proof. destruct t as [|[]| | |[]| | |]; cbn; auto. Qed.

(** The blocks of sleeping threads wait for each other, which has no end. *)
Lemma asleep_no_block s :
  threads_ok s -> (forall i t, threads s !! i = Some t -> asleep t) ->
  forall pos i t len, threads s !! i = Some t -> block_of t <> Some (pos, len).
Proof.
  intros Hok Hall pos. induction (lt_wf pos) as [pos _ IH]. intros i t len Ht Hb.
  pose proof (Hall i t Ht) as Ha. pose proof (Hok i t Ht) as Hw.
  destruct t as [|[]|p l|p l o|[] p l o|p l o k|p l|]; cbn in Ha, Hb; try done. simplify_eq.
  cbn in Hw. destruct Hw as [_ (j & tj & q & l & Hj & Hbj & Hlt)%other_first_iff].
  by eapply (IH q Hlt j tj l).
Qed.

Lemma completed_no_block s :
  (forall i t, threads s !! i = Some t -> block_of t = None) -> completed_pos s = next_thread_pos s.
Proof.
  intros Hall. apply Nat.le_antisymm; [apply completed_le_next|].
  apply le_completed_pos. split; [done|]. intros i t pos len Hi Hb. rewrite (Hall i t Hi) in Hb. done.
Qed.

Lemma find_awake s : (forall i t, threads s !! i = Some t -> asleep t) \/ exists i t, threads s !! i = Some t /\ ~ asleep t.
Proof.
  destruct (Forall_Exists_dec asleep asleep_dec (threads s)) as [Hall|Hex].
  - left. intros i t Hi. by eapply Forall_lookup_1 in Hall.
  - right. apply Exists_exists in Hex as (t & Hin & Ha).
    apply list_elem_of_In, list_elem_of_lookup in Hin as [i Hi]. by exists i, t.
Qed.

(** If every thread sleeps and [close] has not returned, the producer can go on. *)
Lemma all_asleep_producer w ds s c :
  writer_inv w ds s -> flow_ok s -> threads s <> [] -> (forall i t, threads s !! i = Some t -> asleep t) ->
  producer s <> PClosed -> exists s', step (EProducer c) s = Some s'.
Proof.
  intros Hi [Hts Hp] Hne Hall Hopen. pose proof (asleep_no_block s Hts Hall) as Hnb.
  assert (forall i t, threads s !! i = Some t -> block_of t = None) as Hnone.
  { intros i t Ht. destruct (block_of t) as [[p l]|] eqn:Hb; [|done]. by destruct (Hnb p i t l Ht). }
  assert (exists t, threads s !! 0 = Some t) as [t0 Ht0] by (destruct (threads s); [done|by eexists]).
  cbn. unfold producer_step, producer_ok in *. destruct (producer s) as [|data|[] data| | |] eqn:Hpr; try done; try by eexists.
  - destruct c; by eexists.
  - exfalso. destruct Hp as (Hc & Hfl & Hfull). destruct (Hfull eq_refl) as (He & Hw & Hle).
    rewrite (completed_no_block s Hnone) in Hle.
    pose proof (Hts 0 t0 Ht0) as Hwt. pose proof (Hnone 0 t0 Ht0) as Hb0. pose proof (Hall 0 t0 Ht0) as Ha0.
    pose proof (inv_end _ _ _ Hi). pose proof (inv_threads_size _ _ _ Hi). pose proof (inv_block _ _ _ Hi).
    destruct t0 as [|[]| | |[]| | |]; try done; cbn in Hwt.
    + destruct Hwt as [Htake _]. unfold can_take in Htake. rewrite Hw, Hc in Htake. cbn in Htake.
      apply andb_false_iff in Htake as [Hx%Nat.ltb_ge|Hx%Nat.leb_gt]; lia.
    + unfold can_exit in Hwt. by rewrite Hc in Hwt.
  - destruct Hp as [Hc Hfl]. destruct (forallb exited (threads s)) eqn:Hex; [by eexists|exfalso].
    apply not_true_iff_false in Hex. apply Hex. apply forallb_forall. intros t Hin.
    apply list_elem_of_In, list_elem_of_lookup in Hin as [i Ht].
    pose proof (Hts i t Ht) as Hwt. pose proof (Hnone i t Ht) as Hb0. pose proof (Hall i t Ht) as Ha0.
    destruct t as [|[]| | |[]| | |]; try done; cbn in Hwt. destruct Hwt as [Htake Hexit].
    pose proof (inv_next _ _ _ Hi). unfold can_take, can_exit in *. rewrite Hc in *. cbn in Hexit.
    apply orb_false_iff in Hexit as [Hw Hx%Nat.eqb_neq]. rewrite Hw in Htake. cbn in Htake. rewrite andb_true_r in Htake.
    apply Nat.ltb_ge in Htake. lia.
Qed.

(** ** Every call returns *)

Definition in_call (s : writer) : bool := match producer s with PIdle | PClosed => false | _ => true end.

(** The size of the output buffer: a thread writes no more for a block. *)
Definition max_out (s : writer) : nat := header_size + outputbuf_len (block_size s).

(** What is left to do for a thread with a block; [m] is [max_out]. *)
Definition thread_work (m : nat) (t : thread_pc) : nat :=
  match t with
  | TCompress _ _ => m + 4 | TCompressed _ _ _ => m + 3 | TWaitTurn _ _ _ _ => m + 2
  | TWrite _ len out k => 1 + (length (outputbuf len out) - k) | TWrote _ _ => 1
  | TTop | TWaitWork _ | TExit => 0
  end.

Definition thread_awake (t : thread_pc) : nat :=
  match t with TTop | TWaitWork true | TWaitTurn true _ _ _ => 1 | _ => 0 end.

(** The data of [write] that is not in the buffer. *)
Definition pending (s : writer) : list Z :=
  match producer s with PWrite data | PWaitSpace _ data => data | _ => [] end.

Definition producer_work (s : writer) : nat :=
  match producer s with
  | PWrite data =>
      if error s then 0
      else 2 * length data + 1 + (if producer_reserved_upto_pos s - producer_reserved_write_pos s =? 0 then 1 else 0)
  | PWaitSpace _ data => 2 * length data + 1
  | PClosing => 1
  | _ => 0
  end.

Definition producer_awake (s : writer) : nat := match producer s with PWaitSpace true _ => 1 | _ => 0 end.

Definition threads_work (m : nat) (ts : list thread_pc) : nat := sum_list (thread_work m <$> ts).
Definition threads_awake (ts : list thread_pc) : nat := sum_list (thread_awake <$> ts).

Definition work (s : writer) : nat :=
  (max_out s + 5) * (length (pending s) + producer_reserved_write_pos s - next_thread_pos s) + threads_work (max_out s) (threads s) + producer_work s.

Definition awake (s : writer) : nat := threads_awake (threads s) + producer_awake s.

(** How many steps a call takes at most. *)
Definition steps_left (s : writer) : nat := (length (threads s) + 2) * work s + awake s.

Lemma sum_list_insert (f : thread_pc -> nat) ts i t t' :
  ts !! i = Some t -> sum_list (f <$> <[i := t']> ts) + f t = sum_list (f <$> ts) + f t'.
Proof.
  revert i. induction ts as [|x ts IH]; intros [|i] Hi; try done; cbn [lookup list_lookup insert list_insert] in *.
  - simplify_eq. rewrite !fmap_cons. cbn [sum_list_with id]. lia.
  - specialize (IH i Hi). change (list_insert i t' ts) with (<[i := t']> ts). rewrite !fmap_cons. cbn [sum_list_with id]. rewrite <- !Nat.add_assoc. f_equal. exact IH.
Qed.

Lemma threads_work_wake m ts : threads_work m (map wake_thread ts) = threads_work m ts.
Proof. unfold threads_work. induction ts as [|t ts IH]; [done|]. cbn. rewrite IH. by destruct t. Qed.

Lemma threads_awake_le ts : threads_awake ts <= length ts.
Proof. unfold threads_awake. induction ts as [|t ts IH]; [done|]. cbn. destruct t as [|[]| | |[]| | |]; cbn; lia. Qed.

Lemma awake_le s : awake s <= length (threads s) + 1.
Proof. unfold awake, producer_awake. pose proof (threads_awake_le (threads s)). destruct (producer s) as [| |[]| | |]; lia. Qed.

(** Less work, or the same with fewer threads awake. *)
Definition less_work (s' s : writer) : Prop :=
  length (threads s') = length (threads s) /\ (work s' < work s \/ work s' <= work s /\ awake s' < awake s).

Lemma less_work_steps s' s : less_work s' s -> steps_left s' < steps_left s.
Proof.
  unfold steps_left. intros [Hn Hor]. rewrite Hn. pose proof (awake_le s') as Ha. rewrite Hn in Ha.
  destruct Hor as [Hlt|[Hle Hlt]]; [|nia].
  assert ((length (threads s) + 2) * (work s' + 1) <= (length (threads s) + 2) * work s) by (apply Nat.mul_le_mono_l; lia). lia.
Qed.

(** ** Steps of a thread leave less to do *)

(** The part of [work] that is not the threads'. *)
Definition rest_work (s : writer) : nat :=
  (max_out s + 5) * (length (pending s) + producer_reserved_write_pos s - next_thread_pos s) + producer_work s.

Lemma work_eq s : work s = rest_work s + threads_work (max_out s) (threads s).
Proof. unfold work, rest_work. lia. Qed.

Lemma rest_work_broadcast s : rest_work (broadcast s) = rest_work s.
Proof. unfold rest_work, pending, producer_work. fields. by destruct (producer s) as [| |[]| | |]. Qed.

Lemma work_broadcast s : work (broadcast s) = work s.
Proof. rewrite !work_eq, rest_work_broadcast. fields. by rewrite threads_work_wake. Qed.

Lemma length_broadcast s : length (threads (broadcast s)) = length (threads s).
Proof. apply length_map. Qed.

Lemma set_thread_work s i t t' :
  threads s !! i = Some t -> work (set_thread i t' s) + thread_work (max_out s) t = work s + thread_work (max_out s) t'.
Proof.
  intros Ht. rewrite !work_eq. change (rest_work (set_thread i t' s)) with (rest_work s).
  pose proof (sum_list_insert (thread_work (max_out s)) _ _ _ t' Ht). change (max_out (set_thread i t' s)) with (max_out s).
  unfold threads_work. fields. lia.
Qed.

Lemma set_thread_awake s i t t' :
  threads s !! i = Some t -> awake (set_thread i t' s) + thread_awake t = awake s + thread_awake t'.
Proof.
  intros Ht. pose proof (sum_list_insert thread_awake _ _ _ t' Ht). unfold awake, threads_awake.
  change (producer_awake (set_thread i t' s)) with (producer_awake s). fields. lia.
Qed.

Lemma length_set_thread s i t : length (threads (set_thread i t s)) = length (threads s).
Proof. apply length_insert. Qed.

(** At the top of its loop a thread has work to take, or goes to sleep. *)
Lemma thread_top_work w ds s i t :
  writer_inv w ds s -> threads s !! i = Some t -> block_of t = None ->
  length (threads (thread_top i s)) = length (threads s) /\
  (work (thread_top i s) < work s \/ work (thread_top i s) <= work s /\ awake (thread_top i s) + thread_awake t <= awake s).
Proof.
  intros Hi Ht Hb. assert (forall m, thread_work m t = 0) as Hw0 by by destruct t.
  unfold thread_top. destruct (can_take s) eqn:Hc; [|destruct (can_exit s)].
  - split; [fields; apply length_insert|]. left.
    unfold can_take in Hc. apply andb_true_iff in Hc as [[_ Hlt%Nat.ltb_lt]%andb_true_iff _].
    destruct Hi. set (next := Nat.min _ _).
    pose proof (set_thread_work (with_next_thread_pos next s) i t (TCompress (next_thread_pos s) (next - next_thread_pos s)) Ht) as Hset.
    rewrite Hw0 in Hset. cbn [thread_work] in Hset.
    rewrite (work_eq (with_next_thread_pos next s)) in Hset. rewrite (work_eq s). unfold rest_work in *.
    change (pending (with_next_thread_pos next s)) with (pending s) in Hset.
    change (producer_work (with_next_thread_pos next s)) with (producer_work s) in Hset.
    change (max_out (with_next_thread_pos next s)) with (max_out s) in Hset. fields.
    set (left := length (pending s) + producer_reserved_write_pos s) in *. assert (next_thread_pos s < next <= left) by lia.
    assert ((max_out s + 5) * (left - next) + (max_out s + 5) <= (max_out s + 5) * (left - next_thread_pos s)) by nia. lia.
  - split; [apply length_set_thread|]. right.
    pose proof (set_thread_work s i t TExit Ht) as Hx. rewrite Hw0 in Hx. pose proof (set_thread_awake s i t TExit Ht). cbn [thread_work thread_awake] in *. lia.
  - split; [apply length_set_thread|]. right.
    pose proof (set_thread_work s i t (TWaitWork false) Ht) as Hx. rewrite Hw0 in Hx. pose proof (set_thread_awake s i t (TWaitWork false) Ht).
    cbn [thread_work thread_awake] in *. lia.
Qed.

Lemma thread_finish_work w ds s i t :
  writer_inv w ds s -> threads s !! i = Some t -> part_of t = [] -> write_error s = true \/ is_written t = true -> 0 < thread_work (max_out s) t ->
  less_work (thread_finish i s) s.
Proof.
  intros Hi Ht Hpt Hor Hw.
  pose proof (set_thread_work s i t TTop Ht) as Hset. cbn [thread_work] in Hset.
  destruct (thread_top_work w ds (broadcast (set_thread i TTop s)) i TTop) as [Hlen Htop].
  { apply inv_broadcast. by eapply inv_drop_thread. }
  { by rewrite lookup_broadcast, (lookup_set_self s i t). }
  { done. }
  split; [by unfold thread_finish; rewrite Hlen, length_broadcast, length_set_thread|]. left.
  unfold thread_finish. rewrite work_broadcast in Htop. lia.
Qed.

Lemma set_thread_less s i t t' :
  threads s !! i = Some t ->
  thread_work (max_out s) t' < thread_work (max_out s) t \/
  thread_work (max_out s) t' <= thread_work (max_out s) t /\ thread_awake t' < thread_awake t ->
  less_work (set_thread i t' s) s.
Proof.
  intros Ht Hor. pose proof (set_thread_work s i t t' Ht). pose proof (set_thread_awake s i t t' Ht).
  split; [apply length_set_thread|]. lia.
Qed.

Lemma thread_turn_work w ds s i t pos len out :
  writer_inv w ds s -> threads s !! i = Some t -> block_of t = Some (pos, len) -> part_of t = [] ->
  length out <= outputbuf_len (block_size s) ->
  max_out s + 2 < thread_work (max_out s) t \/ thread_work (max_out s) t = max_out s + 2 /\ thread_awake t = 1 ->
  less_work (thread_turn i pos len out s) s.
Proof.
  intros Hi Ht Hb Hpt Hout Hw. unfold thread_turn. destruct (write_error s) eqn:He.
  { eapply thread_finish_work; eauto. lia. }
  destruct (other_thread_write_first pos s); apply set_thread_less with (t := t); try done; cbn [thread_work thread_awake]; [lia|].
  unfold outputbuf. rewrite length_app. change (length (block_header _ _)) with header_size. unfold max_out in *. lia.
Qed.

Lemma packed_length block d : length (packed block d) <= outputbuf_len block.
Proof. unfold packed. rewrite length_take. lia. Qed.

Lemma thread_step_work w ds s i ok n s' : writer_inv w ds s -> thread_step i ok n s = Some s' -> less_work s' s.
Proof.
  intros Hi Hs. unfold thread_step in Hs. destruct (threads s !! i) as [t|] eqn:Ht; [|done]. pose proof (inv_phases _ _ _ Hi i t Ht) as Hp.
  destruct t as [|[]|pos len|pos len out|[] pos len out|pos len out k|pos len|]; try discriminate Hs; try (apply (inj Some) in Hs; subst s').
  - destruct (thread_top_work w ds s i TTop Hi Ht eq_refl) as [? Hor]. split; [done|]. cbn [thread_awake] in Hor. lia.
  - destruct (thread_top_work w ds s i (TWaitWork true) Hi Ht eq_refl) as [? Hor]. split; [done|]. cbn [thread_awake] in Hor. lia.
  - apply set_thread_less with (t := TCompress pos len); [done|]. cbn. lia.
  - assert (length out <= outputbuf_len (block_size s)) as Hl.
    { destruct Hp as [_ [-> | ->]]; [cbn; lia|apply packed_length]. }
    destruct (length out =? 0).
    + change (less_work (thread_turn i pos len out (with_write_error true s)) (with_write_error true s)).
      eapply thread_turn_work; [by apply inv_with_write_error|done|done|done|done|cbn; lia].
    + eapply thread_turn_work; [done|done|done|done|done|cbn; lia].
  - destruct Hp as [_ Hout]. eapply thread_turn_work; [done|done|done|done|rewrite Hout; apply packed_length|cbn; lia].
  - destruct (Nat.eqb_spec n 0) as [|Hn]; [done|]. apply (inj Some) in Hs. subst s'. destruct Hp as (_ & _ & Hk).
    match goal with |- less_work (set_thread _ ?t1 ?s1) s => change (less_work (set_thread i t1 s1) s1) end.
    apply set_thread_less with (t := TWrite pos len out k); [done|]. left. rewrite length_take, length_drop.
    destruct (_ =? _); cbn [thread_work]; lia.
  - eapply thread_finish_work; [done|done|done|by right|cbn; lia].
Qed.

(** ** Steps of the producer leave less to do *)

Lemma update_loop_same f s :
  threads (update_loop f s).1 = threads s /\ producer (update_loop f s).1 = producer s /\
  producer_reserved_write_pos (update_loop f s).1 = producer_reserved_write_pos s /\
  producer_reserved_pos (update_loop f s).1 = producer_reserved_pos s /\
  next_thread_pos (update_loop f s).1 = next_thread_pos s /\ stream (update_loop f s).1 = stream s /\
  (error s = true -> error (update_loop f s).1 = true).
Proof. unfold update_loop. destruct (error s) eqn:He; [done|]. by destruct (write_error s). Qed.

Lemma update_reservation_same f s :
  let r := update_reservation f s in
  threads r.1 = map wake_thread (threads s) /\ producer_reserved_write_pos r.1 = producer_reserved_write_pos s /\
  producer_reserved_pos r.1 = producer_reserved_write_pos s /\
  next_thread_pos r.1 = next_thread_pos s /\ stream r.1 = stream s /\ (error s = true -> error r.1 = true).
Proof.
  cbn zeta. unfold update_reservation. set (s1 := broadcast _).
  destruct (update_loop_same f s1) as (-> & _ & -> & -> & -> & -> & He). done.
Qed.

Lemma update_loop_block f s : block_size (update_loop f s).1 = block_size s.
Proof. unfold update_loop. destruct (error s); [done|]. by destruct (write_error s). Qed.

Lemma update_reservation_block f s : block_size (update_reservation f s).1 = block_size s.
Proof. unfold update_reservation. by rewrite update_loop_block. Qed.

(** When it does not wait for space there is some, or the file is broken. *)
Lemma update_loop_space s :
  (update_loop WAIT s).2 = false -> error (update_loop WAIT s).1 = false ->
  producer_reserved_pos s < producer_reserved_upto_pos (update_loop WAIT s).1.
Proof.
  unfold update_loop. destruct (error s) eqn:He; [cbn; congruence|]. destruct (write_error s); [done|].
  cbn [fst snd]. fields. by intros Hlt%negb_false_iff%Nat.ltb_lt _.
Qed.

Lemma work_parts s s' :
  next_thread_pos s' = next_thread_pos s -> max_out s' = max_out s -> threads_work (max_out s) (threads s') = threads_work (max_out s) (threads s) ->
  length (pending s') + producer_reserved_write_pos s' = length (pending s) + producer_reserved_write_pos s ->
  work s' + producer_work s = work s + producer_work s'.
Proof. unfold work. intros -> -> -> ->. lia. Qed.

(** After a wait the producer sleeps again or has space. *)
Lemma await_work data r s :
  length (threads r.1) = length (threads s) -> max_out r.1 = max_out s -> threads_work (max_out s) (threads r.1) = threads_work (max_out s) (threads s) ->
  next_thread_pos r.1 = next_thread_pos s -> producer_reserved_write_pos r.1 = producer_reserved_write_pos s ->
  pending s = data ->
  (r.2 = false -> error r.1 = false -> producer_reserved_write_pos r.1 < producer_reserved_upto_pos r.1) ->
  length (threads (await_space data r)) = length (threads s) /\
  work (await_space data r) + producer_work s <= work s + (2 * length data + 1) /\
  awake (await_space data r) = threads_awake (threads r.1).
Proof.
  intros Hlen Hmo Htw Hn Hwp Hd Hspace. destruct r as [s1 waits]; cbn [fst snd] in *.
  assert (work (await_space data (s1, waits)) + producer_work s = work s + producer_work (await_space data (s1, waits))) as Hw.
  { apply work_parts; destruct waits; cbn; try done; congruence. }
  split; [by destruct waits|]. split.
  - rewrite Hw. apply Nat.add_le_mono_l. destruct waits; cbn; [lia|]. destruct (error s1) eqn:He; [lia|].
    specialize (Hspace eq_refl eq_refl). destruct (_ =? 0) eqn:Hz; [apply Nat.eqb_eq in Hz; lia|lia].
  - destruct waits; unfold awake; apply Nat.add_0_r.
Qed.

Lemma write_turn_work w ds s data :
  writer_inv w ds s -> producer s = PWrite data -> in_call (write_turn data s) = true -> less_work (write_turn data s) s.
Proof.
  intros Hi Hp Hin. unfold write_turn in *.
  assert (pending s = data) as Hpend by by unfold pending; rewrite Hp.
  destruct (negb (error s) && negb (length data =? 0)) eqn:Hmore.
  2:{ exfalso. clear Hmore. by destruct (negb (error s) && _). }
  apply andb_true_iff in Hmore as [He%negb_true_iff Hd%negb_true_iff%Nat.eqb_neq].
  assert (producer_work s = 2 * length data + 1 + (if producer_reserved_upto_pos s - producer_reserved_write_pos s =? 0 then 1 else 0))
    as Hpw by by unfold producer_work; rewrite Hp, He.
  destruct (_ - _ =? 0) eqn:Hr.
  - destruct (update_reservation_same WAIT s) as (Hts & Hwp & Hrp & Hn & _).
    destruct (await_work data (update_reservation WAIT s) s) as (Hl & Hw & _).
    + by rewrite Hts, length_map.
    + unfold max_out. by rewrite update_reservation_block.
    + by rewrite Hts, threads_work_wake.
    + done.
    + done.
    + done.
    + intros Hf Hne. rewrite Hwp. by apply (update_loop_space _ Hf Hne).
    + split; [done|]. left. lia.
  - apply Nat.eqb_neq in Hr. destruct (write_amount_ok _ _ _ _ Hi Hd Hr) as (Hl & Hpos & Hfit & Hspace).
    fold (write_amount data s) in *. set (s' := with_producer _ _) in *.
    assert (work s' + producer_work s = work s + producer_work s') as Hw.
    { apply work_parts; [done|done|done|]. subst s'. rewrite Hpend. cbn. rewrite Hl, length_drop. rewrite length_take in Hl. lia. }
    assert (producer_work s' < producer_work s); [|split; [done|left; lia]].
    rewrite Hpw. subst s'. cbn. rewrite He, length_drop. rewrite length_take in Hl. destruct (_ - _ =? 0); lia.
Qed.

Lemma producer_step_work w ds c s s' :
  writer_inv w ds s -> producer_ok s -> in_call s = true -> producer_step c s = Some s' -> in_call s' = true ->
  less_work s' s.
Proof.
  intros Hi Hpo Hin Hs Hin'. unfold producer_step in Hs. unfold in_call in Hin.
  destruct (producer s) as [|data|[] data| | |] eqn:Hp; simplify_eq; try done.
  - by eapply write_turn_work.
  - destruct (update_loop_same WAIT s) as (Hts & Hpr & Hwp & Hrp & Hn & _).
    destruct (await_work data (update_loop WAIT s) s) as (Hl & Hw & Ha); try by rewrite ?Hts.
    + unfold max_out. by rewrite update_loop_block.
    + unfold pending. by rewrite Hp.
    + intros Hf Hne. rewrite Hwp. pose proof (update_loop_space _ Hf Hne).
      unfold producer_ok in Hpo. rewrite Hp in Hpo. destruct Hpo as (_ & Hfl & _). unfold flushed in Hfl. lia.
    + split; [done|]. right. rewrite Ha, Hts. unfold producer_work in Hw. rewrite Hp in Hw.
      unfold awake, producer_awake. rewrite Hp. lia.
  - split; [fields; apply length_map|]. left.
    assert (work (with_producer PJoin (broadcast (with_closing true s))) + producer_work s =
      work s + producer_work (with_producer PJoin (broadcast (with_closing true s)))) as Hw.
    { apply work_parts; [done|done|apply threads_work_wake|]. unfold pending. by rewrite Hp. }
    assert (producer_work s = 1) as Hone by by unfold producer_work; rewrite Hp.
    change (producer_work (with_producer PJoin _)) with 0 in Hw. lia.
  - by destruct (forallb exited (threads s)); simplify_eq.
Qed.

End Flow.

(** ** Spurious wakeups *)

Definition spurious (e : event) : nat := match e with ESpurious _ => 1 | _ => 0 end.

(** A wakeup leaves as much work as there was, and one thread more awake. *)
Lemma spurious_work x s s' : spurious_wakeup x s = Some s' -> steps_left s' = steps_left s + 1.
Proof.
  intros [(i & t & Ht & Hw & ->)|(data & Hp & ->)]%spurious_cases; unfold steps_left, work, awake.
  - pose proof (sum_list_insert (thread_work (max_out s)) _ _ _ (wake_thread t) Ht) as Hwork.
    pose proof (sum_list_insert thread_awake _ _ _ (wake_thread t) Ht) as Hawake.
    assert (thread_work (max_out s) (wake_thread t) = thread_work (max_out s) t) as Hsame by by destruct t.
    assert (thread_awake (wake_thread t) = thread_awake t + 1) as Hone by by destruct t as [|[]| | |[]| | |].
    fields. change (max_out (set_thread i (wake_thread t) s)) with (max_out s). unfold threads_work, threads_awake.
    rewrite length_insert. change (pending (set_thread i (wake_thread t) s)) with (pending s).
    change (producer_work (set_thread i (wake_thread t) s)) with (producer_work s).
    change (producer_awake (set_thread i (wake_thread t) s)) with (producer_awake s). 
    replace (sum_list (thread_work (max_out s) <$> <[i:=wake_thread t]> (threads s))) with (sum_list (thread_work (max_out s) <$> threads s)) by lia. lia.
  - unfold pending, producer_work, producer_awake. rewrite Hp. fields. change (max_out (with_producer _ s)) with (max_out s). lia.
Qed.

Section Spec.
Context `{Codec}.

(** ** Runs *)

Fixpoint run (es : list event) (s : writer) : option writer :=
  match es with
  | [] => Some s
  | e :: es => match step e s with Some s' => run es s' | None => None end
  end.

(** The data a step hands to [write]. *)
Definition submits (e : event) (s : writer) : list Z :=
  match e, producer s with EProducer (CallWrite data), PIdle => data | _, _ => [] end.

Fixpoint submitted (es : list event) (s : writer) : list Z :=
  match es with
  | [] => []
  | e :: es => submits e s ++ match step e s with Some s' => submitted es s' | None => [] end
  end.

Lemma run_reachable block n es s s' : reachable_writer block n s -> run es s = Some s' -> reachable_writer block n s'.
Proof.
  revert s. induction es as [|e es IH]; intros s Hr; cbn [run]; [by intros [= <-]|].
  destruct (step e s) as [s1|] eqn:Hs; [|done]. apply IH. by eapply reachable_step.
Qed.

(** ** The data is the calls' *)

(** What was copied and what is still to copy. *)
Definition accepted (s : writer) : list Z := stream s ++ pending s.

Lemma thread_top_frame i s :
  stream (thread_top i s) = stream s /\ producer (thread_top i s) = producer s /\ error (thread_top i s) = error s.
Proof. unfold thread_top. by destruct (can_take s), (can_exit s). Qed.

Lemma thread_finish_frame i s :
  stream (thread_finish i s) = stream s /\ producer (thread_finish i s) = wake_producer (producer s) /\
  error (thread_finish i s) = error s.
Proof. apply (thread_top_frame i (broadcast (set_thread i TTop s))). Qed.

Lemma thread_step_frame i ok n s s' :
  thread_step i ok n s = Some s' ->
  stream s' = stream s /\ (producer s' = producer s \/ producer s' = wake_producer (producer s)) /\ error s' = error s.
Proof.
  assert (forall pos len out s1, stream s1 = stream s -> producer s1 = producer s -> error s1 = error s ->
    stream (thread_turn i pos len out s1) = stream s /\
    (producer (thread_turn i pos len out s1) = producer s \/ producer (thread_turn i pos len out s1) = wake_producer (producer s)) /\
    error (thread_turn i pos len out s1) = error s) as Hturn.
  { intros pos len out s1 Hst Hp He. unfold thread_turn. destruct (write_error s1); [|by destruct (other_thread_write_first pos s1); auto].
    destruct (thread_finish_frame i s1) as (-> & -> & ->). rewrite Hst, Hp, He. auto. }
  unfold thread_step. destruct (threads s !! i) as [[|[]|pos len|pos len out|[] pos len out|pos len out k|pos len|]|];
    try (destruct (n =? 0); [done|]); intros [= <-]; auto.
  - destruct (thread_top_frame i s) as (-> & -> & ->). auto.
  - destruct (thread_top_frame i s) as (-> & -> & ->). auto.
  - apply Hturn; by destruct (length out =? 0).
  - destruct (thread_finish_frame i s) as (-> & -> & ->). auto.
Qed.

Lemma pending_wake s s' : producer s' = producer s \/ producer s' = wake_producer (producer s) -> pending s' = pending s.
Proof. unfold pending. intros [-> | ->]; [done|]. by destruct (producer s). Qed.

Lemma await_accepted data r : error r.1 = false -> accepted (await_space data r) = stream r.1 ++ data.
Proof. by destruct r as [s []]. Qed.

Lemma await_error data r : error (await_space data r) = error r.1.
Proof. by destruct r as [s []]. Qed.

Lemma write_turn_accepted data s :
  producer s = PWrite data -> error (write_turn data s) = false -> error s = false /\ accepted (write_turn data s) = accepted s.
Proof.
  intros Hp He. assert (accepted s = stream s ++ data) as -> by by unfold accepted, pending; rewrite Hp.
  unfold write_turn in *. destruct (error s) eqn:Hes.
  { cbn in He. congruence. }
  split; [done|]. cbn [negb andb] in *. destruct (length data =? 0) eqn:Hd; cbn [negb] in *.
  - apply Nat.eqb_eq, length_zero_iff_nil in Hd as ->. destruct (_ <=? _).
    + destruct (update_reservation_same NOWAIT s) as (_ & _ & _ & _ & Hst & _). unfold accepted. cbn. by rewrite Hst.
    + done.
  - destruct (_ - _ =? 0).
    + rewrite await_error in He. rewrite await_accepted by done.
      destruct (update_reservation_same WAIT s) as (_ & _ & _ & _ & Hst & _). by rewrite Hst.
    + unfold accepted. cbn. rewrite <- app_assoc. f_equal. apply take_drop.
Qed.

Lemma step_accepted e s s' :
  step e s = Some s' -> error s' = false -> error s = false /\ accepted s' = accepted s ++ submits e s.
Proof.
  destruct e as [i ok n|c|x]; cbn [step submits].
  3:{ intros [(i & t & _ & _ & ->)|(data & Hp & ->)]%spurious_cases He; (split; [done|]); [by rewrite app_nil_r|].
      unfold accepted, pending. rewrite Hp. cbn. by rewrite app_nil_r. }
  - intros (Hst & Hp & He)%thread_step_frame Hgood. rewrite app_nil_r. unfold accepted.
    rewrite Hst, (pending_wake s s') by done. split; [congruence|done].
  - intros Hs Hgood. unfold producer_step in Hs.
    destruct (producer s) as [|data|[] data| | |] eqn:Hp; simplify_eq.
    + destruct c as [data|]; simplify_eq.
      * unfold accepted, pending. rewrite Hp. cbn. by rewrite app_nil_r.
      * destruct (update_reservation_same NOWAIT s) as (_ & _ & _ & _ & Hst & He). fields.
        split; [destruct (error s); [|done]; by rewrite He in Hgood|].
        unfold accepted, pending. rewrite Hp. cbn. by rewrite Hst, !app_nil_r.
    + destruct (write_turn_accepted data s Hp Hgood) as [? ->]. split; [done|]. destruct c; by rewrite app_nil_r.
    + rewrite await_error in Hgood. rewrite await_accepted by done.
      destruct (update_loop_same WAIT s) as (_ & _ & _ & _ & _ & Hst & He).
      split; [destruct (error s); [|done]; by rewrite He in Hgood|].
      unfold accepted, pending. rewrite Hp, Hst. destruct c; by rewrite app_nil_r.
    + split; [done|]. unfold accepted, pending. rewrite Hp. cbn. destruct c; by rewrite !app_nil_r.
    + destruct (forallb exited (threads s)); [|done]. simplify_eq.
      unfold accepted, pending. rewrite Hp. destruct (write_error s); [done|]. cbn in *. destruct c; by rewrite !app_nil_r.
Qed.

Lemma run_accepted es s s' :
  run es s = Some s' -> error s' = false -> error s = false /\ accepted s' = accepted s ++ submitted es s.
Proof.
  revert s. induction es as [|e es IH]; intros s; cbn [run submitted].
  - intros [= <-] He. by rewrite app_nil_r.
  - destruct (step e s) as [s1|] eqn:Hs; [|done]. intros Hr He. destruct (IH s1 Hr He) as [He1 ->].
    destruct (step_accepted e s s1 Hs He1) as [? ->]. split; [done|]. by rewrite app_assoc.
Qed.

(** ** The file *)

(** When [close] has returned, every byte that was copied is in the file. *)
Lemma closed_complete w ds s :
  writer_inv w ds s -> flow_ok s -> threads s <> [] -> producer s = PClosed -> good s = true -> w = length (stream s).
Proof.
  intros Hi [Hts Hp] Hne Hc Hg%negb_true_iff. unfold producer_ok in Hp. rewrite Hc in Hp.
  destruct Hp as (_ & Hfl & Hall & Hw).
  assert (write_error s = false) as Hwe by (destruct (write_error s); [rewrite Hw in Hg; done|done]).
  rewrite forallb_forall in Hall.
  assert (forall i t, threads s !! i = Some t -> t = TExit) as Hexit.
  { intros i t Ht. assert (exited t = true); [|by destruct t]. apply Hall, list_elem_of_In. by eapply list_elem_of_lookup_2. }
  destruct (threads s) as [|t0 ts] eqn:Hth; [done|]. rewrite <- Hth in Hexit.
  assert (threads s !! 0 = Some t0) as Ht0 by by rewrite Hth.
  pose proof (Hts 0 t0 Ht0) as Hw0. rewrite (Hexit 0 t0 Ht0) in Hw0. cbn in Hw0. unfold can_exit in Hw0. rewrite Hwe in Hw0.
  apply andb_true_iff in Hw0 as [_ Hnext%Nat.eqb_eq].
  pose proof (inv_w _ _ _ Hi). pose proof (inv_end _ _ _ Hi). pose proof (inv_write_pos _ _ _ Hi). unfold flushed in Hfl.
  destruct (decide (w < next_thread_pos s)) as [Hlt|]; [|lia].
  destruct (inv_cover _ _ _ Hi Hwe w) as (i & t & pos & len & Ht & Hb & _); [lia|].
  by rewrite (Hexit i t Ht) in Hb.
Qed.

(** The threads stay the same number. *)
Lemma thread_top_length i s : length (threads (thread_top i s)) = length (threads s).
Proof. unfold thread_top. destruct (can_take s); [|destruct (can_exit s)]; fields; apply length_insert. Qed.

Lemma thread_finish_length i s : length (threads (thread_finish i s)) = length (threads s).
Proof. unfold thread_finish. rewrite thread_top_length, length_broadcast. apply length_insert. Qed.

Lemma thread_turn_length i pos len out s : length (threads (thread_turn i pos len out s)) = length (threads s).
Proof.
  unfold thread_turn. destruct (write_error s); [apply thread_finish_length|].
  destruct (other_thread_write_first pos s); apply length_insert.
Qed.

Lemma step_length e s s' : step e s = Some s' -> length (threads s') = length (threads s).
Proof.
  destruct e as [i ok n|c|x]; cbn [step].
  3:{ intros [(i & t & _ & _ & ->)|(data & _ & ->)]%spurious_cases; [apply length_insert|done]. }
  - unfold thread_step. destruct (threads s !! i) as [[|[]|pos len|pos len out|[] pos len out|pos len out k|pos len|]|];
      try (destruct (n =? 0); [done|]); intros [= <-]; try apply thread_top_length; try apply thread_finish_length; try apply thread_turn_length; try apply length_insert.
    rewrite thread_turn_length. by destruct (length out =? 0).
  - assert (forall data r, threads (await_space data r) = threads r.1) as Haw by by intros data [? []].
    assert (forall f, length (threads (update_reservation f s).1) = length (threads s)) as Hur.
    { intros f. destruct (update_reservation_same f s) as (-> & _). apply length_map. }
    unfold producer_step. destruct (producer s) as [|data|[] data| | |]; try done.
    + destruct c; intros [= <-]; [done|apply Hur].
    + intros [= <-]. unfold write_turn. destruct (negb (error s) && negb _).
      * destruct (_ - _ =? 0); [by rewrite Haw|done].
      * destruct (negb (error s) && _); [apply Hur|done].
    + intros [= <-]. rewrite Haw. by destruct (update_loop_same WAIT s) as (-> & _).
    + intros [= <-]. apply length_map.
    + destruct (forallb exited (threads s)); [|done]. intros [= <-]. by destruct (write_error s).
Qed.

Lemma reachable_threads block n s : reachable_writer block n s -> length (threads s) = n.
Proof. induction 1 as [|s e s' _ IH Hs]; [apply length_replicate|]. by rewrite (step_length e s s' Hs). Qed.

Lemma reachable_not_nil block n s : 0 < n -> reachable_writer block n s -> threads s <> [].
Proof. intros Hn Hr Hnil. pose proof (reachable_threads _ _ _ Hr) as Hl. rewrite Hnil in Hl. cbn in Hl. lia. Qed.

(** The size of the blocks stays what it was. *)
Lemma thread_top_block i s : block_size (thread_top i s) = block_size s.
Proof. unfold thread_top. by destruct (can_take s), (can_exit s). Qed.

Lemma thread_turn_block i pos len out s : block_size (thread_turn i pos len out s) = block_size s.
Proof.
  unfold thread_turn, thread_finish. destruct (write_error s); [by rewrite thread_top_block|].
  by destruct (other_thread_write_first pos s).
Qed.

Lemma step_block e s s' : step e s = Some s' -> block_size s' = block_size s.
Proof.
  assert (forall data r, block_size (await_space data r) = block_size r.1) as Haw by by intros data [? []].
  assert (forall f, block_size (update_reservation f s).1 = block_size s) as Hup.
  { intros f. unfold update_reservation. by rewrite update_loop_block. }
  destruct e as [i ok m|c|x]; cbn [step].
  3:{ by intros [(i & t & _ & _ & ->)|(data & _ & ->)]%spurious_cases. }
  - unfold thread_step. destruct (threads s !! i) as [[|[]|pos len|pos len out|[] pos len out|pos len out k|pos len|]|];
      try (destruct (m =? 0); [done|]); intros [= <-]; unfold thread_finish; rewrite ?thread_top_block, ?thread_turn_block; try done. by destruct (length out =? 0).
  - unfold producer_step. destruct (producer s) as [|data|[] data| | |]; try done.
    + destruct c; intros [= <-]; [done|apply Hup].
    + intros [= <-]. unfold write_turn. destruct (negb (error s) && negb _).
      * destruct (_ - _ =? 0); [by rewrite Haw|done].
      * destruct (negb (error s) && _); [apply Hup|done].
    + intros [= <-]. by rewrite Haw, update_loop_block.
    + by intros [= <-].
    + destruct (forallb exited (threads s)); [|done]. intros [= <-]. by destruct (write_error s).
Qed.

Lemma reachable_block block n s : reachable_writer block n s -> block_size s = block.
Proof. induction 1 as [|s e s' _ IH Hs]; [done|]. by rewrite (step_block e s s' Hs). Qed.

(** What is in the file of a block that is not complete. *)
Lemma torn_cases w ds s : writer_inv w ds s -> torn s = [] \/ exists d k, torn s = take k (written_block (block_size s) d) /\
  k < length (written_block (block_size s) d) /\ 0 < length d <= block_size s /\ take w (stream s) ++ d = take (w + length d) (stream s).
Proof.
  intros Hi. destruct (decide (Exists (fun t => part_of t <> []) (threads s))) as [Hex|Hno].
  - right. apply Exists_exists in Hex as (t & Hin & Hp). apply list_elem_of_In, list_elem_of_lookup in Hin as (i & Ht).
    destruct t as [| | | | |pos len out k| |]; try done. pose proof (inv_phases _ _ _ Hi i _ Ht) as (-> & Hout & Hk).
    destruct (inv_blocks _ _ _ Hi i _ Ht _ _ eq_refl) as [Hlen Hle].
    pose proof (inv_next _ _ _ Hi). pose proof (inv_end _ _ _ Hi). pose proof (inv_reserved _ _ _ Hi). pose proof (inv_write_pos _ _ _ Hi).
    assert (length (slice pos len (stream s)) = len) as Hsl by (apply length_slice; lia).
    exists (slice pos len (stream s)), k. unfold written_block. rewrite Hsl, <- Hout. split_and!; [by eapply torn_writer|done|lia|lia|apply take_slice].
  - left. unfold torn. clear - Hno. induction (threads s) as [|t ts IH]; [done|]. cbn.
    rewrite IH by (intros Hx; apply Hno; by right). destruct (part_of t) eqn:Hp; [done|]. destruct Hno. left. by rewrite Hp.
Qed.

(** C12.  At every moment, between two partial writes of `write_all`, after an
    error and after a failed `write` that ends rr as well, the file of a
    `CompressedWriter` is a sequence of whole blocks, none empty or larger than
    the block size, followed by a beginning of at most one more block that is
    not complete, and the data of these blocks together is a beginning of what
    the producer has written: threads write their blocks in order, each once,
    and nothing is written after a block that could not be compressed.
    Compressed blocks have to fit the output buffer of a thread, which is 1.1
    times the block size. *)
Theorem trace_file_prefix block n s :
  0 < block -> compress_fits block -> reachable_writer block n s ->
  exists ds d k, file s = encode_blocks ds ++ take k (encode_block d) /\ concat (ds ++ [d]) `prefix_of` stream s /\
    Forall (fun d => 0 < length d <= block) ds /\ length d <= block /\ k < length (encode_block d).
Proof.
  intros Hb Hc Hr. destruct (writer_reachable_inv block n s Hb Hr) as (w & ds & Hi). exists ds.
  pose proof (inv_lengths _ _ _ Hi) as Hl. pose proof (inv_file _ _ _ Hi) as Hf. pose proof (torn_cases _ _ _ Hi) as Ht.
  rewrite (reachable_block block n s Hr) in *. rewrite written_blocks_fit in Hf by done.
  assert (forall m, take m (stream s) `prefix_of` stream s) as Hpre by (intros m; exists (drop m (stream s)); by rewrite take_drop).
  destruct Ht as [Ht|(d & k & Ht & Hk & Hd & Hpieces)].
  - exists [], 0. rewrite Hf, Ht, concat_app, (inv_pieces _ _ _ Hi). cbn [concat]. rewrite !app_nil_r. split_and!; try done; [cbn; lia|].
    unfold encode_block, block_header. rewrite !length_app. cbn. lia.
  - assert (written_block block d = encode_block d) as Ed.
    { unfold written_block, outputbuf, encode_block, packed. rewrite take_ge by (apply Hc; lia). done. }
    exists d, k. rewrite <- Ed, Hf, Ht, concat_app, (inv_pieces _ _ _ Hi). cbn [concat]. rewrite app_nil_r, Hpieces. split_and!; try done; lia.
Qed.

(** A writer that is closed has no block that is not complete. *)
Lemma closed_torn s : flow_ok s -> producer s = PClosed -> torn s = [].
Proof.
  intros [_ Hp] Hc. unfold producer_ok in Hp. rewrite Hc in Hp. destruct Hp as (_ & _ & Hall & _). unfold torn.
  induction (threads s) as [|t ts IH]; [done|]. cbn in *. apply andb_true_iff in Hall as [Ht Hts]. rewrite (IH Hts). by destruct t.
Qed.

(** All that was submitted is in the blocks of the file. *)
Lemma closed_data block n es w ds s :
  0 < n -> run es (new_writer block n) = Some s -> writer_inv w ds s -> producer s = PClosed -> good s = true ->
  concat ds = submitted es (new_writer block n).
Proof.
  intros Hn Hrun Hi Hc Hg. pose proof (run_reachable block n es _ s (reachable_new block n) Hrun) as Hr.
  pose proof (closed_complete w ds s Hi (reachable_flow _ _ _ Hr) (reachable_not_nil _ _ _ Hn Hr) Hc Hg) as ->.
  rewrite (inv_pieces _ _ _ Hi), take_ge by done.
  destruct (run_accepted es _ s Hrun) as [_ Hacc]; [by apply negb_true_iff|].
  unfold accepted, pending in Hacc. rewrite Hc in Hacc. cbn in Hacc. by rewrite app_nil_r in Hacc.
Qed.

Lemma closed_file block n w ds s : compress_fits block -> reachable_writer block n s -> writer_inv w ds s -> producer s = PClosed ->
  file s = encode_blocks ds.
Proof.
  intros Hfit Hr Hi Hc. pose proof (inv_lengths _ _ _ Hi) as Hl. rewrite (inv_file _ _ _ Hi), (closed_torn s (reachable_flow _ _ _ Hr) Hc), app_nil_r.
  rewrite (reachable_block block n s Hr) in *. by apply written_blocks_fit.
Qed.

(** When `close` has returned and the writer is good, the file has all the data
    of the calls of `write`, in order. *)
Theorem closed_file_complete block n es s :
  0 < block -> 0 < n -> compress_fits block -> run es (new_writer block n) = Some s -> producer s = PClosed -> good s = true ->
  exists ds, file s = encode_blocks ds /\ concat ds = submitted es (new_writer block n).
Proof.
  intros Hb Hn Hfit Hrun Hc Hg. pose proof (run_reachable block n es _ s (reachable_new block n) Hrun) as Hr.
  destruct (writer_reachable_inv block n s Hb Hr) as (w & ds & Hi). exists ds. split; [|by eapply closed_data].
  by eapply closed_file.
Qed.

(** The producer leaves the threads their blocks, and adds to the stream. *)
Lemma producer_step_frame c s s' :
  producer_step c s = Some s' ->
  (threads s' = threads s \/ threads s' = map wake_thread (threads s)) /\ exists more, stream s' = stream s ++ more.
Proof.
  assert (forall s1, stream s1 = stream s -> exists more, stream s1 = stream s ++ more) as Hsame.
  { intros s1 Hs1. exists []. by rewrite app_nil_r. }
  assert (forall f, (threads (update_reservation f s).1 = map wake_thread (threads s)) /\ stream (update_reservation f s).1 = stream s) as Hur.
  { intros f. by destruct (update_reservation_same f s) as (? & _ & _ & _ & ? & _). }
  assert (forall data r, threads (await_space data r) = threads r.1 /\ stream (await_space data r) = stream r.1) as Haw by by intros data [? []].
  unfold producer_step. destruct (producer s) as [|data|[] data| | |]; try done.
  - destruct c; intros [= <-]; [by auto|]. destruct (Hur NOWAIT). auto.
  - intros [= <-]. unfold write_turn. destruct (negb (error s) && negb _).
    + destruct (_ - _ =? 0); [|split; [by left|by eexists]].
      destruct (Hur WAIT) as [Ht Hst], (Haw data (update_reservation WAIT s)) as [Ht' Hst']. rewrite Ht', Ht. split; [by right|].
      apply Hsame. congruence.
    + destruct (negb (error s) && _); [|by auto]. destruct (Hur NOWAIT). auto.
  - intros [= <-]. destruct (Haw data (update_loop WAIT s)) as [Ht' Hst'].
    destruct (update_loop_same WAIT s) as (Ht & _ & _ & _ & _ & Hst & _). rewrite Ht', Ht. split; [by left|]. apply Hsame. congruence.
  - intros [= <-]. split; [by right|]. by apply Hsame.
  - destruct (forallb exited (threads s)); [|done]. intros [= <-]. destruct (write_error s); auto.
Qed.

(** C20.  The lock-free `memcpy` of the producer never touches a block that a
    thread is working on, and what a thread compresses is its part of the stream
    although the buffer wraps around: the data of every block in work is the
    same before and after any step of the producer. *)
Theorem blocks_not_overwritten block n c s s' i t pos len :
  0 < block -> reachable_writer block n s -> producer_step c s = Some s' ->
  threads s !! i = Some t -> block_of t = Some (pos, len) ->
  block_data s' pos len = block_data s pos len /\ block_data s pos len = slice pos len (stream s).
Proof.
  intros Hb Hr Hs Ht Hbl. destruct (writer_reachable_inv block n s Hb Hr) as (w & ds & Hi).
  pose proof (block_data_slice w ds s i t pos len Hi Ht Hbl) as Hold. split; [|done].
  rewrite Hold. destruct (producer_step_frame c s s' Hs) as [Hth [more Hst]].
  assert (exists t', threads s' !! i = Some t' /\ block_of t' = Some (pos, len)) as (t' & Ht' & Hbl').
  { destruct Hth as [-> | ->]; [by exists t|]. exists (wake_thread t). rewrite block_of_wake. split; [|done].
    change (map wake_thread (threads s)) with (wake_thread <$> threads s). by rewrite list_lookup_fmap, Ht. }
  rewrite (block_data_slice w ds s' i t' pos len (inv_producer_step w ds c s s' Hi Hs) Ht' Hbl'), Hst.
  apply slice_app. destruct (inv_blocks _ _ _ Hi i t Ht pos len Hbl). destruct Hi. lia.
Qed.

(** C17.  The writer never deadlocks: until `close` has returned, the producer
    can make a step or some compression thread can, under every schedule,
    without the help of a spurious wakeup of `pthread_cond_wait`; the step of
    the thread can be made however much a `write` that does not fail writes. *)
Theorem writer_never_stuck block n s c :
  0 < block -> 0 < n -> reachable_writer block n s -> producer s <> PClosed ->
  (exists s', step (EProducer c) s = Some s') \/ exists i, forall m, 0 < m -> exists s', step (EThread i true m) s = Some s'.
Proof.
  intros Hb Hn Hr Hopen. destruct (writer_reachable_inv block n s Hb Hr) as (w & ds & Hi).
  destruct (find_awake s) as [Hall|(i & t & Ht & Ha)]; [left|right; exists i; by eapply awake_steps].
  eapply all_asleep_producer; try done; [by eapply reachable_flow|by eapply reachable_not_nil].
Qed.

Lemma step_less_work block n e s s' :
  0 < block -> reachable_writer block n s -> in_call s = true -> step e s = Some s' -> in_call s' = true ->
  steps_left s' < steps_left s + 2 * spurious e.
Proof.
  intros Hb Hr Hin Hs Hin'. destruct (writer_reachable_inv block n s Hb Hr) as (w & ds & Hi).
  destruct e as [i ok m|c|x]; cbn [spurious].
  - rewrite Nat.add_0_r. apply less_work_steps. by eapply thread_step_work.
  - rewrite Nat.add_0_r. apply less_work_steps. eapply producer_step_work; try done. by apply (reachable_flow block n s Hr).
  - pose proof (spurious_work x s s' Hs). lia.
Qed.


End Spec.
