(* ===== verification/CompressedReader.v ===== *)
(** * Compressed trace files: reading

    CompressedReader.cc and the operators of CompressedReader.h and CompressedWriter.h.  The
    reader decompresses one block at a time; it can save its position once and come back to it.
    [fd] is the contents of the file: [pread] gives what is there, and fails only at its end. *)

From stdpp Require Import base tactics list numbers.
From S2P Require Import Prelude SyscallParams CompressedWriter.
Local Open Scope nat_scope.

Record reader := mkReader {
  fd : list Z;
  fd_offset : nat;
  read_error : bool;
  eof : bool;
  read_buffer : list Z;
  buffer_read_pos : nat;
  have_saved_state : bool;
  have_saved_buffer : bool;
  saved_fd_offset : nat;
  saved_buffer : list Z;
  saved_buffer_read_pos : nat }.

Definition with_fd_offset v (r : reader) : reader :=
  mkReader (fd r) v (read_error r) (eof r) (read_buffer r) (buffer_read_pos r) (have_saved_state r)
    (have_saved_buffer r) (saved_fd_offset r) (saved_buffer r) (saved_buffer_read_pos r).
Definition with_read_error v (r : reader) : reader :=
  mkReader (fd r) (fd_offset r) v (eof r) (read_buffer r) (buffer_read_pos r) (have_saved_state r)
    (have_saved_buffer r) (saved_fd_offset r) (saved_buffer r) (saved_buffer_read_pos r).
Definition with_eof v (r : reader) : reader :=
  mkReader (fd r) (fd_offset r) (read_error r) v (read_buffer r) (buffer_read_pos r) (have_saved_state r)
    (have_saved_buffer r) (saved_fd_offset r) (saved_buffer r) (saved_buffer_read_pos r).
Definition with_read_buffer v (r : reader) : reader :=
  mkReader (fd r) (fd_offset r) (read_error r) (eof r) v (buffer_read_pos r) (have_saved_state r)
    (have_saved_buffer r) (saved_fd_offset r) (saved_buffer r) (saved_buffer_read_pos r).
Definition with_buffer_read_pos v (r : reader) : reader :=
  mkReader (fd r) (fd_offset r) (read_error r) (eof r) (read_buffer r) v (have_saved_state r)
    (have_saved_buffer r) (saved_fd_offset r) (saved_buffer r) (saved_buffer_read_pos r).
Definition with_have_saved_state v (r : reader) : reader :=
  mkReader (fd r) (fd_offset r) (read_error r) (eof r) (read_buffer r) (buffer_read_pos r) v
    (have_saved_buffer r) (saved_fd_offset r) (saved_buffer r) (saved_buffer_read_pos r).
Definition with_have_saved_buffer v (r : reader) : reader :=
  mkReader (fd r) (fd_offset r) (read_error r) (eof r) (read_buffer r) (buffer_read_pos r) (have_saved_state r)
    v (saved_fd_offset r) (saved_buffer r) (saved_buffer_read_pos r).
Definition with_saved_fd_offset v (r : reader) : reader :=
  mkReader (fd r) (fd_offset r) (read_error r) (eof r) (read_buffer r) (buffer_read_pos r) (have_saved_state r)
    (have_saved_buffer r) v (saved_buffer r) (saved_buffer_read_pos r).
Definition with_saved_buffer v (r : reader) : reader :=
  mkReader (fd r) (fd_offset r) (read_error r) (eof r) (read_buffer r) (buffer_read_pos r) (have_saved_state r)
    (have_saved_buffer r) (saved_fd_offset r) v (saved_buffer_read_pos r).
Definition with_saved_buffer_read_pos v (r : reader) : reader :=
  mkReader (fd r) (fd_offset r) (read_error r) (eof r) (read_buffer r) (buffer_read_pos r) (have_saved_state r)
    (have_saved_buffer r) (saved_fd_offset r) (saved_buffer r) v.

(** [pread] of one byte finds the end of the file. *)
Definition at_file_end (file : list Z) (offset : nat) : bool := length file <=? offset.

(** The constructor, when the file could be opened; the saved position is not initialised. *)
Definition open_reader (file : list Z) : reader :=
  mkReader file 0 false (at_file_end file 0) [] 0 false false 0 [] 0.

(** The copy constructor; [None] is the failed assertion that there is no saved state. *)
Definition copy_reader (other : reader) : option reader :=
  if have_saved_state other then None
  else Some (mkReader (fd other) (fd_offset other) (read_error other) (eof other) (read_buffer other)
               (buffer_read_pos other) false false 0 [] 0).

Definition reader_good (r : reader) : bool := negb (read_error r).

Definition at_end (r : reader) : bool := eof r && (buffer_read_pos r =? length (read_buffer r)).

(** [read_all]: all the bytes, and the offset after them. *)
Definition read_all (file : list Z) (size offset : nat) : option (list Z * nat) :=
  let data := take size (drop offset file) in
  if length data =? size then Some (data, offset + size) else None.

(** [BlockHeader] as it is in the file. *)
Definition decode_header (h : list Z) : nat * nat :=
  (Z.to_nat (le_value (take 4 h)), Z.to_nat (le_value (take 4 (drop 4 h)))).

(** ** A block *)

Section Reader.
Context `{Codec}.

Definition swap_buffers (r : reader) : reader :=
  with_saved_buffer (read_buffer r) (with_read_buffer (saved_buffer r) r).

(** [refill_buffer].  When the decoder fails what it left in the buffer is not modelled: [error] keeps it from being read. *)
Definition refill_buffer (r : reader) : reader * bool :=
  let r := if have_saved_state r && negb (have_saved_buffer r) then with_have_saved_buffer true (swap_buffers r) else r in
  match read_all (fd r) header_size (fd_offset r) with
  | None => (with_read_error true r, false)
  | Some (h, offset) =>
      let r := with_fd_offset offset r in
      let '(compressed_length, uncompressed_length) := decode_header h in
      match read_all (fd r) compressed_length (fd_offset r) with
      | None => (with_read_error true r, false)
      | Some (compressed_buf, offset) =>
          let r := with_fd_offset offset r in
          let r := if at_file_end (fd r) (fd_offset r) then with_eof true r else r in
          match decompress compressed_buf uncompressed_length with
          | Some l => (with_buffer_read_pos 0 (with_read_buffer l r), true)
          | None => (with_read_error true (with_buffer_read_pos 0 (with_read_buffer (replicate uncompressed_length 0%Z) r)), false)
          end
      end
  end.

(** ** Reading *)

(** [get_buffer]: what is left of the buffer, after filling it if it is used up.  [None] is the failed assertion that
    a new block is not empty. *)
Definition get_buffer (r : reader) : option (reader * option (list Z)) :=
  if read_error r then Some (r, None)
  else if (length (read_buffer r) <=? buffer_read_pos r) && negb (eof r) then
    let '(r, ok) := refill_buffer r in
    if ok then
      if buffer_read_pos r <? length (read_buffer r) then Some (r, Some (drop (buffer_read_pos r) (read_buffer r))) else None
    else Some (r, None)
  else Some (r, Some (drop (buffer_read_pos r) (read_buffer r))).

(** The loop of [read]: the state, whether it succeeded, and the bytes it has copied.  [None]: the fuel is used up. *)
Fixpoint read_loop (fuel size : nat) (data : list Z) (r : reader) : option (reader * bool * list Z) :=
  if size =? 0 then Some (r, true, data)
  else match fuel with
  | O => None
  | S fuel =>
      if read_error r then Some (r, false, data)
      else if buffer_read_pos r <? length (read_buffer r) then
        let amount := Nat.min size (length (read_buffer r) - buffer_read_pos r) in
        read_loop fuel (size - amount) (data ++ take amount (drop (buffer_read_pos r) (read_buffer r)))
          (with_buffer_read_pos (buffer_read_pos r + amount) r)
      else
        let '(r, ok) := refill_buffer r in
        if ok then read_loop fuel size data r else Some (r, false, data)
  end.

(** Every turn of the loop takes from [size] or from the file. *)
Definition read_fuel (size : nat) (r : reader) : nat := S (size + (length (fd r) - fd_offset r)).

Definition read (size : nat) (r : reader) : option (reader * bool * list Z) := read_loop (read_fuel size r) size [] r.

(** The loop of [skip]. *)
Fixpoint skip_loop (fuel size : nat) (r : reader) : option (reader * bool) :=
  if size =? 0 then Some (r, true)
  else match fuel with
  | O => None
  | S fuel =>
      if read_error r then Some (r, false)
      else if buffer_read_pos r <? length (read_buffer r) then
        let amount := Nat.min size (length (read_buffer r) - buffer_read_pos r) in
        skip_loop fuel (size - amount) (with_buffer_read_pos (buffer_read_pos r + amount) r)
      else
        let '(r, ok) := refill_buffer r in
        if ok then skip_loop fuel size r else Some (r, false)
  end.

Definition skip (size : nat) (r : reader) : option (reader * bool) := skip_loop (read_fuel size r) size r.

(** ** The position *)

(** [rewind], with its assertion. *)
Definition rewind (r : reader) : option reader :=
  if have_saved_state r then None
  else Some (with_eof false (with_read_buffer [] (with_buffer_read_pos 0 (with_fd_offset 0 r)))).

Definition save_state (r : reader) : option reader :=
  if have_saved_state r then None
  else Some (with_saved_buffer_read_pos (buffer_read_pos r) (with_saved_fd_offset (fd_offset r)
               (with_have_saved_buffer false (with_have_saved_state true r)))).

Definition restore_state (r : reader) : option reader :=
  if have_saved_state r then
    let r := with_have_saved_state false r in
    let r := if saved_fd_offset r <? fd_offset r then with_eof false r else r in
    let r := with_fd_offset (saved_fd_offset r) r in
    let r := if have_saved_buffer r then with_saved_buffer [] (swap_buffers r) else r in
    Some (with_buffer_read_pos (saved_buffer_read_pos r) r)
  else None.

Definition discard_state (r : reader) : option reader :=
  if have_saved_state r then
    let r := with_have_saved_state false r in
    Some (if have_saved_buffer r then with_saved_buffer [] r else r)
  else None.

(** ** Sizes *)

(** The loop of [uncompressed_bytes] goes from header to header: one turn for eight bytes of the file. *)
Fixpoint uncompressed_loop (fuel offset total : nat) (file : list Z) : option nat :=
  match fuel with
  | O => None
  | S fuel =>
      match read_all file header_size offset with
      | None => Some total
      | Some (h, offset) =>
          let '(compressed_length, uncompressed_length) := decode_header h in
          uncompressed_loop fuel (offset + compressed_length) (total + uncompressed_length) file
      end
  end.

Definition uncompressed_bytes (r : reader) : option nat := uncompressed_loop (S (length (fd r))) 0 0 (fd r).

Definition compressed_bytes (r : reader) : nat := length (fd r).

(** ** The operators *)

(** [operator<<] of a value of [n] bytes, of a string and of a vector: the data of the calls of [write]. *)
Definition put_value (n : nat) (v : Z) : list Z := le_bytes n v.
Definition put_string (s : list Z) : list Z := s ++ [0%Z].
Definition put_vector (n : nat) (vs : list Z) : list Z := put_value 8 (Z.of_nat (length vs)) ++ concat (map (put_value n) vs).

(** [operator>>]: [None] when [read] fails, which leaves the value as it was (and, for a string or a vector, uninitialised). *)
Definition get_value (n : nat) (r : reader) : option (reader * Z) :=
  match read n r with Some (r, true, data) => Some (r, le_value data) | _ => None end.

(** [value] is what the string had: [value.empty()] does not clear it. *)
Fixpoint get_string (fuel : nat) (value : list Z) (r : reader) : option (reader * list Z) :=
  match fuel with
  | O => None
  | S fuel =>
      match get_value 1 r with
      | None => None
      | Some (r, ch) => if Z.eqb ch 0 then Some (r, value) else get_string fuel (value ++ [ch]) r
      end
  end.

Fixpoint get_values (n len : nat) (r : reader) : option (reader * list Z) :=
  match len with
  | O => Some (r, [])
  | S len =>
      match get_value n r with
      | None => None
      | Some (r, v) => match get_values n len r with None => None | Some (r, vs) => Some (r, v :: vs) end
      end
  end.

Definition get_vector (n : nat) (r : reader) : option (reader * list Z) :=
  match get_value 8 r with None => None | Some (r, len) => get_values n (Z.to_nat len) r end.

End Reader.
