(* ===== verification/CompressedReaderSpec.v ===== *)
(** * Compressed trace files: what the reader promises

    A reader of the blocks [ds] behaves as a position in their data [concat ds], with at most
    one saved position. *)

From stdpp Require Import base tactics list numbers.
From S2P Require Import Prelude SyscallParams CompressedWriter CompressedWriterInv CompressedReader.
Local Open Scope nat_scope.

Ltac reader_fields := cbn [with_fd_offset with_read_error with_eof with_read_buffer with_buffer_read_pos
  with_have_saved_state with_have_saved_buffer with_saved_fd_offset with_saved_buffer with_saved_buffer_read_pos
  swap_buffers fd fd_offset read_error eof read_buffer buffer_read_pos have_saved_state have_saved_buffer
  saved_fd_offset saved_buffer saved_buffer_read_pos] in *.

(** ** Headers *)

Definition fits32 (n : nat) : Prop := (Z.of_nat n < 2 ^ 32)%Z.

Lemma le_value_word n : fits32 n -> le_value (le_bytes 4 (Z.of_nat n)) = Z.of_nat n.
Proof. unfold fits32. intros Hn. apply le_value_le_bytes. change (256 ^ Z.of_nat 4)%Z with (2 ^ 32)%Z. lia. Qed.

Lemma decode_block_header a b : fits32 a -> fits32 b -> decode_header (block_header a b) = (a, b).
Proof.
  intros Ha Hb. unfold decode_header, block_header.
  rewrite take_app_length', drop_app_length', take_ge by (rewrite length_le_bytes; lia).
  by rewrite !le_value_word, !Nat2Z.id by done.
Qed.

Lemma length_block_header a b : length (block_header a b) = header_size.
Proof. unfold block_header. by rewrite length_app, !length_le_bytes. Qed.

Lemma read_all_here pre x post size offset :
  offset = length pre -> size = length x -> read_all (pre ++ x ++ post) size offset = Some (x, offset + size).
Proof.
  intros -> ->. unfold read_all. rewrite drop_app_length', take_app_length' by done. by rewrite Nat.eqb_refl.
Qed.

Lemma read_all_end file size offset : 0 < size -> length file <= offset -> read_all file size offset = None.
Proof. intros Hs Ho. unfold read_all. rewrite drop_ge by done. rewrite take_nil. by destruct size; [lia|]. Qed.

Lemma read_all_bound file size offset data o :
  read_all file size offset = Some (data, o) -> o = offset + size /\ (0 < size -> offset + size <= length file).
Proof.
  unfold read_all. destruct (_ =? _) eqn:He; [|done]. intros [= <- <-]. split; [done|].
  apply Nat.eqb_eq in He. rewrite length_take, length_drop in He. lia.
Qed.

(** ** The position a reader stands for *)

Section Spec.
Context `{Codec}.

(** The sizes of a block fit into its header. *)
Definition block_fits (d : list Z) : Prop := 0 < length d /\ fits32 (length d) /\ fits32 (length (compress d)).

Context (ds : list (list Z)) (Hfits : Forall block_fits ds).

Notation data := (concat ds).

(** The bytes still in the buffer and the blocks after [offset] are the data after [pos]. *)
Definition positioned (offset : nat) (buf : list Z) (bp pos : nat) : Prop :=
  exists ds1 ds2, ds = ds1 ++ ds2 /\ offset = length (encode_blocks ds1) /\ bp <= length buf /\
    drop bp buf ++ concat ds2 = drop pos data /\ pos <= length data.

Record rep (r : reader) (pos : nat) : Prop := {
  rep_fd : fd r = encode_blocks ds;
  rep_ok : read_error r = false;
  rep_eof : eof r = (fd_offset r =? length (fd r));
  rep_at : positioned (fd_offset r) (read_buffer r) (buffer_read_pos r) pos }.

Definition rep_saved (r : reader) (sv : option nat) : Prop :=
  match sv with
  | None => have_saved_state r = false
  | Some q =>
      have_saved_state r = true /\ saved_fd_offset r <= fd_offset r /\
      (have_saved_buffer r = false -> saved_fd_offset r = fd_offset r) /\
      positioned (saved_fd_offset r) (if have_saved_buffer r then saved_buffer r else read_buffer r) (saved_buffer_read_pos r) q
  end.

Lemma encode_blocks_app l1 l2 : encode_blocks (l1 ++ l2) = encode_blocks l1 ++ encode_blocks l2.
Proof. unfold encode_blocks. by rewrite map_app, concat_app. Qed.

Lemma encode_blocks_cons d l : encode_blocks (d :: l) = encode_block d ++ encode_blocks l.
Proof. done. Qed.

Lemma length_encode_block d : length (encode_block d) = header_size + length (compress d).
Proof. unfold encode_block. by rewrite length_app, length_block_header. Qed.

Lemma positioned_offset offset buf bp pos : positioned offset buf bp pos -> offset <= length (encode_blocks ds).
Proof. intros (ds1 & ds2 & -> & -> & _). rewrite encode_blocks_app, length_app. lia. Qed.

Lemma positioned_length offset buf bp pos :
  positioned offset buf bp pos -> pos + (length buf - bp) <= length data.
Proof.
  intros (ds1 & ds2 & _ & _ & Hbp & Heq & Hpos). apply (f_equal length) in Heq.
  rewrite length_app, !length_drop in Heq. lia.
Qed.

(** At the end of the file nothing is left but the buffer. *)
Lemma positioned_end buf bp pos :
  positioned (length (encode_blocks ds)) buf bp pos -> drop bp buf = drop pos data.
Proof.
  intros (ds1 & ds2 & Hds & Hoff & _ & Heq & _). rewrite Hds, encode_blocks_app, length_app in Hoff.
  destruct ds2 as [|d ds2]; [by rewrite app_nil_r in Heq|].
  rewrite encode_blocks_cons, length_app, length_encode_block in Hoff. unfold header_size in Hoff. lia.
Qed.

Lemma rep_open : rep (open_reader (encode_blocks ds)) 0 /\ rep_saved (open_reader (encode_blocks ds)) None.
Proof.
  split; [|done]. split; [done|done| |exists [], ds; repeat split; try done; cbn; lia].
  cbn. unfold at_file_end. destruct (length (encode_blocks ds)); [done|]. by cbn.
Qed.

(** Using up part of the buffer. *)
Lemma rep_advance r pos n :
  rep r pos -> buffer_read_pos r + n <= length (read_buffer r) ->
  rep (with_buffer_read_pos (buffer_read_pos r + n) r) (pos + n) /\
  take n (drop (buffer_read_pos r) (read_buffer r)) = slice pos n data.
Proof.
  intros [Hfd Hok Heof Hat] Hn. pose proof (positioned_length _ _ _ _ Hat) as Hlen.
  destruct Hat as (ds1 & ds2 & Hds & Hoff & Hbp & Heq & Hpos). split.
  - split; try done. exists ds1, ds2. reader_fields. split; [done|]. split; [done|]. split; [done|]. split; [|lia].
    rewrite <- !drop_drop, <- Heq. rewrite drop_app_le; [done|]. rewrite length_drop. lia.
  - unfold slice. rewrite <- Heq. rewrite take_app_le; [done|]. rewrite length_drop. lia.
Qed.

Lemma rep_saved_advance r n sv : rep_saved r sv -> rep_saved (with_buffer_read_pos n r) sv.
Proof. by destruct sv. Qed.

(** ** Filling the buffer *)

(** The first thing [refill_buffer] does is to keep the saved buffer. *)
Definition keep_saved (r : reader) : reader :=
  if have_saved_state r && negb (have_saved_buffer r) then with_have_saved_buffer true (swap_buffers r) else r.

Lemma keep_saved_same r :
  fd (keep_saved r) = fd r /\ fd_offset (keep_saved r) = fd_offset r /\ read_error (keep_saved r) = read_error r /\
  eof (keep_saved r) = eof r.
Proof. unfold keep_saved. by destruct (_ && _). Qed.

(** After it the saved position no longer depends on the buffer and the offset. *)
Lemma keep_saved_rep r sv r' :
  rep_saved r sv -> fd_offset r <= fd_offset r' -> have_saved_state r' = have_saved_state r ->
  have_saved_buffer r' = have_saved_buffer (keep_saved r) -> saved_fd_offset r' = saved_fd_offset r ->
  saved_buffer r' = saved_buffer (keep_saved r) -> saved_buffer_read_pos r' = saved_buffer_read_pos r ->
  rep_saved r' sv.
Proof.
  unfold keep_saved, rep_saved. destruct sv as [q|]; [|by intros ? _ ->].
  intros (Hs & Hle & Hsame & Hpos) Hoff -> -> -> -> ->. rewrite Hs. cbn [andb].
  split; [done|]. destruct (have_saved_buffer r) eqn:Hb; cbn [negb]; reader_fields.
  - rewrite Hb. split; [lia|]. by split.
  - split; [lia|]. by split.
Qed.

Lemma refill_eq r :
  refill_buffer r =
  let r := keep_saved r in
  match read_all (fd r) header_size (fd_offset r) with
  | None => (with_read_error true r, false)
  | Some (h, offset) =>
      let r := with_fd_offset offset r in
      let '(compressed_length, uncompressed_length) := decode_header h in
      match read_all (fd r) compressed_length (fd_offset r) with
      | None => (with_read_error true r, false)
      | Some (compressed_buf, offset) =>
          let r := with_fd_offset offset r in
          let r := if at_file_end (fd r) (fd_offset r) then with_eof true r else r in
          match decompress compressed_buf uncompressed_length with
          | Some l => (with_buffer_read_pos 0 (with_read_buffer l r), true)
          | None => (with_read_error true (with_buffer_read_pos 0 (with_read_buffer (replicate uncompressed_length 0%Z) r)), false)
          end
      end
  end.
Proof. done. Qed.

(** The next block. *)
Lemma refill_block ds1 d ds2 r :
  ds = ds1 ++ d :: ds2 -> fd r = encode_blocks ds -> fd_offset r = length (encode_blocks ds1) ->
  refill_buffer r =
  (let r := with_fd_offset (length (encode_blocks (ds1 ++ [d]))) (keep_saved r) in
   let r := if at_file_end (fd r) (fd_offset r) then with_eof true r else r in
   with_buffer_read_pos 0 (with_read_buffer d r), true).
Proof.
  intros Hds Hfd Hoff. assert (block_fits d) as (_ & Hfd1 & Hfd2).
  { rewrite Hds in Hfits. by apply Forall_app in Hfits as [_ [? _]%Forall_cons_1]. }
  destruct (keep_saved_same r) as (Hk1 & Hk2 & _ & _).
  rewrite refill_eq. cbn zeta. rewrite Hk1, Hk2, Hfd, Hds, encode_blocks_app, encode_blocks_cons. unfold encode_block.
  rewrite <- !app_assoc, read_all_here by (rewrite ?length_block_header; done).
  rewrite decode_block_header by done. cbn [with_fd_offset fd fd_offset]. rewrite Hk1, Hfd, Hds, encode_blocks_app, encode_blocks_cons.
  unfold encode_block. rewrite <- !app_assoc.
  rewrite (app_assoc (encode_blocks ds1)), read_all_here by (rewrite ?length_app, ?length_block_header; lia).
  rewrite decompress_compress. rewrite encode_blocks_app, length_app. cbn [encode_blocks map concat]. rewrite app_nil_r, length_encode_block.
  by rewrite Hoff, Nat.add_assoc.
Qed.

Lemma refilled_eq off d r :
  eof r = false ->
  (let r := with_fd_offset off (keep_saved r) in
   let r := if at_file_end (fd r) (fd_offset r) then with_eof true r else r in
   with_buffer_read_pos 0 (with_read_buffer d r)) =
  mkReader (fd r) off (read_error r) (at_file_end (fd r) off) d 0 (have_saved_state r) (have_saved_buffer (keep_saved r))
    (saved_fd_offset r) (saved_buffer (keep_saved r)) (saved_buffer_read_pos r).
Proof.
  intros He. destruct r as [f o er e b bp hs hb so sb sbp]. cbn in He. subst e. unfold keep_saved.
  destruct (hs && negb hb) eqn:Hk; reader_fields; rewrite Hk; reader_fields; by destruct (at_file_end f off).
Qed.

Lemma encode_prefix ds1 d ds2 :
  ds = ds1 ++ d :: ds2 ->
  length (encode_blocks ds1) < length (encode_blocks (ds1 ++ [d])) <= length (encode_blocks ds).
Proof.
  intros ->. change (ds1 ++ d :: ds2) with (ds1 ++ [d] ++ ds2). rewrite app_assoc, (encode_blocks_app (ds1 ++ [d])), length_app.
  rewrite encode_blocks_app, length_app. cbn [encode_blocks map concat]. rewrite app_nil_r, length_encode_block. unfold header_size. lia.
Qed.

Lemma refill_rep r pos sv :
  rep r pos -> rep_saved r sv -> length (read_buffer r) <= buffer_read_pos r -> pos < length data ->
  exists r', refill_buffer r = (r', true) /\ rep r' pos /\ rep_saved r' sv /\ buffer_read_pos r' < length (read_buffer r') /\
    fd_offset r < fd_offset r' <= length (fd r) /\ fd r' = fd r.
Proof.
  intros [Hfd Hok Heof Hat] Hsv Hused Hpos. destruct Hat as (ds1 & ds2 & Hds & Hoff & Hbp & Heq & _).
  rewrite drop_ge in Heq by done. cbn [app] in Heq. destruct ds2 as [|d ds2].
  { apply (f_equal length) in Heq. rewrite length_drop in Heq. cbn in Heq. lia. }
  pose proof (encode_prefix ds1 d ds2 Hds) as Hpre.
  assert (0 < length d) as Hd.
  { rewrite Hds in Hfits. by apply Forall_app in Hfits as [_ [[? _] _]%Forall_cons_1]. }
  assert (eof r = false) as He by (rewrite Heof, Hfd; apply Nat.eqb_neq; lia).
  rewrite (refill_block ds1 d ds2 r Hds Hfd Hoff), refilled_eq by done. eexists. split; [done|].
  split; [split|split; [|split; [|split]]]; reader_fields; try done.
  - rewrite Hfd. unfold at_file_end. destruct (Nat.eqb_spec (length (encode_blocks (ds1 ++ [d]))) (length (encode_blocks ds))) as [->|];
      [apply Nat.leb_refl|apply Nat.leb_gt; lia].
  - exists (ds1 ++ [d]), ds2. split; [by rewrite <- app_assoc|]. split; [done|]. split; [lia|]. split; [done|lia].
  - eapply keep_saved_rep; [done|..]; reader_fields; try done. lia.
  - rewrite Hfd. lia.
Qed.

(** After the last block. *)
Lemma refill_end r pos :
  rep r pos -> length (read_buffer r) <= buffer_read_pos r -> pos = length data ->
  exists r', refill_buffer r = (r', false) /\ read_error r' = true.
Proof.
  intros [Hfd Hok Heof Hat] Hused Hpos. destruct Hat as (ds1 & ds2 & Hds & Hoff & Hbp & Heq & _).
  rewrite drop_ge, Hpos, drop_ge in Heq by done. destruct ds2 as [|d ds2].
  2:{ rewrite Hds in Hfits. apply Forall_app in Hfits as [_ [[Hd _] _]%Forall_cons_1]. cbn in Heq. destruct d; [cbn in Hd; lia|done]. }
  rewrite app_nil_r in Hds. destruct (keep_saved_same r) as (Hk1 & Hk2 & _ & _).
  rewrite refill_eq. cbn zeta. rewrite Hk1, Hk2, Hoff, Hfd, Hds, read_all_end by (unfold header_size; lia).
  by eexists.
Qed.

(** ** Reading *)

Lemma read_loop_rep fuel size acc r pos sv :
  rep r pos -> rep_saved r sv -> size + (length (fd r) - fd_offset r) < fuel ->
  if decide (pos + size <= length data) then
    exists r', read_loop fuel size acc r = Some (r', true, acc ++ slice pos size data) /\ rep r' (pos + size) /\ rep_saved r' sv
  else exists r', read_loop fuel size acc r = Some (r', false, acc ++ drop pos data) /\ read_error r' = true.
Proof.
  revert size acc r pos. induction fuel as [|fuel IH]; intros size acc r pos Hr Hsv Hfuel; [lia|].
  cbn [read_loop]. destruct (size =? 0) eqn:Hz.
  { apply Nat.eqb_eq in Hz as ->. destruct Hr as [Hfd Hok Heof Hat]. pose proof (positioned_length _ _ _ _ Hat).
    rewrite decide_True by lia. exists r. rewrite Nat.add_0_r. unfold slice. rewrite app_nil_r. by repeat split. }
  apply Nat.eqb_neq in Hz. rewrite (rep_ok _ _ Hr). destruct (buffer_read_pos r <? length (read_buffer r)) eqn:Hb.
  - apply Nat.ltb_lt in Hb. set (amount := Nat.min _ _).
    destruct (rep_advance r pos amount Hr) as [Hr' Hdata]; [lia|]. rewrite Hdata.
    pose proof (positioned_length _ _ _ _ (rep_at _ _ Hr)) as Hlen.
    specialize (IH (size - amount) (acc ++ slice pos amount data) _ _ Hr' (rep_saved_advance _ _ _ Hsv)).
    assert (forall k, slice pos amount data ++ slice (pos + amount) k data = slice pos (amount + k) data) as Happ.
    { intros k. unfold slice. rewrite <- drop_drop. apply take_take_drop. }
    destruct (decide (pos + size <= length data)) as [Hin|Hout].
    + rewrite decide_True in IH by lia. destruct IH as (r' & -> & Hrep & Hs'); [reader_fields; lia|]. exists r'.
      rewrite <- app_assoc, Happ. replace (amount + (size - amount)) with size by lia.
      replace (pos + amount + (size - amount)) with (pos + size) in Hrep by lia. done.
    + rewrite decide_False in IH by lia. destruct IH as (r' & -> & He); [reader_fields; lia|]. exists r'.
      split; [|done]. rewrite <- app_assoc. unfold slice. rewrite <- drop_drop. by rewrite take_drop.
  - apply Nat.ltb_ge in Hb. pose proof (positioned_length _ _ _ _ (rep_at _ _ Hr)) as Hlen.
    destruct (decide (pos < length data)) as [Hlt|Hend].
    + destruct (refill_rep r pos sv Hr Hsv Hb Hlt) as (r' & -> & Hr' & Hs' & _ & Hoff & Hfd).
      apply IH; try done. rewrite Hfd. lia.
    + destruct (refill_end r pos Hr Hb) as (r' & -> & He); [lia|]. rewrite decide_False by lia.
      exists r'. split; [|done]. by rewrite drop_ge, app_nil_r by lia.
Qed.

Lemma read_rep size r pos sv :
  rep r pos -> rep_saved r sv ->
  if decide (pos + size <= length data) then
    exists r', read size r = Some (r', true, slice pos size data) /\ rep r' (pos + size) /\ rep_saved r' sv
  else exists r', read size r = Some (r', false, drop pos data) /\ read_error r' = true.
Proof. intros Hr Hsv. apply (read_loop_rep _ size [] r pos sv Hr Hsv). unfold read_fuel. lia. Qed.

(** [skip] is [read] without the data. *)
Lemma skip_loop_read fuel size acc r :
  skip_loop fuel size r = (fun x : reader * bool * list Z => x.1) <$> read_loop fuel size acc r.
Proof.
  revert size acc r. induction fuel as [|fuel IH]; intros size acc r; cbn [skip_loop read_loop]; destruct (size =? 0); try done.
  destruct (read_error r); [done|]. destruct (buffer_read_pos r <? length (read_buffer r)); [apply IH|].
  destruct (refill_buffer r) as [r' []]; [apply IH|done].
Qed.

Lemma skip_read size r : skip size r = (fun x : reader * bool * list Z => x.1) <$> read size r.
Proof. apply skip_loop_read. Qed.

Lemma at_end_rep r pos : rep r pos -> at_end r = (pos =? length data).
Proof.
  intros [Hfd Hok Heof Hat]. unfold at_end. rewrite Heof, Hfd. pose proof (positioned_length _ _ _ _ Hat).
  destruct (fd_offset r =? length (encode_blocks ds)) eqn:Ho; cbn [andb].
  - apply Nat.eqb_eq in Ho. rewrite Ho in Hat. pose proof (positioned_end _ _ _ Hat) as Heq.
    apply (f_equal length) in Heq. rewrite !length_drop in Heq. destruct Hat as (_ & _ & _ & _ & Hbp & _ & Hpos).
    destruct (Nat.eqb_spec (buffer_read_pos r) (length (read_buffer r))), (Nat.eqb_spec pos (length data)); lia.
  - symmetry. apply Nat.eqb_neq. apply Nat.eqb_neq in Ho. intros ->.
    destruct Hat as (ds1 & ds2 & Hds & Hoff & _ & Heq & _). rewrite (drop_ge data) in Heq by done.
    destruct ds2 as [|d ds2]; [rewrite app_nil_r in Hds; congruence|].
    rewrite Hds in Hfits. apply Forall_app in Hfits as [_ [[Hd _] _]%Forall_cons_1].
    apply app_eq_nil in Heq as [_ Heq]. cbn in Heq. destruct d; [cbn in Hd; lia|done].
Qed.

Lemma get_buffer_rep r pos sv :
  rep r pos -> rep_saved r sv ->
  exists r' l, get_buffer r = Some (r', Some l) /\ rep r' pos /\ rep_saved r' sv /\
    l `prefix_of` drop pos data /\ (l = [] <-> pos = length data).
Proof.
  intros Hr Hsv. pose proof (rep_ok _ _ Hr) as Hok. pose proof (rep_eof _ _ Hr) as Heof. unfold get_buffer. rewrite Hok.
  assert (forall r1, rep r1 pos -> drop (buffer_read_pos r1) (read_buffer r1) `prefix_of` drop pos data) as Hprefix.
  { intros r1 [_ _ _ (ds1 & ds2 & _ & _ & _ & <- & _)]. by eexists. }
  pose proof (at_end_rep r pos Hr) as Hend. unfold at_end in Hend.
  destruct (rep_at _ _ Hr) as (_ & _ & _ & _ & Hbp & _ & Hpos).
  destruct (length (read_buffer r) <=? buffer_read_pos r) eqn:Hb; cbn [andb].
  - apply Nat.leb_le in Hb. destruct (eof r) eqn:He; cbn [negb].
    + eexists _, _. split; [done|]. split; [done|]. split; [done|]. split; [by apply Hprefix|].
      rewrite drop_ge by done. split; [|done]. intros _. apply Nat.eqb_eq. rewrite <- Hend. cbn. apply Nat.eqb_eq. lia.
    + cbn in Hend. symmetry in Hend. apply Nat.eqb_neq in Hend.
      destruct (refill_rep r pos sv Hr Hsv Hb) as (r' & -> & Hr' & Hs' & Hlt & _); [lia|].
      rewrite (proj2 (Nat.ltb_lt _ _) Hlt). eexists _, _. split; [done|]. split; [done|]. split; [done|]. split; [by apply Hprefix|].
      split; [|done]. intros Hnil%(f_equal length). rewrite length_drop in Hnil. cbn in Hnil. lia.
  - apply Nat.leb_gt in Hb. eexists _, _. split; [done|]. split; [done|]. split; [done|]. split; [by apply Hprefix|].
    pose proof (positioned_length _ _ _ _ (rep_at _ _ Hr)). split; [|lia].
    intros Hnil%(f_equal length). rewrite length_drop in Hnil. cbn in Hnil. lia.
Qed.

(** ** Saved positions *)

Lemma save_rep r pos : rep r pos -> rep_saved r None -> exists r', save_state r = Some r' /\ rep r' pos /\ rep_saved r' (Some pos).
Proof.
  intros [Hfd Hok Heof Hat] Hsv. unfold save_state. cbn in Hsv. rewrite Hsv. eexists. split; [done|]. by split.
Qed.

Lemma discard_rep r pos q :
  rep r pos -> rep_saved r (Some q) -> exists r', discard_state r = Some r' /\ rep r' pos /\ rep_saved r' None.
Proof.
  intros [Hfd Hok Heof Hat] (Hs & _). unfold discard_state. rewrite Hs. eexists. split; [done|].
  reader_fields. by destruct (have_saved_buffer r).
Qed.

Lemma restore_rep r pos q :
  rep r pos -> rep_saved r (Some q) -> exists r', restore_state r = Some r' /\ rep r' q /\ rep_saved r' None.
Proof.
  intros [Hfd Hok Heof Hat] (Hs & Hle & Hsame & Hpos). unfold restore_state. rewrite Hs. eexists. split; [done|].
  pose proof (positioned_offset _ _ _ _ Hat) as Hoff. rewrite <- Hfd in Hoff.
  assert ((if saved_fd_offset r <? fd_offset r then false else eof r) = (saved_fd_offset r =? length (fd r))) as He.
  { destruct (Nat.ltb_spec (saved_fd_offset r) (fd_offset r)) as [Hlt|Hge]; [symmetry; apply Nat.eqb_neq; lia|].
    rewrite Heof. f_equal. lia. }
  destruct (have_saved_buffer r) eqn:Hb; destruct (saved_fd_offset r <? fd_offset r) eqn:Hlt; reader_fields; rewrite ?Hlt; reader_fields; rewrite ?Hb;
    (split; [split|]); done.
Qed.

Lemma rewind_rep r pos :
  ds <> [] -> rep r pos -> rep_saved r None -> exists r', rewind r = Some r' /\ rep r' 0 /\ rep_saved r' None.
Proof.
  intros Hne [Hfd Hok Heof Hat] Hs. unfold rewind. cbn in Hs. rewrite Hs. eexists. split; [done|]. split; [split|]; try done.
  - reader_fields. rewrite Hfd. destruct ds as [|d ds']; [done|]. rewrite encode_blocks_cons, length_app, length_encode_block.
    symmetry. apply Nat.eqb_neq. unfold header_size. lia.
  - exists [], ds. repeat split; try done; cbn; lia.
Qed.

(** ** The abstract reader *)

Inductive operation := OpRead (size : nat) | OpSkip (size : nat) | OpAtEnd | OpSave | OpRestore | OpDiscard | OpRewind.

Inductive output := OutBytes (l : list Z) | OutBool (b : bool) | OutNone.

(** An operation succeeds, fails at the end of the data, or is not allowed. *)
Inductive outcome (S : Type) := Next (s : S) (o : output) | Failed (o : output) | Refused.
#[global] Arguments Next {S}. #[global] Arguments Failed {S}. #[global] Arguments Refused {S}.

Record position := mkPosition { pos_of_reader : nat; pos_saved : option nat }.

Definition abstract_step (op : operation) (p : position) : outcome position :=
  let '(mkPosition pos sv) := p in
  match op, sv with
  | OpRead size, _ =>
      if decide (pos + size <= length data) then Next (mkPosition (pos + size) sv) (OutBytes (slice pos size data))
      else Failed (OutBytes (drop pos data))
  | OpSkip size, _ =>
      if decide (pos + size <= length data) then Next (mkPosition (pos + size) sv) OutNone else Failed OutNone
  | OpAtEnd, _ => Next p (OutBool (pos =? length data))
  | OpSave, None => Next (mkPosition pos (Some pos)) OutNone
  | OpRestore, Some q => Next (mkPosition q None) OutNone
  | OpDiscard, Some _ => Next (mkPosition pos None) OutNone
  | OpRewind, None => Next (mkPosition 0 None) OutNone
  | _, _ => Refused
  end.

Definition allowed (r : option reader) : outcome reader := match r with Some r => Next r OutNone | None => Refused end.

(** The same operations of CompressedReader.cc; [Failed] also has to leave [good] false. *)
Definition concrete_step (op : operation) (r : reader) : outcome reader :=
  match op with
  | OpRead size =>
      match read size r with
      | Some (r', true, l) => Next r' (OutBytes l)
      | Some (r', false, l) => if reader_good r' then Refused else Failed (OutBytes l)
      | None => Refused
      end
  | OpSkip size =>
      match skip size r with
      | Some (r', true) => Next r' OutNone
      | Some (r', false) => if reader_good r' then Refused else Failed OutNone
      | None => Refused
      end
  | OpAtEnd => Next r (OutBool (at_end r))
  | OpSave => allowed (save_state r)
  | OpRestore => allowed (restore_state r)
  | OpDiscard => allowed (discard_state r)
  | OpRewind => allowed (rewind r)
  end.

Definition stands_for (r : reader) (p : position) : Prop := rep r (pos_of_reader p) /\ rep_saved r (pos_saved p).

(** The outcomes agree. *)
Definition agrees (c : outcome reader) (a : outcome position) : Prop :=
  match c, a with
  | Next r o, Next p o' => o = o' /\ stands_for r p
  | Failed o, Failed o' => o = o'
  | Refused, Refused => True
  | _, _ => False
  end.

Lemma concrete_step_agrees op r p : ds <> [] -> stands_for r p -> agrees (concrete_step op r) (abstract_step op p).
Proof.
  intros Hne [Hr Hs]. destruct p as [pos sv]. cbn [pos_of_reader pos_saved] in *.
  destruct op as [size|size| | | | |]; cbn [concrete_step abstract_step].
  - pose proof (read_rep size r pos sv Hr Hs) as Hread. destruct (decide _).
    + destruct Hread as (r' & -> & ? & ?). done.
    + destruct Hread as (r' & -> & He). unfold reader_good. by rewrite He.
  - rewrite skip_read. pose proof (read_rep size r pos sv Hr Hs) as Hread. destruct (decide _).
    + destruct Hread as (r' & -> & ? & ?). done.
    + destruct Hread as (r' & -> & He). cbn. unfold reader_good. by rewrite He.
  - rewrite (at_end_rep r pos Hr). done.
  - destruct sv as [q|]; [unfold save_state; by rewrite (proj1 Hs)|].
    destruct (save_rep r pos Hr Hs) as (r' & -> & ? & ?). done.
  - destruct sv as [q|]; [|unfold restore_state; cbn in Hs; by rewrite Hs].
    destruct (restore_rep r pos q Hr Hs) as (r' & -> & ? & ?). done.
  - destruct sv as [q|]; [|unfold discard_state; cbn in Hs; by rewrite Hs].
    destruct (discard_rep r pos q Hr Hs) as (r' & -> & ? & ?). done.
  - destruct sv as [q|]; [unfold rewind; by rewrite (proj1 Hs)|].
    destruct (rewind_rep r pos Hne Hr Hs) as (r' & -> & ? & ?). done.
Qed.

(** The outputs of a sequence of operations, up to the first that fails or is not allowed. *)
Fixpoint outputs {S} (step : operation -> S -> outcome S) (ops : list operation) (s : S) : list output * bool :=
  match ops with
  | [] => ([], true)
  | op :: ops =>
      match step op s with
      | Next s o => let '(os, fine) := outputs step ops s in (o :: os, fine)
      | Failed o => ([o], true)
      | Refused => ([], false)
      end
  end.

Lemma outputs_agree ops r p :
  ds <> [] -> stands_for r p -> outputs concrete_step ops r = outputs abstract_step ops p.
Proof.
  intros Hne. revert r p. induction ops as [|op ops IH]; intros r p Hrp; [done|]. cbn [outputs].
  pose proof (concrete_step_agrees op r p Hne Hrp) as Ha.
  destruct (concrete_step op r) as [r' o|o|], (abstract_step op p) as [p' o'|o'|]; cbn in Ha; try done; [|by subst].
  destruct Ha as [-> Hrp']. by rewrite (IH r' p' Hrp').
Qed.

(** ** Sizes *)

Lemma uncompressed_loop_blocks ds1 ds2 fuel total :
  ds = ds1 ++ ds2 -> length ds2 < fuel ->
  uncompressed_loop fuel (length (encode_blocks ds1)) total (encode_blocks ds) = Some (total + length (concat ds2)).
Proof.
  revert ds1 fuel total. induction ds2 as [|d ds2 IH]; intros ds1 [|fuel] total Hds Hfuel; cbn [length] in *; try lia; cbn [uncompressed_loop].
  - rewrite app_nil_r in Hds. rewrite read_all_end by (unfold header_size; try rewrite Hds; lia). cbn. f_equal. lia.
  - assert (block_fits d) as (_ & Hf1 & Hf2).
    { rewrite Hds in Hfits. by apply Forall_app in Hfits as [_ [? _]%Forall_cons_1]. }
    assert (encode_blocks ds = encode_blocks ds1 ++ block_header (length (compress d)) (length d) ++ compress d ++ encode_blocks ds2) as Hfile.
    { rewrite Hds, encode_blocks_app, encode_blocks_cons. unfold encode_block. by rewrite <- !app_assoc. }
    rewrite Hfile, read_all_here by (rewrite ?length_block_header; done). rewrite decode_block_header by done. rewrite <- Hfile.
    assert (length (encode_blocks ds1) + header_size + length (compress d) = length (encode_blocks (ds1 ++ [d]))) as ->.
    { rewrite encode_blocks_app, length_app. cbn [encode_blocks map concat]. rewrite app_nil_r, length_encode_block. lia. }
    rewrite (IH (ds1 ++ [d])); [|by rewrite <- app_assoc|lia]. cbn [concat]. rewrite length_app. f_equal. lia.
Qed.

Lemma length_blocks_le (l : list (list Z)) : length l <= length (encode_blocks l).
Proof.
  induction l as [|d l IH]; [done|]. rewrite encode_blocks_cons, length_app, length_encode_block. cbn [length]. unfold header_size. lia.
Qed.

(** ** Values *)

Lemma get_value_rep n r pos sv v :
  rep r pos -> rep_saved r sv -> (0 <= v < 256 ^ Z.of_nat n)%Z -> put_value n v `prefix_of` drop pos data ->
  exists r', get_value n r = Some (r', v) /\ rep r' (pos + n) /\ rep_saved r' sv.
Proof.
  intros Hr Hs Hv [rest Hrest]. pose proof (f_equal length Hrest) as Hlen. unfold put_value in *.
  rewrite length_drop, length_app, length_le_bytes in Hlen.
  pose proof (read_rep n r pos sv Hr Hs) as Hread. destruct (rep_at _ _ Hr) as (_ & _ & _ & _ & _ & _ & Hpos).
  unfold get_value. destruct (decide (pos + n <= length data)) as [Hin|Hout].
  - destruct Hread as (r' & -> & ? & ?). exists r'. split; [|done].
    unfold slice. rewrite Hrest, take_app_length' by by rewrite length_le_bytes. by rewrite le_value_le_bytes.
  - assert (n = 0) as ->; [|lia]. lia.
Qed.

(** What is left after a value. *)
Lemma drop_prefix pos (l more : list Z) :
  l ++ more `prefix_of` drop pos data -> l `prefix_of` drop pos data /\ more `prefix_of` drop (pos + length l) data.
Proof.
  intros [rest Hrest]. rewrite <- app_assoc in Hrest. split; [by eexists|]. exists rest.
  rewrite <- drop_drop, Hrest. by rewrite drop_app_length'.
Qed.

Lemma get_string_rep s value fuel r pos sv :
  rep r pos -> rep_saved r sv -> Forall (fun b => 0 < b < 256)%Z s -> length s < fuel ->
  put_string s `prefix_of` drop pos data ->
  exists r', get_string fuel value r = Some (r', value ++ s) /\ rep r' (pos + length (put_string s)) /\ rep_saved r' sv.
Proof.
  revert value fuel r pos. induction s as [|b s IH]; intros value [|fuel] r pos Hr Hsv Hb Hfuel Hp; cbn [length] in *; try lia; cbn [get_string].
  - destruct (get_value_rep 1 r pos sv 0%Z Hr Hsv) as (r' & -> & Hr' & Hs'); [lia|done|]. exists r'. by rewrite app_nil_r.
  - apply Forall_cons_1 in Hb as [Hb Hs]. change (put_string (b :: s)) with ([b] ++ put_string s) in Hp.
    apply drop_prefix in Hp as [Hp1 Hp2].
    destruct (get_value_rep 1 r pos sv b Hr Hsv) as (r' & -> & Hr' & Hs'); [cbn; lia| |].
    { unfold put_value. cbn [le_bytes]. by rewrite Z.mod_small by lia. }
    rewrite (proj2 (Z.eqb_neq b 0)) by lia. destruct (IH (value ++ [b]) fuel r' (pos + 1)) as (r2 & -> & Hr2 & Hs2); try done; [lia|].
    exists r2. rewrite <- app_assoc. split; [done|]. split; [|done]. cbn [length put_string app]. by rewrite <- Nat.add_assoc in Hr2.
Qed.

Lemma get_values_rep n vs r pos sv :
  rep r pos -> rep_saved r sv -> Forall (fun v => 0 <= v < 256 ^ Z.of_nat n)%Z vs ->
  concat (map (put_value n) vs) `prefix_of` drop pos data ->
  exists r', get_values n (length vs) r = Some (r', vs) /\ rep r' (pos + n * length vs) /\ rep_saved r' sv.
Proof.
  revert r pos. induction vs as [|v vs IH]; intros r pos Hr Hs Hv Hp; cbn [length get_values map concat] in *.
  - exists r. split; [done|]. split; [|done]. by rewrite Nat.mul_0_r, Nat.add_0_r.
  - apply Forall_cons_1 in Hv as [Hv Hvs]. apply drop_prefix in Hp as [Hp1 Hp2]. unfold put_value at 1 in Hp2. rewrite length_le_bytes in Hp2.
    destruct (get_value_rep n r pos sv v Hr Hs Hv Hp1) as (r1 & -> & Hr1 & Hs1).
    destruct (IH r1 (pos + n) Hr1 Hs1 Hvs Hp2) as (r2 & -> & Hr2 & Hs2). exists r2. split; [done|]. split; [|done].
    replace (pos + n * S (length vs)) with (pos + n + n * length vs) by lia. done.
Qed.

End Spec.

(** ** Theorems *)

Section Theorems.
Context `{Codec}.

(** C13.  A `CompressedReader` of a file that is not empty is a position in its
    data with at most one saved position: every sequence of `read`, `skip`,
    `at_end`, `save_state`, `restore_state`, `discard_state` and `rewind` gives
    what these operations give on the data, across the borders of blocks; a read
    past the end gives what is left and fails, and operations are refused
    exactly where the assertions are. *)
Theorem reader_refines_position ds ops :
  ds <> [] -> Forall block_fits ds ->
  outputs concrete_step ops (open_reader (encode_blocks ds)) = outputs (abstract_step ds) ops (mkPosition 0 None).
Proof. intros Hne Hf. apply outputs_agree; [done|done|]. apply (rep_open ds). Qed.

(** `get_buffer` gives a beginning of the data at the position, empty only at
    the end, and does not move the position or the saved one. *)
Theorem get_buffer_peeks ds r pos sv :
  Forall block_fits ds -> rep ds r pos -> rep_saved ds r sv ->
  exists r' l, get_buffer r = Some (r', Some l) /\ rep ds r' pos /\ rep_saved ds r' sv /\
    l `prefix_of` drop pos (concat ds) /\ (l = [] <-> pos = length (concat ds)).
Proof. intros Hf. by apply get_buffer_rep. Qed.

(** `uncompressed_bytes` is the size of the data. *)
Theorem uncompressed_bytes_total ds :
  Forall block_fits ds -> uncompressed_bytes (open_reader (encode_blocks ds)) = Some (length (concat ds)).
Proof.
  intros Hf. apply (uncompressed_loop_blocks ds Hf [] ds _ 0); [done|]. cbn. pose proof (length_blocks_le ds). lia.
Qed.

(** `operator>>` reads back the vector `operator<<` wrote. *)
Theorem vector_round_trip ds r pos sv n vs :
  Forall block_fits ds -> rep ds r pos -> rep_saved ds r sv -> Forall (fun v => 0 <= v < 256 ^ Z.of_nat n)%Z vs ->
  (Z.of_nat (length vs) < 2 ^ 64)%Z -> put_vector n vs `prefix_of` drop pos (concat ds) ->
  exists r', get_vector n r = Some (r', vs) /\ rep ds r' (pos + 8 + n * length vs) /\ rep_saved ds r' sv.
Proof.
  intros Hf Hr Hs Hv Hlen Hp. unfold put_vector in Hp. apply drop_prefix in Hp as [Hp1 Hp2].
  unfold put_value at 1 in Hp2. rewrite length_le_bytes in Hp2.
  destruct (get_value_rep ds Hf 8 r pos sv (Z.of_nat (length vs)) Hr Hs) as (r1 & Hget & Hr1 & Hs1); [|done|].
  { change (256 ^ Z.of_nat 8)%Z with (2 ^ 64)%Z. lia. }
  unfold get_vector. rewrite Hget, Nat2Z.id. by apply get_values_rep.
Qed.

(** `operator>>` of a string reads the string `operator<<` wrote and appends it
    to what the string had. *)
Theorem string_appended ds r pos sv s value :
  Forall block_fits ds -> rep ds r pos -> rep_saved ds r sv -> Forall (fun b => 0 < b < 256)%Z s ->
  put_string s `prefix_of` drop pos (concat ds) ->
  exists r', get_string (S (length s)) value r = Some (r', value ++ s) /\ rep ds r' (pos + length (put_string s)) /\ rep_saved ds r' sv.
Proof. intros Hf Hr Hs Hb Hp. apply get_string_rep; try done. lia. Qed.

(** After `rewind` a reader of an empty file is no longer at its end:
    `get_buffer` then tries to read a block and fails. *)
Theorem rewind_empty_not_at_end :
  at_end (open_reader []) = true /\ exists r, rewind (open_reader []) = Some r /\ at_end r = false /\ get_buffer r = Some (with_read_error true r, None).
Proof. split; [done|]. eexists. split; [done|]. split; [done|]. reflexivity. Qed.

End Theorems.
