(* ===== verification/CompressedFiles.v ===== *)
(** * Compressed trace files: from writing to reading

    What a writer has closed a reader reads back, and inputs for the theorems of the trace
    files, with a codec that only adds a byte. *)

From stdpp Require Import base tactics list numbers.
From S2P Require Import Prelude SyscallParams CompressedWriter CompressedWriterInv CompressedWriterSpec CompressedReader CompressedReaderSpec.
Local Open Scope nat_scope.

Section RoundTrip.
Context `{Codec}.

(** The blocks of a writer's file have sizes that fit. *)
Lemma reachable_fits block n w ds s :
  reachable_writer block n s -> writer_inv w ds s -> fits32 block ->
  (forall d, length d <= block -> fits32 (length (compress d))) -> Forall block_fits ds.
Proof.
  intros Hr Hi Hb Hc. pose proof (inv_lengths _ _ _ Hi) as Hl. rewrite (reachable_block block n s Hr) in Hl.
  eapply Forall_impl; [|exact Hl]. cbn. intros d [Hd Hle]. split; [done|]. split; [|by apply Hc]. unfold fits32 in *. lia.
Qed.

(** C5.  What is written to a compressed trace file is what is read back: for
    every schedule of the producer and the compression threads and however
    `write` splits what a thread hands to `write_all`, when `close` has returned
    and the writer is good, a reader of the file gets exactly the data of the
    calls of `write`, in order, and is then at the end.  The blocks and their
    compressed forms have to fit the 32-bit sizes of the header, and a
    compressed block the output buffer of a thread, which is 1.1 times the block
    size. *)
Theorem trace_file_round_trip block n es s :
  0 < block -> 0 < n -> fits32 block -> (forall d, length d <= block -> fits32 (length (compress d))) -> compress_fits block ->
  run es (new_writer block n) = Some s -> producer s = PClosed -> good s = true ->
  exists r, read (length (submitted es (new_writer block n))) (open_reader (file s)) =
    Some (r, true, submitted es (new_writer block n)) /\ at_end r = true.
Proof.
  intros Hb Hn H32 Hc32 Hfit Hrun Hc Hg. pose proof (run_reachable block n es _ s (reachable_new block n) Hrun) as Hr.
  destruct (writer_reachable_inv block n s Hb Hr) as (w & ds & Hi).
  pose proof (reachable_fits block n w ds s Hr Hi H32 Hc32) as Hf.
  assert (concat ds = submitted es (new_writer block n)) as <- by by eapply closed_data.
  rewrite (closed_file block n w ds s) by done. destruct (rep_open ds) as [Hrep Hsv].
  pose proof (read_rep ds Hf (length (concat ds)) _ 0 None Hrep Hsv) as Hread. rewrite decide_True in Hread by lia.
  destruct Hread as (r & -> & Hrep' & _). exists r. unfold slice. rewrite drop_0, take_ge by done. split; [done|].
  rewrite (at_end_rep ds Hf r _ Hrep'). apply Nat.eqb_refl.
Qed.

End RoundTrip.

(** ** Inputs *)

(** A codec that puts a byte in front. *)
Definition untag (c : list Z) (n : nat) : option (list Z) :=
  match c with [] => None | _ :: l => if length l =? n then Some l else None end.

#[refine] Instance tagged : Codec := {| compress l := 1%Z :: l; decompress := untag |}.
Proof.
  - intros l. cbn [untag]. by rewrite Nat.eqb_refl.
  - done.
Defined.

Lemma tagged_fits d : length d <= 10 -> fits32 (length (compress d)).
Proof. unfold fits32. cbn. lia. Qed.

Lemma tagged_compress_fits : compress_fits 10.
Proof. intros d Hd. change (outputbuf_len 10) with 11. cbn. lia. Qed.

(** A schedule: the producer first, then the threads in turn, with writes of at most nine bytes. *)
Fixpoint first_thread (js : list nat) (s : writer) : option (event * writer) :=
  match js with
  | [] => None
  | j :: js => match step (EThread j true 9) s with Some s' => Some (EThread j true 9, s') | None => first_thread js s end
  end.

Fixpoint schedule (fuel : nat) (calls : list call) (s : writer) : list event :=
  match fuel with
  | O => []
  | S fuel =>
      let c := match calls with c :: _ => c | [] => CallClose end in
      match step (EProducer c) s with
      | Some s' => EProducer c :: schedule fuel (match producer s with PIdle => tail calls | _ => calls end) s'
      | None =>
          match first_thread (if Nat.even fuel then [0; 1] else [1; 0]) s with
          | Some (e, s') => e :: schedule fuel calls s'
          | None => []
          end
      end
  end.

(** Fifty-five bytes, then five, with blocks of ten bytes, a buffer of forty and two threads. *)
Definition sample_data : list Z := map Z.of_nat (seq 1 60).

Definition sample_events : list event :=
  schedule 200 [CallWrite (take 55 sample_data); CallWrite (drop 55 sample_data)] (new_writer 10 2).

Definition sample (k : nat) : writer := default (new_writer 10 2) (run (take k sample_events) (new_writer 10 2)).

Lemma sample_reachable k :
  run (take k sample_events) (new_writer 10 2) = Some (sample k) -> reachable_writer 10 2 (sample k).
Proof. apply run_reachable, reachable_new. Qed.

Lemma trace_file_prefix_witness :
  exists ds d k, file (sample 22) = encode_blocks ds ++ take k (encode_block d) /\ concat (ds ++ [d]) `prefix_of` stream (sample 22) /\
    Forall (fun d => 0 < length d <= 10) ds /\ length d <= 10 /\ k < length (encode_block d).
Proof.
  apply (trace_file_prefix 10 2 (sample 22)); [lia|exact tagged_compress_fits|]. apply sample_reachable. vm_compute. reflexivity.
Defined.

Lemma sample_submitted : submitted sample_events (new_writer 10 2) = sample_data.
Proof. vm_compute. reflexivity. Qed.

Lemma closed_file_complete_witness :
  exists ds, file (sample 59) = encode_blocks ds /\ concat ds = sample_data.
Proof.
  rewrite <- sample_submitted.
  apply (closed_file_complete 10 2 sample_events (sample 59)); [lia|lia|exact tagged_compress_fits|vm_compute; reflexivity..].
Defined.

(** The producer copies ten more bytes over the first block, while the second waits for its turn to be written. *)
Lemma blocks_not_overwritten_witness :
  block_data (sample 16) 10 10 = block_data (sample 15) 10 10 /\ block_data (sample 15) 10 10 = slice 10 10 (stream (sample 15)).
Proof.
  apply (blocks_not_overwritten 10 2 CallClose (sample 15) (sample 16) 0
           (TWaitTurn true 10 10 [1; 11; 12; 13; 14; 15; 16; 17; 18; 19; 20]%Z) 10 10);
    [lia|apply sample_reachable; vm_compute; reflexivity|vm_compute; reflexivity..].
Defined.

Lemma writer_never_stuck_witness :
  (exists s', step (EProducer CallClose) (sample 11) = Some s') \/
  exists i, forall m, 0 < m -> exists s', step (EThread i true m) (sample 11) = Some s'.
Proof.
  apply (writer_never_stuck 10 2 (sample 11) CallClose); [lia|lia|apply sample_reachable; vm_compute; reflexivity|].
  vm_compute. discriminate.
Defined.

(** A spurious wakeup of the producer, the rest of the first call, the second one, and then calls that write nothing. *)
Definition later_events : list event := [ESpurious None; EProducer CallClose] ++ drop 22 (take 30 sample_events) ++ replicate 2600 (EProducer (CallWrite [])).


Lemma trace_file_round_trip_witness :
  exists r, read 60 (open_reader (file (sample 59))) = Some (r, true, sample_data) /\ at_end r = true.
Proof.
  rewrite <- sample_submitted. change 60 with (length (submitted sample_events (new_writer 10 2))).
  apply (trace_file_round_trip 10 2 sample_events (sample 59));
    [lia|lia|unfold fits32; lia|exact tagged_fits|exact tagged_compress_fits|vm_compute; reflexivity..].
Defined.

Definition sample_blocks : list (list Z) := [[1; 2]; [3; 4; 5]; [6]]%Z.

Lemma sample_blocks_fit : Forall block_fits sample_blocks.
Proof. repeat constructor. Qed.

Definition sample_operations : list operation :=
  [OpRead 1; OpSave; OpRead 4; OpAtEnd; OpRestore; OpSkip 2; OpRead 3; OpAtEnd; OpRewind; OpSave; OpRead 2; OpDiscard; OpRead 7].

Lemma reader_refines_position_witness :
  outputs concrete_step sample_operations (open_reader (encode_blocks sample_blocks)) =
  ([OutBytes [1]; OutNone; OutBytes [2; 3; 4; 5]; OutBool false; OutNone; OutNone; OutBytes [4; 5; 6]; OutBool true; OutNone;
    OutNone; OutBytes [1; 2]; OutNone; OutBytes [3; 4; 5; 6]], true)%Z.
Proof.
  rewrite (reader_refines_position sample_blocks sample_operations); [vm_compute; reflexivity|done|exact sample_blocks_fit].
Defined.
