(* ===== verification/Signals.v ===== *)
(** * Signals of recorded tasks

    WaitStatus.cc, and the signal state of RecordTask.cc: the tables of handlers, which tasks
    share, the signals rr has taken from the kernel and not delivered yet, and the stops and
    SIGCHLDs rr emulates for tasks that trace each other.

    A task is its tid in [rtasks]; a pointer to a task that is gone is [BadAccess].  A table of
    handlers is a place in [handler_tables], so that tasks share it as [shared_ptr] lets them.
    A pointer into the deque of stashed signals is the number of the signal: references into a
    deque survive insertions at its ends.  The signals rr sends are logged in [sent].  The
    kernel and the session are the class [SignalEnv]. *)

From stdpp Require Import base tactics list numbers gmap.
From S2P Require Import Prelude KernelAbi TracerMonad.
Local Open Scope Z_scope.

(** ** WaitStatus *)

Definition SIGTRAP : Z := 5.
Definition SIGKILL : Z := 9.
Definition SIGSTKFLT : Z := 16.
Definition SIGCHLD : Z := 17.
Definition SIGCONT : Z := 18.
Definition SIGSTOP : Z := 19.
Definition SIGTSTP : Z := 20.
Definition SIGTTIN : Z := 21.
Definition SIGTTOU : Z := 22.
Definition SIGPWR : Z := 30.
(** What the C library calls the first real-time signal. *)
Definition SIGRTMIN : Z := 34.
Definition NSIG : Z := 65.
Definition PTRACE_EVENT_STOP : Z := 128.
Definition PTRACE_O_TRACESYSGOOD : Z := 1.

(** The macros of sys/wait.h; [WIFSIGNALED] goes through a signed char. *)
Definition WTERMSIG (status : Z) : Z := Z.land status 0x7f.
Definition WEXITSTATUS (status : Z) : Z := Z.shiftr (Z.land status 0xff00) 8.
Definition WSTOPSIG (status : Z) : Z := WEXITSTATUS status.
Definition WIFEXITED (status : Z) : bool := WTERMSIG status =? 0.
Definition WIFSTOPPED (status : Z) : bool := Z.land status 0xff =? 0x7f.
Definition schar (z : Z) : Z := (z + 128) mod 256 - 128.
Definition WIFSIGNALED (status : Z) : bool := 0 <? Z.shiftr (schar (WTERMSIG status + 1)) 1.

Inductive WaitStatusType := EXIT | FATAL_SIGNAL | SIGNAL_STOP | GROUP_STOP_STATUS | SYSCALL_STOP | PTRACE_EVENT.

Definition event_of (status : Z) : Z := Z.land (Z.shiftr status 16) 0xff.

Definition exit_code (status : Z) : Z := if WIFEXITED status then WEXITSTATUS status else -1.

Definition fatal_sig (status : Z) : Z := if WIFSIGNALED status then WTERMSIG status else 0.

(** A zero signal is taken for SIGSTOP. *)
Definition no_high_bit (sig : Z) : Z :=
  let sig := Z.land sig (Z.lnot 0x80) in if sig =? 0 then SIGSTOP else sig.

Definition stop_sig (status : Z) : Z :=
  if negb (WIFSTOPPED status) || negb (event_of status =? 0) then 0
  else
    let sig := WSTOPSIG status in
    if sig =? Z.lor SIGTRAP 0x80 then 0 else no_high_bit sig.

Definition group_stop (status : Z) : Z :=
  if negb (WIFSTOPPED status) || negb (event_of status =? PTRACE_EVENT_STOP) then 0
  else no_high_bit (WSTOPSIG status).

Definition ptrace_event (status : Z) : Z :=
  let event := event_of status in if event =? PTRACE_EVENT_STOP then 0 else event.

Definition is_syscall (status : Z) : bool :=
  if negb (WIFSTOPPED status) || negb (ptrace_event status =? 0) then false
  else WSTOPSIG status =? Z.lor SIGTRAP 0x80.

Definition ptrace_signal (status : Z) : Z := if WIFSTOPPED status then Z.land (WSTOPSIG status) 0x7f else 0.

Definition type (status : Z) : result WaitStatusType :=
  if 0 <=? exit_code status then Ok EXIT
  else if 0 <? fatal_sig status then Ok FATAL_SIGNAL
  else if 0 <? stop_sig status then Ok SIGNAL_STOP
  else if 0 <? group_stop status then Ok GROUP_STOP_STATUS
  else if is_syscall status then Ok SYSCALL_STOP
  else if 0 <? ptrace_event status then Ok PTRACE_EVENT
  else Err Fatal.

Definition for_exit_code (code : Z) : result Z :=
  if (0 <=? code) && (code <? 0x100) then Ok (Z.shiftl code 8) else Err FailedAssert.

Definition for_fatal_sig (sig : Z) : result Z :=
  if (1 <=? sig) && (sig <? 0x80) then Ok sig else Err FailedAssert.

Definition for_stop_sig (sig : Z) : result Z :=
  if (1 <=? sig) && (sig <? 0x80) then Ok (Z.lor (Z.shiftl sig 8) 0x7f) else Err FailedAssert.

(** [t->emulated_ptrace_seized] is all it uses of the task. *)
Definition for_group_sig (sig : Z) (seized : bool) : result Z :=
  if (1 <=? sig) && (sig <? 0x80) then
    let code := Z.lor (Z.shiftl sig 8) 0x7f in
    Ok (if seized then Z.lor code (Z.shiftl PTRACE_EVENT_STOP 16) else code)
  else Err FailedAssert.

Definition for_syscall (options : Z) : Z :=
  let code := Z.lor (Z.shiftl SIGTRAP 8) 0x7f in
  if negb (Z.land options PTRACE_O_TRACESYSGOOD =? 0) then Z.lor code (Z.shiftl 0x80 8) else code.

Definition for_ptrace_event (event : Z) : result Z :=
  if (1 <=? event) && (event <? 0x100) then Ok (Z.lor (Z.lor (Z.shiftl event 16) (Z.shiftl SIGTRAP 8)) 0x7f) else Err FailedAssert.

(** ** Handlers *)

Definition SA_SIGINFO : Z := 4.
Definition SA_RESETHAND : Z := 0x80000000.

Inductive SignalDisposition := SIGNAL_DEFAULT | SIGNAL_IGNORE | SIGNAL_HANDLER.
#[export] Instance disposition_eq_dec : EqDecision SignalDisposition.
Proof. solve_decision. Defined.

(** [kernel_sigaction]: the fields rr looks at, and all of its bytes. *)
Record sigaction := mkSigaction { ksa_handler : Z; ksa_flags : Z; ksa_bytes : list Z }.

Record Sighandler := mkSighandler { k_sa_handler : Z; sa : list Z; resethand : bool; takes_siginfo : bool }.

Definition new_sighandler : Sighandler := mkSighandler 0 [] false false.

Definition init_arch (ksa : sigaction) : Sighandler :=
  mkSighandler (ksa_handler ksa) (ksa_bytes ksa)
    (negb (Z.land (ksa_flags ksa) SA_RESETHAND =? 0)) (negb (Z.land (ksa_flags ksa) SA_SIGINFO =? 0)).

Definition reset_handler (a : SupportedArch) : Sighandler :=
  init_arch (mkSigaction 0 0 (replicate (Z.to_nat (sizeof (kernel_sigaction a))) 0)).

Definition disposition (h : Sighandler) : SignalDisposition :=
  if k_sa_handler h =? 0 then SIGNAL_DEFAULT else if k_sa_handler h =? 1 then SIGNAL_IGNORE else SIGNAL_HANDLER.

Definition get_user_handler (h : Sighandler) : Z :=
  match disposition h with SIGNAL_HANDLER => k_sa_handler h | _ => 0 end.

Definition reset_user_handlers (a : SupportedArch) (hs : list Sighandler) : list Sighandler :=
  map (fun h => match disposition h with SIGNAL_HANDLER => reset_handler a | _ => h end) hs.

Inductive signal_action := DUMP_CORE | TERMINATE | CONTINUE | STOP | IGNORE.

Definition default_action (sig : Z) : result signal_action :=
  if (32 <=? sig) && (sig <=? 64) then Ok TERMINATE
  else if sig =? 1 then Ok TERMINATE (* HUP *)
  else if sig =? 2 then Ok TERMINATE (* INT *)
  else if sig =? 3 then Ok DUMP_CORE (* QUIT *)
  else if sig =? 4 then Ok DUMP_CORE (* ILL *)
  else if sig =? 6 then Ok DUMP_CORE (* ABRT *)
  else if sig =? 8 then Ok DUMP_CORE (* FPE *)
  else if sig =? SIGKILL then Ok TERMINATE
  else if sig =? 11 then Ok DUMP_CORE (* SEGV *)
  else if sig =? 13 then Ok TERMINATE (* PIPE *)
  else if sig =? 14 then Ok TERMINATE (* ALRM *)
  else if sig =? 15 then Ok TERMINATE (* TERM *)
  else if sig =? 10 then Ok TERMINATE (* USR1 *)
  else if sig =? 12 then Ok TERMINATE (* USR2 *)
  else if sig =? SIGCHLD then Ok IGNORE
  else if sig =? SIGCONT then Ok CONTINUE
  else if sig =? SIGSTOP then Ok STOP
  else if sig =? SIGTSTP then Ok STOP
  else if sig =? SIGTTIN then Ok STOP
  else if sig =? SIGTTOU then Ok STOP
  else if sig =? 7 then Ok DUMP_CORE (* BUS *)
  else if sig =? 27 then Ok TERMINATE (* PROF *)
  else if sig =? 31 then Ok DUMP_CORE (* SYS *)
  else if sig =? SIGTRAP then Ok DUMP_CORE
  else if sig =? 23 then Ok IGNORE (* URG *)
  else if sig =? 26 then Ok TERMINATE (* VTALRM *)
  else if sig =? 24 then Ok DUMP_CORE (* XCPU *)
  else if sig =? 25 then Ok DUMP_CORE (* XFSZ *)
  else if sig =? SIGSTKFLT then Ok TERMINATE
  else if sig =? 29 then Ok TERMINATE (* IO *)
  else if sig =? SIGPWR then Ok TERMINATE
  else if sig =? 28 then Ok IGNORE (* WINCH *)
  else Err Fatal.

(** ** The state *)

(** [siginfo_t]: the value of [_rt] and the status of [_sigchld] are the same four bytes. *)
Record siginfo := mkSiginfo { si_signo : Z; si_code : Z; si_pid : Z; si_uid : Z; si_value : Z }.

Definition zero_siginfo : siginfo := mkSiginfo 0 0 0 0 0.

Inductive SignalDeterministic := NONDETERMINISTIC_SIG | DETERMINISTIC_SIG.
#[export] Instance deterministic_eq_dec : EqDecision SignalDeterministic.
Proof. solve_decision. Defined.

Record StashedSignal := mkStashed { stash_id : nat; stash_info : siginfo; stash_deterministic : SignalDeterministic }.

Inductive EmulatedStopType := NOT_STOPPED | GROUP_STOP | SIGNAL_DELIVERY_STOP.
#[export] Instance stop_type_eq_dec : EqDecision EmulatedStopType.
Proof. solve_decision. Defined.

Inductive WaitType := WAIT_TYPE_NONE | WAIT_TYPE_ANY | WAIT_TYPE_SAME_PGID | WAIT_TYPE_PGID | WAIT_TYPE_PID.

Record rtask := mkTask {
  tgid : Z;
  stashed_signals : list StashedSignal;
  stashed_signals_blocking_more_signals : bool;
  break_at_syscallbuf_traced_syscalls : bool;
  break_at_syscallbuf_untraced_syscalls : bool;
  break_at_syscallbuf_final_instruction : bool;
  sighandlers : nat;
  emulated_ptracer : option Z;
  emulated_ptrace_tracees : list Z;
  emulated_stop_type : EmulatedStopType;
  emulated_stop_code : Z;
  emulated_stop_pending : bool;
  emulated_ptrace_SIGCHLD_pending : bool;
  emulated_SIGCHLD_pending : bool;
  emulated_ptrace_seized : bool;
  in_wait_type : WaitType;
  in_wait_pid : Z;
  saved_ptrace_siginfos : list siginfo;
  blocked_sigs_dirty : bool;
  blocked_sigs : Z }.

Definition put_stashed_signals v (s : rtask) : rtask :=
  mkTask (tgid s) v (stashed_signals_blocking_more_signals s)
    (break_at_syscallbuf_traced_syscalls s) (break_at_syscallbuf_untraced_syscalls
    s) (break_at_syscallbuf_final_instruction s) (sighandlers s) (emulated_ptracer
    s) (emulated_ptrace_tracees s) (emulated_stop_type s) (emulated_stop_code s)
    (emulated_stop_pending s) (emulated_ptrace_SIGCHLD_pending s)
    (emulated_SIGCHLD_pending s) (emulated_ptrace_seized s) (in_wait_type s)
    (in_wait_pid s) (saved_ptrace_siginfos s) (blocked_sigs_dirty s) (blocked_sigs
    s).
Definition put_stashed_signals_blocking_more_signals v (s : rtask) : rtask :=
  mkTask (tgid s) (stashed_signals s) v (break_at_syscallbuf_traced_syscalls s)
    (break_at_syscallbuf_untraced_syscalls s) (break_at_syscallbuf_final_instruction
    s) (sighandlers s) (emulated_ptracer s) (emulated_ptrace_tracees s)
    (emulated_stop_type s) (emulated_stop_code s) (emulated_stop_pending s)
    (emulated_ptrace_SIGCHLD_pending s) (emulated_SIGCHLD_pending s)
    (emulated_ptrace_seized s) (in_wait_type s) (in_wait_pid s)
    (saved_ptrace_siginfos s) (blocked_sigs_dirty s) (blocked_sigs s).
Definition put_break_at_syscallbuf_traced_syscalls v (s : rtask) : rtask :=
  mkTask (tgid s) (stashed_signals s) (stashed_signals_blocking_more_signals s) v
    (break_at_syscallbuf_untraced_syscalls s) (break_at_syscallbuf_final_instruction
    s) (sighandlers s) (emulated_ptracer s) (emulated_ptrace_tracees s)
    (emulated_stop_type s) (emulated_stop_code s) (emulated_stop_pending s)
    (emulated_ptrace_SIGCHLD_pending s) (emulated_SIGCHLD_pending s)
    (emulated_ptrace_seized s) (in_wait_type s) (in_wait_pid s)
    (saved_ptrace_siginfos s) (blocked_sigs_dirty s) (blocked_sigs s).
Definition put_break_at_syscallbuf_untraced_syscalls v (s : rtask) : rtask :=
  mkTask (tgid s) (stashed_signals s) (stashed_signals_blocking_more_signals s)
    (break_at_syscallbuf_traced_syscalls s) v (break_at_syscallbuf_final_instruction
    s) (sighandlers s) (emulated_ptracer s) (emulated_ptrace_tracees s)
    (emulated_stop_type s) (emulated_stop_code s) (emulated_stop_pending s)
    (emulated_ptrace_SIGCHLD_pending s) (emulated_SIGCHLD_pending s)
    (emulated_ptrace_seized s) (in_wait_type s) (in_wait_pid s)
    (saved_ptrace_siginfos s) (blocked_sigs_dirty s) (blocked_sigs s).
Definition put_break_at_syscallbuf_final_instruction v (s : rtask) : rtask :=
  mkTask (tgid s) (stashed_signals s) (stashed_signals_blocking_more_signals s)
    (break_at_syscallbuf_traced_syscalls s) (break_at_syscallbuf_untraced_syscalls
    s) v (sighandlers s) (emulated_ptracer s) (emulated_ptrace_tracees s)
    (emulated_stop_type s) (emulated_stop_code s) (emulated_stop_pending s)
    (emulated_ptrace_SIGCHLD_pending s) (emulated_SIGCHLD_pending s)
    (emulated_ptrace_seized s) (in_wait_type s) (in_wait_pid s)
    (saved_ptrace_siginfos s) (blocked_sigs_dirty s) (blocked_sigs s).
Definition put_sighandlers v (s : rtask) : rtask :=
  mkTask (tgid s) (stashed_signals s) (stashed_signals_blocking_more_signals s)
    (break_at_syscallbuf_traced_syscalls s) (break_at_syscallbuf_untraced_syscalls
    s) (break_at_syscallbuf_final_instruction s) v (emulated_ptracer s)
    (emulated_ptrace_tracees s) (emulated_stop_type s) (emulated_stop_code s)
    (emulated_stop_pending s) (emulated_ptrace_SIGCHLD_pending s)
    (emulated_SIGCHLD_pending s) (emulated_ptrace_seized s) (in_wait_type s)
    (in_wait_pid s) (saved_ptrace_siginfos s) (blocked_sigs_dirty s) (blocked_sigs
    s).
Definition put_emulated_ptracer v (s : rtask) : rtask :=
  mkTask (tgid s) (stashed_signals s) (stashed_signals_blocking_more_signals s)
    (break_at_syscallbuf_traced_syscalls s) (break_at_syscallbuf_untraced_syscalls
    s) (break_at_syscallbuf_final_instruction s) (sighandlers s) v
    (emulated_ptrace_tracees s) (emulated_stop_type s) (emulated_stop_code s)
    (emulated_stop_pending s) (emulated_ptrace_SIGCHLD_pending s)
    (emulated_SIGCHLD_pending s) (emulated_ptrace_seized s) (in_wait_type s)
    (in_wait_pid s) (saved_ptrace_siginfos s) (blocked_sigs_dirty s) (blocked_sigs
    s).
Definition put_emulated_ptrace_tracees v (s : rtask) : rtask :=
  mkTask (tgid s) (stashed_signals s) (stashed_signals_blocking_more_signals s)
    (break_at_syscallbuf_traced_syscalls s) (break_at_syscallbuf_untraced_syscalls
    s) (break_at_syscallbuf_final_instruction s) (sighandlers s) (emulated_ptracer
    s) v (emulated_stop_type s) (emulated_stop_code s) (emulated_stop_pending s)
    (emulated_ptrace_SIGCHLD_pending s) (emulated_SIGCHLD_pending s)
    (emulated_ptrace_seized s) (in_wait_type s) (in_wait_pid s)
    (saved_ptrace_siginfos s) (blocked_sigs_dirty s) (blocked_sigs s).
Definition put_emulated_stop_type v (s : rtask) : rtask :=
  mkTask (tgid s) (stashed_signals s) (stashed_signals_blocking_more_signals s)
    (break_at_syscallbuf_traced_syscalls s) (break_at_syscallbuf_untraced_syscalls
    s) (break_at_syscallbuf_final_instruction s) (sighandlers s) (emulated_ptracer
    s) (emulated_ptrace_tracees s) v (emulated_stop_code s) (emulated_stop_pending
    s) (emulated_ptrace_SIGCHLD_pending s) (emulated_SIGCHLD_pending s)
    (emulated_ptrace_seized s) (in_wait_type s) (in_wait_pid s)
    (saved_ptrace_siginfos s) (blocked_sigs_dirty s) (blocked_sigs s).
Definition put_emulated_stop_code v (s : rtask) : rtask :=
  mkTask (tgid s) (stashed_signals s) (stashed_signals_blocking_more_signals s)
    (break_at_syscallbuf_traced_syscalls s) (break_at_syscallbuf_untraced_syscalls
    s) (break_at_syscallbuf_final_instruction s) (sighandlers s) (emulated_ptracer
    s) (emulated_ptrace_tracees s) (emulated_stop_type s) v (emulated_stop_pending
    s) (emulated_ptrace_SIGCHLD_pending s) (emulated_SIGCHLD_pending s)
    (emulated_ptrace_seized s) (in_wait_type s) (in_wait_pid s)
    (saved_ptrace_siginfos s) (blocked_sigs_dirty s) (blocked_sigs s).
Definition put_emulated_stop_pending v (s : rtask) : rtask :=
  mkTask (tgid s) (stashed_signals s) (stashed_signals_blocking_more_signals s)
    (break_at_syscallbuf_traced_syscalls s) (break_at_syscallbuf_untraced_syscalls
    s) (break_at_syscallbuf_final_instruction s) (sighandlers s) (emulated_ptracer
    s) (emulated_ptrace_tracees s) (emulated_stop_type s) (emulated_stop_code s) v
    (emulated_ptrace_SIGCHLD_pending s) (emulated_SIGCHLD_pending s)
    (emulated_ptrace_seized s) (in_wait_type s) (in_wait_pid s)
    (saved_ptrace_siginfos s) (blocked_sigs_dirty s) (blocked_sigs s).
Definition put_emulated_ptrace_SIGCHLD_pending v (s : rtask) : rtask :=
  mkTask (tgid s) (stashed_signals s) (stashed_signals_blocking_more_signals s)
    (break_at_syscallbuf_traced_syscalls s) (break_at_syscallbuf_untraced_syscalls
    s) (break_at_syscallbuf_final_instruction s) (sighandlers s) (emulated_ptracer
    s) (emulated_ptrace_tracees s) (emulated_stop_type s) (emulated_stop_code s)
    (emulated_stop_pending s) v (emulated_SIGCHLD_pending s) (emulated_ptrace_seized
    s) (in_wait_type s) (in_wait_pid s) (saved_ptrace_siginfos s)
    (blocked_sigs_dirty s) (blocked_sigs s).
Definition put_emulated_SIGCHLD_pending v (s : rtask) : rtask :=
  mkTask (tgid s) (stashed_signals s) (stashed_signals_blocking_more_signals s)
    (break_at_syscallbuf_traced_syscalls s) (break_at_syscallbuf_untraced_syscalls
    s) (break_at_syscallbuf_final_instruction s) (sighandlers s) (emulated_ptracer
    s) (emulated_ptrace_tracees s) (emulated_stop_type s) (emulated_stop_code s)
    (emulated_stop_pending s) (emulated_ptrace_SIGCHLD_pending s) v
    (emulated_ptrace_seized s) (in_wait_type s) (in_wait_pid s)
    (saved_ptrace_siginfos s) (blocked_sigs_dirty s) (blocked_sigs s).
Definition put_saved_ptrace_siginfos v (s : rtask) : rtask :=
  mkTask (tgid s) (stashed_signals s) (stashed_signals_blocking_more_signals s)
    (break_at_syscallbuf_traced_syscalls s) (break_at_syscallbuf_untraced_syscalls
    s) (break_at_syscallbuf_final_instruction s) (sighandlers s) (emulated_ptracer
    s) (emulated_ptrace_tracees s) (emulated_stop_type s) (emulated_stop_code s)
    (emulated_stop_pending s) (emulated_ptrace_SIGCHLD_pending s)
    (emulated_SIGCHLD_pending s) (emulated_ptrace_seized s) (in_wait_type s)
    (in_wait_pid s) v (blocked_sigs_dirty s) (blocked_sigs s).
Definition put_blocked_sigs_dirty v (s : rtask) : rtask :=
  mkTask (tgid s) (stashed_signals s) (stashed_signals_blocking_more_signals s)
    (break_at_syscallbuf_traced_syscalls s) (break_at_syscallbuf_untraced_syscalls
    s) (break_at_syscallbuf_final_instruction s) (sighandlers s) (emulated_ptracer
    s) (emulated_ptrace_tracees s) (emulated_stop_type s) (emulated_stop_code s)
    (emulated_stop_pending s) (emulated_ptrace_SIGCHLD_pending s)
    (emulated_SIGCHLD_pending s) (emulated_ptrace_seized s) (in_wait_type s)
    (in_wait_pid s) (saved_ptrace_siginfos s) v (blocked_sigs s).
Definition put_blocked_sigs v (s : rtask) : rtask :=
  mkTask (tgid s) (stashed_signals s) (stashed_signals_blocking_more_signals s)
    (break_at_syscallbuf_traced_syscalls s) (break_at_syscallbuf_untraced_syscalls
    s) (break_at_syscallbuf_final_instruction s) (sighandlers s) (emulated_ptracer
    s) (emulated_ptrace_tracees s) (emulated_stop_type s) (emulated_stop_code s)
    (emulated_stop_pending s) (emulated_ptrace_SIGCHLD_pending s)
    (emulated_SIGCHLD_pending s) (emulated_ptrace_seized s) (in_wait_type s)
    (in_wait_pid s) (saved_ptrace_siginfos s) (blocked_sigs_dirty s) v.

(** A thread group; the sets of tasks and children are in the order in which they are walked. *)
Record tgroup := mkGroup { task_set : list Z; tg_parent : option Z; tg_children : list Z; received_sigframe_SIGSEGV : bool }.

Inductive sent_signal := ToThread (tgid tid sig : Z) (si : siginfo) | ToProcess (tgid sig : Z) (si : siginfo).

Record sig_state := mkSignals {
  rtasks : gmap Z rtask;
  groups : gmap Z tgroup;
  handler_tables : list (list Sighandler);
  sent : list sent_signal;
  next_stash : nat }.

Definition put_rtasks v (s : sig_state) : sig_state :=
  mkSignals v (groups s) (handler_tables s) (sent s) (next_stash s).
Definition put_groups v (s : sig_state) : sig_state :=
  mkSignals (rtasks s) v (handler_tables s) (sent s) (next_stash s).
Definition put_handler_tables v (s : sig_state) : sig_state :=
  mkSignals (rtasks s) (groups s) v (sent s) (next_stash s).
Definition put_sent v (s : sig_state) : sig_state :=
  mkSignals (rtasks s) (groups s) (handler_tables s) v (next_stash s).
Definition put_next_stash v (s : sig_state) : sig_state :=
  mkSignals (rtasks s) (groups s) (handler_tables s) (sent s) v.

(** The kernel: process groups, parents, the signal masks it has, the user, and whether, after
    the signals that were sent before, it queues another one: [rt_sigqueueinfo] and
    [rt_tgsigqueueinfo] fail if the receiver is gone or has too many signals queued. *)
Class SignalEnv := {
  sigqueueinfo : list sent_signal -> sent_signal -> bool;
  getpgid : Z -> Z;
  get_ppid : Z -> Z;
  read_sigmask_from_process : Z -> Z;
  getuid : Z }.

Definition G := TM sig_state.

(** ** Tasks and handlers *)

Section Signals.
Context {E : SignalEnv}.

Definition deref {A} (o : option A) : G A := match o with Some a => mret a | None => fail BadAccess end.

Definition the_task (t : Z) : G rtask := s ← ask rtasks; deref (s !! t).
Definition the_group (g : Z) : G tgroup := s ← ask groups; deref (s !! g).

Definition update_task (t : Z) (f : rtask -> rtask) : G unit :=
  change (fun s => put_rtasks (alter f t (rtasks s)) s).

(** [sighandlers->get(sig)] of a task. *)
Definition get_handler (t sig : Z) : G Sighandler :=
  r ← the_task t; ASSERT ((0 <? sig) && (sig <? NSIG));;
  hs ← ask handler_tables; table ← deref (hs !! sighandlers r); deref (table !! Z.to_nat sig).

Definition set_handler (t sig : Z) (h : Sighandler) : G unit :=
  r ← the_task t;
  change (fun s => put_handler_tables (alter (fun table => <[Z.to_nat sig := h]> table) (sighandlers r) (handler_tables s)) s).

(** A new table that a task owns. *)
Definition new_table (t : Z) (table : list Sighandler) : G unit :=
  n ← ask (fun s => length (handler_tables s));
  change (fun s => put_handler_tables (handler_tables s ++ [table]) s);;
  update_task t (put_sighandlers n).

Definition table_of (t : Z) : G (list Sighandler) :=
  r ← the_task t; hs ← ask handler_tables; deref (hs !! sighandlers r).

(** [post_wait_clone]: the child shares the table of its parent, or gets a copy. *)
Definition clone_sighandlers (child parent : Z) (share : bool) : G unit :=
  if share then r ← the_task parent; update_task child (put_sighandlers (sighandlers r))
  else table ← table_of parent; new_table child table.

(** [post_exec]: a copy in which the handlers of the program are gone. *)
Definition exec_sighandlers (t : Z) (a : SupportedArch) : G unit :=
  table ← table_of t; new_table t (reset_user_handlers a table).

(** [update_sigaction]: [new] is the structure the second argument points to, if it is not null. *)
Definition update_sigaction (t sig syscall_result : Z) (new : option sigaction) : G unit :=
  match new with
  | Some ksa => if syscall_result =? 0 then h ← get_handler t sig; set_handler t sig (init_arch ksa) else mret tt
  | None => mret tt
  end.

Definition set_sig_handler_default (t sig : Z) (a : SupportedArch) : G unit :=
  h ← get_handler t sig; set_handler t sig (reset_handler a).

(** ** Which signals do what *)

Definition is_unstoppable_signal (sig : Z) : bool := (sig =? SIGSTOP) || (sig =? SIGKILL).

Definition get_sigmask (t : Z) : G Z :=
  r ← the_task t;
  if blocked_sigs_dirty r then
    update_task t (fun r => put_blocked_sigs_dirty false (put_blocked_sigs (read_sigmask_from_process t) r));;
    mret (read_sigmask_from_process t)
  else mret (blocked_sigs r).

Definition is_sig_blocked (t sig : Z) : G bool :=
  if is_unstoppable_signal sig then mret false
  else m ← get_sigmask t; mret (Z.testbit m (sig - 1)).

Definition lift {A} (r : result A) : G A := match r with Ok a => mret a | Err w => fail w end.

Definition is_sig_ignored (t sig : Z) : G bool :=
  if is_unstoppable_signal sig then mret false
  else
    h ← get_handler t sig;
    match disposition h with
    | SIGNAL_IGNORE => mret true
    | SIGNAL_DEFAULT => a ← lift (default_action sig); mret (match a with IGNORE => true | _ => false end)
    | SIGNAL_HANDLER => mret false
    end.

Definition signal_has_user_handler (t sig : Z) : G bool :=
  h ← get_handler t sig; mret (bool_decide (disposition h = SIGNAL_HANDLER)).

Definition is_fatal_signal (t sig : Z) (deterministic : SignalDeterministic) : G bool :=
  r ← the_task t; g ← the_group (tgid r);
  if received_sigframe_SIGSEGV g then mret true
  else
    a ← lift (default_action sig);
    match a with
    | DUMP_CORE | TERMINATE =>
        ignored ← is_sig_ignored t sig;
        if ignored : bool then mret (bool_decide (deterministic = DETERMINISTIC_SIG))
        else user ← signal_has_user_handler t sig; mret (negb user)
    | _ => mret false
    end.

Inductive SignalResolvedDisposition := DISPOSITION_FATAL | DISPOSITION_USER_HANDLER | DISPOSITION_IGNORED.

Definition sig_resolved_disposition (t sig : Z) (deterministic : SignalDeterministic) : G SignalResolvedDisposition :=
  fatal ← is_fatal_signal t sig deterministic;
  if fatal : bool then mret DISPOSITION_FATAL
  else
    user ← signal_has_user_handler t sig;
    if user : bool then
      blocked ← is_sig_blocked t sig;
      mret (if blocked : bool then DISPOSITION_IGNORED else DISPOSITION_USER_HANDLER)
    else mret DISPOSITION_IGNORED.

(** [is_deterministic_signal]; [trapped] is that a breakpoint or a watchpoint is among the trap reasons. *)
Definition is_deterministic_signal (si : siginfo) (trapped : bool) : SignalDeterministic :=
  let sig := si_signo si in
  if (sig =? 4) || (sig =? 7) || (sig =? 8) || (sig =? 11) then
    if 0 <? si_code si then DETERMINISTIC_SIG else NONDETERMINISTIC_SIG
  else if (sig =? SIGTRAP) && trapped then DETERMINISTIC_SIG
  else NONDETERMINISTIC_SIG.

(** ** Stashed signals *)

Definition SIGCHLD_SYNTHETIC : Z := 0xbeadf00d - 2 ^ 32.
Definition SYNTHETIC_TIME_SLICE_SI_CODE : Z := -9999.
Definition SI_QUEUE : Z := -1.
Definition TIME_SLICE_SIGNAL : Z := SIGSTKFLT.
Definition DESCHED_SIGNAL : Z := SIGPWR.

Definition is_synthetic_SIGCHLD (si : siginfo) : bool := (si_signo si =? SIGCHLD) && (si_value si =? SIGCHLD_SYNTHETIC).

Definition has_sig (sig : Z) (l : list StashedSignal) : bool := existsb (fun x => si_signo (stash_info x) =? sig) l.

(** Stop at the next system call while there are stashed signals. *)
Definition set_breaks (b : bool) (r : rtask) : rtask :=
  put_stashed_signals_blocking_more_signals b (put_break_at_syscallbuf_final_instruction b
    (put_break_at_syscallbuf_traced_syscalls b (put_break_at_syscallbuf_untraced_syscalls b r))).

(** Signals that are not real-time coalesce.  [stash_sig]: the status the task stopped with and the siginfo of its signal. *)
Definition stash_sig (t status : Z) (si : siginfo) (trapped : bool) : G unit :=
  let sig := stop_sig status in
  ASSERT (negb (sig =? 0));; ASSERT (negb (sig =? DESCHED_SIGNAL));;
  r ← the_task t;
  if (sig <? SIGRTMIN) && has_sig sig (stashed_signals r) then mret tt
  else
    n ← ask next_stash;
    change (put_next_stash (S n));;
    update_task t (fun r => set_breaks true
      (put_stashed_signals (stashed_signals r ++ [mkStashed n si (is_deterministic_signal si trapped)]) r)).

Definition stash_synthetic_sig (t : Z) (si : siginfo) (d : SignalDeterministic) : G unit :=
  let sig := si_signo si in
  ASSERT (negb (sig =? 0));; ASSERT (negb (sig =? DESCHED_SIGNAL));;
  r ← the_task t;
  if (sig <? SIGRTMIN) && has_sig sig (stashed_signals r) then mret tt
  else
    n ← ask next_stash;
    change (put_next_stash (S n));;
    update_task t (fun r => set_breaks true (put_stashed_signals (mkStashed n si d :: stashed_signals r) r)).

Definition has_stashed_sig (t sig : Z) : G bool := r ← the_task t; mret (has_sig sig (stashed_signals r)).

Definition stashed_sig_not_synthetic_SIGCHLD (t : Z) : G (option siginfo) :=
  r ← the_task t; mret (stash_info <$> List.find (fun x => negb (is_synthetic_SIGCHLD (stash_info x))) (stashed_signals r)).

(** The first signal that is not a synthetic SIGCHLD, or else the first. *)
Definition peek_stashed (l : list StashedSignal) : option StashedSignal :=
  match List.find (fun x => negb (is_synthetic_SIGCHLD (stash_info x))) l with Some x => Some x | None => head l end.

Definition peek_stashed_sig_to_deliver (t : Z) : G (option StashedSignal) :=
  r ← the_task t; mret (peek_stashed (stashed_signals r)).

(** Erases the element with the number; the assertion is that there is one. *)
Fixpoint erase_stashed (id : nat) (l : list StashedSignal) : option (list StashedSignal) :=
  match l with
  | [] => None
  | x :: l => if decide (stash_id x = id) then Some l else (cons x) <$> erase_stashed id l
  end.

Definition pop_stash_sig (t : Z) (id : nat) : G unit :=
  r ← the_task t;
  match erase_stashed id (stashed_signals r) with
  | Some l => update_task t (put_stashed_signals l)
  | None => fail FailedAssert
  end.

Definition stashed_signal_processed (t : Z) : G unit :=
  update_task t (fun r => set_breaks (negb (length (stashed_signals r) =? 0)%nat) r).

(** What [handle_syscallbuf_breakpoint] does when the task may go on with an untraced system call. *)
Definition disable_untraced_breakpoints (t : Z) : G unit := update_task t (put_break_at_syscallbuf_untraced_syscalls false).

(** ** Waiting for a task *)

Definition waits (self t tgid_t : Z) (as_tid : bool) : G bool :=
  r ← the_task self;
  mret match in_wait_type r with
       | WAIT_TYPE_NONE => false
       | WAIT_TYPE_ANY => true
       | WAIT_TYPE_SAME_PGID => getpgid tgid_t =? getpgid (tgid r)
       | WAIT_TYPE_PGID => getpgid tgid_t =? in_wait_pid r
       | WAIT_TYPE_PID => (if as_tid then t else tgid_t) =? in_wait_pid r
       end.

Definition is_waiting_for_ptrace (self t : Z) : G bool :=
  rt ← the_task t; r ← the_task self;
  match emulated_ptracer rt with
  | None => mret false
  | Some p =>
      rp ← the_task p;
      if tgid rp =? tgid r then waits self t (tgid rt) true else mret false
  end.

Definition is_waiting_for (self t : Z) : G bool :=
  rt ← the_task t; r ← the_task self; g ← the_group (tgid rt);
  if bool_decide (tg_parent g = Some (tgid r)) then waits self t (tgid rt) false else mret false.

Fixpoint find_m (f : Z -> G bool) (l : list Z) : G (option Z) :=
  match l with
  | [] => mret None
  | x :: l => b ← f x; if b : bool then mret (Some x) else find_m f l
  end.

(** The first loop of [send_synthetic_SIGCHLD_if_necessary]. *)
Fixpoint scan_tracees (threads : list Z) (l : list Z) (need : bool) : G (bool * option Z) :=
  match l with
  | [] => mret (need, None)
  | tracee :: l =>
      r ← the_task tracee;
      if emulated_ptrace_SIGCHLD_pending r then
        wake ← find_m (fun t => is_waiting_for_ptrace t tracee) threads;
        match wake with Some t => mret (true, Some t) | None => scan_tracees threads l true end
      else scan_tracees threads l need
  end.

(** The inner loop of the second: [break] only leaves the tasks of one child process. *)
Fixpoint scan_children (threads : list Z) (l : list Z) (need : bool) (wake : option Z) : G (bool * option Z) :=
  match l with
  | [] => mret (need, wake)
  | child :: l =>
      r ← the_task child;
      if emulated_SIGCHLD_pending r then
        found ← find_m (fun t => is_waiting_for t child) threads;
        match (match found with Some t => Some t | None => wake end) with
        | Some t => mret (true, Some t)
        | None => scan_children threads l true None
        end
      else scan_children threads l need wake
  end.

Fixpoint scan_groups (threads : list Z) (gs : list Z) (need : bool) (wake : option Z) : G (bool * option Z) :=
  match gs with
  | [] => mret (need, wake)
  | g :: gs =>
      group ← the_group g;
      r ← scan_children threads (task_set group) need wake;
      scan_groups threads gs r.1 r.2
  end.

(** The system call that queues a signal, and [ASSERT(this, ret == 0)] after it. *)
Definition send (x : sent_signal) : G unit :=
  before ← ask sent;
  ASSERT (sigqueueinfo before x);;
  change (fun s => put_sent (sent s ++ [x]) s).

Definition synthetic_siginfo (code : Z) : siginfo := mkSiginfo 0 code 0 0 SIGCHLD_SYNTHETIC.

Definition send_synthetic_SIGCHLD_if_necessary (self : Z) : G unit :=
  r ← the_task self; g ← the_group (tgid r);
  first ← scan_tracees (task_set g) (emulated_ptrace_tracees r) false;
  x ← (if first.1 : bool then mret first else scan_groups (task_set g) (tg_children g) false None);
  if x.1 : bool then
    match x.2 with
    | Some wake =>
        w ← the_task wake;
        send (ToThread (tgid w) wake SIGCHLD (synthetic_siginfo SI_QUEUE));;
        blocked ← is_sig_blocked wake SIGCHLD;
        if blocked : bool then send (ToThread (tgid w) wake TIME_SLICE_SIGNAL (synthetic_siginfo SYNTHETIC_TIME_SLICE_SI_CODE))
        else mret tt
    | None => send (ToProcess (tgid r) SIGCHLD (synthetic_siginfo SI_QUEUE))
    end
  else mret tt.

(** ** The siginfo of a SIGCHLD *)

Definition CLD_TRAPPED : Z := 4.
Definition CLD_STOPPED : Z := 5.

(** [set_siginfo_for_waited_task] of a task. *)
Definition set_siginfo_for_waited_task (r : rtask) (si : siginfo) : siginfo :=
  match emulated_stop_type r with
  | GROUP_STOP => mkSiginfo (si_signo si) CLD_STOPPED (tgid r) getuid (stop_sig (emulated_stop_code r))
  | _ => mkSiginfo (si_signo si) CLD_TRAPPED (tgid r) getuid (ptrace_signal (emulated_stop_code r))
  end.

(** [si->si_value.sival_int = 0]. *)
Definition clear_value (si : siginfo) : siginfo := mkSiginfo (si_signo si) (si_code si) (si_pid si) (si_uid si) 0.

Definition find_task (f : rtask -> bool) : list Z -> G (option Z) := find_m (fun t => r ← the_task t; mret (f r)).

Fixpoint find_in_groups (f : rtask -> bool) (gs : list Z) : G (option Z) :=
  match gs with
  | [] => mret None
  | g :: gs =>
      group ← the_group g; x ← find_task f (task_set group);
      match x with Some t => mret (Some t) | None => find_in_groups f gs end
  end.

(** [restart] is [is_syscall_restart()]; the answer is whether the signal can be delivered now. *)
Definition set_siginfo_for_synthetic_SIGCHLD (self : Z) (restart : bool) (si : siginfo) : G (bool * siginfo) :=
  if negb (is_synthetic_SIGCHLD si) then mret (true, si)
  else if restart then mret (false, si)
  else
    r ← the_task self;
    x ← find_task emulated_ptrace_SIGCHLD_pending (emulated_ptrace_tracees r);
    match x with
    | Some tracee =>
        update_task tracee (put_emulated_ptrace_SIGCHLD_pending false);;
        rt ← the_task tracee; mret (true, clear_value (set_siginfo_for_waited_task rt si))
    | None =>
        g ← the_group (tgid r);
        y ← find_in_groups emulated_SIGCHLD_pending (tg_children g);
        match y with
        | Some child =>
            update_task child (put_emulated_SIGCHLD_pending false);;
            rc ← the_task child; mret (true, clear_value (set_siginfo_for_waited_task rc si))
        | None => mret (true, si)
        end
    end.

(** ** Saved siginfos of emulated stops *)

Fixpoint erase_first (sig : Z) (l : list siginfo) : list siginfo :=
  match l with [] => [] | x :: l => if si_signo x =? sig then l else x :: erase_first sig l end.

Definition save_ptrace_signal_siginfo (t : Z) (si : siginfo) : G unit :=
  update_task t (fun r => put_saved_ptrace_siginfos (erase_first (si_signo si) (saved_ptrace_siginfos r) ++ [si]) r).

Definition get_saved_ptrace_siginfo (t : Z) : G siginfo :=
  r ← the_task t;
  let sig := ptrace_signal (emulated_stop_code r) in
  ASSERT (0 <? sig);;
  match List.find (fun x => si_signo x =? sig) (saved_ptrace_siginfos r) with Some si => mret si | None => fail FailedAssert end.

Definition take_ptrace_signal_siginfo (t sig : Z) : G siginfo :=
  r ← the_task t;
  match List.find (fun x => si_signo x =? sig) (saved_ptrace_siginfos r) with
  | Some si => update_task t (fun r => put_saved_ptrace_siginfos (erase_first sig (saved_ptrace_siginfos r)) r);; mret si
  | None => mret (mkSiginfo sig 0 0 0 0)
  end.

(** ** Emulated stops *)

Definition set_emulated_ptracer (t : Z) (tracer : option Z) : G unit :=
  r ← the_task t;
  match tracer with
  | Some p =>
      ASSERT (bool_decide (emulated_ptracer r = None));;
      update_task t (put_emulated_ptracer (Some p));;
      the_task p ≫= fun _ => update_task p (fun q => put_emulated_ptrace_tracees (emulated_ptrace_tracees q ++ [t]) q)
  | None =>
      match emulated_ptracer r with
      | None => fail FailedAssert
      | Some p =>
          ASSERT (bool_decide (emulated_stop_type r <> SIGNAL_DELIVERY_STOP));;
          update_task p (fun q => put_emulated_ptrace_tracees (List.filter (fun x => negb (x =? t)) (emulated_ptrace_tracees q)) q);;
          update_task t (put_emulated_ptracer None)
      end
  end.

Definition force_emulate_ptrace_stop (t status : Z) : G unit :=
  update_task t (fun r => put_emulated_stop_type (if group_stop status =? 0 then SIGNAL_DELIVERY_STOP else GROUP_STOP)
    (put_emulated_stop_code status (put_emulated_stop_pending true (put_emulated_ptrace_SIGCHLD_pending true r))));;
  r ← the_task t; p ← deref (emulated_ptracer r); send_synthetic_SIGCHLD_if_necessary p.

Definition emulate_ptrace_stop (t status : Z) (si : option siginfo) (code : Z) : G bool :=
  r ← the_task t;
  ASSERT (bool_decide (emulated_stop_type r = NOT_STOPPED));;
  match emulated_ptracer r with
  | None => mret false
  | Some _ =>
      (match si with
       | Some si => ASSERT (ptrace_signal status =? si_signo si);; save_ptrace_signal_siginfo t si
       | None =>
           let si_code := if negb (ptrace_event status =? 0) || is_syscall status then Z.shiftr status 8 else code in
           save_ptrace_signal_siginfo t (mkSiginfo (ptrace_signal status) si_code 0 0 0)
       end);;
      force_emulate_ptrace_stop t status;; mret true
  end.

Definition apply_group_stop (sig t : Z) : G unit :=
  r ← the_task t;
  if bool_decide (emulated_stop_type r = NOT_STOPPED) then
    status ← lift (for_group_sig sig (emulated_ptrace_seized r));
    stopped ← emulate_ptrace_stop t status None 0;
    if stopped : bool then mret tt
    else
      update_task t (fun r => put_emulated_stop_type GROUP_STOP (put_emulated_stop_code status
        (put_emulated_stop_pending true (put_emulated_SIGCHLD_pending true r))));;
      parent ← ask (fun s => rtasks s !! get_ppid t);
      match parent with Some _ => send_synthetic_SIGCHLD_if_necessary (get_ppid t) | None => mret tt end
  else mret tt.

Fixpoint for_all (f : Z -> G unit) (l : list Z) : G unit :=
  match l with [] => mret tt | x :: l => f x;; for_all f l end.

Definition emulate_SIGCONT (t : Z) : G unit :=
  r ← the_task t; g ← the_group (tgid r);
  for_all (fun x => the_task x ≫= fun _ =>
    update_task x (fun r => put_emulated_stop_type NOT_STOPPED (put_emulated_stop_pending false r))) (task_set g).

(** [signal_delivered]. *)
Definition signal_delivered (t sig : Z) (a : SupportedArch) : G unit :=
  h ← get_handler t sig;
  (if resethand h then set_handler t sig (reset_handler a) else mret tt);;
  ignored ← is_sig_ignored t sig;
  (if ignored : bool then mret tt
   else
     (* [h] is a reference, so that it is the handler after the reset *)
     h ← get_handler t sig;
     r ← the_task t; g ← the_group (tgid r);
     if (sig =? SIGTSTP) || (sig =? SIGTTIN) || (sig =? SIGTTOU) then
       match disposition h with SIGNAL_HANDLER => mret tt | _ => for_all (apply_group_stop sig) (task_set g) end
     else if sig =? SIGSTOP then for_all (apply_group_stop sig) (task_set g)
     else if sig =? SIGCONT then emulate_SIGCONT t
     else mret tt);;
  send_synthetic_SIGCHLD_if_necessary t.

End Signals.
