(* ===== verification/SignalsSpec.v ===== *)
(** * Signals of recorded tasks: what holds

    The encodings of WaitStatus.cc are read back as what they were made of.  The stashes of the
    tasks stay in order.  A stop signal stops every task of the process and tells who has to know. *)

From Stdlib Require Import String.
From stdpp Require Import base tactics list numbers gmap.
From S2P Require Import Prelude KernelAbi TracerMonad Signals.
Local Open Scope Z_scope.

(** ** WaitStatus *)

(** All a status says. *)
Definition decode (status : Z) : result WaitStatusType * Z * Z * Z * Z * bool * Z * Z :=
  (type status, exit_code status, fatal_sig status, stop_sig status, group_stop status, is_syscall status,
   ptrace_event status, ptrace_signal status).

#[local] Instance wait_type_eq_dec : EqDecision WaitStatusType.
Proof. solve_decision. Defined.
#[local] Instance result_eq_dec {A} `{EqDecision A} : EqDecision (result A).
Proof. solve_decision. Defined.

(** Checking a property of the numbers of an interval. *)
Lemma check_range (P : Z -> bool) lo n :
  forallb P (seqZ lo n) = true -> forall z, lo <= z < lo + n -> P z = true.
Proof. intros Hall z Hz. rewrite forallb_forall in Hall. apply Hall. apply list_elem_of_In, elem_of_seqZ. lia. Qed.

Definition decodes (s : result Z) (v : result WaitStatusType * Z * Z * Z * Z * bool * Z * Z) : bool :=
  match s with Ok s => bool_decide (decode s = v) | Err _ => false end.

Lemma decodes_spec s v : decodes s v = true -> exists c, s = Ok c /\ decode c = v.
Proof. destruct s as [c|]; cbn; [|done]. intros Hd%bool_decide_eq_true. by exists c. Qed.

Lemma outside lo hi z : ~ lo <= z < hi -> ((lo <=? z) && (z <? hi)) = false.
Proof. intros Hz. apply andb_false_iff. rewrite Z.leb_gt, Z.ltb_ge. lia. Qed.

(** C38.  What each wait status that `WaitStatus` builds is read back as, by all
    eight of its readers: exit codes, fatal signals 1 to 126, stop signals,
    group stops of seized tasks, system call stops with PTRACE_O_TRACESYSGOOD
    and ptrace events other than 128 as what they were built from and as nothing
    else; a group stop of a task that is not seized and a system call stop
    without the option as the stop signal, or SIGTRAP, the kernel reports then;
    the two values that the assertions let through and that collide with another
    encoding, fatal signal 127 and event 128, as a SIGSTOP and as a group stop
    with SIGTRAP.  Every other value fails the assertion of its constructor, in
    the debug build that has it. *)
Theorem wait_status_round_trip :
  (forall code, 0 <= code < 256 -> exists s, for_exit_code code = Ok s /\ decode s = (Ok EXIT, code, 0, 0, 0, false, 0, 0)) /\
  (forall sig, 1 <= sig < 127 -> exists s, for_fatal_sig sig = Ok s /\ decode s = (Ok FATAL_SIGNAL, -1, sig, 0, 0, false, 0, 0)) /\
  (forall sig, 1 <= sig < 128 -> exists s, for_stop_sig sig = Ok s /\ decode s = (Ok SIGNAL_STOP, -1, 0, sig, 0, false, 0, sig)) /\
  (forall sig, 1 <= sig < 128 -> exists s, for_group_sig sig true = Ok s /\ decode s = (Ok GROUP_STOP_STATUS, -1, 0, 0, sig, false, 0, sig)) /\
  (forall sig, for_group_sig sig false = for_stop_sig sig) /\
  (forall options, decode (for_syscall options) =
     if Z.testbit options 0 then (Ok SYSCALL_STOP, -1, 0, 0, 0, true, 0, SIGTRAP)
     else (Ok SIGNAL_STOP, -1, 0, SIGTRAP, 0, false, 0, SIGTRAP)) /\
  (forall event, 1 <= event < 256 -> event <> PTRACE_EVENT_STOP ->
     exists s, for_ptrace_event event = Ok s /\ decode s = (Ok PTRACE_EVENT, -1, 0, 0, 0, false, event, SIGTRAP)) /\
  (exists s, for_fatal_sig 127 = Ok s /\ decode s = (Ok SIGNAL_STOP, -1, 0, SIGSTOP, 0, false, 0, 0)) /\
  (exists s, for_ptrace_event PTRACE_EVENT_STOP = Ok s /\ decode s = (Ok GROUP_STOP_STATUS, -1, 0, 0, SIGTRAP, false, 0, SIGTRAP)) /\
  (forall code, ~ 0 <= code < 256 -> for_exit_code code = Err FailedAssert) /\
  (forall sig seized, ~ 1 <= sig < 128 ->
     for_fatal_sig sig = Err FailedAssert /\ for_stop_sig sig = Err FailedAssert /\ for_group_sig sig seized = Err FailedAssert) /\
  (forall event, ~ 1 <= event < 256 -> for_ptrace_event event = Err FailedAssert).
Proof.
  split; [|split; [|split; [|split; [|split; [|split; [|split; [|split; [|split; [|split; [|split]]]]]]]]]].
  - intros code Hc. apply decodes_spec. revert code Hc.
    apply (check_range (fun code => decodes (for_exit_code code) (Ok EXIT, code, 0, 0, 0, false, 0, 0)) 0 256). vm_compute. reflexivity.
  - intros sig Hs. apply decodes_spec. revert sig Hs.
    apply (check_range (fun sig => decodes (for_fatal_sig sig) (Ok FATAL_SIGNAL, -1, sig, 0, 0, false, 0, 0)) 1 126). vm_compute. reflexivity.
  - intros sig Hs. apply decodes_spec. revert sig Hs.
    apply (check_range (fun sig => decodes (for_stop_sig sig) (Ok SIGNAL_STOP, -1, 0, sig, 0, false, 0, sig)) 1 127). vm_compute. reflexivity.
  - intros sig Hs. apply decodes_spec. revert sig Hs.
    apply (check_range (fun sig => decodes (for_group_sig sig true) (Ok GROUP_STOP_STATUS, -1, 0, 0, sig, false, 0, sig)) 1 127). vm_compute. reflexivity.
  - done.
  - intros options. unfold for_syscall, PTRACE_O_TRACESYSGOOD. change 1 with (Z.ones 1) at 1. rewrite Z.land_ones by lia.
    change (2 ^ 1) with 2. rewrite <- Z.bit0_mod. destruct (Z.testbit options 0); vm_compute; reflexivity.
  - intros event He Hne. apply decodes_spec.
    pose proof (check_range (fun event => (event =? PTRACE_EVENT_STOP) || decodes (for_ptrace_event event) (Ok PTRACE_EVENT, -1, 0, 0, 0, false, event, SIGTRAP)) 1 255) as Hall.
    cbv beta in Hall. specialize (Hall ltac:(vm_compute; reflexivity) event ltac:(lia)).
    by rewrite (proj2 (Z.eqb_neq _ _) Hne) in Hall.
  - eexists. split; [reflexivity|]. vm_compute. reflexivity.
  - eexists. split; [reflexivity|]. vm_compute. reflexivity.
  - intros code Hc. unfold for_exit_code. by rewrite (outside 0 256).
  - intros sig seized Hs. unfold for_fatal_sig, for_stop_sig, for_group_sig. by rewrite (outside 1 128).
  - intros event He. unfold for_ptrace_event. by rewrite (outside 1 256).
Qed.

Lemma filter_none {A} (f : A -> bool) l : Forall (fun y => f y = false) l -> List.filter f l = [].
Proof. induction 1 as [|y l Hy _ IH]; [done|]. cbn. by rewrite Hy. Qed.

Section State.
Context {E : SignalEnv}.

Lemma the_task_ok t s r : rtasks s !! t = Some r -> the_task t s = (Ok r, s).
Proof. intros Ht. unfold the_task, mbind, TM_bind, ask. by rewrite Ht. Qed.

Lemma the_group_ok k s g : groups s !! k = Some g -> the_group k s = (Ok g, s).
Proof. intros Hg. unfold the_group, mbind, TM_bind, ask. by rewrite Hg. Qed.

Lemma update_task_ok t f s r :
  rtasks s !! t = Some r -> update_task t f s = (Ok tt, put_rtasks (<[t := f r]> (rtasks s)) s).
Proof.
  intros Ht. unfold update_task, change. do 2 f_equal. apply map_eq. intros u. destruct (decide (t = u)) as [<-|Hne].
  - by rewrite lookup_alter_eq, lookup_insert_eq, Ht.
  - by rewrite lookup_alter_ne, lookup_insert_ne.
Qed.

Lemma the_task_inv t s r s' : the_task t s = (Ok r, s') -> rtasks s !! t = Some r /\ s' = s.
Proof. unfold the_task, mbind, TM_bind, ask. destruct (rtasks s !! t); [|done]. by intros [= -> ->]. Qed.

(** ** Adding to the stash *)

(** Further signals are blocked, and the task breaks at its next traced system call and when it leaves the system call
    buffer.  The break at untraced system calls is not among these: it is off once the task was let through one. *)
Definition breaks_set (r : rtask) : Prop :=
  stashed_signals_blocking_more_signals r = true /\ break_at_syscallbuf_final_instruction r = true /\
  break_at_syscallbuf_traced_syscalls r = true.

(** The stash of a task: signals with numbers of their own, none of them the signal rr deschedules with, at most one of each
    that is not real-time; as long as there is one, the task breaks. *)
Record stash_ok (next : nat) (r : rtask) : Prop := {
  stash_nodup : NoDup (map stash_id (stashed_signals r));
  stash_proper : Forall (fun x => si_signo (stash_info x) <> 0 /\ si_signo (stash_info x) <> DESCHED_SIGNAL) (stashed_signals r);
  stash_below : Forall (fun x => stash_id x < next)%nat (stashed_signals r);
  stash_once : forall sig, sig < SIGRTMIN -> (length (List.filter (fun x => si_signo (stash_info x) =? sig)%Z (stashed_signals r)) <= 1)%nat;
  stash_breaks : stashed_signals r <> [] -> breaks_set r }.

Lemma has_sig_filter sig l : has_sig sig l = false -> List.filter (fun x => si_signo (stash_info x) =? sig) l = [].
Proof.
  intros Hn. apply filter_none. apply Stdlib.Lists.List.Forall_forall. intros x Hx. apply not_true_iff_false. intros Hs.
  apply not_true_iff_false in Hn. apply Hn. apply existsb_exists. by exists x.
Qed.

(** Inserting a signal anywhere. *)
Lemma stash_ok_add next r l1 l2 x :
  stash_ok next r -> stashed_signals r = l1 ++ l2 -> stash_id x = next ->
  si_signo (stash_info x) <> 0 -> si_signo (stash_info x) <> DESCHED_SIGNAL ->
  ((si_signo (stash_info x) <? SIGRTMIN) && has_sig (si_signo (stash_info x)) (stashed_signals r)) = false ->
  stash_ok (S next) (set_breaks true (put_stashed_signals (l1 ++ x :: l2) r)).
Proof.
  intros [Hd Hp Hb Ho _] Hl Hid Hz Hds Hc. rewrite Hl in *. split.
  - cbn [stashed_signals set_breaks put_stashed_signals put_stashed_signals_blocking_more_signals put_break_at_syscallbuf_final_instruction
      put_break_at_syscallbuf_traced_syscalls put_break_at_syscallbuf_untraced_syscalls].
    rewrite map_app in Hd |- *. cbn [map]. apply NoDup_app in Hd as (H1 & H2 & H3). apply Forall_app in Hb as [Hb1 Hb2].
    assert (forall l, Forall (fun y => stash_id y < next)%nat l -> ~ stash_id x ∈ map stash_id l) as Hfresh.
    { intros l Hlt (y & Hy & Hin)%list_elem_of_fmap. rewrite Forall_forall in Hlt. specialize (Hlt y Hin). lia. }
    apply NoDup_app. split; [done|]. split.
    + intros y Hy1 [->|Hy2]%elem_of_cons; [by apply (Hfresh l1)|by apply (H2 y)].
    + apply NoDup_cons. split; [by apply Hfresh|done].
  - cbn. apply Forall_app in Hp as [Hp1 Hp2]. apply Forall_app. split; [done|by constructor].
  - cbn. apply Forall_app in Hb as [Hb1 Hb2]. apply Forall_app. split; [eapply Forall_impl; [exact Hb1|]; cbn; lia|].
    constructor; [lia|]. eapply Forall_impl; [exact Hb2|]. cbn. lia.
  - intros sig Hs. cbn. specialize (Ho sig Hs). rewrite List.filter_app in Ho |- *. cbn [List.filter].
    destruct (si_signo (stash_info x) =? sig) eqn:Hx; [|done]. apply Z.eqb_eq in Hx. rewrite Hx in Hc.
    rewrite (proj2 (Z.ltb_lt _ _) Hs) in Hc. cbn [andb] in Hc. pose proof (has_sig_filter _ _ Hc) as Hnil.
    rewrite List.filter_app in Hnil. apply app_eq_nil in Hnil as [-> ->]. cbn. lia.
  - done.
Qed.

Lemma stash_ok_next next r : stash_ok next r -> stash_ok (S next) r.
Proof. intros [? ? Hb ? ?]. split; try done. eapply Forall_impl; [exact Hb|]. cbn. lia. Qed.

Definition stashes_ok (s : sig_state) : Prop := forall t r, rtasks s !! t = Some r -> stash_ok (next_stash s) r.

(** Putting a new signal into the stash of a task. *)
Lemma stash_insert_ok s t r l1 l2 x :
  stashes_ok s -> rtasks s !! t = Some r -> stashed_signals r = l1 ++ l2 -> stash_id x = next_stash s ->
  si_signo (stash_info x) <> 0 -> si_signo (stash_info x) <> DESCHED_SIGNAL ->
  ((si_signo (stash_info x) <? SIGRTMIN) && has_sig (si_signo (stash_info x)) (stashed_signals r)) = false ->
  stashes_ok (put_rtasks (<[t := set_breaks true (put_stashed_signals (l1 ++ x :: l2) r)]> (rtasks s)) (put_next_stash (S (next_stash s)) s)).
Proof.
  intros Hok Ht Hl Hid Hz Hds Hc u ru. cbn. rewrite lookup_insert_Some. intros [[-> <-]|[_ Hu]].
  - eapply stash_ok_add; eauto.
  - by apply stash_ok_next, (Hok u).
Qed.

Lemma stash_sig_ok t status si trapped s s' :
  stashes_ok s -> si_signo si = stop_sig status -> stash_sig t status si trapped s = (Ok tt, s') ->
  stashes_ok s'.
Proof.
  intros Hok Hsig Hrun. unfold stash_sig in Hrun. rewrite <- Hsig in Hrun.
  apply bind_Ok_inv in Hrun as ([] & s1 & [Hz%negb_true_iff%Z.eqb_neq ->]%ASSERT_Ok_inv & Hrun).
  apply bind_Ok_inv in Hrun as ([] & s1 & [Hds%negb_true_iff%Z.eqb_neq ->]%ASSERT_Ok_inv & Hrun).
  apply bind_Ok_inv in Hrun as (r & s1 & Htask & Hrun).
  apply the_task_inv in Htask as [Ht ->]. destruct (_ && _) eqn:Hc; [by injection Hrun as <-|].
  apply bind_Ok_inv in Hrun as (n & s1 & [= <- <-] & Hrun). apply bind_Ok_inv in Hrun as (u & s1 & [= <- <-] & Hrun).
  rewrite (update_task_ok t _ (put_next_stash (S (next_stash s)) s) r Ht) in Hrun. injection Hrun as <-.
  eapply (stash_insert_ok s t r (stashed_signals r) []); try done. by rewrite app_nil_r.
Qed.

Lemma stash_synthetic_ok t si d s s' :
  stashes_ok s -> stash_synthetic_sig t si d s = (Ok tt, s') -> stashes_ok s'.
Proof.
  intros Hok Hrun. unfold stash_synthetic_sig in Hrun.
  apply bind_Ok_inv in Hrun as ([] & s1 & [Hz%negb_true_iff%Z.eqb_neq ->]%ASSERT_Ok_inv & Hrun).
  apply bind_Ok_inv in Hrun as ([] & s1 & [Hds%negb_true_iff%Z.eqb_neq ->]%ASSERT_Ok_inv & Hrun).
  apply bind_Ok_inv in Hrun as (r & s1 & Htask & Hrun).
  apply the_task_inv in Htask as [Ht ->]. destruct (_ && _) eqn:Hc; [by injection Hrun as <-|].
  apply bind_Ok_inv in Hrun as (n & s1 & [= <- <-] & Hrun). apply bind_Ok_inv in Hrun as (u & s1 & [= <- <-] & Hrun).
  rewrite (update_task_ok t _ (put_next_stash (S (next_stash s)) s) r Ht) in Hrun. injection Hrun as <-.
  by eapply (stash_insert_ok s t r [] (stashed_signals r)).
Qed.

(** ** Taking out of the stash *)

Lemma erase_stashed_split id l l' :
  erase_stashed id l = Some l' -> exists l1 x l2, l = l1 ++ x :: l2 /\ l' = l1 ++ l2.
Proof.
  revert l'. induction l as [|y l IH]; intros l'; [done|]. cbn [erase_stashed]. destruct (decide (stash_id y = id)).
  - intros [= <-]. by exists [], y, l.
  - destruct (erase_stashed id l) as [l0|]; [|done]. intros [= <-]. destruct (IH l0 eq_refl) as (l1 & x & l2 & -> & ->).
    by exists (y :: l1), x, l2.
Qed.

Lemma stash_ok_erase next r id l : stash_ok next r -> erase_stashed id (stashed_signals r) = Some l -> stash_ok next (put_stashed_signals l r).
Proof.
  intros [Hd Hp Hb Ho Hbr] (l1 & x & l2 & Hl & ->)%erase_stashed_split. rewrite Hl in *. split; cbn.
  - rewrite map_app in Hd |- *. cbn [map] in Hd. apply NoDup_app in Hd as (H1 & H2 & [_ H3]%NoDup_cons). apply NoDup_app.
    split; [done|]. split; [|done]. intros y Hy Hy2. apply (H2 y Hy). by right.
  - apply Forall_app in Hp as [? [_ ?]%Forall_cons_1]. by apply Forall_app.
  - apply Forall_app in Hb as [? [_ ?]%Forall_cons_1]. by apply Forall_app.
  - intros sig Hs. specialize (Ho sig Hs). rewrite List.filter_app in Ho |- *. cbn [List.filter] in Ho.
    rewrite length_app in Ho |- *. destruct (si_signo (stash_info x) =? sig); cbn [length] in Ho; lia.
  - intros _. apply Hbr. by destruct l1.
Qed.

Lemma stash_ok_processed next r :
  stash_ok next r -> stash_ok next (set_breaks (negb (length (stashed_signals r) =? 0)%nat) r).
Proof. intros [Hd Hp Hb Ho Hbr]. split; try done. cbn. intros Hne. by destruct (stashed_signals r). Qed.

Lemma stashes_ok_update s t r f :
  stashes_ok s -> rtasks s !! t = Some r -> stash_ok (next_stash s) (f r) -> stashes_ok (put_rtasks (<[t := f r]> (rtasks s)) s).
Proof. intros Hok Ht Hf u ru. cbn. rewrite lookup_insert_Some. intros [[-> <-]|[_ Hu]]; [done|by apply (Hok u)]. Qed.

Lemma pop_inv t id s s' :
  pop_stash_sig t id s = (Ok tt, s') ->
  exists r l, rtasks s !! t = Some r /\ erase_stashed id (stashed_signals r) = Some l /\
    s' = put_rtasks (<[t := put_stashed_signals l r]> (rtasks s)) s.
Proof.
  intros (r & s1 & [Ht ->]%the_task_inv & Hrun)%bind_Ok_inv. destruct (erase_stashed id (stashed_signals r)) as [l|] eqn:He; [|done].
  rewrite (update_task_ok t _ s r Ht) in Hrun. injection Hrun as <-. by exists r, l.
Qed.

Lemma pop_keeps t id s s' : stashes_ok s -> pop_stash_sig t id s = (Ok tt, s') -> stashes_ok s'.
Proof.
  intros Hok (r & l & Ht & He & ->)%pop_inv. apply (stashes_ok_update s t r (put_stashed_signals l)); try done.
  eapply stash_ok_erase; [by apply (Hok t)|done].
Qed.

Lemma processed_keeps t s s' : stashes_ok s -> stashed_signal_processed t s = (Ok tt, s') -> stashes_ok s'.
Proof.
  intros Hok [= <-] u ru. cbn. destruct (decide (t = u)) as [<-|Hne].
  - rewrite lookup_alter_eq. intros (r & Hr & ->)%fmap_Some. by apply stash_ok_processed, (Hok t).
  - rewrite lookup_alter_ne by done. apply Hok.
Qed.

Lemma disable_keeps t s s' : stashes_ok s -> disable_untraced_breakpoints t s = (Ok tt, s') -> stashes_ok s'.
Proof.
  intros Hok [= <-] u ru. cbn. destruct (decide (t = u)) as [<-|Hne].
  - rewrite lookup_alter_eq. intros (r & Hr & ->)%fmap_Some. by destruct (Hok t r Hr).
  - rewrite lookup_alter_ne by done. apply Hok.
Qed.

(** The fields of a task that belong to its stash. *)
Definition same_stash (r r' : rtask) : Prop :=
  stashed_signals r' = stashed_signals r /\
  stashed_signals_blocking_more_signals r' = stashed_signals_blocking_more_signals r /\
  break_at_syscallbuf_final_instruction r' = break_at_syscallbuf_final_instruction r /\
  break_at_syscallbuf_traced_syscalls r' = break_at_syscallbuf_traced_syscalls r /\
  break_at_syscallbuf_untraced_syscalls r' = break_at_syscallbuf_untraced_syscalls r.

Lemma same_stash_ok next r r' : same_stash r r' -> stash_ok next r -> stash_ok next r'.
Proof. intros (Hl & Hb & Hf & Ht & _) [H1 H2 H3 H4 H5]. split; rewrite ?Hl; try assumption. unfold breaks_set. by rewrite Hb, Hf, Ht. Qed.

Lemma no_stash_ok next r : stashed_signals r = [] -> stash_ok next r.
Proof. intros Hnil. split; rewrite Hnil; try done; [constructor|cbn; lia]. Qed.

(** What rr does with the stashes of its tasks, in any order: the operations that write to them, tasks that come with an
    empty stash and go, and whatever else is done with the tasks.  [stash_sig] gets the siginfo of the signal the task
    stopped with. *)
Inductive stash_history : sig_state -> Prop :=
| history_start s : (forall t r, rtasks s !! t = Some r -> stashed_signals r = []) -> stash_history s
| history_stash s t status si trapped s' :
    stash_history s -> si_signo si = stop_sig status -> stash_sig t status si trapped s = (Ok tt, s') -> stash_history s'
| history_synthetic s t si d s' : stash_history s -> stash_synthetic_sig t si d s = (Ok tt, s') -> stash_history s'
| history_pop s t id s' : stash_history s -> pop_stash_sig t id s = (Ok tt, s') -> stash_history s'
| history_processed s t s' : stash_history s -> stashed_signal_processed t s = (Ok tt, s') -> stash_history s'
| history_untraced s t s' : stash_history s -> disable_untraced_breakpoints t s = (Ok tt, s') -> stash_history s'
| history_other s s' :
    stash_history s -> next_stash s' = next_stash s ->
    (forall t r', rtasks s' !! t = Some r' ->
       stashed_signals r' = [] \/ exists r, rtasks s !! t = Some r /\ same_stash r r') -> stash_history s'.

(** C35.  After any sequence of the operations that write to the stashes of
    tasks (stash_sig, stash_synthetic_sig, pop_stash_sig,
    stashed_signal_processed and the reset of the breakpoints at untraced system
    calls in handle_syscallbuf_breakpoint), of tasks that come with an empty
    stash and go, and of anything else that leaves the stashes alone: a signal
    that is not real-time is in the stash of a task at most once, the signal rr
    deschedules with is never there, and as long as the stash is not empty the
    task blocks further signals and breaks at its next traced system call and
    when it leaves the syscall buffer.  The siginfo that goes with a stop is
    that of the stop signal. *)
Theorem stashes_in_order s : stash_history s -> stashes_ok s.
Proof.
  induction 1 as [s Hs|s t status si trapped s' _ IH Hsig Hrun|s t si d s' _ IH Hrun|s t id s' _ IH Hrun|s t s' _ IH Hrun|
    s t s' _ IH Hrun|s s' _ IH Hn Hs].
  - intros t r Ht. apply no_stash_ok. by apply (Hs t).
  - by eapply stash_sig_ok.
  - by eapply stash_synthetic_ok.
  - by eapply pop_keeps.
  - by eapply processed_keeps.
  - by eapply disable_keeps.
  - intros t r' Hr'. destruct (Hs t r' Hr') as [Hnil|(r & Hr & Hsame)]; [by apply no_stash_ok|].
    rewrite Hn. by eapply same_stash_ok, IH.
Qed.

(** ** Tasks that know each other *)

(** Every pointer leads to a task, a group or a table. *)
Record sig_wf (s : sig_state) : Prop := {
  wf_group : forall t r, rtasks s !! t = Some r -> is_Some (groups s !! tgid r);
  wf_set : forall k g t, groups s !! k = Some g -> t ∈ task_set g -> exists r, rtasks s !! t = Some r /\ tgid r = k;
  wf_children : forall k g c, groups s !! k = Some g -> c ∈ tg_children g -> is_Some (groups s !! c);
  wf_tracees : forall t r u, rtasks s !! t = Some r -> u ∈ emulated_ptrace_tracees r -> is_Some (rtasks s !! u);
  wf_ptracer : forall t r p, rtasks s !! t = Some r -> emulated_ptracer r = Some p ->
    exists rp, rtasks s !! p = Some rp /\ t ∈ emulated_ptrace_tracees rp;
  wf_tables : forall t r, rtasks s !! t = Some r -> exists table, handler_tables s !! sighandlers r = Some table /\ length table = Z.to_nat NSIG }.

(** A task without the copy of its signal mask. *)
Definition core (r : rtask) : rtask := put_blocked_sigs 0 (put_blocked_sigs_dirty false r).

(** Nothing has changed but copies of signal masks and what was sent. *)
Record quiet (s s' : sig_state) (more : list sent_signal) : Prop := {
  quiet_tasks : core <$> rtasks s' = core <$> rtasks s;
  quiet_groups : groups s' = groups s;
  quiet_tables : handler_tables s' = handler_tables s;
  quiet_sent : sent s' = sent s ++ more }.

Lemma quiet_refl s : quiet s s [].
Proof. split; try done. by rewrite app_nil_r. Qed.

Lemma quiet_trans s1 s2 s3 l1 l2 : quiet s1 s2 l1 -> quiet s2 s3 l2 -> quiet s1 s3 (l1 ++ l2).
Proof. intros [] []. split; try congruence. rewrite app_assoc. congruence. Qed.

Lemma quiet_lookup s s' more t r : quiet s s' more -> rtasks s !! t = Some r -> exists r', rtasks s' !! t = Some r' /\ core r' = core r.
Proof.
  intros [Ht _ _ _] Hr. apply (f_equal (fun m => m !! t)) in Ht. rewrite !lookup_fmap, Hr in Ht.
  destruct (rtasks s' !! t) as [r'|]; [|done]. cbn in Ht. exists r'. split; [done|congruence].
Qed.

Lemma quiet_lookup' s s' more t r' : quiet s s' more -> rtasks s' !! t = Some r' -> exists r, rtasks s !! t = Some r /\ core r = core r'.
Proof.
  intros [Ht _ _ _] Hr. apply (f_equal (fun m => m !! t)) in Ht. rewrite !lookup_fmap, Hr in Ht.
  destruct (rtasks s !! t) as [r|]; [|done]. cbn in Ht. exists r. split; [done|congruence].
Qed.

(** The fields that matter are those of the core. *)
Lemma task_core_fields r r' :
  core r = core r' ->
  tgid r = tgid r' /\ sighandlers r = sighandlers r' /\ emulated_ptracer r = emulated_ptracer r' /\
  emulated_ptrace_tracees r = emulated_ptrace_tracees r' /\ emulated_stop_type r = emulated_stop_type r' /\
  emulated_ptrace_SIGCHLD_pending r = emulated_ptrace_SIGCHLD_pending r' /\ emulated_stop_pending r = emulated_stop_pending r' /\
  emulated_stop_code r = emulated_stop_code r'.
Proof.
  intros Hc. repeat split; [apply (f_equal tgid) in Hc|apply (f_equal sighandlers) in Hc|apply (f_equal emulated_ptracer) in Hc|
    apply (f_equal emulated_ptrace_tracees) in Hc|apply (f_equal emulated_stop_type) in Hc|
    apply (f_equal emulated_ptrace_SIGCHLD_pending) in Hc|apply (f_equal emulated_stop_pending) in Hc|
    apply (f_equal emulated_stop_code) in Hc]; exact Hc.
Qed.

(** [sig_wf] depends on groups, tables, and these fields of the tasks. *)
Definition same_links (r r' : rtask) : Prop :=
  tgid r = tgid r' /\ sighandlers r = sighandlers r' /\ emulated_ptracer r = emulated_ptracer r' /\
  emulated_ptrace_tracees r = emulated_ptrace_tracees r'.

Lemma sig_wf_links s s' :
  groups s' = groups s -> handler_tables s' = handler_tables s ->
  (forall t, match rtasks s !! t, rtasks s' !! t with Some r, Some r' => same_links r' r | None, None => True | _, _ => False end) ->
  sig_wf s -> sig_wf s'.
Proof.
  intros Hg Hh Ht [H1 H2 H3 H4 H5 H6].
  assert (forall t r', rtasks s' !! t = Some r' -> exists r, rtasks s !! t = Some r /\ same_links r' r) as Hback.
  { intros t r' Hr'. specialize (Ht t). rewrite Hr' in Ht. destruct (rtasks s !! t) as [r|]; [|done]. by exists r. }
  assert (forall t r, rtasks s !! t = Some r -> exists r', rtasks s' !! t = Some r' /\ same_links r' r) as Hforth.
  { intros t r Hr. specialize (Ht t). rewrite Hr in Ht. destruct (rtasks s' !! t) as [r'|]; [|done]. by exists r'. }
  split; rewrite ?Hg, ?Hh.
  - intros t r' (r & Hr & (-> & _))%Hback. by eapply H1.
  - intros k g t Hk Hin. destruct (H2 k g t Hk Hin) as (r & Hr & Htg). destruct (Hforth t r Hr) as (r' & Hr' & (Heq & _)).
    exists r'. split; [done|congruence].
  - done.
  - intros t r' u (r & Hr & (_ & _ & _ & ->))%Hback Hin. destruct (H4 t r u Hr Hin) as [ru Hu].
    destruct (Hforth u ru Hu) as (ru' & Hu' & _). by exists ru'.
  - intros t r' p (r & Hr & (_ & _ & -> & _))%Hback Hp. destruct (H5 t r p Hr Hp) as (rp & Hrp & Hin).
    destruct (Hforth p rp Hrp) as (rp' & Hrp' & (_ & _ & _ & Heq)). exists rp'. split; [done|congruence].
  - intros t r' (r & Hr & (_ & -> & _))%Hback. by eapply H6.
Qed.

Lemma sig_wf_quiet s s' more : quiet s s' more -> sig_wf s -> sig_wf s'.
Proof.
  intros Hq. pose proof Hq as [_ Hg Hh _]. apply sig_wf_links; [done|done|]. intros t.
  destruct (rtasks s !! t) as [r|] eqn:Hr.
  - destruct (quiet_lookup s s' more t r Hq Hr) as (r' & -> & Hc). destruct (task_core_fields r' r Hc) as (? & ? & ? & ? & _). done.
  - destruct (rtasks s' !! t) as [r'|] eqn:Hr'; [|done]. destruct (quiet_lookup' s s' more t r' Hq Hr') as (r & Hr2 & _). congruence.
Qed.

Lemma sig_wf_update s t r f :
  sig_wf s -> rtasks s !! t = Some r -> same_links (f r) r -> sig_wf (put_rtasks (<[t := f r]> (rtasks s)) s).
Proof.
  intros Hwf Ht Hf. apply (sig_wf_links s); try done. intros u. cbn. destruct (decide (u = t)) as [->|Hne].
  - by rewrite Ht, lookup_insert_eq.
  - rewrite lookup_insert_ne by done. by destruct (rtasks s !! u).
Qed.

(** ** Looking for who waits *)

(** A computation that only reads. *)
Definition reads {A} (c : G A) (s : sig_state) (Q : A -> Prop) : Prop := exists a, c s = (Ok a, s) /\ Q a.

Lemma sig_reads_bind {A B} (c : G A) (f : A -> G B) s Q R :
  reads c s Q -> (forall a, Q a -> reads (f a) s R) -> reads (mbind f c) s R.
Proof. intros (a & Hc & HQ) Hf. destruct (Hf a HQ) as (b & Hb & HR). exists b. by rewrite (bind_ok _ _ _ _ _ Hc). Qed.

Lemma sig_reads_ret {A} (a : A) s (Q : A -> Prop) : Q a -> reads (mret a) s Q.
Proof. by exists a. Qed.

Lemma reads_task t s r : rtasks s !! t = Some r -> reads (the_task t) s (fun r' => r' = r).
Proof. intros Ht. exists r. by rewrite (the_task_ok t s r Ht). Qed.

Lemma reads_group k s g : groups s !! k = Some g -> reads (the_group k) s (fun g' => g' = g).
Proof. intros Hg. exists g. by rewrite (the_group_ok k s g Hg). Qed.

Lemma reads_weaken {A} (c : G A) s (Q R : A -> Prop) : reads c s Q -> (forall a, Q a -> R a) -> reads c s R.
Proof. intros (a & Hc & HQ) HR. exists a. auto. Qed.

Lemma reads_find f l s : (forall x, x ∈ l -> reads (f x) s (fun _ => True)) -> reads (find_m f l) s (fun o => forall y, o = Some y -> y ∈ l).
Proof.
  induction l as [|x l IH]; intros Hf; cbn [find_m]; [by apply sig_reads_ret|].
  apply (sig_reads_bind _ _ _ (fun _ => True)); [apply Hf; left|]. intros [] _.
  - apply sig_reads_ret. intros y [= <-]. left.
  - eapply reads_weaken; [apply IH; intros y Hy; apply Hf; by right|]. cbn. intros o Ho y Hy. right. by apply Ho.
Qed.

Lemma reads_waits self t tg b s : is_Some (rtasks s !! self) -> reads (waits self t tg b) s (fun _ => True).
Proof. intros [r Hr]. unfold waits. eapply sig_reads_bind; [by apply reads_task|]. intros ? ->. by apply sig_reads_ret. Qed.

Lemma reads_waiting_ptrace self t s :
  sig_wf s -> is_Some (rtasks s !! self) -> is_Some (rtasks s !! t) -> reads (is_waiting_for_ptrace self t) s (fun _ => True).
Proof.
  intros Hwf [r Hr] [rt Ht]. unfold is_waiting_for_ptrace.
  eapply sig_reads_bind; [by apply reads_task|]. intros ? ->. eapply sig_reads_bind; [by apply reads_task|]. intros ? ->.
  destruct (emulated_ptracer rt) as [p|] eqn:Hp; [|by apply sig_reads_ret].
  destruct (wf_ptracer s Hwf t rt p Ht Hp) as (rp & Hrp & _). eapply sig_reads_bind; [by apply reads_task|]. intros ? ->.
  destruct (tgid rp =? tgid r); [by apply reads_waits|by apply sig_reads_ret].
Qed.

Lemma reads_waiting self t s :
  sig_wf s -> is_Some (rtasks s !! self) -> is_Some (rtasks s !! t) -> reads (is_waiting_for self t) s (fun _ => True).
Proof.
  intros Hwf [r Hr] [rt Ht]. unfold is_waiting_for.
  eapply sig_reads_bind; [by apply reads_task|]. intros ? ->. eapply sig_reads_bind; [by apply reads_task|]. intros ? ->.
  destruct (wf_group s Hwf t rt Ht) as [g Hg]. eapply sig_reads_bind; [by apply reads_group|]. intros ? ->.
  destruct (bool_decide _); [by apply reads_waits|by apply sig_reads_ret].
Qed.

Lemma set_is_task s k g t : sig_wf s -> groups s !! k = Some g -> t ∈ task_set g -> is_Some (rtasks s !! t).
Proof. intros Hwf Hg Hin. destruct (wf_set s Hwf k g t Hg Hin) as (r & Hr & _). by exists r. Qed.

(** Where the signal goes: a thread of the group, or the process. *)
Definition wakes (threads : list Z) (pending : Prop) (x : bool * option Z) : Prop :=
  (pending -> x.1 = true) /\ (forall y, x.2 = Some y -> x.1 = true /\ y ∈ threads).

Definition pending_tracee (s : sig_state) (t : Z) : Prop := exists r, rtasks s !! t = Some r /\ emulated_ptrace_SIGCHLD_pending r = true.

Lemma reads_scan_tracees threads l need s :
  sig_wf s -> (forall x, x ∈ threads -> is_Some (rtasks s !! x)) -> (forall x, x ∈ l -> is_Some (rtasks s !! x)) ->
  reads (scan_tracees threads l need) s (wakes threads (need = true \/ exists t, t ∈ l /\ pending_tracee s t)).
Proof.
  intros Hwf Hth. revert need. induction l as [|u l IH]; intros need Hl; cbn [scan_tracees].
  { apply sig_reads_ret. split; [|done]. intros [Hn|(t & Ht & _)]; [done|by apply elem_of_nil in Ht]. }
  destruct (Hl u ltac:(left)) as [r Hr]. eapply sig_reads_bind; [by apply reads_task|]. intros ? ->.
  assert (forall x, x ∈ l -> is_Some (rtasks s !! x)) as Hl' by (intros x Hx; apply Hl; by right).
  destruct (emulated_ptrace_SIGCHLD_pending r) eqn:Hp.
  - eapply sig_reads_bind; [apply reads_find; intros x Hx; apply reads_waiting_ptrace; auto|]. cbn beta. intros [y|] Hy.
    + apply sig_reads_ret. split; [done|]. intros z [= <-]. auto.
    + eapply reads_weaken; [by apply IH|]. intros x [Hneed Hw]. split; [|done]. intros _. apply Hneed. by left.
  - eapply reads_weaken; [by apply IH|]. intros x [Hneed Hw]. split; [|done]. intros [Hn|(t & Ht & Hpend)]; apply Hneed; [by left|].
    right. apply elem_of_cons in Ht as [->|Ht]; [|by exists t]. destruct Hpend as (r' & Hr' & Hp'). congruence.
Qed.

Definition sane (threads : list Z) (x : bool * option Z) : Prop := forall y, x.2 = Some y -> x.1 = true /\ y ∈ threads.

Lemma reads_scan_children threads l need wake s :
  sig_wf s -> (forall x, x ∈ threads -> is_Some (rtasks s !! x)) -> (forall x, x ∈ l -> is_Some (rtasks s !! x)) ->
  sane threads (need, wake) -> reads (scan_children threads l need wake) s (sane threads).
Proof.
  intros Hwf Hth. revert need wake. induction l as [|u l IH]; intros need wake Hl Hs; cbn [scan_children]; [by apply sig_reads_ret|].
  destruct (Hl u ltac:(left)) as [r Hr]. eapply sig_reads_bind; [by apply reads_task|]. intros ? ->.
  assert (forall x, x ∈ l -> is_Some (rtasks s !! x)) as Hl' by (intros x Hx; apply Hl; by right).
  destruct (emulated_SIGCHLD_pending r); [|by apply IH].
  eapply sig_reads_bind; [apply reads_find; intros x Hx; apply reads_waiting; auto|]. cbn beta. intros [y|] Hy.
  - apply sig_reads_ret. intros z [= <-]. auto.
  - destruct wake as [y|]; [|by apply IH]. apply sig_reads_ret. intros z [= <-]. split; [done|]. by apply (Hs y).
Qed.

Lemma reads_scan_groups threads gs need wake s :
  sig_wf s -> (forall x, x ∈ threads -> is_Some (rtasks s !! x)) -> (forall x, x ∈ gs -> is_Some (groups s !! x)) ->
  sane threads (need, wake) -> reads (scan_groups threads gs need wake) s (sane threads).
Proof.
  intros Hwf Hth. revert need wake. induction gs as [|k gs IH]; intros need wake Hl Hs; cbn [scan_groups]; [by apply sig_reads_ret|].
  destruct (Hl k ltac:(left)) as [g Hg]. eapply sig_reads_bind; [by apply reads_group|]. intros ? ->.
  eapply sig_reads_bind; [apply reads_scan_children; try done; intros x Hx; by eapply set_is_task|]. intros [need' wake'] Hs'.
  apply IH; [|done]. intros x Hx. apply Hl. by right.
Qed.

(** ** Telling the tracer or the parent *)

Lemma is_sig_blocked_quiet t sig s r :
  rtasks s !! t = Some r -> exists b s', is_sig_blocked t sig s = (Ok b, s') /\ quiet s s' [].
Proof.
  intros Ht. unfold is_sig_blocked. destruct (is_unstoppable_signal sig); [exists false, s; split; [done|apply quiet_refl]|].
  unfold get_sigmask.
  destruct (blocked_sigs_dirty r) eqn:Hd.
  - eexists _, _. split.
    { erewrite (bind_ok (S := sig_state)); [reflexivity|].
      rewrite (bind_ok _ _ _ _ _ (the_task_ok t s r Ht)), Hd.
      by rewrite (bind_ok _ _ _ _ _ (update_task_ok t _ s r Ht)). }
    split; try done; [|by rewrite app_nil_r].
    apply map_eq. intros u. cbn. rewrite !lookup_fmap. destruct (decide (u = t)) as [->|Hne].
    + by rewrite lookup_insert_eq, Ht.
    + by rewrite lookup_insert_ne.
  - eexists _, _. split.
    { erewrite (bind_ok (S := sig_state)); [reflexivity|].
      by rewrite (bind_ok _ _ _ _ _ (the_task_ok t s r Ht)), Hd. }
    apply quiet_refl.
Qed.

(** A SIGCHLD for the process [k]. *)
Definition is_SIGCHLD_to (k : Z) (x : sent_signal) : Prop :=
  match x with ToThread g _ sig _ | ToProcess g sig _ => g = k /\ sig = SIGCHLD end.

Section Queued.

(** The signals rr sends can be queued. *)
Context (Hqueue : forall before x, sigqueueinfo before x = true).

Lemma send_quiet x s : exists s', send x s = (Ok tt, s') /\ quiet s s' [x].
Proof. unfold send, mbind, TM_bind, ask. rewrite Hqueue. eexists. split; [done|]. by split. Qed.

(** It succeeds, changes nothing, and sends a SIGCHLD to the process if a task it traces has one pending. *)
Lemma send_synthetic_spec self s r :
  sig_wf s -> rtasks s !! self = Some r ->
  exists s' more, send_synthetic_SIGCHLD_if_necessary self s = (Ok tt, s') /\ quiet s s' more /\
    ((exists t, t ∈ emulated_ptrace_tracees r /\ pending_tracee s t) -> Exists (is_SIGCHLD_to (tgid r)) more).
Proof.
  intros Hwf Hr. destruct (wf_group s Hwf self r Hr) as [g Hg].
  assert (forall x, x ∈ task_set g -> is_Some (rtasks s !! x)) as Hth by (intros x Hx; by eapply set_is_task).
  destruct (reads_scan_tracees (task_set g) (emulated_ptrace_tracees r) false s Hwf Hth) as (x & Hx & Hneed & Hsane).
  { intros u Hu. by eapply wf_tracees. }
  unfold send_synthetic_SIGCHLD_if_necessary.
  rewrite (bind_ok _ _ _ _ _ (the_task_ok self s r Hr)), (bind_ok _ _ _ _ _ (the_group_ok _ s g Hg)), (bind_ok _ _ _ _ _ Hx).
  assert (exists y, (if x.1 then mret x else scan_groups (task_set g) (tg_children g) false None) s = (Ok y, s) /\
    sane (task_set g) y /\ (x.1 = true -> y = x)) as (y & Hy & Hsy & Hxy).
  { destruct x as [[] w]; cbn [fst].
    - by exists (true, w).
    - destruct (reads_scan_groups (task_set g) (tg_children g) false None s Hwf Hth) as (y & Hy & Hs); [|done|].
      + intros k Hk. by eapply wf_children.
      + by exists y. }
  rewrite (bind_ok _ _ _ _ _ Hy). destruct y as [[] w]; cbn [fst snd].
  2:{ exists s, []. split; [done|]. split; [apply quiet_refl|]. intros Hp. specialize (Hxy (Hneed (or_intror Hp))). subst x.
      by specialize (Hneed (or_intror Hp)). }
  destruct w as [wake|].
  - destruct (Hsy wake eq_refl) as [_ Hin]. destruct (wf_set s Hwf _ g wake Hg Hin) as (rw & Hrw & Htg).
    rewrite (bind_ok _ _ _ _ _ (the_task_ok wake s rw Hrw)).
    destruct (send_quiet (ToThread (tgid rw) wake SIGCHLD (synthetic_siginfo SI_QUEUE)) s) as (s1 & Hs1 & Hq1).
    rewrite (bind_ok _ _ _ _ _ Hs1). destruct (quiet_lookup s s1 _ wake rw Hq1 Hrw) as (rw1 & Hrw1 & _).
    destruct (is_sig_blocked_quiet wake SIGCHLD s1 rw1 Hrw1) as (b & s2 & Hs2 & Hq2). rewrite (bind_ok _ _ _ _ _ Hs2).
    destruct b.
    + destruct (send_quiet (ToThread (tgid rw) wake TIME_SLICE_SIGNAL (synthetic_siginfo SYNTHETIC_TIME_SLICE_SI_CODE)) s2) as (s3 & Hs3 & Hq3).
      exists s3. eexists. split; [exact Hs3|]. split; [eapply quiet_trans; [exact Hq1|]; by eapply quiet_trans|].
      intros _. left. by split.
    + exists s2. eexists. split; [done|]. split; [by eapply quiet_trans|]. intros _. left. by split.
  - destruct (send_quiet (ToProcess (tgid r) SIGCHLD (synthetic_siginfo SI_QUEUE)) s) as (s1 & Hs1 & Hq1).
    exists s1. eexists. split; [exact Hs1|]. split; [exact Hq1|]. intros _. left. by split.
Qed.

(** ** Stopping a process *)

(** What [force_emulate_ptrace_stop] writes. *)
Definition stopped_by (status : Z) (r : rtask) : rtask :=
  put_emulated_stop_type (if group_stop status =? 0 then SIGNAL_DELIVERY_STOP else GROUP_STOP)
    (put_emulated_stop_code status (put_emulated_stop_pending true (put_emulated_ptrace_SIGCHLD_pending true r))).

Lemma force_spec t status s r p rp :
  sig_wf s -> rtasks s !! t = Some r -> emulated_ptracer r = Some p -> rtasks s !! p = Some rp ->
  exists s' more, force_emulate_ptrace_stop t status s = (Ok tt, s') /\
    quiet (put_rtasks (<[t := stopped_by status r]> (rtasks s)) s) s' more /\ Exists (is_SIGCHLD_to (tgid rp)) more.
Proof.
  intros Hwf Ht Hp Hrp. unfold force_emulate_ptrace_stop. rewrite (bind_ok _ _ _ _ _ (update_task_ok t (stopped_by status) s r Ht)).
  set (s1 := put_rtasks _ s). assert (sig_wf s1) as Hwf1 by by apply sig_wf_update.
  assert (rtasks s1 !! t = Some (stopped_by status r)) as Ht1 by apply lookup_insert_eq.
  rewrite (bind_ok _ _ _ _ _ (the_task_ok t s1 _ Ht1)). cbn [stopped_by put_emulated_stop_type put_emulated_stop_code
    put_emulated_stop_pending put_emulated_ptrace_SIGCHLD_pending emulated_ptracer]. rewrite Hp.
  assert (exists rp1, rtasks s1 !! p = Some rp1 /\ tgid rp1 = tgid rp) as (rp1 & Hrp1 & Htg).
  { unfold s1. cbn. destruct (decide (p = t)) as [->|Hne].
    - rewrite lookup_insert_eq. eexists. split; [done|]. cbn. congruence.
    - rewrite lookup_insert_ne by done. by exists rp. }
  destruct (send_synthetic_spec p s1 rp1 Hwf1 Hrp1) as (s2 & more & Hs2 & Hq & Hsend). exists s2, more.
  split; [exact Hs2|]. split; [done|]. rewrite <- Htg. apply Hsend. exists t. split; [|by eexists].
  destruct (wf_ptracer s1 Hwf1 t _ p Ht1) as (rp2 & Hrp2 & Hin); [done|]. congruence.
Qed.

(** The tasks of [X] may have been stopped; nothing else has changed. *)
Record stop_progress (X : list Z) (s s' : sig_state) : Prop := {
  stop_groups : groups s' = groups s;
  stop_tables : handler_tables s' = handler_tables s;
  stop_dom : forall u, is_Some (rtasks s' !! u) -> is_Some (rtasks s !! u);
  stop_links : forall u r, rtasks s !! u = Some r -> exists r', rtasks s' !! u = Some r' /\ same_links r' r /\
    (emulated_stop_type r <> NOT_STOPPED -> core r' = core r) /\ (u ∉ X -> core r' = core r);
  stop_sent : exists more, sent s' = sent s ++ more }.

Lemma same_links_refl r : same_links r r.
Proof. done. Qed.

Lemma same_links_core r r' : core r = core r' -> same_links r r'.
Proof. intros (? & ? & ? & ? & _)%task_core_fields. done. Qed.

Lemma same_links_trans r1 r2 r3 : same_links r1 r2 -> same_links r2 r3 -> same_links r1 r3.
Proof. intros (? & ? & ? & ?) (? & ? & ? & ?). repeat split; congruence. Qed.

Lemma stop_progress_wf X s s' : stop_progress X s s' -> sig_wf s -> sig_wf s'.
Proof.
  intros [Hg Hh Hdom Hl _]. apply sig_wf_links; [done|done|]. intros u. destruct (rtasks s !! u) as [r|] eqn:Hu.
  - destruct (Hl u r Hu) as (r' & -> & Hlink & _). done.
  - destruct (rtasks s' !! u) eqn:Hu'; [|done]. destruct (Hdom u) as [r0 Hr0]; [by eexists|]. congruence.
Qed.

Lemma stop_progress_trans X Y s1 s2 s3 : stop_progress X s1 s2 -> stop_progress Y s2 s3 -> stop_progress (X ++ Y) s1 s3.
Proof.
  intros [Hg Hh Hd Hl [m1 Hm1]] [Hg' Hh' Hd' Hl' [m2 Hm2]]. split; [congruence|congruence|auto| |].
  - intros u r Hr. destruct (Hl u r Hr) as (r2 & Hr2 & Hlink & Hst & Hout). destruct (Hl' u r2 Hr2) as (r3 & Hr3 & Hlink' & Hst' & Hout').
    exists r3. split; [done|]. split; [by eapply same_links_trans|]. split.
    + intros Hs. rewrite Hst'; [by apply Hst|]. specialize (Hst Hs). apply task_core_fields in Hst as (_ & _ & _ & _ & Heq & _). congruence.
    + intros Hn. rewrite not_elem_of_app in Hn. destruct Hn as [Hx Hy]. rewrite Hout' by done. by apply Hout.
  - exists (m1 ++ m2). rewrite app_assoc. congruence.
Qed.

(** Changing a task that was running, and then telling somebody. *)
Lemma stop_progress_update s s' t r f more :
  rtasks s !! t = Some r -> emulated_stop_type r = NOT_STOPPED -> same_links (f r) r ->
  quiet (put_rtasks (<[t := f r]> (rtasks s)) s) s' more -> stop_progress [t] s s'.
Proof.
  intros Ht Hrun Hf Hq. pose proof Hq as [_ Hg Hh Hsent]. split; [done|done| | |by exists more].
  - intros u [r' Hr']. destruct (quiet_lookup' _ _ _ u r' Hq Hr') as (r0 & Hr0 & _). cbn in Hr0.
    apply lookup_insert_Some in Hr0 as [[<- _]|[_ Hr0]]; by eexists.
  - intros u ru Hu. destruct (decide (u = t)) as [->|Hne].
    + destruct (quiet_lookup _ _ _ t (f r) Hq) as (r' & Hr' & Hc); [apply lookup_insert_eq|]. assert (ru = r) as -> by congruence.
      exists r'. split; [done|]. split; [eapply same_links_trans; [by apply same_links_core|done]|]. split; [done|].
      intros Hn. rewrite not_elem_of_cons in Hn. by destruct Hn.
    + destruct (quiet_lookup _ _ _ u ru Hq) as (r' & Hr' & Hc); [cbn; by rewrite lookup_insert_ne|].
      exists r'. split; [done|]. split; [by apply same_links_core|done].
Qed.

Lemma stop_progress_refl X s : stop_progress X s s.
Proof.
  split; try done; [|exists []; by rewrite app_nil_r]. intros u r Hu. exists r. done.
Qed.

Lemma emulate_stop_spec t status s r p rp :
  sig_wf s -> rtasks s !! t = Some r -> emulated_stop_type r = NOT_STOPPED -> emulated_ptracer r = Some p -> rtasks s !! p = Some rp ->
  exists s' r' more, emulate_ptrace_stop t status None 0 s = (Ok true, s') /\ stop_progress [t] s s' /\
    rtasks s' !! t = Some r' /\ emulated_stop_type r' = (if group_stop status =? 0 then SIGNAL_DELIVERY_STOP else GROUP_STOP) /\
    emulated_stop_code r' = status /\ emulated_stop_pending r' = true /\
    sent s' = sent s ++ more /\ Exists (is_SIGCHLD_to (tgid rp)) more.
Proof.
  intros Hwf Ht Hrun Hp Hrp. unfold emulate_ptrace_stop. rewrite (bind_ok _ _ _ _ _ (the_task_ok t s r Ht)), Hrun, Hp.
  rewrite bool_decide_true by done. rewrite (bind_ok (ASSERT true) _ s tt s) by done.
  set (si := mkSiginfo _ _ _ _ _).
  set (save := fun r => put_saved_ptrace_siginfos (erase_first (si_signo si) (saved_ptrace_siginfos r) ++ [si]) r).
  assert (save_ptrace_signal_siginfo t si s = (Ok tt, put_rtasks (<[t := save r]> (rtasks s)) s)) as Hsave by by apply update_task_ok.
  rewrite (bind_ok _ _ _ _ _ Hsave). set (s1 := put_rtasks _ s).
  assert (sig_wf s1) as Hwf1 by by apply sig_wf_update.
  assert (exists rp1, rtasks s1 !! p = Some rp1 /\ tgid rp1 = tgid rp) as (rp1 & Hrp1 & Htg).
  { unfold s1. cbn. destruct (decide (p = t)) as [->|Hne].
    - rewrite lookup_insert_eq. eexists. split; [done|]. cbn. congruence.
    - rewrite lookup_insert_ne by done. by exists rp. }
  destruct (force_spec t status s1 (save r) p rp1 Hwf1) as (s2 & more & Hs2 & Hq & Hex); [apply lookup_insert_eq|done|done|].
  rewrite (bind_ok _ _ _ _ _ Hs2).
  assert (quiet (put_rtasks (<[t := stopped_by status (save r)]> (rtasks s)) s) s2 more) as Hq'.
  { destruct Hq as [Hqt Hqg Hqh Hqs]. split; try done. rewrite Hqt. unfold s1. cbn. by rewrite insert_insert_eq. }
  destruct (quiet_lookup _ _ _ t (stopped_by status (save r)) Hq') as (r' & Hr' & Hc); [apply lookup_insert_eq|].
  apply task_core_fields in Hc as (_ & _ & _ & _ & Hty & _ & Hpe & Hco).
  exists s2, r', more. split; [done|]. split; [by apply (stop_progress_update s s2 t r (fun r => stopped_by status (save r)) more)|].
  split; [done|]. split; [done|]. split; [done|]. split; [done|]. split; [apply Hq'|]. by rewrite <- Htg.
Qed.

(** A task of the group is stopped, with the status of the signal, and whoever traces it is told. *)
Lemma apply_group_stop_spec sig t s r :
  sig_wf s -> rtasks s !! t = Some r -> 1 <= sig < 128 ->
  exists s' r', apply_group_stop sig t s = (Ok tt, s') /\ stop_progress [t] s s' /\
    rtasks s' !! t = Some r' /\ emulated_stop_type r' <> NOT_STOPPED /\
    (emulated_stop_type r = NOT_STOPPED ->
      emulated_stop_pending r' = true /\ for_group_sig sig (emulated_ptrace_seized r) = Ok (emulated_stop_code r') /\
      forall p rp, emulated_ptracer r = Some p -> rtasks s !! p = Some rp ->
        exists more, sent s' = sent s ++ more /\ Exists (is_SIGCHLD_to (tgid rp)) more).
Proof.
  intros Hwf Ht Hsig. unfold apply_group_stop. rewrite (bind_ok _ _ _ _ _ (the_task_ok t s r Ht)).
  destruct (decide (emulated_stop_type r = NOT_STOPPED)) as [Hrun|Hst].
  2:{ rewrite bool_decide_false by done. exists s, r. split; [done|]. split; [apply stop_progress_refl|]. done. }
  rewrite bool_decide_true by done.
  assert (exists status, for_group_sig sig (emulated_ptrace_seized r) = Ok status) as [status Hstatus].
  { unfold for_group_sig. rewrite (proj2 (Z.leb_le 1 sig)), (proj2 (Z.ltb_lt sig 0x80)) by lia. by eexists. }
  assert (lift (for_group_sig sig (emulated_ptrace_seized r)) s = (Ok status, s)) as Hlift by by rewrite Hstatus.
  rewrite (bind_ok _ _ _ _ _ Hlift). destruct (emulated_ptracer r) as [p|] eqn:Hp.
  - destruct (wf_ptracer s Hwf t r p Ht Hp) as (rp & Hrp & _).
    destruct (emulate_stop_spec t status s r p rp Hwf Ht Hrun Hp Hrp) as (s' & r' & more & Hs' & Hprog & Hr' & Hty & Hco & Hpe & Hsent & Hex).
    rewrite (bind_ok _ _ _ _ _ Hs'). exists s', r'. split; [done|]. split; [done|]. split; [done|].
    split; [rewrite Hty; by destruct (_ =? 0)|]. intros _. split; [done|]. split; [congruence|].
    intros p' rp' [= <-] Hrp'. assert (rp' = rp) as -> by congruence. by exists more.
  - assert (emulate_ptrace_stop t status None 0 s = (Ok false, s)) as Hno.
    { unfold emulate_ptrace_stop. rewrite (bind_ok _ _ _ _ _ (the_task_ok t s r Ht)), Hrun, Hp. by rewrite bool_decide_true. }
    rewrite (bind_ok _ _ _ _ _ Hno).
    set (f := fun r => put_emulated_stop_type GROUP_STOP (put_emulated_stop_code status
        (put_emulated_stop_pending true (put_emulated_SIGCHLD_pending true r)))).
    rewrite (bind_ok _ _ _ _ _ (update_task_ok t f s r Ht)). set (s1 := put_rtasks _ s).
    assert (sig_wf s1) as Hwf1 by by apply sig_wf_update.
    assert (exists s2 more, (parent ← ask (fun s => rtasks s !! get_ppid t);
      match parent with Some _ => send_synthetic_SIGCHLD_if_necessary (get_ppid t) | None => mret tt end) s1 = (Ok tt, s2) /\ quiet s1 s2 more)
      as (s2 & more & Hs2 & Hq).
    { unfold mbind at 1, TM_bind, ask. destruct (rtasks s1 !! get_ppid t) as [rp|] eqn:Hpp.
      - destruct (send_synthetic_spec (get_ppid t) s1 rp Hwf1 Hpp) as (s2 & more & Hs2 & Hq & _). by exists s2, more.
      - exists s1, []. split; [done|apply quiet_refl]. }
    destruct (quiet_lookup _ _ _ t (f r) Hq) as (r' & Hr' & Hc); [apply lookup_insert_eq|].
    apply task_core_fields in Hc as (_ & _ & _ & _ & Hty & _ & Hpe & Hco).
    exists s2, r'. split; [exact Hs2|]. split; [by apply (stop_progress_update s s2 t r f more)|]. split; [done|].
    split; [by rewrite Hty|]. intros _. split; [done|]. split; [by rewrite Hco, Hstatus|]. done.
Qed.

Lemma stop_all_spec sig l s :
  sig_wf s -> (forall u, u ∈ l -> is_Some (rtasks s !! u)) -> 1 <= sig < 128 ->
  exists s', for_all (apply_group_stop sig) l s = (Ok tt, s') /\ stop_progress l s s' /\
    forall u, u ∈ l -> exists r r', rtasks s !! u = Some r /\ rtasks s' !! u = Some r' /\ emulated_stop_type r' <> NOT_STOPPED /\
      (emulated_stop_type r = NOT_STOPPED -> emulated_stop_pending r' = true).
Proof.
  intros Hwf Hl Hsig. revert s Hwf Hl. induction l as [|t l IH]; intros s Hwf Hl; cbn [for_all].
  { exists s. split; [done|]. split; [apply stop_progress_refl|]. intros u Hu. by apply elem_of_nil in Hu. }
  destruct (Hl t ltac:(left)) as [r Ht].
  destruct (apply_group_stop_spec sig t s r Hwf Ht Hsig) as (s1 & r1 & Hs1 & Hprog & Hr1 & Hst1 & Hnew).
  rewrite (bind_ok _ _ _ _ _ Hs1). destruct (IH s1) as (s2 & Hs2 & Hprog2 & Hall).
  { by eapply stop_progress_wf. }
  { intros u Hu. destruct (Hl u ltac:(by right)) as [ru Hu']. destruct (stop_links _ _ _ Hprog u ru Hu') as (r' & -> & _). by eexists. }
  exists s2. split; [done|]. split; [by apply (stop_progress_trans [t] l s s1 s2)|].
  assert (exists r2, rtasks s2 !! t = Some r2 /\ core r2 = core r1) as (r2 & Hr2 & Hc).
  { destruct (stop_links _ _ _ Hprog2 t r1 Hr1) as (r2 & Hr2 & _ & Hsame & _). exists r2. auto. }
  apply task_core_fields in Hc as (_ & _ & _ & _ & Hty & _ & Hpe & _).
  intros u Hu. destruct (decide (u = t)) as [->|Hne].
  - exists r, r2. split; [done|]. split; [done|]. split; [congruence|]. intros Hrun. destruct (Hnew Hrun) as [? _]. congruence.
  - apply elem_of_cons in Hu as [|Hu]; [done|]. destruct (Hall u Hu) as (ru1 & ru2 & Hru1 & Hru2 & Hst2 & Hp2).
    destruct (Hl u ltac:(by right)) as [ru Hru]. destruct (stop_links _ _ _ Hprog u ru Hru) as (ru1' & Hru1' & _ & _ & Hout).
    assert (ru1' = ru1) as -> by congruence. exists ru, ru2. split; [done|]. split; [done|]. split; [done|]. intros Hrun. apply Hp2.
    assert (core ru1 = core ru) as (_ & _ & _ & _ & Heq & _)%task_core_fields; [|congruence]. apply Hout.
    intros Hin. apply list_elem_of_singleton in Hin. done.
Qed.

(** ** Signals that are delivered *)

Lemma get_handler_ok t sig s r :
  sig_wf s -> rtasks s !! t = Some r -> 0 < sig < NSIG ->
  exists table h, handler_tables s !! sighandlers r = Some table /\ table !! Z.to_nat sig = Some h /\ get_handler t sig s = (Ok h, s).
Proof.
  intros Hwf Ht Hsig. destruct (wf_tables s Hwf t r Ht) as (table & Htable & Hlen).
  assert (is_Some (table !! Z.to_nat sig)) as [h Hh] by (apply lookup_lt_is_Some; rewrite Hlen; lia).
  exists table, h. split; [done|]. split; [done|]. unfold get_handler.
  rewrite (bind_ok _ _ _ _ _ (the_task_ok t s r Ht)), (proj2 (Z.ltb_lt 0 sig)), (proj2 (Z.ltb_lt sig NSIG)) by lia.
  rewrite (bind_ok (ASSERT (true && true)) _ s tt s) by done. rewrite (bind_ok (ask handler_tables) _ s (handler_tables s) s) by done.
  by rewrite Htable, (bind_ok (deref (Some table)) _ s table s), Hh by done.
Qed.

(** The table with a new handler. *)
Definition with_handler (r : rtask) (sig : Z) (h : Sighandler) (s : sig_state) : sig_state :=
  put_handler_tables (alter (fun table => <[Z.to_nat sig := h]> table) (sighandlers r) (handler_tables s)) s.

Lemma set_handler_ok t sig h s r : rtasks s !! t = Some r -> set_handler t sig h s = (Ok tt, with_handler r sig h s).
Proof. intros Ht. unfold set_handler. by rewrite (bind_ok _ _ _ _ _ (the_task_ok t s r Ht)). Qed.

Lemma with_handler_wf r sig h s : sig_wf s -> sig_wf (with_handler r sig h s).
Proof.
  intros [H1 H2 H3 H4 H5 H6]. split; try done. intros u ru Hu. destruct (H6 u ru Hu) as (table & Htable & Hlen). cbn.
  destruct (decide (sighandlers r = sighandlers ru)) as [Heq|Hne].
  - rewrite Heq, list_lookup_alter_eq, Htable. eexists. split; [done|]. by rewrite length_insert.
  - rewrite list_lookup_alter_ne by done. by exists table.
Qed.

Lemma get_handler_set t sig h s r :
  sig_wf s -> rtasks s !! t = Some r -> 0 < sig < NSIG -> get_handler t sig (with_handler r sig h s) = (Ok h, with_handler r sig h s).
Proof.
  intros Hwf Ht Hsig. destruct (get_handler_ok t sig s r Hwf Ht Hsig) as (table & h0 & Htable & Hh0 & _).
  destruct (get_handler_ok t sig (with_handler r sig h s) r (with_handler_wf r sig h s Hwf) Ht Hsig) as (table' & h' & Htable' & Hh' & ->).
  cbn in Htable'. rewrite list_lookup_alter_eq, Htable in Htable'. injection Htable' as <-.
  rewrite list_lookup_insert_eq in Hh' by (by eapply lookup_lt_Some). by injection Hh' as <-.
Qed.

(** The handler after a delivery, which [SA_RESETHAND] resets. *)
Definition handler_after (a : SupportedArch) (h : Sighandler) : Sighandler := if resethand h then reset_handler a else h.

Lemma reset_disposition a : disposition (reset_handler a) = SIGNAL_DEFAULT.
Proof. done. Qed.

Definition is_stop_signal (sig : Z) : Prop := sig = SIGTSTP \/ sig = SIGTTIN \/ sig = SIGTTOU.

(** A signal that stops a process, given its handler. *)
Definition stops (sig : Z) (h : Sighandler) : Prop :=
  sig = SIGSTOP \/ is_stop_signal sig /\ (resethand h = true \/ disposition h = SIGNAL_DEFAULT).

Lemma stops_default a sig h : stops sig h -> sig <> SIGSTOP -> disposition (handler_after a h) = SIGNAL_DEFAULT.
Proof. intros [->|[_ [Hr|Hd]]] Hne; [done|unfold handler_after; by rewrite Hr|]. unfold handler_after. by destruct (resethand h). Qed.

Lemma stops_range sig h : stops sig h -> 0 < sig < NSIG /\ 1 <= sig < 128.
Proof. intros [->|[[-> | [-> | ->]] _]]; done. Qed.

(** The first part of [signal_delivered]. *)
Lemma reset_step t sig a s r h :
  sig_wf s -> rtasks s !! t = Some r -> 0 < sig < NSIG -> get_handler t sig s = (Ok h, s) ->
  exists s1, (if resethand h then set_handler t sig (reset_handler a) else mret tt) s = (Ok tt, s1) /\
    sig_wf s1 /\ rtasks s1 = rtasks s /\ groups s1 = groups s /\ sent s1 = sent s /\ get_handler t sig s1 = (Ok (handler_after a h), s1).
Proof.
  intros Hwf Ht Hsig Hh. unfold handler_after. destruct (resethand h).
  - exists (with_handler r sig (reset_handler a) s). split; [by apply set_handler_ok|].
    split; [by apply with_handler_wf|]. split; [done|]. split; [done|]. split; [done|]. by apply get_handler_set.
  - by exists s.
Qed.

Lemma stop_not_ignored t sig a s h :
  stops sig h -> get_handler t sig s = (Ok (handler_after a h), s) -> is_sig_ignored t sig s = (Ok false, s).
Proof.
  intros Hst Hh. unfold is_sig_ignored. destruct (decide (sig = SIGSTOP)) as [->|Hne]; [done|].
  pose proof (stops_default a sig h Hst Hne) as Hd. destruct Hst as [|[[-> | [-> | ->]] _]]; [done| | |];
    cbn; rewrite (bind_ok _ _ _ _ _ Hh), Hd; done.
Qed.

Lemma stop_delivered t sig a s r g h :
  sig_wf s -> rtasks s !! t = Some r -> groups s !! tgid r = Some g -> get_handler t sig s = (Ok h, s) -> stops sig h ->
  exists s', signal_delivered t sig a s = (Ok tt, s') /\ sig_wf s' /\
    (forall u, u ∈ task_set g -> exists r0 r', rtasks s !! u = Some r0 /\ rtasks s' !! u = Some r' /\
       emulated_stop_type r' <> NOT_STOPPED /\ (emulated_stop_type r0 = NOT_STOPPED -> emulated_stop_pending r' = true) /\
       (emulated_stop_type r0 <> NOT_STOPPED -> core r' = core r0)) /\
    (forall u r0, u ∉ task_set g -> rtasks s !! u = Some r0 -> exists r', rtasks s' !! u = Some r' /\ core r' = core r0).
Proof.
  intros Hwf Ht Hg Hh Hst. destruct (stops_range sig h Hst) as [Hsig Hsig'].
  destruct (reset_step t sig a s r h Hwf Ht Hsig Hh) as (s1 & Hs1 & Hwf1 & Ht1 & Hg1 & _ & Hh1).
  unfold signal_delivered. rewrite (bind_ok _ _ _ _ _ Hh), (bind_ok _ _ _ _ _ Hs1).
  rewrite (bind_ok _ _ _ _ _ (stop_not_ignored t sig a s1 h Hst Hh1)).
  destruct (stop_all_spec sig (task_set g) s1 Hwf1) as (s2 & Hs2 & Hprog & Hall); [|done|].
  { intros u Hu. rewrite Ht1. by eapply set_is_task. }
  assert ((h0 ← get_handler t sig; r0 ← the_task t; g0 ← the_group (tgid r0);
     if (sig =? SIGTSTP) || (sig =? SIGTTIN) || (sig =? SIGTTOU) then
       match disposition h0 with SIGNAL_HANDLER => mret tt | _ => for_all (apply_group_stop sig) (task_set g0) end
     else if sig =? SIGSTOP then for_all (apply_group_stop sig) (task_set g0)
     else if sig =? SIGCONT then emulate_SIGCONT t
     else mret tt) s1 = (Ok tt, s2)) as Hbody.
  { rewrite (bind_ok _ _ _ _ _ Hh1), (bind_ok _ _ _ _ _ (the_task_ok t s1 r ltac:(by rewrite Ht1))).
    rewrite (bind_ok _ _ _ _ _ (the_group_ok (tgid r) s1 g ltac:(by rewrite Hg1))).
    destruct (decide (sig = SIGSTOP)) as [->|Hne]; [done|].
    rewrite (stops_default a sig h Hst Hne). destruct Hst as [|[[-> | [-> | ->]] _]]; [done|exact Hs2..]. }
  rewrite (bind_ok _ _ _ _ _ Hbody).
  pose proof (stop_progress_wf _ _ _ Hprog Hwf1) as Hwf2.
  destruct (stop_links _ _ _ Hprog t r ltac:(by rewrite Ht1)) as (r2 & Hr2 & _).
  destruct (send_synthetic_spec t s2 r2 Hwf2 Hr2) as (s3 & more & Hs3 & Hq & _). exists s3. split; [done|].
  split; [by eapply sig_wf_quiet|]. rewrite <- Ht1. split.
  - intros u Hu. destruct (Hall u Hu) as (r0 & r' & Hr0 & Hr' & Hty & Hpe).
    destruct (quiet_lookup _ _ _ u r' Hq Hr') as (r'' & Hr'' & (_ & _ & _ & _ & Hty' & _ & Hpe' & _)%task_core_fields).
    exists r0, r''. split; [done|]. split; [done|]. split; [congruence|]. split; [intros Hrun; rewrite Hpe'; auto|].
    intros Hstopped. destruct (stop_links _ _ _ Hprog u r0 Hr0) as (r1 & Hr1 & _ & Hkeep & _).
    destruct (quiet_lookup _ _ _ u r1 Hq Hr1) as (r1' & Hr1' & Hc). assert (r1' = r'') as -> by congruence. rewrite Hc. auto.
  - intros u r0 Hu Hr0. destruct (stop_links _ _ _ Hprog u r0 Hr0) as (r' & Hr' & _ & _ & Hout).
    destruct (quiet_lookup _ _ _ u r' Hq Hr') as (r'' & Hr'' & Hc). exists r''. split; [done|]. rewrite Hc. auto.
Qed.

(** C18.  When a stop signal is delivered, `signal_delivered` stops every task
    of the process and no other: tasks that were running get a pending stop for
    whoever waits for them, tasks that were stopped are as they were, tasks of
    other processes do not change (up to the copies rr keeps of signal masks),
    and no assertion fails and no dangling pointer is used on the way, whoever
    traces whom, provided that the SIGCHLDs rr queues with rt_sigqueueinfo and
    rt_tgsigqueueinfo are accepted, which the code asserts.  The signal is
    SIGSTOP, or SIGTSTP, SIGTTIN or SIGTTOU with the default action or a handler
    that is reset. *)
Theorem stop_signal_stops_process t sig a s r g h :
  sig_wf s -> rtasks s !! t = Some r -> groups s !! tgid r = Some g -> get_handler t sig s = (Ok h, s) -> stops sig h ->
  exists s', signal_delivered t sig a s = (Ok tt, s') /\ sig_wf s' /\
    (forall u, u ∈ task_set g -> exists r0 r', rtasks s !! u = Some r0 /\ rtasks s' !! u = Some r' /\
       emulated_stop_type r' <> NOT_STOPPED /\ (emulated_stop_type r0 = NOT_STOPPED -> emulated_stop_pending r' = true) /\
       (emulated_stop_type r0 <> NOT_STOPPED -> core r' = core r0)) /\
    (forall u r0, u ∉ task_set g -> rtasks s !! u = Some r0 -> exists r', rtasks s' !! u = Some r' /\ core r' = core r0).
Proof. by apply stop_delivered. Qed.

(** A process with a handler for SIGTSTP that has SA_RESETHAND is stopped by rr
    when the handler is called. *)
Theorem stopped_although_handled t a s r g h :
  sig_wf s -> rtasks s !! t = Some r -> groups s !! tgid r = Some g -> t ∈ task_set g ->
  get_handler t SIGTSTP s = (Ok h, s) -> disposition h = SIGNAL_HANDLER -> resethand h = true ->
  exists s' r', signal_delivered t SIGTSTP a s = (Ok tt, s') /\ rtasks s' !! t = Some r' /\ emulated_stop_type r' <> NOT_STOPPED.
Proof.
  intros Hwf Ht Hg Hin Hh _ Hr.
  destruct (stop_delivered t SIGTSTP a s r g h Hwf Ht Hg Hh) as (s' & Hs' & _ & Hall & _); [right; split; by left|].
  destruct (Hall t Hin) as (r0 & r' & _ & Hr' & Hty & _). by exists s', r'.
Qed.

(** ** Resuming a process *)

Definition resumed (r : rtask) : rtask := put_emulated_stop_type NOT_STOPPED (put_emulated_stop_pending false r).

Lemma resume_all l s :
  (forall u, u ∈ l -> is_Some (rtasks s !! u)) ->
  exists s', for_all (fun x => the_task x ≫= fun _ => update_task x resumed) l s = (Ok tt, s') /\
    groups s' = groups s /\ handler_tables s' = handler_tables s /\ sent s' = sent s /\
    forall u, rtasks s' !! u = if decide (u ∈ l) then resumed <$> rtasks s !! u else rtasks s !! u.
Proof.
  revert s. induction l as [|t l IH]; intros s Hl; cbn [for_all].
  { exists s. split; [done|]. split; [done|]. split; [done|]. split; [done|]. intros u. by rewrite decide_False by apply not_elem_of_nil. }
  destruct (Hl t ltac:(left)) as [r Ht].
  assert ((the_task t ≫= fun _ => update_task t resumed) s = (Ok tt, put_rtasks (<[t := resumed r]> (rtasks s)) s)) as Hstep.
  { rewrite (bind_ok _ _ _ _ _ (the_task_ok t s r Ht)). by apply update_task_ok. }
  rewrite (bind_ok _ _ _ _ _ Hstep). set (s1 := put_rtasks _ s). destruct (IH s1) as (s' & Hs' & Hg & Hh & Hsent & Hlook).
  { intros u Hu. unfold s1. cbn. destruct (decide (u = t)) as [->|Hne]; [by rewrite lookup_insert_eq|].
    rewrite lookup_insert_ne by done. apply Hl. by right. }
  exists s'. split; [done|]. split; [done|]. split; [done|]. split; [done|]. intros u. rewrite Hlook. unfold s1. cbn [put_rtasks rtasks].
  destruct (decide (u = t)) as [->|Hne].
  - rewrite lookup_insert_eq, Ht. rewrite (decide_True (P := t ∈ t :: l)) by left. by destruct (decide (t ∈ l)).
  - rewrite lookup_insert_ne by done. destruct (decide (u ∈ l)) as [Hin|Hout].
    + by rewrite decide_True by by right.
    + rewrite decide_False; [done|]. rewrite not_elem_of_cons. auto.
Qed.

(** SIGCONT resumes every task of the process, unless it is ignored. *)
Theorem continue_resumes_process t a s r g h :
  sig_wf s -> rtasks s !! t = Some r -> groups s !! tgid r = Some g -> get_handler t SIGCONT s = (Ok h, s) -> disposition h <> SIGNAL_IGNORE ->
  exists s', signal_delivered t SIGCONT a s = (Ok tt, s') /\ sig_wf s' /\
    (forall u r', u ∈ task_set g -> rtasks s' !! u = Some r' -> emulated_stop_type r' = NOT_STOPPED /\ emulated_stop_pending r' = false) /\
    (forall u r0, u ∉ task_set g -> rtasks s !! u = Some r0 -> exists r', rtasks s' !! u = Some r' /\ core r' = core r0).
Proof.
  intros Hwf Ht Hg Hh Hd. assert (0 < SIGCONT < NSIG) as Hsig by done.
  destruct (reset_step t SIGCONT a s r h Hwf Ht Hsig Hh) as (s1 & Hs1 & Hwf1 & Ht1 & Hg1 & _ & Hh1).
  unfold signal_delivered. rewrite (bind_ok _ _ _ _ _ Hh), (bind_ok _ _ _ _ _ Hs1).
  assert (is_sig_ignored t SIGCONT s1 = (Ok false, s1)) as Hign.
  { unfold is_sig_ignored. cbn [is_unstoppable_signal SIGCONT SIGSTOP SIGKILL Z.eqb Pos.eqb orb].
    rewrite (bind_ok _ _ _ _ _ Hh1). unfold handler_after. destruct (resethand h); [done|]. by destruct (disposition h). }
  rewrite (bind_ok _ _ _ _ _ Hign).
  destruct (resume_all (task_set g) s1) as (s2 & Hs2 & Hg2 & Hh2 & _ & Hlook).
  { intros u Hu. rewrite Ht1. by eapply set_is_task. }
  assert (sig_wf s2) as Hwf2.
  { apply (sig_wf_links s1); [done|done| |done]. intros u. rewrite Hlook. destruct (rtasks s1 !! u); by destruct (decide (u ∈ task_set g)). }
  assert (emulate_SIGCONT t s1 = (Ok tt, s2)) as Hcont.
  { unfold emulate_SIGCONT. rewrite (bind_ok _ _ _ _ _ (the_task_ok t s1 r ltac:(by rewrite Ht1))).
    by rewrite (bind_ok _ _ _ _ _ (the_group_ok (tgid r) s1 g ltac:(by rewrite Hg1))). }
  assert ((h0 ← get_handler t SIGCONT; r0 ← the_task t; g0 ← the_group (tgid r0);
     if (SIGCONT =? SIGTSTP) || (SIGCONT =? SIGTTIN) || (SIGCONT =? SIGTTOU) then
       match disposition h0 with SIGNAL_HANDLER => mret tt | _ => for_all (apply_group_stop SIGCONT) (task_set g0) end
     else if SIGCONT =? SIGSTOP then for_all (apply_group_stop SIGCONT) (task_set g0)
     else if SIGCONT =? SIGCONT then emulate_SIGCONT t
     else mret tt) s1 = (Ok tt, s2)) as Hbody.
  { rewrite (bind_ok _ _ _ _ _ Hh1), (bind_ok _ _ _ _ _ (the_task_ok t s1 r ltac:(by rewrite Ht1))).
    by rewrite (bind_ok _ _ _ _ _ (the_group_ok (tgid r) s1 g ltac:(by rewrite Hg1))). }
  rewrite (bind_ok _ _ _ _ _ Hbody).
  assert (exists r2, rtasks s2 !! t = Some r2) as [r2 Hr2].
  { rewrite Hlook, Ht1, Ht. destruct (decide (t ∈ task_set g)); by eexists. }
  destruct (send_synthetic_spec t s2 r2 Hwf2 Hr2) as (s3 & more & Hs3 & Hq & _). exists s3. split; [done|].
  split; [by eapply sig_wf_quiet|]. rewrite <- Ht1. split.
  - intros u r' Hu Hr'. destruct (quiet_lookup' _ _ _ u r' Hq Hr') as (r0 & Hr0 & (_ & _ & _ & _ & Hty & _ & Hpe & _)%task_core_fields).
    rewrite Hlook, decide_True in Hr0 by done. apply fmap_Some in Hr0 as (r1 & _ & ->). by rewrite <- Hty, <- Hpe.
  - intros u r0 Hu Hr0. destruct (quiet_lookup _ _ _ u r0 Hq) as (r' & Hr' & Hc); [by rewrite Hlook, decide_False|]. by exists r'.
Qed.

End Queued.

(** ** Which signals kill *)

(** A signal kills a task when its default action does and nothing is in its way; a synchronous one also when it is ignored. *)
Definition kills (h : Sighandler) (sig : Z) (action : signal_action) (d : SignalDeterministic) : bool :=
  match action with
  | DUMP_CORE | TERMINATE =>
      match disposition h with
      | SIGNAL_DEFAULT => true
      | SIGNAL_IGNORE => (sig =? SIGKILL) || bool_decide (d = DETERMINISTIC_SIG)
      | SIGNAL_HANDLER => false
      end
  | _ => false
  end.

(** `is_fatal_signal` says what the kernel does with the signal. *)
Theorem fatal_signal_spec t sig d s r g h action :
  rtasks s !! t = Some r -> groups s !! tgid r = Some g -> get_handler t sig s = (Ok h, s) -> default_action sig = Ok action ->
  is_fatal_signal t sig d s = (Ok (received_sigframe_SIGSEGV g || kills h sig action d), s).
Proof.
  intros Ht Hg Hh Ha. unfold is_fatal_signal. rewrite (bind_ok _ _ _ _ _ (the_task_ok t s r Ht)), (bind_ok _ _ _ _ _ (the_group_ok _ s g Hg)).
  destruct (received_sigframe_SIGSEGV g); [done|]. rewrite Ha, (bind_ok (lift (Ok action)) _ s action s) by done.
  assert (signal_has_user_handler t sig s = (Ok (bool_decide (disposition h = SIGNAL_HANDLER)), s)) as Huser.
  { unfold signal_has_user_handler. by rewrite (bind_ok _ _ _ _ _ Hh). }
  assert (action = DUMP_CORE \/ action = TERMINATE -> is_sig_ignored t sig s = (Ok (bool_decide (disposition h = SIGNAL_IGNORE) && negb (sig =? SIGKILL)), s)) as Hign.
  { intros Hact. unfold is_sig_ignored, is_unstoppable_signal. destruct (sig =? SIGSTOP) eqn:Hstop.
    { apply Z.eqb_eq in Hstop as ->. cbn in Ha. injection Ha as <-. by destruct Hact. }
    destruct (sig =? SIGKILL); [by rewrite andb_false_r|]. cbn [orb negb]. rewrite andb_true_r, (bind_ok _ _ _ _ _ Hh).
    destruct (disposition h); try done. rewrite Ha, (bind_ok (lift (Ok action)) _ s action s) by done. by destruct Hact as [-> | ->]. }
  assert (action = DUMP_CORE \/ action = TERMINATE ->
    (ignored ← is_sig_ignored t sig; if ignored : bool then mret (bool_decide (d = DETERMINISTIC_SIG))
     else user ← signal_has_user_handler t sig; mret (negb user)) s = (Ok (kills h sig action d), s)) as Hkill.
  { intros Hact. rewrite (bind_ok _ _ _ _ _ (Hign Hact)). unfold kills.
    assert ((user ← signal_has_user_handler t sig; mret (negb user)) s = (Ok (negb (bool_decide (disposition h = SIGNAL_HANDLER))), s)) as Hu
      by by rewrite (bind_ok _ _ _ _ _ Huser).
    destruct (disposition h) eqn:Hd.
    - rewrite bool_decide_false by done. cbn [andb]. rewrite Hu. by destruct Hact as [-> | ->].
    - rewrite bool_decide_true by done. cbn [andb]. destruct (sig =? SIGKILL); cbn [negb orb]; [rewrite Hu|]; by destruct Hact as [-> | ->].
    - rewrite bool_decide_false by done. cbn [andb]. rewrite Hu. by destruct Hact as [-> | ->]. }
  destruct action; try done; apply Hkill; auto.
Qed.

(** ** Shared tables *)

(** A new handler is seen by the tasks that share the table and by no other. *)
Theorem sigaction_shared t u sig ksa s r ru h :
  sig_wf s -> rtasks s !! t = Some r -> rtasks s !! u = Some ru -> 0 < sig < NSIG -> get_handler u sig s = (Ok h, s) ->
  exists s', update_sigaction t sig 0 (Some ksa) s = (Ok tt, s') /\ rtasks s' = rtasks s /\
    get_handler u sig s' = (Ok (if decide (sighandlers ru = sighandlers r) then init_arch ksa else h), s').
Proof.
  intros Hwf Ht Hu Hsig Hh. destruct (get_handler_ok t sig s r Hwf Ht Hsig) as (table & h0 & Htable & Hh0 & Hget).
  exists (with_handler r sig (init_arch ksa) s). split.
  { unfold update_sigaction. cbn [Z.eqb]. rewrite (bind_ok _ _ _ _ _ Hget). by apply set_handler_ok. }
  split; [done|]. destruct (decide (sighandlers ru = sighandlers r)) as [Heq|Hne].
  - assert (with_handler r sig (init_arch ksa) s = with_handler ru sig (init_arch ksa) s) as -> by (unfold with_handler; by rewrite Heq).
    by apply get_handler_set.
  - destruct (get_handler_ok u sig s ru Hwf Hu Hsig) as (tu & hu & Htu & Hhu & Hgu). assert (hu = h) as -> by congruence.
    destruct (get_handler_ok u sig (with_handler r sig (init_arch ksa) s) ru (with_handler_wf _ _ _ _ Hwf) Hu Hsig) as (tu' & hu' & Htu' & Hhu' & ->).
    cbn in Htu'. rewrite list_lookup_alter_ne in Htu' by done. congruence.
Qed.

(** The status of the SIGCHLD that rr fills in for a tracer is always zero:
    [si_value] is cleared after the status was put into the same bytes. *)
Theorem sigchld_status_lost self si s r t rt :
  sig_wf s -> rtasks s !! self = Some r -> is_synthetic_SIGCHLD si = true -> emulated_ptrace_tracees r = [t] ->
  rtasks s !! t = Some rt -> emulated_ptrace_SIGCHLD_pending rt = true ->
  exists s' si', set_siginfo_for_synthetic_SIGCHLD self false si s = (Ok (true, si'), s') /\ si_value si' = 0 /\
    si_value (set_siginfo_for_waited_task rt si) = (if bool_decide (emulated_stop_type rt = GROUP_STOP) then stop_sig else ptrace_signal) (emulated_stop_code rt).
Proof.
  intros Hwf Hr Hsyn Htr Ht Hp. unfold set_siginfo_for_synthetic_SIGCHLD. rewrite Hsyn. cbn [negb].
  rewrite (bind_ok _ _ _ _ _ (the_task_ok self s r Hr)), Htr.
  assert (find_task emulated_ptrace_SIGCHLD_pending [t] s = (Ok (Some t), s)) as Hfind.
  { unfold find_task. cbn [find_m]. unfold mbind, TM_bind. by rewrite (the_task_ok t s rt Ht), Hp. }
  rewrite (bind_ok _ _ _ _ _ Hfind). rewrite (bind_ok _ _ _ _ _ (update_task_ok t _ s rt Ht)).
  set (s1 := put_rtasks _ s). assert (rtasks s1 !! t = Some (put_emulated_ptrace_SIGCHLD_pending false rt)) as Ht1 by apply lookup_insert_eq.
  rewrite (bind_ok _ _ _ _ _ (the_task_ok t s1 _ Ht1)). eexists _, _. split; [done|]. split; [done|].
  unfold set_siginfo_for_waited_task. by destruct (emulated_stop_type rt).
Qed.

End State.

(** The value of a queued signal and the status of a SIGCHLD are at the same offset of [siginfo_t]. *)
Lemma status_is_value a :
  (offsetof "si_sigval_" (Struct false [("si_pid_", i32); ("si_uid_", i32); ("si_sigval_", sigval_t a)]))%string =
  (offsetof "si_status_" (Struct false [("si_pid_", i32); ("si_uid_", i32); ("si_status_", i32); ("si_utime_", word a); ("si_stime_", word a)]))%string.
Proof. by destruct a. Qed.

(** The status of a group stop of a task that was attached with PTRACE_SEIZE is lost too: [stop_sig] is zero for it. *)
Lemma seized_stop_status sig s : 1 <= sig < 128 -> for_group_sig sig true = Ok s -> stop_sig s = 0.
Proof.
  intros Hsig Hs.
  assert (exists s0, for_group_sig sig true = Ok s0 /\ decode s0 = (Ok GROUP_STOP_STATUS, -1, 0, 0, sig, false, 0, sig)) as (s0 & Hs0 & Hd).
  { apply decodes_spec. revert sig Hsig Hs.
    assert (forall sig, 1 <= sig < 1 + 127 -> decodes (for_group_sig sig true) (Ok GROUP_STOP_STATUS, -1, 0, 0, sig, false, 0, sig) = true) as Hall.
    { apply (check_range (fun sig => decodes (for_group_sig sig true) (Ok GROUP_STOP_STATUS, -1, 0, 0, sig, false, 0, sig))). vm_compute. reflexivity. }
    intros sig Hsig _. apply Hall. lia. }
  unfold decode in Hd. congruence.
Qed.

(** ** Inputs *)

Definition sample_env : SignalEnv := {| sigqueueinfo := fun _ _ => true; getpgid := fun x => x; get_ppid := fun _ => 10; read_sigmask_from_process := fun _ => 0; getuid := 1000 |}.

Definition no_task (g : Z) (table : nat) : rtask :=
  mkTask g [] false false false false table None [] NOT_STOPPED 0 false false false false WAIT_TYPE_NONE 0 [] false 0.

(** Process 10 traces the first of the two threads of process 20, which has a handler for SIGTSTP that is to be reset. *)
Definition sample_tasks : gmap Z rtask :=
  <[10 := put_emulated_ptrace_tracees [20] (no_task 10 0)]> (<[20 := put_emulated_ptracer (Some 10) (no_task 20 1)]>
    (<[21 := no_task 20 1]> ∅)).

Definition sample_groups : gmap Z tgroup :=
  <[10 := mkGroup [10] None [20] false]> (<[20 := mkGroup [20; 21] (Some 10) [] false]> ∅).

Definition default_table : list Sighandler := replicate 65 new_sighandler.

Definition sample_signals : sig_state :=
  mkSignals sample_tasks sample_groups
    [default_table; <[20%nat := init_arch (mkSigaction 4096 (SA_RESETHAND + SA_SIGINFO) [1; 2; 3])]> default_table] [] 0.

Ltac split_lookup H := repeat (apply lookup_insert_Some in H as [[<- <-]|[_ H]]); [..|try by rewrite lookup_empty in H].

Lemma sample_wf : sig_wf sample_signals.
Proof.
  split.
  - intros t r Ht. cbn in Ht. unfold sample_tasks in Ht. split_lookup Ht; by eexists.
  - intros k g t Hg Ht. cbn in Hg. unfold sample_groups in Hg. split_lookup Hg;
      repeat (apply elem_of_cons in Ht as [->|Ht]; [by eexists|]); by apply elem_of_nil in Ht.
  - intros k g c Hg Hc. cbn in Hg. unfold sample_groups in Hg. split_lookup Hg;
      repeat (apply elem_of_cons in Hc as [->|Hc]; [by eexists|]); by apply elem_of_nil in Hc.
  - intros t r u Ht Hu. cbn in Ht. unfold sample_tasks in Ht. split_lookup Ht;
      repeat (apply elem_of_cons in Hu as [->|Hu]; [by eexists|]); by apply elem_of_nil in Hu.
  - intros t r p Ht Hp. cbn in Ht. unfold sample_tasks in Ht. split_lookup Ht; cbn in Hp; try done. injection Hp as <-.
    eexists. split; [done|]. cbn. apply list_elem_of_singleton. done.
  - intros t r Ht. cbn in Ht. unfold sample_tasks in Ht. split_lookup Ht; by eexists.
Qed.

#[local] Existing Instance sample_env.

Lemma stop_signal_stops_process_witness :
  exists s', signal_delivered 20 SIGSTOP x86_64 sample_signals = (Ok tt, s') /\ sig_wf s' /\
    (forall u, u ∈ [20; 21] -> exists r0 r', rtasks sample_signals !! u = Some r0 /\ rtasks s' !! u = Some r' /\
       emulated_stop_type r' <> NOT_STOPPED /\ (emulated_stop_type r0 = NOT_STOPPED -> emulated_stop_pending r' = true) /\
       (emulated_stop_type r0 <> NOT_STOPPED -> core r' = core r0)) /\
    (forall u r0, u ∉ [20; 21] -> rtasks sample_signals !! u = Some r0 -> exists r', rtasks s' !! u = Some r' /\ core r' = core r0).
Proof.
  apply (stop_signal_stops_process (E := sample_env) (fun _ _ => eq_refl) 20 SIGSTOP x86_64 sample_signals (put_emulated_ptracer (Some 10) (no_task 20 1))
    (mkGroup [20; 21] (Some 10) [] false) new_sighandler); [exact sample_wf|reflexivity|reflexivity|reflexivity|]. by left.
Defined.

Lemma stopped_although_handled_witness :
  exists s' r', signal_delivered 20 SIGTSTP x86_64 sample_signals = (Ok tt, s') /\ rtasks s' !! 20 = Some r' /\ emulated_stop_type r' <> NOT_STOPPED.
Proof.
  apply (stopped_although_handled (E := sample_env) (fun _ _ => eq_refl) 20 x86_64 sample_signals (put_emulated_ptracer (Some 10) (no_task 20 1))
    (mkGroup [20; 21] (Some 10) [] false) (init_arch (mkSigaction 4096 (SA_RESETHAND + SA_SIGINFO) [1; 2; 3])));
    [exact sample_wf|reflexivity|reflexivity|left|reflexivity|reflexivity|reflexivity].
Defined.

(** A task gets a signal, is let through an untraced system call, gets the signal again, and one that rr made up. *)
Definition usr1 : siginfo := mkSiginfo 10 0 0 0 0.
Definition usr1_status : Z := Z.lor (Z.shiftl 10 8) 0x7f.
Definition child_signal : siginfo := mkSiginfo SIGCHLD SI_QUEUE 0 0 SIGCHLD_SYNTHETIC.

Definition stashed_once : sig_state := (stash_sig 20 usr1_status usr1 false sample_signals).2.
Definition let_through : sig_state := (disable_untraced_breakpoints 20 stashed_once).2.
Definition stashed_again : sig_state := (stash_sig 20 usr1_status usr1 false let_through).2.
Definition stashed_both : sig_state := (stash_synthetic_sig 20 child_signal NONDETERMINISTIC_SIG stashed_again).2.

Lemma stashes_in_order_witness :
  stashes_ok stashed_both /\
  (fun r => stash_info <$> stashed_signals r) <$> rtasks stashed_both !! 20 = Some [child_signal; usr1].
Proof.
  split; [|vm_compute; reflexivity]. apply stashes_in_order.
  apply (history_synthetic stashed_again 20 child_signal NONDETERMINISTIC_SIG); [|vm_compute; reflexivity].
  apply (history_stash let_through 20 usr1_status usr1 false); [|reflexivity|vm_compute; reflexivity].
  apply (history_untraced stashed_once 20); [|vm_compute; reflexivity].
  apply (history_stash sample_signals 20 usr1_status usr1 false); [|reflexivity|vm_compute; reflexivity].
  apply history_start. intros t r Ht. cbn in Ht. unfold sample_tasks in Ht. split_lookup Ht; done.
Defined.
