(* ===== verification/Monkeypatch.v ===== *)
(** * Patching system calls (Monkeypatcher.cc)

    [Monkeypatcher::try_patch_syscall] replaces a system call instruction, and the known
    instructions that follow it, by a jump to a stub; the stub switches the stack and jumps to the
    hook of the preload library.  Stubs are allocated in pages within 2 GB of the patched code.

    The state has the address space of the task ([AddressMaps]), its memory, the data and the
    mappings written to the trace, the patcher, the registers, the signals of the task
    ([Signals]) and the stops the kernel still reports for it.  [extended_jump_page::allocated]
    and the stubs' sizes are [size_t]; a [std::map] is the list of its entries in order. *)

From Stdlib Require Import String.
From stdpp Require Import base tactics list numbers gmap.
From S2P Require Import Prelude KernelAbi PreloadInterface TracerMonad Watchpoints KernelMappings SyscallParams SyscallSockets Signals AddressMaps.
Local Open Scope Z_scope.

(** ** Assembly templates *)

(** [assembly_templates.py]: the bytes of a template, its fields in order. *)
Inductive chunk := RawBytes (l : list Z) | Field (name : string) (n : nat).

Definition chunk_size (c : chunk) : nat := match c with RawBytes l => length l | Field _ n => n end.

Definition template_size (t : list chunk) : Z := Z.of_nat (list_sum (map chunk_size t)).

(** [substitute]: an integer field gets the low bytes of its value. *)
Fixpoint substitute (t : list chunk) (values : list Z) : list Z :=
  match t, values with
  | RawBytes l :: t, vs => l ++ substitute t vs
  | Field _ n :: t, v :: vs => le_bytes n v ++ substitute t vs
  | _, _ => []
  end.

(** The offset of the end of a field. *)
Fixpoint field_end (name : string) (t : list chunk) : Z :=
  match t with
  | [] => 0
  | c :: t =>
      Z.of_nat (chunk_size c) +
      match c with Field n _ => if String.eqb n name then 0 else field_end name t | RawBytes _ => field_end name t end
  end.

Definition X86SysenterVsyscallSyscallHook : list chunk := [RawBytes [0xe9]; Field "syscall_hook_trampoline" 4].

Definition X86SyscallStubExtendedJump : list chunk :=
  [RawBytes [0x89; 0x25; 0x08; 0x10; 0x00; 0x70];
   RawBytes [0xFF; 0x05; 0x0c; 0x10; 0x00; 0x70];
   RawBytes [0x83; 0x3c; 0x25; 0x0c; 0x10; 0x00; 0x70; 0x01];
   RawBytes [0x75; 0x06];
   RawBytes [0x8b; 0x25; 0x00; 0x10; 0x00; 0x70];
   RawBytes [0xff; 0x35; 0x08; 0x10; 0x00; 0x70];
   RawBytes [0x68]; Field "return_addr" 4;
   RawBytes [0xe9]; Field "trampoline_relative_addr" 4].

Definition X64JumpMonkeypatch : list chunk := [RawBytes [0xe9]; Field "relative_addr" 4].

Definition X64SyscallStubExtendedJump : list chunk :=
  [RawBytes [0x48; 0x89; 0x24; 0x25; 0x10; 0x10; 0x00; 0x70];
   RawBytes [0xFF; 0x04; 0x25; 0x18; 0x10; 0x00; 0x70];
   RawBytes [0x83; 0x3c; 0x25; 0x18; 0x10; 0x00; 0x70; 0x01];
   RawBytes [0x75; 0x0a];
   RawBytes [0x48; 0x8b; 0x24; 0x25; 0x00; 0x10; 0x00; 0x70];
   RawBytes [0xeb; 0x07];
   RawBytes [0x48; 0x81; 0xec; 0x00; 0x01; 0x00; 0x00];
   RawBytes [0xff; 0x34; 0x25; 0x10; 0x10; 0x00; 0x70];
   RawBytes [0x50];
   RawBytes [0xc7; 0x04; 0x24]; Field "return_addr_lo" 4;
   RawBytes [0xc7; 0x44; 0x24; 0x04]; Field "return_addr_hi" 4;
   RawBytes [0xff; 0x25; 0x00; 0x00; 0x00; 0x00]; Field "jump_target" 8].

Definition JumpPatch (a : SupportedArch) : list chunk :=
  match a with x86 => X86SysenterVsyscallSyscallHook | x86_64 => X64JumpMonkeypatch end.

Definition ExtendedJumpPatch (a : SupportedArch) : list chunk :=
  match a with x86 => X86SyscallStubExtendedJump | x86_64 => X64SyscallStubExtendedJump end.

Definition substitute_extended_jump (a : SupportedArch) (patch_addr return_addr target_addr : Z) : list Z :=
  match a with
  | x86 =>
      let offset := s64 (target_addr - (patch_addr + field_end "trampoline_relative_addr" X86SyscallStubExtendedJump)) in
      substitute X86SyscallStubExtendedJump [u32 return_addr; u32 offset]
  | x86_64 => substitute X64SyscallStubExtendedJump [u32 return_addr; u32 (Z.shiftr return_addr 32); target_addr]
  end.

(** ** The patcher's state *)

Record ExtendedJumpPage := mkPage { page_addr : Z; allocated : Z }.

(** [struct syscall_patch_hook] as rr reads it: 24 bytes. *)
Record patch_hook := mkPatchHook { multi : Z; next_length : Z; next_bytes : list Z; target : Z }.

Definition SIZEOF_hook : Z := 24.

Definition hook_of (l : list Z) : patch_hook :=
  mkPatchHook (nth 0 l 0) (nth 1 l 0) (take 14 (drop 2 l)) (le_value (take 8 (drop 16 l))).

Record Monkeypatcher := mkPatcher {
  extended_jump_pages : list ExtendedJumpPage;
  patched_vdso_syscalls : list Z;
  syscallbuf_stubs : list (Z * Z);
  syscall_hooks : list patch_hook;
  tried_to_patch_syscall_addresses : list Z }.

Definition put_pages v p := mkPatcher v (patched_vdso_syscalls p) (syscallbuf_stubs p) (syscall_hooks p) (tried_to_patch_syscall_addresses p).
Definition put_stubs v p := mkPatcher (extended_jump_pages p) (patched_vdso_syscalls p) v (syscall_hooks p) (tried_to_patch_syscall_addresses p).
Definition put_hooks v p := mkPatcher (extended_jump_pages p) (patched_vdso_syscalls p) (syscallbuf_stubs p) v (tried_to_patch_syscall_addresses p).
Definition put_tried v p := mkPatcher (extended_jump_pages p) (patched_vdso_syscalls p) (syscallbuf_stubs p) (syscall_hooks p) v.

(** The registers that matter here; on x86 the number of the system call and its result share one. *)
Record regs := mkRegs { ip : Z; original_syscallno : Z; syscall_result : Z; sp : Z }.

Definition set_original_syscallno v r := mkRegs (ip r) v (syscall_result r) (sp r).
Definition set_syscall_result v r := mkRegs (ip r) (original_syscallno r) v (sp r).
Definition set_ip v r := mkRegs v (original_syscallno r) (syscall_result r) (sp r).

(** Another task: whether it runs, its instruction pointer, those of its pending system calls. *)
Record other_task := mkOther { is_running : bool; other_ip : Z; pending_syscalls : list Z }.

(** What [resume_execution] comes back with: the status, and the signal's data. *)
Record stop := mkStop { status : Z; info : siginfo; trapped : bool }.

Record mstate := mkMs {
  vm : astate;
  tracee : tmem;
  trace_data : list (Z * list Z);
  trace_maps : list KernelMapping;
  patcher : Monkeypatcher;
  regs_ : regs;
  sigs : sig_state;
  stops : list stop }.

Definition put_vm v s := mkMs v (tracee s) (trace_data s) (trace_maps s) (patcher s) (regs_ s) (sigs s) (stops s).
Definition put_tracee v s := mkMs (vm s) v (trace_data s) (trace_maps s) (patcher s) (regs_ s) (sigs s) (stops s).
Definition put_data v s := mkMs (vm s) (tracee s) v (trace_maps s) (patcher s) (regs_ s) (sigs s) (stops s).
Definition put_maps v s := mkMs (vm s) (tracee s) (trace_data s) v (patcher s) (regs_ s) (sigs s) (stops s).
Definition put_patcher v s := mkMs (vm s) (tracee s) (trace_data s) (trace_maps s) v (regs_ s) (sigs s) (stops s).
Definition put_regs v s := mkMs (vm s) (tracee s) (trace_data s) (trace_maps s) (patcher s) v (sigs s) (stops s).
Definition put_sigs v s := mkMs (vm s) (tracee s) (trace_data s) (trace_maps s) (patcher s) (regs_ s) v (stops s).
Definition put_stops v s := mkMs (vm s) (tracee s) (trace_data s) (trace_maps s) (patcher s) (regs_ s) (sigs s) v.

(** The rest of the task and its session, which patching only reads. *)
Record task_env := mkEnv {
  arch : SupportedArch;
  tid : Z;
  has_emulated_ptracer : bool;
  traced_syscall_ip : Z;
  privileged_traced_syscall_ip : Z;
  seccomp_bpf_enabled : bool;
  syscall_before_seccomp : bool;
  at_seccomp_event : bool;
  recording : bool;
  other_tasks : list other_task;
  local_munmap : Z -> Z -> bool }.

Definition P := TM mstate.

Definition liftP {X} (r : result X) : P X := fun s => (r, s).

Definition in_space {X} (c : A X) : P X := fun s => let '(r, v) := c (vm s) in (r, put_vm v s).
Definition in_signals {X} (c : G X) : P X := fun s => let '(r, v) := c (sigs s) in (r, put_sigs v s).
Definition change_patcher (f : Monkeypatcher -> Monkeypatcher) : P unit := change (fun s => put_patcher (f (patcher s)) s).

(** [write_and_record_mem]. *)
Definition write_and_record_mem (a : Z) (l : list Z) : P unit :=
  m ← ask tracee; m ← liftP (write_bytes m a l); change (put_tracee m);;
  if a =? 0 then mret tt else change (fun s => put_data (trace_data s ++ [(a, l)]) s).

(** ** Hooks and stubs *)

Fixpoint chunks (n : nat) (l : list Z) : list (list Z) :=
  match n with O => [] | S n => take (Z.to_nat SIZEOF_hook) l :: chunks n (drop (Z.to_nat SIZEOF_hook) l) end.

Definition init_dynamic_syscall_patching (syscall_patch_hook_count syscall_patch_hooks : Z) : P unit :=
  if negb (syscall_patch_hook_count =? 0) then
    m ← ask tracee;
    l ← liftP (read_bytes m syscall_patch_hooks (SIZEOF_hook * syscall_patch_hook_count));
    change_patcher (put_hooks (map hook_of (chunks (Z.to_nat syscall_patch_hook_count) l)))
  else mret tt.

(** [std::map]: assignment, and the entries up to a key. *)
Fixpoint stubs_assign (a n : Z) (l : list (Z * Z)) : list (Z * Z) :=
  match l with
  | [] => [(a, n)]
  | x :: l => if a <? fst x then (a, n) :: x :: l else if a =? fst x then (a, n) :: l else x :: stubs_assign a n l
  end.

Definition is_jump_stub_instruction (p : Monkeypatcher) (pp : Z) : bool :=
  match last (fst (span (fun x => fst x <=? pp) (syscallbuf_stubs p))) with
  | None => false
  | Some x => (fst x <=? pp) && (pp <? u64 (fst x + snd x))
  end.

(** A jump from [from_end] to [a] has a 32-bit offset. *)
Definition offset_to (a from_end : Z) : Z := s64 (a - from_end).
Definition near (a from_end : Z) : bool := s32 (offset_to a from_end) =? offset_to a from_end.

Definition fits (size from_end : Z) (p : ExtendedJumpPage) : bool :=
  near (u64 (page_addr p + allocated p)) from_end && (allocated p + size <=? PAGE).

Fixpoint find_page (size from_end : Z) (l : list ExtendedJumpPage) : option nat :=
  match l with
  | [] => None
  | p :: l => if fits size from_end p then Some O else S <$> find_page size from_end l
  end.

Definition MAP_FIXED : Z := 0x10.
Definition IS_PATCH_STUBS : Z := 4.

Section Task.
Variable t : task_env.

(** The page of stubs: a fresh anonymous page, which the kernel fills with zeros. *)
Definition map_stub_page (addr : Z) : P unit :=
  let prot := Z.lor PROT_READ PROT_EXEC in
  let flags := Z.lor MAP_ANONYMOUS (Z.lor MAP_FIXED MAP_PRIVATE) in
  change (fun s => put_tracee (overlay (tracee s) addr (repeat 0 (Z.to_nat PAGE))) s);;
  recorded ← liftP (new_km addr (u64 (addr + PAGE)) [] NO_DEVICE NO_INODE prot flags 0);
  m ← ask tracee;
  in_space (map_memory m (local_munmap t) addr PAGE prot flags 0 [] NO_DEVICE NO_INODE None (Some recorded) None 0 false);;
  in_space (or_mapping_flags addr IS_PATCH_STUBS);;
  change (fun s => put_maps (trace_maps s ++ [recorded]) s).

(** The next stub of the page at [i]. *)
Definition take_stub (size : Z) (i : nat) : P (option Z) :=
  pages ← ask (fun s => extended_jump_pages (patcher s));
  match pages !! i with
  | None => fail BadAccess
  | Some p =>
      change_patcher (put_pages (<[i := mkPage (page_addr p) (allocated p + size)]> pages));;
      mret (Some (u64 (page_addr p + allocated p)))
  end.

(** The address, or nothing when there is no space near. *)
Definition allocate_extended_jump (size from_end : Z) : P (option Z) :=
  pages ← ask (fun s => extended_jump_pages (patcher s));
  page ← match find_page size from_end pages with
         | Some i => mret (Some i)
         | None =>
             l ← ask (fun s => mem (vm s));
             m ← liftP (mapping_of from_end l);
             free_mem ← liftP (find_free_memory (3 * PAGE) (kstart (kmap m)) l);
             let addr := u64 (free_mem + PAGE) in
             if negb (near addr from_end) then mret None
             else
               map_stub_page addr;;
               change_patcher (fun p => put_pages (extended_jump_pages p ++ [mkPage addr 0]) p);;
               mret (Some (length pages))
         end;
  match page with None => mret None | Some i => take_stub size i end.

(** ** The patch *)

Definition syscall_instruction_length : Z := 2.

(** [nops_bufsize] is a [size_t]: a hook of less than three bytes makes it huge, and [new] throws. *)
Definition patch_syscall_with_hook (hook : patch_hook) : P bool :=
  let size := template_size (JumpPatch (arch t)) in
  jump_patch_start ← ask (fun s => ip (regs_ s));
  let jump_patch_end := u64 (jump_patch_start + size) in
  start ← allocate_extended_jump (template_size (ExtendedJumpPatch (arch t))) jump_patch_end;
  match start with
  | None => mret false
  | Some extended_jump_start =>
      if extended_jump_start =? 0 then mret false
      else
      let return_addr := u64 (jump_patch_start + syscall_instruction_length + next_length hook) in
      write_and_record_mem extended_jump_start
        (substitute_extended_jump (arch t) extended_jump_start return_addr (target hook));;
      change_patcher (fun p => put_stubs
        (stubs_assign extended_jump_start (template_size (ExtendedJumpPatch (arch t))) (syscallbuf_stubs p)) p);;
      let jump_offset := offset_to extended_jump_start jump_patch_end in
      let jump_offset32 := s32 jump_offset in
      ASSERT (jump_offset32 =? jump_offset);;
      write_and_record_mem jump_patch_start (substitute (JumpPatch (arch t)) [u32 jump_offset32]);;
      let nops_bufsize := u64 (syscall_instruction_length + next_length hook - size) in
      (if nops_bufsize <? 2 ^ 63 then mret tt else fail Uncaught);;
      write_and_record_mem (u64 (jump_patch_start + size)) (repeat 0x90 (Z.to_nat nops_bufsize));;
      mret true
  end.

(** ** Whether it is safe to patch *)

Definition in_patch (start end_ ip : Z) : bool := (start <=? ip) && (ip <? end_).

Definition task_safe_for_syscall_patching (start end_ : Z) (o : other_task) : bool :=
  if negb (is_running o) && in_patch start end_ (other_ip o) then false
  else forallb (fun ip => negb (in_patch start end_ ip)) (pending_syscalls o).

Definition safe_for_syscall_patching (start end_ : Z) : bool :=
  forallb (task_safe_for_syscall_patching start end_) (other_tasks t).

(** The entries of the rr page and when they may be used. *)
Inductive Enabled := RECORDING_ONLY | REPLAY_ONLY | RECORDING_AND_REPLAY.

#[global] Instance Enabled_eq_dec : EqDecision Enabled.
Proof. solve_decision. Defined.

Definition entry_points : list Enabled :=
  [RECORDING_AND_REPLAY; RECORDING_AND_REPLAY; RECORDING_AND_REPLAY; REPLAY_ONLY; RECORDING_ONLY;
   RECORDING_AND_REPLAY; REPLAY_ONLY; RECORDING_ONLY].

Fixpoint entry_from (i : Z) (l : list Enabled) (ip : Z) : option Enabled :=
  match l with
  | [] => None
  | e :: l => if RR_PAGE_SYSCALL_ADDR i =? ip then Some e else entry_from (i + 1) l ip
  end.

Definition rr_page_syscall_from_entry_point (ip : Z) : option Enabled := entry_from 0 entry_points ip.

Definition bytes_eqb (a b : list Z) : bool := bool_decide (a = b).

Definition int80_insn : list Z := [0xcd; 0x80].
Definition sysenter_insn : list Z := [0x0f; 0x34].
Definition syscall_insn : list Z := [0x0f; 0x05].

(** The architecture of the system call at [ptr], if there is one. *)
Definition get_syscall_instruction_arch (l : list entry) (m : tmem) (ptr : Z) : option SupportedArch :=
  let known :=
    if has_rr_page l then
      match rr_page_syscall_from_entry_point ptr with
      | Some e => bool_decide (e = RECORDING_AND_REPLAY) || bool_decide (e = if recording t then RECORDING_ONLY else REPLAY_ONLY)
      | None => false
      end
    else false in
  if known then Some (arch t)
  else match get_bytes m ptr 2 with
       | None => None
       | Some code =>
           if bytes_eqb code int80_insn || bytes_eqb code sysenter_insn then Some x86
           else if bytes_eqb code syscall_insn then Some x86_64
           else None
       end.

Definition is_in_traced_syscall (ip : Z) : bool :=
  (ip =? u64 (traced_syscall_ip t + syscall_instruction_length)) ||
  (ip =? u64 (privileged_traced_syscall_ip t + syscall_instruction_length)).

(** The hook matches the bytes after the system call. *)
Definition hook_matches (following : list Z) (hook : patch_hook) : bool :=
  (next_length hook <=? Z.of_nat (length following)) &&
  bytes_eqb (take (Z.to_nat (next_length hook)) following) (take (Z.to_nat (next_length hook)) (next_bytes hook)).

(** A short jump at offset [i] that goes back into the patch; the offsets are [int]. *)
Definition interfering_at (hook : patch_hook) (i : nat) (b d : Z) : bool :=
  ((b =? 0xeb) || ((0x70 <=? b) && (b <? 0x80))) &&
  let offset := Z.of_nat i + 2 + wraps 8 d in
  if nz (multi hook) then (0 <=? offset) && (offset <? next_length hook) else offset =? 0.

Fixpoint interfering_from (hook : patch_hook) (i : nat) (l : list Z) : bool :=
  match l with
  | b :: (d :: _) as l' => interfering_at hook i b d || interfering_from hook (S i) l'
  | _ => false
  end.

(** ** Leaving the system call *)

Definition PTRACE_EVENT_EXIT : Z := 6.
Definition PTRACE_EVENT_SECCOMP : Z := 7.
Definition PTRACE_EVENT_SECCOMP_OBSOLETE : Z := 8.

Definition is_ptrace_seccomp_event (status : Z) : bool :=
  (ptrace_event status =? PTRACE_EVENT_SECCOMP_OBSOLETE) || (ptrace_event status =? PTRACE_EVENT_SECCOMP).

(** [ReplaySession::is_ignored_signal]: the time-slice signal. *)
Definition is_ignored_signal (sig : Z) : bool := sig =? SIGSTKFLT.

(** The loop of [exit_syscall], a turn per stop; [NoFuel] says that the task has not stopped again. *)
Fixpoint exit_loop (stops : list stop) (will_see_seccomp : bool) : P bool :=
  match stops with
  | [] => fail NoFuel
  | x :: stops =>
      change (put_stops stops);;
      if will_see_seccomp && is_ptrace_seccomp_event (status x) then exit_loop stops false
      else if ptrace_event (status x) =? PTRACE_EVENT_EXIT then mret false
      else
        ASSERT (ptrace_event (status x) =? 0);;
        if stop_sig (status x) =? 0 then mret true
        else if is_ignored_signal (stop_sig (status x)) && negb (recording t) then exit_loop stops will_see_seccomp
        else
          ASSERT (recording t);;
          in_signals (stash_sig (tid t) (status x) (info x) (trapped x));;
          exit_loop stops will_see_seccomp
  end.

Definition exit_syscall : P bool :=
  l ← ask stops;
  exit_loop l (seccomp_bpf_enabled t && syscall_before_seccomp t && negb (at_seccomp_event t)).

Definition syscall_number_for_gettid : Z := match arch t with x86 => 224 | x86_64 => 186 end.

Definition exit_syscall_and_prepare_restart : P bool :=
  r ← ask regs_;
  let syscallno := s32 (original_syscallno r) in
  change (put_regs (set_original_syscallno syscall_number_for_gettid r));;
  ok ← exit_syscall;
  if negb ok then
    change (put_regs (set_syscall_result (- ENOSYS) (set_original_syscallno syscallno r)));;
    mret false
  else
    change (put_regs (set_ip (u64 (ip r - syscall_instruction_length))
      (set_syscall_result syscallno (set_original_syscallno (-1) r))));;
    mret true.

(** ** Patching *)

Definition add_tried (ip : Z) : P unit :=
  change_patcher (fun p => put_tried (ip :: tried_to_patch_syscall_addresses p) p).

(** The loop over the hooks; the result of the patch is not looked at. *)
Fixpoint try_hooks (ip : Z) (following : list Z) (vdso : bool) (hooks : list patch_hook) : P bool :=
  match hooks with
  | [] => add_tried ip;; mret false
  | hook :: hooks =>
      if hook_matches following hook && (vdso || negb (interfering_from hook 0 following)) then
        if negb (safe_for_syscall_patching ip (u64 (ip + next_length hook))) then mret false
        else
          out ← exit_syscall_and_prepare_restart;
          if negb out then mret false
          else patch_syscall_with_hook hook;; mret true
      else try_hooks ip following vdso hooks
  end.

(** The address of the system call itself. *)
Definition decrement_by_syscall_insn_length (ip : Z) : Z := u64 (ip - syscall_instruction_length).

Definition try_patch_syscall : P bool :=
  p ← ask patcher;
  match syscall_hooks p with
  | [] => mret false
  | hooks =>
      if has_emulated_ptracer t then mret false
      else
        r ← ask regs_;
        let ip := ip r in
        if is_in_traced_syscall ip then mret false
        else if existsb (Z.eqb ip) (tried_to_patch_syscall_addresses p) then mret false
        else
          l ← ask (fun s => mem (vm s));
          m ← ask tracee;
          let call := decrement_by_syscall_insn_length ip in
          if negb (bool_decide (get_syscall_instruction_arch l m call = Some (arch t))) then add_tried ip;; mret false
          else
            try_hooks ip (read_bytes_fallible m ip 256) (existsb (Z.eqb call) (patched_vdso_syscalls p)) hooks
  end.
End Task.
