(* ===== verification/MonkeypatchSpec.v ===== *)
(** * What patched system calls do

    The patched bytes are run on a small x86-64 machine that has the instructions of the
    templates: the jump at the system call reaches the stub, the stub switches to the alternate
    stack or skips the red zone, pushes the old stack pointer and the return address, and arrives
    at the hook.  The stubs lie in pages of their own, do not overlap, and are recognised by
    [is_jump_stub_instruction].  The trace has everything that patching writes. *)

From Stdlib Require Import Sorting.Sorted.
From stdpp Require Import base tactics list numbers.
From S2P Require Import Hook FreeMemory Prelude KernelAbi PreloadInterface TracerMonad Watchpoints WatchpointsSpec KernelMappings SyscallParams SyscallParamsSpec SyscallScratch SyscallDirect SyscallSockets SyscallPrepareSpec Signals AddressMaps AddressMapsInv AddressMapsSpec Monkeypatch.
Local Open Scope Z_scope.

(** ** The machine *)

Record cpu := mkCpu { rip : Z; rsp : Z; rax : Z; zf : bool; cmem : tmem }.

Inductive instr :=
| Jmp (d : Z)
| Jne (d : Z)
| JmpMem (d : Z)
| StoreRsp (a : Z)
| LoadRsp (a : Z)
| IncMem (a : Z)
| CmpMem (a imm : Z)
| SubRsp (imm : Z)
| PushMem (a : Z)
| PushRax
| StoreAtRsp (d imm : Z)
| Nop.

(** What is left of [l] after the bytes of an opcode. *)
Fixpoint after (opcode l : list Z) : option (list Z) :=
  match opcode, l with
  | [], _ => Some l
  | a :: opcode, b :: l => if a =? b then after opcode l else None
  | _ :: _, [] => None
  end.

Definition simm (n : nat) (l : list Z) : Z := wraps (8 * Z.of_nat n) (le_value (take n l)).

(** The opcodes of the templates, with the length of the instruction and its operands; absolute
    addresses and immediates are sign extended. *)
Definition opcodes : list (list Z * (nat * (list Z -> instr))) :=
  [([0xe9], (5%nat, fun l => Jmp (simm 4 l)));
   ([0xeb], (2%nat, fun l => Jmp (simm 1 l)));
   ([0x75], (2%nat, fun l => Jne (simm 1 l)));
   ([0xff; 0x25], (6%nat, fun l => JmpMem (simm 4 l)));
   ([0x48; 0x89; 0x24; 0x25], (8%nat, fun l => StoreRsp (simm 4 l)));
   ([0x48; 0x8b; 0x24; 0x25], (8%nat, fun l => LoadRsp (simm 4 l)));
   ([0xff; 0x04; 0x25], (7%nat, fun l => IncMem (simm 4 l)));
   ([0x83; 0x3c; 0x25], (8%nat, fun l => CmpMem (simm 4 l) (simm 1 (drop 4 l))));
   ([0x48; 0x81; 0xec], (7%nat, fun l => SubRsp (simm 4 l)));
   ([0xff; 0x34; 0x25], (7%nat, fun l => PushMem (simm 4 l)));
   ([0x50], (1%nat, fun _ => PushRax));
   ([0xc7; 0x04; 0x24], (7%nat, fun l => StoreAtRsp 0 (simm 4 l)));
   ([0xc7; 0x44; 0x24], (8%nat, fun l => StoreAtRsp (simm 1 l) (simm 4 (drop 1 l))));
   ([0x90], (1%nat, fun _ => Nop))].

Fixpoint decode_with (table : list (list Z * (nat * (list Z -> instr)))) (l : list Z) : option (instr * Z) :=
  match table with
  | [] => None
  | (o, (n, f)) :: table =>
      match after o l with
      | Some rest => match drop (n - 1) l with [] => None | _ => Some (f rest, Z.of_nat n) end
      | None => decode_with table l
      end
  end.

Definition decode : list Z -> option (instr * Z) := decode_with opcodes.

Definition load (m : tmem) (a : Z) (n : nat) : option Z := le_value <$> get_bytes m a n.

Definition save (m : tmem) (a : Z) (n : nat) (v : Z) : option tmem :=
  match write_bytes m a (le_bytes n v) with Ok m => Some m | Err _ => None end.

Definition push (v : Z) (c : cpu) (next : Z) : option cpu :=
  let a := u64 (rsp c - 8) in
  m ← save (cmem c) a 8 v; Some (mkCpu next a (rax c) (zf c) m).

Definition exec (i : instr) (next : Z) (c : cpu) : option cpu :=
  match i with
  | Jmp d => Some (mkCpu (u64 (next + d)) (rsp c) (rax c) (zf c) (cmem c))
  | Jne d => Some (mkCpu (if zf c then next else u64 (next + d)) (rsp c) (rax c) (zf c) (cmem c))
  | JmpMem d => v ← load (cmem c) (u64 (next + d)) 8; Some (mkCpu v (rsp c) (rax c) (zf c) (cmem c))
  | StoreRsp a => m ← save (cmem c) (u64 a) 8 (rsp c); Some (mkCpu next (rsp c) (rax c) (zf c) m)
  | LoadRsp a => v ← load (cmem c) (u64 a) 8; Some (mkCpu next v (rax c) (zf c) (cmem c))
  | IncMem a =>
      v ← load (cmem c) (u64 a) 4; m ← save (cmem c) (u64 a) 4 (u32 (v + 1));
      Some (mkCpu next (rsp c) (rax c) (u32 (v + 1) =? 0) m)
  | CmpMem a imm => v ← load (cmem c) (u64 a) 4; Some (mkCpu next (rsp c) (rax c) (v =? u32 imm) (cmem c))
  | SubRsp imm => let v := u64 (rsp c - imm) in Some (mkCpu next v (rax c) (v =? 0) (cmem c))
  | PushMem a => v ← load (cmem c) (u64 a) 8; push v c next
  | PushRax => push (rax c) c next
  | StoreAtRsp d imm => m ← save (cmem c) (u64 (rsp c + d)) 4 (u32 imm); Some (mkCpu next (rsp c) (rax c) (zf c) m)
  | Nop => Some (mkCpu next (rsp c) (rax c) (zf c) (cmem c))
  end.

(** An instruction has at most 15 bytes. *)
Definition step (c : cpu) : option cpu :=
  x ← decode (read_bytes_fallible (cmem c) (rip c) 15); exec x.1 (u64 (rip c + x.2)) c.

Fixpoint run (n : nat) (c : cpu) : option cpu :=
  match n with O => Some c | S n => c ← step c; run n c end.

(** ** Memory *)

Lemma fetch_prefix m a l k :
  get_bytes m a (length l) = Some l -> (length l <= k)%nat ->
  exists rest, read_bytes_fallible m a k = l ++ rest.
Proof.
  revert a k. induction l as [|b l IH]; intros a k Hg Hk; [by eexists|].
  destruct k as [|k]; [cbn in Hk; lia|]. cbn in Hg. destruct (m a) as [b'|] eqn:Hb; [|done]. cbn in Hg.
  destruct (get_bytes m (a + 1) (length l)) as [l'|] eqn:Hl; [|done]. injection Hg as -> ->.
  destruct (IH (a + 1) k Hl ltac:(cbn in Hk; lia)) as (rest & Hr). exists rest. cbn. by rewrite Hb, Hr.
Qed.

(** The instruction at [rip] is the one its first bytes say. *)
Lemma step_code c l i n :
  get_bytes (cmem c) (rip c) (length l) = Some l -> (length l <= 15)%nat ->
  (forall rest, decode (l ++ rest) = Some (i, n)) -> step c = exec i (u64 (rip c + n)) c.
Proof.
  intros Hg Hl Hd. destruct (fetch_prefix _ _ _ 15 Hg Hl) as (rest & Hr). unfold step. rewrite Hr, Hd. done.
Qed.

Lemma get_bytes_ext m m' a n :
  (forall x, covers a (Z.of_nat n) x -> m x = m' x) -> get_bytes m a n = get_bytes m' a n.
Proof.
  revert a. induction n as [|n IH]; intros a H; [done|]. cbn. rewrite (H a) by (unfold covers; lia).
  rewrite (IH (a + 1)); [done|]. intros x Hx. apply H. unfold covers in *. lia.
Qed.

(** Blocks that do not meet. *)
Definition apart (a n b k : Z) : Prop := a + n <= b \/ b + k <= a.

Lemma get_bytes_apart m a l b n :
  apart a (Z.of_nat (length l)) b (Z.of_nat n) -> get_bytes (overlay m a l) b n = get_bytes m b n.
Proof. intros H. apply get_bytes_ext. intros x Hx. apply overlay_out. unfold apart, covers in *. lia. Qed.

Lemma get_bytes_split m a l1 l2 :
  get_bytes m a (length (l1 ++ l2)) = Some (l1 ++ l2) ->
  get_bytes m a (length l1) = Some l1 /\ get_bytes m (a + Z.of_nat (length l1)) (length l2) = Some l2.
Proof.
  revert a. induction l1 as [|b l1 IH]; intros a H; [by rewrite Z.add_0_r|]. cbn in H |- *.
  destruct (m a) as [b'|]; [|done]. cbn in H.
  destruct (get_bytes m (a + 1) (length (l1 ++ l2))) as [l|] eqn:E; [|done]. injection H as -> ->.
  destruct (IH _ E) as [H1 H2]. rewrite H1. split; [done|]. rewrite <- H2. f_equal. lia.
Qed.

(** The bytes of a block that is there. *)
Definition present (m : tmem) (a n : Z) : Prop := forall x, covers a n x -> m x <> None.

Lemma get_bytes_present m a n : present m a (Z.of_nat n) -> exists l, get_bytes m a n = Some l.
Proof.
  revert a. induction n as [|n IH]; intros a H; [by eexists|]. cbn.
  destruct (m a) as [b|] eqn:E; [|by destruct (H a ltac:(unfold covers; lia))]. cbn.
  destruct (IH (a + 1)) as (l & ->); [|by eexists]. intros x Hx. apply H. unfold covers in *. lia.
Qed.

Lemma present_overlay m a l b n : present m b n -> present (overlay m a l) b n.
Proof.
  intros H x Hx. destruct (covers_dec a (Z.of_nat (length l)) x) as [Hc|Hc]; [|rewrite overlay_out by done; by apply H].
  rewrite overlay_in by done. apply not_eq_None_Some, lookup_lt_is_Some. unfold covers in Hc. lia.
Qed.

Lemma save_present m a n v : present m a (Z.of_nat n) -> save m a n v = Some (overlay m a (le_bytes n v)).
Proof.
  intros H. unfold save, write_bytes. rewrite le_bytes_length. by destruct (get_bytes_present _ _ _ H) as (l & ->).
Qed.

Lemma load_overlay m a n v : 0 <= v < 256 ^ Z.of_nat n -> load (overlay m a (le_bytes n v)) a n = Some v.
Proof.
  intros Hv. unfold load. rewrite <- (length_le_bytes n v) at 2. rewrite get_bytes_overlay. cbn. by rewrite le_value_le_bytes.
Qed.

Lemma load_apart m a l b n : apart a (Z.of_nat (length l)) b (Z.of_nat n) -> load (overlay m a l) b n = load m b n.
Proof. intros H. unfold load. by rewrite get_bytes_apart. Qed.

Lemma get_bytes_sub m a l k n :
  get_bytes m a (length l) = Some l -> (k + n <= length l)%nat ->
  get_bytes m (a + Z.of_nat k) n = Some (take n (drop k l)).
Proof.
  intros H Hk. rewrite <- (take_drop k l) in H. apply get_bytes_split in H as [_ H].
  rewrite <- (take_drop n (drop k l)) in H. apply get_bytes_split in H as [H _].
  rewrite !length_take, length_drop in H. rewrite (Nat.min_l k (length l)) in H by lia. rewrite (Nat.min_l n) in H by lia. exact H.
Qed.

(** ** The stub *)

Definition ALT_STACK : Z := 0x70001000.
Definition SCRATCH_1 : Z := 0x70001010.
Definition NESTING : Z := 0x70001018.

Lemma run_app a b c c1 : run a c = Some c1 -> run (a + b) c = run b c1.
Proof.
  revert c. induction a as [|a IH]; intros c H; cbn [run Nat.add] in *; [by injection H as ->|].
  destruct (step c) as [c2|]; [by apply IH|done].
Qed.

Lemma run_S n c c1 : step c = Some c1 -> run (S n) c = run n c1.
Proof. intros H. cbn [run]. by rewrite H. Qed.

Section Stub.
Variables stub ret target : Z.
Hypothesis ret_range : 0 <= ret < 2 ^ 64.
Hypothesis target_range : 0 <= target < 2 ^ 64.

Let code : list Z := substitute_extended_jump x86_64 stub ret target.
Definition STUB_SIZE : Z := 79.

Definition has_stub (m : tmem) : Prop := get_bytes m stub (length code) = Some code.

(** Where the hook's frame starts: the alternate stack when this is the outermost call, else below the red zone. *)
Definition frame_top (nesting alt sp : Z) : Z := if u32 (nesting + 1) =? 1 then alt else u64 (sp - 256).

(** What the stub expects of the memory. *)
Record stub_ready (m : tmem) (sp nesting alt : Z) : Prop := {
  sr_code : has_stub m;
  sr_stub : 0 <= stub /\ stub + STUB_SIZE < 2 ^ 64;
  sr_locals : apart stub STUB_SIZE ALT_STACK 28;
  sr_sp : 0 <= sp < 2 ^ 64;
  sr_alt : load m ALT_STACK 8 = Some alt;
  sr_nesting : load m NESTING 4 = Some nesting;
  sr_scratch : present m SCRATCH_1 12;
  sr_top : 16 <= frame_top nesting alt sp < 2 ^ 64;
  sr_frame : present m (frame_top nesting alt sp - 16) 16;
  sr_apart : apart (frame_top nesting alt sp - 16) 16 stub STUB_SIZE /\ apart (frame_top nesting alt sp - 16) 16 ALT_STACK 28 }.

Lemma stub_size : length code = 79%nat.
Proof. reflexivity. Qed.

Lemma has_stub_overlay m a l : has_stub m -> apart a (Z.of_nat (length l)) stub STUB_SIZE -> has_stub (overlay m a l).
Proof. intros H Ha. unfold has_stub. rewrite get_bytes_apart; [done|]. by rewrite stub_size. Qed.

Lemma stub_step c k n i :
  has_stub (cmem c) -> rip c = stub + Z.of_nat k -> (k + n <= 79)%nat -> (n <= 15)%nat -> 0 <= stub -> stub + STUB_SIZE < 2 ^ 64 ->
  (forall rest, decode (take n (drop k code) ++ rest) = Some (i, Z.of_nat n)) ->
  step c = exec i (stub + Z.of_nat (k + n)) c.
Proof.
  intros Hc Hr Hk Hn H0 H1 Hd.
  assert (length (take n (drop k code)) = n) as Hl by (rewrite length_take, length_drop, stub_size; lia).
  rewrite (step_code c (take n (drop k code)) i (Z.of_nat n)); [|rewrite Hl, Hr; by apply get_bytes_sub; [|rewrite stub_size]|lia|done].
  rewrite Hr, wrapu_small; [f_equal; lia|unfold STUB_SIZE in *; lia].
Qed.

Definition locals_after (m : tmem) (sp nesting : Z) : tmem :=
  overlay (overlay m SCRATCH_1 (le_bytes 8 sp)) NESTING (le_bytes 4 (u32 (nesting + 1))).

(** The stack pointer is saved, the nesting level counted and compared. *)
Lemma stub_enter m sp ax z nesting alt :
  stub_ready m sp nesting alt ->
  run 3 (mkCpu stub sp ax z m) =
  Some (mkCpu (stub + 23) sp ax (u32 (nesting + 1) =? 1) (locals_after m sp nesting)).
Proof.
  intros [Hc [H0 H1] Hl Hsp _ Hn Hs _ _ _]. unfold apart, ALT_STACK, STUB_SIZE in *.
  assert (present m SCRATCH_1 8) as P1 by (intros x Hx; apply Hs; unfold covers, SCRATCH_1 in *; lia).
  assert (present m NESTING 4) as P2 by (intros x Hx; apply Hs; unfold covers, SCRATCH_1, NESTING in *; lia).
  rewrite (run_S _ _ (mkCpu (stub + 8) sp ax z (overlay m SCRATCH_1 (le_bytes 8 sp)))).
  2: { rewrite (stub_step _ 0 8 (StoreRsp SCRATCH_1)); [|done|cbn; lia|lia|lia|done|done|reflexivity].
       cbn [exec cmem rsp]. change (u64 SCRATCH_1) with SCRATCH_1. rewrite (save_present _ _ 8 _ P1). reflexivity. }
  set (m1 := overlay m SCRATCH_1 _).
  assert (has_stub m1) as C1 by (apply has_stub_overlay; [done|rewrite length_le_bytes; unfold apart, SCRATCH_1, STUB_SIZE; lia]).
  assert (load m1 NESTING 4 = Some nesting) as N1
    by (unfold m1; rewrite load_apart; [done|rewrite length_le_bytes; unfold apart, SCRATCH_1, NESTING; lia]).
  rewrite (run_S _ _ (mkCpu (stub + 15) sp ax (u32 (nesting + 1) =? 0) (locals_after m sp nesting))).
  2: { rewrite (stub_step _ 8 7 (IncMem NESTING)); [|done|done|lia|lia|done|done|reflexivity].
       cbn [exec cmem]. change (u64 NESTING) with NESTING. rewrite N1. cbn [mbind option_bind].
       rewrite (save_present m1 _ 4 _ (present_overlay _ _ _ _ _ P2)). reflexivity. }
  rewrite (run_S _ _ (mkCpu (stub + 23) sp ax (u32 (nesting + 1) =? 1) (locals_after m sp nesting))); [done|].
  rewrite (stub_step _ 15 8 (CmpMem NESTING 1)); [|apply has_stub_overlay; [done|]|done|lia|lia|done|done|reflexivity].
  - cbn [exec cmem]. change (u64 NESTING) with NESTING. unfold locals_after. rewrite load_overlay; [done|].
    apply wrapu_range. lia.
  - rewrite length_le_bytes. unfold apart, NESTING, STUB_SIZE. lia.
Qed.

(** The stack is switched. *)
Lemma stub_switch m sp ax nesting alt :
  has_stub m -> 0 <= stub -> stub + STUB_SIZE < 2 ^ 64 -> load m ALT_STACK 8 = Some alt ->
  exists n z, run n (mkCpu (stub + 23) sp ax (u32 (nesting + 1) =? 1) m) =
    Some (mkCpu (stub + 42) (frame_top nesting alt sp) ax z m).
Proof.
  intros Hc H0 H1 Ha. unfold frame_top. destruct (u32 (nesting + 1) =? 1).
  - exists 3%nat, true.
    rewrite (run_S _ _ (mkCpu (stub + 25) sp ax true m)).
    2: { by rewrite (stub_step _ 23 2 (Jne 10)); [|done|done|lia|lia|done|done|reflexivity]. }
    rewrite (run_S _ _ (mkCpu (stub + 33) alt ax true m)).
    2: { rewrite (stub_step _ 25 8 (LoadRsp ALT_STACK)); [|done|done|lia|lia|done|done|reflexivity].
         cbn [exec cmem]. change (u64 ALT_STACK) with ALT_STACK. by rewrite Ha. }
    rewrite (run_S _ _ (mkCpu (stub + 42) alt ax true m)); [done|].
    rewrite (stub_step _ 33 2 (Jmp 7)); [|done|done|lia|lia|done|done|reflexivity].
    cbn [exec rsp rax zf cmem]. rewrite wrapu_small by (unfold STUB_SIZE in *; lia). do 2 f_equal. lia.
  - exists 2%nat, (u64 (sp - 256) =? 0).
    rewrite (run_S _ _ (mkCpu (stub + 35) sp ax false m)).
    2: { rewrite (stub_step _ 23 2 (Jne 10)); [|done|done|lia|lia|done|done|reflexivity].
         cbn [exec rsp rax zf cmem]. rewrite wrapu_small by (unfold STUB_SIZE in *; lia). do 2 f_equal. lia. }
    rewrite (run_S _ _ (mkCpu (stub + 42) (u64 (sp - 256)) ax (u64 (sp - 256) =? 0) m)); [done|].
    by rewrite (stub_step _ 35 7 (SubRsp 256)); [|done|done|lia|lia|done|done|reflexivity].
Qed.

(** A 32-bit field of the template comes back as it was put in. *)
Definition field32 (v : Z) : Z := wraps 32 (le_value (le_bytes 4 (u32 v))).

Lemma field32_value v : u32 (field32 v) = u32 v.
Proof.
  unfold field32. rewrite wrapu_wraps, le_value_le_bytes by (lia || apply wrapu_range; lia). apply wrapu_idemp. lia.
Qed.

Lemma decode_store_lo l rest : length l = 4%nat -> decode (([0xc7; 0x04; 0x24] ++ l) ++ rest) = Some (StoreAtRsp 0 (wraps 32 (le_value l)), 7).
Proof. intros Hl. do 5 (destruct l as [|? l]; try done). Qed.

Lemma decode_store_hi l rest : length l = 4%nat -> decode (([0xc7; 0x44; 0x24; 0x04] ++ l) ++ rest) = Some (StoreAtRsp 4 (wraps 32 (le_value l)), 8).
Proof. intros Hl. do 5 (destruct l as [|? l]; try done). Qed.

Lemma code_store_lo : take 7 (drop 50 code) = [0xc7; 0x04; 0x24] ++ le_bytes 4 (u32 ret).
Proof. reflexivity. Qed.

Lemma code_store_hi : take 8 (drop 57 code) = [0xc7; 0x44; 0x24; 0x04] ++ le_bytes 4 (u32 (Z.shiftr ret 32)).
Proof. reflexivity. Qed.

Definition frame_after (m : tmem) (top sp ax : Z) : tmem :=
  overlay (overlay (overlay (overlay m (top - 8) (le_bytes 8 sp)) (top - 16) (le_bytes 8 ax))
    (top - 16) (le_bytes 4 (u32 ret))) (top - 12) (le_bytes 4 (u32 (Z.shiftr ret 32))).

(** The frame is pushed and the hook reached. *)
Lemma stub_call m top sp ax z :
  has_stub m -> 0 <= stub -> stub + STUB_SIZE < 2 ^ 64 -> load m SCRATCH_1 8 = Some sp ->
  16 <= top < 2 ^ 64 -> present m (top - 16) 16 -> apart (top - 16) 16 stub STUB_SIZE ->
  run 5 (mkCpu (stub + 42) top ax z m) = Some (mkCpu target (top - 16) ax z (frame_after m top sp ax)).
Proof.
  intros Hc H0 H1 Hs Ht Hp Ha. unfold apart, STUB_SIZE in *.
  assert (forall mm a l, has_stub mm -> top - 16 <= a -> a + Z.of_nat (length l) <= top -> has_stub (overlay mm a l)) as Hcode
    by (intros; apply has_stub_overlay; [done|unfold apart, STUB_SIZE; lia]).
  assert (forall mm a n, present mm (top - 16) 16 -> top - 16 <= a -> a + n <= top -> present mm a n) as Hpart
    by (intros mm a n Hm Q1 Q2 x Hx; apply Hm; unfold covers in *; lia).
  set (m1 := overlay m (top - 8) (le_bytes 8 sp)). set (m2 := overlay m1 (top - 16) (le_bytes 8 ax)).
  set (m3 := overlay m2 (top - 16) (le_bytes 4 (u32 ret))).
  assert (present m1 (top - 16) 16) as P1 by (apply present_overlay; exact Hp).
  assert (present m2 (top - 16) 16) as P2 by (apply present_overlay; exact P1).
  assert (present m3 (top - 16) 16) as P3 by (apply present_overlay; exact P2).
  assert (has_stub m1) as C1 by (apply Hcode; [exact Hc|lia|rewrite length_le_bytes; lia]).
  assert (has_stub m2) as C2 by (apply Hcode; [exact C1|lia|rewrite length_le_bytes; lia]).
  assert (has_stub m3) as C3 by (apply Hcode; [exact C2|lia|rewrite length_le_bytes; lia]).
  rewrite (run_S _ _ (mkCpu (stub + 49) (top - 8) ax z m1)).
  2: { rewrite (stub_step _ 42 7 (PushMem SCRATCH_1)); [|done|done|lia|lia|done|done|reflexivity].
       cbn [exec cmem]. change (u64 SCRATCH_1) with SCRATCH_1. rewrite Hs. cbn [mbind option_bind]. unfold push. cbn [rsp cmem].
       rewrite (wrapu_small 64 (top - 8)) by lia. rewrite (save_present m _ 8); [reflexivity|apply Hpart; [done|lia|lia]]. }
  rewrite (run_S _ _ (mkCpu (stub + 50) (top - 16) ax z m2)).
  2: { rewrite (stub_step _ 49 1 PushRax); [|exact C1|done|lia|lia|done|done|reflexivity].
       cbn [exec cmem]. unfold push. cbn [rsp cmem rax]. replace (top - 8 - 8) with (top - 16) by lia.
       rewrite (wrapu_small 64 (top - 16)) by lia. rewrite (save_present m1 _ 8); [reflexivity|apply Hpart; [exact P1|lia|lia]]. }
  rewrite (run_S _ _ (mkCpu (stub + 57) (top - 16) ax z m3)).
  2: { rewrite (stub_step _ 50 7 (StoreAtRsp 0 (field32 ret)));
         [|exact C2|done|lia|lia|done|done|intros rest; rewrite code_store_lo; apply decode_store_lo, length_le_bytes].
       cbn [exec cmem rsp]. rewrite field32_value, Z.add_0_r, (wrapu_small 64 (top - 16)) by lia.
       rewrite (save_present m2 _ 4); [reflexivity|apply Hpart; [exact P2|lia|lia]]. }
  rewrite (run_S _ _ (mkCpu (stub + 65) (top - 16) ax z (frame_after m top sp ax))).
  2: { rewrite (stub_step _ 57 8 (StoreAtRsp 4 (field32 (Z.shiftr ret 32))));
         [|exact C3|done|lia|lia|done|done|intros rest; rewrite code_store_hi; apply decode_store_hi, length_le_bytes].
       cbn [exec cmem rsp]. rewrite field32_value. replace (top - 16 + 4) with (top - 12) by lia.
       rewrite (wrapu_small 64 (top - 12)) by lia. rewrite (save_present m3 _ 4); [reflexivity|apply Hpart; [exact P3|lia|lia]]. }
  rewrite (run_S _ _ (mkCpu target (top - 16) ax z (frame_after m top sp ax))); [done|].
  assert (has_stub (frame_after m top sp ax)) as C4 by (apply Hcode; [exact C3|lia|rewrite length_le_bytes; lia]).
  rewrite (stub_step _ 65 6 (JmpMem 0)); [|exact C4|done|lia|lia|done|done|reflexivity].
  cbn [exec cmem]. rewrite Z.add_0_r, wrapu_small by lia. unfold load.
  change (stub + Z.of_nat (65 + 6)) with (stub + Z.of_nat 71). rewrite (get_bytes_sub _ _ code 71 8 C4); [|rewrite stub_size; lia].
  change (take 8 (drop 71 code)) with (le_bytes 8 target). cbn [fmap option_fmap option_map].
  by rewrite le_value_le_bytes.
Qed.

(** The stub from its first byte to the hook. *)
Lemma stub_runs m sp ax z nesting alt :
  stub_ready m sp nesting alt ->
  exists n z', run n (mkCpu stub sp ax z m) =
    Some (mkCpu target (frame_top nesting alt sp - 16) ax z' (frame_after (locals_after m sp nesting) (frame_top nesting alt sp) sp ax)).
Proof.
  intros H. pose proof (stub_enter m sp ax z nesting alt H) as H1.
  destruct H as [Hc [Q0 Q1] Hl Hsp Ha Hn Hs Ht Hf [Hd1 Hd2]]. set (ml := locals_after m sp nesting) in *.
  unfold apart, ALT_STACK, STUB_SIZE in Hl.
  assert (has_stub ml) as Cl.
  { apply has_stub_overlay; [apply has_stub_overlay; [done|]|]; rewrite length_le_bytes; unfold apart, SCRATCH_1, NESTING, STUB_SIZE; lia. }
  assert (load ml ALT_STACK 8 = Some alt) as Al.
  { unfold ml, locals_after. rewrite !load_apart; [done| |]; rewrite length_le_bytes; unfold apart, SCRATCH_1, NESTING, ALT_STACK; lia. }
  assert (load ml SCRATCH_1 8 = Some sp) as Sl.
  { unfold ml, locals_after. rewrite load_apart; [|rewrite length_le_bytes; unfold apart, SCRATCH_1, NESTING; lia].
    apply load_overlay. change (256 ^ Z.of_nat 8) with (2 ^ 64). lia. }
  destruct (stub_switch ml sp ax nesting alt Cl Q0 Q1 Al) as (n & z' & H2).
  exists (3 + (n + 5))%nat, z'. rewrite (run_app _ _ _ _ H1), (run_app _ _ _ _ H2).
  apply stub_call; try done. by do 2 apply present_overlay.
Qed.

(** What the hook finds: the return address, the old stack pointer, and everything else as it was. *)
Record hook_entry (m m' : tmem) (top sp nesting : Z) : Prop := {
  he_return : load m' (top - 16) 8 = Some ret;
  he_sp : load m' (top - 8) 8 = Some sp;
  he_scratch : load m' SCRATCH_1 8 = Some sp;
  he_nesting : load m' NESTING 4 = Some (u32 (nesting + 1));
  he_frame : forall x, ~ covers (top - 16) 16 x -> ~ covers SCRATCH_1 12 x -> m' x = m x }.
End Stub.

Lemma get_bytes_app m a n k l1 l2 :
  get_bytes m a n = Some l1 -> get_bytes m (a + Z.of_nat n) k = Some l2 -> get_bytes m a (n + k) = Some (l1 ++ l2).
Proof.
  revert a l1. induction n as [|n IH]; intros a l1 H1 H2; cbn [get_bytes Nat.add] in *.
  - injection H1 as <-. by rewrite Z.add_0_r in H2.
  - destruct (m a) as [b|]; [|done]. cbn [mbind option_bind] in *. destruct (get_bytes m (a + 1) n) as [l|] eqn:E; [|done].
    injection H1 as <-. rewrite (IH (a + 1) l E); [done|]. rewrite <- H2. f_equal. lia.
Qed.

Lemma le_value_app l1 l2 : le_value (l1 ++ l2) = le_value l1 + 256 ^ Z.of_nat (length l1) * le_value l2.
Proof.
  induction l1 as [|b l1 IH]; [cbn [app le_value length]; lia|]. cbn [app le_value length].
  rewrite IH, Nat2Z.inj_succ, Z.pow_succ_r by lia. lia.
Qed.

Lemma two_halves v : 0 <= v < 2 ^ 64 -> u32 v + 2 ^ 32 * u32 (Z.shiftr v 32) = v.
Proof.
  intros Hv. rewrite Z.shiftr_div_pow2 by lia. unfold wrapu.
  rewrite (Z.mod_small (v / 2 ^ 32)); [pose proof (Z.div_mod v (2 ^ 32) ltac:(lia)); lia|].
  split; [apply Z.div_pos; lia|apply Z.div_lt_upper_bound; lia].
Qed.

Lemma load_halves m a v : 0 <= v < 2 ^ 64 ->
  load (overlay (overlay m a (le_bytes 4 (u32 v))) (a + 4) (le_bytes 4 (u32 (Z.shiftr v 32)))) a 8 = Some v.
Proof.
  intros Hv. unfold load.
  rewrite (get_bytes_app _ a 4 4 (le_bytes 4 (u32 v)) (le_bytes 4 (u32 (Z.shiftr v 32)))).
  - cbn [fmap option_fmap option_map]. rewrite le_value_app, length_le_bytes, !le_value_le_bytes by (apply wrapu_range; lia).
    f_equal. by apply two_halves.
  - rewrite get_bytes_apart by (rewrite length_le_bytes; unfold apart; lia).
    rewrite <- (length_le_bytes 4 (u32 v)) at 2. apply get_bytes_overlay.
  - rewrite <- (length_le_bytes 4 (u32 (Z.shiftr v 32))) at 2. apply get_bytes_overlay.
Qed.

Lemma hook_entry_ok ret m sp ax nesting top :
  0 <= ret < 2 ^ 64 -> 0 <= sp < 2 ^ 64 -> apart (top - 16) 16 ALT_STACK 28 ->
  hook_entry ret m (frame_after ret (locals_after m sp nesting) top sp ax) top sp nesting.
Proof.
  intros Hr Hsp Ha. unfold apart, ALT_STACK in Ha. unfold frame_after.
  replace (top - 12) with (top - 16 + 4) by lia. set (ml := locals_after m sp nesting).
  assert (load ml SCRATCH_1 8 = Some sp) as H1.
  { unfold ml, locals_after. rewrite load_apart by (rewrite length_le_bytes; unfold apart, SCRATCH_1, NESTING; lia).
    apply load_overlay. change (256 ^ Z.of_nat 8) with (2 ^ 64). lia. }
  assert (load ml NESTING 4 = Some (u32 (nesting + 1))) as H2 by (apply load_overlay; apply wrapu_range; lia).
  split.
  - by apply load_halves.
  - rewrite !load_apart by (rewrite length_le_bytes; unfold apart; lia). apply load_overlay.
    change (256 ^ Z.of_nat 8) with (2 ^ 64). lia.
  - rewrite !load_apart by (rewrite length_le_bytes; unfold apart, SCRATCH_1; lia). exact H1.
  - rewrite !load_apart by (rewrite length_le_bytes; unfold apart, NESTING; lia). exact H2.
  - intros x Hx Hy. unfold ml, locals_after. unfold covers, SCRATCH_1, NESTING in *.
    rewrite !overlay_out by (rewrite length_le_bytes; unfold covers; lia). done.
Qed.

(** ** The jump *)

Lemma decode_jump l rest : length l = 4%nat -> decode (([0xe9] ++ l) ++ rest) = Some (Jmp (wraps 32 (le_value l)), 5).
Proof. intros Hl. do 5 (destruct l as [|? l]; try done). Qed.

(** A jump whose offset fits in 32 bits goes where it should. *)
Lemma jump_runs m start stub sp ax z :
  get_bytes m start 5 = Some (substitute X64JumpMonkeypatch [u32 (s32 (offset_to stub (u64 (start + 5))))]) ->
  near stub (u64 (start + 5)) = true -> 0 <= stub < 2 ^ 64 ->
  run 1 (mkCpu start sp ax z m) = Some (mkCpu stub sp ax z m).
Proof.
  intros Hg Hn%Z.eqb_eq Hs. set (off := offset_to stub (u64 (start + 5))) in *.
  change (substitute X64JumpMonkeypatch [u32 (s32 off)]) with ([0xe9] ++ le_bytes 4 (u32 (s32 off))) in Hg.
  rewrite (run_S _ _ (mkCpu stub sp ax z m)); [done|].
  rewrite (step_code _ ([0xe9] ++ le_bytes 4 (u32 (s32 off))) (Jmp (wraps 32 (le_value (le_bytes 4 (u32 (s32 off)))))) 5).
  - cbn [exec rip rsp rax zf cmem]. do 2 f_equal. rewrite Hn, le_value_le_bytes by (apply wrapu_range; lia).
    assert (wraps 32 (u32 off) = off) as ->.
    { rewrite wraps_wrapu by lia. exact Hn. }
    unfold off, offset_to. rewrite wrapu_add_wraps by lia. replace (u64 (start + 5) + (stub - u64 (start + 5))) with stub by lia.
    by apply wrapu_small.
  - exact Hg.
  - rewrite length_app, length_le_bytes. cbn. lia.
  - intros rest. apply decode_jump, length_le_bytes.
Qed.

(** ** The page of the stubs *)

Definition by_page (m : tmem) : Prop :=
  forall a b, 0 <= a < 2 ^ 64 -> 0 <= b < 2 ^ 64 -> a / PAGE = b / PAGE -> m a = None -> m b = None.

Lemma not_coalescable m1 m2 : kend (kmap m1) <> kstart (kmap m2) -> is_coalescable m1 m2 = false.
Proof. intros H. unfold is_coalescable, is_adjacent_mapping. by destruct (Z.eqb_spec (kend (kmap m1)) (kstart (kmap m2))). Qed.

(** An entry with free memory on both sides stays alone. *)
Lemma coalesce_isolated (a : list entry) (r : MemoryRange) (m : Mapping) (b : list entry) :
  wf_mem (a ++ (r, m) :: b) -> ~ mapped (a ++ b) (fst r - 1) -> ~ mapped (a ++ b) (snd r) ->
  coalesce_at a (r, m) b = Ok (a ++ (r, m) :: b).
Proof.
  intros Hw Hl Hr. pose proof (proj1 (wf_mem_mid a (r, m) b) Hw) as (Wa & He & Wb & _).
  assert (forall e : entry, e ∈ a \/ e ∈ b -> wf_entry e /\ forall c, inside c (fst e) -> mapped (a ++ b) c) as Hin.
  { intros e Hin. split; [destruct Hin; [by apply (wf_in a)|by apply (wf_in b)]|].
    intros c Hc. exists (attr (snd e) c), e. split_and!; [apply elem_of_app; tauto|done|done]. }
  assert (go_left (rev a) (r, m) = Ok (rev a, (r, m))) as HL.
  { destruct (rev a) as [|e a'] eqn:Ea; [done|]. cbn [go_left]. rewrite not_coalescable; [done|].
    destruct (Hin e) as [We Hm]; [left; apply elem_of_reverse; unfold reverse; rewrite <- rev_alt, Ea; left|].
    unfold kend, kstart. rewrite <- (we_key _ We), <- (we_key _ He). cbn [fst]. intros Heq. apply Hl, Hm.
    pose proof (we_size _ We). unfold inside. lia. }
  assert (go_right (r, m) b = Ok ((r, m), b)) as HR.
  { destruct b as [|e b']; [done|]. cbn [go_right]. rewrite not_coalescable; [done|].
    destruct (Hin e) as [We Hm]; [right; left|].
    unfold kend, kstart. cbn [snd]. rewrite <- (we_key _ We). pose proof (we_key _ He) as Hk. cbn in Hk. rewrite <- Hk.
    intros Heq. apply Hr, Hm. pose proof (we_size _ We). unfold inside. lia. }
  unfold coalesce_at. rewrite HL, bind_result_ok, HR, bind_result_ok. cbn [fst snd].
  unfold range_eqb. by rewrite !Z.eqb_refl.
Qed.

Section Map.
Context (read_mem : tmem) (local_munmap : Z -> Z -> bool).
Hypothesis munmap_works : forall p n, local_munmap p n = true.
Hypothesis read_by_page : by_page read_mem.

(** Mapping a page with free memory around it does not stop rr. *)
Lemma map_memory_isolated addr prot flags fsname device inode stat recorded emu local s :
  good_space s -> page_range addr PAGE ->
  (forall rk, recorded = Some rk -> wf_km rk /\ range rk = (addr, addr + PAGE)) ->
  ~ mapped (mem s) (addr - 1) -> ~ mapped (mem s) (addr + PAGE) ->
  exists k s', map_memory read_mem local_munmap addr PAGE prot flags 0 fsname device inode stat recorded emu local false s = (Ok k, s').
Proof.
  intros Hg Hr Hrec Hlo Hhi. pose proof (page_range_end _ _ Hr) as [Hpe Hbe].
  pose proof Hr as (H1 & H2 & H3 & H4 & H5). unfold map_memory. change (ceil_page_size PAGE) with PAGE.
  rewrite (wrapu_small 64 (addr + PAGE)) by lia.
  destruct (new_km_ok addr (addr + PAGE) fsname device inode prot flags 0) as [-> Hk]; try done; try lia.
  set (k := mkKernelMapping _ _ _ _ _ _ _) in *. cbn [AddressMaps.lift]. rewrite (bind_ok (mret k) _ s k s eq_refl).
  destruct (Z.eqb_spec PAGE 0); [done|]. rewrite new_range_ok by done. cbn [AddressMaps.lift].
  rewrite (bind_ok (mret _) _ s _ s eq_refl). erewrite (bind_ok (change _) _ s tt _) by done.
  set (s1 := set_dont_fork _ s).
  destruct (unmap_internal_ok local_munmap munmap_works read_mem read_by_page addr PAGE s1 (good_set_dont_fork _ _ Hg) Hr)
    as (s2 & Hu & Hg2 & _ & _ & _ & _ & _ & Hs2). rewrite (bind_ok _ _ _ _ _ Hu).
  set (rk := default k recorded).
  assert (wf_km rk /\ range rk = range k) as [Hrk Hrr].
  { unfold rk. destruct recorded as [x|]; [|done]. destruct (Hrec x eq_refl) as [Hx Hx2]; by cbn. }
  assert (exists s3, map_and_coalesce read_mem k rk emu stat local false s2 = (Ok tt, s3)) as (s3 & Hm).
  { unfold map_and_coalesce. rewrite (bind_ok (mret tt) _ s2 tt s2 eq_refl), (bind_ok (ask mem) _ s2 (mem s2) s2 eq_refl).
    set (m := new_mapping k rk emu stat local false).
    assert (wf_entry (range k, m)) as He by (split; try done; cbn; unfold PAGE in *; lia).
    destruct (gap_split (mem s2) (range k) m (gs_mem _ Hg2) He) as (a & b & Hs & Hwn).
    { intros c Hc (p & Hp). apply Hs2 in Hp as [_ Hp]. unfold inside in Hc. cbn in Hc. lia. }
    rewrite Hs, (insert_mid _ _ _ _ Hwn). unfold coalesce_around. rewrite coalesce_isolated; [|done| |].
    2: { rewrite <- Hs. intros (p & Hp). apply Hs2 in Hp as [Hp _]. apply Hlo. by exists p. }
    2: { rewrite <- Hs. intros (p & Hp). apply Hs2 in Hp as [Hp _]. apply Hhi. by exists p. }
    cbn [AddressMaps.lift]. destruct Hg2 as [_ _ Hv].
    eexists. rewrite (bind_ok _ _ s2 tt (set_mem (a ++ (range k, m) :: b) s2)); [|done].
    apply (update_watch_ok read_mem read_by_page); [cbn; unfold PAGE in *; lia|done]. }
  rewrite (bind_ok _ _ _ _ _ Hm). destruct (is_vdso rk); cbn; by eexists _, _.
Qed.

Lemma map_memory_page addr prot flags recorded s :
  good_space s -> page_range addr PAGE -> wf_km recorded -> range recorded = (addr, addr + PAGE) ->
  ~ mapped (mem s) (addr - 1) -> ~ mapped (mem s) (addr + PAGE) ->
  exists k s', map_memory read_mem local_munmap addr PAGE prot flags 0 [] NO_DEVICE NO_INODE None (Some recorded) None 0 false s = (Ok k, s') /\
    good_space s' /\ forall c, mapped (mem s') c <-> covers addr PAGE c \/ mapped (mem s) c.
Proof.
  intros Hg Hr Hw Hrr Hlo Hhi.
  destruct (map_memory_isolated addr prot flags [] NO_DEVICE NO_INODE None (Some recorded) None 0 s) as (k & s' & E); try done.
  { by intros rk [= <-]. }
  pose proof (map_memory_ok read_mem local_munmap munmap_works read_by_page addr PAGE prot flags 0 [] NO_DEVICE NO_INODE None (Some recorded) None 0 s Hg Hr eq_refl) as H.
  rewrite E in H. destruct H as (Hg' & _ & Hk & Hs & _); [by intros rk [= <-]|]. exists k, s'. split_and!; try done.
  intros c. change (ceil_page_size PAGE) with PAGE in Hk. rewrite Hk in Hs. unfold mapped, covers. split.
  - intros (p & Hp). apply Hs in Hp as [[Hc _]|[Hp _]]; [by left|right; by exists p].
  - intros Hc. destruct (covers_dec addr PAGE c) as [Hd|Hd]; [eexists; apply Hs; left; by split|].
    destruct Hc as [|(p & Hp)]; [done|]. exists p. apply Hs. by right.
Qed.
End Map.

(** The flags of a mapping do not change what is mapped. *)
Lemma or_mapping_flags_ok addr f s :
  good_space s -> (exists e : entry, e ∈ mem s /\ inside addr (fst e)) -> 0 <= addr ->
  exists s', or_mapping_flags addr f s = (Ok tt, s') /\ good_space s' /\ forall c, mapped (mem s') c <-> mapped (mem s) c.
Proof.
  intros [Hw Hm Hv] ([r m] & Hin & Ha) H0. unfold or_mapping_flags. rewrite (bind_ok (ask mem) _ s (mem s) s eq_refl).
  rewrite (mapping_of_ok _ _ _ _ Hw Hin Ha H0). cbn [AddressMaps.lift]. rewrite (bind_ok (mret m) _ s m s eq_refl).
  set (g := fun e : entry => if intersects (fst e) (page_key addr) then _ else e).
  assert (forall e, fst (g e) = fst e /\ kmap (snd (g e)) = kmap (snd e) /\ recorded_map (snd (g e)) = recorded_map (snd e) /\
    monitored (snd (g e)) = monitored (snd e)) as Hgk by (intros e; unfold g; by destruct (intersects _ _)).
  eexists. split; [done|]. split; [split|]; cbn.
  - destruct Hw as [Hso He]. split.
    + clear -Hso Hgk. induction Hso as [|x l Hl IH Hx]; cbn; [constructor|]. constructor; [done|].
      apply Forall_map. eapply Forall_impl; [|exact Hx]. intros y Hy. unfold before in *.
      by rewrite (proj1 (Hgk x)), (proj1 (Hgk y)).
    + apply Forall_map. eapply Forall_impl; [|exact He]. intros e [E1 E2 E3 E4 E5].
      destruct (Hgk e) as (G1 & G2 & G3 & _). split; by rewrite ?G1, ?G2, ?G3.
  - apply Forall_map. eapply Forall_impl; [|exact Hm]. intros e He. cbn. by rewrite (proj2 (proj2 (proj2 (Hgk e)))).
  - exact Hv.
  - intros c. unfold mapped, shows. split.
    + intros (p & e & He & Hc & _). apply list_elem_of_fmap in He as (e' & -> & He'). rewrite (proj1 (Hgk e')) in Hc.
      by eexists _, e'.
    + intros (p & e & He & Hc & _). exists (attr (snd (g e)) c), (g e). rewrite (proj1 (Hgk e)).
      split_and!; [apply list_elem_of_fmap; by exists e|done|done].
Qed.

(** ** Stubs *)

Definition pages (s : mstate) : list ExtendedJumpPage := extended_jump_pages (patcher s).
Definition stubs (s : mstate) : list (Z * Z) := syscallbuf_stubs (patcher s).

Record page_ok (s : mstate) (p : ExtendedJumpPage) : Prop := {
  po_aligned : page_addr p mod PAGE = 0;
  po_bounds : 0 < page_addr p /\ page_addr p + 2 * PAGE <= 2 ^ 64;
  po_allocated : 0 <= allocated p <= PAGE;
  po_mapped : forall x, covers (page_addr p) PAGE x -> mapped (mem (vm s)) x /\ tracee s x <> None }.

(** The stubs lie in the allocated parts of their pages, in order and apart from each other. *)
Record stubs_ok (s : mstate) : Prop := {
  so_space : good_space (vm s);
  so_by_page : by_page (tracee s);
  so_pages : Forall (page_ok s) (pages s);
  so_distinct : NoDup (page_addr <$> pages s);
  so_sorted : StronglySorted (fun x y => x.1 + x.2 <= y.1) (stubs s);
  so_stubs : forall st, st ∈ stubs s -> 0 < st.2 /\
    exists p, p ∈ pages s /\ page_addr p <= st.1 /\ st.1 + st.2 <= page_addr p + allocated p }.

Lemma stubs_assign_elem a n l x : x ∈ stubs_assign a n l -> x = (a, n) \/ x ∈ l.
Proof.
  induction l as [|y l IH]; cbn [stubs_assign]; [intros ->%list_elem_of_singleton; by left|].
  destruct (a <? y.1); [intros [->|H]%elem_of_cons; [by left|by right]|].
  destruct (a =? y.1); (intros [->|H]%elem_of_cons; [try by left|]).
  - right. by right.
  - right. left.
  - destruct (IH H) as [->|Hx]; [by left|right; by right].
Qed.

Lemma stubs_assign_new a n l : (a, n) ∈ stubs_assign a n l.
Proof.
  induction l as [|y l IH]; cbn [stubs_assign]; [left|]. destruct (a <? y.1); [left|]. destruct (a =? y.1); [left|by right].
Qed.

Lemma stubs_assign_old a n l x : x ∈ l -> x.1 <> a -> x ∈ stubs_assign a n l.
Proof.
  intros Hx Hne. induction l as [|y l IH]; [by apply elem_of_nil in Hx|]. cbn [stubs_assign].
  destruct (a <? y.1); [by right|]. destruct (Z.eqb_spec a y.1) as [->|]; apply elem_of_cons in Hx as [->|Hx];
    try done; [by right|left|right; by apply IH].
Qed.

Lemma stubs_assign_sorted a n l :
  StronglySorted (fun x y => x.1 + x.2 <= y.1) l -> 0 < n -> (forall x, x ∈ l -> 0 < x.2 /\ apart a n x.1 x.2) ->
  StronglySorted (fun x y => x.1 + x.2 <= y.1) (stubs_assign a n l).
Proof.
  intros Hs Hn. induction Hs as [|y l Hl IH Hy]; intros Ha; cbn [stubs_assign]; [by repeat constructor|].
  destruct (Ha y ltac:(left)) as [Hp Hya]. unfold apart in Hya. rewrite Forall_forall in Hy.
  destruct (Z.ltb_spec a y.1) as [H1|H1].
  - constructor; [constructor; [done|by rewrite Forall_forall]|]. apply Forall_forall. intros x Hx%list_elem_of_In.
    apply elem_of_cons in Hx as [->|Hx]; cbn; [lia|]. specialize (Hy x ltac:(by apply list_elem_of_In)). lia.
  - destruct (Z.eqb_spec a y.1) as [->|H2]; [lia|]. constructor; [apply IH; intros x Hx; apply Ha; by right|].
    apply Forall_forall. intros x Hx%list_elem_of_In. apply stubs_assign_elem in Hx as [->|Hx]; cbn; [lia|].
    apply Hy. by apply list_elem_of_In.
Qed.

(** [is_jump_stub_instruction] finds the stub, if there is one. *)
Lemma span_last (l : list (Z * Z)) pp :
  StronglySorted (fun x y => x.1 + x.2 <= y.1) l -> (forall x, x ∈ l -> 0 < x.2) ->
  match list_basics.list.last (fst (span (fun x => fst x <=? pp) l)) with
  | None => forall x, x ∈ l -> pp < x.1
  | Some y => y ∈ l /\ y.1 <= pp /\ forall x, x ∈ l -> x.1 <= pp -> x = y \/ x.1 + x.2 <= y.1
  end.
Proof.
  induction 1 as [|y l Hl IH Hy]; intros Hp; [by intros x Hx%elem_of_nil|]. rewrite Forall_forall in Hy.
  assert (forall x, x ∈ l -> y.1 + y.2 <= x.1) as Hy' by (intros x Hx; apply Hy; by apply list_elem_of_In).
  pose proof (Hp y ltac:(left)) as Hpy.
  specialize (IH (fun x Hx => Hp x ltac:(by right))). cbn [span].
  destruct (Z.leb_spec y.1 pp) as [H1|H1].
  - destruct (span _ l) as [a b] eqn:E. cbn [fst] in *. destruct (list_basics.list.last a) as [z|] eqn:Ez.
    + assert (list_basics.list.last (y :: a) = Some z) as -> by (destruct a; done). destruct IH as (I1 & I2 & I3). split_and!; [by right|done|].
      intros x [->|Hx]%elem_of_cons Hle; [right; by apply Hy'|by apply I3].
    + apply last_None in Ez as ->. cbn. split_and!; [left|done|]. intros x [->|Hx]%elem_of_cons Hle; [by left|].
      specialize (IH x Hx). lia.
  - cbn. intros x [->|Hx]%elem_of_cons; [done|]. specialize (Hy' x Hx). lia.
Qed.

(** ** Allocation *)

Lemma overlay_None m a l x : present m a (Z.of_nat (length l)) -> overlay m a l x = None <-> m x = None.
Proof.
  intros H. destruct (covers_dec a (Z.of_nat (length l)) x) as [Hc|Hc]; [|by rewrite overlay_out].
  rewrite overlay_in by done. split; [|by intros Hn; destruct (H x Hc)].
  intros Hn. apply lookup_ge_None in Hn. unfold covers in Hc. lia.
Qed.

Lemma by_page_write m a l : by_page m -> present m a (Z.of_nat (length l)) -> by_page (overlay m a l).
Proof.
  intros Hm Hp x y Hx Hy Hxy Hn. apply overlay_None; [done|]. apply overlay_None in Hn; [|done]. by apply (Hm x y).
Qed.

Lemma by_page_page m a l : by_page m -> a mod PAGE = 0 -> Z.of_nat (length l) = PAGE -> by_page (overlay m a l).
Proof.
  intros Hm Ha Hl x y Hx Hy Hxy.
  assert (covers a PAGE x <-> covers a PAGE y) as Hc.
  { unfold covers, PAGE in *. pose proof (Z.div_mod x 4096 ltac:(lia)). pose proof (Z.div_mod y 4096 ltac:(lia)).
    pose proof (Z.mod_pos_bound x 4096 ltac:(lia)). pose proof (Z.mod_pos_bound y 4096 ltac:(lia)).
    pose proof (Z.div_mod a 4096 ltac:(lia)). rewrite Hxy in *. lia. }
  destruct (covers_dec a PAGE x) as [H1|H1].
  - rewrite overlay_in by by rewrite Hl. intros Hn%lookup_ge_None. unfold covers in H1. lia.
  - rewrite !overlay_out by (rewrite Hl; tauto). by apply Hm.
Qed.

Lemma pages_apart s p q : stubs_ok s -> p ∈ pages s -> q ∈ pages s -> page_addr p <> page_addr q ->
  apart (page_addr p) PAGE (page_addr q) PAGE.
Proof.
  intros Hs Hp Hq Hne. pose proof (so_pages _ Hs) as HF. rewrite Forall_forall in HF.
  pose proof (po_aligned _ _ (HF p ltac:(by apply list_elem_of_In))) as H1.
  pose proof (po_aligned _ _ (HF q ltac:(by apply list_elem_of_In))) as H2.
  unfold apart, PAGE in *. pose proof (Z.div_mod (page_addr p) 4096 ltac:(lia)).
  pose proof (Z.div_mod (page_addr q) 4096 ltac:(lia)). lia.
Qed.

(** A stub taken from a page. *)
Definition bump (i : nat) (p : ExtendedJumpPage) (size : Z) (s : mstate) : mstate :=
  put_patcher (put_pages (<[i := mkPage (page_addr p) (allocated p + size)]> (pages s)) (patcher s)) s.

Definition add_stub (a size : Z) (s : mstate) : mstate :=
  put_patcher (put_stubs (stubs_assign a size (stubs s)) (patcher s)) s.

(** A stub taken from a page is apart from all the others. *)
Lemma stub_fresh s i p size :
  stubs_ok s -> pages s !! i = Some p -> allocated p + size <= PAGE ->
  forall x, x ∈ stubs s -> 0 < x.2 /\ apart (page_addr p + allocated p) size x.1 x.2.
Proof.
  intros Hs Hi Hfit. pose proof Hs as [Hg Hb Hp Hd Hso Hst]. pose proof (list_elem_of_lookup_2 _ _ _ Hi) as Hin.
  assert (page_ok s p) as [A1 A2 A3 A4] by (rewrite Forall_forall in Hp; apply Hp; by apply list_elem_of_In).
  intros x Hx. destruct (Hst x Hx) as (H1 & q & Hq & H2 & H3). split; [done|]. unfold apart.
  assert (page_ok s q) as [_ _ B3 _] by (rewrite Forall_forall in Hp; apply Hp; by apply list_elem_of_In).
  destruct (decide (page_addr q = page_addr p)) as [He|Hne].
  - assert (q = p) as ->; [|lia]. apply list_elem_of_lookup in Hq as (j & Hj).
    assert (j = i) as ->; [|congruence]. eapply NoDup_lookup; [exact Hd| |]; rewrite list_lookup_fmap.
    + by rewrite Hj.
    + rewrite Hi. cbn. by rewrite He.
  - pose proof (pages_apart s q p Hs Hq Hin Hne) as Hpa. unfold apart in Hpa. lia.
Qed.

Lemma bump_ok s i p size :
  stubs_ok s -> pages s !! i = Some p -> 0 < size -> allocated p + size <= PAGE ->
  stubs_ok (add_stub (page_addr p + allocated p) size (bump i p size s)).
Proof.
  intros Hs Hi Hz Hfit. pose proof Hs as [Hg Hb Hp Hd Hso Hst]. pose proof (list_elem_of_lookup_2 _ _ _ Hi) as Hin.
  assert (page_ok s p) as [A1 A2 A3 A4] by (rewrite Forall_forall in Hp; apply Hp; by apply list_elem_of_In).
  pose proof (stub_fresh s i p size Hs Hi Hfit) as Hap.
  split; cbn.
  - done.
  - done.
  - apply Forall_insert; [|by split; cbn; [|lia|lia|]]. eapply Forall_impl; [|exact Hp]. by intros q [Q1 Q2 Q3 Q4].
  - rewrite list_fmap_insert. cbn. rewrite list_insert_id; [done|]. rewrite list_lookup_fmap, Hi. done.
  - by apply stubs_assign_sorted.
  - intros st Hs'. pose proof (lookup_lt_Some _ _ _ Hi) as Hlt. apply stubs_assign_elem in Hs' as [->|Hx]; cbn.
    + split; [done|]. eexists. split; [apply list_elem_of_lookup; exists i; by apply list_lookup_insert_eq|]. cbn. lia.
    + destruct (Hst st Hx) as (H1 & q & Hq & H2 & H3). split; [done|]. apply list_elem_of_lookup in Hq as (j & Hj).
      destruct (decide (j = i)) as [->|Hne].
      * rewrite Hi in Hj. injection Hj as <-. eexists. split; [apply list_elem_of_lookup; exists i; by apply list_lookup_insert_eq|].
        cbn. lia.
      * exists q. split; [|done]. apply list_elem_of_lookup. exists j. by rewrite list_lookup_insert_ne.
Qed.

(** A page of zeros. *)
Definition zero_page : list Z := repeat 0 (Z.to_nat PAGE).

Lemma zero_page_length : Z.of_nat (length zero_page) = PAGE.
Proof. unfold zero_page. rewrite repeat_length. done. Qed.

(** What mapping a page of stubs changes. *)
Record page_mapped (s s' : mstate) (a : Z) : Prop := {
  pm_space : good_space (vm s');
  pm_mapped : forall c, mapped (mem (vm s')) c <-> covers a PAGE c \/ mapped (mem (vm s)) c;
  pm_rest : exists v k, range k = (a, a + PAGE) /\
    s' = put_maps (trace_maps s ++ [k]) (put_vm v (put_tracee (overlay (tracee s) a zero_page) s)) }.

Section Alloc.
Variable t : task_env.
Hypothesis munmap_works : forall p n, local_munmap t p n = true.

Lemma map_stub_page_ok a s :
  good_space (vm s) -> by_page (tracee s) -> page_range a PAGE ->
  ~ mapped (mem (vm s)) (a - 1) -> ~ mapped (mem (vm s)) (a + PAGE) ->
  exists s', map_stub_page t a s = (Ok tt, s') /\ page_mapped s s' a.
Proof.
  intros Hg Hb Hr Hlo Hhi. pose proof (page_range_end _ _ Hr) as [Hpe Hbe]. pose proof Hr as (R1 & R2 & R3 & R4 & R5).
  unfold map_stub_page. rewrite (bind_ok (change _) _ s tt _ eq_refl). fold zero_page.
  set (m := overlay (tracee s) a zero_page). set (s1 := put_tracee m s).
  rewrite (wrapu_small 64 (a + PAGE)) by lia.
  match goal with |- context [new_km a (a + PAGE) [] NO_DEVICE NO_INODE ?p ?f 0] =>
    destruct (new_km_ok a (a + PAGE) [] NO_DEVICE NO_INODE p f 0) as [-> Hk]; try done; try lia end.
  set (k := mkKernelMapping _ _ _ _ _ _ _) in *. rewrite (bind_ok (liftP _) _ s1 k s1 eq_refl), (bind_ok (ask tracee) _ s1 m s1 eq_refl).
  assert (by_page m) as Hbm by (apply by_page_page; [done|done|apply zero_page_length]).
  match goal with |- context [map_memory m (local_munmap t) a PAGE ?p ?f 0] =>
    destruct (map_memory_page m (local_munmap t) munmap_works Hbm a p f k (vm s)) as (k' & v1 & E1 & G1 & M1); try done;
    rewrite (bind_ok (in_space (map_memory m _ a PAGE p f 0 _ _ _ _ _ _ _ _)) _ s1 k' (put_vm v1 s1)) end.
  2: { unfold in_space. change (vm s1) with (vm s). by rewrite E1. }
  destruct (or_mapping_flags_ok a IS_PATCH_STUBS v1 G1) as (v2 & E2 & G2 & M2); [|done|].
  { destruct (proj2 (M1 a)) as (p & e & He & Hc & _); [left; unfold covers; lia|]. by exists e. }
  rewrite (bind_ok (in_space (or_mapping_flags a IS_PATCH_STUBS)) _ _ tt (put_vm v2 s1)).
  2: { unfold in_space. change (vm (put_vm v1 s1)) with v1. by rewrite E2. }
  eexists. split; [done|]. split; [exact G2| |exists v2, k; by split].
  intros c. cbn. rewrite M2. apply M1.
Qed.

(** Room for three pages after every mapping. *)
Definition room (s : mstate) : Prop := forall e : entry, e ∈ mem (vm s) -> snd (fst e) + 3 * PAGE < 2 ^ 64.

(** Where a stub of [size] bytes at [a] comes from: a page there was, or a new one in free memory. *)
Definition in_page (s s1 : mstate) (a size : Z) (i : nat) (p : ExtendedJumpPage) : Prop :=
  stubs_ok s1 /\ pages s1 !! i = Some p /\ a = page_addr p + allocated p /\ allocated p + size <= PAGE /\
  ((s1 = s /\ p ∈ pages s) \/
   (exists s0, (forall c, covers (page_addr p) PAGE c -> ~ mapped (mem (vm s)) c) /\ page_mapped s s0 (page_addr p) /\
      s1 = put_patcher (put_pages (pages s ++ [p]) (patcher s)) s0)).

Lemma find_page_ok size from l i :
  find_page size from l = Some i -> exists p, l !! i = Some p /\ fits size from p = true.
Proof.
  revert i. induction l as [|p l IH]; cbn [find_page]; [done|]. intros i. destruct (fits size from p) eqn:E.
  - intros [= <-]. by exists p.
  - destruct (find_page size from l) as [j|]; [|done]. intros [= <-]. by apply IH.
Qed.

(** A page that was mapped in free memory. *)
Lemma new_page_ok s s0 a :
  stubs_ok s -> page_mapped s s0 a -> page_range a PAGE -> 0 < a ->
  (forall c, covers a PAGE c -> ~ mapped (mem (vm s)) c) ->
  stubs_ok (put_patcher (put_pages (pages s ++ [mkPage a 0]) (patcher s)) s0).
Proof.
  intros [Hg Hb Hp Hd Hso Hst] [G1 M1 (v & k & _ & ->)] Hr Ha Hfree. pose proof (page_range_end _ _ Hr) as [_ Hbe].
  destruct Hr as (R1 & R2 & R3 & R4 & R5). cbn in G1, M1. split; cbn.
  - done.
  - apply by_page_page; [done|done|apply zero_page_length].
  - apply Forall_app. split.
    + eapply Forall_impl; [|exact Hp]. intros q [Q1 Q2 Q3 Q4]. split; [done|done|done|]. cbn. intros x Hx.
      destruct (Q4 x Hx) as [Q5 Q6]. split; [apply M1; by right|]. rewrite overlay_out; [done|].
      rewrite zero_page_length. intros Hc. by apply (Hfree x Hc).
    + constructor; [|constructor]. split; cbn; [done|lia|unfold PAGE; lia|]. intros x Hx. split; [apply M1; by left|].
      rewrite overlay_in by by rewrite zero_page_length. apply not_eq_None_Some, lookup_lt_is_Some.
      pose proof zero_page_length. unfold covers in Hx. lia.
  - rewrite fmap_app. apply list_relations.list.NoDup_app. split_and!; [done| |apply NoDup_singleton].
    intros x Hx%list_elem_of_fmap Hy%list_elem_of_singleton. destruct Hx as (q & -> & Hq). cbn in Hy.
    rewrite Forall_forall in Hp. destruct (Hp q ltac:(by apply list_elem_of_In)) as [_ _ _ Q4].
    rewrite Hy in Q4. assert (covers a PAGE a) as Hc by (unfold covers, PAGE; lia). by apply (Hfree a Hc), Q4.
  - done.
  - intros st Hx. destruct (Hst st Hx) as (H1 & q & Hq & H2). split; [done|]. exists q. split; [apply elem_of_app; by left|done].
Qed.


(** No page has room, and the first free memory after the code is out of reach. *)
Definition no_space (size from : Z) (s : mstate) : Prop :=
  find_page size from (pages s) = None /\
  exists m x, mapping_of from (mem (vm s)) = Ok m /\ find_free_memory (3 * PAGE) (kstart (kmap m)) (mem (vm s)) = Ok x /\
    near (x + PAGE) from = false.

(** The outcome of an allocation: the address of a stub near enough, or nothing and no change. *)
Definition allocation (size from : Z) (s : mstate) (r : option Z) (s' : mstate) : Prop :=
  match r with
  | None => s' = s /\ no_space size from s
  | Some a => near a from = true /\ exists s1 i p, in_page s s1 a size i p /\ s' = bump i p size s1
  end.

Lemma take_stub_ok size from s s1 i p :
  near (page_addr p + allocated p) from = true -> in_page s s1 (page_addr p + allocated p) size i p -> 0 < size ->
  exists r s', take_stub size i s1 = (Ok r, s') /\ allocation size from s r s'.
Proof.
  intros Hn Hip Hz. pose proof Hip as (Hs1 & Hi & _ & Hf & _). unfold take_stub.
  rewrite (bind_ok (ask _) _ s1 (pages s1) s1 eq_refl), Hi.
  pose proof (so_pages _ Hs1) as HF. rewrite Forall_forall in HF.
  destruct (HF p) as [_ B A _]; [apply list_elem_of_In, (list_elem_of_lookup_2 _ _ _ Hi)|].
  rewrite wrapu_small by (unfold PAGE in *; lia). eexists _, _. split; [done|]. cbn. split; [done|]. by exists s1, i, p.
Qed.

(** Three free pages after a mapping. *)
Lemma free_pages s (r : MemoryRange) m :
  good_space (vm s) -> room s -> (r, m) ∈ mem (vm s) ->
  exists x, find_free_memory (3 * PAGE) (kstart (kmap m)) (mem (vm s)) = Ok x /\ 0 <= x /\ page_range (x + PAGE) PAGE /\
    forall c, x <= c < x + 3 * PAGE -> ~ mapped (mem (vm s)) c.
Proof.
  intros Hg Hroom Hin. pose proof (gs_mem _ Hg) as Hw. pose proof (wf_in _ _ Hw Hin) as We.
  pose proof (find_free_memory_ok (3 * PAGE) (fst r) (mem (vm s)) Hw ltac:(unfold PAGE; lia) Hroom) as H.
  assert (existsb (fun e : entry => fst r <=? fst (fst e)) (mem (vm s)) = true) as Hex.
  { apply existsb_exists. exists (r, m). split; [by apply list_elem_of_In|]. cbn. by apply Z.leb_refl. }
  rewrite Hex in H. destruct H as (x & Hx & (e & He & _ & Hend) & Hfree).
  assert (kstart (kmap m) = fst r) as -> by (unfold kstart; f_equal; symmetry; apply (we_key _ We)).
  pose proof (wf_in _ _ Hw He) as We'. destruct (AddressMapsSpec.wf_end _ We') as (E1 & E2 & _).
  pose proof (wf_bounds _ (we_km _ We')) as Hbd. unfold kend, kstart in Hbd. rewrite <- (we_key _ We') in Hbd.
  specialize (Hroom e He). rewrite Hend in *. exists x. split; [done|]. split; [lia|]. split; [|done].
  unfold page_range. split_and!; [unfold PAGE; lia|done|unfold PAGE in *; lia|by apply mod_page_add|done].
Qed.

Lemma allocate_ok size from s :
  stubs_ok s -> room s -> 0 < size <= PAGE -> 0 <= from -> mapped (mem (vm s)) from ->
  exists r s', allocate_extended_jump t size from s = (Ok r, s') /\ allocation size from s r s'.
Proof.
  intros Hs Hroom Hz H0 (at_ & [r m] & Hin & Hc & _). pose proof (so_space _ Hs) as Hg. pose proof (gs_mem _ Hg) as Hw.
  unfold allocate_extended_jump. rewrite (bind_ok (ask _) _ s (pages s) s eq_refl).
  destruct (find_page size from (pages s)) as [i|] eqn:Ef.
  - apply find_page_ok in Ef as (p & Hi & [Hn Hf]%andb_true_iff). apply Z.leb_le in Hf.
    pose proof (so_pages _ Hs) as HF. rewrite Forall_forall in HF. pose proof (list_elem_of_lookup_2 _ _ _ Hi) as Hp.
    destruct (HF p) as [_ B A _]; [by apply list_elem_of_In|].
    rewrite wrapu_small in Hn by (unfold PAGE in *; lia). rewrite (bind_ok (mret (Some i)) _ s (Some i) s eq_refl).
    apply (take_stub_ok size from s s i p Hn); [|lia]. split_and!; try done. left. by split.
  - destruct (free_pages s r m Hg Hroom Hin) as (x & Hx & Hx0 & Hr & Hfree).
    unfold mbind at 1. unfold TM_bind at 1. rewrite (bind_ok (ask _) _ s (mem (vm s)) s eq_refl).
    rewrite (mapping_of_ok _ _ _ _ Hw Hin Hc H0), (bind_ok (liftP (Ok m)) _ s m s eq_refl), Hx, (bind_ok (liftP (Ok x)) _ s x s eq_refl).
    pose proof (page_range_end _ _ Hr) as [_ Hbe]. rewrite wrapu_small by (unfold PAGE in *; lia).
    destruct (near (x + PAGE) from) eqn:Hn; cbn [negb].
    2: { exists None, s. split; [reflexivity|]. split; [done|]. split; [done|]. exists m, x. by rewrite (mapping_of_ok _ _ _ _ Hw Hin Hc H0). }
    destruct (map_stub_page_ok (x + PAGE) s Hg (so_by_page _ Hs) Hr) as (s0 & E0 & Hpm);
      [apply Hfree; unfold PAGE; lia|apply Hfree; unfold PAGE; lia|].
    rewrite (bind_ok _ _ _ _ _ E0). pose proof (pm_rest _ _ _ Hpm) as (v & k & _ & Hs0).
    set (s1 := put_patcher (put_pages (pages s ++ [mkPage (x + PAGE) 0]) (patcher s)) s0).
    assert (patcher s0 = patcher s) as Hp0 by by rewrite Hs0.
    rewrite (bind_ok (change_patcher _) _ s0 tt s1) by (unfold change_patcher, change, s1, pages; by rewrite Hp0).
    unfold mret at 1, TM_ret at 1.
    assert (forall c, covers (x + PAGE) PAGE c -> ~ mapped (mem (vm s)) c) as Hfr by (intros c Hcc; apply Hfree; unfold covers, PAGE in *; lia).
    assert (pages s1 = pages s ++ [mkPage (x + PAGE) 0]) as Hp1 by done.
    apply (take_stub_ok size from s s1 _ (mkPage (x + PAGE) 0)); cbn [page_addr allocated]; [by rewrite Z.add_0_r| |lia].
    split_and!; [|by rewrite Hp1, list_lookup_middle|done|cbn; lia|].
    + apply new_page_ok; try done. unfold PAGE in *. lia.
    + right. by exists s0.
Qed.
End Alloc.

(** ** The patch *)

Lemma write_ok a l s :
  present (tracee s) a (Z.of_nat (length l)) -> a <> 0 ->
  write_and_record_mem a l s = (Ok tt, put_data (trace_data s ++ [(a, l)]) (put_tracee (overlay (tracee s) a l) s)).
Proof.
  intros Hp Ha. unfold write_and_record_mem. rewrite (bind_ok (ask tracee) _ s (tracee s) s eq_refl).
  unfold write_bytes. destruct (get_bytes_present _ _ _ Hp) as (b & ->).
  rewrite (bind_ok (liftP (Ok _)) _ s (overlay (tracee s) a l) s eq_refl). rewrite (bind_ok (change _) _ s tt _ eq_refl).
  by destruct (Z.eqb_spec a 0).
Qed.

Lemma stubs_ok_mem s m d :
  stubs_ok s -> (forall x, m x = None <-> tracee s x = None) -> stubs_ok (put_data d (put_tracee m s)).
Proof.
  intros [Hg Hb Hp Hd Hso Hst] Hm. split; cbn; try done.
  - intros x y Hx Hy Hxy Hn%Hm. apply Hm. by apply (Hb x y).
  - eapply Forall_impl; [|exact Hp]. intros p [P1 P2 P3 P4]. split; try done. cbn. intros x Hx. destruct (P4 x Hx). split; [done|].
    by rewrite Hm.
Qed.

Definition jump_bytes (start stub : Z) : list Z := substitute X64JumpMonkeypatch [u32 (s32 (offset_to stub (u64 (start + 5))))].
Definition nops (hook : patch_hook) : list Z := repeat 0x90 (Z.to_nat (next_length hook - 3)).
Definition return_address (start : Z) (hook : patch_hook) : Z := start + 2 + next_length hook.
Definition stub_bytes (start stub : Z) (hook : patch_hook) : list Z :=
  substitute_extended_jump x86_64 stub (return_address start hook) (target hook).

(** What a patch at [start] with its stub at [stub] writes. *)
Definition patch_data (start stub : Z) (hook : patch_hook) : list (Z * list Z) :=
  [(stub, stub_bytes start stub hook); (start, jump_bytes start stub); (start + 5, nops hook)].

(** The site: code of the program that may be patched. *)
Record site_ok (s : mstate) (start : Z) (hook : patch_hook) : Prop := {
  si_length : 3 <= next_length hook <= 14;
  si_target : 0 <= target hook < 2 ^ 64;
  si_bounds : 0 < start /\ start + 2 + next_length hook + 1 < 2 ^ 64;
  si_mapped : forall x, covers start (2 + next_length hook) x -> mapped (mem (vm s)) x /\ tracee s x <> None;
  si_next : mapped (mem (vm s)) (start + 5);
  si_outside : forall p, p ∈ pages s -> apart start (2 + next_length hook) (page_addr p) PAGE }.

(** The memory before the data of the patch is written: a page of stubs may be new. *)
Definition stub_page_memory (s s' : mstate) (m : tmem) : Prop :=
  (m = tracee s /\ trace_maps s' = trace_maps s) \/
  (exists k, trace_maps s' = trace_maps s ++ [k] /\ m = overlay (tracee s) (kstart k) zero_page /\
     forall x, covers (kstart k) PAGE x -> ~ mapped (mem (vm s)) x).

Record patched (s s' : mstate) (start stub : Z) (hook : patch_hook) : Prop := {
  pa_near : near stub (u64 (start + 5)) = true;
  pa_bounds : 0 < stub /\ stub + STUB_SIZE < 2 ^ 64;
  pa_apart : apart stub STUB_SIZE start (2 + next_length hook);
  pa_ok : stubs_ok s';
  pa_fresh : forall st, st ∈ stubs s -> st.1 <> stub;
  pa_stubs : stubs s' = stubs_assign stub STUB_SIZE (stubs s);
  pa_memory : exists m, stub_page_memory s s' m /\ tracee s' = apply_records (patch_data start stub hook) m;
  pa_data : trace_data s' = trace_data s ++ patch_data start stub hook;
  pa_regs : regs_ s' = regs_ s }.

Lemma in_page_facts s s1 a size i p :
  in_page s s1 a size i p -> 0 < size ->
  0 < a /\ a + size + PAGE <= 2 ^ 64 /\ present (tracee s1) a size /\ (forall x, tracee s x <> None -> tracee s1 x <> None) /\
  regs_ s1 = regs_ s /\ trace_data s1 = trace_data s /\ stubs s1 = stubs s /\
  stub_page_memory s s1 (tracee s1).
Proof.
  intros (Hs1 & Hi & -> & Hf & Hor) Hz. pose proof (so_pages _ Hs1) as HF. rewrite Forall_forall in HF.
  destruct (HF p) as [_ B A M]; [apply list_elem_of_In, (list_elem_of_lookup_2 _ _ _ Hi)|].
  assert (present (tracee s1) (page_addr p + allocated p) size) as Hp by (intros x Hx; apply M; unfold covers in *; lia).
  split; [lia|]. split; [lia|]. split; [done|]. destruct Hor as [[-> _]|(s0 & Hfree & [G1 M1 (v & k & Hk & ->)] & ->)].
  - split_and!; try done. by left.
  - cbn. split_and!; try done.
    + intros x Hx. destruct (covers_dec (page_addr p) PAGE x) as [Hc|Hc].
      * rewrite overlay_in by by rewrite zero_page_length. apply not_eq_None_Some, lookup_lt_is_Some.
        pose proof zero_page_length. unfold covers in Hc. lia.
      * by rewrite overlay_out by by rewrite zero_page_length.
    + right. exists k. split; [done|]. split; [unfold kstart; by rewrite Hk|]. intros x Hx. apply Hfree. unfold kstart in Hx. by rewrite Hk in Hx.
Qed.

Lemma apart_points a n b k : 0 < n -> 0 < k -> (forall x, covers a n x -> ~ covers b k x) -> apart a n b k.
Proof.
  intros Hn Hk H. unfold apart, covers in *. destruct (Z.le_gt_cases (a + n) b); [by left|].
  destruct (Z.le_gt_cases (b + k) a); [by right|]. exfalso. apply (H (Z.max a b)); lia.
Qed.

Lemma in_page_apart s s1 a size i p start hook :
  site_ok s start hook -> in_page s s1 a size i p -> 0 < size -> stubs_ok s -> apart a size start (2 + next_length hook).
Proof.
  intros [Hl _ _ Hm _ Hout] (Hs1 & Hi & -> & Hf & Hor) Hz Hs. pose proof (so_pages _ Hs1) as HF. rewrite Forall_forall in HF.
  destruct (HF p) as [_ B A M]; [apply list_elem_of_In, (list_elem_of_lookup_2 _ _ _ Hi)|].
  assert (apart start (2 + next_length hook) (page_addr p) PAGE) as Hap; [|unfold apart in *; lia].
  destruct Hor as [[-> Hp]|(s0 & Hfree & _)]; [by apply Hout|].
  apply apart_points; [lia|unfold PAGE; lia|]. intros x Hx Hc. by apply (Hfree x Hc), Hm.
Qed.

(** The state after a patch, when the stub was taken from [sb]. *)
Definition patched_memory (m : tmem) (start stub : Z) (hook : patch_hook) : tmem := apply_records (patch_data start stub hook) m.

Definition patched_state (sb : mstate) (start stub : Z) (hook : patch_hook) : mstate :=
  put_data (trace_data sb ++ patch_data start stub hook)
    (put_tracee (patched_memory (tracee sb) start stub hook) (add_stub stub STUB_SIZE sb)).

Lemma nops_length hook : 3 <= next_length hook -> Z.of_nat (length (nops hook)) = next_length hook - 3.
Proof. intros H. unfold nops. rewrite repeat_length. lia. Qed.

Lemma patched_state_ok s s1 stub i p start hook :
  stubs_ok s -> site_ok s start hook -> in_page s s1 stub STUB_SIZE i p -> near stub (start + 5) = true ->
  patched s (patched_state (bump i p STUB_SIZE s1) start stub hook) start stub hook.
Proof.
  intros Hs Hsite Hip Hnear. pose proof Hsite as [Hl Ht Hb Hm Hn Hout].
  destruct (in_page_facts _ _ _ _ _ _ Hip eq_refl) as (F1 & F2 & F3 & F4 & F5 & F6 & F7 & F8).
  pose proof (in_page_apart _ _ _ _ _ _ _ _ Hsite Hip eq_refl Hs) as Hap.
  assert (u64 (start + 5) = start + 5) as He by (apply wrapu_small; lia).
  split; cbn [patched_state bump add_stub put_data put_tracee put_patcher tracee trace_data regs_ stubs patcher put_stubs put_pages].
  - by rewrite He.
  - unfold PAGE in *. lia.
  - done.
  - unfold patched_state. apply stubs_ok_mem.
    + destruct Hip as (Q1 & Q2 & -> & Q4 & _). by apply bump_ok.
    + intros x. change (tracee (add_stub stub STUB_SIZE (bump i p STUB_SIZE s1))) with (tracee s1).
      assert (present (tracee s1) start (2 + next_length hook)) as P1 by (intros y Hy; apply F4, Hm, Hy).
      unfold patched_memory, patch_data, apply_records. cbn [fold_left fst snd].
      rewrite overlay_None.
      2: { do 2 apply present_overlay. rewrite nops_length by lia. intros y Hy. apply P1. unfold covers in *. lia. }
      rewrite overlay_None; [|apply present_overlay; intros y Hy; apply P1; unfold covers in *;
        change (Z.of_nat (length (jump_bytes start stub))) with 5 in Hy; lia].
      by apply overlay_None.
  - intros st Hst Heq. destruct Hip as (Q1 & Q2 & -> & Q4 & _). rewrite <- F7 in Hst.
    destruct (stub_fresh s1 i p STUB_SIZE Q1 Q2 Q4 st Hst) as [H1 H2]. unfold apart, STUB_SIZE in H2. lia.
  - unfold stubs in *. cbn. by rewrite F7.
  - exists (tracee s1). split; [|done]. exact F8.
  - by rewrite F6.
  - done.
Qed.

Section Patch.
Variable t : task_env.
Hypothesis munmap_works : forall p n, local_munmap t p n = true.
Hypothesis on_x64 : arch t = x86_64.

Lemma patch_runs hook s sb stub :
  let start := ip (regs_ s) in
  3 <= next_length hook <= 14 -> 0 < start -> start + 2 + next_length hook + 1 < 2 ^ 64 -> 0 < stub ->
  allocate_extended_jump t STUB_SIZE (start + 5) s = (Ok (Some stub), sb) -> near stub (start + 5) = true ->
  present (tracee sb) stub STUB_SIZE -> present (tracee sb) start (2 + next_length hook) ->
  patch_syscall_with_hook t hook s = (Ok true, patched_state sb start stub hook).
Proof.
  intros start Hl H0 Hb Hstub Ea Hnear P0 P1. unfold patch_syscall_with_hook. rewrite on_x64. cbn [JumpPatch ExtendedJumpPatch].
  change (template_size X64JumpMonkeypatch) with 5. change (template_size X64SyscallStubExtendedJump) with STUB_SIZE.
  rewrite (bind_ok (ask (fun s => ip (regs_ s))) _ s start s eq_refl).
  assert (u64 (start + 5) = start + 5) as He by (apply wrapu_small; lia). rewrite He, (bind_ok _ _ _ _ _ Ea).
  destruct (Z.eqb_spec stub 0) as [|Hne]; [lia|].
  assert (u64 (start + syscall_instruction_length + next_length hook) = return_address start hook) as ->
    by (unfold syscall_instruction_length; rewrite wrapu_small by lia; done).
  fold (stub_bytes start stub hook). rewrite (bind_ok _ _ sb tt _ (write_ok stub (stub_bytes start stub hook) sb P0 Hne)).
  rewrite (bind_ok (change_patcher _) _ _ tt _ eq_refl).
  assert (s32 (offset_to stub (start + 5)) = offset_to stub (start + 5)) as Hoff by by apply Z.eqb_eq.
  rewrite Hoff, Z.eqb_refl. unfold ASSERT at 1. rewrite (bind_ok (S := mstate) (mret tt) _ _ tt _ eq_refl).
  assert (substitute X64JumpMonkeypatch [u32 (offset_to stub (start + 5))] = jump_bytes start stub) as ->
    by (unfold jump_bytes; by rewrite He, Hoff).
  erewrite (bind_ok (write_and_record_mem start _)); [|apply write_ok; [apply present_overlay|lia]].
  2: { intros x Hx. apply P1. unfold covers in *. change (Z.of_nat (length (jump_bytes start stub))) with 5 in Hx. lia. }
  assert (u64 (syscall_instruction_length + next_length hook - 5) = next_length hook - 3) as ->
    by (unfold syscall_instruction_length; rewrite wrapu_small by lia; lia).
  destruct (Z.ltb_spec (next_length hook - 3) (2 ^ 63)); [|lia]. rewrite (bind_ok (S := mstate) (mret tt) _ _ tt _ eq_refl).
  fold (nops hook). erewrite (bind_ok (write_and_record_mem (start + 5) _)); [|apply write_ok; [|lia]].
  2: { do 2 apply present_overlay. intros x Hx. apply P1. rewrite nops_length in Hx by lia. unfold covers in *. lia. }
  cbn. rewrite <- !app_assoc. reflexivity.
Qed.

(** On a site that may be patched, the patch is made or there is no space near enough. *)
Lemma patch_ok hook s :
  let start := ip (regs_ s) in
  stubs_ok s -> room s -> site_ok s start hook ->
  exists r s', patch_syscall_with_hook t hook s = (Ok r, s') /\
    if r : bool then exists stub, patched s s' start stub hook else s' = s /\ no_space STUB_SIZE (start + 5) s.
Proof.
  intros start Hs Hroom Hsite. pose proof Hsite as [Hl Ht Hb Hm Hn Hout].
  destruct (allocate_ok t munmap_works STUB_SIZE (start + 5) s Hs Hroom) as (r & sb & Ea & Hal);
    [unfold STUB_SIZE, PAGE; lia|lia|done|].
  destruct r as [stub|].
  - destruct Hal as (Hnear & s1 & i & p & Hip & ->).
    destruct (in_page_facts _ _ _ _ _ _ Hip eq_refl) as (F1 & F2 & F3 & F4 & _).
    exists true, (patched_state (bump i p STUB_SIZE s1) start stub hook). split; [|exists stub; by apply patched_state_ok].
    apply patch_runs; try done; [lia|lia|]. intros x Hx. apply F4, Hm, Hx.
  - destruct Hal as [-> Hal]. exists false, s. split; [|done]. unfold patch_syscall_with_hook. rewrite on_x64. cbn [JumpPatch ExtendedJumpPatch].
    change (template_size X64JumpMonkeypatch) with 5. change (template_size X64SyscallStubExtendedJump) with STUB_SIZE.
    rewrite (bind_ok (ask (fun s => ip (regs_ s))) _ s start s eq_refl).
    rewrite (wrapu_small 64 (start + 5)) by lia. by rewrite (bind_ok _ _ _ _ _ Ea).
Qed.
End Patch.

(** ** The patched call *)

Lemma patched_code m start stub hook :
  3 <= next_length hook -> apart stub STUB_SIZE start (2 + next_length hook) ->
  let m' := apply_records (patch_data start stub hook) m in
  get_bytes m' stub 79 = Some (stub_bytes start stub hook) /\ get_bytes m' start 5 = Some (jump_bytes start stub) /\
  get_bytes m' (start + 5) (length (nops hook)) = Some (nops hook) /\
  forall x, ~ covers stub STUB_SIZE x -> ~ covers start (2 + next_length hook) x -> m' x = m x.
Proof.
  intros Hl Ha m'. pose proof (nops_length hook Hl) as Hnl. unfold apart, STUB_SIZE in Ha.
  unfold m', patch_data, apply_records. cbn [fold_left fst snd]. split_and!.
  - rewrite get_bytes_apart by (rewrite Hnl; unfold apart; lia).
    rewrite get_bytes_apart by (change (Z.of_nat (length (jump_bytes start stub))) with 5; unfold apart; lia).
    exact (get_bytes_overlay m stub (stub_bytes start stub hook)).
  - rewrite get_bytes_apart by (rewrite Hnl; unfold apart; lia).
    exact (get_bytes_overlay _ start (jump_bytes start stub)).
  - apply get_bytes_overlay.
  - intros x Hx Hy. unfold covers, STUB_SIZE in *. rewrite overlay_out by (rewrite Hnl; unfold covers; lia).
    rewrite overlay_out by (change (Z.of_nat (length (jump_bytes start stub))) with 5; unfold covers; lia).
    apply overlay_out. change (Z.of_nat (length (stub_bytes start stub hook))) with 79. unfold covers. lia.
Qed.

(** What the stubs need of the thread: its locals, and room for the frame outside of the stubs. *)
Record call_ready (s : mstate) (sp nesting alt : Z) : Prop := {
  cr_sp : 0 <= sp < 2 ^ 64;
  cr_alt : load (tracee s) ALT_STACK 8 = Some alt;
  cr_nesting : load (tracee s) NESTING 4 = Some nesting;
  cr_scratch : present (tracee s) SCRATCH_1 12;
  cr_top : 16 <= frame_top nesting alt sp < 2 ^ 64;
  cr_frame : present (tracee s) (frame_top nesting alt sp - 16) 16;
  cr_apart : apart (frame_top nesting alt sp - 16) 16 ALT_STACK 28;
  cr_pages : forall p, p ∈ pages s ->
    apart (frame_top nesting alt sp - 16) 16 (page_addr p) PAGE /\ apart (page_addr p) PAGE ALT_STACK 28 }.

Lemma patched_runs s s' start stub hook sp ax z nesting alt :
  site_ok s start hook -> patched s s' start stub hook -> call_ready s' sp nesting alt ->
  exists n z' m', run n (mkCpu start sp ax z (tracee s')) = Some (mkCpu (target hook) (frame_top nesting alt sp - 16) ax z' m') /\
    hook_entry (return_address start hook) (tracee s') m' (frame_top nesting alt sp) sp nesting.
Proof.
  intros [Hl Ht Hb Hm Hn Hout] [Hnear [S1 S2] Hap Hok _ Hst (m & _ & Hmem) _ _] [C1 C2 C3 C4 C5 C6 C7 C8].
  destruct (patched_code m start stub hook ltac:(lia) Hap) as (G1 & G2 & _). cbv zeta in G1, G2. rewrite <- Hmem in G1, G2.
  assert (exists p, p ∈ pages s' /\ page_addr p <= stub /\ stub + STUB_SIZE <= page_addr p + PAGE) as (p & Hp & B1 & B2).
  { destruct (so_stubs _ Hok (stub, STUB_SIZE)) as (_ & p & Hp & B1 & B2); [rewrite Hst; apply stubs_assign_new|].
    exists p. split_and!; try done. pose proof (so_pages _ Hok) as HF. rewrite Forall_forall in HF.
    destruct (HF p) as [_ _ A _]; [by apply list_elem_of_In|]. cbn in B2. lia. }
  destruct (C8 p Hp) as [D1 D2]. unfold return_address.
  assert (stub_ready stub (return_address start hook) (target hook) (tracee s') sp nesting alt) as Hr.
  { split; try done; unfold apart in *; [lia|lia|split; [lia|done]]. }
  assert (0 <= return_address start hook < 2 ^ 64) as Hret by (unfold return_address; lia).
  destruct (stub_runs stub (return_address start hook) (target hook) Ht (tracee s') sp ax z nesting alt Hr) as (n & z' & H2).
  assert (run 1 (mkCpu start sp ax z (tracee s')) = Some (mkCpu stub sp ax z (tracee s'))) as H1.
  { apply jump_runs; [exact G2|done|unfold STUB_SIZE in *; lia]. }
  exists (1 + n)%nat, z'. eexists. rewrite (run_app _ _ _ _ H1). split; [exact H2|]. by apply hook_entry_ok.
Qed.

(** ** Leaving the system call *)

(** What the exit of a system call leaves alone. *)
Definition same_code (s s' : mstate) : Prop :=
  vm s' = vm s /\ tracee s' = tracee s /\ trace_data s' = trace_data s /\ trace_maps s' = trace_maps s /\ patcher s' = patcher s.

Lemma same_code_trans s1 s2 s3 : same_code s1 s2 -> same_code s2 s3 -> same_code s1 s3.
Proof. unfold same_code. intros (A1 & A2 & A3 & A4 & A5) (B1 & B2 & B3 & B4 & B5). split_and!; congruence. Qed.

Lemma exit_loop_same t l : forall w s r s', exit_loop t l w s = (r, s') -> same_code s s' /\ regs_ s' = regs_ s.
Proof.
  induction l as [|x l IH]; intros w s r s' H; cbn [exit_loop] in H; [by injection H as <- <-|].
  rewrite (bind_ok (change _) _ s tt (put_stops l s) eq_refl) in H. set (s1 := put_stops l s) in H.
  assert (same_code s s1 /\ regs_ s1 = regs_ s) as [E1 R1] by done.
  assert (forall w r s2, exit_loop t l w s1 = (r, s2) -> same_code s s2 /\ regs_ s2 = regs_ s) as IH'.
  { intros w' r' s2 H2. destruct (IH _ _ _ _ H2) as [E2 R2]. split; [by eapply same_code_trans|congruence]. }
  destruct (w && _); [by eapply IH'|]. destruct (_ =? PTRACE_EVENT_EXIT); [injection H as <- <-; by split|].
  destruct (ptrace_event (status x) =? 0); [|injection H as <- <-; by split].
  rewrite (bind_ok (S := mstate) (ASSERT true) _ s1 tt s1 eq_refl) in H.
  destruct (stop_sig (status x) =? 0); [injection H as <- <-; by split|].
  destruct (is_ignored_signal _ && _); [by eapply IH'|]. destruct (recording t); [|injection H as <- <-; by split].
  rewrite (bind_ok (S := mstate) (ASSERT true) _ s1 tt s1 eq_refl) in H.
  unfold mbind at 1, TM_bind at 1, in_signals at 1 in H.
  destruct (stash_sig _ _ _ _ _) as [[u|e] v]; [|injection H as <- <-; by split].
  destruct (IH _ _ _ _ H) as [E2 R2]. split; [|by rewrite R2]. by eapply same_code_trans.
Qed.

Lemma exit_restart_ok t s ok s' :
  exit_syscall_and_prepare_restart t s = (Ok ok, s') ->
  same_code s s' /\ (ok = true -> ip (regs_ s') = u64 (ip (regs_ s) - 2) /\ syscall_result (regs_ s') = s32 (original_syscallno (regs_ s)) /\
    sp (regs_ s') = sp (regs_ s)).
Proof.
  unfold exit_syscall_and_prepare_restart. rewrite (bind_ok (ask regs_) _ s (regs_ s) s eq_refl).
  rewrite (bind_ok (change _) _ s tt _ eq_refl). intros H. apply bind_Ok_inv in H as (b & s1 & H1 & H2).
  unfold exit_syscall in H1. apply bind_Ok_inv in H1 as (l & s0 & H0 & H1). injection H0 as <- <-.
  apply exit_loop_same in H1 as [E1 R1]. destruct b; cbn [negb] in H2; injection H2 as <- <-; (split; [|done]);
    eapply same_code_trans; [|exact E1| |exact E1]; done.
Qed.

(** ** [try_patch_syscall] *)

Lemma same_code_stubs_ok s s' : same_code s s' -> stubs_ok s -> stubs_ok s'.
Proof.
  intros (E1 & E2 & _ & _ & E5) [Hg Hb Hp Hd Hso Hst]. unfold pages, stubs in *.
  split; rewrite ?E1, ?E2; unfold pages, stubs; rewrite ?E5; try done.
  eapply Forall_impl; [|exact Hp]. intros p [P1 P2 P3 P4]. split; try done. by rewrite E1, E2.
Qed.

Lemma same_code_site_ok s s' start hook : same_code s s' -> site_ok s start hook -> site_ok s' start hook.
Proof. intros (E1 & E2 & _ & _ & E5) [H1 H2 H3 H4 H5 H6]. split; try done; unfold pages in *; by rewrite ?E1, ?E2, ?E5. Qed.

(** Another task, stopped in the patched range or with a system call pending there. *)
Definition in_the_way (start end_ : Z) (o : other_task) : Prop :=
  (is_running o = false /\ start <= other_ip o < end_) \/ exists q, q ∈ pending_syscalls o /\ start <= q < end_.

Lemma in_patch_range start end_ q : in_patch start end_ q = true <-> start <= q < end_.
Proof. unfold in_patch. rewrite andb_true_iff, Z.leb_le, Z.ltb_lt. done. Qed.

Lemma safe_inv t start end_ o :
  safe_for_syscall_patching t start end_ = true -> o ∈ other_tasks t -> ~ in_the_way start end_ o.
Proof.
  intros H Ho. unfold safe_for_syscall_patching in H. rewrite forallb_forall in H.
  specialize (H o ltac:(by apply list_elem_of_In)). unfold task_safe_for_syscall_patching in H.
  intros [[Hr Hin]|(q & Hq & Hin)]; apply in_patch_range in Hin.
  - by rewrite Hr, Hin in H.
  - destruct (_ && _); [done|]. rewrite forallb_forall in H. specialize (H q ltac:(by apply list_elem_of_In)). by rewrite Hin in H.
Qed.

(** A hook that applies to the bytes after the call. *)
Definition applies (t : task_env) (ip : Z) (following : list Z) (vdso : bool) (hook : patch_hook) : Prop :=
  hook_matches following hook = true /\ (vdso = true \/ interfering_from hook 0 following = false) /\
  forall o, o ∈ other_tasks t -> ~ in_the_way ip (u64 (ip + next_length hook)) o.

Lemma try_hooks_inv t ip following vdso hooks s b s' :
  try_hooks t ip following vdso hooks s = (Ok b, s') ->
  if b then exists hook s1 r, hook ∈ hooks /\ applies t ip following vdso hook /\
      exit_syscall_and_prepare_restart t s = (Ok true, s1) /\ patch_syscall_with_hook t hook s1 = (Ok r, s')
  else same_code s s' \/ s' = put_patcher (put_tried (ip :: tried_to_patch_syscall_addresses (patcher s)) (patcher s)) s.
Proof.
  induction hooks as [|hook hooks IH]; cbn [try_hooks]; intros H.
  - injection H as <- <-. by right.
  - destruct (hook_matches following hook && (vdso || negb (interfering_from hook 0 following))) eqn:E.
    + apply andb_true_iff in E as [E1 E2].
      destruct (safe_for_syscall_patching t ip (u64 (ip + next_length hook))) eqn:Es; cbn [negb] in H;
        [|injection H as <- <-; by left].
      apply bind_Ok_inv in H as (out & s1 & H1 & H2). destruct out; cbn [negb] in H2.
      * apply bind_Ok_inv in H2 as (r & s2 & H2 & H3). injection H3 as <- <-. exists hook, s1, r.
        split_and!; [left|split_and!; [done| |]|done|done].
        -- apply orb_true_iff in E2 as [->|E2%negb_true_iff]; [by left|by right].
        -- intros o. by apply safe_inv.
      * injection H2 as <- <-. left. by apply exit_restart_ok in H1 as [H1 _].
    + specialize (IH H). destruct b; [|done]. destruct IH as (h & s1 & r & Hin & Hr). exists h, s1, r. split; [by right|done].
Qed.

Lemma put_tried_stubs_ok s l : stubs_ok s -> stubs_ok (put_patcher (put_tried l (patcher s)) s).
Proof.
  intros [Hg Hb Hp Hd Hso Hst]. split; try done. eapply Forall_impl; [|exact Hp]. by intros p [P1 P2 P3 P4].
Qed.

(** The code before a system call instruction and the bytes after it. *)
Definition call_site (s : mstate) : Z := u64 (ip (regs_ s) - 2).
Definition following (s : mstate) : list Z := read_bytes_fallible (tracee s) (ip (regs_ s)) 256.
Definition is_vdso_call (s : mstate) : bool := existsb (Z.eqb (call_site s)) (patched_vdso_syscalls (patcher s)).

Lemma try_patch_inv t s b s' :
  try_patch_syscall t s = (Ok b, s') ->
  (b = false /\ s' = s) \/
  (b = false /\ s' = put_patcher (put_tried (ip (regs_ s) :: tried_to_patch_syscall_addresses (patcher s)) (patcher s)) s) \/
  (get_syscall_instruction_arch t (mem (vm s)) (tracee s) (call_site s) = Some (arch t) /\
   try_hooks t (ip (regs_ s)) (following s) (is_vdso_call s) (syscall_hooks (patcher s)) s = (Ok b, s')).
Proof.
  unfold try_patch_syscall. rewrite (bind_ok (ask patcher) _ s (patcher s) s eq_refl).
  destruct (syscall_hooks (patcher s)) as [|h hs]; [intros H; injection H as <- <-; by left|].
  destruct (has_emulated_ptracer t); [intros H; injection H as <- <-; by left|].
  rewrite (bind_ok (ask regs_) _ s (regs_ s) s eq_refl).
  destruct (is_in_traced_syscall t _); [intros H; injection H as <- <-; by left|].
  destruct (existsb (Z.eqb (ip (regs_ s))) _); [intros H; injection H as <- <-; by left|].
  rewrite (bind_ok (ask (fun s => mem (vm s))) _ s (mem (vm s)) s eq_refl), (bind_ok (ask tracee) _ s (tracee s) s eq_refl).
  case_bool_decide as Ha; cbn [negb]; [|intros H; injection H as <- <-; right; by left].
  intros H. right. right. by split.
Qed.

(** Replay maps the pages of the trace and writes its data. *)
Definition replay_patch (maps : list KernelMapping) (data : list (Z * list Z)) (m : tmem) : tmem :=
  apply_records data (fold_left (fun m k => overlay m (kstart k) zero_page) maps m).

Lemma recognised s pp : stubs_ok s ->
  is_jump_stub_instruction (patcher s) pp = true <-> exists st, st ∈ stubs s /\ covers st.1 st.2 pp.
Proof.
  intros Hs. pose proof Hs as [_ _ Hp _ Hso Hst]. unfold is_jump_stub_instruction. fold (stubs s).
  pose proof (span_last (stubs s) pp Hso (fun x Hx => proj1 (Hst x Hx))) as H. destruct (list_basics.list.last _) as [y|].
  - destruct H as (H1 & H2 & H3). destruct (Hst y H1) as (Hy & p & Hpp & B1 & B2). rewrite Forall_forall in Hp.
    destruct (Hp p ltac:(by apply list_elem_of_In)) as [_ C1 C2 _].
    rewrite wrapu_small by (unfold PAGE in *; lia). rewrite andb_true_iff, Z.leb_le, Z.ltb_lt. unfold covers. split.
    + intros Hc. by exists y.
    + intros (st & Hin & Hc). destruct (H3 st Hin ltac:(lia)) as [->|]; lia.
  - split; [done|]. intros (st & Hin & Hc). specialize (H st Hin). unfold covers in Hc. lia.
Qed.

Section Claims.
Variable t : task_env.
Hypothesis munmap_works : forall p n, local_munmap t p n = true.
Hypothesis on_x64 : arch t = x86_64.

(** C6.  A patched system call arrives at its hook: after
    `patch_syscall_with_hook` on x86-64 the bytes it wrote, run as x86-64
    instructions from the patched address, jump to the stub and from there to
    the hook of the preload library, on the alternate stack for the outermost
    call and below the red zone otherwise, with the address after the patched
    instructions and the old stack pointer on that stack and nothing else
    changed but the nesting level and the scratch word.  When it does not patch,
    no page of stubs has room and the next free memory is out of reach, and
    nothing has changed. *)
Theorem patched_call_reaches_hook hook s :
  let start := ip (regs_ s) in
  stubs_ok s -> room s -> site_ok s start hook ->
  exists r s', patch_syscall_with_hook t hook s = (Ok r, s') /\
    if r : bool then forall sp ax z nesting alt, call_ready s' sp nesting alt ->
      let top := frame_top nesting alt sp in
      exists n z' m', run n (mkCpu start sp ax z (tracee s')) = Some (mkCpu (target hook) (top - 16) ax z' m') /\
        hook_entry (start + 2 + next_length hook) (tracee s') m' top sp nesting
    else s' = s /\ no_space STUB_SIZE (start + 5) s.
Proof.
  intros start Hs Hroom Hsite. destruct (patch_ok t munmap_works on_x64 hook s Hs Hroom Hsite) as (r & s' & Hp & H).
  exists r, s'. split; [done|]. destruct r; [|done]. destruct H as (stub & Hpa). intros sp ax z nesting alt Hc top.
  exact (patched_runs _ _ _ _ _ _ _ _ _ _ Hsite Hpa Hc).
Qed.

Lemma patched_frame s s' start stub hook x :
  3 <= next_length hook -> patched s s' start stub hook -> mapped (mem (vm s)) x ->
  ~ covers stub STUB_SIZE x -> ~ covers start (2 + next_length hook) x -> tracee s' x = tracee s x.
Proof.
  intros Hl [_ _ Hap _ _ _ (m & Hm & ->) _ _] Hx H1 H2.
  destruct (patched_code m start stub hook Hl Hap) as (_ & _ & _ & H). cbv zeta in H. rewrite H by done.
  destruct Hm as [[-> _]|(k & _ & -> & Hk)]; [done|]. apply overlay_out. rewrite zero_page_length. intros Hc. by apply (Hk x Hc).
Qed.

Lemma patched_replays s s' start stub hook :
  patched s s' start stub hook ->
  exists maps data, trace_maps s' = trace_maps s ++ maps /\ trace_data s' = trace_data s ++ data /\
    tracee s' = replay_patch maps data (tracee s).
Proof.
  intros [_ _ _ _ _ _ (m & Hm & Ht) Hd _]. destruct Hm as [[-> Hm]|(k & Hm & -> & _)].
  - exists [], (patch_data start stub hook). by rewrite app_nil_r.
  - by exists [k], (patch_data start stub hook).
Qed.

(** The calls whose bytes match a hook may be patched. *)
Definition patchable (s : mstate) : Prop :=
  forall hook, hook ∈ syscall_hooks (patcher s) -> hook_matches (following s) hook = true -> site_ok s (call_site s) hook.

Lemma try_patch_outcome s b s' :
  stubs_ok s -> room s -> patchable s -> try_patch_syscall t s = (Ok b, s') ->
  if b then exists hook s1, hook ∈ syscall_hooks (patcher s) /\ applies t (ip (regs_ s)) (following s) (is_vdso_call s) hook /\
      get_syscall_instruction_arch t (mem (vm s)) (tracee s) (call_site s) = Some (arch t) /\
      site_ok s (call_site s) hook /\ same_code s s1 /\ ip (regs_ s1) = call_site s /\
      (s' = s1 \/ exists stub, patched s1 s' (call_site s) stub hook)
  else same_code s s' \/ s' = put_patcher (put_tried (ip (regs_ s) :: tried_to_patch_syscall_addresses (patcher s)) (patcher s)) s.
Proof.
  intros Hs Hroom Hpat H. apply try_patch_inv in H as [[-> ->]|[[-> ->]|[Ha H]]]; [by left|by right|].
  apply try_hooks_inv in H. destruct b; [|done]. destruct H as (hook & s1 & r & Hin & Happ & He & Hp).
  apply exit_restart_ok in He as [Hsame Hregs]. destruct (Hregs eq_refl) as (Hip & _). fold (call_site s) in Hip.
  assert (site_ok s (call_site s) hook) as Hsite by (apply Hpat; [done|apply Happ]).
  assert (room s1) as Hroom1 by (intros e; rewrite (proj1 Hsame); apply Hroom).
  pose proof (same_code_site_ok _ _ _ _ Hsame Hsite) as Hsite1. rewrite <- Hip in Hsite1.
  destruct (patch_ok t munmap_works on_x64 hook s1 (same_code_stubs_ok _ _ Hsame Hs) Hroom1 Hsite1) as (r' & s2 & Hp2 & Hr).
  rewrite Hp in Hp2. injection Hp2 as <- <-. exists hook, s1. split_and!; try done. rewrite Hip in Hr. destruct r; [by right|]. destruct Hr as [-> Hr]. by left.
Qed.

(** When the kernel lets the task leave the system call, rr's assertions hold. *)
Lemma try_patch_returns s ok s1 :
  stubs_ok s -> room s -> patchable s -> exit_syscall_and_prepare_restart t s = (Ok ok, s1) ->
  exists b s', try_patch_syscall t s = (Ok b, s').
Proof.
  intros Hs Hroom Hpat He. unfold try_patch_syscall. rewrite (bind_ok (ask patcher) _ s (patcher s) s eq_refl).
  destruct (syscall_hooks (patcher s)) as [|h hs] eqn:Eh; [by eexists _, _|]. rewrite <- Eh. clear Eh h hs.
  destruct (has_emulated_ptracer t); [by eexists _, _|]. rewrite (bind_ok (ask regs_) _ s (regs_ s) s eq_refl).
  destruct (is_in_traced_syscall t _); [by eexists _, _|]. destruct (existsb (Z.eqb (ip (regs_ s))) _); [by eexists _, _|].
  rewrite (bind_ok (ask (fun s => mem (vm s))) _ s (mem (vm s)) s eq_refl), (bind_ok (ask tracee) _ s (tracee s) s eq_refl).
  destruct (negb _); [by eexists _, _|]. fold (following s).
  assert (forall hook, hook ∈ syscall_hooks (patcher s) -> hook_matches (following s) hook = true -> ok = true ->
    exists r s2, patch_syscall_with_hook t hook s1 = (Ok r, s2)) as Hpatch.
  { intros hook Hin Hm ->. apply exit_restart_ok in He as [Hsame Hregs]. destruct (Hregs eq_refl) as (Hip & _).
    destruct (patch_ok t munmap_works on_x64 hook s1) as (r & s2 & H & _); [by eapply same_code_stubs_ok| | |by exists r, s2].
    - intros e. rewrite (proj1 Hsame). apply Hroom.
    - rewrite Hip. by apply (same_code_site_ok s), Hpat. }
  clear Hpat. induction (syscall_hooks (patcher s)) as [|hook hooks IH]; cbn [try_hooks]; [by eexists _, _|].
  destruct (hook_matches (following s) hook) eqn:Em; cbn [andb]; [|apply IH; intros h Hin; apply Hpatch; by right].
  destruct (_ || _); [|apply IH; intros h Hin; apply Hpatch; by right]. destruct (negb _); [by eexists _, _|].
  rewrite (bind_ok _ _ _ _ _ He). destruct ok; cbn [negb]; [|by eexists _, _].
  destruct (Hpatch hook ltac:(left) Em eq_refl) as (r & s2 & Hp). rewrite (bind_ok _ _ _ _ _ Hp). by eexists _, _.
Qed.

(** C21.  On x86-64, `try_patch_syscall` returns without a failed assertion once
    the task can leave its system call, provided that a call whose bytes match a
    hook lies in mapped and readable code outside of the stubs that does not end
    within five bytes of its mapping (patch_at_end_of_mapping_stops_rr shows
    what happens otherwise), that behind every mapping there is room for three
    pages below 2^64, and that rr can unmap its own memory.  It patches only a
    system call of the task's own architecture that is followed by the bytes of
    a hook, with no short jump back into them and no other task in them; the
    task is then set back to the system call, memory has changed only in the
    patched bytes and the stub, and mapping the pages and writing the data of
    the trace gives the same memory. *)
Theorem try_patch_is_safe s ok s1 :
  stubs_ok s -> room s -> patchable s -> exit_syscall_and_prepare_restart t s = (Ok ok, s1) ->
  exists b s', try_patch_syscall t s = (Ok b, s') /\
  (exists maps data, trace_maps s' = trace_maps s ++ maps /\ trace_data s' = trace_data s ++ data /\
     tracee s' = replay_patch maps data (tracee s)) /\
  if b : bool then exists hook, hook ∈ syscall_hooks (patcher s) /\ applies t (ip (regs_ s)) (following s) (is_vdso_call s) hook /\
      get_syscall_instruction_arch t (mem (vm s)) (tracee s) (call_site s) = Some (arch t) /\ ip (regs_ s') = call_site s /\
      (tracee s' = tracee s \/ exists stub, near stub (u64 (call_site s + 5)) = true /\
         forall x, mapped (mem (vm s)) x -> ~ covers stub STUB_SIZE x -> ~ covers (call_site s) (2 + next_length hook) x ->
           tracee s' x = tracee s x)
  else tracee s' = tracee s.
Proof.
  intros Hs Hroom Hpat He. destruct (try_patch_returns s ok s1 Hs Hroom Hpat He) as (b & s' & H). exists b, s'. split; [done|].
  pose proof (try_patch_outcome s b s' Hs Hroom Hpat H) as Ho. clear s1 ok He. destruct b.
  - destruct Ho as (hook & s1 & Hin & Happ & Ha & Hsite & (E1 & E2 & E3 & E4 & E5) & Hip & [->|(stub & Hp)]).
    + split; [exists [], []; by rewrite !app_nil_r|]. exists hook. split_and!; try done. by left.
    + split; [rewrite <- E2, <- E3, <- E4; by eapply patched_replays|]. exists hook.
      split_and!; try done; [by rewrite (pa_regs _ _ _ _ _ Hp)|].
      right. exists stub. split; [by apply Hp|]. intros x Hx H1 H2. rewrite <- E2.
      apply (patched_frame s1 s' (call_site s) stub hook); try done; [apply Hsite|by rewrite E1].
  - split; [|destruct Ho as [(_ & -> & _)| ->]; done]. exists [], []. rewrite !app_nil_r.
    destruct Ho as [(_ & -> & -> & -> & _)| ->]; done.
Qed.

(** C24.  On x86-64, when `try_patch_syscall` returns, whether it patched or
    not, the stubs are in the allocated parts of pages that do not overlap,
    apart from each other, all stubs there were are kept, and
    `is_jump_stub_instruction` says of every address whether it is in one of
    them.  A call whose bytes match a hook has to lie in mapped and readable
    code outside of the stubs, not at the end of its mapping, every mapping
    needs room for three pages behind it, and rr can unmap its own memory. *)
Theorem stubs_stay_apart s b s' pp :
  stubs_ok s -> room s -> patchable s -> try_patch_syscall t s = (Ok b, s') ->
  stubs_ok s' /\ (forall st, st ∈ stubs s -> st ∈ stubs s') /\
  (is_jump_stub_instruction (patcher s') pp = true <-> exists st, st ∈ stubs s' /\ covers st.1 st.2 pp).
Proof.
  intros Hs Hroom Hpat H. pose proof (try_patch_outcome s b s' Hs Hroom Hpat H) as Ho.
  assert (stubs_ok s' /\ forall st, st ∈ stubs s -> st ∈ stubs s') as [Hok Hold]; [|split_and!; [done|done|by apply recognised]].
  destruct b.
  - destruct Ho as (hook & s1 & _ & _ & _ & _ & Hsame & _ & [->|(stub & Hp)]).
    + split; [by eapply same_code_stubs_ok|]. unfold stubs. by destruct Hsame as (_ & _ & _ & _ & ->).
    + split; [apply Hp|]. intros st Hst. rewrite (pa_stubs _ _ _ _ _ Hp). apply stubs_assign_old.
      * unfold stubs in *. by destruct Hsame as (_ & _ & _ & _ & ->).
      * apply Hp. unfold stubs in *. by destruct Hsame as (_ & _ & _ & _ & ->).
  - destruct Ho as [Hsame| ->]; [|split; [by apply put_tried_stubs_ok|done]].
    split; [by eapply same_code_stubs_ok|]. unfold stubs. by destruct Hsame as (_ & _ & _ & _ & ->).
Qed.
End Claims.

(** ** The hooks of the preload library *)

(** A hook as [init_process] lays it out ([store_hooks]). *)
Definition hook_bytes (l : linkage) (h : syscall_patch_hook) : list Z :=
  [is_multi_instruction h; next_instruction_length h] ++ take 14 (next_instruction_bytes h ++ replicate 14 0) ++
  le_bytes 8 (trampoline_address l (hook_address h)).

Definition hook_for (l : linkage) (h : syscall_patch_hook) : patch_hook :=
  mkPatchHook (is_multi_instruction h) (next_instruction_length h) (take 14 (next_instruction_bytes h ++ replicate 14 0))
    (trampoline_address l (hook_address h)).

Lemma hook_of_bytes l h :
  0 <= trampoline_address l (hook_address h) < 2 ^ 64 -> hook_of (hook_bytes l h) = hook_for l h.
Proof.
  intros Ha. unfold hook_of, hook_bytes, hook_for. set (b := take 14 _).
  assert (length b = 14)%nat as Hb by (unfold b; rewrite length_take, length_app, length_replicate; lia).
  do 14 (destruct b as [|? b]; [done|]). destruct b; [|done].
  change (take 8 (drop 16 _)) with (le_bytes 8 (trampoline_address l (hook_address h))).
  by rewrite le_value_le_bytes.
Qed.

Lemma hook_bytes_length l h : length (hook_bytes l h) = 24%nat.
Proof.
  unfold hook_bytes. rewrite !length_app, length_take, length_app, length_replicate, length_le_bytes. cbn [length]. lia.
Qed.

Lemma chunks_hooks l hs : chunks (length hs) (concat (map (hook_bytes l) hs)) = map (hook_bytes l) hs.
Proof.
  induction hs as [|h hs IH]; [done|]. cbn [map concat length chunks]. change (Z.to_nat SIZEOF_hook) with 24%nat.
  rewrite take_app_length', drop_app_length' by by rewrite hook_bytes_length. by rewrite IH.
Qed.

(** rr reads the table of hooks of the preload library as it is, and each of its
    hooks leaves room for the jump. *)
Theorem library_hooks_read l p s :
  (forall y, 0 <= trampoline_address l y < 2 ^ 64) ->
  get_bytes (tracee s) p 288 = Some (concat (map (hook_bytes l) syscall_patch_hooks)) ->
  init_dynamic_syscall_patching 12 p s =
    (Ok tt, put_patcher (put_hooks (map (hook_for l) syscall_patch_hooks) (patcher s)) s) /\
  Forall (fun h => 3 <= next_length h <= 14 /\ 0 <= target h < 2 ^ 64) (map (hook_for l) syscall_patch_hooks).
Proof.
  intros Ha Hg. split.
  - unfold init_dynamic_syscall_patching. cbn [Z.eqb negb]. rewrite (bind_ok (ask tracee) _ s (tracee s) s eq_refl).
    unfold read_bytes. change (Z.to_nat (SIZEOF_hook * 12)) with 288%nat. rewrite Hg, (bind_ok (liftP (Ok _)) _ s _ s eq_refl).
    change (Z.to_nat 12) with (length syscall_patch_hooks). rewrite chunks_hooks.
    assert (map hook_of (map (hook_bytes l) syscall_patch_hooks) = map (hook_for l) syscall_patch_hooks) as ->; [|done].
    rewrite map_map. apply map_ext. intros h. by apply hook_of_bytes.
  - apply Forall_map. unfold syscall_patch_hooks. repeat constructor; cbn; lia || apply Ha.
Qed.

(** ** A patched call *)

Lemma present_check m a n :
  forallb (fun i => bool_decide (m (a + Z.of_nat i) <> None)) (seq 0 n) = true -> present m a (Z.of_nat n).
Proof.
  intros H x Hx. rewrite forallb_forall in H. specialize (H (Z.to_nat (x - a))). unfold covers in Hx.
  assert (In (Z.to_nat (x - a)) (seq 0 n)) as Hin by (apply in_seq; lia). apply H, bool_decide_eq_true in Hin.
  by replace (a + Z.of_nat (Z.to_nat (x - a))) with x in Hin by lia.
Qed.

Definition code0 : list Z := [0x0f; 0x05; 0x48; 0x3d; 0x01; 0xf0; 0xff; 0xff].
Definition hook0 : patch_hook := mkPatchHook 0 6 [0x48; 0x3d; 0x01; 0xf0; 0xff; 0xff; 0; 0; 0; 0; 0; 0; 0; 0] 0x7f0000001000.
Definition space0 : list entry := [anon 0x10000 0x11000 0; anon 0x20000 0x21000 0; anon 0x70001000 0x70002000 0].
Definition blank0 : tmem := fun x => if existsb (Z.eqb (x / PAGE)) [0x10; 0x20; 0x70001] then Some 0 else None.
Definition memory0 : tmem := overlay (overlay blank0 0x10100 code0) ALT_STACK (le_bytes 8 0x21000).
Definition patcher0 (hooks : list patch_hook) : Monkeypatcher := mkPatcher [] [] [] hooks [].
Definition no_signals : sig_state := mkSignals ∅ ∅ [] [] 0.

(** A stop at the exit of the system call. *)
Definition exit_stop : stop := mkStop 0x857f (mkSiginfo 0 0 0 0 0) false.

Definition state0 (at_ : Z) (hook : patch_hook) (m : tmem) (l : list entry) : mstate :=
  mkMs (space_of l) m [] [] (patcher0 [hook]) (mkRegs at_ 0 (-38) 0x20800) no_signals [exit_stop].

Definition env0 : task_env := mkEnv x86_64 7 false 0x70000000 0x70000003 false false true true [mkOther false 0x20000 [0x20002]] (fun _ _ => true).

Lemma wf_anon_page a n : 0 <= a -> 0 < n -> a + n < 2 ^ 64 -> a mod PAGE = 0 -> (a + n) mod PAGE = 0 -> wf_entry (anon a (a + n) 0).
Proof. intros. split; cbn; try done; try lia; split; cbn; done || lia. Qed.

Lemma good_space0 : good_space (space_of space0).
Proof.
  split; cbn; [|repeat constructor|constructor]. split; [repeat constructor; unfold before; cbn; lia|].
  unfold space0. constructor; [by apply (wf_anon_page 0x10000 0x1000)|].
  constructor; [by apply (wf_anon_page 0x20000 0x1000)|]. constructor; [by apply (wf_anon_page 0x70001000 0x1000)|constructor].
Qed.

Lemma memory0_by_page : by_page memory0.
Proof.
  apply by_page_write; [apply by_page_write|]; [|apply (present_check _ _ 8); vm_compute; reflexivity..].
  intros a b _ _ H. unfold blank0. by rewrite H.
Qed.

Lemma stubs0 at_ : stubs_ok (state0 at_ hook0 memory0 space0).
Proof.
  split; cbn; [apply good_space0|apply memory0_by_page|constructor|constructor|constructor|]. by intros st H%elem_of_nil.
Qed.

Lemma mapped_in (l : list entry) (e : entry) x : e ∈ l -> inside x (fst e) -> mapped l x.
Proof. intros He Hx. by exists (attr (snd e) x), e. Qed.

Lemma site0 at_ : site_ok (state0 at_ hook0 memory0 space0) 0x10100 hook0.
Proof.
  assert (forall x, 0x10000 <= x < 0x11000 -> mapped space0 x) as Hm by (intros x Hx; apply (mapped_in _ (anon 0x10000 0x11000 0)); [left|done]).
  assert (present memory0 0x10100 8) as Hp by (apply (present_check _ _ 8); vm_compute; reflexivity).
  split; cbn.
  - lia.
  - lia.
  - lia.
  - intros x Hx. split; [apply Hm; unfold covers in Hx; lia|by apply Hp].
  - apply Hm. lia.
  - by intros p H%elem_of_nil.
Qed.

Lemma room0 at_ : room (state0 at_ hook0 memory0 space0).
Proof.
  intros e He. cbn in He. unfold space0 in He. rewrite !elem_of_cons in He. unfold PAGE.
  destruct He as [->|[->|[->|H%elem_of_nil]]]; cbn; lia || done.
Qed.

Definition patched0 : result bool * mstate := patch_syscall_with_hook env0 hook0 (state0 0x10100 hook0 memory0 space0).

Lemma ready0 : call_ready patched0.2 0x20800 0 0x21000.
Proof.
  assert (pages patched0.2 = [mkPage 0x12000 79]) as Hp by (vm_compute; reflexivity).
  split.
  - lia.
  - vm_compute; reflexivity.
  - vm_compute; reflexivity.
  - apply (present_check _ _ 12). vm_compute. reflexivity.
  - vm_compute. split; [discriminate|reflexivity].
  - apply (present_check _ _ 16). vm_compute. reflexivity.
  - left. vm_compute. discriminate.
  - intros p Hin. rewrite Hp in Hin. apply list_elem_of_singleton in Hin as ->. split; [right|left]; vm_compute; discriminate.
Qed.

Lemma patched_call_reaches_hook_witness :
  exists n z' m', run n (mkCpu 0x10100 0x20800 0 false (tracee patched0.2)) = Some (mkCpu 0x7f0000001000 (0x21000 - 16) 0 z' m') /\
    load m' (0x21000 - 16) 8 = Some 0x10108 /\ load m' (0x21000 - 8) 8 = Some 0x20800.
Proof.
  destruct (patched_call_reaches_hook env0 (fun _ _ => eq_refl) eq_refl hook0 (state0 0x10100 hook0 memory0 space0)
    (stubs0 0x10100) (room0 0x10100) (site0 0x10100)) as (r & s' & E & H).
  assert (patched0 = (Ok r, s')) as E' by exact E.
  assert (patched0.1 = Ok true) as Ht by (vm_compute; reflexivity). rewrite E' in Ht. injection Ht as ->.
  assert (patched0.2 = s') as Hs by (rewrite E'; reflexivity). rewrite Hs.
  pose proof ready0 as Hr. rewrite Hs in Hr. destruct (H 0x20800 0 false 0 0x21000 Hr) as (n & z' & m' & Hn & [H1 H2 _ _ _]).
  exists n, z', m'. split; [exact Hn|]. split; [exact H1|exact H2].
Defined.

Lemma patchable0 : patchable (state0 0x10102 hook0 memory0 space0).
Proof.
  intros hook Hin _. cbn in Hin. apply list_elem_of_singleton in Hin as ->.
  change (call_site (state0 0x10102 hook0 memory0 space0)) with 0x10100. apply site0.
Qed.

Abbreviation try0 := (try_patch_syscall env0 (state0 0x10102 hook0 memory0 space0)).

Lemma with_result {X Y} (x : X * Y) a : x.1 = a -> x = (a, x.2).
Proof. intros <-. by destruct x. Qed.

Lemma exit0 : (exit_syscall_and_prepare_restart env0 (state0 0x10102 hook0 memory0 space0)).1 = Ok true.
Proof. vm_compute. reflexivity. Qed.

Lemma try0_true : try0.1 = Ok true.
Proof. vm_compute. reflexivity. Qed.

Lemma try_patch_is_safe_witness :
  try0.1 = Ok true /\ exists maps data, trace_maps try0.2 = maps /\ trace_data try0.2 = data /\
    tracee try0.2 = replay_patch maps data memory0.
Proof.
  destruct (try_patch_is_safe env0 (fun _ _ => eq_refl) eq_refl (state0 0x10102 hook0 memory0 space0) true
    (exit_syscall_and_prepare_restart env0 (state0 0x10102 hook0 memory0 space0)).2
    (stubs0 0x10102) (room0 0x10102) patchable0 (with_result _ _ exit0)) as (b & s' & E & (maps & data & H1 & H2 & H3) & _).
  split; [exact try0_true|]. exists maps, data. rewrite E. split; [exact H1|]. split; [exact H2|exact H3].
Defined.

Lemma stubs_stay_apart_witness :
  stubs_ok try0.2 /\ (is_jump_stub_instruction (patcher try0.2) 0x12000 = true <-> exists st, st ∈ stubs try0.2 /\ covers st.1 st.2 0x12000).
Proof.
  destruct (stubs_stay_apart env0 (fun _ _ => eq_refl) eq_refl (state0 0x10102 hook0 memory0 space0) true try0.2 0x12000
    (stubs0 0x10102) (room0 0x10102) patchable0 (with_result try0 _ try0_true)) as (H1 & _ & H2).
  split; [exact H1|exact H2].
Defined.

(** ** What the code does at the edges *)

(** Memory is mapped for 8 GB after the call: there is no space for a stub, the call is restarted
    as if it had been patched, and its address is not remembered. *)
Definition full_space : list entry := [anon 0x10000 0x200000000 0; anon 0x200001000 0x200002000 0].
Definition full_memory : tmem := overlay blank0 0x10100 code0.

(** Without space for a stub `try_patch_syscall` still says that it has patched
    the call, and does so again each time the call is made. *)
Theorem no_space_restarts_forever :
  let r := try_patch_syscall env0 (state0 0x10102 hook0 full_memory full_space) in
  r.1 = Ok true /\ ip (regs_ r.2) = 0x10100 /\ get_bytes (tracee r.2) 0x10100 8 = Some code0 /\
  tried_to_patch_syscall_addresses (patcher r.2) = [] /\ pages r.2 = [] /\
  (try_patch_syscall env0 (put_stops [exit_stop] (put_regs (mkRegs 0x10102 0 (-38) 0x20800) r.2))).1 = Ok true.
Proof. vm_compute. split_and!; reflexivity. Qed.

(** The last instruction of the patch is the last of the mapping: the mapping looked up is the one
    after its end, and there is none. *)
Definition edge_code : list Z := [0x0f; 0x05; 0x5a; 0x5e; 0xc3].
Definition edge_hook : patch_hook := mkPatchHook 1 3 [0x5a; 0x5e; 0xc3; 0; 0; 0; 0; 0; 0; 0; 0; 0; 0; 0] 0x7f0000001000.

(** A patch that ends with its mapping makes rr look up a mapping that is not
    there. *)
Theorem patch_at_end_of_mapping_stops_rr :
  (try_patch_syscall env0 (state0 0x10ffd edge_hook (overlay blank0 0x10ffb edge_code) space0)).1 = Err FailedAssert /\
  (try_patch_syscall env0 (state0 0x10ffc edge_hook (overlay blank0 0x10ffa edge_code) space0)).1 = Ok true.
Proof. vm_compute. split; reflexivity. Qed.
