(* ===== verification/Timeline.v ===== *)
(** * The replay timeline (ReplayTimeline.cc)

    A [ReplayTimeline] names points of a replay by marks, keeps checkpoints at some of them and
    moves the current session back and forth between them.  A mark has a key (event, ticks, step)
    and the registers and return addresses of its state; marks with the same key are kept in
    execution order in a vector, for the order of two marks is read off it.

    [ReplaySession] is an interface ([Class Sessions]): the timeline sees the key and the state a
    session is at, clones sessions, steps them, and sets breakpoints and watchpoints in their
    address spaces.  A mark is the index of its [InternalMark] in [store]; marks are never removed
    from the vectors while the timeline lives.  [std::map::operator[]] makes empty vectors, which
    behave like missing ones.  [reverse_exec_checkpoints], a map ordered by the order of marks, is
    the list of its entries in order.  [ASSERT] and [DEBUG_ASSERT] are those of a debug build. *)

From stdpp Require Import base tactics list numbers gmap.
From S2P Require Import Prelude TracerMonad.
Local Open Scope Z_scope.

(** ** Keys *)

Record MarkKey := mkKey { trace_time : Z; ticks : Z; step_key : Z }.

#[export] Instance MarkKey_eq_dec : EqDecision MarkKey.
Proof. solve_decision. Defined.

#[export] Instance MarkKey_countable : Countable MarkKey.
Proof.
  apply (inj_countable' (fun k => (trace_time k, ticks k, step_key k)) (fun x => mkKey x.1.1 x.1.2 x.2)). by intros [].
Defined.

(** [operator<], and the others in terms of it. *)
Definition key_ltb (a b : MarkKey) : bool :=
  if trace_time a <? trace_time b then true
  else if trace_time b <? trace_time a then false
  else if ticks a <? ticks b then true
  else if ticks b <? ticks a then false
  else step_key a <? step_key b.

Definition key_leb (a b : MarkKey) : bool := negb (key_ltb b a).

(** ** Results of replay steps *)

Inductive RunCommand := RUN_CONTINUE | RUN_SINGLESTEP | RUN_SINGLESTEP_FAST_FORWARD.
Inductive ReplayStatus := REPLAY_CONTINUE | REPLAY_EXITED | GOING_LIVE.
Inductive WatchType := WATCH_EXEC | WATCH_WRITE | WATCH_READWRITE.

#[export] Instance WatchType_eq_dec : EqDecision WatchType.
Proof. solve_decision. Defined.
#[export] Instance ReplayStatus_eq_dec : EqDecision ReplayStatus.
Proof. solve_decision. Defined.

Record watch := mkWatch { waddr : Z; wbytes : Z; wtype : WatchType }.

#[export] Instance watch_eq_dec : EqDecision watch.
Proof. solve_decision. Defined.

(** [break_status], with the address space and the instruction pointer of its task, if there is one. *)
Record ReplayResult := mkResult {
  rstatus : ReplayStatus;
  rtask : option (Z * Z);
  watchpoints_hit : list watch;
  signal : bool;
  breakpoint_hit : bool;
  singlestep_complete : bool;
  approaching_ticks_target : bool;
  task_exit : bool;
  did_fast_forward : bool }.

Definition set_watchpoints_hit v r := mkResult (rstatus r) (rtask r) v (signal r) (breakpoint_hit r) (singlestep_complete r) (approaching_ticks_target r) (task_exit r) (did_fast_forward r).
Definition set_breakpoint_hit v r := mkResult (rstatus r) (rtask r) (watchpoints_hit r) (signal r) v (singlestep_complete r) (approaching_ticks_target r) (task_exit r) (did_fast_forward r).

Definition hardware_or_software_breakpoint_hit (r : ReplayResult) : bool :=
  existsb (fun w => bool_decide (wtype w = WATCH_EXEC)) (watchpoints_hit r) || breakpoint_hit r.

(** ** Sessions *)

Class Sessions := {
  session : Type;
  Registers : Type;
  ReturnAddressList : Type;
  Registers_eq :: EqDecision Registers;
  ReturnAddressList_eq :: EqDecision ReturnAddressList;
  reg_ip : Registers -> Z;
  session_mark_key : session -> MarkKey;
  current_task : session -> option (Registers * ReturnAddressList);
  ticks_at_start_of_current_event : session -> Z;
  can_clone : session -> bool;
  clone : session -> session;
  restarted : session -> session;
  estimate_progress : session -> Z;
  replay_step : RunCommand -> list Registers -> session -> ReplayResult * session;
  find_address_space : Z -> session -> bool;
  vm_add_breakpoint : Z -> Z -> session -> bool * session;
  vm_remove_breakpoint : Z -> Z -> session -> session;
  vm_add_watchpoint : Z -> watch -> session -> bool * session;
  vm_remove_watchpoint : Z -> watch -> session -> session }.

Section Timeline.
Context {R : Sessions}.

(** ** The timeline *)

Record InternalMark := mkMark {
  mkey : MarkKey;
  mstate : option (Registers * ReturnAddressList);
  checkpoint : option session;
  ticks_at_event_start : Z;
  checkpoint_refcount : Z;
  singlestep_to_next_mark_no_signal : bool }.

Definition set_checkpoint v m := mkMark (mkey m) (mstate m) v (ticks_at_event_start m) (checkpoint_refcount m) (singlestep_to_next_mark_no_signal m).
Definition set_refcount v m := mkMark (mkey m) (mstate m) (checkpoint m) (ticks_at_event_start m) v (singlestep_to_next_mark_no_signal m).
Definition set_singlestep v m := mkMark (mkey m) (mstate m) (checkpoint m) (ticks_at_event_start m) (checkpoint_refcount m) v.

(** A breakpoint or watchpoint of the client: its address space, where it is, its condition (a number, 0 for none). *)
Definition bp : Type := Z * Z * Z.
Definition wp : Type := Z * watch * Z.

Record timeline := mkTimeline {
  current : session;
  current_at_or_after_mark : option nat;
  store : list InternalMark;
  marks : gmap MarkKey (list nat);
  marks_with_checkpoints : list (MarkKey * Z);
  breakpoints : list bp;
  watchpoints : list wp;
  breakpoints_applied : bool;
  reverse_execution_barrier_event : Z;
  reverse_exec_checkpoints : list (nat * Z);
  no_watchpoints_hit_interval : option nat * option nat;
  reverse_exec_short_checkpoint : option nat }.

Definition put_current v s := mkTimeline v (current_at_or_after_mark s) (store s) (marks s) (marks_with_checkpoints s) (breakpoints s) (watchpoints s) (breakpoints_applied s) (reverse_execution_barrier_event s) (reverse_exec_checkpoints s) (no_watchpoints_hit_interval s) (reverse_exec_short_checkpoint s).
Definition put_at_or_after v s := mkTimeline (current s) v (store s) (marks s) (marks_with_checkpoints s) (breakpoints s) (watchpoints s) (breakpoints_applied s) (reverse_execution_barrier_event s) (reverse_exec_checkpoints s) (no_watchpoints_hit_interval s) (reverse_exec_short_checkpoint s).
Definition put_store v s := mkTimeline (current s) (current_at_or_after_mark s) v (marks s) (marks_with_checkpoints s) (breakpoints s) (watchpoints s) (breakpoints_applied s) (reverse_execution_barrier_event s) (reverse_exec_checkpoints s) (no_watchpoints_hit_interval s) (reverse_exec_short_checkpoint s).
Definition put_marks v s := mkTimeline (current s) (current_at_or_after_mark s) (store s) v (marks_with_checkpoints s) (breakpoints s) (watchpoints s) (breakpoints_applied s) (reverse_execution_barrier_event s) (reverse_exec_checkpoints s) (no_watchpoints_hit_interval s) (reverse_exec_short_checkpoint s).
Definition put_with_checkpoints v s := mkTimeline (current s) (current_at_or_after_mark s) (store s) (marks s) v (breakpoints s) (watchpoints s) (breakpoints_applied s) (reverse_execution_barrier_event s) (reverse_exec_checkpoints s) (no_watchpoints_hit_interval s) (reverse_exec_short_checkpoint s).
Definition put_breakpoints v s := mkTimeline (current s) (current_at_or_after_mark s) (store s) (marks s) (marks_with_checkpoints s) v (watchpoints s) (breakpoints_applied s) (reverse_execution_barrier_event s) (reverse_exec_checkpoints s) (no_watchpoints_hit_interval s) (reverse_exec_short_checkpoint s).
Definition put_watchpoints v s := mkTimeline (current s) (current_at_or_after_mark s) (store s) (marks s) (marks_with_checkpoints s) (breakpoints s) v (breakpoints_applied s) (reverse_execution_barrier_event s) (reverse_exec_checkpoints s) (no_watchpoints_hit_interval s) (reverse_exec_short_checkpoint s).
Definition put_applied v s := mkTimeline (current s) (current_at_or_after_mark s) (store s) (marks s) (marks_with_checkpoints s) (breakpoints s) (watchpoints s) v (reverse_execution_barrier_event s) (reverse_exec_checkpoints s) (no_watchpoints_hit_interval s) (reverse_exec_short_checkpoint s).
Definition put_reverse v s := mkTimeline (current s) (current_at_or_after_mark s) (store s) (marks s) (marks_with_checkpoints s) (breakpoints s) (watchpoints s) (breakpoints_applied s) (reverse_execution_barrier_event s) v (no_watchpoints_hit_interval s) (reverse_exec_short_checkpoint s).
Definition put_interval v s := mkTimeline (current s) (current_at_or_after_mark s) (store s) (marks s) (marks_with_checkpoints s) (breakpoints s) (watchpoints s) (breakpoints_applied s) (reverse_execution_barrier_event s) (reverse_exec_checkpoints s) v (reverse_exec_short_checkpoint s).
Definition put_short v s := mkTimeline (current s) (current_at_or_after_mark s) (store s) (marks s) (marks_with_checkpoints s) (breakpoints s) (watchpoints s) (breakpoints_applied s) (reverse_execution_barrier_event s) (reverse_exec_checkpoints s) (no_watchpoints_hit_interval s) v.

Definition T := TM timeline.

Definition liftT {X} (r : result X) : T X := fun s => (r, s).

Definition new_timeline (s : session) : timeline := mkTimeline s None [] ∅ [] [] [] false 0 [] (None, None) None.

Definition vector_of (k : MarkKey) (s : timeline) : list nat := default [] (marks s !! k).

Definition the_mark (m : nat) : T InternalMark :=
  l ← ask store; match l !! m with Some x => mret x | None => fail BadAccess end.

Definition update_mark (m : nat) (f : InternalMark -> InternalMark) : T unit :=
  change (fun s => put_store (alter f m (store s)) s).

(** ** Breakpoints and watchpoints *)

Definition on_current {X} (f : session -> X * session) : T X :=
  c ← ask current; let '(x, c') := f c in change (put_current c');; mret x.

Definition on_current_ (f : session -> session) : T unit := change (fun s => put_current (f (current s)) s).

Fixpoint for_all {X} (f : X -> T unit) (l : list X) : T unit :=
  match l with [] => mret tt | x :: l => f x;; for_all f l end.

Definition in_space (uid : Z) (f : session -> session) : T unit :=
  c ← ask current; if find_address_space uid c then on_current_ f else mret tt.

Definition is_exec (w : wp) : bool := bool_decide (wtype w.1.2 = WATCH_EXEC).

Definition apply_wp (w : wp) : T unit := in_space w.1.1 (fun c => (vm_add_watchpoint w.1.1 w.1.2 c).2).
Definition unapply_wp (w : wp) : T unit := in_space w.1.1 (vm_remove_watchpoint w.1.1 w.1.2).

Definition apply_breakpoints_internal : T unit :=
  bs ← ask breakpoints; ws ← ask watchpoints;
  for_all (fun b : bp => in_space b.1.1 (fun c => (vm_add_breakpoint b.1.1 b.1.2 c).2)) bs;;
  for_all (fun w => if is_exec w then apply_wp w else mret tt) ws.

Definition apply_breakpoints_and_watchpoints : T unit :=
  a ← ask breakpoints_applied;
  if a : bool then mret tt
  else
    change (put_applied true);;
    apply_breakpoints_internal;;
    ws ← ask watchpoints;
    for_all (fun w => if is_exec w then mret tt else apply_wp w) ws.

(** The loop over the watchpoints is inside the loop over the breakpoints. *)
Definition unapply_breakpoints_internal : T unit :=
  bs ← ask breakpoints; ws ← ask watchpoints;
  for_all (fun b : bp =>
    in_space b.1.1 (vm_remove_breakpoint b.1.1 b.1.2);;
    for_all (fun w => if is_exec w then unapply_wp w else mret tt) ws) bs.

Definition unapply_breakpoints_and_watchpoints : T unit :=
  a ← ask breakpoints_applied;
  if negb a then mret tt
  else
    change (put_applied false);;
    unapply_breakpoints_internal;;
    ws ← ask watchpoints;
    for_all (fun w => if is_exec w then mret tt else unapply_wp w) ws.

Definition singlestep_with_breakpoints_disabled : T ReplayResult :=
  apply_breakpoints_and_watchpoints;;
  unapply_breakpoints_internal;;
  result ← on_current (replay_step RUN_SINGLESTEP []);
  apply_breakpoints_internal;;
  mret result.

(** [std::set]s in order; [lower_bound] with a null condition finds the first entry at the address. *)
Definition bp_at (uid addr : Z) (b : bp) : bool := (b.1.1 =? uid) && (b.1.2 =? addr).
Definition wp_at (uid : Z) (w : watch) (x : wp) : bool := (x.1.1 =? uid) && bool_decide (x.1.2 = w).

Definition has_breakpoint_at_address (uid addr : Z) : T bool := l ← ask breakpoints; mret (existsb (bp_at uid addr) l).
Definition has_watchpoint_at_address (uid : Z) (w : watch) : T bool := l ← ask watchpoints; mret (existsb (wp_at uid w) l).

Fixpoint remove_first {X} (p : X -> bool) (l : list X) : list X :=
  match l with [] => [] | x :: l => if p x then l else x :: remove_first p l end.

Fixpoint ordered_insert {X} (lt : X -> X -> bool) (x : X) (l : list X) : list X :=
  match l with [] => [x] | y :: l => if lt x y then x :: y :: l else y :: ordered_insert lt x l end.

Definition lex (c1 : comparison) (c2 : comparison) : comparison := match c1 with Eq => c2 | c => c end.
Definition type_index (t : WatchType) : Z := match t with WATCH_EXEC => 0 | WATCH_WRITE => 1 | WATCH_READWRITE => 3 end.

Definition bp_ltb (a b : bp) : bool :=
  match lex (a.1.1 ?= b.1.1) (a.1.2 ?= b.1.2) with Lt => true | _ => false end.

Definition wp_ltb (a b : wp) : bool :=
  match lex (a.1.1 ?= b.1.1) (lex (waddr a.1.2 ?= waddr b.1.2) (lex (wbytes a.1.2 ?= wbytes b.1.2)
    (type_index (wtype a.1.2) ?= type_index (wtype b.1.2)))) with Lt => true | _ => false end.

Definition remove_breakpoint (uid addr : Z) : T unit :=
  a ← ask breakpoints_applied;
  (if a : bool then on_current_ (vm_remove_breakpoint uid addr) else mret tt);;
  h ← has_breakpoint_at_address uid addr;
  ASSERT h;;
  change (fun s => put_breakpoints (remove_first (bp_at uid addr) (breakpoints s)) s).

Definition add_breakpoint (uid addr condition : Z) : T bool :=
  h ← has_breakpoint_at_address uid addr;
  (if h : bool then remove_breakpoint uid addr else mret tt);;
  apply_breakpoints_and_watchpoints;;
  ok ← on_current (vm_add_breakpoint uid addr);
  if negb ok then mret false
  else change (fun s => put_breakpoints (ordered_insert bp_ltb (uid, addr, condition) (breakpoints s)) s);; mret true.

Definition remove_watchpoint (uid : Z) (w : watch) : T unit :=
  a ← ask breakpoints_applied;
  (if a : bool then on_current_ (vm_remove_watchpoint uid w) else mret tt);;
  h ← has_watchpoint_at_address uid w;
  ASSERT h;;
  change (fun s => put_watchpoints (remove_first (wp_at uid w) (watchpoints s)) s).

Definition add_watchpoint (uid : Z) (w : watch) (condition : Z) : T bool :=
  h ← has_watchpoint_at_address uid w;
  (if h : bool then remove_watchpoint uid w else mret tt);;
  apply_breakpoints_and_watchpoints;;
  ok ← on_current (vm_add_watchpoint uid w);
  if negb ok then mret false
  else
    change (fun s => put_watchpoints (ordered_insert wp_ltb (uid, w, condition) (watchpoints s)) s);;
    change (put_interval (None, None));;
    mret true.

Definition remove_breakpoints_and_watchpoints : T unit :=
  unapply_breakpoints_and_watchpoints;;
  change (put_breakpoints []);; change (put_watchpoints []).

(** [evaluate_conditions]; [holds_] evaluates a condition on the task. *)
Definition evaluate_conditions (holds_ : Z -> bool) (result : ReplayResult) : T ReplayResult :=
  match rtask result with
  | None => mret result
  | Some (uid, ip) =>
      bs ← ask breakpoints; ws ← ask watchpoints;
      let met (c : Z) := (c =? 0) || holds_ c in
      let result :=
        if breakpoint_hit result && negb (existsb (fun b : bp => bp_at uid ip b && met b.2) bs)
        then set_breakpoint_hit false result else result in
      mret (set_watchpoints_hit
        (List.filter (fun w => existsb (fun x : wp => wp_at uid w x && met x.2) ws) (watchpoints_hit result)) result)
  end.

(** ** Marks *)

(** [equal_states]: a session without a current task is dereferenced.  [Registers] are equal when [matches] says so; the
    registers of a mark made without a task are those of no task. *)
Definition equal_states (m : InternalMark) (c : session) : result bool :=
  if negb (bool_decide (session_mark_key c = mkey m)) then Ok false
  else match current_task c, mstate m with
       | None, _ => Err BadAccess
       | Some (r, a), Some (r', a') => Ok (bool_decide (r' = r) && bool_decide (a' = a))
       | Some _, None => Ok false
       end.

(** The first of [l] whose state is that of [c], with its place. *)
Fixpoint find_state (l : list nat) (c : session) : T (option (nat * nat)) :=
  match l with
  | [] => mret None
  | m :: l =>
      x ← the_mark m;
      e ← liftT (equal_states x c);
      if e : bool then mret (Some (O, m))
      else r ← find_state l c; mret ((fun y : nat * nat => (S y.1, y.2)) <$> r)
  end.

Definition current_mark : T (option nat) :=
  c ← ask current;
  l ← ask (vector_of (session_mark_key c));
  r ← find_state l c;
  mret (snd <$> r).

Definition at_mark (m : nat) : T bool := c ← current_mark; mret (bool_decide (c = Some m)).

(** [make_shared<InternalMark>(this, session, key)]. *)
Definition new_mark (c : session) (k : MarkKey) : T nat :=
  n ← ask (fun s => length (store s));
  change (fun s => put_store (store s ++ [mkMark k (current_task c) None (ticks_at_start_of_current_event c) 0 false]) s);;
  mret n.

Definition registers_of (l : list InternalMark) : list Registers := omap (fun m => fst <$> mstate m) l.

(** The loop of [mark], a turn per replay step: single-steps a copy of the session until it is at a
    mark there is or the key changes; the states on the way become marks too. *)
Fixpoint place (fuel : nat) (key : MarkKey) (vec : list nat) (stops : list Registers) (c : session) (new_marks : list nat)
    : T (option nat * list nat) :=
  match fuel with
  | O => fail NoFuel
  | S fuel =>
      let '(result, c) := replay_step RUN_SINGLESTEP_FAST_FORWARD stops c in
      if negb (bool_decide (session_mark_key c = key)) || negb (bool_decide (rstatus result = REPLAY_CONTINUE)) then
        mret (None, new_marks)
      else if negb (singlestep_complete result) then place fuel key vec stops c new_marks
      else
        found ← find_state vec c;
        (if negb (did_fast_forward result) && negb (signal result) then
           match list_basics.list.last new_marks with Some m => update_mark m (set_singlestep true) | None => mret tt end
         else mret tt);;
        match found with
        | Some (i, _) => mret (Some i, new_marks)
        | None => m ← new_mark c key; place fuel key vec stops c (new_marks ++ [m])
        end
  end.

(** [mark_vector.insert(mark_index, ...)]; without an index, at the end. *)
Definition insert_at (i : option nat) (new_marks vec : list nat) : list nat :=
  match i with None => vec ++ new_marks | Some i => take i vec ++ new_marks ++ drop i vec end.

Section Fuel.
Variable fuel : nat.

(** Where the new mark [m] goes, the part of [mark] after it is made. *)
Definition put_in_vector (key : MarkKey) (m : nat) : T unit :=
  vec ← ask (vector_of key);
  after ← ask current_at_or_after_mark;
  match vec with
  | [] => change (fun s => put_marks (<[key := [m]]> (marks s)) s)
  | _ =>
      if bool_decide (list_basics.list.last vec = after) then change (fun s => put_marks (<[key := vec ++ [m]]> (marks s)) s)
      else
        unapply_breakpoints_and_watchpoints;;
        c ← ask current;
        l ← ask store;
        x ← place fuel key vec (registers_of (omap (fun m => l !! m) vec)) (clone c) [m];
        change (fun s => put_marks (<[key := insert_at x.1 x.2 vec]> (marks s)) s)
  end.

Definition mark : T nat :=
  cm ← current_mark;
  match cm with
  | Some m => mret m
  | None =>
      c ← ask current;
      m ← new_mark c (session_mark_key c);
      put_in_vector (session_mark_key c) m;;
      change (put_at_or_after (Some m));;
      mret m
  end.

(** ** The order of marks *)

(** The first of the two in the vector. *)
Fixpoint first_of (m1 m2 : nat) (l : list nat) : result bool :=
  match l with
  | [] => Err FailedAssert
  | m :: l => if bool_decide (m = m2) then Ok false else if bool_decide (m = m1) then Ok true else first_of m1 m2 l
  end.

Definition less_than (m1 m2 : nat) : T bool :=
  x1 ← the_mark m1; x2 ← the_mark m2;
  if key_ltb (mkey x1) (mkey x2) then mret true
  else if key_ltb (mkey x2) (mkey x1) then mret false
  else l ← ask (vector_of (mkey x1)); liftT (first_of m1 m2 l).

Definition not_after (m1 m2 : nat) : T bool := b ← less_than m2 m1; mret (negb b).

(** The first place of a mark in a vector. *)
Fixpoint index_of (m : nat) (l : list nat) : option nat :=
  match l with [] => None | x :: l => if bool_decide (x = m) then Some O else S <$> index_of m l end.

Definition mark_after_singlestep (from : nat) (result : ReplayResult) : T unit :=
  ASSERT (singlestep_complete result);;
  m ← mark;
  xm ← the_mark m; xf ← the_mark from;
  if negb (did_fast_forward result) && bool_decide (mkey xm = mkey xf) && negb (signal result) then
    vec ← ask (vector_of (mkey xm));
    (match index_of from vec with
     | None => mret tt
     | Some i => ASSERT (bool_decide (vec !! S i = Some m))
     end);;
    update_mark from (set_singlestep true)
  else mret tt.

(** Its last place. *)
Fixpoint last_index_of (m : nat) (l : list nat) : option nat :=
  match l with
  | [] => None
  | x :: l => match last_index_of m l with Some i => Some (S i) | None => if bool_decide (x = m) then Some O else None end
  end.

Definition find_singlestep_before (m : nat) : T (option nat) :=
  x ← the_mark m;
  vec ← ask (vector_of (mkey x));
  match last_index_of m vec with
  | None => fail FailedAssert
  | Some O => mret None
  | Some (S i) =>
      match vec !! i with
      | None => fail BadAccess
      | Some p => xp ← the_mark p; mret (if singlestep_to_next_mark_no_signal xp then Some p else None)
      end
  end.

Definition lazy_reverse_singlestep (from : nat) (uid ip : Z) : T (option nat) :=
  i ← ask no_watchpoints_hit_interval;
  match i with
  | (Some lo, Some hi) =>
      m ← find_singlestep_before from;
      match m with
      | None => mret None
      | Some m =>
          b ← less_than m lo;
          if b : bool then mret None
          else
            b ← less_than m hi;
            if negb b then mret None
            else h ← has_breakpoint_at_address uid ip; mret (if h : bool then None else Some m)
      end
  | _ => mret None
  end.

(** ** Checkpoints *)

Fixpoint count_add (k : MarkKey) (l : list (MarkKey * Z)) : list (MarkKey * Z) :=
  match l with
  | [] => [(k, 1)]
  | (k', n) :: l =>
      if key_ltb k k' then (k, 1) :: (k', n) :: l
      else if bool_decide (k = k') then (k', n + 1) :: l
      else (k', n) :: count_add k l
  end.

Fixpoint count_of (k : MarkKey) (l : list (MarkKey * Z)) : Z :=
  match l with [] => 0 | (k', n) :: l => if bool_decide (k = k') then n else count_of k l end.

Fixpoint count_remove (k : MarkKey) (l : list (MarkKey * Z)) : list (MarkKey * Z) :=
  match l with
  | [] => []
  | (k', n) :: l => if bool_decide (k = k') then (if n =? 1 then l else (k', n - 1) :: l) else (k', n) :: count_remove k l
  end.

Definition remove_mark_with_checkpoint (k : MarkKey) : T unit :=
  l ← ask marks_with_checkpoints;
  ASSERT (0 <? count_of k l);;
  change (put_with_checkpoints (count_remove k l)).

(** The part of [add_explicit_checkpoint] after [mark]. *)
Definition checkpoint_mark (m : nat) : T unit :=
  x ← the_mark m;
  match checkpoint x with
  | Some _ => mret tt
  | None =>
      unapply_breakpoints_and_watchpoints;;
      c ← ask current;
      update_mark m (set_checkpoint (Some (clone c)));;
      change (fun s => put_with_checkpoints (count_add (mkey x) (marks_with_checkpoints s)) s)
  end;;
  update_mark m (fun x => set_refcount (checkpoint_refcount x + 1) x).

Definition add_explicit_checkpoint : T nat :=
  c ← ask current;
  ASSERT (can_clone c);;
  m ← mark;
  checkpoint_mark m;;
  mret m.

Definition remove_explicit_checkpoint (m : nat) : T unit :=
  x ← the_mark m;
  ASSERT (0 <? checkpoint_refcount x);;
  update_mark m (set_refcount (checkpoint_refcount x - 1));;
  if checkpoint_refcount x - 1 =? 0 then
    update_mark m (set_checkpoint None);; remove_mark_with_checkpoint (mkey x)
  else mret tt.

(** A checkpoint becomes the current session; the mark keeps its clone. *)
Definition go_to_checkpoint (m : nat) (c : session) : T unit :=
  update_mark m (set_checkpoint (Some (clone c)));;
  change (put_current c);;
  change (put_applied false);;
  change (put_at_or_after (Some m)).

(** The first mark of a vector with a checkpoint. *)
Fixpoint first_checkpoint (l : list nat) (st : list InternalMark) : option (nat * session) :=
  match l with
  | [] => None
  | m :: l => match st !! m ≫= checkpoint with Some c => Some (m, c) | None => first_checkpoint l st end
  end.

(** The last entry before [k]. *)
Definition last_before (k : MarkKey) (l : list (MarkKey * Z)) : option MarkKey :=
  fst <$> list_basics.list.last (List.filter (fun x => key_ltb (fst x) k) l).

Definition seek_to_before_key (k : MarkKey) : T unit :=
  l ← ask marks_with_checkpoints;
  c ← ask current;
  let current_key := session_mark_key c in
  match last_before k l with
  | None =>
      if key_ltb current_key k then mret tt
      else change (put_current (restarted c));; change (put_applied false);; change (put_at_or_after None)
  | Some k' =>
      if key_ltb k' current_key && key_ltb current_key k then mret tt
      else
        vec ← ask (vector_of k'); st ← ask store;
        match first_checkpoint vec st with
        | None => fail FailedAssert
        | Some (m, c) => go_to_checkpoint m c
        end
  end.

(** The last mark of [l] up to [m] with a checkpoint; [l] is the vector from its end. *)
Fixpoint checkpoint_up_to (m : nat) (at_or_before : bool) (l : list nat) (st : list InternalMark) : option (nat * session) :=
  match l with
  | [] => None
  | x :: l =>
      let at_or_before := at_or_before || bool_decide (x = m) in
      match (if at_or_before : bool then st !! x ≫= checkpoint else None) with
      | Some c => Some (x, c)
      | None => checkpoint_up_to m at_or_before l st
      end
  end.

Definition seek_up_to_mark (m : nat) : T unit :=
  x ← the_mark m;
  c ← ask current;
  stay ← (if bool_decide (session_mark_key c = mkey x) then cm ← mark; not_after cm m else mret false);
  if stay : bool then mret tt
  else
    vec ← ask (vector_of (mkey x)); st ← ask store;
    match checkpoint_up_to m false (rev vec) st with
    | Some (m', c) => go_to_checkpoint m' c
    | None => seek_to_before_key (mkey x)
    end.

(** ** Checkpoints for reverse execution *)

Inductive CheckpointStrategy := LOW_OVERHEAD | EXPECT_SHORT_REVERSE_EXECUTION.

Definition low_overhead_inter_checkpoint_interval : Z := 500000.
Definition expecting_reverse_exec_inter_checkpoint_interval : Z := 100000.

Definition inter_checkpoint_interval (strategy : CheckpointStrategy) : Z :=
  match strategy with
  | LOW_OVERHEAD => low_overhead_inter_checkpoint_interval
  | EXPECT_SHORT_REVERSE_EXECUTION => expecting_reverse_exec_inter_checkpoint_interval
  end.

(** The exponent 2 is a [float]; the lengths it is applied to are 500000 times a power of two, which
    a [float] holds exactly. *)
Definition next_interval_length (len : Z) : Z :=
  if low_overhead_inter_checkpoint_interval <=? len then s64 (2 * len)
  else s64 (len + expecting_reverse_exec_inter_checkpoint_interval).

(** [discard_future_reverse_exec_checkpoints], over the entries from the last one. *)
Fixpoint discard_from_end (now : Z) (l : list (nat * Z)) : T unit :=
  match l with
  | [] => mret tt
  | (m, p) :: l =>
      if p <=? now then mret tt
      else
        remove_explicit_checkpoint m;;
        change (put_reverse (rev l));;
        discard_from_end now l
  end.

Definition discard_future_reverse_exec_checkpoints : T unit :=
  c ← ask current; l ← ask reverse_exec_checkpoints;
  discard_from_end (estimate_progress c) (rev l).

(** Entries from [start] on, counted. *)
Fixpoint in_range (start : Z) (l : list (nat * Z)) : nat :=
  match l with [] => O | (_, p) :: l => if start <=? p then S (in_range start l) else O end.

(** The loop over the intervals; [l] are the entries not yet passed, the latest first, [kept] counts the
    checkpoints that stay; a turn per interval. *)
Fixpoint excess (fuel : nat) (now len : Z) (allowed kept : nat) (l : list (nat * Z)) : result (list nat) :=
  match fuel with
  | O => Err NoFuel
  | S fuel =>
      let n := in_range (s64 (now - len)) l in
      let d := ((kept + n) - allowed)%nat in
      let rest := drop n l in
      match rest with
      | [] => Ok (map fst (take d l))
      | _ => r ← excess fuel now (next_interval_length len) (S allowed) ((kept + n) - d)%nat rest; Ok (map fst (take d l) ++ r)
      end
  end.

Fixpoint discard_all (l : list nat) : T unit :=
  match l with
  | [] => mret tt
  | m :: l =>
      remove_explicit_checkpoint m;;
      change (fun s => put_reverse (List.filter (fun x => negb (bool_decide (fst x = m))) (reverse_exec_checkpoints s)) s);;
      discard_all l
  end.

(** More turns than intervals of which the first has the least length up to the range of [Progress]. *)
Definition interval_fuel : nat := 100.

Definition discard_past_reverse_exec_checkpoints (strategy : CheckpointStrategy) : T unit :=
  c ← ask current; l ← ask reverse_exec_checkpoints;
  d ← liftT (excess interval_fuel (estimate_progress c) (inter_checkpoint_interval strategy) 0 0 (rev l));
  discard_all d.

(** [reverse_exec_checkpoints[m] = p]. *)
Fixpoint reverse_assign (m : nat) (p : Z) (l : list (nat * Z)) : T (list (nat * Z)) :=
  match l with
  | [] => mret [(m, p)]
  | x :: l =>
      b ← less_than (fst x) m;
      if b : bool then r ← reverse_assign m p l; mret (x :: r)
      else b ← less_than m (fst x); mret (if b : bool then (m, p) :: x :: l else (fst x, p) :: l)
  end.

Definition maybe_add_reverse_exec_checkpoint (strategy : CheckpointStrategy) : T unit :=
  discard_future_reverse_exec_checkpoints;;
  c ← ask current; l ← ask reverse_exec_checkpoints;
  let now := estimate_progress c in
  let close := match list_basics.list.last l with Some x => s64 (now - inter_checkpoint_interval strategy) <=? snd x | None => false end in
  if close then mret tt
  else if negb (can_clone c) then mret tt
  else
    discard_past_reverse_exec_checkpoints strategy;;
    m ← add_explicit_checkpoint;
    l ← ask reverse_exec_checkpoints;
    l ← reverse_assign m now l;
    change (put_reverse l).

Definition set_short_checkpoint : T nat :=
  c ← ask current;
  if negb (can_clone c) then mark
  else
    m ← add_explicit_checkpoint;
    old ← ask reverse_exec_short_checkpoint;
    (match old with Some o => remove_explicit_checkpoint o | None => mret tt end);;
    change (put_short (Some m));;
    mret m.
End Fuel.
End Timeline.
