(* ===== verification/TimelineSpec.v ===== *)
(** * Marks are kept in execution order

    [ReplayTimeline] decides which of two marks comes first by its vectors of marks.  They are in
    execution order whatever is marked, stepped, checkpointed and sought: the order it reports is
    the order in which the states occur in the recording.  Seeking never goes past its target,
    checkpoints are counted right, and the checkpoints for reverse execution stay few. *)

From Stdlib Require Import Sorting.Sorted.
From stdpp Require Import base tactics list numbers gmap.
From S2P Require Import Prelude TracerMonad Timeline.
Local Open Scope Z_scope.

(** ** The recording *)

(** A recording is a sequence of states; a session is at one of them.  Keys grow, and no two states
    with the same key have the same registers and return addresses.  A single step goes to the next
    state, a fast-forward step does not pass the states it is to stop before, and a step that completes
    no single step and stays at its key executes nothing.  [steps_left] bounds the steps at one key. *)
Class Recording {R : Sessions} := {
  idx : session -> nat;
  key_at : nat -> MarkKey;
  state_at : nat -> option (Registers * ReturnAddressList);
  steps_left : session -> nat;
  key_of : forall c, session_mark_key c = key_at (idx c);
  task_of : forall c, current_task c = state_at (idx c);
  keys_grow : forall i j, (i <= j)%nat -> key_leb (key_at i) (key_at j) = true;
  states_differ : forall i j x, key_at i = key_at j -> state_at i = Some x -> state_at j = Some x -> i = j;
  clone_same : forall c, idx (clone c) = idx c /\ steps_left (clone c) = steps_left c;
  restarted_first : forall c, idx (restarted c) = O;
  add_breakpoint_same : forall u a c, idx (vm_add_breakpoint u a c).2 = idx c /\ steps_left (vm_add_breakpoint u a c).2 = steps_left c;
  remove_breakpoint_same : forall u a c, idx (vm_remove_breakpoint u a c) = idx c /\ steps_left (vm_remove_breakpoint u a c) = steps_left c;
  add_watchpoint_same : forall u w c, idx (vm_add_watchpoint u w c).2 = idx c /\ steps_left (vm_add_watchpoint u w c).2 = steps_left c;
  remove_watchpoint_same : forall u w c, idx (vm_remove_watchpoint u w c) = idx c /\ steps_left (vm_remove_watchpoint u w c) = steps_left c;
  step_forward : forall stops c r c', replay_step RUN_SINGLESTEP_FAST_FORWARD stops c = (r, c') ->
    (idx c <= idx c')%nat /\
    (forall j x, (idx c < j < idx c')%nat -> state_at j = Some x -> key_at j = key_at (idx c) -> x.1 ∉ stops);
  step_exits : forall stops c r c', replay_step RUN_SINGLESTEP_FAST_FORWARD stops c = (r, c') -> rstatus r <> REPLAY_CONTINUE ->
    forall j, (idx c < j)%nat -> key_at j = key_at (idx c) -> state_at j = None;
  step_same_key : forall stops c r c', replay_step RUN_SINGLESTEP_FAST_FORWARD stops c = (r, c') ->
    key_at (idx c') = key_at (idx c) -> rstatus r = REPLAY_CONTINUE ->
    (steps_left c' < steps_left c)%nat /\ state_at (idx c') <> None /\
    if singlestep_complete r then (idx c < idx c')%nat /\ (did_fast_forward r = false -> idx c' = S (idx c))
    else idx c' = idx c }.

(** ** Keys *)

Lemma key_ltb_spec a b : key_ltb a b = true <->
  trace_time a < trace_time b \/ (trace_time a = trace_time b /\
    (ticks a < ticks b \/ (ticks a = ticks b /\ step_key a < step_key b))).
Proof.
  unfold key_ltb. destruct (Z.ltb_spec (trace_time a) (trace_time b)); [lia|].
  destruct (Z.ltb_spec (trace_time b) (trace_time a)); [split; [done|lia]|].
  destruct (Z.ltb_spec (ticks a) (ticks b)); [lia|]. destruct (Z.ltb_spec (ticks b) (ticks a)); [split; [done|lia]|].
  rewrite Z.ltb_lt. lia.
Qed.

Lemma key_ltb_irrefl a : key_ltb a a = false.
Proof. apply not_true_is_false. rewrite key_ltb_spec. lia. Qed.

Lemma key_ltb_trans a b c : key_ltb a b = true -> key_ltb b c = true -> key_ltb a c = true.
Proof. rewrite !key_ltb_spec. lia. Qed.

Lemma key_total a b : a = b \/ key_ltb a b = true \/ key_ltb b a = true.
Proof.
  rewrite !key_ltb_spec. destruct a as [a1 a2 a3], b as [b1 b2 b3]. cbn.
  destruct (decide (a1 = b1)), (decide (a2 = b2)), (decide (a3 = b3)); subst; try (left; congruence); lia.
Qed.

Lemma key_leb_cases a b : key_leb a b = true -> a = b \/ key_ltb a b = true.
Proof. unfold key_leb. rewrite negb_true_iff. intros H. destruct (key_total a b) as [->|[H'|H']]; [by left|by right|congruence]. Qed.

Lemma key_ltb_leb a b : key_ltb a b = true -> key_leb a b = true.
Proof.
  intros H. unfold key_leb. rewrite negb_true_iff. apply not_true_is_false. intros H'.
  pose proof (key_ltb_trans _ _ _ H H') as Hc. by rewrite key_ltb_irrefl in Hc.
Qed.

Lemma key_leb_refl k : key_leb k k = true.
Proof. unfold key_leb. by rewrite key_ltb_irrefl. Qed.

Lemma key_leb_trans a b c : key_leb a b = true -> key_leb b c = true -> key_leb a c = true.
Proof.
  intros [->|H1]%key_leb_cases; [done|]. intros [->|H2]%key_leb_cases; apply key_ltb_leb; [done|by eapply key_ltb_trans].
Qed.

Section Order.
Context {R : Sessions} {E : Recording}.

Lemma key_before i j : key_ltb (key_at i) (key_at j) = true -> (i < j)%nat.
Proof.
  intros H. destruct (Nat.lt_ge_cases i j) as [|Hge]; [done|]. pose proof (keys_grow j i Hge) as Hk. unfold key_leb in Hk.
  by rewrite H in Hk.
Qed.

(** ** Vectors in order *)

(** The mark [m] names the state at [p]. *)
Definition names (l : list InternalMark) (m p : nat) : Prop :=
  exists x, l !! m = Some x /\ mkey x = key_at p /\ mstate x = state_at p /\ state_at p <> None.

Lemma names_unique l m p q : names l m p -> names l m q -> p = q.
Proof.
  intros (x & Hx & Hk & Hs & Hn) (y & Hy & Hk' & Hs' & _). rewrite Hx in Hy. injection Hy as <-.
  destruct (state_at p) as [z|] eqn:Ep; [|done]. apply (states_differ p q z); congruence.
Qed.

(** The vector of a key, with the places of its marks in the recording. *)
Record vector_ok (l : list InternalMark) (k : MarkKey) (vec ps : list nat) : Prop := {
  vo_names : Forall2 (names l) vec ps;
  vo_sorted : StronglySorted lt ps;
  vo_key : Forall (fun p => key_at p = k) ps }.

Lemma sorted_nth ps i j a b : StronglySorted lt ps -> ps !! i = Some a -> ps !! j = Some b -> (i < j)%nat -> (a < b)%nat.
Proof.
  intros Hs. revert i j. induction Hs as [|x ps Hs IH Hx]; intros i j Hi Hj Hij; [done|].
  destruct j as [|j]; [lia|]. cbn in Hj. destruct i as [|i].
  - injection Hi as <-. rewrite Forall_forall in Hx. apply Hx. by eapply list_elem_of_lookup_2.
  - apply (IH i j); [done|done|lia].
Qed.

Lemma sorted_app_lt (a b : list nat) :
  StronglySorted lt a -> StronglySorted lt b -> (forall x y, x ∈ a -> y ∈ b -> (x < y)%nat) -> StronglySorted lt (a ++ b).
Proof.
  intros Ha Hb H. induction Ha as [|x a Ha IH Hx]; [done|]. cbn. constructor.
  - apply IH. intros y z Hy Hz. apply H; [by right|done].
  - apply Forall_app. split; [done|]. apply Forall_forall. intros y Hy. apply H; [left|done].
Qed.

Lemma sorted_app_inv (a b : list nat) :
  StronglySorted lt (a ++ b) -> StronglySorted lt a /\ StronglySorted lt b /\ forall x y, x ∈ a -> y ∈ b -> (x < y)%nat.
Proof.
  induction a as [|x a IH]; cbn; intros H; [split_and!; [constructor|done|by intros x y H'%elem_of_nil]|].
  apply StronglySorted_inv in H as [H Hx]. destruct (IH H) as (H1 & H2 & H3). apply Forall_app in Hx as [Hxa Hxb].
  rewrite Forall_forall in Hxb. split_and!; [by constructor|done|].
  intros y z [->|Hy]%elem_of_cons Hz; [by apply Hxb|by apply H3].
Qed.

(** ** Marks that change only in what they keep *)

Lemma names_grow l l' m p : (forall x, l !! m = Some x -> exists x', l' !! m = Some x' /\ mkey x' = mkey x /\ mstate x' = mstate x) ->
  names l m p -> names l' m p.
Proof. intros H (x & Hx & Hk & Hs & Hn). destruct (H x Hx) as (x' & Hx' & Ek & Es). exists x'. rewrite Ek, Es. by split_and!. Qed.

Lemma names_more l l' m p : names l m p -> names (l ++ l') m p.
Proof. apply names_grow. intros x Hx. exists x. split; [by apply lookup_app_l_Some|done]. Qed.

Lemma names_alter l f n m p : (forall x, mkey (f x) = mkey x /\ mstate (f x) = mstate x) -> names l m p -> names (alter f n l) m p.
Proof.
  intros Hf. apply names_grow. intros x Hx. destruct (decide (m = n)) as [->|Hne].
  - exists (f x). rewrite list_lookup_alter_eq, Hx. split; [done|apply Hf].
  - exists x. by rewrite list_lookup_alter_ne.
Qed.

Lemma flag_keeps v x : mkey (set_singlestep v x) = mkey x /\ mstate (set_singlestep v x) = mstate x.
Proof. done. Qed.

Lemma names_vec_grow l l' vec ps : (forall m p, names l m p -> names l' m p) -> Forall2 (names l) vec ps -> Forall2 (names l') vec ps.
Proof. intros H Hf. exact (Forall2_impl _ _ _ _ Hf H). Qed.

(** ** Looking for a state *)

Lemma equal_states_ok l m p x c y :
  names l m p -> l !! m = Some x -> key_at (idx c) = key_at p -> state_at (idx c) = Some y ->
  equal_states x c = Ok (bool_decide (p = idx c)).
Proof.
  intros (x' & Hx' & Hk & Hs & Hn) Hx Hc Hy. rewrite Hx in Hx'. injection Hx' as <-. unfold equal_states.
  rewrite key_of, bool_decide_eq_true_2 by congruence. cbn [negb]. rewrite task_of, Hy, Hs. destruct y as [r a].
  destruct (state_at p) as [[r' a']|] eqn:Ep; [|done]. f_equal. destruct (bool_decide_reflect (p = idx c)) as [->|Hne].
  - rewrite Hy in Ep. injection Ep as -> ->. by rewrite !bool_decide_eq_true_2.
  - destruct (bool_decide_reflect (r' = r)) as [->|]; [|done]. destruct (bool_decide_reflect (a' = a)) as [->|]; [|done].
    destruct Hne. apply (states_differ p (idx c) (r, a)); congruence.
Qed.

Lemma find_state_ok s k vec ps c y :
  vector_ok (store s) k vec ps -> key_at (idx c) = k -> state_at (idx c) = Some y ->
  exists r, find_state vec c s = (Ok r, s) /\
    match r with
    | Some (i, m) => vec !! i = Some m /\ ps !! i = Some (idx c)
    | None => idx c ∉ ps
    end.
Proof.
  intros [Hn _ Hk] Hc Hy. induction Hn as [|m p vec ps Hm Hn IH]; cbn [find_state].
  - exists None. split; [done|]. by intros H%elem_of_nil.
  - apply Forall_cons_1 in Hk as [Hkp Hk]. destruct (IH Hk) as (r & Hr & Hmatch). destruct Hm as (x & Hx & Hrest).
    unfold the_mark. rewrite (bind_ok (S := timeline) (l ← ask store; match l !! m with Some x => mret x | None => fail BadAccess end) _ s x s).
    2: { rewrite (bind_ok (ask store) _ s (store s) s eq_refl). by rewrite Hx. }
    rewrite (bind_ok (liftT _) _ s (bool_decide (p = idx c)) s).
    2: { unfold liftT. f_equal. eapply equal_states_ok; [by exists x|done|congruence|done]. }
    destruct (bool_decide_reflect (p = idx c)) as [->|Hne]; [by exists (Some (O, m))|].
    rewrite (bind_ok _ _ _ _ _ Hr). eexists. split; [done|]. destruct r as [[i m']|]; cbn; [done|].
    intros [Heq|Hin]%elem_of_cons; [by apply Hne|done].
Qed.

(** ** The place of a new mark *)

Definition ahead {X} (i : option nat) (l : list X) : list X := match i with Some i => take i l | None => l end.
Definition behind {X} (i : option nat) (l : list X) : list X := match i with Some i => drop i l | None => [] end.

Lemma insert_at_eq i news vec : insert_at i news vec = ahead i vec ++ news ++ behind i vec.
Proof. destruct i as [i|]; cbn; [done|]. by rewrite app_nil_r. Qed.

(** New marks, from [base] on, with their places and what follows them; a mark says that the next one is a
    single step away only when it is. *)
Record new_ok (l : list InternalMark) (base : nat) (key : MarkKey) (news ns next : list nat) : Prop := {
  no_names : Forall2 (names l) news ns;
  no_sorted : StronglySorted lt ns;
  no_key : Forall (fun p => key_at p = key) ns;
  no_base : Forall (fun m => base <= m)%nat news;
  no_fresh : forall m x, m ∈ news -> l !! m = Some x -> checkpoint x = None /\ checkpoint_refcount x = 0;
  no_flags : forall j m x, news !! j = Some m -> l !! m = Some x -> singlestep_to_next_mark_no_signal x = true ->
    exists p, ns !! j = Some p /\ (ns ++ next) !! S j = Some (S p) }.

Lemma last_place {X} (l : list X) x : list_basics.list.last l = Some x <-> l !! pred (length l) = Some x.
Proof. by rewrite last_lookup. Qed.

(** The last of the new marks may say so when the next place is the next state. *)
Lemma flag_last l base key news ns next m p (b : bool) :
  new_ok l base key news ns [] -> list_basics.list.last news = Some m -> list_basics.list.last ns = Some p ->
  NoDup news -> (b = true -> exists next', next = S p :: next') ->
  new_ok (if b then alter (set_singlestep true) m l else l) base key news ns next.
Proof.
  intros [N1 N2 N3 N4 N6 N5] Hm Hp Hd Hb.
  assert (forall j q q', ns !! j = Some q -> (ns ++ []) !! S j = Some q' -> (ns ++ next) !! S j = Some q') as Hext.
  { intros j q q' _ Hq. rewrite app_nil_r in Hq. by apply lookup_app_l_Some. }
  destruct b.
  - split; try done; [eapply names_vec_grow; [|exact N1]; intros; by apply names_alter| |].
    { intros m' x Hin Hx. destruct (decide (m' = m)) as [->|Hne]; [|rewrite list_lookup_alter_ne in Hx by done; by apply (N6 m')].
      rewrite list_lookup_alter_eq in Hx. destruct (l !! m) as [y|] eqn:Ey; [|done]. injection Hx as <-. by apply (N6 m y). }
    intros j m' x Hj Hx Hf. destruct (decide (m' = m)) as [->|Hne].
    + apply last_place in Hm. assert (j = pred (length news)) as -> by (eapply NoDup_lookup; done).
      rewrite (Forall2_length _ _ _ N1) in *. apply last_place in Hp. exists p. split; [done|].
      destruct (Hb eq_refl) as (next' & ->). pose proof (lookup_lt_Some _ _ _ Hp). rewrite lookup_app_r by lia.
      by replace (S (pred (length ns)) - length ns)%nat with O by lia.
    + rewrite list_lookup_alter_ne in Hx by done. destruct (N5 j m' x Hj Hx Hf) as (q & Hq & Hq'). exists q. split; [done|by eapply Hext].
  - split; try done. intros j m' x Hj Hx Hf. destruct (N5 j m' x Hj Hx Hf) as (q & Hq & Hq'). exists q. split; [done|by eapply Hext].
Qed.

Lemma push_new l base key news ns p x :
  new_ok l base key news ns [p] -> (base <= length l)%nat -> key_at p = key -> mkey x = key_at p -> mstate x = state_at p ->
  state_at p <> None -> singlestep_to_next_mark_no_signal x = false -> checkpoint x = None -> checkpoint_refcount x = 0 ->
  (forall q, q ∈ ns -> q < p)%nat ->
  new_ok (l ++ [x]) base key (news ++ [length l]) (ns ++ [p]) [].
Proof.
  intros [N1 N2 N3 N4 N6 N5] Hb Hk Hxk Hxs Hs Hf Hc Hr Hlt. pose proof (Forall2_length _ _ _ N1) as Hlen. split.
  - apply Forall2_app; [eapply names_vec_grow; [|exact N1]; intros; by apply names_more|]. constructor; [|constructor].
    exists x. split_and!; try done. by apply list_lookup_middle.
  - apply sorted_app_lt; [done|by repeat constructor|]. intros a b Ha ->%list_elem_of_singleton. by apply Hlt.
  - apply Forall_app. split; [done|by constructor].
  - apply Forall_app. split; [done|by constructor].
  - intros m y Hin Hy. apply lookup_app_Some in Hy as [Hy|[Hge Hy]].
    + apply elem_of_app in Hin as [Hin|Hin%list_elem_of_singleton]; [by apply (N6 m)|]. apply lookup_lt_Some in Hy. lia.
    + destruct (m - length l)%nat eqn:Ed; [|done]. by injection Hy as <-.
  - intros j m y Hj Hy Hfy. rewrite app_nil_r. destruct (decide (m = length l)) as [->|Hne].
    { rewrite list_lookup_middle in Hy by done. congruence. }
    apply lookup_snoc_Some in Hj as [[Hj Hm]|[_ Hm]]; [|done].
    assert (l !! m = Some y) as Hy'.
    { apply lookup_app_Some in Hy as [Hy|[Hge Hy]]; [done|]. destruct (m - length l)%nat eqn:Ed; [lia|done]. }
    destruct (N5 j m y Hm Hy' Hfy) as (q & Hq & Hq'). exists q. split; [by apply lookup_app_l_Some|done].
Qed.

(** What the search for the place of a new mark at [p0] finds. *)
Record placed (l l' : list InternalMark) (base : nat) (key : MarkKey) (p0 : nat) (ps : list nat) (i : option nat) (news ns : list nat) : Prop := {
  pl_old : forall m, (m < base)%nat -> l' !! m = l !! m;
  pl_all : forall m, (base <= m < length l')%nat -> m ∈ news;
  pl_grow : (length l <= length l')%nat;
  pl_new : new_ok l' base key news ns (behind i ps);
  pl_first : ns !! O = Some p0;
  pl_ahead : forall q, q ∈ ahead i ps -> (q < p0)%nat;
  pl_behind : forall q p, q ∈ behind i ps -> p ∈ ns -> (p < q)%nat }.

Section Place.
Variables (key : MarkKey) (vec ps : list nat) (stops : list Registers) (base p0 : nat).
Hypothesis vec_old : Forall (fun m => m < base)%nat vec.
Hypothesis stops_all : forall p x, p ∈ ps -> state_at p = Some x -> x.1 ∈ stops.

(** The loop is at [c], with the marks made so far. *)
Record placing (s : timeline) (c : session) (news ns : list nat) : Prop := {
  pg_vec : vector_ok (store s) key vec ps;
  pg_key : key_at (idx c) = key;
  pg_task : state_at (idx c) <> None;
  pg_base : (base <= length (store s))%nat;
  pg_all : forall m, (base <= m < length (store s))%nat -> m ∈ news;
  pg_nodup : NoDup news;
  pg_new : new_ok (store s) base key news ns [];
  pg_first : ns !! O = Some p0;
  pg_last : list_basics.list.last ns = Some (idx c);
  pg_between : forall q, q ∈ ps -> (q < p0)%nat \/ (idx c < q)%nat }.

Lemma sorted_last ns p q : StronglySorted lt ns -> list_basics.list.last ns = Some p -> q ∈ ns -> (q <= p)%nat.
Proof.
  intros Hs Hp%last_place (j & Hj)%list_elem_of_lookup. pose proof (lookup_lt_Some _ _ _ Hj).
  destruct (decide (j = pred (length ns))) as [->|Hne]; [rewrite Hp in Hj; by injection Hj as ->|].
  pose proof (sorted_nth ns j (pred (length ns)) q p Hs Hj Hp). lia.
Qed.

(** The search ends at a change of key or at the end of the recording: no mark is left. *)
Lemma placing_end s c news ns :
  placing s c news ns -> (forall q, q ∈ ps -> (idx c < q)%nat -> False) ->
  placed (store s) (store s) base key p0 ps None news ns.
Proof.
  intros [P1 P2 P3 P4 P5 P6 P7 P8 P9 P10] Hnone. split; try done; cbn.
  - intros q Hq. destruct (P10 q Hq); [done|]. by destruct (Hnone q Hq).
  - by intros q p H%elem_of_nil.
Qed.

(** Marks that the step to [c'] did not pass are behind it. *)
Lemma not_passed s c news ns r c' q :
  placing s c news ns -> replay_step RUN_SINGLESTEP_FAST_FORWARD stops c = (r, c') -> q ∈ ps -> (idx c < q)%nat -> (idx c' <= q)%nat.
Proof.
  intros [[Hn Hso Hk] P2 _ _ _ _ _ _ _ _] Hst Hq Hlt. destruct (step_forward _ _ _ _ Hst) as [_ Hskip].
  destruct (Nat.le_gt_cases (idx c') q) as [|Hgt]; [done|]. exfalso.
  apply list_elem_of_lookup in Hq as (j & Hj). destruct (Forall2_lookup_r _ _ _ _ _ Hn Hj) as (m & _ & x & _ & _ & _ & Hsn).
  destruct (state_at q) as [y|] eqn:Ey; [|done]. rewrite Forall_forall in Hk.
  pose proof (list_elem_of_lookup_2 _ _ _ Hj) as Hin.
  apply (Hskip q y); [lia|done|by rewrite (Hk q Hin)|]. by apply (stops_all q).
Qed.

Lemma put_store_same s : put_store (store s) s = s.
Proof. by destruct s. Qed.

Definition with_flag (b : bool) (m : nat) (l : list InternalMark) : list InternalMark :=
  if b then alter (set_singlestep true) m l else l.

Lemma with_flag_old b m l n : n <> m -> with_flag b m l !! n = l !! n.
Proof. intros H. destruct b; [|done]. by apply list_lookup_alter_ne. Qed.

Lemma with_flag_length b m l : length (with_flag b m l) = length l.
Proof. destruct b; [apply length_alter|done]. Qed.

Lemma with_flag_vec b m l vec' ps' : Forall2 (names l) vec' ps' -> Forall2 (names (with_flag b m l)) vec' ps'.
Proof. apply names_vec_grow. intros n p Hn. destruct b; [by apply names_alter|done]. Qed.

(** The mark it is at is one there was. *)
Lemma placing_found s c news ns r c' m b i :
  placing s c news ns -> replay_step RUN_SINGLESTEP_FAST_FORWARD stops c = (r, c') -> (idx c < idx c')%nat ->
  ps !! i = Some (idx c') -> list_basics.list.last news = Some m -> (b = true -> idx c' = S (idx c)) ->
  placed (store s) (with_flag b m (store s)) base key p0 ps (Some i) news ns.
Proof.
  intros Hpl Hst Hlt Hi Hm Hb. pose proof Hpl as [[Hn Hso Hk] P2 P3 P4 P5 P6 P7 P8 P9 P10]. split.
  - intros n Hn'. apply with_flag_old. intros ->. apply last_place, list_elem_of_lookup_2 in Hm.
    pose proof (no_base _ _ _ _ _ _ P7) as HB. rewrite Forall_forall in HB. specialize (HB _ Hm). lia.
  - by rewrite with_flag_length.
  - by rewrite with_flag_length.
  - apply (flag_last (store s) base key news ns (drop i ps) m (idx c) b); try done. intros Eb. rewrite (drop_S _ _ _ Hi), (Hb Eb). eauto.
  - done.
  - cbn. intros q (j & Hj)%list_elem_of_lookup. apply lookup_take_Some in Hj as [Hj Hji].
    destruct (P10 q (list_elem_of_lookup_2 _ _ _ Hj)) as [|Hq]; [done|].
    pose proof (not_passed s c news ns r c' q Hpl Hst (list_elem_of_lookup_2 _ _ _ Hj) Hq).
    pose proof (sorted_nth ps j i q (idx c') Hso Hj Hi Hji). lia.
  - cbn. intros q p (j & Hj)%list_elem_of_lookup Hp. rewrite lookup_drop in Hj.
    pose proof (sorted_last ns (idx c) p (no_sorted _ _ _ _ _ _ P7) P9 Hp).
    destruct j as [|j]; [rewrite Nat.add_0_r, Hi in Hj; injection Hj as <-; lia|].
    pose proof (sorted_nth ps i (i + S j) (idx c') q Hso Hi Hj ltac:(lia)). lia.
Qed.

(** Or a state that has no mark yet. *)
Lemma placing_new s c news ns r c' m b x :
  placing s c news ns -> replay_step RUN_SINGLESTEP_FAST_FORWARD stops c = (r, c') -> (idx c < idx c')%nat ->
  key_at (idx c') = key -> state_at (idx c') <> None -> idx c' ∉ ps ->
  list_basics.list.last news = Some m -> (b = true -> idx c' = S (idx c)) ->
  mkey x = key -> mstate x = state_at (idx c') -> singlestep_to_next_mark_no_signal x = false ->
  checkpoint x = None -> checkpoint_refcount x = 0 ->
  placing (put_store (with_flag b m (store s) ++ [x]) s) c' (news ++ [length (with_flag b m (store s))]) (ns ++ [idx c']).
Proof.
  intros Hpl Hst Hlt Hk' Hs' Hnew Hm Hb Hxk Hxs Hxf Hxc Hxr. pose proof Hpl as [[Hn Hso Hk] P2 P3 P4 P5 P6 P7 P8 P9 P10].
  assert (forall n, n ∈ news -> (n < length (store s))%nat) as Hbound.
  { intros n Hin. apply list_elem_of_lookup in Hin as (j & Hj).
    destruct (Forall2_lookup_l _ _ _ _ _ (no_names _ _ _ _ _ _ P7) Hj) as (q & _ & y & Hy & _). by apply lookup_lt_Some in Hy. }
  split; cbn [store put_store].
  - split; [|done|done]. eapply names_vec_grow; [intros; by apply names_more|]. by apply with_flag_vec.
  - done.
  - done.
  - rewrite length_app, with_flag_length. lia.
  - intros n. rewrite length_app, with_flag_length. cbn. intros Hn'. apply elem_of_app.
    destruct (decide (n = length (store s))) as [->|]; [right; left|]. left. apply P5. lia.
  - apply list_relations.list.NoDup_app. split_and!; [done| |apply NoDup_singleton].
    intros n Hin ->%list_elem_of_singleton. specialize (Hbound _ Hin). rewrite with_flag_length in Hbound. lia.
  - apply push_new; try done; [|by rewrite with_flag_length|congruence|].
    + apply (flag_last (store s) base key news ns [idx c'] m (idx c) b); try done. intros Eb. rewrite (Hb Eb). eauto.
    + intros q Hq. pose proof (sorted_last ns (idx c) q (no_sorted _ _ _ _ _ _ P7) P9 Hq). lia.
  - by apply lookup_app_l_Some.
  - by rewrite last_snoc.
  - intros q Hq. destruct (P10 q Hq) as [|Hq']; [by left|]. right.
    pose proof (not_passed s c news ns r c' q Hpl Hst Hq Hq'). assert (q <> idx c') by (intros ->; done). lia.
Qed.

Lemma no_marks_left s c news ns r c' :
  placing s c news ns -> replay_step RUN_SINGLESTEP_FAST_FORWARD stops c = (r, c') ->
  key_at (idx c') <> key \/ rstatus r <> REPLAY_CONTINUE -> forall q, q ∈ ps -> (idx c < q)%nat -> False.
Proof.
  intros Hpl Hst Hor q Hq Hlt. pose proof Hpl as [[Hn Hso Hk] P2 _ _ _ _ _ _ _ _]. rewrite Forall_forall in Hk.
  destruct Hor as [Hne|Hex].
  - pose proof (not_passed s c news ns r c' q Hpl Hst Hq Hlt) as Hle. destruct (step_forward _ _ _ _ Hst) as [Hfw _].
    pose proof (keys_grow _ _ Hfw) as G1. pose proof (keys_grow _ _ Hle) as G2. rewrite (Hk q Hq) in G2. rewrite P2 in G1.
    apply key_leb_cases in G1 as [G1|G1]; [by apply Hne|]. apply key_leb_cases in G2 as [G2|G2]; [by apply Hne|].
    pose proof (key_ltb_trans _ _ _ G1 G2) as G. by rewrite key_ltb_irrefl in G.
  - apply list_elem_of_lookup in Hq as (j & Hj). destruct (Forall2_lookup_r _ _ _ _ _ Hn Hj) as (m & _ & x & _ & _ & _ & Hsn).
    apply Hsn, (step_exits _ _ _ _ Hst Hex); [done|]. rewrite P2. by apply Hk, (list_elem_of_lookup_2 _ j).
Qed.

Lemma place_ok : forall fuel c s news ns,
  (steps_left c < fuel)%nat -> placing s c news ns ->
  exists i news' ns' l', place fuel key vec stops c news s = (Ok (i, news'), put_store l' s) /\
    placed (store s) l' base key p0 ps i news' ns' /\ exists e, news' = news ++ e.
Proof.
  induction fuel as [|fuel IH]; intros c s news ns Hf Hpl; [lia|]. cbn [place].
  destruct (replay_step RUN_SINGLESTEP_FAST_FORWARD stops c) as [r c'] eqn:Hst. rewrite key_of.
  destruct (bool_decide_reflect (key_at (idx c') = key)) as [Hk'|Hk'];
    [destruct (bool_decide_reflect (rstatus r = REPLAY_CONTINUE)) as [Hr|Hr]|]; cbn [negb orb].
  2, 3: exists None, news, ns, (store s); rewrite put_store_same; split; [done|]; split; [|exists []; by rewrite app_nil_r];
    apply (placing_end s c); [done|]; apply (no_marks_left s c news ns r c'); [done|done|first [by left|by right]].
  pose proof Hpl as [Hv P2 P3 P4 P5 P6 P7 P8 P9 P10].
  destruct (step_same_key _ _ _ _ Hst (eq_trans Hk' (eq_sym P2)) Hr) as (Hless & Htask & Hcase).
  destruct (singlestep_complete r); cbn [negb].
  2: { apply (IH c' s news ns); [lia|]. split; rewrite ?Hcase; done. }
  destruct Hcase as [Hlt Hff]. destruct (state_at (idx c')) as [y|] eqn:Hy; [|done].
  destruct (find_state_ok s key vec ps c' y Hv Hk' Hy) as (found & Hfs & Hfound). rewrite (bind_ok _ _ _ _ _ Hfs).
  assert (exists m, list_basics.list.last news = Some m) as (m & Hm).
  { apply last_is_Some. intros ->. pose proof (Forall2_length _ _ _ (no_names _ _ _ _ _ _ P7)) as Hl. by destruct ns. }
  set (b := negb (did_fast_forward r) && negb (signal r)).
  assert (b = true -> idx c' = S (idx c)) as Hb.
  { intros Eb. apply Hff. unfold b in Eb. by destruct (did_fast_forward r). }
  rewrite (bind_ok (if b then _ else _) _ s tt (put_store (with_flag b m (store s)) s)).
  2: { destruct b; cbn [with_flag]; [by rewrite Hm|by rewrite put_store_same]. }
  destruct found as [[i m']|].
  - exists (Some i), news, ns, (with_flag b m (store s)). split; [done|]. split; [|exists []; by rewrite app_nil_r].
    destruct Hfound as [_ Hi]. by apply (placing_found s c news ns r c' m b i).
  - unfold new_mark. set (s1 := put_store (with_flag b m (store s)) s).
    rewrite (bind_ok (S := timeline) (n ← ask (fun s => length (store s)); change _;; mret n) _ s1 (length (with_flag b m (store s)))
      (put_store (with_flag b m (store s) ++ [mkMark key (current_task c') None (ticks_at_start_of_current_event c') 0 false]) s) eq_refl).
    set (x := mkMark key _ _ _ _ _).
    destruct (IH c' (put_store (with_flag b m (store s) ++ [x]) s) (news ++ [length (with_flag b m (store s))]) (ns ++ [idx c']))
      as (i & news' & ns' & l' & H1 & H2 & (e & He)); [lia| |].
    { apply (placing_new s c news ns r c' m b x); try done; [by rewrite Hy|]. cbn. by rewrite task_of. }
    exists i, news', ns', l'. split; [exact H1|]. split; [|exists (length (with_flag b m (store s)) :: e); by rewrite He, <- app_assoc].
    destruct H2 as [Q1 Q2 Q3 Q4 Q5 Q6 Q7]. cbn [store put_store] in *. split; try done.
    + intros n Hn. rewrite Q1 by done. rewrite lookup_app_l by (rewrite with_flag_length; lia). apply with_flag_old.
      intros ->. apply last_place, list_elem_of_lookup_2 in Hm. pose proof (no_base _ _ _ _ _ _ P7) as HB.
      rewrite Forall_forall in HB. specialize (HB _ Hm). lia.
    + rewrite length_app, with_flag_length in Q3. lia.
Qed.
End Place.

(** ** The invariant of the timeline *)

Definition flags_ok (l : list InternalMark) (vec ps : list nat) : Prop :=
  forall j m x, vec !! j = Some m -> l !! m = Some x -> singlestep_to_next_mark_no_signal x = true ->
    exists p, ps !! j = Some p /\ ps !! S j = Some (S p).

Definition has_checkpoint (l : list InternalMark) (m : nat) : bool :=
  match l !! m ≫= checkpoint with Some _ => true | None => false end.

Definition checkpoints_in (l : list InternalMark) (vec : list nat) : Z := Z.of_nat (length (List.filter (has_checkpoint l) vec)).

Definition checkpoint_ok (l : list InternalMark) (m : nat) (x : InternalMark) : Prop :=
  match checkpoint x with
  | Some c => names l m (idx c) /\ 0 < checkpoint_refcount x
  | None => checkpoint_refcount x = 0
  end.

(** Vectors are in execution order with truthful flags, every mark is in the vector of its key, the session
    is where [current_at_or_after_mark] says or later, checkpoints are at their marks and counted by key. *)
Record timeline_ok (s : timeline) : Prop := {
  to_vectors : forall k, exists ps, vector_ok (store s) k (vector_of k s) ps /\ flags_ok (store s) (vector_of k s) ps;
  to_stored : forall m x, store s !! m = Some x -> m ∈ vector_of (mkey x) s;
  to_after : forall m, current_at_or_after_mark s = Some m -> exists p, names (store s) m p /\ (p <= idx (current s))%nat;
  to_checkpoints : forall m x, store s !! m = Some x -> checkpoint_ok (store s) m x;
  to_sorted : StronglySorted (fun a b => key_ltb a b = true) (map fst (marks_with_checkpoints s));
  to_counts : forall k, count_of k (marks_with_checkpoints s) = checkpoints_in (store s) (vector_of k s);
  to_positive : Forall (fun x => 0 < x.2) (marks_with_checkpoints s) }.

Lemma new_timeline_ok c : timeline_ok (new_timeline c).
Proof.
  split; cbn; try done; try apply SSorted_nil. intros k. exists []. unfold vector_of. cbn. rewrite lookup_empty. cbn.
  split; [|done]. split; constructor.
Qed.

Lemma ahead_behind {X} i (l : list X) : ahead i l ++ behind i l = l.
Proof. destruct i as [i|]; cbn; [apply take_drop|apply app_nil_r]. Qed.

Lemma vector_bound s k ps m : vector_ok (store s) k (vector_of k s) ps -> m ∈ vector_of k s -> (m < length (store s))%nat.
Proof.
  intros [Hn _ _] (j & Hj)%list_elem_of_lookup. destruct (Forall2_lookup_l _ _ _ _ _ Hn Hj) as (p & _ & x & Hx & _).
  by apply lookup_lt_Some in Hx.
Qed.

Lemma ahead_names l vec ps i : Forall2 (names l) vec ps -> Forall2 (names l) (ahead i vec) (ahead i ps).
Proof. destruct i; [apply Forall2_take|done]. Qed.

Lemma behind_names l vec ps i : Forall2 (names l) vec ps -> Forall2 (names l) (behind i vec) (behind i ps).
Proof. destruct i; [apply Forall2_drop|constructor]. Qed.

Lemma filter_old l l' (vec : list nat) : (forall m, m ∈ vec -> l' !! m = l !! m) ->
  List.filter (has_checkpoint l') vec = List.filter (has_checkpoint l) vec.
Proof.
  intros H. apply List.filter_ext_in. intros m Hm. unfold has_checkpoint. rewrite H; [done|by apply list_elem_of_In].
Qed.

(** New marks put where they belong: the vector stays in order. *)
Lemma insert_vector_ok l l' key vec ps i news ns p0 base :
  vector_ok l key vec ps -> placed l l' base key p0 ps i news ns -> Forall (fun m => m < base)%nat vec ->
  vector_ok l' key (insert_at i news vec) (ahead i ps ++ ns ++ behind i ps).
Proof.
  intros [Hn Hs Hk] [P1 P2 P3 [N1 N2 N3 N4 N6 N5] P5 P6 P7] Hold. rewrite insert_at_eq.
  rewrite <- (ahead_behind i ps) in Hs, Hk. apply sorted_app_inv in Hs as (S1 & S2 & S3). apply Forall_app in Hk as [K1 K2].
  assert (Forall2 (names l') vec ps) as Hn'.
  { clear - Hn Hold P1. induction Hn as [|m p vec ps Hm Hn IH]; [constructor|]. apply Forall_cons_1 in Hold as [Hlt Hold].
    constructor; [|by apply IH]. destruct Hm as (x & Hx & Hr). exists x. rewrite P1 by done. done. }
  assert (forall q p, q ∈ ahead i ps -> p ∈ ns -> (q < p)%nat) as Hap.
  { intros q p Hq Hp. specialize (P6 q Hq). apply list_elem_of_lookup in Hp as (j & Hj).
    destruct j as [|j]; [rewrite P5 in Hj; by injection Hj as <-|]. pose proof (sorted_nth ns 0 (S j) p0 p N2 P5 Hj). lia. }
  split.
  - apply Forall2_app; [by apply ahead_names|]. apply Forall2_app; [done|by apply behind_names].
  - apply sorted_app_lt; [done| |].
    + apply sorted_app_lt; [done..|]. intros x y Hx Hy. by apply P7.
    + intros x y Hx [Hy|Hy]%elem_of_app; [by apply Hap|by apply S3].
  - by repeat (apply Forall_app; split).
Qed.

Lemma insert_flags_ok l l' key vec ps i news ns p0 base :
  vector_ok l key vec ps -> flags_ok l vec ps -> placed l l' base key p0 ps i news ns -> Forall (fun m => m < base)%nat vec ->
  flags_ok l' (insert_at i news vec) (ahead i ps ++ ns ++ behind i ps).
Proof.
  intros [Hn _ _] Hfl [P1 P2 P3 [N1 N2 N3 N4 N6 N5] P5 P6 P7] Hold j m x Hj Hx Hf. rewrite insert_at_eq in Hj.
  pose proof (Forall2_length _ _ _ (ahead_names _ _ _ i Hn)) as La. pose proof (Forall2_length _ _ _ N1) as Ln.
  rewrite <- (ahead_behind i vec) in Hold. apply Forall_app in Hold as [Ho1 Ho2]. rewrite Forall_forall in Ho1, Ho2.
  apply lookup_app_Some in Hj as [Hj|[Hge Hj]].
  { pose proof (list_elem_of_lookup_2 _ _ _ Hj) as Hin. rewrite P1 in Hx by (by apply Ho1).
    destruct (Hfl j m x) as (p & Hp & Hp'); [rewrite <- (ahead_behind i vec); by apply lookup_app_l_Some|done|done|].
    pose proof (lookup_lt_Some _ _ _ Hj) as Hlt. rewrite <- (ahead_behind i ps) in Hp, Hp'.
    rewrite lookup_app_l in Hp by lia. exists p. split; [by apply lookup_app_l_Some|].
    apply lookup_app_Some in Hp' as [Hp'|[_ Hp']]; [by apply lookup_app_l_Some|]. exfalso.
    pose proof (P6 p (list_elem_of_lookup_2 _ _ _ Hp)).
    pose proof (P7 (S p) p0 (list_elem_of_lookup_2 _ _ _ Hp') (list_elem_of_lookup_2 _ _ _ P5)). lia. }
  apply lookup_app_Some in Hj as [Hj|[Hge2 Hj]].
  { destruct (N5 _ m x Hj Hx Hf) as (p & Hp & Hp'). exists p. split.
    - rewrite lookup_app_r by lia. apply lookup_app_l_Some. by rewrite <- La.
    - rewrite lookup_app_r by lia. by replace (S j - length (ahead i ps))%nat with (S (j - length (ahead i vec))) by lia. }
  rewrite P1 in Hx by (apply Ho2; by eapply list_elem_of_lookup_2).
  destruct i as [i|]; cbn [ahead behind] in *; [|done].
  destruct (Hfl (i + (j - length (take i vec) - length news))%nat m x) as (p & Hp & Hp'); [by rewrite <- lookup_drop|done|done|].
  exists p. rewrite !lookup_app_r by lia. rewrite !lookup_drop. split; [rewrite <- Hp|rewrite <- Hp']; f_equal; lia.
Qed.

Lemma vector_of_insert s k key vec : vector_of k (put_marks (<[key := vec]> (marks s)) s) = if bool_decide (k = key) then vec else vector_of k s.
Proof.
  unfold vector_of. cbn. destruct (bool_decide_reflect (k = key)) as [->|Hne]; [by rewrite lookup_insert_eq|by rewrite lookup_insert_ne].
Qed.

Lemma filter_keeps_none {X} (f : X -> bool) (l : list X) : (forall x, x ∈ l -> f x = false) -> List.filter f l = [].
Proof.
  induction l as [|x l IH]; intros H; [done|]. cbn. rewrite (H x) by left. apply IH. intros y Hy. apply H. by right.
Qed.

Lemma insert_count l l' vec i news base : (forall m, (m < base)%nat -> l' !! m = l !! m) -> Forall (fun m => m < base)%nat vec ->
  (forall m, m ∈ news -> has_checkpoint l' m = false) -> checkpoints_in l' (insert_at i news vec) = checkpoints_in l vec.
Proof.
  intros Hold Hv Hn. unfold checkpoints_in. f_equal. rewrite insert_at_eq, !List.filter_app, (filter_keeps_none _ news) by done. cbn [app].
  rewrite <- (ahead_behind i vec) at 3. rewrite List.filter_app. rewrite <- (ahead_behind i vec) in Hv.
  apply Forall_app in Hv as [H1 H2]. rewrite Forall_forall in H1, H2.
  rewrite (filter_old l l' (ahead i vec)), (filter_old l l' (behind i vec)); [done| |]; intros m Hm; apply Hold; auto.
Qed.

(** A timeline with new marks in their place. *)
Lemma timeline_insert_ok s s' l' vec ps i news ns m0 :
  let key := key_at (idx (current s)) in
  timeline_ok s -> vector_ok (store s) key (vector_of key s) ps -> flags_ok (store s) (vector_of key s) ps ->
  vec = vector_of key s -> placed (store s) l' (length (store s)) key (idx (current s)) ps i news ns -> news !! O = Some m0 ->
  store s' = l' -> marks s' = <[key := insert_at i news vec]> (marks s) -> current_at_or_after_mark s' = Some m0 ->
  marks_with_checkpoints s' = marks_with_checkpoints s -> idx (current s') = idx (current s) ->
  timeline_ok s' /\ names (store s') m0 (idx (current s')).
Proof.
  intros key Hok Hv Hfl -> Hpl Hm0 Es Em Ea Ew Ei. pose proof Hok as [T1 T2 T3 T4 T5 T6 T7].
  pose proof Hpl as [P1 P2 P3 [N1 N2 N3 N4 N6 N5] P5 P6 P7].
  assert (forall k m, m ∈ vector_of k s -> (m < length (store s))%nat) as Hb.
  { intros k m Hm. destruct (T1 k) as (ps' & Hv' & _). by eapply vector_bound. }
  assert (Forall (fun m => m < length (store s))%nat (vector_of key s)) as Hvb by (apply Forall_forall; intros; by eapply Hb).
  assert (forall m p, names (store s) m p -> names l' m p) as Hg.
  { intros m p (x & Hx & Hr). exists x. rewrite P1 by (by eapply lookup_lt_Some). done. }
  assert (forall k, vector_of k s' = if bool_decide (k = key) then insert_at i news (vector_of key s) else vector_of k s) as Hvec.
  { intros k. rewrite <- vector_of_insert. unfold vector_of. by rewrite Em. }
  assert (names l' m0 (idx (current s))) as Hm0n.
  { destruct (Forall2_lookup_l _ _ _ _ _ N1 Hm0) as (p & Hp & Hn). rewrite P5 in Hp. by injection Hp as ->. }
  split; [|by rewrite Es, Ei]. split; rewrite ?Es, ?Ew, ?Ea, ?Ei.
  - intros k. rewrite Hvec. destruct (bool_decide_reflect (k = key)) as [->|Hne].
    + eexists. split; [by eapply insert_vector_ok|by eapply insert_flags_ok].
    + destruct (T1 k) as (qs & [Q1 Q2 Q3] & Hf). exists qs. split; [split; [by eapply names_vec_grow|done|done]|].
      intros j m x Hj Hx. rewrite P1 in Hx by (by eapply Hb, list_elem_of_lookup_2). exact (Hf j m x Hj Hx).
  - intros m x Hx. rewrite Hvec. destruct (Nat.lt_ge_cases m (length (store s))) as [Hlt|Hge].
    + rewrite P1 in Hx by done. pose proof (T2 m x Hx) as Hin. destruct (bool_decide_reflect (mkey x = key)) as [Ek|]; [rewrite Ek in Hin|done].
      rewrite insert_at_eq. rewrite <- (ahead_behind i (vector_of key s)) in Hin. rewrite !elem_of_app. rewrite elem_of_app in Hin. tauto.
    + pose proof (lookup_lt_Some _ _ _ Hx). assert (m ∈ news) as Hin by (apply P2; lia).
      pose proof Hin as (j & Hj)%list_elem_of_lookup. destruct (Forall2_lookup_l _ _ _ _ _ N1 Hj) as (p & Hp & y & Hy & Hk & _).
      rewrite Hx in Hy. injection Hy as <-. rewrite Forall_forall in N3. rewrite Hk, (N3 p) by (by eapply list_elem_of_lookup_2).
      rewrite bool_decide_eq_true_2 by done. rewrite insert_at_eq, !elem_of_app. tauto.
  - intros m [= <-]. eauto.
  - intros m x Hx. unfold checkpoint_ok. destruct (Nat.lt_ge_cases m (length (store s))) as [Hlt|Hge].
    + rewrite P1 in Hx by done. pose proof (T4 m x Hx) as H. unfold checkpoint_ok in H. destruct (checkpoint x); [|done]. destruct H. auto.
    + pose proof (lookup_lt_Some _ _ _ Hx). destruct (N6 m x) as [-> ->]; [apply P2; lia|done|done].
  - done.
  - intros k. rewrite Hvec, T6. destruct (bool_decide_reflect (k = key)) as [->|Hne].
    + symmetry. eapply insert_count; [done|done|]. intros m Hm. unfold has_checkpoint. destruct (l' !! m) as [x|] eqn:Ex; [|done].
      cbn. by destruct (N6 m x Hm Ex) as [-> _].
    + unfold checkpoints_in. rewrite (filter_old (store s) l'); [done|]. intros m Hm. by apply P1, (Hb k).
  - done.
Qed.

(** ** Breakpoints do not move the session *)

Definition moved (s s' : timeline) : Prop :=
  exists c b, s' = put_applied b (put_current c s) /\ idx c = idx (current s) /\ steps_left c = steps_left (current s).

Lemma unmoved_refl s : moved s s.
Proof. exists (current s), (breakpoints_applied s). by destruct s. Qed.

Lemma unmoved_trans s1 s2 s3 : moved s1 s2 -> moved s2 s3 -> moved s1 s3.
Proof. intros (c & b & -> & H1 & H2) (c' & b' & -> & H3 & H4). exists c', b'. cbn in *. split_and!; [done|congruence|congruence]. Qed.

Definition stays (f : T unit) : Prop := forall s, exists s', f s = (Ok tt, s') /\ moved s s'.

Lemma stays_ret : stays (mret tt).
Proof. intros s. exists s. split; [done|apply unmoved_refl]. Qed.

Lemma stays_bind f g : stays f -> stays g -> stays (f;; g).
Proof.
  intros Hf Hg s. destruct (Hf s) as (s1 & H1 & M1). destruct (Hg s1) as (s2 & H2 & M2). exists s2.
  split; [by rewrite (bind_ok _ _ _ _ _ H1)|by eapply unmoved_trans].
Qed.

Lemma stays_ask {X} (f : timeline -> X) (k : X -> T unit) : (forall a, stays (k a)) -> stays (a ← ask f; k a).
Proof. intros Hk s. apply Hk. Qed.

Lemma stays_for_all {X} (f : X -> T unit) (l : list X) : (forall x, stays (f x)) -> stays (for_all f l).
Proof. intros Hf. induction l as [|x l IH]; [apply stays_ret|]. by apply stays_bind. Qed.

Lemma stays_in_space uid (f : session -> session) :
  (forall c, idx (f c) = idx c /\ steps_left (f c) = steps_left c) -> stays (in_space uid f).
Proof.
  intros Hf. apply stays_ask. intros c. destruct (find_address_space uid c); [|apply stays_ret].
  intros s. eexists. split; [done|]. exists (f (current s)), (breakpoints_applied s). split; [by destruct s|apply Hf].
Qed.

Lemma stays_applied b : stays (change (put_applied b)).
Proof. intros s. eexists. split; [done|]. exists (current s), b. by destruct s. Qed.

Lemma apply_wp_stays w : stays (apply_wp w).
Proof. apply stays_in_space. intros c. apply add_watchpoint_same. Qed.

Lemma unapply_wp_stays w : stays (unapply_wp w).
Proof. apply stays_in_space. intros c. apply remove_watchpoint_same. Qed.

Lemma apply_internal_stays : stays apply_breakpoints_internal.
Proof.
  apply stays_ask. intros bs. apply stays_ask. intros ws. apply stays_bind; apply stays_for_all.
  - intros b. apply stays_in_space. intros c. apply add_breakpoint_same.
  - intros w. destruct (is_exec w); [apply apply_wp_stays|apply stays_ret].
Qed.

Lemma apply_stays : stays apply_breakpoints_and_watchpoints.
Proof.
  apply stays_ask. intros [|]; [apply stays_ret|]. apply stays_bind; [apply stays_applied|].
  apply stays_bind; [apply apply_internal_stays|]. apply stays_ask. intros ws. apply stays_for_all.
  intros w. destruct (is_exec w); [apply stays_ret|apply apply_wp_stays].
Qed.

Lemma unapply_internal_stays : stays unapply_breakpoints_internal.
Proof.
  apply stays_ask. intros bs. apply stays_ask. intros ws. apply stays_for_all. intros b. apply stays_bind.
  - apply stays_in_space. intros c. apply remove_breakpoint_same.
  - apply stays_for_all. intros w. destruct (is_exec w); [apply unapply_wp_stays|apply stays_ret].
Qed.

Lemma unapply_stays : stays unapply_breakpoints_and_watchpoints.
Proof.
  apply stays_ask. intros [|]; [|apply stays_ret]. apply stays_bind; [apply stays_applied|].
  apply stays_bind; [apply unapply_internal_stays|]. apply stays_ask. intros ws. apply stays_for_all.
  intros w. destruct (is_exec w); [apply stays_ret|apply unapply_wp_stays].
Qed.

(** ** Marking *)

(** References to the checkpoint of a mark. *)
Definition refs (s : timeline) (m : nat) : Z := match store s !! m with Some x => checkpoint_refcount x | None => 0 end.

(** What marking leaves alone. *)
Record marked (s s' : timeline) : Prop := {
  mk_idx : idx (current s') = idx (current s);
  mk_steps : steps_left (current s') = steps_left (current s);
  mk_old : forall m x, store s !! m = Some x -> store s' !! m = Some x;
  mk_refs : forall m, refs s' m = refs s m;
  mk_counts : marks_with_checkpoints s' = marks_with_checkpoints s;
  mk_reverse : reverse_exec_checkpoints s' = reverse_exec_checkpoints s;
  mk_short : reverse_exec_short_checkpoint s' = reverse_exec_short_checkpoint s }.

Lemma marked_refl s : marked s s.
Proof. by split. Qed.

Lemma names_marked s s' m p : marked s s' -> names (store s) m p -> names (store s') m p.
Proof. intros H (x & Hx & Hr). exists x. split; [by apply (mk_old _ _ H)|done]. Qed.

(** The first mark made is placed after all of its vector. *)
Lemma placed_last l x key p ps : names (l ++ [x]) (length l) p -> key_at p = key -> singlestep_to_next_mark_no_signal x = false ->
  checkpoint x = None -> checkpoint_refcount x = 0 -> (forall q, q ∈ ps -> (q < p)%nat) ->
  placed l (l ++ [x]) (length l) key p ps None [length l] [p].
Proof.
  intros Hn Hk Hf Hc Hr Hall. assert ((l ++ [x]) !! length l = Some x) as Hx by by apply list_lookup_middle.
  split; cbn [ahead behind].
  - intros m Hm. by apply lookup_app_l.
  - intros m. rewrite length_app. cbn. intros Hm. replace m with (length l) by lia. left.
  - rewrite length_app. lia.
  - split; try by repeat constructor.
    + intros m y ->%list_elem_of_singleton Hy. rewrite Hx in Hy. by injection Hy as <-.
    + intros [|j] m y Hj Hy Hfy; [|done]. injection Hj as <-. rewrite Hx in Hy. injection Hy as <-. congruence.
  - done.
  - done.
  - by intros q p' H%elem_of_nil.
Qed.

Lemma placed_shift l x l' base key p ps i news ns : base = length l ->
  placed (l ++ [x]) l' base key p ps i news ns -> placed l l' base key p ps i news ns.
Proof.
  intros -> [P1 P2 P3 P4 P5 P6 P7]. split; try done.
  - intros m Hm. rewrite P1 by done. by apply lookup_app_l.
  - rewrite length_app in P3. lia.
Qed.

Lemma stops_cover l vec ps p x : Forall2 (names l) vec ps -> p ∈ ps -> state_at p = Some x ->
  x.1 ∈ registers_of (omap (fun m => l !! m) vec).
Proof.
  intros Hn (j & Hj)%list_elem_of_lookup Hx. destruct (Forall2_lookup_r _ _ _ _ _ Hn Hj) as (m & Hm & y & Hy & _ & Hs & _).
  unfold registers_of. apply list_elem_of_omap. exists y. split; [|by rewrite Hs, Hx].
  apply list_elem_of_omap. exists m. split; [by eapply list_elem_of_lookup_2|done].
Qed.

Lemma current_mark_ok s ps : let key := key_at (idx (current s)) in
  vector_ok (store s) key (vector_of key s) ps -> state_at (idx (current s)) <> None ->
  exists r, current_mark s = (Ok r, s) /\
    match r with Some m => names (store s) m (idx (current s)) | None => idx (current s) ∉ ps end.
Proof.
  intros key Hv Ht. destruct (state_at (idx (current s))) as [y|] eqn:Hy; [|done].
  destruct (find_state_ok s key (vector_of key s) ps (current s) y Hv eq_refl Hy) as (r & Hr & Hm).
  exists (snd <$> r). unfold current_mark. rewrite (bind_ok (ask current) _ s _ s eq_refl), (bind_ok (ask _) _ s _ s eq_refl), key_of.
  fold key. rewrite (bind_ok _ _ _ _ _ Hr). split; [done|]. destruct r as [[i m]|]; cbn; [|done]. destruct Hm as [Hm Hp].
  destruct (Forall2_lookup_l _ _ _ _ _ (vo_names _ _ _ _ Hv) Hm) as (p & Hp' & Hn). rewrite Hp in Hp'. by injection Hp' as ->.
Qed.

(** The vector's last mark is where the session was last seen: the session is past all of the vector. *)
Lemma past_last s ps m : let key := key_at (idx (current s)) in
  timeline_ok s -> vector_ok (store s) key (vector_of key s) ps -> idx (current s) ∉ ps ->
  list_basics.list.last (vector_of key s) = Some m -> current_at_or_after_mark s = Some m ->
  forall q, q ∈ ps -> (q < idx (current s))%nat.
Proof.
  intros key Hok [Hn Hs Hk] Hnot Hl Ha q Hq. destruct (to_after s Hok m Ha) as (p & Hp & Hle).
  apply last_place in Hl. destruct (Forall2_lookup_l _ _ _ _ _ Hn Hl) as (p' & Hp' & Hnm). pose proof (names_unique _ _ _ _ Hnm Hp) as ->.
  rewrite (Forall2_length _ _ _ Hn) in Hp'. apply last_place in Hp'. pose proof (sorted_last ps p q Hs Hp' Hq).
  assert (p <> idx (current s)); [|lia]. intros ->. by apply Hnot, (list_elem_of_lookup_2 _ (pred (length ps))), last_place.
Qed.

Lemma placed_old l l' key p ps i news ns m x : placed l l' (length l) key p ps i news ns -> l !! m = Some x -> l' !! m = Some x.
Proof. intros [P1 _ _ _ _ _ _] Hx. rewrite P1; [done|]. by eapply lookup_lt_Some. Qed.

Lemma placed_refs s s' l' key p ps i news ns : placed (store s) l' (length (store s)) key p ps i news ns -> store s' = l' ->
  forall m, refs s' m = refs s m.
Proof.
  intros [P1 P2 _ [_ _ _ _ N6 _] _ _ _] Es m. unfold refs. rewrite Es. destruct (Nat.lt_ge_cases m (length (store s))) as [Hlt|Hge].
  - by rewrite P1.
  - rewrite (lookup_ge_None_2 (store s)) by done. destruct (l' !! m) as [x|] eqn:Ex; [|done].
    pose proof (lookup_lt_Some _ _ _ Ex). apply (N6 m x); [apply P2; lia|done].
Qed.

(** What [mark] does with a new mark in its place: the invariant stays. *)
Lemma mark_inserted s s' ps l' i news ns m0 : let key := key_at (idx (current s)) in
  timeline_ok s -> vector_ok (store s) key (vector_of key s) ps -> flags_ok (store s) (vector_of key s) ps ->
  placed (store s) l' (length (store s)) key (idx (current s)) ps i news ns -> news !! O = Some m0 -> moved (put_store l' s) s' ->
  let s2 := put_at_or_after (Some m0) (put_marks (<[key := insert_at i news (vector_of key s)]> (marks s')) s') in
  timeline_ok s2 /\ marked s s2 /\ names (store s2) m0 (idx (current s2)).
Proof.
  intros key Hok Hv Hf Hpl H0 (c & b & -> & Hc & Hst) s2. cbn in Hc, Hst.
  destruct (timeline_insert_ok s s2 l' (vector_of key s) ps i news ns m0) as [H1 H2]; try done.
  split_and!; try done. split; try done; [intros m x Hx; by eapply placed_old|]. by eapply placed_refs.
Qed.

Lemma moved_vector k s s' : moved s s' -> vector_of k s' = vector_of k s.
Proof. by intros (c & b & -> & _). Qed.

Definition fresh_mark (c : session) : InternalMark :=
  mkMark (session_mark_key c) (current_task c) None (ticks_at_start_of_current_event c) 0 false.

Lemma new_mark_eq s : new_mark (current s) (session_mark_key (current s)) s =
  (Ok (length (store s)), put_store (store s ++ [fresh_mark (current s)]) s).
Proof. done. Qed.

Lemma fresh_names s : state_at (idx (current s)) <> None -> names (store s ++ [fresh_mark (current s)]) (length (store s)) (idx (current s)).
Proof.
  intros Ht. exists (fresh_mark (current s)). split_and!; [by apply list_lookup_middle|apply key_of|apply task_of|done].
Qed.

(** The search for the place of the new mark starts. *)
Lemma placing_start s s1 ps : let key := key_at (idx (current s)) in
  timeline_ok s -> vector_ok (store s) key (vector_of key s) ps -> idx (current s) ∉ ps -> state_at (idx (current s)) <> None ->
  moved (put_store (store s ++ [fresh_mark (current s)]) s) s1 ->
  placing key (vector_of key s) ps (length (store s)) (idx (current s)) s1 (clone (current s1)) [length (store s)] [idx (current s)].
Proof.
  intros key Hok [Hn Hs Hk] Hnot Ht (c & b & -> & Hc & _). cbn in Hc. pose proof (fresh_names s Ht) as Hfn.
  destruct (clone_same c) as [Hcl _].
  pose proof (placed_last (store s) (fresh_mark (current s)) key (idx (current s)) [] Hfn eq_refl eq_refl eq_refl eq_refl
    (fun q H => match proj1 (elem_of_nil q) H with end)) as [_ Q2 _ Q4 _ _ _].
  split; cbn [current store put_applied put_current put_store]; rewrite ?Hcl, ?Hc; try done.
  - split; [|done|done]. eapply names_vec_grow; [intros; by apply names_more|done].
  - rewrite length_app. lia.
  - apply NoDup_singleton.
  - intros q Hq. assert (q <> idx (current s)) by (intros ->; done). lia.
Qed.

Lemma put_in_vector_ok fuel s ps : let key := key_at (idx (current s)) in let m := length (store s) in
  timeline_ok s -> vector_ok (store s) key (vector_of key s) ps -> idx (current s) ∉ ps ->
  state_at (idx (current s)) <> None -> (steps_left (current s) < fuel)%nat ->
  exists i news ns l' s2, placed (store s) l' m key (idx (current s)) ps i news ns /\ news !! O = Some m /\
    moved (put_store l' s) s2 /\
    put_in_vector fuel key m (put_store (store s ++ [fresh_mark (current s)]) s) =
      (Ok tt, put_marks (<[key := insert_at i news (vector_of key s)]> (marks s2)) s2).
Proof.
  intros key m Hok Hv Hnot Ht Hfuel. set (s1 := put_store (store s ++ [fresh_mark (current s)]) s). unfold put_in_vector.
  pose proof (fresh_names s Ht) as Hfn.
  rewrite (bind_ok (ask (vector_of key)) _ s1 (vector_of key s) s1 eq_refl).
  rewrite (bind_ok (ask current_at_or_after_mark) _ s1 (current_at_or_after_mark s) s1 eq_refl).
  assert ((forall q, q ∈ ps -> (q < idx (current s))%nat) -> exists i news ns l' s2,
    placed (store s) l' m key (idx (current s)) ps i news ns /\ news !! O = Some m /\ moved (put_store l' s) s2 /\
    change (fun s0 => put_marks (<[key := vector_of key s ++ [m]]> (marks s0)) s0) s1 =
      (Ok tt, put_marks (<[key := insert_at i news (vector_of key s)]> (marks s2)) s2)) as Hend.
  { intros Hq. exists None, [m], [idx (current s)], (store s ++ [fresh_mark (current s)]), s1.
    split_and!; [by apply placed_last|done|apply unmoved_refl|done]. }
  destruct (vector_of key s) as [|m0 vec0] eqn:Evec.
  { apply Hend. destruct Hv as [Hn _ _]. inversion Hn. by intros q H%elem_of_nil. }
  rewrite <- Evec in *. clear m0 vec0 Evec.
  destruct (bool_decide_reflect (list_basics.list.last (vector_of key s) = current_at_or_after_mark s)) as [El|El].
  { apply Hend. destruct (list_basics.list.last (vector_of key s)) as [m1|] eqn:E1.
    - by apply (past_last s ps m1).
    - apply last_None in E1. destruct Hv as [Hn _ _]. rewrite E1 in Hn. inversion Hn. by intros q H%elem_of_nil. }
  destruct (unapply_stays s1) as (s2 & Hun & Hmv). rewrite (bind_ok _ _ _ _ _ Hun).
  rewrite (bind_ok (ask current) _ s2 _ s2 eq_refl), (bind_ok (ask store) _ s2 _ s2 eq_refl).
  pose proof (placing_start s s2 ps Hok Hv Hnot Ht Hmv) as Hps. destruct Hmv as (c & b & -> & Hc & Hst). cbn in Hc, Hst.
  destruct (place_ok key (vector_of key s) ps (registers_of (omap (fun m => (store s ++ [fresh_mark (current s)]) !! m) (vector_of key s)))
    m (idx (current s))) with (fuel := fuel) (c := clone c) (s := put_applied b (put_current c s1)) (news := [m]) (ns := [idx (current s)])
    as (i & news & ns & l' & Hrun & Hpl & (e & ->)).
  - intros p x Hp Hx. eapply stops_cover; [|exact Hp|exact Hx]. eapply names_vec_grow; [intros; by apply names_more|apply (vo_names _ _ _ _ Hv)].
  - destruct (clone_same c). lia.
  - exact Hps.
  - exists i, ([m] ++ e), ns, l', (put_applied b (put_current c (put_store l' s))). split_and!.
    + apply (placed_shift _ (fresh_mark (current s))); [done|exact Hpl].
    + done.
    + by exists c, b.
    + by rewrite (bind_ok _ _ _ _ _ Hrun).
Qed.

(** [mark] returns a mark of the current state, moves nothing and keeps the invariant. *)
Lemma mark_ok fuel s : timeline_ok s -> state_at (idx (current s)) <> None -> (steps_left (current s) < fuel)%nat ->
  exists m s', mark fuel s = (Ok m, s') /\ timeline_ok s' /\ marked s s' /\ names (store s') m (idx (current s')).
Proof.
  intros Hok Ht Hfuel. set (key := key_at (idx (current s))). destruct (to_vectors s Hok key) as (ps & Hv & Hf).
  destruct (current_mark_ok s ps Hv Ht) as (r & Hr & Hm). unfold mark. rewrite (bind_ok _ _ _ _ _ Hr).
  destruct r as [m|]; [exists m, s; split_and!; [done..|apply marked_refl|done]|].
  rewrite (bind_ok (ask current) _ s _ s eq_refl), (bind_ok _ _ _ _ _ (new_mark_eq s)), key_of. fold key.
  destruct (put_in_vector_ok fuel s ps Hok Hv Hm Ht Hfuel) as (i & news & ns & l' & s2 & Hpl & H0 & Hmv & Hrun).
  rewrite (bind_ok _ _ _ _ _ Hrun). eexists _, _. split; [done|]. by apply (mark_inserted s s2 ps l' i news ns).
Qed.

(** ** The order of marks is the order of states *)

Lemma first_of_ok l vec ps m1 m2 p1 p2 :
  Forall2 (names l) vec ps -> StronglySorted lt ps -> m1 ∈ vec -> m2 ∈ vec -> names l m1 p1 -> names l m2 p2 ->
  first_of m1 m2 vec = Ok (p1 <? p2)%nat.
Proof.
  intros Hn Hs Hin1 Hin2 H1 H2.
  assert (forall m q vec ps, Forall2 (names l) vec ps -> m ∈ vec -> names l m q -> q ∈ ps) as Hpos.
  { clear. intros m q vec ps Hn (j & Hj)%list_elem_of_lookup Hq. destruct (Forall2_lookup_l _ _ _ _ _ Hn Hj) as (q' & Hq' & Hnm).
    pose proof (names_unique _ _ _ _ Hq Hnm) as ->. by eapply list_elem_of_lookup_2. }
  induction Hn as [|m p vec ps Hm Hn IH]; [by apply elem_of_nil in Hin1|]. cbn [first_of].
  apply StronglySorted_inv in Hs as [Hs Hall]. rewrite Forall_forall in Hall.
  destruct (bool_decide_reflect (m = m2)) as [->|Hne2].
  { pose proof (names_unique _ _ _ _ Hm H2) as ->. f_equal. symmetry. apply Nat.ltb_ge.
    assert (p1 ∈ p2 :: ps) as [->|Hp]%elem_of_cons by (eapply Hpos; [by constructor|exact Hin1|done]); [done|].
    specialize (Hall _ Hp). lia. }
  apply elem_of_cons in Hin2 as [?|Hin2]; [done|].
  destruct (bool_decide_reflect (m = m1)) as [->|Hne1].
  { pose proof (names_unique _ _ _ _ Hm H1) as ->. f_equal. symmetry. apply Nat.ltb_lt, Hall. by eapply Hpos. }
  apply elem_of_cons in Hin1 as [?|Hin1]; [done|]. by apply IH.
Qed.

Lemma the_mark_eq m x s : store s !! m = Some x -> the_mark m s = (Ok x, s).
Proof. intros Hx. unfold the_mark. rewrite (bind_ok (ask store) _ s (store s) s eq_refl). by rewrite Hx. Qed.

Lemma less_than_ok s m1 m2 p1 p2 : timeline_ok s -> names (store s) m1 p1 -> names (store s) m2 p2 ->
  less_than m1 m2 s = (Ok (p1 <? p2)%nat, s).
Proof.
  intros Hok H1 H2. pose proof H1 as (x1 & Hx1 & Hk1 & _). pose proof H2 as (x2 & Hx2 & Hk2 & _). unfold less_than.
  rewrite (bind_ok _ _ _ _ _ (the_mark_eq _ _ _ Hx1)), (bind_ok _ _ _ _ _ (the_mark_eq _ _ _ Hx2)), Hk1, Hk2.
  destruct (key_ltb (key_at p1) (key_at p2)) eqn:E12.
  { apply key_before in E12. by apply Nat.ltb_lt in E12 as ->. }
  destruct (key_ltb (key_at p2) (key_at p1)) eqn:E21.
  { apply key_before in E21. assert (p1 <? p2 = false)%nat as -> by (apply Nat.ltb_ge; lia). done. }
  assert (key_at p1 = key_at p2) as Ek by (destruct (key_total (key_at p1) (key_at p2)) as [|[|]]; congruence).
  rewrite (bind_ok (ask _) _ s _ s eq_refl). unfold liftT. f_equal.
  destruct (to_vectors s Hok (key_at p1)) as (ps & [Hn Hs _] & _). apply (first_of_ok (store s) _ ps); try done.
  - rewrite <- Hk1. by apply to_stored.
  - rewrite Ek, <- Hk2. by apply to_stored.
Qed.

(** ** Counting checkpoints *)

Notation key_sorted l := (StronglySorted (fun a b => key_ltb a b = true) (map fst l)).

Lemma count_not_in k l : Forall (fun k' => key_ltb k k' = true) (map fst l) -> count_of k l = 0.
Proof.
  induction l as [|[k' n] l IH]; intros H; [done|]. cbn in H |- *. apply Forall_cons_1 in H as [H1 H2].
  rewrite bool_decide_eq_false_2; [by apply IH|]. intros ->. by rewrite key_ltb_irrefl in H1.
Qed.

Lemma count_add_ok k l : key_sorted l -> Forall (fun x => 0 < x.2) l ->
  key_sorted (count_add k l) /\ Forall (fun x => 0 < x.2) (count_add k l) /\
  forall k', count_of k' (count_add k l) = count_of k' l + (if bool_decide (k' = k) then 1 else 0).
Proof.
  induction l as [|[k1 n] l IH]; intros Hs Hp; cbn [count_add].
  { split_and!; [by repeat constructor|by repeat constructor|]. intros k'. cbn. by destruct (bool_decide (k' = k)). }
  cbn in Hs. apply StronglySorted_inv in Hs as [Hs Hall]. apply Forall_cons_1 in Hp as [Hn Hp]. cbn in Hn.
  destruct (key_ltb k k1) eqn:El.
  { assert (Forall (fun k' => key_ltb k k' = true) (map fst ((k1, n) :: l))) as Hlt.
    { constructor; [done|]. eapply Forall_impl; [exact Hall|]. intros k' Hk'. by eapply key_ltb_trans. }
    split_and!; [constructor; [by constructor|done]|by repeat constructor|]. intros k'.
    destruct (bool_decide_reflect (k' = k)) as [->|Hne].
    - rewrite (count_not_in _ _ Hlt). cbn. by rewrite bool_decide_eq_true_2.
    - cbn [count_of]. rewrite (bool_decide_eq_false_2 (k' = k)) by done. lia. }
  destruct (bool_decide_reflect (k = k1)) as [->|Hne].
  { split_and!; [by constructor|constructor; [cbn; lia|done]|]. intros k'. cbn. destruct (bool_decide (k' = k1)); lia. }
  destruct (IH Hs Hp) as (H1 & H2 & H3). split_and!.
  - constructor; [done|]. apply Forall_forall. intros y Hy. rewrite Forall_forall in Hall.
    assert (y = k \/ y ∈ map fst l) as [->|Hin]; [|cbn; by destruct (key_total k k1) as [|[|]]; congruence|by apply Hall].
    clear - Hy. induction l as [|[k2 n2] l IH]; cbn in Hy |- *; [apply list_elem_of_singleton in Hy; by left|].
    destruct (key_ltb k k2); [apply elem_of_cons in Hy as [->|Hy]; [by left|by right]|]. destruct (bool_decide (k = k2)); [by right|].
    cbn in Hy. apply elem_of_cons in Hy as [->|Hy]; [right; left|]. destruct (IH Hy); [by left|right; by right].
  - by constructor.
  - intros k'. cbn [count_of]. destruct (bool_decide_reflect (k' = k1)) as [->|]; [|apply H3].
    rewrite bool_decide_eq_false_2 by congruence. lia.
Qed.

Lemma count_remove_ok k l : key_sorted l -> Forall (fun x => 0 < x.2) l -> 0 < count_of k l ->
  key_sorted (count_remove k l) /\ Forall (fun x => 0 < x.2) (count_remove k l) /\
  forall k', count_of k' (count_remove k l) = count_of k' l - (if bool_decide (k' = k) then 1 else 0).
Proof.
  induction l as [|[k1 n] l IH]; intros Hs Hp Hc; [done|]. cbn [count_remove].
  cbn in Hs, Hc. apply StronglySorted_inv in Hs as [Hs Hall]. apply Forall_cons_1 in Hp as [Hn Hp]. cbn in Hn.
  destruct (bool_decide_reflect (k = k1)) as [->|Hne].
  - destruct (Z.eqb_spec n 1) as [->|Hn1].
    + split_and!; [done|done|]. intros k'. cbn. destruct (bool_decide_reflect (k' = k1)) as [->|]; [|lia].
      by rewrite (count_not_in _ _ Hall).
    + split_and!; [by constructor|constructor; [cbn; lia|done]|]. intros k'. cbn. destruct (bool_decide (k' = k1)); lia.
  - destruct (IH Hs Hp Hc) as (H1 & H2 & H3). split_and!.
    + constructor; [done|]. rewrite Forall_forall in Hall |- *. intros y Hy. apply Hall. clear - Hy.
      induction l as [|[k2 n2] l IH]; cbn in Hy |- *; [done|]. destruct (bool_decide (k = k2)).
      { destruct (n2 =? 1); [by right|done]. }
      cbn in Hy. apply elem_of_cons in Hy as [->|Hy]; [left|right; by apply IH].
    + by constructor.
    + intros k'. cbn [count_of]. destruct (bool_decide_reflect (k' = k1)) as [->|]; [|apply H3].
      rewrite bool_decide_eq_false_2 by congruence. lia.
Qed.

Lemma vector_nodup l k vec ps : vector_ok l k vec ps -> NoDup vec.
Proof.
  intros [Hn Hs _]. induction Hn as [|m p vec ps Hm Hn IH]; [constructor|]. apply StronglySorted_inv in Hs as [Hs Hall].
  constructor; [|by apply IH]. intros (j & Hj)%list_elem_of_lookup. destruct (Forall2_lookup_l _ _ _ _ _ Hn Hj) as (q & Hq & Hnm).
  pose proof (names_unique _ _ _ _ Hm Hnm) as ->. rewrite Forall_forall in Hall.
  specialize (Hall q (list_elem_of_lookup_2 _ _ _ Hq)). lia.
Qed.

Definition has (x : InternalMark) : Z := match checkpoint x with Some _ => 1 | None => 0 end.

Lemma checkpoints_alter l f m x vec : NoDup vec -> l !! m = Some x ->
  checkpoints_in (alter f m l) vec = checkpoints_in l vec + (if bool_decide (m ∈ vec) then has (f x) - has x else 0).
Proof.
  intros Hd Hx. unfold checkpoints_in. induction Hd as [|m1 vec Hnot Hd IH]; [done|]. cbn [List.filter].
  assert (m1 <> m -> has_checkpoint (alter f m l) m1 = has_checkpoint l m1) as Hne.
  { intros Hne. unfold has_checkpoint. by rewrite list_lookup_alter_ne by done. }
  destruct (decide (m1 = m)) as [->|Hm].
  - rewrite bool_decide_eq_true_2 by left. rewrite bool_decide_eq_false_2 in IH by done.
    assert (has_checkpoint (alter f m l) m = negb (has (f x) =? 0)) as ->.
    { unfold has_checkpoint, has. rewrite list_lookup_alter_eq, Hx. cbn. by destruct (checkpoint (f x)). }
    assert (has_checkpoint l m = negb (has x =? 0)) as ->.
    { unfold has_checkpoint, has. rewrite Hx. cbn. by destruct (checkpoint x). }
    unfold has. destruct (checkpoint (f x)), (checkpoint x); cbn; lia.
  - rewrite (Hne Hm). assert (bool_decide (m ∈ m1 :: vec) = bool_decide (m ∈ vec)) as ->.
    { apply bool_decide_ext. rewrite elem_of_cons. split; [intros [?|?]; [congruence|done]|by right]. }
    destruct (has_checkpoint l m1); cbn; lia.
Qed.

Definition keeps (f : InternalMark -> InternalMark) : Prop :=
  forall x, mkey (f x) = mkey x /\ mstate (f x) = mstate x /\ singlestep_to_next_mark_no_signal (f x) = singlestep_to_next_mark_no_signal x.

Lemma keeps_names l f n m p : keeps f -> names l m p -> names (alter f n l) m p.
Proof. intros Hf. apply names_alter. intros x. split; apply Hf. Qed.

(** A change to what a mark keeps. *)
Lemma timeline_alter_ok s s' f m x : timeline_ok s -> store s !! m = Some x -> keeps f ->
  store s' = alter f m (store s) -> marks s' = marks s ->
  (forall m', current_at_or_after_mark s' = Some m' -> exists p, names (store s') m' p /\ (p <= idx (current s'))%nat) ->
  checkpoint_ok (store s') m (f x) -> key_sorted (marks_with_checkpoints s') -> Forall (fun x => 0 < x.2) (marks_with_checkpoints s') ->
  (forall k, count_of k (marks_with_checkpoints s') = count_of k (marks_with_checkpoints s) + (if bool_decide (k = mkey x) then has (f x) - has x else 0)) ->
  timeline_ok s'.
Proof.
  intros [T1 T2 T3 T4 T5 T6 T7] Hx Hf Es Em Ha Hc Hs Hp Hcount.
  assert (forall k, vector_of k s' = vector_of k s) as Hv by (intros k; unfold vector_of; by rewrite Em).
  assert (forall n y, store s' !! n = Some y -> exists z, store s !! n = Some z /\ mkey y = mkey z /\
    singlestep_to_next_mark_no_signal y = singlestep_to_next_mark_no_signal z /\ (n <> m -> y = z)) as Hback.
  { intros n y. rewrite Es. destruct (decide (n = m)) as [->|Hne].
    - rewrite list_lookup_alter_eq, Hx. intros [= <-]. exists x. destruct (Hf x) as (? & ? & ?). by split_and!.
    - rewrite list_lookup_alter_ne by done. intros Hy. by exists y. }
  assert (forall n p, names (store s) n p -> names (store s') n p) as Hg by (rewrite Es; intros; by apply keeps_names).
  split; try done.
  - intros k. rewrite Hv. destruct (T1 k) as (ps & [V1 V2 V3] & Hfl). exists ps. split; [split; [exact (names_vec_grow _ _ _ _ Hg V1)|done|done]|].
    intros j n y Hj Hy Hsf. destruct (Hback n y Hy) as (z & Hz & _ & Ez & _). apply (Hfl j n z Hj Hz). congruence.
  - intros n y Hy. destruct (Hback n y Hy) as (z & Hz & Ek & _). rewrite Hv, Ek. by apply T2.
  - intros n y Hy. destruct (Hback n y Hy) as (z & Hz & _ & _ & Heq). destruct (decide (n = m)) as [->|Hne].
    + rewrite Es, list_lookup_alter_eq, Hx in Hy. by injection Hy as <-.
    + rewrite (Heq Hne). pose proof (T4 n z Hz) as H. unfold checkpoint_ok in *. destruct (checkpoint z); [|done]. destruct H. auto.
  - intros k. rewrite Hcount, Hv, T6, Es. destruct (T1 k) as (ps & Hvk & _).
    rewrite (checkpoints_alter _ f m x _ (vector_nodup _ _ _ _ Hvk) Hx). f_equal.
    assert (bool_decide (k = mkey x) = bool_decide (m ∈ vector_of k s)) as ->; [|done]. apply bool_decide_ext. split.
    + intros ->. by apply T2.
    + intros (j & Hj)%list_elem_of_lookup. destruct Hvk as [Hn _ Hk].
      destruct (Forall2_lookup_l _ _ _ _ _ Hn Hj) as (p & Hpp & y & Hy & Hky & _). rewrite Hx in Hy. injection Hy as <-.
      rewrite Hky. rewrite Forall_forall in Hk. symmetry. apply Hk. by eapply list_elem_of_lookup_2.
Qed.

(** ** Operations on checkpoints *)

Lemma set_checkpoint_keeps v : keeps (set_checkpoint v).
Proof. done. Qed.
Lemma set_refcount_keeps v : keeps (set_refcount v).
Proof. done. Qed.

Lemma moved_ok s s' : moved s s' -> timeline_ok s -> timeline_ok s'.
Proof.
  intros (c & b & -> & Hi & _) [T1 T2 T3 T4 T5 T6 T7]. split; cbn; try done. intros m Hm.
  destruct (T3 m Hm) as (p & Hp & Hle). exists p. split; [done|lia].
Qed.

Lemma moved_marked s s' : moved s s' -> marked s s'.
Proof. intros (c & b & -> & Hi & Hs). by split. Qed.

Lemma marked_trans s1 s2 s3 : marked s1 s2 -> marked s2 s3 -> marked s1 s3.
Proof. intros [A1 A2 A3 A7 A4 A5 A6] [B1 B2 B3 B7 B4 B5 B6]. split; try congruence. auto. Qed.

(** What operations on checkpoints leave alone. *)
Record kept (s s' : timeline) : Prop := {
  kp_idx : idx (current s') = idx (current s);
  kp_steps : steps_left (current s') = steps_left (current s);
  kp_names : forall m p, names (store s) m p -> names (store s') m p;
  kp_reverse : reverse_exec_checkpoints s' = reverse_exec_checkpoints s;
  kp_short : reverse_exec_short_checkpoint s' = reverse_exec_short_checkpoint s }.

Lemma marked_kept s s' : marked s s' -> kept s s'.
Proof. intros H. pose proof H as [M1 M2 M3 M7 M4 M5 M6]. split; try done. intros m p. by apply names_marked. Qed.

Lemma kept_trans s1 s2 s3 : kept s1 s2 -> kept s2 s3 -> kept s1 s3.
Proof. intros [A1 A2 A3 A4 A5] [B1 B2 B3 B4 B5]. split; try congruence. auto. Qed.

Lemma refs_alter s f m n x : store s !! m = Some x -> checkpoint_refcount (f x) = checkpoint_refcount x + n ->
  forall m', refs (put_store (alter f m (store s)) s) m' = refs s m' + (if bool_decide (m' = m) then n else 0).
Proof.
  intros Hx Hf m'. unfold refs. cbn. destruct (bool_decide_reflect (m' = m)) as [->|Hne].
  - by rewrite list_lookup_alter_eq, Hx.
  - rewrite list_lookup_alter_ne by done. lia.
Qed.

Lemma after_alter s f m : timeline_ok s -> keeps f -> forall m', current_at_or_after_mark s = Some m' ->
  exists p, names (alter f m (store s)) m' p /\ (p <= idx (current s))%nat.
Proof. intros Hok Hf m' Hm'. destruct (to_after s Hok m' Hm') as (p & Hp & Hle). exists p. split; [by apply keeps_names|done]. Qed.

Lemma add_ref_ok s m x : timeline_ok s -> store s !! m = Some x -> checkpoint x <> None ->
  let f x := set_refcount (checkpoint_refcount x + 1) x in
  timeline_ok (put_store (alter f m (store s)) s) /\ kept s (put_store (alter f m (store s)) s).
Proof.
  intros Hok Hx Hc f. split; [|split; try done; intros; by apply keeps_names].
  pose proof (to_checkpoints s Hok m x Hx) as Hcp. unfold checkpoint_ok in Hcp.
  apply (timeline_alter_ok s _ f m x); try done; [by apply (after_alter s f m)| |apply (to_sorted s Hok)|apply (to_positive s Hok)|].
  - unfold checkpoint_ok. cbn. destruct (checkpoint x); [|done]. destruct Hcp. split; [by apply keeps_names|lia].
  - intros k. cbn. unfold has. cbn. destruct (bool_decide (k = mkey x)); lia.
Qed.

Lemma new_checkpoint_ok s m x : timeline_ok s -> store s !! m = Some x -> checkpoint x = None -> names (store s) m (idx (current s)) ->
  let f y := set_refcount (checkpoint_refcount (set_checkpoint (Some (clone (current s))) y) + 1) (set_checkpoint (Some (clone (current s))) y) in
  timeline_ok (put_with_checkpoints (count_add (mkey x) (marks_with_checkpoints s)) (put_store (alter f m (store s)) s)).
Proof.
  intros Hok Hx Hc Hn f. pose proof (to_checkpoints s Hok m x Hx) as Hcp. unfold checkpoint_ok in Hcp. rewrite Hc in Hcp.
  destruct (count_add_ok (mkey x) (marks_with_checkpoints s) (to_sorted s Hok) (to_positive s Hok)) as (A1 & A2 & A3).
  destruct (clone_same (current s)) as [Hcl _].
  apply (timeline_alter_ok s _ f m x); try done; [by apply (after_alter s f m)| |].
  - unfold checkpoint_ok. cbn. rewrite Hcl, Hcp. split; [by apply keeps_names|lia].
  - intros k. cbn [marks_with_checkpoints put_with_checkpoints]. rewrite A3. unfold has. cbn. by rewrite Hc.
Qed.

Lemma checkpoint_mark_ok s m : timeline_ok s -> names (store s) m (idx (current s)) ->
  exists s', checkpoint_mark m s = (Ok tt, s') /\ timeline_ok s' /\ kept s s' /\
    (forall m', refs s' m' = refs s m' + if bool_decide (m' = m) then 1 else 0).
Proof.
  intros Hok Hn. pose proof Hn as (x & Hx & _). unfold checkpoint_mark. rewrite (bind_ok _ _ _ _ _ (the_mark_eq _ _ _ Hx)).
  destruct (checkpoint x) as [c|] eqn:Ec.
  - rewrite (bind_ok (S := timeline) (mret tt) _ s tt s eq_refl). eexists. split; [done|].
    destruct (add_ref_ok s m x Hok Hx ltac:(by rewrite Ec)) as [H1 H2]. split_and!; try done. by eapply refs_alter.
  - destruct (unapply_stays s) as (s1 & Hun & Hmv). pose proof (moved_ok _ _ Hmv Hok) as Hok1. destruct Hmv as (c & b & -> & Hi & Hst).
    set (s1 := put_applied b (put_current c s)) in *. rewrite <- Hi in Hn.
    pose proof (new_checkpoint_ok s1 m x Hok1 Hx Ec Hn) as Hnew.
    set (f y := set_refcount _ _) in Hnew. 
    exists (put_with_checkpoints (count_add (mkey x) (marks_with_checkpoints s1)) (put_store (alter f m (store s1)) s1)).
    split_and!; [|done| |].
    + rewrite (bind_ok _ _ _ _ _ (eq_trans (bind_ok _ _ _ _ _ Hun) eq_refl)). unfold update_mark, change. cbn. by rewrite list_alter_alter_eq.
    + split; try done. intros; by apply (keeps_names _ f).
    + intros m'. by eapply (refs_alter s f).
Qed.

Definition ref_change (s s' : timeline) (m : nat) (n : Z) : Prop := forall m', refs s' m' = refs s m' + if bool_decide (m' = m) then n else 0.

(** [add_explicit_checkpoint] returns the mark of the current state, with one reference more. *)
Lemma add_explicit_checkpoint_ok fuel s : timeline_ok s -> can_clone (current s) = true ->
  state_at (idx (current s)) <> None -> (steps_left (current s) < fuel)%nat ->
  exists m s', add_explicit_checkpoint fuel s = (Ok m, s') /\ timeline_ok s' /\ kept s s' /\ names (store s') m (idx (current s')) /\
    ref_change s s' m 1.
Proof.
  intros Hok Hc Ht Hf. unfold add_explicit_checkpoint. rewrite (bind_ok (ask current) _ s _ s eq_refl), Hc.
  rewrite (bind_ok (S := timeline) (ASSERT true) _ s tt s eq_refl).
  destruct (mark_ok fuel s Hok Ht Hf) as (m & s1 & Hm & Hok1 & Hmk & Hn). rewrite (bind_ok _ _ _ _ _ Hm).
  destruct (checkpoint_mark_ok s1 m Hok1 Hn) as (s2 & Hcm & Hok2 & Hk & Hr). rewrite (bind_ok _ _ _ _ _ Hcm).
  exists m, s2. split_and!; [done|done|eapply kept_trans; [by apply marked_kept|done]| |].
  - rewrite (kp_idx _ _ Hk). by apply (kp_names _ _ Hk).
  - intros m'. by rewrite Hr, (mk_refs _ _ Hmk).
Qed.

Lemma some_checkpoint_counted s m x : timeline_ok s -> store s !! m = Some x -> checkpoint x <> None ->
  0 < count_of (mkey x) (marks_with_checkpoints s).
Proof.
  intros Hok Hx Hc. rewrite (to_counts s Hok). unfold checkpoints_in.
  assert (In m (List.filter (has_checkpoint (store s)) (vector_of (mkey x) s))) as Hin.
  { apply filter_In. split; [by apply list_elem_of_In, to_stored|]. unfold has_checkpoint. rewrite Hx. cbn. by destruct (checkpoint x). }
  destruct (List.filter _ _); [done|cbn; lia].
Qed.

Lemma drop_checkpoint_ok s m x : timeline_ok s -> store s !! m = Some x -> checkpoint_refcount x = 1 ->
  let f y := set_checkpoint None (set_refcount 0 y) in
  timeline_ok (put_with_checkpoints (count_remove (mkey x) (marks_with_checkpoints s)) (put_store (alter f m (store s)) s)).
Proof.
  intros Hok Hx Hr f. pose proof (to_checkpoints s Hok m x Hx) as Hcp. unfold checkpoint_ok in Hcp.
  destruct (checkpoint x) as [c|] eqn:Ec; [|lia].
  pose proof (some_checkpoint_counted s m x Hok Hx ltac:(by rewrite Ec)) as Hpos.
  destruct (count_remove_ok (mkey x) _ (to_sorted s Hok) (to_positive s Hok) Hpos) as (A1 & A2 & A3).
  apply (timeline_alter_ok s _ f m x); try done; [by apply (after_alter s f m)|].
  intros k. cbn [marks_with_checkpoints put_with_checkpoints]. rewrite A3. unfold has. cbn. rewrite Ec.
  destruct (bool_decide (k = mkey x)); lia.
Qed.

Lemma drop_ref_ok s m x : timeline_ok s -> store s !! m = Some x -> 1 < checkpoint_refcount x ->
  timeline_ok (put_store (alter (set_refcount (checkpoint_refcount x - 1)) m (store s)) s).
Proof.
  intros Hok Hx Hr. set (f := set_refcount (checkpoint_refcount x - 1)).
  pose proof (to_checkpoints s Hok m x Hx) as Hcp. unfold checkpoint_ok in Hcp.
  apply (timeline_alter_ok s _ f m x); try done; [by apply (after_alter s f m)| |apply (to_sorted s Hok)|apply (to_positive s Hok)|].
  - unfold checkpoint_ok. cbn. destruct (checkpoint x); [|lia]. destruct Hcp. split; [by apply keeps_names|lia].
  - intros k. cbn. unfold has. cbn. destruct (bool_decide (k = mkey x)); lia.
Qed.

(** [remove_explicit_checkpoint] of a mark with a reference drops it; the last one takes the checkpoint with it. *)
Lemma remove_explicit_checkpoint_ok s m : timeline_ok s -> 0 < refs s m ->
  exists s', remove_explicit_checkpoint m s = (Ok tt, s') /\ timeline_ok s' /\ kept s s' /\ ref_change s s' m (-1).
Proof.
  intros Hok Hr. unfold refs in Hr. destruct (store s !! m) as [x|] eqn:Hx; [|done]. unfold remove_explicit_checkpoint.
  rewrite (bind_ok _ _ _ _ _ (the_mark_eq _ _ _ Hx)). assert (0 <? checkpoint_refcount x = true) as -> by lia.
  rewrite (bind_ok (S := timeline) (ASSERT true) _ s tt s eq_refl).
  set (f := set_refcount (checkpoint_refcount x - 1)). set (s1 := put_store (alter f m (store s)) s).
  rewrite (bind_ok (update_mark m f) _ s tt s1 eq_refl).
  assert (ref_change s s1 m (-1)) as Hrc by (intros m'; apply (refs_alter s f m (-1) x); [done|cbn; lia]).
  assert (kept s s1) as Hk by (split; try done; intros; by apply keeps_names).
  destruct (Z.eqb_spec (checkpoint_refcount x - 1) 0) as [H1|H1].
  - pose proof (drop_checkpoint_ok s m x Hok Hx ltac:(lia)) as Hok'. set (g y := set_checkpoint None _) in Hok'.
    eexists. split_and!; [|exact Hok'| |].
    + rewrite (bind_ok (update_mark m (set_checkpoint None)) _ s1 tt (put_store (alter g m (store s)) s)).
      2: { unfold update_mark, change. cbn. rewrite list_alter_alter_eq. unfold g, f. by rewrite H1. }
      unfold remove_mark_with_checkpoint. rewrite (bind_ok (ask marks_with_checkpoints) _ _ _ _ eq_refl). cbn [marks_with_checkpoints put_store].
      assert (0 <? count_of (mkey x) (marks_with_checkpoints s) = true) as ->.
      { apply Z.ltb_lt, (some_checkpoint_counted s m x Hok Hx). pose proof (to_checkpoints s Hok m x Hx) as Hcp.
        unfold checkpoint_ok in Hcp. destruct (checkpoint x); [done|lia]. }
      done.
    + split; try done. intros; by apply (keeps_names _ g).
    + intros m'. apply (refs_alter s g m (-1) x); [done|cbn; lia].
  - exists s1. split_and!; [done| |done|done]. apply (drop_ref_ok s m x); [done|done|lia].
Qed.

(** ** Seeking *)

Lemma go_to_checkpoint_ok s m x c : timeline_ok s -> store s !! m = Some x -> checkpoint x = Some c ->
  exists s', go_to_checkpoint m c s = (Ok tt, s') /\ timeline_ok s' /\ current s' = c /\
    (forall m p, names (store s) m p -> names (store s') m p) /\ ref_change s s' m 0.
Proof.
  intros Hok Hx Hc. pose proof (to_checkpoints s Hok m x Hx) as Hcp. unfold checkpoint_ok in Hcp. rewrite Hc in Hcp.
  destruct Hcp as [Hn Hr]. set (f := set_checkpoint (Some (clone c))).
  eexists. split; [done|]. split_and!; [|done|intros; by apply keeps_names|].
  - apply (timeline_alter_ok s _ f m x); try done; [| |apply (to_sorted s Hok)|apply (to_positive s Hok)|].
    + cbn. intros m' [= <-]. exists (idx c). split; [by apply keeps_names|done].
    + unfold checkpoint_ok. cbn. destruct (clone_same c) as [-> _]. split; [by apply keeps_names|done].
    + intros k. cbn. unfold has. cbn. rewrite Hc. destruct (bool_decide (k = mkey x)); lia.
  - intros m'. apply (refs_alter s f m 0 x); [done|cbn; lia].
Qed.

(** What seeking leaves alone. *)
Record sought (s s' : timeline) : Prop := {
  sk_names : forall m p, names (store s) m p -> names (store s') m p;
  sk_refs : forall m, refs s' m = refs s m;
  sk_reverse : reverse_exec_checkpoints s' = reverse_exec_checkpoints s;
  sk_short : reverse_exec_short_checkpoint s' = reverse_exec_short_checkpoint s }.

Lemma sought_refl s : sought s s.
Proof. by split. Qed.

Lemma marked_sought s s' : marked s s' -> sought s s'.
Proof. intros H. pose proof H as [M1 M2 M3 M7 M4 M5 M6]. split; try done. intros m p. by apply names_marked. Qed.

Lemma sought_trans s1 s2 s3 : sought s1 s2 -> sought s2 s3 -> sought s1 s3.
Proof. intros [A1 A2 A3 A4] [B1 B2 B3 B4]. split; try congruence. auto. Qed.

Lemma go_to_checkpoint_sought s m x c : timeline_ok s -> store s !! m = Some x -> checkpoint x = Some c ->
  exists s', go_to_checkpoint m c s = (Ok tt, s') /\ timeline_ok s' /\ current s' = c /\ sought s s'.
Proof.
  intros Hok Hx Hc. destruct (go_to_checkpoint_ok s m x c Hok Hx Hc) as (s' & Hrun & H1 & H2 & H3 & H4). exists s'. split_and!; try done.
  injection Hrun as <-. split; try done. intros m'. rewrite H4. destruct (bool_decide (m' = m)); lia.
Qed.

Lemma count_in k l : 0 < count_of k l -> k ∈ map fst l.
Proof.
  induction l as [|[k' n] l IH]; cbn; [done|]. destruct (bool_decide_reflect (k = k')) as [->|]; [left|]. intros H. right. by apply IH.
Qed.

(** The last key with checkpoints before [k]. *)
Lemma last_before_ok k l : key_sorted l ->
  match last_before k l with
  | Some k' => k' ∈ map fst l /\ key_ltb k' k = true /\ forall k1, k1 ∈ map fst l -> key_ltb k1 k = true -> key_leb k1 k' = true
  | None => forall k1, k1 ∈ map fst l -> key_ltb k1 k = false
  end.
Proof.
  unfold last_before. induction l as [|[k1 n] l IH]; intros Hs; [by intros k1 H%elem_of_nil|].
  cbn in Hs. apply StronglySorted_inv in Hs as [Hs Hall]. specialize (IH Hs). rewrite Forall_forall in Hall.
  cbn [List.filter fst map]. destruct (key_ltb k1 k) eqn:E1.
  - rewrite last_cons. destruct (list_basics.list.last (List.filter _ l)) as [[k' n']|]; cbn in IH |- *.
    + destruct IH as (I1 & I2 & I3). split_and!; [by right|done|]. intros k2 [->|Hk2]%elem_of_cons Hlt; [|by apply I3].
      by apply key_ltb_leb, Hall.
    + split_and!; [left|done|]. intros k2 [->|Hk2]%elem_of_cons Hlt; [apply key_leb_refl|].
      by rewrite (IH k2 Hk2) in Hlt.
  - destruct (list_basics.list.last (List.filter _ l)) as [[k' n']|]; cbn in IH |- *.
    + destruct IH as (I1 & I2 & I3). split_and!; [by right|done|]. intros k2 [->|Hk2]%elem_of_cons Hlt; [congruence|by apply I3].
    + intros k2 [->|Hk2]%elem_of_cons; [done|by apply IH].
Qed.

Lemma first_checkpoint_ok l vec : 0 < checkpoints_in l vec ->
  exists m x c, first_checkpoint vec l = Some (m, c) /\ m ∈ vec /\ l !! m = Some x /\ checkpoint x = Some c.
Proof.
  unfold checkpoints_in. induction vec as [|m vec IH]; cbn; [done|]. unfold has_checkpoint at 1.
  destruct (l !! m) as [x|] eqn:Ex; cbn; [destruct (checkpoint x) as [c|] eqn:Ec|].
  - intros _. exists m, x, c. split_and!; [done|left|done|done].
  - intros H. destruct (IH H) as (m' & x' & c' & H1 & H2 & H3). exists m', x', c'. split_and!; [done|by right|apply H3..].
  - intros H. destruct (IH H) as (m' & x' & c' & H1 & H2 & H3). exists m', x', c'. split_and!; [done|by right|apply H3..].
Qed.

Lemma mark_in_vector s k m x : timeline_ok s -> m ∈ vector_of k s -> store s !! m = Some x -> mkey x = k.
Proof.
  intros Hok (j & Hj)%list_elem_of_lookup Hx. destruct (to_vectors s Hok k) as (ps & [Hn _ Hk] & _).
  destruct (Forall2_lookup_l _ _ _ _ _ Hn Hj) as (p & Hp & y & Hy & Hky & _). rewrite Hx in Hy. injection Hy as <-.
  rewrite Hky. rewrite Forall_forall in Hk. by apply Hk, (list_elem_of_lookup_2 _ j).
Qed.

(** [seek_to_before_key] ends before the key, or at the start, and passes over no checkpoint before the key. *)
Lemma seek_to_before_key_ok s k : timeline_ok s ->
  exists s', seek_to_before_key k s = (Ok tt, s') /\ timeline_ok s' /\ sought s s' /\
    (key_ltb (key_at (idx (current s'))) k = true \/ idx (current s') = O) /\
    (forall m x, store s !! m = Some x -> checkpoint x <> None -> key_ltb (mkey x) k = true ->
       key_leb (mkey x) (key_at (idx (current s'))) = true).
Proof.
  intros Hok. unfold seek_to_before_key. rewrite (bind_ok (ask marks_with_checkpoints) _ s _ s eq_refl), (bind_ok (ask current) _ s _ s eq_refl).
  rewrite key_of. pose proof (last_before_ok k _ (to_sorted s Hok)) as Hlast.
  assert (forall m x, store s !! m = Some x -> checkpoint x <> None -> mkey x ∈ map fst (marks_with_checkpoints s)) as Hcounted.
  { intros m x Hx Hc. apply count_in. by apply (some_checkpoint_counted s m x). }
  destruct (last_before k (marks_with_checkpoints s)) as [k'|].
  2: { assert (forall c m x, store s !! m = Some x -> checkpoint x <> None -> key_ltb (mkey x) k = true -> key_leb (mkey x) (key_at c) = true) as Hnone.
       { intros c m x Hx Hc Hlt. rewrite (Hlast (mkey x)) in Hlt; [done|]. by eapply Hcounted. }
       destruct (key_ltb (key_at (idx (current s))) k) eqn:El.
       - exists s. split_and!; try done; [by left|apply Hnone].
       - eexists. split; [done|]. cbn. rewrite restarted_first. split_and!; [|done|by right|apply Hnone].
         destruct Hok as [T1 T2 T3 T4 T5 T6 T7]. by split. }
  destruct Hlast as (L1 & L2 & L3).
  destruct (key_ltb k' (key_at (idx (current s))) && key_ltb (key_at (idx (current s))) k) eqn:El.
  { apply andb_true_iff in El as [E1 E2]. exists s. split_and!; try done; [by left|].
    intros m x Hx Hc Hlt. apply (key_leb_trans _ k'); [apply L3; [by eapply Hcounted|done]|].
    by apply key_ltb_leb. }
  rewrite (bind_ok (ask (vector_of k')) _ s _ s eq_refl), (bind_ok (ask store) _ s _ s eq_refl).
  destruct (first_checkpoint_ok (store s) (vector_of k' s)) as (m & x & c & Hf & Hin & Hx & Hc).
  { rewrite <- (to_counts s Hok). pose proof (to_positive s Hok) as Hp. clear - L1 Hp. induction Hp as [|[k1 n] l Hn Hp IH]; cbn in *.
    - by apply elem_of_nil in L1.
    - destruct (bool_decide_reflect (k' = k1)); [done|]. apply elem_of_cons in L1 as [?|L1]; [done|by apply IH]. }
  rewrite Hf. destruct (go_to_checkpoint_sought s m x c Hok Hx Hc) as (s' & Hrun & Hok' & Hcur & Hsk). exists s'.
  pose proof (to_checkpoints s Hok m x Hx) as Hcp. unfold checkpoint_ok in Hcp. rewrite Hc in Hcp. destruct Hcp as [(y & Hy & Hky & _) _].
  rewrite Hx in Hy. injection Hy as <-. rewrite (mark_in_vector s k' m x Hok Hin Hx) in Hky. rewrite Hcur, <- Hky.
  split_and!; try done; [by left|]. intros m1 x1 Hx1 Hc1 Hlt. apply L3; [by eapply Hcounted|done].
Qed.

Lemma checkpoint_up_to_ok l m p m' c vec : forall ps b,
  Forall2 (names l) vec ps -> StronglySorted lt ps -> (b = true -> forall q, q ∈ ps -> (q <= p)%nat) -> names l m p ->
  checkpoint_up_to m b (rev vec) l = Some (m', c) ->
  m' ∈ vec /\ (exists x, l !! m' = Some x /\ checkpoint x = Some c) /\ forall q, names l m' q -> (q <= p)%nat.
Proof.
  induction vec as [|x vec IH] using rev_ind; intros ps b Hn Hs Hb Hm Hc; [done|].
  apply Forall2_app_inv_l in Hn as (ps1 & [|q [|]] & Hn1 & Hn2 & ->); [by inversion Hn2| |by apply Forall2_length in Hn2].
  apply Forall2_cons_1 in Hn2 as [Hx _]. apply sorted_app_inv in Hs as (S1 & _ & S3). rewrite rev_app_distr in Hc. cbn in Hc.
  set (b' := b || bool_decide (x = m)) in Hc.
  assert (b' = true -> (q <= p)%nat) as Hq.
  { unfold b'. destruct b; cbn; [intros _; apply Hb; [done|apply elem_of_app; right; left]|].
    intros ->%bool_decide_eq_true. by rewrite (names_unique _ _ _ _ Hx Hm). }
  assert (forall r, r ∈ ps1 -> (r < q)%nat) as Hlt by (intros r Hr; apply S3; [done|left]).
  assert (checkpoint_up_to m b' (rev vec) l = Some (m', c) ->
    m' ∈ vec ++ [x] /\ (exists x, l !! m' = Some x /\ checkpoint x = Some c) /\ forall q, names l m' q -> (q <= p)%nat) as Hrest.
  { intros Hc'. destruct (IH ps1 b' Hn1 S1) as (H1 & H2 & H3); try done.
    - intros Eb r Hr. specialize (Hq Eb). specialize (Hlt r Hr). lia.
    - split_and!; [apply elem_of_app; by left|done|done]. }
  destruct b'; [|by apply Hrest]. destruct (l !! x) as [y|] eqn:Ey; cbn in Hc; [|by apply Hrest].
  destruct (checkpoint y) as [c'|] eqn:Ec; [|by apply Hrest]. injection Hc as -> ->.
  split_and!; [apply elem_of_app; right; left|by exists y|]. intros r Hr. rewrite (names_unique _ _ _ _ Hr Hx). by apply Hq.
Qed.

Lemma not_after_ok s m1 m2 p1 p2 : timeline_ok s -> names (store s) m1 p1 -> names (store s) m2 p2 ->
  not_after m1 m2 s = (Ok (p1 <=? p2)%nat, s).
Proof.
  intros Hok H1 H2. unfold not_after. rewrite (bind_ok _ _ _ _ _ (less_than_ok s m2 m1 p2 p1 Hok H2 H1)).
  assert (negb (p2 <? p1) = (p1 <=? p2))%nat as <-; [|done]. destruct (Nat.ltb_spec p2 p1), (Nat.leb_spec p1 p2); cbn; lia.
Qed.

Lemma stay_ok fuel s m p : timeline_ok s -> names (store s) m p -> state_at (idx (current s)) <> None ->
  (steps_left (current s) < fuel)%nat ->
  exists b s1, (if bool_decide (key_at (idx (current s)) = key_at p) then cm ← mark fuel; not_after cm m else mret false) s = (Ok b, s1) /\
    timeline_ok s1 /\ marked s s1 /\ (b = true -> (idx (current s1) <= p)%nat /\ key_at (idx (current s1)) = key_at p).
Proof.
  intros Hok Hn Ht Hfuel. destruct (bool_decide_reflect (key_at (idx (current s)) = key_at p)) as [Ek|]; [|by exists false, s].
  destruct (mark_ok fuel s Hok Ht Hfuel) as (cm & s1 & Hm & Hok1 & Hmk & Hcm). rewrite (bind_ok _ _ _ _ _ Hm).
  exists (idx (current s1) <=? p)%nat, s1. split_and!; try done.
  - apply not_after_ok; [done|done|by apply (names_marked s)].
  - intros H%Nat.leb_le. split; [done|]. by rewrite (mk_idx _ _ Hmk).
Qed.

(** [seek_up_to_mark] never goes past the mark; it is left at or after the key of every checkpoint before it. *)
Lemma seek_up_to_mark_ok fuel s m p : timeline_ok s -> names (store s) m p -> state_at (idx (current s)) <> None ->
  (steps_left (current s) < fuel)%nat ->
  exists s', seek_up_to_mark fuel m s = (Ok tt, s') /\ timeline_ok s' /\ sought s s' /\ (idx (current s') <= p)%nat /\
    (forall m1 x, store s !! m1 = Some x -> checkpoint x <> None -> key_ltb (mkey x) (key_at p) = true ->
       key_leb (mkey x) (key_at (idx (current s'))) = true).
Proof.
  intros Hok Hn Ht Hfuel. pose proof Hn as (x & Hx & Hk & _). unfold seek_up_to_mark.
  rewrite (bind_ok _ _ _ _ _ (the_mark_eq _ _ _ Hx)), (bind_ok (ask current) _ s _ s eq_refl), key_of, Hk.
  destruct (stay_ok fuel s m p Hok Hn Ht Hfuel) as (b & s1 & Hrun & Hok1 & Hmk & Hb).
  rewrite (bind_ok _ _ _ _ _ Hrun). destruct b.
  { destruct (Hb eq_refl) as [Hle Hkk]. exists s1. split_and!; try done; [by apply marked_sought|].
    intros m1 x1 _ _. rewrite Hkk. apply key_ltb_leb. }
  clear Hb Hrun. pose proof (names_marked _ _ _ _ Hmk Hn) as Hn1.
  rewrite (bind_ok (ask (vector_of (key_at p))) _ s1 _ s1 eq_refl), (bind_ok (ask store) _ s1 _ s1 eq_refl).
  destruct (to_vectors s1 Hok1 (key_at p)) as (ps & Hv & _).
  destruct (checkpoint_up_to m false (rev (vector_of (key_at p) s1)) (store s1)) as [[m' c]|] eqn:Ec.
  - destruct (checkpoint_up_to_ok (store s1) m p m' c _ ps false (vo_names _ _ _ _ Hv) (vo_sorted _ _ _ _ Hv)) as (Hin & (y & Hy & Hyc) & Hle);
      try done.
    destruct (go_to_checkpoint_sought s1 m' y c Hok1 Hy Hyc) as (s' & Hgo & Hok' & Hcur & Hsk). exists s'.
    pose proof (to_checkpoints s1 Hok1 m' y Hy) as Hcp. unfold checkpoint_ok in Hcp. rewrite Hyc in Hcp. destruct Hcp as [Hnc _].
    split_and!; try done; [by eapply sought_trans; [apply marked_sought|]|rewrite Hcur; by apply Hle|].
    intros m1 x1 _ _ Hlt. rewrite Hcur. destruct Hnc as (y' & Hy' & Hky & _). rewrite Hy in Hy'. injection Hy' as <-.
    rewrite <- Hky, (mark_in_vector s1 _ m' y Hok1 Hin Hy). by apply key_ltb_leb.
  - destruct (seek_to_before_key_ok s1 (key_at p) Hok1) as (s' & Hgo & Hok' & Hsk & Hbefore & Hnear). exists s'.
    split_and!; try done; [by eapply sought_trans; [apply marked_sought|]| |].
    + destruct Hbefore as [H| ->]; [apply key_before in H; lia|lia].
    + intros m1 x1 Hx1. apply (Hnear m1). by apply (mk_old _ _ Hmk).
Qed.

(** ** Which checkpoints are discarded *)

Notation entry := (nat * Z)%type.

(** The entries [excess] leaves. *)
Fixpoint survivors (fuel : nat) (now len : Z) (allowed kept : nat) (l : list entry) : list entry :=
  match fuel with
  | O => l
  | S fuel =>
      let n := in_range (s64 (now - len)) l in
      let d := ((kept + n) - allowed)%nat in
      drop d (take n l) ++ survivors fuel now (next_interval_length len) (S allowed) ((kept + n) - d)%nat (drop n l)
  end.

Definition within (start : Z) (l : list entry) : nat := length (List.filter (fun e => start <=? snd e) l).

Notation descending l := (StronglySorted (fun a b : entry => snd b <= snd a) l).

Lemma in_range_split start l : descending l ->
  (in_range start l <= length l)%nat /\ within start (drop (in_range start l) l) = O.
Proof.
  induction l as [|[m p] l IH]; intros Hs; [done|]. apply StronglySorted_inv in Hs as [Hs Hall]. cbn [in_range].
  destruct (Z.leb_spec start p) as [Hp|Hp]; cbn [drop length]; [destruct (IH Hs); split; [lia|done]|]. split; [lia|].
  unfold within. rewrite filter_keeps_none; [done|]. intros e [->|He]%elem_of_cons; cbn; [lia|]. rewrite Forall_forall in Hall.
  specialize (Hall e He). cbn in Hall. lia.
Qed.

Lemma in_range_all start l : (forall e, e ∈ l -> start <= snd e) -> in_range start l = length l.
Proof.
  induction l as [|[m p] l IH]; intros H; [done|]. cbn. pose proof (H (m, p) ltac:(left)) as Hp. cbn in Hp.
  apply Z.leb_le in Hp as ->. f_equal. apply IH. intros e He. apply H. by right.
Qed.

Lemma within_app start a b : within start (a ++ b) = (within start a + within start b)%nat.
Proof. unfold within. by rewrite List.filter_app, length_app. Qed.

Lemma within_length start a : (within start a <= length a)%nat.
Proof. unfold within. apply List.filter_length_le. Qed.

Lemma within_parts start n l : (within start (drop n l) <= within start l)%nat /\ (within start (take n l) <= within start l)%nat.
Proof. rewrite <- (take_drop n l) at 2 4. rewrite within_app. lia. Qed.

Lemma sorted_drop {X} (P : X -> X -> Prop) n l : StronglySorted P l -> StronglySorted P (drop n l).
Proof. revert n. induction l as [|x l IH]; intros [|n] H; try done. apply StronglySorted_inv in H as [H _]. by apply IH. Qed.

Lemma survivors_nil fuel now len allowed kept : survivors fuel now len allowed kept [] = [].
Proof. revert len allowed kept. induction fuel as [|fuel IH]; intros; [done|]. cbn [survivors in_range take]. by rewrite drop_nil, IH. Qed.

Lemma survivors_none start fuel : forall now len allowed kept l,
  within start l = O -> within start (survivors fuel now len allowed kept l) = O.
Proof.
  induction fuel as [|fuel IH]; intros now len allowed kept l Hl; [done|]. cbn [survivors]. set (n := in_range _ l).
  destruct (within_parts start n l). rewrite within_app, IH by lia. destruct (within_parts start (kept + n - allowed) (take n l)). lia.
Qed.

Fixpoint interval_length (len : Z) (i : nat) : Z :=
  match i with O => len | S i => interval_length (next_interval_length len) i end.

(** Some interval within the fuel has all of [l]. *)
Definition reached (fuel : nat) (now len : Z) (l : list entry) : Prop :=
  exists i, (i < fuel)%nat /\ forall e, e ∈ l -> s64 (now - interval_length len i) <= snd e.

Lemma reached_next fuel now len l : let n := in_range (s64 (now - len)) l in
  reached (S fuel) now len l -> drop n l = [] \/ reached fuel now (next_interval_length len) (drop n l).
Proof.
  intros n (i & Hi & H). destruct i as [|i].
  - left. cbn in H. unfold n. rewrite (in_range_all _ _ H). by apply drop_ge.
  - right. exists i. split; [lia|]. intros e (j & Hj)%list_elem_of_lookup. apply (H e).
    rewrite lookup_drop in Hj. by eapply list_elem_of_lookup_2.
Qed.

(** At most as many survive in an interval as are allowed there. *)
Lemma survivors_few fuel : forall now len allowed kept l,
  descending l -> (kept <= allowed)%nat -> reached fuel now len l ->
  forall i, (kept + within (s64 (now - interval_length len i)) (survivors fuel now len allowed kept l) <= allowed + i)%nat.
Proof.
  induction fuel as [|fuel IH]; intros now len allowed kept l Hs Hk Hr i; [destruct Hr as (? & ? & _); lia|]. cbn [survivors].
  pose proof (reached_next fuel now len l Hr) as Hr'. cbn zeta in Hr'.
  set (n := in_range (s64 (now - len)) l) in *. set (d := (kept + n - allowed)%nat).
  destruct (in_range_split (s64 (now - len)) l Hs) as [Hn Hrest]. fold n in Hn, Hrest.
  assert (length (drop d (take n l)) = n - d)%nat as Hl by (rewrite length_drop, length_take; lia).
  pose proof (within_length (s64 (now - interval_length len i)) (drop d (take n l))) as Hw. rewrite within_app.
  destruct i as [|i].
  - cbn [interval_length] in *. rewrite (survivors_none _ fuel _ _ _ _ _ Hrest). lia.
  - destruct Hr' as [-> | Hr']; [rewrite survivors_nil; change (within _ []) with O; lia|].
    pose proof (IH now (next_interval_length len) (S allowed) (kept + n - d)%nat (drop n l) (sorted_drop _ _ _ Hs) ltac:(lia) Hr' i) as H.
    cbn [interval_length] in *. lia.
Qed.

Lemma filter_keeps_all {X} (f : X -> bool) (l : list X) : (forall x, x ∈ l -> f x = true) -> List.filter f l = l.
Proof.
  induction l as [|x l IH]; intros H; [done|]. cbn. rewrite (H x) by left. f_equal. apply IH. intros y Hy. apply H. by right.
Qed.

Definition without (D : list nat) (l : list entry) : list entry := List.filter (fun e => negb (bool_decide (fst e ∈ D))) l.

Lemma without_parts (a b c : list entry) r : NoDup (map fst (a ++ b ++ c)) -> (forall m, m ∈ r -> m ∈ map fst c) ->
  without (map fst a ++ r) (a ++ b ++ c) = b ++ without r c.
Proof.
  rewrite !map_app. intros (Ha & Hac & (Hb & Hbc & Hc)%list_relations.list.NoDup_app)%list_relations.list.NoDup_app Hr.
  assert (forall (l : list entry) e, e ∈ l -> fst e ∈ map fst l) as Hin by (intros l e He; by apply list_elem_of_fmap_2).
  unfold without. rewrite !List.filter_app, (filter_keeps_none _ a), (filter_keeps_all _ b); cbn [app].
  - f_equal. apply List.filter_ext_in. intros e He%list_elem_of_In. f_equal. apply bool_decide_ext. rewrite elem_of_app.
    split; [intros [H|H]; [|done]|by right]. destruct (Hac _ H). apply elem_of_app. right. by apply Hin.
  - intros e He. rewrite bool_decide_eq_false_2; [done|]. rewrite elem_of_app. intros [H|H].
    + apply (Hac _ H), elem_of_app. left. by apply Hin.
    + apply (Hbc (fst e)); [by apply Hin|by apply Hr].
  - intros e He. rewrite bool_decide_eq_true_2; [done|]. apply elem_of_app. left. by apply Hin.
Qed.

(** [excess] finds the entries that do not survive. *)
Lemma excess_ok fuel : forall now len allowed kept l,
  (kept <= allowed)%nat -> reached fuel now len l -> NoDup (map fst l) ->
  exists D, excess fuel now len allowed kept l = Ok D /\ NoDup D /\ (forall m, m ∈ D -> m ∈ map fst l) /\
    without D l = survivors fuel now len allowed kept l.
Proof.
  induction fuel as [|fuel IH]; intros now len allowed kept l Hk Hr Hd; [destruct Hr as (? & ? & _); lia|]. cbn [excess survivors].
  pose proof (reached_next fuel now len l Hr) as Hr'. cbn zeta in Hr'.
  set (n := in_range (s64 (now - len)) l) in *. set (d := (kept + n - allowed)%nat).
  assert (l = take d l ++ drop d (take n l) ++ drop n l) as Hl.
  { transitivity ((take d (take n l) ++ drop d (take n l)) ++ drop n l); [by rewrite !take_drop|].
    rewrite take_take, Nat.min_l by lia. by rewrite app_assoc. }
  pose proof Hd as Hd'. rewrite Hl, !map_app in Hd'. apply list_relations.list.NoDup_app in Hd' as (HdA & HdAC & HdBC).
  apply list_relations.list.NoDup_app in HdBC as (_ & _ & HdC).
  assert (exists r, (match drop n l with [] => Ok (map fst (take d l)) | _ =>
      r ← excess fuel now (next_interval_length len) (S allowed) (kept + n - d)%nat (drop n l); Ok (map fst (take d l) ++ r) end) =
      Ok (map fst (take d l) ++ r) /\ NoDup r /\ (forall m, m ∈ r -> m ∈ map fst (drop n l)) /\
      without r (drop n l) = survivors fuel now (next_interval_length len) (S allowed) (kept + n - d)%nat (drop n l)) as (r & H1 & H2 & H3 & H4).
  { destruct Hr' as [-> | Hr']; [exists []; split_and!; [by rewrite app_nil_r|constructor|by intros m H%elem_of_nil|by rewrite survivors_nil]|].
    destruct (IH now (next_interval_length len) (S allowed) (kept + n - d)%nat (drop n l)) as (r & H1 & H2 & H3 & H4); [lia|done|done|].
    destruct (drop n l) as [|e rest] eqn:Ed; [|exists r; by rewrite H1].
    exists []. split_and!; [by rewrite app_nil_r|constructor|by intros m H%elem_of_nil|by rewrite survivors_nil]. }
  exists (map fst (take d l) ++ r). split; [exact H1|]. split_and!.
  - apply list_relations.list.NoDup_app. split_and!; [done| |done]. intros m Hm Hm'. apply (HdAC m Hm), elem_of_app. right. by apply H3.
  - intros m [Hm|Hm]%elem_of_app; rewrite Hl, !map_app, !elem_of_app; [by left|right; right; by apply H3].
  - rewrite Hl at 2. rewrite without_parts; [by rewrite H4|by rewrite <- Hl|done].
Qed.

(** ** References the timeline holds *)

Definition before (l : list InternalMark) (a b : entry) : Prop :=
  exists p q, names l (fst a) p /\ names l (fst b) q /\ (p < q)%nat.

Definition owners (s : timeline) (m : nat) : Z :=
  (if bool_decide (m ∈ map fst (reverse_exec_checkpoints s)) then 1 else 0) +
  (if bool_decide (reverse_exec_short_checkpoint s = Some m) then 1 else 0).

(** A checkpoint for reverse execution and the short one hold a reference each; the former are in order. *)
Record owned (s : timeline) : Prop := {
  ow_refs : forall m, owners s m <= refs s m;
  ow_order : StronglySorted (before (store s)) (reverse_exec_checkpoints s) }.

Lemma before_grow l l' a b : (forall m p, names l m p -> names l' m p) -> before l a b -> before l' a b.
Proof. intros H (p & q & Hp & Hq & Hlt). exists p, q. split_and!; [by apply H..|done]. Qed.

Lemma sorted_impl {X} (P Q : X -> X -> Prop) l : (forall a b, P a b -> Q a b) -> StronglySorted P l -> StronglySorted Q l.
Proof. intros H Hs. induction Hs as [|x l Hs IH Hx]; [constructor|]. constructor; [done|]. eapply Forall_impl; [exact Hx|]. intros y. apply H. Qed.

Lemma ordered_filter {X} (P : X -> X -> Prop) (f : X -> bool) l : StronglySorted P l -> StronglySorted P (List.filter f l).
Proof.
  intros Hs. induction Hs as [|x l Hs IH Hx]; [constructor|]. cbn. destruct (f x); [|done]. constructor; [done|].
  rewrite Forall_forall in Hx |- *. intros y [Hy _]%list_elem_of_In%filter_In. by apply Hx, list_elem_of_In.
Qed.

Lemma sorted_prefix {X} (P : X -> X -> Prop) (a b : list X) : StronglySorted P (a ++ b) -> StronglySorted P a.
Proof.
  induction a as [|x a IH]; cbn; intros H; [constructor|]. apply StronglySorted_inv in H as [H Hx]. constructor; [by apply IH|].
  by apply Forall_app in Hx as [Hx _].
Qed.

Lemma sorted_nodup l es : StronglySorted (before l) es -> NoDup (map fst es).
Proof.
  intros Hs. induction Hs as [|x es Hs IH Hx]; [constructor|]. constructor; [|done]. intros (y & Hxy & Hy%list_elem_of_In)%list_elem_of_In%in_map_iff.
  rewrite Forall_forall in Hx. destruct (Hx y Hy) as (p & q & Hp & Hq & Hlt). rewrite <- Hxy in Hp.
  rewrite (names_unique _ _ _ _ Hp Hq) in Hlt. lia.
Qed.

(** What discarding leaves alone. *)
Record revised (s s' : timeline) : Prop := {
  rv_current : current s' = current s;
  rv_names : forall m p, names (store s) m p -> names (store s') m p;
  rv_short : reverse_exec_short_checkpoint s' = reverse_exec_short_checkpoint s }.

Lemma revised_refl s : revised s s.
Proof. by split. Qed.

Lemma revised_trans s1 s2 s3 : revised s1 s2 -> revised s2 s3 -> revised s1 s3.
Proof. intros [A1 A2 A3] [B1 B2 B3]. split; try congruence. auto. Qed.

Lemma put_reverse_ok l s : timeline_ok s -> timeline_ok (put_reverse l s).
Proof. intros [T1 T2 T3 T4 T5 T6 T7]. by split. Qed.

Lemma remove_keeps_current s s' m : remove_explicit_checkpoint m s = (Ok tt, s') -> current s' = current s.
Proof.
  unfold remove_explicit_checkpoint. intros (x & s1 & H1 & H)%bind_Ok_inv. unfold the_mark, mbind, TM_bind, ask in H1.
  destruct (store s !! m); [|done]. injection H1 as -> <-.
  apply bind_Ok_inv in H as ([] & s1 & [Hb ->]%ASSERT_Ok_inv & H). apply bind_Ok_inv in H as ([] & s1 & H1 & H). injection H1 as <-.
  destruct (_ =? 0); [|by injection H as <-]. apply bind_Ok_inv in H as ([] & s1 & H1 & H). injection H1 as <-.
  unfold remove_mark_with_checkpoint in H. apply bind_Ok_inv in H as (l & s1 & H1 & H). injection H1 as <- <-.
  apply bind_Ok_inv in H as ([] & s1 & [_ ->]%ASSERT_Ok_inv & H). by injection H as <-.
Qed.

(** One entry of [reverse_exec_checkpoints] is discarded. *)
Lemma discard_one_ok s m l : timeline_ok s -> owned s -> m ∈ map fst (reverse_exec_checkpoints s) ->
  StronglySorted (before (store s)) l -> (forall m', m' ∈ map fst l <-> m' ∈ map fst (reverse_exec_checkpoints s) /\ m' <> m) ->
  exists s', remove_explicit_checkpoint m s = (Ok tt, s') /\ reverse_exec_checkpoints s' = reverse_exec_checkpoints s /\
    timeline_ok (put_reverse l s') /\ owned (put_reverse l s') /\ revised s (put_reverse l s').
Proof.
  intros Hok [Ho1 Ho2] Hm Hs Hl.
  assert (1 <= owners s m) as Hmo.
  { unfold owners. rewrite bool_decide_eq_true_2 by done. destruct (bool_decide (_ = Some m)); lia. }
  pose proof (Ho1 m) as Hom.
  destruct (remove_explicit_checkpoint_ok s m Hok ltac:(lia)) as (s' & Hrun & Hok' & Hk & Hr). exists s'.
  split_and!; [done|apply (kp_reverse _ _ Hk)|by apply put_reverse_ok| |].
  - split.
    + intros m'. change (refs (put_reverse l s') m') with (refs s' m'). rewrite (Hr m'). specialize (Ho1 m'). unfold owners in *.
      cbn [reverse_exec_checkpoints reverse_exec_short_checkpoint put_reverse]. rewrite (kp_short _ _ Hk).
      destruct (bool_decide_reflect (m' = m)) as [->|Hne].
      * rewrite (bool_decide_eq_false_2 (m ∈ map fst l)) by (rewrite Hl; tauto).
        rewrite (bool_decide_eq_true_2 (m ∈ map fst (reverse_exec_checkpoints s))) in Ho1 by done. lia.
      * assert (bool_decide (m' ∈ map fst l) = bool_decide (m' ∈ map fst (reverse_exec_checkpoints s))) as ->.
        { apply bool_decide_ext. rewrite Hl. tauto. }
        lia.
    + cbn. eapply sorted_impl; [|exact Hs]. intros a b. apply before_grow, (kp_names _ _ Hk).
  - split; [exact (remove_keeps_current s s' m Hrun)|apply (kp_names _ _ Hk)|apply (kp_short _ _ Hk)].
Qed.

Lemma discard_all_ok D : forall s, timeline_ok s -> owned s -> NoDup D -> (forall m, m ∈ D -> m ∈ map fst (reverse_exec_checkpoints s)) ->
  exists s', discard_all D s = (Ok tt, s') /\ timeline_ok s' /\ owned s' /\ revised s s' /\
    reverse_exec_checkpoints s' = without D (reverse_exec_checkpoints s).
Proof.
  induction D as [|m D IH]; intros s Hok How Hd Hin; cbn [discard_all].
  { exists s. split_and!; try done. symmetry. by apply filter_keeps_all. }
  apply NoDup_cons in Hd as [Hm Hd]. set (es := reverse_exec_checkpoints s) in *.
  set (l := List.filter (fun x : entry => negb (bool_decide (fst x = m))) es).
  assert (forall m', m' ∈ map fst l <-> m' ∈ map fst es /\ m' <> m) as Hl.
  { intros m'. unfold l. rewrite !list_elem_of_In, !in_map_iff. setoid_rewrite filter_In. setoid_rewrite negb_true_iff.
    setoid_rewrite bool_decide_eq_false. split; [intros (e & <- & He & Hne); eauto|intros [(e & <- & He) Hne]; eauto]. }
  destruct (discard_one_ok s m l Hok How) as (s1 & H1 & He & Hok1 & How1 & Hrv); try done.
  { apply Hin. left. }
  { apply ordered_filter, (ow_order s How). }
  rewrite (bind_ok _ _ _ _ _ H1), (bind_ok (change _) _ s1 tt (put_reverse l s1)) by (unfold change; by rewrite He).
  destruct (IH (put_reverse l s1) Hok1 How1 Hd) as (s' & H2 & Hok2 & How2 & Hrv2 & Hrev).
  { intros m' Hm'. cbn. apply Hl. split; [apply Hin; by right|]. by intros ->. }
  exists s'. split_and!; try done; [by eapply revised_trans|]. rewrite Hrev. cbn. unfold without, l. clear.
  induction es as [|e es IH]; [done|]. cbn. destruct (bool_decide_reflect (fst e = m)) as [->|Hne]; cbn.
  - rewrite (bool_decide_eq_true_2 (m ∈ m :: D)) by left. done.
  - assert (bool_decide (fst e ∈ m :: D) = bool_decide (fst e ∈ D)) as ->; [|by destruct (bool_decide (fst e ∈ D)); cbn; rewrite IH].
    apply bool_decide_ext. rewrite elem_of_cons. split; [intros [?|?]; done|by right].
Qed.

(** Entries up to now, from the last. *)
Fixpoint past (now : Z) (l : list entry) : list entry :=
  match l with [] => [] | (m, p) :: l => if p <=? now then (m, p) :: l else past now l end.

Lemma past_suffix now l : exists a, l = a ++ past now l.
Proof.
  induction l as [|[m p] l (a & IH)]; [by exists []|]. cbn. destruct (p <=? now); [by exists []|]. exists ((m, p) :: a). cbn. by rewrite <- IH.
Qed.

Lemma discard_from_end_ok now l : forall s, timeline_ok s -> owned s -> reverse_exec_checkpoints s = rev l ->
  exists s', discard_from_end now l s = (Ok tt, s') /\ timeline_ok s' /\ owned s' /\ revised s s' /\
    reverse_exec_checkpoints s' = rev (past now l).
Proof.
  induction l as [|[m p] l IH]; intros s Hok How Hrev; cbn [discard_from_end past].
  { by exists s. }
  destruct (p <=? now); [by exists s|]. cbn in Hrev.
  pose proof (ow_order s How) as Ho. rewrite Hrev in Ho. pose proof (sorted_nodup _ _ Ho) as Hd. rewrite map_app in Hd.
  apply list_relations.list.NoDup_app in Hd as (_ & Hd & _).
  destruct (discard_one_ok s m (rev l) Hok How) as (s1 & H1 & He & Hok1 & How1 & Hrv).
  - rewrite Hrev, map_app, elem_of_app. right. left.
  - by eapply sorted_prefix.
  - intros m'. rewrite Hrev, map_app, elem_of_app. cbn. rewrite list_elem_of_singleton. split.
    + intros H. split; [by left|]. intros ->. apply (Hd m H). left.
    + by intros [[H|H] Hne].
  - rewrite (bind_ok _ _ _ _ _ H1), (bind_ok (change _) _ s1 tt (put_reverse (rev l) s1) eq_refl).
    destruct (IH (put_reverse (rev l) s1) Hok1 How1 eq_refl) as (s' & H2 & Hok2 & How2 & Hrv2 & Hr2).
    exists s'. split_and!; try done. by eapply revised_trans.
Qed.

Lemma within_rev start l : within start (rev l) = within start l.
Proof. unfold within. by rewrite List.filter_rev, length_rev. Qed.

(** The intervals reach back to the start of the recording. *)
Lemma intervals_reach now strategy l : 0 <= now < 2 ^ 57 -> Forall (fun e : entry => 0 <= snd e) l ->
  reached interval_fuel now (inter_checkpoint_interval strategy) l.
Proof.
  intros Hnow Hl. exists 43%nat. split; [unfold interval_fuel; lia|]. intros e He. rewrite Forall_forall in Hl. specialize (Hl e He).
  assert (2 ^ 57 <= interval_length (inter_checkpoint_interval strategy) 43 < 2 ^ 63) as Hlen by (destruct strategy; vm_compute; split; congruence).
  set (len := interval_length _ _) in *. rewrite wraps_small by lia. lia.
Qed.

Notation ascending l := (StronglySorted (fun a b : entry => snd a <= snd b) l).

Lemma elem_of_rev {X} (x : X) l : x ∈ rev l <-> x ∈ l.
Proof. rewrite !list_elem_of_In. symmetry. apply in_rev. Qed.

Lemma ascending_rev l : ascending l -> descending (rev l).
Proof.
  intros Hs. induction Hs as [|x l Hs IH Hx]; cbn; [constructor|]. rewrite Forall_forall in Hx.
  assert (forall a, (forall y, y ∈ a -> y ∈ l) -> descending a -> descending (a ++ [x])) as H; [|apply H; [|done]; intros y Hy; by apply elem_of_rev].
  induction a as [|y a IHa]; intros Ha Hd; cbn; [by repeat constructor|]. apply StronglySorted_inv in Hd as [Hd Hy]. constructor.
  - apply IHa; [intros z Hz; apply Ha; by right|done].
  - apply Forall_app. split; [done|]. constructor; [|constructor]. apply Hx, Ha. left.
Qed.

(** [discard_past_reverse_exec_checkpoints] leaves at most [i] checkpoints in interval [i]. *)
Lemma discard_past_ok strategy s : let now := estimate_progress (current s) in
  timeline_ok s -> owned s -> 0 <= now < 2 ^ 57 -> ascending (reverse_exec_checkpoints s) ->
  Forall (fun e => 0 <= snd e) (reverse_exec_checkpoints s) ->
  exists s' D, discard_past_reverse_exec_checkpoints strategy s = (Ok tt, s') /\ timeline_ok s' /\ owned s' /\ revised s s' /\
    reverse_exec_checkpoints s' = without D (reverse_exec_checkpoints s) /\
    forall i, (within (s64 (now - interval_length (inter_checkpoint_interval strategy) i)) (reverse_exec_checkpoints s') <= i)%nat.
Proof.
  intros now Hok How Hnow Has Hpos. set (es := reverse_exec_checkpoints s) in *. unfold discard_past_reverse_exec_checkpoints.
  rewrite (bind_ok (ask current) _ s _ s eq_refl), (bind_ok (ask reverse_exec_checkpoints) _ s _ s eq_refl). fold now es.
  assert (reached interval_fuel now (inter_checkpoint_interval strategy) (rev es)) as Hr.
  { apply intervals_reach; [done|]. apply Forall_forall. intros e He. rewrite Forall_forall in Hpos. by apply Hpos, elem_of_rev. }
  assert (NoDup (map fst (rev es))) as Hd.
  { rewrite map_rev. apply NoDup_ListNoDup, NoDup_rev, NoDup_ListNoDup, (sorted_nodup (store s)), (ow_order s How). }
  destruct (excess_ok interval_fuel now (inter_checkpoint_interval strategy) 0 0 (rev es) ltac:(lia) Hr Hd) as (D & Hex & HdD & HinD & Hsv).
  rewrite (bind_ok (liftT _) _ s D s) by (unfold liftT; by rewrite Hex).
  destruct (discard_all_ok D s Hok How HdD) as (s' & H1 & Hok' & How' & Hrv & Hrev).
  { intros m Hm. specialize (HinD m Hm). rewrite map_rev in HinD. by apply elem_of_rev. }
  exists s', D. split_and!; try done. intros i.
  pose proof (survivors_few interval_fuel now (inter_checkpoint_interval strategy) 0 0 (rev es) (ascending_rev _ Has) ltac:(lia) Hr i) as Hfew.
  rewrite Hrev, <- within_rev. fold es. unfold without in *. rewrite <- List.filter_rev, Hsv. lia.
Qed.

(** ** Adding one *)

(** A state has one mark. *)
Lemma names_inj s m1 m2 p : timeline_ok s -> names (store s) m1 p -> names (store s) m2 p -> m1 = m2.
Proof.
  intros Hok H1 H2. pose proof H1 as (x1 & Hx1 & Hk1 & _). pose proof H2 as (x2 & Hx2 & Hk2 & _).
  destruct (to_vectors s Hok (key_at p)) as (ps & [Hn Hs _] & _).
  pose proof (to_stored s Hok _ _ Hx1) as Hi1. pose proof (to_stored s Hok _ _ Hx2) as Hi2. rewrite Hk1 in Hi1. rewrite Hk2 in Hi2.
  apply list_elem_of_lookup in Hi1 as (j1 & Hj1), Hi2 as (j2 & Hj2).
  destruct (Forall2_lookup_l _ _ _ _ _ Hn Hj1) as (p1 & Hp1 & Hn1). destruct (Forall2_lookup_l _ _ _ _ _ Hn Hj2) as (p2 & Hp2 & Hn2).
  pose proof (names_unique _ _ _ _ Hn1 H1) as ->. pose proof (names_unique _ _ _ _ Hn2 H2) as ->.
  destruct (Nat.lt_trichotomy j1 j2) as [Hlt|[->|Hlt]]; [|congruence|].
  - pose proof (sorted_nth ps j1 j2 p p Hs Hp1 Hp2 Hlt). lia.
  - pose proof (sorted_nth ps j2 j1 p p Hs Hp2 Hp1 Hlt). lia.
Qed.

Lemma stored_names s m x : timeline_ok s -> store s !! m = Some x -> exists p, names (store s) m p.
Proof.
  intros Hok Hx. destruct (to_vectors s Hok (mkey x)) as (ps & [Hn _ _] & _).
  pose proof (to_stored s Hok m x Hx) as (j & Hj)%list_elem_of_lookup. destruct (Forall2_lookup_l _ _ _ _ _ Hn Hj) as (p & _ & H). by exists p.
Qed.

Lemma owned_names s m : timeline_ok s -> owned s -> 0 < owners s m -> exists p, names (store s) m p.
Proof.
  intros Hok How H. pose proof (ow_refs s How m) as Hr. unfold refs in Hr. destruct (store s !! m) as [x|] eqn:Hx; [|lia].
  by apply (stored_names s m x).
Qed.

Lemma reverse_assign_ok s m p q l : timeline_ok s -> names (store s) m q -> StronglySorted (before (store s)) l ->
  (forall e, e ∈ l -> exists r, names (store s) (fst e) r) ->
  exists l', reverse_assign m p l s = (Ok l', s) /\ StronglySorted (before (store s)) l' /\
    (forall m', m' ∈ map fst l' <-> m' = m \/ m' ∈ map fst l) /\
    (forall start, (within start l' <= S (within start l))%nat) /\ (forall e, e ∈ l' -> snd e = p \/ e ∈ l).
Proof.
  intros Hok Hm Hs Hnames. induction Hs as [|x l Hs IH Hx]; cbn [reverse_assign].
  { exists [(m, p)]. split_and!; try done; [by repeat constructor| |intros start; apply within_length|].
    - intros m'. cbn. rewrite list_elem_of_singleton. split; [by left|]. by intros [|H%elem_of_nil].
    - intros e ->%list_elem_of_singleton. by left. }
  destruct (Hnames x ltac:(left)) as (r & Hr). rewrite (bind_ok _ _ _ _ _ (less_than_ok s _ _ _ _ Hok Hr Hm)).
  destruct (Nat.ltb_spec r q) as [Hlt|Hge].
  - destruct (IH ltac:(intros e He; apply Hnames; by right)) as (l' & Hrun & H1 & H2 & H3 & H4). rewrite (bind_ok _ _ _ _ _ Hrun).
    exists (x :: l'). split_and!; [done| | | |].
    + constructor; [done|]. apply Forall_forall. intros e He. rewrite Forall_forall in Hx.
      assert (fst e ∈ map fst l') as [He'|He']%H2 by (by apply list_elem_of_fmap_2).
      * exists r, q. rewrite He'. done.
      * apply list_elem_of_In, in_map_iff in He' as (e' & Ee & He'%list_elem_of_In). destruct (Hx e' He') as (a & b & Ha & Hb & Hab).
        exists a, b. by rewrite <- Ee.
    + intros m'. cbn. rewrite !elem_of_cons, H2. tauto.
    + intros start. specialize (H3 start). unfold within in *. cbn. destruct (start <=? snd x); cbn; lia.
    + intros e [->|He]%elem_of_cons; [right; left|]. destruct (H4 e He); [by left|right; by right].
  - rewrite (bind_ok _ _ _ _ _ (less_than_ok s _ _ _ _ Hok Hm Hr)). eexists. split; [done|].
    destruct (Nat.ltb_spec q r) as [Hlt|Hge2].
    + split_and!.
      * constructor; [by constructor|]. constructor; [by exists q, r|]. eapply Forall_impl; [exact Hx|]. intros e (a & b & Ha & Hb & Hab).
        exists q, b. split_and!; try done. rewrite (names_unique _ _ _ _ Ha Hr) in Hab. lia.
      * intros m'. cbn. by rewrite elem_of_cons.
      * intros start. unfold within. cbn. destruct (start <=? p); cbn; lia.
      * intros e [->|He]%elem_of_cons; [by left|by right].
    + assert (r = q) as -> by lia. pose proof (names_inj s _ _ _ Hok Hr Hm) as Ex. split_and!.
      * constructor; [done|]. eapply Forall_impl; [exact Hx|]. intros e (a & b & Ha & Hb & Hab). exists a, b. by split_and!.
      * intros m'. cbn. rewrite !elem_of_cons, Ex. tauto.
      * intros start. unfold within. cbn. destruct (start <=? p), (start <=? snd x); cbn; lia.
      * intros e [->|He]%elem_of_cons; [by left|right; by right].
Qed.

Lemma past_le now l : descending l -> forall e, e ∈ past now l -> snd e <= now.
Proof.
  intros Hs. induction Hs as [|[m p] l Hs IH Hx]; cbn; [by intros e H%elem_of_nil|]. destruct (Z.leb_spec p now) as [Hp|Hp]; [|done].
  intros e [->|He]%elem_of_cons; [done|]. rewrite Forall_forall in Hx. specialize (Hx e He). cbn in Hx. lia.
Qed.

Lemma owned_kept s s' m n : owned s -> kept s s' -> ref_change s s' m n -> 0 <= n -> owned s'.
Proof.
  intros [H1 H2] [K1 K2 K3 K4 K5] Hr Hn. split.
  - intros m'. rewrite (Hr m'). specialize (H1 m'). unfold owners in *. rewrite K4, K5. destruct (bool_decide (m' = m)); lia.
  - rewrite K4. eapply sorted_impl; [|exact H2]. intros a b. by apply before_grow.
Qed.

(** What adding a checkpoint for reverse execution leaves alone. *)
Record same_place (s s' : timeline) : Prop := {
  sp_idx : idx (current s') = idx (current s);
  sp_names : forall m p, names (store s) m p -> names (store s') m p }.

Lemma revised_place s s' : revised s s' -> same_place s s'.
Proof. intros [V1 V2 V3]. split; [by rewrite V1|done]. Qed.

Lemma kept_place s s' : kept s s' -> same_place s s'.
Proof. intros [K1 K2 K3 K4 K5]. by split. Qed.

Lemma same_place_trans s1 s2 s3 : same_place s1 s2 -> same_place s2 s3 -> same_place s1 s3.
Proof. intros [A1 A2] [B1 B2]. split; [congruence|]. auto. Qed.

(** A checkpoint is added and entered. *)
Lemma enter_checkpoint_ok fuel now s : timeline_ok s -> owned s -> can_clone (current s) = true ->
  state_at (idx (current s)) <> None -> (steps_left (current s) < fuel)%nat ->
  exists s', (m ← add_explicit_checkpoint fuel; l ← ask reverse_exec_checkpoints; l ← reverse_assign m now l; change (put_reverse l)) s = (Ok tt, s') /\
    timeline_ok s' /\ owned s' /\ same_place s s' /\
    (forall start, (within start (reverse_exec_checkpoints s') <= S (within start (reverse_exec_checkpoints s)))%nat) /\
    (forall e, e ∈ reverse_exec_checkpoints s' -> snd e = now \/ e ∈ reverse_exec_checkpoints s).
Proof.
  intros Hok How Hc Ht Hf. destruct (add_explicit_checkpoint_ok fuel s Hok Hc Ht Hf) as (m & s1 & H1 & Hok1 & Hk & Hn & Hr).
  pose proof (owned_kept _ _ _ _ How Hk Hr ltac:(lia)) as How1. pose proof (kp_reverse _ _ Hk) as Erev.
  rewrite (bind_ok _ _ _ _ _ H1), (bind_ok (ask reverse_exec_checkpoints) _ s1 _ s1 eq_refl).
  destruct (reverse_assign_ok s1 m now (idx (current s1)) (reverse_exec_checkpoints s1) Hok1 Hn (ow_order s1 How1)) as (l' & Hrun & L1 & L2 & L3 & L4).
  { intros e He. apply (owned_names s1); [done|done|]. unfold owners. rewrite bool_decide_eq_true_2 by (by apply list_elem_of_fmap_2).
    destruct (bool_decide _); lia. }
  rewrite (bind_ok _ _ _ _ _ Hrun). eexists. split; [done|]. split_and!; [by apply put_reverse_ok| |by apply kept_place in Hk as [? ?]| |].
  - split; [|exact L1]. intros m'. change (refs (put_reverse l' s1) m') with (refs s1 m'). pose proof (ow_refs s How m') as Ho. rewrite (Hr m').
    unfold owners in *. cbn [reverse_exec_checkpoints reverse_exec_short_checkpoint put_reverse]. rewrite (kp_short _ _ Hk).
    destruct (bool_decide_reflect (m' = m)) as [->|Hne].
    + rewrite bool_decide_eq_true_2 by (apply L2; by left). destruct (bool_decide (m ∈ _)); lia.
    + rewrite (bool_decide_ext (m' ∈ map fst l') (m' ∈ map fst (reverse_exec_checkpoints s))) by (rewrite L2, Erev; tauto). lia.
  - intros start. cbn. rewrite <- Erev. apply L3.
  - intros e He. rewrite <- Erev. by apply L4.
Qed.

(** [maybe_add_reverse_exec_checkpoint] leaves no checkpoint of the future, and at most [i + 1] in interval [i]
    when it adds one. *)
Lemma maybe_add_ok fuel strategy s : let now := estimate_progress (current s) in
  timeline_ok s -> owned s -> 0 <= now < 2 ^ 57 -> ascending (reverse_exec_checkpoints s) ->
  Forall (fun e => 0 <= snd e) (reverse_exec_checkpoints s) -> state_at (idx (current s)) <> None -> (steps_left (current s) < fuel)%nat ->
  exists s', maybe_add_reverse_exec_checkpoint fuel strategy s = (Ok tt, s') /\ timeline_ok s' /\ owned s' /\ same_place s s' /\
    (forall e, e ∈ reverse_exec_checkpoints s' -> 0 <= snd e <= now) /\
    ((exists later, reverse_exec_checkpoints s = reverse_exec_checkpoints s' ++ later) \/
     forall i, (within (s64 (now - interval_length (inter_checkpoint_interval strategy) i)) (reverse_exec_checkpoints s') <= S i)%nat).
Proof.
  intros now Hok How Hnow Has Hpos Ht Hf. unfold maybe_add_reverse_exec_checkpoint, discard_future_reverse_exec_checkpoints.
  set (es := reverse_exec_checkpoints s) in *.
  destruct (discard_from_end_ok now (rev es) s Hok How) as (s1 & H1 & Hok1 & How1 & Hrv1 & Hrev1); [by rewrite rev_involutive|].
  assert (exists later, es = reverse_exec_checkpoints s1 ++ later) as Hlater.
  { destruct (past_suffix now (rev es)) as (a & Ha). exists (rev a). rewrite Hrev1, <- rev_app_distr, <- Ha. by rewrite rev_involutive. }
  assert (forall e, e ∈ reverse_exec_checkpoints s1 -> 0 <= snd e <= now) as Hle.
  { intros e He. split.
    - destruct Hlater as (later & El). rewrite El, Forall_forall in Hpos. apply Hpos, elem_of_app. by left.
    - rewrite Hrev1, elem_of_rev in He. revert e He. by apply past_le, ascending_rev. }
  rewrite (bind_ok _ _ s tt s1) by exact H1.
  rewrite (bind_ok (ask current) _ s1 _ s1 eq_refl), (bind_ok (ask reverse_exec_checkpoints) _ s1 _ s1 eq_refl), (rv_current _ _ Hrv1). fold now.
  assert (exists s', (Ok tt, s1) = (Ok tt, s') /\ timeline_ok s' /\ owned s' /\ same_place s s' /\
    (forall e, e ∈ reverse_exec_checkpoints s' -> 0 <= snd e <= now) /\
    ((exists later, es = reverse_exec_checkpoints s' ++ later) \/
     forall i, (within (s64 (now - interval_length (inter_checkpoint_interval strategy) i)) (reverse_exec_checkpoints s') <= S i)%nat)) as Hstay.
  { exists s1. split_and!; try done; [by apply revised_place|by left]. }
  destruct (match list_basics.list.last _ with Some _ => _ | None => _ end); [exact Hstay|].
  destruct (can_clone (current s)) eqn:Hc; cbn [negb]; [|exact Hstay]. clear Hstay.
  assert (Forall (fun e => 0 <= snd e) (reverse_exec_checkpoints s1) /\ ascending (reverse_exec_checkpoints s1)) as [Hpos1 Has1].
  { destruct Hlater as (later & El). rewrite El in Hpos, Has. split; [by apply Forall_app in Hpos as [? _]|by eapply sorted_prefix]. }
  destruct (discard_past_ok strategy s1) as (s2 & D & H2 & Hok2 & How2 & Hrv2 & Hrev2 & Hfew); rewrite ?(rv_current _ _ Hrv1) in *; try done.
  rewrite (bind_ok _ _ _ _ _ H2). pose proof (rv_current _ _ Hrv2) as Ec. rewrite (rv_current _ _ Hrv1) in Ec.
  destruct (enter_checkpoint_ok fuel now s2 Hok2 How2) as (s3 & H3 & Hok3 & How3 & Hsp & Hw & Hin); rewrite ?Ec; try done.
  exists s3. split_and!; try done.
  - eapply same_place_trans; [by apply revised_place, (revised_trans _ s1)|done].
  - intros e He. destruct (Hin e He) as [->|He2]; [cbn; lia|]. apply Hle. rewrite Hrev2 in He2. unfold without in He2.
    by apply list_elem_of_In, filter_In in He2 as [He2%list_elem_of_In _].
  - right. intros i. pose proof (Hw (s64 (now - interval_length (inter_checkpoint_interval strategy) i))). specialize (Hfew i). fold now in Hfew. lia.
Qed.

(** The intervals double in length: the interval that is [n] doublings above half a second is number [n], or [n + 4]
    when the first ones grow by a tenth of a second each. *)
Definition doublings (strategy : CheckpointStrategy) (n : nat) : nat := match strategy with LOW_OVERHEAD => n | _ => (n + 4)%nat end.

Lemma interval_doubles strategy n : (n <= 39)%nat ->
  interval_length (inter_checkpoint_interval strategy) (doublings strategy n) = low_overhead_inter_checkpoint_interval * 2 ^ Z.of_nat n.
Proof.
  intros Hn. apply Z.eqb_eq.
  pose proof (proj1 (forallb_forall (fun n => interval_length (inter_checkpoint_interval strategy) (doublings strategy n) =?
    low_overhead_inter_checkpoint_interval * 2 ^ Z.of_nat n) (seq 0 40))) as H. apply H; [by destruct strategy; vm_compute|].
  apply in_seq. lia.
Qed.

(** With few checkpoints in each interval there are few in all. *)
Lemma few_in_all strategy now (l : list entry) n :
  0 <= now < 2 ^ 57 -> (forall e, e ∈ l -> 0 <= snd e <= now) ->
  (forall i, (within (s64 (now - interval_length (inter_checkpoint_interval strategy) i)) l <= S i)%nat) ->
  now <= low_overhead_inter_checkpoint_interval * 2 ^ Z.of_nat n -> (length l <= n + 5)%nat.
Proof.
  intros Hnow Hl Hfew Hn. set (k := Nat.min n 39).
  assert (low_overhead_inter_checkpoint_interval * 2 ^ Z.of_nat k < 2 ^ 62) as Hhi.
  { assert (2 ^ Z.of_nat k <= 2 ^ 39) by (apply Z.pow_le_mono_r; lia). unfold low_overhead_inter_checkpoint_interval. lia. }
  assert (now <= low_overhead_inter_checkpoint_interval * 2 ^ Z.of_nat k) as Hk.
  { unfold k. destruct (Nat.min_spec n 39) as [[_ ->]|[_ ->]]; [done|]. unfold low_overhead_inter_checkpoint_interval. change (2 ^ Z.of_nat 39) with (2 ^ 39). lia. }
  specialize (Hfew (doublings strategy k)). rewrite interval_doubles in Hfew by (unfold k; lia). rewrite wraps_small in Hfew by lia.
  unfold within in Hfew. rewrite (List.forallb_filter_id _ l) in Hfew; cycle 1.
  { apply forallb_forall. intros e He%list_elem_of_In. specialize (Hl e He). apply Z.leb_le. lia. }
  unfold doublings in Hfew. destruct strategy; lia.
Qed.

(** [set_short_checkpoint] moves the reference to the mark of the current state. *)
Lemma set_short_ok fuel s : timeline_ok s -> owned s -> state_at (idx (current s)) <> None -> (steps_left (current s) < fuel)%nat ->
  exists m s', set_short_checkpoint fuel s = (Ok m, s') /\ timeline_ok s' /\ owned s' /\ same_place s s' /\ names (store s') m (idx (current s')).
Proof.
  intros Hok How Ht Hf. unfold set_short_checkpoint. rewrite (bind_ok (ask current) _ s _ s eq_refl).
  destruct (can_clone (current s)) eqn:Hc; cbn [negb].
  2: { destruct (mark_ok fuel s Hok Ht Hf) as (m & s1 & H1 & Hok1 & Hmk & Hn). exists m, s1. split_and!; try done.
       - apply (owned_kept s s1 m 0 How); [by apply marked_kept| |lia]. intros m'. rewrite (mk_refs _ _ Hmk). destruct (bool_decide (m' = m)); lia.
       - by apply kept_place, marked_kept. }
  destruct (add_explicit_checkpoint_ok fuel s Hok Hc Ht Hf) as (m & s1 & H1 & Hok1 & Hk & Hn & Hr). rewrite (bind_ok _ _ _ _ _ H1).
  rewrite (bind_ok (ask reverse_exec_short_checkpoint) _ s1 _ s1 eq_refl), (kp_short _ _ Hk).
  assert (exists s2, (match reverse_exec_short_checkpoint s with Some o => remove_explicit_checkpoint o | None => mret tt end) s1 = (Ok tt, s2) /\
    timeline_ok s2 /\ kept s1 s2 /\ forall m', refs s2 m' = refs s1 m' - if bool_decide (reverse_exec_short_checkpoint s = Some m') then 1 else 0)
    as (s2 & H2 & Hok2 & Hk2 & Hr2).
  { destruct (reverse_exec_short_checkpoint s) as [o|] eqn:Eo.
    - pose proof (ow_refs s How o) as Ho. assert (0 < refs s1 o) as Hpos.
      { rewrite (Hr o). unfold owners in Ho. rewrite Eo, (bool_decide_eq_true_2 (Some o = Some o)) in Ho by done.
        destruct (bool_decide (o = m)), (bool_decide (o ∈ _)); lia. }
      destruct (remove_explicit_checkpoint_ok s1 o Hok1 Hpos) as (s2 & H2 & Hok2 & Hk2 & Hr2). exists s2. split_and!; try done.
      intros m'. rewrite (Hr2 m'). rewrite (bool_decide_ext (Some o = Some m') (m' = o)) by (split; congruence). destruct (bool_decide (m' = o)); lia.
    - exists s1. split_and!; try done. intros m'. rewrite bool_decide_eq_false_2 by done. lia. }
  rewrite (bind_ok _ _ _ _ _ H2). eexists m, _. split; [done|]. split_and!.
  - destruct Hok2 as [T1 T2 T3 T4 T5 T6 T7]. by split.
  - split.
    + intros m'. change (refs (put_short (Some m) s2) m') with (refs s2 m'). rewrite (Hr2 m'), (Hr m').
      pose proof (ow_refs s How m') as Ho. unfold owners in *. cbn [reverse_exec_checkpoints reverse_exec_short_checkpoint put_short].
      rewrite (kp_reverse _ _ Hk2), (kp_reverse _ _ Hk). rewrite (bool_decide_ext (Some m = Some m') (m' = m)) by (split; congruence).
      destruct (bool_decide (m' = m)); lia.
    + cbn. rewrite (kp_reverse _ _ Hk2), (kp_reverse _ _ Hk). eapply sorted_impl; [|apply (ow_order s How)].
      intros a b H. apply (before_grow (store s1)); [apply (kp_names _ _ Hk2)|]. by apply (before_grow (store s)); [apply (kp_names _ _ Hk)|].
  - pose proof (same_place_trans _ _ _ (kept_place _ _ Hk) (kept_place _ _ Hk2)) as [S1 S2]. by split.
  - cbn. rewrite (kp_idx _ _ Hk2). by apply (kp_names _ _ Hk2).
Qed.

(** ** Breakpoints and watchpoints of the client *)

Definition situated (s s' : timeline) : Prop :=
  exists c b bs ws iv, s' = put_interval iv (put_watchpoints ws (put_breakpoints bs (put_applied b (put_current c s)))) /\
    idx c = idx (current s).

Lemma situated_refl s : situated s s.
Proof. exists (current s), (breakpoints_applied s), (breakpoints s), (watchpoints s), (no_watchpoints_hit_interval s). by destruct s. Qed.

Lemma situated_trans s1 s2 s3 : situated s1 s2 -> situated s2 s3 -> situated s1 s3.
Proof.
  intros (c & b & bs & ws & iv & -> & Hc) (c' & b' & bs' & ws' & iv' & -> & Hc'). exists c', b', bs', ws', iv'. cbn in *. split; [done|congruence].
Qed.

Definition situates {X} (f : T X) : Prop := forall s, situated s (f s).2.

Lemma situates_ret {X} (x : X) : situates (mret x).
Proof. intros s. apply situated_refl. Qed.

Lemma situates_bind {X Y} (f : T X) (k : X -> T Y) : situates f -> (forall x, situates (k x)) -> situates (x ← f; k x).
Proof.
  intros Hf Hk s. specialize (Hf s). unfold mbind, TM_bind. destruct (f s) as [[x|w] s1]; [|done]. cbn in Hf.
  eapply situated_trans; [exact Hf|apply Hk].
Qed.

Lemma situates_ask {X} (f : timeline -> X) : situates (ask f).
Proof. intros s. apply situated_refl. Qed.

Lemma situates_assert b : situates (ASSERT b).
Proof. intros s. destruct b; apply situated_refl. Qed.

Lemma situates_current {X} (f : session -> X * session) : (forall c, idx (f c).2 = idx c) -> situates (on_current f).
Proof.
  intros Hf s. unfold on_current, mbind, TM_bind, ask, change. specialize (Hf (current s)). destruct (f (current s)) as [x c']. cbn in *.
  exists c', (breakpoints_applied s), (breakpoints s), (watchpoints s), (no_watchpoints_hit_interval s). by destruct s.
Qed.

Lemma situates_current_ (f : session -> session) : (forall c, idx (f c) = idx c) -> situates (on_current_ f).
Proof.
  intros Hf s. exists (f (current s)), (breakpoints_applied s), (breakpoints s), (watchpoints s), (no_watchpoints_hit_interval s). by destruct s.
Qed.

Lemma situates_stays f : stays f -> situates f.
Proof.
  intros Hf s. destruct (Hf s) as (s' & -> & c & b & -> & Hi & _). exists c, b, (breakpoints s), (watchpoints s), (no_watchpoints_hit_interval s). by destruct s.
Qed.

Lemma situates_breakpoints g : situates (change (fun s => put_breakpoints (g s) s)).
Proof. intros s. exists (current s), (breakpoints_applied s), (g s), (watchpoints s), (no_watchpoints_hit_interval s). by destruct s. Qed.

Lemma situates_watchpoints g : situates (change (fun s => put_watchpoints (g s) s)).
Proof. intros s. exists (current s), (breakpoints_applied s), (breakpoints s), (g s), (no_watchpoints_hit_interval s). by destruct s. Qed.

Lemma situates_interval v : situates (change (put_interval v)).
Proof. intros s. exists (current s), (breakpoints_applied s), (breakpoints s), (watchpoints s), v. by destruct s. Qed.

Lemma apply_situates : situates apply_breakpoints_and_watchpoints.
Proof. apply situates_stays, apply_stays. Qed.

Lemma vm_add_breakpoint_situates u a : situates (on_current (vm_add_breakpoint u a)).
Proof. apply situates_current. intros c. apply add_breakpoint_same. Qed.

Lemma vm_remove_breakpoint_situates u a : situates (on_current_ (vm_remove_breakpoint u a)).
Proof. apply situates_current_. intros c. apply remove_breakpoint_same. Qed.

Lemma vm_add_watchpoint_situates u w : situates (on_current (vm_add_watchpoint u w)).
Proof. apply situates_current. intros c. apply add_watchpoint_same. Qed.

Lemma vm_remove_watchpoint_situates u w : situates (on_current_ (vm_remove_watchpoint u w)).
Proof. apply situates_current_. intros c. apply remove_watchpoint_same. Qed.

Create HintDb situated_db.
#[local] Hint Resolve situates_ret situates_ask situates_assert situates_breakpoints situates_watchpoints situates_interval apply_situates
  vm_add_breakpoint_situates vm_remove_breakpoint_situates vm_add_watchpoint_situates vm_remove_watchpoint_situates : situated_db.

Ltac situate := repeat first [solve [auto with situated_db] | apply situates_bind; [|intros] | case_match; cbn [negb]].

Lemma remove_breakpoint_situates uid addr : situates (remove_breakpoint uid addr).
Proof. unfold remove_breakpoint, has_breakpoint_at_address. situate. Qed.

Lemma remove_watchpoint_situates uid w : situates (remove_watchpoint uid w).
Proof. unfold remove_watchpoint, has_watchpoint_at_address. situate. Qed.

#[local] Hint Resolve remove_breakpoint_situates remove_watchpoint_situates : situated_db.

Lemma add_breakpoint_situates uid addr k : situates (add_breakpoint uid addr k).
Proof. unfold add_breakpoint, has_breakpoint_at_address. situate. Qed.

Lemma add_watchpoint_situates uid w k : situates (add_watchpoint uid w k).
Proof. unfold add_watchpoint, has_watchpoint_at_address. situate. Qed.

(** ** Single steps *)

Lemma last_index_ok m vec : m ∈ vec -> exists i, last_index_of m vec = Some i /\ vec !! i = Some m.
Proof.
  induction vec as [|x vec IH]; intros Hm; [by apply elem_of_nil in Hm|]. cbn. destruct (decide (m ∈ vec)) as [Hin|Hnot].
  - destruct (IH Hin) as (i & -> & Hi). by exists (S i).
  - apply elem_of_cons in Hm as [<-|?]; [|done]. rewrite bool_decide_eq_true_2 by done.
    assert (last_index_of m vec = None) as ->; [|by exists O]. clear IH. induction vec as [|y vec IH]; [done|]. cbn.
    apply not_elem_of_cons in Hnot as [Hne Hnot]. rewrite IH by done. by rewrite bool_decide_eq_false_2.
Qed.

Lemma index_of_ok m vec i : NoDup vec -> vec !! i = Some m -> index_of m vec = Some i.
Proof.
  revert i. induction vec as [|x vec IH]; intros [|i] Hd Hi; try done; cbn in *.
  - injection Hi as ->. by rewrite bool_decide_eq_true_2.
  - apply NoDup_cons in Hd as [Hx Hd]. rewrite bool_decide_eq_false_2; [by rewrite (IH i)|]. intros ->. by apply Hx, (list_elem_of_lookup_2 _ i).
Qed.

(** A mark that [find_singlestep_before] finds names the state just before. *)
Lemma find_singlestep_before_ok s m p : timeline_ok s -> names (store s) m p ->
  exists r, find_singlestep_before m s = (Ok r, s) /\ forall m', r = Some m' -> exists p', names (store s) m' p' /\ p = S p'.
Proof.
  intros Hok Hn. pose proof Hn as (x & Hx & Hk & _). unfold find_singlestep_before.
  rewrite (bind_ok _ _ _ _ _ (the_mark_eq _ _ _ Hx)), (bind_ok (ask _) _ s _ s eq_refl).
  destruct (last_index_ok m (vector_of (mkey x) s) (to_stored s Hok m x Hx)) as (i & -> & Hi). destruct i as [|i]; [by exists None|].
  destruct (to_vectors s Hok (mkey x)) as (ps & [Hf _ _] & Hflags).
  destruct (lookup_lt_is_Some_2 (vector_of (mkey x) s) i) as (m1 & Hm1); [apply lookup_lt_Some in Hi; lia|]. rewrite Hm1.
  destruct (Forall2_lookup_l _ _ _ _ _ Hf Hm1) as (p1 & Hp1 & Hn1). destruct (Forall2_lookup_l _ _ _ _ _ Hf Hi) as (p2 & Hp2 & Hn2).
  pose proof (names_unique _ _ _ _ Hn2 Hn) as ->. pose proof Hn1 as (x1 & Hx1 & _). rewrite (bind_ok _ _ _ _ _ (the_mark_eq _ _ _ Hx1)).
  eexists. split; [done|]. destruct (singlestep_to_next_mark_no_signal x1) eqn:Ef; [|done]. intros m' [= <-]. exists p1. split; [done|].
  destruct (Hflags i m1 x1 Hm1 Hx1 Ef) as (q & Hq & Hq'). congruence.
Qed.

Lemma adjacent ps j j' p : StronglySorted lt ps -> ps !! j = Some p -> ps !! j' = Some (S p) -> j' = S j.
Proof.
  intros Hs Hj Hj'. destruct (Nat.lt_trichotomy j' (S j)) as [Hlt|[->|Hlt]]; [|done|].
  - destruct (decide (j' = j)) as [->|]; [rewrite Hj in Hj'; injection Hj'; lia|]. pose proof (sorted_nth ps j' j (S p) p Hs Hj' Hj ltac:(lia)). lia.
  - destruct (lookup_lt_is_Some_2 ps (S j)) as (r & Hr); [apply lookup_lt_Some in Hj'; lia|].
    pose proof (sorted_nth ps j (S j) p r Hs Hj Hr ltac:(lia)). pose proof (sorted_nth ps (S j) j' r (S p) Hs Hr Hj' Hlt). lia.
Qed.

(** The flag of a mark may be set when the mark of the next state is there. *)
Lemma flag_next_ok s m p m' : timeline_ok s -> names (store s) m p -> names (store s) m' (S p) -> key_at (S p) = key_at p ->
  timeline_ok (put_store (alter (set_singlestep true) m (store s)) s).
Proof.
  intros Hok Hn Hn' Ek. pose proof Hok as [T1 T2 T3 T4 T5 T6 T7]. set (l' := alter (set_singlestep true) m (store s)).
  assert (forall n y, l' !! n = Some y -> exists z, store s !! n = Some z /\ mkey y = mkey z /\ checkpoint y = checkpoint z /\
    checkpoint_refcount y = checkpoint_refcount z /\ (n <> m -> y = z)) as Hback.
  { intros n y. unfold l'. destruct (decide (n = m)) as [->|Hne].
    - rewrite list_lookup_alter_eq. destruct (store s !! m) as [z|]; [|done]. intros [= <-]. by exists z.
    - rewrite list_lookup_alter_ne by done. intros Hy. by exists y. }
  assert (forall n q, names (store s) n q -> names l' n q) as Hg by (intros; by apply names_alter).
  split; cbn [store put_store marks_with_checkpoints current current_at_or_after_mark]; try done.
  - intros k. change (vector_of k _) with (vector_of k s). destruct (T1 k) as (ps & [V1 V2 V3] & Hfl). exists ps.
    split; [split; [exact (names_vec_grow _ _ _ _ Hg V1)|done|done]|]. intros j n y Hj Hy Hsf.
    destruct (Hback n y Hy) as (z & Hz & _ & _ & _ & Heq). destruct (decide (n = m)) as [->|Hne]; [|rewrite (Heq Hne) in Hsf; by apply (Hfl j n z)].
    destruct (Forall2_lookup_l _ _ _ _ _ V1 Hj) as (q & Hq & Hnq). pose proof (names_unique _ _ _ _ Hnq Hn) as ->. exists p. split; [done|].
    assert (key_at p = k) as Hkp by (rewrite Forall_forall in V3; by apply V3, (list_elem_of_lookup_2 _ j)).
    pose proof Hn' as (x' & Hx' & Hk' & _). pose proof (T2 m' x' Hx') as Hin. rewrite Hk', Ek, Hkp in Hin.
    apply list_elem_of_lookup in Hin as (j' & Hj'). destruct (Forall2_lookup_l _ _ _ _ _ V1 Hj') as (q' & Hq' & Hnq').
    pose proof (names_unique _ _ _ _ Hnq' Hn') as ->. by rewrite <- (adjacent ps j j' p V2 Hq Hq').
  - intros n y Hy. destruct (Hback n y Hy) as (z & Hz & -> & _). by apply T2.
  - intros n Hn0. destruct (T3 n Hn0) as (q & Hq & Hle). exists q. split; [by apply Hg|done].
  - intros n y Hy. destruct (Hback n y Hy) as (z & Hz & _ & E1 & E2 & _). pose proof (T4 n z Hz) as H. unfold checkpoint_ok in *.
    rewrite E1, E2. destruct (checkpoint z); [|done]. destruct H. auto.
  - intros k. rewrite T6. change (vector_of k _) with (vector_of k s). unfold checkpoints_in. do 2 f_equal.
    apply List.filter_ext. intros n. unfold has_checkpoint, l'. destruct (decide (n = m)) as [->|Hne].
    + rewrite list_lookup_alter_eq. by destruct (store s !! m).
    + by rewrite list_lookup_alter_ne.
Qed.

Lemma refs_flag s m : forall m', refs (put_store (alter (set_singlestep true) m (store s)) s) m' = refs s m'.
Proof.
  intros m'. unfold refs. cbn. destruct (decide (m' = m)) as [->|Hne]; [|by rewrite list_lookup_alter_ne].
  rewrite list_lookup_alter_eq. by destruct (store s !! m).
Qed.

(** [mark_after_singlestep], after a single step from the mark [from]. *)
Lemma mark_after_singlestep_ok fuel s from p r : timeline_ok s -> names (store s) from p -> singlestep_complete r = true ->
  (did_fast_forward r = false -> idx (current s) = S p) -> state_at (idx (current s)) <> None -> (steps_left (current s) < fuel)%nat ->
  exists s', mark_after_singlestep fuel from r s = (Ok tt, s') /\ timeline_ok s' /\ sought s s' /\ idx (current s') = idx (current s).
Proof.
  intros Hok Hn Hsc Hff Ht Hf. unfold mark_after_singlestep. rewrite Hsc, (bind_ok (S := timeline) (ASSERT true) _ s tt s eq_refl).
  destruct (mark_ok fuel s Hok Ht Hf) as (m & s1 & H1 & Hok1 & Hmk & Hm). rewrite (bind_ok _ _ _ _ _ H1).
  pose proof (names_marked _ _ _ _ Hmk Hn) as Hn1. pose proof Hm as (xm & Hxm & Hkm & _). pose proof Hn1 as (xf & Hxf & Hkf & _).
  rewrite (bind_ok _ _ _ _ _ (the_mark_eq _ _ _ Hxm)), (bind_ok _ _ _ _ _ (the_mark_eq _ _ _ Hxf)).
  destruct (did_fast_forward r) eqn:Eff; [exists s1; split_and!; [done|done|by apply marked_sought|apply (mk_idx _ _ Hmk)]|]. cbn [negb andb].
  destruct (bool_decide_reflect (mkey xm = mkey xf)) as [Ek|]; cbn [andb];
    [|exists s1; split_and!; [done|done|by apply marked_sought|apply (mk_idx _ _ Hmk)]].
  destruct (signal r); cbn [negb]; [exists s1; split_and!; [done|done|by apply marked_sought|apply (mk_idx _ _ Hmk)]|].
  assert (idx (current s1) = S p) as Ei by (rewrite (mk_idx _ _ Hmk); by apply Hff). rewrite Ei in Hm, Hkm.
  rewrite (bind_ok (ask _) _ s1 _ s1 eq_refl). destruct (to_vectors s1 Hok1 (mkey xm)) as (ps & Hv & _).
  pose proof (to_stored s1 Hok1 m xm Hxm) as (j' & Hj')%list_elem_of_lookup. pose proof (to_stored s1 Hok1 from xf Hxf) as Hin.
  rewrite <- Ek in Hin. apply list_elem_of_lookup in Hin as (j & Hj). pose proof Hv as [V1 V2 _].
  destruct (Forall2_lookup_l _ _ _ _ _ V1 Hj) as (q & Hq & Hnq). pose proof (names_unique _ _ _ _ Hnq Hn1) as ->.
  destruct (Forall2_lookup_l _ _ _ _ _ V1 Hj') as (q' & Hq' & Hnq'). pose proof (names_unique _ _ _ _ Hnq' Hm) as ->.
  rewrite (index_of_ok from _ j (vector_nodup _ _ _ _ Hv) Hj), bool_decide_eq_true_2 by (by rewrite <- (adjacent ps j j' p V2 Hq Hq')).
  rewrite (bind_ok (S := timeline) (ASSERT true) _ s1 tt s1 eq_refl). eexists. split; [done|]. split_and!.
  - apply (flag_next_ok s1 from p m); try done. congruence.
  - eapply sought_trans; [by apply marked_sought|]. split; try done; [intros; by apply names_alter|apply refs_flag].
  - apply (mk_idx _ _ Hmk).
Qed.

(** ** Runs of the timeline *)

(** Operations of a client, in any order: replaying takes the session to a later state, marks need a current
    task, a client removes only checkpoints it holds, reverse execution notes an interval without hits of watchpoints. *)
Inductive timeline_step (fuel : nat) : timeline -> timeline -> Prop :=
| ts_replay s c : (idx (current s) <= idx c)%nat -> timeline_step fuel s (put_current c s)
| ts_mark s m s' : state_at (idx (current s)) <> None -> (steps_left (current s) < fuel)%nat ->
    mark fuel s = (Ok m, s') -> timeline_step fuel s s'
| ts_add_checkpoint s m s' : can_clone (current s) = true -> state_at (idx (current s)) <> None -> (steps_left (current s) < fuel)%nat ->
    add_explicit_checkpoint fuel s = (Ok m, s') -> timeline_step fuel s s'
| ts_remove_checkpoint s m s' : owners s m < refs s m -> remove_explicit_checkpoint m s = (Ok tt, s') -> timeline_step fuel s s'
| ts_set_short s m s' : state_at (idx (current s)) <> None -> (steps_left (current s) < fuel)%nat ->
    set_short_checkpoint fuel s = (Ok m, s') -> timeline_step fuel s s'
| ts_maybe_add strategy s s' : state_at (idx (current s)) <> None -> (steps_left (current s) < fuel)%nat ->
    0 <= estimate_progress (current s) < 2 ^ 57 -> ascending (reverse_exec_checkpoints s) ->
    Forall (fun e => 0 <= snd e) (reverse_exec_checkpoints s) ->
    maybe_add_reverse_exec_checkpoint fuel strategy s = (Ok tt, s') -> timeline_step fuel s s'
| ts_mark_after_singlestep from p r s s' : names (store s) from p -> singlestep_complete r = true ->
    (did_fast_forward r = false -> idx (current s) = S p) -> state_at (idx (current s)) <> None -> (steps_left (current s) < fuel)%nat ->
    mark_after_singlestep fuel from r s = (Ok tt, s') -> timeline_step fuel s s'
| ts_seek_key k s s' : seek_to_before_key k s = (Ok tt, s') -> timeline_step fuel s s'
| ts_seek_mark m p s s' : names (store s) m p -> state_at (idx (current s)) <> None -> (steps_left (current s) < fuel)%nat ->
    seek_up_to_mark fuel m s = (Ok tt, s') -> timeline_step fuel s s'
| ts_interval iv s : timeline_step fuel s (put_interval iv s)
| ts_add_breakpoint u a k s r s' : add_breakpoint u a k s = (r, s') -> timeline_step fuel s s'
| ts_remove_breakpoint u a s r s' : remove_breakpoint u a s = (r, s') -> timeline_step fuel s s'
| ts_add_watchpoint u w k s r s' : add_watchpoint u w k s = (r, s') -> timeline_step fuel s s'
| ts_remove_watchpoint u w s r s' : remove_watchpoint u w s = (r, s') -> timeline_step fuel s s'.

Lemma situated_ok s s' : situated s s' -> timeline_ok s /\ owned s -> timeline_ok s' /\ owned s'.
Proof.
  intros (c & b & bs & ws & iv & -> & Hc) [[T1 T2 T3 T4 T5 T6 T7] [O1 O2]]. split; split; try done.
  cbn. intros m Hm. destruct (T3 m Hm) as (p & Hp & Hle). exists p. split; [done|lia].
Qed.

Lemma sought_owned s s' : sought s s' -> owned s -> owned s'.
Proof.
  intros [K1 K2 K3 K4] [H1 H2]. split.
  - intros m. rewrite K2. specialize (H1 m). unfold owners in *. by rewrite K3, K4.
  - rewrite K3. eapply sorted_impl; [|exact H2]. intros a b. by apply before_grow.
Qed.

Lemma remove_held_owned s s' m : owned s -> kept s s' -> ref_change s s' m (-1) -> owners s m < refs s m -> owned s'.
Proof.
  intros [H1 H2] [K1 K2 K3 K4 K5] Hr Hn. split.
  - intros m'. rewrite (Hr m'). specialize (H1 m'). unfold owners in *. rewrite K4, K5.
    destruct (bool_decide_reflect (m' = m)) as [->|]; lia.
  - rewrite K4. eapply sorted_impl; [|exact H2]. intros a b. by apply before_grow.
Qed.

Lemma step_keeps_invariant fuel s s' : timeline_step fuel s s' -> timeline_ok s /\ owned s -> timeline_ok s' /\ owned s'.
Proof.
  intros Hst [Hok How]. destruct Hst as [s c Hle|s m s' Ht Hf Hrun|s m s' Hc Ht Hf Hrun|s m s' Hr Hrun|s m s' Ht Hf Hrun
    |st s s' Ht Hf Hn Ha Hp Hrun|from p r s s' Hn Hsc Hff Ht Hf Hrun|k s s' Hrun|m p s s' Hn Ht Hf Hrun|iv s|u a k s r s' Hrun|u a s r s' Hrun|u w k s r s' Hrun|u w s r s' Hrun].
  - split; [|destruct How; by split]. destruct Hok as [T1 T2 T3 T4 T5 T6 T7]. split; try done. cbn. intros m Hm.
    destruct (T3 m Hm) as (p & Hp & Hle'). exists p. split; [done|lia].
  - destruct (mark_ok fuel s Hok Ht Hf) as (m1 & s1 & H1 & Hok1 & Hmk & _). rewrite Hrun in H1. injection H1 as -> ->.
    split; [done|]. by apply (sought_owned s), How; apply marked_sought.
  - destruct (add_explicit_checkpoint_ok fuel s Hok Hc Ht Hf) as (m1 & s1 & H1 & Hok1 & Hk & _ & Hr). rewrite Hrun in H1. injection H1 as -> ->.
    split; [done|]. by apply (owned_kept s s1 m1 1).
  - pose proof (ow_refs s How m) as Ho. assert (0 <= owners s m) as H0.
    { unfold owners. destruct (bool_decide (m ∈ _)), (bool_decide (_ = Some m)); lia. }
    destruct (remove_explicit_checkpoint_ok s m Hok ltac:(lia)) as (s1 & H1 & Hok1 & Hk & Hrc). rewrite Hrun in H1. injection H1 as ->.
    split; [done|]. by apply (remove_held_owned s s1 m).
  - destruct (set_short_ok fuel s Hok How Ht Hf) as (m1 & s1 & H1 & Hok1 & How1 & _). rewrite Hrun in H1. by injection H1 as -> ->.
  - destruct (maybe_add_ok fuel st s Hok How Hn Ha Hp Ht Hf) as (s1 & H1 & Hok1 & How1 & _). rewrite Hrun in H1. by injection H1 as ->.
  - destruct (mark_after_singlestep_ok fuel s from p r Hok Hn Hsc Hff Ht Hf) as (s1 & H1 & Hok1 & Hsk & _). rewrite Hrun in H1. injection H1 as ->.
    split; [done|]. by apply (sought_owned s).
  - destruct (seek_to_before_key_ok s k Hok) as (s1 & H1 & Hok1 & Hsk & _). rewrite Hrun in H1. injection H1 as ->.
    split; [done|]. by apply (sought_owned s).
  - destruct (seek_up_to_mark_ok fuel s m p Hok Hn Ht Hf) as (s1 & H1 & Hok1 & Hsk & _). rewrite Hrun in H1. injection H1 as ->.
    split; [done|]. by apply (sought_owned s).
  - apply (situated_ok s); [|done]. apply (situates_interval iv s).
  - apply (situated_ok s); [|done]. pose proof (add_breakpoint_situates u a k s) as H. by rewrite Hrun in H.
  - apply (situated_ok s); [|done]. pose proof (remove_breakpoint_situates u a s) as H. by rewrite Hrun in H.
  - apply (situated_ok s); [|done]. pose proof (add_watchpoint_situates u w k s) as H. by rewrite Hrun in H.
  - apply (situated_ok s); [|done]. pose proof (remove_watchpoint_situates u w s) as H. by rewrite Hrun in H.
Qed.

Lemma new_timeline_owned c : owned (new_timeline c).
Proof. split; [|constructor]. intros m. unfold owners, refs. cbn. done. Qed.

Lemma run_keeps_invariant fuel c s : rtc (timeline_step fuel) (new_timeline c) s -> timeline_ok s /\ owned s.
Proof.
  intros Hrun. assert (timeline_ok (new_timeline c) /\ owned (new_timeline c)) as Hi by (split; [apply new_timeline_ok|apply new_timeline_owned]).
  induction Hrun as [|s1 s2 s3 Hst _ IH]; [done|]. by apply IH, (step_keeps_invariant fuel s1).
Qed.

Lemma owned_checkpoint s e : timeline_ok s -> owned s -> e ∈ reverse_exec_checkpoints s ->
  exists x c, store s !! fst e = Some x /\ checkpoint x = Some c /\ names (store s) (fst e) (idx c).
Proof.
  intros Hok How He. pose proof (ow_refs s How (fst e)) as Hr. unfold owners, refs in Hr.
  rewrite bool_decide_eq_true_2 in Hr by (by apply list_elem_of_fmap_2). destruct (store s !! fst e) as [x|] eqn:Hx.
  - pose proof (to_checkpoints s Hok _ _ Hx) as Hc. unfold checkpoint_ok in Hc. destruct (checkpoint x) as [c|] eqn:Ec.
    + destruct Hc. by exists x, c.
    + destruct (bool_decide _); lia.
  - destruct (bool_decide _); lia.
Qed.

(** C7.  The order of marks is the order of execution: after any sequence of
    replaying, marking, making and dropping checkpoints, seeking back and
    setting breakpoints, `less_than` of two marks returns whether the state of
    the first comes before that of the second in the recording, also when the
    marks have the same key, without a failed assertion. *)
Theorem mark_order_is_execution_order fuel c s m1 m2 p1 p2 :
  rtc (timeline_step fuel) (new_timeline c) s -> names (store s) m1 p1 -> names (store s) m2 p2 ->
  less_than m1 m2 s = (Ok (p1 <? p2)%nat, s).
Proof. intros [Hok _]%run_keeps_invariant H1 H2. by apply less_than_ok. Qed.

(** C22.  `seek_up_to_mark` succeeds after any sequence of operations and leaves
    the session at or before the state of the mark, never past it, and no
    earlier than the key of any checkpoint whose key is before that of the mark;
    all marks stay valid. *)
Theorem seek_stops_before_mark fuel c s m p :
  rtc (timeline_step fuel) (new_timeline c) s -> names (store s) m p ->
  state_at (idx (current s)) <> None -> (steps_left (current s) < fuel)%nat ->
  exists s', seek_up_to_mark fuel m s = (Ok tt, s') /\ (idx (current s') <= p)%nat /\
    (forall m' q, names (store s) m' q -> names (store s') m' q) /\
    (forall m' x, store s !! m' = Some x -> checkpoint x <> None -> key_ltb (mkey x) (key_at p) = true ->
       key_leb (mkey x) (key_at (idx (current s'))) = true).
Proof.
  intros [Hok _]%run_keeps_invariant Hn Ht Hf. destruct (seek_up_to_mark_ok fuel s m p Hok Hn Ht Hf) as (s' & H1 & _ & Hsk & Hle & Hnear).
  exists s'. split_and!; try done. apply (sk_names _ _ Hsk).
Qed.

(** C34.  If the estimated progress of the session is not negative and below
    2^57, the checkpoints for reverse execution are in ascending order of a
    progress that is not negative, and the session has a state, then
    `maybe_add_reverse_exec_checkpoint`, after any sequence of operations, comes
    to an end without a failed assertion and does not move the session;
    afterwards no checkpoint for reverse execution is in the future and each of
    them still has its checkpoint.  Either nothing was done but to drop
    checkpoints of the future, or at most i + 1 checkpoints are in interval i,
    and if the progress is at most 500000 times 2^n, there are at most n + 5 in
    all: their number grows with the logarithm of the progress. *)
Theorem reverse_exec_checkpoints_few fuel c strategy s : let now := estimate_progress (current s) in
  rtc (timeline_step fuel) (new_timeline c) s -> 0 <= now < 2 ^ 57 -> ascending (reverse_exec_checkpoints s) ->
  Forall (fun e => 0 <= snd e) (reverse_exec_checkpoints s) -> state_at (idx (current s)) <> None -> (steps_left (current s) < fuel)%nat ->
  exists s', maybe_add_reverse_exec_checkpoint fuel strategy s = (Ok tt, s') /\ idx (current s') = idx (current s) /\
    (forall e, e ∈ reverse_exec_checkpoints s' -> snd e <= now /\ exists x c, store s' !! fst e = Some x /\ checkpoint x = Some c /\ names (store s') (fst e) (idx c)) /\
    ((exists later, reverse_exec_checkpoints s = reverse_exec_checkpoints s' ++ later) \/
     (forall i, (within (s64 (now - interval_length (inter_checkpoint_interval strategy) i)) (reverse_exec_checkpoints s') <= S i)%nat) /\
     (forall n, now <= low_overhead_inter_checkpoint_interval * 2 ^ Z.of_nat n -> (length (reverse_exec_checkpoints s') <= n + 5)%nat)).
Proof.
  intros now [Hok How]%run_keeps_invariant Hnow Has Hpos Ht Hf.
  destruct (maybe_add_ok fuel strategy s Hok How Hnow Has Hpos Ht Hf) as (s' & H1 & Hok' & How' & [Hi _] & Hle & Hfew).
  exists s'. split_and!; try done.
  - intros e He. split; [by apply Hle|]. by apply owned_checkpoint.
  - destruct Hfew as [Hlater|Hfew]; [by left|right]. split; [done|]. intros n Hn. by apply (few_in_all strategy now).
Qed.

(** C37.  When `lazy_reverse_singlestep` answers without replaying, the mark it
    returns names the state exactly one single step before. *)
Theorem lazy_step_goes_one_back fuel c s m p uid ip m' s' :
  rtc (timeline_step fuel) (new_timeline c) s -> names (store s) m p -> lazy_reverse_singlestep m uid ip s = (Ok (Some m'), s') ->
  exists p', names (store s) m' p' /\ p = S p' /\ s' = s.
Proof.
  intros [Hok _]%run_keeps_invariant Hn H. unfold lazy_reverse_singlestep in H.
  rewrite (bind_ok (ask no_watchpoints_hit_interval) _ s _ s eq_refl) in H. destruct (no_watchpoints_hit_interval s) as [[lo|] [hi|]]; try done.
  destruct (find_singlestep_before_ok s m p Hok Hn) as (r & Hr & Hone). rewrite (bind_ok _ _ _ _ _ Hr) in H. destruct r as [m1|]; [|done].
  assert (forall a b b' s1, less_than a b s = (Ok b', s1) -> s1 = s) as Hpure.
  { clear. intros a b b' s1. unfold less_than, the_mark, mbind, TM_bind, ask, liftT. cbn. destruct (store s !! a); [|done]. cbn.
    destruct (store s !! b); [|done]. cbn. repeat case_match; by intros [= _ <-]. }
  apply bind_Ok_inv in H as (b1 & s1 & H1 & H). pose proof (Hpure _ _ _ _ H1) as ->. destruct b1; [done|].
  apply bind_Ok_inv in H as (b2 & s1 & H2 & H). pose proof (Hpure _ _ _ _ H2) as ->. destruct b2; [|done]. cbn [negb] in H.
  unfold has_breakpoint_at_address in H. apply bind_Ok_inv in H as (h & s1 & H3 & H). apply bind_Ok_inv in H3 as (l & s2 & H4 & H3).
  injection H4 as <- <-. injection H3 as <- <-. destruct (existsb _ _); [done|]. injection H as <- <-.
  destruct (Hone m1 eq_refl) as (p' & Hp' & ->). by exists p'.
Qed.

(** Without breakpoints [unapply_breakpoints_internal] does nothing: the execution watchpoints stay applied. *)
Theorem exec_watchpoints_stay s : breakpoints s = [] -> unapply_breakpoints_internal s = (Ok tt, s).
Proof.
  intros Hb. unfold unapply_breakpoints_internal. rewrite (bind_ok (ask breakpoints) _ s _ s eq_refl), (bind_ok (ask watchpoints) _ s _ s eq_refl), Hb.
  done.
Qed.

(** Marking a state without a current task dereferences a null pointer when there is a mark with its key. *)
Theorem mark_without_task_crashes fuel s m x : current_task (current s) = None -> head (vector_of (session_mark_key (current s)) s) = Some m ->
  store s !! m = Some x -> mkey x = session_mark_key (current s) -> mark fuel s = (Err BadAccess, s).
Proof.
  intros Ht Hh Hx Hk. unfold mark, current_mark.
  destruct (vector_of (session_mark_key (current s)) s) as [|m' vec] eqn:Ev; [done|]. injection Hh as ->.
  unfold mbind, TM_bind, ask. rewrite Ev. cbn. unfold the_mark, mbind, TM_bind, ask. rewrite Hx. cbn. unfold liftT, equal_states.
  rewrite bool_decide_eq_true_2 by done. cbn. by rewrite Ht.
Qed.
End Order.

(** ** A recording *)

(** Six states, the second to the fifth with the same key. *)
Module SixStates.

Definition key_of_state (i : nat) : MarkKey :=
  match i with O => mkKey 1 0 0 | 1 | 2 | 3 | 4 => mkKey 2 10 0 | 5 => mkKey 3 20 0 | _ => mkKey 4 20 0 end%nat.

Definition state_of (i : nat) : option (Z * unit) := if (i <=? 5)%nat then Some (Z.of_nat i, tt) else None.

Definition step_result (i : nat) : ReplayResult * nat :=
  if (i <=? 4)%nat then (mkResult REPLAY_CONTINUE (Some (1, Z.of_nat (S i))) [] false false true false false false, S i)
  else (mkResult REPLAY_EXITED None [] false false false false false false, 6%nat).

#[export] Instance sessions : Sessions := {|
  session := nat; Registers := Z; ReturnAddressList := unit; reg_ip r := r;
  session_mark_key := key_of_state; current_task := state_of; ticks_at_start_of_current_event _ := 0;
  can_clone _ := true; clone c := c; restarted _ := O; estimate_progress c := 1000000 * Z.of_nat c;
  replay_step _ _ c := if (c <=? 5)%nat then step_result c else (mkResult REPLAY_EXITED None [] false false false false false false, c);
  find_address_space _ _ := true;
  vm_add_breakpoint _ _ c := (true, c); vm_remove_breakpoint _ _ c := c; vm_add_watchpoint _ _ c := (true, c); vm_remove_watchpoint _ _ c := c |}.

Lemma state_some i x : state_of i = Some x -> (i <= 5)%nat /\ x = (Z.of_nat i, tt).
Proof. unfold state_of. destruct (Nat.leb_spec i 5); [|done]. by intros [= <-]. Qed.

Lemma late_key i : (6 <= i)%nat -> key_of_state i = mkKey 4 20 0.
Proof. intros H. do 6 (destruct i as [|i]; [lia|]). done. Qed.

Lemma keys_grow_here i j : (i <= j)%nat -> key_leb (key_of_state i) (key_of_state j) = true.
Proof.
  intros H. destruct (Nat.le_gt_cases 6 j) as [Hj|Hj].
  - rewrite (late_key j Hj). do 6 (destruct i as [|i]; [done|]). done.
  - do 6 (destruct i as [|i]; [do 6 (destruct j as [|j]; [done || lia|]); lia|]). lia.
Qed.

Lemma step_here cmd stops (c : nat) r c' : replay_step cmd stops c = (r, c') ->
  ((c <= 4)%nat /\ c' = S c /\ rstatus r = REPLAY_CONTINUE /\ singlestep_complete r = true) \/
  ((5 <= c)%nat /\ c' = Nat.max 6 c /\ rstatus r = REPLAY_EXITED).
Proof.
  cbn. unfold step_result. destruct (Nat.leb_spec c 5).
  - destruct (Nat.leb_spec c 4); intros [= <- <-]; [left|right]; split_and!; try done; lia.
  - intros [= <- <-]. right. split_and!; try done; lia.
Qed.

#[export] Instance recording : Recording.
Proof.
  refine {| idx := fun c : session => (c : nat); key_at := key_of_state; state_at := state_of; steps_left := fun c : session => (7 - c)%nat |}; try done.
  - apply keys_grow_here.
  - intros i j x _ Hi%state_some Hj%state_some. destruct Hi as [_ ->], Hj as [_ Hj]. injection Hj. lia.
  - intros stops c r c' H%step_here. destruct H as [(H1 & -> & _)|(H1 & -> & _)]; (split; [lia|]).
    + intros j x Hj. lia.
    + intros j x Hj Hs%state_some Hk. lia.
  - intros stops c r c' H%step_here Hne j Hj Hk. destruct H as [(H1 & -> & Hr & _)|(H1 & -> & Hr)]; [congruence|].
    unfold state_of. destruct (Nat.leb_spec j 5); [lia|done].
  - intros stops c r c' H%step_here Hk Hr. destruct H as [(H1 & -> & _ & ->)|(H1 & -> & Hr')]; [|congruence].
    split_and!; [lia| |lia|lia]. unfold state_of. destruct (Nat.leb_spec (S c) 5); [done|lia].
Defined.

Abbreviation at_state n := (n%nat : @session sessions).

(** The fourth state is marked, then the second: the marks of the states between them are made on the way. *)
Abbreviation at_fourth := (mark 8 (put_current (at_state 3) (new_timeline (at_state 0)))).2.
Abbreviation back := (seek_to_before_key (mkKey 2 10 0) at_fourth).2.
Abbreviation at_second := (mark 8 (put_current (at_state 1) back)).2.

Lemma at_second_reached : rtc (timeline_step 8) (new_timeline (at_state 0)) at_second.
Proof.
  eapply rtc_l; [apply (ts_replay 8 _ (at_state 3)); cbn; lia|].
  eapply rtc_l; [apply (ts_mark 8 _ 0%nat at_fourth); [done|cbn; lia|by vm_compute]|].
  eapply rtc_l; [apply (ts_seek_key 8 (mkKey 2 10 0) _ back); by vm_compute|].
  eapply rtc_l; [apply (ts_replay 8 _ (at_state 1)); vm_compute; lia|].
  eapply rtc_l; [apply (ts_mark 8 _ 1%nat at_second); [done|vm_compute; lia|by vm_compute]|]. apply rtc_refl.
Qed.

Lemma second_named : names (store at_second) 1 1.
Proof. eexists. split; [vm_compute; reflexivity|]. by split_and!. Qed.

Lemma fourth_named : names (store at_second) 0 3.
Proof. eexists. split; [vm_compute; reflexivity|]. by split_and!. Qed.

Lemma mark_order_is_execution_order_witness :
  vector_of (mkKey 2 10 0) at_second = [1; 2; 0]%nat /\ (less_than 1 0 at_second).1 = Ok true /\ (less_than 0 1 at_second).1 = Ok false.
Proof.
  split; [reflexivity|]. split.
  - exact (f_equal fst (mark_order_is_execution_order 8 (at_state 0) at_second 1 0 1 3 at_second_reached second_named fourth_named)).
  - exact (f_equal fst (mark_order_is_execution_order 8 (at_state 0) at_second 0 1 3 1 at_second_reached fourth_named second_named)).
Defined.

(** A checkpoint at the second state; the session goes on to the last. *)
Abbreviation checkpointed := (add_explicit_checkpoint 8 at_second).2.
Abbreviation at_end := (put_current (at_state 5) checkpointed).

Lemma at_end_reached : rtc (timeline_step 8) (new_timeline (at_state 0)) at_end.
Proof.
  etransitivity; [exact at_second_reached|].
  eapply rtc_l; [apply (ts_add_checkpoint 8 _ 1%nat checkpointed); [done|done|vm_compute; lia|by vm_compute]|].
  eapply rtc_l; [apply (ts_replay 8 _ (at_state 5)); vm_compute; lia|]. apply rtc_refl.
Qed.

Lemma seek_stops_before_mark_witness : idx (current (seek_up_to_mark 8 0 at_end).2) = 1%nat /\
  exists s', seek_up_to_mark 8 0 at_end = (Ok tt, s') /\ (idx (current s') <= 3)%nat.
Proof.
  split; [reflexivity|]. destruct (seek_stops_before_mark 8 (at_state 0) at_end 0 3 at_end_reached) as (s' & H & Hle & _).
  - eexists. split; [vm_compute; reflexivity|]. by split_and!.
  - done.
  - vm_compute. lia.
  - by exists s'.
Defined.

(** Checkpoints for reverse execution at the first three states. *)
Abbreviation first_point := (maybe_add_reverse_exec_checkpoint 8 LOW_OVERHEAD (new_timeline (at_state 0))).2.
Abbreviation second_point := (maybe_add_reverse_exec_checkpoint 8 LOW_OVERHEAD (put_current (at_state 1) first_point)).2.
Abbreviation third_point := (maybe_add_reverse_exec_checkpoint 8 LOW_OVERHEAD (put_current (at_state 2) second_point)).2.
Abbreviation fourth_point := (put_current (at_state 3) third_point).

Ltac at_point := first [done | vm_compute; repeat constructor; congruence | vm_compute; split; congruence | vm_compute; lia].

Lemma fourth_point_reached : rtc (timeline_step 8) (new_timeline (at_state 0)) fourth_point.
Proof.
  eapply rtc_l; [apply (ts_maybe_add 8 LOW_OVERHEAD _ first_point); [at_point..|by vm_compute]|].
  eapply rtc_l; [apply (ts_replay 8 _ (at_state 1)); vm_compute; lia|].
  eapply rtc_l; [apply (ts_maybe_add 8 LOW_OVERHEAD _ second_point); [at_point..|by vm_compute]|].
  eapply rtc_l; [apply (ts_replay 8 _ (at_state 2)); vm_compute; lia|].
  eapply rtc_l; [apply (ts_maybe_add 8 LOW_OVERHEAD _ third_point); [at_point..|by vm_compute]|].
  eapply rtc_l; [apply (ts_replay 8 _ (at_state 3)); vm_compute; lia|]. apply rtc_refl.
Qed.

Lemma reverse_exec_checkpoints_few_witness :
  map snd (reverse_exec_checkpoints fourth_point) = [0; 1000000; 2000000] /\
  exists s', maybe_add_reverse_exec_checkpoint 8 LOW_OVERHEAD fourth_point = (Ok tt, s') /\
    forall e, e ∈ reverse_exec_checkpoints s' -> snd e <= 3000000.
Proof.
  split; [reflexivity|].
  destruct (reverse_exec_checkpoints_few 8 (at_state 0) LOW_OVERHEAD fourth_point fourth_point_reached) as (s' & H & _ & Hle & _); [at_point..|].
  exists s'. split; [done|]. intros e He. by destruct (Hle e He).
Defined.

Abbreviation quiet := (put_interval (Some 1%nat, Some 0%nat) at_second).

Lemma lazy_step_goes_one_back_witness :
  (lazy_reverse_singlestep 2 1 2 quiet).1 = Ok (Some 1%nat) /\ exists p', names (store quiet) 1 p' /\ 2%nat = S p'.
Proof.
  split; [reflexivity|].
  destruct (lazy_step_goes_one_back 8 (at_state 0) quiet 2 2 1 2 1 quiet) as (p' & H1 & H2 & _).
  - eapply rtc_r; [exact at_second_reached|]. apply ts_interval.
  - eexists. split; [vm_compute; reflexivity|]. by split_and!.
  - by vm_compute.
  - by exists p'.
Defined.
End SixStates.
